(* ===== verification/_CoqProject ===== *)
-Q . S2P
Prelude.v
Calendar.v
Json.v
Hash.v
Catalog.v
Params.v
Access.v
AuditTrail.v
Table.v
Programs.v
Store.v
Schema.v
DetailShapes.v
Diagnostics.v
Runs.v
RunLifecycle.v
RunAll.v
ScheduleModel.v
Scheduler.v
SchedulerInv.v
SchedulerRuns.v
SchedulerProps.v
ScheduleChanges.v
Coordinator.v
FixedPlans.v
FixedCsv.v
Inserts.v
FixedStore.v
FixedPublication.v
FixedExecution.v
FixedSource.v
SqlScan.v
SqlMarks.v
ReportParams.v
ReportBind.v
Totp.v
Secrets.v
BrowserStore.v
Mfa.v
UserAdmin.v
Accounts.v
BrowserInv.v
BrowserSystem.v
MfaProps.v
BrowserAuth.v
BrowserDemo.v
SessionLanes.v
ReportStore.v
ReportTemplates.v
ReportAudit.v
ReportExports.v
ExportWorker.v
ReportDemo.v
DatasetStore.v
Datasets.v
DatasetInv.v
DatasetCsv.v
DatasetPreview.v
DatasetWorker.v
DatasetAttempt.v
DatasetWorld.v
DatasetSystem.v
DatasetDemo.v
