(* ===== verification/Prelude.v ===== *)
(** * Verification library for the data-warehouse ingestion service

    The program under src/ fetches reports from a banking core ("Fincloud"),
    stores them in a MySQL warehouse, and serves them to browser users.  Its
    core is the life of an ingestion run: a user or the scheduler submits a
    job of a fixed catalog; a coordinator process claims the run, executes
    it under a heartbeat and finishes it; the execution stages what the
    source returned and publishes it together with the end of the run.
    Around it are reports on the warehouse with their background exports,
    datasets that users upload, and the security of the browser.  This
    library models these parts from the Go sources and proves them correct.

    ** How the parts interact

    - the catalog (internal/ingestion) says which jobs exist and which
      parameters a run of each takes;
    - the run repository (internal/ingestionrun) keeps runs in the database:
      queued, running under an owner and a heartbeat, finished; a "Run All"
      is a parent whose children are queued one after the other;
    - the scheduler (internal/scheduler) turns cron schedules into
      occurrences and submits a run per attempt through the repository;
    - the coordinator (internal/coordinator) claims and executes runs,
      recovers the runs of silent owners, and reconciles parents;
    - the executor (internal/ingestionexec) plans a fixed report load, fetches
      its members concurrently, and has internal/ingestionstore stage and
      publish them; fetches share logged-in clients through lanes
      (internal/fincloud/session_coordinator.go);
    - report templates (internal/reporting) keep SQL with typed parameters
      and bind what users submit into read-only queries;
    - report exports (internal/reportexport) run a template's query in the
      background, keep the artifact as a file, and hand it to its requester;
    - custom datasets (internal/customdataset) take CSV files into generated
      tables: workers stage rows under the number of their attempt, and a
      view shows the rows of the published attempts of one generation;
    - browser security (internal/browserauth, mfa, auth, user, access and the
      user and role features) keeps accounts, sessions and second factors in
      tables of their own, and decides who a request acts for.

    ** Files

    Prelude.v: errors, the transaction monad [Tx] (a function of the database
    that commits a new one or fails and changes nothing; [runTx] is
    database.RetryReplaySafeTx without its retries), the [tx] hint database
    and the tactics [tx_preserves], [tx_step], [tx_open]; strings, lists and
    options.  Programs.v: programs that call an environment ([prog]), what
    they ensure whatever the calls answer ([ensures]).

    Calendar.v (internal/ingestion/date.go), Json.v (encoding/json as it is
    used), Hash.v (SHA-256), Catalog.v (catalog.go, maintenance.go, the
    definitions of fixed.go), Params.v (internal/ingestionrun/params.go),
    Access.v (internal/access, internal/securityctx), AuditTrail.v
    (internal/audit/audit.go, with the interface [AuditLog]).

    Table.v (tables as finite maps with the statements sent to them), Store.v
    (the database: tables, keys, constraints of src/migrations), Schema.v (the
    invariant [schema] the server's constraints maintain).

    DetailShapes.v (internal/ingestion/detail.go: shapes and the whitelist of
    diagnostics), Diagnostics.v (MapperDiagnostics of
    internal/ingestionrun/model.go).

    Runs.v (internal/ingestionrun/repository.go: [Submit], [CreateRunAll],
    [Claim], [Heartbeat], [UpdateProgress], [Finish], [RecoverOneStale],
    [RequestCancellation], [ReconcileParent], ... one definition per method),
    RunLifecycle.v ([repository_step] and the lifecycle), RunAll.v (what the
    transactions do).

    ScheduleModel.v (internal/scheduler/model.go, interface [CronLibrary]),
    Scheduler.v (internal/scheduler/service.go, interface [RunSubmission]),
    SchedulerInv.v (invariants over [scheduler_step]), SchedulerRuns.v (the
    run repository discharges [RunSubmission]), SchedulerProps.v,
    ScheduleChanges.v (theorems).

    Coordinator.v (internal/coordinator/coordinator.go): the coordinator's
    maps with the database, its loops by rounds.

    FixedPlans.v, FixedCsv.v (internal/ingestion/fixed.go), Inserts.v
    (internal/ingestionstore/sql.go), FixedStore.v (fixed.go and
    fixed_contract.go of internal/ingestionstore), FixedPublication.v (its
    contract), FixedExecution.v (internal/ingestionexec/executor.go, interface
    [FincloudSource]), FixedSource.v (the composition).  SessionLanes.v
    (internal/fincloud/session_coordinator.go).

    SqlScan.v (internal/reporting/scanner.go, readonly.go), SqlMarks.v (what
    replacing placeholders does to the lexical structure), ReportParams.v
    (model.go and the parameters of parameters.go, interface
    [DecimalLibrary]), ReportBind.v ([Bind] of parameters.go).

    Totp.v (internal/mfa/totp.go, internal/auth/token.go), Secrets.v
    (internal/secretcrypto/crypto.go, interface [Aead]), BrowserStore.v (the
    tables of users, roles, sessions and codes), Mfa.v
    (internal/mfa/store.go), UserAdmin.v (features/users, roles and
    impersonation), Accounts.v (internal/user, access/bootstrap.go,
    app/admin.go), BrowserInv.v (the invariant [inv] and its preservation),
    BrowserSystem.v ([browser_step] and its executions), MfaProps.v,
    BrowserAuth.v (internal/browserauth, the password check a parameter),
    BrowserDemo.v (a concrete execution).

    ReportStore.v (the tables of report templates and exports),
    ReportTemplates.v (internal/reporting/repository.go, crypto.go),
    ReportAudit.v (internal/reporting/audit.go), ReportExports.v
    (internal/reportexport/repository.go and model.go, [Download] of
    features/reports/handler.go), ExportWorker.v (internal/reportexport,
    worker.go and storage.go), ReportDemo.v (a concrete execution).

    DatasetStore.v (the tables of custom datasets, the physical table and the
    view of each), Datasets.v (repository.go, jobs.go and ddl.go of
    internal/customdataset), DatasetInv.v (the invariant [datasets_ok] and
    what operations keep, [kept]), DatasetCsv.v and DatasetPreview.v (csv.go),
    DatasetWorker.v (worker.go as programs of calls), DatasetAttempt.v (what
    an attempt does whatever its calls answer), DatasetWorld.v (attempts,
    users, recovery and cleanup interleaved), DatasetSystem.v (what holds of
    every such world), DatasetDemo.v (concrete executions).

    ** What the theorems show

    Fixed reports: a published load shows exactly what the source returned,
    in order, for any interleaving of its workers
    ([fixed_load_publishes_source]); [Promote] implements the abstract
    publication "one load replaces its interval" ([Promote_refines]), only for
    complete loads ([Promote_complete]); rows shown always belong to the load
    recorded as published, whose run succeeded ([published_rows_owned]).
    Chunks and files: [ChunkDateRange_partition], [ParseFixedCSV_round_trip].
    Lanes never mix contexts and always serve their waiters
    ([sessions_exclusive], [waiters_progress]).

    Runs: the state machine over any sequence of transactions
    ([runs_lifecycle]), admission ([Claim_admission]), fencing of owners
    ([stale_owner_fenced]), and what submission does ([submitInTx_outcome]).

    Scheduler: invariants of its tables and at most one effective delivery per
    occurrence over any sequence of operations ([scheduler_invariants],
    [delivery_safe]); a due schedule is delivered ([process_delivers]).

    Coordinator: a claimed run settles ([executed_run_settles]).

    Report SQL: a query [Bind] returns is read-only and has one argument per
    mark ([Bind_read_only], [Bind_shape]); it is returned for every template
    that validates and values that normalise ([Bind_total]); values keep
    their types ([normalize_typed]).  One form of comment MySQL reads
    otherwise ([read_only_comment_gap]).

    Reports and exports: changes apply to the revision their author saw
    ([report_change_fenced]); audit events fit the log
    ([AuditParameters_bounded]); what a submission stores ([Submit_outcome]);
    lost attempts are refused ([export_fenced]); downloads are authorised and
    recorded ([Download_authorized]); the artifact of a succeeded job is on
    disk in every interleaving without lost answers ([artifacts_kept]), and
    can be lost with one ([lost_answer_loses_artifact]).

    Custom datasets: in every interleaving, with lost connections, requeued
    attempts and statements that run late, a view shows exactly the rows of
    the files of its generation ([datasets_publish_files]); finished imports,
    published schemas and retained files never change
    ([dataset_history_kept]); no step changes the table columns or the view
    of a published dataset ([active_objects_kept]), though it can be
    published without a view ([active_view_missing]); names and suggested
    types ([QueryNames_identifiers], [suggestion_fits]).

    Browser security, over any interleaving of transactions: the tables keep
    their invariant ([browser_invariants]) and an active administrator
    ([administrators_protected]); sessions come from accepted factors, a
    factor is accepted once, a challenge takes five attempts
    ([sessions_need_factors], [factors_accepted_once],
    [challenge_attempts]); failed sign-ins lock ([failed_logins_lock]).

    Beside these the files prove calendar arithmetic, round trips of
    manifests, parameters and templates, the functional behaviour of most
    operations and the termination of the loops as lemmas.

    ** Modelling decisions

    - A transaction is one atomic step; locks ([FOR UPDATE]) are what makes
      it one and are not modelled, except that [SKIP LOCKED] reads take the
      set of rows other transactions hold as an argument.  The server's clock
      is read once per transaction.  A multi-row [UPDATE] changes row by row.
      Auto-increment identifiers are not consumed by failed inserts.
    - JSON columns keep their text or the list it holds; DATE columns their
      text; instants are microseconds.  Column length limits, collations
      (texts compare by their bytes) and columns nothing reads are left out.
    - Texts of errors are shortened; what code compares or stores is kept.
    - Interfaces stand for code outside src/: [CronLibrary] (robfig/cron and
      the time-zone database), [FincloudSource] (the answers of the remote
      service, the same answer for the same request), [DecimalLibrary]
      (shopspring/decimal) and [Aead] (AES-GCM of a fixed key).  Password
      hashing is a parameter.  Interfaces between components ([AuditLog],
      [RunSubmission]) are discharged here.
    - Concurrency is interleaving: [repository_step], [scheduler_step],
      [fixed_step], [pool_step], [session_step], [export_step],
      [worker_step], [browser_step] and [world_step] allow any order of
      transactions of any number of processes.  The pool may work on every
      member at once, which includes every bound on its number of workers.
    - An attempt of a dataset import is a program; each of its calls is a
      step that may fail, or happen although its answer is an error, and an
      [INSERT] may run after its connection is gone.  [Ensure] is one step
      that may stop after any of its statements: the lock it holds orders it
      against other calls of [Ensure], and no attempt inserts before its own
      [Ensure] is over.  The content of a stored file never changes.
    - The coordinator's loops are functions of the rounds they make; what
      executing a run does is a parameter.
    - Fuel: date loops take the number of days of the interval plus one,
      chunk loops the same, the CSV readers the length of the text plus one,
      workers one step per request and one to finish, a batch that is halved
      the number of its records plus one, numbered query names the number of
      names in use plus one; each file proves that its fuel is enough, so
      that no result is lost to it.

    ** Not modelled

    HTTP handlers, pages, cookies and routing (internal/features, server,
    render, platform, web), the HTTP client of Fincloud with its logins and
    payloads, configuration, logging and process start-up: input and output
    around the core, or code whose behaviour is that of a library.  Of
    browser security, password hashing, the provisioning URI and the
    normalisation of names.  Of reports, the execution of queries with their
    connection pools, dynamic options, and the writer of workbooks.  Of
    custom datasets, the file storage, lists and samples, and the comparison
    of engine, collation and indexes with the server's catalogue.  Of the
    executor, the master, detail and maintenance jobs and the persistence of
    progress; of the storage, their tables; of the transactions, the retry
    after a deadlock.  The races between the statements of
    [RecoverOneStale] with a concurrent heartbeat are those of its
    conditional [UPDATE], which is modelled; two coordinators are two
    sequences of steps. *)

From stdpp Require Export base gmap list strings pretty.
From stdpp Require Import options.
From Stdlib Require Export Ascii ZArith Lia.

#[global] Set Default Proof Using "Type".

(** ** Errors

    Go's [error] values that the modelled code creates, compares with
    [errors.Is] or stores.  The sentinels keep their source names; an error
    built by [fmt.Errorf] carries its message; the first four are the
    server errors a statement can raise. *)
Inductive error : Type :=
  | ErrNoRows                      (* sql.ErrNoRows *)
  | ErrDuplicateKey                (* MySQL 1062 *)
  | ErrCheckConstraint             (* MySQL 3819 *)
  | ErrForeignKey                  (* MySQL 1452 *)
  | ErrJobBusy
  | ErrSourceDisabled
  | ErrSourceConfigurationRequired
  | ErrTransition
  | ErrOwnershipLost
  | ErrLeaseUnproven
  | ErrCancellationRequested
  | ErrCoordinatorShutdown
  | ErrRuntimeSettingsConflict
  | ErrConflict
  | ErrBacklog
  | ErrArchived
  | ErrInvalidDefinition (detail : string)
  | ErrInvalidBulkAction
  | ErrInvalidSelection
  | ErrFixedStale
  | Errorf (message : string).

#[export] Instance error_eq_dec : EqDecision error.
Proof. solve_decision. Defined.

(** ** Results and transactions

    A fallible Go function returns [result A]; work done on a transaction
    over a store [S] is a [Tx S A].  An error returned from a transaction
    rolls it back, so [Err] carries no store ([runTx] keeps the old one). *)
Inductive result (A : Type) : Type :=
  | Ok (value : A)
  | Err (e : error).
Arguments Ok {A} value.
Arguments Err {A} e.

#[export] Instance result_eq_dec {A} `{EqDecision A} : EqDecision (result A).
Proof. solve_decision. Defined.

Definition res_bind {A B} (m : result A) (k : A → result B) : result B :=
  match m with Ok a => k a | Err e => Err e end.

Definition isSome {A} (o : option A) : bool := match o with Some _ => true | None => false end.

Definition is_ok {A} (m : result A) : bool :=
  match m with Ok _ => true | Err _ => false end.

Definition Tx (S A : Type) : Type := S → result (A * S).

Definition tx_ret {S A} (a : A) : Tx S A := λ s, Ok (a, s).
Definition tx_fail {S A} (e : error) : Tx S A := λ _, Err e.
Definition tx_bind {S A B} (m : Tx S A) (k : A → Tx S B) : Tx S B :=
  λ s, match m s with Ok (a, s') => k a s' | Err e => Err e end.
Definition tx_gets {S A} (f : S → A) : Tx S A := λ s, Ok (f s, s).
Definition tx_modify {S} (f : S → S) : Tx S unit := λ s, Ok (tt, f s).
Definition tx_lift {S A} (m : result A) : Tx S A :=
  λ s, match m with Ok a => Ok (a, s) | Err e => Err e end.
(** [if !guard { return err }] *)
Definition tx_guard {S} (b : bool) (e : error) : Tx S unit :=
  if b then tx_ret tt else tx_fail e.
(** Observe the outcome of a statement instead of returning its error. *)
Definition tx_try {S A} (m : Tx S A) : Tx S (result A) :=
  λ s, match m s with Ok (a, s') => Ok (Ok a, s') | Err e => Ok (Err e, s) end.

(** BeginTxx / Commit / deferred Rollback around a transaction body. *)
Definition runTx {S A} (m : Tx S A) (s : S) : result A * S :=
  match m s with Ok (a, s') => (Ok a, s') | Err e => (Err e, s) end.

Declare Scope tx_scope.
Delimit Scope tx_scope with tx.
Notation "'let*' x ':=' m 'in' k" := (tx_bind m (λ x, k))
  (at level 10, x pattern, k at level 200) : tx_scope.
Notation "m ';;;' k" := (tx_bind m (λ _, k))
  (at level 100, right associativity) : tx_scope.
Notation "'let?' x ':=' m 'in' k" := (res_bind m (λ x, k))
  (at level 10, x pattern, k at level 200) : tx_scope.
Open Scope tx_scope.
Open Scope string_scope.
Open Scope list_scope.
Open Scope stdpp_scope.

Lemma res_bind_Ok {A B} (m : result A) (k : A → result B) b :
  res_bind m k = Ok b ↔ ∃ a, m = Ok a ∧ k a = Ok b.
Proof. destruct m; naive_solver. Qed.

Lemma tx_bind_Ok {S A B} (m : Tx S A) (k : A → Tx S B) s r :
  tx_bind m k s = Ok r ↔ ∃ a s', m s = Ok (a, s') ∧ k a s' = Ok r.
Proof.
  unfold tx_bind. split.
  - destruct (m s) as [[a s']|e]; [|done]. eauto.
  - by intros (a & s' & -> & ?).
Qed.

Lemma tx_bind_eq {S A B} (m : Tx S A) (k : A → Tx S B) s a s' :
  m s = Ok (a, s') → tx_bind m k s = k a s'.
Proof. unfold tx_bind. by intros ->. Qed.
Lemma tx_bind_err {S A B} (m : Tx S A) (k : A → Tx S B) s e : m s = Err e → tx_bind m k s = Err e.
Proof. unfold tx_bind. by intros ->. Qed.

Lemma tx_guard_Ok {S} b e (s : S) r :
  tx_guard b e s = Ok r ↔ b = true ∧ r = (tt, s).
Proof. unfold tx_guard, tx_ret, tx_fail. destruct b; naive_solver. Qed.

Lemma tx_lift_Ok {S A} (m : result A) (s : S) r :
  tx_lift m s = Ok r ↔ ∃ a, m = Ok a ∧ r = (a, s).
Proof. unfold tx_lift. destruct m; naive_solver. Qed.

Lemma runTx_Ok {S A} (m : Tx S A) s a s' :
  runTx m s = (Ok a, s') ↔ m s = Ok (a, s').
Proof. unfold runTx. destruct (m s) as [[??]|?]; naive_solver. Qed.

Lemma runTx_Err {S A} (m : Tx S A) s e s' :
  runTx m s = (Err e, s') → s' = s.
Proof. unfold runTx. destruct (m s) as [[??]|?]; naive_solver. Qed.

(** A transaction that never changes the store. *)
Definition readonly {S A} (m : Tx S A) : Prop :=
  ∀ s a s', m s = Ok (a, s') → s' = s.

(** A transaction preserves [P] when every committed run of it does. *)
Definition preserves {S A} (P : S → Prop) (m : Tx S A) : Prop :=
  ∀ s a s', P s → m s = Ok (a, s') → P s'.

Lemma preserves_ret {S A} (P : S → Prop) (a : A) : preserves P (tx_ret a).
Proof. intros s a' s' Hs [= <- <-]. done. Qed.
Lemma preserves_fail {S A} (P : S → Prop) e : preserves P (@tx_fail S A e).
Proof. intros s a s' Hs [=]. Qed.
Lemma preserves_gets {S A} (P : S → Prop) (f : S → A) : preserves P (tx_gets f).
Proof. intros s a s' Hs [= <- <-]. done. Qed.
Lemma preserves_lift {S A} (P : S → Prop) (m : result A) : preserves P (tx_lift m).
Proof. intros s a s' Hs (? & _ & [= _ ->])%tx_lift_Ok. done. Qed.
Lemma preserves_guard {S} (P : S → Prop) b e : preserves P (@tx_guard S b e).
Proof. intros s a s' Hs [_ [= _ ->]]%tx_guard_Ok. done. Qed.
Lemma preserves_bind {S A B} (P : S → Prop) (m : Tx S A) (k : A → Tx S B) :
  preserves P m → (∀ a, preserves P (k a)) → preserves P (tx_bind m k).
Proof. intros Hm Hk s b s' Hs (a & s1 & H1 & H2)%tx_bind_Ok. eapply Hk, H2. eauto. Qed.
Lemma preserves_try {S A} (P : S → Prop) (m : Tx S A) :
  preserves P m → preserves P (tx_try m).
Proof.
  intros Hm s a s' Hs. unfold tx_try. destruct (m s) as [[??]|?] eqn:E; naive_solver.
Qed.
Lemma preserves_modify {S} (P : S → Prop) (f : S → S) :
  (∀ s, P s → P (f s)) → preserves P (tx_modify f).
Proof. intros Hf s a s' Hs [= _ <-]. eauto. Qed.
Lemma preserves_runTx {S A} (P : S → Prop) (m : Tx S A) s :
  preserves P m → P s → P (runTx m s).2.
Proof. intros Hm Hs. unfold runTx. destruct (m s) as [[??]|?] eqn:E; simpl; eauto. Qed.

Create HintDb tx discriminated.
#[export] Hint Resolve preserves_ret preserves_fail preserves_gets preserves_lift
  preserves_guard preserves_try : tx.

(** Walk a transaction that is known to commit: one hypothesis per statement. *)
Ltac tx_step H :=
  lazymatch type of H with
  | tx_bind _ _ _ = Ok _ =>
      let a := fresh "a" in let s := fresh "s" in let H1 := fresh "Hs" in
      apply tx_bind_Ok in H as (a & s & H1 & H); tx_step H1
  | tx_ret _ _ = Ok _ => unfold tx_ret in H; simplify_eq H
  | tx_gets _ _ = Ok _ => unfold tx_gets in H; simplify_eq H
  | tx_modify _ _ = Ok _ => unfold tx_modify in H; simplify_eq H
  | tx_fail _ _ = Ok _ => discriminate H
  | tx_guard _ _ _ = Ok _ =>
      let Hg := fresh "Hg" in apply tx_guard_Ok in H as [Hg H]; simplify_eq H
  | tx_lift _ _ = Ok _ =>
      let Hl := fresh "Hl" in apply tx_lift_Ok in H as (? & Hl & H); simplify_eq H
  | (match ?x with _ => _ end) _ = Ok _ => let E := fresh "E" in destruct x eqn:E; try discriminate H
  | (if ?x then _ else _) _ = Ok _ => let E := fresh "E" in destruct x eqn:E; try discriminate H
  end.
Ltac tx_inv := repeat match goal with H : _ = Ok _ |- _ => progress tx_step H end.

(** Open a committed transaction: one hypothesis per statement that is not
    control flow. *)
Ltac tx_open H :=
  lazymatch type of H with
  | tx_bind _ _ _ = Ok _ =>
      let a := fresh "a" in let s := fresh "s" in let H1 := fresh "Hst" in
      apply tx_bind_Ok in H as (a & s & H1 & H); tx_open H1; tx_open H
  | tx_guard _ _ _ = Ok _ => let Hg := fresh "Hg" in apply tx_guard_Ok in H as [Hg H]; injection H as ? ?; subst
  | tx_lift _ _ = Ok _ => let Hl := fresh "Hl" in apply tx_lift_Ok in H as (? & Hl & H); injection H as ? ?; subst
  | tx_ret _ _ = Ok _ => injection H as ? ?; subst
  | tx_gets _ _ = Ok _ => injection H as ? ?; subst
  | tx_modify _ _ = Ok _ => injection H as ? ?; subst
  | tx_fail _ _ = Ok _ => discriminate H
  | _ => idtac
  end.

(** Reduce [preserves P m] to its statements. *)
Ltac tx_preserves :=
  repeat first
    [ solve [eauto with tx]
    | apply preserves_bind; [|intros ?]
    | apply preserves_try
    | match goal with |- preserves _ (match ?x with _ => _ end) => destruct x end ].

(** ** Strings as Go handles them: byte sequences *)

Fixpoint string_forallb (f : ascii → bool) (s : string) : bool :=
  match s with "" => true | String c s' => f c && string_forallb f s' end.

Fixpoint string_existsb (f : ascii → bool) (s : string) : bool :=
  match s with "" => false | String c s' => f c || string_existsb f s' end.

Definition string_map (f : ascii → ascii) : string → string :=
  fix go s := match s with "" => "" | String c s' => String (f c) (go s') end.

(** [strings.HasPrefix] with the remainder ([strings.CutPrefix]). *)
Fixpoint cut_prefix (prefix s : string) : option string :=
  match prefix, s with
  | "", _ => Some s
  | String p prefix', String c s' => if (p =? c)%char then cut_prefix prefix' s' else None
  | _, _ => None
  end.
Definition has_prefix (s prefix : string) : bool := bool_decide (is_Some (cut_prefix prefix s)).

(** [strings.Contains]. *)
Fixpoint contains (s sub : string) : bool :=
  has_prefix s sub || match s with "" => false | String _ s' => contains s' sub end.

Definition byte (n : N) : ascii := ascii_of_N n.
Definition code (c : ascii) : N := N_of_ascii c.
Definition in_range (lo hi : N) (c : ascii) : bool := (lo <=? code c)%N && (code c <=? hi)%N.
Definition is_lower : ascii → bool := in_range 97 122.
Definition is_upper : ascii → bool := in_range 65 90.
Definition is_digit : ascii → bool := in_range 48 57.
Definition to_lower (c : ascii) : ascii := if is_upper c then byte (code c + 32) else c.

Definition string_of_codes (l : list N) : string :=
  String.string_of_list_ascii (byte <$> l).

(** The UTF-8 encodings of the runes [unicode.IsSpace] accepts. *)
Definition space_runes : list (list N) :=
  [[9]; [10]; [11]; [12]; [13]; [32]; [194; 133]; [194; 160]; [225; 154; 128];
   [226; 128; 128]; [226; 128; 129]; [226; 128; 130]; [226; 128; 131]; [226; 128; 132];
   [226; 128; 133]; [226; 128; 134]; [226; 128; 135]; [226; 128; 136]; [226; 128; 137];
   [226; 128; 138]; [226; 128; 168]; [226; 128; 169]; [226; 128; 175]; [226; 129; 159];
   [227; 128; 128]]%N.

Fixpoint cut_any (prefixes : list string) (s : string) : option string :=
  match prefixes with
  | [] => None
  | p :: ps => match cut_prefix p s with Some r => Some r | None => cut_any ps s end
  end.

Fixpoint trim_left_go (prefixes : list string) (fuel : nat) (s : string) : string :=
  match fuel with
  | O => s
  | S fuel => match cut_any prefixes s with Some r => trim_left_go prefixes fuel r | None => s end
  end.

Definition string_rev (s : string) : string :=
  String.string_of_list_ascii (rev (String.list_ascii_of_string s)).

(** [strings.TrimSpace]: every removed rune has at least one byte, so the
    length of the text is enough fuel. *)
Definition trim_space (s : string) : string :=
  let l := trim_left_go (string_of_codes <$> space_runes) (String.length s) s in
  string_rev (trim_left_go (string_of_codes <$> (@rev N <$> space_runes)) (String.length l) (string_rev l)).

Definition string_concat (l : list string) : string := foldr String.app "" l.

(** *** UTF-8, as Go decodes it: the width of the first rune, 0 when the
    text does not start with a valid encoding *)
Definition continuation : ascii → bool := in_range 128 191.

Definition utf8_width (s : string) : nat :=
  match s with
  | "" => 0
  | String a s1 =>
      if (code a <? 128)%N then 1 else
      match s1 with
      | "" => 0
      | String b s2 =>
          if in_range 194 223 a then (if continuation b then 2 else 0) else
          match s2 with
          | "" => 0
          | String c s3 =>
              if in_range 224 239 a then
                (if in_range (if (code a =? 224)%N then 160 else 128) (if (code a =? 237)%N then 159 else 191) b &&
                    continuation c then 3 else 0)
              else match s3 with
              | "" => 0
              | String e _ =>
                  if in_range 240 244 a &&
                     in_range (if (code a =? 240)%N then 144 else 128) (if (code a =? 244)%N then 143 else 191) b &&
                     continuation c && continuation e then 4 else 0
              end
          end
      end
  end%nat.

(** The encoding of U+FFFD. *)
Definition rune_error : string := string_of_codes [239; 191; 189]%N.

(** [[]rune(s)], each rune as its encoding; a byte that starts no valid
    encoding is one replacement rune. *)
Fixpoint runes_from (skip : nat) (s : string) : list string :=
  match s with
  | "" => []
  | String _ s' =>
      match skip with
      | S skip => runes_from skip s'
      | O =>
          match utf8_width s with
          | O => rune_error :: runes_from 0 s'
          | S w => String.substring 0 (S w) s :: runes_from w s'
          end
      end
  end.
Definition runes : string → list string := runes_from 0.
(** [utf8.ValidString]: decoding replaces nothing. *)
Definition ValidString (s : string) : bool := (string_concat (runes s) =? s)%string.

(** [s[:n]] *)
Definition prefix_of (n : nat) (s : string) : string := String.substring 0 n s.
(** [for end > 0 && !utf8.ValidString(valid[:end]) { end-- }] *)
Fixpoint valid_end (n : nat) (s : string) : nat :=
  match n with O => O | S n' => if ValidString (prefix_of n s) then n else valid_end n' s end.

(** [strings.Map] with the mapping that blanks the ASCII controls. *)
Definition blank_control (rune : string) : string :=
  match rune with
  | String c "" => if (code c <? 32)%N || (code c =? 127)%N then " " else rune
  | _ => rune
  end.

(** Control characters blanked, then cut to [limit] runes. *)
Definition blanked (limit : nat) (s : string) : string :=
  string_concat (take limit (blank_control <$> runes s)).

Lemma string_app_cons c (a b : string) : String c a +:+ b = String c (a +:+ b).
Proof. reflexivity. Qed.
Lemma string_app_nil (b : string) : "" +:+ b = b.
Proof. reflexivity. Qed.
Lemma string_app_assoc (a b c : string) : (a +:+ b) +:+ c = a +:+ (b +:+ c).
Proof. induction a as [|x a IH]; [done|]. by rewrite !string_app_cons, IH. Qed.
Lemma string_app_nil_r (s : string) : s +:+ "" = s.
Proof. induction s as [|c s IH]; [done|]. by rewrite string_app_cons, IH. Qed.
Lemma string_length_app (a b : string) :
  String.length (a +:+ b) = (String.length a + String.length b)%nat.
Proof. induction a as [|x a IH]; [done|]. rewrite string_app_cons. simpl. by rewrite IH. Qed.
