(* ===== verification/Calendar.v ===== *)
(** * Civil dates (src/internal/ingestion/date.go)

    [CalendarDate] is a proleptic Gregorian civil date.  Go's [time.Date],
    [AddDate], [Format] and [Parse] are modelled for the layout
    "2006-01-02"; day arithmetic goes through the number of days since
    1970-01-01, checked here against the leap-year rules over one full
    400-year cycle.  Instants are integers: microseconds since the epoch. *)

From S2P Require Import Prelude.

Open Scope Z_scope.

(** ** Instants and durations *)
Definition instant := Z.
Definition microsecond : Z := 1.
Definition second : Z := 1000000.
Definition minute : Z := 60 * second.
Definition hour : Z := 60 * minute.
Definition day_length : Z := 24 * hour.

(** ** The Gregorian calendar *)
Record CalendarDate : Type := mkDate { year : Z; month : Z; day : Z }.

#[export] Instance CalendarDate_eq_dec : EqDecision CalendarDate.
Proof. solve_decision. Defined.

Definition zero_date : CalendarDate := mkDate 0 0 0.

Definition is_leap (y : Z) : bool :=
  (y mod 4 =? 0) && (negb (y mod 100 =? 0) || (y mod 400 =? 0)).

Definition days_in (y m : Z) : Z :=
  if m =? 2 then (if is_leap y then 29 else 28)
  else if (m =? 4) || (m =? 6) || (m =? 9) || (m =? 11) then 30 else 31.

Definition valid_date (d : CalendarDate) : bool :=
  (1 <=? month d) && (month d <=? 12) && (1 <=? day d) && (day d <=? days_in (year d) (month d)).

Definition next_day (d : CalendarDate) : CalendarDate :=
  if day d <? days_in (year d) (month d) then mkDate (year d) (month d) (day d + 1)
  else if month d <? 12 then mkDate (year d) (month d + 1) 1
  else mkDate (year d + 1) 1 1.

(** Days since 1970-01-01, counting years from 1 March. *)
Definition date_days (d : CalendarDate) : Z :=
  let y := if month d <=? 2 then year d - 1 else year d in
  let era := y / 400 in
  let yoe := y mod 400 in
  let mp := if 2 <? month d then month d - 3 else month d + 9 in
  let doy := (153 * mp + 2) / 5 + day d - 1 in
  let doe := yoe * 365 + yoe / 4 - yoe / 100 + doy in
  era * 146097 + doe - 719468.

Definition days_date (n : Z) : CalendarDate :=
  let z := n + 719468 in
  let era := z / 146097 in
  let doe := z mod 146097 in
  let c := Z.min 3 (doe / 36524) in
  let r := doe - c * 36524 in
  let q := r / 1461 in
  let r' := r - q * 1461 in
  let a := Z.min 3 (r' / 365) in
  let doy := r' - a * 365 in
  let mp := (5 * doy + 2) / 153 in
  let d := doy - (153 * mp + 2) / 5 + 1 in
  let m := if mp <? 10 then mp + 3 else mp - 9 in
  let y := 400 * era + 100 * c + 4 * q + a in
  mkDate (if m <=? 2 then y + 1 else y) m d.

(** ** date.go *)

(** [CalendarDateFromTime]: the clock fields of an instant shown at a fixed
    UTC offset. *)
Definition CalendarDateFromTime (offset : Z) (value : instant) : CalendarDate :=
  days_date ((value + offset) / day_length).

Definition IsZero (date : CalendarDate) : bool := year date =? 0.

Definition AddDays (date : CalendarDate) (days : Z) : CalendarDate :=
  if IsZero date then date else days_date (date_days date + days).

Definition digit (n : Z) : ascii := ascii_of_N (Z.to_N (48 + n)).
Definition digit_value (c : ascii) : option Z :=
  let n := Z.of_N (N_of_ascii c) - 48 in
  if (0 <=? n) && (n <=? 9) then Some n else None.

Definition pad2 (n : Z) : string :=
  String (digit (n / 10)) (String (digit (n mod 10)) "").
Definition pad4 (n : Z) : string :=
  String (digit (n / 1000)) (String (digit (n / 100 mod 10)) (pad2 (n mod 100))).
(** Go's [appendInt(b, year, 4)]. *)
Definition year_string (y : Z) : string :=
  let u := Z.abs y in
  (if y <? 0 then "-" else "") +:+ (if u <=? 9999 then pad4 u else pretty (Z.to_N u)).

(** [time.Date(...).Format("2006-01-02")] of a civil date. *)
Definition format_date (date : CalendarDate) : string :=
  year_string (year date) +:+ "-" +:+ pad2 (month date) +:+ "-" +:+ pad2 (day date).

Definition date_string (date : CalendarDate) : string :=
  if IsZero date then "" else format_date date.

Definition parse2 (a b : ascii) : option Z :=
  x ← digit_value a; y ← digit_value b; Some (10 * x + y).

(** [time.Parse("2006-01-02", value)]. *)
Definition ParseCalendarDate (value : string) : result CalendarDate :=
  match String.list_ascii_of_string value with
  | [y1; y2; y3; y4; s1; m1; m2; s2; d1; d2] =>
      match parse2 y1 y2, parse2 y3 y4, parse2 m1 m2, parse2 d1 d2 with
      | Some yh, Some yl, Some m, Some d =>
          let date := mkDate (100 * yh + yl) m d in
          if (s1 =? "-")%char && (s2 =? "-")%char && valid_date date then Ok date
          else Err (Errorf "parsing time")
      | _, _, _, _ => Err (Errorf "parsing time")
      end
  | _ => Err (Errorf "parsing time")
  end.

Definition jakartaOffset : Z := 7 * hour.

(** [CalendarDateFromTime(now.In(jakartaLocation).AddDate(0, 0, -1))]. *)
Definition ResolvePreviousCalendarDayJakarta (now : instant) : CalendarDate :=
  days_date ((now + jakartaOffset) / day_length - 1).

(** [left.String() <= right.String()]: Go compares strings bytewise. *)
Definition string_le (a b : string) : bool :=
  match String.compare a b with Gt => false | _ => true end.

(** ** Calendar lemmas *)

Lemma is_leap_spec y :
  is_leap y = true ↔ y mod 4 = 0 ∧ (y mod 100 ≠ 0 ∨ y mod 400 = 0).
Proof.
  unfold is_leap. rewrite andb_true_iff, orb_true_iff, negb_true_iff, Z.eqb_neq, !Z.eqb_eq.
  done.
Qed.

Lemma days_in_bounds y m : 28 <= days_in y m <= 31.
Proof. unfold days_in. repeat case_match; lia. Qed.

Lemma valid_date_spec d :
  valid_date d = true ↔ 1 <= month d <= 12 ∧ 1 <= day d <= days_in (year d) (month d).
Proof. unfold valid_date. rewrite !andb_true_iff, !Z.leb_le. lia. Qed.

(** A year counted from 1 March, split into cycles of 400, 100, 4 and 1
    years: [mlast] says whether it ends with a leap day. *)
Definition mlast (c q a : Z) : bool := (a =? 3) && ((q <? 24) || (c =? 3)).

Lemma march_year_split y :
  ∃ era c q a, y = 400 * era + 100 * c + 4 * q + a ∧ 0 <= c <= 3 ∧ 0 <= q <= 24 ∧ 0 <= a <= 3.
Proof.
  exists (y / 400), (y mod 400 / 100), (y mod 100 / 4), (y mod 4).
  Z.to_euclidean_division_equations; lia.
Qed.

Lemma mlast_leap era c q a :
  0 <= c <= 3 → 0 <= q <= 24 → 0 <= a <= 3 →
  is_leap (400 * era + 100 * c + 4 * q + a + 1) = mlast c q a.
Proof.
  intros. apply eq_true_iff_eq. rewrite is_leap_spec. unfold mlast.
  rewrite andb_true_iff, orb_true_iff, Z.ltb_lt, !Z.eqb_eq.
  Z.to_euclidean_division_equations; lia.
Qed.

(** Month and day of the [doy]-th day after 1 March. *)
Definition month_start (mp : Z) : Z := (153 * mp + 2) / 5.

Lemma month_cases mp : 0 <= mp <= 11 →
  mp = 0 ∨ mp = 1 ∨ mp = 2 ∨ mp = 3 ∨ mp = 4 ∨ mp = 5 ∨
  mp = 6 ∨ mp = 7 ∨ mp = 8 ∨ mp = 9 ∨ mp = 10 ∨ mp = 11.
Proof. lia. Qed.

Lemma month_of_doy mp d :
  0 <= mp <= 11 → 1 <= d → (mp < 11 → d <= month_start (mp + 1) - month_start mp) →
  (mp = 11 → d <= 29) →
  (5 * (month_start mp + d - 1) + 2) / 153 = mp.
Proof.
  intros Hmp Hd Hlt H11. symmetry. apply Z.div_unique with (r := 5 * (month_start mp + d - 1) + 2 - 153 * mp); [left|lia].
  unfold month_start in *.
  destruct (month_cases mp Hmp) as [?|[?|[?|[?|[?|[?|[?|[?|[?|[?|[?|?]]]]]]]]]]]; subst;
    vm_compute (_ / _) in *; lia.
Qed.

Lemma days_date_of_parts era c q a doy :
  0 <= c <= 3 → 0 <= q <= 24 → 0 <= a <= 3 → 0 <= doy →
  doy <= (if mlast c q a then 365 else 364) →
  days_date (146097 * era + 36524 * c + 1461 * q + 365 * a + doy - 719468) =
  let mp := (5 * doy + 2) / 153 in
  let m := if mp <? 10 then mp + 3 else mp - 9 in
  let y := 400 * era + 100 * c + 4 * q + a in
  mkDate (if m <=? 2 then y + 1 else y) m (doy - month_start mp + 1).
Proof.
  intros Hc Hq Ha Hdoy Hlast. unfold days_date.
  assert (Hdoe : 0 <= 36524 * c + 1461 * q + 365 * a + doy < 146097 ∧
    Z.min 3 ((36524 * c + 1461 * q + 365 * a + doy) / 36524) = c ∧
    (1461 * q + 365 * a + doy) / 1461 = q ∧
    Z.min 3 ((365 * a + doy) / 365) = a).
  { unfold mlast in Hlast.
    destruct (Z.eqb_spec a 3), (Z.ltb_spec q 24), (Z.eqb_spec c 3); simpl in Hlast;
      Z.to_euclidean_division_equations; lia. }
  destruct Hdoe as (Hb & Ec & Eq & Ea).
  set (doe := 36524 * c + 1461 * q + 365 * a + doy) in *.
  replace (146097 * era + 36524 * c + 1461 * q + 365 * a + doy - 719468 + 719468)
    with (era * 146097 + doe) by (unfold doe; lia).
  rewrite Z.div_add_l, (Z.div_small doe) by lia.
  rewrite (Z.add_comm (era * 146097)), Z.mod_add, (Z.mod_small doe) by lia.
  rewrite Z.add_0_r. cbv zeta.
  rewrite Ec. replace (doe - c * 36524) with (1461 * q + 365 * a + doy) by (unfold doe; lia).
  rewrite Eq. replace (1461 * q + 365 * a + doy - q * 1461) with (365 * a + doy) by lia.
  rewrite Ea. replace (365 * a + doy - a * 365) with doy by lia.
  done.
Qed.

(** The same split seen from a valid date. *)
Lemma date_days_parts d era c q a mp :
  0 <= c <= 3 → 0 <= q <= 24 → 0 <= a <= 3 →
  (if month d <=? 2 then year d - 1 else year d) = 400 * era + 100 * c + 4 * q + a →
  mp = (if 2 <? month d then month d - 3 else month d + 9) →
  date_days d = 146097 * era + 36524 * c + 1461 * q + 365 * a + (month_start mp + day d - 1) - 719468.
Proof.
  intros Hc Hq Ha Hy ->. unfold date_days, month_start. cbv zeta. rewrite Hy.
  replace ((400 * era + 100 * c + 4 * q + a) / 400) with era
    by (apply Z.div_unique with (r := 100 * c + 4 * q + a); lia).
  replace ((400 * era + 100 * c + 4 * q + a) mod 400) with (100 * c + 4 * q + a)
    by (apply Z.mod_unique with (q := era); lia).
  replace ((100 * c + 4 * q + a) / 4) with (25 * c + q)
    by (apply Z.div_unique with (r := a); lia).
  replace ((100 * c + 4 * q + a) / 100) with c
    by (apply Z.div_unique with (r := 4 * q + a); lia).
  lia.
Qed.

Lemma month_ranges m : 1 <= m <= 12 →
  m = 1 ∨ m = 2 ∨ m = 3 ∨ m = 4 ∨ m = 5 ∨ m = 6 ∨
  m = 7 ∨ m = 8 ∨ m = 9 ∨ m = 10 ∨ m = 11 ∨ m = 12.
Proof. lia. Qed.

Ltac each_month H :=
  destruct H as [H|[H|[H|[H|[H|[H|[H|[H|[H|[H|[H|H]]]]]]]]]]]; subst.

Lemma days_date_days d : valid_date d = true → days_date (date_days d) = d.
Proof.
  rewrite valid_date_spec. destruct d as [y m dd]; simpl. intros [Hm Hd].
  destruct (march_year_split (if m <=? 2 then y - 1 else y)) as (era & c & q & a & Hy & Hc & Hq & Ha).
  set (mp := if 2 <? m then m - 3 else m + 9).
  rewrite (date_days_parts _ era c q a mp) by done. simpl.
  assert (Hleap : m = 2 → days_in y m = if mlast c q a then 29 else 28).
  { intros ->. simpl in Hy. unfold days_in. simpl.
    replace y with (400 * era + 100 * c + 4 * q + a + 1) by lia. by rewrite mlast_leap. }
  assert (Hmp : 0 <= mp <= 11) by (unfold mp; destruct (Z.ltb_spec 2 m); lia).
  assert (Hin : m ≠ 2 → days_in y m = month_start (mp + 1) - month_start mp).
  { intros Hne. unfold mp, days_in. pose proof (month_ranges m Hm) as Hc'.
    each_month Hc'; try done; lia. }
  assert (Hmp2 : mp = 11 ↔ m = 2) by (unfold mp; destruct (Z.ltb_spec 2 m); lia).
  assert (Hmd : (5 * (month_start mp + dd - 1) + 2) / 153 = mp).
  { apply month_of_doy; [lia|lia| |].
    - intros ?. rewrite <- (Hin ltac:(lia)). lia.
    - intros ?. specialize (Hleap ltac:(lia)). destruct (mlast c q a); lia. }
  rewrite days_date_of_parts; try done.
  - cbv zeta. rewrite Hmd.
    assert (Hm' : (if mp <? 10 then mp + 3 else mp - 9) = m).
    { unfold mp. destruct (Z.ltb_spec 2 m); destruct (Z.ltb_spec (m - 3) 10),
        (Z.ltb_spec (m + 9) 10); lia. }
    rewrite Hm'. f_equal; [|lia].
    destruct (Z.leb_spec m 2); lia.
  - assert (0 <= month_start mp) by (unfold month_start; apply Z.div_pos; lia). lia.
  - destruct (Z.eq_dec m 2) as [->|Hne].
    + specialize (Hleap eq_refl). assert (mp = 11) as -> by (apply Hmp2; done).
      vm_compute (month_start 11). destruct (mlast c q a); lia.
    + specialize (Hin Hne). assert (month_start (mp + 1) <= 337).
      { unfold month_start. apply Z.div_le_upper_bound; lia. }
      destruct (mlast c q a); lia.
Qed.

(** Every day number splits into cycles and a day of a March year. *)
Lemma day_split n : ∃ era c q a doy,
  n = 146097 * era + 36524 * c + 1461 * q + 365 * a + doy - 719468 ∧
  0 <= c <= 3 ∧ 0 <= q <= 24 ∧ 0 <= a <= 3 ∧ 0 <= doy <= (if mlast c q a then 365 else 364).
Proof.
  assert (Hdoe : 0 <= (n + 719468) mod 146097 < 146097) by (apply Z.mod_pos_bound; lia).
  pose proof (Z.div_mod (n + 719468) 146097 ltac:(lia)) as Hn.
  revert Hdoe Hn. generalize ((n + 719468) / 146097) as era, ((n + 719468) mod 146097) as doe.
  intros era doe Hdoe Hn.
  assert (Hc : ∃ c r, doe = 36524 * c + r ∧ 0 <= c <= 3 ∧ 0 <= r <= 36524 ∧ (c < 3 → r < 36524)).
  { exists (Z.min 3 (doe / 36524)), (doe - 36524 * Z.min 3 (doe / 36524)).
    Z.to_euclidean_division_equations; lia. }
  destruct Hc as (c & r & -> & Hc & Hr & Hr').
  assert (Hq : ∃ q r', r = 1461 * q + r' ∧ 0 <= q <= 24 ∧ 0 <= r' < 1461 ∧ (c < 3 → q = 24 → r' < 1460)).
  { exists (r / 1461), (r - 1461 * (r / 1461)). Z.to_euclidean_division_equations; lia. }
  destruct Hq as (q & r' & -> & Hq & Hr1 & Hr2).
  assert (Ha : ∃ a doy, r' = 365 * a + doy ∧ 0 <= a <= 3 ∧ 0 <= doy <= 365 ∧
    (a < 3 → doy < 365) ∧ (r' < 1460 → doy < 365)).
  { exists (Z.min 3 (r' / 365)), (r' - 365 * Z.min 3 (r' / 365)).
    Z.to_euclidean_division_equations; lia. }
  destruct Ha as (a & doy & -> & Ha & Hd & Hd1 & Hd2).
  exists era, c, q, a, doy. repeat split; try lia. unfold mlast.
  destruct (Z.eqb_spec a 3), (Z.ltb_spec q 24), (Z.eqb_spec c 3); simpl; lia.
Qed.

Lemma doy_split doy : 0 <= doy <= 365 → ∃ mp,
  (5 * doy + 2) / 153 = mp ∧ 0 <= mp <= 11 ∧ month_start mp <= doy ∧
  (mp < 11 → doy < month_start (mp + 1)).
Proof.
  intros Hd. eexists. split; [done|]. unfold month_start.
  Z.to_euclidean_division_equations; lia.
Qed.

Lemma days_in_march mp y : 0 <= mp < 11 →
  days_in y (if mp <? 10 then mp + 3 else mp - 9) = month_start (mp + 1) - month_start mp.
Proof.
  intros Hmp. assert (Hc : 0 <= mp <= 11) by lia.
  destruct (month_cases mp Hc) as [->|[->|[->|[->|[->|[->|[->|[->|[->|[->|[->| ->]]]]]]]]]]];
    try reflexivity; lia.
Qed.

Lemma days_date_valid_inv n :
  valid_date (days_date n) = true ∧ date_days (days_date n) = n.
Proof.
  destruct (day_split n) as (era & c & q & a & doy & -> & Hc & Hq & Ha & Hd).
  rewrite days_date_of_parts by (done || lia). cbv zeta.
  destruct (doy_split doy) as (mp & -> & Hmp & Hlo & Hhi); [destruct (mlast c q a); lia|].
  assert (Hm : 1 <= (if mp <? 10 then mp + 3 else mp - 9) <= 12)
    by (destruct (Z.ltb_spec mp 10); lia).
  split.
  - apply valid_date_spec. simpl. split; [done|]. split; [lia|].
    destruct (Z.eq_dec mp 11) as [->|Hne].
    + change (11 <? 10) with false. change (11 - 9) with 2. cbv iota.
      change (2 <=? 2) with true. cbv iota. unfold days_in. change (2 =? 2) with true. cbv iota.
      rewrite mlast_leap by done.
      change (month_start 11) with 337. destruct (mlast c q a); lia.
    + rewrite days_in_march by lia. specialize (Hhi ltac:(lia)). lia.
  - rewrite (date_days_parts _ era c q a mp); cbn [year month day]; try done; [lia| |];
      destruct (Z.ltb_spec mp 10);
      repeat match goal with |- context [?x <=? ?y] => destruct (Z.leb_spec x y)
        | |- context [?x <? ?y] => destruct (Z.ltb_spec x y) end; lia.
Qed.

Lemma days_date_valid n : valid_date (days_date n) = true.
Proof. apply days_date_valid_inv. Qed.
Lemma date_days_date n : date_days (days_date n) = n.
Proof. apply days_date_valid_inv. Qed.

(** Closed form of the day number. *)
Definition march_days (y : Z) : Z := 365 * y + y / 4 - y / 100 + y / 400.

Lemma date_days_closed d :
  date_days d = march_days (if month d <=? 2 then year d - 1 else year d) +
    month_start (if 2 <? month d then month d - 3 else month d + 9) + day d - 1 - 719468.
Proof.
  destruct (march_year_split (if month d <=? 2 then year d - 1 else year d))
    as (era & c & q & a & Hy & Hc & Hq & Ha).
  rewrite (date_days_parts d era c q a _ Hc Hq Ha Hy eq_refl), Hy.
  assert (march_days (400 * era + 100 * c + 4 * q + a) = 146097 * era + 36524 * c + 1461 * q + 365 * a).
  { unfold march_days.
    replace ((400 * era + 100 * c + 4 * q + a) / 400) with era
      by (apply Z.div_unique with (r := 100 * c + 4 * q + a); lia).
    replace ((400 * era + 100 * c + 4 * q + a) / 4) with (100 * era + 25 * c + q)
      by (apply Z.div_unique with (r := a); lia).
    replace ((400 * era + 100 * c + 4 * q + a) / 100) with (4 * era + c)
      by (apply Z.div_unique with (r := 4 * q + a); lia).
    lia. }
  lia.
Qed.

Lemma march_days_succ y :
  march_days y - march_days (y - 1) = if is_leap y then 366 else 365.
Proof.
  unfold march_days. destruct (is_leap y) eqn:E.
  - apply is_leap_spec in E. Z.to_euclidean_division_equations; lia.
  - apply not_true_iff_false in E. rewrite is_leap_spec in E.
    Z.to_euclidean_division_equations; lia.
Qed.

Lemma next_day_valid d : valid_date d = true → valid_date (next_day d) = true.
Proof.
  rewrite !valid_date_spec. unfold next_day. intros [Hm Hd].
  pose proof (days_in_bounds (year d) (month d + 1)).
  destruct (Z.ltb_spec (day d) (days_in (year d) (month d))); simpl; [lia|].
  destruct (Z.ltb_spec (month d) 12); simpl; [lia|].
  split; [lia|]. vm_compute (days_in _ 1). unfold days_in. simpl. lia.
Qed.

Lemma date_days_next d : valid_date d = true → date_days (next_day d) = date_days d + 1.
Proof.
  rewrite valid_date_spec, !date_days_closed. destruct d as [y m dd]. unfold next_day; simpl.
  intros [Hm Hd]. destruct (Z.ltb_spec dd (days_in y m)) as [|Hge]; simpl; [lia|].
  assert (dd = days_in y m) as -> by lia. clear Hd Hge.
  pose proof (march_days_succ y) as Hs.
  pose proof (month_ranges m Hm) as Hc. unfold days_in.
  each_month Hc; simpl; rewrite ?Z.add_simpl_r; unfold month_start; simpl; try lia;
    destruct (is_leap y); simpl; Z.to_euclidean_division_equations; lia.
Qed.

Lemma next_day_days_date n : next_day (days_date n) = days_date (n + 1).
Proof.
  rewrite <- (days_date_days (next_day (days_date n)));
    [|apply next_day_valid, days_date_valid].
  by rewrite date_days_next, date_days_date by apply days_date_valid.
Qed.

(** *** Calendar order: day number, lexicographic key and text agree. *)
Definition date_key (d : CalendarDate) : Z := 10000 * year d + 100 * month d + day d.

Lemma next_day_key d : valid_date d = true → date_key d < date_key (next_day d).
Proof.
  rewrite valid_date_spec. unfold next_day, date_key. intros [Hm Hd].
  pose proof (days_in_bounds (year d) (month d)).
  destruct (Z.ltb_spec (day d) (days_in (year d) (month d))); simpl; [lia|].
  destruct (Z.ltb_spec (month d) 12); simpl; lia.
Qed.

Lemma days_date_key_lt n k : 0 < k → date_key (days_date n) < date_key (days_date (n + k)).
Proof.
  intros Hk. pattern k. apply (Zlt_lower_bound_ind _ 1); [|lia].
  intros x IH Hx. pose proof (next_day_key _ (days_date_valid (n + x - 1))) as Hn.
  rewrite next_day_days_date in Hn. replace (n + x - 1 + 1) with (n + x) in Hn by lia.
  destruct (Z.eq_dec x 1) as [->|]; [by replace (n + 1 - 1) with n in Hn by lia|].
  specialize (IH (x - 1) ltac:(lia)). replace (n + (x - 1)) with (n + x - 1) in IH by lia. lia.
Qed.

Lemma date_key_lt d1 d2 :
  valid_date d1 = true → valid_date d2 = true →
  (date_key d1 < date_key d2 ↔ date_days d1 < date_days d2).
Proof.
  intros H1 H2. assert (Hlt : ∀ a b, valid_date a = true → valid_date b = true →
    date_days a < date_days b → date_key a < date_key b).
  { intros a b Ha Hb Hab. rewrite <- (days_date_days a Ha), <- (days_date_days b Hb).
    replace (date_days b) with (date_days a + (date_days b - date_days a)) by lia.
    apply days_date_key_lt. lia. }
  split; [|by apply Hlt].
  intros Hk. destruct (Z.lt_trichotomy (date_days d1) (date_days d2)) as [?|[E|?]]; [done| |].
  - rewrite <- (days_date_days d1 H1), <- (days_date_days d2 H2), E in Hk. lia.
  - pose proof (Hlt d2 d1 H2 H1). lia.
Qed.

(** ** Text lemmas *)
Lemma digit_cases n : 0 <= n <= 9 →
  n = 0 ∨ n = 1 ∨ n = 2 ∨ n = 3 ∨ n = 4 ∨ n = 5 ∨ n = 6 ∨ n = 7 ∨ n = 8 ∨ n = 9.
Proof. lia. Qed.

Lemma digit_value_digit n : 0 <= n <= 9 → digit_value (digit n) = Some n.
Proof.
  intros Hn. destruct (digit_cases n Hn) as [->|[->|[->|[->|[->|[->|[->|[->|[->| ->]]]]]]]]];
    reflexivity.
Qed.

Lemma digit_value_Some c v : digit_value c = Some v → 0 <= v <= 9 ∧ digit v = c.
Proof.
  unfold digit_value, digit. destruct (_ && _) eqn:E; [|done]. intros [= <-].
  apply andb_true_iff in E as [?%Z.leb_le ?%Z.leb_le]. split; [lia|].
  replace (48 + (Z.of_N (N_of_ascii c) - 48)) with (Z.of_N (N_of_ascii c)) by lia.
  by rewrite N2Z.id, ascii_N_embedding.
Qed.

Lemma parse2_pad n : 0 <= n < 100 → parse2 (digit (n / 10)) (digit (n mod 10)) = Some n.
Proof.
  intros Hn. unfold parse2. rewrite !digit_value_digit by (Z.to_euclidean_division_equations; lia).
  simpl. f_equal. Z.to_euclidean_division_equations; lia.
Qed.

Lemma parse2_Some a b v :
  parse2 a b = Some v → 0 <= v < 100 ∧ a = digit (v / 10) ∧ b = digit (v mod 10).
Proof.
  unfold parse2. destruct (digit_value a) as [x|] eqn:Ea; [|done].
  destruct (digit_value b) as [y|] eqn:Eb; [|done]. intros [= <-].
  apply digit_value_Some in Ea as [? <-]. apply digit_value_Some in Eb as [? <-].
  replace ((10 * x + y) / 10) with x by (apply Z.div_unique with (r := y); lia).
  replace ((10 * x + y) mod 10) with y by (apply Z.mod_unique with (q := x); lia).
  split; [lia|done].
Qed.

Lemma pad4_pad2 n : pad4 n = pad2 (n / 100) +:+ pad2 (n mod 100).
Proof. unfold pad4. unfold pad2 at 2. rewrite Z.div_div by lia. reflexivity. Qed.

Lemma year_string_4 y : 0 <= y <= 9999 → year_string y = pad4 y.
Proof.
  intros Hy. unfold year_string. rewrite (proj2 (Z.ltb_ge y 0)), Z.abs_eq by lia.
  by rewrite (proj2 (Z.leb_le y 9999)) by lia.
Qed.

(** The four-digit dates: what a parsed date can be. *)
Definition four_digit (d : CalendarDate) : bool :=
  valid_date d && (0 <=? year d) && (year d <=? 9999).

Lemma four_digit_spec d :
  four_digit d = true ↔ valid_date d = true ∧ 0 <= year d <= 9999.
Proof. unfold four_digit. rewrite !andb_true_iff, !Z.leb_le. tauto. Qed.

Lemma parse_format_date d : four_digit d = true → ParseCalendarDate (format_date d) = Ok d.
Proof.
  intros [Hv Hy]%four_digit_spec. pose proof (proj1 (valid_date_spec d) Hv) as [Hm Hd].
  pose proof (days_in_bounds (year d) (month d)).
  unfold format_date. rewrite year_string_4, pad4_pad2 by done.
  unfold ParseCalendarDate.
  assert (∀ a b c e, String.list_ascii_of_string
      ((pad2 a +:+ pad2 b) +:+ "-" +:+ pad2 c +:+ "-" +:+ pad2 e) =
    [digit (a / 10); digit (a mod 10); digit (b / 10); digit (b mod 10); "-"%char;
     digit (c / 10); digit (c mod 10); "-"%char; digit (e / 10); digit (e mod 10)]) as ->
    by reflexivity.
  rewrite !parse2_pad by (Z.to_euclidean_division_equations; lia).
  replace (100 * (year d / 100) + year d mod 100) with (year d)
    by (Z.to_euclidean_division_equations; lia).
  destruct d as [y m dd]; simpl in *. by rewrite Hv.
Qed.

Lemma ParseCalendarDate_Ok value d :
  ParseCalendarDate value = Ok d → four_digit d = true ∧ format_date d = value.
Proof.
  unfold ParseCalendarDate. rewrite <- (String.string_of_list_ascii_of_string value) at 2.
  generalize (String.list_ascii_of_string value) as l. intros l.
  do 10 (destruct l as [|? l]; [done|]). destruct l; [|done].
  destruct (parse2 a a0) as [yh|] eqn:E1; [|done].
  destruct (parse2 a1 a2) as [yl|] eqn:E2; [|done].
  destruct (parse2 a4 a5) as [m|] eqn:E3; [|done].
  destruct (parse2 a7 a8) as [dd|] eqn:E4; [|done].
  apply parse2_Some in E1 as (? & -> & ->). apply parse2_Some in E2 as (? & -> & ->).
  apply parse2_Some in E3 as (? & -> & ->). apply parse2_Some in E4 as (? & -> & ->).
  destruct (_ && _) eqn:E; [|done]. intros [= <-].
  apply andb_true_iff in E as [[Hs1 Hs2]%andb_true_iff Hv].
  apply Ascii.eqb_eq in Hs1 as ->. apply Ascii.eqb_eq in Hs2 as ->.
  split; [apply four_digit_spec; simpl; split; [done|lia]|].
  unfold format_date; simpl. rewrite year_string_4, pad4_pad2 by lia.
  replace ((100 * yh + yl) / 100) with yh by (apply Z.div_unique with (r := yl); lia).
  replace ((100 * yh + yl) mod 100) with yl by (apply Z.mod_unique with (q := yh); lia).
  reflexivity.
Qed.

Lemma compare_digit a b : 0 <= a <= 9 → 0 <= b <= 9 → Ascii.compare (digit a) (digit b) = (a ?= b).
Proof.
  intros Ha Hb. unfold Ascii.compare, digit. rewrite !N_ascii_embedding by lia.
  rewrite Z2N.inj_compare by lia. 
  destruct (Z.compare_spec a b), (Z.compare_spec (48 + a) (48 + b)); done || lia.
Qed.

Lemma compare_pad2 a b s t : 0 <= a < 100 → 0 <= b < 100 →
  String.compare (pad2 a +:+ s) (pad2 b +:+ t) =
  match a ?= b with Eq => String.compare s t | c => c end.
Proof.
  intros Ha Hb. unfold pad2.
  change (String ?c (String ?d "") +:+ ?s) with (String c (String d s)).
  cbn [String.compare]. rewrite !compare_digit by (Z.to_euclidean_division_equations; lia).
  destruct (Z.compare_spec a b), (Z.compare_spec (a / 10) (b / 10)),
    (Z.compare_spec (a mod 10) (b mod 10)); try done;
    exfalso; Z.to_euclidean_division_equations; lia.
Qed.

Lemma compare_dash s t : String.compare ("-" +:+ s) ("-" +:+ t) = String.compare s t.
Proof. reflexivity. Qed.

Lemma format_date_compare a b :
  four_digit a = true → four_digit b = true →
  String.compare (format_date a) (format_date b) = (date_days a ?= date_days b).
Proof.
  intros [Hva Hya]%four_digit_spec [Hvb Hyb]%four_digit_spec.
  pose proof (proj1 (valid_date_spec a) Hva) as [Hma Hda].
  pose proof (proj1 (valid_date_spec b) Hvb) as [Hmb Hdb].
  pose proof (days_in_bounds (year a) (month a)). pose proof (days_in_bounds (year b) (month b)).
  assert (Hk : (date_days a ?= date_days b) = (date_key a ?= date_key b)).
  { pose proof (date_key_lt a b Hva Hvb). pose proof (date_key_lt b a Hvb Hva).
    destruct (Z.compare_spec (date_days a) (date_days b)),
      (Z.compare_spec (date_key a) (date_key b)); try done; lia. }
  rewrite Hk. unfold format_date. rewrite !year_string_4, !pad4_pad2, !string_app_assoc by done.
  replace (pad2 (day a)) with (pad2 (day a) +:+ "") by reflexivity.
  replace (pad2 (day b)) with (pad2 (day b) +:+ "") by reflexivity.
  rewrite !compare_pad2, compare_dash, compare_pad2, compare_dash, compare_pad2
    by (Z.to_euclidean_division_equations; lia).
  cbn [String.compare]. unfold date_key.
  destruct (Z.compare_spec (year a / 100) (year b / 100)),
    (Z.compare_spec (year a mod 100) (year b mod 100)),
    (Z.compare_spec (month a) (month b)), (Z.compare_spec (day a) (day b));
    symmetry;
    first [apply Z.compare_eq_iff | apply Z.compare_lt_iff | apply Z.compare_gt_iff];
    Z.to_euclidean_division_equations; lia.
Qed.

Lemma days_date_iter n (k : nat) : Nat.iter k next_day (days_date n) = days_date (n + Z.of_nat k).
Proof.
  induction k as [|k IH]; [by rewrite Z.add_0_r|].
  rewrite Nat.iter_succ, IH, next_day_days_date. f_equal. lia.
Qed.

Lemma AddDays_days d k : valid_date d = true → IsZero d = false → date_days (AddDays d k) = date_days d + k.
Proof. intros Hv Hz. unfold AddDays. rewrite Hz. apply date_days_date. Qed.

Lemma date_string_order a b :
  four_digit a = true → four_digit b = true → IsZero a = false → IsZero b = false →
  string_le (date_string a) (date_string b) = (date_days a <=? date_days b).
Proof.
  intros Ha Hb Hza Hzb. unfold string_le, date_string. rewrite Hza, Hzb, format_date_compare by done.
  destruct (Z.compare_spec (date_days a) (date_days b)), (Z.leb_spec (date_days a) (date_days b)); done || lia.
Qed.

(** ** Properties *)

(** Adding days walks the Gregorian calendar: from a valid non-zero date,
    [AddDays] by [k] days is [k] applications of the leap-year successor, and
    adding [-k] days comes back. *)
Theorem AddDays_walks_calendar : ∀ d (k : nat),
  valid_date d = true → IsZero d = false →
  AddDays d (Z.of_nat k) = Nat.iter k next_day d ∧
  valid_date (AddDays d (Z.of_nat k)) = true ∧
  days_date (date_days (AddDays d (Z.of_nat k)) - Z.of_nat k) = d.
Proof.
  intros d k Hv Hz. unfold AddDays. rewrite Hz. split; [|split].
  - rewrite <- (days_date_days d Hv) at 2. by rewrite days_date_iter.
  - apply days_date_valid.
  - rewrite date_days_date. replace (date_days d + Z.of_nat k - Z.of_nat k) with (date_days d) by lia.
    by apply days_date_days.
Qed.

Example AddDays_walks_calendar_witness :
  AddDays (mkDate 2023 12 30) 366 = mkDate 2024 12 30 ∧
  AddDays (mkDate 2023 12 30) (Z.of_nat 366) = Nat.iter 366 next_day (mkDate 2023 12 30).
Proof.
  split; [vm_compute; reflexivity|].
  apply (AddDays_walks_calendar (mkDate 2023 12 30) 366); reflexivity.
Defined.

(** Parsing and formatting are inverse: [ParseCalendarDate] accepts a text
    exactly when it is the canonical text of a four-digit calendar date. *)
Theorem ParseCalendarDate_spec : ∀ value d,
  ParseCalendarDate value = Ok d ↔ four_digit d = true ∧ format_date d = value.
Proof.
  intros value d. split; [apply ParseCalendarDate_Ok|].
  intros [H <-]. by apply parse_format_date.
Qed.

(** The scheduler's business date: the date [ResolvePreviousCalendarDayJakarta]
    picks is the civil day of Jakarta (UTC+7) that ended last before the instant. *)
Theorem ResolvePreviousCalendarDayJakarta_spec : ∀ now d,
  ResolvePreviousCalendarDayJakarta now = d ↔
  valid_date d = true ∧
  (date_days d + 1) * day_length <= now + jakartaOffset < (date_days d + 2) * day_length.
Proof.
  intros now d. unfold ResolvePreviousCalendarDayJakarta.
  pose proof (Z.div_mod (now + jakartaOffset) day_length ltac:(done)) as Hdm.
  pose proof (Z.mod_pos_bound (now + jakartaOffset) day_length ltac:(done)) as Hb.
  split.
  - intros <-. rewrite date_days_date. split; [apply days_date_valid|]. lia.
  - intros [Hv Hr]. rewrite <- (days_date_days d Hv). f_equal.
    assert ((now + jakartaOffset) / day_length = date_days d + 1); [|lia].
    symmetry. apply Z.div_unique with (r := now + jakartaOffset - (date_days d + 1) * day_length); lia.
Qed.
