(* ===== verification/Json.v ===== *)
(** * JSON as Go's encoding/json reads and writes it

    The service stores run parameters, schedule policies and audit metadata
    as JSON text.  [json_print] is [json.Marshal]'s compact form of a value;
    [json_decode] is a [json.Decoder] that must find exactly one value
    followed by nothing but white space.  Reading keeps the bytes of a string
    that are not valid UTF-8 instead of replacing them by U+FFFD: neither
    form equals any field name or date, so no decision of the program
    changes. *)

From S2P Require Import Prelude.

Inductive json : Type :=
  | JNull
  | JBool (b : bool)
  | JNum (raw : string)
  | JStr (s : string)
  | JArr (l : list json)
  | JObj (l : list (string * json)).

Definition quote_char : ascii := byte 34.
Definition backslash : ascii := byte 92.

(** ** Printing *)
Definition hex_digit (n : N) : ascii := if (n <? 10)%N then byte (48 + n) else byte (87 + n).

(** Escapes of [json.Marshal] for single bytes (HTML escaping is on). *)
Definition escape_char (c : ascii) : string :=
  if (c =? quote_char)%char then String backslash (String quote_char "")
  else if (c =? backslash)%char then String backslash (String backslash "")
  else if (code c =? 8)%N then String backslash "b"
  else if (code c =? 9)%N then String backslash "t"
  else if (code c =? 10)%N then String backslash "n"
  else if (code c =? 12)%N then String backslash "f"
  else if (code c =? 13)%N then String backslash "r"
  else if (code c <? 32)%N || (c =? "<")%char || (c =? ">")%char || (c =? "&")%char then
    String backslash ("u00" +:+ String (hex_digit (code c / 16)) (String (hex_digit (code c mod 16)) ""))
  else String c "".

(** U+2028 and U+2029, which are escaped, and their escapes. *)
Definition separator_escape (s : string) : option string :=
  if has_prefix s (string_of_codes [226; 128; 168]%N) then Some (String backslash "u2028") else
  if has_prefix s (string_of_codes [226; 128; 169]%N) then Some (String backslash "u2029") else None.
(** [skip] bytes of the current rune are left; they are kept when [keep]. *)
Fixpoint escape_from (keep : bool) (skip : nat) (s : string) : string :=
  match s with
  | "" => ""
  | String c s' =>
      match skip with
      | S skip => (if keep then String c "" else "") +:+ escape_from keep skip s'
      | O =>
          match utf8_width s with
          | O => String backslash "ufffd" +:+ escape_from true 0 s'
          | S O => escape_char c +:+ escape_from true 0 s'
          | S w =>
              match separator_escape s with
              | Some escaped => escaped +:+ escape_from false w s'
              | None => String c "" +:+ escape_from true w s'
              end
          end
      end
  end.
Definition escape : string → string := escape_from true 0.

Definition print_string (s : string) : string := String quote_char (escape s +:+ String quote_char "").

Fixpoint json_print (j : json) : string :=
  match j with
  | JNull => "null"
  | JBool b => if b then "true" else "false"
  | JNum raw => raw
  | JStr s => print_string s
  | JArr l =>
      "[" +:+ (fix go l := match l with
        | [] => "]"
        | [x] => json_print x +:+ "]"
        | x :: l' => json_print x +:+ "," +:+ go l'
        end) l
  | JObj l =>
      "{" +:+ (fix go (l : list (string * json)) := match l with
        | [] => "}"
        | [(k, x)] => print_string k +:+ ":" +:+ json_print x +:+ "}"
        | (k, x) :: l' => print_string k +:+ ":" +:+ json_print x +:+ "," +:+ go l'
        end) l
  end.

(** ** Scanning *)
Definition is_json_space (c : ascii) : bool :=
  (code c =? 32)%N || (code c =? 9)%N || (code c =? 10)%N || (code c =? 13)%N.

Fixpoint skip_ws (s : string) : string :=
  match s with "" => "" | String c s' => if is_json_space c then skip_ws s' else s end.

Definition hex_value (c : ascii) : option N :=
  if is_digit c then Some (code c - 48)%N
  else if in_range 97 102 c then Some (code c - 87)%N
  else if in_range 65 70 c then Some (code c - 55)%N else None.

Definition hex4 (s : string) : option (N * string) :=
  match s with
  | String a (String b (String c (String d s'))) =>
      x ← hex_value a; y ← hex_value b; z ← hex_value c; w ← hex_value d;
      Some (4096 * x + 256 * y + 16 * z + w, s')%N
  | _ => None
  end.

Definition utf8_encode (r : N) : string :=
  string_of_codes
    (if (r <? 128)%N then [r]
     else if (r <? 2048)%N then [192 + r / 64; 128 + r mod 64]
     else if (r <? 65536)%N then [224 + r / 4096; 128 + r / 64 mod 64; 128 + r mod 64]
     else [240 + r / 262144; 128 + r / 4096 mod 64; 128 + r / 64 mod 64; 128 + r mod 64])%N.

Definition is_surrogate (r : N) : bool := (55296 <=? r)%N && (r <? 57344)%N.

(** A [\uXXXX] escape, with surrogate pairs combined. *)
Definition unescape_u (s : string) : option (string * string) :=
  '(r, s1) ← hex4 s;
  if is_surrogate r then
    match s1 with
    | String b (String u s2) =>
        if (b =? backslash)%char && (u =? "u")%char then
          '(r2, s3) ← hex4 s2;
          if (r <? 56320)%N && (56320 <=? r2)%N && (r2 <? 57344)%N
          then Some (utf8_encode (65536 + (r - 55296) * 1024 + (r2 - 56320))%N, s3)
          else Some (utf8_encode 65533, s1)
        else Some (utf8_encode 65533, s1)
    | _ => Some (utf8_encode 65533, s1)
    end
  else Some (utf8_encode r, s1).

Definition unescape_char (c : ascii) : option ascii :=
  if (c =? quote_char)%char || (c =? backslash)%char || (c =? "/")%char then Some c
  else if (c =? "b")%char then Some (byte 8) else if (c =? "f")%char then Some (byte 12)
  else if (c =? "n")%char then Some (byte 10) else if (c =? "r")%char then Some (byte 13)
  else if (c =? "t")%char then Some (byte 9) else None.

(** The body of a string, after its opening quote. *)
Fixpoint scan_string (fuel : nat) (s : string) : option (string * string) :=
  match fuel, s with
  | S fuel, String c s' =>
      if (c =? quote_char)%char then Some ("", s')
      else if (c =? backslash)%char then
        match s' with
        | String e s2 =>
            if (e =? "u")%char then
              '(t, s3) ← unescape_u s2; '(r, rest) ← scan_string fuel s3; Some (t +:+ r, rest)
            else d ← unescape_char e; '(r, rest) ← scan_string fuel s2; Some (String d r, rest)
        | "" => None
        end
      else if (code c <? 32)%N then None
      else '(r, rest) ← scan_string fuel s'; Some (String c r, rest)
  | _, _ => None
  end.

Fixpoint scan_digits (s : string) : string * string :=
  match s with
  | String c s' => if is_digit c then let '(d, r) := scan_digits s' in (String c d, r) else ("", s)
  | "" => ("", "")
  end.

Definition digits1 (s : string) : option (string * string) :=
  let '(d, r) := scan_digits s in if (d =? "")%string then None else Some (d, r).

Definition scan_int (s : string) : option (string * string) :=
  match s with
  | String c s' =>
      if (c =? "0")%char then Some (String c "", s')
      else if is_digit c then Some (scan_digits s) else None
  | "" => None
  end.

Definition scan_frac (s : string) : option (string * string) :=
  match s with
  | String c s' => if (c =? ".")%char then '(d, r) ← digits1 s'; Some (String c d, r) else Some ("", s)
  | "" => Some ("", "")
  end.

Definition scan_exp (s : string) : option (string * string) :=
  match s with
  | String c s' =>
      if (c =? "e")%char || (c =? "E")%char then
        match s' with
        | String g s2 =>
            if (g =? "+")%char || (g =? "-")%char
            then '(d, r) ← digits1 s2; Some (String c (String g d), r)
            else '(d, r) ← digits1 s'; Some (String c d, r)
        | "" => None
        end
      else Some ("", s)
  | "" => Some ("", "")
  end.

Definition scan_number (s : string) : option (string * string) :=
  let '(sign, s0) := match s with
    | String c s' => if (c =? "-")%char then (String c "", s') else ("", s)
    | "" => ("", "") end in
  '(i, s1) ← scan_int s0; '(f, s2) ← scan_frac s1; '(e, s3) ← scan_exp s2;
  Some (sign +:+ i +:+ f +:+ e, s3).

Fixpoint parse_value (fuel : nat) (s : string) {struct fuel} : option (json * string) :=
  match fuel with
  | O => None
  | S fuel =>
      match skip_ws s with
      | "" => None
      | String c s' =>
          if (c =? "{")%char then
            match skip_ws s' with
            | String d s2 => if (d =? "}")%char then Some (JObj [], s2)
                             else '(l, r) ← parse_members fuel s'; Some (JObj l, r)
            | "" => None
            end
          else if (c =? "[")%char then
            match skip_ws s' with
            | String d s2 => if (d =? "]")%char then Some (JArr [], s2)
                             else '(l, r) ← parse_elements fuel s'; Some (JArr l, r)
            | "" => None
            end
          else if (c =? quote_char)%char then
            '(t, r) ← scan_string (S (String.length s')) s'; Some (JStr t, r)
          else match cut_prefix "null" (String c s') with
          | Some r => Some (JNull, r)
          | None => match cut_prefix "true" (String c s') with
          | Some r => Some (JBool true, r)
          | None => match cut_prefix "false" (String c s') with
          | Some r => Some (JBool false, r)
          | None => '(n, r) ← scan_number (String c s'); Some (JNum n, r)
          end end end
      end
  end
with parse_elements (fuel : nat) (s : string) {struct fuel} : option (list json * string) :=
  match fuel with
  | O => None
  | S fuel =>
      '(x, r) ← parse_value fuel s;
      match skip_ws r with
      | String c r' =>
          if (c =? ",")%char then '(l, r2) ← parse_elements fuel r'; Some (x :: l, r2)
          else if (c =? "]")%char then Some ([x], r') else None
      | "" => None
      end
  end
with parse_members (fuel : nat) (s : string) {struct fuel} : option (list (string * json) * string) :=
  match fuel with
  | O => None
  | S fuel =>
      match skip_ws s with
      | String q s1 =>
          if (q =? quote_char)%char then
            '(k, r1) ← scan_string (S (String.length s1)) s1;
            match skip_ws r1 with
            | String colon r2 =>
                if (colon =? ":")%char then
                  '(x, r) ← parse_value fuel r2;
                  match skip_ws r with
                  | String c r' =>
                      if (c =? ",")%char then '(l, r3) ← parse_members fuel r'; Some ((k, x) :: l, r3)
                      else if (c =? "}")%char then Some ([(k, x)], r') else None
                  | "" => None
                  end
                else None
            | "" => None
            end
          else None
      | "" => None
      end
  end.

(** One value and then only white space.  Each nested call starts at least
    one byte further on, so twice the length bounds the recursion. *)
Definition json_decode (s : string) : option json :=
  '(j, r) ← parse_value (2 * String.length s + 2) s;
  if (skip_ws r =? "")%string then Some j else None.

Definition json_valid (s : string) : bool := bool_decide (is_Some (json_decode s)).

(** [strconv.Itoa] and friends as JSON numbers. *)
Definition jnum (z : Z) : json := JNum (pretty z).

(** ** Round trip for number-free values over plain text *)
Definition plain_char (c : ascii) : bool :=
  (32 <=? code c)%N && (code c <? 128)%N && negb (c =? quote_char)%char && negb (c =? backslash)%char &&
  negb (c =? "<")%char && negb (c =? ">")%char && negb (c =? "&")%char.
Definition plain : string → bool := string_forallb plain_char.

Fixpoint simple (j : json) : bool :=
  match j with
  | JNull | JBool _ => true
  | JNum _ => false
  | JStr s => plain s
  | JArr l => forallb simple l
  | JObj l => forallb (λ kx, plain kx.1 && simple kx.2) l
  end.

Fixpoint jsize (j : json) : nat :=
  match j with
  | JArr l => S (foldr (λ x n, S (jsize x) + n)%nat 0%nat l)
  | JObj l => S (foldr (λ kx n, S (jsize kx.2) + n)%nat 0%nat l)
  | _ => 1%nat
  end.

Fixpoint print_elems (l : list json) : string :=
  match l with
  | [] => "]"
  | [x] => json_print x +:+ "]"
  | x :: l' => json_print x +:+ "," +:+ print_elems l'
  end.
Fixpoint print_members (l : list (string * json)) : string :=
  match l with
  | [] => "}"
  | [(k, x)] => print_string k +:+ ":" +:+ json_print x +:+ "}"
  | (k, x) :: l' => print_string k +:+ ":" +:+ json_print x +:+ "," +:+ print_members l'
  end.

Lemma json_print_arr l : json_print (JArr l) = "[" +:+ print_elems l.
Proof. reflexivity. Qed.
Lemma json_print_obj l : json_print (JObj l) = "{" +:+ print_members l.
Proof. reflexivity. Qed.

Lemma plain_char_spec c : plain_char c = true →
  (32 <= code c)%N ∧ (c =? quote_char)%char = false ∧ (c =? backslash)%char = false ∧
  escape_char c = String c "" ∧ (code c <? 128)%N = true.
Proof.
  unfold plain_char. rewrite !andb_true_iff, !negb_true_iff, N.leb_le.
  intros [[[[[[H Hascii] Hq] Hb] Hlt] Hgt] Ha]. repeat split; try done.
  unfold escape_char. rewrite Hq, Hb, Hlt, Hgt, Ha.
  repeat (rewrite (proj2 (N.eqb_neq _ _)) by lia). by rewrite (proj2 (N.ltb_ge _ _)) by lia.
Qed.

Lemma escape_plain s : plain s = true → escape s = s.
Proof.
  induction s as [|c s IH]; [done|]. unfold plain; simpl. intros [Hc Hs]%andb_true_iff.
  apply plain_char_spec in Hc as (_ & _ & _ & He & Ha). unfold escape. cbn [escape_from utf8_width]. rewrite Ha, He.
  fold escape. rewrite IH by done. reflexivity.
Qed.

Lemma scan_plain fuel s rest : plain s = true → (String.length s < fuel)%nat →
  scan_string fuel (s +:+ String quote_char rest) = Some (s, rest).
Proof.
  revert fuel. induction s as [|c s IH]; intros fuel Hp Hf; destruct fuel as [|fuel]; simpl in Hf; try lia.
  - rewrite string_app_nil. cbn [scan_string]. by rewrite Ascii.eqb_refl.
  - unfold plain in Hp; simpl in Hp. apply andb_true_iff in Hp as [Hc Hs].
    apply plain_char_spec in Hc as (Hc & Hq & Hb & _ & _).
    rewrite string_app_cons. cbn [scan_string]. rewrite Hq, Hb, (proj2 (N.ltb_ge _ _)) by lia.
    rewrite IH by (done || lia). reflexivity.
Qed.

Lemma print_string_plain s rest : plain s = true →
  print_string s +:+ rest = String quote_char (s +:+ String quote_char rest).
Proof.
  intros H. unfold print_string. rewrite escape_plain by done.
  by rewrite string_app_cons, string_app_assoc, string_app_cons, string_app_nil.
Qed.

Lemma scan_printed s rest : plain s = true →
  scan_string (S (String.length (s +:+ String quote_char rest))) (s +:+ String quote_char rest) = Some (s, rest).
Proof. intros H. apply scan_plain; [done|]. rewrite string_length_app. lia. Qed.

Section RoundTrip.
Let V n := ∀ j rest, simple j = true → (jsize j <= n)%nat →
  parse_value n (json_print j +:+ rest) = Some (j, rest).
Let E n := ∀ x l rest, forallb simple (x :: l) = true →
  (foldr (λ x n, S (jsize x) + n) 0 (x :: l) <= n)%nat →
  parse_elements n (print_elems (x :: l) +:+ rest) = Some (x :: l, rest).
Let M n := ∀ kx l rest, forallb (λ kx, plain kx.1 && simple kx.2) (kx :: l) = true →
  (foldr (λ kx n, S (jsize kx.2) + n) 0 (kx :: l) <= n)%nat →
  parse_members n (print_members (kx :: l) +:+ rest) = Some (kx :: l, rest).

(** A printed value does not start with white space or a closing bracket. *)
Lemma print_head j rest : simple j = true → ∃ c s,
  json_print j +:+ rest = String c s ∧ is_json_space c = false ∧ (c =? "]")%char = false.
Proof.
  destruct j as [|[]| |s|l|l]; try done; intros H;
    [| | |change (json_print (JStr s)) with (print_string s); eexists _, _; by rewrite print_string_plain|..];
    eexists _, _; (split; [reflexivity|done]).
Qed.

Lemma parse_elements_step n : V n → E n → E (S n).
Proof.
  intros HV HE x l rest Hs Hn. simpl in Hs, Hn. apply andb_true_iff in Hs as [Hx Hl].
  cbn [parse_elements]. destruct l as [|y l].
  - cbn [print_elems]. rewrite string_app_assoc, HV by (done || lia). reflexivity.
  - change (print_elems (x :: y :: l)) with (json_print x +:+ "," +:+ print_elems (y :: l)).
    rewrite !string_app_assoc, HV by (done || lia). cbn [mbind option_bind]. change ("," +:+ ?s) with (String "," s). cbn [skip_ws].
    change (is_json_space ",") with false. cbv iota. change ("," =? ",")%char with true. cbv iota.
    rewrite HE by (done || (simpl in *; lia)). reflexivity.
Qed.

Lemma parse_members_step n : V n → M n → M (S n).
Proof.
  intros HV HM [k x] l rest Hs Hn. simpl in Hs, Hn.
  apply andb_true_iff in Hs as [[Hk Hx]%andb_true_iff Hl].
  assert (Hp : ∀ tail, parse_members (S n) (print_string k +:+ (":" +:+ (json_print x +:+ tail))) =
    match skip_ws tail with
    | String c r' => if (c =? ",")%char then '(l, r3) ← parse_members n r'; Some ((k, x) :: l, r3)
                     else if (c =? "}")%char then Some ([(k, x)], r') else None
    | "" => None
    end).
  { intros tail. cbn [parse_members]. rewrite print_string_plain by done.
    cbn [skip_ws]. change (is_json_space quote_char) with false. cbv iota.
    rewrite Ascii.eqb_refl, scan_printed by done. cbn [mbind option_bind].
    change (":" +:+ ?s) with (String ":" s). cbn [skip_ws].
    change (is_json_space ":") with false. cbv iota. change (":" =? ":")%char with true. cbv iota.
    rewrite HV by (done || lia). reflexivity. }
  destruct l as [|y l].
  - cbn [print_members]. rewrite !string_app_assoc, Hp. reflexivity.
  - change (print_members ((k, x) :: y :: l)) with
      (print_string k +:+ ":" +:+ json_print x +:+ "," +:+ print_members (y :: l)).
    rewrite !string_app_assoc, Hp. change ("," +:+ ?s) with (String "," s). cbn [skip_ws].
    change (is_json_space ",") with false. cbv iota. change ("," =? ",")%char with true. cbv iota.
    rewrite HM by (done || (simpl in *; lia)). reflexivity.
Qed.

Lemma print_elems_head x l rest : simple x = true → ∃ c s,
  print_elems (x :: l) +:+ rest = String c s ∧ is_json_space c = false ∧ (c =? "]")%char = false.
Proof.
  intros Hx. destruct l as [|y l]; cbn [print_elems]; rewrite !string_app_assoc; by apply print_head.
Qed.

Lemma print_members_head k x l rest : plain k = true → ∃ s,
  print_members ((k, x) :: l) +:+ rest = String quote_char s.
Proof.
  intros Hk. destruct l as [|y l]; cbn [print_members]; rewrite !string_app_assoc,
    print_string_plain by done; eauto.
Qed.

Lemma parse_value_step n : E n → M n → V (S n).
Proof.
  intros HE HM j rest Hs Hn. cbn [parse_value].
  destruct j as [|[]| |s|l|l]; try done.
  - change (json_print (JStr s)) with (print_string s). rewrite print_string_plain by done. cbn [skip_ws].
    change (is_json_space quote_char) with false. cbv iota.
    change (quote_char =? "{")%char with false. change (quote_char =? "[")%char with false.
    rewrite Ascii.eqb_refl. cbv iota. rewrite scan_printed by done. reflexivity.
  - rewrite json_print_arr, string_app_assoc. change ("[" +:+ ?s) with (String "[" s). cbn [skip_ws].
    change (is_json_space "[") with false. cbv iota.
    change ("[" =? "{")%char with false. change ("[" =? "[")%char with true. cbv iota.
    destruct l as [|x l]; [reflexivity|].
    destruct (print_elems_head x l rest) as (c & s & Es & Hsp & Hb);
      [by simpl in Hs; apply andb_true_iff in Hs as [? _]|].
    rewrite Es. cbn [skip_ws]. rewrite Hsp, Hb, <- Es, HE by (done || (simpl in *; lia)). reflexivity.
  - rewrite json_print_obj, string_app_assoc. change ("{" +:+ ?s) with (String "{" s). cbn [skip_ws].
    change (is_json_space "{") with false. cbv iota. change ("{" =? "{")%char with true. cbv iota.
    destruct l as [|[k x] l]; [reflexivity|].
    destruct (print_members_head k x l rest) as (s & Es);
      [by simpl in Hs; apply andb_true_iff in Hs as [[? _]%andb_true_iff _]|].
    rewrite Es. cbn [skip_ws]. change (is_json_space quote_char) with false. cbv iota.
    change (quote_char =? "}")%char with false. cbv iota.
    rewrite <- Es, HM by (done || (simpl in *; lia)). reflexivity.
Qed.

Lemma parse_printed n : V n ∧ E n ∧ M n.
Proof.
  induction n as [|n (HV & HE & HM)].
  - repeat split; [intros j rest _|intros x l rest _|intros x l rest _]; simpl; [|lia|lia].
    destruct j; simpl; lia.
  - auto using parse_value_step, parse_elements_step, parse_members_step.
Qed.
End RoundTrip.

Lemma jsize_pos j : (1 <= jsize j)%nat.
Proof. destruct j; simpl; lia. Qed.

Lemma print_length n : ∀ j, simple j = true → (jsize j <= n)%nat →
  (jsize j <= String.length (json_print j))%nat ∧ (2 <= String.length (json_print j))%nat.
Proof.
  induction n as [|n IH]; intros j Hs Hn; [pose proof (jsize_pos j); lia|].
  destruct j as [|[]| |s|l|l]; try done; try (simpl; lia).
  - simpl. unfold print_string. simpl. rewrite string_length_app. simpl. lia.
  - rewrite json_print_arr, string_length_app.
    cbn [jsize simple] in Hs, Hn |- *. change (String.length "[") with 1%nat. change (String.length "{") with 1%nat.
    assert (H : (foldr (λ x n, S (jsize x) + n) 0 l <= String.length (print_elems l) ∧
      1 <= String.length (print_elems l))%nat); [|lia].
    assert (Hn' : (foldr (λ x n, S (jsize x) + n) 0 l <= n)%nat) by lia. clear Hn.
    induction l as [|x l IHl]; [simpl; lia|].
    cbn [forallb foldr fst snd] in Hs, Hn'; apply andb_true_iff in Hs as [Hx Hl].
    destruct (IH x Hx) as [H1 H2]; [lia|].
    destruct l as [|y l]; [cbn [print_elems]; rewrite string_length_app; simpl; lia|].
    specialize (IHl Hl ltac:(cbn [foldr fst snd] in *; lia)).
    change (print_elems (x :: y :: l)) with (json_print x +:+ "," +:+ print_elems (y :: l)).
    rewrite !string_length_app. change (String.length ",") with 1%nat.
    change (foldr (λ x n, S (jsize x) + n) 0 (x :: y :: l))%nat with
      (S (jsize x) + foldr (λ x n, S (jsize x) + n) 0 (y :: l))%nat. lia.
  - rewrite json_print_obj, string_length_app.
    cbn [jsize simple] in Hs, Hn |- *. change (String.length "[") with 1%nat. change (String.length "{") with 1%nat.
    assert (H : (foldr (λ kx n, S (jsize kx.2) + n) 0 l <= String.length (print_members l) ∧
      1 <= String.length (print_members l))%nat); [|lia].
    assert (Hn' : (foldr (λ kx n, S (jsize kx.2) + n) 0 l <= n)%nat) by lia. clear Hn.
    induction l as [|[k x] l IHl]; [simpl; lia|].
    cbn [forallb foldr fst snd] in Hs, Hn'; apply andb_true_iff in Hs as [[Hk Hx]%andb_true_iff Hl].
    destruct (IH x Hx) as [H1 H2]; [lia|].
    destruct l as [|y l]; [cbn [print_members]; rewrite !string_length_app; simpl; lia|].
    specialize (IHl Hl ltac:(cbn [foldr fst snd] in *; lia)).
    change (print_members ((k, x) :: y :: l)) with
      (print_string k +:+ ":" +:+ json_print x +:+ "," +:+ print_members (y :: l)).
    rewrite !string_length_app. change (String.length ",") with 1%nat. change (String.length ":") with 1%nat.
    change (foldr (λ kx n, S (jsize kx.2) + n) 0 ((k, x) :: y :: l))%nat with
      (S (jsize x) + foldr (λ kx n, S (jsize kx.2) + n) 0 (y :: l))%nat. lia.
Qed.

Lemma json_decode_print j : simple j = true → json_decode (json_print j) = Some j.
Proof.
  intros Hs. unfold json_decode. rewrite <- (string_app_nil_r (json_print j)) at 2.
  destruct (print_length (jsize j) j Hs ltac:(lia)) as [Hl _].
  rewrite (proj1 (parse_printed _)) by (done || lia). reflexivity.
Qed.
