(* ===== verification/Hash.v ===== *)
(** * SHA-256 (crypto/sha256)

    The checksum of run parameters and schedule policies.  The model is the
    FIPS 180-4 function on byte strings with 32-bit words as integers, so
    that definitions which store or compare checksums stay executable. *)

From S2P Require Import Prelude.

Open Scope Z_scope.

Definition word32 (x : Z) : Z := Z.land x 4294967295.
Definition rotr32 (n x : Z) : Z := Z.lor (Z.shiftr x n) (word32 (Z.shiftl x (32 - n))).

Definition sha256_k : list Z :=
  [1116352408; 1899447441; 3049323471; 3921009573; 961987163; 1508970993; 2453635748; 2870763221;
   3624381080; 310598401; 607225278; 1426881987; 1925078388; 2162078206; 2614888103; 3248222580;
   3835390401; 4022224774; 264347078; 604807628; 770255983; 1249150122; 1555081692; 1996064986;
   2554220882; 2821834349; 2952996808; 3210313671; 3336571891; 3584528711; 113926993; 338241895;
   666307205; 773529912; 1294757372; 1396182291; 1695183700; 1986661051; 2177026350; 2456956037;
   2730485921; 2820302411; 3259730800; 3345764771; 3516065817; 3600352804; 4094571909; 275423344;
   430227734; 506948616; 659060556; 883997877; 958139571; 1322822218; 1537002063; 1747873779;
   1955562222; 2024104815; 2227730452; 2361852424; 2428436474; 2756734187; 3204031479; 3329325298].

Definition sha256_init : list Z :=
  [1779033703; 3144134277; 1013904242; 2773480762; 1359893119; 2600822924; 528734635; 1541459225].

(** Big-endian words. *)
Fixpoint be_words (l : list Z) : list Z :=
  match l with
  | a :: b :: c :: d :: l' => (16777216 * a + 65536 * b + 256 * c + d) :: be_words l'
  | _ => []
  end.
Definition be_bytes (n : nat) (x : Z) : list Z :=
  (λ i : nat, Z.land (Z.shiftr x (8 * Z.of_nat i)) 255) <$> reverse (seq 0 n).

(** One bit, zeros up to 56 modulo 64 bytes, and the bit length. *)
Definition sha256_pad (m : list Z) : list Z :=
  let n := length m in
  m ++ 128 :: replicate ((119 - n mod 64) mod 64)%nat 0 ++ be_bytes 8 (8 * Z.of_nat n).

(** The message schedule, latest word first. *)
Fixpoint sha256_schedule (n : nat) (w : list Z) : list Z :=
  match n with
  | O => w
  | S n =>
      let x15 := nth 14 w 0 in let x2 := nth 1 w 0 in
      let s0 := Z.lxor (Z.lxor (rotr32 7 x15) (rotr32 18 x15)) (Z.shiftr x15 3) in
      let s1 := Z.lxor (Z.lxor (rotr32 17 x2) (rotr32 19 x2)) (Z.shiftr x2 10) in
      sha256_schedule n (word32 (nth 15 w 0 + s0 + nth 6 w 0 + s1) :: w)
  end.

Definition sha256_round (s : list Z) (kw : Z * Z) : list Z :=
  match s with
  | [a; b; c; d; e; f; g; h] =>
      let s1 := Z.lxor (Z.lxor (rotr32 6 e) (rotr32 11 e)) (rotr32 25 e) in
      let ch := Z.lxor (Z.land e f) (Z.land (Z.lxor e 4294967295) g) in
      let t1 := h + s1 + ch + kw.1 + kw.2 in
      let s0 := Z.lxor (Z.lxor (rotr32 2 a) (rotr32 13 a)) (rotr32 22 a) in
      let maj := Z.lxor (Z.lxor (Z.land a b) (Z.land a c)) (Z.land b c) in
      [word32 (t1 + s0 + maj); a; b; c; word32 (d + t1); e; f; g]
  | _ => s
  end.

Definition sha256_block (s block : list Z) : list Z :=
  let w := reverse (sha256_schedule 48 (reverse (be_words block))) in
  zip_with (λ x y, word32 (x + y)) s (foldl sha256_round s (zip sha256_k w)).

Fixpoint sha256_blocks (fuel : nat) (s m : list Z) : list Z :=
  match fuel with
  | O => s
  | S fuel => match m with [] => s | _ => sha256_blocks fuel (sha256_block s (take 64 m)) (drop 64 m) end
  end.

(** [sha256.Sum256]; the padded message has at most [length / 64 + 2] blocks. *)
Definition sha256 (message : string) : string :=
  let m := (λ c, Z.of_N (code c)) <$> String.list_ascii_of_string message in
  let digest := sha256_blocks (length m / 64 + 2) sha256_init (sha256_pad m) in
  string_of_codes (Z.to_N <$> (digest ≫= be_bytes 4)).

(** The 32 zero bytes of an unset [[32]byte]. *)
Definition zero_checksum : string := string_of_codes (replicate 32 0%N).

(** ** The length of a digest *)

Lemma sha256_round_length s kw : length s = 8%nat → length (sha256_round s kw) = 8%nat.
Proof. by destruct s as [|a [|b [|c [|d [|e [|f [|g [|h [|]]]]]]]]]. Qed.
Lemma sha256_rounds_length l s : length s = 8%nat → length (foldl sha256_round s l) = 8%nat.
Proof. revert s. induction l as [|kw l IH]; intros s Hs; [done|]. apply IH. by apply sha256_round_length. Qed.
Lemma sha256_blocks_length fuel s m : length s = 8%nat → length (sha256_blocks fuel s m) = 8%nat.
Proof.
  revert s m. induction fuel as [|fuel IH]; intros s m Hs; [done|]. cbn [sha256_blocks]. destruct m; [done|].
  apply IH. unfold sha256_block. rewrite length_zip_with, sha256_rounds_length by done. by rewrite Hs.
Qed.
Lemma be_bytes_length n x : length (be_bytes n x) = n.
Proof. unfold be_bytes. by rewrite length_fmap, length_reverse, length_seq. Qed.

Lemma string_of_codes_length l : String.length (string_of_codes l) = length l.
Proof. unfold string_of_codes. induction l as [|n l IH]; [done|]. cbn. by rewrite IH. Qed.

Lemma sha256_length message : String.length (sha256 message) = 32%nat.
Proof.
  unfold sha256. rewrite string_of_codes_length, length_fmap.
  assert (Hlen : ∀ l : list Z, length (l ≫= be_bytes 4) = (4 * length l)%nat).
  { induction l as [|x l IH]; [done|]. rewrite bind_cons, length_app, IH, be_bytes_length. cbn. lia. }
  by rewrite Hlen, sha256_blocks_length.
Qed.

(** The first bytes of a longer text. *)
Lemma substring_app (a b : string) : String.substring 0 (String.length a) (a +:+ b) = a.
Proof. induction a as [|c a IH]; [by destruct b|]. rewrite string_app_cons. cbn. by rewrite IH. Qed.
