(* ===== verification/Catalog.v ===== *)
(** * The canonical job catalog
    (src/internal/ingestion/catalog.go, maintenance.go, fixed.go)

    The 42 jobs: 8 fixed reports, 24 maintenance files, 5 details and 5
    master lists, each with the date strategy that decides which parameters
    a run of it takes.  [NewCatalog] is the constructor with all its
    validation; [theCatalog] is the catalog it returns. *)

From S2P Require Import Prelude Calendar.

(** ** Data *)
Inductive JobCategory := CategoryFixed | CategoryEOD | CategoryCBR | CategoryDetail | CategoryMaster.
Inductive DateStrategy := RangeCapable | SingleDate | NoDate.
Inductive MasterKind := MasterReference | MasterMarketing.
Inductive LocationStrategy := SingleRequestAllLocationsEmpty | PerLocation.
Inductive AccountCodeStrategy := NoAccountCodeStrategy | AllAccountCodes.
Inductive PublicationMode := DateAddressable | IntervalResult.
Inductive SourceRequestMode := BoundedDateChunks | ExactInterval.
Inductive MaintenanceKind := MaintenanceEOD | MaintenanceCBR.
Inductive MaintenanceIdentity := BusinessKeyIdentity | RowNumberIdentity.
Inductive MaintenanceDisposition :=
  MaintenanceRegistered | MaintenanceDone | MaintenanceSIPENDAR | MaintenanceUnknown.

#[export] Instance JobCategory_eq_dec : EqDecision JobCategory. Proof. solve_decision. Defined.
#[export] Instance DateStrategy_eq_dec : EqDecision DateStrategy. Proof. solve_decision. Defined.
#[export] Instance MasterKind_eq_dec : EqDecision MasterKind. Proof. solve_decision. Defined.
#[export] Instance LocationStrategy_eq_dec : EqDecision LocationStrategy. Proof. solve_decision. Defined.
#[export] Instance AccountCodeStrategy_eq_dec : EqDecision AccountCodeStrategy. Proof. solve_decision. Defined.
#[export] Instance PublicationMode_eq_dec : EqDecision PublicationMode. Proof. solve_decision. Defined.
#[export] Instance SourceRequestMode_eq_dec : EqDecision SourceRequestMode. Proof. solve_decision. Defined.
#[export] Instance MaintenanceKind_eq_dec : EqDecision MaintenanceKind. Proof. solve_decision. Defined.
#[export] Instance MaintenanceIdentity_eq_dec : EqDecision MaintenanceIdentity. Proof. solve_decision. Defined.

Definition CanonicalJobCount : nat := 42.
Definition maxMySQLIdentifierLength : nat := 64.
Definition dateLayout : string := "2006-01-02".

(** [Domain] is the empty string for the marketing master. *)
Record MasterDefinition := mkMaster { m_kind : MasterKind; m_domain : string; m_path : string }.

Record FixedDefinition := mkFixed {
  f_key : string; f_name : string; f_report : string; f_headers : list string;
  f_location : LocationStrategy; f_account : AccountCodeStrategy;
  f_snapshot : bool; f_source_location : bool; f_max_chunk_days : Z;
  f_publication : PublicationMode; f_request : SourceRequestMode;
  f_coverage_header : string; f_coverage_layout : string }.

Record SecondaryIndexColumn := mkIndexColumn { ic_name : string; ic_prefix : Z }.
Record SecondaryIndex := mkIndex { ix_name : string; ix_unique : bool; ix_columns : list SecondaryIndexColumn }.

(** [FilePattern] is always the case-insensitive anchored pattern of a
    literal name; the model keeps the literal. *)
Record MaintenanceDefinition := mkMaintenance {
  mt_key : string; mt_name : string; mt_kind : MaintenanceKind; mt_pattern : option string;
  mt_table : string; mt_identity : MaintenanceIdentity; mt_business_keys : list string;
  mt_indexes : list SecondaryIndex; mt_fixture_gap : bool }.

Record JobDefinition := mkJob {
  j_key : string; j_name : string; j_category : JobCategory; j_strategy : DateStrategy;
  j_active : bool; j_fixed : option FixedDefinition;
  j_maintenance : option MaintenanceDefinition; j_master : option MasterDefinition }.

(** ** Fixed reports *)
Definition cifOpeningHeaders : list string :=
  ["CIF No"; "CIF Alt No"; "Customer Name"; "Alias Name"; "Mobile Phone";
   "Home Phone"; "Religion"; "Formal Education"; "Employee ID / Retired ID"; "Age";
   "Customer Type"; "Occupation"; "Company Name"; "Office Address"; "Total Monthly Income";
   "Customer Status"; "National ID No"; "Tax ID"; "Emails"; "Birth Date";
   "Birth Place"; "Home Address"; "Home Urban Village"; "Home  Sub-Distric"; "Home  City";
   "Home Province"; "Home Postal Code"; "Mother Maiden Name"; "Gender"; "Marital Status";
   "Customer Data Attachment"; "Branch Code"; "Officer Create"; "Register Date"].
Definition journalHeaders : list string :=
  ["Branch"; "Journal ID"; "Transaction Date"; "Transaction Type"; "Reference Number";
   "Description"; "Officer Create"; "Account No"; "Customer Name"; "Customer No";
   "Account Alternate No"; "Currency"; "CoA No"; "CoA Name"; "Debit";
   "Credit"; "Transaction Value"; "Transaction Code"; "Time"; "Create Date"].
Definition balanceSheetHeaders : list string :=
  ["Branch"; "CoA No"; "Chart of Account"; "Beginning Balance"; "Debit Transaction";
   "Credit Transaction"; "Last Balance"].
Definition profitLossHeaders : list string :=
  ["CoA No"; "Chart of Account"; "Beginning Balance"; "Debit"; "Credit";
   "Last Balance"].
Definition coaMovementHeaders : list string :=
  ["CoA No"; "Branch"; "Date"; "Journal ID"; "Beginning Balance";
   "Debit"; "Credit"; "Last Balance"; "Reference No"; "Transaction Type";
   "Description"; "Officer Create"; "User Authorize"; "Create Date"].
Definition fundDistributionHeaders : list string :=
  ["Savings Alt No"; "Journal Date"; "Fund Distribution Name"; "Transaction No"; "CIF No";
   "Customer Name"; "Savings No"; "Savings Product"; "Transaction Type"; "Transaction Amount";
   "Branch"; "Description"].
Definition vaultMutationHeaders : list string :=
  ["branch"; "tellername"; "transactiontype"; "currency"; "beginningbalance";
   "lastbalance"; "debit"; "credit"; "officer"; "datetime"].
Definition tellerMutationHeaders : list string :=
  ["referencenumber"; "accountnumber"; "customername"; "transactiontype"; "beginningbalance";
   "debit"; "credit"; "lastbalance"; "branch"; "tellerid";
   "userauthorization"; "useroverride"; "transactiondate"].

Definition fixed (key name report : string) (location : LocationStrategy) (account : AccountCodeStrategy)
    (headers : list string) (coverageHeader coverageLayout : string) (sourceLocation : bool) : FixedDefinition :=
  {| f_key := key; f_name := name; f_report := report; f_headers := headers; f_location := location;
     f_account := account; f_snapshot := false; f_source_location := sourceLocation; f_max_chunk_days := 30;
     f_publication := DateAddressable; f_request := BoundedDateChunks;
     f_coverage_header := coverageHeader; f_coverage_layout := coverageLayout |}.

Definition fixedInterval (key name report : string) (location : LocationStrategy) (headers : list string) : FixedDefinition :=
  let d := fixed key name report location NoAccountCodeStrategy headers "" "" true in
  {| f_key := f_key d; f_name := f_name d; f_report := f_report d; f_headers := f_headers d;
     f_location := f_location d; f_account := f_account d; f_snapshot := f_snapshot d;
     f_source_location := f_source_location d; f_max_chunk_days := 0;
     f_publication := IntervalResult; f_request := ExactInterval;
     f_coverage_header := f_coverage_header d; f_coverage_layout := f_coverage_layout d |}.

Definition fixedSnapshot (key name report : string) (location : LocationStrategy) (headers : list string)
    (sourceLocation : bool) : FixedDefinition :=
  let d := fixed key name report location NoAccountCodeStrategy headers "" "" sourceLocation in
  {| f_key := f_key d; f_name := f_name d; f_report := f_report d; f_headers := f_headers d;
     f_location := f_location d; f_account := f_account d; f_snapshot := true;
     f_source_location := f_source_location d; f_max_chunk_days := f_max_chunk_days d;
     f_publication := f_publication d; f_request := f_request d;
     f_coverage_header := f_coverage_header d; f_coverage_layout := f_coverage_layout d |}.

Definition FixedDefinitions : list FixedDefinition :=
  [fixed "cif_opening_report" "CIF Opening Report" "CIF Opening Report" SingleRequestAllLocationsEmpty NoAccountCodeStrategy cifOpeningHeaders "Register Date" dateLayout false;
   fixed "journal_transaction_report" "Journal Transaction Report" "Journal Transaction csv" SingleRequestAllLocationsEmpty NoAccountCodeStrategy journalHeaders "Transaction Date" dateLayout false;
   fixedSnapshot "balance_sheet_report" "Balance Sheet Report" "Balance Sheet Report csv" PerLocation balanceSheetHeaders true;
   fixedInterval "profit_loss_statement" "Profit and Loss Statement" "Profit and Loss Statement csv" PerLocation profitLossHeaders;
   fixed "coa_movement_report" "CoA Movement Report" "CoA Movement Report csv" SingleRequestAllLocationsEmpty AllAccountCodes coaMovementHeaders "Date" dateLayout false;
   fixed "fund_distribution_report" "Fund Distribution Report" "Fund Distribution Report csv" SingleRequestAllLocationsEmpty NoAccountCodeStrategy fundDistributionHeaders "Journal Date" dateLayout false;
   fixed "vault_mutation_report" "Vault Mutation Report" "Vault Mutation Report csv" SingleRequestAllLocationsEmpty NoAccountCodeStrategy vaultMutationHeaders "datetime" "2006 -01-0215:04:05" false;
   fixed "teller_mutation_report" "Teller Mutation Report" "Teller Mutation Report (Teller's Blotter) csv" SingleRequestAllLocationsEmpty NoAccountCodeStrategy tellerMutationHeaders "transactiondate" "2006-01-02 15:04:05" false].

Definition fixedTables : list (string * string) :=
  [("cif_opening_report", "fincloud_cif_opening_reports");
   ("journal_transaction_report", "fincloud_journal_transaction_reports");
   ("balance_sheet_report", "fincloud_balance_sheet_reports");
   ("profit_loss_statement", "fincloud_profit_loss_statements");
   ("coa_movement_report", "fincloud_coa_movement_reports");
   ("fund_distribution_report", "fincloud_fund_distribution_reports");
   ("vault_mutation_report", "fincloud_vault_mutation_reports");
   ("teller_mutation_report", "fincloud_teller_mutation_reports")].

(** A Go map literal or a map built by successive stores: the last store of
    a key wins; here keys are looked up in a list. *)
Fixpoint assoc {A} (key : string) (l : list (string * A)) : option A :=
  match l with [] => None | (k, v) :: l' => if (key =? k)%string then Some v else assoc key l' end.

Definition FixedTableName (jobKey : string) : result string :=
  match assoc jobKey fixedTables with
  | Some table => Ok table
  | None => Err (Errorf "unknown fixed report")
  end.

Definition first_error (checks : list (bool * string)) : result unit :=
  foldr (λ '(bad, message) rest, if (bad : bool) then Err (Errorf message) else rest) (Ok tt) checks.

Definition validateFixedDefinition (seen : list string) (d : FixedDefinition) : result unit :=
  let incomplete := (f_key d =? "")%string || (f_name d =? "")%string || (f_report d =? "")%string ||
    bool_decide (f_headers d = []) in
  let canonical := assoc (f_key d) ((λ c, (f_key c, c)) <$> FixedDefinitions) in
  let semantics := match canonical with
    | None => true
    | Some e => negb (bool_decide (f_publication d = f_publication e) &&
        bool_decide (f_request d = f_request e) && (f_max_chunk_days d =? f_max_chunk_days e)%Z &&
        Bool.eqb (f_snapshot d) (f_snapshot e) && (f_coverage_header d =? f_coverage_header e)%string &&
        (f_coverage_layout d =? f_coverage_layout e)%string)
    end in
  let per_location := bool_decide (f_location d = PerLocation) in
  first_error
    [(incomplete, "fixed definition is incomplete");
     (semantics, "invalid canonical publication/source/date semantics");
     (bool_decide (f_key d ∈ seen), "duplicate fixed definition");
     (per_location && negb (bool_decide (f_account d = NoAccountCodeStrategy)), "conflicting internal dimensions");
     (per_location && negb (f_source_location d), "must preserve request-location provenance");
     (negb per_location && f_source_location d, "unexpected request-location provenance")].

Fixpoint validateFixedLoop (seen : list string) (l : list FixedDefinition) : result unit :=
  match l with
  | [] => Ok tt
  | d :: l' => let? _ := validateFixedDefinition seen d in validateFixedLoop (f_key d :: seen) l'
  end.

Definition validateFixedDefinitions (definitions : list FixedDefinition) : result unit :=
  if negb (length definitions =? 8)%nat then Err (Errorf "fixed catalog definition count")
  else validateFixedLoop [] definitions.

(** ** Maintenance files *)
Definition maintenance (key name : string) (kind : MaintenanceKind) (filename table : string)
    (identity : MaintenanceIdentity) (businessKeys : list string) : MaintenanceDefinition :=
  {| mt_key := key; mt_name := name; mt_kind := kind; mt_pattern := Some filename; mt_table := table;
     mt_identity := identity; mt_business_keys := businessKeys; mt_indexes := []; mt_fixture_gap := false |}.

Definition withSecondaryIndexes (d : MaintenanceDefinition) (indexes : list SecondaryIndex) : MaintenanceDefinition :=
  {| mt_key := mt_key d; mt_name := mt_name d; mt_kind := mt_kind d; mt_pattern := mt_pattern d;
     mt_table := mt_table d; mt_identity := mt_identity d; mt_business_keys := mt_business_keys d;
     mt_indexes := indexes; mt_fixture_gap := mt_fixture_gap d |}.

Definition fixtureGap (d : MaintenanceDefinition) : MaintenanceDefinition :=
  {| mt_key := mt_key d; mt_name := mt_name d; mt_kind := mt_kind d; mt_pattern := mt_pattern d;
     mt_table := mt_table d; mt_identity := mt_identity d; mt_business_keys := mt_business_keys d;
     mt_indexes := mt_indexes d; mt_fixture_gap := true |}.

Definition MaintenanceDefinitions : list MaintenanceDefinition :=
  [ maintenance "eod_cif_opening_report_full" "EOD CIF Opening Report (Full)" MaintenanceEOD "CIF Opening Report (Full).csv" "fincloud_eod_cif_opening_report_full" BusinessKeyIdentity ["cif_no"];
    withSecondaryIndexes
      (maintenance "eod_detail_outstanding_rekening_pinjaman" "EOD DetailOutstandingRekeningPinjaman" MaintenanceEOD "DetailOutstandingRekeningPinjaman.csv" "fincloud_eod_detail_outstanding_rekening_pinjaman" BusinessKeyIdentity ["no_rekening"])
      [mkIndex "idx_eod_outstanding_no_rekening_as_of_date" false
         [mkIndexColumn "no_rekening" 64; mkIndexColumn "as_of_date" 0]];
    maintenance "eod_laporan_pelunasan_pinjaman_sebelum_jt" "EOD LaporanPelunasanPinjamanSebelumJT" MaintenanceEOD "LaporanPelunasanPinjamanSebelumJT.csv" "fincloud_eod_laporan_pelunasan_pinjaman_sebelum_jt" BusinessKeyIdentity ["norekening"; "tgl_pelunasan"];
    maintenance "eod_laporan_pembayaran_angsuran" "EOD LaporanPembayaranAngsuran" MaintenanceEOD "LaporanPembayaranAngsuran.csv" "fincloud_eod_laporan_pembayaran_angsuran" BusinessKeyIdentity ["norekening"; "tglbayar"; "bayar_pokok"; "bayar_bunga"; "bayar_denda"];
    maintenance "eod_laporan_pencairan_pinjaman" "EOD LaporanPencairanPinjaman" MaintenanceEOD "LaporanPencairanPinjaman.csv" "fincloud_eod_laporan_pencairan_pinjaman" BusinessKeyIdentity ["norekening"];
    maintenance "eod_laporan_pinjaman_akan_jatuh_tempo" "EOD LaporanPinjamanAkanJatuhTempo" MaintenanceEOD "LaporanPinjamanAkanJatuhTempo.csv" "fincloud_eod_laporan_pinjaman_akan_jatuh_tempo" BusinessKeyIdentity ["no_rekening"; "angsuran_ke"];
    maintenance "eod_loan_write_off_report" "EOD Loan Write Off Report" MaintenanceEOD "Loan Write Off Report.csv" "fincloud_eod_loan_write_off_report" BusinessKeyIdentity ["loan_no"];
    maintenance "eod_savings_account_api_transaction" "EOD Savings Account API Transaction" MaintenanceEOD "Savings Account API Transaction.csv" "fincloud_eod_savings_account_api_transaction" RowNumberIdentity [];
    maintenance "eod_savings_account_closing_report" "EOD Savings Account Closing Report" MaintenanceEOD "Savings Account Closing Report.csv" "fincloud_eod_savings_account_closing_report" BusinessKeyIdentity ["account_number"];
    maintenance "eod_savings_account_opening_report" "EOD Savings Account Opening Report" MaintenanceEOD "Savings Account Opening Report.csv" "fincloud_eod_savings_account_opening_report" BusinessKeyIdentity ["account_number"];
    maintenance "eod_savings_account_balance_report" "EOD Savings Account Balance Report" MaintenanceEOD "DetailSaldoRekeningTabungan.csv" "fincloud_eod_savings_account_balance_report" BusinessKeyIdentity ["no_rekening"];
    maintenance "eod_loan_will_due_report" "EOD Loan Will Due Report" MaintenanceEOD "Loan Will Due Report.csv" "fincloud_eod_loan_will_due_report" BusinessKeyIdentity ["account_number"; "maturity_date"];
    fixtureGap (maintenance "eod_savings_balance_details_report" "EOD Savings Balance Details Report" MaintenanceEOD "Savings Balance Details Report.csv" "fincloud_eod_savings_balance_details_report" BusinessKeyIdentity ["account_no"]);
    fixtureGap (maintenance "eod_time_deposit_account_balance_details" "EOD Time Deposit Account Balance Details" MaintenanceEOD "Time Deposit Account Balance Details.csv" "fincloud_eod_time_deposit_account_balance_details" BusinessKeyIdentity ["account_no"]);
    fixtureGap (maintenance "eod_time_deposit_closing_report" "EOD Time Deposit Closing Report" MaintenanceEOD "Time Deposit Closing Report.csv" "fincloud_eod_time_deposit_closing_report" BusinessKeyIdentity ["account_no"]);
    fixtureGap (maintenance "eod_time_deposit_placement_report" "EOD Time Deposit Placement Report" MaintenanceEOD "Time Deposit Placement Report.csv" "fincloud_eod_time_deposit_placement_report" BusinessKeyIdentity ["account_no"]);
    fixtureGap (maintenance "eod_savings_balance_details_report_rak" "EOD Savings Balance Details Report RAK" MaintenanceEOD "savings_balance_details_report_rak.csv" "fincloud_eod_savings_balance_details_report_rak" BusinessKeyIdentity ["account_no"]);
    maintenance "cbr_balance_sheet" "CBR Balance Sheet" MaintenanceCBR "cbr_balance_sheet.csv" "fincloud_cbr_balance_sheet" BusinessKeyIdentity ["account_id"; "account_name"];
    maintenance "cbr_arrears" "CBR Arrears" MaintenanceCBR "cbrarrears.csv" "fincloud_cbr_arrears" BusinessKeyIdentity ["loan_no"; "installment_no"];
    maintenance "cbr_collateral" "CBR Collateral" MaintenanceCBR "cbrcollateral.csv" "fincloud_cbr_collateral" RowNumberIdentity [];
    maintenance "cbr_customer" "CBR Customer" MaintenanceCBR "cbrcustomer.csv" "fincloud_cbr_customer" RowNumberIdentity [];
    maintenance "cbr_loan" "CBR Loan" MaintenanceCBR "cbrloan.csv" "fincloud_cbr_loan" RowNumberIdentity [];
    maintenance "cbr_savings" "CBR Savings" MaintenanceCBR "cbrsavings.csv" "fincloud_cbr_savings" BusinessKeyIdentity ["acc_no"];
    maintenance "cbr_time_deposit" "CBR Time Deposit" MaintenanceCBR "cbrtimedeposit.csv" "fincloud_cbr_time_deposit" BusinessKeyIdentity ["acc_no"]].

(** [^[a-z_][a-z0-9_]*$] and [^[a-z][a-z0-9_]*$]. *)
Definition ident_char (c : ascii) : bool := is_lower c || is_digit c || (c =? "_")%char.
Definition identifier (s : string) : bool :=
  match s with "" => false | String c s' => (is_lower c || (c =? "_")%char) && string_forallb ident_char s' end.
Definition job_key_pattern (s : string) : bool :=
  match s with "" => false | String c s' => is_lower c && string_forallb ident_char s' end.

Definition maintenanceMetadataColumnTypes : list (string * string) :=
  [("requested_date", "DATE"); ("as_of_date", "DATE"); ("source_file_name", "VARCHAR(255)");
   ("source_row_number", "BIGINT UNSIGNED"); ("source_row_checksum", "CHAR(64)");
   ("business_key_hash", "CHAR(64)"); ("created_at", "DATETIME(6)"); ("updated_at", "DATETIME(6)")].
Definition reservedMaintenanceColumns : list string :=
  ["requested_date"; "as_of_date"; "business_key_hash"; "source_file_name"; "source_row_number";
   "source_row_checksum"; "ingestion_run_id"; "created_at"; "updated_at"].
Definition DynamicAdditive_AddColumnSQLType : string := "TEXT NULL".

(** Every definition has the one schema mode [DynamicAdditive]. *)
Definition MaintenanceColumnSQLType (column : string) : result string :=
  match assoc column maintenanceMetadataColumnTypes with
  | Some sqlType => Ok sqlType
  | None => if bool_decide (column ∈ reservedMaintenanceColumns)
            then Err (Errorf "maintenance column has no generated SQL type")
            else Ok DynamicAdditive_AddColumnSQLType
  end.

Fixpoint first_field (s : string) : string :=
  match s with "" => "" | String c s' => if (c =? " ")%char then "" else String c (first_field s') end.
Definition maintenanceIndexPrefixType (sqlType : string) : bool :=
  let typeName := first_field sqlType in
  (typeName =? "TEXT")%string || has_prefix typeName "CHAR(" || has_prefix typeName "VARCHAR(".

Fixpoint validateIndexColumns (seen : list string) (l : list SecondaryIndexColumn) : result unit :=
  match l with
  | [] => Ok tt
  | c :: l' =>
      let? _ := first_error
        [(negb (identifier (ic_name c)) || (maxMySQLIdentifierLength <? String.length (ic_name c))%nat ||
            (ic_prefix c <? 0)%Z, "secondary index has invalid column");
         (bool_decide (ic_name c ∈ seen), "secondary index repeats column")] in
      let? sqlType := MaintenanceColumnSQLType (ic_name c) in
      let? _ := first_error [((0 <? ic_prefix c)%Z && negb (maintenanceIndexPrefixType sqlType),
        "column type does not support prefix length")] in
      validateIndexColumns (ic_name c :: seen) l'
  end.

Fixpoint validateIndexes (seen : list string) (l : list SecondaryIndex) : result unit :=
  match l with
  | [] => Ok tt
  | ix :: l' =>
      let? _ := first_error
        [(negb (identifier (ix_name ix)) || (maxMySQLIdentifierLength <? String.length (ix_name ix))%nat ||
            bool_decide (length (ix_columns ix) = 0%nat), "invalid secondary index");
         (bool_decide (ix_name ix ∈ seen), "duplicate secondary index")] in
      let? _ := validateIndexColumns [] (ix_columns ix) in
      validateIndexes (ix_name ix :: seen) l'
  end.

Fixpoint validateMaintenanceLoop (keys tables : list string) (patterns : list (MaintenanceKind * string))
    (l : list MaintenanceDefinition) : result unit :=
  match l with
  | [] => Ok tt
  | d :: l' =>
      let pattern := (mt_kind d, default "" (mt_pattern d)) in
      let? _ := first_error
        [(negb (identifier (mt_key d)) || negb (identifier (mt_table d)) ||
            (maxMySQLIdentifierLength <? String.length (mt_table d))%nat, "invalid maintenance definition");
         (bool_decide (mt_pattern d = None), "maintenance definition has invalid source contract");
         (bool_decide (mt_key d ∈ keys), "duplicate maintenance key");
         (bool_decide (mt_table d ∈ tables), "duplicate maintenance table");
         (bool_decide (pattern ∈ patterns), "duplicate maintenance filename matcher");
         (match mt_identity d with
          | BusinessKeyIdentity => bool_decide (mt_business_keys d = [])
          | RowNumberIdentity => negb (bool_decide (mt_business_keys d = []))
          end, "business keys do not fit the identity")] in
      let? _ := validateIndexes [] (mt_indexes d) in
      validateMaintenanceLoop (mt_key d :: keys) (mt_table d :: tables) (pattern :: patterns) l'
  end.
Definition validateMaintenanceDefinitions : list MaintenanceDefinition → result unit :=
  validateMaintenanceLoop [] [] [].

(** ** NewCatalog *)
Record Catalog := mkCatalog { c_jobs : list JobDefinition; c_byKey : gmap string JobDefinition }.

Definition fixedJob (d : FixedDefinition) : JobDefinition :=
  {| j_key := f_key d; j_name := f_name d; j_category := CategoryFixed;
     j_strategy := if f_snapshot d then SingleDate else RangeCapable;
     j_active := true; j_fixed := Some d; j_maintenance := None; j_master := None |}.
Definition maintenanceJob (d : MaintenanceDefinition) : JobDefinition :=
  {| j_key := mt_key d; j_name := mt_name d;
     j_category := match mt_kind d with MaintenanceCBR => CategoryCBR | MaintenanceEOD => CategoryEOD end;
     j_strategy := SingleDate; j_active := true; j_fixed := None; j_maintenance := Some d; j_master := None |}.
Definition detailJob (d : string * string) : JobDefinition :=
  {| j_key := d.1; j_name := d.2; j_category := CategoryDetail; j_strategy := NoDate; j_active := true;
     j_fixed := None; j_maintenance := None; j_master := None |}.
Definition masterJob (d : string * string * MasterDefinition) : JobDefinition :=
  {| j_key := d.1.1; j_name := d.1.2; j_category := CategoryMaster; j_strategy := NoDate; j_active := true;
     j_fixed := None; j_maintenance := None; j_master := Some d.2 |}.

Definition detailTable : list (string * string) :=
  [("cif_detail", "CIF Detail"); ("saving_detail", "Saving Detail");
   ("time_deposit_detail", "Time Deposit Detail"); ("loan_detail", "Loan Detail");
   ("saving_block_detail", "Saving Block Detail")].
Definition masterTable : list (string * string * MasterDefinition) :=
  [("cif_reference_master", "CIF Reference Master", mkMaster MasterReference "cif" "/cif/inquiry/cif//listvalues");
   ("saving_reference_master", "Savings Reference Master", mkMaster MasterReference "saving" "/tabungan/inquiry/rekening//listvalues");
   ("time_deposit_reference_master", "Time Deposit Reference Master", mkMaster MasterReference "time_deposit" "/deposito/inquiry/rekening//listvalues");
   ("loan_reference_master", "Loan Reference Master", mkMaster MasterReference "loan" "/pinjaman/inquiry/rekening//listvalues");
   ("marketing_master", "Marketing Master", mkMaster MasterMarketing "" "/system/marketing/pembuatan/cari?nama=")].

Definition masterIncomplete (job : JobDefinition) : bool :=
  match j_master job with
  | None => true
  | Some m => (m_path m =? "")%string ||
      match m_kind m with
      | MasterReference => (m_domain m =? "")%string
      | MasterMarketing => negb (m_domain m =? "")%string
      end
  end.

Fixpoint indexJobs (byKey : gmap string JobDefinition) (l : list JobDefinition) : result (gmap string JobDefinition) :=
  match l with
  | [] => Ok byKey
  | job :: l' =>
      let? _ := first_error
        [(negb (job_key_pattern (j_key job)), "invalid job key");
         (bool_decide (is_Some (byKey !! j_key job)), "duplicate job key");
         (if bool_decide (j_category job = CategoryMaster) then masterIncomplete job
          else bool_decide (is_Some (m_kind <$> j_master job)), "master definition is wrong")] in
      indexJobs (<[j_key job := job]> byKey) l'
  end.

Definition strategyCount (s : DateStrategy) (l : list JobDefinition) : nat :=
  length (filter (λ j, j_strategy j = s) l).

Definition NewCatalog : result Catalog :=
  let? _ := validateFixedDefinitions FixedDefinitions in
  let? _ := validateMaintenanceDefinitions MaintenanceDefinitions in
  let jobs := (fixedJob <$> FixedDefinitions) ++ (maintenanceJob <$> MaintenanceDefinitions) ++
              (detailJob <$> detailTable) ++ (masterJob <$> masterTable) in
  let? _ := first_error [(negb (length jobs =? CanonicalJobCount)%nat, "canonical catalog job count")] in
  let? byKey := indexJobs ∅ jobs in
  let? _ := first_error
    [(negb ((strategyCount RangeCapable jobs =? 7)%nat && (strategyCount SingleDate jobs =? 25)%nat &&
            (strategyCount NoDate jobs =? 10)%nat), "canonical date strategies")] in
  Ok (mkCatalog jobs byKey).

Definition Jobs (catalog : Catalog) : list JobDefinition := c_jobs catalog.
Definition Find (catalog : Catalog) (key : string) : option JobDefinition := c_byKey catalog !! key.

(** The catalog every component holds: [NewCatalog] never fails
    ([NewCatalog_Ok] below), so the error branch is not taken. *)
Definition theCatalog : Catalog :=
  match NewCatalog with Ok c => c | Err _ => mkCatalog [] ∅ end.

(** ** Maintenance file names *)

(** [filepath.Base] on a slash-separated path. *)
Fixpoint strip_slashes_rev (l : list ascii) : list ascii :=
  match l with [] => [] | c :: l' => if (c =? "/")%char then strip_slashes_rev l' else l end.
Fixpoint take_until_slash (l : list ascii) : list ascii :=
  match l with [] => [] | c :: l' => if (c =? "/")%char then [] else c :: take_until_slash l' end.
Definition filepath_Base (path : string) : string :=
  if (path =? "")%string then "." else
  let r := strip_slashes_rev (rev (String.list_ascii_of_string path)) in
  match r with
  | [] => "/"
  | _ => String.string_of_list_ascii (rev (take_until_slash r))
  end.

(** Go's [(?i)]: a letter matches both cases, and [s] and [k] also match
    their Unicode folds U+017F and U+212A. *)
Fixpoint fold_match (pattern s : string) {struct pattern} : bool :=
  match pattern with
  | "" => (s =? "")%string
  | String p pattern' =>
      match s with
      | "" => false
      | String c s' =>
          ((to_lower p =? to_lower c)%char && fold_match pattern' s')
          || ((to_lower p =? "s")%char && match cut_prefix (string_of_codes [197; 191]%N) s with
               | Some r => fold_match pattern' r | None => false end)
          || ((to_lower p =? "k")%char && match cut_prefix (string_of_codes [226; 132; 170]%N) s with
               | Some r => fold_match pattern' r | None => false end)
      end
  end.

(** [(?i)^SIPENDAR[0-9]{8}\.csv$]: the name split at its last 12 bytes. *)
Fixpoint sipendar_tail (n : nat) (s : string) : bool :=
  match n with
  | O => fold_match ".csv" s
  | S n => match s with String c s' => is_digit c && sipendar_tail n s' | "" => false end
  end.
Fixpoint fold_prefix (pattern : string) (k : string → bool) (s : string) {struct pattern} : bool :=
  match pattern with
  | "" => k s
  | String p pattern' =>
      match s with
      | "" => false
      | String c s' =>
          ((to_lower p =? to_lower c)%char && fold_prefix pattern' k s')
          || ((to_lower p =? "s")%char && match cut_prefix (string_of_codes [197; 191]%N) s with
               | Some r => fold_prefix pattern' k r | None => false end)
      end
  end.

Definition ClassifyMaintenanceFile (kind : MaintenanceKind) (filename : string)
    : MaintenanceDisposition * option MaintenanceDefinition :=
  let base := filepath_Base filename in
  if bool_decide (kind = MaintenanceCBR) && fold_match "Done.csv" base then (MaintenanceDone, None)
  else if bool_decide (kind = MaintenanceCBR) && fold_prefix "SIPENDAR" (sipendar_tail 8) base
  then (MaintenanceSIPENDAR, None)
  else match find (λ d, bool_decide (mt_kind d = kind) &&
                        match mt_pattern d with Some p => fold_match p base | None => false end)
                  MaintenanceDefinitions with
       | Some d => (MaintenanceRegistered, Some d)
       | None => (MaintenanceUnknown, None)
       end.

Record MaintenanceFile := mkMFile { mf_path : string; mf_name : string; mf_content : string }.
Record MaintenanceResolution := mkResolution {
  mr_path : string; mr_name : string; mr_disposition : MaintenanceDisposition; mr_key : string }.
Record MaintenanceBundle := mkBundle {
  mb_kind : MaintenanceKind; mb_date : CalendarDate; mb_files : gmap string MaintenanceFile;
  mb_resolutions : list MaintenanceResolution }.

Fixpoint string_insert (x : string) (l : list string) : list string :=
  match l with [] => [x] | y :: l' => if string_le x y then x :: l else y :: string_insert x l' end.
(** [sort.Strings]. *)
Definition sort_strings (l : list string) : list string := foldr string_insert [] l.

(** The loop of [ResolveMaintenanceBundle] over the sorted source paths. *)
Fixpoint resolveLoop (kind : MaintenanceKind) (sources : gmap string string) (paths : list string)
    (files : gmap string MaintenanceFile) (done : list MaintenanceResolution)
    : result (gmap string MaintenanceFile * list MaintenanceResolution) :=
  match paths with
  | [] => Ok (files, done)
  | path :: paths' =>
      let filename := filepath_Base path in
      let '(disposition, definition) := ClassifyMaintenanceFile kind filename in
      match definition with
      | None => resolveLoop kind sources paths' files
                  (done ++ [mkResolution path filename disposition ""])
      | Some d =>
          if bool_decide (is_Some (files !! mt_key d)) then Err (Errorf "duplicate maintenance source")
          else resolveLoop kind sources paths'
                 (<[mt_key d := mkMFile path filename (default "" (sources !! path))]> files)
                 (done ++ [mkResolution path filename disposition (mt_key d)])
      end
  end.

Definition ResolveMaintenanceBundle (kind : MaintenanceKind) (asOfDate : CalendarDate)
    (sourceFiles : gmap string string) : result MaintenanceBundle :=
  if IsZero asOfDate then Err (Errorf "maintenance as_of_date is required") else
  let? _ := validateMaintenanceDefinitions MaintenanceDefinitions in
  let paths := sort_strings ((map_to_list sourceFiles).*1) in
  let? r := resolveLoop kind sourceFiles paths ∅ [] in
  Ok (mkBundle kind asOfDate r.1 r.2).

Lemma catalog_size : length (Jobs theCatalog) = 42%nat. Proof. vm_compute. reflexivity. Qed.

(** ** Lemmas *)
Lemma first_error_Ok l : first_error l = Ok tt ↔ Forall (λ c, c.1 = false) l.
Proof.
  induction l as [|[b m] l IH]; simpl; [by split|].
  rewrite Forall_cons. destruct b; simpl; [by split; [|intros [? _]]|]. rewrite IH. naive_solver.
Qed.

Lemma first_error_unit l u : first_error l = Ok u → Forall (λ c, c.1 = false) l.
Proof. destruct u. apply first_error_Ok. Qed.

Lemma indexJobs_Ok byKey l m :
  indexJobs byKey l = Ok m →
  NoDup (j_key <$> l) ∧ (∀ j, j ∈ l → byKey !! j_key j = None) ∧
  ∀ k j, m !! k = Some j ↔ byKey !! k = Some j ∨ (j ∈ l ∧ j_key j = k).
Proof.
  revert byKey. induction l as [|job l IH]; intros byKey.
  - intros [= <-]. split; [constructor|]. split; [set_solver|]. set_solver.
  - intros (u & Hc%first_error_unit & Hl)%res_bind_Ok.
    apply Forall_cons in Hc as [_ Hc]. apply Forall_cons in Hc as [Hdup _]. simpl in Hdup.
    apply bool_decide_eq_false in Hdup.
    assert (Hn : byKey !! j_key job = None) by (destruct (byKey !! j_key job); naive_solver).
    apply IH in Hl as (Hnd & Hout & Hm). split; [|split].
    + rewrite fmap_cons. constructor; [|done]. intros (j & E & Hj)%list_elem_of_fmap.
      specialize (Hout j Hj). rewrite <- E, lookup_insert_eq in Hout. done.
    + intros j [->|Hj]%elem_of_cons; [done|]. specialize (Hout j Hj).
      by apply lookup_insert_None in Hout as [? _].
    + intros k j. rewrite Hm, lookup_insert_Some, elem_of_cons. split.
      * intros [[[<- <-]|[? ?]]|[? ?]]; auto.
      * intros [Hk|[[->|?] Hk]]; auto.
        left. right. split; [|done]. intros E. congruence.
Qed.

Lemma NewCatalog_is_ok : is_ok NewCatalog = true.
Proof. vm_compute. reflexivity. Qed.

Lemma NewCatalog_Ok : NewCatalog = Ok theCatalog.
Proof.
  unfold theCatalog. pose proof NewCatalog_is_ok as H. revert H.
  by destruct NewCatalog.
Qed.

Lemma NewCatalog_inv c : NewCatalog = Ok c →
  NoDup (j_key <$> Jobs c) ∧ ∀ k j, Find c k = Some j ↔ j ∈ Jobs c ∧ j_key j = k.
Proof.
  unfold NewCatalog. intros (? & _ & H)%res_bind_Ok. apply res_bind_Ok in H as (? & _ & H).
  apply res_bind_Ok in H as (? & _ & H). apply res_bind_Ok in H as (m & Hm & H).
  apply res_bind_Ok in H as (? & _ & [= <-]).
  apply indexJobs_Ok in Hm as (Hnd & _ & Hm). split; [done|].
  intros k j. unfold Find, Jobs; simpl. rewrite Hm, lookup_empty. split; [by intros [?|?]|auto].
Qed.

Lemma Find_spec k j : Find theCatalog k = Some j ↔ j ∈ Jobs theCatalog ∧ j_key j = k.
Proof. apply NewCatalog_inv, NewCatalog_Ok. Qed.

Lemma catalog_keys_NoDup : NoDup (j_key <$> Jobs theCatalog).
Proof. apply NewCatalog_inv, NewCatalog_Ok. Qed.

(** Which categories each date strategy occurs with. *)
Definition job_shape (j : JobDefinition) : bool :=
  match j_strategy j, j_category j with
  | RangeCapable, CategoryFixed => true
  | SingleDate, (CategoryFixed | CategoryEOD | CategoryCBR) => true
  | NoDate, (CategoryDetail | CategoryMaster) => true
  | _, _ => false
  end.

Lemma catalog_shapes : forallb job_shape (Jobs theCatalog) = true.
Proof. vm_compute. reflexivity. Qed.

Lemma catalog_job_shape j : j ∈ Jobs theCatalog → job_shape j = true.
Proof.
  intros Hj. apply (proj1 (forallb_forall _ _) catalog_shapes). exact (proj1 (list_elem_of_In _ _) Hj).
Qed.

Lemma catalog_key_nonempty j : j ∈ Jobs theCatalog → j_key j ≠ "".
Proof.
  intros Hj. assert (Hall : forallb (λ j, negb (j_key j =? "")%string) (Jobs theCatalog) = true)
    by (vm_compute; reflexivity).
  pose proof (proj1 (forallb_forall _ _) Hall j (proj1 (list_elem_of_In _ _) Hj)) as H.
  simpl in H. intros E. by rewrite E in H.
Qed.

(** *** Case folding of file names *)
Fixpoint fold_lower (s : string) : string :=
  match s with
  | "" => ""
  | String c s1 =>
      match s1 with
      | String c2 s2 =>
          if (code c =? 197)%N && (code c2 =? 191)%N then String "s" (fold_lower s2)
          else match s2 with
               | String c3 s3 =>
                   if (code c =? 226)%N && (code c2 =? 132)%N && (code c3 =? 170)%N
                   then String "k" (fold_lower s3) else String (to_lower c) (fold_lower s1)
               | "" => String (to_lower c) (fold_lower s1)
               end
      | "" => String (to_lower c) (fold_lower s1)
      end
  end.

Definition is_ascii (c : ascii) : bool := (code c <? 128)%N.

Lemma to_lower_ascii c : is_ascii (to_lower c) = is_ascii c.
Proof. destruct c as [[] [] [] [] [] [] [] []]; reflexivity. Qed.

Lemma fold_lower_ascii c s : is_ascii c = true → fold_lower (String c s) = String (to_lower c) (fold_lower s).
Proof.
  intros Hc. unfold is_ascii in Hc. apply N.ltb_lt in Hc. simpl.
  replace (code c =? 197)%N with false by (symmetry; apply N.eqb_neq; lia).
  replace (code c =? 226)%N with false by (symmetry; apply N.eqb_neq; lia).
  simpl. destruct s as [|? [|? ?]]; reflexivity.
Qed.

Lemma cut_prefix_Some p s r : cut_prefix p s = Some r ↔ s = p +:+ r.
Proof.
  revert s. induction p as [|c p IH]; intros s; simpl; [naive_solver|].
  destruct s as [|d s]; [done|]. change (String c p +:+ r) with (String c (p +:+ r)).
  destruct (Ascii.eqb_spec c d) as [->|Hne]; [rewrite IH; naive_solver|naive_solver].
Qed.

Lemma fold_lower_long_s r :
  fold_lower (string_of_codes [197; 191]%N +:+ r) = String "s" (fold_lower r).
Proof. reflexivity. Qed.
Lemma fold_lower_kelvin r :
  fold_lower (string_of_codes [226; 132; 170]%N +:+ r) = String "k" (fold_lower r).
Proof. reflexivity. Qed.

Lemma fold_match_lower p s :
  string_forallb is_ascii p = true → fold_match p s = true → fold_lower s = string_map to_lower p.
Proof.
  revert s. induction p as [|c p IH]; intros s; cbn -[cut_prefix string_of_codes to_lower].
  - intros _ ->%String.eqb_eq. done.
  - intros [Hc Hp]%andb_true_iff. destruct s as [|d s]; [done|].
    intros [[H|H]%orb_true_iff|H]%orb_true_iff; apply andb_true_iff in H as [He H];
      apply Ascii.eqb_eq in He.
    + assert (is_ascii d = true) by (rewrite <- to_lower_ascii, <- He, to_lower_ascii; done).
      rewrite fold_lower_ascii, (IH s) by done. by rewrite He.
    + destruct (cut_prefix _ _) as [r|] eqn:E; [|done]. apply cut_prefix_Some in E.
      by rewrite E, fold_lower_long_s, He, (IH r).
    + destruct (cut_prefix _ _) as [r|] eqn:E; [|done]. apply cut_prefix_Some in E.
      by rewrite E, fold_lower_kelvin, He, (IH r).
Qed.

Definition definition_matches (kind : MaintenanceKind) (base : string) (d : MaintenanceDefinition) : bool :=
  bool_decide (mt_kind d = kind) && match mt_pattern d with Some p => fold_match p base | None => false end.

Definition maintenance_pattern (d : MaintenanceDefinition) : MaintenanceKind * string :=
  (mt_kind d, string_map to_lower (default "" (mt_pattern d))).

Lemma maintenance_patterns_checked :
  forallb (λ d, string_forallb is_ascii (default "" (mt_pattern d))) MaintenanceDefinitions = true ∧
  bool_decide (NoDup (maintenance_pattern <$> MaintenanceDefinitions)) = true.
Proof. split; vm_compute; reflexivity. Qed.

Lemma NoDup_fmap_inj {A B} (f : A → B) (l : list A) x y :
  NoDup (f <$> l) → x ∈ l → y ∈ l → f x = f y → x = y.
Proof.
  induction l as [|z l IH]; [set_solver|]. rewrite fmap_cons, NoDup_cons.
  intros [Hz Hl] Hx Hy E.
  apply elem_of_cons in Hx as [Hx|Hx]; apply elem_of_cons in Hy as [Hy|Hy]; try subst z; auto.
  - destruct Hz. rewrite E. apply list_elem_of_fmap. eauto.
  - destruct Hz. rewrite <- E. apply list_elem_of_fmap. eauto.
Qed.

Lemma definition_matches_unique kind base d1 d2 :
  d1 ∈ MaintenanceDefinitions → d2 ∈ MaintenanceDefinitions →
  definition_matches kind base d1 = true → definition_matches kind base d2 = true → d1 = d2.
Proof.
  destruct maintenance_patterns_checked as [Hascii Hnd%bool_decide_eq_true].
  assert (Hp : ∀ d, d ∈ MaintenanceDefinitions → definition_matches kind base d = true →
    maintenance_pattern d = (kind, fold_lower base)).
  { intros d Hd [Hk Hm]%andb_true_iff. apply bool_decide_eq_true in Hk.
    pose proof (proj1 (forallb_forall _ _) Hascii d (proj1 (list_elem_of_In _ _) Hd)) as Ha.
    cbv beta in Ha. unfold maintenance_pattern. rewrite Hk. clear Hd. destruct (mt_pattern d) as [p|]; [|done].
    by rewrite (fold_match_lower p base Ha Hm). }
  intros H1 H2 M1 M2. apply (NoDup_fmap_inj maintenance_pattern _ _ _ Hnd H1 H2).
  by rewrite (Hp d1), (Hp d2).
Qed.

(** ** Properties *)

(** [NewCatalog] succeeds with 42 jobs under distinct keys, and [Find]
    returns exactly the listed job of a key. *)
Theorem catalog_canonical :
  NewCatalog = Ok theCatalog ∧ length (Jobs theCatalog) = CanonicalJobCount ∧
  NoDup (j_key <$> Jobs theCatalog) ∧
  (∀ key job, Find theCatalog key = Some job ↔ job ∈ Jobs theCatalog ∧ j_key job = key) ∧
  ∀ job, job ∈ Jobs theCatalog → job_shape job = true.
Proof.
  split; [exact NewCatalog_Ok|]. split; [exact catalog_size|]. split; [exact catalog_keys_NoDup|].
  split; [exact Find_spec|exact catalog_job_shape].
Qed.

(** A maintenance file name is claimed by at most one definition: the
    classification does not depend on the order of the definition table. *)
Theorem classification_unambiguous : ∀ kind filename d1 d2,
  d1 ∈ MaintenanceDefinitions → d2 ∈ MaintenanceDefinitions →
  definition_matches kind (filepath_Base filename) d1 = true →
  definition_matches kind (filepath_Base filename) d2 = true →
  d1 = d2 ∧ (ClassifyMaintenanceFile kind filename = (MaintenanceRegistered, Some d1) ∨
             (kind = MaintenanceCBR ∧ (ClassifyMaintenanceFile kind filename).2 = None)).
Proof.
  intros kind filename d1 d2 H1 H2 M1 M2.
  split; [by eapply definition_matches_unique|].
  unfold ClassifyMaintenanceFile.
  destruct (_ && fold_match "Done.csv" _) eqn:E1.
  { right. apply andb_true_iff in E1 as [?%bool_decide_eq_true _]. done. }
  destruct (_ && fold_prefix _ _ _) eqn:E2.
  { right. apply andb_true_iff in E2 as [?%bool_decide_eq_true _]. done. }
  left. fold (definition_matches kind (filepath_Base filename)).
  destruct (find _ MaintenanceDefinitions) as [d|] eqn:Ef.
  - apply find_some in Ef as [Hd Md]. repeat f_equal. symmetry.
    eapply definition_matches_unique; try done. by apply list_elem_of_In.
  - exfalso. pose proof (find_none _ _ Ef d1 (proj1 (list_elem_of_In _ _) H1)) as Hn.
    by rewrite M1 in Hn.
Qed.

Example classification_unambiguous_witness :
  let d := maintenance "cbr_loan" "CBR Loan" MaintenanceCBR "cbrloan.csv" "fincloud_cbr_loan" RowNumberIdentity [] in
  definition_matches MaintenanceCBR (filepath_Base "dump/CBRLoan.csv") d = true ∧ d = d.
Proof.
  split; [vm_compute; reflexivity|].
  refine (proj1 (classification_unambiguous MaintenanceCBR "dump/CBRLoan.csv" _ _ _ _ _ _));
    try (vm_compute; reflexivity); do 21 apply list_elem_of_further; apply list_elem_of_here.
Defined.
