(* ===== verification/Params.v ===== *)
(** * Run parameters (src/internal/ingestionrun/params.go)

    A run stores what it must fetch as a canonical JSON document with its
    SHA-256.  The constructors build it for a job whose date strategy fits;
    [Validate] decodes the stored document again and compares checksums. *)

From S2P Require Import Prelude Calendar Json Hash Catalog.

Open Scope Z_scope.

(** [UnsupportedKind] is any other text of the [parameter_kind] column. *)
Inductive ParameterKind :=
  | FixedRangeV1 | FixedDateSeriesV1 | MaintenanceDateSeriesV2 | LiveSnapshotV1
  | DetailLiveSnapshotV1 | RunAllRangeV1 | UnsupportedKind (name : string).
#[export] Instance ParameterKind_eq_dec : EqDecision ParameterKind. Proof. solve_decision. Defined.

Record Parameters := mkParameters {
  p_kind : ParameterKind; p_version : Z; p_json : string; p_checksum : string }.
#[export] Instance Parameters_eq_dec : EqDecision Parameters. Proof. solve_decision. Defined.

Record Range := mkRange { r_from : CalendarDate; r_to : CalendarDate }.
Definition DateSeries := list CalendarDate.

(** ** JSON forms of the payload types *)

(** [CalendarDate.MarshalJSON] and [UnmarshalJSON]. *)
Definition date_json (date : CalendarDate) : json :=
  if IsZero date then JNull else JStr (date_string date).
Definition json_date (j : json) : result CalendarDate :=
  match j with
  | JNull => Ok zero_date
  | JStr s => ParseCalendarDate s
  | _ => Err (Errorf "json: cannot unmarshal into Go value of type string")
  end.

Definition range_json (r : Range) : json :=
  JObj [("from", date_json (r_from r)); ("to", date_json (r_to r))].
Definition series_json (dates : DateSeries) : json :=
  JObj [("dates", JArr (date_json <$> dates))].
Definition empty_json : json := JObj [].

(** Decoding into a struct with [DisallowUnknownFields]: members are taken
    in order, names match up to case folding, a JSON null leaves the zero
    value, and a later member overwrites an earlier one. *)
Fixpoint decode_members {A} (field : string → json → A → result A)
    (l : list (string * json)) (a : A) : result A :=
  match l with
  | [] => Ok a
  | (k, x) :: l' => let? a' := field k x a in decode_members field l' a'
  end.
Definition decode_struct {A} (zero : A) (field : string → json → A → result A) (j : json) : result A :=
  match j with
  | JNull => Ok zero
  | JObj l => decode_members field l zero
  | _ => Err (Errorf "json: cannot unmarshal into Go struct")
  end.

Definition range_field (k : string) (x : json) (r : Range) : result Range :=
  if fold_match "from" k then let? d := json_date x in Ok (mkRange d (r_to r))
  else if fold_match "to" k then let? d := json_date x in Ok (mkRange (r_from r) d)
  else Err (Errorf "json: unknown field").
Definition json_range : json → result Range := decode_struct (mkRange zero_date zero_date) range_field.

Fixpoint json_dates (l : list json) : result DateSeries :=
  match l with
  | [] => Ok []
  | x :: l' => let? d := json_date x in let? ds := json_dates l' in Ok (d :: ds)
  end.
Definition series_field (k : string) (x : json) (_ : DateSeries) : result DateSeries :=
  if fold_match "dates" k then
    match x with
    | JNull => Ok []
    | JArr l => json_dates l
    | _ => Err (Errorf "json: cannot unmarshal into Go value of type []CalendarDate")
    end
  else Err (Errorf "json: unknown field").
Definition json_series : json → result DateSeries := decode_struct [] series_field.

Definition json_empty : json → result unit :=
  decode_struct tt (λ _ _ _, Err (Errorf "json: unknown field")).

(** ** Codec *)
Definition encode (kind : ParameterKind) (value : json) : Parameters :=
  let data := json_print value in mkParameters kind 1 data (sha256 data).

Definition decodeCanonical {A} (data : string) (target : json → result A) (validate : A → result unit) : result A :=
  match json_decode data with
  | None => Err (Errorf "decode canonical parameters")
  | Some j => let? value := target j in let? _ := validate value in Ok value
  end.

(** Re-encodes the decoded value: MySQL may have changed white space or the
    order of the members. *)
Definition validateCanonical {A} (parameters : Parameters) (target : json → result A)
    (source : A → json) (validate : A → result unit) : result unit :=
  let? value := decodeCanonical (p_json parameters) target validate in
  if (p_checksum (encode (p_kind parameters) (source value)) =? p_checksum parameters)%string then Ok tt
  else Err (Errorf "invalid canonical parameter checksum").

(** ** Ranges and date series *)
Definition validRange (from to : CalendarDate) : result Range :=
  if IsZero from || IsZero to || negb (string_le (date_string from) (date_string to))
  then Err (Errorf "valid inclusive date range is required") else Ok (mkRange from to).

(** [for date := from; date.String() <= to.String(); date = date.AddDays(1)]. *)
Fixpoint inclusiveLoop (fuel : nat) (date to : CalendarDate) : option (list CalendarDate) :=
  match fuel with
  | O => None
  | S fuel =>
      if string_le (date_string date) (date_string to)
      then cons date <$> inclusiveLoop fuel (AddDays date 1) to else Some []
  end.

Definition lastDay : CalendarDate := mkDate 9999 12 31.

(** The iterations the loop needs: the length of the interval and one test;
    only for an interval that ends on the last four-digit day does the text
    comparison let it run on (see [inclusiveDates_overrun]), into the year
    99990. *)
Definition inclusiveFuel (from to : CalendarDate) : nat :=
  if date_days to <? date_days lastDay
  then S (S (Z.to_nat (date_days to - date_days from)))
  else Z.to_nat (date_days (mkDate 99990 1 2) - date_days from).

Definition inclusiveDates (from to : CalendarDate) : result (list CalendarDate) :=
  let? _ := validRange from to in
  match inclusiveLoop (inclusiveFuel from to) from to with
  | Some dates => Ok dates
  | None => Err (Errorf "inclusive date loop did not end")
  end.

Fixpoint contiguousFrom (previous : CalendarDate) (dates : list CalendarDate) : bool :=
  match dates with
  | [] => true
  | date :: dates' =>
      negb (IsZero date) && bool_decide (date = AddDays previous 1) && contiguousFrom date dates'
  end.

Definition validateDateSeries (dates : list CalendarDate) : result unit :=
  match dates with
  | [] => Err (Errorf "date series is empty")
  | date :: dates' =>
      if negb (IsZero date) && contiguousFrom date dates' then Ok tt
      else Err (Errorf "date series must be ascending and contiguous")
  end.

(** ** Constructors *)
Definition requireJob (key : string) (strategy : DateStrategy) (category : option JobCategory) : result JobDefinition :=
  let? catalog := NewCatalog in
  match Find catalog key with
  | None => Err (Errorf "unknown job")
  | Some job =>
      if negb (bool_decide (j_strategy job = strategy)) ||
         match category with Some c => negb (bool_decide (j_category job = c)) | None => false end
      then Err (Errorf "job has incompatible date contract") else Ok job
  end.

Definition NewRangeExecution (jobKey : string) (from to : CalendarDate) : result Parameters :=
  let? _ := requireJob jobKey RangeCapable (Some CategoryFixed) in
  let? value := validRange from to in
  Ok (encode FixedRangeV1 (range_json value)).

Definition NewDateSeriesExecution (jobKey : string) (from to : CalendarDate) : result Parameters :=
  let? _ := requireJob jobKey SingleDate (Some CategoryFixed) in
  let? dates := inclusiveDates from to in
  Ok (encode FixedDateSeriesV1 (series_json dates)).

Definition NewMaintenanceSeriesExecution (jobKey : string) (from to : CalendarDate) : result Parameters :=
  let? job := requireJob jobKey SingleDate None in
  if negb (bool_decide (j_category job = CategoryEOD)) && negb (bool_decide (j_category job = CategoryCBR))
  then Err (Errorf "job is not maintenance") else
  let? dates := inclusiveDates from to in
  Ok (encode MaintenanceDateSeriesV2 (series_json dates)).

Definition NewLiveSnapshotExecution (jobKey : string) : result Parameters :=
  let? _ := requireJob jobKey NoDate None in
  Ok (encode LiveSnapshotV1 empty_json).

Definition NewRunAllRange (from to : CalendarDate) : result Parameters :=
  let? value := validRange from to in
  Ok (encode RunAllRangeV1 (range_json value)).

Definition check_range (r : Range) : result unit :=
  let? _ := validRange (r_from r) (r_to r) in Ok tt.

Definition Validate (parameters : Parameters) (job : JobDefinition) : result unit :=
  if negb (p_version parameters =? 1) || (p_json parameters =? "")%string || negb (json_valid (p_json parameters))
  then Err (Errorf "invalid canonical parameter envelope") else
  match p_kind parameters with
  | FixedRangeV1 =>
      if negb (bool_decide (j_category job = CategoryFixed)) || negb (bool_decide (j_strategy job = RangeCapable))
      then Err (Errorf "job does not accept range parameters")
      else validateCanonical parameters json_range range_json check_range
  | FixedDateSeriesV1 =>
      if negb (bool_decide (j_category job = CategoryFixed)) || negb (bool_decide (j_strategy job = SingleDate))
      then Err (Errorf "job does not accept date-series parameters")
      else validateCanonical parameters json_series series_json validateDateSeries
  | MaintenanceDateSeriesV2 =>
      if negb (bool_decide (j_category job = CategoryEOD)) && negb (bool_decide (j_category job = CategoryCBR))
      then Err (Errorf "job does not accept maintenance parameters")
      else validateCanonical parameters json_series series_json validateDateSeries
  | LiveSnapshotV1 | DetailLiveSnapshotV1 =>
      if negb (bool_decide (j_strategy job = NoDate))
      then Err (Errorf "job does not accept live-snapshot parameters")
      else validateCanonical parameters json_empty (λ _, empty_json) (λ _, Ok tt)
  | RunAllRangeV1 | UnsupportedKind _ => Err (Errorf "unsupported parameter kind")
  end.

Definition DecodeRange (parameters : Parameters) : result Range :=
  match p_kind parameters with
  | FixedRangeV1 | RunAllRangeV1 => decodeCanonical (p_json parameters) json_range check_range
  | _ => Err (Errorf "parameters are not a range")
  end.

Definition DecodeDateSeries (parameters : Parameters) : result DateSeries :=
  match p_kind parameters with
  | FixedDateSeriesV1 => decodeCanonical (p_json parameters) json_series validateDateSeries
  | _ => Err (Errorf "parameters are not a date series")
  end.

Definition DecodeMaintenanceSeries (parameters : Parameters) : result DateSeries :=
  match p_kind parameters with
  | MaintenanceDateSeriesV2 => decodeCanonical (p_json parameters) json_series validateDateSeries
  | _ => Err (Errorf "parameters are not a maintenance date series")
  end.

(** [parametersForJob] of repository.go. *)
Definition parametersForJob (job : JobDefinition) (from to : CalendarDate) : result Parameters :=
  match j_strategy job with
  | RangeCapable => NewRangeExecution (j_key job) from to
  | SingleDate =>
      if bool_decide (j_category job = CategoryFixed) then NewDateSeriesExecution (j_key job) from to
      else NewMaintenanceSeriesExecution (j_key job) from to
  | NoDate => NewLiveSnapshotExecution (j_key job)
  end.

(** ** Lemmas *)

(** The dates the service handles: four-digit and not the zero date. *)
Definition usable (d : CalendarDate) : bool := four_digit d && negb (IsZero d).

Lemma usable_spec d : usable d = true ↔ valid_date d = true ∧ 1 <= year d <= 9999.
Proof.
  unfold usable, IsZero. rewrite andb_true_iff, four_digit_spec, negb_true_iff, Z.eqb_neq.
  split; [intros [[? [? ?]] ?]; split; [done|lia]|intros [? [? ?]]; split; [split; [done|lia]|lia]].
Qed.
Lemma usable_four d : usable d = true → four_digit d = true.
Proof. unfold usable. by intros [? _]%andb_true_iff. Qed.
Lemma usable_nonzero d : usable d = true → IsZero d = false.
Proof. unfold usable. by intros [_ ?%negb_true_iff]%andb_true_iff. Qed.
Lemma usable_valid d : usable d = true → valid_date d = true.
Proof. by intros [? _]%usable_spec. Qed.

Lemma usable_between a n : usable a = true → date_days a <= n <= date_days lastDay →
  usable (days_date n) = true.
Proof.
  intros [Hv Hy]%usable_spec Hn. apply usable_spec.
  pose proof (days_date_valid n) as Hvn. split; [done|].
  pose proof (date_key_lt (days_date n) a Hvn Hv) as H1.
  pose proof (date_key_lt lastDay (days_date n) eq_refl Hvn) as H2.
  rewrite date_days_date in H1, H2.
  pose proof (proj1 (valid_date_spec a) Hv). pose proof (proj1 (valid_date_spec _) Hvn).
  pose proof (days_in_bounds (year a) (month a)).
  pose proof (days_in_bounds (year (days_date n)) (month (days_date n))).
  assert (H1' : ¬ date_key (days_date n) < date_key a) by lia.
  assert (H2' : ¬ date_key lastDay < date_key (days_date n)) by lia.
  change (date_key lastDay) with 99991231 in H2'. unfold date_key in H1', H2'. lia.
Qed.

Lemma usable_string_le a b : usable a = true → usable b = true →
  string_le (date_string a) (date_string b) = (date_days a <=? date_days b).
Proof. intros Ha Hb. apply date_string_order; auto using usable_four, usable_nonzero. Qed.

(** The [n] days from [from] on. *)
Definition interval (from : Z) (n : nat) : list CalendarDate :=
  (λ i : nat, days_date (from + Z.of_nat i)) <$> seq 0 n.

Lemma interval_cons from n : interval from (S n) = days_date from :: interval (from + 1) n.
Proof.
  unfold interval. simpl. rewrite Z.add_0_r. f_equal.
  rewrite <- fmap_S_seq, <- list_fmap_compose. apply list_fmap_ext. intros i x _. simpl. f_equal. lia.
Qed.

Lemma interval_length from n : length (interval from n) = n.
Proof. unfold interval. by rewrite length_fmap, length_seq. Qed.

Lemma inclusiveLoop_interval a to (n : nat) date fuel :
  usable a = true → usable to = true → date_days to < date_days lastDay →
  date_days a <= date → date + Z.of_nat n = date_days to + 1 → (n < fuel)%nat →
  inclusiveLoop fuel (days_date date) to = Some (interval date n).
Proof.
  intros Ha Hto Hlast. revert date fuel. induction n as [|n IH]; intros date fuel Hd Hn Hf;
    (destruct fuel as [|fuel]; [lia|]); cbn [inclusiveLoop];
    assert (Hu : usable (days_date date) = true) by (apply (usable_between a); [done|lia]);
    rewrite usable_string_le, date_days_date by done.
  - by rewrite (proj2 (Z.leb_gt _ _)) by lia.
  - rewrite (proj2 (Z.leb_le _ _)) by lia.
    assert (AddDays (days_date date) 1 = days_date (date + 1)) as ->.
    { unfold AddDays. by rewrite usable_nonzero, date_days_date by done. }
    rewrite IH by lia. by rewrite interval_cons.
Qed.

Definition interval_count (from to : CalendarDate) : nat := Z.to_nat (date_days to - date_days from + 1).

Lemma inclusiveDates_interval from to :
  usable from = true → usable to = true → date_days to < date_days lastDay →
  inclusiveDates from to =
    if date_days from <=? date_days to then Ok (interval (date_days from) (interval_count from to))
    else Err (Errorf "valid inclusive date range is required").
Proof.
  intros Hf Ht Hl. unfold inclusiveDates, validRange.
  rewrite !usable_nonzero, usable_string_le by done. simpl.
  destruct (Z.leb_spec (date_days from) (date_days to)); simpl; [|done].
  unfold inclusiveFuel. rewrite (proj2 (Z.ltb_lt _ _)) by done.
  rewrite <- (days_date_days from) at 2 by by apply usable_valid.
  rewrite (inclusiveLoop_interval from to (interval_count from to));
    unfold interval_count; try done; lia.
Qed.

Lemma contiguous_interval a date n :
  usable a = true → date_days a <= date → date + Z.of_nat n <= date_days lastDay →
  contiguousFrom (days_date date) (interval (date + 1) n) = true.
Proof.
  intros Ha. revert date. induction n as [|n IH]; intros date Hd Hn; [done|].
  rewrite interval_cons. cbn [contiguousFrom].
  rewrite IH by lia. rewrite andb_true_r.
  assert (Hu : usable (days_date date) = true) by (apply (usable_between a); [done|lia]).
  assert (Hu1 : usable (days_date (date + 1)) = true) by (apply (usable_between a); [done|lia]).
  rewrite usable_nonzero by done. simpl. apply bool_decide_eq_true. unfold AddDays.
  by rewrite usable_nonzero, date_days_date by done.
Qed.

Lemma validateDateSeries_interval a n :
  usable a = true → date_days a + Z.of_nat n <= date_days lastDay →
  validateDateSeries (interval (date_days a) (S n)) = Ok tt.
Proof.
  intros Ha Hn. rewrite interval_cons. unfold validateDateSeries.
  assert (Hu : usable (days_date (date_days a)) = true) by (apply (usable_between a); [done|lia]).
  rewrite usable_nonzero by done. by rewrite (contiguous_interval a) by (done || lia).
Qed.

(** What [validateDateSeries] accepts is one gap-free run of days. *)
Lemma contiguousFrom_interval dates date :
  contiguousFrom (days_date date) dates = true → IsZero (days_date date) = false →
  dates = interval (date + 1) (length dates).
Proof.
  revert date. induction dates as [|d dates IH]; intros date; [done|]. cbn [contiguousFrom].
  rewrite !andb_true_iff, negb_true_iff, bool_decide_eq_true. intros [[Hz Hd] Hc] Hz'.
  unfold AddDays in Hd. rewrite Hz', date_days_date in Hd. subst d.
  simpl length. rewrite interval_cons. f_equal. by apply IH.
Qed.

(** *** JSON of dates *)
Lemma plain_digit n : 0 <= n <= 9 → plain_char (digit n) = true.
Proof.
  intros Hn. destruct (digit_cases n Hn) as [->|[->|[->|[->|[->|[->|[->|[->|[->| ->]]]]]]]]]; reflexivity.
Qed.

Lemma plain_app a b : plain (a +:+ b) = plain a && plain b.
Proof. induction a as [|c a IH]; [done|]. rewrite string_app_cons.
  change (plain_char c && plain (a +:+ b) = (plain_char c && plain a) && plain b). by rewrite IH, andb_assoc.
Qed.

Lemma plain_pad2 n : 0 <= n < 100 → plain (pad2 n) = true.
Proof.
  intros Hn. unfold pad2, plain. simpl. by rewrite !plain_digit by (Z.to_euclidean_division_equations; lia).
Qed.

Lemma plain_date d : usable d = true → plain (date_string d) = true.
Proof.
  intros Hu. pose proof (usable_spec d) as [[Hv Hy] _]; [done|].
  pose proof (proj1 (valid_date_spec d) Hv) as [Hm Hd]. pose proof (days_in_bounds (year d) (month d)).
  unfold date_string, format_date. rewrite usable_nonzero, year_string_4, pad4_pad2, !plain_app by (done || lia).
  by rewrite !plain_pad2 by (Z.to_euclidean_division_equations; lia).
Qed.

Lemma date_json_usable d : usable d = true →
  simple (date_json d) = true ∧ json_date (date_json d) = Ok d.
Proof.
  intros Hu. unfold date_json, json_date. rewrite usable_nonzero by done. simpl.
  split; [by apply plain_date|]. unfold date_string. rewrite usable_nonzero by done.
  apply parse_format_date, usable_four, Hu.
Qed.

Lemma json_dates_usable dates : Forall (λ d, usable d = true) dates →
  forallb simple (date_json <$> dates) = true ∧ json_dates (date_json <$> dates) = Ok dates.
Proof.
  induction 1 as [|d dates Hd _ [IH1 IH2]]; [done|].
  apply date_json_usable in Hd as [H1 H2]. rewrite fmap_cons.
  cbn [forallb json_dates]. rewrite H1, H2, IH1, IH2. done.
Qed.

Lemma json_range_json r : usable (r_from r) = true → usable (r_to r) = true →
  simple (range_json r) = true ∧ json_range (range_json r) = Ok r.
Proof.
  intros [Hf1 Hf2]%date_json_usable [Ht1 Ht2]%date_json_usable. destruct r as [f t]; simpl in *.
  rewrite Hf1, Ht1. split; [done|]. cbn. unfold range_field at 1. cbn. rewrite Hf2. cbn.
  unfold range_field. cbn. by rewrite Ht2.
Qed.

Lemma json_series_json dates : Forall (λ d, usable d = true) dates →
  simple (series_json dates) = true ∧ json_series (series_json dates) = Ok dates.
Proof.
  intros [H1 H2]%json_dates_usable. unfold series_json, json_series. simpl.
  rewrite H1. cbn. unfold series_field. cbn. by rewrite H2.
Qed.

(** *** Stored documents decode to what was encoded. *)
Lemma decodeCanonical_print {A} (target : json → result A) validate j a :
  simple j = true → target j = Ok a → validate a = Ok tt →
  decodeCanonical (json_print j) target validate = Ok a.
Proof. intros Hs Ht Hv. unfold decodeCanonical. by rewrite json_decode_print, Ht; simpl; rewrite ?Hv. Qed.

Lemma validateCanonical_encode {A} kind (target : json → result A) source validate a :
  simple (source a) = true → target (source a) = Ok a → validate a = Ok tt →
  validateCanonical (encode kind (source a)) target source validate = Ok tt.
Proof.
  intros Hs Ht Hv. unfold validateCanonical. change (p_json (encode kind (source a))) with (json_print (source a)).
  rewrite (decodeCanonical_print _ _ _ a) by done. simpl res_bind. by rewrite String.eqb_refl.
Qed.

Lemma Validate_envelope kind j : simple j = true →
  (negb (p_version (encode kind j) =? 1) || (p_json (encode kind j) =? "")%string ||
   negb (json_valid (p_json (encode kind j)))) = false.
Proof.
  intros Hs. change (p_version (encode kind j)) with 1.
  change (p_json (encode kind j)) with (json_print j). unfold json_valid.
  rewrite json_decode_print by done.
  destruct (print_length (jsize j) j Hs (le_n _)) as [_ Hl].
  destruct (String.eqb_spec (json_print j) "") as [E|]; [rewrite E in Hl; simpl in Hl; lia|done].
Qed.

Lemma interval_usable a n : usable a = true → date_days a + Z.of_nat n <= date_days lastDay + 1 →
  Forall (λ d, usable d = true) (interval (date_days a) n).
Proof.
  intros Ha Hn. apply Forall_forall. intros d (i & -> & Hi)%list_elem_of_fmap.
  apply elem_of_seq in Hi. apply (usable_between a); [done|lia].
Qed.

Lemma check_range_le from to : usable from = true → usable to = true → date_days from <= date_days to →
  validRange from to = Ok (mkRange from to) ∧ check_range (mkRange from to) = Ok tt.
Proof.
  intros Hf Ht Hle. assert (H : validRange from to = Ok (mkRange from to)).
  { unfold validRange. rewrite !usable_nonzero, usable_string_le by done.
    by rewrite (proj2 (Z.leb_le _ _)) by lia. }
  split; [done|]. unfold check_range. simpl. by rewrite H.
Qed.

Lemma requireJob_catalog job category : job ∈ Jobs theCatalog →
  match category with Some c => j_category job = c | None => True end →
  requireJob (j_key job) (j_strategy job) category = Ok job.
Proof.
  intros Hj Hc. unfold requireJob. rewrite NewCatalog_Ok. cbn [res_bind].
  rewrite (proj2 (Find_spec (j_key job) job)) by done.
  rewrite bool_decide_eq_true_2 by done. simpl.
  destruct category as [c|]; [|done]. by rewrite bool_decide_eq_true_2 by done.
Qed.

Section Accepted.
Context (job : JobDefinition) (from to : CalendarDate).
Context (Hjob : job ∈ Jobs theCatalog) (Hfrom : usable from = true) (Hto : usable to = true).
Context (Hle : date_days from <= date_days to) (Hlast : date_days to < date_days lastDay).
Let days := interval (date_days from) (interval_count from to).

Lemma days_usable : Forall (λ d, usable d = true) days.
Proof using Hfrom Hle Hlast.
  apply interval_usable; [done|]. unfold interval_count. lia.
Qed.

Lemma days_valid : inclusiveDates from to = Ok days ∧ validateDateSeries days = Ok tt.
Proof using Hfrom Hto Hle Hlast.
  rewrite inclusiveDates_interval, (proj2 (Z.leb_le _ _)) by done. split; [done|].
  unfold days, interval_count.
  replace (Z.to_nat (date_days to - date_days from + 1)) with (S (Z.to_nat (date_days to - date_days from))) by lia.
  apply validateDateSeries_interval; [done|lia].
Qed.

Lemma range_accepted : j_strategy job = RangeCapable → j_category job = CategoryFixed →
  ∃ p, NewRangeExecution (j_key job) from to = Ok p ∧ Validate p job = Ok tt ∧
    DecodeRange p = Ok (mkRange from to).
Proof using Hjob Hfrom Hto Hle.
  intros Hs Hc. destruct (check_range_le from to) as [Hv Hk]; try done.
  destruct (json_range_json (mkRange from to)) as [J1 J2]; try done.
  exists (encode FixedRangeV1 (range_json (mkRange from to))). split; [|split].
  - unfold NewRangeExecution. rewrite <- Hs, requireJob_catalog by done. simpl. by rewrite Hv.
  - unfold Validate. rewrite Validate_envelope by done. simpl p_kind. cbv iota.
    rewrite Hs, Hc, !bool_decide_eq_true_2 by done. simpl negb. cbv iota. simpl orb. cbv iota.
    by apply (validateCanonical_encode _ json_range range_json check_range (mkRange from to)).
  - unfold DecodeRange. simpl p_kind. cbv iota. by apply decodeCanonical_print.
Qed.

Lemma series_accepted kind : 
  validateCanonical (encode kind (series_json days)) json_series series_json validateDateSeries = Ok tt ∧
  decodeCanonical (p_json (encode kind (series_json days))) json_series validateDateSeries = Ok days.
Proof using Hfrom Hto Hle Hlast.
  destruct (json_series_json days days_usable) as [J1 J2]. destruct days_valid as [_ Hv].
  split; [by apply validateCanonical_encode|by apply decodeCanonical_print].
Qed.

Lemma fixed_series_accepted : j_strategy job = SingleDate → j_category job = CategoryFixed →
  ∃ p, NewDateSeriesExecution (j_key job) from to = Ok p ∧ Validate p job = Ok tt ∧
    DecodeDateSeries p = Ok days.
Proof using Hjob Hfrom Hto Hle Hlast.
  intros Hs Hc. destruct (series_accepted FixedDateSeriesV1) as [V D].
  exists (encode FixedDateSeriesV1 (series_json days)). split; [|split; [|done]].
  - unfold NewDateSeriesExecution. rewrite <- Hs, requireJob_catalog by done. cbn [res_bind].
    by rewrite (proj1 days_valid).
  - unfold Validate. rewrite Validate_envelope by apply json_series_json, days_usable.
    simpl p_kind. cbv iota. rewrite Hs, Hc, !bool_decide_eq_true_2 by done. done.
Qed.

Lemma maintenance_series_accepted : j_strategy job = SingleDate →
  j_category job = CategoryEOD ∨ j_category job = CategoryCBR →
  ∃ p, NewMaintenanceSeriesExecution (j_key job) from to = Ok p ∧ Validate p job = Ok tt ∧
    DecodeMaintenanceSeries p = Ok days.
Proof using Hjob Hfrom Hto Hle Hlast.
  intros Hs Hc. destruct (series_accepted MaintenanceDateSeriesV2) as [V D].
  assert (Hcat : (negb (bool_decide (j_category job = CategoryEOD)) &&
    negb (bool_decide (j_category job = CategoryCBR))) = false) by (destruct Hc as [-> | ->]; done).
  exists (encode MaintenanceDateSeriesV2 (series_json days)). split; [|split; [|done]].
  - unfold NewMaintenanceSeriesExecution. rewrite <- Hs, requireJob_catalog by done. cbn [res_bind].
    by rewrite Hcat, (proj1 days_valid).
  - unfold Validate. rewrite Validate_envelope by apply json_series_json, days_usable.
    simpl p_kind. cbv iota. by rewrite Hcat.
Qed.

Lemma snapshot_accepted : j_strategy job = NoDate →
  ∃ p, NewLiveSnapshotExecution (j_key job) = Ok p ∧ Validate p job = Ok tt.
Proof using Hjob.
  intros Hs. exists (encode LiveSnapshotV1 empty_json). split.
  - unfold NewLiveSnapshotExecution. by rewrite <- Hs, requireJob_catalog by done.
  - unfold Validate. rewrite Validate_envelope by done. simpl p_kind. cbv iota.
    rewrite Hs, bool_decide_eq_true_2 by done. simpl negb. cbv iota.
    by apply (validateCanonical_encode _ json_empty (λ _, empty_json) (λ _, Ok tt) tt).
Qed.

(** What a run of [job] over the interval decodes to. *)
Definition decodes_to (p : Parameters) : Prop :=
  match j_strategy job, j_category job with
  | RangeCapable, _ => DecodeRange p = Ok (mkRange from to)
  | SingleDate, CategoryFixed => DecodeDateSeries p = Ok days
  | SingleDate, _ => DecodeMaintenanceSeries p = Ok days
  | NoDate, _ => p = encode LiveSnapshotV1 empty_json
  end.

Lemma parametersForJob_accepted :
  ∃ p, parametersForJob job from to = Ok p ∧ Validate p job = Ok tt ∧ decodes_to p.
Proof using Hjob Hfrom Hto Hle Hlast.
  pose proof (catalog_job_shape job Hjob) as Hshape. unfold job_shape in Hshape.
  unfold parametersForJob, decodes_to.
  destruct (j_strategy job) eqn:Hs; destruct (j_category job) eqn:Hc; try done.
  - by apply range_accepted.
  - rewrite bool_decide_eq_true_2 by done. by apply fixed_series_accepted.
  - rewrite bool_decide_eq_false_2 by done. apply maintenance_series_accepted; auto.
  - rewrite bool_decide_eq_false_2 by done. apply maintenance_series_accepted; auto.
  - destruct snapshot_accepted as (p & Hp & Hv); [done|]. exists p. split; [done|]. split; [done|].
    unfold NewLiveSnapshotExecution in Hp. destruct (requireJob _ _ _); [by injection Hp|done].
  - destruct snapshot_accepted as (p & Hp & Hv); [done|]. exists p. split; [done|]. split; [done|].
    unfold NewLiveSnapshotExecution in Hp. destruct (requireJob _ _ _); [by injection Hp|done].
Qed.
End Accepted.

Lemma NewRunAllRange_decodes from to : usable from = true → usable to = true → date_days from <= date_days to →
  ∃ p, NewRunAllRange from to = Ok p ∧ DecodeRange p = Ok (mkRange from to).
Proof.
  intros Hf Ht Hle. destruct (check_range_le from to) as [Hv Hk]; try done.
  destruct (json_range_json (mkRange from to)) as [J1 J2]; try done.
  exists (encode RunAllRangeV1 (range_json (mkRange from to))). split.
  - unfold NewRunAllRange. by rewrite Hv.
  - unfold DecodeRange. simpl p_kind. cbv iota. by apply decodeCanonical_print.
Qed.

(** *** The loop that ends on 9999-12-31 *)
Lemma overrun_step : string_le (date_string (mkDate 10000 1 1)) (date_string lastDay) = true.
Proof. vm_compute. reflexivity. Qed.

Lemma inclusiveLoop_head fuel date to l : inclusiveLoop fuel date to = Some l →
  string_le (date_string date) (date_string to) = true → date ∈ l.
Proof.
  destruct fuel as [|fuel]; [done|]. cbn [inclusiveLoop]. intros H Hs. rewrite Hs in H.
  destruct (inclusiveLoop fuel _ _); [|done]. injection H as <-. apply list_elem_of_here.
Qed.

(** More fuel does not change a finished loop. *)
Lemma inclusiveLoop_more fuel fuel' date to l : (fuel ≤ fuel')%nat →
  inclusiveLoop fuel date to = Some l → inclusiveLoop fuel' date to = Some l.
Proof.
  revert fuel' date l. induction fuel as [|fuel IH]; intros [|fuel'] date l Hle; [done|done|lia|].
  cbn [inclusiveLoop]. destruct (string_le _ _); [|done].
  intros (l' & El & ->)%fmap_Some. apply fmap_Some. exists l'. split; [|done]. apply IH; [lia|done].
Qed.

Lemma usable_le_last from : usable from = true → date_days from <= date_days lastDay.
Proof.
  intros Hf. pose proof (proj1 (usable_spec from) Hf) as [Hv Hy].
  pose proof (date_key_lt lastDay from eq_refl Hv) as Hk.
  pose proof (proj1 (valid_date_spec from) Hv). pose proof (days_in_bounds (year from) (month from)).
  change (date_key lastDay) with 99991231 in Hk. unfold date_key in Hk. lia.
Qed.

(** The loop towards the last four-digit day walks through the interval and
    goes on with the day after it. *)
Lemma inclusiveLoop_to_last from n k : usable from = true →
  date_days from <= date_days lastDay - Z.of_nat n →
  inclusiveLoop (S n + k) (days_date (date_days lastDay - Z.of_nat n)) lastDay =
  app (interval (date_days lastDay - Z.of_nat n) (S n)) <$> inclusiveLoop k (mkDate 10000 1 1) lastDay.
Proof.
  intros Hf. induction n as [|n IH]; intros Hlo.
  - cbn [inclusiveLoop Nat.add]. rewrite Z.sub_0_r, days_date_days by done.
    change (string_le (date_string lastDay) (date_string lastDay)) with true. cbv iota.
    change (AddDays lastDay 1) with (mkDate 10000 1 1). rewrite interval_cons, days_date_days by done.
    by destruct (inclusiveLoop k _ _).
  - assert (Hu : usable (days_date (date_days lastDay - Z.of_nat (S n))) = true)
      by (apply (usable_between from); [done|lia]).
    change (S (S n) + k)%nat with (S (S n + k)). cbn [inclusiveLoop].
    rewrite usable_string_le, date_days_date, (proj2 (Z.leb_le _ _)) by (done || lia).
    unfold AddDays at 1. rewrite usable_nonzero, date_days_date by done.
    replace (date_days lastDay - Z.of_nat (S n) + 1) with (date_days lastDay - Z.of_nat n) by lia.
    rewrite IH by lia. rewrite (interval_cons _ (S n)).
    replace (date_days lastDay - Z.of_nat (S n) + 1) with (date_days lastDay - Z.of_nat n) by lia.
    by destruct (inclusiveLoop k _ _).
Qed.

(** ** Properties *)

(** The date loop of a series is total and exact: for four-digit dates
    before 9999-12-31 it returns every day from [from] to [to] once, in order,
    the series is accepted, and an inverted interval is refused. *)
Theorem inclusiveDates_exact : ∀ from to,
  usable from = true → usable to = true → date_days to < date_days lastDay →
  (date_days from <= date_days to → ∃ dates,
     inclusiveDates from to = Ok dates ∧ validateDateSeries dates = Ok tt ∧
     length dates = Z.to_nat (date_days to - date_days from + 1) ∧
     ∀ i, (i < length dates)%nat → dates !! i = Some (AddDays from (Z.of_nat i))) ∧
  (date_days to < date_days from → is_ok (inclusiveDates from to) = false).
Proof.
  intros from to Hf Ht Hl. split.
  - intros Hle. destruct (days_valid from to Hf Ht Hle Hl) as [H1 H2].
    eexists. split; [done|]. split; [done|]. rewrite interval_length. split; [done|].
    intros i Hi. unfold interval. rewrite list_lookup_fmap, lookup_seq_lt by done. simpl.
    unfold AddDays. by rewrite usable_nonzero by done.
  - intros Hgt. rewrite inclusiveDates_interval by done. by rewrite (proj2 (Z.leb_gt _ _)).
Qed.

Example inclusiveDates_exact_witness :
  inclusiveDates (mkDate 2024 2 28) (mkDate 2024 3 1) =
    Ok [mkDate 2024 2 28; mkDate 2024 2 29; mkDate 2024 3 1] ∧
  ∃ dates, inclusiveDates (mkDate 2024 2 28) (mkDate 2024 3 1) = Ok dates.
Proof.
  split; [vm_compute; reflexivity|].
  destruct (inclusiveDates_exact (mkDate 2024 2 28) (mkDate 2024 3 1) eq_refl eq_refl eq_refl) as [H _].
  destruct (H ltac:(vm_compute; discriminate)) as (dates & Hd & _). exists dates. exact Hd.
Defined.

(** What a constructor stores is what a run decodes: for every catalog job
    and every interval before 9999-12-31, [parametersForJob] succeeds, the
    stored document passes [Validate] for that job, and decoding it gives back
    the interval (as a range, the list of its days, or the empty snapshot). *)
Theorem parameters_round_trip : ∀ job from to,
  job ∈ Jobs theCatalog → usable from = true → usable to = true →
  date_days from <= date_days to → date_days to < date_days lastDay →
  ∃ p, parametersForJob job from to = Ok p ∧ Validate p job = Ok tt ∧ decodes_to job from to p.
Proof. intros. by apply parametersForJob_accepted. Qed.

Example parameters_round_trip_witness :
  ∃ job p, Find theCatalog "balance_sheet_report" = Some job ∧
    parametersForJob job (mkDate 2024 2 28) (mkDate 2024 3 1) = Ok p ∧ Validate p job = Ok tt.
Proof.
  destruct (Find theCatalog "balance_sheet_report") as [job|] eqn:E;
    [|vm_compute in E; discriminate].
  apply Find_spec in E as [Hj _].
  destruct (parameters_round_trip job (mkDate 2024 2 28) (mkDate 2024 3 1) Hj eq_refl eq_refl
    ltac:(vm_compute; discriminate) eq_refl) as (p & H1 & H2 & _).
  exists job, p. split; [done|]. by split.
Defined.

(** The interval that ends on 9999-12-31 overruns: the loop compares
    dates as text and 10000-01-01 sorts before 9999-12-31, so the loop is
    still running after the days of the interval, and whatever it returns in
    the end contains a day after the interval. *)
Theorem inclusiveDates_overrun : ∀ from, usable from = true →
  inclusiveLoop (S (S (Z.to_nat (date_days lastDay - date_days from)))) from lastDay = None ∧
  (∀ fuel dates, inclusiveLoop fuel from lastDay = Some dates → mkDate 10000 1 1 ∈ dates) ∧
  date_days lastDay < date_days (mkDate 10000 1 1).
Proof.
  intros from Hf. pose proof (usable_le_last from Hf) as Hle.
  remember (Z.to_nat (date_days lastDay - date_days from)) as n eqn:Hn.
  assert (date_days from = date_days lastDay - Z.of_nat n) as Hd by lia.
  rewrite <- (days_date_days from) by by apply usable_valid. rewrite Hd.
  assert (Hlo : date_days from <= date_days lastDay - Z.of_nat n) by lia.
  split; [|split; [|done]].
  - replace (S (S n)) with (S n + 1)%nat by lia.
    rewrite (inclusiveLoop_to_last from) by done. cbn [inclusiveLoop].
    by rewrite overrun_step.
  - intros fuel dates E. destruct (decide (fuel ≤ S n)%nat) as [Hle'|].
    + apply (inclusiveLoop_more _ (S n + 0)%nat) in E; [|lia].
      by rewrite (inclusiveLoop_to_last from) in E.
    + replace fuel with (S n + (fuel - S n))%nat in E by lia.
      rewrite (inclusiveLoop_to_last from) in E by done.
      destruct (inclusiveLoop _ (mkDate 10000 1 1) _) as [l|] eqn:E'; [|done].
      apply Some_inj in E as <-. apply elem_of_app. right. by eapply inclusiveLoop_head, overrun_step.
Qed.

Lemma inclusiveDates_overrun_witness :
  inclusiveLoop 2 lastDay lastDay = None ∧
  (∀ fuel dates, inclusiveLoop fuel lastDay lastDay = Some dates → mkDate 10000 1 1 ∈ dates) ∧
  date_days lastDay < date_days (mkDate 10000 1 1).
Proof. exact (inclusiveDates_overrun lastDay eq_refl). Defined.
