(* ===== verification/Access.v ===== *)
(** * Roles, permissions and requesters
    (src/internal/access/*.go, src/internal/securityctx/securityctx.go)

    The administrator role passes every check; any other role needs the
    permission key.  [Authorizer.Can] asks a store, which is a parameter;
    [Requester.Can] asks the set loaded with the session. *)

From S2P Require Import Prelude.
From stdpp Require Import gmap.

Open Scope Z_scope.

Definition AdminRoleSlug : string := "admin".
Definition UserRoleSlug : string := "user".

Record Role := mkRole { role_id : Z; role_name : string; role_slug : string; role_system : bool }.

Definition IsAdminRole (slug : string) : bool := (slug =? AdminRoleSlug)%string.

(** [PermissionSet]: a map used as a set. *)
Definition PermissionSet := gset string.
Definition NewPermissionSet (keys : list string) : PermissionSet :=
  foldl (λ set key, {[ key ]} ∪ set) ∅ keys.
Definition Has (set : PermissionSet) (key : string) : bool := bool_decide (key ∈ set).

(** ** Registry validation *)

Record PermissionDefinition := mkPermission {
  perm_key : string; perm_name : string; perm_group : string; perm_description : string }.

Definition is_word (c : ascii) : bool := is_lower c || is_digit c || (c =? "_")%char.

(** The rest of a word, then further dotted words; [dots] says whether a
    dotted word has been read. *)
Fixpoint match_words (dots : bool) (s : string) : bool :=
  match s with
  | "" => dots
  | String c s' =>
      if is_word c then match_words dots s'
      else (c =? ".")%char &&
           match s' with
           | String d s'' => is_lower d && match_words true s''
           | "" => false
           end
  end.

(** [permissionKeyPattern]: two or more words joined by dots, each a lower
    case letter followed by lower case letters, digits and underscores. *)
Definition permissionKeyPattern (key : string) : bool :=
  match key with String c s => is_lower c && match_words false s | "" => false end.

Fixpoint validateRegistryFrom (seen : gset string) (definitions : list PermissionDefinition) : result unit :=
  match definitions with
  | [] => Ok tt
  | definition :: rest =>
      if negb (permissionKeyPattern (perm_key definition)) then Err (Errorf "permission has invalid key")
      else if bool_decide (perm_key definition ∈ seen) then Err (Errorf "duplicate permission key")
      else if (trim_space (perm_name definition) =? "")%string then Err (Errorf "permission has empty name")
      else if (trim_space (perm_group definition) =? "")%string then Err (Errorf "permission has empty group")
      else validateRegistryFrom ({[ perm_key definition ]} ∪ seen) rest
  end.
Definition ValidateRegistry : list PermissionDefinition → result unit := validateRegistryFrom ∅.

(** ** Requesters *)

Record Identity := mkIdentity { UserID : Z; Username : string }.
#[export] Instance Identity_eq_dec : EqDecision Identity. Proof. solve_decision. Defined.

Record Requester := mkRequester {
  Actor : Identity; Effective : Identity; EffectiveRoleID : Z; EffectiveRoleSlug : string;
  Permissions : PermissionSet }.

Definition IsEffectiveAdmin (requester : Requester) : bool := IsAdminRole (EffectiveRoleSlug requester).
Definition Can (requester : Requester) (permission : string) : bool :=
  IsEffectiveAdmin requester || Has (Permissions requester) permission.

(** [Authorizer.Can] over a [PermissionStore]. *)
Definition authorizer_Can (RoleHasPermission : Z → string → result bool) (role : Role) (permission : string) : result bool :=
  if IsAdminRole (role_slug role) then Ok true else
  match RoleHasPermission (role_id role) permission with
  | Ok allowed => Ok allowed
  | Err _ => Err (Errorf "authorize role")
  end.

(** ** Lemmas *)

Lemma elem_of_NewPermissionSet keys key : key ∈ NewPermissionSet keys ↔ key ∈ keys.
Proof.
  unfold NewPermissionSet. enough (∀ s : gset string,
    key ∈ foldl (λ set k, {[ k ]} ∪ set) s keys ↔ key ∈ s ∨ key ∈ keys) as H
    by (rewrite H; set_solver).
  induction keys as [|k keys IH]; intros s; simpl; [set_solver|]. rewrite IH. set_solver.
Qed.

Lemma validateRegistryFrom_Ok seen definitions :
  validateRegistryFrom seen definitions = Ok tt →
  NoDup (perm_key <$> definitions) ∧
  (∀ d, d ∈ definitions → (perm_key d ∉ seen) ∧ permissionKeyPattern (perm_key d) = true).
Proof.
  revert seen. induction definitions as [|d ds IH]; intros seen H; [split; [constructor|set_solver]|].
  cbn [validateRegistryFrom] in H. destruct (permissionKeyPattern (perm_key d)) eqn:Ep; [|done].
  cbn [negb] in H. case_bool_decide as Es; [done|]. repeat case_match; try done.
  apply IH in H as [Hn Hd]. split.
  - cbn [fmap list_fmap]. constructor; [|done]. intros (d' & Hk & Hd')%list_elem_of_fmap.
    apply Hd in Hd' as [Hd' _]. set_solver.
  - intros d' [->|Hd']%elem_of_cons; [done|]. apply Hd in Hd'. set_solver.
Qed.
