(* ===== verification/AuditTrail.v ===== *)
(** * Audit log (src/internal/audit/audit.go)

    [Append] validates an event and writes one row; callers run it on the
    transaction of the change it records, so an invalid event rolls the
    change back.  The store is abstract here: [AuditLog] states what the
    table promises, Store.v discharges it. *)

From S2P Require Import Prelude Calendar Json Access.

Open Scope Z_scope.

Definition MaxMetadataBytes : Z := Z.shiftl 64 10.

(** ** Actions and resource types (both are strings in the source) *)
Definition Action := string.
Definition ActionMFAEnrolled : Action := "mfa.enrolled".
Definition ActionMFAStepUp : Action := "mfa.step_up".
Definition ActionMFARecoveryUsed : Action := "mfa.recovery_used".
Definition ActionMFARecoveryRegenerated : Action := "mfa.recovery_regenerated".
Definition ActionMFARotated : Action := "mfa.rotated".
Definition ActionMFAAdminReset : Action := "mfa.admin_reset".
Definition ActionMFAOperatorReset : Action := "mfa.operator_reset".
Definition ActionMFAExhausted : Action := "mfa.challenge_exhausted".
Definition ActionMFAFailed : Action := "mfa.verification_failed".
Definition ActionAuthLoginFailed : Action := "auth.login_failed".
Definition ActionAuthLogin : Action := "auth.login".
Definition ActionAuthLogout : Action := "auth.logout".
Definition ActionAuthRegistration : Action := "auth.registration".
Definition ActionImpersonationStarted : Action := "impersonation.started".
Definition ActionImpersonationStopped : Action := "impersonation.stopped".
Definition ActionUserCreated : Action := "user.created".
Definition ActionUserProfileUpdated : Action := "user.profile_updated".
Definition ActionUserRoleChanged : Action := "user.role_changed".
Definition ActionUserActivated : Action := "user.activated".
Definition ActionUserDeactivated : Action := "user.deactivated".
Definition ActionUserPasswordReset : Action := "user.password_reset".
Definition ActionRoleCreated : Action := "role.created".
Definition ActionRoleUpdated : Action := "role.updated".
Definition ActionRoleDeleted : Action := "role.deleted".
Definition ActionRolePermissionsUpdated : Action := "role.permissions_updated".
Definition ActionAdminBootstrap : Action := "admin.bootstrap".
Definition ActionIngestionRunSubmitted : Action := "ingestion.run_submitted".
Definition ActionIngestionRunAllSubmitted : Action := "ingestion.run_all_submitted".
Definition ActionIngestionCancellationRequested : Action := "ingestion.cancellation_requested".
Definition ActionIngestionAbandonedRecovered : Action := "ingestion.abandoned_recovered".
Definition ActionIngestionRuntimeSettingsUpdated : Action := "ingestion.runtime_settings_updated".
Definition ActionSourceStateChanged : Action := "source.state_changed".
Definition ActionSourceAuthProfileChanged : Action := "source.auth_profile_changed".
Definition ActionFincloudAuthProfileCreated : Action := "fincloud_auth_profile.created".
Definition ActionFincloudAuthProfileUpdated : Action := "fincloud_auth_profile.updated".
Definition ActionFincloudAuthProfileStateChanged : Action := "fincloud_auth_profile.state_changed".
Definition ActionFincloudAuthProfileTested : Action := "fincloud_auth_profile.tested".
Definition ActionScheduleCreated : Action := "schedule.created".
Definition ActionScheduleUpdated : Action := "schedule.updated".
Definition ActionScheduleStateChanged : Action := "schedule.state_changed".
Definition ActionScheduleBulkEnable : Action := "schedule.bulk_enable".
Definition ActionScheduleBulkDisable : Action := "schedule.bulk_disable".
Definition ActionScheduleBulkArchive : Action := "schedule.bulk_archive".
Definition ActionReportDatasourceCreated : Action := "report_datasource.created".
Definition ActionReportDatasourceUpdated : Action := "report_datasource.updated".
Definition ActionReportDatasourceStateChanged : Action := "report_datasource.state_changed".
Definition ActionReportDatasourceTested : Action := "report_datasource.tested".
Definition ActionReportTemplateCreated : Action := "report_template.created".
Definition ActionReportTemplateUpdated : Action := "report_template.updated".
Definition ActionReportTemplateStateChanged : Action := "report_template.state_changed".
Definition ActionReportTemplateAccessChanged : Action := "report_template.access_changed".
Definition ActionReportExecuted : Action := "report.executed".
Definition ActionReportTemplateQueryTested : Action := "report_template.query_tested".
Definition ActionReportTemplateOptionsTested : Action := "report_template.options_tested".
Definition ActionReportExportSubmitted : Action := "report_export.submitted".
Definition ActionReportExportDownloaded : Action := "report_export.downloaded".
Definition ActionCustomDatasetUploadStored : Action := "custom_dataset.upload_stored".
Definition ActionCustomDatasetProvisioned : Action := "custom_dataset.provisioned".
Definition ActionCustomDatasetActivated : Action := "custom_dataset.activated".
Definition ActionCustomDatasetUpdated : Action := "custom_dataset.updated".
Definition ActionCustomDatasetArchived : Action := "custom_dataset.archived".
Definition ActionCustomDatasetSchemaRevised : Action := "custom_dataset.schema_revised".
Definition ActionCustomDatasetImportSubmitted : Action := "custom_dataset.import_submitted".
Definition ActionCustomDatasetImportSucceeded : Action := "custom_dataset.import_succeeded".
Definition ActionCustomDatasetImportFailed : Action := "custom_dataset.import_failed".

(** The actions [knownAction] accepts. *)
Definition knownActions : list Action :=
  [ActionMFAEnrolled; ActionMFAStepUp; ActionMFARecoveryUsed; ActionMFARecoveryRegenerated;
   ActionMFARotated; ActionMFAAdminReset; ActionMFAOperatorReset; ActionMFAExhausted;
   ActionMFAFailed; ActionAuthLoginFailed; ActionAuthLogin; ActionAuthLogout;
   ActionAuthRegistration; ActionImpersonationStarted; ActionImpersonationStopped;
   ActionUserCreated; ActionUserProfileUpdated; ActionUserRoleChanged; ActionUserActivated;
   ActionUserDeactivated; ActionUserPasswordReset; ActionRoleCreated; ActionRoleUpdated;
   ActionRoleDeleted; ActionRolePermissionsUpdated; ActionAdminBootstrap;
   ActionIngestionRunSubmitted; ActionIngestionRunAllSubmitted;
   ActionIngestionCancellationRequested; ActionIngestionAbandonedRecovered;
   ActionIngestionRuntimeSettingsUpdated; ActionSourceStateChanged;
   ActionSourceAuthProfileChanged; ActionFincloudAuthProfileCreated;
   ActionFincloudAuthProfileUpdated; ActionFincloudAuthProfileStateChanged;
   ActionFincloudAuthProfileTested; ActionScheduleCreated; ActionScheduleUpdated;
   ActionScheduleStateChanged; ActionScheduleBulkEnable; ActionScheduleBulkDisable;
   ActionScheduleBulkArchive; ActionReportDatasourceCreated; ActionReportDatasourceUpdated;
   ActionReportDatasourceStateChanged; ActionReportDatasourceTested;
   ActionReportTemplateCreated; ActionReportTemplateUpdated; ActionReportTemplateStateChanged;
   ActionReportTemplateAccessChanged; ActionReportExecuted; ActionReportTemplateQueryTested;
   ActionReportTemplateOptionsTested; ActionReportExportSubmitted; ActionReportExportDownloaded;
   ActionCustomDatasetUploadStored; ActionCustomDatasetProvisioned;
   ActionCustomDatasetActivated; ActionCustomDatasetUpdated; ActionCustomDatasetArchived;
   ActionCustomDatasetSchemaRevised; ActionCustomDatasetImportSubmitted;
   ActionCustomDatasetImportSucceeded; ActionCustomDatasetImportFailed].
Definition knownAction (action : Action) : bool := bool_decide (action ∈ knownActions).

Inductive ResourceType :=
  | ResourceUser
  | ResourceRole
  | ResourceIngestionRun
  | ResourceSchedule
  | ResourceReportDatasource
  | ResourceReportTemplate
  | ResourceReportExport
  | ResourceFincloudAuthProfile
  | ResourceCustomDataset
  | ResourceCustomDatasetUpload
  | ResourceCustomDatasetImport
  | OtherResource (name : string).
#[export] Instance ResourceType_eq_dec : EqDecision ResourceType. Proof. solve_decision. Defined.

(** ** Events *)

(** [Metadata]: the JSON form of the event's typed payload. *)
Definition Metadata := option json.

Record Attribution := mkAttribution { a_actor : option Identity; a_effective : option Identity }.

(** [e_resource] is [None] for the empty resource type. *)
Record Event := mkEvent {
  e_attribution : Attribution; e_action : Action; e_resource : option ResourceType;
  e_resource_id : Z; e_metadata : Metadata; e_created_at : instant }.

(** The payloads the modelled components record.  A field marked
    [omitempty] is left out when it is the zero value. *)
Definition omitempty_string (key value : string) : list (string * json) :=
  if (value =? "")%string then [] else [(key, JStr value)].
Definition omitempty_bool (key : string) (value : bool) : list (string * json) := if value then [(key, JBool true)] else [].
Definition omitempty_int (key : string) (value : Z) : list (string * json) := if value =? 0 then [] else [(key, jnum value)].
Definition IngestionSubmissionMetadata (jobKey from to : string) : json :=
  JObj (omitempty_string "job_key" jobKey ++ omitempty_string "from" from ++ omitempty_string "to" to).
Definition StatusChangeMetadata (from to : string) : json :=
  JObj [("from", JStr from); ("to", JStr to)].
Definition ScheduleBulkMetadata (selected affected no_op : Z) : json :=
  JObj [("selected_count", jnum selected); ("affected_count", jnum affected); ("no_op_count", jnum no_op)].
Definition IngestionRuntimeSettingsValues (max_running fixed_member detail : Z) : json :=
  JObj [("max_running_jobs", jnum max_running); ("fixed_member_concurrency", jnum fixed_member);
        ("detail_concurrency", jnum detail)].
Definition IngestionRuntimeSettingsMetadata (from to : json) : json := JObj [("from", from); ("to", to)].

(** ** The table *)

(** A row of [audit_logs], its id aside. *)
Record audit_row := mkAuditRow {
  al_actor : option Identity; al_effective : option Identity; al_action : Action;
  al_resource : option (ResourceType * Z); al_metadata : option string; al_created_at : instant }.
#[export] Instance audit_row_eq_dec : EqDecision audit_row. Proof. solve_decision. Defined.

(** What the log needs from the store: rows are only ever appended, and an
    INSERT fails only on the foreign keys to [users]. *)
Class AuditLog (S : Type) := {
  audit_logs : S → list audit_row;
  known_user : S → Z → bool;
  insert_audit : audit_row → Tx S unit;
  insert_audit_Ok : ∀ row s r, insert_audit row s = Ok r →
    audit_logs r.2 = audit_logs s ++ [row] ∧ ∀ u, known_user r.2 u = known_user s u;
  insert_audit_Err : ∀ row s e, insert_audit row s = Err e → e = ErrForeignKey }.

(** January 1, year 1, 00:00 UTC: Go's zero [time.Time]. *)
Definition zero_time : instant := date_days (mkDate 1 1 1) * day_length.

Definition validateIdentity (label : string) (identity : option Identity) : result unit :=
  match identity with
  | None => Ok tt
  | Some i =>
      if (UserID i =? 0) || (trim_space (Username i) =? "")%string
      then Err (Errorf ("audit " +:+ label +:+ " identity must have user ID and username")) else Ok tt
  end.

(** The checks of [Append] and the row it writes. *)
Definition audit_row_of (event : Event) : result audit_row :=
  if negb (knownAction (e_action event)) then Err (Errorf "unknown audit action") else
  let? _ := validateIdentity "actor" (a_actor (e_attribution event)) in
  let? _ := validateIdentity "effective" (a_effective (e_attribution event)) in
  if xorb (bool_decide (e_resource event = None)) (e_resource_id event =? 0)
  then Err (Errorf "audit resource type and ID must be set together") else
  if match e_resource event with Some (OtherResource _) => true | _ => false end
  then Err (Errorf "unknown audit resource type") else
  if e_created_at event =? zero_time then Err (Errorf "audit creation time must not be zero") else
  let encoded := json_print <$> e_metadata event in
  if match encoded with Some data => MaxMetadataBytes <? Z.of_nat (String.length data) | None => false end
  then Err (Errorf "audit metadata exceeds 65536 bytes") else
  Ok (mkAuditRow (a_actor (e_attribution event)) (a_effective (e_attribution event)) (e_action event)
        ((λ r, (r, e_resource_id event)) <$> e_resource event) encoded (e_created_at event)).

Definition Append {S} `{AuditLog S} (event : Event) : Tx S unit :=
  let* row := tx_lift (audit_row_of event) in insert_audit row.

(** [audit.Identity{UserID: ..., Username: ...}] of both identities. *)
Definition attribution_of (requester : Requester) : Attribution :=
  mkAttribution (Some (Actor requester)) (Some (Effective requester)).

(** ** Lemmas *)

(** The requesters whose events the log accepts. *)
Definition attributable (requester : Requester) : Prop :=
  validateIdentity "actor" (Some (Actor requester)) = Ok tt ∧
  validateIdentity "effective" (Some (Effective requester)) = Ok tt.

Lemma audit_row_of_Ok event row : audit_row_of event = Ok row →
  e_action event ∈ knownActions ∧ al_action row = e_action event ∧
  al_actor row = a_actor (e_attribution event) ∧ al_effective row = a_effective (e_attribution event) ∧
  al_resource row = (λ r, (r, e_resource_id event)) <$> e_resource event ∧
  al_metadata row = json_print <$> e_metadata event ∧ al_created_at row = e_created_at event.
Proof.
  unfold audit_row_of, knownAction. case_bool_decide; [|done]. cbn [negb].
  destruct (validateIdentity "actor" _); [|done]. destruct (validateIdentity "effective" _); [|done].
  cbn [res_bind]. repeat case_match; try done; intros [= <-]; done.
Qed.

Lemma Append_Ok {S} `{AuditLog S} event s r : Append event s = Ok r →
  ∃ row, audit_row_of event = Ok row ∧ audit_logs r.2 = audit_logs s ++ [row].
Proof.
  unfold Append. intros (row & s' & (? & Hrow & [= -> ->])%tx_lift_Ok & Hi)%tx_bind_Ok.
  apply insert_audit_Ok in Hi as [Hi _]. eauto.
Qed.
