(* ===== verification/Table.v ===== *)
(** * Database tables

    A table is a finite map from primary keys to rows, with the statements
    the repositories send to it: [UPDATE] with a guard and the number of
    rows it changed (what the driver reports as affected rows), [SELECT ...
    ORDER BY ... LIMIT 1], and [SELECT ... ORDER BY].  The schema itself is in
    Store.v. *)

From S2P Require Import Prelude.
From stdpp Require Import sorting.

Open Scope Z_scope.

(** MySQL 1264, in strict mode. *)
Definition ErrOutOfRange : error := Errorf "Out of range value for column".

Section Table.
Context {R : Type} `{EqDecision R}.
Implicit Types (t : gmap Z R) (cond : R → bool) (set : R → R).

(** A row is affected when the guard holds and the assignment changes it. *)
Definition changes cond set (r : R) : bool := cond r && negb (bool_decide (set r = r)).

(** [UPDATE t SET ... WHERE id = ? AND ...] *)
Definition update_at (id : Z) cond set t : gmap Z R * Z :=
  match t !! id with
  | Some r => if changes cond set r then (<[id := set r]> t, 1) else (t, 0)
  | None => (t, 0)
  end.

(** [UPDATE t SET ... WHERE ...] over the whole table. *)
Definition update_all cond set t : gmap Z R * Z :=
  ((λ r, if cond r then set r else r) <$> t,
   Z.of_nat (length (filter (λ r, changes cond set r = true) (map_to_list t).*2))).

(** [SELECT ... WHERE ...], in no particular order. *)
Definition select cond t : list R := filter (λ r, cond r = true) (map_to_list t).*2.

(** [SELECT COUNT( * )] and [EXISTS]. *)
Definition count cond t : Z := Z.of_nat (length (select cond t)).

(** [... ORDER BY key LIMIT 1]: the first of the least rows. *)
Fixpoint first_by (before : R → R → bool) (l : list R) : option R :=
  match l with
  | [] => None
  | r :: l' =>
      match first_by before l' with
      | Some m => Some (if before m r then m else r)
      | None => Some r
      end
  end.
Definition select_first (before : R → R → bool) cond t : option R := first_by before (select cond t).

(** [... ORDER BY key]: insertion sort on a strict order. *)
Fixpoint insert_by (before : R → R → bool) (r : R) (l : list R) : list R :=
  match l with
  | [] => [r]
  | m :: l' => if before m r then m :: insert_by before r l' else r :: l
  end.
Definition sort_by (before : R → R → bool) (l : list R) : list R := foldr (insert_by before) [] l.
Definition select_by (before : R → R → bool) cond t : list R := sort_by before (select cond t).

(** ** Lemmas *)

Lemma changes_spec cond set r : changes cond set r = true ↔ cond r = true ∧ set r ≠ r.
Proof. unfold changes. case_bool_decide; destruct (cond r); naive_solver. Qed.

Lemma update_at_lookup id cond set t i :
  (update_at id cond set t).1 !! i =
  if bool_decide (i = id) then (λ r, if cond r then set r else r) <$> t !! i else t !! i.
Proof.
  unfold update_at. destruct (t !! id) as [r|] eqn:E.
  - destruct (changes cond set r) eqn:Hc; simpl.
    + apply changes_spec in Hc as [Hw _]. case_bool_decide as Hi.
      * subst. by rewrite lookup_insert, decide_True, E by done; simpl; rewrite Hw.
      * by rewrite lookup_insert_ne.
    + case_bool_decide as Hi; [|done]. subst. rewrite E. simpl. unfold changes in Hc.
      destruct (cond r); [|done]. case_bool_decide; [by f_equal|done].
  - simpl. case_bool_decide; [|done]. subst. by rewrite E.
Qed.

Lemma update_at_affected id cond set t :
  (update_at id cond set t).2 = 1 ∧ (∃ r, t !! id = Some r ∧ cond r = true ∧ set r ≠ r ∧
     (update_at id cond set t).1 = <[id := set r]> t) ∨
  (update_at id cond set t).2 = 0 ∧ (update_at id cond set t).1 = t ∧
     (∀ r, t !! id = Some r → cond r = true → set r = r).
Proof.
  unfold update_at. destruct (t !! id) as [r|] eqn:E; [|naive_solver].
  destruct (changes cond set r) eqn:Hc; simpl.
  - apply changes_spec in Hc as [Hw Hn]. left. eauto 10.
  - right. split_and!; [done|done|]. intros r' [= <-] Hw. unfold changes in Hc. rewrite Hw in Hc.
    case_bool_decide; done.
Qed.

Lemma update_all_lookup cond set t i :
  (update_all cond set t).1 !! i = (λ r, if cond r then set r else r) <$> t !! i.
Proof. apply lookup_fmap. Qed.

Lemma elem_of_select cond t r : r ∈ select cond t ↔ cond r = true ∧ ∃ i, t !! i = Some r.
Proof.
  unfold select. rewrite list_elem_of_filter, list_elem_of_fmap. split.
  - intros [Hw ([i r'] & -> & Hi%elem_of_map_to_list)]. eauto.
  - intros [Hw [i Hi%elem_of_map_to_list]]. split; [done|]. by exists (i, r).
Qed.

Lemma count_pos cond t : 0 < count cond t ↔ ∃ i r, t !! i = Some r ∧ cond r = true.
Proof.
  unfold count. destruct (select cond t) as [|r l] eqn:E; simpl.
  - split; [lia|]. intros (i & r & Hi & Hw).
    assert (r ∈ select cond t) by (apply elem_of_select; eauto). rewrite E in *. set_solver.
  - split; [intros _|lia]. assert (r ∈ select cond t) as [Hw [i Hi]]%elem_of_select by (rewrite E; left).
    eauto.
Qed.

Lemma count_nonneg cond t : 0 <= count cond t.
Proof. unfold count. lia. Qed.

(** A strict order that is total on the rows of a list. *)
Definition strict (before : R → R → bool) : Prop :=
  (∀ a, before a a = false) ∧
  (∀ a b c, before a b = true → before b c = true → before a c = true).

Lemma first_by_None before l : first_by before l = None ↔ l = [].
Proof. destruct l; simpl; [done|]. destruct (first_by before l); done. Qed.

Lemma first_by_elem before l r : first_by before l = Some r → r ∈ l.
Proof.
  revert r. induction l as [|x l IH]; intros r; simpl; [done|].
  destruct (first_by before l) as [m|] eqn:E; intros [= <-]; [|by left].
  destruct (before m x); [right; eauto|by left].
Qed.

Lemma first_by_least before l r : strict before →
  (∀ a b, a ∈ l → b ∈ l → before a b = false → before b a = false → a = b) →
  first_by before l = Some r → ∀ r', r' ∈ l → before r' r = false.
Proof.
  intros [Hirr Htr]. revert r. induction l as [|x l IH]; intros r Htot; simpl; [done|].
  destruct (first_by before l) as [m|] eqn:E; intros [= <-].
  - intros r' [->|Hr']%elem_of_cons.
    + destruct (before m x) eqn:Hm; [|done]. destruct (before x m) eqn:Hx; [|done].
      by rewrite <- (Hirr x), (Htr x m x).
    + pose proof (IH m (λ a b Ha Hb, Htot a b (list_elem_of_further _ _ _ Ha) (list_elem_of_further _ _ _ Hb)) eq_refl _ Hr') as Hl.
      destruct (before m x) eqn:Hm; [done|].
      destruct (before r' x) eqn:Hx; [|done]. destruct (before x m) eqn:Hxm.
      * by rewrite (Htr _ _ _ Hx Hxm) in Hl.
      * apply first_by_elem in E. rewrite (Htot m x) in Hl by (done || by left || by right). by rewrite Hx in Hl.
  - apply first_by_None in E as ->. intros r' ->%list_elem_of_singleton. apply Hirr.
Qed.

Lemma select_first_None before cond t :
  select_first before cond t = None ↔ ∀ i r, t !! i = Some r → cond r = false.
Proof.
  unfold select_first. rewrite first_by_None. split.
  - intros E i r Hi. destruct (cond r) eqn:Hw; [|done].
    assert (r ∈ select cond t) by (apply elem_of_select; eauto). rewrite E in *. set_solver.
  - intros H. destruct (select cond t) as [|r l] eqn:E; [done|].
    assert (r ∈ select cond t) as [Hw [i Hi]]%elem_of_select by (rewrite E; left).
    by rewrite (H _ _ Hi) in Hw.
Qed.

Lemma select_first_Some before cond t r :
  select_first before cond t = Some r → cond r = true ∧ ∃ i, t !! i = Some r.
Proof. intros H%first_by_elem. by apply elem_of_select. Qed.

Lemma select_first_least before cond t r : strict before →
  (∀ i j a b, t !! i = Some a → t !! j = Some b → before a b = false → before b a = false → a = b) →
  select_first before cond t = Some r → ∀ i r', t !! i = Some r' → cond r' = true → before r' r = false.
Proof.
  intros Hs Htot Hr i r' Hi Hc. eapply first_by_least; [done| |exact Hr|].
  - intros a b [_ [? ?]]%elem_of_select [_ [? ?]]%elem_of_select. eauto.
  - apply elem_of_select. eauto.
Qed.

(** *** Counting *)

Definition one_if (b : bool) : Z := if b then 1 else 0.

Lemma count_cons cond t i r : t !! i = None → count cond (<[i := r]> t) = one_if (cond r) + count cond t.
Proof.
  intros Hi. unfold count, select. rewrite (map_to_list_insert t i r) by done. cbn [fmap list_fmap snd].
  rewrite filter_cons. destruct (cond r); simpl; [|done]. lia.
Qed.

Lemma count_put cond t i r r' : t !! i = Some r →
  count cond (<[i := r']> t) = count cond t - one_if (cond r) + one_if (cond r').
Proof.
  intros Hi. rewrite <- insert_delete_eq, count_cons by apply lookup_delete_eq.
  rewrite <- (insert_delete_id t i r Hi) at 2. rewrite count_cons by apply lookup_delete_eq. lia.
Qed.

Lemma count_fmap_le cond (f : R → R) t : (∀ r, cond (f r) = true → cond r = true) →
  count cond (f <$> t) <= count cond t.
Proof.
  intros Hf. unfold count, select. rewrite map_to_list_fmap, <- list_fmap_compose. apply Nat2Z.inj_le.
  induction (map_to_list t) as [|[i r] l IH]; [done|]. cbn [fmap list_fmap snd].
  rewrite !filter_cons. cbn. specialize (Hf r).
  destruct (decide (cond (f r) = true)), (decide (cond r = true)); simpl; try lia. by rewrite Hf in *.
Qed.

Lemma insert_by_Permutation before r l : insert_by before r l ≡ₚ r :: l.
Proof.
  induction l as [|m l IH]; simpl; [done|]. destruct (before m r); [|done].
  rewrite IH. apply Permutation_swap.
Qed.
Lemma sort_by_Permutation before l : sort_by before l ≡ₚ l.
Proof. induction l as [|r l IH]; simpl; [done|]. by rewrite insert_by_Permutation, IH. Qed.
Lemma elem_of_select_by before cond t r :
  r ∈ select_by before cond t ↔ cond r = true ∧ ∃ i, t !! i = Some r.
Proof. unfold select_by. by rewrite sort_by_Permutation, elem_of_select. Qed.

(** *** Sorting *)

(** [a] may stand before [b]. *)
Definition in_order (before : R → R → bool) (a b : R) : Prop := before b a = false.

Lemma sort_by_in_order before l : (∀ a b c, in_order before a b → in_order before b c → in_order before a c) →
  (∀ a b, before a b = true → before b a = false) → StronglySorted (in_order before) (sort_by before l).
Proof.
  intros Htr Has. unfold sort_by. induction l as [|r l IH]; cbn [foldr]; [constructor|].
  induction IH as [|m l' Hl IHl Hm]; cbn [insert_by]; [repeat constructor|]. destruct (before m r) eqn:E.
  - constructor; [done|]. rewrite insert_by_Permutation. constructor; [by apply Has|done].
  - constructor; [by constructor|]. constructor; [done|]. eapply Forall_impl; [exact Hm|]. intros x Hx. by eapply Htr.
Qed.

(** A sorted permutation without ties is the result of sorting. *)
Lemma sort_by_unique before l l' : (∀ a b c, in_order before a b → in_order before b c → in_order before a c) →
  (∀ a b, before a b = true → before b a = false) →
  (∀ a b, a ∈ l → b ∈ l → in_order before a b → in_order before b a → a = b) →
  l ≡ₚ l' → StronglySorted (in_order before) l' → sort_by before l = l'.
Proof.
  intros Htr Has Htie Hp Hs. apply (StronglySorted_unique_strong (in_order before)).
  - intros a b Ha Hb. rewrite sort_by_Permutation in Ha. rewrite <- Hp in Hb. by apply Htie.
  - by apply sort_by_in_order.
  - done.
  - by rewrite sort_by_Permutation.
Qed.

End Table.
