(* ===== verification/Programs.v ===== *)
(** * Programs that call their environment

    A Go function that talks to the database or to files while other
    processes run is a program: it returns, or makes a call and goes on with
    the answer.  Between two calls anything may happen; the interpretation
    of a call ([Section Triples]) says what its answer can be. *)

From S2P Require Import Prelude.

Section Programs.
Context {call : Type} {answer : call → Type}.

Inductive prog (A : Type) : Type :=
  | Ret (a : A)
  | Call (c : call) (k : answer c → prog A).
Arguments Ret {A} a.
Arguments Call {A} c k.

Fixpoint pbind {A B} (m : prog A) (f : A → prog B) : prog B :=
  match m with
  | Ret a => f a
  | Call c k => Call c (λ r, pbind (k r) f)
  end.

(** ** What a program ensures

    [steps c s r s']: in state [s] the call [c] may answer [r] and leave [s'].
    [ensures m s post]: whatever the calls of [m] answer, each is allowed
    where it is made, and the result satisfies [post]. *)
Section Triples.
Context {S : Type} (allowed : call → S → Prop) (steps : ∀ c : call, S → answer c → S → Prop).

Fixpoint ensures {A} (m : prog A) (s : S) (post : A → S → Prop) : Prop :=
  match m with
  | Ret a => post a s
  | Call c k => allowed c s ∧ ∀ r s', steps c s r s' → ensures (k r) s' post
  end.

Lemma ensures_weaken {A} (m : prog A) s (post post' : A → S → Prop) :
  (∀ a s, post a s → post' a s) → ensures m s post → ensures m s post'.
Proof. intros Hp. revert s. induction m as [a|c k IH]; intros s; cbn; [apply Hp|]. intros [Ha H]. split; [done|]. eauto. Qed.

Lemma ensures_bind {A B} (m : prog A) (f : A → prog B) s post :
  ensures (pbind m f) s post ↔ ensures m s (λ a s', ensures (f a) s' post).
Proof.
  revert s. induction m as [a|c k IH]; intros s; cbn; [done|].
  split; intros [Ha H]; split; eauto; intros r s' Hr; apply IH; eauto.
Qed.
End Triples.


(** ** Running it on a state, one call after the other, without interleaving:
    [None] when a call is refused *)
Section Run.
Context {S : Type} (serve : ∀ c : call, S → option (answer c * S)).
Fixpoint run {A} (m : prog A) (s : S) : option (A * S) :=
  match m with
  | Ret a => Some (a, s)
  | Call c k => match serve c s with Some (r, s') => run (k r) s' | None => None end
  end.
Lemma run_bind {A B} (m : prog A) (f : A → prog B) s :
  run (pbind m f) s = match run m s with Some (a, s') => run (f a) s' | None => None end.
Proof. revert s. induction m as [a|c k IH]; intros s; cbn; [done|]. destruct (serve c s) as [[r s']|]; [apply IH|done]. Qed.
End Run.
End Programs.
Arguments prog {call} answer A.
Arguments Ret {call answer A} a.
Arguments Call {call answer A} c k.

Declare Scope prog_scope.
Delimit Scope prog_scope with prog.
Notation "'let!' x ':=' m 'in' k" := (pbind m (λ x, k))
  (at level 10, x pattern, k at level 200) : prog_scope.
