(* ===== verification/Store.v ===== *)
(** * The service's database

    The tables the run repository and the scheduler share, with the keys,
    CHECK constraints and foreign keys of src/migrations/: a statement that
    would break one fails the way the server reports it (CHECK first, then
    unique keys, then foreign keys).  An [UPDATE] reports the rows it
    changed.  Identifiers are taken from per-table counters.  Columns no
    statement of the modelled code reads ([updated_at], the frozen
    authentication profile of a run, column length limits) are left out. *)

From S2P Require Import Prelude Calendar Json Hash Catalog Params Access AuditTrail Table.

Open Scope Z_scope.

(** ** Runs (src/internal/ingestionrun/model.go) *)

Inductive Kind := KindJob | KindRunAllParent | KindRunAllChild.
#[export] Instance Kind_eq_dec : EqDecision Kind. Proof. solve_decision. Defined.

Inductive Status :=
  | StatusPlanned | StatusQueued | StatusRunning | StatusSucceeded | StatusFailed | StatusSkipped
  | StatusCancelled | StatusAbandoned | StatusCompleted | StatusCompletedWithSkips.
#[export] Instance Status_eq_dec : EqDecision Status. Proof. solve_decision. Defined.

Inductive Trigger := TriggerDirect | TriggerScheduler | TriggerRunAll.
#[export] Instance Trigger_eq_dec : EqDecision Trigger. Proof. solve_decision. Defined.

Definition IsTerminal (status : Status) : bool :=
  match status with
  | StatusSucceeded | StatusFailed | StatusSkipped | StatusCancelled | StatusAbandoned
  | StatusCompleted | StatusCompletedWithSkips => true
  | StatusPlanned | StatusQueued | StatusRunning => false
  end.

(** A run that holds its job: queued or running. *)
Definition active (status : Status) : bool :=
  match status with StatusQueued | StatusRunning => true | _ => false end.

Record Progress := mkProgress {
  Total : Z; Started : Z; Succeeded : Z; Failed : Z; Rows : Z; Step : option string }.
#[export] Instance Progress_eq_dec : EqDecision Progress. Proof. solve_decision. Defined.
Definition no_progress : Progress := mkProgress 0 0 0 0 0 None.

(** The columns [error_class], [error_message] and [error_step]. *)
Record SafeError := mkSafeError { Class_ : option string; Message : option string; Step_ : option string }.
#[export] Instance SafeError_eq_dec : EqDecision SafeError. Proof. solve_decision. Defined.
Definition no_error : SafeError := mkSafeError None None None.

(** [nullable]: the empty string is stored as NULL. *)
Definition nullable (value : string) : option string := if (value =? "")%string then None else Some value.

(** A row of [ingestion_runs]; the columns up to [run_created_at] are set on
    insertion and never updated. *)
Record run_row := mkRun {
  run_id : Z;
  run_kind : Kind;
  parent_run_id : option Z;
  child_position : option Z;
  run_job_key : option string;
  run_parameters : Parameters;
  trigger_type : Trigger;
  trigger_reference : option string;
  requested_by : option Z;
  run_created_at : instant;
  run_status : Status;
  skip_reason : option string;
  cancel_requested_at : option instant;
  cancel_reason : option string;
  owner_id : option string;
  claimed_at : option instant;
  heartbeat_at : option instant;
  snapshot_date : option CalendarDate;
  run_progress : Progress;
  run_error : SafeError;
  mapper_diagnostics : option string;
  previous_owner : option string;
  previous_heartbeat : option instant;
  started_at : option instant;
  finished_at : option instant }.
#[export] Instance run_row_eq_dec : EqDecision run_row. Proof. solve_decision. Defined.
Definition set_run_status (x : Status) (r : run_row) : run_row :=
  mkRun (run_id r) (run_kind r) (parent_run_id r) (child_position r) (run_job_key r)
    (run_parameters r) (trigger_type r) (trigger_reference r) (requested_by r)
    (run_created_at r) x (skip_reason r) (cancel_requested_at r) (cancel_reason r) (owner_id r)
    (claimed_at r) (heartbeat_at r) (snapshot_date r) (run_progress r) (run_error r)
    (mapper_diagnostics r) (previous_owner r) (previous_heartbeat r) (started_at r)
    (finished_at r).
Definition set_skip_reason (x : option string) (r : run_row) : run_row :=
  mkRun (run_id r) (run_kind r) (parent_run_id r) (child_position r) (run_job_key r)
    (run_parameters r) (trigger_type r) (trigger_reference r) (requested_by r)
    (run_created_at r) (run_status r) x (cancel_requested_at r) (cancel_reason r) (owner_id r)
    (claimed_at r) (heartbeat_at r) (snapshot_date r) (run_progress r) (run_error r)
    (mapper_diagnostics r) (previous_owner r) (previous_heartbeat r) (started_at r)
    (finished_at r).
Definition set_cancel_requested_at (x : option instant) (r : run_row) : run_row :=
  mkRun (run_id r) (run_kind r) (parent_run_id r) (child_position r) (run_job_key r)
    (run_parameters r) (trigger_type r) (trigger_reference r) (requested_by r)
    (run_created_at r) (run_status r) (skip_reason r) x (cancel_reason r) (owner_id r)
    (claimed_at r) (heartbeat_at r) (snapshot_date r) (run_progress r) (run_error r)
    (mapper_diagnostics r) (previous_owner r) (previous_heartbeat r) (started_at r)
    (finished_at r).
Definition set_cancel_reason (x : option string) (r : run_row) : run_row :=
  mkRun (run_id r) (run_kind r) (parent_run_id r) (child_position r) (run_job_key r)
    (run_parameters r) (trigger_type r) (trigger_reference r) (requested_by r)
    (run_created_at r) (run_status r) (skip_reason r) (cancel_requested_at r) x (owner_id r)
    (claimed_at r) (heartbeat_at r) (snapshot_date r) (run_progress r) (run_error r)
    (mapper_diagnostics r) (previous_owner r) (previous_heartbeat r) (started_at r)
    (finished_at r).
Definition set_owner_id (x : option string) (r : run_row) : run_row :=
  mkRun (run_id r) (run_kind r) (parent_run_id r) (child_position r) (run_job_key r)
    (run_parameters r) (trigger_type r) (trigger_reference r) (requested_by r)
    (run_created_at r) (run_status r) (skip_reason r) (cancel_requested_at r) (cancel_reason r)
    x (claimed_at r) (heartbeat_at r) (snapshot_date r) (run_progress r) (run_error r)
    (mapper_diagnostics r) (previous_owner r) (previous_heartbeat r) (started_at r)
    (finished_at r).
Definition set_claimed_at (x : option instant) (r : run_row) : run_row :=
  mkRun (run_id r) (run_kind r) (parent_run_id r) (child_position r) (run_job_key r)
    (run_parameters r) (trigger_type r) (trigger_reference r) (requested_by r)
    (run_created_at r) (run_status r) (skip_reason r) (cancel_requested_at r) (cancel_reason r)
    (owner_id r) x (heartbeat_at r) (snapshot_date r) (run_progress r) (run_error r)
    (mapper_diagnostics r) (previous_owner r) (previous_heartbeat r) (started_at r)
    (finished_at r).
Definition set_heartbeat_at (x : option instant) (r : run_row) : run_row :=
  mkRun (run_id r) (run_kind r) (parent_run_id r) (child_position r) (run_job_key r)
    (run_parameters r) (trigger_type r) (trigger_reference r) (requested_by r)
    (run_created_at r) (run_status r) (skip_reason r) (cancel_requested_at r) (cancel_reason r)
    (owner_id r) (claimed_at r) x (snapshot_date r) (run_progress r) (run_error r)
    (mapper_diagnostics r) (previous_owner r) (previous_heartbeat r) (started_at r)
    (finished_at r).
Definition set_snapshot_date (x : option CalendarDate) (r : run_row) : run_row :=
  mkRun (run_id r) (run_kind r) (parent_run_id r) (child_position r) (run_job_key r)
    (run_parameters r) (trigger_type r) (trigger_reference r) (requested_by r)
    (run_created_at r) (run_status r) (skip_reason r) (cancel_requested_at r) (cancel_reason r)
    (owner_id r) (claimed_at r) (heartbeat_at r) x (run_progress r) (run_error r)
    (mapper_diagnostics r) (previous_owner r) (previous_heartbeat r) (started_at r)
    (finished_at r).
Definition set_run_progress (x : Progress) (r : run_row) : run_row :=
  mkRun (run_id r) (run_kind r) (parent_run_id r) (child_position r) (run_job_key r)
    (run_parameters r) (trigger_type r) (trigger_reference r) (requested_by r)
    (run_created_at r) (run_status r) (skip_reason r) (cancel_requested_at r) (cancel_reason r)
    (owner_id r) (claimed_at r) (heartbeat_at r) (snapshot_date r) x (run_error r)
    (mapper_diagnostics r) (previous_owner r) (previous_heartbeat r) (started_at r)
    (finished_at r).
Definition set_run_error (x : SafeError) (r : run_row) : run_row :=
  mkRun (run_id r) (run_kind r) (parent_run_id r) (child_position r) (run_job_key r)
    (run_parameters r) (trigger_type r) (trigger_reference r) (requested_by r)
    (run_created_at r) (run_status r) (skip_reason r) (cancel_requested_at r) (cancel_reason r)
    (owner_id r) (claimed_at r) (heartbeat_at r) (snapshot_date r) (run_progress r) x
    (mapper_diagnostics r) (previous_owner r) (previous_heartbeat r) (started_at r)
    (finished_at r).
Definition set_mapper_diagnostics (x : option string) (r : run_row) : run_row :=
  mkRun (run_id r) (run_kind r) (parent_run_id r) (child_position r) (run_job_key r)
    (run_parameters r) (trigger_type r) (trigger_reference r) (requested_by r)
    (run_created_at r) (run_status r) (skip_reason r) (cancel_requested_at r) (cancel_reason r)
    (owner_id r) (claimed_at r) (heartbeat_at r) (snapshot_date r) (run_progress r)
    (run_error r) x (previous_owner r) (previous_heartbeat r) (started_at r) (finished_at r).
Definition set_previous_owner (x : option string) (r : run_row) : run_row :=
  mkRun (run_id r) (run_kind r) (parent_run_id r) (child_position r) (run_job_key r)
    (run_parameters r) (trigger_type r) (trigger_reference r) (requested_by r)
    (run_created_at r) (run_status r) (skip_reason r) (cancel_requested_at r) (cancel_reason r)
    (owner_id r) (claimed_at r) (heartbeat_at r) (snapshot_date r) (run_progress r)
    (run_error r) (mapper_diagnostics r) x (previous_heartbeat r) (started_at r)
    (finished_at r).
Definition set_previous_heartbeat (x : option instant) (r : run_row) : run_row :=
  mkRun (run_id r) (run_kind r) (parent_run_id r) (child_position r) (run_job_key r)
    (run_parameters r) (trigger_type r) (trigger_reference r) (requested_by r)
    (run_created_at r) (run_status r) (skip_reason r) (cancel_requested_at r) (cancel_reason r)
    (owner_id r) (claimed_at r) (heartbeat_at r) (snapshot_date r) (run_progress r)
    (run_error r) (mapper_diagnostics r) (previous_owner r) x (started_at r) (finished_at r).
Definition set_started_at (x : option instant) (r : run_row) : run_row :=
  mkRun (run_id r) (run_kind r) (parent_run_id r) (child_position r) (run_job_key r)
    (run_parameters r) (trigger_type r) (trigger_reference r) (requested_by r)
    (run_created_at r) (run_status r) (skip_reason r) (cancel_requested_at r) (cancel_reason r)
    (owner_id r) (claimed_at r) (heartbeat_at r) (snapshot_date r) (run_progress r)
    (run_error r) (mapper_diagnostics r) (previous_owner r) (previous_heartbeat r) x
    (finished_at r).
Definition set_finished_at (x : option instant) (r : run_row) : run_row :=
  mkRun (run_id r) (run_kind r) (parent_run_id r) (child_position r) (run_job_key r)
    (run_parameters r) (trigger_type r) (trigger_reference r) (requested_by r)
    (run_created_at r) (run_status r) (skip_reason r) (cancel_requested_at r) (cancel_reason r)
    (owner_id r) (claimed_at r) (heartbeat_at r) (snapshot_date r) (run_progress r)
    (run_error r) (mapper_diagnostics r) (previous_owner r) (previous_heartbeat r)
    (started_at r) x.

(** ** Settings and sources *)

Record RuntimeSettings := mkRuntimeSettings {
  MaxRunningJobs : Z; FixedMemberConcurrency : Z; DetailConcurrency : Z }.
#[export] Instance RuntimeSettings_eq_dec : EqDecision RuntimeSettings. Proof. solve_decision. Defined.

Record source_row := mkSource { src_enabled : bool; src_profile : option Z }.
#[export] Instance source_row_eq_dec : EqDecision source_row. Proof. solve_decision. Defined.

(** ** Schedules (rows of src/internal/scheduler/service.go) *)

(** The columns a schedule and its occurrences have in common: what runs
    and when. *)
Record definition_columns := mkColumns {
  c_job_key : string; c_cron : string; c_timezone : string;
  c_policy_kind : string; c_policy_version : Z; c_policy_json : string; c_policy_checksum : string }.
#[export] Instance definition_columns_eq_dec : EqDecision definition_columns. Proof. solve_decision. Defined.

(** [delivery_block] is [delivery_block_reason] with [delivery_blocked_at],
    [validation_error] the three columns of that prefix: they are always
    written together. *)
Record schedule_row := mkSchedule {
  sch_id : Z;
  sch_definition : definition_columns;
  sch_name : string;
  sch_enabled : bool;
  next_run_at : option instant;
  sch_revision : Z;
  scheduler_not_before : option instant;
  delivery_block : option (string * instant);
  validation_error : option (string * string * instant);
  created_by : option Z;
  updated_by : option Z;
  archived_at : option instant }.
#[export] Instance schedule_row_eq_dec : EqDecision schedule_row. Proof. solve_decision. Defined.
Definition set_sch_definition (x : definition_columns) (r : schedule_row) : schedule_row :=
  mkSchedule (sch_id r) x (sch_name r) (sch_enabled r) (next_run_at r) (sch_revision r)
    (scheduler_not_before r) (delivery_block r) (validation_error r) (created_by r)
    (updated_by r) (archived_at r).
Definition set_sch_name (x : string) (r : schedule_row) : schedule_row :=
  mkSchedule (sch_id r) (sch_definition r) x (sch_enabled r) (next_run_at r) (sch_revision r)
    (scheduler_not_before r) (delivery_block r) (validation_error r) (created_by r)
    (updated_by r) (archived_at r).
Definition set_sch_enabled (x : bool) (r : schedule_row) : schedule_row :=
  mkSchedule (sch_id r) (sch_definition r) (sch_name r) x (next_run_at r) (sch_revision r)
    (scheduler_not_before r) (delivery_block r) (validation_error r) (created_by r)
    (updated_by r) (archived_at r).
Definition set_next_run_at (x : option instant) (r : schedule_row) : schedule_row :=
  mkSchedule (sch_id r) (sch_definition r) (sch_name r) (sch_enabled r) x (sch_revision r)
    (scheduler_not_before r) (delivery_block r) (validation_error r) (created_by r)
    (updated_by r) (archived_at r).
Definition set_sch_revision (x : Z) (r : schedule_row) : schedule_row :=
  mkSchedule (sch_id r) (sch_definition r) (sch_name r) (sch_enabled r) (next_run_at r) x
    (scheduler_not_before r) (delivery_block r) (validation_error r) (created_by r)
    (updated_by r) (archived_at r).
Definition set_scheduler_not_before (x : option instant) (r : schedule_row) : schedule_row :=
  mkSchedule (sch_id r) (sch_definition r) (sch_name r) (sch_enabled r) (next_run_at r)
    (sch_revision r) x (delivery_block r) (validation_error r) (created_by r) (updated_by r)
    (archived_at r).
Definition set_delivery_block (x : option (string * instant)) (r : schedule_row) : schedule_row :=
  mkSchedule (sch_id r) (sch_definition r) (sch_name r) (sch_enabled r) (next_run_at r)
    (sch_revision r) (scheduler_not_before r) x (validation_error r) (created_by r)
    (updated_by r) (archived_at r).
Definition set_validation_error (x : option (string * string * instant)) (r : schedule_row) : schedule_row :=
  mkSchedule (sch_id r) (sch_definition r) (sch_name r) (sch_enabled r) (next_run_at r)
    (sch_revision r) (scheduler_not_before r) (delivery_block r) x (created_by r)
    (updated_by r) (archived_at r).
Definition set_updated_by (x : option Z) (r : schedule_row) : schedule_row :=
  mkSchedule (sch_id r) (sch_definition r) (sch_name r) (sch_enabled r) (next_run_at r)
    (sch_revision r) (scheduler_not_before r) (delivery_block r) (validation_error r)
    (created_by r) x (archived_at r).
Definition set_archived_at (x : option instant) (r : schedule_row) : schedule_row :=
  mkSchedule (sch_id r) (sch_definition r) (sch_name r) (sch_enabled r) (next_run_at r)
    (sch_revision r) (scheduler_not_before r) (delivery_block r) (validation_error r)
    (created_by r) (updated_by r) x.

Inductive IdentitySource := validated_cron | persisted_cursor_fallback.
#[export] Instance IdentitySource_eq_dec : EqDecision IdentitySource. Proof. solve_decision. Defined.
Inductive ResolutionMode := historical | live_coalesced | invalid_resolution.
#[export] Instance ResolutionMode_eq_dec : EqDecision ResolutionMode. Proof. solve_decision. Defined.
Inductive OccurrenceStatus := unresolved | resolved | discarded | rejected_invalid.
#[export] Instance OccurrenceStatus_eq_dec : EqDecision OccurrenceStatus. Proof. solve_decision. Defined.

Record occurrence_row := mkOccurrence {
  occ_id : Z;
  occ_schedule : Z;
  scheduled_for : instant;
  occ_identity_source : IdentitySource;
  occ_resolution_mode : ResolutionMode;
  occ_status : OccurrenceStatus;
  occ_schedule_revision : Z;
  occ_definition : definition_columns;
  attempt_count : Z;
  retry_not_before : option instant;
  closed_at : option instant;
  closed_by : option Z;
  rejection : option (string * string * Z) }.
#[export] Instance occurrence_row_eq_dec : EqDecision occurrence_row. Proof. solve_decision. Defined.
Definition set_occ_resolution_mode (x : ResolutionMode) (r : occurrence_row) : occurrence_row :=
  mkOccurrence (occ_id r) (occ_schedule r) (scheduled_for r) (occ_identity_source r) x
    (occ_status r) (occ_schedule_revision r) (occ_definition r) (attempt_count r)
    (retry_not_before r) (closed_at r) (closed_by r) (rejection r).
Definition set_occ_status (x : OccurrenceStatus) (r : occurrence_row) : occurrence_row :=
  mkOccurrence (occ_id r) (occ_schedule r) (scheduled_for r) (occ_identity_source r)
    (occ_resolution_mode r) x (occ_schedule_revision r) (occ_definition r) (attempt_count r)
    (retry_not_before r) (closed_at r) (closed_by r) (rejection r).
Definition set_attempt_count (x : Z) (r : occurrence_row) : occurrence_row :=
  mkOccurrence (occ_id r) (occ_schedule r) (scheduled_for r) (occ_identity_source r)
    (occ_resolution_mode r) (occ_status r) (occ_schedule_revision r) (occ_definition r) x
    (retry_not_before r) (closed_at r) (closed_by r) (rejection r).
Definition set_retry_not_before (x : option instant) (r : occurrence_row) : occurrence_row :=
  mkOccurrence (occ_id r) (occ_schedule r) (scheduled_for r) (occ_identity_source r)
    (occ_resolution_mode r) (occ_status r) (occ_schedule_revision r) (occ_definition r)
    (attempt_count r) x (closed_at r) (closed_by r) (rejection r).
Definition set_closed_at (x : option instant) (r : occurrence_row) : occurrence_row :=
  mkOccurrence (occ_id r) (occ_schedule r) (scheduled_for r) (occ_identity_source r)
    (occ_resolution_mode r) (occ_status r) (occ_schedule_revision r) (occ_definition r)
    (attempt_count r) (retry_not_before r) x (closed_by r) (rejection r).
Definition set_closed_by (x : option Z) (r : occurrence_row) : occurrence_row :=
  mkOccurrence (occ_id r) (occ_schedule r) (scheduled_for r) (occ_identity_source r)
    (occ_resolution_mode r) (occ_status r) (occ_schedule_revision r) (occ_definition r)
    (attempt_count r) (retry_not_before r) (closed_at r) x (rejection r).
Definition set_rejection (x : option (string * string * Z)) (r : occurrence_row) : occurrence_row :=
  mkOccurrence (occ_id r) (occ_schedule r) (scheduled_for r) (occ_identity_source r)
    (occ_resolution_mode r) (occ_status r) (occ_schedule_revision r) (occ_definition r)
    (attempt_count r) (retry_not_before r) (closed_at r) (closed_by r) x.

Record attempt_row := mkAttempt {
  att_id : Z;
  att_occurrence : Z;
  attempt_no : Z;
  att_run : Z;
  att_reference : string;
  submitted_at : instant }.
#[export] Instance attempt_row_eq_dec : EqDecision attempt_row. Proof. solve_decision. Defined.

(** ** The database *)

Record db := mkDb {
  users : gset Z;
  runtime_settings : option RuntimeSettings;
  source_settings : gmap string source_row;
  auth_profiles : gmap Z string;
  ingestion_runs : gmap Z run_row;
  next_run_id : Z;
  schedules : gmap Z schedule_row;
  next_schedule_id : Z;
  schedule_occurrences : gmap Z occurrence_row;
  next_occurrence_id : Z;
  schedule_attempts : gmap Z attempt_row;
  next_attempt_id : Z;
  db_audit_logs : list audit_row }.
Definition set_runtime_settings (x : option RuntimeSettings) (r : db) : db :=
  mkDb (users r) x (source_settings r) (auth_profiles r) (ingestion_runs r) (next_run_id r)
    (schedules r) (next_schedule_id r) (schedule_occurrences r) (next_occurrence_id r)
    (schedule_attempts r) (next_attempt_id r) (db_audit_logs r).
Definition set_ingestion_runs (x : gmap Z run_row) (r : db) : db :=
  mkDb (users r) (runtime_settings r) (source_settings r) (auth_profiles r) x (next_run_id r)
    (schedules r) (next_schedule_id r) (schedule_occurrences r) (next_occurrence_id r)
    (schedule_attempts r) (next_attempt_id r) (db_audit_logs r).
Definition set_next_run_id (x : Z) (r : db) : db :=
  mkDb (users r) (runtime_settings r) (source_settings r) (auth_profiles r) (ingestion_runs r)
    x (schedules r) (next_schedule_id r) (schedule_occurrences r) (next_occurrence_id r)
    (schedule_attempts r) (next_attempt_id r) (db_audit_logs r).
Definition set_schedules (x : gmap Z schedule_row) (r : db) : db :=
  mkDb (users r) (runtime_settings r) (source_settings r) (auth_profiles r) (ingestion_runs r)
    (next_run_id r) x (next_schedule_id r) (schedule_occurrences r) (next_occurrence_id r)
    (schedule_attempts r) (next_attempt_id r) (db_audit_logs r).
Definition set_next_schedule_id (x : Z) (r : db) : db :=
  mkDb (users r) (runtime_settings r) (source_settings r) (auth_profiles r) (ingestion_runs r)
    (next_run_id r) (schedules r) x (schedule_occurrences r) (next_occurrence_id r)
    (schedule_attempts r) (next_attempt_id r) (db_audit_logs r).
Definition set_schedule_occurrences (x : gmap Z occurrence_row) (r : db) : db :=
  mkDb (users r) (runtime_settings r) (source_settings r) (auth_profiles r) (ingestion_runs r)
    (next_run_id r) (schedules r) (next_schedule_id r) x (next_occurrence_id r)
    (schedule_attempts r) (next_attempt_id r) (db_audit_logs r).
Definition set_next_occurrence_id (x : Z) (r : db) : db :=
  mkDb (users r) (runtime_settings r) (source_settings r) (auth_profiles r) (ingestion_runs r)
    (next_run_id r) (schedules r) (next_schedule_id r) (schedule_occurrences r) x
    (schedule_attempts r) (next_attempt_id r) (db_audit_logs r).
Definition set_schedule_attempts (x : gmap Z attempt_row) (r : db) : db :=
  mkDb (users r) (runtime_settings r) (source_settings r) (auth_profiles r) (ingestion_runs r)
    (next_run_id r) (schedules r) (next_schedule_id r) (schedule_occurrences r)
    (next_occurrence_id r) x (next_attempt_id r) (db_audit_logs r).
Definition set_next_attempt_id (x : Z) (r : db) : db :=
  mkDb (users r) (runtime_settings r) (source_settings r) (auth_profiles r) (ingestion_runs r)
    (next_run_id r) (schedules r) (next_schedule_id r) (schedule_occurrences r)
    (next_occurrence_id r) (schedule_attempts r) x (db_audit_logs r).
Definition set_db_audit_logs (x : list audit_row) (r : db) : db :=
  mkDb (users r) (runtime_settings r) (source_settings r) (auth_profiles r) (ingestion_runs r)
    (next_run_id r) (schedules r) (next_schedule_id r) (schedule_occurrences r)
    (next_occurrence_id r) (schedule_attempts r) (next_attempt_id r) x.

(** ** Statements *)

(** The two values of a nullable unique key collide. *)
Definition same {A} `{EqDecision A} (a b : option A) : bool :=
  match a, b with Some x, Some y => bool_decide (x = y) | _, _ => false end.

(** Rows of [t] other than [id] that [clash] with [r]. *)
Definition conflicts {R} (clash : R → R → bool) (id : Z) (r : R) (t : gmap Z R) : bool :=
  existsb (λ p, negb (p.1 =? id) && clash r p.2) (map_to_list t).

(** One row is written unless the server reports an error ([verdict]). *)
Definition update_one {R} `{EqDecision R} (table : db → gmap Z R) (put : gmap Z R → db → db)
    (verdict : db → Z → R → option error) (id : Z) (cond : R → bool) (set : R → R) : Tx db Z := λ d,
  let (t, n) := update_at id cond set (table d) in
  match t !! id with
  | Some r =>
      if n =? 0 then Ok (0, d)
      else match verdict d id r with Some e => Err e | None => Ok (n, put t d) end
  | None => Ok (0, d)
  end.
(** The row gets the next identifier, which is returned. *)
Definition insert_one {R} (table : db → gmap Z R) (put : gmap Z R → db → db) (next : db → Z)
    (put_next : Z → db → db) (verdict : db → Z → R → option error) (row : Z → R) : Tx db Z := λ d,
  let id := next d in
  match verdict d id (row id) with
  | Some e => Err e
  | None => Ok (id, put_next (id + 1) (put (<[id := row id]> (table d)) d))
  end.

(** *** [ingestion_runs] *)

Definition active_job_key (r : run_row) : option string :=
  match run_kind r with
  | KindJob | KindRunAllChild => if active (run_status r) then run_job_key r else None
  | KindRunAllParent => None
  end.
Definition scheduler_trigger_reference (r : run_row) : option string :=
  if bool_decide (run_kind r = KindJob) && bool_decide (trigger_type r = TriggerScheduler)
  then trigger_reference r else None.
Definition pair_key {A B} (a : option A) (b : option B) : option (A * B) :=
  match a, b with Some x, Some y => Some (x, y) | _, _ => None end.

(** The unique keys of [ingestion_runs]. *)
Definition run_clash (r s : run_row) : bool :=
  same (active_job_key r) (active_job_key s) ||
  same (pair_key (parent_run_id r) (child_position r)) (pair_key (parent_run_id s) (child_position s)) ||
  same (pair_key (parent_run_id r) (run_job_key r)) (pair_key (parent_run_id s) (run_job_key s)) ||
  same (scheduler_trigger_reference r) (scheduler_trigger_reference s).

(** [chk_ingestion_runs_shape] and [chk_ingestion_runs_progress]. *)
Definition run_check (r : run_row) : bool :=
  match run_kind r with
  | KindJob => negb (isSome (parent_run_id r)) && negb (isSome (child_position r)) && isSome (run_job_key r)
  | KindRunAllParent =>
      negb (isSome (parent_run_id r)) && negb (isSome (child_position r)) && negb (isSome (run_job_key r))
  | KindRunAllChild => isSome (parent_run_id r) && isSome (child_position r) && isSome (run_job_key r)
  end &&
  (Started (run_progress r) <=? Total (run_progress r)) &&
  (Succeeded (run_progress r) + Failed (run_progress r) <=? Started (run_progress r)).

Definition user_ok (d : db) (user : option Z) : bool :=
  match user with Some u => bool_decide (u ∈ users d) | None => true end.
Definition run_references (d : db) (r : run_row) : bool :=
  match parent_run_id r with Some p => isSome (ingestion_runs d !! p) | None => true end &&
  user_ok d (requested_by r).

(** The outcome of the server's checks on a new or changed run. *)
Definition run_verdict (d : db) (id : Z) (r : run_row) : option error :=
  if negb (run_check r) then Some ErrCheckConstraint
  else if conflicts run_clash id r (ingestion_runs d) then Some ErrDuplicateKey
  else if negb (run_references d r) then Some ErrForeignKey
  else None.
Definition insert_run : (Z → run_row) → Tx db Z :=
  insert_one ingestion_runs set_ingestion_runs next_run_id set_next_run_id run_verdict.
(** [UPDATE ingestion_runs SET ... WHERE id = ? AND ...] *)
Definition update_run : Z → (run_row → bool) → (run_row → run_row) → Tx db Z :=
  update_one ingestion_runs set_ingestion_runs run_verdict.

(** [UPDATE ingestion_runs SET ... WHERE ...] for assignments that touch no
    checked column and take no key ([quiet]). *)
Definition update_runs (cond : run_row → bool) (set : run_row → run_row) : Tx db Z := λ d,
  let (t, n) := update_all cond set (ingestion_runs d) in Ok (n, set_ingestion_runs t d).

(** *** The scheduler's tables *)

(** [chk_schedules_revision] (with the width of the column) and
    [chk_schedules_cursor]. *)
Definition schedule_check (r : schedule_row) : bool :=
  (0 <? sch_revision r) && (sch_revision r <? 2 ^ 64) &&
  (if sch_enabled r then negb (isSome (archived_at r)) && isSome (next_run_at r)
   else negb (isSome (next_run_at r))).

Definition schedule_verdict (d : db) (_ : Z) (r : schedule_row) : option error :=
  if negb (schedule_check r) then Some ErrCheckConstraint
  else if negb (user_ok d (created_by r) && user_ok d (updated_by r)) then Some ErrForeignKey
  else None.
Definition insert_schedule_row : (Z → schedule_row) → Tx db Z :=
  insert_one schedules set_schedules next_schedule_id set_next_schedule_id schedule_verdict.
Definition update_schedule : Z → (schedule_row → bool) → (schedule_row → schedule_row) → Tx db Z :=
  update_one schedules set_schedules schedule_verdict.

Definition active_schedule_id (r : occurrence_row) : option Z :=
  if bool_decide (occ_status r = unresolved) then Some (occ_schedule r) else None.

(** [uq_schedule_occurrences_identity] and [uq_schedule_occurrences_active]. *)
Definition occurrence_clash (r s : occurrence_row) : bool :=
  bool_decide ((occ_schedule r, scheduled_for r) = (occ_schedule s, scheduled_for s)) ||
  same (active_schedule_id r) (active_schedule_id s).

Definition occurrence_verdict (d : db) (id : Z) (r : occurrence_row) : option error :=
  if conflicts occurrence_clash id r (schedule_occurrences d) then Some ErrDuplicateKey
  else if negb (isSome (schedules d !! occ_schedule r) && user_ok d (closed_by r)) then Some ErrForeignKey
  else None.
Definition insert_occurrence : (Z → occurrence_row) → Tx db Z :=
  insert_one schedule_occurrences set_schedule_occurrences next_occurrence_id set_next_occurrence_id occurrence_verdict.
Definition update_occurrence : Z → (occurrence_row → bool) → (occurrence_row → occurrence_row) → Tx db Z :=
  update_one schedule_occurrences set_schedule_occurrences occurrence_verdict.

(** The three unique keys of [schedule_attempts]. *)
Definition attempt_clash (r s : attempt_row) : bool :=
  bool_decide ((att_occurrence r, attempt_no r) = (att_occurrence s, attempt_no s)) ||
  bool_decide (att_run r = att_run s) || bool_decide (att_reference r = att_reference s).

Definition attempt_verdict (d : db) (id : Z) (r : attempt_row) : option error :=
  if negb (0 <? attempt_no r) then Some ErrCheckConstraint
  else if conflicts attempt_clash id r (schedule_attempts d) then Some ErrDuplicateKey
  else if negb (isSome (schedule_occurrences d !! att_occurrence r) && isSome (ingestion_runs d !! att_run r))
  then Some ErrForeignKey
  else None.
Definition insert_attempt : (Z → attempt_row) → Tx db Z :=
  insert_one schedule_attempts set_schedule_attempts next_attempt_id set_next_attempt_id attempt_verdict.

(** *** [audit_logs] and [ingestion_runtime_settings] *)

Definition insert_audit_row (row : audit_row) : Tx db unit := λ d,
  if negb (user_ok d (UserID <$> al_actor row) && user_ok d (UserID <$> al_effective row)) then Err ErrForeignKey
  else Ok (tt, set_db_audit_logs (db_audit_logs d ++ [row]) d).

#[export] Program Instance db_audit : AuditLog db := {|
  audit_logs := db_audit_logs;
  known_user d u := bool_decide (u ∈ users d);
  insert_audit := insert_audit_row |}.
Next Obligation.
  intros row d r. unfold insert_audit_row. case_match; [done|]. by intros [= <-].
Qed.
Next Obligation. intros row d e. unfold insert_audit_row. case_match; naive_solver. Qed.

Definition in_limits (value : Z) : bool := (1 <=? value) && (value <=? 64).
Definition update_settings (target : RuntimeSettings) : Tx db unit := λ d,
  match runtime_settings d with
  | Some _ =>
      if in_limits (MaxRunningJobs target) && in_limits (FixedMemberConcurrency target) && in_limits (DetailConcurrency target)
      then Ok (tt, set_runtime_settings (Some target) d) else Err ErrCheckConstraint
  | None => Ok (tt, d)
  end.

