(* ===== verification/Schema.v ===== *)
(** * The schema invariant

    What the keys and constraints of Store.v guarantee of a database, and
    that every statement keeps it; the components then only compose
    statements ([schema] hints in the [tx] database). *)

From S2P Require Import Prelude Calendar Json Hash Catalog Params Access AuditTrail Table Store.

Open Scope Z_scope.

(** Rows carry their primary key, keys come from the counter, rows satisfy
    their CHECK constraints and no two rows share a unique key. *)
Record table_ok {R} (key : R → Z) (next : Z) (check : R → Prop) (clash : R → R → bool) (t : gmap Z R) : Prop := {
  t_next : 0 < next;
  t_ids : ∀ i r, t !! i = Some r → key r = i ∧ 0 < i < next;
  t_checks : ∀ i r, t !! i = Some r → check r;
  t_unique : ∀ i j r s, t !! i = Some r → t !! j = Some s → i ≠ j → clash r s = false }.

Definition no_clash {R} (_ _ : R) : bool := false.

Record schema (d : db) : Prop := {
  runs_ok : table_ok run_id (next_run_id d)
    (λ r, run_check r = true ∧ run_references d r = true) run_clash (ingestion_runs d);
  schedules_ok : table_ok sch_id (next_schedule_id d)
    (λ r, schedule_check r = true) no_clash (schedules d);
  occurrences_ok : table_ok occ_id (next_occurrence_id d)
    (λ r, is_Some (schedules d !! occ_schedule r)) occurrence_clash (schedule_occurrences d);
  attempts_ok : table_ok att_id (next_attempt_id d)
    (λ r, 0 < attempt_no r ∧ is_Some (schedule_occurrences d !! att_occurrence r) ∧
          is_Some (ingestion_runs d !! att_run r)) attempt_clash (schedule_attempts d) }.

(** The columns fixed on insertion. *)
Definition run_identity (r : run_row) :=
  (run_id r, run_kind r, parent_run_id r, child_position r, run_job_key r, run_parameters r,
   trigger_type r, trigger_reference r, requested_by r, run_created_at r).
Definition occurrence_identity (r : occurrence_row) :=
  (occ_id r, occ_schedule r, scheduled_for r, occ_identity_source r, occ_schedule_revision r, occ_definition r).

(** ** Unique keys *)

Lemma same_Some {A} `{EqDecision A} (a b : option A) : same a b = true ↔ ∃ x, a = Some x ∧ b = Some x.
Proof.
  unfold same. destruct a as [x|], b as [y|]; try naive_solver.
  rewrite bool_decide_eq_true. naive_solver.
Qed.
Lemma same_comm {A} `{EqDecision A} (a b : option A) : same a b = same b a.
Proof. apply Bool.eq_iff_eq_true. rewrite !same_Some. naive_solver. Qed.
Lemma same_None_l {A} `{EqDecision A} (b : option A) : same None b = false.
Proof. done. Qed.
Lemma same_None_r {A} `{EqDecision A} (a : option A) : same a None = false.
Proof. by destruct a. Qed.

Lemma run_clash_comm r s : run_clash r s = run_clash s r.
Proof.
  unfold run_clash. rewrite (same_comm (active_job_key r)), (same_comm (pair_key (parent_run_id r) (child_position r))),
    (same_comm (pair_key (parent_run_id r) (run_job_key r))), (same_comm (scheduler_trigger_reference r)). done.
Qed.
Lemma bool_decide_comm {A} `{EqDecision A} (x y : A) : bool_decide (x = y) = bool_decide (y = x).
Proof. by apply bool_decide_ext. Qed.
Lemma occurrence_clash_comm r s : occurrence_clash r s = occurrence_clash s r.
Proof. unfold occurrence_clash. by rewrite bool_decide_comm, same_comm. Qed.
Lemma attempt_clash_comm r s : attempt_clash r s = attempt_clash s r.
Proof.
  unfold attempt_clash. rewrite (bool_decide_comm (att_occurrence r, _)), (bool_decide_comm (att_run r)).
  by rewrite (bool_decide_comm (att_reference r)).
Qed.

Lemma conflicts_false {R} (clash : R → R → bool) id r t :
  conflicts clash id r t = false ↔ ∀ j s, t !! j = Some s → j ≠ id → clash r s = false.
Proof.
  unfold conflicts. rewrite <- not_true_iff_false, existsb_exists. split.
  - intros H j s Hj Hne. destruct (clash r s) eqn:E; [|done]. exfalso. apply H. exists (j, s).
    rewrite <- list_elem_of_In, elem_of_map_to_list. split; [done|]. cbn.
    by rewrite E, (proj2 (Z.eqb_neq _ _)).
  - intros H ([j s] & Hin & Hc). rewrite <- list_elem_of_In, elem_of_map_to_list in Hin. cbn in Hc.
    apply andb_true_iff in Hc as [Hn Hc]. apply negb_true_iff, Z.eqb_neq in Hn. by rewrite (H j s) in Hc.
Qed.

Lemma conflicts_true {R} (clash : R → R → bool) id r t :
  conflicts clash id r t = true ↔ ∃ j s, t !! j = Some s ∧ j ≠ id ∧ clash r s = true.
Proof.
  unfold conflicts. rewrite existsb_exists. split.
  - intros ([j s] & Hin & Hc). rewrite <- list_elem_of_In, elem_of_map_to_list in Hin. cbn in Hc.
    apply andb_true_iff in Hc as [Hn Hc]. apply negb_true_iff, Z.eqb_neq in Hn. eauto.
  - intros (j & s & Hj & Hn & Hc). exists (j, s). rewrite <- list_elem_of_In, elem_of_map_to_list.
    split; [done|]. cbn. by rewrite Hc, (proj2 (Z.eqb_neq _ _)).
Qed.

(** ** Tables under one change *)

Lemma table_ok_weaken {R} key n n' (check check' : R → Prop) clash t :
  n <= n' → (∀ i r, t !! i = Some r → check r → check' r) →
  table_ok key n check clash t → table_ok key n' check' clash t.
Proof.
  intros Hn Hc [H0 Hi Hch Hu]. split; [lia| |eauto|done].
  intros i r Hr. destruct (Hi i r Hr). split; [done|lia].
Qed.

Lemma table_ok_put {R} key n (check : R → Prop) clash t i r :
  (∀ r s, clash r s = clash s r) → table_ok key n check clash t →
  key r = i → 0 < i < n → check r → conflicts clash i r t = false →
  table_ok key n check clash (<[i := r]> t).
Proof.
  intros Hsym [H0 Hi Hch Hu] Hk Hin Hc Hconf. split; [done| | |].
  - intros j s [[<- <-]|[? ?]]%lookup_insert_Some; eauto.
  - intros j s [[<- <-]|[? ?]]%lookup_insert_Some; eauto.
  - rewrite conflicts_false in Hconf.
    intros j k s u [[<- <-]|[? ?]]%lookup_insert_Some [[<- <-]|[? ?]]%lookup_insert_Some Hjk;
      [done|eauto|rewrite Hsym; eauto|eauto].
Qed.

Lemma is_Some_put {R} (t : gmap Z R) i r j : is_Some (t !! j) → is_Some (<[i := r]> t !! j).
Proof. intros ?. destruct (decide (i = j)) as [->|]; [rewrite lookup_insert_eq|rewrite lookup_insert_ne by done]; eauto. Qed.

(** ** The outcome of each statement *)

Lemma update_one_Ok {R} `{EqDecision R} table put verdict id cond set d n d' :
  @update_one R _ table put verdict id cond set d = Ok (n, d') ↔
  (n = 1 ∧ ∃ r, table d !! id = Some r ∧ cond r = true ∧ set r ≠ r ∧ verdict d id (set r) = None ∧
     d' = put (<[id := set r]> (table d)) d) ∨
  (n = 0 ∧ d' = d ∧ ∀ r, table d !! id = Some r → cond r = true → set r = r).
Proof.
  unfold update_one. destruct (update_at id cond set (table d)) as [t m] eqn:E.
  destruct (update_at_affected id cond set (table d)) as [(Hm & r & Hr & Hc & Hs & Ht)|(Hm & Ht & Hall)];
    rewrite E in *; cbn in Hm, Ht; subst.
  - rewrite lookup_insert_eq. cbn [Z.eqb]. destruct (verdict d id (set r)) as [e|] eqn:Ev.
    + split; [done|]. intros [(-> & r' & Hr' & _ & _ & Hv & _)|(_ & _ & Hall)]; [|naive_solver].
      rewrite Hr in Hr'. injection Hr' as <-. congruence.
    + split; [intros [= <- <-]; left; eauto 10|].
      intros [(-> & r' & Hr' & _ & _ & _ & ->)|(_ & _ & Hall)]; [|naive_solver].
      rewrite Hr in Hr'. by injection Hr' as <-.
  - assert (∀ A (x : A), (match table d !! id with Some _ => x | None => x end) = x) as Hx
      by (intros; by destruct (table d !! id)).
    cbn [Z.eqb]. rewrite Hx. split; [intros [= <- <-]; by right|].
    intros [(_ & r & Hr & Hc & Hs & _)|(-> & -> & _)]; [naive_solver|done].
Qed.

(** An UPDATE reports an error only for the row it would write. *)
Lemma update_one_Err {R} `{EqDecision R} table put verdict id cond set d e :
  @update_one R _ table put verdict id cond set d = Err e ↔
  ∃ r, table d !! id = Some r ∧ cond r = true ∧ set r ≠ r ∧ verdict d id (set r) = Some e.
Proof.
  unfold update_one. destruct (update_at id cond set (table d)) as [t m] eqn:E.
  destruct (update_at_affected id cond set (table d)) as [(Hm & r & Hr & Hc & Hs & Ht)|(Hm & Ht & Hall)];
    rewrite E in *; cbn in Hm, Ht; subst.
  - rewrite lookup_insert_eq. cbn [Z.eqb]. destruct (verdict d id (set r)) as [e'|] eqn:Ev.
    + split; [intros [= <-]; eauto 10|]. intros (r' & Hr' & _ & _ & Hv). congruence.
    + split; [done|]. intros (r' & Hr' & _ & _ & Hv). congruence.
  - cbn [Z.eqb]. split; [by destruct (table d !! id)|].
    intros (r & Hr & Hc & Hs & _). naive_solver.
Qed.

Lemma insert_one_Ok {R} table put next put_next verdict row d n d' :
  @insert_one R table put next put_next verdict row d = Ok (n, d') ↔
  n = next d ∧ verdict d n (row n) = None ∧ d' = put_next (n + 1) (put (<[n := row n]> (table d)) d).
Proof. unfold insert_one. destruct (verdict d _ _) eqn:E; naive_solver. Qed.
Lemma insert_one_Err {R} table put next put_next verdict row d e :
  @insert_one R table put next put_next verdict row d = Err e ↔ verdict d (next d) (row (next d)) = Some e.
Proof. unfold insert_one. destruct (verdict d _ _) eqn:E; naive_solver. Qed.

Lemma run_verdict_None d id r : run_verdict d id r = None ↔
  run_check r = true ∧ conflicts run_clash id r (ingestion_runs d) = false ∧ run_references d r = true.
Proof. unfold run_verdict. destruct (run_check r), (conflicts _ _ _ _), (run_references d r); naive_solver. Qed.
Lemma run_verdict_duplicate d id r : run_verdict d id r = Some ErrDuplicateKey ↔
  run_check r = true ∧ conflicts run_clash id r (ingestion_runs d) = true.
Proof. unfold run_verdict. destruct (run_check r), (conflicts _ _ _ _), (run_references d r); naive_solver. Qed.
Lemma schedule_verdict_None d id r : schedule_verdict d id r = None ↔
  schedule_check r = true ∧ user_ok d (created_by r) = true ∧ user_ok d (updated_by r) = true.
Proof. unfold schedule_verdict. destruct (schedule_check r), (user_ok d (created_by r)), (user_ok d (updated_by r)); naive_solver. Qed.
Lemma isSome_spec {A} (o : option A) : isSome o = true ↔ is_Some o.
Proof. destruct o; naive_solver eauto. Qed.
Lemma occurrence_verdict_None d id r : occurrence_verdict d id r = None ↔
  conflicts occurrence_clash id r (schedule_occurrences d) = false ∧
  is_Some (schedules d !! occ_schedule r) ∧ user_ok d (closed_by r) = true.
Proof.
  unfold occurrence_verdict. rewrite <- isSome_spec.
  destruct (conflicts _ _ _ _), (isSome _), (user_ok d (closed_by r)); naive_solver.
Qed.
Lemma attempt_verdict_None d id r : attempt_verdict d id r = None ↔
  0 < attempt_no r ∧ conflicts attempt_clash id r (schedule_attempts d) = false ∧
  is_Some (schedule_occurrences d !! att_occurrence r) ∧ is_Some (ingestion_runs d !! att_run r).
Proof.
  unfold attempt_verdict. rewrite <- !isSome_spec, <- Z.ltb_lt.
  destruct (0 <? attempt_no r), (conflicts _ _ _ _), (isSome (schedule_occurrences d !! _)),
    (isSome (ingestion_runs d !! _)); naive_solver.
Qed.

(** ** Every statement keeps the schema invariant *)

Lemma schema_put_run d id r n : schema d → run_id r = id → 0 < id < n → next_run_id d <= n →
  run_check r = true → run_references d r = true → conflicts run_clash id r (ingestion_runs d) = false →
  schema (set_next_run_id n (set_ingestion_runs (<[id := r]> (ingestion_runs d)) d)).
Proof.
  intros [Hr Hs Ho Ha] Hid Hn Hle Hc Href Hcf.
  assert (Hrefs : ∀ s, run_references d s = true →
    run_references (set_next_run_id n (set_ingestion_runs (<[id := r]> (ingestion_runs d)) d)) s = true).
  { intros s. unfold run_references. cbn. intros [Hp Hu]%andb_true_iff. apply andb_true_iff. split; [|done].
    destruct (parent_run_id s); [|done]. rewrite isSome_spec in *. by apply is_Some_put. }
  split; [|done|done|].
  - apply table_ok_put; auto using run_clash_comm.
    eapply table_ok_weaken, Hr; [done|]. cbn. intros i s _ [? ?]. auto.
  - eapply table_ok_weaken, Ha; [done|]. cbn. intros i s _ (? & ? & ?). auto using is_Some_put.
Qed.

Lemma run_references_identity d r s : run_identity r = run_identity s → run_references d r = run_references d s.
Proof. unfold run_identity, run_references. by intros [= _ _ -> _ _ _ _ _ -> _]. Qed.
Lemma run_identity_id r s : run_identity r = run_identity s → run_id r = run_id s.
Proof. unfold run_identity. by intros [= -> _]. Qed.

Lemma set_runs_next d t : set_ingestion_runs t d = set_next_run_id (next_run_id d) (set_ingestion_runs t d).
Proof. done. Qed.

Lemma preserves_update_run id cond set :
  (∀ r, cond r = true → run_identity (set r) = run_identity r) → preserves schema (update_run id cond set).
Proof.
  intros Hset d n d' Hd [(-> & r & Hr & Hc & _ & Hv & ->)|(_ & -> & _)]%update_one_Ok; [|done].
  apply run_verdict_None in Hv as (Hk & Hcf & Href). rewrite set_runs_next.
  destruct (t_ids _ _ _ _ _ (runs_ok d Hd) _ _ Hr) as [Hid Hlt].
  apply schema_put_run; try done. by rewrite (run_identity_id _ r) by auto.
Qed.

Lemma preserves_insert_run row : (∀ id, run_id (row id) = id) → preserves schema (insert_run row).
Proof.
  intros Hid d n d' Hd (-> & Hv & ->)%insert_one_Ok. apply run_verdict_None in Hv as (Hk & Hcf & Href).
  pose proof (t_next _ _ _ _ _ (runs_ok d Hd)). apply schema_put_run; try done; lia.
Qed.

(** Assignments that keep identity and checks and take no active key. *)
Definition quiet (cond : run_row → bool) (set : run_row → run_row) : Prop :=
  ∀ r, cond r = true → run_identity (set r) = run_identity r ∧ run_check (set r) = run_check r ∧
    (active_job_key (set r) = None ∨ active_job_key (set r) = active_job_key r).

(** A row that keeps its identity and takes no new active key clashes with
    no more rows than before. *)
Lemma run_clash_quiet r' r s s' : run_identity r' = run_identity r → run_identity s' = run_identity s →
  (active_job_key r' = None ∨ active_job_key r' = active_job_key r) →
  (active_job_key s' = None ∨ active_job_key s' = active_job_key s) →
  run_clash r s = false → run_clash r' s' = false.
Proof.
  unfold run_identity, run_clash, scheduler_trigger_reference.
  intros [= _ -> -> -> -> _ -> -> _ _] [= _ -> -> -> -> _ -> -> _ _] Hr Hs.
  rewrite !orb_false_iff. intros [[[Ha ?] ?] ?]. split_and!; try done.
  destruct Hr as [->| ->]; [done|]. destruct Hs as [->| ->]; [apply same_None_r|done].
Qed.

Lemma preserves_update_runs cond set : quiet cond set → preserves schema (update_runs cond set).
Proof.
  intros Hq d n d' Hd. unfold update_runs. destruct (update_all cond set (ingestion_runs d)) as [t m] eqn:E.
  intros [= _ <-]. assert (Ht : t = (λ r, if cond r then set r else r) <$> ingestion_runs d)
    by (unfold update_all in E; congruence). clear E m.
  assert (Hsame : ∀ r, run_identity (if cond r then set r else r) = run_identity r ∧
    run_check (if cond r then set r else r) = run_check r ∧
    (active_job_key (if cond r then set r else r) = None ∨
     active_job_key (if cond r then set r else r) = active_job_key r)).
  { intros r. specialize (Hq r). destruct (cond r); auto. }
  assert (Hdom : ∀ i, is_Some (ingestion_runs d !! i) → is_Some (t !! i))
    by (intros i; subst t; rewrite lookup_fmap, fmap_is_Some; done).
  assert (Hrefs : ∀ s, run_references d s = true → run_references (set_ingestion_runs t d) s = true).
  { intros s. unfold run_references. cbn. intros [Hp Hu]%andb_true_iff. apply andb_true_iff. split; [|done].
    destruct (parent_run_id s); [|done]. rewrite isSome_spec in *. auto. }
  destruct Hd as [[H0 Hi Hc Hu] Hs Ho Ha]. split; [|done|done|].
  - split; cbn; [done| | |].
    + intros i s. subst t. rewrite lookup_fmap. intros (r & Hr & ->)%fmap_Some.
      destruct (Hsame r) as [Hid _]. rewrite (run_identity_id _ _ Hid). eauto.
    + intros i s Hts. pose proof Hts as Hts'. subst t. rewrite lookup_fmap in Hts'.
      apply fmap_Some in Hts' as (r & Hr & ->). destruct (Hc _ _ Hr) as [Hk Href].
      destruct (Hsame r) as (Hid & -> & _). split; [done|]. apply Hrefs. by rewrite (run_references_identity _ _ r).
    + intros i j r s. subst t. rewrite !lookup_fmap. intros (r0 & Hr & ->)%fmap_Some (s0 & Hs0 & ->)%fmap_Some Hij.
      destruct (Hsame r0) as (? & _ & ?), (Hsame s0) as (? & _ & ?). eapply run_clash_quiet; eauto.
  - eapply table_ok_weaken, Ha; [done|]. cbn. intros i s _ (? & ? & ?). auto.
Qed.

Lemma schema_put_schedule d id r n : schema d → sch_id r = id → 0 < id < n → next_schedule_id d <= n →
  schedule_check r = true →
  schema (set_next_schedule_id n (set_schedules (<[id := r]> (schedules d)) d)).
Proof.
  intros [Hr Hs Ho Ha] Hid Hn Hle Hc. split; [done| | |done].
  - apply table_ok_put; try done; [|by apply conflicts_false]. by eapply table_ok_weaken, Hs.
  - eapply table_ok_weaken, Ho; [done|]. cbn. eauto using is_Some_put.
Qed.

Lemma preserves_update_schedule id cond set :
  (∀ r, cond r = true → sch_id (set r) = sch_id r) → preserves schema (update_schedule id cond set).
Proof.
  intros Hset d n d' Hd [(-> & r & Hr & Hc & _ & Hv & ->)|(_ & -> & _)]%update_one_Ok; [|done].
  apply schedule_verdict_None in Hv as (Hk & _).
  change (set_schedules (<[id := set r]> (schedules d)) d) with
    (set_next_schedule_id (next_schedule_id d) (set_schedules (<[id := set r]> (schedules d)) d)).
  destruct (t_ids _ _ _ _ _ (schedules_ok d Hd) _ _ Hr) as [Hid Hlt].
  apply schema_put_schedule; try done. by rewrite Hset.
Qed.

Lemma preserves_insert_schedule row : (∀ id, sch_id (row id) = id) → preserves schema (insert_schedule_row row).
Proof.
  intros Hid d n d' Hd (-> & Hv & ->)%insert_one_Ok. apply schedule_verdict_None in Hv as (Hk & _).
  pose proof (t_next _ _ _ _ _ (schedules_ok d Hd)). apply schema_put_schedule; try done; lia.
Qed.

Lemma schema_put_occurrence d id r n : schema d → occ_id r = id → 0 < id < n → next_occurrence_id d <= n →
  conflicts occurrence_clash id r (schedule_occurrences d) = false → is_Some (schedules d !! occ_schedule r) →
  schema (set_next_occurrence_id n (set_schedule_occurrences (<[id := r]> (schedule_occurrences d)) d)).
Proof.
  intros [Hr Hs Ho Ha] Hid Hn Hle Hc Hf. split; [done|done| |].
  - apply table_ok_put; auto using occurrence_clash_comm. by eapply table_ok_weaken, Ho.
  - eapply table_ok_weaken, Ha; [done|]. cbn. intros i s _ (? & ? & ?). auto using is_Some_put.
Qed.

Lemma preserves_update_occurrence id cond set :
  (∀ r, cond r = true → occurrence_identity (set r) = occurrence_identity r) →
  preserves schema (update_occurrence id cond set).
Proof.
  intros Hset d n d' Hd [(-> & r & Hr & Hc & _ & Hv & ->)|(_ & -> & _)]%update_one_Ok; [|done].
  apply occurrence_verdict_None in Hv as (Hk & Hf & _).
  change (set_schedule_occurrences (<[id := set r]> (schedule_occurrences d)) d) with
    (set_next_occurrence_id (next_occurrence_id d) (set_schedule_occurrences (<[id := set r]> (schedule_occurrences d)) d)).
  destruct (t_ids _ _ _ _ _ (occurrences_ok d Hd) _ _ Hr) as [Hid Hlt].
  apply schema_put_occurrence; try done. specialize (Hset r Hc). unfold occurrence_identity in Hset. congruence.
Qed.

Lemma preserves_insert_occurrence row : (∀ id, occ_id (row id) = id) → preserves schema (insert_occurrence row).
Proof.
  intros Hid d n d' Hd (-> & Hv & ->)%insert_one_Ok. apply occurrence_verdict_None in Hv as (Hk & Hf & _).
  pose proof (t_next _ _ _ _ _ (occurrences_ok d Hd)). apply schema_put_occurrence; try done; lia.
Qed.

Lemma preserves_insert_attempt row : (∀ id, att_id (row id) = id) → preserves schema (insert_attempt row).
Proof.
  intros Hid d n d' [Hr Hs Ho Ha] (-> & Hv & ->)%insert_one_Ok. apply attempt_verdict_None in Hv as (Hk & Hc & Hf).
  pose proof (t_next _ _ _ _ _ Ha). split; [done|done|done|].
  apply table_ok_put; auto using attempt_clash_comm; cbn; [|lia].
  eapply table_ok_weaken, Ha; [lia|done].
Qed.

Lemma preserves_insert_audit row : preserves schema (insert_audit row).
Proof. intros d n d' [Hr Hs Ho Ha]. cbn. unfold insert_audit_row. case_match; [done|]. by intros [= _ <-]. Qed.
Lemma preserves_Append event : preserves schema (Append event).
Proof. apply preserves_bind; [apply preserves_lift|]. intros row. apply preserves_insert_audit. Qed.
Lemma preserves_update_settings target : preserves schema (update_settings target).
Proof.
  intros d n d' [Hr Hs Ho Ha]. unfold update_settings. destruct (runtime_settings d); [|by intros [= _ <-]].
  case_match; [|done]. by intros [= _ <-].
Qed.

#[export] Hint Resolve preserves_insert_audit preserves_Append preserves_update_settings : tx.

(** ** The invariant as a program, for concrete databases *)

Definition table_b {R} (key : R → Z) (next : Z) (check : R → bool) (clash : R → R → bool) (t : gmap Z R) : bool :=
  (0 <? next) &&
  forallb (λ p, (key p.2 =? p.1) && (0 <? p.1) && (p.1 <? next) && check p.2 &&
    forallb (λ q, (p.1 =? q.1) || negb (clash p.2 q.2)) (map_to_list t)) (map_to_list t).

Definition schema_b (d : db) : bool :=
  table_b run_id (next_run_id d) (λ r, run_check r && run_references d r) run_clash (ingestion_runs d) &&
  table_b sch_id (next_schedule_id d) schedule_check no_clash (schedules d) &&
  table_b occ_id (next_occurrence_id d) (λ r, isSome (schedules d !! occ_schedule r)) occurrence_clash (schedule_occurrences d) &&
  table_b att_id (next_attempt_id d)
    (λ r, (0 <? attempt_no r) && isSome (schedule_occurrences d !! att_occurrence r) &&
          isSome (ingestion_runs d !! att_run r)) attempt_clash (schedule_attempts d).

Lemma table_b_sound {R} key next (check : R → bool) (P : R → Prop) clash t :
  (∀ r, check r = true → P r) → table_b key next check clash t = true → table_ok key next P clash t.
Proof.
  intros HP [H0 Hl]%andb_true_iff. rewrite forallb_forall in Hl.
  assert (Hrow : ∀ i r, t !! i = Some r → key r = i ∧ 0 < i < next ∧ check r = true ∧
    ∀ j s, t !! j = Some s → i ≠ j → clash r s = false).
  { intros i r Hr. specialize (Hl (i, r)). rewrite <- list_elem_of_In, elem_of_map_to_list in Hl.
    specialize (Hl Hr). cbn in Hl. rewrite !andb_true_iff, Z.eqb_eq, !Z.ltb_lt, forallb_forall in Hl.
    destruct Hl as [[[[? ?] ?] ?] Hu]. split_and!; try done. intros j s Hs Hij.
    specialize (Hu (j, s)). rewrite <- list_elem_of_In, elem_of_map_to_list in Hu. specialize (Hu Hs). cbn in Hu.
    apply orb_true_iff in Hu as [Hu|Hu]; [by apply Z.eqb_eq in Hu|]. by apply negb_true_iff in Hu. }
  split; [by apply Z.ltb_lt| | |].
  - intros i r Hr. by destruct (Hrow i r Hr) as (? & ? & _).
  - intros i r Hr. apply HP. by destruct (Hrow i r Hr) as (_ & _ & ? & _).
  - intros i j r s Hr Hs Hij. destruct (Hrow i r Hr) as (_ & _ & _ & Hu). eauto.
Qed.

Lemma schema_b_sound d : schema_b d = true → schema d.
Proof.
  unfold schema_b. rewrite !andb_true_iff. intros [[[Hr Hs] Ho] Ha]. split.
  - revert Hr. apply table_b_sound. by intros r [? ?]%andb_true_iff.
  - revert Hs. by apply table_b_sound.
  - revert Ho. apply table_b_sound. intros r. apply isSome_spec.
  - revert Ha. apply table_b_sound. intros r. rewrite !andb_true_iff, Z.ltb_lt, !isSome_spec. tauto.
Qed.
