(* ===== verification/DetailShapes.v ===== *)
(** * The shapes of detail records (src/internal/ingestion/detail.go)

    For each domain the fields, sections and child collections a payload is
    mapped to, and the whitelist of diagnostics a mapper may report. *)

From S2P Require Import Prelude.

Inductive DetailDomain := DetailCIF | DetailSaving | DetailTimeDeposit | DetailLoan | DetailSavingBlock.
#[export] Instance DetailDomain_eq_dec : EqDecision DetailDomain. Proof. solve_decision. Defined.

Definition SavingAccountStatementChildKey : string := "mutasi".
Definition SavingBlockChildKey : string := "datablockopen".

Inductive detailValueType :=
  | detailString | detailSourceText | detailDecimal | detailDecimalString | detailDecimalNumber
  | detailInteger | detailDate | detailExactDate | detailTime | detailDateTime | detailBoolean.
#[export] Instance detailValueType_eq_dec : EqDecision detailValueType. Proof. solve_decision. Defined.

Record detailField := mkField {
  target : string; source : string; fallback : string; valueType : detailValueType;
  required : bool; preserveEmpty : bool }.
Record detailChildShape := mkChildShape { sourceKey : string; child_fields : list detailField }.
Record detailSectionShape := mkSectionShape { section_key : string; section_fields : list detailField }.
Record detailShape := mkShape {
  identifierKey : string; shape_fields : list detailField;
  sections : list detailSectionShape; children : list detailChildShape }.

Definition field (target source : string) (t : detailValueType) : detailField := mkField target source "" t false false.
Definition requiredField (target source : string) (t : detailValueType) : detailField := mkField target source "" t true false.
Definition preservedString (target source : string) : detailField := mkField target source "" detailString false true.
Definition exactField (target source : string) (t : detailValueType) : detailField := mkField target source "" t false true.
Definition sourceText (target source : string) : detailField := exactField target source detailSourceText.
Definition fallbackString (target primary fallback : string) : detailField := mkField target primary fallback detailString false true.

Definition cifFields : list detailField :=
  [requiredField "cif_no" "id" detailString;
   requiredField "customer_name" "namanasabah" detailString;
   field "customer_type" "jenisnasabah" detailString;
   field "identity_type" "jenisidentitas" detailString;
   fallbackString "ktp_no" "perorangan_noktp" "dataktp_nik";
   field "birth_date" "perorangan_tgllahir" detailDate;
   field "cif_open_date" "tglbukacif" detailDate;
   field "record_created_at" "rec_dibuat_tgljam" detailDateTime; preservedString "alt_no" "noalt";
   preservedString "document_status" "status_dokumen";
   preservedString "location_name" "location__locationname";
   preservedString "record_created_by" "rec_dibuat_oleh";
   preservedString "record_created_location" "rec_dibuat_lokasi";
   preservedString "record_updated_by" "rec_diupdate_oleh";
   preservedString "record_updated_location" "rec_diupdate_lokasi";
   field "record_updated_at" "rec_diupdate_tgljam" detailDateTime;
   field "record_timestamp" "rec_timestamp" detailDateTime].
Definition cif_personal_profile : detailSectionShape := mkSectionShape "personal_profile"
  [preservedString "birth_place" "perorangan_tempatlahir";
   preservedString "gender" "perorangan_jeniskelamin";
   preservedString "religion" "perorangan_agama";
   preservedString "marital_status" "perorangan_statusperkawinan";
   preservedString "formal_education" "perorangan_pendidikanformal";
   preservedString "mother_name" "perorangan_namaibukandung";
   preservedString "nationality" "perorangan_kewarganegaraan";
   preservedString "country_of_origin" "perorangan_negaraasal";
   preservedString "email" "perorangan_alamatemail"; preservedString "title" "perorangan_gelar";
   preservedString "member_type" "perorangan_jenisanggota";
   field "dependent_count" "perorangan_jumlahtanggungan" detailInteger;
   field "residence_years" "perorangan_lamamenempatitahun" detailInteger;
   field "residence_months" "perorangan_lamamenempatibulan" detailInteger;
   preservedString "residence_status" "perorangan_statustempattinggal";
   preservedString "ethnicity" "perorangan_suku";
   field "marriage_date" "perorangan_tanggalmenikah" detailDate;
   preservedString "npwp_no" "perorangan_nonpwp"].
Definition cif_ktp : detailSectionShape := mkSectionShape "ktp"
  [preservedString "ktp_name" "dataktp_nama"; field "ktp_birth_date" "dataktp_tgllahir" detailDate;
   preservedString "ktp_religion" "dataktp_agama";
   preservedString "ktp_snapshot_address" "dataktp_alamat";
   preservedString "ktp_valid_for_life" "dataktp_berlakuseumurhidup";
   preservedString "ktp_blood_type" "dataktp_golongandarah";
   preservedString "ktp_gender" "dataktp_jeniskelamin";
   preservedString "ktp_nationality" "dataktp_kewarganegaraan";
   preservedString "ktp_occupation" "dataktp_pekerjaan";
   preservedString "ktp_marital_status" "dataktp_statusperkawinan";
   preservedString "ktp_birth_place" "dataktp_tempatlahir";
   preservedString "ktp_issue_place" "dataktp_tempatterbit";
   field "ktp_issue_date" "dataktp_tglterbit" detailDate;
   field "ktp_valid_until" "dataktp_tglberlaku" detailDate].
Definition cif_addresses : detailSectionShape := mkSectionShape "addresses"
  [preservedString "ktp_address_line_1" "dataalamat_ktp_alamat1";
   preservedString "ktp_address_line_2" "dataalamat_ktp_alamat2";
   preservedString "ktp_subdistrict" "dataalamat_ktp_kelurahan";
   preservedString "ktp_district" "dataalamat_ktp_kecamatan";
   preservedString "ktp_city" "dataalamat_ktp_kota";
   preservedString "ktp_province" "dataalamat_ktp_propinsi";
   preservedString "ktp_postal_code" "dataalamat_ktp_kodepos";
   preservedString "ktp_rt" "dataalamat_ktp_rt"; preservedString "ktp_rw" "dataalamat_ktp_rw";
   preservedString "home_address_line_1" "dataalamat_rumah_alamat1";
   preservedString "home_address_line_2" "dataalamat_rumah_alamat2";
   preservedString "home_subdistrict" "dataalamat_rumah_kelurahan";
   preservedString "home_district" "dataalamat_rumah_kecamatan";
   preservedString "home_city" "dataalamat_rumah_kota";
   preservedString "home_province" "dataalamat_rumah_propinsi";
   preservedString "home_postal_code" "dataalamat_rumah_kodepos";
   preservedString "home_rt" "dataalamat_rumah_rt";
   preservedString "home_rw" "dataalamat_rumah_rw";
   preservedString "home_area_code" "dataalamat_rumah_kodearea";
   preservedString "home_phone" "dataalamat_rumah_notelp";
   preservedString "home_mobile" "dataalamat_rumah_nohp";
   preservedString "home_fax" "dataalamat_rumah_nofax";
   preservedString "office_address_line_1" "dataalamat_kantor_alamat1";
   preservedString "office_address_line_2" "dataalamat_kantor_alamat2";
   preservedString "office_subdistrict" "dataalamat_kantor_kelurahan";
   preservedString "office_district" "dataalamat_kantor_kecamatan";
   preservedString "office_city" "dataalamat_kantor_kota";
   preservedString "office_province" "dataalamat_kantor_propinsi";
   preservedString "office_postal_code" "dataalamat_kantor_kodepos";
   preservedString "office_rt" "dataalamat_kantor_rt";
   preservedString "office_rw" "dataalamat_kantor_rw";
   preservedString "office_area_code" "dataalamat_kantor_kodearea";
   preservedString "office_phone" "dataalamat_kantor_notelp";
   preservedString "office_mobile" "dataalamat_kantor_nohp";
   preservedString "office_fax" "dataalamat_kantor_nofax";
   preservedString "home_same_as_ktp" "dataalamat_alamatrumahadalahalamatktp";
   preservedString "office_same_as_deed" "dataalamat_alamatkantoradalahalamatakta";
   preservedString "mailing_address_type" "dataalamat_alamatsuratmenyurat"].
Definition cif_employment : detailSectionShape := mkSectionShape "employment"
  [preservedString "work_type" "datapekerjaan_jenispekerjaan";
   preservedString "job_title" "datapekerjaan_jabatan";
   preservedString "business_field" "datapekerjaan_bidangusaha";
   preservedString "company_name" "datapekerjaan_namaperusahaan";
   preservedString "previous_company_name" "datapekerjaan_namaperusahaansebelumnya";
   preservedString "economic_sector" "datapekerjaan_sektorekonomi";
   field "work_years" "datapekerjaan_lamabekerjatahun" detailInteger;
   field "work_months" "datapekerjaan_lamabekerjabulan" detailInteger;
   field "previous_work_years" "datapekerjaan_lamabekerjasebelumnyatahun" detailInteger;
   field "previous_work_months" "datapekerjaan_lamabekerjasebelumnyabulan" detailInteger;
   field "monthly_net_income" "datapekerjaan_penghasilanbersihperbulan" detailDecimal;
   field "monthly_side_income" "datapekerjaan_penghasilansampinganperbulan" detailDecimal;
   field "monthly_expense" "datapekerjaan_totalpengeluaranperbulan" detailDecimal;
   preservedString "side_business" "datapekerjaan_usahasampingan"].
Definition cif_company : detailSectionShape := mkSectionShape "company"
  [preservedString "company_npwp_no" "perusahaan_nonpwp";
   preservedString "company_business_entity_type" "perusahaan_jenisbadanusaha";
   preservedString "company_initial_deed_no" "perusahaan_noaktaawalberdiri";
   preservedString "company_latest_deed_no" "perusahaan_noaktaakhirberdiri";
   preservedString "company_initial_deed_place" "perusahaan_tempataktaawal";
   preservedString "company_latest_deed_place" "perusahaan_tempataktaakhir";
   field "company_initial_deed_date" "perusahaan_tglaktaawal" detailDate;
   field "company_latest_deed_date" "perusahaan_tglaktaakhir" detailDate].
Definition cif_kyc : detailSectionShape := mkSectionShape "kyc"
  [preservedString "kyc_source_of_funds" "datakyc_sumberdana";
   preservedString "kyc_income_source" "datakyc_sumberpenghasilan";
   preservedString "kyc_fund_use_purpose" "datakyc_tujuanpenggunaandana";
   field "kyc_cash_deposit_limit" "datakyc_limittransaksi_setorantunai" detailDecimal;
   field "kyc_noncash_deposit_limit" "datakyc_limittransaksi_setorannontunai" detailDecimal;
   field "kyc_cash_withdrawal_limit" "datakyc_limittransaksi_penarikantunai" detailDecimal;
   field "kyc_noncash_withdrawal_limit" "datakyc_limittransaksi_penarikannontunai" detailDecimal;
   field "kyc_transaction_frequency_limit" "datakyc_limittransaksi_frekuensi" detailInteger;
   field "kyc_company_income" "datakyc_datanasabahperusahaan_penghasilan" detailDecimal;
   preservedString "kyc_company_business_form" "datakyc_datanasabahperusahaan_bentukusaha";
   preservedString "kyc_company_business_field" "datakyc_datanasabahperusahaan_bidangusaha";
   preservedString "kyc_company_fund_use" "datakyc_datanasabahperusahaan_tujuanpenggunaan"].
Definition cif_regulatory : detailSectionShape := mkSectionShape "regulatory"
  [preservedString "sid_alias_name" "datauntuksid_namaalias";
   preservedString "sid_debtor_group" "datauntuksid_golongandebitur";
   preservedString "sid_debtor_city" "datauntuksid_dati2debitur";
   preservedString "sid_status" "datauntuksid_status";
   preservedString "sid_din" "datauntuksid_din";
   preservedString "sid_related_party" "datauntuksid_pihakterkait";
   preservedString "sid_related_party_notes" "datauntuksid_keteranganpihakterkait";
   preservedString "sid_exceeds_bmpk" "datauntuksid_melampauibmpk";
   preservedString "sid_violates_bmpk" "datauntuksid_melanggarbmpk";
   preservedString "labul_debtor_group" "datalabul_golongandebitur";
   preservedString "risk_identity" "profilresiko_identitasnasabah";
   preservedString "risk_business_location" "profilresiko_lokasiusaha";
   preservedString "risk_transaction_count" "profilresiko_jumlahtransaksi";
   preservedString "risk_business_activity" "profilresiko_kegiatanusaha";
   preservedString "risk_ownership_structure" "profilresiko_strukturkepemilikan";
   preservedString "risk_product_service_network" "profilresiko_produkjasajaringan";
   preservedString "risk_other_information" "profilresiko_informasilain";
   preservedString "risk_final_summary" "profilresiko_resumeakhir";
   preservedString "risk_profile" "profilresiko_profil"].
Definition cifShape : detailShape := mkShape "id" cifFields
  [cif_personal_profile; cif_ktp; cif_addresses; cif_employment; cif_company; cif_kyc; cif_regulatory]
  [].

Definition savingFields : list detailField :=
  [requiredField "account_no" "norekening" detailString;
   requiredField "cif_no" "nocif" detailString; preservedString "account_name" "namarek";
   field "location_id" "locationid" detailString;
   requiredField "beginning_balance" "saldoawal" detailDecimal;
   requiredField "balance" "saldoakhir" detailDecimal;
   field "blocked_balance" "saldoblokir" detailDecimal;
   field "debit_mutation" "mutasidebit" detailDecimal;
   field "credit_mutation" "mutasikredit" detailDecimal;
   field "open_date" "tglbukarekening" detailDate; field "closed_date" "tglclosed" detailDate;
   preservedString "alt_no" "noalt"; preservedString "product_id" "produkid";
   preservedString "product_savings_type" "produk_jenistabungan";
   preservedString "savings_type" "jenistabungan"; preservedString "currency" "currency";
   preservedString "document_status" "status_dokumen";
   field "created_date" "createdate" detailDate;
   field "product_credit_interest_rate" "produk_sukubungakredit" detailDecimal;
   preservedString "credit_interest_type" "sukubungakredit";
   preservedString "overdraft" "overdraft"; preservedString "joint_account" "jointaccount";
   preservedString "opening_purpose" "tujuanpembukaanrekening";
   preservedString "source_of_fund" "sumberdana"; preservedString "product_bnpl" "produk_bnpl";
   preservedString "auto_debit" "produk_transaksiautodebit";
   preservedString "print_bilyet" "cetakbilyet";
   preservedString "print_savings_book" "cetakbukutabungan";
   preservedString "block_reason" "alasanblokir"; preservedString "block_notes" "keteranganblokir";
   preservedString "unblock_reason" "alasanbukablokir";
   preservedString "block_status" "statusblokir"; field "block_date" "tglblokir" detailDate;
   field "block_end_date" "tglakhirblokir" detailDate;
   field "unblock_date" "tglbukablokir" detailDate;
   field "unblock_amount" "nilaibukablokir" detailDecimal;
   field "accrued_balance" "saldoakru" detailDecimal;
   field "accrued_debit_balance" "saldoakrudebit" detailDecimal;
   field "accrued_credit_interest_balance" "saldoakrubungakredit" detailDecimal;
   field "active_standing_order_count" "total_so_aktif" detailInteger;
   field "fixed_debit_interest_payment_day" "pembayaranbunga_debit_tgltetap" detailInteger;
   field "fixed_credit_interest_payment_day" "pembayaranbunga_kredit_tgltetap" detailInteger;
   preservedString "marketing_code" "kode_marketing";
   preservedString "marketing_notes" "notes_marketing"].
Definition saving_SavingAccountStatementChildKey : detailChildShape := mkChildShape SavingAccountStatementChildKey
  [exactField "transaction_date" "tgltransaksi" detailExactDate;
   exactField "transaction_time" "jam" detailTime;
   exactField "opening_balance" "saldoawal" detailDecimalString;
   exactField "debit" "debit" detailDecimalString;
   exactField "credit" "kredit" detailDecimalString;
   exactField "closing_balance" "saldoakhir" detailDecimalString;
   exactField "closing_balance_equivalent" "saldoakhir_equivalent" detailDecimalString;
   sourceText "transaction_type" "jenistransaksi"; sourceText "description" "keterangan";
   sourceText "reference" "referensi"; sourceText "location" "lokasi";
   sourceText "journal_no" "nojurnal"; sourceText "created_by" "rec_dibuat_oleh";
   exactField "trx_rate" "trx_rate" detailDecimalNumber;
   exactField "mid_rate_dc" "mid_rate_dc" detailDecimalString].
Definition savingShape : detailShape := mkShape "norekening" savingFields
  []
  [saving_SavingAccountStatementChildKey].

Definition timeDepositFields : list detailField :=
  [requiredField "account_no" "id" detailString; requiredField "cif_no" "nocif" detailString;
   requiredField "nominal" "nominal" detailDecimal;
   field "accrued_interest" "accrueinterest" detailDecimal;
   field "product_interest_rate" "produk_sukubunga" detailDecimal;
   field "open_date" "tglbukarekening" detailDate; field "maturity_date" "tglpencairan" detailDate;
   field "location_id" "locationid" detailString; preservedString "account_name" "namanasabahdepo";
   preservedString "certificate_no" "nobilyet"; preservedString "product_id" "produkid";
   preservedString "product_deposit_type" "produk_jenisdeposito";
   preservedString "currency" "currency"; preservedString "term" "jangkawaktu";
   preservedString "period" "periode";
   preservedString "automatic_rollover" "produk_automaticrollover";
   preservedString "compound_interest" "produk_bungaberbunga";
   preservedString "interest_rate_change" "produk_perubahansukubunga";
   preservedString "interest_payment_method" "produk_pembayaran_bunga";
   preservedString "print_certificate" "produk_cetakbilyet";
   preservedString "document_status" "status_dokumen";
   preservedString "joint_account" "jointaccount";
   preservedString "joint_account_type" "jointaccounttype";
   preservedString "source_of_fund" "sumberdana";
   preservedString "opening_purpose" "tujuanpembukaanrekening";
   field "last_interest_payment_date" "pembayaran_bungaterakhir" detailDate;
   field "next_interest_payment_date" "pembayaran_bungaberikutnya" detailDate;
   preservedString "source_account_no" "norekeningsumberdana";
   preservedString "interest_destination_account" "norektujuanbunga";
   preservedString "disbursement_account_no" "norekeningpencairan";
   field "created_date" "createddate" detailDate; preservedString "description" "keterangan"].
Definition timeDeposit_mutasideposito : detailChildShape := mkChildShape "mutasideposito"
  [field "transaction_date" "tgltransaksi" detailDate;
   field "transaction_type" "jenistransaksi" detailString;
   field "currency" "currency" detailString; field "nominal" "nominal" detailDecimal;
   field "interest_rate" "sukubunga" detailDecimal; field "reference" "referensi" detailString;
   field "branch" "cabang" detailString; field "journal_no" "nojurnal" detailString;
   preservedString "period" "periode"; preservedString "term" "jangkawaktu";
   preservedString "officer" "officer"; preservedString "description" "keterangan"].
Definition timeDepositShape : detailShape := mkShape "id" timeDepositFields
  []
  [timeDeposit_mutasideposito].

Definition loanFields : list detailField :=
  [requiredField "account_no" "id" detailString; requiredField "cif_no" "nocif" detailString;
   field "location_id" "locationid" detailString;
   field "disbursement_date" "tgl_pencairan" detailDate;
   field "outstanding_principal" "outstandingpinjaman" detailDecimal;
   field "principal_arrears" "tunggakanpokok" detailDecimal;
   field "interest_arrears" "tunggakanbunga" detailDecimal;
   field "penalty_arrears" "dendatunggakan" detailDecimal; field "dpd" "dpd" detailInteger;
   field "collectability_bi" "kolekbi" detailInteger;
   field "product_interest_rate" "produk_sukubunga" detailDecimal;
   field "write_off_date" "tglhapusbuku" detailDate;
   preservedString "application_number" "channeling__nopengajuan";
   field "insurance_premium" "channeling__premiajk" detailDecimal;
   preservedString "insurance_company" "channeling__lifeinsurancecompany";
   preservedString "collateral_policy_number" "channeling__collateralpolicenumber";
   preservedString "collateral_type" "channeling__collateraltype";
   field "collateral_value" "channeling__collateralvalue" detailDecimal;
   preservedString "alt_no" "noalt"; preservedString "pk_no" "nopk";
   preservedString "loan_agreement_no" "noperjanjiankredit";
   preservedString "product_id" "produkid"; preservedString "product_code" "idproduk";
   preservedString "product_loan_type" "produk_jenispinjaman";
   preservedString "product_installment_type" "produk_jenisangsuran";
   preservedString "account_status" "statusrekening";
   preservedString "document_status" "status_dokumen"; preservedString "currency" "currency";
   preservedString "term" "jangkawaktu"; preservedString "period" "periode";
   field "installment_day" "tgl_angsuran" detailInteger;
   field "principal_amount" "jmlpokok_pinjaman" detailDecimal;
   field "credit_limit" "plafondlimit" detailDecimal;
   field "accrued_interest" "accrue" detailDecimal;
   field "flat_interest_rate" "bungaflat" detailDecimal;
   field "collectability_bpr" "kolekbpr" detailInteger;
   preservedString "collectability_update" "updatekolekbi";
   field "arrears_start_date" "tanggalmulaitunggakan" detailDate;
   field "last_due_date" "tgljtterakhir" detailDate;
   field "next_due_date" "tgljtberikutnya" detailDate;
   field "last_principal_interest_payment_date" "tglterakhir_bayarpokokdanbunga" detailDate;
   field "next_principal_interest_payment_date" "tglbayarpokokbunga_berikutnya" detailDate;
   field "close_date" "tgl_tutup" detailDate;
   preservedString "restructure_final_agreement_no" "restruktur_noakad_akhir";
   field "restructure_final_agreement_date" "restruktur_tanggalakhirakad" detailDate;
   preservedString "restructure_method" "restruktur_cara";
   preservedString "restructure_frequency" "restruktur_frekuensi";
   preservedString "sid_credit_nature" "sid_sifatkredit";
   preservedString "sid_credit_nature_2" "sid_sifatkredit2";
   preservedString "sid_usage_type" "sid_jenispenggunaan";
   preservedString "sid_repayment_source" "sid_sumberdanapelunasan";
   preservedString "sid_credit_group" "sid_golongankredit";
   preservedString "sid_usage_orientation" "sid_orientasipenggunaan";
   preservedString "sid_economic_sector" "sid_sektorekonomi";
   preservedString "sid_economic_sector_2" "sid_sektorekonomi2";
   preservedString "sid_business_type" "sid_jenisusaha";
   preservedString "disbursement_saving_account" "norektab_pencairanpinjaman";
   preservedString "disbursement_saving_account_2" "norektab_pencairanpinjaman2";
   preservedString "installment_payment_account" "norektab_bayarangsuran";
   preservedString "installment_payment_account_2" "norektab_bayarangsuran2";
   preservedString "loan_purpose" "tujuankredit";
   field "last_month_ppap" "ppapblnterakhir" detailDecimal;
   field "last_ppap_date" "ppaptglterakhir" detailDate;
   field "write_off_principal_balance" "nilaihapusbuku_saldopinjaman" detailDecimal;
   field "write_off_accrued_interest" "nilaihapusbuku_bungaberjalan" detailDecimal;
   field "write_off_interest_arrears" "nilaihapusbuku_tunggakanbunga" detailDecimal;
   field "write_off_penalty_arrears" "nilaihapusbuku_tunggakandenda" detailDecimal;
   field "total_write_off" "totalhapusbuku" detailDecimal;
   field "charge_off_principal" "ht_pokok" detailDecimal;
   field "charge_off_interest" "ht_bunga" detailDecimal; preservedString "marketing" "marketing";
   preservedString "record_created_by" "rec_dibuat_oleh";
   preservedString "record_created_location" "rec_dibuat_lokasi"].
Definition loan_biayapencairan : detailChildShape := mkChildShape "biayapencairan"
  [field "fee_name" "namabiaya" detailString; field "fee_amount" "jumlah_biaya" detailDecimal;
   field "calculate_dwp" "hitungdwp" detailString].
Definition loan_jadwalangsuran : detailChildShape := mkChildShape "jadwalangsuran"
  [field "schedule_date" "tanggal" detailDate; field "installment_amount" "angsuran" detailDecimal;
   field "interest_amount" "bunga" detailDecimal; field "principal_amount" "pokok" detailDecimal;
   field "penalty_amount" "denda" detailDecimal;
   field "paid_principal" "bayar_pokok" detailDecimal;
   field "paid_interest" "bayar_bunga" detailDecimal;
   field "paid_penalty" "bayar_denda" detailDecimal;
   field "remaining_loan" "sisapinjaman" detailDecimal;
   field "installment_no" "angsuranke" detailInteger;
   field "flat_interest" "bunga_flat" detailDecimal;
   field "flat_principal" "pokok_flat" detailDecimal;
   field "flat_loan" "pinjaman_flat" detailDecimal; preservedString "payment_status" "statusbayar"].
Definition loan_historybayar : detailChildShape := mkChildShape "historybayar"
  [field "transaction_date" "tgl" detailDate; field "installment_no" "angsuranke" detailInteger;
   field "payment_date" "tglbayar" detailDate; field "currency" "currency" detailString;
   field "due_date" "tgljt" detailDate; field "total_paid" "totalbayar" detailDecimal;
   field "paid_principal" "bayar_pokok" detailDecimal;
   field "paid_interest" "bayar_bunga" detailDecimal;
   field "paid_penalty" "bayar_denda" detailDecimal; field "journal_no" "nojurnal" detailString;
   field "branch" "cabang" detailString;
   field "paid_closing_penalty" "bayar_dendapelunasan" detailDecimal;
   field "dwp_nominal" "nominaldwp" detailDecimal; preservedString "description" "keterangan";
   preservedString "officer" "officer"; preservedString "authorizer" "otor"].
Definition loanShape : detailShape := mkShape "id" loanFields
  []
  [loan_biayapencairan; loan_jadwalangsuran; loan_historybayar].

Definition savingBlockFields : list detailField :=
  [requiredField "account_no" "norekening" detailString].
Definition savingBlock_SavingBlockChildKey : detailChildShape := mkChildShape SavingBlockChildKey
  [requiredField "account_no" "norekening" detailSourceText;
   sourceText "transaction_id" "id_transaction";
   exactField "transaction_date" "tgltransaksi" detailExactDate;
   sourceText "customer_name" "namanasabah"; exactField "block_date" "tglblokir" detailExactDate;
   exactField "block_end_date" "tglakhirblokir" detailExactDate; sourceText "currency" "currency";
   sourceText "description" "keterangan"; sourceText "block_reason" "alasanblokir";
   sourceText "transaction_type" "jenistransaksi";
   exactField "blocked_amount" "nilaiblokir" detailDecimal; sourceText "officer" "officer";
   exactField "not_batch" "not_batch" detailBoolean; exactField "is_open" "is_open" detailBoolean].
Definition savingBlockShape : detailShape := mkShape "norekening" savingBlockFields
  []
  [savingBlock_SavingBlockChildKey].

Definition detailShapeFor (domain : DetailDomain) : detailShape :=
  match domain with
  | DetailCIF => cifShape
  | DetailSaving => savingShape
  | DetailTimeDeposit => timeDepositShape
  | DetailLoan => loanShape
  | DetailSavingBlock => savingBlockShape
  end.

Definition category (t : detailValueType) : string :=
  match t with
  | detailString | detailSourceText => "string"
  | detailDecimal | detailDecimalString | detailDecimalNumber => "decimal"
  | detailInteger => "integer"
  | detailDate | detailExactDate => "date"
  | detailTime => "time"
  | detailDateTime => "datetime"
  | detailBoolean => "boolean"
  end.

(** ** Diagnostics *)

Record MapperMetadata := mkMetadata {
  md_class : string; md_field : string; md_sourcePath : string; md_category : string;
  md_reason : string; md_safeMessage : string }.
#[export] Instance MapperMetadata_eq_dec : EqDecision MapperMetadata. Proof. solve_decision. Defined.

Definition targets (fields : list detailField) (name : string) : bool :=
  existsb (λ f, (name =? target f)%string) fields.

Definition allDomains : list DetailDomain :=
  [DetailCIF; DetailSaving; DetailTimeDeposit; DetailLoan; DetailSavingBlock].

Definition mapperFieldAllowed (name : string) : bool :=
  (name =? "payload")%string || (name =? "identifier")%string ||
  existsb (λ domain,
    let shape := detailShapeFor domain in
    targets (shape_fields shape) name ||
    existsb (λ section, targets (section_fields section) name) (sections shape) ||
    existsb (λ child, (name =? sourceKey child)%string ||
      existsb (λ f, (name =? sourceKey child +:+ "." +:+ target f)%string) (child_fields child)) (children shape))
    allDomains.

Definition safeCategories : list string :=
  ["string"; "decimal"; "integer"; "date"; "time"; "datetime"; "boolean"; "identifier"; "structure"].
Definition safeReasons : list string :=
  ["missing"; "required"; "invalid_json"; "expected_array"; "expected_object"; "invalid_value"].
Definition safeMessages : list string :=
  ["detail payload is missing"; "detail payload is invalid"; "detail identifier is missing";
   "required detail field is missing"; "detail field value is invalid";
   "detail child collection is invalid"; "detail child item is invalid"].

Definition member (l : list string) (s : string) : bool := existsb (String.eqb s) l.

Definition IsSafeMapperDiagnostic (class field category reason message : string) : bool :=
  (class =? "detail_mapping")%string && mapperFieldAllowed field &&
  member safeCategories category && member safeReasons reason && member safeMessages message.

(** ** Lemmas *)

Lemma targets_In fields f : f ∈ fields → targets fields (target f) = true.
Proof.
  intros Hf. apply existsb_exists. exists f. rewrite String.eqb_refl, <- list_elem_of_In. done.
Qed.

Lemma allDomains_complete domain : domain ∈ allDomains.
Proof. destruct domain; unfold allDomains; set_solver. Qed.

Lemma allowed_by domain name :
  (targets (shape_fields (detailShapeFor domain)) name ||
   existsb (λ section, targets (section_fields section) name) (sections (detailShapeFor domain)) ||
   existsb (λ child, (name =? sourceKey child)%string ||
     existsb (λ f, (name =? sourceKey child +:+ "." +:+ target f)%string) (child_fields child))
     (children (detailShapeFor domain))) = true →
  mapperFieldAllowed name = true.
Proof.
  intros H. unfold mapperFieldAllowed. apply orb_true_iff. right. apply existsb_exists.
  exists domain. rewrite <- list_elem_of_In. split; [apply allDomains_complete|done].
Qed.

Lemma allowed_field domain f : f ∈ shape_fields (detailShapeFor domain) → mapperFieldAllowed (target f) = true.
Proof. intros Hf. apply (allowed_by domain). by rewrite targets_In. Qed.

Lemma allowed_section domain s f : s ∈ sections (detailShapeFor domain) → f ∈ section_fields s →
  mapperFieldAllowed (target f) = true.
Proof.
  intros Hs Hf. apply (allowed_by domain). rewrite !orb_true_iff. left; right. apply existsb_exists.
  exists s. rewrite <- list_elem_of_In. split; [done|by apply targets_In].
Qed.

Lemma allowed_child domain c : c ∈ children (detailShapeFor domain) → mapperFieldAllowed (sourceKey c) = true.
Proof.
  intros Hc. apply (allowed_by domain). rewrite !orb_true_iff. right. apply existsb_exists.
  exists c. rewrite <- list_elem_of_In. split; [done|]. by rewrite String.eqb_refl.
Qed.

Lemma allowed_child_field domain c f : c ∈ children (detailShapeFor domain) → f ∈ child_fields c →
  mapperFieldAllowed (sourceKey c +:+ "." +:+ target f) = true.
Proof.
  intros Hc Hf. apply (allowed_by domain). rewrite !orb_true_iff. right. apply existsb_exists.
  exists c. rewrite <- list_elem_of_In. split; [done|]. rewrite orb_true_iff. right.
  apply existsb_exists. exists f. rewrite <- list_elem_of_In. split; [done|apply String.eqb_refl].
Qed.

Lemma category_safe t : member safeCategories (category t) = true.
Proof. by destruct t. Qed.
