(* ===== verification/Diagnostics.v ===== *)
(** * Mapper diagnostics of a run (src/internal/ingestionrun/model.go)

    A run keeps at most sixteen groups of equal mapper diagnostics with a
    count each, an overflow count for the rest and their total, all
    [uint64].  [Add] changes the receiver and may still return an error, so
    it is modelled as returning both. *)

From S2P Require Import Prelude Calendar Json Hash Catalog Params Table DetailShapes.
From stdpp Require Import sorting.

Open Scope Z_scope.

Definition MaxUint64 : Z := 2 ^ 64 - 1.
Definition MaxMapperDiagnosticGroups : nat := 16.

Record MapperDiagnosticGroup := mkGroup {
  Class : string; Field : string; Category : string; Reason : string; SafeMessage : string; Count : Z }.
#[export] Instance MapperDiagnosticGroup_eq_dec : EqDecision MapperDiagnosticGroup. Proof. solve_decision. Defined.

Record MapperDiagnostics := mkDiagnostics {
  TotalCount : Z; OverflowCount : Z; Groups : list MapperDiagnosticGroup }.
#[export] Instance MapperDiagnostics_eq_dec : EqDecision MapperDiagnostics. Proof. solve_decision. Defined.

Definition sameMapperDiagnostic (left right : MapperDiagnosticGroup) : bool :=
  (Class left =? Class right)%string && (Field left =? Field right)%string &&
  (Category left =? Category right)%string && (Reason left =? Reason right)%string &&
  (SafeMessage left =? SafeMessage right)%string.

Definition string_lt (a b : string) : bool := match String.compare a b with Lt => true | _ => false end.

(** The comparison of [sort]. *)
Definition group_before (a b : MapperDiagnosticGroup) : bool :=
  if negb (Class a =? Class b)%string then string_lt (Class a) (Class b)
  else if negb (Field a =? Field b)%string then string_lt (Field a) (Field b)
  else if negb (Category a =? Category b)%string then string_lt (Category a) (Category b)
  else if negb (Reason a =? Reason b)%string then string_lt (Reason a) (Reason b)
  else string_lt (SafeMessage a) (SafeMessage b).

(** [sort.Slice] may place equal keys in any order; [validate], which always
    follows, refuses those. *)
Definition sort_groups (d : MapperDiagnostics) : MapperDiagnostics :=
  mkDiagnostics (TotalCount d) (OverflowCount d) (sort_by group_before (Groups d)).

Definition safe_group (g : MapperDiagnosticGroup) : bool :=
  IsSafeMapperDiagnostic (Class g) (Field g) (Category g) (Reason g) (SafeMessage g).

(** The loop of [validate]; [previous] is the group before. *)
Fixpoint validate_groups (total : Z) (previous : option MapperDiagnosticGroup)
    (groups : list MapperDiagnosticGroup) : result Z :=
  match groups with
  | [] => Ok total
  | g :: rest =>
      if negb (safe_group g) || (Count g =? 0) then Err (Errorf "invalid mapper diagnostic group")
      else if match previous with Some p => sameMapperDiagnostic p g | None => false end
      then Err (Errorf "duplicate mapper diagnostic group")
      else if MaxUint64 - total <? Count g then Err (Errorf "mapper diagnostic total overflow")
      else validate_groups (total + Count g) (Some g) rest
  end.

Definition validate (d : MapperDiagnostics) : result unit :=
  if (MaxMapperDiagnosticGroups <? length (Groups d))%nat then Err (Errorf "too many mapper diagnostic groups")
  else
    let? total := validate_groups (OverflowCount d) None (Groups d) in
    if total =? TotalCount d then Ok tt else Err (Errorf "mapper diagnostic total mismatch").

Definition group_of (m : MapperMetadata) (count : Z) : MapperDiagnosticGroup :=
  mkGroup (md_class m) (md_field m) (md_category m) (md_reason m) (md_safeMessage m) count.

(** The search loop of [Add]: [None] when no group is equal, an error when
    its count is at the maximum, or the groups with the count increased. *)
Fixpoint bump (groups : list MapperDiagnosticGroup) (group : MapperDiagnosticGroup) :
    option (result (list MapperDiagnosticGroup)) :=
  match groups with
  | [] => None
  | g :: rest =>
      if sameMapperDiagnostic g group then
        if Count g =? MaxUint64 then Some (Err (Errorf "mapper diagnostic group count overflow"))
        else Some (Ok (mkGroup (Class g) (Field g) (Category g) (Reason g) (SafeMessage g) (Count g + 1) :: rest))
      else
        match bump rest group with
        | Some (Ok rest') => Some (Ok (g :: rest'))
        | other => other
        end
  end.

Definition Add (d : MapperDiagnostics) (metadata : MapperMetadata) : MapperDiagnostics * result unit :=
  let group := group_of metadata 0 in
  if negb (safe_group group) then (d, Err (Errorf "invalid mapper diagnostic metadata"))
  else if TotalCount d =? MaxUint64 then (d, Err (Errorf "mapper diagnostic count overflow"))
  else
    let total := TotalCount d + 1 in
    match bump (Groups d) group with
    | Some (Err e) => (mkDiagnostics total (OverflowCount d) (Groups d), Err e)
    | Some (Ok groups) =>
        let d' := sort_groups (mkDiagnostics total (OverflowCount d) groups) in (d', validate d')
    | None =>
        if (length (Groups d) <? MaxMapperDiagnosticGroups)%nat then
          let d' := sort_groups (mkDiagnostics total (OverflowCount d) (Groups d ++ [group_of metadata 1])) in
          (d', validate d')
        else if OverflowCount d =? MaxUint64 then
          (mkDiagnostics total (OverflowCount d) (Groups d), Err (Errorf "mapper diagnostic overflow count overflow"))
        else
          let d' := mkDiagnostics total (OverflowCount d + 1) (Groups d) in (d', validate d')
    end.

(** ** JSON *)

Definition group_json (g : MapperDiagnosticGroup) : json :=
  JObj [("class", JStr (Class g)); ("field", JStr (Field g)); ("category", JStr (Category g));
        ("reason", JStr (Reason g)); ("safe_message", JStr (SafeMessage g)); ("count", jnum (Count g))].
(** A nil slice prints as null; no modelled code makes an empty non-nil one. *)
Definition diagnostics_json (d : MapperDiagnostics) : json :=
  JObj [("total_count", jnum (TotalCount d)); ("overflow_count", jnum (OverflowCount d));
        ("groups", match Groups d with [] => JNull | gs => JArr (group_json <$> gs) end)].

(** [Marshal] works on a copy of the receiver. *)
Definition Marshal (d : MapperDiagnostics) : result string :=
  let d' := sort_groups d in
  let? _ := validate d' in Ok (json_print (diagnostics_json d')).

Fixpoint digits_value (acc : Z) (s : string) : option Z :=
  match s with
  | "" => Some acc
  | String c s' => if is_digit c then digits_value (10 * acc + (Z.of_N (code c) - 48)) s' else None
  end.

(** A JSON number decoded into a [uint64], a JSON string into a [string]. *)
Definition json_uint64 (j : json) (old : Z) : result Z :=
  match j with
  | JNull => Ok old
  | JNum s =>
      match digits_value 0 s with
      | Some n => if n <=? MaxUint64 then Ok n else Err (Errorf "json: cannot unmarshal number into uint64")
      | None => Err (Errorf "json: cannot unmarshal number into uint64")
      end
  | _ => Err (Errorf "json: cannot unmarshal into uint64")
  end.
Definition json_text (j : json) (old : string) : result string :=
  match j with
  | JNull => Ok old
  | JStr s => Ok s
  | _ => Err (Errorf "json: cannot unmarshal into string")
  end.

Definition group_field (k : string) (x : json) (g : MapperDiagnosticGroup) : result MapperDiagnosticGroup :=
  let '(mkGroup c f ca r m n) := g in
  if fold_match "class" k then let? v := json_text x c in Ok (mkGroup v f ca r m n)
  else if fold_match "field" k then let? v := json_text x f in Ok (mkGroup c v ca r m n)
  else if fold_match "category" k then let? v := json_text x ca in Ok (mkGroup c f v r m n)
  else if fold_match "reason" k then let? v := json_text x r in Ok (mkGroup c f ca v m n)
  else if fold_match "safe_message" k then let? v := json_text x m in Ok (mkGroup c f ca r v n)
  else if fold_match "count" k then let? v := json_uint64 x n in Ok (mkGroup c f ca r m v)
  else Ok g.
Definition json_group : json → result MapperDiagnosticGroup := decode_struct (mkGroup "" "" "" "" "" 0) group_field.
Fixpoint json_groups (l : list json) : result (list MapperDiagnosticGroup) :=
  match l with
  | [] => Ok []
  | x :: l' => let? g := json_group x in let? gs := json_groups l' in Ok (g :: gs)
  end.
Definition diagnostics_field (k : string) (x : json) (d : MapperDiagnostics) : result MapperDiagnostics :=
  if fold_match "total_count" k then let? v := json_uint64 x (TotalCount d) in Ok (mkDiagnostics v (OverflowCount d) (Groups d))
  else if fold_match "overflow_count" k then let? v := json_uint64 x (OverflowCount d) in Ok (mkDiagnostics (TotalCount d) v (Groups d))
  else if fold_match "groups" k then
    match x with
    | JNull => Ok (mkDiagnostics (TotalCount d) (OverflowCount d) [])
    | JArr l => let? gs := json_groups l in Ok (mkDiagnostics (TotalCount d) (OverflowCount d) gs)
    | _ => Err (Errorf "json: cannot unmarshal into []MapperDiagnosticGroup")
    end
  else Ok d.
Definition json_diagnostics : json → result MapperDiagnostics := decode_struct (mkDiagnostics 0 0 []) diagnostics_field.

(** [decodeMapperDiagnostics]; a NULL column has no bytes. *)
Definition decodeMapperDiagnostics (data : option string) : result (option MapperDiagnostics) :=
  match data with
  | None | Some "" => Ok None
  | Some data =>
      match json_decode data with
      | None => Err (Errorf "decode mapper diagnostics")
      | Some j =>
          let? d := json_diagnostics j in
          let d' := sort_groups d in
          let? _ := validate d' in Ok (Some d')
      end
  end.

(** ** The order of groups *)

Lemma string_lt_irrefl a : string_lt a a = false.
Proof.
  unfold string_lt. destruct (String.compare a a) eqn:E; try done.
  pose proof (String.compare_antisym a a) as H. by rewrite E in H.
Qed.

Lemma string_compare_cons c d a b : String.compare (String c a) (String d b) =
  match Ascii.compare c d with Eq => String.compare a b | o => o end.
Proof. reflexivity. Qed.

Lemma ascii_compare_N c d : Ascii.compare c d = (code c ?= code d)%N.
Proof. reflexivity. Qed.

Lemma string_lt_cons c d a b : string_lt (String c a) (String d b) = true ↔
  (code c < code d)%N ∨ c = d ∧ string_lt a b = true.
Proof.
  unfold string_lt. rewrite string_compare_cons, ascii_compare_N.
  destruct (N.compare_spec (code c) (code d)) as [Heq|Hlt|Hgt].
  - assert (c = d) as -> by (unfold code in Heq; rewrite <- (ascii_N_embedding c), Heq; apply ascii_N_embedding).
    split; [by right|]. intros [?|[_ ?]]; [lia|done].
  - split; [by left|done].
  - split; [done|]. intros [?|[-> _]]; lia.
Qed.

Lemma string_lt_trans a b c : string_lt a b = true → string_lt b c = true → string_lt a c = true.
Proof.
  revert b c. induction a as [|x a IH]; intros [|y b] [|z c]; try done.
  rewrite !string_lt_cons. intros [?|[-> ?]] [?|[-> ?]]; [left; lia|by left|by left|right; eauto].
Qed.

Lemma string_lt_total a b : string_lt a b = false → string_lt b a = false → a = b.
Proof.
  unfold string_lt. pose proof (String.compare_antisym a b) as H. intros H1 H2.
  apply String.compare_eq_iff. by destruct (String.compare a b), (String.compare b a).
Qed.

Definition group_key (g : MapperDiagnosticGroup) : list string :=
  [Class g; Field g; Category g; Reason g; SafeMessage g].

Lemma sameMapperDiagnostic_key g h : sameMapperDiagnostic g h = true ↔ group_key g = group_key h.
Proof.
  unfold sameMapperDiagnostic, group_key. rewrite !andb_true_iff, !String.eqb_eq. split; [|by intros [= -> -> -> -> ->]].
  by intros [[[[-> ->] ->] ->] ->].
Qed.

Fixpoint keys_lt (k l : list string) : bool :=
  match k, l with
  | a :: k', b :: l' => if negb (a =? b)%string then string_lt a b else keys_lt k' l'
  | _, _ => false
  end.

Lemma group_before_key g h : group_before g h = keys_lt (group_key g) (group_key h).
Proof.
  unfold group_before, group_key, keys_lt. repeat (case_match; [done|]).
  destruct (SafeMessage g =? SafeMessage h)%string eqn:E; [|done]. apply String.eqb_eq in E as ->.
  apply string_lt_irrefl.
Qed.

Lemma keys_lt_irrefl k : keys_lt k k = false.
Proof. induction k as [|a k IH]; [done|]. simpl. by rewrite String.eqb_refl. Qed.

Lemma keys_lt_cons a b k l : keys_lt (a :: k) (b :: l) = true ↔
  string_lt a b = true ∨ a = b ∧ keys_lt k l = true.
Proof.
  simpl. destruct (String.eqb_spec a b) as [->|Hn]; simpl.
  - rewrite string_lt_irrefl. naive_solver.
  - naive_solver.
Qed.

Lemma keys_lt_trans k l m : keys_lt k l = true → keys_lt l m = true → keys_lt k m = true.
Proof.
  revert l m. induction k as [|a k IH]; intros [|b l] [|c m]; try done.
  rewrite !keys_lt_cons. intros [?|[-> ?]] [?|[-> ?]]; eauto using string_lt_trans.
Qed.

Lemma keys_lt_total k l : length k = length l → keys_lt k l = false → keys_lt l k = false → k = l.
Proof.
  revert l. induction k as [|a k IH]; intros [|b l]; try done. simpl. intros [= Hl].
  destruct (String.eqb_spec a b) as [->|Hn]; simpl.
  - rewrite String.eqb_refl. simpl. intros. f_equal. auto.
  - rewrite (proj2 (String.eqb_neq b a)) by done. simpl. intros ? ?. by destruct Hn; apply string_lt_total.
Qed.

Lemma group_before_same g h : group_before g h = false → group_before h g = false → sameMapperDiagnostic g h = true.
Proof. rewrite !group_before_key, sameMapperDiagnostic_key. by apply keys_lt_total. Qed.

Lemma group_before_trans a b c : group_before a b = true → group_before b c = true → group_before a c = true.
Proof. rewrite !group_before_key. apply keys_lt_trans. Qed.

Lemma group_before_irrefl g h : group_key g = group_key h → group_before g h = false.
Proof. rewrite group_before_key. intros ->. apply keys_lt_irrefl. Qed.

(** ** Sorted groups *)

Definition ordered : list MapperDiagnosticGroup → Prop := StronglySorted (λ a b, group_before a b = true).

Lemma sort_ordered l : ordered l → sort_by group_before l = l.
Proof.
  induction 1 as [|a l Hl IH Ha]; [done|]. simpl. fold (sort_by group_before). rewrite IH.
  destruct l as [|b l]; [done|]. simpl. apply Forall_cons in Ha as [Hab _].
  destruct (group_before b a) eqn:E; [|done].
  exfalso. pose proof (group_before_trans _ _ _ Hab E) as H. by rewrite (group_before_irrefl a a) in H.
Qed.

Lemma insert_ordered g l : ordered l → Forall (λ h, sameMapperDiagnostic h g = false) l →
  ordered (insert_by group_before g l).
Proof.
  induction 1 as [|a l Hl IH Ha]; intros Hf; [repeat constructor|]. simpl.
  apply Forall_cons in Hf as [Hag Hf]. destruct (group_before a g) eqn:E.
  - constructor; [by apply IH|]. rewrite insert_by_Permutation. by constructor.
  - assert (group_before g a = true) as Hga.
    { destruct (group_before g a) eqn:E'; [done|]. by rewrite group_before_same in Hag. }
    constructor; [by constructor|]. constructor; [done|]. eapply Forall_impl; [exact Ha|].
    cbn. intros x Hx. exact (group_before_trans _ _ _ Hga Hx).
Qed.

Lemma sort_by_ordered l : NoDup (group_key <$> l) → ordered (sort_by group_before l).
Proof.
  induction l as [|g l IH]; intros Hn; [constructor|]. apply NoDup_cons in Hn as [Hg Hn].
  simpl. apply insert_ordered; [by apply IH|]. rewrite sort_by_Permutation. apply Forall_forall.
  intros h Hh. destruct (sameMapperDiagnostic h g) eqn:E; [|done]. apply sameMapperDiagnostic_key in E.
  destruct Hg. rewrite <- E. apply list_elem_of_fmap. eauto.
Qed.

Lemma ordered_NoDup l : ordered l → NoDup (group_key <$> l).
Proof.
  induction 1 as [|a l Hl IH Ha]; [constructor|]. cbn [fmap list_fmap]. constructor; [|done].
  intros (b & Hk & Hb)%list_elem_of_fmap. rewrite Forall_forall in Ha. specialize (Ha _ Hb).
  by rewrite group_before_irrefl in Ha.
Qed.

(** ** What [validate] accepts *)

Definition total_count (groups : list MapperDiagnosticGroup) : Z := foldr (λ g n, Count g + n) 0 groups.

Lemma total_count_Permutation l l' : l ≡ₚ l' → total_count l = total_count l'.
Proof. induction 1; simpl in *; lia. Qed.

Lemma total_count_app l l' : total_count (l ++ l') = total_count l + total_count l'.
Proof. induction l as [|g l IH]; simpl; [done|]. rewrite IH. lia. Qed.

(** A diagnostic value a run can hold: counts in range, groups safe,
    counted, sorted without repetition, adding up to the total. *)
Record consistent (d : MapperDiagnostics) : Prop := {
  c_total : TotalCount d = OverflowCount d + total_count (Groups d);
  c_range : TotalCount d <= MaxUint64;
  c_overflow : 0 <= OverflowCount d;
  c_groups : Forall (λ g, safe_group g = true ∧ 0 < Count g) (Groups d);
  c_ordered : ordered (Groups d);
  c_size : (length (Groups d) <= MaxMapperDiagnosticGroups)%nat }.

Lemma total_count_nonneg groups : Forall (λ g, safe_group g = true ∧ 0 < Count g) groups → 0 <= total_count groups.
Proof. induction 1 as [|g l [_ ?] ? IH]; simpl; lia. Qed.

Lemma validate_groups_Ok groups : ordered groups → Forall (λ g, safe_group g = true ∧ 0 < Count g) groups →
  ∀ total previous, 0 <= total → total + total_count groups <= MaxUint64 →
  match previous with Some p => Forall (λ g, group_before p g = true) groups | None => True end →
  validate_groups total previous groups = Ok (total + total_count groups).
Proof.
  induction 1 as [|g l Hl IH Hg]; intros Hf total previous H0 Hmax Hp; cbn [validate_groups total_count foldr].
  - by rewrite Z.add_0_r.
  - apply Forall_cons in Hf as [[Hs Hc] Hf]. pose proof (total_count_nonneg l Hf).
    cbn [total_count foldr] in Hmax. fold (total_count l) in Hmax |- *.
    rewrite Hs, (proj2 (Z.eqb_neq _ _)) by lia. cbn [negb orb].
    assert (match previous with Some p => sameMapperDiagnostic p g | None => false end = false) as ->.
    { destruct previous as [p|]; [|done]. apply Forall_cons in Hp as [Hp _].
      destruct (sameMapperDiagnostic p g) eqn:E; [|done]. apply sameMapperDiagnostic_key in E.
      by rewrite group_before_irrefl in Hp. }
    rewrite (proj2 (Z.ltb_ge _ _)) by lia. rewrite IH; [f_equal; lia|done|lia|lia|done].
Qed.

Lemma validate_consistent d : consistent d → validate d = Ok tt.
Proof.
  intros [Ht Hr Ho Hg Hs Hl]. unfold validate.
  destruct (_ <? _)%nat eqn:E; [apply Nat.ltb_lt in E; lia|].
  rewrite validate_groups_Ok; try done; [|lia]. cbn [res_bind]. by rewrite Ht, Z.eqb_refl.
Qed.

(** ** [Add] *)

Lemma bump_None groups group : bump groups group = None →
  Forall (λ g, sameMapperDiagnostic g group = false) groups.
Proof.
  induction groups as [|g l IH]; intros H; [constructor|]. cbn [bump] in H.
  destruct (sameMapperDiagnostic g group) eqn:E; [by destruct (Count g =? MaxUint64)|].
  constructor; [done|]. destruct (bump l group) as [[?|?]|]; try done. auto.
Qed.

(** The counts before the bumped group stay; keys stay. *)
Lemma bump_Some groups group r : Forall (λ g, safe_group g = true ∧ 0 < Count g) groups →
  total_count groups < MaxUint64 → bump groups group = Some r →
  ∃ groups', r = Ok groups' ∧ group_key <$> groups' = group_key <$> groups ∧
    total_count groups' = total_count groups + 1 ∧
    Forall (λ g, safe_group g = true ∧ 0 < Count g) groups'.
Proof.
  induction groups as [|g l IH] in r |- *; intros Hf Hmax; [done|].
  apply Forall_cons in Hf as [[Hs Hc] Hf]. pose proof (total_count_nonneg l Hf) as Hl.
  simpl in Hmax. cbn [bump]. destruct (sameMapperDiagnostic g group) eqn:E.
  - rewrite (proj2 (Z.eqb_neq _ _)) by lia. intros [= <-]. eexists. split; [done|].
    cbn [fmap list_fmap]. split; [done|]. simpl. split; [lia|]. constructor; [|done]. split; [done|simpl; lia].
  - destruct (bump l group) as [r'|] eqn:Eb; [|done].
    destruct (IH r' Hf ltac:(lia) eq_refl) as (gs & -> & Hk & Ht & Hg). intros [= <-].
    exists (g :: gs). split; [done|]. cbn [fmap list_fmap]. rewrite Hk. simpl. rewrite Ht.
    split; [done|]. split; [lia|]. by constructor.
Qed.

Lemma consistent_sorted total overflow groups :
  total = overflow + total_count groups → total <= MaxUint64 → 0 <= overflow →
  Forall (λ g, safe_group g = true ∧ 0 < Count g) groups → NoDup (group_key <$> groups) →
  (length groups <= MaxMapperDiagnosticGroups)%nat →
  consistent (sort_groups (mkDiagnostics total overflow groups)).
Proof.
  intros Ht Hm Ho Hg Hn Hl. split; cbn [sort_groups TotalCount OverflowCount Groups]; [|done|done| | |].
  - by rewrite (total_count_Permutation _ groups) by apply sort_by_Permutation.
  - by rewrite sort_by_Permutation.
  - by apply sort_by_ordered.
  - by rewrite sort_by_Permutation.
Qed.

(** With room left, [Add] ends in a consistent value, which it validates. *)
Lemma Add_counted d m : consistent d → safe_group (group_of m 0) = true → TotalCount d < MaxUint64 →
  ∃ d', Add d m = (d', validate d') ∧ consistent d' ∧ TotalCount d' = TotalCount d + 1.
Proof.
  intros Hd Es Hlt. unfold Add. rewrite Es, (proj2 (Z.eqb_neq _ _)) by lia. cbn [negb].
  pose proof (c_range d Hd). pose proof (c_total d Hd). pose proof (c_overflow d Hd).
  pose proof (total_count_nonneg _ (c_groups d Hd)) as Hpos.
  destruct (bump (Groups d) (group_of m 0)) as [r|] eqn:Eb.
  - apply bump_Some in Eb as (gs & -> & Hk & Hn & Hg); [|apply Hd|lia].
    eexists. split; [done|]. split; [|done]. apply consistent_sorted; try done; try lia.
    + rewrite Hk. apply ordered_NoDup, Hd.
    + rewrite <- (length_fmap group_key), Hk, length_fmap. apply Hd.
  - apply bump_None in Eb. destruct (Nat.ltb_spec (length (Groups d)) MaxMapperDiagnosticGroups) as [Hl|Hl].
    + eexists. split; [done|]. split; [|done]. apply consistent_sorted; try lia.
      * rewrite total_count_app. simpl. lia.
      * apply Forall_app. split; [apply Hd|]. constructor; [|constructor]. split; [done|simpl; lia].
      * rewrite fmap_app. apply NoDup_app. split; [apply ordered_NoDup, Hd|].
        split; [|apply NoDup_singleton]. intros k (g & -> & Hg)%list_elem_of_fmap Hk.
        rewrite Forall_forall in Eb. specialize (Eb _ Hg). apply list_elem_of_singleton in Hk.
        by rewrite (proj2 (sameMapperDiagnostic_key g (group_of m 0))) in Eb.
      * rewrite length_app. simpl. lia.
    + rewrite (proj2 (Z.eqb_neq _ _)) by lia. eexists. split; [done|]. split; [|done].
      split; cbn [TotalCount OverflowCount Groups]; [lia|lia|lia| | |]; apply Hd.
Qed.

(** ** Properties *)

(** Adding a mapper diagnostic never fails or corrupts the counts while
    they have room: from a consistent value, [Add] of safe metadata below the
    maximal total returns no error, and the result is consistent (so it
    validates again), counts one more diagnostic and has at most sixteen
    groups; otherwise it reports an error and leaves the value as it was. *)
Theorem Add_consistent : ∀ d metadata, consistent d →
  if safe_group (group_of metadata 0) && (TotalCount d <? MaxUint64) then
    ∃ d', Add d metadata = (d', Ok tt) ∧ consistent d' ∧ TotalCount d' = TotalCount d + 1 ∧ validate d' = Ok tt
  else ∃ e, Add d metadata = (d, Err e).
Proof.
  intros d m Hd. destruct (safe_group (group_of m 0)) eqn:Es; cbn [andb].
  - pose proof (c_range d Hd). destruct (Z.ltb_spec (TotalCount d) MaxUint64) as [Hlt|Hge].
    + destruct (Add_counted d m Hd Es Hlt) as (d' & Ha & Hc & Ht). exists d'.
      rewrite Ha, (validate_consistent d' Hc). done.
    + unfold Add. rewrite Es, (proj2 (Z.eqb_eq _ _)) by lia. eauto.
  - unfold Add. rewrite Es. eauto.
Qed.

Lemma Add_consistent_witness :
  consistent (mkDiagnostics 0 0 []) ∧
  ∃ d', Add (mkDiagnostics 0 0 []) (mkMetadata "detail_mapping" "payload" "" "structure" "missing" "detail payload is missing")
        = (d', Ok tt) ∧ consistent d' ∧ TotalCount d' = 1 ∧ validate d' = Ok tt.
Proof.
  assert (consistent (mkDiagnostics 0 0 [])) as Hc
    by (split; [reflexivity|vm_compute; discriminate|reflexivity|constructor|constructor|cbn; lia]).
  split; [exact Hc|].
  exact (Add_consistent _ (mkMetadata "detail_mapping" "payload" "" "structure" "missing" "detail payload is missing") Hc).
Defined.
