(* ===== verification/Runs.v ===== *)
(** * The run repository (src/internal/ingestionrun/repository.go)

    Every operation is a transaction over the database; [now] is the
    server's clock (CURRENT_TIMESTAMP(6)), read once per transaction.  An
    autocommitted statement followed by a check ([Heartbeat],
    [UpdateProgress]) is modelled as running back to back. *)

From S2P Require Import Prelude Calendar Json Hash Catalog Params Access AuditTrail Table Store Schema DetailShapes Diagnostics.

Open Scope Z_scope.

(** ** Rows as values *)

Record Run := mkRunValue {
  ID : Z; RunKind : Kind; ParentRunID : option Z; ChildPosition : option Z; JobKey : string;
  RunStatus : Status; RunParameters : Parameters; RunTrigger : Trigger; TriggerReference : string;
  RequestedByUserID : option Z; OwnerID : string; HeartbeatAt : option instant;
  SnapshotDate : CalendarDate; CancelRequested : bool; RunProgress : Progress;
  RunDiagnostics : option MapperDiagnostics }.

Definition or_empty (o : option string) : string := match o with Some s => s | None => "" end.

(** The value [getRun] builds from a row. *)
Definition run_value (r : run_row) (diagnostics : option MapperDiagnostics) : Run :=
  mkRunValue (run_id r) (run_kind r) (parent_run_id r) (child_position r) (or_empty (run_job_key r))
    (run_status r) (run_parameters r) (trigger_type r) (or_empty (trigger_reference r)) (requested_by r)
    (or_empty (owner_id r)) (heartbeat_at r)
    (match snapshot_date r with
     | Some date => match ParseCalendarDate (format_date date) with Ok d => d | Err _ => zero_date end
     | None => zero_date
     end)
    (isSome (cancel_requested_at r)) (run_progress r) diagnostics.

Definition getRun (id : Z) : Tx db Run :=
  let* row := tx_gets (λ d, ingestion_runs d !! id) in
  match row with
  | None => tx_fail ErrNoRows
  | Some r => let* diagnostics := tx_lift (decodeMapperDiagnostics (mapper_diagnostics r)) in
              tx_ret (run_value r diagnostics)
  end.

(** ** Runtime settings *)

Definition ValidRuntimeLimit (value : Z) : bool := (1 <=? value) && (value <=? 64).

Definition validateSettings (settings : RuntimeSettings) : result unit :=
  if ValidRuntimeLimit (MaxRunningJobs settings) && ValidRuntimeLimit (FixedMemberConcurrency settings) &&
     ValidRuntimeLimit (DetailConcurrency settings)
  then Ok tt else Err (Errorf "invalid ingestion runtime settings: limits must be 1..64").

Definition runtimeSettings : Tx db RuntimeSettings :=
  let* row := tx_gets runtime_settings in
  match row with
  | None => tx_fail ErrNoRows
  | Some settings => let* _ := tx_lift (validateSettings settings) in tx_ret settings
  end.

Definition settings_json (s : RuntimeSettings) : json :=
  IngestionRuntimeSettingsValues (MaxRunningJobs s) (FixedMemberConcurrency s) (DetailConcurrency s).

Definition UpdateRuntimeSettings (now : instant) (expected target : RuntimeSettings) (requester : Requester) : Tx db bool :=
  let* _ := tx_lift (validateSettings target) in
  let* current := runtimeSettings in
  if negb (bool_decide (current = expected)) then tx_fail ErrRuntimeSettingsConflict
  else if bool_decide (current = target) then tx_ret false
  else
    update_settings target ;;;
    Append (mkEvent (attribution_of requester) ActionIngestionRuntimeSettingsUpdated None 0
              (Some (IngestionRuntimeSettingsMetadata (settings_json current) (settings_json target))) now) ;;;
    tx_ret true.

Definition executable (kind : Kind) : bool :=
  match kind with KindJob | KindRunAllChild => true | KindRunAllParent => false end.
Definition has_status (status : Status) (r : run_row) : bool := bool_decide (run_status r = status).
Definition occupies (r : run_row) : bool := executable (run_kind r) && has_status StatusRunning r.

(** [RunningJobs]: executable runs occupying admission capacity. *)
Definition runningJobs : Tx db Z := tx_gets (λ d, count occupies (ingestion_runs d)).

Definition appendRunAudit (now : instant) (requester : Requester) (action : Action) (runID : Z)
    (metadata : Metadata) : Tx db unit :=
  Append (mkEvent (attribution_of requester) action (Some ResourceIngestionRun) runID metadata now).

(** ** Sources *)

Definition sourceEnabled (key : string) : Tx db bool :=
  let* row := tx_gets (λ d, source_settings d !! key) in
  match row with None => tx_fail ErrNoRows | Some source => tx_ret (src_enabled source) end.

Definition sourceReady (key : string) : Tx db unit :=
  let* row := tx_gets (λ d, source_settings d !! key) in
  match row with
  | None => tx_fail ErrNoRows
  | Some source =>
      if negb (src_enabled source) then tx_fail ErrSourceDisabled else
      match src_profile source with
      | None => tx_fail ErrSourceConfigurationRequired
      | Some profile =>
          let* status := tx_gets (λ d, auth_profiles d !! profile) in
          match status with
          | None => tx_fail ErrSourceConfigurationRequired
          | Some status => tx_guard (status =? "active")%string ErrSourceConfigurationRequired
          end
      end
  end.

(** ** Submission *)

Definition insertRun (now : instant) (kind : Kind) (parent position : option Z) (jobKey : string)
    (status : Status) (parameters : Parameters) (trigger : Trigger) (reference : string)
    (requester : option Z) : Tx db Z :=
  insert_run (λ id, mkRun id kind parent position (nullable jobKey) parameters trigger (nullable reference)
    requester now status None None None None None None None no_progress no_error None None None None None).

(** [duplicate(err)]: MySQL error 1062. *)
Definition duplicate (e : error) : bool := match e with ErrDuplicateKey => true | _ => false end.

Definition submitInTx (now : instant) (jobKey : string) (parameters : Parameters) (trigger : Trigger)
    (reference : string) (requester : option Z) (requireAuth : bool) : Tx db Z :=
  if bool_decide (trigger = TriggerScheduler) && (trim_space reference =? "")%string
  then tx_fail (Errorf "scheduler trigger reference is required") else
  match Find theCatalog jobKey with
  | None => tx_fail (Errorf "unknown job")
  | Some job =>
      let* _ := tx_lift (Validate parameters job) in
      (if requireAuth then sourceReady jobKey
       else let* enabled := sourceEnabled jobKey in tx_guard enabled ErrSourceDisabled) ;;;
      let* inserted := tx_try (insertRun now KindJob None None jobKey StatusQueued parameters trigger reference requester) in
      match inserted with
      | Ok id => tx_ret id
      | Err e => tx_fail (if duplicate e then ErrJobBusy else e)
      end
  end.

Definition SubmitInTx (now : instant) (jobKey : string) (parameters : Parameters) (trigger : Trigger)
    (reference : string) (requester : option Z) : Tx db Z :=
  submitInTx now jobKey parameters trigger reference requester (bool_decide (trigger = TriggerScheduler)).

Definition submit (now : instant) (jobKey : string) (parameters : Parameters) (trigger : Trigger)
    (reference : string) (requestedBy : option Z) (auditRequester : option Requester) (requireAuth : bool) : Tx db Z :=
  let* id := submitInTx now jobKey parameters trigger reference requestedBy requireAuth in
  match auditRequester with
  | Some requester =>
      appendRunAudit now requester ActionIngestionRunSubmitted id (Some (IngestionSubmissionMetadata jobKey "" ""))
  | None => tx_ret tt
  end ;;;
  tx_ret id.

Definition Submit (now : instant) (jobKey : string) (parameters : Parameters) (trigger : Trigger)
    (reference : string) (requester : option Z) : Tx db Z :=
  submit now jobKey parameters trigger reference requester None false.
Definition SubmitManual (now : instant) (jobKey : string) (parameters : Parameters) (trigger : Trigger)
    (reference : string) (requester : Requester) : Tx db Z :=
  submit now jobKey parameters trigger reference (Some (UserID (Actor requester))) (Some requester) true.

(** ** Run All *)

Definition id_string (id : Z) : string := pretty id.

(** The loop over the catalog; [position] is the index plus one. *)
Fixpoint insertChildren (now : instant) (parentID position : Z) (jobs : list JobDefinition)
    (from to : CalendarDate) (requestedBy : option Z) : Tx db unit :=
  match jobs with
  | [] => tx_ret tt
  | job :: rest =>
      let* parameters := tx_lift (parametersForJob job from to) in
      insertRun now KindRunAllChild (Some parentID) (Some position) (j_key job) StatusPlanned parameters
        TriggerRunAll (id_string parentID) requestedBy ;;;
      insertChildren now parentID (position + 1) rest from to requestedBy
  end.

(** [parentOwner] is the random identity [NewOwnerID] draws. *)
Definition createRunAll (now : instant) (parentOwner : string) (from to : CalendarDate) (trigger : Trigger)
    (reference : string) (requestedBy : option Z) (auditRequester : option Requester) : Tx db Z :=
  let* parentParameters := tx_lift (NewRunAllRange from to) in
  let* parentID := insertRun now KindRunAllParent None None "" StatusRunning parentParameters trigger reference requestedBy in
  update_run parentID (has_status StatusRunning)
    (set_owner_id (Some parentOwner) ∘ set_claimed_at (Some now) ∘ set_heartbeat_at (Some now) ∘ set_started_at (Some now)) ;;;
  insertChildren now parentID 1 (Jobs theCatalog) from to requestedBy ;;;
  match auditRequester with
  | Some requester =>
      appendRunAudit now requester ActionIngestionRunAllSubmitted parentID
        (Some (IngestionSubmissionMetadata "" (date_string from) (date_string to)))
  | None => tx_ret tt
  end ;;;
  tx_ret parentID.

Definition CreateRunAll (now : instant) (parentOwner : string) (from to : CalendarDate) (trigger : Trigger)
    (reference : string) (requester : option Z) : Tx db Z :=
  createRunAll now parentOwner from to trigger reference requester None.
Definition CreateRunAllManual (now : instant) (parentOwner : string) (from to : CalendarDate) (trigger : Trigger)
    (reference : string) (requester : Requester) : Tx db Z :=
  createRunAll now parentOwner from to trigger reference (Some (UserID (Actor requester))) (Some requester).

(** ** Claiming and owning a run *)

Definition queued (r : run_row) : bool := executable (run_kind r) && has_status StatusQueued r.

(** [ORDER BY created_at, id] *)
Definition older (r s : run_row) : bool :=
  (run_created_at r <? run_created_at s) ||
  ((run_created_at r =? run_created_at s) && (run_id r <? run_id s)).

(** [locked]: the rows other transactions hold, which SKIP LOCKED passes
    over. *)
Definition Claim (now : instant) (locked : run_row → bool) (ownerID : string) : Tx db (option Run) :=
  if negb (Nat.eqb (String.length ownerID) 64) then tx_fail (Errorf "opaque owner identity is required") else
  let* settings := tx_gets runtime_settings in
  match settings with
  | None => tx_fail ErrNoRows
  | Some settings =>
      if negb (ValidRuntimeLimit (MaxRunningJobs settings)) then tx_fail (Errorf "invalid ingestion max_running_jobs") else
      let* running := runningJobs in
      if MaxRunningJobs settings <=? running then tx_ret None else
      let* candidate := tx_gets (λ d, select_first older (λ r, queued r && negb (locked r)) (ingestion_runs d)) in
      match candidate with
      | None => tx_ret None
      | Some r =>
          let id := run_id r in
          let* affected := update_run id (has_status StatusQueued)
            (λ r, set_run_status StatusRunning (set_owner_id (Some ownerID) (set_claimed_at (Some now)
              (set_heartbeat_at (Some now)
                (set_started_at (Some (match started_at r with Some t => t | None => now end)) r))))) in
          if negb (affected =? 1) then tx_fail ErrTransition
          else let* run := getRun id in tx_ret (Some run)
      end
  end.

(** [status='running' AND owner_id=?] *)
Definition owned_by (ownerID : string) (r : run_row) : bool :=
  has_status StatusRunning r && bool_decide (owner_id r = Some ownerID).

Definition Heartbeat (now : instant) (runID : Z) (ownerID : string) : Tx db (bool * bool) :=
  update_run runID (λ r, executable (run_kind r) && owned_by ownerID r) (set_heartbeat_at (Some now)) ;;;
  let* row := tx_gets (λ d, ingestion_runs d !! runID) in
  match row with
  | Some r => if owned_by ownerID r then tx_ret (true, isSome (cancel_requested_at r)) else tx_ret (false, false)
  | None => tx_ret (false, false)
  end.

Definition UpdateProgress (runID : Z) (ownerID : string) (progress : Progress)
    (diagnostics : option MapperDiagnostics) : Tx db unit :=
  let* encoded := match diagnostics with
                  | Some d => let* data := tx_lift (Marshal d) in tx_ret (Some data)
                  | None => tx_ret None
                  end in
  let* affected := update_run runID (owned_by ownerID)
    (λ r, set_run_progress progress
            (set_mapper_diagnostics (match encoded with Some data => Some data | None => mapper_diagnostics r end) r)) in
  if affected =? 1 then tx_ret tt else
  let* owned := tx_gets (λ d, match ingestion_runs d !! runID with Some r => owned_by ownerID r | None => false end) in
  tx_guard owned ErrOwnershipLost.

Definition FreezeSnapshotDate (runID : Z) (ownerID : string) (date : CalendarDate) : Tx db unit :=
  if IsZero date then tx_fail (Errorf "snapshot date is required") else
  let* affected := update_run runID (λ r, owned_by ownerID r && negb (isSome (snapshot_date r)))
    (set_snapshot_date (Some date)) in
  tx_guard (affected =? 1) ErrOwnershipLost.

(** ** Finishing *)

Definition finish (now : instant) (runID : Z) (ownerID : string) (status : Status) (safeError : SafeError) : Tx db unit :=
  let* affected := update_run runID
    (λ r, owned_by ownerID r &&
          (if bool_decide (status = StatusSucceeded) then negb (isSome (cancel_requested_at r)) else true))
    (set_run_status status ∘ set_run_error safeError ∘ set_finished_at (Some now)) in
  tx_guard (affected =? 1) ErrTransition.

Definition Finish (now : instant) (runID : Z) (ownerID : string) (status : Status) (safeError : SafeError) : Tx db unit :=
  match status with
  | StatusSucceeded | StatusFailed | StatusCancelled => finish now runID ownerID status safeError
  | _ => tx_fail (Errorf "invalid executable terminal status")
  end.

Definition FinishSucceededInTx (now : instant) (runID : Z) (ownerID : string) : Tx db unit :=
  finish now runID ownerID StatusSucceeded no_error.

(** ** Recovery of stale runs *)

Record Recovery := mkRecovery {
  rec_run : Z; rec_parent : Z; rec_kind : Kind; rec_job : string; rec_previous_owner : string;
  rec_previous_heartbeat : instant; rec_new_owner : string }.

Definition stale (now lease : Z) (r : run_row) : bool :=
  has_status StatusRunning r && isSome (owner_id r) &&
  match heartbeat_at r with Some h => h <? now - lease | None => false end.

(** [ORDER BY heartbeat_at, id] *)
Definition longer_silent (r s : run_row) : bool :=
  match heartbeat_at r, heartbeat_at s with
  | Some h, Some k => (h <? k) || ((h =? k) && (run_id r <? run_id s))
  | None, Some _ => true
  | Some _, None => false
  | None, None => run_id r <? run_id s
  end.

(** The exact compare-and-swap guard of both recovery updates. *)
Definition still_stale (now lease : Z) (candidate r : run_row) : bool :=
  has_status StatusRunning r && bool_decide (owner_id r = owner_id candidate) &&
  bool_decide (heartbeat_at r = heartbeat_at candidate) &&
  match heartbeat_at r with Some h => h <? now - lease | None => false end.

Definition abandoned_error (message : string) (step : option string) : SafeError :=
  mkSafeError (Some "abandoned") (Some message) step.
Definition abandon (now : instant) (error : SafeError) (r : run_row) : run_row :=
  set_run_status StatusAbandoned (set_run_error error
    (set_previous_owner (owner_id r) (set_previous_heartbeat (heartbeat_at r) (set_finished_at (Some now) r)))).

(** The maps [byPosition] and [byJob] of the existing children, refused when
    one is not at its catalog position. *)
Fixpoint index_children (jobs : list JobDefinition) (existing : list run_row)
    (byPosition : gmap Z string) (byJob : gmap string Z) : result (gmap Z string * gmap string Z) :=
  match existing with
  | [] => Ok (byPosition, byJob)
  | child :: rest =>
      match child_position child, run_job_key child with
      | Some position, Some key =>
          match (if position =? 0 then None else jobs !! Z.to_nat (position - 1)) with
          | Some job =>
              if (j_key job =? key)%string
              then index_children jobs rest (<[position := key]> byPosition) (<[key := position]> byJob)
              else Err (Errorf "Run All child identity is not canonical")
          | None => Err (Errorf "Run All child identity is not canonical")
          end
      | _, _ => Err (Errorf "sql: Scan error: converting NULL is unsupported")
      end
  end.

Fixpoint insertMissing (now : instant) (parentID position : Z) (jobs : list JobDefinition) (from to : CalendarDate)
    (requester : option Z) (byPosition : gmap Z string) (byJob : gmap string Z) : Tx db unit :=
  match jobs with
  | [] => tx_ret tt
  | job :: rest =>
      let at_position := byPosition !! position in
      if match at_position with Some existing => negb (existing =? j_key job)%string | None => false end
      then tx_fail (Errorf "Run All child position is taken")
      else if match byJob !! j_key job with Some existing => negb (existing =? position) | None => false end
      then tx_fail (Errorf "Run All child has another position")
      else
        (match at_position with
         | Some _ => tx_ret tt
         | None =>
             let* parameters := tx_lift (parametersForJob job from to) in
             insertRun now KindRunAllChild (Some parentID) (Some position) (j_key job) StatusPlanned parameters
               TriggerRunAll (id_string parentID) requester ;;;
             tx_ret tt
         end) ;;;
        insertMissing now parentID (position + 1) rest from to requester byPosition byJob
  end.

Definition child_of (parentID : Z) (r : run_row) : bool := bool_decide (parent_run_id r = Some parentID).

Definition ensureRunAllChildren (now : instant) (parentID : Z) : Tx db unit :=
  let* parent := getRun parentID in
  let* range := tx_lift (DecodeRange (RunParameters parent)) in
  let* existing := tx_gets (λ d, select (child_of parentID) (ingestion_runs d)) in
  let* maps := tx_lift (index_children (Jobs theCatalog) existing ∅ ∅) in
  insertMissing now parentID 1 (Jobs theCatalog) (r_from range) (r_to range) (RequestedByUserID parent) maps.1 maps.2.

Definition recovery_of (r : run_row) (newOwner : string) : Recovery :=
  mkRecovery (run_id r) (match parent_run_id r with Some p => p | None => 0 end) (run_kind r)
    (or_empty (run_job_key r)) (or_empty (owner_id r))
    (match heartbeat_at r with Some h => h | None => zero_time end) newOwner.

(** The part of a recovery transaction after its candidate was read:
    [None] when the compare-and-swap found the row changed. *)
Definition recover_candidate (now lease : Z) (replacementOwner : string) (candidate : run_row) : Tx db (option Recovery) :=
  match run_kind candidate with
  | KindRunAllParent =>
      let* affected := update_run (run_id candidate)
        (λ r, bool_decide (run_kind r = KindRunAllParent) && still_stale now lease candidate r)
        (set_owner_id (Some replacementOwner) ∘ set_claimed_at (Some now) ∘ set_heartbeat_at (Some now)) in
      if negb (affected =? 1) then tx_ret None else
      ensureRunAllChildren now (run_id candidate) ;;;
      tx_ret (Some (recovery_of candidate replacementOwner))
  | _ =>
      let* affected := update_run (run_id candidate) (still_stale now lease candidate)
        (abandon now (abandoned_error "Worker ownership expired; stale execution recovered automatically." (Some "ownership_lease"))) in
      if negb (affected =? 1) then tx_ret None else
      tx_ret (Some (recovery_of candidate ""))
  end.

(** One transaction of the loop.  [race] is what other connections commit
    between its SELECT, which takes no lock, and its UPDATE; it stays when
    the transaction is rolled back.  The result says whether a candidate was
    seen and what was recovered. *)
Definition recover_step (now lease : Z) (race : db → db) (replacementOwner : string) (d : db) :
    result (bool * option Recovery) * db :=
  match select_first longer_silent (stale now lease) (ingestion_runs d) with
  | None => (Ok (false, None), d)
  | Some candidate =>
      match runTx (recover_candidate now lease replacementOwner candidate) (race d) with
      | (Ok recovered, d') => (Ok (true, recovered), d')
      | (Err e, d') => (Err e, d')
      end
  end.

(** The [for] loop; [races] are the interferences of the successive
    iterations. *)
Fixpoint recover_loop (now lease : Z) (races : list (db → db)) (replacementOwner : string) (d : db) :
    option (result (option Recovery) * db) :=
  match races with
  | [] => None
  | race :: races' =>
      match recover_step now lease race replacementOwner d with
      | (Err e, d') => Some (Err e, d')
      | (Ok (seen, recovered), d') =>
          if isSome recovered || negb seen then Some (Ok recovered, d')
          else recover_loop now lease races' replacementOwner d'
      end
  end.

Definition RecoverOneStale (now lease : Z) (races : list (db → db)) (replacementOwner : string) (d : db) :
    option (result (option Recovery) * db) :=
  if (lease <=? 0) || negb (Nat.eqb (String.length replacementOwner) 64)
  then Some (Err (Errorf "lease and replacement owner are required"), d)
  else recover_loop now lease races replacementOwner d.

(** ** Cancellation and operator recovery *)

Definition safeText (value : string) (limit : nat) : string := blanked limit (trim_space value).

Definition cancel_request (now : instant) (reason : string) : run_row → run_row :=
  set_cancel_requested_at (Some now) ∘ set_cancel_reason (nullable reason).
Definition cancelled_now (now : instant) (reason : string) : run_row → run_row :=
  set_run_status StatusCancelled ∘ set_finished_at (Some now) ∘ cancel_request now reason.

Definition waiting (status : Status) : bool :=
  match status with StatusPlanned | StatusQueued => true | _ => false end.

Definition RequestCancellation (now : instant) (runID : Z) (reason : string) (requester : Requester) : Tx db bool :=
  let reason := safeText reason 255 in
  let* row := tx_gets (λ d, ingestion_runs d !! runID) in
  match row with
  | None => tx_fail ErrNoRows
  | Some row =>
      if IsTerminal (run_status row) then tx_ret false else
      (if bool_decide (run_kind row = KindRunAllParent) then
         update_run runID (λ _, true) (cancel_request now reason) ;;;
         update_runs (λ r, child_of runID r && waiting (run_status r)) (cancelled_now now reason) ;;;
         update_runs (λ r, child_of runID r && has_status StatusRunning r) (cancel_request now reason)
       else if waiting (run_status row) then update_run runID (λ _, true) (cancelled_now now reason)
       else update_run runID (λ _, true) (cancel_request now reason)) ;;;
      appendRunAudit now requester ActionIngestionCancellationRequested runID None ;;;
      tx_ret true
  end.

Definition RecoverAbandoned (now : instant) (runID : Z) (expectedOwner : string) (expectedHeartbeat : instant)
    (reason : string) (requester : Requester) : Tx db unit :=
  let reason := safeText reason 500 in
  if (expectedOwner =? "")%string || (expectedHeartbeat =? zero_time) || (reason =? "")%string
  then tx_fail (Errorf "exact owner, heartbeat, and recovery reason are required") else
  let* affected := update_run runID
    (λ r, owned_by expectedOwner r && bool_decide (heartbeat_at r = Some expectedHeartbeat))
    (λ r, abandon now (mkSafeError (Some "abandoned") (Some reason) (Step_ (run_error r))) r) in
  if negb (affected =? 1) then tx_fail ErrTransition else
  appendRunAudit now requester ActionIngestionAbandonedRecovered runID None.

(** ** Run All reconciliation *)

Definition active_child (parentID : Z) (r : run_row) : bool := child_of parentID r && active (run_status r).

Definition by_position (r s : run_row) : bool :=
  match child_position r, child_position s with
  | Some p, Some q => p <? q
  | None, Some _ => true
  | _, None => false
  end.
Definition by_id (r s : run_row) : bool := run_id r <? run_id s.

(** [aggregateParentStatus] *)
Definition parent_status (d : db) (parentID : Z) : Status :=
  let counted status := count (λ r, child_of parentID r && has_status status r) (ingestion_runs d) in
  if 0 <? counted StatusFailed + counted StatusCancelled + counted StatusAbandoned then StatusFailed
  else if 0 <? counted StatusSkipped then StatusCompletedWithSkips
  else StatusCompleted.
Definition aggregateParentStatus (parentID : Z) : Tx db Status := tx_gets (λ d, parent_status d parentID).

Definition skip_child (now : instant) (childID : Z) (reason : string) : Tx db unit :=
  update_run childID (λ _, true)
    (set_run_status StatusSkipped ∘ set_skip_reason (Some reason) ∘ set_finished_at (Some now)) ;;;
  tx_ret tt.

(** The parent the transaction locks: the exact owned one, or the first
    running parent without an active child. *)
Definition find_parent (locked : run_row → bool) (exactID : Z) (exactOwner : string) (d : db) : option run_row :=
  if negb (exactID =? 0) then
    match ingestion_runs d !! exactID with
    | Some r => if bool_decide (run_kind r = KindRunAllParent) && owned_by exactOwner r then Some r else None
    | None => None
    end
  else select_first by_id
    (λ r, bool_decide (run_kind r = KindRunAllParent) && has_status StatusRunning r &&
          negb (0 <? count (active_child (run_id r)) (ingestion_runs d)) && negb (locked r)) (ingestion_runs d).

Definition finish_parent (now : instant) (parentID : Z) (owner : string) (status : Status) : Tx db bool :=
  update_run parentID (owned_by owner) (set_run_status status ∘ set_finished_at (Some now)) ;;;
  tx_ret true.

(** Queue the next planned child, or skip it. *)
Definition advance_child (now : instant) (child : run_row) : Tx db bool :=
  let* enabled := sourceEnabled (or_empty (run_job_key child)) in
  (if negb enabled then skip_child now (run_id child) "source_disabled"
   else
     let* queued := tx_try (update_run (run_id child) (has_status StatusPlanned) (set_run_status StatusQueued)) in
     match queued with
     | Ok _ => tx_ret tt
     | Err e => if duplicate e then skip_child now (run_id child) "job_busy" else tx_fail e
     end) ;;;
  tx_ret true.

Definition reconcileParentTransaction (now : instant) (locked : run_row → bool) (exactID : Z) (exactOwner : string) : Tx db bool :=
  let* parent := tx_gets (find_parent locked exactID exactOwner) in
  match parent with
  | None => if negb (exactID =? 0) then tx_fail ErrOwnershipLost else tx_ret false
  | Some parent =>
      let parentID := run_id parent in
      let owner := or_empty (owner_id parent) in
      if (owner =? "")%string then tx_fail (Errorf "Run All parent has no owner") else
      update_run parentID (owned_by owner) (set_heartbeat_at (Some now)) ;;;
      let* row := tx_gets (λ d, ingestion_runs d !! parentID) in
      match row with
      | None => tx_fail ErrNoRows
      | Some row =>
          let* active := tx_gets (λ d, count (active_child parentID) (ingestion_runs d)) in
          if 0 <? active then tx_ret false
          else if isSome (cancel_requested_at row) then finish_parent now parentID owner StatusCancelled
          else
            let* child := tx_gets (λ d, select_first by_position
              (λ r, child_of parentID r && has_status StatusPlanned r) (ingestion_runs d)) in
            match child with
            | None => let* status := aggregateParentStatus parentID in finish_parent now parentID owner status
            | Some child => advance_child now child
            end
      end
  end.

Definition ReconcileOneParent (now : instant) (locked : run_row → bool) : Tx db bool :=
  reconcileParentTransaction now locked 0 "".
Definition ReconcileParent (now : instant) (parentID : Z) (ownerID : string) : Tx db bool :=
  if (parentID =? 0) || negb (Nat.eqb (String.length ownerID) 64)
  then tx_fail (Errorf "exact Run All parent ownership is required")
  else reconcileParentTransaction now (λ _, false) parentID ownerID.

(** ** Every operation keeps the schema *)

Lemma preserves_update_run_const id cond (set : run_row → run_row) :
  (∀ r, run_identity (set r) = run_identity r) → preserves schema (update_run id cond set).
Proof. intros H. apply preserves_update_run. auto. Qed.

#[export] Hint Extern 1 (preserves schema (update_run _ _ _)) =>
  (apply preserves_update_run_const; intros; reflexivity) : tx.
#[export] Hint Extern 1 (preserves schema (insert_run _)) =>
  (apply preserves_insert_run; intros; reflexivity) : tx.

Lemma preserves_insertRun now kind parent position key status parameters trigger reference requester :
  preserves schema (insertRun now kind parent position key status parameters trigger reference requester).
Proof. unfold insertRun. auto with tx. Qed.
Lemma preserves_appendRunAudit now requester action id metadata :
  preserves schema (appendRunAudit now requester action id metadata).
Proof. unfold appendRunAudit. auto with tx. Qed.
#[export] Hint Resolve preserves_insertRun preserves_appendRunAudit : tx.

Lemma preserves_getRun id : preserves schema (getRun id).
Proof. unfold getRun. tx_preserves. Qed.
Lemma preserves_sourceEnabled key : preserves schema (sourceEnabled key).
Proof. unfold sourceEnabled. tx_preserves. Qed.
Lemma preserves_sourceReady key : preserves schema (sourceReady key).
Proof. unfold sourceReady. tx_preserves. Qed.
#[export] Hint Resolve preserves_getRun preserves_sourceEnabled preserves_sourceReady : tx.

Lemma preserves_submitInTx now key parameters trigger reference requester auth :
  preserves schema (submitInTx now key parameters trigger reference requester auth).
Proof. unfold submitInTx. tx_preserves. Qed.
#[export] Hint Resolve preserves_submitInTx : tx.
Lemma preserves_submit now key parameters trigger reference by_ requester auth :
  preserves schema (submit now key parameters trigger reference by_ requester auth).
Proof. unfold submit. tx_preserves. Qed.

Lemma preserves_insertChildren now parent position jobs from to by_ :
  preserves schema (insertChildren now parent position jobs from to by_).
Proof. revert position. induction jobs as [|job jobs IH]; intros position; simpl; tx_preserves. Qed.
#[export] Hint Resolve preserves_insertChildren : tx.
Lemma preserves_createRunAll now owner from to trigger reference by_ requester :
  preserves schema (createRunAll now owner from to trigger reference by_ requester).
Proof. unfold createRunAll. generalize (Jobs theCatalog). intros jobs. tx_preserves. Qed.

Lemma preserves_UpdateRuntimeSettings now expected target requester :
  preserves schema (UpdateRuntimeSettings now expected target requester).
Proof. unfold UpdateRuntimeSettings, runtimeSettings. tx_preserves. Qed.

Lemma preserves_Claim now locked owner : preserves schema (Claim now locked owner).
Proof. unfold Claim, runningJobs. tx_preserves. Qed.
Lemma preserves_Heartbeat now id owner : preserves schema (Heartbeat now id owner).
Proof. unfold Heartbeat. tx_preserves. Qed.
Lemma preserves_UpdateProgress id owner progress diagnostics :
  preserves schema (UpdateProgress id owner progress diagnostics).
Proof. unfold UpdateProgress. tx_preserves. Qed.
Lemma preserves_FreezeSnapshotDate id owner date : preserves schema (FreezeSnapshotDate id owner date).
Proof. unfold FreezeSnapshotDate. tx_preserves. Qed.
Lemma preserves_finish now id owner status error : preserves schema (finish now id owner status error).
Proof. unfold finish. tx_preserves. Qed.
#[export] Hint Resolve preserves_finish : tx.
Lemma preserves_Finish now id owner status error : preserves schema (Finish now id owner status error).
Proof. unfold Finish. tx_preserves. Qed.

Lemma preserves_insertMissing now parent position jobs from to requester byPosition byJob :
  preserves schema (insertMissing now parent position jobs from to requester byPosition byJob).
Proof. revert position. induction jobs as [|job jobs IH]; intros position; simpl; tx_preserves. Qed.
#[export] Hint Resolve preserves_insertMissing : tx.
Lemma preserves_ensureRunAllChildren now parent : preserves schema (ensureRunAllChildren now parent).
Proof. unfold ensureRunAllChildren. generalize (Jobs theCatalog). intros jobs. tx_preserves. Qed.
#[export] Hint Resolve preserves_ensureRunAllChildren : tx.
Lemma preserves_recover_candidate now lease owner candidate :
  preserves schema (recover_candidate now lease owner candidate).
Proof. unfold recover_candidate. tx_preserves. Qed.

Lemma quiet_cancelled now reason parent :
  quiet (λ r, child_of parent r && waiting (run_status r)) (cancelled_now now reason).
Proof.
  intros r _. split; [done|]. split; [done|]. left. unfold active_job_key. by destruct (run_kind _).
Qed.
Lemma quiet_cancel_request now reason cond : quiet cond (cancel_request now reason).
Proof. intros r _. split; [done|]. split; [done|]. by right. Qed.
#[export] Hint Resolve preserves_update_runs quiet_cancelled quiet_cancel_request : tx.

Lemma preserves_RequestCancellation now id reason requester :
  preserves schema (RequestCancellation now id reason requester).
Proof. unfold RequestCancellation. tx_preserves. Qed.
Lemma preserves_RecoverAbandoned now id owner heartbeat reason requester :
  preserves schema (RecoverAbandoned now id owner heartbeat reason requester).
Proof. unfold RecoverAbandoned. tx_preserves. Qed.
Lemma preserves_reconcile now locked id owner : preserves schema (reconcileParentTransaction now locked id owner).
Proof. unfold reconcileParentTransaction, advance_child, finish_parent, aggregateParentStatus, skip_child. tx_preserves. Qed.
