(* ===== verification/RunLifecycle.v ===== *)
(** * The life of a run

    The state machine the repository drives: which statuses follow which,
    that finished rows are never written again, who may write a running row,
    and how many runs are admitted.  [repository_step] collects every
    operation of Runs.v; the invariants hold along any sequence of them. *)

From S2P Require Import Prelude Calendar Json Hash Catalog Params Access AuditTrail Table Store Schema DetailShapes Diagnostics Runs.

Open Scope Z_scope.

(** ** Statuses *)

(** The statuses reachable from one, itself included: a run waits as
    planned or queued, runs, and ends; only a planned child is skipped. *)
Definition may_become (s s' : Status) : bool :=
  bool_decide (s = s') ||
  match s with
  | StatusPlanned => true
  | StatusQueued => negb (bool_decide (s' = StatusPlanned)) && negb (bool_decide (s' = StatusSkipped))
  | StatusRunning =>
      match s' with StatusPlanned | StatusQueued | StatusSkipped => false | _ => true end
  | _ => false
  end.

Lemma may_become_refl s : may_become s s = true.
Proof. by destruct s. Qed.
Lemma may_become_trans a b c : may_become a b = true → may_become b c = true → may_become a c = true.
Proof. destruct a, b, c; done. Qed.
Lemma may_become_terminal s s' : IsTerminal s = true → may_become s s' = true → s' = s.
Proof. destruct s, s'; done. Qed.

(** A running job keeps its owner: only Run All parents are taken over. *)
Definition owner_kept (r r' : run_row) : Prop :=
  executable (run_kind r) = true → run_status r = StatusRunning → run_status r' = StatusRunning → owner_id r' = owner_id r.

(** How a row may change: its identity stays, its status moves forward, a
    finished row stays as it is and a running job keeps its owner. *)
Definition row_step (r r' : run_row) : Prop :=
  run_identity r' = run_identity r ∧ may_become (run_status r) (run_status r') = true ∧
  (IsTerminal (run_status r) = true → r' = r) ∧ owner_kept r r'.

Lemma row_step_refl r : row_step r r.
Proof. split; [done|]. split; [apply may_become_refl|done]. Qed.
Lemma row_step_trans a b c : row_step a b → row_step b c → row_step a c.
Proof.
  intros (Hi & Hm & Ht & Ho) (Hi' & Hm' & Ht' & Ho'). split; [congruence|]. split; [by eapply may_become_trans|]. split.
  - intros H. specialize (Ht H). subst b. auto.
  - intros Hk Ha Hc. rewrite Ha in Hm. rewrite Hc in Hm'. assert (run_status b = StatusRunning) as Hb by (by destruct (run_status b)).
    rewrite Ho', Ho; try done. unfold run_identity in Hi. by assert (run_kind b = run_kind a) as -> by congruence.
Qed.

(** The queued or running children of a Run All parent. *)
Definition actives (parentID : Z) (d : db) : Z := count (active_child parentID) (ingestion_runs d).

(** Rows stay, each makes a [row_step], and no parent comes to have more
    than one active child. *)
Record lifecycle (d d' : db) : Prop := {
  l_schema : schema d';
  l_rows : ∀ i r, ingestion_runs d !! i = Some r → ∃ r', ingestion_runs d' !! i = Some r' ∧ row_step r r';
  l_actives : ∀ p, actives p d' <= Z.max 1 (actives p d) }.

Definition moves_at {A} (m : Tx db A) (d : db) : Prop := ∀ a d', m d = Ok (a, d') → lifecycle d d'.
Definition moves {A} (m : Tx db A) : Prop := ∀ d, schema d → moves_at m d.

Lemma lifecycle_same d d' : schema d' → ingestion_runs d' = ingestion_runs d → lifecycle d d'.
Proof.
  intros Hs He. split; [done| |].
  - intros i r Hr. exists r. rewrite He. split; [done|apply row_step_refl].
  - intros p. unfold actives. rewrite He. lia.
Qed.
Lemma lifecycle_trans a b c : lifecycle a b → lifecycle b c → lifecycle a c.
Proof.
  intros [_ H1 A1] [Hs H2 A2]. split; [done| |].
  - intros i r Hr. destruct (H1 _ _ Hr) as (r1 & Hr1 & S1).
    destruct (H2 _ _ Hr1) as (r2 & Hr2 & S2). eauto using row_step_trans.
  - intros p. specialize (A1 p). specialize (A2 p). lia.
Qed.

(** *** Statements *)

Lemma moves_readonly {A} (m : Tx db A) : readonly m → moves m.
Proof. intros Hm d Hd a d' H. rewrite (Hm _ _ _ H) in *. by apply lifecycle_same. Qed.
Lemma moves_ret {A} (a : A) : moves (tx_ret a).
Proof. apply moves_readonly. intros d x d' [= _ <-]. done. Qed.
Lemma moves_fail {A} e : moves (@tx_fail db A e).
Proof. intros d Hd a d' [=]. Qed.
Lemma moves_gets {A} (f : db → A) : moves (tx_gets f).
Proof. apply moves_readonly. intros d x d' [= _ <-]. done. Qed.
Lemma moves_lift {A} (m : result A) : moves (tx_lift m).
Proof. apply moves_readonly. by intros d x d' (? & _ & [= _ ->])%tx_lift_Ok. Qed.
Lemma moves_guard b e : moves (tx_guard b e).
Proof. apply moves_readonly. by intros d x d' [_ [= _ ->]]%tx_guard_Ok. Qed.
Lemma moves_at_bind {A B} (m : Tx db A) (k : A → Tx db B) d :
  moves_at m d → (∀ a d', m d = Ok (a, d') → lifecycle d d' → moves_at (k a) d') → moves_at (tx_bind m k) d.
Proof.
  intros Hm Hk b d' (a & d1 & H1 & H2)%tx_bind_Ok.
  eapply lifecycle_trans; [by eapply Hm|]. eapply Hk; eauto.
Qed.
Lemma moves_bind {A B} (m : Tx db A) (k : A → Tx db B) : moves m → (∀ a, moves (k a)) → moves (tx_bind m k).
Proof. intros Hm Hk d Hd. apply moves_at_bind; [by apply Hm|]. intros a d' _ [Hs _ _]. by apply Hk. Qed.
Lemma moves_try {A} (m : Tx db A) : moves m → moves (tx_try m).
Proof.
  intros Hm d Hd a d'. unfold tx_try. destruct (m d) as [[x d1]|e] eqn:E; intros [= _ <-];
    [by eapply Hm|by apply lifecycle_same].
Qed.

Lemma active_child_identity p r r' : run_identity r' = run_identity r →
  active_child p r' = bool_decide (parent_run_id r = Some p) && active (run_status r').
Proof. unfold run_identity, active_child, child_of. by intros [= _ _ -> _ _ _ _ _ _ _]. Qed.

(** An assignment may activate a run only when its parent has no active
    child. *)
Definition may_activate (d : db) (r r' : run_row) : Prop :=
  active (run_status r') = true → active (run_status r) = true ∨
    ∀ p, parent_run_id r = Some p → actives p d = 0.

Lemma may_activate_same d (r r' : run_row) : run_status r' = run_status r → may_activate d r r'.
Proof. intros He Ha. left. by rewrite <- He. Qed.
Lemma may_activate_none d (r r' : run_row) : active (run_status r') = false → may_activate d r r'.
Proof. intros He Ha. by rewrite He in Ha. Qed.

Lemma moves_at_update id cond set d : schema d →
  (∀ r, run_identity (set r) = run_identity r) →
  (∀ r, ingestion_runs d !! id = Some r → cond r = true → row_step r (set r) ∧ may_activate d r (set r)) →
  moves_at (update_run id cond set) d.
Proof.
  intros Hd Hid Hstep n d' H. pose proof (preserves_update_run_const id cond set Hid _ _ _ Hd H) as Hd'.
  apply update_one_Ok in H as [(-> & r & Hr & Hc & _ & _ & ->)|(_ & -> & _)]; [|by apply lifecycle_same].
  destruct (Hstep r Hr Hc) as [Hs Ha]. split; [done| |].
  - intros i s Hsi. cbn. destruct (decide (i = id)) as [->|Hne].
    + rewrite lookup_insert_eq. assert (s = r) as -> by congruence. eauto.
    + rewrite lookup_insert_ne by done. eauto using row_step_refl.
  - intros p. unfold actives. cbn. rewrite (count_put _ _ _ r) by done. fold (actives p d).
    rewrite (active_child_identity p r (set r)), (active_child_identity p r r) by auto.
    case_bool_decide as Hp; cbn [andb one_if]; [|lia]. unfold may_activate in Ha.
    destruct (active (run_status (set r))); cbn [one_if]; [|destruct (active _); cbn [one_if]; lia].
    destruct (Ha eq_refl) as [->|H0]; cbn [one_if]; [lia|]. rewrite (H0 p Hp). destruct (active _); cbn; lia.
Qed.
Lemma moves_update id cond set : (∀ r, run_identity (set r) = run_identity r) →
  (∀ r, cond r = true → row_step r (set r)) →
  (∀ r, cond r = true → active (run_status (set r)) = true → active (run_status r) = true) →
  moves (update_run id cond set).
Proof. intros Hid Hstep Ha d Hd. apply moves_at_update; [done|done|]. split; [auto|]. intros H1. left. auto. Qed.

Lemma moves_updates cond set : quiet cond set → (∀ r, cond r = true → row_step r (set r)) →
  (∀ r, cond r = true → active (run_status (set r)) = true → active (run_status r) = true) →
  moves (update_runs cond set).
Proof.
  intros Hq Hstep Ha d Hd n d' H. pose proof (preserves_update_runs cond set Hq _ _ _ Hd H) as Hd'.
  unfold update_runs, update_all in H. injection H as _ <-. split; [done| |].
  - cbn. intros i r Hr. rewrite lookup_fmap, Hr. cbn. eexists. split; [done|].
    destruct (cond r) eqn:E; auto using row_step_refl.
  - intros p. unfold actives. cbn. etransitivity; [apply count_fmap_le|lia].
    intros r. destruct (cond r) eqn:E; [|done]. destruct (Hq r E) as (Hi & _ & _).
    rewrite (active_child_identity p r (set r)), (active_child_identity p r r) by done.
    intros [-> Hact]%andb_true_iff. by rewrite (Ha r E Hact).
Qed.

Lemma moves_insert row : (∀ id, run_id (row id) = id) → (∀ id p, active_child p (row id) = false) →
  moves (insert_run row).
Proof.
  intros Hid Hna d Hd n d' H. pose proof (preserves_insert_run row Hid _ _ _ Hd H) as Hd'.
  apply insert_one_Ok in H as (-> & _ & ->).
  assert (ingestion_runs d !! next_run_id d = None) as Hnone.
  { destruct (ingestion_runs d !! next_run_id d) as [r|] eqn:E; [|done].
    destruct (t_ids _ _ _ _ _ (runs_ok d Hd) _ _ E). lia. }
  split; [done| |].
  - intros i r Hr. cbn. rewrite lookup_insert_ne by congruence. eauto using row_step_refl.
  - intros p. unfold actives. cbn. rewrite count_cons, Hna by done. cbn. lia.
Qed.

Lemma moves_Append event : moves (Append event).
Proof.
  intros d Hd a d' H. apply lifecycle_same; [by eapply preserves_Append|].
  unfold Append in H. apply tx_bind_Ok in H as (row & d1 & (? & _ & [= _ ->])%tx_lift_Ok & H).
  cbn in H. unfold insert_audit_row in H. case_match; [done|]. by injection H as _ <-.
Qed.
Lemma moves_update_settings target : moves (update_settings target).
Proof.
  intros d Hd a d' H. apply lifecycle_same; [by eapply preserves_update_settings|].
  unfold update_settings in H. repeat case_match; try done; by injection H as _ <-.
Qed.

Create HintDb moves discriminated.
#[export] Hint Resolve moves_ret moves_fail moves_gets moves_lift moves_guard moves_Append moves_update_settings : moves.

Ltac tx_moves :=
  repeat first
    [ solve [eauto with moves]
    | apply moves_bind; [|intros ?]
    | apply moves_try
    | match goal with |- moves (match ?x with _ => _ end) => destruct x end ].

(** ** Guards of the repository's updates *)

(** A guard that asks for a running row allows every forward assignment
    that does not skip it. *)
Lemma row_step_running (set : run_row → run_row) r :
  has_status StatusRunning r = true → run_identity (set r) = run_identity r →
  may_become StatusRunning (run_status (set r)) = true →
  executable (run_kind r) = false ∨ owner_id (set r) = owner_id r → row_step r (set r).
Proof.
  unfold has_status. intros Hr%bool_decide_eq_true Hi Hm Ho. split; [done|]. rewrite Hr. split; [done|]. split; [done|].
  intros Hk _ _. destruct Ho; [congruence|done].
Qed.

Lemma owned_running owner r : owned_by owner r = true → has_status StatusRunning r = true ∧ owner_id r = Some owner.
Proof. unfold owned_by. by intros [? ?%bool_decide_eq_true]%andb_true_iff. Qed.
Lemma still_stale_running now lease c r : still_stale now lease c r = true → has_status StatusRunning r = true.
Proof. unfold still_stale. intros H. by apply andb_true_iff in H as [[[? _]%andb_true_iff _]%andb_true_iff _]. Qed.

(** ** Every operation moves rows forward *)

Lemma moves_insertRun now kind parent position key status parameters trigger reference requester :
  parent = None ∨ active status = false →
  moves (insertRun now kind parent position key status parameters trigger reference requester).
Proof.
  intros Hp. unfold insertRun. apply moves_insert; [done|]. intros id p. unfold active_child, child_of. cbn.
  destruct Hp as [->| ->]; [done|apply andb_false_r].
Qed.
#[export] Hint Extern 1 (moves (insertRun _ _ _ _ _ _ _ _ _ _)) =>
  (apply moves_insertRun; first [left; reflexivity | right; reflexivity]) : moves.
Lemma moves_appendRunAudit now requester action id metadata : moves (appendRunAudit now requester action id metadata).
Proof. unfold appendRunAudit. auto with moves. Qed.
Lemma moves_getRun id : moves (getRun id).
Proof. unfold getRun. tx_moves. Qed.
Lemma moves_sourceEnabled key : moves (sourceEnabled key).
Proof. unfold sourceEnabled. tx_moves. Qed.
Lemma moves_sourceReady key : moves (sourceReady key).
Proof. unfold sourceReady. tx_moves. Qed.
#[export] Hint Resolve moves_appendRunAudit moves_getRun moves_sourceEnabled moves_sourceReady : moves.

Lemma moves_submit now key parameters trigger reference by_ requester auth :
  moves (submit now key parameters trigger reference by_ requester auth).
Proof. unfold submit, submitInTx. tx_moves. Qed.
Lemma moves_submitInTx now key parameters trigger reference by_ auth :
  moves (submitInTx now key parameters trigger reference by_ auth).
Proof. unfold submitInTx. tx_moves. Qed.

Lemma moves_update_running id cond set : (∀ r, run_identity (set r) = run_identity r) →
  (∀ r, cond r = true → has_status StatusRunning r = true ∧ may_become StatusRunning (run_status (set r)) = true) →
  (∀ r, cond r = true → executable (run_kind r) = false ∨ owner_id (set r) = owner_id r) →
  moves (update_run id cond set).
Proof.
  intros Hi Hc Ho. apply moves_update; [done| |]; intros r Hr; destruct (Hc r Hr) as [Hs Hm]; [by apply row_step_running; auto|].
  unfold has_status in Hs. by apply bool_decide_eq_true in Hs as ->.
Qed.

Lemma moves_update_keep id cond (set : run_row → run_row) : (∀ r, run_identity (set r) = run_identity r) →
  (∀ r, cond r = true → has_status StatusRunning r = true) → (∀ r, run_status (set r) = run_status r) →
  (∀ r, cond r = true → executable (run_kind r) = false ∨ owner_id (set r) = owner_id r) →
  moves (update_run id cond set).
Proof.
  intros Hi Hc Hs Ho. apply moves_update_running; [done| |done]. intros r Hr. specialize (Hc r Hr). split; [done|].
  rewrite Hs. unfold has_status in Hc. apply bool_decide_eq_true in Hc as ->. done.
Qed.

Lemma moves_insertChildren now parent position jobs from to by_ :
  moves (insertChildren now parent position jobs from to by_).
Proof. revert position. induction jobs as [|job jobs IH]; intros position; simpl; tx_moves. Qed.
#[export] Hint Resolve moves_insertChildren : moves.
Lemma moves_createRunAll now owner from to trigger reference by_ requester :
  moves (createRunAll now owner from to trigger reference by_ requester).
Proof.
  unfold createRunAll. generalize (Jobs theCatalog). intros jobs. intros d Hd.
  apply moves_at_bind; [by apply moves_lift|]. intros parameters d1 _ [H1 _ _].
  apply moves_at_bind; [by apply moves_insertRun; [left|]|]. intros id d2 Hins [H2 _ _].
  apply moves_at_bind; [|intros ? d3 _ [H3 _ _]; revert H3; generalize d3; tx_moves].
  apply insert_one_Ok in Hins as (-> & _ & ->). apply moves_at_update; [done|done|].
  intros r Hr Hrun. cbn in Hr. rewrite lookup_insert_eq in Hr. injection Hr as <-. split; [|by apply may_activate_same].
  apply row_step_running; try done. by left.
Qed.

Lemma moves_UpdateRuntimeSettings now expected target requester : moves (UpdateRuntimeSettings now expected target requester).
Proof. unfold UpdateRuntimeSettings, runtimeSettings. tx_moves. Qed.

Lemma moves_Claim now locked owner : moves (Claim now locked owner).
Proof.
  unfold Claim, runningJobs.
  assert (∀ id, moves (update_run id (has_status StatusQueued)
     (λ r, set_run_status StatusRunning (set_owner_id (Some owner) (set_claimed_at (Some now)
        (set_heartbeat_at (Some now) (set_started_at (Some (match started_at r with Some t => t | None => now end)) r))))))).
  { intros id. apply moves_update; [done| |]; unfold has_status; intros r Hr%bool_decide_eq_true; [|by rewrite Hr].
    split; [done|]. rewrite Hr. split; [done|]. split; [done|]. intros _. congruence. }
  tx_moves.
Qed.

Lemma moves_Heartbeat now id owner : moves (Heartbeat now id owner).
Proof.
  unfold Heartbeat. apply moves_bind; [|intros; tx_moves].
  apply moves_update_keep; [done| |done|by right]. by intros r [_ [? _]%owned_running]%andb_true_iff.
Qed.
Lemma moves_UpdateProgress id owner progress diagnostics : moves (UpdateProgress id owner progress diagnostics).
Proof.
  unfold UpdateProgress. apply moves_bind; [tx_moves|]. intros encoded. apply moves_bind; [|intros; tx_moves].
  apply moves_update_keep; [done| |done|by right]. by intros r [? _]%owned_running.
Qed.
Lemma moves_FreezeSnapshotDate id owner date : moves (FreezeSnapshotDate id owner date).
Proof.
  unfold FreezeSnapshotDate. destruct (IsZero date); [tx_moves|]. apply moves_bind; [|intros; tx_moves].
  apply moves_update_keep; [done| |done|by right]. by intros r [[? _]%owned_running _]%andb_true_iff.
Qed.

Lemma moves_finish now id owner status error : may_become StatusRunning status = true →
  moves (finish now id owner status error).
Proof.
  intros Hm. unfold finish. apply moves_bind; [|intros; tx_moves]. apply moves_update_running; [done| |by right].
  intros r [[? _]%owned_running _]%andb_true_iff. done.
Qed.
Lemma moves_Finish now id owner status error : moves (Finish now id owner status error).
Proof. unfold Finish. destruct status; try (by apply moves_finish); apply moves_fail. Qed.

Lemma moves_insertMissing now parent position jobs from to requester byPosition byJob :
  moves (insertMissing now parent position jobs from to requester byPosition byJob).
Proof. revert position. induction jobs as [|job jobs IH]; intros position; simpl; tx_moves. Qed.
#[export] Hint Resolve moves_insertMissing : moves.
Lemma moves_ensureRunAllChildren now parent : moves (ensureRunAllChildren now parent).
Proof. unfold ensureRunAllChildren. generalize (Jobs theCatalog). intros jobs. tx_moves. Qed.
#[export] Hint Resolve moves_ensureRunAllChildren : moves.

Lemma moves_recover_candidate now lease owner candidate : moves (recover_candidate now lease owner candidate).
Proof.
  assert (∀ id error, moves (update_run id (still_stale now lease candidate) (abandon now error))).
  { intros id error. apply moves_update_running; [done| |by right]. intros r ?%still_stale_running. done. }
  assert (∀ id, moves (update_run id
    (λ r, bool_decide (run_kind r = KindRunAllParent) && still_stale now lease candidate r)
    (set_owner_id (Some owner) ∘ set_claimed_at (Some now) ∘ set_heartbeat_at (Some now)))).
  { intros id. apply moves_update_keep; [done| |done|].
    - by intros r [_ ?%still_stale_running]%andb_true_iff.
    - intros r [Hk%bool_decide_eq_true _]%andb_true_iff. left. by rewrite Hk. }
  unfold recover_candidate. tx_moves.
Qed.

Lemma moves_RecoverAbandoned now id owner heartbeat reason requester :
  moves (RecoverAbandoned now id owner heartbeat reason requester).
Proof.
  unfold RecoverAbandoned. destruct (_ || _); [tx_moves|]. apply moves_bind; [|intros; tx_moves].
  apply moves_update_running; [done| |by right]. by intros r [[? _]%owned_running _]%andb_true_iff.
Qed.

(** A row that is not finished may be asked to stop; a waiting one may be
    cancelled. *)
Lemma row_step_request now reason r : IsTerminal (run_status r) = false → row_step r (cancel_request now reason r).
Proof. intros Ht. split; [done|]. split; [apply may_become_refl|]. by rewrite Ht. Qed.
Lemma row_step_cancelled now reason r : waiting (run_status r) = true → row_step r (cancelled_now now reason r).
Proof. intros Hw. split; [done|]. unfold owner_kept. cbn. destruct (run_status r); done. Qed.
Lemma moves_RequestCancellation now id reason requester : moves (RequestCancellation now id reason requester).
Proof.
  intros d Hd. unfold RequestCancellation. apply moves_at_bind; [by apply moves_gets|].
  intros row d1 [= <- <-] _. destruct (ingestion_runs d !! id) as [row|] eqn:Hrow; [|by apply moves_fail].
  destruct (IsTerminal (run_status row)) eqn:Ht; [by apply moves_ret|].
  apply moves_at_bind; [|intros ? d1 _ [Hd1 _ _]; by apply (moves_bind _ _ (moves_appendRunAudit _ _ _ _ _) (λ _, moves_ret _))].
  case_bool_decide.
  - apply moves_at_bind.
    { apply moves_at_update; [done|done|]. intros r Hr _. assert (r = row) as -> by congruence.
      split; [by apply row_step_request|by apply may_activate_same]. }
    intros ? d1 _ [Hd1 _ _]. apply moves_bind; [| |done].
    + apply moves_updates; [apply quiet_cancelled| |done]. intros r [_ ?]%andb_true_iff. by apply row_step_cancelled.
    + intros _. apply moves_updates; [apply quiet_cancel_request| |done].
      intros r [_ Hr%bool_decide_eq_true]%andb_true_iff. apply row_step_request. by rewrite Hr.
  - destruct (waiting (run_status row)) eqn:Hw; apply moves_at_update; try done;
      intros r Hr _; assert (r = row) as -> by congruence.
    + split; [by apply row_step_cancelled|by apply may_activate_none].
    + split; [by apply row_step_request|by apply may_activate_same].
Qed.

Lemma sourceEnabled_Ok key d enabled d' : sourceEnabled key d = Ok (enabled, d') ↔
  d' = d ∧ ∃ source, source_settings d !! key = Some source ∧ src_enabled source = enabled.
Proof.
  unfold sourceEnabled, tx_bind, tx_gets. destruct (source_settings d !! key) as [source|].
  - unfold tx_ret. split; [intros [= <- <-]; eauto|]. by intros (-> & s & [= <-] & <-).
  - split; [done|]. by intros (_ & s & ? & _).
Qed.

Lemma moves_at_skip now d child reason : schema d →
  (∀ r, ingestion_runs d !! child = Some r → run_status r = StatusPlanned) →
  moves_at (skip_child now child reason) d.
Proof.
  intros Hd Hp. unfold skip_child. apply moves_at_bind; [|intros ? d' _ [? _ _]; by apply moves_ret].
  apply moves_at_update; [done|done|]. intros r Hr _. split; [|by apply may_activate_none].
  split; [done|]. rewrite (Hp r Hr). split; [done|]. split; [done|]. intros _. rewrite (Hp r Hr). done.
Qed.

Lemma moves_at_advance now child d : schema d → (∃ i, ingestion_runs d !! i = Some child) →
  run_status child = StatusPlanned → (∀ p, parent_run_id child = Some p → actives p d = 0) →
  moves_at (advance_child now child) d.
Proof.
  intros Hd [i Hi] Hp Hnone. assert (Hrow : ∀ r, ingestion_runs d !! run_id child = Some r → r = child).
  { destruct (t_ids _ _ _ _ _ (runs_ok d Hd) _ _ Hi) as [<- _]. congruence. }
  assert (Hskip : ∀ reason, moves_at (skip_child now (run_id child) reason) d).
  { intros reason. apply moves_at_skip; [done|]. intros r Hr. by rewrite (Hrow r Hr). }
  unfold advance_child. apply moves_at_bind; [by apply moves_sourceEnabled|].
  intros enabled d1 Hen _. assert (d1 = d) as ->.
  { by eapply sourceEnabled_Ok in Hen as [-> _]. }
  apply moves_at_bind; [|intros ? d' _ [? _ _]; by apply moves_ret].
  destruct enabled; cbn [negb]; [|apply Hskip].
  assert (moves_at (update_run (run_id child) (has_status StatusPlanned) (set_run_status StatusQueued)) d) as Hq.
  { apply moves_at_update; [done|done|]. intros r Hr _. rewrite (Hrow r Hr). split; [|right; apply Hnone].
    split; [done|]. rewrite Hp. split; [done|]. split; [done|]. intros _. rewrite Hp. done. }
  unfold tx_try. apply moves_at_bind.
  - intros a d' H. destruct (update_run _ _ _ d) as [[n d1]|e] eqn:E; injection H as _ <-;
      [by eapply Hq|by apply lifecycle_same].
  - intros [n|e] d1 H2 [Hd1 _ _]; [by apply moves_ret|]. destruct (duplicate e); [|by apply moves_fail].
    destruct (update_run _ _ _ d) as [[??]|?]; [done|]. injection H2 as _ <-. apply Hskip.
Qed.

Lemma moves_reconcile now locked id owner : moves (reconcileParentTransaction now locked id owner).
Proof.
  unfold reconcileParentTransaction. apply moves_bind; [apply moves_gets|]. intros [parent|]; [|destruct (id =? 0); tx_moves].
  destruct (_ =? "")%string; [tx_moves|]. apply moves_bind.
  { apply moves_update_keep; [done| |done|by right]. by intros r [? _]%owned_running. }
  intros _. apply moves_bind; [apply moves_gets|]. intros [row|]; [|tx_moves].
  assert (∀ status, may_become StatusRunning status = true →
    moves (finish_parent now (run_id parent) (or_empty (owner_id parent)) status)) as Hf.
  { intros status Hm. unfold finish_parent. apply moves_bind; [|intros; tx_moves].
    apply moves_update_running; [done| |by right]. by intros r [? _]%owned_running. }
  intros d Hd. apply moves_at_bind; [by apply moves_gets|]. intros n d1 [= <- <-] _.
  destruct (Z.ltb_spec 0 (count (active_child (run_id parent)) (ingestion_runs d))) as [?|Hz]; [by apply moves_ret|].
  destruct (isSome _); [by apply Hf|]. apply moves_at_bind; [by apply moves_gets|].
  intros child d1 [= <- <-] _. destruct (select_first _ _ _) as [child|] eqn:Hc.
  - apply select_first_Some in Hc as [[Hch%bool_decide_eq_true Hp%bool_decide_eq_true]%andb_true_iff Hi].
    apply moves_at_advance; try done. intros p Hpp. assert (p = run_id parent) as -> by congruence.
    pose proof (count_nonneg (active_child (run_id parent)) (ingestion_runs d)). unfold actives. lia.
  - apply moves_at_bind; [by apply moves_gets|]. intros status d1 [= <- <-] [Hd1 _ _]. apply Hf; [|done].
    unfold parent_status. by repeat case_match.
Qed.

(** ** The repository as a transition system

    Each constructor is one committed transaction; [step_recover] allows any
    candidate row, so it also covers a candidate read before other
    transactions committed. *)
Inductive repository_step : db → db → Prop :=
  | step_settings now expected target requester d a d' :
      UpdateRuntimeSettings now expected target requester d = Ok (a, d') → repository_step d d'
  | step_submit now key parameters trigger reference by_ requester auth d a d' :
      submit now key parameters trigger reference by_ requester auth d = Ok (a, d') → repository_step d d'
  | step_submit_in_tx now key parameters trigger reference requester d a d' :
      SubmitInTx now key parameters trigger reference requester d = Ok (a, d') → repository_step d d'
  | step_run_all now owner from to trigger reference by_ requester d a d' :
      createRunAll now owner from to trigger reference by_ requester d = Ok (a, d') → repository_step d d'
  | step_claim now locked owner d a d' : Claim now locked owner d = Ok (a, d') → repository_step d d'
  | step_heartbeat now id owner d a d' : Heartbeat now id owner d = Ok (a, d') → repository_step d d'
  | step_progress id owner progress diagnostics d a d' :
      UpdateProgress id owner progress diagnostics d = Ok (a, d') → repository_step d d'
  | step_freeze id owner date d a d' : FreezeSnapshotDate id owner date d = Ok (a, d') → repository_step d d'
  | step_finish now id owner status error d a d' :
      Finish now id owner status error d = Ok (a, d') → repository_step d d'
  | step_finish_in_tx now id owner d a d' : FinishSucceededInTx now id owner d = Ok (a, d') → repository_step d d'
  | step_recover now lease owner candidate d a d' :
      recover_candidate now lease owner candidate d = Ok (a, d') → repository_step d d'
  | step_cancel now id reason requester d a d' :
      RequestCancellation now id reason requester d = Ok (a, d') → repository_step d d'
  | step_abandon now id owner heartbeat reason requester d a d' :
      RecoverAbandoned now id owner heartbeat reason requester d = Ok (a, d') → repository_step d d'
  | step_reconcile now locked id owner d a d' :
      reconcileParentTransaction now locked id owner d = Ok (a, d') → repository_step d d'.

Lemma repository_step_lifecycle d d' : schema d → repository_step d d' → lifecycle d d'.
Proof.
  intros Hd H. destruct H as
    [????? a ? H|????????? a ? H|??????? a ? H|????????? a ? H|???? a ? H|???? a ? H|????? a ? H|???? a ? H
    |?????? a ? H|???? a ? H|????? a ? H|????? a ? H|??????? a ? H|????? a ? H];
    revert H; generalize a d'; apply (fun m (Hm : moves m) => Hm _ Hd);
    first [ apply moves_UpdateRuntimeSettings | apply moves_submit | apply moves_submitInTx
          | apply moves_createRunAll | apply moves_Claim | apply moves_Heartbeat | apply moves_UpdateProgress
          | apply moves_FreezeSnapshotDate | apply moves_Finish | by apply moves_finish
          | apply moves_recover_candidate | apply moves_RequestCancellation | apply moves_RecoverAbandoned
          | apply moves_reconcile ].
Qed.

Lemma lifecycle_refl d : schema d → lifecycle d d.
Proof. intros Hd. by apply lifecycle_same. Qed.

Lemma reachable_lifecycle d d' : schema d → rtc repository_step d d' → lifecycle d d'.
Proof.
  intros Hd H. induction H as [d|d d1 d' H1 _ IH]; [by apply lifecycle_refl|].
  pose proof (repository_step_lifecycle _ _ Hd H1) as Hl.
  eapply lifecycle_trans; [done|]. apply IH, Hl.
Qed.

(** ** Updates that cannot fail *)

Lemma set_ingestion_runs_id d : set_ingestion_runs (ingestion_runs d) d = d.
Proof. by destruct d. Qed.

(** Identity, checks and keys of [r'] are those of [r], or its active key
    is given up. *)
Definition harmless (r r' : run_row) : Prop :=
  run_identity r' = run_identity r ∧ run_check r' = run_check r ∧
  (active_job_key r' = None ∨ active_job_key r' = active_job_key r).

Lemma harmless_verdict d id r r' : schema d → ingestion_runs d !! id = Some r → harmless r r' →
  run_verdict d id r' = None.
Proof.
  intros Hd Hr (Hi & Hc & Ha). apply run_verdict_None. destruct (t_checks _ _ _ _ _ (runs_ok d Hd) _ _ Hr) as [Hk Href].
  split; [by rewrite Hc|]. split; [|by rewrite (run_references_identity d r' r)].
  apply conflicts_false. intros j s Hj Hne. eapply (run_clash_quiet r' r s s); try done; [by right|].
  by apply (t_unique _ _ _ _ _ (runs_ok d Hd) id j r s).
Qed.

Lemma update_run_applies d id r cond set : schema d → ingestion_runs d !! id = Some r → cond r = true →
  harmless r (set r) →
  update_run id cond set d =
    Ok (one_if (negb (bool_decide (set r = r))), set_ingestion_runs (<[id := set r]> (ingestion_runs d)) d).
Proof.
  intros Hd Hr Hc Hh. unfold update_run, update_one, update_at. rewrite Hr. unfold changes. rewrite Hc. cbn [andb].
  case_bool_decide as Hs; cbn [negb].
  - rewrite Hr. cbn. rewrite Hs, insert_id by done. by rewrite set_ingestion_runs_id.
  - rewrite lookup_insert_eq. cbn. by rewrite (harmless_verdict d id r (set r)).
Qed.

(** The same when the assignment certainly changes the row. *)
Lemma update_run_changes d id r cond set : schema d → ingestion_runs d !! id = Some r → cond r = true →
  harmless r (set r) → set r ≠ r →
  update_run id cond set d = Ok (1, set_ingestion_runs (<[id := set r]> (ingestion_runs d)) d).
Proof. intros Hd Hr Hc Hh Hn. rewrite (update_run_applies d id r) by done. by rewrite bool_decide_eq_false_2. Qed.

Lemma update_run_skips d id cond set :
  (∀ r, ingestion_runs d !! id = Some r → cond r = false) → update_run id cond set d = Ok (0, d).
Proof.
  intros H. unfold update_run, update_one, update_at.
  destruct (ingestion_runs d !! id) as [r|] eqn:Hr; [|by rewrite Hr].
  unfold changes. rewrite (H r eq_refl). cbn [andb]. by rewrite Hr.
Qed.

(** ** Who may write a running row *)

Definition owned_at (d : db) (id : Z) (owner : string) : bool :=
  match ingestion_runs d !! id with Some r => owned_by owner r | None => false end.

Lemma owned_at_false d id owner : owned_at d id owner = false →
  ∀ r, ingestion_runs d !! id = Some r → owned_by owner r = false.
Proof. unfold owned_at. intros H r Hr. by rewrite Hr in H. Qed.

(** The row [Finish] writes. *)
Definition finished (now : instant) (status : Status) (error : SafeError) (r : run_row) : run_row :=
  set_run_status status (set_run_error error (set_finished_at (Some now) r)).

Lemma harmless_finished now status error r : active status = false → harmless r (finished now status error r).
Proof. intros Ha. split; [done|]. split; [done|]. left. unfold active_job_key. cbn. rewrite Ha. by destruct (run_kind r). Qed.

Lemma finish_outcome now id owner status error d : schema d → IsTerminal status = true →
  finish now id owner status error d =
  match ingestion_runs d !! id with
  | Some r =>
      if owned_by owner r && (if bool_decide (status = StatusSucceeded) then negb (isSome (cancel_requested_at r)) else true)
      then Ok (tt, set_ingestion_runs (<[id := finished now status error r]> (ingestion_runs d)) d)
      else Err ErrTransition
  | None => Err ErrTransition
  end.
Proof.
  intros Hd Hs. unfold finish, tx_bind. destruct (ingestion_runs d !! id) as [r|] eqn:Hr.
  - destruct (owned_by owner r && _) eqn:Hg.
    + rewrite (update_run_changes d id r); try done.
      * apply harmless_finished. by destruct status.
      * apply andb_true_iff in Hg as [[Hrun%bool_decide_eq_true _]%owned_running _]. unfold has_status in Hrun.
        intros He. apply (f_equal run_status) in He. cbn in He. rewrite Hrun in He. by subst status.
    + rewrite update_run_skips; [done|]. intros r' Hr'. assert (r' = r) as -> by congruence. done.
  - rewrite update_run_skips; [done|]. congruence.
Qed.

(** ** Claiming *)

Lemma older_strict : strict older.
Proof.
  unfold older. split.
  - intros a. by rewrite !Z.ltb_irrefl, andb_false_r.
  - intros a b c. rewrite !orb_true_iff, !andb_true_iff, !Z.ltb_lt, !Z.eqb_eq. lia.
Qed.

Lemma older_total d : schema d → ∀ i j a b, ingestion_runs d !! i = Some a → ingestion_runs d !! j = Some b →
  older a b = false → older b a = false → a = b.
Proof.
  intros Hd i j a b Ha Hb. unfold older. rewrite !orb_false_iff, !andb_false_iff, !Z.ltb_ge, !Z.eqb_neq. intros H1 H2.
  destruct (t_ids _ _ _ _ _ (runs_ok d Hd) _ _ Ha) as [Hi _], (t_ids _ _ _ _ _ (runs_ok d Hd) _ _ Hb) as [Hj _].
  assert (run_id a = run_id b) by lia. congruence.
Qed.

(** The row a claim writes. *)
Definition claimed (now : instant) (owner : string) (r : run_row) : run_row :=
  set_run_status StatusRunning (set_owner_id (Some owner) (set_claimed_at (Some now)
    (set_heartbeat_at (Some now) (set_started_at (Some (match started_at r with Some t => t | None => now end)) r)))).

Lemma harmless_claimed now owner r : run_status r = StatusQueued → harmless r (claimed now owner r).
Proof. intros Hq. split; [done|]. split; [done|]. right. unfold active_job_key. cbn. by rewrite Hq. Qed.

Definition decodable (d : db) : Prop := ∀ i r, ingestion_runs d !! i = Some r →
  is_ok (decodeMapperDiagnostics (mapper_diagnostics r)) = true.

Lemma getRun_Ok d id r : ingestion_runs d !! id = Some r →
  is_ok (decodeMapperDiagnostics (mapper_diagnostics r)) = true →
  ∃ diagnostics, getRun id d = Ok (run_value r diagnostics, d).
Proof.
  intros Hr Hk. unfold getRun, tx_bind, tx_gets, tx_lift. rewrite Hr. unfold tx_ret.
  destruct (decodeMapperDiagnostics _) as [x|]; [|done]. by exists x.
Qed.

Definition running (d : db) : Z := count occupies (ingestion_runs d).

Lemma queued_status r : queued r = true → executable (run_kind r) = true ∧ run_status r = StatusQueued.
Proof. unfold queued, has_status. by intros [? ?%bool_decide_eq_true]%andb_true_iff. Qed.

(** ** Properties *)

(** C4: along any sequence of repository transactions the schema holds, no
    run disappears or changes its identity, statuses only move forward
    (planned, queued, running, finished), a finished row is never written
    again, a running job keeps its owner, no two queued or running jobs have the same key, and a Run All
    parent with at most one active child keeps having at most one. *)
Theorem runs_lifecycle : ∀ d d', schema d → rtc repository_step d d' →
  schema d' ∧
  (∀ i r, ingestion_runs d !! i = Some r → ∃ r', ingestion_runs d' !! i = Some r' ∧
     run_identity r' = run_identity r ∧ may_become (run_status r) (run_status r') = true ∧
     (IsTerminal (run_status r) = true → r' = r) ∧
     (executable (run_kind r) = true → run_status r = StatusRunning → run_status r' = StatusRunning →
        owner_id r' = owner_id r)) ∧
  (∀ i j r s key, ingestion_runs d' !! i = Some r → ingestion_runs d' !! j = Some s →
     active_job_key r = Some key → active_job_key s = Some key → i = j) ∧
  (∀ p, actives p d <= 1 → actives p d' <= 1).
Proof.
  intros d d' Hd Hr. destruct (reachable_lifecycle d d' Hd Hr) as [Hd' Hrows Hact].
  split; [done|]. split; [done|]. split.
  - intros i j r s key Hi Hj Hkr Hks. destruct (decide (i = j)) as [|Hne]; [done|].
    pose proof (t_unique _ _ _ _ _ (runs_ok d' Hd') i j r s Hi Hj Hne) as Hc.
    unfold run_clash in Hc. rewrite !orb_false_iff in Hc. destruct Hc as [[[Hc _] _] _].
    assert (same (active_job_key r) (active_job_key s) = true) as Hs by (apply same_Some; eauto).
    by rewrite Hs in Hc.
  - intros p Hp. specialize (Hact p). lia.
Qed.

(** C16: admission: with valid settings and an owner identity, [Claim] always
    commits; it refuses when the running jobs have reached the limit or no
    unlocked run is queued, and otherwise starts the oldest unlocked queued
    run under the new owner, writing that row only and staying within the
    limit. *)
Theorem Claim_admission : ∀ now locked owner d settings,
  schema d → decodable d → runtime_settings d = Some settings →
  ValidRuntimeLimit (MaxRunningJobs settings) = true → String.length owner = 64%nat →
  ∃ result d', Claim now locked owner d = Ok (result, d') ∧
  match result with
  | None => d' = d ∧ (MaxRunningJobs settings <= running d ∨
      ∀ i r, ingestion_runs d !! i = Some r → queued r = true → locked r = true)
  | Some run => ∃ r, ingestion_runs d !! ID run = Some r ∧ queued r = true ∧ locked r = false ∧
      (∀ i s, ingestion_runs d !! i = Some s → queued s = true → locked s = false → older s r = false) ∧
      d' = set_ingestion_runs (<[ID run := claimed now owner r]> (ingestion_runs d)) d ∧
      RunStatus run = StatusRunning ∧ OwnerID run = owner ∧
      running d' = running d + 1 ∧ running d' <= MaxRunningJobs settings
  end.
Proof.
  intros now locked owner d settings Hd Hdec Hset Hlim Hlen.
  unfold Claim, runningJobs. rewrite Hlen. cbn [Nat.eqb negb]. unfold tx_bind at 1, tx_gets at 1. rewrite Hset, Hlim. cbn [negb].
  unfold tx_bind at 1, tx_gets at 1. fold (running d).
  destruct (Z.leb_spec (MaxRunningJobs settings) (running d)) as [Hfull|Hroom].
  { exists None, d. eauto. }
  unfold tx_bind at 1, tx_gets at 1.
  destruct (select_first older _ (ingestion_runs d)) as [r|] eqn:Hsel.
  2:{ exists None, d. split; [done|]. split; [done|]. right. intros i s Hs Hq.
      pose proof (proj1 (select_first_None _ _ _) Hsel i s Hs) as Hn. cbn in Hn. rewrite Hq in Hn.
      by apply negb_false_iff in Hn. }
  pose proof (select_first_Some _ _ _ _ Hsel) as [[Hq Hl%negb_true_iff]%andb_true_iff [i Hi]].
  destruct (t_ids _ _ _ _ _ (runs_ok d Hd) _ _ Hi) as [Hid _]. subst i.
  apply queued_status in Hq as Hq'. destruct Hq' as [Hex Hst].
  set (d' := set_ingestion_runs (<[run_id r := claimed now owner r]> (ingestion_runs d)) d).
  assert (update_run (run_id r) (has_status StatusQueued) (claimed now owner) d = Ok (1, d')) as Hup.
  { apply update_run_changes; try done.
    - unfold has_status. by rewrite Hst.
    - by apply harmless_claimed.
    - intros He. apply (f_equal run_status) in He. by rewrite Hst in He. }
  rewrite (tx_bind_eq _ _ _ _ _ Hup), Z.eqb_refl. cbn [negb].
  assert (ingestion_runs d' !! run_id r = Some (claimed now owner r)) as Hr' by apply lookup_insert_eq.
  destruct (getRun_Ok d' (run_id r) (claimed now owner r) Hr' (Hdec _ _ Hi)) as [x Hget].
  rewrite (tx_bind_eq _ _ _ _ _ Hget). exists (Some (run_value (claimed now owner r) x)), d'. split; [done|].
  exists r. split; [done|]. split; [done|]. split; [done|]. split.
  { intros j s Hs Hqs Hls. eapply (select_first_least older); [apply older_strict|by apply older_total|done|done|].
    cbn. by rewrite Hqs, Hls. }
  split; [done|]. split; [done|]. split; [done|].
  assert (running d' = running d + 1) as ->.
  { assert (occupies r = false ∧ occupies (claimed now owner r) = true) as [Ho1 Ho2]
      by (unfold occupies, has_status; cbn; by rewrite Hex, Hst).
    unfold running, d'. cbn. rewrite (count_put _ _ _ r), Ho1, Ho2 by done. cbn. lia. }
  split; [done|lia].
Qed.

(** A run is finished once, by its owner: [Finish] commits exactly when
    the row is running under that owner, and a success only without a
    cancellation request; it then writes the outcome to that row alone, and
    no second finish of any kind, nor a progress report, succeeds. *)
Theorem Finish_once : ∀ now id owner status error d, schema d →
  (status = StatusSucceeded ∨ status = StatusFailed ∨ status = StatusCancelled) →
  match ingestion_runs d !! id with
  | Some r =>
      if owned_by owner r && (if bool_decide (status = StatusSucceeded) then negb (isSome (cancel_requested_at r)) else true)
      then ∃ d', Finish now id owner status error d = Ok (tt, d') ∧
        d' = set_ingestion_runs (<[id := finished now status error r]> (ingestion_runs d)) d ∧
        ∀ now' owner' status' error' progress,
          is_ok (Finish now' id owner' status' error' d') = false ∧
          FinishSucceededInTx now' id owner' d' = Err ErrTransition ∧
          UpdateProgress id owner' progress None d' = Err ErrOwnershipLost
      else Finish now id owner status error d = Err ErrTransition
  | None => Finish now id owner status error d = Err ErrTransition
  end.
Proof.
  intros now id owner status error d Hd Hstat.
  assert (Hterm : IsTerminal status = true) by (by destruct Hstat as [->|[->| ->]]).
  assert (Hfin : Finish now id owner status error = finish now id owner status error) by (by destruct Hstat as [->|[->| ->]]).
  rewrite Hfin. pose proof (finish_outcome now id owner status error d Hd Hterm) as Ho.
  destruct (ingestion_runs d !! id) as [r|] eqn:Hr; [|done].
  destruct (owned_by owner r && _); [|done]. eexists. split; [done|]. split; [done|].
  intros now' owner' status' error' progress. set (d' := set_ingestion_runs _ d) in *.
  assert (Hd' : schema d') by (eapply preserves_finish; [exact Hd|exact Ho]).
  assert (Hr' : ingestion_runs d' !! id = Some (finished now status error r)) by apply lookup_insert_eq.
  assert (Hno : ∀ o, owned_by o (finished now status error r) = false)
    by (intros o; unfold owned_by, has_status; cbn; by destruct Hstat as [->|[->| ->]]).
  assert (Hf : ∀ n o s e, IsTerminal s = true → finish n id o s e d' = Err ErrTransition)
    by (intros n o s e Hs; rewrite finish_outcome, Hr', Hno by done; done).
  split; [|split].
  - unfold Finish. destruct status'; try done; by rewrite Hf.
  - by apply Hf.
  - unfold UpdateProgress, tx_bind, tx_ret. rewrite update_run_skips by (intros s Hs; rewrite Hr' in Hs; by injection Hs as <-).
    cbn [Z.eqb]. unfold tx_gets. rewrite Hr', Hno. done.
Qed.


(** ** A concrete database *)

Definition sample_owner : string := string_of_codes (replicate 64 97%N).
Definition sample_row (id : Z) (key : string) (status : Status) (owner : option string) : run_row :=
  mkRun id KindJob None None (Some key) (mkParameters LiveSnapshotV1 1 "{}" "") TriggerDirect None None (10 * id)
    status None None None owner None None None no_progress no_error None None None None None.
(** Run 1 is running under [sample_owner], run 2 is queued. *)
Definition sample_db : db :=
  mkDb {[ 1 ]} (Some (mkRuntimeSettings 2 4 3)) {[ "cif_detail" := mkSource true None ]} ∅
    {[ 1 := sample_row 1 "cif_detail" StatusRunning (Some sample_owner);
       2 := sample_row 2 "loan_detail" StatusQueued None ]} 3 ∅ 1 ∅ 1 ∅ 1 [].

Lemma sample_schema : schema sample_db.
Proof. apply schema_b_sound. vm_compute. reflexivity. Qed.

Lemma runs_lifecycle_witness : ∃ d', schema sample_db ∧ rtc repository_step sample_db d' ∧
  schema d' ∧ (∃ r, ingestion_runs d' !! 1 = Some r ∧ run_status r = StatusSucceeded).
Proof.
  set (d' := set_ingestion_runs (<[1 := finished 5 StatusSucceeded no_error
    (sample_row 1 "cif_detail" StatusRunning (Some sample_owner))]> (ingestion_runs sample_db)) sample_db).
  assert (Hf : Finish 5 1 sample_owner StatusSucceeded no_error sample_db = Ok (tt, d')) by (vm_compute; reflexivity).
  assert (Hr : rtc repository_step sample_db d') by exact (rtc_once _ _ (step_finish _ _ _ _ _ _ _ _ Hf)).
  exists d'.
  split; [exact sample_schema|]. split; [exact Hr|].
  split; [exact (proj1 (runs_lifecycle _ _ sample_schema Hr))|]. eexists. split; reflexivity.
Defined.

Lemma Claim_admission_witness : ∃ run d', Claim 100 (λ _, false) sample_owner sample_db = Ok (Some run, d') ∧
  ID run = 2 ∧ running d' = 2.
Proof.
  assert (decodable sample_db) as Hdec.
  { intros i r Hr. unfold sample_db in Hr. cbn in Hr.
    apply lookup_insert_Some in Hr as [[_ <-]|[_ [_ <-]%lookup_singleton_Some]]; reflexivity. }
  destruct (Claim_admission 100 (λ _, false) sample_owner sample_db (mkRuntimeSettings 2 4 3)
    sample_schema Hdec eq_refl eq_refl eq_refl) as ([run|] & d' & Hc & Hrest).
  - exists run, d'. split; [exact Hc|]. vm_compute in Hc. injection Hc as <- <-. by vm_compute.
  - exfalso. vm_compute in Hc. discriminate.
Defined.

Lemma Finish_once_witness : ∃ d', schema sample_db ∧
  Finish 5 1 sample_owner StatusSucceeded no_error sample_db = Ok (tt, d').
Proof.
  pose proof (Finish_once 5 1 sample_owner StatusSucceeded no_error sample_db sample_schema (or_introl eq_refl)) as H.
  vm_compute ingestion_runs in H.
  destruct H as (d' & H & _). exists d'. split; [exact sample_schema|exact H].
Defined.

