(* ===== verification/RunAll.v ===== *)
(** * Submission, Run All and recovery: what the transactions do

    The outcome of submitting a job, of creating a Run All with its
    children, of the reconciliation that queues them one after the other,
    of cancellation, and of the recovery of silent owners. *)

From S2P Require Import Prelude Calendar Json Hash Catalog Params Access AuditTrail Table Store Schema DetailShapes Diagnostics Runs RunLifecycle.

Open Scope Z_scope.

(** ** Submission *)

(** The source settings allow a run of [key]. *)
Definition source_ok (d : db) (key : string) (requireAuth : bool) : bool :=
  match source_settings d !! key with
  | None => false
  | Some source =>
      src_enabled source &&
      (if requireAuth then
         match src_profile source with
         | Some p => match auth_profiles d !! p with Some status => (status =? "active")%string | None => false end
         | None => false
         end
       else true)
  end.

Definition admissible (d : db) (key : string) (parameters : Parameters) (trigger : Trigger)
    (reference : string) (requireAuth : bool) : bool :=
  negb (bool_decide (trigger = TriggerScheduler) && (trim_space reference =? "")%string) &&
  match Find theCatalog key with Some job => is_ok (Validate parameters job) | None => false end &&
  source_ok d key requireAuth.

(** The job is queued or running, or the scheduler's reference is used. *)
Definition busy (d : db) (key : string) (trigger : Trigger) (reference : string) : Prop :=
  ∃ i r, ingestion_runs d !! i = Some r ∧
    (active_job_key r = Some key ∨
     trigger = TriggerScheduler ∧ reference ≠ "" ∧ scheduler_trigger_reference r = Some reference).

Definition new_job (now id : Z) (key : string) (parameters : Parameters) (trigger : Trigger)
    (reference : string) (requester : option Z) : run_row :=
  mkRun id KindJob None None (nullable key) parameters trigger (nullable reference) requester now StatusQueued
    None None None None None None None no_progress no_error None None None None None.

Lemma source_check key (requireAuth : bool) d : ∃ e,
  (if requireAuth then sourceReady key
   else let* enabled := sourceEnabled key in tx_guard enabled ErrSourceDisabled) d =
  if source_ok d key requireAuth then Ok (tt, d) else Err e.
Proof.
  unfold source_ok, sourceReady, sourceEnabled, tx_bind, tx_gets, tx_ret, tx_fail, tx_guard.
  destruct requireAuth, (source_settings d !! key) as [[enabled profile]|]; cbn; try by exists ErrNoRows.
  - destruct enabled; cbn; [|by exists ErrSourceDisabled].
    destruct profile as [p|]; [|by exists ErrSourceConfigurationRequired].
    destruct (auth_profiles d !! p) as [status|]; [|by exists ErrSourceConfigurationRequired].
    destruct (status =? "active")%string; by exists ErrSourceConfigurationRequired.
  - destruct enabled; by exists ErrSourceDisabled.
Qed.

Lemma nullable_Some s : s ≠ "" → nullable s = Some s.
Proof. unfold nullable. intros H. by rewrite (proj2 (String.eqb_neq _ _) H). Qed.

Lemma new_job_clash now id key parameters trigger reference requester s : key ≠ "" →
  run_clash (new_job now id key parameters trigger reference requester) s = true ↔
  active_job_key s = Some key ∨
  trigger = TriggerScheduler ∧ reference ≠ "" ∧ scheduler_trigger_reference s = Some reference.
Proof.
  intros Hk. unfold run_clash, new_job, active_job_key at 1, scheduler_trigger_reference at 1. cbn.
  rewrite (nullable_Some key Hk), !orb_false_r, orb_true_iff, !same_Some.
  split; (intros [H|H]; [left|right]).
  - destruct H as (x & [= <-] & ->). done.
  - destruct H as (x & Hx & Hs). destruct (bool_decide_reflect (trigger = TriggerScheduler)); cbn in Hx; [|done]. unfold nullable in Hx.
    destruct (String.eqb_spec reference ""); [done|]. injection Hx as <-. done.
  - eauto.
  - destruct H as (-> & Hr & Hs). cbn. rewrite nullable_Some by done. eauto.
Qed.

Lemma fresh_run_none d : schema d → ingestion_runs d !! next_run_id d = None.
Proof.
  intros Hd. destruct (ingestion_runs d !! next_run_id d) as [r|] eqn:E; [|done].
  destruct (t_ids _ _ _ _ _ (runs_ok d Hd) _ _ E). lia.
Qed.

Lemma insert_run_new d row : schema d → run_check (row (next_run_id d)) = true →
  run_references d (row (next_run_id d)) = true →
  (∀ i s, ingestion_runs d !! i = Some s → run_clash (row (next_run_id d)) s = false) →
  insert_run row d = Ok (next_run_id d, set_next_run_id (next_run_id d + 1)
    (set_ingestion_runs (<[next_run_id d := row (next_run_id d)]> (ingestion_runs d)) d)).
Proof.
  intros Hd Hc Hr Hcl. apply insert_one_Ok. split; [done|]. split; [|done].
  apply run_verdict_None. split; [done|]. split; [|done]. apply conflicts_false. eauto.
Qed.

Lemma insertRun_busy now key parameters trigger reference requester d : schema d → key ≠ "" →
  busy d key trigger reference →
  insertRun now KindJob None None key StatusQueued parameters trigger reference requester d = Err ErrDuplicateKey.
Proof.
  intros Hd Hk (i & r & Hr & Hb). apply insert_one_Err, run_verdict_duplicate. split.
  - unfold run_check. cbn. by rewrite nullable_Some.
  - apply conflicts_true. exists i, r. split; [done|]. split.
    + intros ->. by rewrite fresh_run_none in Hr.
    + by apply new_job_clash.
Qed.

Lemma insertRun_free now key parameters trigger reference requester d : schema d → key ≠ "" →
  ¬ busy d key trigger reference →
  insertRun now KindJob None None key StatusQueued parameters trigger reference requester d =
  if user_ok d requester then
    Ok (next_run_id d, set_next_run_id (next_run_id d + 1) (set_ingestion_runs
      (<[next_run_id d := new_job now (next_run_id d) key parameters trigger reference requester]> (ingestion_runs d)) d))
  else Err ErrForeignKey.
Proof.
  intros Hd Hk Hb. assert (Hcl : ∀ i s, ingestion_runs d !! i = Some s →
    run_clash (new_job now (next_run_id d) key parameters trigger reference requester) s = false).
  { intros i s Hs. destruct (run_clash _ s) eqn:E; [|done]. destruct Hb. exists i, s. split; [done|].
    by apply new_job_clash in E. }
  unfold insertRun, insert_run, insert_one.
  change (mkRun (next_run_id d) KindJob _ _ _ _ _ _ _ _ _ _ _ _ _ _ _ _ _ _ _ _ _ _ _) with
    (new_job now (next_run_id d) key parameters trigger reference requester).
  unfold run_verdict. rewrite (proj2 (conflicts_false run_clash _ _ _)) by eauto.
  assert (run_check (new_job now (next_run_id d) key parameters trigger reference requester) = true) as ->
    by (unfold run_check; cbn; by rewrite nullable_Some).
  unfold run_references. cbn. by destruct (user_ok d requester).
Qed.

Lemma Find_nonempty key job : Find theCatalog key = Some job → key ≠ "".
Proof. intros [Hj <-]%Find_spec. by apply catalog_key_nonempty. Qed.

(** ** Properties of submission *)

(** C26: submitting a job: when the job exists, its parameters validate and
    its source is enabled (with an active profile where required), the
    submission fails with [ErrJobBusy] exactly if the job is queued or running
    already or the scheduler's reference is used, and otherwise adds one
    queued row under a fresh identifier (unless the requester is unknown); in
    every other case nothing is submitted. *)
Theorem submitInTx_outcome : ∀ now key parameters trigger reference requester requireAuth d, schema d →
  (admissible d key parameters trigger reference requireAuth = false →
     is_ok (submitInTx now key parameters trigger reference requester requireAuth d) = false) ∧
  (admissible d key parameters trigger reference requireAuth = true →
     (busy d key trigger reference →
        submitInTx now key parameters trigger reference requester requireAuth d = Err ErrJobBusy) ∧
     (¬ busy d key trigger reference →
        submitInTx now key parameters trigger reference requester requireAuth d =
        if user_ok d requester then
          Ok (next_run_id d, set_next_run_id (next_run_id d + 1) (set_ingestion_runs
            (<[next_run_id d := new_job now (next_run_id d) key parameters trigger reference requester]> (ingestion_runs d)) d))
        else Err ErrForeignKey)).
Proof.
  intros now key parameters trigger reference requester auth d Hd.
  unfold admissible, submitInTx. pose proof (Find_nonempty key) as Hf. revert Hf.
  generalize (Find theCatalog key) as found. intros found Hf.
  destruct (bool_decide _ && _); [done|]. cbn [negb andb]. destruct found as [job|]; [|done].
  destruct (Validate parameters job) as [[]|e] eqn:Hv.
  2:{ split; [|done]. intros _. by rewrite (tx_bind_err (tx_lift (Err e)) _ d e eq_refl). }
  cbn [is_ok andb]. rewrite (tx_bind_eq (tx_lift (Ok tt)) _ d tt d eq_refl).
  destruct (source_check key auth d) as [e He]. destruct (source_ok d key auth).
  2:{ split; [|done]. intros _. by rewrite (tx_bind_err _ _ _ _ He). }
  split; [done|]. intros _. rewrite (tx_bind_eq _ _ _ _ _ He). clear He Hv.
  pose proof (Hf job eq_refl) as Hk. split; intros Hb; unfold tx_bind, tx_try.
  - by rewrite insertRun_busy.
  - rewrite insertRun_free by done. by destruct (user_ok d requester).
Qed.

(** ** Creating a Run All *)

Definition child_row (now id parentID position : Z) (key : string) (parameters : Parameters) (requester : option Z) : run_row :=
  mkRun id KindRunAllChild (Some parentID) (Some position) (nullable key) parameters TriggerRunAll
    (nullable (id_string parentID)) requester now StatusPlanned None None None None None None None
    no_progress no_error None None None None None.

(** No row of the parent uses a position from [position] on or a key of
    [keys]. *)
Definition room_for (d : db) (parentID position : Z) (keys : list string) : Prop :=
  ∀ i r, ingestion_runs d !! i = Some r → parent_run_id r = Some parentID →
    (∀ p, child_position r = Some p → p < position) ∧ (∀ k, run_job_key r = Some k → k ∉ keys).

Lemma child_no_clash now id parentID position key parameters requester d keys i s :
  room_for d parentID position keys → key ∈ keys → key ≠ "" → ingestion_runs d !! i = Some s →
  run_clash (child_row now id parentID position key parameters requester) s = false.
Proof.
  intros Hroom Hin Hk Hs. destruct (run_clash _ s) eqn:E; [|done]. unfold run_clash in E.
  rewrite !orb_true_iff, !same_Some in E. cbn in E. rewrite (nullable_Some key Hk) in E.
  destruct E as [[[(x & Hx & _)|(x & [= <-] & Hp)]|(x & [= <-] & Hp)]|(x & Hx & _)]; [done| | |done].
  - unfold pair_key in Hp. destruct (parent_run_id s) as [p|] eqn:Ep; [|done].
    destruct (child_position s) as [q|] eqn:Eq; [|done]. injection Hp as -> ->.
    destruct (Hroom i s Hs Ep) as [H _]. specialize (H _ Eq). lia.
  - unfold pair_key in Hp. destruct (parent_run_id s) as [p|] eqn:Ep; [|done].
    destruct (run_job_key s) as [k|] eqn:Ek; [|done]. injection Hp as -> ->.
    destruct (Hroom i s Hs Ep) as [_ H]. by destruct (H _ Ek).
Qed.

Lemma insertChildren_Ok now parentID requester from to jobs : ∀ d position,
  schema d → is_Some (ingestion_runs d !! parentID) → user_ok d requester = true →
  room_for d parentID position (j_key <$> jobs) → NoDup (j_key <$> jobs) →
  Forall (λ job, j_key job ≠ "" ∧ is_ok (parametersForJob job from to) = true) jobs →
  ∃ d', insertChildren now parentID position jobs from to requester d = Ok (tt, d') ∧
    next_run_id d' = next_run_id d + Z.of_nat (length jobs) ∧ users d' = users d ∧ db_audit_logs d' = db_audit_logs d ∧
    (∀ i, i < next_run_id d → ingestion_runs d' !! i = ingestion_runs d !! i) ∧
    (∀ k job, jobs !! k = Some job → ∃ parameters, parametersForJob job from to = Ok parameters ∧
       ingestion_runs d' !! (next_run_id d + Z.of_nat k) =
       Some (child_row now (next_run_id d + Z.of_nat k) parentID (position + Z.of_nat k) (j_key job) parameters requester)).
Proof.
  induction jobs as [|job jobs IH]; intros d position Hd Hp Hu Hroom Hnd Hf.
  { exists d. cbn. split; [done|]. rewrite Z.add_0_r. done. }
  apply Forall_cons in Hf as [[Hk Hpar] Hf]. apply NoDup_cons in Hnd as [Hnk Hnd]. cbn [insertChildren].
  destruct (parametersForJob job from to) as [parameters|] eqn:Epar; [|done]. clear Hpar.
  rewrite (tx_bind_eq _ _ d parameters d) by done.
  set (id := next_run_id d).
  set (d1 := set_next_run_id (id + 1) (set_ingestion_runs
    (<[id := child_row now id parentID position (j_key job) parameters requester]> (ingestion_runs d)) d)).
  assert (insertRun now KindRunAllChild (Some parentID) (Some position) (j_key job) StatusPlanned parameters
    TriggerRunAll (id_string parentID) requester d = Ok (id, d1)) as Hins.
  { apply insert_run_new; [done| | |].
    - unfold run_check. cbn. by rewrite nullable_Some.
    - unfold run_references. cbn. by rewrite (proj2 (isSome_spec _) Hp).
    - intros i s Hs. eapply (child_no_clash _ _ _ _ _ _ _ d (j_key <$> job :: jobs)); try done. left. }
  rewrite (tx_bind_eq _ _ _ _ _ Hins).
  assert (Hd1 : schema d1) by exact (preserves_insertRun _ _ _ _ _ _ _ _ _ _ _ _ _ Hd Hins).
  destruct (IH d1 (position + 1) Hd1) as (d' & Hrun & Hnext & Husers & Hlogs & Hold & Hnew); try done.
  - unfold d1. cbn. by apply is_Some_put.
  - intros i r Hr Hpr. unfold d1 in Hr. cbn in Hr. apply lookup_insert_Some in Hr as [[<- <-]|[Hne Hr]].
    + cbn. split; [intros p [= <-]; lia|]. intros k. rewrite nullable_Some by done. by intros [= <-].
    + destruct (Hroom i r Hr Hpr) as [H1 H2]. split; [intros p Hq; specialize (H1 p Hq); lia|].
      intros k Hq Hin. destruct (H2 k Hq). cbn [fmap list_fmap]. by right.
  - exists d'. split; [done|]. cbn [length]. unfold d1 in Hnext, Hold, Hnew |- *. cbn in Hnext, Hold, Hnew.
    split; [lia|]. split; [done|]. split; [done|]. split.
    + intros i Hi. rewrite Hold by lia. by rewrite lookup_insert_ne by lia.
    + intros [|k] j Hj; cbn in Hj.
      * injection Hj as <-. exists parameters. split; [done|]. rewrite !Z.add_0_r, Hold by lia.
        by rewrite lookup_insert_eq.
      * destruct (Hnew k j Hj) as (q & Hq & Hrow). exists q. split; [done|].
        replace (id + Z.of_nat (S k)) with (id + 1 + Z.of_nat k) by lia.
        by replace (position + Z.of_nat (S k)) with (position + 1 + Z.of_nat k) by lia.
Qed.

Definition parent_row (now id : Z) (owner : string) (parameters : Parameters) (trigger : Trigger) (reference : string)
    (requester : option Z) : run_row :=
  mkRun id KindRunAllParent None None None parameters trigger (nullable reference) requester now StatusRunning
    None None None (Some owner) (Some now) (Some now) None no_progress no_error None None None (Some now) None.

(** Creating a Run All over a date range (four-digit, before
    9999-12-31) always succeeds: it adds a running parent under a fresh
    identifier and owner, then its 42 children, planned, numbered from 1 in
    catalog order, each with the job's own parameters for the range, which
    validate; no other run is touched. *)
Theorem CreateRunAll_complete : ∀ now owner from to trigger reference requester d, schema d →
  usable from = true → usable to = true → date_days from <= date_days to → date_days to < date_days lastDay →
  user_ok d requester = true →
  let p := next_run_id d in
  ∃ d' parentParameters, CreateRunAll now owner from to trigger reference requester d = Ok (p, d') ∧
    DecodeRange parentParameters = Ok (mkRange from to) ∧
    ingestion_runs d' !! p = Some (parent_row now p owner parentParameters trigger reference requester) ∧
    (∀ i, i < p → ingestion_runs d' !! i = ingestion_runs d !! i) ∧
    next_run_id d' = p + 1 + Z.of_nat (length (Jobs theCatalog)) ∧
    (∀ k job, Jobs theCatalog !! k = Some job → ∃ parameters,
       parametersForJob job from to = Ok parameters ∧ Validate parameters job = Ok tt ∧
       ingestion_runs d' !! (p + 1 + Z.of_nat k) =
         Some (child_row now (p + 1 + Z.of_nat k) p (Z.of_nat k + 1) (j_key job) parameters requester)).
Proof.
  intros now owner from to trigger reference requester d Hd Hf Ht Hle Hlast Hu p.
  destruct (NewRunAllRange_decodes from to Hf Ht Hle) as (pp & Hpp & Hdec).
  assert (Hall : Forall (λ job, j_key job ≠ "" ∧ is_ok (parametersForJob job from to) = true) (Jobs theCatalog)).
  { apply Forall_forall. intros job Hj. split; [by apply catalog_key_nonempty|].
    by destruct (parametersForJob_accepted job from to Hj Hf Ht Hle Hlast) as (q & -> & _). }
  assert (Hacc : ∀ job q, job ∈ Jobs theCatalog → parametersForJob job from to = Ok q → Validate q job = Ok tt).
  { intros job q Hj Hq. destruct (parametersForJob_accepted job from to Hj Hf Ht Hle Hlast) as (q' & Hq' & Hv & _). congruence. }
  pose proof catalog_keys_NoDup as Hnd. revert Hall Hacc Hnd. unfold CreateRunAll, createRunAll.
  generalize (Jobs theCatalog) as jobs. intros jobs Hall Hacc Hnd.
  rewrite (tx_bind_eq _ _ d pp d) by (unfold tx_lift; by rewrite Hpp).
  set (r0 := mkRun p KindRunAllParent None None None pp trigger (nullable reference) requester now StatusRunning
    None None None None None None None no_progress no_error None None None None None).
  set (d1 := set_next_run_id (p + 1) (set_ingestion_runs (<[p := r0]> (ingestion_runs d)) d)).
  assert (insertRun now KindRunAllParent None None "" StatusRunning pp trigger reference requester d = Ok (p, d1)) as Hins.
  { by apply insert_run_new. }
  rewrite (tx_bind_eq _ _ _ _ _ Hins).
  pose proof (preserves_insertRun _ _ _ _ _ _ _ _ _ _ _ _ _ Hd Hins) as Hd1.
  set (r1 := parent_row now p owner pp trigger reference requester).
  set (d2 := set_ingestion_runs (<[p := r1]> (ingestion_runs d1)) d1).
  assert (update_run p (has_status StatusRunning)
    (set_owner_id (Some owner) ∘ set_claimed_at (Some now) ∘ set_heartbeat_at (Some now) ∘ set_started_at (Some now)) d1
    = Ok (1, d2)) as Hup.
  { apply (update_run_changes d1 p r0); [done|by apply lookup_insert_eq|done| |].
    - split; [done|]. split; [done|]. by right.
    - intros He. by apply (f_equal owner_id) in He. }
  rewrite (tx_bind_eq _ _ _ _ _ Hup).
  assert (Hd2 : schema d2) by (eapply preserves_update_run_const; [|exact Hd1|exact Hup]; done).
  destruct (insertChildren_Ok now p requester from to jobs d2 1 Hd2) as (d' & Hrun & Hnext & _ & _ & Hold & Hnew); try done.
  - unfold d2. cbn. rewrite lookup_insert_eq. eauto.
  - intros i r Hr Hpr. exfalso. unfold d2, d1 in Hr. cbn in Hr.
    apply lookup_insert_Some in Hr as [[_ <-]|[Hne [[? _]|[_ Hr]]%lookup_insert_Some]]; [done|done|].
    destruct (t_checks _ _ _ _ _ (runs_ok d Hd) _ _ Hr) as [_ [Href _]%andb_true_iff]. rewrite Hpr in Href.
    apply isSome_spec in Href as [x Hx]. by rewrite (fresh_run_none d Hd : ingestion_runs d !! p = None) in Hx.
  - exists d', pp. rewrite (tx_bind_eq _ _ _ _ _ Hrun). split; [done|]. split; [done|].
    unfold d2, d1 in Hnext, Hold, Hnew. cbn in Hnext, Hold, Hnew.
    split; [rewrite Hold by lia; by rewrite lookup_insert_eq|].
    split; [intros i Hi; rewrite Hold by lia; by rewrite !lookup_insert_ne by lia|]. split; [lia|].
    intros k job Hj. destruct (Hnew k job Hj) as (q & Hq & Hrow). exists q. split; [done|]. split.
    + apply Hacc; [by apply list_elem_of_lookup; eauto|done].
    + by rewrite Hrow, (Z.add_comm 1).
Qed.

(** ** Reconciliation *)

Definition planned_child (p : Z) (r : run_row) : bool := child_of p r && has_status StatusPlanned r.
Definition planned (p : Z) (d : db) : Z := count (planned_child p) (ingestion_runs d).
Definition parent_running (p : Z) (d : db) : bool :=
  match ingestion_runs d !! p with Some r => has_status StatusRunning r | None => false end.

(** What is left to do for a Run All: its planned children and the end of
    the parent itself. *)
Definition remaining (p : Z) (d : db) : Z := planned p d + one_if (parent_running p d).

Definition renewed (now p : Z) (r : run_row) (d : db) : db :=
  set_ingestion_runs (<[p := set_heartbeat_at (Some now) r]> (ingestion_runs d)) d.
Definition with_run (i : Z) (r : run_row) (d : db) : db := set_ingestion_runs (<[i := r]> (ingestion_runs d)) d.

Lemma with_run_schema d i r r' : schema d → ingestion_runs d !! i = Some r → harmless r r' → schema (with_run i r' d).
Proof.
  intros Hd Hr Hh. destruct (decide (r' = r)) as [->|Hne].
  { unfold with_run. by rewrite insert_id, set_ingestion_runs_id. }
  eapply (preserves_update_run i (λ s, bool_decide (s = r)) (λ _, r')); [|exact Hd|].
  - intros s Hs%bool_decide_eq_true. subst s. apply Hh.
  - apply (update_run_changes d i r); try done. by apply bool_decide_eq_true.
Qed.

(** The parent's own row is no child of it. *)
Lemma parent_no_child d p r : schema d → ingestion_runs d !! p = Some r → run_kind r = KindRunAllParent →
  parent_run_id r = None.
Proof.
  intros Hd Hr Hk. destruct (t_checks _ _ _ _ _ (runs_ok d Hd) _ _ Hr) as [Hc _].
  unfold run_check in Hc. rewrite Hk in Hc. by destruct (parent_run_id r).
Qed.

Lemma count_parent_put d p r r' cond : ingestion_runs d !! p = Some r → parent_run_id r = None →
  run_identity r' = run_identity r →
  count (λ s, child_of p s && cond s) (<[p := r']> (ingestion_runs d)) =
  count (λ s, child_of p s && cond s) (ingestion_runs d).
Proof.
  intros Hr Hn Hi. rewrite (count_put _ _ _ r) by done. unfold run_identity in Hi.
  assert (parent_run_id r' = None) as Hn' by congruence.
  assert (child_of p r = false ∧ child_of p r' = false) as [-> ->] by (unfold child_of; by rewrite Hn, Hn').
  cbn. lia.
Qed.

Lemma owned_split owner r : owned_by owner r = true → run_status r = StatusRunning ∧ owner_id r = Some owner.
Proof. intros [H Ho]%owned_running. unfold has_status in H. by apply bool_decide_eq_true in H. Qed.

(** Queueing or skipping the next child always succeeds when its source has
    settings. *)
Lemma advance_child_Ok now d i c source : schema d → ingestion_runs d !! i = Some c → run_status c = StatusPlanned →
  source_settings d !! or_empty (run_job_key c) = Some source →
  ∃ c', advance_child now c d = Ok (true, with_run i c' d) ∧ run_identity c' = run_identity c ∧
    (run_status c' = StatusQueued ∧ src_enabled source = true ∨
     run_status c' = StatusSkipped ∧
       (skip_reason c' = Some "source_disabled" ∧ src_enabled source = false ∨
        skip_reason c' = Some "job_busy" ∧ ∃ j s, ingestion_runs d !! j = Some s ∧ j ≠ i ∧
          run_clash (set_run_status StatusQueued c) s = true)).
Proof.
  intros Hd Hi Hp Hs. destruct (t_ids _ _ _ _ _ (runs_ok d Hd) _ _ Hi) as [Hid _].
  assert (Hskip : ∀ reason, skip_child now i reason d =
    Ok (tt, with_run i (set_run_status StatusSkipped (set_skip_reason (Some reason) (set_finished_at (Some now) c))) d)).
  { intros reason. unfold skip_child. erewrite tx_bind_eq; [reflexivity|].
    apply (update_run_changes d i c); try done.
    - split; [done|]. split; [done|]. left. unfold active_job_key. cbn. by destruct (run_kind c).
    - intros He. apply (f_equal run_status) in He. by rewrite Hp in He. }
  unfold advance_child. rewrite Hid.
  rewrite (tx_bind_eq _ _ d (src_enabled source) d) by (apply sourceEnabled_Ok; eauto).
  destruct (src_enabled source) eqn:Hen; cbn [negb].
  2:{ eexists. rewrite (tx_bind_eq _ _ _ _ _ (Hskip _)). split; [reflexivity|]. split; [done|]. right.
      split; [done|]. by left. }
  destruct (update_run i (has_status StatusPlanned) (set_run_status StatusQueued) d) as [[n d1]|e] eqn:E.
  - assert (Hq := E). apply update_one_Ok in E as [(-> & r & Hr & _ & _ & _ & ->)|(-> & _ & Hall)].
    + assert (r = c) as -> by congruence. exists (set_run_status StatusQueued c).
      unfold tx_try, tx_bind. rewrite Hq. split; [reflexivity|]. split; [done|]. by left.
    + specialize (Hall c Hi). unfold has_status in Hall. rewrite Hp, bool_decide_eq_true_2 in Hall by done.
      specialize (Hall eq_refl). apply (f_equal run_status) in Hall. by rewrite Hp in Hall.
  - assert (Hq := E). apply update_one_Err in E as (r & Hr & _ & _ & Hv). assert (r = c) as -> by congruence.
    destruct (t_checks _ _ _ _ _ (runs_ok d Hd) _ _ Hi) as [Hck Href].
    assert (e = ErrDuplicateKey ∧ conflicts run_clash i (set_run_status StatusQueued c) (ingestion_runs d) = true) as [-> Hcf].
    { unfold run_verdict in Hv. change (run_check (set_run_status StatusQueued c)) with (run_check c) in Hv.
      change (run_references d (set_run_status StatusQueued c)) with (run_references d c) in Hv.
      rewrite Hck, Href in Hv. cbn [negb] in Hv. destruct (conflicts _ _ _ _); [|done]. by injection Hv as <-. }
    eexists. unfold tx_try at 1. unfold tx_bind at 1 2. rewrite Hq. cbn [duplicate]. rewrite Hskip.
    split; [reflexivity|]. split; [done|]. right. split; [done|]. right. split; [done|]. by apply conflicts_true.
Qed.

Lemma remaining_eq p d r : ingestion_runs d !! p = Some r →
  remaining p d = planned p d + one_if (has_status StatusRunning r).
Proof. unfold remaining, parent_running. by intros ->. Qed.

Lemma finish_parent_Ok now p owner status d r : schema d → ingestion_runs d !! p = Some r →
  run_kind r = KindRunAllParent → owned_by owner r = true → IsTerminal status = true →
  ∃ d' r', finish_parent now p owner status d = Ok (true, d') ∧ ingestion_runs d' !! p = Some r' ∧
    run_status r' = status ∧ remaining p d' = remaining p d - 1 ∧ actives p d' = actives p d.
Proof.
  intros Hd Hr Hk Ho Hst. destruct (owned_split _ _ Ho) as [Hrun _].
  set (r2 := set_run_status status (set_finished_at (Some now) r)).
  assert (Hr2 : ingestion_runs (with_run p r2 d) !! p = Some r2) by apply lookup_insert_eq.
  exists (with_run p r2 d), r2. split; [|split; [done|split; [done|split]]].
  - unfold finish_parent. erewrite tx_bind_eq; [reflexivity|]. apply (update_run_changes d p r); try done.
    + split; [done|]. split; [done|]. left. unfold active_job_key. cbn. by rewrite Hk.
    + intros He. apply (f_equal run_status) in He. cbn in He. rewrite Hrun in He. by subst status.
  - rewrite (remaining_eq _ _ _ Hr2), (remaining_eq _ _ _ Hr).
    assert (has_status StatusRunning r = true ∧ has_status StatusRunning r2 = false) as [-> ->]
      by (unfold has_status, r2; cbn; rewrite Hrun; by destruct status).
    assert (planned p (with_run p r2 d) = planned p d) as ->; [|cbn; lia].
    apply (count_parent_put d p r r2); [done|by eapply parent_no_child|done].
  - apply (count_parent_put d p r r2 (λ s, active (run_status s))); [done|by eapply parent_no_child|done].
Qed.

(** Advancing a planned child of a parent does one step of its work. *)
Lemma advance_child_remaining now p d r i c source : schema d → ingestion_runs d !! p = Some r →
  run_kind r = KindRunAllParent → ingestion_runs d !! i = Some c → planned_child p c = true →
  source_settings d !! or_empty (run_job_key c) = Some source →
  ∃ d', advance_child now c d = Ok (true, d') ∧ ingestion_runs d' !! p = Some r ∧ remaining p d' = remaining p d - 1.
Proof.
  intros Hd Hr Hk Hi Hcc Hs. pose proof Hcc as [Hch Hcp%bool_decide_eq_true]%andb_true_iff.
  pose proof (parent_no_child d p r Hd Hr Hk) as Hnp.
  assert (i ≠ p) as Hip by (intros ->; unfold child_of in Hch; apply bool_decide_eq_true in Hch; congruence).
  destruct (advance_child_Ok now d i c source Hd Hi Hcp Hs) as (c' & Hadv & Hic & Hst).
  exists (with_run i c' d). split; [done|].
  assert (ingestion_runs (with_run i c' d) !! p = Some r) as Hp by (cbn; by rewrite lookup_insert_ne).
  split; [done|]. rewrite (remaining_eq _ _ _ Hp), (remaining_eq _ _ _ Hr).
  assert (planned p (with_run i c' d) = planned p d - 1) as ->; [|lia].
  transitivity (count (planned_child p) (<[i := c']> (ingestion_runs d))); [done|].
  rewrite (count_put _ _ _ c), Hcc by done. fold (planned p d).
  assert (planned_child p c' = false) as ->; [|cbn; lia].
  unfold planned_child, has_status. destruct Hst as [[-> _]|[-> _]]; apply andb_false_r.
Qed.

Lemma planned_none p d : select_first by_position (planned_child p) (ingestion_runs d) = None ↔ planned p d = 0.
Proof.
  rewrite select_first_None. pose proof (count_nonneg (planned_child p) (ingestion_runs d)) as Hnn.
  pose proof (count_pos (planned_child p) (ingestion_runs d)) as Hpos. fold (planned p d) in Hnn, Hpos. split.
  - intros H. enough (¬ 0 < planned p d) by lia. intros (i & s & Hs & Hc)%Hpos. by rewrite (H i s Hs) in Hc.
  - intros H i s Hs. destruct (planned_child p s) eqn:E; [|done]. assert (0 < planned p d) by (apply Hpos; eauto). lia.
Qed.

(** What a reconciliation does after it has locked and renewed the parent. *)
Definition reconcile_locked (now p : Z) (owner : string) (cancelled : bool) : Tx db bool :=
  let* active := tx_gets (λ d, count (active_child p) (ingestion_runs d)) in
  if 0 <? active then tx_ret false
  else if cancelled then finish_parent now p owner StatusCancelled
  else
    let* child := tx_gets (λ d, select_first by_position
      (λ r, child_of p r && has_status StatusPlanned r) (ingestion_runs d)) in
    match child with
    | None => let* status := aggregateParentStatus p in finish_parent now p owner status
    | Some child => advance_child now child
    end.

Lemma reconcile_locks now p owner d r : schema d → ingestion_runs d !! p = Some r →
  run_kind r = KindRunAllParent → owned_by owner r = true → String.length owner = 64%nat →
  ReconcileParent now p owner d =
  reconcile_locked now p owner (isSome (cancel_requested_at r)) (with_run p (set_heartbeat_at (Some now) r) d).
Proof.
  intros Hd Hr Hk Ho Hlen. destruct (t_ids _ _ _ _ _ (runs_ok d Hd) _ _ Hr) as [Hid Hpos].
  destruct (owned_split _ _ Ho) as [Hrun Hown].
  assert (Hne : (owner =? "")%string = false) by (by destruct owner).
  unfold ReconcileParent. rewrite (proj2 (Z.eqb_neq _ _)) by lia. rewrite Hlen. cbn [Nat.eqb negb orb].
  unfold reconcileParentTransaction. rewrite (proj2 (Z.eqb_neq _ _)) by lia.
  rewrite (tx_bind_eq _ _ d (Some r) d).
  2:{ unfold tx_gets, find_parent. rewrite (proj2 (Z.eqb_neq _ _)) by lia. cbn [negb]. rewrite Hr, Ho, Hk. done. }
  rewrite Hid, Hown. cbn [or_empty]. rewrite Hne. set (d1 := with_run p (set_heartbeat_at (Some now) r) d).
  rewrite (tx_bind_eq _ _ d _ d1)
    by (apply (update_run_applies d p r); [done|done|done|split; [done|split; [done|by right]]]).
  rewrite (tx_bind_eq _ _ d1 (Some (set_heartbeat_at (Some now) r)) d1)
    by (unfold tx_gets, d1; cbn; by rewrite lookup_insert_eq).
  done.
Qed.

(** One reconciliation of an owned parent: it makes the step its children
    call for, unless the source of the next child has no settings. *)
Definition reconciled (now p : Z) (owner : string) (d : db) (r : run_row) : Prop :=
  ∃ changed d' r', ReconcileParent now p owner d = Ok (changed, d') ∧ ingestion_runs d' !! p = Some r' ∧
    (changed = false ↔ 0 < actives p d) ∧ remaining p d' = remaining p d - one_if changed ∧
    run_status r' =
      (if 0 <? actives p d then StatusRunning
       else if isSome (cancel_requested_at r) then StatusCancelled
       else if 0 <? planned p d then StatusRunning else parent_status d p) ∧
    (if changed then IsTerminal (run_status r') = true → actives p d' = 0 else actives p d' = actives p d).

Lemma reconcile_cases now p owner d r : schema d →
  ingestion_runs d !! p = Some r → run_kind r = KindRunAllParent → owned_by owner r = true →
  String.length owner = 64%nat →
  reconciled now p owner d r ∨
  (∃ e, ReconcileParent now p owner d = Err e) ∧
  ∃ i c, ingestion_runs d !! i = Some c ∧ child_of p c = true ∧ source_settings d !! or_empty (run_job_key c) = None.
Proof.
  intros Hd Hr Hk Ho Hlen. destruct (owned_split _ _ Ho) as [Hrun Hown].
  pose proof (parent_no_child d p r Hd Hr Hk) as Hnp. unfold reconciled. rewrite (reconcile_locks _ _ _ _ _ Hd Hr Hk Ho Hlen).
  set (r1 := set_heartbeat_at (Some now) r). set (d1 := with_run p r1 d).
  assert (Hd1 : schema d1) by (eapply with_run_schema; [done|done|split; [done|split; [done|by right]]]).
  assert (Hr1 : ingestion_runs d1 !! p = Some r1) by apply lookup_insert_eq.
  assert (Hc1 : ∀ cond, count (λ s, child_of p s && cond s) (ingestion_runs d1) =
    count (λ s, child_of p s && cond s) (ingestion_runs d)) by (intros; by apply (count_parent_put d p r r1)).
  assert (Hact1 : actives p d1 = actives p d) by exact (Hc1 (λ s, active (run_status s))).
  assert (Hpl : planned p d1 = planned p d) by exact (Hc1 (has_status StatusPlanned)).
  assert (Hrem : remaining p d1 = remaining p d)
    by (rewrite (remaining_eq _ _ _ Hr1), (remaining_eq _ _ _ Hr), Hpl; done).
  unfold reconcile_locked. rewrite (tx_bind_eq _ _ d1 (actives p d) d1) by (unfold tx_gets; by rewrite <- Hact1).
  destruct (Z.ltb_spec 0 (actives p d)) as [Hact|Hact].
  { left. exists false, d1, r1. split_and!; try done. rewrite Hrem. cbn. lia. }
  assert (Hdone : true = false ↔ 0 < actives p d) by (split; [done|lia]).
  destruct (isSome (cancel_requested_at r)).
  { destruct (finish_parent_Ok now p owner StatusCancelled d1 r1) as (d' & r' & Hf & Hr' & Hst & Hp & Ha); try done.
    left. exists true, d', r'. rewrite Hp, Hrem. split_and!; try done. intros _. pose proof (count_nonneg (active_child p) (ingestion_runs d)). unfold actives in *. lia. }
  destruct (select_first by_position (planned_child p) (ingestion_runs d1)) as [c|] eqn:Hsel;
    (rewrite (tx_bind_eq _ _ d1 _ d1) by (unfold tx_gets; unfold planned_child in Hsel; rewrite Hsel; reflexivity)).
  - pose proof Hsel as [Hcc [i Hi]]%select_first_Some. pose proof Hcc as [Hch _]%andb_true_iff.
    assert (ingestion_runs d !! i = Some c) as Hi0.
    { destruct (decide (i = p)) as [->|]; [|unfold d1 in Hi; cbn in Hi; by rewrite lookup_insert_ne in Hi].
      rewrite Hr1 in Hi. injection Hi as <-. unfold child_of in Hch. apply bool_decide_eq_true in Hch. cbn in Hch. congruence. }
    destruct (source_settings d !! or_empty (run_job_key c)) as [source|] eqn:Hsource.
    2:{ right. split; [|by exists i, c]. exists ErrNoRows. unfold advance_child. apply tx_bind_err.
        unfold sourceEnabled, tx_bind, tx_gets. change (source_settings d1) with (source_settings d). by rewrite Hsource. }
    destruct (advance_child_remaining now p d1 r1 i c source) as (d' & Hadv & Hp & Hre); try done.
    left. exists true, d', r1. rewrite Hre, Hrem. split_and!; try done.
    + rewrite (proj2 (Z.ltb_lt 0 (planned p d))); [exact Hrun|]. rewrite <- Hpl. apply count_pos. eauto.
    + change (run_status r1) with (run_status r). by rewrite Hrun.
  - apply planned_none in Hsel as Hp0. rewrite Hpl in Hp0. rewrite Hp0.
    assert (Hps : parent_status d1 p = parent_status d p) by (unfold parent_status; by rewrite !Hc1).
    assert (IsTerminal (parent_status d p) = true) as Ht by (unfold parent_status; by repeat case_match).
    destruct (finish_parent_Ok now p owner (parent_status d p) d1 r1) as (d' & r' & Hf & Hr' & Hst & Hp & Ha); try done.
    left. exists true, d', r'. rewrite (tx_bind_eq _ _ d1 (parent_status d p) d1) by (unfold aggregateParentStatus, tx_gets; by rewrite Hps).
    rewrite Hp, Hrem. split_and!; try done. intros _. pose proof (count_nonneg (active_child p) (ingestion_runs d)). unfold actives in *. lia.
Qed.

(** One reconciliation of an owned, running Run All parent whose
    children's sources have settings always commits.  While a child is queued
    or running it only renews the lease.  Otherwise it does exactly one step
    of the remaining work: it queues or skips one planned child, or ends the
    parent - as cancelled when that was requested, else (when no planned
    child is left) with the status its children add up to. *)
Theorem ReconcileParent_progress : ∀ now p owner d r, schema d →
  ingestion_runs d !! p = Some r → run_kind r = KindRunAllParent → owned_by owner r = true →
  String.length owner = 64%nat →
  (∀ i c, ingestion_runs d !! i = Some c → child_of p c = true →
     is_Some (source_settings d !! or_empty (run_job_key c))) →
  ∃ changed d' r', ReconcileParent now p owner d = Ok (changed, d') ∧ ingestion_runs d' !! p = Some r' ∧
    (changed = false ↔ 0 < actives p d) ∧ remaining p d' = remaining p d - one_if changed ∧
    run_status r' =
      (if 0 <? actives p d then StatusRunning
       else if isSome (cancel_requested_at r) then StatusCancelled
       else if 0 <? planned p d then StatusRunning else parent_status d p).
Proof.
  intros now p owner d r Hd Hr Hk Ho Hlen Hsrc.
  destruct (reconcile_cases now p owner d r Hd Hr Hk Ho Hlen) as [(ch & d' & r' & H1 & H2 & H3 & H4 & H5 & _)|(_ & i & c & Hi & Hc & Hn)]; [by exists ch, d', r'|].
  destruct (Hsrc i c Hi Hc) as [source Hs]. congruence.
Qed.

(** A reconciliation that changes something does one step of the work. *)
Lemma reconcile_true now p owner d d' : schema d → ReconcileParent now p owner d = Ok (true, d') →
  schema d' ∧ remaining p d' = remaining p d - 1.
Proof.
  intros Hd H. assert (∃ r, ingestion_runs d !! p = Some r ∧ run_kind r = KindRunAllParent ∧
    owned_by owner r = true ∧ String.length owner = 64%nat) as (r & Hr & Hk & Ho & Hlen).
  { assert (H0 := H). unfold ReconcileParent in H0. destruct (p =? 0) eqn:Ep; [done|].
    destruct (Nat.eqb_spec (String.length owner) 64) as [Hlen|]; [|done]. cbn [negb orb] in H0.
    apply tx_bind_Ok in H0 as (parent & d1 & [= <- <-] & H0). unfold find_parent in H0. rewrite Ep in H0. cbn [negb] in H0.
    destruct (ingestion_runs d !! p) as [r|]; [|done].
    destruct (bool_decide (run_kind r = KindRunAllParent) && owned_by owner r) eqn:E; [|done].
    apply andb_true_iff in E as [?%bool_decide_eq_true ?]. by exists r. }
  destruct (reconcile_cases now p owner d r Hd Hr Hk Ho Hlen) as [(ch & d2 & r' & E & _ & _ & Hrem & _)|[[e E] _]]; [|congruence].
  rewrite E in H. injection H as -> ->. split; [|exact Hrem]. unfold ReconcileParent in E. destruct (_ || _) in E; [done|].
  by eapply preserves_reconcile.
Qed.

(** ** Cancellation *)

(** A requester whose events the audit log stores. *)
Definition known_requester (d : db) (requester : Requester) : Prop :=
  attributable requester ∧ UserID (Actor requester) ∈ users d ∧ UserID (Effective requester) ∈ users d.

Lemma appendRunAudit_Ok now requester action id metadata d : known_requester d requester → action ∈ knownActions →
  id ≠ 0 → now ≠ zero_time →
  match metadata with Some j => Z.of_nat (String.length (json_print j)) <= MaxMetadataBytes | None => True end →
  ∃ row, appendRunAudit now requester action id metadata d = Ok (tt, set_db_audit_logs (db_audit_logs d ++ [row]) d) ∧
    al_action row = action ∧ al_actor row = Some (Actor requester) ∧ al_resource row = Some (ResourceIngestionRun, id).
Proof.
  intros ([Ha He] & Hua & Hue) Hk Hid Hnow Hm. unfold appendRunAudit, Append, attribution_of.
  set (row := mkAuditRow (Some (Actor requester)) (Some (Effective requester)) action
    (Some (ResourceIngestionRun, id)) (json_print <$> metadata) now).
  rewrite (tx_bind_eq _ _ d row d).
  - exists row. split; [|done]. cbn. unfold insert_audit_row, user_ok. cbn.
    by rewrite !bool_decide_eq_true_2 by done.
  - unfold tx_lift, audit_row_of, knownAction. cbn [e_action e_attribution a_actor a_effective e_resource e_resource_id e_metadata e_created_at].
    rewrite bool_decide_eq_true_2 by done. cbn [negb]. rewrite Ha, He. cbn [res_bind].
    rewrite (proj2 (Z.eqb_neq id 0)), (proj2 (Z.eqb_neq now zero_time)) by done. cbn [xorb bool_decide].
    destruct metadata as [j|]; cbn; [|done]. by rewrite (proj2 (Z.ltb_ge _ _)).
Qed.

(** What a cancellation of [id] makes of the row [i]. *)
Definition cancellation (now : instant) (reason : string) (id : Z) (parent : bool) (i : Z) (r : run_row) : run_row :=
  if i =? id then
    if negb parent && waiting (run_status r) then cancelled_now now reason r else cancel_request now reason r
  else if parent && child_of id r then
    if waiting (run_status r) then cancelled_now now reason r
    else if has_status StatusRunning r then cancel_request now reason r else r
  else r.

Lemma harmless_request now reason r : harmless r (cancel_request now reason r).
Proof. split; [done|]. split; [done|]. by right. Qed.
Lemma harmless_cancelled now reason r : harmless r (cancelled_now now reason r).
Proof. split; [done|]. split; [done|]. left. unfold active_job_key. by destruct (run_kind _). Qed.

(** The row updates of a cancellation, before its audit event. *)
Definition cancel_rows (now : instant) (reason : string) (id : Z) (row : run_row) : Tx db Z :=
  if bool_decide (run_kind row = KindRunAllParent) then
    update_run id (λ _, true) (cancel_request now reason) ;;;
    update_runs (λ r, child_of id r && waiting (run_status r)) (cancelled_now now reason) ;;;
    update_runs (λ r, child_of id r && has_status StatusRunning r) (cancel_request now reason)
  else if waiting (run_status row) then update_run id (λ _, true) (cancelled_now now reason)
  else update_run id (λ _, true) (cancel_request now reason).

Lemma cancel_rows_Ok now reason id row d : schema d → ingestion_runs d !! id = Some row →
  ∃ n t, cancel_rows now reason id row d = Ok (n, set_ingestion_runs t d) ∧
    ∀ i, t !! i = cancellation now reason id (bool_decide (run_kind row = KindRunAllParent)) i <$> ingestion_runs d !! i.
Proof.
  intros Hd Hr. unfold cancel_rows. case_bool_decide as Hk.
  - rewrite (tx_bind_eq _ _ _ _ _ (update_run_applies d id row (λ _, true) (cancel_request now reason) Hd Hr eq_refl
      (harmless_request now reason row))).
    set (t1 := <[id := cancel_request now reason row]> (ingestion_runs d)).
    eexists _, _. split; [reflexivity|]. cbn. intros i. rewrite !lookup_fmap. unfold t1, cancellation.
    pose proof (parent_no_child d id row Hd Hr Hk) as Hnp.
    destruct (decide (i = id)) as [->|Hne].
    + rewrite lookup_insert_eq, Hr, Z.eqb_refl. cbn. f_equal.
      assert (child_of id (cancel_request now reason row) = false) as Hc by (unfold child_of; cbn; by rewrite Hnp).
      rewrite Hc. cbn [andb]. by rewrite Hc.
    + rewrite lookup_insert_ne, (proj2 (Z.eqb_neq i id)) by done. destruct (ingestion_runs d !! i) as [s|]; [|done].
      change (child_of id (cancelled_now now reason s)) with (child_of id s).
      cbn [fmap option_fmap option_map]. f_equal. destruct (child_of id s) eqn:Ec; cbn [andb].
      * destruct (waiting (run_status s)) eqn:Ew; cbn [andb].
        -- change (child_of id (cancelled_now now reason s)) with (child_of id s). by rewrite Ec.
        -- by rewrite Ec.
      * by rewrite Ec.
  - assert (∀ set : run_row → run_row, harmless row (set row) →
      (∀ s, cancellation now reason id false id s = if waiting (run_status s) then cancelled_now now reason s else cancel_request now reason s) →
      set row = cancellation now reason id false id row →
      ∃ n t, update_run id (λ _, true) set d = Ok (n, set_ingestion_runs t d) ∧
        ∀ i, t !! i = cancellation now reason id false i <$> ingestion_runs d !! i) as Hgo.
    { intros set Hh _ Hset. eexists _, _. split; [by apply (update_run_applies d id row)|]. intros i.
      destruct (decide (i = id)) as [->|Hne]; [rewrite lookup_insert_eq, Hr; cbn; by rewrite Hset|].
      rewrite lookup_insert_ne by done. unfold cancellation. rewrite (proj2 (Z.eqb_neq i id)) by done. cbn.
      by destruct (ingestion_runs d !! i). }
    assert (∀ s, cancellation now reason id false id s = if waiting (run_status s) then cancelled_now now reason s else cancel_request now reason s)
      as Hself by (intros s; unfold cancellation; by rewrite Z.eqb_refl).
    destruct (waiting (run_status row)) eqn:Hw; (apply Hgo; [|done|by rewrite Hself, Hw]);
      [apply harmless_cancelled|apply harmless_request].
Qed.

Lemma cancellation_child now reason id parent i r p : child_of p (cancellation now reason id parent i r) = child_of p r.
Proof. unfold cancellation. by repeat case_match. Qed.

Lemma cancellation_waiting now reason id parent i r :
  parent = true ∧ i ≠ id ∧ child_of id r = true ∨ parent = false ∧ i = id →
  waiting (run_status (cancellation now reason id parent i r)) = false.
Proof.
  unfold cancellation. intros [(-> & Hne & Hc)|[-> ->]].
  - rewrite (proj2 (Z.eqb_neq i id)), Hc by done. cbn. destruct (waiting (run_status r)) eqn:E; [done|].
    by destruct (has_status StatusRunning r).
  - rewrite Z.eqb_refl. cbn. by destruct (waiting (run_status r)) eqn:E.
Qed.

(** A run that was stopped, or asked to, cannot be finished as succeeded. *)
Lemma cancellation_no_success now reason id parent i r : parent = true ∧ child_of id r = true ∨ i = id →
  ∀ owner, let s := cancellation now reason id parent i r in
  owned_by owner s && negb (isSome (cancel_requested_at s)) = false.
Proof.
  intros H owner. cbn. unfold cancellation. destruct (Z.eqb_spec i id) as [->|Hne].
  - destruct (negb parent && _); cbn; apply andb_false_r.
  - destruct H as [[-> ->]|H]; [|done]. cbn. destruct (waiting (run_status r)); [apply andb_false_r|].
    destruct (has_status StatusRunning r) eqn:E; [apply andb_false_r|]. unfold owned_by. by rewrite E.
Qed.

Lemma RequestCancellation_rows now id reason requester d r : ingestion_runs d !! id = Some r →
  IsTerminal (run_status r) = false →
  RequestCancellation now id reason requester d =
  (cancel_rows now (safeText reason 255) id r ;;;
   appendRunAudit now requester ActionIngestionCancellationRequested id None ;;; tx_ret true) d.
Proof.
  intros Hr Ht. unfold RequestCancellation. rewrite (tx_bind_eq _ _ d (ingestion_runs d !! id) d) by done.
  by rewrite Hr, Ht.
Qed.

Definition is_parent (r : run_row) : bool := bool_decide (run_kind r = KindRunAllParent).

(** Cancelling a run: a finished run is left alone (the answer is
    false); otherwise the request is recorded with one audit event, a waiting
    run is cancelled at once, and for a Run All parent every waiting child is
    cancelled and every running child is asked to stop, while all other rows
    stay.  Afterwards none of them can be finished as succeeded, and no child
    of a cancelled parent waits to be claimed. *)
Theorem RequestCancellation_stops : ∀ now id reason requester d, schema d → known_requester d requester →
  now ≠ zero_time →
  match ingestion_runs d !! id with
  | None => RequestCancellation now id reason requester d = Err ErrNoRows
  | Some r =>
      if IsTerminal (run_status r) then RequestCancellation now id reason requester d = Ok (false, d) else
      ∃ d' event, RequestCancellation now id reason requester d = Ok (true, d') ∧
        (∀ i, ingestion_runs d' !! i = cancellation now (safeText reason 255) id (is_parent r) i <$> ingestion_runs d !! i) ∧
        db_audit_logs d' = db_audit_logs d ++ [event] ∧ al_action event = ActionIngestionCancellationRequested ∧
        (∀ i s, ingestion_runs d' !! i = Some s →
           (is_parent r = true ∧ child_of id s = true ∨ is_parent r = false ∧ i = id → waiting (run_status s) = false) ∧
           (is_parent r = true ∧ child_of id s = true ∨ i = id →
            ∀ owner t, FinishSucceededInTx t i owner d' = Err ErrTransition))
  end.
Proof.
  intros now id reason requester d Hd Hreq Hnow. destruct (ingestion_runs d !! id) as [r|] eqn:Hr.
  2:{ unfold RequestCancellation. rewrite (tx_bind_eq _ _ d (ingestion_runs d !! id) d) by done. by rewrite Hr. }
  destruct (IsTerminal (run_status r)) eqn:Ht.
  { unfold RequestCancellation. rewrite (tx_bind_eq _ _ d (ingestion_runs d !! id) d) by done. by rewrite Hr, Ht. }
  set (parent := is_parent r).
  destruct (t_ids _ _ _ _ _ (runs_ok d Hd) _ _ Hr) as [_ Hpos].
  destruct (cancel_rows_Ok now (safeText reason 255) id r d Hd Hr) as (n & t & Hrows & Hlook).
  set (d1 := set_ingestion_runs t d) in *.
  destruct (appendRunAudit_Ok now requester ActionIngestionCancellationRequested id None d1) as (event & Ha & Hact & _);
    [done|by apply (bool_decide_eq_true_1 _); vm_compute|lia|done|done|].
  assert (Hres : RequestCancellation now id reason requester d =
    Ok (true, set_db_audit_logs (db_audit_logs d1 ++ [event]) d1)).
  { rewrite (RequestCancellation_rows _ _ _ _ _ r) by done.
    by rewrite (tx_bind_eq _ _ _ _ _ Hrows), (tx_bind_eq _ _ _ _ _ Ha). }
  pose proof (preserves_RequestCancellation _ _ _ _ _ _ _ Hd Hres) as Hd1.
  exists (set_db_audit_logs (db_audit_logs d1 ++ [event]) d1), event.
  split; [done|]. split; [exact Hlook|]. split; [done|]. split; [done|].
  intros i s Hs. cbn in Hs. rewrite Hlook in Hs. apply fmap_Some in Hs as (r0 & Hr0 & Hs).
  change (bool_decide (run_kind r = KindRunAllParent)) with (is_parent r) in Hs.
  split.
  - intros H. rewrite Hs. apply cancellation_waiting. destruct H as [[Hp Hc]|H]; [left|by right].
    rewrite Hs, cancellation_child in Hc. split; [done|]. split; [|done]. intros ->.
    assert (r0 = r) as -> by congruence. unfold parent, is_parent in Hp. apply bool_decide_eq_true in Hp.
    unfold child_of in Hc. rewrite (parent_no_child d id r) in Hc by done. done.
  - intros H owner t0. unfold FinishSucceededInTx. rewrite finish_outcome by done. cbn. rewrite Hlook, Hr0. cbn.
    change (bool_decide (run_kind r = KindRunAllParent)) with (is_parent r).
    rewrite cancellation_no_success; [done|]. destruct H as [[Hp Hc]|H]; [left|by right].
    by rewrite Hs, cancellation_child in Hc.
Qed.

(** ** Recovery *)

Lemma longer_silent_strict : strict longer_silent.
Proof.
  unfold longer_silent. split.
  - intros a. destruct (heartbeat_at a); rewrite ?Z.ltb_irrefl, ?andb_false_r; done.
  - intros a b c. destruct (heartbeat_at a), (heartbeat_at b), (heartbeat_at c); try done;
      rewrite ?orb_true_iff, ?andb_true_iff, ?Z.ltb_lt, ?Z.eqb_eq; lia.
Qed.

Lemma longer_silent_total d : schema d → ∀ i j a b, ingestion_runs d !! i = Some a → ingestion_runs d !! j = Some b →
  longer_silent a b = false → longer_silent b a = false → a = b.
Proof.
  intros Hd i j a b Ha Hb H1 H2.
  destruct (t_ids _ _ _ _ _ (runs_ok d Hd) _ _ Ha) as [Hi _], (t_ids _ _ _ _ _ (runs_ok d Hd) _ _ Hb) as [Hj _].
  assert (run_id a = run_id b); [|congruence]. unfold longer_silent in *.
  destruct (heartbeat_at a), (heartbeat_at b); try done;
    rewrite ?orb_false_iff, ?andb_false_iff, ?Z.ltb_ge, ?Z.eqb_neq in H1, H2; lia.
Qed.

Lemma stale_spec now lease r : stale now lease r = true ↔
  run_status r = StatusRunning ∧ is_Some (owner_id r) ∧ ∃ h, heartbeat_at r = Some h ∧ h < now - lease.
Proof.
  unfold stale, has_status. rewrite !andb_true_iff, bool_decide_eq_true, isSome_spec.
  destruct (heartbeat_at r) as [h|]; [rewrite Z.ltb_lt|]; naive_solver.
Qed.

Lemma stale_still now lease r : stale now lease r = true → still_stale now lease r r = true.
Proof.
  intros H. unfold still_stale. unfold stale in H. apply andb_true_iff in H as [[-> _]%andb_true_iff ->].
  by rewrite !bool_decide_eq_true_2.
Qed.

Definition abandoned_row (now : instant) : run_row → run_row :=
  abandon now (abandoned_error "Worker ownership expired; stale execution recovered automatically." (Some "ownership_lease")).

(** A transaction that only adds runs. *)
Definition extends {A} (m : Tx db A) : Prop := ∀ d a d', schema d → m d = Ok (a, d') →
  schema d' ∧ ∀ i r, ingestion_runs d !! i = Some r → ingestion_runs d' !! i = Some r.

Lemma extends_readonly {A} (m : Tx db A) : readonly m → extends m.
Proof. intros Hm d a d' Hd H. by rewrite (Hm _ _ _ H). Qed.
Lemma extends_ret {A} (a : A) : extends (tx_ret a).
Proof. apply extends_readonly. by intros d x d' [= _ <-]. Qed.
Lemma extends_fail {A} e : extends (@tx_fail db A e).
Proof. by intros d a d'. Qed.
Lemma extends_gets {A} (f : db → A) : extends (tx_gets f).
Proof. apply extends_readonly. by intros d x d' [= _ <-]. Qed.
Lemma extends_lift {A} (m : result A) : extends (tx_lift m).
Proof. apply extends_readonly. by intros d x d' (? & _ & [= _ ->])%tx_lift_Ok. Qed.
Lemma extends_bind {A B} (m : Tx db A) (k : A → Tx db B) : extends m → (∀ a, extends (k a)) → extends (tx_bind m k).
Proof.
  intros Hm Hk d b d' Hd (a & d1 & H1 & H2)%tx_bind_Ok. destruct (Hm _ _ _ Hd H1) as [Hd1 Ho].
  destruct (Hk a _ _ _ Hd1 H2) as [Hd' Ho']. eauto.
Qed.
Lemma extends_insertRun now kind parent position key status parameters trigger reference requester :
  extends (insertRun now kind parent position key status parameters trigger reference requester).
Proof.
  intros d a d' Hd H. split; [exact (preserves_insertRun _ _ _ _ _ _ _ _ _ _ _ _ _ Hd H)|].
  apply insert_one_Ok in H as (-> & _ & ->). intros i r Hr. cbn. rewrite lookup_insert_ne; [done|].
  intros <-. by rewrite fresh_run_none in Hr.
Qed.
#[export] Hint Resolve extends_ret extends_fail extends_gets extends_lift extends_insertRun : moves.

Ltac tx_extends :=
  repeat first
    [ solve [eauto with moves]
    | apply extends_bind; [|intros ?]
    | match goal with |- extends (match ?x with _ => _ end) => destruct x end ].

Lemma extends_ensureRunAllChildren now p : extends (ensureRunAllChildren now p).
Proof.
  assert (∀ jobs position from to by_ byP byJ, extends (insertMissing now p position jobs from to by_ byP byJ)).
  { induction jobs as [|job jobs IH]; intros; cbn [insertMissing]; tx_extends. }
  unfold ensureRunAllChildren, getRun. generalize (Jobs theCatalog). intros jobs. tx_extends.
Qed.

Lemma harmless_abandoned now error r : harmless r (abandon now error r).
Proof. split; [done|]. split; [done|]. left. unfold active_job_key. by destruct (run_kind _). Qed.

Lemma recover_job now lease owner d c : schema d → ingestion_runs d !! run_id c = Some c →
  stale now lease c = true → run_kind c ≠ KindRunAllParent →
  recover_candidate now lease owner c d = Ok (Some (recovery_of c ""), with_run (run_id c) (abandoned_row now c) d).
Proof.
  intros Hd Hc Hs Hk. apply stale_spec in Hs as Hs'. destruct Hs' as (Hrun & _).
  assert (update_run (run_id c) (still_stale now lease c) (abandoned_row now) d =
    Ok (1, with_run (run_id c) (abandoned_row now c) d)) as Hup.
  { apply (update_run_changes d (run_id c) c); [exact Hd|exact Hc|exact (stale_still _ _ _ Hs)|exact (harmless_abandoned now _ c)|].
    intros He. apply (f_equal run_status) in He. by rewrite Hrun in He. }
  unfold recover_candidate. destruct (run_kind c); [|done|]; by rewrite (tx_bind_eq _ _ _ _ _ Hup).
Qed.

(** The take-over of a parent either commits, writing its ownership and
    adding children, or fails as a whole. *)
Lemma recover_parent now lease owner d c : schema d → ingestion_runs d !! run_id c = Some c →
  stale now lease c = true → run_kind c = KindRunAllParent → 0 < lease →
  (∃ e, recover_candidate now lease owner c d = Err e) ∨
  (∃ d', recover_candidate now lease owner c d = Ok (Some (recovery_of c owner), d') ∧
     (∀ i r, ingestion_runs d !! i = Some r → i ≠ run_id c → ingestion_runs d' !! i = Some r) ∧
     ∃ c', ingestion_runs d' !! run_id c = Some c' ∧ run_status c' = StatusRunning ∧
       owner_id c' = Some owner ∧ heartbeat_at c' = Some now).
Proof.
  intros Hd Hc Hs Hk Hl. apply stale_spec in Hs as Hs'. destruct Hs' as (Hrun & _ & h & Hh & Hlt).
  set (c' := set_owner_id (Some owner) (set_claimed_at (Some now) (set_heartbeat_at (Some now) c))).
  set (d1 := with_run (run_id c) c' d).
  assert (update_run (run_id c) (λ r, bool_decide (run_kind r = KindRunAllParent) && still_stale now lease c r)
    (set_owner_id (Some owner) ∘ set_claimed_at (Some now) ∘ set_heartbeat_at (Some now)) d = Ok (1, d1)) as Hup.
  { apply (update_run_changes d (run_id c) c); [exact Hd|exact Hc| | |].
    - rewrite bool_decide_eq_true_2 by done. by apply stale_still.
    - split; [done|]. split; [done|]. by right.
    - intros He. apply (f_equal heartbeat_at) in He. cbn in He. rewrite Hh in He. injection He as ->. lia. }
  assert (Hd1 : schema d1) by (eapply with_run_schema; [done|done|split; [done|split; [done|by right]]]).
  unfold recover_candidate. rewrite Hk, (tx_bind_eq _ _ _ _ _ Hup), Z.eqb_refl. cbn [negb].
  destruct (ensureRunAllChildren now (run_id c) d1) as [[[] d']|e] eqn:E.
  2:{ left. exists e. by rewrite (tx_bind_err _ _ _ _ E). }
  right. exists d'. rewrite (tx_bind_eq _ _ _ _ _ E). split; [done|].
  destruct (extends_ensureRunAllChildren _ _ _ _ _ Hd1 E) as [_ Hext]. split.
  - intros i r Hi Hne. apply Hext. cbn. by rewrite lookup_insert_ne.
  - exists c'. split; [apply Hext; apply lookup_insert_eq|]. done.
Qed.

Lemma recover_one : ∀ now lease owner d, schema d → 0 < lease → String.length owner = 64%nat →
  match select_first longer_silent (stale now lease) (ingestion_runs d) with
  | None => (∀ i r, ingestion_runs d !! i = Some r → stale now lease r = false) ∧
      RecoverOneStale now lease [id] owner d = Some (Ok None, d)
  | Some c => stale now lease c = true ∧
      (∀ i r, ingestion_runs d !! i = Some r → stale now lease r = true → longer_silent r c = false) ∧
      (run_kind c ≠ KindRunAllParent →
         RecoverOneStale now lease [id] owner d =
           Some (Ok (Some (recovery_of c "")), with_run (run_id c) (abandoned_row now c) d)) ∧
      (run_kind c = KindRunAllParent →
         (∃ e, RecoverOneStale now lease [id] owner d = Some (Err e, d)) ∨
         (∃ d' c', RecoverOneStale now lease [id] owner d = Some (Ok (Some (recovery_of c owner)), d') ∧
            (∀ i r, ingestion_runs d !! i = Some r → i ≠ run_id c → ingestion_runs d' !! i = Some r) ∧
            ingestion_runs d' !! run_id c = Some c' ∧ owner_id c' = Some owner ∧ heartbeat_at c' = Some now)) ∧
      (∀ race, schema (race d) → ingestion_runs (race d) !! run_id c = Some c →
         is_Some (RecoverOneStale now lease [race] owner d))
  end.
Proof.
  intros now lease owner d Hd Hl Hlen. unfold RecoverOneStale. rewrite (proj2 (Z.leb_gt _ _)), Hlen by lia.
  cbn [Nat.eqb negb orb recover_loop]. unfold recover_step, id.
  destruct (select_first longer_silent (stale now lease) (ingestion_runs d)) as [c|] eqn:Hsel.
  2:{ split; [exact (proj1 (select_first_None _ _ _) Hsel)|done]. }
  pose proof (select_first_Some _ _ _ _ Hsel) as [Hs [i Hi]].
  destruct (t_ids _ _ _ _ _ (runs_ok d Hd) _ _ Hi) as [<- _].
  split; [done|]. split; [|split; [|split]].
  - intros j r Hr Hst. eapply (select_first_least longer_silent); [apply longer_silent_strict|by apply longer_silent_total|done|done|done].
  - intros Hk. unfold runTx. by rewrite recover_job.
  - intros Hk. unfold runTx.
    destruct (recover_parent now lease owner d c Hd Hi Hs Hk Hl) as [[e ->]|(d' & -> & Hold & c' & Hc' & _ & Ho & Hh)].
    + left. by exists e.
    + right. by exists d', c'.
  - intros race Hrace Hrow. unfold runTx. destruct (decide (run_kind c = KindRunAllParent)) as [Hk|Hk].
    + destruct (recover_parent now lease owner (race d) c Hrace Hrow Hs Hk Hl) as [[e ->]|(d' & -> & _)]; by eexists.
    + rewrite recover_job by done. by eexists.
Qed.

(** Recovery of silent owners.  Without interference one iteration of
    the loop is enough: it reports nothing when no running run has been
    silent for longer than the lease, otherwise it takes the longest silent
    one; a job or child is abandoned with its former owner and heartbeat
    recorded, a Run All parent passes to the new owner with a fresh heartbeat
    or the transaction fails as a whole; no other existing row is written.
    Interference by other transactions can only make the loop go on by
    changing the very row it has read. *)
Theorem RecoverOneStale_recovers : ∀ now lease owner d, schema d → 0 < lease → String.length owner = 64%nat →
  match select_first longer_silent (stale now lease) (ingestion_runs d) with
  | None => (∀ i r, ingestion_runs d !! i = Some r → stale now lease r = false) ∧
      RecoverOneStale now lease [id] owner d = Some (Ok None, d)
  | Some c => stale now lease c = true ∧
      (∀ i r, ingestion_runs d !! i = Some r → stale now lease r = true → longer_silent r c = false) ∧
      (run_kind c ≠ KindRunAllParent →
         RecoverOneStale now lease [id] owner d =
           Some (Ok (Some (recovery_of c "")), with_run (run_id c) (abandoned_row now c) d)) ∧
      (run_kind c = KindRunAllParent →
         (∃ e, RecoverOneStale now lease [id] owner d = Some (Err e, d)) ∨
         (∃ d' c', RecoverOneStale now lease [id] owner d = Some (Ok (Some (recovery_of c owner)), d') ∧
            (∀ i r, ingestion_runs d !! i = Some r → i ≠ run_id c → ingestion_runs d' !! i = Some r) ∧
            ingestion_runs d' !! run_id c = Some c' ∧ owner_id c' = Some owner ∧ heartbeat_at c' = Some now)) ∧
      (∀ race, schema (race d) → ingestion_runs (race d) !! run_id c = Some c →
         is_Some (RecoverOneStale now lease [race] owner d))
  end.
Proof. exact recover_one. Qed.

(** The Run All [p] has a child with this status. *)
Definition some_child (d : db) (p : Z) (status : Status) : Prop :=
  ∃ i r, ingestion_runs d !! i = Some r ∧ parent_run_id r = Some p ∧ run_status r = status.

(** The status a Run All ends with: failed when a child failed, was
    cancelled or abandoned; otherwise completed with skips when a child was
    skipped; otherwise completed. *)
Theorem parent_status_spec : ∀ d p,
  (parent_status d p = StatusFailed ↔
     some_child d p StatusFailed ∨ some_child d p StatusCancelled ∨ some_child d p StatusAbandoned) ∧
  (parent_status d p = StatusCompletedWithSkips ↔
     ¬ (some_child d p StatusFailed ∨ some_child d p StatusCancelled ∨ some_child d p StatusAbandoned) ∧ some_child d p StatusSkipped) ∧
  (parent_status d p = StatusCompleted ↔
     ¬ (some_child d p StatusFailed ∨ some_child d p StatusCancelled ∨ some_child d p StatusAbandoned ∨ some_child d p StatusSkipped)).
Proof.
  intros d p.
  assert (Hc : ∀ status, 0 < count (λ r, child_of p r && has_status status r) (ingestion_runs d) ↔ some_child d p status).
  { intros status. rewrite count_pos. unfold some_child, child_of, has_status.
    setoid_rewrite andb_true_iff. setoid_rewrite bool_decide_eq_true. naive_solver. }
  assert (Hn : ∀ status, 0 <= count (λ r, child_of p r && has_status status r) (ingestion_runs d))
    by (intros; apply count_nonneg).
  pose proof (Hc StatusFailed) as Hf. pose proof (Hc StatusCancelled) as Hcn. pose proof (Hc StatusAbandoned) as Ha.
  pose proof (Hc StatusSkipped) as Hs. pose proof (Hn StatusFailed) as Hnf. pose proof (Hn StatusCancelled) as Hnc.
  pose proof (Hn StatusAbandoned) as Hna. clear Hc Hn. unfold parent_status.
  assert (Hsum : 0 < count (λ r, child_of p r && has_status StatusFailed r) (ingestion_runs d) +
      count (λ r, child_of p r && has_status StatusCancelled r) (ingestion_runs d) +
      count (λ r, child_of p r && has_status StatusAbandoned r) (ingestion_runs d) ↔
    some_child d p StatusFailed ∨ some_child d p StatusCancelled ∨ some_child d p StatusAbandoned).
  { rewrite <- Hf, <- Hcn, <- Ha. lia. }
  destruct (Z.ltb_spec 0 (count (λ r, child_of p r && has_status StatusFailed r) (ingestion_runs d) +
      count (λ r, child_of p r && has_status StatusCancelled r) (ingestion_runs d) +
      count (λ r, child_of p r && has_status StatusAbandoned r) (ingestion_runs d))) as [H1|H1].
  - apply Hsum in H1. split_and!; (split; [intros [=]|]); tauto.
  - assert (¬ (some_child d p StatusFailed ∨ some_child d p StatusCancelled ∨ some_child d p StatusAbandoned)) as Hno
      by (rewrite <- Hsum; lia).
    destruct (Z.ltb_spec 0 (count (λ r, child_of p r && has_status StatusSkipped r) (ingestion_runs d))) as [H2|H2].
    + apply Hs in H2. split_and!; (split; [intros [=]|]); tauto.
    + assert (¬ some_child d p StatusSkipped) by (rewrite <- Hs; lia). split_and!; (split; [intros [=]|]); tauto.
Qed.

(** ** Witnesses *)

(** A Run All with parent 1 and one planned child. *)
Definition sample_parent : run_row :=
  parent_row 5 1 sample_owner (mkParameters RunAllRangeV1 1 "" "") TriggerDirect "" None.
Definition sample_child : run_row := child_row 5 2 1 1 "cif_detail" (mkParameters LiveSnapshotV1 1 "{}" "") None.
Definition sample_all : db :=
  mkDb {[ 1 ]} (Some (mkRuntimeSettings 2 4 3)) {[ "cif_detail" := mkSource false None ]} ∅
    {[ 1 := sample_parent; 2 := sample_child ]} 3 ∅ 1 ∅ 1 ∅ 1 [].
Lemma sample_all_schema : schema sample_all.
Proof. apply schema_b_sound. vm_compute. reflexivity. Qed.

Definition sample_requester : Requester := mkRequester (mkIdentity 1 "ops") (mkIdentity 1 "ops") 1 "admin" ∅.

Lemma submitInTx_outcome_witness : ∃ parameters,
  submitInTx 9 "cif_detail" parameters TriggerDirect "" None false sample_db = Err ErrJobBusy.
Proof.
  destruct (Find theCatalog "cif_detail") as [job|] eqn:E; [|vm_compute in E; discriminate].
  pose proof (proj1 (Find_spec _ _) E) as [Hj _].
  destruct (parametersForJob_accepted job (mkDate 2024 1 1) (mkDate 2024 1 2) Hj eq_refl eq_refl
    ltac:(vm_compute; discriminate) eq_refl) as (parameters & _ & Hv & _).
  exists parameters.
  apply (submitInTx_outcome 9 "cif_detail" parameters TriggerDirect "" None false sample_db sample_schema).
  - unfold admissible. rewrite E, Hv. vm_compute. reflexivity.
  - exists 1, (sample_row 1 "cif_detail" StatusRunning (Some sample_owner)). split; [reflexivity|]. left. reflexivity.
Defined.

Lemma CreateRunAll_complete_witness : ∃ d' r,
  CreateRunAll 9 sample_owner (mkDate 2024 1 1) (mkDate 2024 1 2) TriggerDirect "" (Some 1) sample_db = Ok (3, d') ∧
  ingestion_runs d' !! 3 = Some r ∧ run_status r = StatusRunning.
Proof.
  destruct (CreateRunAll_complete 9 sample_owner (mkDate 2024 1 1) (mkDate 2024 1 2) TriggerDirect "" (Some 1) sample_db
    sample_schema eq_refl eq_refl ltac:(vm_compute; discriminate) eq_refl eq_refl) as (d' & pp & H1 & _ & H2 & _).
  exists d', (parent_row 9 3 sample_owner pp TriggerDirect "" (Some 1)). split; [exact H1|]. split; [exact H2|reflexivity].
Defined.

Lemma ReconcileParent_progress_witness : ∃ d' r',
  ReconcileParent 9 1 sample_owner sample_all = Ok (true, d') ∧ ingestion_runs d' !! 1 = Some r' ∧ remaining 1 d' = 1.
Proof.
  assert (Hsrc : ∀ i c, ingestion_runs sample_all !! i = Some c → child_of 1 c = true →
    is_Some (source_settings sample_all !! or_empty (run_job_key c))).
  { intros i c Hc. cbn in Hc. apply lookup_insert_Some in Hc as [[_ <-]|[_ [_ <-]%lookup_singleton_Some]]; vm_compute; [done|eauto]. }
  destruct (ReconcileParent_progress 9 1 sample_owner sample_all sample_parent sample_all_schema eq_refl eq_refl eq_refl
    eq_refl Hsrc) as (changed & d' & r' & H1 & H2 & H3 & H4 & _).
  destruct changed.
  - exists d', r'. split; [exact H1|]. split; [exact H2|]. rewrite H4. vm_compute. reflexivity.
  - exfalso. assert (0 < actives 1 sample_all) as Hpos by (apply H3; reflexivity). vm_compute in Hpos. discriminate.
Defined.

Lemma RequestCancellation_stops_witness : ∃ d', schema sample_all ∧ known_requester sample_all sample_requester ∧
  RequestCancellation 9 1 "stop" sample_requester sample_all = Ok (true, d') ∧
  (λ r, run_status r) <$> ingestion_runs d' !! 2 = Some StatusCancelled.
Proof.
  assert (Hk : known_requester sample_all sample_requester).
  { split; [split; vm_compute; reflexivity|]. split; apply (bool_decide_eq_true_1 _); vm_compute; reflexivity. }
  pose proof (RequestCancellation_stops 9 1 "stop" sample_requester sample_all sample_all_schema Hk
    ltac:(vm_compute; discriminate)) as H.
  change (ingestion_runs sample_all !! 1) with (Some sample_parent) in H.
  destruct H as (d' & event & H1 & H2 & _).
  exists d'. split; [exact sample_all_schema|]. split; [exact Hk|]. split; [exact H1|].
  rewrite (H2 2). vm_compute. reflexivity.
Defined.

(** Run 1 has been silent since 5. *)
Definition sample_silent : db :=
  with_run 1 (set_heartbeat_at (Some 5) (sample_row 1 "cif_detail" StatusRunning (Some sample_owner))) sample_db.
Lemma sample_silent_schema : schema sample_silent.
Proof. apply schema_b_sound. vm_compute. reflexivity. Qed.

Lemma RecoverOneStale_recovers_witness : ∃ recovery d',
  RecoverOneStale 1000 100 [id] sample_owner sample_silent = Some (Ok (Some recovery), d') ∧
  rec_previous_owner recovery = sample_owner ∧
  (λ r, run_status r) <$> ingestion_runs d' !! 1 = Some StatusAbandoned.
Proof.
  pose proof (RecoverOneStale_recovers 1000 100 sample_owner sample_silent sample_silent_schema eq_refl eq_refl) as H.
  assert (select_first longer_silent (stale 1000 100) (ingestion_runs sample_silent) =
    Some (set_heartbeat_at (Some 5) (sample_row 1 "cif_detail" StatusRunning (Some sample_owner)))) as Hs
    by (vm_compute; reflexivity).
  rewrite Hs in H. destruct H as (_ & _ & H & _). eexists _, _. split; [apply H; discriminate|].
  split; [reflexivity|]. vm_compute. reflexivity.
Defined.
