(* ===== verification/ScheduleModel.v ===== *)
(** * Schedule definitions (src/internal/scheduler/model.go)

    Policies, cron expressions and the definition of a schedule.  The cron
    parser (github.com/robfig/cron) and the time-zone database are not part
    of the repository: [CronLibrary] is what the scheduler uses of them. *)

From S2P Require Import Prelude Calendar Json Hash Catalog Params Store.

Open Scope Z_scope.

(** ** The cron and time-zone libraries *)

(** [ParseStandardFields] is the parser built from the five field options,
    [LoadLocation] is [time.LoadLocation], and [cron_next] is
    [schedule.Next(after.In(location))], [None] standing for the zero time.
    Documented: Next returns a time later than the given one, or the zero
    time. *)
Class CronLibrary := {
  cron_schedule : Type;
  cron_location : Type;
  ParseStandardFields : string → option cron_schedule;
  LoadLocation : string → option cron_location;
  cron_next : cron_schedule → cron_location → instant → option instant;
  cron_next_later : ∀ s l t n, cron_next s l t = Some n → t < n }.

(** ** Policies and definitions *)

Definition DefaultTimezone : string := "Asia/Jakarta".
Definition MaxBulkSelection : nat := 25.
Definition PolicyPreviousCalendarDay : string := "previous_calendar_day_jakarta".
Definition PolicyLiveSnapshot : string := "live_snapshot".
Definition PolicyDetailLiveSnapshot : string := "detail_live_snapshot".
Definition policyVersionV1 : Z := 1.

Record Policy := mkPolicy {
  pol_kind : string; pol_version : Z; pol_payload : string; pol_checksum : string }.
#[export] Instance Policy_eq_dec : EqDecision Policy. Proof. solve_decision. Defined.

Record Definition_ := mkDefinition {
  d_name : string; d_job : string; d_cron : string; d_timezone : string; d_policy : Policy }.

(** The JSON object whose digest is the policy's checksum. *)
Definition policy_envelope (kind : string) (version : Z) : json :=
  JObj [("kind", JStr kind); ("version", jnum version); ("payload", JObj [])].

Definition canonicalPolicy (kind : string) (version : Z) (payload : string) : result Policy :=
  if negb ((kind =? PolicyPreviousCalendarDay)%string || (kind =? PolicyLiveSnapshot)%string ||
           (kind =? PolicyDetailLiveSnapshot)%string) || negb (version =? policyVersionV1)
  then Err (ErrInvalidDefinition "unsupported policy") else
  match json_decode payload with
  | Some (JObj [] | JNull) =>
      Ok (mkPolicy kind version (json_print (JObj [])) (sha256 (json_print (policy_envelope kind version))))
  | _ => Err (ErrInvalidDefinition "policy payload")
  end.

Definition validatePolicy (policy : Policy) : result Policy :=
  let? canonical := canonicalPolicy (pol_kind policy) (pol_version policy) (pol_payload policy) in
  if negb (pol_checksum policy =? zero_checksum)%string && negb (pol_checksum policy =? pol_checksum canonical)%string
  then Err (ErrInvalidDefinition "policy checksum mismatch") else Ok canonical.

(** ** Retry delays *)

Definition retryDelay (attempt : Z) : Z :=
  if attempt =? 0 then 0
  else if 6 <=? attempt then 30 * minute
  else Z.shiftl minute (attempt - 1).

(** ** Parameters of an occurrence *)

Definition parametersForOccurrence (job : JobDefinition) (scheduledFor : instant) : result Parameters :=
  let date := ResolvePreviousCalendarDayJakarta scheduledFor in
  match j_strategy job with
  | RangeCapable => NewRangeExecution (j_key job) date date
  | SingleDate =>
      if bool_decide (j_category job = CategoryFixed) then NewDateSeriesExecution (j_key job) date date
      else NewMaintenanceSeriesExecution (j_key job) date date
  | NoDate => NewLiveSnapshotExecution (j_key job)
  end.

(** [value.UTC().Format(time.RFC3339Nano)]: the fraction without trailing
    zeros. *)
Fixpoint strip_zeros (l : list ascii) : list ascii :=
  match l with c :: l' => if (c =? "0")%char then strip_zeros l' else l | [] => [] end.
Definition fraction (micros : Z) : string :=
  if micros =? 0 then "" else
  "." +:+ String.string_of_list_ascii (rev (strip_zeros (rev (String.list_ascii_of_string
    (pad2 (micros / 10000) +:+ pad2 (micros / 100 mod 100) +:+ pad2 (micros mod 100)))))).
Definition rfc3339nano (value : instant) : string :=
  let clock := value mod day_length in
  format_date (days_date (value / day_length)) +:+ "T" +:+ pad2 (clock / hour) +:+ ":" +:+
  pad2 (clock / minute mod 60) +:+ ":" +:+ pad2 (clock / second mod 60) +:+ fraction (clock mod second) +:+ "Z".

Section Cron.
Context {cron : CronLibrary}.

(** [cronDefinition]: a parsed expression in its time zone. *)
Record cronDefinition := mkCron { cd_schedule : cron_schedule; cd_location : cron_location }.

Definition Next (definition : cronDefinition) (after : instant) : option instant :=
  cron_next (cd_schedule definition) (cd_location definition) after.

Definition IsOccurrence (definition : cronDefinition) (value : instant) : bool :=
  (value mod second =? 0) && bool_decide (Next definition (value - minute) = Some value).

Definition parseCron (expression timezone : string) (reference : instant) : result cronDefinition :=
  let expression := trim_space expression in
  let timezone := trim_space timezone in
  if (expression =? "")%string || (128 <? String.length expression)%nat || has_prefix expression "@" ||
     contains expression "CRON_TZ=" || contains expression "TZ="
  then Err (ErrInvalidDefinition "strict five-field cron is required") else
  if (timezone =? "")%string || (64 <? String.length timezone)%nat || (timezone =? "Local")%string ||
     has_prefix timezone "+" || has_prefix timezone "-"
  then Err (ErrInvalidDefinition "IANA timezone is required") else
  match LoadLocation timezone with
  | None => Err (ErrInvalidDefinition "load timezone")
  | Some location =>
      match ParseStandardFields expression with
      | None => Err (ErrInvalidDefinition "parse cron")
      | Some schedule =>
          let definition := mkCron schedule location in
          match Next definition reference with
          | None => Err (ErrInvalidDefinition "cron has no future occurrence")
          | Some _ => Ok definition
          end
      end
  end.

(** The policy a job's schedules must have. *)
Definition wantPolicy (job : JobDefinition) : string :=
  if bool_decide (j_strategy job = NoDate) then PolicyLiveSnapshot else PolicyPreviousCalendarDay.
(** The legacy name means the live snapshot. *)
Definition semanticKind (kind : string) : string :=
  if (kind =? PolicyDetailLiveSnapshot)%string then PolicyLiveSnapshot else kind.

Definition validateDefinition (definition : Definition_) (reference : instant) : result (Definition_ * cronDefinition) :=
  let name := trim_space (d_name definition) in
  let jobKey := trim_space (d_job definition) in
  let expression := trim_space (d_cron definition) in
  let timezone := trim_space (d_timezone definition) in
  if (name =? "")%string || (128 <? length (runes name))%nat
  then Err (ErrInvalidDefinition "schedule name is required and limited to 128 characters") else
  match Find theCatalog jobKey with
  | None => Err (ErrInvalidDefinition "unknown job")
  | Some job =>
      let? policy := validatePolicy (d_policy definition) in
      if negb (semanticKind (pol_kind policy) =? wantPolicy job)%string
      then Err (ErrInvalidDefinition "job requires another policy") else
      let? parsed := parseCron expression timezone reference in
      Ok (mkDefinition name jobKey expression timezone policy, parsed)
  end.

End Cron.

(** ** Lemmas *)

Lemma retryDelay_values : retryDelay 1 = minute ∧ retryDelay 2 = 2 * minute ∧ retryDelay 3 = 4 * minute ∧
  retryDelay 4 = 8 * minute ∧ retryDelay 5 = 16 * minute ∧ retryDelay 6 = 30 * minute.
Proof. by vm_compute. Qed.

Lemma canonicalPolicy_Ok kind version payload p : canonicalPolicy kind version payload = Ok p →
  pol_kind p = kind ∧ pol_version p = version ∧ pol_payload p = "{}" ∧ version = 1 ∧
  (kind = PolicyPreviousCalendarDay ∨ kind = PolicyLiveSnapshot ∨ kind = PolicyDetailLiveSnapshot) ∧
  pol_checksum p = sha256 (json_print (policy_envelope kind version)).
Proof.
  unfold canonicalPolicy. generalize (sha256 (json_print (policy_envelope kind version))). intros digest.
  destruct (negb _ || _) eqn:E; [done|]. apply orb_false_iff in E as [Ek Ev].
  apply negb_false_iff, Z.eqb_eq in Ev. apply negb_false_iff in Ek. rewrite !orb_true_iff, !String.eqb_eq in Ek.
  destruct (json_decode payload) as [[| | | | |[|]]|]; try done; intros [= <-]; cbn; split_and!; try done; tauto.
Qed.

Lemma parseCron_Ok {cron : CronLibrary} expression timezone reference c :
  parseCron expression timezone reference = Ok c → is_Some (Next c reference).
Proof.
  unfold parseCron. destruct (_ || _); [done|]. destruct (_ || _); [done|].
  destruct (LoadLocation _); [|done]. destruct (ParseStandardFields _); [|done].
  destruct (Next _ reference) eqn:E; [|done]. intros [= <-]. by rewrite E.
Qed.

(** What a validated definition is. *)
Lemma validateDefinition_Ok {cron : CronLibrary} definition reference d c :
  validateDefinition definition reference = Ok (d, c) →
  d_job d = trim_space (d_job definition) ∧ d_cron d = trim_space (d_cron definition) ∧
  d_timezone d = trim_space (d_timezone definition) ∧ d_name d = trim_space (d_name definition) ∧
  (∃ job, Find theCatalog (d_job d) = Some job ∧ semanticKind (pol_kind (d_policy d)) = wantPolicy job) ∧
  validatePolicy (d_policy definition) = Ok (d_policy d) ∧
  parseCron (d_cron d) (d_timezone d) reference = Ok c ∧ is_Some (Next c reference).
Proof.
  unfold validateDefinition. generalize (Find theCatalog). intros find.
  destruct ((trim_space _ =? "")%string || _); [discriminate|].
  destruct (find _) as [job|] eqn:Ef; [|discriminate].
  destruct (validatePolicy _) as [p|]; [|discriminate]. cbn [res_bind].
  destruct (semanticKind _ =? _)%string eqn:Ek; [|discriminate]. cbn [negb].
  destruct (parseCron _ _ _) as [c'|] eqn:Ec; [|discriminate]. cbn [res_bind]. intros [= <- <-].
  cbn [d_job d_cron d_timezone d_name d_policy]. apply String.eqb_eq in Ek.
  split_and!; try reflexivity; [by exists job|assumption|by eapply parseCron_Ok].
Qed.
