(* ===== verification/Scheduler.v ===== *)
(** * The scheduler (src/internal/scheduler/service.go)

    Schedules, their occurrences and the attempts to run them.  Every
    operation is one transaction on the database of Store.v; [now] is the
    transaction's [UTC_TIMESTAMP(6)].  Submitting a run is a dependency of
    the service ([SubmitInTxFunc]): [RunSubmission] states what the scheduler
    needs of it, SchedulerRuns.v discharges it with the run repository. *)

From S2P Require Import Prelude Calendar Json Hash Catalog Params Access AuditTrail Table Store Schema ScheduleModel.

Open Scope Z_scope.

(** ** Submission as a dependency *)

(** The parts of the database the scheduler owns. *)
Definition same_schedules (d d' : db) : Prop :=
  schedules d' = schedules d ∧ next_schedule_id d' = next_schedule_id d ∧
  schedule_occurrences d' = schedule_occurrences d ∧ next_occurrence_id d' = next_occurrence_id d ∧
  schedule_attempts d' = schedule_attempts d ∧ next_attempt_id d' = next_attempt_id d ∧ users d' = users d.

(** [SubmitInTxFunc]: a committed submission keeps the schema, leaves the
    scheduler's tables alone and adds one queued run under a fresh
    identifier, keeping every other run. *)
Class RunSubmission := {
  submit_run : instant → string → Parameters → Trigger → string → option Z → Tx db Z;
  submit_run_schema : ∀ now key p t ref user, preserves schema (submit_run now key p t ref user);
  submit_run_frame : ∀ now key p t ref user d id d', schema d →
    submit_run now key p t ref user d = Ok (id, d') →
    same_schedules d d' ∧ ingestion_runs d !! id = None ∧
    (∀ i, i ≠ id → ingestion_runs d' !! i = ingestion_runs d !! i) ∧
    ∃ r, ingestion_runs d' !! id = Some r ∧ run_status r = StatusQueued ∧ run_job_key r = Some key ∧
         run_parameters r = p ∧ trigger_type r = t }.

(** ** Rows and values *)

Record Schedule := mkScheduleValue {
  ID : Z; s_definition : Definition_; Enabled : bool; NextRunAt : option instant;
  SchedulerNotBefore : option instant; ArchivedAt : option instant; Revision : Z }.

Definition deliveryDelay : Z := 15 * second.
Definition sweepLimit : nat := 100.

(** [copy(checksum[:], row.PolicyChecksum)] into 32 zero bytes. *)
Definition checksum32 (bytes : string) : string := String.substring 0 32 (bytes +:+ zero_checksum).

Definition row_definition (row : schedule_row) : Definition_ :=
  let c := sch_definition row in
  mkDefinition (sch_name row) (c_job_key c) (c_cron c) (c_timezone c)
    (mkPolicy (c_policy_kind c) (c_policy_version c) (c_policy_json c) (checksum32 (c_policy_checksum c))).

Definition semanticMatches (c : definition_columns) (definition : Definition_) : bool :=
  (c_job_key c =? d_job definition)%string && (c_cron c =? d_cron definition)%string &&
  (c_timezone c =? d_timezone definition)%string && (c_policy_kind c =? pol_kind (d_policy definition))%string &&
  (c_policy_version c =? pol_version (d_policy definition)) &&
  (c_policy_checksum c =? pol_checksum (d_policy definition))%string.

Definition schedule_value (row : schedule_row) : Schedule :=
  mkScheduleValue (sch_id row) (row_definition row) (sch_enabled row) (next_run_at row)
    (scheduler_not_before row) (archived_at row) (sch_revision row).

(** The columns a definition is stored in. *)
Definition columns_of (definition : Definition_) : definition_columns :=
  mkColumns (d_job definition) (d_cron definition) (d_timezone definition) (pol_kind (d_policy definition))
    (pol_version (d_policy definition)) (pol_payload (d_policy definition)) (pol_checksum (d_policy definition)).

(** The columns two rows must agree on to mean the same. *)
Definition same_semantics (a b : definition_columns) : bool :=
  (c_job_key a =? c_job_key b)%string && (c_cron a =? c_cron b)%string && (c_timezone a =? c_timezone b)%string &&
  (c_policy_kind a =? c_policy_kind b)%string && (c_policy_version a =? c_policy_version b) &&
  (c_policy_checksum a =? c_policy_checksum b)%string.

Definition currentFence (schedule : schedule_row) (occurrence : occurrence_row) : bool :=
  sch_enabled schedule && bool_decide (occ_status occurrence = unresolved) &&
  bool_decide (next_run_at schedule = Some (scheduled_for occurrence)) &&
  same_semantics (sch_definition schedule) (occ_definition occurrence).

Definition scheduleStateName (row : schedule_row) : string :=
  if isSome (archived_at row) then "archived" else if sch_enabled row then "enabled" else "disabled".

(** The text of an error that disables a schedule. *)
Definition error_text (e : error) : string :=
  match e with
  | ErrInvalidDefinition detail => "invalid schedule definition: " +:+ detail
  | Errorf message => message
  | _ => "invalid persisted schedule definition"
  end.
Definition safeMessage (e : error) : string := blanked 500 (error_text e).

(** ** Shared statements *)

Definition requireCount (affected expected : Z) : Tx db unit := tx_guard (affected =? expected) ErrConflict.
Definition requireOne (affected : Z) : Tx db unit := requireCount affected 1.

Definition appendScheduleAudit (requester : option Requester) (action : Action) (id : Z) (metadata : Metadata)
    (now : instant) : Tx db unit :=
  match requester with
  | None => tx_ret tt
  | Some requester =>
      Append (mkEvent (attribution_of requester) action (Some ResourceSchedule) id metadata now)
  end.

Definition lockSchedule (id : Z) : Tx db schedule_row :=
  let* row := tx_gets (λ d, schedules d !! id) in
  match row with Some row => tx_ret row | None => tx_fail ErrNoRows end.

Definition occurrence_by_id (a b : occurrence_row) : bool := occ_id a <? occ_id b.
Definition active_occurrence (scheduleID : Z) (o : occurrence_row) : bool :=
  bool_decide (active_schedule_id o = Some scheduleID).
Definition lockActiveOccurrence (scheduleID : Z) : Tx db (option occurrence_row) :=
  tx_gets (λ d, select_first occurrence_by_id (active_occurrence scheduleID) (schedule_occurrences d)).

Definition createOccurrence (schedule : schedule_row) (cursor : instant) (mode : ResolutionMode) : Tx db occurrence_row :=
  let* id := insert_occurrence (λ id, mkOccurrence id (sch_id schedule) cursor validated_cron mode unresolved
    (sch_revision schedule) (sch_definition schedule) 0 None None None None) in
  let* row := tx_gets (λ d, schedule_occurrences d !! id) in
  match row with Some row => tx_ret row | None => tx_fail ErrNoRows end.

(** [ORDER BY attempt_no DESC LIMIT 1] *)
Definition later_attempt (a b : attempt_row) : bool := attempt_no b <? attempt_no a.
Definition attempt_of (occurrenceID : Z) (a : attempt_row) : bool := att_occurrence a =? occurrenceID.
Definition lockLatestAttempt (occurrenceID : Z) : Tx db (option attempt_row) :=
  tx_gets (λ d, select_first later_attempt (attempt_of occurrenceID) (schedule_attempts d)).

Definition lockAttemptRun (runID : Z) : Tx db run_row :=
  let* row := tx_gets (λ d, ingestion_runs d !! runID) in
  match row with Some row => tx_ret row | None => tx_fail ErrNoRows end.

(** One multi-row UPDATE whose rows have distinct keys: row by row, and
    failing as a whole. *)
Fixpoint update_each {A} (update : A → Tx db Z) (l : list A) : Tx db Z :=
  match l with
  | [] => tx_ret 0
  | a :: l =>
      let* n := update a in
      let* m := update_each update l in
      tx_ret (n + m)
  end.

Section Scheduler.
Context {cron : CronLibrary} {submission : RunSubmission}.

(** ** Creating *)

Record CreateInput := mkCreateInput {
  ci_definition : Definition_; ci_enabled : bool; ci_actor : option Z; ci_requester : option Requester }.

Record preparedCreate := mkPrepared {
  pc_definition : Definition_; pc_enabled : bool; pc_actor : option Z; pc_requester : option Requester;
  pc_next : option instant }.

(** The default time zone stands in for a blank one. *)
Definition with_timezone (definition : Definition_) : Definition_ :=
  if (trim_space (d_timezone definition) =? "")%string
  then mkDefinition (d_name definition) (d_job definition) (d_cron definition) DefaultTimezone (d_policy definition)
  else definition.

Definition prepareCreate (input : CreateInput) (now : instant) : result preparedCreate :=
  let? valid := validateDefinition (with_timezone (ci_definition input)) now in
  let (definition, parsed) := (valid : Definition_ * cronDefinition) in
  if ci_enabled input then
    match Next parsed now with
    | None => Err (ErrInvalidDefinition "cron has no future occurrence")
    | Some next => Ok (mkPrepared definition true (ci_actor input) (ci_requester input) (Some next))
    end
  else Ok (mkPrepared definition false (ci_actor input) (ci_requester input) None).

Definition insertSchedule (input : preparedCreate) : Tx db Schedule :=
  let definition := pc_definition input in
  let* id := insert_schedule_row (λ id, mkSchedule id (columns_of definition) (d_name definition) (pc_enabled input)
    (pc_next input) 1 None None None (pc_actor input) (pc_actor input) None) in
  tx_ret (mkScheduleValue id definition (pc_enabled input) (pc_next input) None None 1).

Definition Get (id : Z) (d : db) : result Schedule :=
  match schedules d !! id with Some row => Ok (schedule_value row) | None => Err ErrNoRows end.

(** Commit, then read the schedule back outside the transaction. *)
Definition commit_and_get (m : Tx db Z) (d : db) : result Schedule * db :=
  match runTx m d with
  | (Ok id, d') => (Get id d', d')
  | (Err e, d') => (Err e, d')
  end.

Definition create_tx (now : instant) (input : CreateInput) : Tx db Z :=
  let* prepared := tx_lift (prepareCreate input now) in
  let* created := insertSchedule prepared in
  appendScheduleAudit (pc_requester prepared) ActionScheduleCreated (ID created) None now ;;;
  tx_ret (ID created).
Definition Create (now : instant) (input : CreateInput) : db → result Schedule * db :=
  commit_and_get (create_tx now input).

Record CreateManyResult := mkCreateMany { Created : list Schedule; Existing : list Schedule }.

(** The first loop of [CreateMany]: prepared inputs in order; [seen] are the
    job keys so far, [first] is [prepared[0]]. *)
Fixpoint prepareMany (now : instant) (seen : list string) (first : option preparedCreate)
    (inputs : list CreateInput) : result (list preparedCreate) :=
  match inputs with
  | [] => Ok []
  | input :: inputs =>
      let? value := prepareCreate input now in
      let key := d_job (pc_definition value) in
      if bool_decide (key ∈ seen) then Err (ErrInvalidDefinition "job was selected more than once") else
      if match first with
         | None => false
         | Some f =>
             negb (d_cron (pc_definition value) =? d_cron (pc_definition f))%string ||
             negb (d_timezone (pc_definition value) =? d_timezone (pc_definition f))%string ||
             negb (Bool.eqb (pc_enabled value) (pc_enabled f))
         end
      then Err (ErrInvalidDefinition "bulk schedules must share cron, timezone, and enabled state") else
      let? rest := prepareMany now (key :: seen) (match first with None => Some value | Some f => Some f end) inputs in
      Ok (value :: rest)
  end.

(** The second loop: the sources of the selected jobs must exist. *)
Fixpoint lockSources (keys : list string) : Tx db unit :=
  match keys with
  | [] => tx_ret tt
  | key :: keys =>
      let* row := tx_gets (λ d, source_settings d !! key) in
      match row with
      | None => tx_fail (ErrInvalidDefinition "job is not schedulable")
      | Some _ => lockSources keys
      end
  end.

Definition schedule_by_id (a b : schedule_row) : bool := sch_id a <? sch_id b.
Definition existing_for (definition : Definition_) (r : schedule_row) : bool :=
  (c_job_key (sch_definition r) =? d_job definition)%string && (c_cron (sch_definition r) =? d_cron definition)%string &&
  (c_timezone (sch_definition r) =? d_timezone definition)%string && negb (isSome (archived_at r)).

(** The third loop. *)
Fixpoint createEach (now : instant) (values : list preparedCreate) (acc : CreateManyResult) : Tx db CreateManyResult :=
  match values with
  | [] => tx_ret acc
  | value :: values =>
      let* rows := tx_gets (λ d, select_by schedule_by_id (existing_for (pc_definition value)) (schedules d)) in
      match rows with
      | _ :: _ => createEach now values (mkCreateMany (Created acc) (Existing acc ++ (schedule_value <$> rows)))
      | [] =>
          let* created := insertSchedule value in
          appendScheduleAudit (pc_requester value) ActionScheduleCreated (ID created) None now ;;;
          createEach now values (mkCreateMany (Created acc ++ [created]) (Existing acc))
      end
  end.

Definition string_before (a b : string) : bool := match String.compare a b with Lt => true | _ => false end.

Definition CreateMany (now : instant) (inputs : list CreateInput) : Tx db CreateManyResult :=
  match inputs with
  | [] => tx_fail (ErrInvalidDefinition "at least one job is required")
  | _ =>
      let* prepared := tx_lift (prepareMany now [] None inputs) in
      lockSources (sort_by string_before ((λ p, d_job (pc_definition p)) <$> prepared)) ;;;
      createEach now prepared (mkCreateMany [] [])
  end.

(** ** Updating one schedule *)

Record UpdateInput := mkUpdateInput {
  ui_definition : Definition_; ui_revision : Z; ui_actor : option Z; ui_requester : option Requester }.

(** A time value that may be Go's zero time. *)
Definition time_value (t : option instant) : instant := default zero_time t.

Definition has_revision (revision : Z) (r : schedule_row) : bool := sch_revision r =? revision.
Definition bump_revision (r : schedule_row) : schedule_row := set_sch_revision (sch_revision r + 1) r.

(** The cursor an update leaves: a change of meaning needs an empty backlog
    and restarts the cursor of an enabled schedule. *)
Definition updated_cursor (now : instant) (row : schedule_row) (definition : Definition_) (parsed : cronDefinition)
    : Tx db (option instant) :=
  if semanticMatches (sch_definition row) definition then tx_ret (next_run_at row) else
  let* active := lockActiveOccurrence (sch_id row) in
  if isSome active ||
     (sch_enabled row && match next_run_at row with Some t => negb (now <? t) | None => false end)
  then tx_fail ErrBacklog
  else tx_ret (if sch_enabled row then Some (time_value (Next parsed now)) else next_run_at row).

Definition update_tx (now : instant) (id : Z) (input : UpdateInput) : Tx db Z :=
  let* row := lockSchedule id in
  tx_guard (sch_revision row =? ui_revision input) ErrConflict ;;;
  tx_guard (negb (isSome (archived_at row))) ErrArchived ;;;
  let* valid := tx_lift (validateDefinition (with_timezone (ui_definition input)) now) in
  let (definition, parsed) := (valid : Definition_ * cronDefinition) in
  let* next := updated_cursor now row definition parsed in
  let* affected := update_schedule id (has_revision (ui_revision input))
    (λ r, bump_revision (set_sch_name (d_name definition) (set_sch_definition (columns_of definition)
       (set_next_run_at next (set_updated_by (ui_actor input) (set_validation_error None r)))))) in
  requireOne affected ;;;
  appendScheduleAudit (ui_requester input) ActionScheduleUpdated id None now ;;;
  tx_ret id.
Definition Update (now : instant) (id : Z) (input : UpdateInput) : db → result Schedule * db :=
  commit_and_get (update_tx now id input).

(** ** Enabling and stopping *)

Record enableTransition := mkEnable { en_schedule : schedule_row; en_next : instant }.
(** [stop_occurrence] is the active occurrence, if any. *)
Record stopTransition := mkStop { stop_schedule : schedule_row; stop_occurrence : option Z }.

Definition prepareEnable (row : schedule_row) (hasActiveOccurrence : bool) (now : instant) : result enableTransition :=
  if isSome (archived_at row) then Err ErrArchived else
  if hasActiveOccurrence then Err ErrBacklog else
  let? valid := validateDefinition (row_definition row) now in
  Ok (mkEnable row (time_value (Next (valid : Definition_ * cronDefinition).2 now))).

Definition enable_row (next : instant) (actor : option Z) (r : schedule_row) : schedule_row :=
  bump_revision (set_sch_enabled true (set_next_run_at (Some next) (set_scheduler_not_before None
    (set_delivery_block None (set_validation_error None (set_updated_by actor r)))))).
Definition applyEnableTransitions (transitions : list enableTransition) (actor : option Z) : Tx db unit :=
  match transitions with
  | [] => tx_ret tt
  | _ =>
      let* affected := update_each (λ t,
        update_schedule (sch_id (en_schedule t))
          (λ r, has_revision (sch_revision (en_schedule t)) r && negb (sch_enabled r) && negb (isSome (archived_at r)))
          (enable_row (en_next t) actor)) transitions in
      requireCount affected (Z.of_nat (length transitions))
  end.

Definition is_unresolved (o : occurrence_row) : bool := bool_decide (occ_status o = unresolved).
Definition discard_row (now : instant) (actor : option Z) (o : occurrence_row) : occurrence_row :=
  set_occ_status discarded (set_retry_not_before None (set_closed_at (Some now) (set_closed_by actor o))).
Definition stop_row (archive : bool) (now : instant) (actor : option Z) (r : schedule_row) : schedule_row :=
  bump_revision (set_sch_enabled false (set_next_run_at None (set_scheduler_not_before None
    (set_delivery_block None (set_updated_by actor (if archive then set_archived_at (Some now) r else r)))))).
Definition applyStopTransitions (transitions : list stopTransition) (actor : option Z) (archive : bool)
    (now : instant) : Tx db unit :=
  match transitions with
  | [] => tx_ret tt
  | _ =>
      let occurrenceIDs := omap stop_occurrence transitions in
      (match occurrenceIDs with
       | [] => tx_ret tt
       | _ =>
           let* affected := update_each (λ id, update_occurrence id is_unresolved (discard_row now actor)) occurrenceIDs in
           requireCount affected (Z.of_nat (length occurrenceIDs))
       end) ;;;
      let* affected := update_each (λ t,
        update_schedule (sch_id (stop_schedule t)) (has_revision (sch_revision (stop_schedule t)))
          (stop_row archive now actor)) transitions in
      requireCount affected (Z.of_nat (length transitions))
  end.

Definition enable_tx (now : instant) (id expectedRevision : Z) (actor : option Z) (requester : option Requester) : Tx db Z :=
  let* row := lockSchedule id in
  tx_guard (sch_revision row =? expectedRevision) ErrConflict ;;;
  let* active := lockActiveOccurrence id in
  let* transition := tx_lift (prepareEnable row (isSome active) now) in
  applyEnableTransitions [transition] actor ;;;
  appendScheduleAudit requester ActionScheduleStateChanged id
    (Some (StatusChangeMetadata (scheduleStateName row) "enabled")) now ;;;
  tx_ret id.
Definition Enable (now : instant) (id expectedRevision : Z) (actor : option Z) (requester : option Requester)
    : db → result Schedule * db := commit_and_get (enable_tx now id expectedRevision actor requester).

Definition stop_tx (now : instant) (id expectedRevision : Z) (actor : option Z) (archive : bool)
    (requester : option Requester) : Tx db Z :=
  let* row := lockSchedule id in
  tx_guard (sch_revision row =? expectedRevision) ErrConflict ;;;
  let* active := lockActiveOccurrence id in
  applyStopTransitions [mkStop row (occ_id <$> active)] actor archive now ;;;
  appendScheduleAudit requester ActionScheduleStateChanged id
    (Some (StatusChangeMetadata (scheduleStateName row) (if archive then "archived" else "disabled"))) now ;;;
  tx_ret id.
Definition stop (now : instant) (id expectedRevision : Z) (actor : option Z) (archive : bool)
    (requester : option Requester) : db → result Schedule * db :=
  commit_and_get (stop_tx now id expectedRevision actor archive requester).
Definition Disable (now : instant) (id expectedRevision : Z) (actor : option Z) (requester : option Requester) :=
  stop now id expectedRevision actor false requester.
Definition Archive (now : instant) (id expectedRevision : Z) (actor : option Z) (requester : option Requester) :=
  stop now id expectedRevision actor true requester.

(** ** Bulk changes of state *)

Inductive BulkAction := BulkEnable | BulkDisable | BulkArchive | OtherAction (name : string).
#[export] Instance BulkAction_eq_dec : EqDecision BulkAction. Proof. solve_decision. Defined.
Record BulkStateResult := mkBulk { SelectedCount : Z; AffectedCount : Z; NoOpCount : Z }.

(** The loop of [normalizeBulkIDs]: distinct identifiers in the order given. *)
Fixpoint distinctIDs (seen submitted : list Z) : result (list Z) :=
  match submitted with
  | [] => Ok []
  | id :: submitted =>
      if id =? 0 then Err ErrInvalidSelection else
      if bool_decide (id ∈ seen) then distinctIDs seen submitted else
      let? ids := distinctIDs (id :: seen) submitted in Ok (id :: ids)
  end.
Definition normalizeBulkIDs (submitted : list Z) : result (list Z) :=
  match submitted with
  | [] => Err ErrInvalidSelection
  | _ =>
      let? ids := distinctIDs [] submitted in
      let ids := sort_by Z.ltb ids in
      if (MaxBulkSelection <? length ids)%nat then Err ErrInvalidSelection else Ok ids
  end.

Definition lockSchedules (ids : list Z) : Tx db (list schedule_row) :=
  tx_gets (λ d, select_by schedule_by_id (λ r, bool_decide (sch_id r ∈ ids)) (schedules d)).

(** [ORDER BY schedule_id,id] *)
Definition occurrence_by_schedule (a b : occurrence_row) : bool :=
  (occ_schedule a <? occ_schedule b) || ((occ_schedule a =? occ_schedule b) && (occ_id a <? occ_id b)).
Definition lockActiveOccurrences (scheduleIDs : list Z) : Tx db (list occurrence_row) :=
  match scheduleIDs with
  | [] => tx_ret []
  | _ => tx_gets (λ d, select_by occurrence_by_schedule
           (λ o, is_unresolved o && bool_decide (occ_schedule o ∈ scheduleIDs)) (schedule_occurrences d))
  end.

Definition appendScheduleBulkAudit (requester : option Requester) (action : BulkAction) (result : BulkStateResult)
    (now : instant) : Tx db unit :=
  match requester with
  | None => tx_ret tt
  | Some requester =>
      Append (mkEvent (attribution_of requester)
        match action with
        | BulkDisable => ActionScheduleBulkDisable
        | BulkArchive => ActionScheduleBulkArchive
        | _ => ActionScheduleBulkEnable
        end None 0 (Some (ScheduleBulkMetadata (SelectedCount result) (AffectedCount result) (NoOpCount result))) now)
  end.

(** Rows an action changes; the others are no-ops. *)
Definition bulk_candidate (action : BulkAction) (row : schedule_row) : bool :=
  match action with
  | BulkEnable => negb (sch_enabled row)
  | BulkDisable => sch_enabled row
  | _ => true
  end.

Fixpoint prepareEnables (now : instant) (active : gmap Z occurrence_row) (rows : list schedule_row)
    : result (list enableTransition) :=
  match rows with
  | [] => Ok []
  | row :: rows =>
      let? transition := prepareEnable row (isSome (active !! sch_id row)) now in
      let? rest := prepareEnables now active rows in
      Ok (transition :: rest)
  end.

Definition BulkState (now : instant) (submitted : list Z) (action : BulkAction) (actor : option Z)
    (requester : option Requester) : Tx db BulkStateResult :=
  let* ids := tx_lift (normalizeBulkIDs submitted) in
  tx_guard (match action with OtherAction _ => false | _ => true end) ErrInvalidBulkAction ;;;
  let* rows := lockSchedules ids in
  tx_guard (Nat.eqb (length rows) (length ids)) ErrInvalidSelection ;;;
  tx_guard (negb (existsb (λ r, isSome (archived_at r)) rows)) ErrArchived ;;;
  let candidates := filter (λ r, bulk_candidate action r = true) rows in
  let* occurrences := lockActiveOccurrences (sch_id <$> candidates) in
  let active := foldl (λ m o, <[occ_schedule o := o]> m) (∅ : gmap Z occurrence_row) occurrences in
  (match action with
   | BulkEnable =>
       let* transitions := tx_lift (prepareEnables now active candidates) in
       applyEnableTransitions transitions actor
   | _ =>
       applyStopTransitions ((λ r, mkStop r (occ_id <$> active !! sch_id r)) <$> candidates) actor
         (bool_decide (action = BulkArchive)) now
   end) ;;;
  let result := mkBulk (Z.of_nat (length rows)) (Z.of_nat (length candidates))
                  (Z.of_nat (length rows) - Z.of_nat (length candidates)) in
  appendScheduleBulkAudit requester action result now ;;;
  tx_ret result.

(** ** Processing one due schedule *)

(** What is logged once an occurrence has been handed to ingestion. *)
Record delivery := mkDelivery {
  dl_schedule : Z; dl_occurrence : Z; dl_run : Z; dl_job : string; dl_attempt : Z;
  dl_scheduled_for : instant; dl_submitted_at : instant }.

Definition disableInvalid (schedule : schedule_row) (now : instant) (message : string) : Tx db unit :=
  let* affected := update_schedule (sch_id schedule)
    (λ r, has_revision (sch_revision schedule) r && sch_enabled r)
    (λ r, bump_revision (set_sch_enabled false (set_next_run_at None (set_scheduler_not_before None
       (set_delivery_block None (set_validation_error (Some ("invalid_definition", message, now)) r)))))) in
  requireOne affected.

Definition rejectLockedOccurrence (schedule : schedule_row) (occurrence : occurrence_row) (now : instant)
    (cause : error) : Tx db unit :=
  let message := safeMessage cause in
  let* affected := update_occurrence (occ_id occurrence) is_unresolved
    (λ o, set_occ_status rejected_invalid (set_occ_resolution_mode invalid_resolution (set_retry_not_before None
       (set_rejection (Some ("invalid_definition", message, sch_revision schedule)) (set_closed_at (Some now) o))))) in
  requireOne affected ;;;
  disableInvalid schedule now message.

Definition rejectInvalid (schedule : schedule_row) (cursor : instant) (now : instant) (cause : error) : Tx db unit :=
  let* active := lockActiveOccurrence (sch_id schedule) in
  match active with
  | Some occurrence => rejectLockedOccurrence schedule occurrence now cause
  | None =>
      let message := safeMessage cause in
      let* _ := insert_occurrence (λ id, mkOccurrence id (sch_id schedule) cursor persisted_cursor_fallback
        invalid_resolution rejected_invalid (sch_revision schedule) (sch_definition schedule) 0 None (Some now) None
        (Some ("invalid_definition", message, sch_revision schedule))) in
      disableInvalid schedule now message
  end.

(** The schedule still stands where the occurrence was created. *)
Definition fenced (occurrence : occurrence_row) (r : schedule_row) : bool :=
  sch_enabled r && bool_decide (next_run_at r = Some (scheduled_for occurrence)).
Definition attempted (count : Z) (o : occurrence_row) : bool := is_unresolved o && (attempt_count o =? count).

Definition resolveSuccess (schedule : schedule_row) (occurrence : occurrence_row) (attempt : attempt_row)
    (run : run_row) (parsed : cronDefinition) (now : instant) : Tx db unit :=
  match finished_at run with
  | Some finished =>
      if negb (currentFence schedule occurrence) || negb (att_run attempt =? run_id run) ||
         negb (attempt_count occurrence =? attempt_no attempt)
      then tx_fail ErrConflict else
      let nextFrom := if bool_decide (occ_resolution_mode occurrence = live_coalesced) then finished
                      else scheduled_for occurrence in
      match Next parsed nextFrom with
      | None => tx_fail (ErrInvalidDefinition "cron has no next occurrence")
      | Some next =>
          let* affected := update_occurrence (occ_id occurrence) (attempted (attempt_no attempt))
            (λ o, set_occ_status resolved (set_retry_not_before None (set_closed_at (Some now) o))) in
          requireOne affected ;;;
          let* affected := update_schedule (sch_id schedule)
            (λ r, fenced occurrence r && same_semantics (sch_definition r) (occ_definition occurrence))
            (λ r, set_next_run_at (Some next) (set_scheduler_not_before None (set_delivery_block None r))) in
          requireOne affected
      end
  | None => tx_fail ErrConflict
  end.

Definition recordBackoff (schedule : schedule_row) (occurrence : occurrence_row) (attempt : attempt_row)
    (run : run_row) (finished : instant) : Tx db unit :=
  if negb (currentFence schedule occurrence) || negb (attempt_count occurrence =? attempt_no attempt) ||
     negb (att_run attempt =? run_id run)
  then tx_fail ErrConflict else
  let deadline := finished + retryDelay (attempt_no attempt) in
  let* affected := update_occurrence (occ_id occurrence)
    (λ o, attempted (attempt_no attempt) o && negb (isSome (retry_not_before o))) (set_retry_not_before (Some deadline)) in
  requireOne affected ;;;
  let* affected := update_schedule (sch_id schedule)
    (λ r, fenced occurrence r && same_semantics (sch_definition r) (occ_definition occurrence))
    (set_scheduler_not_before (Some deadline)) in
  requireOne affected.

(** [attemptNo := occurrence.AttemptCount + 1] on a uint32. *)
Definition next_attempt (count : Z) : Z := (count + 1) mod 2 ^ 32.

Definition attempt_reference (scheduleID : Z) (scheduledFor : instant) (attemptNo : Z) : string :=
  "schedule:" +:+ pretty scheduleID +:+ ":" +:+ rfc3339nano scheduledFor +:+ ":attempt:" +:+ pretty attemptNo.

(** The errors of a submission that only delay it. *)
Definition block_reason (e : error) : option string :=
  match e with
  | ErrJobBusy => Some "job_busy"
  | ErrSourceDisabled => Some "source_disabled"
  | ErrSourceConfigurationRequired => Some "source_configuration_required"
  | _ => None
  end.

(** The end of [processTransaction]: submit the next attempt. *)
Definition deliver (now : instant) (schedule : schedule_row) (occurrence : occurrence_row) (job : JobDefinition)
    : Tx db (bool * option delivery) :=
  let* parameters := tx_lift (parametersForOccurrence job (scheduled_for occurrence)) in
  let attemptNo := next_attempt (attempt_count occurrence) in
  let reference := attempt_reference (sch_id schedule) (scheduled_for occurrence) attemptNo in
  let jobKey := c_job_key (sch_definition schedule) in
  let* submitted := tx_try (submit_run now jobKey parameters TriggerScheduler reference (created_by schedule)) in
  match submitted with
  | Err e =>
      match block_reason e with
      | None => tx_fail e
      | Some reason =>
          let* affected := update_schedule (sch_id schedule) (fenced occurrence)
            (λ r, set_delivery_block (Some (reason, now)) (set_scheduler_not_before (Some (now + deliveryDelay)) r)) in
          requireOne affected ;;;
          tx_ret (true, None)
      end
  | Ok runID =>
      let* _ := insert_attempt (λ id, mkAttempt id (occ_id occurrence) attemptNo runID reference now) in
      let* affected := update_occurrence (occ_id occurrence) (attempted (attempt_count occurrence))
        (λ o, set_attempt_count attemptNo (set_retry_not_before None o)) in
      requireOne affected ;;;
      let* affected := update_schedule (sch_id schedule) (fenced occurrence)
        (λ r, set_delivery_block None (set_scheduler_not_before (Some (now + deliveryDelay)) r)) in
      requireOne affected ;;;
      tx_ret (true, Some (mkDelivery (sch_id schedule) (occ_id occurrence) runID jobKey attemptNo
                            (scheduled_for occurrence) now))
  end.

(** From the latest attempt on: what its run has come to decides. *)
Definition process_attempt (now : instant) (schedule : schedule_row) (occurrence : occurrence_row)
    (job : JobDefinition) (parsed : cronDefinition) : Tx db (bool * option delivery) :=
  let* latest := lockLatestAttempt (occ_id occurrence) in
  match latest with
  | None =>
      if negb (attempt_count occurrence =? 0)
      then rejectLockedOccurrence schedule occurrence now (ErrInvalidDefinition "occurrence attempt history is missing") ;;;
           tx_ret (true, None)
      else deliver now schedule occurrence job
  | Some attempt =>
      if negb (attempt_no attempt =? attempt_count occurrence)
      then rejectLockedOccurrence schedule occurrence now (ErrInvalidDefinition "occurrence attempt sequence is invalid") ;;;
           tx_ret (true, None)
      else
      let* run := lockAttemptRun (att_run attempt) in
      match run_status run with
      | StatusSucceeded => resolveSuccess schedule occurrence attempt run parsed now ;;; tx_ret (true, None)
      | StatusQueued | StatusRunning => tx_ret (false, None)
      | StatusFailed | StatusCancelled | StatusAbandoned =>
          match finished_at run with
          | None => tx_fail (Errorf "terminal scheduled run has no finished_at")
          | Some finished =>
              match retry_not_before occurrence with
              | None => recordBackoff schedule occurrence attempt run finished ;;; tx_ret (true, None)
              | Some retry => if now <? retry then tx_ret (false, None) else deliver now schedule occurrence job
              end
          end
      | _ => tx_fail (Errorf "scheduled run has invalid status")
      end
  end.

Definition occurrence_mode (job : JobDefinition) : ResolutionMode :=
  if bool_decide (j_strategy job = NoDate) then live_coalesced else historical.

(** The middle of [processTransaction]: the occurrence at the cursor, which
    is created unless one is active; [None] when an active occurrence does not
    belong to the cursor and has been rejected. *)
Definition current_occurrence (now : instant) (schedule : schedule_row) (cursor : instant) (job : JobDefinition)
    : Tx db (option occurrence_row) :=
  let* active := lockActiveOccurrence (sch_id schedule) in
  match active with
  | Some occurrence =>
      if negb (scheduled_for occurrence =? cursor)
      then rejectLockedOccurrence schedule occurrence now (ErrInvalidDefinition "active occurrence does not match durable cursor") ;;;
           tx_ret None
      else tx_ret (Some occurrence)
  | None => let* occurrence := createOccurrence schedule cursor (occurrence_mode job) in tx_ret (Some occurrence)
  end.

Definition process_occurrence (now : instant) (schedule : schedule_row) (cursor : instant) (job : JobDefinition)
    (definition : Definition_) (parsed : cronDefinition) : Tx db (bool * option delivery) :=
  let* found := current_occurrence now schedule cursor job in
  match found with
  | None => tx_ret (true, None)
  | Some occurrence =>
      if negb (semanticMatches (occ_definition occurrence) definition)
      then rejectLockedOccurrence schedule occurrence now (ErrInvalidDefinition "occurrence definition differs from schedule") ;;;
           tx_ret (true, None)
      else
      if negb (bool_decide (occ_identity_source occurrence = validated_cron)) ||
         negb (bool_decide (occ_resolution_mode occurrence = occurrence_mode job))
      then rejectLockedOccurrence schedule occurrence now (ErrInvalidDefinition "occurrence resolution contract is invalid") ;;;
           tx_ret (true, None)
      else process_attempt now schedule occurrence job parsed
  end.

(** The schedule is due: enabled, its cursor reached and delivery not put off. *)
Definition due (now : instant) (schedule : schedule_row) : option instant :=
  match next_run_at schedule with
  | Some cursor =>
      if negb (sch_enabled schedule) || isSome (archived_at schedule) || (now <? cursor) ||
         match scheduler_not_before schedule with Some t => now <? t | None => false end
      then None else Some cursor
  | None => None
  end.

Definition processTransaction (now : instant) (id : Z) : Tx db (bool * option delivery) :=
  let* row := tx_gets (λ d, schedules d !! id) in
  match row with
  | None => tx_ret (false, None)
  | Some schedule =>
      match due now schedule with
      | None => tx_ret (false, None)
      | Some cursor =>
          match validateDefinition (row_definition schedule) now,
                Find theCatalog (c_job_key (sch_definition schedule)) with
          | Ok (definition, parsed), Some job =>
              if IsOccurrence parsed cursor then process_occurrence now schedule cursor job definition parsed
              else rejectInvalid schedule cursor now (ErrInvalidDefinition "persisted cursor is not a cron occurrence") ;;;
                   tx_ret (true, None)
          | Ok _, None =>
              rejectInvalid schedule cursor now (ErrInvalidDefinition "persisted cursor is not a cron occurrence") ;;;
              tx_ret (true, None)
          | Err e, _ => rejectInvalid schedule cursor now e ;;; tx_ret (true, None)
          end
      end
  end.

(** ** The sweep *)

(** The schedules the sweep's query selects. *)
Definition sweep_candidate (now : instant) (d : db) (s : schedule_row) : bool :=
  sch_enabled s && negb (isSome (archived_at s)) &&
  match next_run_at s with Some t => t <=? now | None => false end &&
  match scheduler_not_before s with Some t => t <=? now | None => true end &&
  match select_first occurrence_by_id (active_occurrence (sch_id s)) (schedule_occurrences d) with
  | None => true
  | Some o =>
      match retry_not_before o with Some t => t <=? now | None => true end &&
      negb (existsb (λ a, match ingestion_runs d !! att_run a with Some r => active (run_status r) | None => false end)
              (select (attempt_of (occ_id o)) (schedule_attempts d)))
  end.

(** [ORDER BY s.next_run_at,s.id] *)
Definition schedule_by_cursor (a b : schedule_row) : bool :=
  match next_run_at a, next_run_at b with
  | Some t, Some u => (t <? u) || ((t =? u) && (sch_id a <? sch_id b))
  | None, Some _ => true
  | None, None => sch_id a <? sch_id b
  | Some _, None => false
  end.
Definition sweep_ids (now : instant) (d : db) : list Z :=
  take sweepLimit (sch_id <$> select_by schedule_by_cursor (sweep_candidate now d) (schedules d)).

(** [Sweep]: one transaction per selected schedule, an error only being
    logged; [clock k] is the time the k-th transaction reads. *)
Fixpoint sweep_each (clock : nat → instant) (ids : list Z) (d : db) : list (Z * result (bool * option delivery)) * db :=
  match ids with
  | [] => ([], d)
  | id :: ids =>
      let (outcome, d1) := runTx (processTransaction (clock 0%nat) id) d in
      let (outcomes, d2) := sweep_each (λ k, clock (S k)) ids d1 in
      ((id, outcome) :: outcomes, d2)
  end.
Definition Sweep (now : instant) (clock : nat → instant) (d : db) : list (Z * result (bool * option delivery)) * db :=
  sweep_each clock (sweep_ids now d) d.

End Scheduler.
