(* ===== verification/SchedulerInv.v ===== *)
(** * The scheduler's invariants

    What holds of the scheduler's tables between transactions: the schema,
    the attempts of an occurrence numbered without gaps, and every
    unresolved occurrence standing at the cursor of its enabled schedule.
    [scheduler_step] collects the transactions of Scheduler.v and those of
    other components, which leave the scheduler's tables alone. *)

From S2P Require Import Prelude Calendar Json Hash Catalog Params Access AuditTrail Table Store Schema ScheduleModel Scheduler.

Open Scope Z_scope.

(** ** Invariants *)

(** The attempts of an occurrence are numbered 1 to [attempt_count]. *)
Record counted (d : db) : Prop := {
  c_range : ∀ i o, schedule_occurrences d !! i = Some o → 0 <= attempt_count o < 2 ^ 32;
  c_within : ∀ i o j a, schedule_occurrences d !! i = Some o → schedule_attempts d !! j = Some a →
    att_occurrence a = i → 1 <= attempt_no a <= attempt_count o;
  c_dense : ∀ i o k, schedule_occurrences d !! i = Some o → 1 <= k <= attempt_count o →
    ∃ j a, schedule_attempts d !! j = Some a ∧ att_occurrence a = i ∧ attempt_no a = k }.

(** Unresolved occurrences stand at the cursor of their schedule. *)
Definition aligned (d : db) : Prop := ∀ i o, schedule_occurrences d !! i = Some o → occ_status o = unresolved →
  ∃ s, schedules d !! occ_schedule o = Some s ∧ currentFence s o = true.

Record sched_ok (d : db) : Prop := {
  ok_schema : schema d;
  ok_counted : counted d;
  ok_aligned : aligned d }.

(** The schedule has no unresolved occurrence. *)
Definition idle (id : Z) (d : db) : Prop := ∀ i o, schedule_occurrences d !! i = Some o →
  occ_status o = unresolved → occ_schedule o ≠ id.

(** ** How rows may change *)

(** The revision only grows, and names the schedule's definition and state. *)
Definition schedule_change (r r' : schedule_row) : Prop :=
  sch_id r' = sch_id r ∧ created_by r' = created_by r ∧ sch_revision r <= sch_revision r' ∧
  (sch_revision r' = sch_revision r →
   (sch_name r', sch_definition r', sch_enabled r', archived_at r') =
   (sch_name r, sch_definition r, sch_enabled r, archived_at r)).

(** A closed occurrence is never written again. *)
Definition occurrence_change (o o' : occurrence_row) : Prop :=
  occurrence_identity o' = occurrence_identity o ∧ attempt_count o <= attempt_count o' ∧
  (occ_status o ≠ unresolved → o' = o).

Record history (d d' : db) : Prop := {
  h_schedules : ∀ i r, schedules d !! i = Some r → ∃ r', schedules d' !! i = Some r' ∧ schedule_change r r';
  h_occurrences : ∀ i o, schedule_occurrences d !! i = Some o →
    ∃ o', schedule_occurrences d' !! i = Some o' ∧ occurrence_change o o';
  h_attempts : ∀ i a, schedule_attempts d !! i = Some a → schedule_attempts d' !! i = Some a }.

Lemma schedule_change_refl r : schedule_change r r.
Proof. by split_and!. Qed.
Lemma schedule_change_trans a b c : schedule_change a b → schedule_change b c → schedule_change a c.
Proof.
  intros (I1 & C1 & R1 & E1) (I2 & C2 & R2 & E2). split_and!; [congruence|congruence|lia|].
  intros H. rewrite E2, E1 by lia. done.
Qed.
Lemma occurrence_change_refl o : occurrence_change o o.
Proof. by split_and!. Qed.
Lemma occurrence_change_trans a b c : occurrence_change a b → occurrence_change b c → occurrence_change a c.
Proof.
  intros (I1 & C1 & S1) (I2 & C2 & S2). split_and!; [congruence|lia|].
  intros H. specialize (S1 H). subst b. auto.
Qed.

#[export] Instance history_preorder : PreOrder history.
Proof.
  split.
  - intros d. split; eauto using schedule_change_refl, occurrence_change_refl.
  - intros a b c [S1 O1 A1] [S2 O2 A2]. split; [| |auto].
    + intros i r Hr. destruct (S1 _ _ Hr) as (r1 & Hr1 & ?). destruct (S2 _ _ Hr1) as (r2 & ? & ?).
      eauto using schedule_change_trans.
    + intros i o Ho. destruct (O1 _ _ Ho) as (o1 & Ho1 & ?). destruct (O2 _ _ Ho1) as (o2 & ? & ?).
      eauto using occurrence_change_trans.
Qed.

(** The fields of a schedule that [currentFence] looks at. *)
Definition keeps_fence (r r' : schedule_row) : Prop :=
  sch_enabled r' = sch_enabled r ∧ next_run_at r' = next_run_at r ∧
  ∀ c, same_semantics (sch_definition r) c = true → same_semantics (sch_definition r') c = true.

Lemma currentFence_spec s o : currentFence s o = true ↔
  sch_enabled s = true ∧ occ_status o = unresolved ∧ next_run_at s = Some (scheduled_for o) ∧
  same_semantics (sch_definition s) (occ_definition o) = true.
Proof. unfold currentFence. rewrite !andb_true_iff, !bool_decide_eq_true. tauto. Qed.

Lemma same_semantics_spec a b : same_semantics a b = true ↔
  c_job_key a = c_job_key b ∧ c_cron a = c_cron b ∧ c_timezone a = c_timezone b ∧
  c_policy_kind a = c_policy_kind b ∧ c_policy_version a = c_policy_version b ∧
  c_policy_checksum a = c_policy_checksum b.
Proof. unfold same_semantics. rewrite !andb_true_iff, !String.eqb_eq, Z.eqb_eq. tauto. Qed.
Lemma same_semantics_refl a : same_semantics a a = true.
Proof. by apply same_semantics_spec. Qed.

(** ** The effect of each statement *)

(** A transaction that keeps the invariant and the history. *)
Definition good {A} (m : Tx db A) (d : db) : Prop := ∀ a d', m d = Ok (a, d') → sched_ok d' ∧ history d d'.

Lemma good_bind {A B} (m : Tx db A) (k : A → Tx db B) d :
  good m d → (∀ a d', m d = Ok (a, d') → sched_ok d' → good (k a) d') → good (tx_bind m k) d.
Proof.
  intros Hm Hk b d' (a & d1 & H1 & H2)%tx_bind_Ok. destruct (Hm _ _ H1) as [Hd1 Hh].
  destruct (Hk _ _ H1 Hd1 _ _ H2) as [Hd' Hh']. split; [done|]. by transitivity d1.
Qed.
Lemma good_readonly {A} (m : Tx db A) d : readonly m → sched_ok d → good m d.
Proof. intros Hm Hd a d' H. by rewrite (Hm _ _ _ H). Qed.
Lemma good_ret {A} (a : A) d : sched_ok d → good (tx_ret a) d.
Proof. apply good_readonly. by intros s x s' [= _ <-]. Qed.
Lemma good_fail {A} e d : good (@tx_fail db A e) d.
Proof. by intros a d'. Qed.
Lemma good_gets {A} (f : db → A) d : sched_ok d → good (tx_gets f) d.
Proof. apply good_readonly. by intros s x s' [= _ <-]. Qed.
Lemma good_lift {A} (m : result A) d : sched_ok d → good (tx_lift m) d.
Proof. apply good_readonly. by intros s x s' (? & _ & [= _ ->])%tx_lift_Ok. Qed.
Lemma good_guard b e d : sched_ok d → good (tx_guard b e) d.
Proof. apply good_readonly. by intros s x s' [_ [= _ ->]]%tx_guard_Ok. Qed.

Lemma put_lookup {R} (t : gmap Z R) i r (P : Z → R → Prop) :
  P i r → (∀ j s, j ≠ i → t !! j = Some s → P j s) → ∀ j s, <[i := r]> t !! j = Some s → P j s.
Proof. intros Hi Ht j s [[<- <-]|[? ?]]%lookup_insert_Some; [done|]. by apply Ht. Qed.

Lemma history_put_schedule d id r r' : schedules d !! id = Some r → schedule_change r r' →
  history d (set_schedules (<[id := r']> (schedules d)) d).
Proof.
  intros Hr Hc. split; cbn; eauto using occurrence_change_refl. intros i s Hs.
  destruct (decide (i = id)) as [->|Hne]; [|rewrite lookup_insert_ne by done; eauto using schedule_change_refl].
  rewrite lookup_insert_eq. exists r'. split; [done|]. by replace s with r by congruence.
Qed.

Lemma history_put_occurrence d id o o' : schedule_occurrences d !! id = Some o → occurrence_change o o' →
  history d (set_schedule_occurrences (<[id := o']> (schedule_occurrences d)) d).
Proof.
  intros Ho Hc. split; cbn; eauto using schedule_change_refl. intros i s Hs.
  destruct (decide (i = id)) as [->|Hne]; [|rewrite lookup_insert_ne by done; eauto using occurrence_change_refl].
  rewrite lookup_insert_eq. exists o'. split; [done|]. by replace s with o by congruence.
Qed.

(** An UPDATE of a schedule: the occurrence at its cursor stays there, or
    there is none. *)
Lemma update_schedule_good id cond set d :
  sched_ok d →
  (∀ r, schedules d !! id = Some r → cond r = true →
     schedule_change r (set r) ∧ (keeps_fence r (set r) ∨ idle id d)) →
  good (update_schedule id cond set) d.
Proof.
  intros Hd Hset n d' H. pose proof H as [(-> & r & Hr & Hc & _ & Hv & ->)|(_ & -> & _)]%update_one_Ok;
    [|split; [done|reflexivity]].
  destruct (Hset r Hr Hc) as [Hch Hf]. split; [|by eapply history_put_schedule].
  destruct Hd as [Hs [Hcr Hcw Hcd] Hal]. split.
  - eapply schedule_verdict_None in Hv as (Hk & _). destruct (t_ids _ _ _ _ _ (schedules_ok d Hs) _ _ Hr) as [Hid Hlt].
    apply (schema_put_schedule d id (set r) (next_schedule_id d)); try done. destruct Hch as [-> _]. done.
  - by split.
  - intros i o Ho Hun. destruct (Hal i o Ho Hun) as (s & Hsch & Hfen). cbn.
    destruct (decide (occ_schedule o = id)) as [Hi|Hne]; [|by exists s; rewrite lookup_insert_ne].
    rewrite Hi in *. rewrite lookup_insert_eq. exists (set r). split; [done|]. assert (s = r) as -> by congruence.
    destruct Hf as [(He & Hn & Hsem)|Hidle]; [|by destruct (Hidle i o Ho Hun)].
    apply currentFence_spec in Hfen as (? & ? & ? & ?). apply currentFence_spec. rewrite He, Hn. auto.
Qed.

Lemma update_schedule_tables id cond set d n d' : update_schedule id cond set d = Ok (n, d') →
  schedule_occurrences d' = schedule_occurrences d ∧ schedule_attempts d' = schedule_attempts d ∧
  ∀ j, j ≠ id → schedules d' !! j = schedules d !! j.
Proof.
  intros [(-> & r & _ & _ & _ & _ & ->)|(_ & -> & _)]%update_one_Ok; [|done].
  split_and!; try done. intros j Hj. cbn. by rewrite lookup_insert_ne.
Qed.
Lemma idle_same i d d' : schedule_occurrences d' = schedule_occurrences d → idle i d → idle i d'.
Proof. unfold idle. by intros ->. Qed.

Lemma insert_schedule_good row d : sched_ok d → (∀ id, sch_id (row id) = id) → good (insert_schedule_row row) d.
Proof.
  intros [Hs Hc Hal] Hid n d' H. pose proof (preserves_insert_schedule row Hid _ _ _ Hs H) as Hs'.
  apply insert_one_Ok in H as (-> & Hv & ->).
  assert (Hfresh : schedules d !! next_schedule_id d = None).
  { apply eq_None_not_Some. intros [r Hr]. destruct (t_ids _ _ _ _ _ (schedules_ok d Hs) _ _ Hr). lia. }
  assert (Hput : ∀ i r, schedules d !! i = Some r →
    <[next_schedule_id d := row (next_schedule_id d)]> (schedules d) !! i = Some r).
  { intros i r Hr. rewrite lookup_insert_ne; [done|]. intros <-. congruence. }
  split.
  - split; [done|by destruct Hc|]. intros i o Ho Hun. destruct (Hal i o Ho Hun) as (s & Hsch & Hf). exists s. split; [by apply Hput|done].
  - split; cbn; eauto using schedule_change_refl, occurrence_change_refl.
Qed.

Lemma occurrence_identity_eq o o' : occurrence_identity o' = occurrence_identity o →
  occ_id o' = occ_id o ∧ occ_schedule o' = occ_schedule o ∧ scheduled_for o' = scheduled_for o ∧
  occ_definition o' = occ_definition o.
Proof. unfold occurrence_identity. by intros [= -> -> -> _ _ ->]. Qed.

(** An UPDATE of an unresolved occurrence that leaves the attempt count. *)
Definition occurrence_update (cond : occurrence_row → bool) (set : occurrence_row → occurrence_row) : Prop :=
  ∀ o, cond o = true → occurrence_identity (set o) = occurrence_identity o ∧
    attempt_count (set o) = attempt_count o ∧ occ_status o = unresolved.

Lemma update_occurrence_good id cond set d :
  sched_ok d → occurrence_update cond set → good (update_occurrence id cond set) d.
Proof.
  intros [Hs [Hcr Hcw Hcd] Hal] Hset n d' H.
  pose proof (preserves_update_occurrence id cond set (λ o Ho, proj1 (Hset o Ho)) _ _ _ Hs H) as Hs'.
  apply update_one_Ok in H as [(-> & o & Ho & Hc & _ & Hv & ->)|(_ & -> & _)]; [|by split; [split|reflexivity]].
  destruct (Hset o Hc) as (Hid & Hcount & Hun).
  split; [|eapply history_put_occurrence; [done|]; split_and!; [done|by rewrite Hcount|done]].
  split; [done| |].
  - split; cbn; [apply put_lookup; [rewrite Hcount; eauto|eauto]| |].
    + intros i u j a [[<- <-]|[? ?]]%lookup_insert_Some; [rewrite Hcount|]; eauto.
    + intros i u k [[<- <-]|[? ?]]%lookup_insert_Some; [rewrite Hcount|]; eauto.
  - apply occurrence_identity_eq in Hid as (_ & Hsch & Hfor & Hdef).
    unfold aligned. cbn. intros i u [[<- <-]|[? ?]]%lookup_insert_Some Hu; [|by eapply Hal].
    destruct (Hal id o Ho Hun) as (s & Hr & Hf). exists s. rewrite Hsch. split; [done|].
    apply currentFence_spec in Hf as (? & ? & ? & ?). apply currentFence_spec. rewrite Hfor, Hdef. done.
Qed.

Lemma update_occurrence_idle id cond set d n d' i : occurrence_update cond set →
  update_occurrence id cond set d = Ok (n, d') →
  schedules d' = schedules d ∧ schedule_attempts d' = schedule_attempts d ∧ (idle i d → idle i d').
Proof.
  intros Hset [(-> & o & Ho & Hc & _ & _ & ->)|(_ & -> & _)]%update_one_Ok; [|done].
  destruct (Hset o Hc) as (Hid & _ & Hun). apply occurrence_identity_eq in Hid as (_ & Hsch & _).
  split_and!; [done|done|]. intros Hidle. unfold idle. cbn. intros j u [[<- <-]|[? ?]]%lookup_insert_Some Hu; [|by eapply Hidle].
  rewrite Hsch. by eapply Hidle.
Qed.

(** Closing the unresolved occurrence leaves the schedule idle. *)
Lemma update_occurrence_closes id cond set d n d' o : schema d → occurrence_update cond set →
  (∀ o, occ_status (set o) ≠ unresolved) → update_occurrence id cond set d = Ok (n, d') → n = 1 →
  schedule_occurrences d !! id = Some o → idle (occ_schedule o) d'.
Proof.
  intros Hs Hset Hclose [(_ & u & Hu & Hc & _ & _ & ->)|(-> & _ & _)]%update_one_Ok Hn Ho; [|done].
  assert (u = o) as -> by congruence. destruct (Hset o Hc) as (_ & _ & Hun).
  unfold idle. cbn. intros j v [[<- <-]|[Hne Hv]]%lookup_insert_Some Hvun Heq; [by eapply Hclose|].
  pose proof (t_unique _ _ _ _ _ (occurrences_ok d Hs) id j o v Ho Hv Hne) as Hcl.
  unfold occurrence_clash, active_schedule_id in Hcl. rewrite Hun, Hvun, Heq in Hcl.
  rewrite (bool_decide_eq_true_2 (unresolved = unresolved)) in Hcl by done. apply orb_false_iff in Hcl as [_ Hcl].
  cbn in Hcl. by rewrite bool_decide_eq_true_2 in Hcl.
Qed.

Lemma insert_occurrence_good row d : sched_ok d →
  (∀ id, occ_id (row id) = id ∧ attempt_count (row id) = 0) →
  (∀ id, occ_status (row id) = unresolved →
     ∃ s, schedules d !! occ_schedule (row id) = Some s ∧ currentFence s (row id) = true) →
  good (insert_occurrence row) d.
Proof.
  intros [Hs [Hcr Hcw Hcd] Hal] Hid Hfence n d' H.
  pose proof (preserves_insert_occurrence row (λ id, proj1 (Hid id)) _ _ _ Hs H) as Hs'.
  apply insert_one_Ok in H as (-> & Hv & ->). set (id := next_occurrence_id d) in *.
  assert (Hfresh : schedule_occurrences d !! id = None).
  { apply eq_None_not_Some. intros [r Hr]. destruct (t_ids _ _ _ _ _ (occurrences_ok d Hs) _ _ Hr). lia. }
  destruct (Hid id) as [_ Hzero]. split.
  - split; [done| |].
    + split; cbn; [apply put_lookup; [rewrite Hzero; lia|eauto]| |].
      * intros i u j a [[<- <-]|[? ?]]%lookup_insert_Some Ha Hocc; [|eauto].
        destruct (t_checks _ _ _ _ _ (attempts_ok d Hs) _ _ Ha) as (_ & [v Hv'] & _). congruence.
      * intros i u k [[<- <-]|[? ?]]%lookup_insert_Some Hk; [lia|eauto].
    + unfold aligned. cbn. intros i u [[<- <-]|[? ?]]%lookup_insert_Some Hu; [by apply Hfence|by eapply Hal].
  - split; cbn; eauto using schedule_change_refl. intros i o Ho. exists o. split; [|apply occurrence_change_refl].
    rewrite lookup_insert_ne; [done|]. intros <-. congruence.
Qed.

Lemma insert_occurrence_idle row d n d' i : insert_occurrence row d = Ok (n, d') →
  (∀ id, occ_status (row id) ≠ unresolved) → idle i d → idle i d'.
Proof.
  intros (-> & _ & ->)%insert_one_Ok Hclosed Hidle. unfold idle. cbn. intros j u [[<- <-]|[? ?]]%lookup_insert_Some Hu; [by edestruct Hclosed|by eapply Hidle].
Qed.

(** Transactions of other components. *)
Lemma same_schedules_good d d' : sched_ok d → schema d' → same_schedules d d' → sched_ok d' ∧ history d d'.
Proof.
  intros [Hs [Hcr Hcw Hcd] Hal] Hs' (E1 & _ & E2 & _ & E3 & _ & _). split.
  - split; [done| |]; [split|unfold aligned]; rewrite ?E1, ?E2, ?E3; eauto.
  - split; rewrite ?E1, ?E2, ?E3; eauto using schedule_change_refl, occurrence_change_refl.
Qed.

Lemma Append_same event d u d' : Append event d = Ok (u, d') → same_schedules d d'.
Proof.
  unfold Append. intros (row & d1 & (? & _ & [= -> ->])%tx_lift_Ok & H)%tx_bind_Ok. cbn in H.
  unfold insert_audit_row in H. destruct (negb _); [done|]. by injection H as _ <-.
Qed.
Lemma Append_good event d : sched_ok d → good (Append event) d.
Proof.
  intros Hd u d' H. apply same_schedules_good; [done| |by eapply Append_same].
  eapply preserves_Append, H. apply Hd.
Qed.
Lemma schedule_audit_good requester action id metadata now d : sched_ok d →
  good (appendScheduleAudit requester action id metadata now) d.
Proof. intros Hd. destruct requester; [by apply Append_good|by apply good_ret]. Qed.

(** ** Every operation keeps the invariant *)

Section Good.
Context {cron : CronLibrary} {submission : RunSubmission}.

Lemma requireOne_Ok n d u d' : requireOne n d = Ok (u, d') → n = 1 ∧ d' = d.
Proof. intros [H [= _ ->]]%tx_guard_Ok. by apply Z.eqb_eq in H. Qed.
Lemma requireCount_Ok n m d u d' : requireCount n m d = Ok (u, d') → n = m ∧ d' = d.
Proof. intros [H [= _ ->]]%tx_guard_Ok. by apply Z.eqb_eq in H. Qed.

Lemma insertSchedule_good input d : sched_ok d → good (insertSchedule input) d.
Proof.
  intros Hd. apply good_bind; [by apply insert_schedule_good|]. intros id d1 _ Hd1. by apply good_ret.
Qed.

Lemma create_good now input d : sched_ok d → good (create_tx now input) d.
Proof.
  intros Hd. apply good_bind; [by apply good_lift|]. intros p d1 _ H1.
  apply good_bind; [by apply insertSchedule_good|]. intros s d2 _ H2.
  apply good_bind; [by apply schedule_audit_good|]. intros u d3 _ H3. by apply good_ret.
Qed.

Lemma lockSources_good keys d : sched_ok d → good (lockSources keys) d.
Proof.
  intros Hd. induction keys as [|key keys IH]; cbn [lockSources]; [by apply good_ret|].
  apply good_bind; [by apply good_gets|]. intros row d1 [= _ <-] H1.
  destruct row; [done|apply good_fail].
Qed.

Lemma createEach_good now values acc d : sched_ok d → good (createEach now values acc) d.
Proof.
  revert acc d. induction values as [|value values IH]; intros acc d Hd; cbn [createEach]; [by apply good_ret|].
  apply good_bind; [by apply good_gets|]. intros rows d1 _ H1. destruct rows; [|by apply IH].
  apply good_bind; [by apply insertSchedule_good|]. intros s d2 _ H2.
  apply good_bind; [by apply schedule_audit_good|]. intros u d3 _ H3. by apply IH.
Qed.

Lemma CreateMany_good now inputs d : sched_ok d → good (CreateMany now inputs) d.
Proof.
  intros Hd. unfold CreateMany. destruct inputs as [|input inputs]; [apply good_fail|].
  apply good_bind; [by apply good_lift|]. intros p d1 _ H1.
  apply good_bind; [by apply lockSources_good|]. intros u d2 _ H2. by apply createEach_good.
Qed.

(** *** Locks *)

Lemma lockSchedule_Ok id d row d' : lockSchedule id d = Ok (row, d') ↔ d' = d ∧ schedules d !! id = Some row.
Proof.
  unfold lockSchedule, tx_bind, tx_gets, tx_ret, tx_fail. cbn.
  destruct (schedules d !! id) as [r|]; split; [by intros [= -> ->]|by intros [-> [= ->]]|done|by intros [??]].
Qed.

Lemma active_schedule_id_Some o id : active_schedule_id o = Some id ↔ occ_status o = unresolved ∧ occ_schedule o = id.
Proof. unfold active_schedule_id. case_bool_decide; naive_solver. Qed.
Lemma lockActive_None id d : (lockActiveOccurrence id d : result (_ * db)) = Ok (None, d) ↔ idle id d.
Proof.
  unfold lockActiveOccurrence, tx_gets. split.
  - intros [= H]. rewrite select_first_None in H. intros i o Ho Hun Hs. specialize (H i o Ho).
    apply bool_decide_eq_false in H. apply H. by apply active_schedule_id_Some.
  - intros H. f_equal. f_equal. apply select_first_None. intros i o Ho.
    apply bool_decide_eq_false. intros [Hun Hs]%active_schedule_id_Some. by apply (H i o).
Qed.

Lemma lockActive_Some id d o d' : schema d → lockActiveOccurrence id d = Ok (Some o, d') →
  d' = d ∧ schedule_occurrences d !! occ_id o = Some o ∧ occ_status o = unresolved ∧ occ_schedule o = id.
Proof.
  intros Hs [= H <-]. apply select_first_Some in H as [Ha [i Hi]]. split; [done|].
  destruct (t_ids _ _ _ _ _ (occurrences_ok d Hs) _ _ Hi) as [-> _]. split; [done|].
  by apply bool_decide_eq_true, active_schedule_id_Some in Ha.
Qed.

Lemma lockActive_cases id d : schema d → ∃ active, lockActiveOccurrence id d = Ok (active, d) ∧
  match active with
  | None => idle id d
  | Some o => schedule_occurrences d !! occ_id o = Some o ∧ occ_status o = unresolved ∧ occ_schedule o = id
  end.
Proof.
  intros Hs. eexists. split; [reflexivity|].
  destruct (select_first _ _ _) as [o|] eqn:E.
  - apply (lockActive_Some id d o d Hs). unfold lockActiveOccurrence, tx_gets. by rewrite E.
  - apply lockActive_None. unfold lockActiveOccurrence, tx_gets. by rewrite E.
Qed.

(** *** Updating and enabling *)

(** Assignments that bump the revision may change the state. *)
Lemma bump_change r r' : sch_id r' = sch_id r → created_by r' = created_by r → sch_revision r' = sch_revision r + 1 →
  schedule_change r r'.
Proof. intros ? ? H. split_and!; [done|done|lia|]. rewrite H. lia. Qed.

Lemma columns_of_semantics c definition : semanticMatches c definition = true → same_semantics c (columns_of definition) = true.
Proof. done. Qed.
Lemma same_semantics_trans a b c : same_semantics a b = true → same_semantics b c = true → same_semantics a c = true.
Proof. rewrite !same_semantics_spec. intuition congruence. Qed.
Lemma same_semantics_sym a b : same_semantics a b = true → same_semantics b a = true.
Proof. rewrite !same_semantics_spec. intuition congruence. Qed.

Lemma update_good now id input d : sched_ok d → good (update_tx now id input) d.
Proof.
  intros Hd a d' (row & ? & [-> Hrow]%lockSchedule_Ok & H)%tx_bind_Ok.
  apply tx_bind_Ok in H as (? & ? & [Hrev [= _ ->]]%tx_guard_Ok & H).
  apply tx_bind_Ok in H as (? & ? & [_ [= _ ->]]%tx_guard_Ok & H).
  apply tx_bind_Ok in H as ([definition parsed] & ? & (? & _ & [= <- ->])%tx_lift_Ok & H).
  apply tx_bind_Ok in H as (next & d1 & Hnext & H). apply Z.eqb_eq in Hrev.
  destruct (t_ids _ _ _ _ _ (schedules_ok d (ok_schema d Hd)) _ _ Hrow) as [Hid _].
  assert (d1 = d ∧ (idle id d ∨ next = next_run_at row ∧ semanticMatches (sch_definition row) definition = true)) as [-> Hcase].
  { unfold updated_cursor in Hnext. destruct (semanticMatches _ _); [injection Hnext as <- <-; auto|].
    apply tx_bind_Ok in Hnext as (active & d2 & Hact & Hnext).
    destruct (lockActive_cases (sch_id row) d (ok_schema d Hd)) as (? & E & Hidle). rewrite E in Hact. injection Hact as -> <-.
    destruct active; [done|]. rewrite Hid in Hidle. cbn [isSome orb] in Hnext.
    destruct (sch_enabled row && _); [done|]. injection Hnext as _ <-. auto. }
  revert a d' H. apply good_bind.
  - apply update_schedule_good; [done|]. intros r Hr Hc. assert (r = row) as -> by congruence.
    split; [by apply bump_change|]. destruct Hcase as [?|[-> Hm]]; [by right|left].
    split_and!; [done|done|]. cbn. intros c Hsc. eapply same_semantics_trans, Hsc.
    by apply same_semantics_sym, columns_of_semantics.
  - intros n d2 _ H2. apply good_bind; [by apply good_guard|]. intros u d3 _ H3.
    apply good_bind; [by apply schedule_audit_good|]. intros v d4 _ H4. by apply good_ret.
Qed.

(** A loop of updates keeps what each of them keeps. *)
Lemma update_each_inv {A} (Q : db → Prop) (u : A → Tx db Z) l :
  (∀ a d, a ∈ l → sched_ok d → Q d → good (u a) d ∧ ∀ n d', u a d = Ok (n, d') → Q d') →
  ∀ d, sched_ok d → Q d → good (update_each u l) d ∧ ∀ n d', update_each u l d = Ok (n, d') → Q d'.
Proof.
  induction l as [|a l IH]; intros Hu d Hd HQ; cbn [update_each].
  { split; [by apply good_ret|]. by intros n d' [= _ <-]. }
  destruct (Hu a d (list_elem_of_here _ _) Hd HQ) as [Hg HQ1].
  assert (IH' := IH (λ b s Hb, Hu b s (list_elem_of_further _ _ _ Hb))). split.
  - apply good_bind; [done|]. intros n d1 H1 Hd1. destruct (IH' d1 Hd1 (HQ1 _ _ H1)) as [Hg1 _].
    apply good_bind; [done|]. intros m d2 _ Hd2. by apply good_ret.
  - intros n d' (x & d1 & H1 & (m & d2 & H2 & [= _ <-])%tx_bind_Ok)%tx_bind_Ok.
    destruct (Hg _ _ H1) as [Hd1 _]. destruct (IH' d1 Hd1 (HQ1 _ _ H1)) as [_ HQ2]. eauto.
Qed.

Lemma applyEnable_good transitions actor d : sched_ok d →
  (∀ t, t ∈ transitions → idle (sch_id (en_schedule t)) d) → good (applyEnableTransitions transitions actor) d.
Proof.
  intros Hd Hidle. unfold applyEnableTransitions. destruct transitions as [|t0 ts]; [by apply good_ret|].
  set (l := t0 :: ts) in *. apply good_bind.
  - apply (update_each_inv (λ d, ∀ t, t ∈ l → idle (sch_id (en_schedule t)) d)); [|done|done].
    intros t d1 Ht Hd1 HQ. split.
    + apply update_schedule_good; [done|]. intros r Hr Hc. split; [by apply bump_change|right; auto].
    + intros n d' (E & _ & _)%update_schedule_tables t' Ht'. eapply idle_same, HQ; auto.
  - intros n d1 _ H1. by apply good_guard.
Qed.

(** *** Stopping *)

Lemma discard_update now actor : occurrence_update is_unresolved (discard_row now actor).
Proof. intros o Ho. split_and!; [done|done|]. by apply bool_decide_eq_true in Ho. Qed.

(** An occurrence keeps its schedule. *)
Lemma occurrence_schedule_kept d d' i o : history d d' → schedule_occurrences d !! i = Some o →
  ∃ o', schedule_occurrences d' !! i = Some o' ∧ occ_schedule o' = occ_schedule o.
Proof.
  intros Hh Ho. destruct (h_occurrences _ _ Hh i o Ho) as (o' & Ho' & Hid & _).
  exists o'. split; [done|]. by apply occurrence_identity_eq in Hid as (_ & ? & _).
Qed.

Lemma discard_each now actor ids d n d' : sched_ok d →
  update_each (λ id, update_occurrence id is_unresolved (discard_row now actor)) ids d = Ok (n, d') →
  sched_ok d' ∧ history d d' ∧ schedules d' = schedules d ∧ 0 <= n <= Z.of_nat (length ids) ∧
  (∀ i, idle i d → idle i d') ∧
  (n = Z.of_nat (length ids) → ∀ id o, id ∈ ids → schedule_occurrences d !! id = Some o → idle (occ_schedule o) d').
Proof.
  revert d n. induction ids as [|id ids IH]; intros d n Hd; cbn [update_each].
  { intros [= <- <-]. split; [done|]. split; [reflexivity|]. split_and!; try done. set_solver. }
  intros (m & d1 & H1 & (k & d2 & H2 & [= <- <-])%tx_bind_Ok)%tx_bind_Ok.
  pose proof (discard_update now actor) as Hup.
  destruct (update_occurrence_good id _ _ d Hd Hup _ _ H1) as [Hd1 Hh1].
  destruct (IH d1 k Hd1 H2) as (Hd2 & Hh2 & Hs2 & Hk & Hidle2 & Hclose2).
  assert (0 <= m <= 1) as Hm by (apply update_one_Ok in H1 as [(-> & _)|(-> & _)]; lia).
  split; [done|]. split; [by transitivity d1|].
  split; [rewrite Hs2; by apply (update_occurrence_idle _ _ _ _ _ _ 0 Hup H1)|]. cbn [length].
  split; [lia|]. split.
  { intros i Hi. apply Hidle2. by apply (update_occurrence_idle _ _ _ _ _ _ i Hup H1). }
  intros Hn j o [->|Hj]%elem_of_cons Ho.
  - apply Hidle2. eapply update_occurrence_closes; [apply Hd|exact Hup|done|exact H1|lia|done].
  - destruct (occurrence_schedule_kept _ _ _ _ Hh1 Ho) as (o' & Ho' & <-). apply (Hclose2 ltac:(lia) j o' Hj Ho').
Qed.

(** Each stopped schedule is idle or its unresolved occurrence is known. *)
Definition stop_ready (t : stopTransition) (d : db) : Prop :=
  match stop_occurrence t with
  | None => idle (sch_id (stop_schedule t)) d
  | Some id => ∃ o, schedule_occurrences d !! id = Some o ∧ occ_schedule o = sch_id (stop_schedule t)
  end.

Lemma stop_row_change archive now actor r : schedule_change r (stop_row archive now actor r).
Proof. apply bump_change; by destruct archive. Qed.

Lemma applyStop_idles transitions actor now d u d1 : sched_ok d →
  (∀ t, t ∈ transitions → stop_ready t d) →
  match omap stop_occurrence transitions with
  | [] => tx_ret tt
  | _ =>
      let* affected := update_each (λ id, update_occurrence id is_unresolved (discard_row now actor))
                         (omap stop_occurrence transitions) in
      requireCount affected (Z.of_nat (length (omap stop_occurrence transitions)))
  end d = Ok (u, d1) →
  sched_ok d1 ∧ history d d1 ∧ schedules d1 = schedules d ∧
  ∀ t, t ∈ transitions → idle (sch_id (stop_schedule t)) d1.
Proof.
  intros Hd Hready H.
  assert (Hgo : ∃ n, update_each (λ id, update_occurrence id is_unresolved (discard_row now actor))
     (omap stop_occurrence transitions) d = Ok (n, d1) ∧ n = Z.of_nat (length (omap stop_occurrence transitions))).
  { destruct (omap stop_occurrence transitions) as [|id ids]; [injection H as _ <-; by exists 0|].
    apply tx_bind_Ok in H as (n & d2 & H1 & [-> ->]%requireCount_Ok). by eexists. }
  clear H. destruct Hgo as (n & H & Hn).
  destruct (discard_each _ _ _ _ _ _ Hd H) as (Hd1 & Hh & Hs & _ & Hidle & Hclose).
  split; [done|]. split; [done|]. split; [done|].
  intros t Ht. specialize (Hready t Ht). unfold stop_ready in Hready.
  destruct (stop_occurrence t) as [id|] eqn:E; [|by apply Hidle].
  destruct Hready as (o & Ho & <-). apply (Hclose Hn id o); [|done]. apply list_elem_of_omap. eauto.
Qed.

Lemma applyStop_good transitions actor archive now d : sched_ok d →
  (∀ t, t ∈ transitions → stop_ready t d) → good (applyStopTransitions transitions actor archive now) d.
Proof.
  intros Hd Hready. unfold applyStopTransitions. destruct transitions as [|t0 ts]; [by apply good_ret|].
  set (l := t0 :: ts) in *. intros u d' (v & d1 & H1 & H2)%tx_bind_Ok.
  destruct (applyStop_idles l actor now d v d1 Hd Hready H1) as (Hd1 & Hh & _ & Hidle).
  cut (sched_ok d' ∧ history d1 d'); [intros [? ?]; split; [done|by transitivity d1]|].
  revert u d' H2. apply good_bind.
  - apply (update_each_inv (λ d, ∀ t, t ∈ l → idle (sch_id (stop_schedule t)) d)); [|done|done].
    intros t d2 Ht Hd2 HQ. split.
    + apply update_schedule_good; [done|]. intros r Hr Hc. split; [apply stop_row_change|right; auto].
    + intros n d3 (E & _ & _)%update_schedule_tables t' Ht'. eapply idle_same, HQ; auto.
  - intros n d2 _ H3. by apply good_guard.
Qed.

Lemma prepareEnable_Ok row active now t : prepareEnable row active now = Ok t →
  active = false ∧ archived_at row = None ∧ en_schedule t = row.
Proof.
  unfold prepareEnable. destruct (archived_at row), active; try done. cbn.
  destruct (validateDefinition _ _); [|done]. by intros [= <-].
Qed.

Lemma enable_good now id revision actor requester d : sched_ok d → good (enable_tx now id revision actor requester) d.
Proof.
  intros Hd a d' (row & ? & [-> Hrow]%lockSchedule_Ok & H)%tx_bind_Ok.
  apply tx_bind_Ok in H as (? & ? & [_ [= _ ->]]%tx_guard_Ok & H).
  destruct (t_ids _ _ _ _ _ (schedules_ok d (ok_schema d Hd)) _ _ Hrow) as [Hid _].
  apply tx_bind_Ok in H as (active & d2 & Hact & H).
  destruct (lockActive_cases id d (ok_schema d Hd)) as (? & E & Hidle). rewrite E in Hact. injection Hact as -> <-.
  apply tx_bind_Ok in H as (t & ? & (? & Ht & [= <- ->])%tx_lift_Ok & H).
  apply prepareEnable_Ok in Ht as (Hact & _ & Hen). destruct active; [done|].
  revert a d' H. apply good_bind.
  - apply applyEnable_good; [done|]. intros t' ->%list_elem_of_singleton. by rewrite Hen, Hid.
  - intros n d2 _ H2. apply good_bind; [by apply schedule_audit_good|]. intros v d4 _ H4. by apply good_ret.
Qed.

Lemma stop_good now id revision actor archive requester d : sched_ok d →
  good (stop_tx now id revision actor archive requester) d.
Proof.
  intros Hd a d' (row & ? & [-> Hrow]%lockSchedule_Ok & H)%tx_bind_Ok.
  apply tx_bind_Ok in H as (? & ? & [_ [= _ ->]]%tx_guard_Ok & H).
  destruct (t_ids _ _ _ _ _ (schedules_ok d (ok_schema d Hd)) _ _ Hrow) as [Hid _].
  apply tx_bind_Ok in H as (active & d2 & Hact & H).
  destruct (lockActive_cases id d (ok_schema d Hd)) as (? & E & Hidle). rewrite E in Hact. injection Hact as -> <-.
  revert a d' H. apply good_bind.
  - apply applyStop_good; [done|]. intros t' ->%list_elem_of_singleton. unfold stop_ready. cbn.
    destruct active as [o|]; cbn; [|by rewrite Hid]. destruct Hidle as (Ho & _ & Hs). exists o. by rewrite Hid.
  - intros n d2 _ H2. apply good_bind; [by apply schedule_audit_good|]. intros v d4 _ H4. by apply good_ret.
Qed.

(** *** Bulk *)

Lemma elem_of_rev {A} (x : A) l : x ∈ rev l ↔ x ∈ l.
Proof. by rewrite <- Permutation_rev. Qed.

(** The map of the active occurrences by schedule. *)
Lemma active_map l i (m : gmap Z occurrence_row) : foldl (λ m o, <[occ_schedule o := o]> m) m l !! i =
  match filter (λ o, occ_schedule o = i) (rev l) with o :: _ => Some o | [] => m !! i end.
Proof.
  revert m. induction l as [|o l IH] using rev_ind; intros m; [done|].
  rewrite foldl_app, rev_app_distr. cbn [rev app foldl]. rewrite filter_cons.
  destruct (decide (occ_schedule o = i)) as [<-|Hne]; [apply lookup_insert_eq|].
  rewrite lookup_insert_ne by done. apply IH.
Qed.

Lemma bulk_active ids occurrences d d' : schema d → lockActiveOccurrences ids d = Ok (occurrences, d') →
  d' = d ∧ ∀ i, i ∈ ids → 
    match foldl (λ m o, <[occ_schedule o := o]> m) (∅ : gmap Z occurrence_row) occurrences !! i with
    | None => idle i d
    | Some o => schedule_occurrences d !! occ_id o = Some o ∧ occ_schedule o = i
    end.
Proof.
  intros Hs H. destruct ids as [|id0 ids0]; [injection H as <- <-; split; [done|]; set_solver|].
  set (ids := id0 :: ids0) in *. unfold lockActiveOccurrences, tx_gets in H. injection H as <- <-. split; [done|].
  intros i Hi. rewrite active_map, lookup_empty.
  set (l := select_by _ _ _). destruct (filter _ (rev l)) as [|o os] eqn:E.
  - intros j o Ho Hun Hsch. assert (o ∈ filter (λ o, occ_schedule o = i) (rev l)) as Hin.
    { apply list_elem_of_filter. split; [done|]. apply elem_of_rev. unfold l. apply elem_of_select_by.
      split; [|eauto]. unfold is_unresolved. rewrite Hun, Hsch. by rewrite !bool_decide_eq_true_2. }
    rewrite E in Hin. set_solver.
  - assert (o ∈ filter (λ o, occ_schedule o = i) (rev l)) as [Hsch Hin]%list_elem_of_filter by (rewrite E; left).
    rewrite elem_of_rev in Hin. unfold l in Hin. apply elem_of_select_by in Hin as (_ & j & Hj).
    destruct (t_ids _ _ _ _ _ (occurrences_ok d Hs) _ _ Hj) as [-> _]. done.
Qed.

Lemma prepareEnables_Ok now active rows ts : prepareEnables now active rows = Ok ts →
  en_schedule <$> ts = rows ∧ ∀ row, row ∈ rows → active !! sch_id row = None ∧ archived_at row = None.
Proof.
  revert ts. induction rows as [|row rows IH]; intros ts; cbn [prepareEnables].
  { intros [= <-]. split; [done|]. set_solver. }
  intros (t & Ht & (rest & Hrest & [= <-])%res_bind_Ok)%res_bind_Ok.
  apply prepareEnable_Ok in Ht as (Ha & Har & Hen). destruct (IH _ Hrest) as [<- Hall].
  split; [by cbn; rewrite Hen|]. intros r [->|Hr]%elem_of_cons; [|auto].
  split; [|done]. by destruct (active !! sch_id row).
Qed.

Lemma bulk_good now submitted action actor requester d : sched_ok d →
  good (BulkState now submitted action actor requester) d.
Proof.
  intros Hd a d' (ids & ? & (? & _ & [= <- ->])%tx_lift_Ok & H)%tx_bind_Ok.
  apply tx_bind_Ok in H as (? & ? & [_ [= _ ->]]%tx_guard_Ok & H).
  apply tx_bind_Ok in H as (rows & ? & [= Hrows <-] & H).
  apply tx_bind_Ok in H as (? & ? & [_ [= _ ->]]%tx_guard_Ok & H).
  apply tx_bind_Ok in H as (? & ? & [_ [= _ ->]]%tx_guard_Ok & H).
  set (candidates := filter _ rows) in H. apply tx_bind_Ok in H as (occurrences & d1 & Hocc & H).
  destruct (bulk_active _ _ _ _ (ok_schema d Hd) Hocc) as [-> Hact]. clear Hocc.
  set (active := foldl _ _ _) in *.
  assert (Hcand : ∀ r, r ∈ candidates → sch_id r ∈ sch_id <$> candidates) by (intros r; apply list_elem_of_fmap_2).
  revert a d' H. apply good_bind.
  - destruct action.
    1: { apply good_bind; [by apply good_lift|]. intros ts d1 (? & Hts & [= <- ->])%tx_lift_Ok _.
      apply prepareEnables_Ok in Hts as [Hfst Hnone]. apply applyEnable_good; [done|]. intros t Ht.
      assert (en_schedule t ∈ candidates) as Hin by (rewrite <- Hfst; by apply list_elem_of_fmap_2).
      specialize (Hact _ (Hcand _ Hin)). by rewrite (proj1 (Hnone _ Hin)) in Hact. }
    all: apply applyStop_good; [done|]; intros t (r & -> & Hr)%list_elem_of_fmap; unfold stop_ready; cbn;
      specialize (Hact _ (Hcand _ Hr)); destruct (active !! sch_id r) as [o|]; cbn; [|done];
      destruct Hact as [Ho Hs]; eauto.
  - intros u d2 _ H2. apply good_bind; [|intros v d4 _ H4; by apply good_ret].
    destruct requester; [by apply Append_good|by apply good_ret].
Qed.


(** *** Processing *)

Lemma disableInvalid_good schedule now message d : sched_ok d → idle (sch_id schedule) d →
  good (disableInvalid schedule now message) d.
Proof.
  intros Hd Hidle. apply good_bind.
  - apply update_schedule_good; [done|]. intros r Hr Hc. split; [by apply bump_change|by right].
  - intros n d1 _ H1. by apply good_guard.
Qed.

(** The occurrence is stored for this schedule. *)
Definition belongs (occurrence : occurrence_row) (schedule : schedule_row) (d : db) : Prop :=
  schedule_occurrences d !! occ_id occurrence = Some occurrence ∧ occ_schedule occurrence = sch_id schedule.

Lemma rejectLocked_good schedule occurrence now cause d : sched_ok d → belongs occurrence schedule d →
  good (rejectLockedOccurrence schedule occurrence now cause) d.
Proof.
  intros Hd [Ho Hs]. unfold rejectLockedOccurrence. set (set := λ o, set_occ_status _ _).
  assert (Hup : occurrence_update is_unresolved set).
  { intros o Hc. split_and!; [done|done|]. by apply bool_decide_eq_true in Hc. }
  apply good_bind; [by apply update_occurrence_good|]. intros n d1 H1 Hd1.
  intros u d' (v & d2 & [-> ->]%requireOne_Ok & H2)%tx_bind_Ok. revert u d' H2. apply disableInvalid_good; [done|].
  rewrite <- Hs. by eapply (update_occurrence_closes _ _ _ _ _ _ _ (ok_schema d Hd) Hup).
Qed.

Lemma rejectInvalid_good schedule cursor now cause d : sched_ok d → good (rejectInvalid schedule cursor now cause) d.
Proof.
  intros Hd u d' (active & d1 & Hact & H)%tx_bind_Ok.
  destruct (lockActive_cases (sch_id schedule) d (ok_schema d Hd)) as (? & E & Hcase). rewrite E in Hact.
  injection Hact as -> <-. revert u d' H. destruct active as [o|].
  - destruct Hcase as (Ho & _ & Hs). by apply rejectLocked_good.
  - apply good_bind; [by apply insert_occurrence_good|]. intros n d1 H1 Hd1.
    apply disableInvalid_good; [done|]. by eapply insert_occurrence_idle.
Qed.

Lemma resolveSuccess_good schedule occurrence attempt run parsed now d : sched_ok d → belongs occurrence schedule d →
  good (resolveSuccess schedule occurrence attempt run parsed now) d.
Proof.
  intros Hd [Ho Hs]. unfold resolveSuccess. destruct (finished_at run); [|apply good_fail].
  destruct (_ || _ || _); [apply good_fail|]. destruct (Next _ _); [|apply good_fail].
  set (set := λ o, set_occ_status resolved _).
  assert (Hup : occurrence_update (attempted (attempt_no attempt)) set).
  { intros o [Hc _]%andb_true_iff. split_and!; [done|done|]. by apply bool_decide_eq_true in Hc. }
  apply good_bind; [by apply update_occurrence_good|]. intros n d1 H1 Hd1.
  intros u d' (v & d2 & [-> ->]%requireOne_Ok & H2)%tx_bind_Ok. revert u d' H2. apply good_bind.
  - apply update_schedule_good; [done|]. intros r Hr Hc. split; [by split_and!|right].
    rewrite <- Hs. by eapply (update_occurrence_closes _ _ _ _ _ _ _ (ok_schema d Hd) Hup).
  - intros n d2 _ H2. by apply good_guard.
Qed.

(** Writing only the delivery columns. *)
Lemma delivery_columns_good id cond set d : sched_ok d →
  (∀ r, sch_id (set r) = sch_id r ∧ sch_name (set r) = sch_name r ∧ sch_definition (set r) = sch_definition r ∧
     sch_enabled (set r) = sch_enabled r ∧ next_run_at (set r) = next_run_at r ∧ sch_revision (set r) = sch_revision r ∧
     archived_at (set r) = archived_at r ∧ created_by (set r) = created_by r) →
  good (update_schedule id cond set) d.
Proof.
  intros Hd Hset. apply update_schedule_good; [done|]. intros r _ _.
  destruct (Hset r) as (H1 & H2 & H3 & H4 & H5 & H6 & H7 & H8).
  split; [split_and!; [done|done|lia|intros _; congruence]|]. left. split_and!; [done|done|by rewrite H3].
Qed.

Lemma recordBackoff_good schedule occurrence attempt run finished d : sched_ok d →
  good (recordBackoff schedule occurrence attempt run finished) d.
Proof.
  intros Hd. unfold recordBackoff. destruct (_ || _ || _); [apply good_fail|].
  apply good_bind.
  { apply update_occurrence_good; [done|]. intros o [[Hc _]%andb_true_iff _]%andb_true_iff.
    split_and!; [done|done|]. by apply bool_decide_eq_true in Hc. }
  intros n d1 H1 Hd1. apply good_bind; [by apply good_guard|]. intros u d2 _ Hd2.
  apply good_bind; [by apply delivery_columns_good|]. intros m d3 _ Hd3. by apply good_guard.
Qed.

(** Recording an attempt: its row and the new count go together. *)
Lemma record_attempt_good occurrence runID reference now d k d1 d2 : sched_ok d →
  insert_attempt (λ id, mkAttempt id (occ_id occurrence) (next_attempt (attempt_count occurrence)) runID reference now) d = Ok (k, d1) →
  update_occurrence (occ_id occurrence) (attempted (attempt_count occurrence))
    (λ o, set_attempt_count (next_attempt (attempt_count occurrence)) (set_retry_not_before None o)) d1 = Ok (1, d2) →
  sched_ok d2 ∧ history d d2.
Proof.
  intros [Hs [Hcr Hcw Hcd] Hal] Hi Hu. set (no := next_attempt (attempt_count occurrence)) in *.
  assert (Hs1 : schema d1) by (refine (preserves_insert_attempt _ _ _ _ _ Hs Hi); done).
  assert (Hs2 : schema d2) by (refine (preserves_update_occurrence _ _ _ _ _ _ _ Hs1 Hu); done).
  apply insert_one_Ok in Hi as (-> & Hv & ->). apply attempt_verdict_None in Hv as (Hpos & _).
  apply update_one_Ok in Hu as [(_ & o & Ho & Hc & _ & _ & ->)|(? & _)]; [|done]. cbn in Ho, Hpos.
  apply andb_true_iff in Hc as [Hun Hcount]. apply bool_decide_eq_true in Hun. apply Z.eqb_eq in Hcount.
  assert (Hno : no = attempt_count o + 1 ∧ no < 2 ^ 32).
  { specialize (Hcr _ _ Ho). unfold no, next_attempt in *. rewrite <- Hcount in *.
    pose proof (Z.mod_pos_bound (attempt_count o + 1) (2 ^ 32) eq_refl).
    destruct (decide (attempt_count o + 1 = 2 ^ 32)) as [E|]; [rewrite E, Z.mod_same in Hpos; lia|].
    rewrite Z.mod_small by lia. lia. }
  destruct (Hcr _ _ Ho) as [Hlo _].
  assert (Hnew : schedule_attempts d !! next_attempt_id d = None).
  { apply eq_None_not_Some. intros [a Ha]. destruct (t_ids _ _ _ _ _ (attempts_ok d Hs) _ _ Ha). lia. }
  split; [split; [done| |]|].
  - split; cbn.
    + apply put_lookup; cbn; [lia|eauto].
    + intros i u j a [[<- <-]|[Hne Hu']]%lookup_insert_Some [[<- <-]|[? Ha]]%lookup_insert_Some Hocc; cbn in *;
        [lia| |congruence|eauto]. specialize (Hcw _ _ _ _ Ho Ha Hocc). lia.
    + intros i u j [[<- <-]|[Hne Hu']]%lookup_insert_Some Hj; cbn in Hj.
      * destruct (decide (j = no)) as [->|Hjn]; [eexists _, _; split; [apply lookup_insert_eq|done]|].
        destruct (Hcd _ _ j Ho) as (b & a & Ha & ?); [lia|]. exists b, a. split; [|done].
        rewrite lookup_insert_ne; [done|]. intros <-. congruence.
      * destruct (Hcd _ _ j Hu') as (b & a & Ha & ?); [lia|]. exists b, a. split; [|done].
        rewrite lookup_insert_ne; [done|]. intros <-. congruence.
  - unfold aligned. cbn. intros i u [[<- <-]|[? ?]]%lookup_insert_Some Hu; [|by eapply Hal].
    destruct (Hal _ o Ho Hun) as (s & Hr & Hf). exists s. split; [done|].
    apply currentFence_spec in Hf as (? & ? & ? & ?). by apply currentFence_spec.
  - split; cbn; eauto using schedule_change_refl.
    + intros i u Hu. destruct (decide (i = occ_id occurrence)) as [->|Hne];
        [|rewrite lookup_insert_ne by done; eauto using occurrence_change_refl].
      rewrite lookup_insert_eq. eexists. split; [done|]. assert (u = o) as -> by congruence. split_and!; [done|cbn; lia|done].
    + intros i a Ha. rewrite lookup_insert_ne; [done|]. intros <-. congruence.
Qed.

Lemma deliver_good now schedule occurrence job d : sched_ok d → good (deliver now schedule occurrence job) d.
Proof.
  intros Hd. apply good_bind; [by apply good_lift|]. intros parameters d0 _ Hd0.
  intros a d' (submitted & d1 & Hsub & H)%tx_bind_Ok. unfold tx_try in Hsub.
  destruct (submit_run _ _ _ _ _ _ d0) as [[runID d1']|e] eqn:Es; injection Hsub as <- <-.
  - destruct (submit_run_frame _ _ _ _ _ _ _ _ _ (ok_schema d0 Hd0) Es) as (Hsame & _).
    destruct (same_schedules_good _ _ Hd0 (submit_run_schema _ _ _ _ _ _ _ _ _ (ok_schema d0 Hd0) Es) Hsame) as [Hd1 Hh1].
    apply tx_bind_Ok in H as (k & d2 & Hi & H). apply tx_bind_Ok in H as (n & d3 & Hu & H).
    apply tx_bind_Ok in H as (u & d4 & [-> ->]%requireOne_Ok & H).
    destruct (record_attempt_good _ _ _ _ _ _ _ _ Hd1 Hi Hu) as [Hd3 Hh3].
    cut (sched_ok d' ∧ history d3 d'); [intros [? ?]; split; [done|]; transitivity d1'; [done|by transitivity d3]|].
    revert a d' H. apply good_bind; [by apply delivery_columns_good|]. intros m d5 _ Hd5.
    apply good_bind; [by apply good_guard|]. intros w d6 _ Hd6. by apply good_ret.
  - revert a d' H. destruct (block_reason e); [|apply good_fail].
    apply good_bind; [by apply delivery_columns_good|]. intros m d5 _ Hd5.
    apply good_bind; [by apply good_guard|]. intros w d6 _ Hd6. by apply good_ret.
Qed.

Lemma then_true_good {A} (m : Tx db A) (r : bool * option delivery) d : good m d → good (m ;;; tx_ret r) d.
Proof. intros H. apply good_bind; [done|]. intros a d' _ Hd. by apply good_ret. Qed.

Lemma process_attempt_good now schedule occurrence job parsed d : sched_ok d → belongs occurrence schedule d →
  good (process_attempt now schedule occurrence job parsed) d.
Proof.
  intros Hd Hb. unfold process_attempt. apply good_bind; [by apply good_gets|]. intros latest d1 [= _ <-] _.
  destruct latest as [attempt|].
  - destruct (negb _); [by apply then_true_good, rejectLocked_good|].
    intros a d' (run & d1 & Hrun & H)%tx_bind_Ok.
    assert (d1 = d) as ->.
    { unfold lockAttemptRun, tx_bind, tx_gets, tx_ret, tx_fail in Hrun. by destruct (ingestion_runs d !! _); [injection Hrun|]. }
    revert a d' H. destruct (run_status run); try apply good_fail; try (by apply good_ret);
      [by apply then_true_good, resolveSuccess_good|..].
    all: destruct (finished_at run); [|apply good_fail].
    all: destruct (retry_not_before occurrence); [|by apply then_true_good, recordBackoff_good].
    all: destruct (now <? _); [by apply good_ret|by apply deliver_good].
  - destruct (negb _); [by apply then_true_good, rejectLocked_good|by apply deliver_good].
Qed.

(** The occurrence [current_occurrence] returns belongs to the schedule. *)
Lemma current_occurrence_good now schedule cursor job d : sched_ok d →
  schedules d !! sch_id schedule = Some schedule → sch_enabled schedule = true → next_run_at schedule = Some cursor →
  good (current_occurrence now schedule cursor job) d ∧
  ∀ o d', current_occurrence now schedule cursor job d = Ok (Some o, d') →
    belongs o schedule d' ∧ schedules d' = schedules d ∧ scheduled_for o = cursor ∧ occ_status o = unresolved.
Proof.
  intros Hd Hr He Hn. unfold current_occurrence.
  destruct (lockActive_cases (sch_id schedule) d (ok_schema d Hd)) as (active & E & Hcase).
  assert (Hbind : ∀ k, tx_bind (lockActiveOccurrence (sch_id schedule)) k d = k active d :> result (option occurrence_row * db))
    by (intros k; by apply tx_bind_eq).
  unfold good. setoid_rewrite Hbind. clear Hbind E. destruct active as [o|].
  - destruct Hcase as (Ho & Hun & Hs). destruct (scheduled_for o =? cursor) eqn:Ec; cbn [negb].
    + apply Z.eqb_eq in Ec. split; [by apply good_ret|]. intros u d' [= <- <-]. done.
    + split.
      * apply good_bind; [by apply rejectLocked_good|]. intros a d1 _ Hd1. by apply good_ret.
      * by intros u d' (? & ? & _ & [=])%tx_bind_Ok.
  - set (row := λ id, mkOccurrence id (sch_id schedule) cursor validated_cron (occurrence_mode job) unresolved
      (sch_revision schedule) (sch_definition schedule) 0 None None None None).
    assert (Hins : good (insert_occurrence row) d).
    { apply insert_occurrence_good; [done|done|]. intros id _. exists schedule. split; [done|].
      apply currentFence_spec. split_and!; try done. apply same_semantics_refl. }
    assert (Hread : ∀ id d1 o d2, insert_occurrence row d = Ok (id, d1) →
      (let* row := tx_gets (λ d, schedule_occurrences d !! id) in
       match row with Some row => tx_ret row | None => tx_fail ErrNoRows end) d1 = Ok (o, d2) → d2 = d1 ∧ o = row id ∧
       schedule_occurrences d1 !! id = Some (row id) ∧ schedules d1 = schedules d).
    { intros id d1 o d2 (-> & _ & ->)%insert_one_Ok. unfold tx_bind, tx_gets, tx_ret. cbn. rewrite lookup_insert_eq.
      by intros [= <- <-]. }
    split.
    + apply good_bind; [|intros o d1 _ Hd1; by apply good_ret].
      apply good_bind; [done|]. intros id d1 H1 Hd1 o d2 H2. destruct (Hread _ _ _ _ H1 H2) as (-> & _). split; [done|reflexivity].
    + intros o d' (o1 & d2 & (id & d1 & H1 & H2)%tx_bind_Ok & [= -> <-])%tx_bind_Ok.
      destruct (Hread _ _ _ _ H1 H2) as (-> & -> & Hl & Hs). done.
Qed.

Lemma process_good now id d : sched_ok d → good (processTransaction now id) d.
Proof.
  intros Hd. unfold processTransaction. apply good_bind; [by apply good_gets|]. intros row d1 [= Hrow <-] _.
  destruct row as [schedule|]; [|by apply good_ret].
  destruct (due now schedule) as [cursor|] eqn:Edue; [|by apply good_ret].
  assert (sch_enabled schedule = true ∧ next_run_at schedule = Some cursor) as [He Hn].
  { unfold due in Edue. destruct (next_run_at schedule); [|done]. destruct (sch_enabled schedule); [|done].
    cbn in Edue. destruct (_ || _); [done|]. by injection Edue as ->. }
  destruct (t_ids _ _ _ _ _ (schedules_ok d (ok_schema d Hd)) _ _ Hrow) as [Hid _].
  generalize (validateDefinition (row_definition schedule) now), (Find theCatalog (c_job_key (sch_definition schedule))).
  intros valid found.
  destruct valid as [[definition parsed]|e]; [|by apply then_true_good, rejectInvalid_good].
  destruct found as [job|]; [|by apply then_true_good, rejectInvalid_good].
  destruct (IsOccurrence parsed cursor); [|by apply then_true_good, rejectInvalid_good].
  destruct (current_occurrence_good now schedule cursor job d Hd) as [Hg Hb]; [by rewrite Hid|done|done|].
  apply good_bind; [done|]. intros o d1 H1 Hd1. destruct o as [o|]; [|by apply good_ret].
  destruct (Hb _ _ H1) as (Hbel & _).
  destruct (negb _); [by apply then_true_good, rejectLocked_good|].
  destruct (_ || _); [by apply then_true_good, rejectLocked_good|]. by apply process_attempt_good.
Qed.
End Good.
