(* ===== verification/SchedulerRuns.v ===== *)
(** * The scheduler on the run repository

    The wiring of src/internal/app: the scheduler submits through
    [Repository.SubmitInTx], which discharges [RunSubmission].  Then the
    theorems about the scheduler, with a concrete cron library and database
    to evaluate them on. *)

From S2P Require Import Prelude Calendar Json Hash Catalog Params Access AuditTrail Table Store Schema Runs ScheduleModel Scheduler SchedulerInv.

Open Scope Z_scope.

(** ** Submission through the run repository *)

Lemma sourceEnabled_same key d enabled d' : sourceEnabled key d = Ok (enabled, d') → d' = d.
Proof.
  unfold sourceEnabled, tx_bind, tx_gets. destruct (source_settings d !! key); [|done]. by intros [= _ <-].
Qed.
Lemma sourceReady_same key d u d' : sourceReady key d = Ok (u, d') → d' = d.
Proof.
  unfold sourceReady. intros (row & d1 & [= _ <-] & H)%tx_bind_Ok. destruct row as [s|]; [|done].
  destruct (src_enabled s); [|done]. cbn [negb] in H. destruct (src_profile s) as [profile|]; [|done].
  apply tx_bind_Ok in H as (status & d2 & [= _ <-] & H). destruct status; [|done].
  by apply tx_guard_Ok in H as [_ [= _ ->]].
Qed.

(** A committed submission is the insertion of one queued row. *)
Lemma submitInTx_inserts now key p t ref user auth d id d' :
  submitInTx now key p t ref user auth d = Ok (id, d') →
  insertRun now KindJob None None key StatusQueued p t ref user d = Ok (id, d') ∧ key ≠ "".
Proof.
  unfold submitInTx. intros H. destruct (bool_decide _ && _); [done|].
  assert (Hkey : is_Some (Find theCatalog key) → key ≠ "").
  { intros [job [Hj <-]%Find_spec]. by apply catalog_key_nonempty. }
  destruct (Find theCatalog key) as [job|]; [|discriminate]. specialize (Hkey (mk_is_Some _ _ eq_refl)).
  apply tx_bind_Ok in H as (? & ? & (? & _ & [= _ ->])%tx_lift_Ok & H).
  apply tx_bind_Ok in H as (u & d1 & Hsrc & H).
  assert (d1 = d) as ->.
  { destruct auth; [by eapply sourceReady_same|]. apply tx_bind_Ok in Hsrc as (e & d2 & He & Hg).
    apply sourceEnabled_same in He as ->. by apply tx_guard_Ok in Hg as [_ [= _ ->]]. }
  apply tx_bind_Ok in H as (inserted & d2 & Hi & H). unfold tx_try in Hi.
  destruct (insertRun _ _ _ _ _ _ _ _ _ _ d) as [[i d3]|e]; injection Hi as <- <-; [|done].
  by injection H as -> ->.
Qed.

#[export] Program Instance repository_submission : RunSubmission := {| submit_run := SubmitInTx |}.
Next Obligation. intros. apply preserves_submitInTx. Qed.
Next Obligation.
  intros now key p t ref user d id d' Hd [H Hkey]%submitInTx_inserts.
  apply insert_one_Ok in H as (-> & _ & ->).
  assert (Hfresh : ingestion_runs d !! next_run_id d = None).
  { apply eq_None_not_Some. intros [r Hr]. destruct (t_ids _ _ _ _ _ (runs_ok d Hd) _ _ Hr). lia. }
  split; [by split_and!|]. split; [done|]. cbn. split.
  - intros i Hi. by rewrite lookup_insert_ne.
  - eexists. split; [apply lookup_insert_eq|]. cbn. split_and!; try done.
    unfold nullable. destruct (key =? "")%string eqn:E; [|done]. by apply String.eqb_eq in E.
Qed.

(** ** A concrete scheduler *)

(** A cron library that knows one expression, "every full hour", in UTC. *)
#[export] Program Instance hourly : CronLibrary := {|
  cron_schedule := unit; cron_location := unit;
  ParseStandardFields s := if (s =? "0 * * * *")%string then Some tt else None;
  LoadLocation s := if (s =? "Etc/UTC")%string then Some tt else None;
  cron_next _ _ t := Some ((t / hour + 1) * hour) |}.
Next Obligation.
  intros _ _ t n [= <-]. assert (0 < hour) as Hh by done. pose proof (Z.mod_pos_bound t hour Hh).
  rewrite (Z.div_mod t hour) at 1 by lia. lia.
Qed.

(** The policy of a live snapshot. *)
Definition sample_policy : Policy :=
  mkPolicy PolicyLiveSnapshot 1 "{}" (sha256 (json_print (policy_envelope PolicyLiveSnapshot 1))).

Lemma checksum32_sha256 m : checksum32 (sha256 m) = sha256 m.
Proof. unfold checksum32. rewrite <- (sha256_length m) at 1. apply substring_app. Qed.

Lemma sample_policy_valid : validatePolicy sample_policy = Ok sample_policy.
Proof.
  unfold validatePolicy, sample_policy, canonicalPolicy. cbn [pol_kind pol_version pol_payload pol_checksum].
  generalize (sha256 (json_print (policy_envelope PolicyLiveSnapshot 1))). intros digest.
  assert (E : json_decode "{}" = Some (JObj [])) by reflexivity. rewrite E.
  change (negb _ || negb _) with false. cbn [res_bind pol_checksum].
  rewrite String.eqb_refl, andb_false_r. reflexivity.
Qed.

(** A schedule of the detail job "cif_detail", its definition and row. *)
Definition sample_definition : Definition_ :=
  mkDefinition "hourly detail" "cif_detail" "0 * * * *" "Etc/UTC" sample_policy.
Definition sample_schedule : schedule_row :=
  mkSchedule 1 (columns_of sample_definition) "hourly detail" true (Some hour) 3 None None None (Some 1) (Some 1) None.

Lemma sample_job : ∃ job, Find theCatalog "cif_detail" = Some job ∧ j_strategy job = NoDate.
Proof.
  assert (H : j_strategy <$> Find theCatalog "cif_detail" = Some NoDate) by (vm_compute; reflexivity).
  destruct (Find theCatalog "cif_detail") as [job|]; [|discriminate]. injection H as H. by exists job.
Qed.

Lemma sample_valid now : validateDefinition sample_definition now = Ok (sample_definition, mkCron tt tt).
Proof.
  unfold validateDefinition. destruct sample_job as (job & Hjob & Hs).
  change (trim_space (d_job sample_definition)) with "cif_detail". rewrite Hjob.
  change ((trim_space (d_name sample_definition) =? "")%string || _) with false.
  change (d_policy sample_definition) with sample_policy. rewrite sample_policy_valid. cbn [res_bind].
  assert (wantPolicy job = PolicyLiveSnapshot) as -> by (unfold wantPolicy; by rewrite Hs, bool_decide_eq_true_2).
  reflexivity.
Qed.

Lemma sample_row : row_definition sample_schedule = sample_definition.
Proof.
  unfold row_definition, sample_schedule, columns_of, sample_definition, sample_policy.
  cbn [sch_definition sch_name c_job_key c_cron c_timezone c_policy_kind c_policy_version c_policy_json c_policy_checksum
       d_name d_job d_cron d_timezone d_policy pol_kind pol_version pol_payload pol_checksum].
  rewrite checksum32_sha256. reflexivity.
Qed.
Lemma sample_row_valid now : validateDefinition (row_definition sample_schedule) now = Ok (sample_definition, mkCron tt tt).
Proof. rewrite sample_row. apply sample_valid. Qed.

(** Its unresolved occurrence with one attempt, whose run is [r]. *)
Definition sample_occurrence : occurrence_row :=
  mkOccurrence 1 1 hour validated_cron live_coalesced unresolved 3 (columns_of sample_definition) 1 None None None None.
Definition sample_attempt : attempt_row := mkAttempt 1 1 1 1 "schedule:1" hour.
Definition sample_run (status : Status) (finished : option instant) : run_row :=
  mkRun 1 KindJob None None (Some "cif_detail") (mkParameters LiveSnapshotV1 1 "{}" "") TriggerScheduler (Some "schedule:1")
    (Some 1) hour status None None None None None None None no_progress no_error None None None None finished.
Definition sample_scheduler (r : run_row) : db :=
  mkDb {[ 1 ]} (Some (mkRuntimeSettings 2 4 3)) {[ "cif_detail" := mkSource true (Some 1) ]} {[ 1 := "active" ]}
    {[ 1 := r ]} 2 {[ 1 := sample_schedule ]} 2 {[ 1 := sample_occurrence ]} 2 {[ 1 := sample_attempt ]} 2 [].

Lemma sample_scheduler_ok status finished : sched_ok (sample_scheduler (sample_run status finished)).
Proof.
  split.
  - apply schema_b_sound. destruct status; vm_compute; reflexivity.
  - split; cbn.
    + intros i o [<- <-]%lookup_singleton_Some. cbn. lia.
    + intros i o j a [<- <-]%lookup_singleton_Some [<- <-]%lookup_singleton_Some _. cbn. lia.
    + intros i o k [<- <-]%lookup_singleton_Some Hk. cbn in Hk. exists 1, sample_attempt.
      split; [apply lookup_singleton_eq|]. cbn. lia.
  - unfold aligned. cbn [schedule_occurrences sample_scheduler schedules]. intros i o [<- <-]%lookup_singleton_Some _. exists sample_schedule. split; [apply lookup_singleton_eq|].
    apply currentFence_spec. split_and!; [reflexivity..|apply same_semantics_refl].
Qed.
