(* ===== verification/SchedulerProps.v ===== *)
(** * Theorems about the scheduler

    What holds along any sequence of transactions, what processing one due
    schedule does in each situation, and the revision fences of the
    operations users call.  The theorems hold for every cron library and
    every submission that meet their interfaces; the witnesses use the run
    repository and an hourly cron. *)

From S2P Require Import Prelude Calendar Json Hash Catalog Params Access AuditTrail Table Store Schema Runs ScheduleModel Scheduler SchedulerInv SchedulerRuns.

Open Scope Z_scope.

Section Props.
Context {cron : CronLibrary} {submission : RunSubmission}.

(** The transactions of the scheduler. *)
Inductive scheduler_tx : ∀ A, Tx db A → Prop :=
  | tx_create now input : scheduler_tx _ (create_tx now input)
  | tx_create_many now inputs : scheduler_tx _ (CreateMany now inputs)
  | tx_update now id input : scheduler_tx _ (update_tx now id input)
  | tx_enable now id revision actor requester : scheduler_tx _ (enable_tx now id revision actor requester)
  | tx_stop now id revision actor archive requester : scheduler_tx _ (stop_tx now id revision actor archive requester)
  | tx_bulk now ids action actor requester : scheduler_tx _ (BulkState now ids action actor requester)
  | tx_process now id : scheduler_tx _ (processTransaction now id).

(** One of them commits, or another component's transaction that keeps the
    schema and does not write the scheduler's tables. *)
Definition scheduler_step (d d' : db) : Prop :=
  (∃ A m a, scheduler_tx A m ∧ m d = Ok (a, d')) ∨ (schema d' ∧ same_schedules d d').

Lemma scheduler_step_good d d' : sched_ok d → scheduler_step d d' → sched_ok d' ∧ history d d'.
Proof.
  intros Hd [(A & m & a & Hm & H)|[Hs Hsame]]; [|by apply same_schedules_good].
  revert a d' H. change (good m d). destruct Hm;
    auto using create_good, CreateMany_good, update_good, enable_good, stop_good, bulk_good, process_good.
Qed.
Lemma scheduler_reachable d d' : sched_ok d → rtc scheduler_step d d' → sched_ok d' ∧ history d d'.
Proof.
  intros Hd. induction 1 as [d|d d1 d' H1 _ IH] in Hd |- *; [split; [done|reflexivity]|].
  destruct (scheduler_step_good _ _ Hd H1) as [Hd1 Hh1]. destruct (IH Hd1) as [? ?].
  split; [done|by transitivity d1].
Qed.

(** *** The latest attempt *)

Definition latest (d : db) (o : occurrence_row) (a : attempt_row) (r : run_row) : Prop :=
  schedule_attempts d !! att_id a = Some a ∧ att_occurrence a = occ_id o ∧ attempt_no a = attempt_count o ∧
  ingestion_runs d !! att_run a = Some r.

Lemma lockLatest_Ok d o a r : sched_ok d → schedule_occurrences d !! occ_id o = Some o → latest d o a r →
  lockLatestAttempt (occ_id o) d = Ok (Some a, d).
Proof.
  intros [Hs [_ Hcw _] _] Ho (Ha & Hocc & Hno & _). unfold lockLatestAttempt, tx_gets. f_equal. f_equal.
  assert (Huniq : ∀ i j b c, schedule_attempts d !! i = Some b → schedule_attempts d !! j = Some c →
    att_occurrence b = att_occurrence c → attempt_no b = attempt_no c → b = c).
  { intros i j b c Hb Hc He Hn. destruct (decide (i = j)) as [->|Hne]; [congruence|].
    pose proof (t_unique _ _ _ _ _ (attempts_ok d Hs) i j b c Hb Hc Hne) as Hcl. unfold attempt_clash in Hcl.
    rewrite He, Hn in Hcl. by rewrite bool_decide_eq_true_2 in Hcl. }
  destruct (select_first _ _ _) as [b|] eqn:E.
  - f_equal. pose proof (select_first_Some _ _ _ _ E) as [Hb [j Hj]]. apply Z.eqb_eq in Hb.
    eapply Huniq; [done..|congruence|]. unfold select_first in E.
    pose proof (Hcw _ _ _ _ Ho Hj Hb). destruct (decide (attempt_no b = attempt_no a)) as [|Hne]; [done|].
    exfalso. assert (Hl : later_attempt a b = true) by (apply Z.ltb_lt; lia).
    assert (Hin : ∀ c, c ∈ select (attempt_of (occ_id o)) (schedule_attempts d) →
      att_occurrence c = occ_id o ∧ ∃ k, schedule_attempts d !! k = Some c).
    { by intros c [Hc%Z.eqb_eq ?]%elem_of_select. }
    assert (Hstrict : strict later_attempt).
    { split; [intros x; apply Z.ltb_irrefl|]. intros x y z. unfold later_attempt. rewrite !Z.ltb_lt. lia. }
    assert (later_attempt a b = false) as Hl'; [|congruence].
    apply (first_by_least later_attempt (select (attempt_of (occ_id o)) (schedule_attempts d)) b Hstrict); [|done|].
    + intros x y [Hx [k Hk]]%Hin [Hy [k' Hk']]%Hin. unfold later_attempt. rewrite !Z.ltb_ge. intros.
      eapply Huniq; [done..|congruence|lia].
    + apply elem_of_select. split; [by apply Z.eqb_eq|eauto].
  - rewrite select_first_None in E. specialize (E _ _ Ha). unfold attempt_of in E. by rewrite Hocc, Z.eqb_refl in E.
Qed.

(** *** A due schedule with its occurrence *)

Record ready (now : instant) (d : db) (id : Z) (s : schedule_row) (definition : Definition_)
    (parsed : cronDefinition) (job : JobDefinition) (o : occurrence_row) : Prop := {
  rd_row : schedules d !! id = Some s;
  rd_due : due now s = Some (scheduled_for o);
  rd_valid : validateDefinition (row_definition s) now = Ok (definition, parsed);
  rd_job : Find theCatalog (c_job_key (sch_definition s)) = Some job;
  rd_cursor : IsOccurrence parsed (scheduled_for o) = true;
  rd_occurrence : schedule_occurrences d !! occ_id o = Some o;
  rd_schedule : occ_schedule o = id;
  rd_unresolved : occ_status o = unresolved;
  rd_match : semanticMatches (occ_definition o) definition = true;
  rd_source : occ_identity_source o = validated_cron;
  rd_mode : occ_resolution_mode o = occurrence_mode job;
  rd_users : user_ok d (created_by s) && user_ok d (updated_by s) && user_ok d (closed_by o) = true }.

Lemma due_Some now s cursor : due now s = Some cursor ↔
  next_run_at s = Some cursor ∧ sch_enabled s = true ∧ archived_at s = None ∧ cursor <= now ∧
  (∀ t, scheduler_not_before s = Some t → t <= now).
Proof.
  unfold due. destruct (next_run_at s) as [t|]; [|naive_solver].
  destruct (sch_enabled s), (archived_at s); cbn; try naive_solver.
  destruct (Z.ltb_spec now t); [split; [done|]; naive_solver lia|]. cbn.
  destruct (scheduler_not_before s) as [u|]; [|naive_solver].
  destruct (Z.ltb_spec now u); split; try done.
  - intros (_ & _ & _ & _ & H'). specialize (H' u eq_refl). lia.
  - intros [= ->]. split_and!; try done. by intros ? [= ->].
  - by intros ([= ->] & _).
Qed.

Lemma ready_fence now d id s definition parsed job o : sched_ok d → ready now d id s definition parsed job o →
  currentFence s o = true ∧ sch_id s = id ∧ fenced o s = true.
Proof.
  intros Hd H. destruct (t_ids _ _ _ _ _ (schedules_ok d (ok_schema d Hd)) _ _ (rd_row _ _ _ _ _ _ _ _ H)) as [Hid _].
  destruct (ok_aligned d Hd _ _ (rd_occurrence _ _ _ _ _ _ _ _ H) (rd_unresolved _ _ _ _ _ _ _ _ H)) as (s' & Hs & Hf).
  rewrite (rd_schedule _ _ _ _ _ _ _ _ H), (rd_row _ _ _ _ _ _ _ _ H) in Hs. injection Hs as <-.
  split; [done|]. split; [done|]. apply currentFence_spec in Hf as (He & _ & Hn & _).
  unfold fenced. by rewrite He, Hn, bool_decide_eq_true_2.
Qed.

(** The lock finds the unresolved occurrence. *)
Lemma lockActive_found d o : schema d → schedule_occurrences d !! occ_id o = Some o → occ_status o = unresolved →
  lockActiveOccurrence (occ_schedule o) d = Ok (Some o, d).
Proof.
  intros Hd Ho Hun. destruct (lockActive_cases (occ_schedule o) d Hd) as ([o'|] & E & Hc).
  - rewrite E. destruct Hc as (Ho' & Hun' & Hs'). f_equal. f_equal. f_equal.
    destruct (decide (occ_id o' = occ_id o)) as [Heq|Hne]; [congruence|].
    pose proof (t_unique _ _ _ _ _ (occurrences_ok d Hd) _ _ _ _ Ho' Ho Hne) as Hcl.
    apply orb_false_iff in Hcl as [_ Hcl]. exfalso. unfold same in Hcl.
    rewrite (proj2 (active_schedule_id_Some o' (occ_schedule o))), (proj2 (active_schedule_id_Some o (occ_schedule o))) in Hcl by done.
    by rewrite bool_decide_eq_true_2 in Hcl.
  - exfalso. by apply (Hc _ _ Ho Hun).
Qed.

(** Processing such a schedule comes down to its latest attempt. *)
Lemma process_ready now d id s definition parsed job o : sched_ok d → ready now d id s definition parsed job o →
  processTransaction now id d = process_attempt now s o job parsed d.
Proof.
  intros Hd H. pose proof (ready_fence _ _ _ _ _ _ _ _ Hd H) as (_ & Hid & _).
  pose proof (lockActive_found d o (ok_schema d Hd) (rd_occurrence _ _ _ _ _ _ _ _ H) (rd_unresolved _ _ _ _ _ _ _ _ H)) as Hlock.
  rewrite (rd_schedule _ _ _ _ _ _ _ _ H), <- Hid in Hlock.
  unfold processTransaction, process_occurrence, current_occurrence.
  rewrite (tx_bind_eq _ _ d (Some s) d) by (unfold tx_gets; by rewrite (rd_row _ _ _ _ _ _ _ _ H)).
  rewrite (rd_due _ _ _ _ _ _ _ _ H), (rd_valid _ _ _ _ _ _ _ _ H), (rd_job _ _ _ _ _ _ _ _ H), (rd_cursor _ _ _ _ _ _ _ _ H).
  rewrite (tx_bind_eq _ _ d (Some o) d).
  - rewrite (rd_match _ _ _ _ _ _ _ _ H), (rd_source _ _ _ _ _ _ _ _ H), (rd_mode _ _ _ _ _ _ _ _ H).
    rewrite !bool_decide_eq_true_2 by reflexivity. reflexivity.
  - rewrite (tx_bind_eq _ _ _ _ _ Hlock), Z.eqb_refl. reflexivity.
Qed.

(** *** Statements that apply *)

Lemma update_schedule_applies d id cond set r : schedules d !! id = Some r → cond r = true → set r ≠ r →
  schedule_check (set r) = true → user_ok d (created_by (set r)) = true → user_ok d (updated_by (set r)) = true →
  update_schedule id cond set d = Ok (1, set_schedules (<[id := set r]> (schedules d)) d).
Proof.
  intros. apply update_one_Ok. left. split; [done|]. exists r. split_and!; try done. by apply schedule_verdict_None.
Qed.

Lemma occurrence_applies d id cond set o : schema d → schedule_occurrences d !! id = Some o → cond o = true →
  set o ≠ o → occurrence_identity (set o) = occurrence_identity o → occ_status o = unresolved →
  user_ok d (closed_by (set o)) = true →
  update_occurrence id cond set d = Ok (1, set_schedule_occurrences (<[id := set o]> (schedule_occurrences d)) d).
Proof.
  intros Hs Ho Hc Hne Hid Hun Hu. apply occurrence_identity_eq in Hid as (_ & Hsch & Hfor & _).
  apply update_one_Ok. left. split; [done|]. exists o. split_and!; try done. apply occurrence_verdict_None. split_and!; [| |done].
  - apply conflicts_false. intros j u Hj Hjne.
    pose proof (t_unique _ _ _ _ _ (occurrences_ok d Hs) id j o u Ho Hj (not_eq_sym Hjne)) as Hcl.
    unfold occurrence_clash in *. rewrite Hsch, Hfor. apply orb_false_iff in Hcl as [-> Hcl]. cbn [orb].
    unfold active_schedule_id in *. rewrite Hun, Hsch in *. rewrite (bool_decide_eq_true_2 (unresolved = unresolved)) in Hcl by done.
    by destruct (bool_decide (occ_status (set o) = unresolved)).
  - rewrite Hsch. by apply (t_checks _ _ _ _ _ (occurrences_ok d Hs) id o).
Qed.
Lemma update_occurrence_applies d id cond set o : schema d → schedule_occurrences d !! id = Some o → cond o = true →
  set o ≠ o → occurrence_update cond set → user_ok d (closed_by (set o)) = true →
  update_occurrence id cond set d = Ok (1, set_schedule_occurrences (<[id := set o]> (schedule_occurrences d)) d).
Proof. intros Hs Ho Hc Hne Hup Hu. destruct (Hup o Hc) as (Hid & _ & Hun). by apply occurrence_applies. Qed.

Lemma ready_check now d id s definition parsed job o : sched_ok d → ready now d id s definition parsed job o →
  schedule_check s = true ∧ user_ok d (created_by s) = true ∧ user_ok d (updated_by s) = true ∧ user_ok d (closed_by o) = true.
Proof.
  intros Hd H. split; [by apply (t_checks _ _ _ _ _ (schedules_ok d (ok_schema d Hd)) id s), H|].
  pose proof (rd_users _ _ _ _ _ _ _ _ H) as Hu. by apply andb_true_iff in Hu as [[? ?]%andb_true_iff ?].
Qed.

Lemma checked_cursor s t : schedule_check s = true → sch_enabled s = true → ∀ s', sch_enabled s' = true →
  archived_at s' = archived_at s → sch_revision s' = sch_revision s → next_run_at s' = Some t → schedule_check s' = true.
Proof.
  unfold schedule_check. intros H He s' -> -> -> ->. rewrite He in H. cbn. rewrite !andb_true_iff in *. tauto.
Qed.

(** ** Properties *)

(** What a resolved occurrence and its schedule become. *)
Definition resolved_occurrence (now : instant) (o : occurrence_row) : occurrence_row :=
  set_occ_status resolved (set_retry_not_before None (set_closed_at (Some now) o)).
Definition advanced (next : instant) (s : schedule_row) : schedule_row :=
  set_next_run_at (Some next) (set_scheduler_not_before None (set_delivery_block None s)).
(** Where the next occurrence is looked for. *)
Definition next_from (o : occurrence_row) (finished : instant) : instant :=
  if bool_decide (occ_resolution_mode o = live_coalesced) then finished else scheduled_for o.

(** C7: the history of the scheduler: along any sequence of its transactions,
    interleaved with transactions of other components, schedules, occurrences
    and attempts are never lost, a revision number names one definition and
    state, a closed occurrence is never written again, a schedule has at most
    one unresolved occurrence and never two at the same time, an unresolved
    occurrence stands at the cursor of its enabled schedule, and the attempts
    of an occurrence are numbered 1 to its attempt count without gaps. *)
Theorem scheduler_invariants : ∀ d d', sched_ok d → rtc scheduler_step d d' →
  schema d' ∧ history d d' ∧
  (∀ i j o o', schedule_occurrences d' !! i = Some o → schedule_occurrences d' !! j = Some o' →
     occ_schedule o = occ_schedule o' →
     (occ_status o = unresolved ∧ occ_status o' = unresolved) ∨ scheduled_for o = scheduled_for o' → i = j) ∧
  (∀ i o, schedule_occurrences d' !! i = Some o → occ_status o = unresolved →
     ∃ s, schedules d' !! occ_schedule o = Some s ∧ sch_enabled s = true ∧ next_run_at s = Some (scheduled_for o) ∧
          same_semantics (sch_definition s) (occ_definition o) = true) ∧
  (∀ i o k, schedule_occurrences d' !! i = Some o →
     (1 <= k <= attempt_count o ↔ ∃ j a, schedule_attempts d' !! j = Some a ∧ att_occurrence a = i ∧ attempt_no a = k)).
Proof.
  intros d d' Hd Hr. destruct (scheduler_reachable _ _ Hd Hr) as [[Hs [_ Hw Hdense] Hal] Hh].
  split; [done|]. split; [done|]. split; [|split].
  - intros i j o o' Ho Ho' Hsch Hcase. destruct (decide (i = j)) as [|Hne]; [done|].
    pose proof (t_unique _ _ _ _ _ (occurrences_ok d' Hs) i j o o' Ho Ho' Hne) as Hcl.
    apply orb_false_iff in Hcl as [Hk Hcl]. exfalso. destruct Hcase as [[Hu Hu']|Hf].
    + unfold same in Hcl. rewrite (proj2 (active_schedule_id_Some o (occ_schedule o))) in Hcl by done.
      rewrite (proj2 (active_schedule_id_Some o' (occ_schedule o))) in Hcl by done. by rewrite bool_decide_eq_true_2 in Hcl.
    + by rewrite Hsch, Hf, bool_decide_eq_true_2 in Hk.
  - intros i o Ho Hun. destruct (Hal i o Ho Hun) as (s & Hs' & Hf). apply currentFence_spec in Hf as (? & _ & ? & ?). eauto.
  - intros i o k Ho. split; [by apply Hdense|]. intros (j & a & Ha & Hocc & <-). by eapply Hw.
Qed.

(** Success moves the cursor: when the latest attempt of a due schedule's
    occurrence has succeeded, processing resolves the occurrence and moves
    the cursor to the next time of the cron after the occurrence (after the
    end of the run for a live snapshot), which is later, writing these two
    rows only; it fails only if the cron has no next time. *)
Theorem process_resolves : ∀ now d id s definition parsed job o a r finished,
  sched_ok d → ready now d id s definition parsed job o → latest d o a r →
  run_status r = StatusSucceeded → finished_at r = Some finished → scheduled_for o <= finished →
  match Next parsed (next_from o finished) with
  | None => processTransaction now id d = Err (ErrInvalidDefinition "cron has no next occurrence")
  | Some next => scheduled_for o < next ∧
      processTransaction now id d = Ok ((true, None),
        set_schedules (<[id := advanced next s]> (schedules d))
          (set_schedule_occurrences (<[occ_id o := resolved_occurrence now o]> (schedule_occurrences d)) d))
  end.
Proof.
  intros now d id s definition parsed job o a r finished Hd H Hlat Hst Hfin Hle.
  rewrite (process_ready _ _ _ _ _ _ _ _ Hd H).
  destruct (ready_fence _ _ _ _ _ _ _ _ Hd H) as (Hfence & Hid & Hfe).
  destruct (ready_check _ _ _ _ _ _ _ _ Hd H) as (Hck & Hcb & Hub & Hclb).
  destruct H as [Hrow Hdue _ _ _ Hocc Hsch Hun _ _ _ _]. pose proof Hlat as (_ & Hao & Hno & Hrun).
  unfold process_attempt. rewrite (tx_bind_eq _ _ _ _ _ (lockLatest_Ok d o a r Hd Hocc Hlat)).
  rewrite Hno, Z.eqb_refl. cbn [negb].
  rewrite (tx_bind_eq _ _ d r d) by (unfold lockAttemptRun, tx_bind, tx_gets; by rewrite Hrun). rewrite Hst.
  destruct (t_ids _ _ _ _ _ (runs_ok d (ok_schema d Hd)) _ _ Hrun) as [Hrid _].
  unfold resolveSuccess. rewrite Hfin, Hfence, Hrid, Hno, !Z.eqb_refl. cbn [negb orb].
  fold (next_from o finished). destruct (Next parsed (next_from o finished)) as [next|] eqn:En; [|done].
  assert (Hlt : scheduled_for o < next).
  { apply cron_next_later in En. unfold next_from in En. case_bool_decide; lia. }
  split; [done|]. fold (resolved_occurrence now).
  rewrite (tx_bind_eq _ _ d tt (set_schedules (<[id := advanced next s]> (schedules d))
    (set_schedule_occurrences (<[occ_id o := resolved_occurrence now o]> (schedule_occurrences d)) d))); [done|].
  rewrite (tx_bind_eq _ _ _ _ _ (update_occurrence_applies d (occ_id o) (attempted (attempt_count o)) (resolved_occurrence now) o
    (ok_schema d Hd) Hocc ltac:(unfold attempted, is_unresolved; by rewrite Hun, Z.eqb_refl)
    ltac:(intros E; apply (f_equal occ_status) in E; by rewrite Hun in E)
    ltac:(intros x [Hx _]%andb_true_iff; split_and!; [done|done|]; by apply bool_decide_eq_true in Hx) Hclb)).
  cbn [requireOne requireCount]. unfold requireOne, requireCount.
  rewrite (tx_bind_eq _ _ _ tt (set_schedule_occurrences (<[occ_id o := resolved_occurrence now o]> (schedule_occurrences d)) d)) by done.
  apply due_Some in Hdue as (Hn & He & Har & _).
  pose proof (update_schedule_applies (set_schedule_occurrences (<[occ_id o := resolved_occurrence now o]> (schedule_occurrences d)) d) id
    (λ r, fenced o r && same_semantics (sch_definition r) (occ_definition o)) (advanced next) s Hrow) as Hup.
  rewrite Hid. rewrite (tx_bind_eq _ _ _ _ _ (Hup
    ltac:(cbv beta; rewrite Hfe; by apply currentFence_spec in Hfence as (_ & _ & _ & ->))
    ltac:(intros E; apply (f_equal next_run_at) in E; rewrite Hn in E; injection E; lia)
    ltac:(by apply (checked_cursor s next)) Hcb Hub)). done.
Qed.

Lemma retryDelay_bounds n : 1 <= n → minute <= retryDelay n <= 30 * minute.
Proof.
  intros Hn. unfold retryDelay. rewrite (proj2 (Z.eqb_neq _ _)) by lia. destruct (Z.leb_spec 6 n); [unfold minute, second; lia|].
  assert (n = 1 ∨ n = 2 ∨ n = 3 ∨ n = 4 ∨ n = 5) as [->|[->|[->|[->| ->]]]] by lia; vm_compute; split; intros [=].
Qed.

Lemma retryDelay_mono n m : 1 <= n <= m → retryDelay n <= retryDelay m.
Proof.
  intros Hn. destruct (Z.leb_spec 6 m) as [H6|H6].
  - assert (retryDelay m = 30 * minute) as ->; [|apply retryDelay_bounds; lia].
    unfold retryDelay. rewrite (proj2 (Z.eqb_neq _ _)) by lia. by rewrite (proj2 (Z.leb_le _ _)).
  - assert (n = 1 ∨ n = 2 ∨ n = 3 ∨ n = 4 ∨ n = 5) as Hn' by lia.
    assert (m = 1 ∨ m = 2 ∨ m = 3 ∨ m = 4 ∨ m = 5) as Hm' by lia.
    destruct Hn' as [->|[->|[->|[->| ->]]]], Hm' as [->|[->|[->|[->| ->]]]]; try lia; vm_compute; intros [=].
Qed.

(** The two rows a failed attempt writes. *)
Definition backed_off (d : db) (id : Z) (s : schedule_row) (o : occurrence_row) (deadline : instant) : db :=
  set_schedules (<[id := set_scheduler_not_before (Some deadline) s]> (schedules d))
    (set_schedule_occurrences (<[occ_id o := set_retry_not_before (Some deadline) o]> (schedule_occurrences d)) d).

(** Failure puts the next attempt off: when the latest attempt has failed,
    was cancelled or abandoned, processing records a deadline between one
    and thirty minutes after its end, growing with the number of attempts,
    on the occurrence and the schedule, and writes nothing else; until the
    deadline processing the schedule does nothing. *)
Theorem process_backs_off : ∀ now d id s definition parsed job o a r finished,
  sched_ok d → ready now d id s definition parsed job o → latest d o a r →
  (run_status r = StatusFailed ∨ run_status r = StatusCancelled ∨ run_status r = StatusAbandoned) →
  finished_at r = Some finished → retry_not_before o = None →
  scheduler_not_before s ≠ Some (finished + retryDelay (attempt_no a)) →
  processTransaction now id d = Ok ((true, None), backed_off d id s o (finished + retryDelay (attempt_no a))) ∧
  minute <= retryDelay (attempt_no a) <= 30 * minute ∧
  (∀ later, attempt_no a <= later → retryDelay (attempt_no a) <= retryDelay later) ∧
  (∀ now', now' < finished + retryDelay (attempt_no a) →
     processTransaction now' id (backed_off d id s o (finished + retryDelay (attempt_no a))) =
     Ok ((false, None), backed_off d id s o (finished + retryDelay (attempt_no a)))).
Proof.
  intros now d id s definition parsed job o a r finished Hd H Hlat Hst Hfin Hretry Hnew.
  set (deadline := finished + retryDelay (attempt_no a)) in *.
  assert (Hpos : 1 <= attempt_no a).
  { destruct Hlat as (Ha & _). destruct (t_checks _ _ _ _ _ (attempts_ok d (ok_schema d Hd)) _ _ Ha) as [? _]. lia. }
  split; [|split; [by apply retryDelay_bounds|split; [intros later Hl; by apply retryDelay_mono|]]].
  2:{ intros now' Hnow. unfold processTransaction, backed_off.
    rewrite (tx_bind_eq _ _ _ (Some (set_scheduler_not_before (Some deadline) s)) (backed_off d id s o deadline))
      by (unfold tx_gets; cbn; by rewrite lookup_insert_eq).
    assert (due now' (set_scheduler_not_before (Some deadline) s) = None) as ->; [|done].
    destruct (due now' _) as [c|] eqn:E; [|done]. apply due_Some in E as (_ & _ & _ & _ & Hb).
    specialize (Hb deadline eq_refl). lia. }
  rewrite (process_ready _ _ _ _ _ _ _ _ Hd H).
  destruct (ready_fence _ _ _ _ _ _ _ _ Hd H) as (Hfence & Hid & Hfe).
  destruct (ready_check _ _ _ _ _ _ _ _ Hd H) as (Hck & Hcb & Hub & Hclb).
  destruct H as [Hrow Hdue _ _ _ Hocc Hsch Hun _ _ _ _]. pose proof Hlat as (_ & Hao & Hno & Hrun).
  destruct (t_ids _ _ _ _ _ (runs_ok d (ok_schema d Hd)) _ _ Hrun) as [Hrid _].
  unfold process_attempt. rewrite (tx_bind_eq _ _ _ _ _ (lockLatest_Ok d o a r Hd Hocc Hlat)).
  rewrite Hno, Z.eqb_refl. cbn [negb].
  rewrite (tx_bind_eq _ _ d r d) by (unfold lockAttemptRun, tx_bind, tx_gets; by rewrite Hrun).
  assert (Hback : recordBackoff s o a r finished d = Ok (tt, backed_off d id s o deadline)).
  2:{ rewrite Hfin, Hretry. destruct Hst as [->|[->| ->]]; by rewrite (tx_bind_eq _ _ _ _ _ Hback). }
  unfold recordBackoff. rewrite Hfence, Hrid, Hno, !Z.eqb_refl. cbn [negb orb]. rewrite <- Hno. fold deadline.
  rewrite (tx_bind_eq _ _ _ _ _ (update_occurrence_applies d (occ_id o)
    (λ x, attempted (attempt_no a) x && negb (isSome (retry_not_before x))) (set_retry_not_before (Some deadline)) o
    (ok_schema d Hd) Hocc ltac:(unfold attempted, is_unresolved; cbv beta; by rewrite Hun, Hno, Z.eqb_refl, Hretry)
    ltac:(intros E; apply (f_equal retry_not_before) in E; by rewrite Hretry in E)
    ltac:(intros x [[Hx _]%andb_true_iff _]%andb_true_iff; split_and!; [done|done|]; by apply bool_decide_eq_true in Hx) Hclb)).
  set (d1 := set_schedule_occurrences _ d). unfold requireOne, requireCount. rewrite (tx_bind_eq _ _ _ tt d1) by done.
  rewrite Hid. rewrite (tx_bind_eq _ _ _ _ _ (update_schedule_applies d1 id
    (λ x, fenced o x && same_semantics (sch_definition x) (occ_definition o)) (set_scheduler_not_before (Some deadline)) s Hrow
    ltac:(cbv beta; rewrite Hfe; by apply currentFence_spec in Hfence as (_ & _ & _ & ->))
    ltac:(intros E; apply (f_equal scheduler_not_before) in E; by apply Hnew) Hck Hcb Hub)). done.
Qed.

(** The latest attempt recorded before a delivery, and that its run is over
    without success and the retry deadline has passed. *)
Definition retry_of (now : instant) (d : db) (o : occurrence_row) : Prop :=
  attempt_count o = 0 ∨
  ∃ a r finished retry, latest d o a r ∧
    (run_status r = StatusFailed ∨ run_status r = StatusCancelled ∨ run_status r = StatusAbandoned) ∧
    finished_at r = Some finished ∧ retry_not_before o = Some retry ∧ retry <= now.

Lemma deliver_Ok now s o job d b dl d' : sched_ok d → deliver now s o job d = Ok ((b, Some dl), d') →
  dl = mkDelivery (sch_id s) (occ_id o) (dl_run dl) (c_job_key (sch_definition s)) (next_attempt (attempt_count o))
         (scheduled_for o) now ∧
  ingestion_runs d !! dl_run dl = None ∧
  (∃ run p, ingestion_runs d' !! dl_run dl = Some run ∧ run_status run = StatusQueued ∧
     run_job_key run = Some (c_job_key (sch_definition s)) ∧ run_parameters run = p ∧
     parametersForOccurrence job (scheduled_for o) = Ok p) ∧
  (∃ a, schedule_attempts d' !! att_id a = Some a ∧ att_occurrence a = occ_id o ∧ att_run a = dl_run dl ∧
     attempt_no a = next_attempt (attempt_count o)).
Proof.
  intros Hd (p & ? & (? & Hp & [= <- ->])%tx_lift_Ok & H)%tx_bind_Ok.
  apply tx_bind_Ok in H as (submitted & d1 & Hsub & H). unfold tx_try in Hsub.
  destruct (submit_run _ _ _ _ _ _ d) as [[runID d1']|e] eqn:Es; injection Hsub as <- <-.
  2:{ destruct (block_reason e); [|done]. apply tx_bind_Ok in H as (? & ? & _ & H).
      by apply tx_bind_Ok in H as (? & ? & _ & [=]). }
  destruct (submit_run_frame _ _ _ _ _ _ _ _ _ (ok_schema d Hd) Es) as (_ & Hnew & _ & run & Hrun & Hq & Hk & Hpar & _).
  apply tx_bind_Ok in H as (k & d2 & Hi & H). apply tx_bind_Ok in H as (n & d3 & Hu & H).
  apply tx_bind_Ok in H as (u & ? & [_ ->]%requireOne_Ok & H).
  apply tx_bind_Ok in H as (n' & d4 & Hu' & H). apply tx_bind_Ok in H as (? & ? & [_ ->]%requireOne_Ok & [= _ <- <-]).
  cbn [dl_run].
  apply insert_one_Ok in Hi as (-> & _ & ->).
  assert (Hruns : ∀ id c f x m y, update_occurrence id c f x = Ok (m, y) → ingestion_runs y = ingestion_runs x ∧ schedule_attempts y = schedule_attempts x)
    by (by intros ?????? [(_ & ? & _ & _ & _ & _ & ->)|(_ & -> & _)]%update_one_Ok).
  assert (Hruns' : ∀ id c f x m y, update_schedule id c f x = Ok (m, y) → ingestion_runs y = ingestion_runs x ∧ schedule_attempts y = schedule_attempts x)
    by (by intros ?????? [(_ & ? & _ & _ & _ & _ & ->)|(_ & -> & _)]%update_one_Ok).
  destruct (Hruns _ _ _ _ _ _ Hu) as [E1 E2], (Hruns' _ _ _ _ _ _ Hu') as [E3 E4]. rewrite E3, E1, E4, E2. cbn.
  split; [done|]. split; [done|]. split; [by exists run, p|].
  eexists (mkAttempt (next_attempt_id d1') _ _ _ _ _). split; [apply lookup_insert_eq|]. done.
Qed.

(** A delivery comes out of [deliver], with the history [retry_of]. *)
Lemma process_attempt_delivers now s o job parsed d b dl d' : schema d →
  process_attempt now s o job parsed d = Ok ((b, Some dl), d') →
  deliver now s o job d = Ok ((b, Some dl), d') ∧ retry_of now d o.
Proof.
  intros Hs (found & d1 & [= Hf <-] & H)%tx_bind_Ok.
  assert (Hthen : ∀ (m : Tx db unit), (m ;;; tx_ret (true, None)) d = Ok ((b, Some dl), d') → False)
    by (by intros m (? & ? & _ & [=])%tx_bind_Ok).
  destruct found as [a|].
  - apply select_first_Some in Hf as [Hocc [i Hi]]. apply Z.eqb_eq in Hocc.
    destruct (t_ids _ _ _ _ _ (attempts_ok d Hs) _ _ Hi) as [<- _].
    destruct (attempt_no a =? attempt_count o) eqn:Eno; [|by apply Hthen in H]. apply Z.eqb_eq in Eno. cbn [negb] in H.
    apply tx_bind_Ok in H as (r & d2 & Hrun & H). unfold lockAttemptRun, tx_bind, tx_gets, tx_ret, tx_fail in Hrun.
    destruct (ingestion_runs d !! att_run a) as [r'|] eqn:Er; [|done]. injection Hrun as -> <-.
    assert (Hgo : (run_status r = StatusFailed ∨ run_status r = StatusCancelled ∨ run_status r = StatusAbandoned) →
      match finished_at r with
      | None => tx_fail (Errorf "terminal scheduled run has no finished_at")
      | Some finished =>
          match retry_not_before o with
          | None => recordBackoff s o a r finished ;;; tx_ret (true, None)
          | Some retry => if now <? retry then tx_ret (false, None) else deliver now s o job
          end
      end d = Ok ((b, Some dl), d') → deliver now s o job d = Ok ((b, Some dl), d') ∧ retry_of now d o).
    { intros Hst H'. destruct (finished_at r) as [finished|] eqn:Ef; [|done].
      destruct (retry_not_before o) as [retry|] eqn:Ert; [|by apply Hthen in H'].
      destruct (Z.ltb_spec now retry); [done|]. split; [done|]. right. exists a, r, finished, retry. by split_and!. }
    destruct (run_status r) eqn:Est; try done; try (apply Hgo; [|exact H]; tauto). by apply Hthen in H.
  - destruct (attempt_count o =? 0) eqn:E0; [|by apply Hthen in H]. split; [done|]. left. by apply Z.eqb_eq in E0.
Qed.

(** The occurrence at the cursor of a due schedule: the unresolved one of the
    database, or a new one without attempts. *)
Definition standing (id : Z) (d : db) (o : occurrence_row) : Prop :=
  schedule_occurrences d !! occ_id o = Some o ∨ (idle id d ∧ attempt_count o = 0).

Lemma current_occurrence_standing now s cursor job d o d1 : sched_ok d →
  current_occurrence now s cursor job d = Ok (Some o, d1) →
  standing (sch_id s) d o ∧ ingestion_runs d1 = ingestion_runs d ∧ schedule_attempts d1 = schedule_attempts d.
Proof.
  intros Hd (active & d2 & Hact & H)%tx_bind_Ok.
  destruct (lockActive_cases (sch_id s) d (ok_schema d Hd)) as (? & E & Hcase). rewrite E in Hact. injection Hact as -> <-.
  destruct active as [o'|].
  - destruct (negb _); [by apply tx_bind_Ok in H as (? & ? & _ & [=])|]. injection H as -> <-. split; [by left; apply Hcase|done].
  - apply tx_bind_Ok in H as (o1 & d3 & (id & d4 & (-> & _ & ->)%insert_one_Ok & Hr)%tx_bind_Ok & [= -> <-]).
    unfold tx_bind, tx_gets, tx_ret in Hr. cbn in Hr. rewrite lookup_insert_eq in Hr. injection Hr as <- <-. split; [by right|done].
Qed.


(** *** Rejection of invalid definitions *)

(** Why a due schedule cannot be processed, if so. *)
Definition invalid_cause (now : instant) (s : schedule_row) (cursor : instant) : option error :=
  match validateDefinition (row_definition s) now with
  | Err e => Some e
  | Ok (_, parsed) =>
      if isSome (Find theCatalog (c_job_key (sch_definition s))) && IsOccurrence parsed cursor then None
      else Some (ErrInvalidDefinition "persisted cursor is not a cron occurrence")
  end.

Lemma process_invalid now d id s cursor e : schedules d !! id = Some s → due now s = Some cursor →
  invalid_cause now s cursor = Some e →
  processTransaction now id d = (rejectInvalid s cursor now e ;;; tx_ret (true, None)) d.
Proof.
  intros Hrow Hdue. unfold invalid_cause, processTransaction. generalize theCatalog. intros catalog.
  rewrite (tx_bind_eq _ _ d (Some s) d) by (unfold tx_gets; by rewrite Hrow). rewrite Hdue.
  destruct (validateDefinition _ _) as [[definition parsed]|e']; [|by intros [= ->]].
  destruct (Find catalog _) as [job|]; cbn [isSome andb]; [|by intros [= <-]].
  destruct (IsOccurrence _ _); [done|by intros [= <-]].
Qed.

Definition disabled_row (now : instant) (message : string) (r : schedule_row) : schedule_row :=
  bump_revision (set_sch_enabled false (set_next_run_at None (set_scheduler_not_before None
    (set_delivery_block None (set_validation_error (Some ("invalid_definition", message, now)) r))))).

Lemma disableInvalid_Ok d s now message : sched_ok d → schedules d !! sch_id s = Some s → sch_enabled s = true →
  sch_revision s + 1 < 2 ^ 64 → user_ok d (created_by s) = true → user_ok d (updated_by s) = true →
  disableInvalid s now message d =
  Ok (tt, set_schedules (<[sch_id s := disabled_row now message s]> (schedules d)) d).
Proof.
  intros Hd Hrow He Hrev Hcb Hub. unfold disableInvalid.
  rewrite (tx_bind_eq _ _ _ _ _ (update_schedule_applies d (sch_id s) (λ r, has_revision (sch_revision s) r && sch_enabled r)
    (disabled_row now message) s Hrow ltac:(cbv beta; unfold has_revision; by rewrite Z.eqb_refl, He)
    ltac:(intros E; apply (f_equal sch_enabled) in E; by rewrite He in E)
    ltac:(pose proof (t_checks _ _ _ _ _ (schedules_ok d (ok_schema d Hd)) _ _ Hrow) as Hc; unfold schedule_check in *; cbn;
          rewrite !andb_true_iff, !Z.ltb_lt in *; lia) Hcb Hub)). done.
Qed.

(** The row a rejection leaves at the cursor: the unresolved occurrence if
    there is one, a new row otherwise. *)
Definition rejected_at (d : db) (id cursor : Z) (o : occurrence_row) : Prop :=
  schedule_occurrences d !! occ_id o = Some o ∧ occ_schedule o = id ∧ scheduled_for o = cursor ∧
  occ_status o = rejected_invalid.

Lemma rejectInvalid_Ok d id s cursor now e : sched_ok d → schedules d !! id = Some s → due now s = Some cursor →
  sch_revision s + 1 < 2 ^ 64 → user_ok d (created_by s) = true → user_ok d (updated_by s) = true →
  (∀ i o, schedule_occurrences d !! i = Some o → occ_schedule o = id → scheduled_for o = cursor →
     occ_status o = unresolved ∧ user_ok d (closed_by o) = true) →
  ∃ o d1, rejectInvalid s cursor now e d =
      Ok (tt, set_schedules (<[id := disabled_row now (safeMessage e) s]> (schedules d)) d1) ∧
    schedules d1 = schedules d ∧ rejected_at d1 id cursor o ∧
    rejection o = Some ("invalid_definition", safeMessage e, sch_revision s) ∧
    (∀ i, i ≠ occ_id o → schedule_occurrences d1 !! i = schedule_occurrences d !! i) ∧
    schedule_attempts d1 = schedule_attempts d ∧ ingestion_runs d1 = ingestion_runs d.
Proof.
  intros Hd Hrow Hdue Hrev Hcb Hub Hfree. destruct (t_ids _ _ _ _ _ (schedules_ok d (ok_schema d Hd)) _ _ Hrow) as [Hid _].
  apply due_Some in Hdue as (Hn & He & _).
  destruct (lockActive_cases (sch_id s) d (ok_schema d Hd)) as (active & E & Hcase).
  unfold rejectInvalid. rewrite (tx_bind_eq _ _ _ _ _ E). destruct active as [o|].
  - destruct Hcase as (Ho & Hun & Hsch). rewrite Hid in Hsch.
    destruct (ok_aligned d Hd _ _ Ho Hun) as (s' & Hs' & Hf). rewrite Hsch, Hrow in Hs'. injection Hs' as <-.
    apply currentFence_spec in Hf as (_ & _ & Hnf & _). rewrite Hn in Hnf. injection Hnf as Hfor.
    set (reject := λ x, set_occ_status rejected_invalid (set_occ_resolution_mode invalid_resolution (set_retry_not_before None
       (set_rejection (Some ("invalid_definition", safeMessage e, sch_revision s)) (set_closed_at (Some now) x))))).
    assert (Hup : occurrence_update is_unresolved reject)
      by (intros x Hx; split_and!; [done|done|]; by apply bool_decide_eq_true in Hx).
    assert (Hu : update_occurrence (occ_id o) is_unresolved reject d =
      Ok (1, set_schedule_occurrences (<[occ_id o := reject o]> (schedule_occurrences d)) d)).
    { apply update_occurrence_applies; try done; [apply Hd|unfold is_unresolved; by rewrite Hun|
        intros Ex; apply (f_equal occ_status) in Ex; by rewrite Hun in Ex|]. by apply (Hfree (occ_id o) o). }
    destruct (update_occurrence_good _ _ _ d Hd Hup _ _ Hu) as [Hd1 _].
    exists (reject o), (set_schedule_occurrences (<[occ_id o := reject o]> (schedule_occurrences d)) d).
    unfold rejectLockedOccurrence. fold reject. rewrite (tx_bind_eq _ _ _ _ _ Hu). unfold requireOne, requireCount.
    rewrite (tx_bind_eq _ _ _ tt (set_schedule_occurrences (<[occ_id o := reject o]> (schedule_occurrences d)) d)) by done.
    rewrite disableInvalid_Ok; try done; [|cbn; by rewrite Hid]. rewrite Hid. split; [done|]. split; [done|].
    split; [split; [apply lookup_insert_eq|done]|]. split; [done|]. split; [|done].
    intros i Hi. cbn. by rewrite lookup_insert_ne.
  - rewrite Hid in Hcase. cbv zeta. set (row := λ id0, mkOccurrence id0 (sch_id s) cursor persisted_cursor_fallback invalid_resolution rejected_invalid
      (sch_revision s) (sch_definition s) 0 None (Some now) None (Some ("invalid_definition", safeMessage e, sch_revision s))).
    assert (Hi : insert_occurrence row d = Ok (next_occurrence_id d, set_next_occurrence_id (next_occurrence_id d + 1)
      (set_schedule_occurrences (<[next_occurrence_id d := row (next_occurrence_id d)]> (schedule_occurrences d)) d))).
    { apply insert_one_Ok. split; [done|]. split; [|done]. apply occurrence_verdict_None. split_and!; [|by rewrite <- Hid in Hrow|done].
      apply conflicts_false. intros j u Hj _. unfold occurrence_clash. apply orb_false_iff. split; [|done].
      apply bool_decide_eq_false. cbn. rewrite Hid. intros [= Hs Hf]. symmetry in Hs, Hf.
      destruct (Hfree _ _ Hj Hs Hf) as [Hun _]. by apply (Hcase _ _ Hj Hun). }
    destruct (insert_occurrence_good row d Hd (λ _, conj eq_refl eq_refl) ltac:(intros ? [=]) _ _ Hi) as [Hd1 _].
    eexists (row (next_occurrence_id d)), _. rewrite (tx_bind_eq _ _ _ _ _ Hi).
    rewrite disableInvalid_Ok; try done; [|cbn; by rewrite Hid]. rewrite Hid. split; [done|]. split; [done|].
    split; [split; [apply lookup_insert_eq|by rewrite <- Hid]|]. split; [done|]. split; [|done].
    intros i Hi'. cbn in *. by rewrite lookup_insert_ne.
Qed.

(** An invalid schedule is stopped, not retried for ever: when the
    definition of a due schedule does not validate or its cursor is not a
    time of the cron, processing disables it with its cursor cleared and the
    reason recorded, closes the occurrence at the cursor as rejected (or
    adds it closed), touches no other occurrence, attempt or run, and later
    processing finds nothing to do. *)
Theorem process_rejects : ∀ now d id s cursor e, sched_ok d → schedules d !! id = Some s → due now s = Some cursor →
  invalid_cause now s cursor = Some e →
  sch_revision s + 1 < 2 ^ 64 → user_ok d (created_by s) = true → user_ok d (updated_by s) = true →
  (∀ i o, schedule_occurrences d !! i = Some o → occ_schedule o = id → scheduled_for o = cursor →
     occ_status o = unresolved ∧ user_ok d (closed_by o) = true) →
  ∃ d' o, processTransaction now id d = Ok ((true, None), d') ∧
    schedules d' = <[id := disabled_row now (safeMessage e) s]> (schedules d) ∧
    rejected_at d' id cursor o ∧ rejection o = Some ("invalid_definition", safeMessage e, sch_revision s) ∧
    (∀ i, i ≠ occ_id o → schedule_occurrences d' !! i = schedule_occurrences d !! i) ∧
    schedule_attempts d' = schedule_attempts d ∧ ingestion_runs d' = ingestion_runs d ∧
    ∀ now', processTransaction now' id d' = Ok ((false, None), d').
Proof.
  intros now d id s cursor e Hd Hrow Hdue Hcause Hrev Hcb Hub Hfree.
  destruct (rejectInvalid_Ok d id s cursor now e Hd Hrow Hdue Hrev Hcb Hub Hfree) as (o & d1 & Hrej & Hsch & Hat & Hreason & Hrest & Hatt & Hruns).
  exists (set_schedules (<[id := disabled_row now (safeMessage e) s]> (schedules d)) d1), o.
  rewrite (process_invalid _ _ _ _ _ _ Hrow Hdue Hcause), (tx_bind_eq _ _ _ _ _ Hrej).
  split; [done|]. split; [done|]. split; [done|]. split; [done|]. split; [done|]. split; [done|]. split; [done|].
  intros now'. unfold processTransaction.
  rewrite (tx_bind_eq _ _ _ (Some (disabled_row now (safeMessage e) s))
    (set_schedules (<[id := disabled_row now (safeMessage e) s]> (schedules d)) d1)); [done|].
  unfold tx_gets. cbn. by rewrite lookup_insert_eq.
Qed.

(** *** Delivery *)

(** The rows a delivery writes after the submission that led to [d1]. *)
Definition delivered_db (now : instant) (s : schedule_row) (o : occurrence_row) (runID : Z) (d1 : db) : db :=
  let attemptNo := next_attempt (attempt_count o) in
  let attempt := mkAttempt (next_attempt_id d1) (occ_id o) attemptNo runID
    (attempt_reference (sch_id s) (scheduled_for o) attemptNo) now in
  set_schedules (<[sch_id s := set_delivery_block None (set_scheduler_not_before (Some (now + deliveryDelay)) s)]> (schedules d1))
    (set_schedule_occurrences (<[occ_id o := set_attempt_count attemptNo (set_retry_not_before None o)]> (schedule_occurrences d1))
      (set_next_attempt_id (next_attempt_id d1 + 1)
        (set_schedule_attempts (<[next_attempt_id d1 := attempt]> (schedule_attempts d1)) d1))).

Lemma user_ok_same d d' u : users d' = users d → user_ok d' u = user_ok d u.
Proof. unfold user_ok. by intros ->. Qed.

Lemma insert_attempt_applies d o runID reference now : sched_ok d → schedule_occurrences d !! occ_id o = Some o →
  attempt_count o + 1 < 2 ^ 32 → is_Some (ingestion_runs d !! runID) →
  (∀ j a, schedule_attempts d !! j = Some a → att_run a ≠ runID ∧ att_reference a ≠ reference) →
  insert_attempt (λ id, mkAttempt id (occ_id o) (next_attempt (attempt_count o)) runID reference now) d =
  Ok (next_attempt_id d, set_next_attempt_id (next_attempt_id d + 1) (set_schedule_attempts
    (<[next_attempt_id d := mkAttempt (next_attempt_id d) (occ_id o) (next_attempt (attempt_count o)) runID reference now]>
      (schedule_attempts d)) d)).
Proof.
  intros [Hs [Hcr Hcw Hcd] Hal] Ho Hlt Hrun Hfree. apply insert_one_Ok. split; [done|]. split; [|done].
  destruct (Hcr _ _ Ho) as [Hlo _].
  assert (Hno : next_attempt (attempt_count o) = attempt_count o + 1) by (unfold next_attempt; apply Z.mod_small; lia).
  apply attempt_verdict_None. cbn. split_and!; [lia| |by eexists|done].
  apply conflicts_false. intros j a Ha _. destruct (Hfree _ _ Ha) as [H1 H2]. unfold attempt_clash. cbn.
  rewrite !orb_false_iff, !bool_decide_eq_false. split_and!; [|congruence|congruence].
  intros [= Hocc Hn]. pose proof (Hcw _ _ _ _ Ho Ha (eq_sym Hocc)). lia.
Qed.

Lemma deliver_applies now d s o job p runID d1 : sched_ok d →
  schedules d !! sch_id s = Some s → fenced o s = true → schedule_check s = true →
  user_ok d (created_by s) = true → user_ok d (updated_by s) = true → user_ok d (closed_by o) = true →
  schedule_occurrences d !! occ_id o = Some o → occ_status o = unresolved → attempt_count o + 1 < 2 ^ 32 →
  scheduler_not_before s ≠ Some (now + deliveryDelay) →
  (∀ j a, schedule_attempts d !! j = Some a →
     att_reference a ≠ attempt_reference (sch_id s) (scheduled_for o) (next_attempt (attempt_count o))) →
  parametersForOccurrence job (scheduled_for o) = Ok p →
  submit_run now (c_job_key (sch_definition s)) p TriggerScheduler
    (attempt_reference (sch_id s) (scheduled_for o) (next_attempt (attempt_count o))) (created_by s) d = Ok (runID, d1) →
  deliver now s o job d = Ok ((true, Some (mkDelivery (sch_id s) (occ_id o) runID (c_job_key (sch_definition s))
    (next_attempt (attempt_count o)) (scheduled_for o) now)), delivered_db now s o runID d1).
Proof.
  intros Hd Hrow Hfe Hck Hcb Hub Hclb Ho Hun Hlt Hnew Hrefs Hp Hsub.
  destruct (submit_run_frame _ _ _ _ _ _ _ _ _ (ok_schema d Hd) Hsub) as (Hsame & Hfresh & _ & run & Hrun & _).
  destruct (same_schedules_good _ _ Hd (submit_run_schema _ _ _ _ _ _ _ _ _ (ok_schema d Hd) Hsub) Hsame) as [Hd1 _].
  destruct Hsame as (E1 & _ & E2 & _ & E3 & _ & E4).
  unfold deliver. rewrite (tx_bind_eq _ _ d p d) by (by rewrite Hp). cbv zeta.
  rewrite (tx_bind_eq _ _ d (Ok runID) d1) by (unfold tx_try; by rewrite Hsub).
  set (no := next_attempt (attempt_count o)) in *. set (reference := attempt_reference _ _ _) in *.
  rewrite (tx_bind_eq _ _ _ _ _ (insert_attempt_applies d1 o runID reference now Hd1 ltac:(by rewrite E2) Hlt
    ltac:(by rewrite Hrun) ltac:(intros j a Ha; rewrite E3 in Ha; split; [|by apply (Hrefs j)];
      intros Hr; destruct (t_checks _ _ _ _ _ (attempts_ok d (ok_schema d Hd)) _ _ Ha) as (_ & _ & [x Hx]); rewrite Hr in Hx; congruence))).
  fold no. set (d2 := set_next_attempt_id _ _).
  assert (Hs2 : schema d2).
  { refine (preserves_insert_attempt (λ id, mkAttempt id (occ_id o) no runID reference now) _ d1 _ d2 (ok_schema d1 Hd1) _); [done|].
    apply (insert_attempt_applies d1 o runID reference now Hd1 ltac:(by rewrite E2) Hlt ltac:(by rewrite Hrun)).
    intros j a Ha. rewrite E3 in Ha. split; [|by apply (Hrefs j)]. intros Hr.
    destruct (t_checks _ _ _ _ _ (attempts_ok d (ok_schema d Hd)) _ _ Ha) as (_ & _ & [x Hx]). rewrite Hr in Hx. congruence. }
  assert (Hno : no ≠ attempt_count o).
  { unfold no, next_attempt. destruct (c_range d (ok_counted d Hd) _ _ Ho). rewrite Z.mod_small by lia. lia. }
  rewrite (tx_bind_eq _ _ _ _ _ (occurrence_applies d2 (occ_id o) (attempted (attempt_count o))
    (λ x, set_attempt_count no (set_retry_not_before None x)) o Hs2 ltac:(cbn; by rewrite E2)
    ltac:(unfold attempted, is_unresolved; by rewrite Hun, Z.eqb_refl)
    ltac:(intros E; apply (f_equal attempt_count) in E; by apply Hno) eq_refl Hun
    ltac:(by rewrite (user_ok_same d)))).
  set (d3 := set_schedule_occurrences _ d2). unfold requireOne, requireCount. rewrite (tx_bind_eq _ _ _ tt d3) by done.
  rewrite (tx_bind_eq _ _ _ _ _ (update_schedule_applies d3 (sch_id s) (fenced o)
    (λ x, set_delivery_block None (set_scheduler_not_before (Some (now + deliveryDelay)) x)) s ltac:(cbn; by rewrite E1) Hfe
    ltac:(intros E; apply (f_equal scheduler_not_before) in E; by apply Hnew) Hck
    ltac:(by rewrite (user_ok_same d)) ltac:(by rewrite (user_ok_same d)))).
  done.
Qed.

Lemma process_delivery : ∀ now d id s definition parsed job o p runID d1,
  sched_ok d → ready now d id s definition parsed job o → retry_of now d o → attempt_count o + 1 < 2 ^ 32 →
  scheduler_not_before s ≠ Some (now + deliveryDelay) →
  (∀ j a, schedule_attempts d !! j = Some a →
     att_reference a ≠ attempt_reference (sch_id s) (scheduled_for o) (next_attempt (attempt_count o))) →
  parametersForOccurrence job (scheduled_for o) = Ok p →
  submit_run now (c_job_key (sch_definition s)) p TriggerScheduler
    (attempt_reference (sch_id s) (scheduled_for o) (next_attempt (attempt_count o))) (created_by s) d = Ok (runID, d1) →
  processTransaction now id d = Ok ((true, Some (mkDelivery id (occ_id o) runID (c_job_key (sch_definition s))
    (attempt_count o + 1) (scheduled_for o) now)), delivered_db now s o runID d1).
Proof.
  intros now d id s definition parsed job o p runID d1 Hd H Hretry Hlt Hnew Hrefs Hp Hsub.
  rewrite (process_ready _ _ _ _ _ _ _ _ Hd H).
  destruct (ready_fence _ _ _ _ _ _ _ _ Hd H) as (Hfence & Hid & Hfe).
  destruct (ready_check _ _ _ _ _ _ _ _ Hd H) as (Hck & Hcb & Hub & Hclb).
  destruct H as [Hrow _ _ _ _ Hocc _ Hun _ _ _ _]. destruct (c_range d (ok_counted d Hd) _ _ Hocc) as [Hlo _].
  assert (Hno : next_attempt (attempt_count o) = attempt_count o + 1) by (unfold next_attempt; apply Z.mod_small; lia).
  rewrite <- Hno, <- Hid. rewrite <- Hid in Hrow.
  rewrite <- (deliver_applies now d s o job p runID d1) by assumption. unfold process_attempt.
  destruct Hretry as [H0|(a & r & finished & retry & Hlat & Hst & Hfin & Hret & Hle)].
  - rewrite (tx_bind_eq _ _ d None d).
    + rewrite H0. done.
    + unfold lockLatestAttempt, tx_gets. f_equal. f_equal. apply select_first_None. intros j a Ha.
      destruct (attempt_of (occ_id o) a) eqn:E; [|done]. apply Z.eqb_eq in E.
      pose proof (c_within d (ok_counted d Hd) _ _ _ _ Hocc Ha E). lia.
  - rewrite (tx_bind_eq _ _ _ _ _ (lockLatest_Ok d o a r Hd Hocc Hlat)). destruct Hlat as (_ & _ & Hao & Hrun).
    rewrite Hao, Z.eqb_refl. cbn [negb].
    rewrite (tx_bind_eq _ _ d r d) by (unfold lockAttemptRun, tx_bind, tx_gets; by rewrite Hrun).
    rewrite Hfin, Hret, (proj2 (Z.ltb_ge _ _)) by done. by destruct Hst as [->|[->| ->]].
Qed.

(** C25: deliveries happen: when a due schedule's occurrence has no attempt
    yet, or its latest attempt is over without success and the retry
    deadline has passed, and the submission succeeds, processing commits: it
    records the next attempt with the submitted run on top of the
    submission's own writes, counts it on the occurrence, and puts further
    processing off by the delivery delay, during which it does nothing. *)
Theorem process_delivers : ∀ now d id s definition parsed job o p runID d1,
  sched_ok d → ready now d id s definition parsed job o → retry_of now d o → attempt_count o + 1 < 2 ^ 32 →
  scheduler_not_before s ≠ Some (now + deliveryDelay) →
  (∀ j a, schedule_attempts d !! j = Some a →
     att_reference a ≠ attempt_reference (sch_id s) (scheduled_for o) (next_attempt (attempt_count o))) →
  parametersForOccurrence job (scheduled_for o) = Ok p →
  submit_run now (c_job_key (sch_definition s)) p TriggerScheduler
    (attempt_reference (sch_id s) (scheduled_for o) (next_attempt (attempt_count o))) (created_by s) d = Ok (runID, d1) →
  processTransaction now id d = Ok ((true, Some (mkDelivery id (occ_id o) runID (c_job_key (sch_definition s))
    (attempt_count o + 1) (scheduled_for o) now)), delivered_db now s o runID d1) ∧
  ∀ now', now' < now + deliveryDelay →
    processTransaction now' id (delivered_db now s o runID d1) = Ok ((false, None), delivered_db now s o runID d1).
Proof.
  intros now d id s definition parsed job o p runID d1 Hd H Hretry Hlt Hnew Hrefs Hp Hsub.
  split; [by eapply process_delivery|]. intros now' Hnow.
  destruct (ready_fence _ _ _ _ _ _ _ _ Hd H) as (_ & Hid & _). rewrite <- Hid. unfold processTransaction.
  rewrite (tx_bind_eq _ _ _ (Some (set_delivery_block None (set_scheduler_not_before (Some (now + deliveryDelay)) s)))
    (delivered_db now s o runID d1)) by (unfold tx_gets; cbn; by rewrite lookup_insert_eq).
  destruct (due now' _) as [c|] eqn:E; [|done]. apply due_Some in E as (_ & _ & _ & _ & Hb).
  specialize (Hb _ eq_refl). lia.
Qed.

End Props.

(** ** Witnesses *)

Definition sample_now : instant := 2 * hour.

Lemma semanticMatches_columns definition : semanticMatches (columns_of definition) definition = true.
Proof. apply (same_semantics_refl (columns_of definition)). Qed.

Lemma sample_ready status finished : ∃ job,
  ready sample_now (sample_scheduler (sample_run status finished)) 1 sample_schedule sample_definition (mkCron tt tt)
    job sample_occurrence.
Proof.
  destruct sample_job as (job & Hjob & Hs). exists job.
  assert (Hmode : live_coalesced = occurrence_mode job) by (unfold occurrence_mode; by rewrite Hs).
  assert (Hmatch : semanticMatches (columns_of sample_definition) sample_definition = true) by apply semanticMatches_columns.
  split.
  - cbn [schedules sample_scheduler]. apply lookup_singleton_eq.
  - apply due_Some. split_and!; [reflexivity|reflexivity|reflexivity|vm_compute; discriminate|intros t [=]].
  - apply sample_row_valid.
  - exact Hjob.
  - vm_compute. reflexivity.
  - cbn [schedule_occurrences sample_scheduler]. apply lookup_singleton_eq.
  - reflexivity.
  - reflexivity.
  - exact Hmatch.
  - reflexivity.
  - exact Hmode.
  - reflexivity.
Qed.
Lemma sample_latest status finished :
  latest (sample_scheduler (sample_run status finished)) sample_occurrence sample_attempt (sample_run status finished).
Proof.
  unfold latest. cbn [schedule_attempts ingestion_runs sample_scheduler].
  split_and!; [apply lookup_singleton_eq|reflexivity|reflexivity|apply lookup_singleton_eq].
Qed.

Lemma scheduler_invariants_witness : ∃ d, rtc scheduler_step (sample_scheduler (sample_run StatusQueued None)) d ∧ schema d.
Proof.
  exists (sample_scheduler (sample_run StatusQueued None)).
  assert (H : rtc scheduler_step (sample_scheduler (sample_run StatusQueued None)) (sample_scheduler (sample_run StatusQueued None))).
  { apply rtc_once. left. exists _, (processTransaction 0 1), (false, None). split; [constructor|reflexivity]. }
  split; [exact H|]. apply (scheduler_invariants _ _ (sample_scheduler_ok StatusQueued None) H).
Defined.

Lemma process_resolves_witness : ∃ d',
  processTransaction sample_now 1 (sample_scheduler (sample_run StatusSucceeded (Some (hour + 5)))) = Ok ((true, None), d') ∧
  (λ s, next_run_at s) <$> schedules d' !! 1 = Some (Some (2 * hour)).
Proof.
  destruct (sample_ready StatusSucceeded (Some (hour + 5))) as [job Hready].
  pose proof (process_resolves _ _ _ _ _ _ _ _ _ _ (hour + 5) (sample_scheduler_ok _ _) Hready (sample_latest _ _)
    eq_refl eq_refl ltac:(vm_compute; discriminate)) as H.
  assert (E : Next (cron := hourly) (@mkCron hourly tt tt) (next_from sample_occurrence (hour + 5)) = Some (2 * hour)) by reflexivity.
  rewrite E in H. destruct H as [_ H]. eexists. split; [exact H|]. cbn [schedules set_schedules sample_scheduler set_schedule_occurrences backed_off]. rewrite lookup_insert_eq. reflexivity.
Defined.

Lemma process_backs_off_witness : ∃ d',
  processTransaction sample_now 1 (sample_scheduler (sample_run StatusFailed (Some (hour + 5)))) = Ok ((true, None), d') ∧
  (λ s, scheduler_not_before s) <$> schedules d' !! 1 = Some (Some (hour + 5 + minute)).
Proof.
  destruct (sample_ready StatusFailed (Some (hour + 5))) as [job Hready].
  pose proof (process_backs_off _ _ _ _ _ _ _ _ _ _ (hour + 5) (sample_scheduler_ok _ _) Hready (sample_latest _ _)
    ltac:(left; reflexivity) eq_refl eq_refl ltac:(discriminate)) as [H _].
  eexists. split; [exact H|]. cbn [schedules set_schedules sample_scheduler set_schedule_occurrences backed_off]. rewrite lookup_insert_eq. reflexivity.
Defined.

(** The schedule at its cursor, its occurrence not attempted yet. *)
Definition fresh_occurrence : occurrence_row :=
  mkOccurrence 1 1 hour validated_cron live_coalesced unresolved 3 (columns_of sample_definition) 0 None None None None.
Definition sample_fresh (s : schedule_row) (occurrences : gmap Z occurrence_row) : db :=
  mkDb {[ 1 ]} (Some (mkRuntimeSettings 2 4 3)) {[ "cif_detail" := mkSource true (Some 1) ]} {[ 1 := "active" ]}
    ∅ 1 {[ 1 := s ]} 2 occurrences 2 ∅ 1 [].

Lemma sample_fresh_ok : sched_ok (sample_fresh sample_schedule {[ 1 := fresh_occurrence ]}).
Proof.
  split.
  - apply schema_b_sound. vm_compute. reflexivity.
  - split; cbn.
    + intros i o [<- <-]%lookup_singleton_Some. cbn. lia.
    + intros i o j a _ Ha. by rewrite lookup_empty in Ha.
    + intros i o k [<- <-]%lookup_singleton_Some Hk. cbn in Hk. lia.
  - unfold aligned. cbn [schedule_occurrences sample_fresh schedules].
    intros i o [<- <-]%lookup_singleton_Some _. exists sample_schedule. split; [apply lookup_singleton_eq|].
    apply currentFence_spec. split_and!; [reflexivity..|apply same_semantics_refl].
Qed.

(** The run repository accepts the submission. *)
Lemma sample_submission reference : (trim_space reference =? "")%string = false →
  ∃ job p d1, Find theCatalog "cif_detail" = Some job ∧ j_strategy job = NoDate ∧
    parametersForOccurrence job hour = Ok p ∧
    SubmitInTx sample_now "cif_detail" p TriggerScheduler reference (Some 1)
      (sample_fresh sample_schedule {[ 1 := fresh_occurrence ]}) = Ok (1, d1).
Proof.
  intros Href. destruct sample_job as (job & Hjob & Hs). pose proof (proj1 (Find_spec _ _) Hjob) as [Hin Hkey].
  destruct (snapshot_accepted job Hin Hs) as (p & Hp & Hv). exists job, p.
  unfold SubmitInTx, submitInTx. rewrite Href, andb_false_r, Hjob.
  eexists. split; [reflexivity|]. split; [exact Hs|]. split; [unfold parametersForOccurrence; by rewrite Hs|].
  rewrite (tx_bind_eq _ _ _ tt (sample_fresh sample_schedule {[ 1 := fresh_occurrence ]})) by (unfold tx_lift; by rewrite Hv).
  reflexivity.
Qed.

Lemma fresh_ready job : Find theCatalog "cif_detail" = Some job → j_strategy job = NoDate →
  ready sample_now (sample_fresh sample_schedule {[ 1 := fresh_occurrence ]}) 1 sample_schedule
    sample_definition (mkCron tt tt) job fresh_occurrence.
Proof.
  intros Hjob Hs. assert (Hmode : live_coalesced = occurrence_mode job) by (unfold occurrence_mode; by rewrite Hs).
  split.
  - cbn [schedules sample_fresh]. apply lookup_singleton_eq.
  - apply due_Some. split_and!; [reflexivity|reflexivity|reflexivity|vm_compute; discriminate|intros t [=]].
  - apply sample_row_valid.
  - exact Hjob.
  - vm_compute. reflexivity.
  - cbn [schedule_occurrences sample_fresh]. apply lookup_singleton_eq.
  - reflexivity.
  - reflexivity.
  - apply semanticMatches_columns.
  - reflexivity.
  - exact Hmode.
  - reflexivity.
Qed.

Lemma process_delivers_witness : ∃ d' dl,
  processTransaction sample_now 1 (sample_fresh sample_schedule {[ 1 := fresh_occurrence ]}) = Ok ((true, Some dl), d') ∧
  dl_attempt dl = 1 ∧ (λ s, scheduler_not_before s) <$> schedules d' !! 1 = Some (Some (sample_now + deliveryDelay)).
Proof.
  destruct (sample_submission (attempt_reference 1 hour 1) eq_refl) as (job & p & d1 & Hjob & Hs & Hp & Hsub).
  pose proof (process_delivers sample_now _ 1 _ _ _ _ _ p 1 d1 sample_fresh_ok (fresh_ready job Hjob Hs) ltac:(left; reflexivity)
    ltac:(vm_compute; reflexivity) ltac:(discriminate) ltac:(intros j a Ha; cbn in Ha; discriminate Ha) Hp Hsub) as [H _].
  eexists _, _. split; [exact H|]. split; [reflexivity|].
  cbn [schedules set_schedules delivered_db]. change (sch_id sample_schedule) with 1. rewrite lookup_insert_eq. reflexivity.
Defined.


(** A schedule without a name does not validate. *)
Definition nameless_schedule : schedule_row := set_sch_name "" sample_schedule.
Lemma nameless_ok : sched_ok (sample_fresh nameless_schedule ∅).
Proof.
  split.
  - apply schema_b_sound. vm_compute. reflexivity.
  - split; cbn; intros i o.
    + intros Ho. by rewrite lookup_empty in Ho.
    + intros j a Ho. by rewrite lookup_empty in Ho.
    + intros k Ho. by rewrite lookup_empty in Ho.
  - unfold aligned. cbn [schedule_occurrences sample_fresh schedules]. intros i o Ho. by rewrite lookup_empty in Ho.
Qed.

Lemma process_rejects_witness : ∃ d' o,
  processTransaction sample_now 1 (sample_fresh nameless_schedule ∅) = Ok ((true, None), d') ∧
  (λ s, sch_enabled s) <$> schedules d' !! 1 = Some false ∧ occ_status o = rejected_invalid.
Proof.
  destruct (process_rejects sample_now (sample_fresh nameless_schedule ∅) 1 nameless_schedule hour
    (ErrInvalidDefinition "schedule name is required and limited to 128 characters") nameless_ok) as (d' & o & H & Hsch & Hat & _).
  - cbn [schedules sample_fresh]. apply lookup_singleton_eq.
  - apply due_Some. split_and!; [reflexivity|reflexivity|reflexivity|vm_compute; discriminate|intros t [=]].
  - reflexivity.
  - vm_compute. reflexivity.
  - reflexivity.
  - reflexivity.
  - intros i o Ho. cbn [schedule_occurrences sample_fresh] in Ho. rewrite lookup_empty in Ho. discriminate Ho.
  - exists d', o. split; [exact H|]. rewrite Hsch. split; [|apply Hat]. rewrite lookup_insert_eq. reflexivity.
Defined.
