(* ===== verification/ScheduleChanges.v ===== *)
(** * Changing schedules

    The operations users call on schedules: creation, alone and in bulk,
    updates, enabling and stopping under a revision fence, and bulk changes
    of state.  Each theorem says what a call does to the schedules table on
    every outcome. *)

From S2P Require Import Prelude Calendar Json Hash Catalog Params Access AuditTrail Table Store Schema Runs ScheduleModel Scheduler SchedulerInv SchedulerRuns.
From stdpp Require Import sorting.

Open Scope Z_scope.

(** ** Bulk selections *)

Lemma distinctIDs_Ok seen submitted ids : distinctIDs seen submitted = Ok ids →
  (0 ∉ submitted) ∧ NoDup ids ∧ (∀ x, x ∈ ids ↔ x ∈ submitted ∧ x ∉ seen).
Proof.
  revert seen ids. induction submitted as [|x l IH]; intros seen ids; cbn [distinctIDs].
  { intros [= <-]. split; [set_solver|]. split; [constructor|set_solver]. }
  destruct (Z.eqb_spec x 0) as [|Hx]; [done|]. case_bool_decide as Hin.
  - intros H. destruct (IH _ _ H) as (H0 & Hnd & Hel). split; [set_solver|]. split; [done|]. set_solver.
  - intros (rest & H & [= <-])%res_bind_Ok. destruct (IH _ _ H) as (H0 & Hnd & Hel). split; [set_solver|].
    split; [constructor; [rewrite Hel; set_solver|done]|]. intros y. rewrite elem_of_cons, elem_of_cons, Hel.
    destruct (decide (y = x)) as [->|]; set_solver.
Qed.

Lemma distinctIDs_Err seen submitted e : distinctIDs seen submitted = Err e → 0 ∈ submitted ∧ e = ErrInvalidSelection.
Proof.
  revert seen e. induction submitted as [|x l IH]; intros seen e; cbn [distinctIDs]; [done|].
  destruct (Z.eqb_spec x 0) as [->|Hx]; [intros [= <-]; split; [left|done]|]. case_bool_decide.
  - intros [? ?]%IH. split; [by right|done].
  - destruct (distinctIDs _ _) eqn:E; cbn [res_bind]; [done|]. intros [= <-]. apply IH in E as [? ?]. split; [by right|done].
Qed.

(** Insertion sort on integers. *)
Lemma insert_by_sorted x l : StronglySorted Z.lt l → x ∉ l → StronglySorted Z.lt (insert_by Z.ltb x l).
Proof.
  induction 1 as [|y l Hl IH Hy]; intros Hx; cbn [insert_by]; [repeat constructor|].
  destruct (Z.ltb_spec y x).
  - constructor; [apply IH; set_solver|]. rewrite Forall_forall in *. intros z Hz.
    rewrite insert_by_Permutation in Hz. apply elem_of_cons in Hz as [->|Hz]; [done|auto].
  - constructor; [by constructor|]. constructor; [set_solver by lia|].
    rewrite Forall_forall in *. intros z Hz. specialize (Hy z Hz). assert (x ≠ y) by set_solver. lia.
Qed.
Lemma sort_by_sorted l : NoDup l → StronglySorted Z.lt (sort_by Z.ltb l).
Proof.
  induction 1 as [|x l Hx Hnd IH]; [constructor|]. apply insert_by_sorted; [done|].
  change (x ∉ sort_by Z.ltb l). by rewrite sort_by_Permutation.
Qed.

Lemma size_distinct l ids : NoDup ids → (∀ x, x ∈ ids ↔ x ∈ l) → size (list_to_set l : gset Z) = length ids.
Proof.
  intros Hnd Hel. rewrite <- (size_list_to_set (C := gset Z) ids Hnd). f_equal. apply set_eq. intros x.
  by rewrite !elem_of_list_to_set, Hel.
Qed.

(** A bulk selection is normalised: the distinct identifiers in
    increasing order, or refused exactly when it is empty, contains 0 or has
    more than 25 distinct identifiers. *)
Theorem normalizeBulkIDs_spec : ∀ submitted,
  match normalizeBulkIDs submitted with
  | Ok ids => StronglySorted Z.lt ids ∧ (∀ x, x ∈ ids ↔ x ∈ submitted) ∧ (1 <= length ids <= MaxBulkSelection)%nat ∧ (0 ∉ ids)
  | Err e => e = ErrInvalidSelection ∧
      (submitted = [] ∨ 0 ∈ submitted ∨ (MaxBulkSelection < size (list_to_set submitted : gset Z))%nat)
  end.
Proof.
  intros submitted. unfold normalizeBulkIDs. destruct submitted as [|x0 l0]; [by split; [|left]|]. set (l := x0 :: l0).
  destruct (distinctIDs [] l) as [ids|e] eqn:E; cbn [res_bind]; [|apply distinctIDs_Err in E as [? ->]; auto].
  apply distinctIDs_Ok in E as (H0 & Hnd & Hel).
  assert (Hel' : ∀ x, x ∈ ids ↔ x ∈ l) by (intros x; rewrite Hel; set_solver).
  assert (Hlen : length (sort_by Z.ltb ids) = length ids) by (by rewrite sort_by_Permutation).
  rewrite Hlen. destruct (Nat.ltb_spec MaxBulkSelection (length ids)) as [Hgt|Hle].
  - split; [done|]. right. right. by rewrite (size_distinct l ids).
  - split; [by apply sort_by_sorted|]. split; [intros x; by rewrite sort_by_Permutation|].
    rewrite Hlen, sort_by_Permutation. split; [|by rewrite Hel'].
    split; [|lia]. destruct ids; [|cbn; lia]. specialize (Hel' x0). exfalso.
    apply (not_elem_of_nil x0), Hel'. left.
Qed.

(** ** Changes under a revision fence *)

Section Changes.
Context {cron : CronLibrary}.

(** The three single-schedule operations. *)
Inductive change :=
  | ChUpdate (definition : Definition_)
  | ChEnable
  | ChStop (archive : bool).

Definition change_tx (now : instant) (id expected : Z) (actor : option Z) (requester : option Requester) (c : change) : Tx db Z :=
  match c with
  | ChUpdate definition => update_tx now id (mkUpdateInput definition expected actor requester)
  | ChEnable => enable_tx now id expected actor requester
  | ChStop archive => stop_tx now id expected actor archive requester
  end.
Definition apply_change (now : instant) (id expected : Z) (actor : option Z) (requester : option Requester) (c : change)
    : db → result Schedule * db :=
  match c with
  | ChUpdate definition => Update now id (mkUpdateInput definition expected actor requester)
  | ChEnable => Enable now id expected actor requester
  | ChStop archive => stop now id expected actor archive requester
  end.
Lemma apply_change_tx now id expected actor requester c d :
  apply_change now id expected actor requester c d = commit_and_get (change_tx now id expected actor requester c) d.
Proof. by destruct c. Qed.

(** What a committed change makes of the row [s]. *)
Definition changed (now : instant) (id : Z) (c : change) (d d' : db) (s s' : schedule_row) : Prop :=
  match c with
  | ChUpdate definition =>
      ∃ valid parsed, validateDefinition (with_timezone definition) now = Ok (valid, parsed) ∧
        sch_definition s' = columns_of valid ∧ sch_name s' = d_name valid ∧ sch_enabled s' = sch_enabled s ∧
        archived_at s = None ∧
        if semanticMatches (sch_definition s) valid then next_run_at s' = next_run_at s
        else idle id d ∧ (if sch_enabled s then ∃ next, next_run_at s' = Some next ∧ now < next else next_run_at s' = None)
  | ChEnable => sch_enabled s = false ∧ archived_at s = None ∧ idle id d ∧ sch_enabled s' = true ∧
      sch_definition s' = sch_definition s ∧ ∃ next, next_run_at s' = Some next ∧ now < next
  | ChStop archive => sch_enabled s' = false ∧ next_run_at s' = None ∧ sch_definition s' = sch_definition s ∧
      (if archive then archived_at s' = Some now else archived_at s' = archived_at s) ∧ idle id d'
  end.

Lemma update_schedule_one id cond set d d' : update_schedule id cond set d = Ok (1, d') →
  ∃ r, schedules d !! id = Some r ∧ cond r = true ∧ d' = set_schedules (<[id := set r]> (schedules d)) d.
Proof. intros [(_ & r & ? & ? & _ & _ & ->)|(? & _)]%update_one_Ok; [eauto|done]. Qed.

Lemma audit_tables requester action id metadata now d u d' :
  appendScheduleAudit requester action id metadata now d = Ok (u, d') →
  schedules d' = schedules d ∧ schedule_occurrences d' = schedule_occurrences d.
Proof. destruct requester; [by intros (? & _ & ? & _)%Append_same|by intros [= _ <-]]. Qed.

Lemma validate_next definition now valid parsed : validateDefinition definition now = Ok (valid, parsed) →
  ∃ next, Next parsed now = Some next ∧ now < next.
Proof.
  intros (_ & _ & _ & _ & _ & _ & _ & [next Hn])%validateDefinition_Ok. exists next. split; [done|].
  by apply cron_next_later in Hn.
Qed.

Lemma update_each_one {A} (u : A → Tx db Z) a d n d' : update_each u [a] d = Ok (n, d') → u a d = Ok (n, d').
Proof.
  cbn [update_each]. intros (m & d1 & H & (k & d2 & [= <- <-] & [= <- <-])%tx_bind_Ok)%tx_bind_Ok. by rewrite Z.add_0_r.
Qed.

(** The tail all three operations share: audit, then the identifier. *)
Lemma audited_Ok requester action id metadata now d a d' :
  (appendScheduleAudit requester action id metadata now ;;; tx_ret id) d = Ok (a, d') →
  a = id ∧ schedules d' = schedules d ∧ schedule_occurrences d' = schedule_occurrences d.
Proof. intros (? & d1 & H & [= <- <-])%tx_bind_Ok. by apply audit_tables in H as [? ?]. Qed.

Lemma update_changes now id definition expected actor requester d s a d' : sched_ok d → schedules d !! id = Some s →
  update_tx now id (mkUpdateInput definition expected actor requester) d = Ok (a, d') →
  ∃ s', a = id ∧ schedules d' = <[id := s']> (schedules d) ∧ sch_revision s' = sch_revision s + 1 ∧
    changed now id (ChUpdate definition) d d' s s'.
Proof.
  intros Hd Hs (row & ? & [-> Hrow]%lockSchedule_Ok & H)%tx_bind_Ok. rewrite Hs in Hrow. injection Hrow as <-.
  apply tx_bind_Ok in H as (? & ? & [_ [= _ ->]]%tx_guard_Ok & H).
  apply tx_bind_Ok in H as (? & ? & [Har [= _ ->]]%tx_guard_Ok & H).
  apply tx_bind_Ok in H as ([valid parsed] & ? & (? & Hv & [= <- ->])%tx_lift_Ok & H). cbn [ui_definition] in Hv.
  apply tx_bind_Ok in H as (next & d1 & Hnext & H).
  destruct (t_ids _ _ _ _ _ (schedules_ok d (ok_schema d Hd)) _ _ Hs) as [Hid _].
  apply tx_bind_Ok in H as (n & d2 & Hu & H). apply tx_bind_Ok in H as (? & ? & [-> ->]%requireOne_Ok & H).
  apply audited_Ok in H as (-> & Hsch & _).
  assert (Hcur : d1 = d ∧ if semanticMatches (sch_definition s) valid then next = next_run_at s
    else idle id d ∧ (if sch_enabled s then ∃ t, next = Some t ∧ now < t else next = next_run_at s)).
  { unfold updated_cursor in Hnext. destruct (semanticMatches _ _); [by injection Hnext as <- <-|].
    apply tx_bind_Ok in Hnext as (active & d3 & Hact & Hnext).
    destruct (lockActive_cases (sch_id s) d (ok_schema d Hd)) as (? & E & Hidle). rewrite E in Hact. injection Hact as -> <-.
    destruct active; [done|]. rewrite Hid in Hidle. cbn [isSome orb] in Hnext.
    destruct (sch_enabled s && _); [done|]. injection Hnext as <- <-. split; [done|]. split; [done|].
    destruct (sch_enabled s); [|done]. destruct (validate_next _ _ _ _ Hv) as (t & -> & Ht). by exists t. }
  destruct Hcur as [-> Hcur]. apply update_schedule_one in Hu as (r & Hr & _ & ->). assert (r = s) as -> by congruence.
  eexists. split; [done|]. split; [exact Hsch|]. split; [done|]. cbn. exists valid, parsed. split_and!; try done.
  - by destruct (archived_at s).
  - destruct (semanticMatches _ _); [done|]. destruct Hcur as [Hi Hcur]. split; [done|].
    destruct (sch_enabled s) eqn:He; [done|]. rewrite Hcur.
    pose proof (t_checks _ _ _ _ _ (schedules_ok d (ok_schema d Hd)) _ _ Hs) as Hc. unfold schedule_check in Hc.
    rewrite He in Hc. destruct (next_run_at s); [|done]. by rewrite andb_false_r in Hc.
Qed.

Lemma enable_changes now id expected actor requester d s a d' : sched_ok d → schedules d !! id = Some s →
  enable_tx now id expected actor requester d = Ok (a, d') →
  ∃ s', a = id ∧ schedules d' = <[id := s']> (schedules d) ∧ sch_revision s' = sch_revision s + 1 ∧
    changed now id ChEnable d d' s s'.
Proof.
  intros Hd Hs (row & ? & [-> Hrow]%lockSchedule_Ok & H)%tx_bind_Ok. rewrite Hs in Hrow. injection Hrow as <-.
  apply tx_bind_Ok in H as (? & ? & [_ [= _ ->]]%tx_guard_Ok & H).
  destruct (t_ids _ _ _ _ _ (schedules_ok d (ok_schema d Hd)) _ _ Hs) as [Hid _].
  apply tx_bind_Ok in H as (active & d1 & Hact & H).
  destruct (lockActive_cases id d (ok_schema d Hd)) as (? & E & Hidle). rewrite E in Hact. injection Hact as -> <-.
  apply tx_bind_Ok in H as (t & ? & (? & Ht & [= <- ->])%tx_lift_Ok & H).
  pose proof (prepareEnable_Ok _ _ _ _ Ht) as (Hact & Har & Hen). destruct active; [done|].
  apply tx_bind_Ok in H as (u & d2 & (n & d3 & Hu & [-> ->]%requireCount_Ok)%tx_bind_Ok & H).
  apply update_each_one in Hu. rewrite Hen, Hid in Hu. cbn [length] in Hu.
  apply audited_Ok in H as (-> & Hsch & _).
  apply update_schedule_one in Hu as (r & Hr & Hc & ->). assert (r = s) as -> by congruence.
  apply andb_true_iff in Hc as [[_ Hoff]%andb_true_iff _].
  eexists. split; [done|]. split; [exact Hsch|]. split; [done|]. cbn. split_and!; try done; [by destruct (sch_enabled s)|].
  unfold prepareEnable in Ht. rewrite Har in Ht. cbn [isSome] in Ht.
  destruct (validateDefinition (row_definition s) now) as [[valid parsed]|] eqn:Ev; [|done]. injection Ht as <-. cbn.
  destruct (validate_next _ _ _ _ Ev) as (next & -> & Hlt). by exists next.
Qed.

Lemma stop_changes now id expected actor archive requester d s a d' : sched_ok d → schedules d !! id = Some s →
  stop_tx now id expected actor archive requester d = Ok (a, d') →
  ∃ s', a = id ∧ schedules d' = <[id := s']> (schedules d) ∧ sch_revision s' = sch_revision s + 1 ∧
    changed now id (ChStop archive) d d' s s'.
Proof.
  intros Hd Hs (row & ? & [-> Hrow]%lockSchedule_Ok & H)%tx_bind_Ok. rewrite Hs in Hrow. injection Hrow as <-.
  apply tx_bind_Ok in H as (? & ? & [_ [= _ ->]]%tx_guard_Ok & H).
  destruct (t_ids _ _ _ _ _ (schedules_ok d (ok_schema d Hd)) _ _ Hs) as [Hid _].
  apply tx_bind_Ok in H as (active & d1 & Hact & H).
  destruct (lockActive_cases id d (ok_schema d Hd)) as (? & E & Hidle). rewrite E in Hact. injection Hact as -> <-.
  apply tx_bind_Ok in H as (u & d2 & (v & d1 & H1 & H2)%tx_bind_Ok & H). apply audited_Ok in H as (-> & Hsch & Hocc).
  set (t := mkStop s (occ_id <$> active)) in *.
  assert (Hready : stop_ready t d).
  { unfold stop_ready, t. cbn. destruct active as [o|]; cbn; [|by rewrite Hid].
    destruct Hidle as (Ho & _ & Hso). exists o. by rewrite Hid. }
  destruct (applyStop_idles [t] actor now d v d1 Hd) as (Hd1 & _ & Hs1 & Hid1); [by intros ? ->%list_elem_of_singleton|exact H1|].
  apply tx_bind_Ok in H2 as (n & d3 & Hu & [-> ->]%requireCount_Ok). apply update_each_one in Hu. cbn in Hu. rewrite Hid in Hu.
  pose proof (update_schedule_tables _ _ _ _ _ _ Hu) as (Hocc2 & _ & _).
  apply update_schedule_one in Hu as (r & Hr & _ & ->). rewrite Hs1, Hs in Hr. injection Hr as <-.
  eexists. split; [done|]. split; [rewrite Hsch; cbn; by rewrite Hs1|]. split; [by destruct archive|].
  cbn. split; [done|]. split; [done|]. split; [by destruct archive|]. split; [by destruct archive|].
  apply (idle_same _ d1); [by rewrite Hocc|]. specialize (Hid1 t (list_elem_of_here _ _)). cbn in Hid1. by rewrite Hid in Hid1.
Qed.

(** Every change of one schedule is fenced by its revision: with an
    unknown schedule or another revision than expected the call fails with
    the error for it and changes nothing; otherwise it either fails and
    changes nothing, or raises the revision by one, returns the new row,
    leaves every other schedule as it is, and does what was asked: an update
    stores the validated definition and restarts the cursor only for a
    change of meaning without backlog, enabling needs an idle disabled
    schedule and sets a future cursor, and stopping leaves no unresolved
    occurrence behind. *)
Theorem change_fenced : ∀ now id expected actor requester c d, sched_ok d →
  match schedules d !! id with
  | None => apply_change now id expected actor requester c d = (Err ErrNoRows, d)
  | Some s =>
      if sch_revision s =? expected then
        match apply_change now id expected actor requester c d with
        | (Err _, d') => d' = d
        | (Ok value, d') => ∃ s', value = schedule_value s' ∧ schedules d' = <[id := s']> (schedules d) ∧
            sch_revision s' = expected + 1 ∧ changed now id c d d' s s'
        end
      else apply_change now id expected actor requester c d = (Err ErrConflict, d)
  end.
Proof.
  intros now id expected actor requester c d Hd. rewrite apply_change_tx. unfold commit_and_get, runTx.
  destruct (schedules d !! id) as [s|] eqn:Hs.
  2:{ by destruct c; cbn [change_tx]; unfold update_tx, enable_tx, stop_tx;
      rewrite (tx_bind_err _ _ d ErrNoRows) by (unfold lockSchedule, tx_bind, tx_gets; by rewrite Hs). }
  assert (Hlock : lockSchedule id d = Ok (s, d)) by by apply lockSchedule_Ok.
  destruct (sch_revision s =? expected) eqn:Erev.
  - apply Z.eqb_eq in Erev. destruct (change_tx now id expected actor requester c d) as [[a d']|e] eqn:E; [|done].
    assert (∃ s', a = id ∧ schedules d' = <[id := s']> (schedules d) ∧ sch_revision s' = sch_revision s + 1 ∧
      changed now id c d d' s s') as (s' & -> & Hsch & Hrev & Hch).
    { destruct c; cbn [change_tx] in E; [by eapply update_changes|by eapply enable_changes|by eapply stop_changes]. }
    unfold Get. rewrite Hsch, lookup_insert_eq. exists s'. split; [done|]. split; [done|]. split; [lia|done].
  - destruct c; cbn [change_tx]; unfold update_tx, enable_tx, stop_tx; rewrite (tx_bind_eq _ _ _ _ _ Hlock);
      cbn [ui_revision]; rewrite (tx_bind_err _ _ d ErrConflict) by (by rewrite Erev); done.
Qed.

(** ** Bulk changes of state *)

Lemma keys_NoDup {R} (key : R → Z) (P : R → Prop) `{∀ r, Decision (P r)} (l : list (Z * R)) :
  (∀ i r, (i, r) ∈ l → key r = i) → NoDup l.*1 → NoDup (key <$> filter P l.*2).
Proof.
  induction l as [|[i r] l IH]; intros Hk Hnd; [constructor|]. apply NoDup_cons in Hnd as [Hi Hnd].
  rewrite fmap_cons, filter_cons. assert (IH' := IH (λ j s Hj, Hk j s (list_elem_of_further _ _ _ Hj)) Hnd).
  destruct (decide (P (i, r).2)); [|exact IH']. rewrite fmap_cons. constructor; [|exact IH']. cbn [snd]. rewrite (Hk i r) by left.
  intros (s & Hs & Hin)%list_elem_of_fmap. apply list_elem_of_filter in Hin as [_ Hin].
  apply list_elem_of_fmap in Hin as ([j s'] & -> & Hin). cbn in Hs. apply Hi.
  rewrite Hs, (Hk j s') by (by right). apply list_elem_of_fmap. by exists (j, s').
Qed.

Lemma select_by_ids {R} (key : R → Z) n (check : R → Prop) clash before cond (t : gmap Z R) :
  table_ok key n check clash t → NoDup (key <$> select_by before cond t).
Proof.
  intros Ht. unfold select_by. rewrite sort_by_Permutation. unfold select. apply keys_NoDup.
  - intros i r Hi%elem_of_map_to_list. by apply (t_ids _ _ _ _ _ Ht).
  - apply NoDup_fst_map_to_list.
Qed.

Lemma NoDup_fmap_filter {R} (key : R → Z) (P : R → Prop) `{∀ r, Decision (P r)} (l : list R) :
  NoDup (key <$> l) → NoDup (key <$> filter P l).
Proof.
  induction l as [|r l IH]; [done|]. rewrite fmap_cons, filter_cons. intros [Hr Hnd]%NoDup_cons.
  destruct (decide (P r)); [|by apply IH]. rewrite fmap_cons. constructor; [|by apply IH].
  intros (s & Hs & [_ Hin]%list_elem_of_filter)%list_elem_of_fmap. apply Hr. rewrite Hs. by apply list_elem_of_fmap_2.
Qed.

(** The rows of a selection, when every identifier has one. *)
Lemma lockSchedules_all ids d rows : schema d → NoDup ids → lockSchedules ids d = Ok (rows, d) → length rows = length ids →
  NoDup (sch_id <$> rows) ∧ (∀ i, i ∈ ids ↔ i ∈ sch_id <$> rows) ∧
  ∀ r, r ∈ rows → schedules d !! sch_id r = Some r.
Proof.
  intros Hd Hnd [= <-] Hlen. set (rows := select_by _ _ _) in *.
  assert (Hrows : ∀ r, r ∈ rows → sch_id r ∈ ids ∧ schedules d !! sch_id r = Some r).
  { intros r [Hin [i Hi]]%elem_of_select_by. apply bool_decide_eq_true in Hin. split; [done|].
    by destruct (t_ids _ _ _ _ _ (schedules_ok d Hd) _ _ Hi) as [-> _]. }
  pose proof (select_by_ids sch_id _ _ _ schedule_by_id (λ r, bool_decide (sch_id r ∈ ids)) _ (schedules_ok d Hd)) as Hn.
  fold rows in Hn. split; [done|]. split; [|intros r Hr; by apply Hrows].
  assert (Hp : sch_id <$> rows ≡ₚ ids).
  { apply submseteq_length_Permutation; [|rewrite length_fmap; lia]. apply NoDup_submseteq; [done|].
    intros i (r & -> & Hr)%list_elem_of_fmap. by apply Hrows. }
  intros i. by rewrite Hp.
Qed.

Lemma update_each_rows {A} (key : A → Z) (cond : A → schedule_row → bool) (set : A → schedule_row → schedule_row) l d n d' :
  NoDup (key <$> l) → update_each (λ a, update_schedule (key a) (cond a) (set a)) l d = Ok (n, d') →
  0 <= n <= Z.of_nat (length l) ∧ schedule_occurrences d' = schedule_occurrences d ∧
  (∀ i, i ∉ key <$> l → schedules d' !! i = schedules d !! i) ∧
  (n = Z.of_nat (length l) → ∀ a, a ∈ l → ∃ r, schedules d !! key a = Some r ∧ cond a r = true ∧
     schedules d' !! key a = Some (set a r)).
Proof.
  revert d n. induction l as [|a l IH]; intros d n; cbn [update_each fmap list_fmap]; intros Hnd.
  { intros [= <- <-]. split; [cbn; lia|]. split; [done|]. split; [done|]. intros _ a Ha. by apply not_elem_of_nil in Ha. }
  apply NoDup_cons in Hnd as [Ha Hnd]. intros (m & d1 & H1 & (k & d2 & H2 & [= <- <-])%tx_bind_Ok)%tx_bind_Ok.
  destruct (IH d1 k Hnd H2) as (Hk & Hocc & Hout & Hin). pose proof (update_schedule_tables _ _ _ _ _ _ H1) as (Ho1 & _ & Hs1).
  assert (0 <= m <= 1) as Hm by (apply update_one_Ok in H1 as [(-> & _)|(-> & _)]; lia). cbn [length].
  split; [lia|]. split; [congruence|]. split.
  - intros i [Hia Hil]%not_elem_of_cons. rewrite Hout by done. by apply Hs1.
  - intros Hn b [->|Hb]%elem_of_cons.
    + assert (m = 1) as -> by lia. apply update_schedule_one in H1 as (r & Hr & Hc & ->). exists r.
      split; [done|]. split; [done|]. rewrite Hout by done. cbn. by rewrite lookup_insert_eq.
    + destruct (Hin ltac:(lia) b Hb) as (r & Hr & Hc & Hr'). exists r. split; [|done]. rewrite <- Hr. symmetry. apply Hs1.
      intros E. apply Ha. rewrite <- E. by apply list_elem_of_fmap_2.
Qed.

(** What a bulk action makes of a candidate. *)
Definition bulk_changed (now : instant) (action : BulkAction) (d' : db) (s s' : schedule_row) : Prop :=
  sch_id s' = sch_id s ∧ sch_revision s' = sch_revision s + 1 ∧ sch_definition s' = sch_definition s ∧
  match action with
  | BulkEnable => sch_enabled s' = true ∧ ∃ next, next_run_at s' = Some next ∧ now < next
  | BulkDisable => sch_enabled s' = false ∧ next_run_at s' = None ∧ idle (sch_id s) d'
  | _ => sch_enabled s' = false ∧ archived_at s' = Some now ∧ idle (sch_id s) d'
  end.

Lemma applyEnable_changes now ts active rows actor d u d' : NoDup (sch_id <$> rows) →
  (∀ r, r ∈ rows → schedules d !! sch_id r = Some r) → prepareEnables now active rows = Ok ts →
  applyEnableTransitions ts actor d = Ok (u, d') →
  (∀ i, i ∉ sch_id <$> rows → schedules d' !! i = schedules d !! i) ∧
  ∀ r, r ∈ rows → ∃ s', schedules d' !! sch_id r = Some s' ∧ bulk_changed now BulkEnable d' r s'.
Proof.
  intros Hnd Hrows Hts H. pose proof (prepareEnables_Ok _ _ _ _ Hts) as [Hfst _].
  assert (Hnext : ∀ t, t ∈ ts → now < en_next t).
  { clear -Hts. revert ts Hts. induction rows as [|row rows IH]; intros ts; cbn [prepareEnables].
    { intros [= <-] t Ht. by apply not_elem_of_nil in Ht. }
    intros (t & Ht & (rest & Hrest & [= <-])%res_bind_Ok)%res_bind_Ok.
    intros t' [->|Ht']%elem_of_cons; [|by eapply IH]. unfold prepareEnable in Ht.
    destruct (isSome (archived_at row)); [done|]. destruct (isSome _); [done|].
    destruct (validateDefinition (row_definition row) now) as [[valid parsed]|] eqn:Ev; [|done]. injection Ht as <-. cbn.
    destruct (validate_next _ _ _ _ Ev) as (next & -> & Hlt). done. }
  assert (Hkeys : (λ t, sch_id (en_schedule t)) <$> ts = sch_id <$> rows)
    by (rewrite <- Hfst, <- list_fmap_compose; done).
  unfold applyEnableTransitions in H. destruct ts as [|t0 ts0].
  { injection H as _ <-. cbn in Hfst. subst rows. split; [done|]. intros r Hr. by apply not_elem_of_nil in Hr. }
  set (ts := t0 :: ts0) in *. apply tx_bind_Ok in H as (n & d1 & H & [-> ->]%requireCount_Ok).
  apply (update_each_rows (λ t, sch_id (en_schedule t))) in H as (_ & _ & Hout & Hin); [|by rewrite Hkeys].
  rewrite Hkeys in Hout. split; [done|]. intros r Hr.
  rewrite <- Hfst in Hr. apply list_elem_of_fmap in Hr as (t & -> & Ht).
  destruct (Hin eq_refl t Ht) as (s & Hs & _ & Hs'). rewrite Hrows in Hs by (rewrite <- Hfst; by apply list_elem_of_fmap_2).
  injection Hs as <-. eexists. split; [exact Hs'|]. split_and!; try done. exists (en_next t). split; [done|auto].
Qed.

Lemma applyStop_changes now action transitions actor d u d' : sched_ok d → action = BulkDisable ∨ action = BulkArchive →
  NoDup ((λ t, sch_id (stop_schedule t)) <$> transitions) →
  (∀ t, t ∈ transitions → stop_ready t d ∧ schedules d !! sch_id (stop_schedule t) = Some (stop_schedule t)) →
  applyStopTransitions transitions actor (bool_decide (action = BulkArchive)) now d = Ok (u, d') →
  (∀ i, i ∉ (λ t, sch_id (stop_schedule t)) <$> transitions → schedules d' !! i = schedules d !! i) ∧
  ∀ t, t ∈ transitions → ∃ s', schedules d' !! sch_id (stop_schedule t) = Some s' ∧ bulk_changed now action d' (stop_schedule t) s'.
Proof.
  intros Hd Haction Hnd Hready H. unfold applyStopTransitions in H. destruct transitions as [|t0 ts].
  { injection H as _ <-. split; [done|]. intros r Hr. by apply not_elem_of_nil in Hr. }
  set (l := t0 :: ts) in *. apply tx_bind_Ok in H as (v & d1 & H1 & H).
  destruct (applyStop_idles l actor now d v d1 Hd (λ t Ht, proj1 (Hready t Ht)) H1) as (_ & _ & Hs1 & Hidle).
  apply tx_bind_Ok in H as (n & d2 & H & [-> ->]%requireCount_Ok).
  apply (update_each_rows (λ t, sch_id (stop_schedule t))) in H as (_ & Hocc & Hout & Hin); [|done].
  rewrite Hs1 in *. split; [done|]. intros t Ht. destruct (Hin eq_refl t Ht) as (s & Hs & _ & Hs').
  rewrite (proj2 (Hready t Ht)) in Hs. injection Hs as <-.
  assert (Hi : idle (sch_id (stop_schedule t)) d2) by (by apply (idle_same _ d1), Hidle).
  eexists. split; [exact Hs'|]. by destruct Haction as [->| ->]; split_and!.
Qed.

(** The state change of a bulk action on its candidates. *)
Lemma bulk_apply now action actor candidates active d u d1 : sched_ok d →
  (∀ name, action ≠ OtherAction name) → NoDup (sch_id <$> candidates) →
  (∀ r, r ∈ candidates → schedules d !! sch_id r = Some r) →
  (∀ i, i ∈ sch_id <$> candidates →
     match active !! i with
     | None => idle i d
     | Some o => schedule_occurrences d !! occ_id o = Some o ∧ occ_schedule o = i
     end) →
  match action with
  | BulkEnable =>
      let* transitions := tx_lift (prepareEnables now active candidates) in applyEnableTransitions transitions actor
  | _ =>
      applyStopTransitions ((λ r, mkStop r (occ_id <$> active !! sch_id r)) <$> candidates) actor
        (bool_decide (action = BulkArchive)) now
  end d = Ok (u, d1) →
  (∀ i, i ∉ sch_id <$> candidates → schedules d1 !! i = schedules d !! i) ∧
  ∀ r, r ∈ candidates → ∃ s', schedules d1 !! sch_id r = Some s' ∧ bulk_changed now action d1 r s'.
Proof.
  intros Hd Hact Hnd Hrow Hactive Happly.
  assert (Hk : (λ t, sch_id (stop_schedule t)) <$> ((λ r, mkStop r (occ_id <$> active !! sch_id r)) <$> candidates) = sch_id <$> candidates)
    by (by rewrite <- list_fmap_compose).
  assert (Hready : ∀ t, t ∈ ((λ r, mkStop r (occ_id <$> active !! sch_id r)) <$> candidates) →
    stop_ready t d ∧ schedules d !! sch_id (stop_schedule t) = Some (stop_schedule t)).
  { intros t (r & -> & Hr)%list_elem_of_fmap. unfold stop_ready. cbn. split; [|by apply Hrow].
    specialize (Hactive _ (list_elem_of_fmap_2 sch_id _ _ Hr)). destruct (active !! sch_id r) as [o|]; cbn; [|done].
    destruct Hactive as [Ho Hs]. eauto. }
  assert (Hstop : action = BulkDisable ∨ action = BulkArchive →
    applyStopTransitions ((λ r, mkStop r (occ_id <$> active !! sch_id r)) <$> candidates) actor
      (bool_decide (action = BulkArchive)) now d = Ok (u, d1) →
    (∀ i, i ∉ sch_id <$> candidates → schedules d1 !! i = schedules d !! i) ∧
    ∀ r, r ∈ candidates → ∃ s', schedules d1 !! sch_id r = Some s' ∧ bulk_changed now action d1 r s').
  { intros Ha H. eapply applyStop_changes in H as [Hout Hin]; [|done|done|by rewrite Hk|exact Hready].
    rewrite Hk in Hout. split; [done|]. intros r Hr.
    apply (Hin (mkStop r (occ_id <$> active !! sch_id r))). apply list_elem_of_fmap. by exists r. }
  destruct action as [| | |name]; [|apply Hstop; auto|apply Hstop; auto|by destruct (Hact name)].
  apply tx_bind_Ok in Happly as (ts & ? & (? & Hts & [= <- ->])%tx_lift_Ok & Happly).
  by eapply applyEnable_changes.
Qed.

(** A bulk change of state is all or nothing: it commits only if every
    selected schedule exists and none is archived, and then exactly the
    schedules whose state differs are changed, each with its revision raised
    (enabled with a future cursor, or stopped without unresolved occurrence),
    every other schedule stays as it is, and the counts it reports are
    those of the selection; a failure changes nothing. *)
Theorem BulkState_outcome : ∀ now submitted action actor requester d, sched_ok d →
  match runTx (BulkState now submitted action actor requester) d with
  | (Err _, d') => d' = d
  | (Ok result, d') => ∃ ids, normalizeBulkIDs submitted = Ok ids ∧
      SelectedCount result = Z.of_nat (length ids) ∧
      AffectedCount result + NoOpCount result = SelectedCount result ∧ 0 <= AffectedCount result <= SelectedCount result ∧
      (∀ i, i ∉ ids → schedules d' !! i = schedules d !! i) ∧
      (∀ i, i ∈ ids → ∃ s s', schedules d !! i = Some s ∧ schedules d' !! i = Some s' ∧ archived_at s = None ∧
         if bulk_candidate action s then bulk_changed now action d' s s' else s' = s)
  end.
Proof.
  intros now submitted action actor requester d Hd. unfold runTx.
  destruct (BulkState now submitted action actor requester d) as [[result d']|e] eqn:H; [|done].
  unfold BulkState in H. apply tx_bind_Ok in H as (ids & ? & (? & Hids & [= <- ->])%tx_lift_Ok & H).
  apply tx_bind_Ok in H as (? & ? & [Hact [= _ ->]]%tx_guard_Ok & H).
  apply tx_bind_Ok in H as (rows & d0 & Hrows & H). assert (d0 = d) as -> by (by injection Hrows).
  apply tx_bind_Ok in H as (? & ? & [Hlen [= _ ->]]%tx_guard_Ok & H). apply Nat.eqb_eq in Hlen.
  apply tx_bind_Ok in H as (? & ? & [Harch [= _ ->]]%tx_guard_Ok & H).
  set (candidates := filter _ rows) in H. apply tx_bind_Ok in H as (occurrences & d1 & Hocc & H).
  destruct (bulk_active _ _ _ _ (ok_schema d Hd) Hocc) as [-> Hactive]. clear Hocc.
  set (active := foldl _ _ _) in *. apply tx_bind_Ok in H as (u & d1 & Happly & H).
  apply tx_bind_Ok in H as (w & d2 & Haud & [= <- <-]).
  assert (Hsame : schedules d2 = schedules d1 ∧ schedule_occurrences d2 = schedule_occurrences d1).
  { destruct requester; [by apply Append_same in Haud as (? & _ & ? & _)|by injection Haud as _ <-]. }
  destruct Hsame as [E1 E2].
  assert (Hnd : NoDup ids).
  { unfold normalizeBulkIDs in Hids. destruct submitted; [done|].
    apply res_bind_Ok in Hids as (l & Hl & Hids). destruct (_ <? _)%nat; [done|]. injection Hids as <-.
    rewrite sort_by_Permutation. by apply distinctIDs_Ok in Hl as (_ & ? & _). }
  destruct (lockSchedules_all ids d rows (ok_schema d Hd) Hnd Hrows Hlen) as (Hndr & Hel & Hrow).
  assert (Hncand : NoDup (sch_id <$> candidates)).
  { by apply NoDup_fmap_filter. }
  assert (Hcand : ∀ r, r ∈ candidates ↔ bulk_candidate action r = true ∧ r ∈ rows) by (intros r; unfold candidates; by rewrite list_elem_of_filter).
  destruct (bulk_apply now action actor candidates active d u d1) as [Hout Hin]; [done| |done| |done|done|]; [by intros name ->|intros r [_ Hr]%Hcand; auto|].
  exists ids. cbn [SelectedCount AffectedCount NoOpCount]. rewrite Hlen.
  assert (length candidates <= length rows)%nat by apply length_filter.
  split; [done|]. split; [done|]. split; [lia|]. split; [lia|]. rewrite E1. split.
  - intros i Hi. apply Hout. intros (r & -> & Hr)%list_elem_of_fmap. apply Hi, Hel, list_elem_of_fmap_2. by apply Hcand in Hr as [_ ?].
  - intros i Hi. apply Hel in Hi. apply list_elem_of_fmap in Hi as (r & -> & Hr). exists r.
    assert (Har : archived_at r = None).
    { destruct (archived_at r) eqn:E; [|done]. exfalso. rewrite negb_true_iff in Harch.
      assert (existsb (λ r, isSome (archived_at r)) rows = true) as Ht; [|congruence].
      apply existsb_exists. exists r. by rewrite <- list_elem_of_In, E. }
    destruct (bulk_candidate action r) eqn:Eb.
    + destruct (Hin r) as (s' & Hs' & Hch); [by apply Hcand|]. exists s'. split; [auto|]. split; [done|]. split; [done|].
      destruct Hch as (H1 & H2 & H3 & H4). split; [done|]. split; [done|]. split; [done|].
      unfold idle in *. rewrite E2. done.
    + exists r. split; [auto|]. split; [|done]. rewrite Hout; [auto|].
      intros (r' & Heq & Hr')%list_elem_of_fmap. apply Hcand in Hr' as [Hb Hr'].
      assert (r' = r); [|congruence]. apply Hrow in Hr, Hr'. congruence.
Qed.

(** ** Creating schedules in bulk *)

(** A schedule of the definition's job, expression and time zone exists. *)
Definition present (d : db) (definition : Definition_) : Prop :=
  ∃ i row, schedules d !! i = Some row ∧ existing_for definition row = true.

Lemma insertSchedule_Ok value d s d' : schema d → insertSchedule value d = Ok (s, d') →
  ID s = next_schedule_id d ∧ schedules d !! ID s = None ∧
  s = mkScheduleValue (ID s) (pc_definition value) (pc_enabled value) (pc_next value) None None 1 ∧
  ∃ row, schedules d' = <[ID s := row]> (schedules d) ∧ sch_definition row = columns_of (pc_definition value) ∧
    sch_name row = d_name (pc_definition value) ∧
    sch_enabled row = pc_enabled value ∧ next_run_at row = pc_next value ∧ archived_at row = None ∧
    scheduler_not_before row = None ∧ sch_id row = ID s ∧ sch_revision row = 1.
Proof.
  intros Hd (id & d1 & (-> & _ & ->)%insert_one_Ok & [= <- <-])%tx_bind_Ok. cbn. split; [done|].
  split. { apply eq_None_not_Some. intros [r Hr]. destruct (t_ids _ _ _ _ _ (schedules_ok d Hd) _ _ Hr). lia. }
  split; [done|]. eexists. split; [done|]. by split_and!.
Qed.

(** What [createEach] makes: rows are only added, each created schedule is
    stored under a fresh identifier, and every definition is present. *)
Lemma createEach_Ok now values acc d result d' : sched_ok d →
  createEach now values acc d = Ok (result, d') →
  schedules d ⊆ schedules d' ∧
  (∀ value, value ∈ values → present d' (pc_definition value)) ∧
  ∃ new, Created result = Created acc ++ new ∧
    ∀ s, s ∈ new → schedules d !! ID s = None ∧ ∃ value row, value ∈ values ∧
      s = mkScheduleValue (ID s) (pc_definition value) (pc_enabled value) (pc_next value) None None 1 ∧
      ¬ present d (pc_definition value) ∧
      schedules d' !! ID s = Some row ∧ sch_definition row = columns_of (pc_definition value) ∧
      sch_enabled row = pc_enabled value ∧ next_run_at row = pc_next value ∧ sch_revision row = 1.
Proof.
  revert acc d. induction values as [|value values IH]; intros acc d Hd; cbn [createEach].
  { intros [= <- <-]. split; [done|]. split; [intros v Hv; by apply not_elem_of_nil in Hv|].
    exists []. split; [by rewrite app_nil_r|]. intros s Hs. by apply not_elem_of_nil in Hs. }
  intros (rows & d1 & [= <- <-] & H)%tx_bind_Ok.
  destruct (select_by _ _ (schedules d)) as [|row rows] eqn:Erows.
  - apply tx_bind_Ok in H as (s & d1 & Hi & (u & d2 & Ha & H)%tx_bind_Ok).
    pose proof (insertSchedule_good value d Hd s d1 Hi) as [H1 _].
    pose proof (schedule_audit_good _ _ _ _ _ _ H1 u d2 Ha) as [H2 _].
    pose proof (audit_tables _ _ _ _ _ _ _ _ Ha) as [Es _].
    destruct (insertSchedule_Ok _ _ _ _ (ok_schema d Hd) Hi) as (_ & Hfresh & Hval & row & Hrow & Hdef & _ & Hen & Hnext & Har & _ & _ & Hrev).
    destruct (IH _ d2 H2 H) as (Hsub & Hpres & new & Hnew & Hall). rewrite Es, Hrow in Hsub.
    assert (Hsub0 : schedules d ⊆ schedules d') by (etransitivity; [by apply insert_subseteq|exact Hsub]).
    assert (Hin : schedules d' !! ID s = Some row) by (eapply lookup_weaken, Hsub; apply lookup_insert_eq).
    split; [done|]. split.
    + intros v [->|Hv]%elem_of_cons; [|by apply Hpres]. exists (ID s), row. split; [done|].
      unfold existing_for. rewrite Hdef, Har. cbn. by rewrite !String.eqb_refl.
    + exists (s :: new). split; [rewrite Hnew; cbn [Created]; by rewrite <- app_assoc|].
      intros s' [->|Hs']%elem_of_cons.
      * split; [done|]. exists value, row. split_and!; try done; [left|].
        intros (i & r & Hr & Hex). assert (r ∈ []) as Hnil; [|by apply not_elem_of_nil in Hnil].
        rewrite <- Erows. apply elem_of_select_by. eauto.
      * destruct (Hall s' Hs') as (Hf & v & r & Hv & Hvs & Hnot & Hr). rewrite Es, Hrow in Hf.
        apply lookup_insert_None in Hf as [Hf _]. split; [done|]. exists v, r. split; [by right|]. split; [done|]. split; [|done].
        intros (i & r' & Hr' & Hex). apply Hnot. exists i, r'. split; [|done]. rewrite Es, Hrow.
        rewrite lookup_insert_ne; [done|]. intros <-. congruence.
  - destruct (IH _ d Hd H) as (Hsub & Hpres & new & Hnew & Hall). split; [done|]. split.
    + intros v [->|Hv]%elem_of_cons; [|by apply Hpres].
      assert (row ∈ select_by schedule_by_id (existing_for (pc_definition value)) (schedules d)) as Hr by (rewrite Erows; left).
      apply elem_of_select_by in Hr as [Hex [i Hr]]. exists i, row. split; [|done]. by eapply lookup_weaken.
    + exists new. split; [done|]. intros s Hs. destruct (Hall s Hs) as (Hf & v & r & Hv & Hr). split; [done|].
      exists v, r. split; [by right|done].
Qed.

Lemma createEach_present now values acc d : (∀ value, value ∈ values → present d (pc_definition value)) →
  ∃ existing, createEach now values acc d = Ok (mkCreateMany (Created acc) existing, d).
Proof.
  revert acc. induction values as [|value values IH]; intros acc Hp; cbn [createEach].
  { exists (Existing acc). by destruct acc. }
  unfold tx_bind at 1, tx_gets. destruct (Hp value ltac:(left)) as (i & r & Hr & Hex).
  assert (r ∈ select_by schedule_by_id (existing_for (pc_definition value)) (schedules d)) as Hin
    by (apply elem_of_select_by; eauto).
  destruct (select_by _ _ _) as [|r0 rows]; [by apply not_elem_of_nil in Hin|].
  apply (IH (mkCreateMany (Created acc) _)). intros v Hv. apply Hp. by right.
Qed.

(** Definitions depend on the input alone, not on the time. *)
Lemma prepareCreate_Ok now input p : prepareCreate input now = Ok p →
  (d_job (pc_definition p), d_cron (pc_definition p), d_timezone (pc_definition p)) =
    (trim_space (d_job (ci_definition input)), trim_space (d_cron (ci_definition input)),
     trim_space (d_timezone (with_timezone (ci_definition input)))) ∧
  pc_enabled p = ci_enabled input ∧
  (if ci_enabled input then ∃ next, pc_next p = Some next ∧ now < next else pc_next p = None).
Proof.
  unfold prepareCreate. intros ([definition parsed] & Hv & H)%res_bind_Ok.
  pose proof (validate_next _ _ _ _ Hv) as (next & En & Hlt).
  apply validateDefinition_Ok in Hv as (Hj & Hc & Ht & _).
  assert (d_job (with_timezone (ci_definition input)) = d_job (ci_definition input) ∧
          d_cron (with_timezone (ci_definition input)) = d_cron (ci_definition input)) as [Ej Ec]
    by (unfold with_timezone; by destruct (_ =? _)%string).
  rewrite <- Ej, <- Ec, <- Hj, <- Hc, <- Ht.
  destruct (ci_enabled input); [rewrite En in H|]; injection H as <-; split_and!; try done. by exists next.
Qed.

Lemma prepareMany_Ok now seen first inputs ps : prepareMany now seen first inputs = Ok ps →
  Forall2 (λ input p, prepareCreate input now = Ok p) inputs ps ∧
  NoDup ((λ p, d_job (pc_definition p)) <$> ps) ∧ (∀ p, p ∈ ps → d_job (pc_definition p) ∉ seen).
Proof.
  revert seen first ps. induction inputs as [|input inputs IH]; intros seen first ps; cbn [prepareMany].
  { intros [= <-]. split_and!; [constructor|constructor|]. intros p Hp. by apply not_elem_of_nil in Hp. }
  intros (p & Hp & H)%res_bind_Ok. case_bool_decide as Hseen; [done|].
  destruct (match first with None => _ | Some _ => _ end); [done|].
  apply res_bind_Ok in H as (rest & (Hall & Hnd & Hnot)%IH & [= <-]). split; [by constructor|]. split.
  - rewrite fmap_cons. constructor; [|done]. intros (q & Hq & Hin)%list_elem_of_fmap. apply Hnot in Hin. rewrite <- Hq in Hin. set_solver.
  - intros q [->|Hq]%elem_of_cons; [done|]. apply Hnot in Hq. set_solver.
Qed.

Lemma lockSources_Ok keys d u d' : lockSources keys d = Ok (u, d') → d' = d ∧ ∀ k, k ∈ keys → is_Some (source_settings d !! k).
Proof.
  induction keys as [|key keys IH]; cbn [lockSources].
  { intros [= _ <-]. split; [done|]. intros k Hk. by apply not_elem_of_nil in Hk. }
  intros (row & d1 & [= <- <-] & H)%tx_bind_Ok. destruct (source_settings d !! key) eqn:E; [|done].
  apply IH in H as [-> Hall]. split; [done|]. intros k [->|Hk]%elem_of_cons; [by rewrite E|auto].
Qed.

Lemma CreateMany_Ok now inputs d result d' : CreateMany now inputs d = Ok (result, d') →
  ∃ ps, prepareMany now [] None inputs = Ok ps ∧ createEach now ps (mkCreateMany [] []) d = Ok (result, d') ∧
    ∀ p, p ∈ ps → is_Some (source_settings d !! d_job (pc_definition p)).
Proof.
  unfold CreateMany. destruct inputs as [|input inputs]; [done|].
  intros (ps & ? & (? & Hps & [= <- ->])%tx_lift_Ok & H)%tx_bind_Ok.
  apply tx_bind_Ok in H as (u & d1 & [-> Hsrc]%lockSources_Ok & H). exists ps. split; [done|]. split; [done|].
  intros p Hp. apply Hsrc. rewrite sort_by_Permutation. apply list_elem_of_fmap. by exists p.
Qed.

Lemma Forall2_in {A B} (P : A → B → Prop) l k : Forall2 P l k →
  (∀ x, x ∈ l → ∃ y, y ∈ k ∧ P x y) ∧ (∀ y, y ∈ k → ∃ x, x ∈ l ∧ P x y).
Proof.
  induction 1 as [|x y l k Hxy _ [IHl IHk]]; [by split; intros x Hx%not_elem_of_nil|]. split.
  - intros z [->|Hz]%elem_of_cons; [exists y; split; [left|done]|]. destruct (IHl z Hz) as (w & ? & ?). exists w. split; [by right|done].
  - intros z [->|Hz]%elem_of_cons; [exists x; split; [left|done]|]. destruct (IHk z Hz) as (w & ? & ?). exists w. split; [by right|done].
Qed.

(** Creating schedules in bulk is idempotent: a committed call only adds
    rows; each schedule it reports as created is stored under a fresh
    identifier with revision 1, the definition, state and future cursor that
    were asked, for an input that had no live schedule of its job,
    expression and time zone; and the same call made again, at any later
    time, creates nothing and leaves the database as it is.  A failed call
    changes nothing. *)
Theorem CreateMany_once : ∀ now inputs d, sched_ok d →
  match runTx (CreateMany now inputs) d with
  | (Err _, d') => d' = d
  | (Ok result, d') =>
      schedules d ⊆ schedules d' ∧
      (∀ s, s ∈ Created result → schedules d !! ID s = None ∧ ∃ input p row, input ∈ inputs ∧
         prepareCreate input now = Ok p ∧ s_definition s = pc_definition p ∧ ¬ present d (pc_definition p) ∧
         schedules d' !! ID s = Some row ∧ sch_definition row = columns_of (pc_definition p) ∧ sch_revision row = 1 ∧
         sch_enabled row = ci_enabled input ∧
         if ci_enabled input then ∃ next, next_run_at row = Some next ∧ now < next else next_run_at row = None) ∧
      ∀ later again d2, runTx (CreateMany later inputs) d' = (Ok again, d2) → Created again = [] ∧ d2 = d'
  end.
Proof.
  intros now inputs d Hd. unfold runTx. destruct (CreateMany now inputs d) as [[result d']|e] eqn:H; [|done].
  apply CreateMany_Ok in H as (ps & [Hall _]%prepareMany_Ok & H & _).
  destruct (createEach_Ok _ _ _ _ _ _ Hd H) as (Hsub & Hpres & new & Hnew & Hcreated). cbn in Hnew.
  split; [done|]. split.
  - rewrite Hnew. intros s Hs. destruct (Hcreated s Hs) as (Hf & p & row & Hp & Hsv & Hnot & Hrow & Hdef & Hen & Hnext & Hrev).
    split; [done|]. destruct (proj2 (Forall2_in _ _ _ Hall) p Hp) as (input & Hin & Hprep).
    destruct (prepareCreate_Ok _ _ _ Hprep) as (_ & Een & Hcur). exists input, p, row.
    split; [done|]. split; [done|]. split; [by rewrite Hsv|]. do 3 (split; [done|]). split; [done|].
    rewrite Hen, Hnext. split; done.
  - intros later again d2. destruct (CreateMany later inputs d') as [[again' d2']|e] eqn:H2; [|done]. intros [= <- <-].
    apply CreateMany_Ok in H2 as (qs & [Hall2 _]%prepareMany_Ok & H2 & _).
    destruct (createEach_present later qs (mkCreateMany [] []) d') as [ex E]; [|rewrite E in H2; by injection H2 as <- <-].
    intros q Hq. destruct (proj2 (Forall2_in _ _ _ Hall2) q Hq) as (input & Hin & Hq').
    destruct (proj1 (Forall2_in _ _ _ Hall) input Hin) as (p & Hp & Hp').
    destruct (prepareCreate_Ok _ _ _ Hp') as ([= E1 E2 E3] & _). destruct (prepareCreate_Ok _ _ _ Hq') as ([= E4 E5 E6] & _).
    destruct (Hpres p Hp) as (i & row & Hrow & Hex). exists i, row. split; [done|]. unfold existing_for in *.
    by rewrite E4, E5, E6, <- E1, <- E2, <- E3.
Qed.
End Changes.

(** ** Witnesses *)

Lemma change_fenced_witness : ∃ value d' s',
  apply_change 7 1 3 (Some 1) None (ChStop false) (sample_scheduler (sample_run StatusQueued None)) = (Ok value, d') ∧
  value = schedule_value s' ∧ sch_revision s' = 4 ∧ sch_enabled s' = false ∧ idle 1 d'.
Proof.
  pose proof (change_fenced 7 1 3 (Some 1) None (ChStop false) _ (sample_scheduler_ok StatusQueued None)) as H.
  cbn [schedules sample_scheduler] in H. rewrite lookup_singleton_eq in H. cbn [sch_revision sample_schedule Z.eqb Pos.eqb] in H.
  assert (L : match apply_change 7 1 3 (Some 1) None (ChStop false) (sample_scheduler (sample_run StatusQueued None)) with (Ok _, _) => True | _ => False end)
    by (vm_compute; exact I).
  destruct (apply_change _ _ _ _ _ _ _) as [[value|e] d'] eqn:E; [|destruct L].
  destruct H as (s' & Hv & _ & Hr & Hen & _ & _ & _ & Hidle). exists value, d', s'.
  exact (conj eq_refl (conj Hv (conj Hr (conj Hen Hidle)))).
Defined.

Lemma BulkState_outcome_witness : ∃ d' s',
  runTx (BulkState 7 [1; 1] BulkArchive (Some 1) None) (sample_scheduler (sample_run StatusQueued None)) = (Ok (mkBulk 1 1 0), d') ∧
  schedules d' !! 1 = Some s' ∧ archived_at s' = Some 7.
Proof.
  pose proof (BulkState_outcome 7 [1; 1] BulkArchive (Some 1) None _ (sample_scheduler_ok StatusQueued None)) as H.
  assert (L : match runTx (BulkState 7 [1; 1] BulkArchive (Some 1) None) (sample_scheduler (sample_run StatusQueued None)) with
    | (Ok r, _) => r = mkBulk 1 1 0 | _ => False end) by (vm_compute; reflexivity).
  destruct (runTx _ _) as [[r|e] d'] eqn:E; [|destruct L]. subst r.
  destruct H as (ids & Hids & _ & _ & _ & _ & Hin). vm_compute in Hids. injection Hids as <-.
  destruct (Hin 1 ltac:(left)) as (s & s' & _ & Hs' & _ & _ & _ & _ & _ & Ha & _). exists d', s'.
  exact (conj eq_refl (conj Hs' Ha)).
Defined.

Definition sample_inputs : list CreateInput := [mkCreateInput sample_definition true (Some 1) None].
Definition sample_empty : db :=
  mkDb {[ 1 ]} (Some (mkRuntimeSettings 2 4 3)) {[ "cif_detail" := mkSource true (Some 1) ]} {[ 1 := "active" ]} ∅ 1 ∅ 1 ∅ 1 ∅ 1 [].
Lemma sample_empty_ok : sched_ok sample_empty.
Proof.
  split; [apply schema_b_sound; vm_compute; reflexivity| |intros i o Ho; done].
  by split.
Qed.

Lemma CreateMany_once_witness : ∃ result d',
  runTx (CreateMany 5 sample_inputs) sample_empty = (Ok result, d') ∧ length (Created result) = 1%nat ∧
  ∀ again d2, runTx (CreateMany hour sample_inputs) d' = (Ok again, d2) → Created again = [] ∧ d2 = d'.
Proof.
  pose proof (CreateMany_once 5 sample_inputs _ sample_empty_ok) as H.
  assert (L : match runTx (CreateMany 5 sample_inputs) sample_empty with (Ok r, _) => length (Created r) | _ => 0%nat end = 1%nat)
    by (vm_compute; reflexivity).
  destruct (runTx _ _) as [[r|e] d'] eqn:E; [|discriminate L]. destruct H as (_ & _ & H).
  exists r, d'. split; [reflexivity|]. split; [exact L|]. intros again d2. apply H.
Defined.
