(* ===== verification/Coordinator.v ===== *)
(** * The coordinator (src/internal/coordinator/coordinator.go)

    One process that executes runs: it registers the Run All parents it owns,
    executes claimed runs under a heartbeat, recovers silent owners and
    reconciles its parents.  Its own state is the two maps guarded by [mu];
    everything else is in the database.  Executing a run
    ([runExecutor.Execute]) is a parameter: the outcome it reports and what it
    does to the database. *)

From S2P Require Import Prelude Calendar Json Hash Catalog Params Access AuditTrail Table Store Schema DetailShapes Diagnostics Runs RunLifecycle RunAll.

Open Scope Z_scope.

(** ** State *)

(** [local] holds the executing runs, each with the cause its context was
    cancelled with, if any; [parents] the owned Run All parents with the
    owner identity. *)
Record Coordinator := mkCoordinator { local : gmap Z (option error); parents : gmap Z string }.

Definition ingestionHeartbeatInterval : Z := 5 * second.
Definition ingestionLease : Z := 2 * minute.
Definition ingestionRecoveryInterval : Z := 40 * second.
Definition ingestionRecoveryBatch : nat := 256.

(** [context.CancelCauseFunc]: the first cause stays. *)
Definition cancel_cause (cause : error) (c : option error) : option error :=
  match c with Some _ => c | None => Some cause end.
Definition stop_local (id : Z) (cause : error) (c : Coordinator) : Coordinator :=
  mkCoordinator (alter (cancel_cause cause) id (local c)) (parents c).
Definition set_local (f : gmap Z (option error) → gmap Z (option error)) (c : Coordinator) : Coordinator :=
  mkCoordinator (f (local c)) (parents c).
Definition set_parents (f : gmap Z string → gmap Z string) (c : Coordinator) : Coordinator :=
  mkCoordinator (local c) (f (parents c)).

(** ** Submission and cancellation *)

Definition registerParent (id : Z) (d : db) (c : Coordinator) : Coordinator :=
  match getRun id d with
  | Ok (run, _) =>
      if negb (bool_decide (RunKind run = KindRunAllParent)) || negb (bool_decide (RunStatus run = StatusRunning)) ||
         (OwnerID run =? "")%string
      then c else set_parents (insert id (OwnerID run)) c
  | Err _ => c
  end.

(** [SubmitRunAll] and [SubmitRunAllManual]. *)
Definition submitted (m : Tx db Z) (c : Coordinator) (d : db) : result Z * Coordinator * db :=
  match runTx m d with
  | (Ok id, d') => (Ok id, registerParent id d' c, d')
  | (Err e, d') => (Err e, c, d')
  end.
Definition SubmitRunAll (now : instant) (owner : string) (from to : CalendarDate) (trigger : Trigger) (reference : string)
    (requester : option Z) : Coordinator → db → result Z * Coordinator * db :=
  submitted (CreateRunAll now owner from to trigger reference requester).
Definition SubmitRunAllManual (now : instant) (owner : string) (from to : CalendarDate) (trigger : Trigger)
    (reference : string) (requester : Requester) : Coordinator → db → result Z * Coordinator * db :=
  submitted (CreateRunAllManual now owner from to trigger reference requester).

Definition Cancel (now : instant) (runID : Z) (reason : string) (requester : Requester) (d : db) : result unit * db :=
  match runTx (RequestCancellation now runID reason requester) d with
  | (Ok applied, d') => (if applied then Ok tt else Err ErrTransition, d')
  | (Err e, d') => (Err e, d')
  end.

(** ** The heartbeat *)

(** One tick: the local time when the call returns, and its answer. *)
Record beat := mkBeat { beat_time : Z; beat_answer : result (bool * bool) }.

(** One turn of the loop: the cause to stop with, or the time of the last
    proof of ownership. *)
Definition heartbeat_turn (lastProof : Z) (b : beat) : error + Z :=
  match beat_answer b with
  | Err _ => if ingestionLease <=? beat_time b - lastProof then inl ErrLeaseUnproven else inr lastProof
  | Ok (false, _) => inl ErrOwnershipLost
  | Ok (true, cancelRequested) => if cancelRequested then inl ErrCancellationRequested else inr (beat_time b)
  end.

(** The loop over the ticks until the run's context is done; [None] when it
    ended for that reason. *)
Fixpoint heartbeat (lastProof : Z) (ticks : list beat) : option error :=
  match ticks with
  | [] => None
  | b :: ticks =>
      match heartbeat_turn lastProof b with
      | inl cause => Some cause
      | inr lastProof => heartbeat lastProof ticks
      end
  end.

(** ** Reconciling parents *)

(** One iteration of a loop over transactions: the time of the transaction
    and what other connections committed before it. *)
Record round := mkRound { round_now : instant; round_race : db → db }.

Definition drop_parent (id : Z) (owner : string) (c : Coordinator) : Coordinator :=
  if bool_decide (parents c !! id = Some owner) then set_parents (delete id) c else c.

(** The loop of [reconcileParent]; [None] when the rounds run out. *)
Fixpoint reconcileParent (rounds : list round) (id : Z) (owner : string) (c : Coordinator) (d : db)
    : option (Coordinator * db) :=
  match rounds with
  | [] => None
  | r :: rounds =>
      match runTx (ReconcileParent (round_now r) id owner) (round_race r d) with
      | (Err e, d') => Some (if bool_decide (e = ErrOwnershipLost) then drop_parent id owner c else c, d')
      | (Ok changed, d') => if changed then reconcileParent rounds id owner c d' else Some (c, d')
      end
  end.

Definition reconcileOwnedParent (rounds : list round) (id : Z) (c : Coordinator) (d : db) : option (Coordinator * db) :=
  match parents c !! id with
  | Some owner => if (owner =? "")%string then Some (c, d) else reconcileParent rounds id owner c d
  | None => Some (c, d)
  end.

(** [reconcileOwnedParents]: the snapshot of the map, in the order the range
    statement visits it. *)
Fixpoint reconcile_each (rounds : Z → list round) (snapshot : list (Z * string)) (c : Coordinator) (d : db)
    : option (Coordinator * db) :=
  match snapshot with
  | [] => Some (c, d)
  | (id, owner) :: snapshot =>
      match reconcileParent (rounds id) id owner c d with
      | Some (c', d') => reconcile_each rounds snapshot c' d'
      | None => None
      end
  end.
Definition reconcileOwnedParents (rounds : Z → list round) (order : list (Z * string)) (c : Coordinator) (d : db)
    : option (Coordinator * db) :=
  if decide (order ≡ₚ map_to_list (parents c)) then reconcile_each rounds order c d else None.

(** ** Executing a claimed run *)

Definition cancelled_error : SafeError := mkSafeError (Some "cancelled") (Some "run cancellation requested") (Some "finish").

(** The two finish calls after an execution; [race] is what happens between
    them. *)
Definition finishExecuted (now now' : instant) (race : db → db) (runID : Z) (owner : string)
    (status : Status) (safeError : SafeError) (d : db) : result unit * db :=
  match runTx (Finish now runID owner status safeError) d with
  | (Err e, d') =>
      if bool_decide (e = ErrTransition) && bool_decide (status = StatusSucceeded)
      then runTx (Finish now' runID owner StatusCancelled cancelled_error) (race d')
      else (Err e, d')
  | (Ok u, d') => (Ok u, d')
  end.

(** [executeClaimedRun]: [work] is what [Execute] and everything running
    meanwhile commits, [status] and [safeError] its result. *)
Definition executeClaimedRun (now now' : instant) (work race : db → db) (status : Status) (safeError : SafeError)
    (rounds : list round) (run : Run) (attemptOwner : string) (c : Coordinator) (d : db) : option (Coordinator * db) :=
  let c := set_local (insert (ID run) None) c in
  let d := work d in
  let c := set_local (delete (ID run)) c in
  let d := snd (finishExecuted now now' race (ID run) attemptOwner status safeError d) in
  match ParentRunID run with
  | Some parent => reconcileOwnedParent rounds parent c d
  | None => Some (c, d)
  end.

(** ** Recovering silent owners *)

(** One iteration of [recoverStaleSweep]: the fresh owner identity, if one
    could be drawn, and the transactions of [RecoverOneStale]. *)
Record recovery_round := mkRecoveryRound { rr_owner : option string; rr_now : instant; rr_races : list (db → db) }.

(** What the coordinator notes about a recovered run. *)
Definition note_recovery (found : Recovery) (c : Coordinator) : Coordinator :=
  let c := if bool_decide (rec_kind found = KindRunAllParent)
           then set_parents (insert (rec_run found) (rec_new_owner found)) c else c in
  stop_local (rec_run found) ErrOwnershipLost c.

(** The loop: at most [batch] recoveries; [None] when the given rounds run
    out. *)
Fixpoint recover_sweep (batch : nat) (rounds : list recovery_round) (found : list Recovery) (c : Coordinator) (d : db)
    : option (list Recovery * Coordinator * db) :=
  match batch with
  | O => Some (found, c, d)
  | S batch =>
      match rounds with
      | [] => None
      | r :: rounds =>
          match rr_owner r with
          | None => Some (found, c, d)
          | Some owner =>
              match RecoverOneStale (rr_now r) ingestionLease (rr_races r) owner d with
              | None => None
              | Some (Err _, d') => Some (found, c, d')
              | Some (Ok None, d') => Some (found, c, d')
              | Some (Ok (Some recovery), d') =>
                  recover_sweep batch rounds (found ++ [recovery]) (note_recovery recovery c) d'
              end
          end
      end
  end.

(** [recoverStaleSweep]; the deferred [reconcileOwnedParents] runs last. *)
Definition recoverStaleSweep (rounds : list recovery_round) (reconciliations : Z → list round) (order : list (Z * string))
    (c : Coordinator) (d : db) : option (Z * Coordinator * db) :=
  match recover_sweep ingestionRecoveryBatch rounds [] c d with
  | Some (found, c', d') =>
      match reconcileOwnedParents reconciliations order c' d' with
      | Some (c'', d'') => Some (Z.of_nat (length found), c'', d'')
      | None => None
      end
  | None => None
  end.

(** ** Lemmas *)

(** What a heartbeat reaching the database answers. *)
Lemma Heartbeat_answer now id owner d : schema d →
  fst (runTx (Heartbeat now id owner) d) =
  Ok (owned_at d id owner,
      owned_at d id owner && match ingestion_runs d !! id with Some r => isSome (cancel_requested_at r) | None => false end).
Proof.
  intros Hd. unfold runTx, Heartbeat, owned_at.
  destruct (ingestion_runs d !! id) as [r|] eqn:Hr.
  2:{ erewrite tx_bind_eq by (apply update_run_skips; congruence). unfold tx_bind, tx_gets. by rewrite Hr. }
  destruct (executable (run_kind r) && owned_by owner r) eqn:Hc.
  - apply andb_true_iff in Hc as Hc'. destruct Hc' as [_ Ho].
    erewrite tx_bind_eq by (apply (update_run_applies d id r); [done|done|exact Hc|split; [done|split; [done|by right]]]).
    unfold tx_bind, tx_gets. cbn. rewrite lookup_insert_eq.
    change (owned_by owner (set_heartbeat_at (Some now) r)) with (owned_by owner r). rewrite Ho. done.
  - erewrite tx_bind_eq by (apply update_run_skips; intros s Hs; rewrite Hr in Hs; injection Hs as <-; exact Hc).
    unfold tx_bind, tx_gets. rewrite Hr. by destruct (owned_by owner r).
Qed.

(** A running job stays with its owner until it is finished. *)
Lemma owned_job_rest d d' id owner r : schema d → rtc repository_step d d' → ingestion_runs d !! id = Some r →
  executable (run_kind r) = true → owned_by owner r = true →
  ∃ r', ingestion_runs d' !! id = Some r' ∧ run_identity r' = run_identity r ∧
    (owned_by owner r' = true ∨ IsTerminal (run_status r') = true).
Proof.
  intros Hd Hs Hr Hk [Hrun Ho]%owned_split.
  destruct (l_rows _ _ (reachable_lifecycle d d' Hd Hs) id r Hr) as (r' & Hr' & Hi & Hm & _ & Hkeep).
  exists r'. split; [done|]. split; [done|]. rewrite Hrun in Hm.
  destruct (IsTerminal (run_status r')) eqn:Ht; [by right|left].
  assert (run_status r' = StatusRunning) as Hrun' by (by destruct (run_status r')).
  unfold owned_by, has_status. rewrite Hrun', (Hkeep Hk Hrun Hrun'), Ho. by rewrite !bool_decide_eq_true_2.
Qed.

(** [Finish] with one of the three outcomes of an execution. *)
Definition outcome (status : Status) : Prop :=
  status = StatusSucceeded ∨ status = StatusFailed ∨ status = StatusCancelled.

Lemma Finish_outcome now id owner status error d : schema d → outcome status →
  Finish now id owner status error d =
  match ingestion_runs d !! id with
  | Some r =>
      if owned_by owner r && (if bool_decide (status = StatusSucceeded) then negb (isSome (cancel_requested_at r)) else true)
      then Ok (tt, with_run id (finished now status error r) d)
      else Err ErrTransition
  | None => Err ErrTransition
  end.
Proof.
  intros Hd Hs. transitivity (finish now id owner status error d); [by destruct Hs as [->|[->| ->]]|].
  apply finish_outcome; [done|]. by destruct Hs as [->|[->| ->]].
Qed.

Lemma Finish_step now id owner status error d : rtc repository_step d (snd (runTx (Finish now id owner status error) d)).
Proof.
  unfold runTx. destruct (Finish now id owner status error d) as [[u d']|e] eqn:E; cbn; [|done].
  apply rtc_once. by eapply step_finish.
Qed.

Lemma finishExecuted_steps now now' race id owner status error d : (∀ d, rtc repository_step d (race d)) →
  rtc repository_step d (snd (finishExecuted now now' race id owner status error d)).
Proof.
  intros Hrace. unfold finishExecuted. pose proof (Finish_step now id owner status error d) as H1.
  destruct (runTx (Finish now id owner status error) d) as [[u|e] d']; [done|]. destruct (_ && _); [|done].
  etransitivity; [exact H1|]. etransitivity; [apply Hrace|]. apply Finish_step.
Qed.

(** After a finish call that is not a refused success, and so after the two
    finish calls, the run does not belong to the attempt. *)
Lemma Finish_settles now id owner status error d : schema d → outcome status →
  is_ok (fst (runTx (Finish now id owner status error) d)) = true ∨ status ≠ StatusSucceeded →
  owned_at (snd (runTx (Finish now id owner status error) d)) id owner = false.
Proof.
  intros Hd Hs Hok. unfold runTx in *. rewrite Finish_outcome in * by done. unfold owned_at.
  destruct (ingestion_runs d !! id) as [r|] eqn:Hr; cbn [snd]; [|by rewrite Hr].
  destruct (owned_by owner r && _) eqn:Hg; cbn [snd fst] in *.
  - cbn. rewrite lookup_insert_eq. unfold owned_by, has_status. cbn. by destruct Hs as [->|[->| ->]].
  - rewrite Hr. destruct Hok as [|Hne]; [done|]. by rewrite bool_decide_eq_false_2, andb_true_r in Hg.
Qed.

Lemma finishExecuted_settles now now' race id owner status error d : schema d → (∀ d, rtc repository_step d (race d)) →
  outcome status → owned_at (snd (finishExecuted now now' race id owner status error d)) id owner = false.
Proof.
  intros Hd Hrace Hs. unfold finishExecuted. pose proof (Finish_settles now id owner status error d Hd Hs) as H.
  pose proof (Finish_step now id owner status error d) as H1.
  destruct (runTx (Finish now id owner status error) d) as [[u|e] d'] eqn:E; cbn [fst snd is_ok] in *; [by apply H; left|].
  assert (He : e = ErrTransition).
  { unfold runTx in E. rewrite Finish_outcome in E by done. by repeat case_match; simplify_eq. }
  rewrite bool_decide_eq_true_2 by done. cbn [andb]. case_bool_decide as Es; [|by apply H; right].
  apply Finish_settles; [|right; by right|by right].
  apply (reachable_lifecycle d); [done|]. etransitivity; [exact H1|apply Hrace].
Qed.

(** *** Loops over transactions *)

Definition quiet_round (r : round) : Prop := ∀ d, round_race r d = d.
Definition reachable_round (r : round) : Prop := ∀ d, rtc repository_step d (round_race r d).

Lemma remaining_nonneg p d : 0 <= remaining p d.
Proof. unfold remaining, planned. pose proof (count_nonneg (planned_child p) (ingestion_runs d)). destruct (parent_running p d); cbn; lia. Qed.

(** Reconciling ends: each turn that goes on does one step of the remaining
    work. *)
Lemma reconcileParent_returns rounds id owner c d : schema d → Forall quiet_round rounds →
  remaining id d < Z.of_nat (length rounds) → is_Some (reconcileParent rounds id owner c d).
Proof.
  revert d. induction rounds as [|r rounds IH]; intros d Hd Hq Hlen.
  { pose proof (remaining_nonneg id d). cbn in Hlen. lia. }
  apply Forall_cons in Hq as [Hr Hq]. cbn [reconcileParent]. rewrite Hr. unfold runTx.
  destruct (ReconcileParent (round_now r) id owner d) as [[changed d']|e] eqn:E; [|by eexists].
  destruct changed; [|by eexists]. destruct (reconcile_true _ _ _ _ _ Hd E) as [Hd' Hrem].
  apply IH; [done|done|]. rewrite Hrem. cbn [length] in Hlen. lia.
Qed.

Lemma ReconcileParent_step now id owner d : rtc repository_step d (snd (runTx (ReconcileParent now id owner) d)).
Proof.
  unfold runTx. destruct (ReconcileParent now id owner d) as [[b d']|e] eqn:E; cbn; [|done].
  unfold ReconcileParent in E. destruct (_ || _); [done|]. apply rtc_once. by eapply step_reconcile.
Qed.

Lemma reconcileParent_steps rounds id owner c d c' d' : Forall reachable_round rounds →
  reconcileParent rounds id owner c d = Some (c', d') → rtc repository_step d d' ∧ local c' = local c.
Proof.
  revert d. induction rounds as [|r rounds IH]; intros d Hq; cbn [reconcileParent]; [done|].
  apply Forall_cons in Hq as [Hr Hq]. pose proof (ReconcileParent_step (round_now r) id owner (round_race r d)) as H1.
  specialize (Hr d). destruct (runTx _ _) as [[[]|e] d1]; cbn [snd] in H1.
  - intros [? ?]%IH; [|done]. split; [|done]. etransitivity; [exact Hr|]. by etransitivity.
  - intros [= <- <-]. split; [by etransitivity|done].
  - intros [= <- <-]. split; [by etransitivity|]. unfold drop_parent. by repeat case_match.
Qed.

Lemma reconcileOwnedParent_steps rounds id c d c' d' : Forall reachable_round rounds →
  reconcileOwnedParent rounds id c d = Some (c', d') → rtc repository_step d d' ∧ local c' = local c.
Proof.
  intros Hq. unfold reconcileOwnedParent. destruct (parents c !! id) as [owner|]; [|by intros [= <- <-]].
  destruct (owner =? "")%string; [by intros [= <- <-]|]. by apply reconcileParent_steps.
Qed.

(** ** Properties *)


(** The heartbeat of run [id]: when a call reaches the database, [d] at time
    [now], its answer is the database's; otherwise it is an error. *)
Definition contact := (Z * option (instant * db))%type.
Definition beat_of (id : Z) (owner : string) (b : contact) : beat :=
  mkBeat b.1 (match b.2 with
              | Some (now, d) => fst (runTx (Heartbeat now id owner) d)
              | None => Err (Errorf "context deadline exceeded")
              end).
Definition requested_at (d : db) (id : Z) : bool :=
  match ingestion_runs d !! id with Some r => isSome (cancel_requested_at r) | None => false end.
(** The last time the loop was told that it owns the run. *)
Definition last_proof (start : Z) (pre : list contact) : Z :=
  foldl (λ proof (b : contact), if isSome b.2 then b.1 else proof) start pre.

(** The loop goes on after a tick; the cause it stops with otherwise. *)
Definition goes_on (id : Z) (owner : string) (proof : Z) (b : contact) : Prop :=
  match b.2 with
  | Some (_, d) => owned_at d id owner = true ∧ requested_at d id = false
  | None => b.1 - proof < ingestionLease
  end.
Definition stops_with (id : Z) (owner : string) (proof : Z) (b : contact) (cause : error) : Prop :=
  match b.2 with
  | Some (_, d) => if owned_at d id owner then requested_at d id = true ∧ cause = ErrCancellationRequested
                   else cause = ErrOwnershipLost
  | None => ingestionLease <= b.1 - proof ∧ cause = ErrLeaseUnproven
  end.

Definition contact_ok (b : contact) : Prop := match b.2 with Some (_, d) => schema d | None => True end.

Lemma heartbeat_turn_spec id owner proof b : contact_ok b →
  match heartbeat_turn proof (beat_of id owner b) with
  | inl cause => stops_with id owner proof b cause
  | inr proof' => goes_on id owner proof b ∧ proof' = if isSome b.2 then b.1 else proof
  end.
Proof.
  destruct b as [t [[now d]|]]; unfold contact_ok, heartbeat_turn, goes_on, stops_with; cbn [beat_of beat_time beat_answer fst snd].
  - intros Hd. rewrite Heartbeat_answer by done. fold (requested_at d id).
    destruct (owned_at d id owner); cbn [andb]; [|done]. by destruct (requested_at d id).
  - intros _. by destruct (Z.leb_spec ingestionLease (t - proof)).
Qed.

(** The heartbeat stops a run that must not go on, and no other: while it
    keeps the run alive, every call that reached the database found the run
    owned and not asked to stop, and calls that failed did so within the
    lease after the last proof; it stops at the first tick where this does
    not hold, with the cause for it. *)
Theorem heartbeat_watches : ∀ id owner start beats, Forall contact_ok beats →
  match heartbeat start (beat_of id owner <$> beats) with
  | None => ∀ pre b post, beats = pre ++ b :: post → goes_on id owner (last_proof start pre) b
  | Some cause => ∃ pre b post, beats = pre ++ b :: post ∧
      stops_with id owner (last_proof start pre) b cause ∧
      ∀ pre1 b1 post1, pre = pre1 ++ b1 :: post1 → goes_on id owner (last_proof start pre1) b1
  end.
Proof.
  intros id owner start beats. revert start. induction beats as [|b beats IH]; intros start; cbn [fmap list_fmap heartbeat].
  { intros _ pre b post He. by destruct pre. }
  intros [Hb Hok]%Forall_cons. pose proof (heartbeat_turn_spec id owner start b Hb) as Ht.
  destruct (heartbeat_turn start (beat_of id owner b)) as [cause|proof].
  { exists [], b, beats. split; [done|]. split; [exact Ht|]. intros pre1 b1 post1 He. by destruct pre1. }
  destruct Ht as [Hgo ->]. specialize (IH (if isSome b.2 then b.1 else start) Hok).
  assert (Hcons : ∀ pre b1 (post l : list contact), b :: l = pre ++ b1 :: post →
    (∀ pre' b1' post', l = pre' ++ b1' :: post' → goes_on id owner (last_proof (if isSome b.2 then b.1 else start) pre') b1') →
    goes_on id owner (last_proof start pre) b1).
  { intros [|b0 pre] b1 post l [= -> ->] H; [exact Hgo|]. by eapply H. }
  destruct (heartbeat _ _) as [cause|].
  - destruct IH as (pre & b' & post & -> & Hstop & Hall). exists (b :: pre), b', post. split; [done|]. split; [exact Hstop|].
    intros pre1 b1 post1 He. by eapply Hcons.
  - intros pre b1 post He. by eapply Hcons.
Qed.

(** *** Reconciling *)

(** A transaction that leaves sources alone and keeps the identity and owner
    of every run it leaves behind. *)
Definition touched (d d' : db) : Prop :=
  source_settings d' = source_settings d ∧
  ∀ i x', ingestion_runs d' !! i = Some x' → ∃ x, ingestion_runs d !! i = Some x ∧
    run_identity x' = run_identity x ∧ owner_id x' = owner_id x.
Definition touches {A} (m : Tx db A) : Prop := ∀ d a d', m d = Ok (a, d') → touched d d'.

Lemma touched_refl d : touched d d.
Proof. split; eauto. Qed.
Lemma touches_readonly {A} (m : Tx db A) : readonly m → touches m.
Proof. intros Hm d a d' H. rewrite (Hm _ _ _ H). apply touched_refl. Qed.
Lemma touches_ret {A} (a : A) : touches (tx_ret a).
Proof. apply touches_readonly. by intros d x d' [= _ <-]. Qed.
Lemma touches_fail {A} e : touches (@tx_fail db A e).
Proof. by intros d a d'. Qed.
Lemma touches_gets {A} (f : db → A) : touches (tx_gets f).
Proof. apply touches_readonly. by intros d x d' [= _ <-]. Qed.
Lemma touches_bind {A B} (m : Tx db A) (k : A → Tx db B) : touches m → (∀ a, touches (k a)) → touches (tx_bind m k).
Proof.
  intros Hm Hk d b d' (a & d1 & H1 & H2)%tx_bind_Ok. destruct (Hm _ _ _ H1) as [E1 I1], (Hk a _ _ _ H2) as [E2 I2].
  split; [congruence|]. intros i x' Hx'. destruct (I2 i x' Hx') as (x1 & Hx1 & ? & ?), (I1 i x1 Hx1) as (x & ? & ? & ?).
  exists x. split; [done|]. split; congruence.
Qed.
Lemma touches_try {A} (m : Tx db A) : touches m → touches (tx_try m).
Proof.
  intros Hm d a d'. unfold tx_try. destruct (m d) as [[x d1]|e] eqn:E; intros [= _ <-]; [by eapply Hm|apply touched_refl].
Qed.
Lemma touches_update id cond set : (∀ r, run_identity (set r) = run_identity r) → (∀ r, owner_id (set r) = owner_id r) →
  touches (update_run id cond set).
Proof.
  intros Hi Ho d n d' [(_ & r & Hr & _ & _ & _ & ->)|(_ & -> & _)]%update_one_Ok; [|apply touched_refl].
  split; [done|]. cbn. intros i x' [[<- <-]|[_ Hx]]%lookup_insert_Some; eauto.
Qed.

Lemma touches_ReconcileParent now p owner : touches (ReconcileParent now p owner).
Proof.
  unfold ReconcileParent. destruct (_ || _); [apply touches_fail|]. unfold reconcileParentTransaction.
  repeat first
    [ apply touches_ret | apply touches_fail | apply touches_gets | apply touches_update; [done|done]
    | apply touches_try
    | progress unfold finish_parent, advance_child, skip_child, sourceEnabled, aggregateParentStatus
    | apply touches_bind; [|intros ?]
    | match goal with |- touches (match ?x with _ => _ end) => destruct x end ].
Qed.

(** A parent that is not running under the owner is not found. *)
Lemma ReconcileParent_lost now p owner d r : schema d → ingestion_runs d !! p = Some r → owned_by owner r = false →
  String.length owner = 64%nat → ReconcileParent now p owner d = Err ErrOwnershipLost.
Proof.
  intros Hd Hr Ho Hlen. destruct (t_ids _ _ _ _ _ (runs_ok d Hd) _ _ Hr) as [_ Hpos].
  unfold ReconcileParent. rewrite (proj2 (Z.eqb_neq p 0)) by lia. rewrite Hlen. cbn [Nat.eqb negb orb].
  unfold reconcileParentTransaction. rewrite (tx_bind_eq _ _ d None d).
  - by rewrite (proj2 (Z.eqb_neq p 0)) by lia.
  - unfold tx_gets, find_parent. rewrite (proj2 (Z.eqb_neq p 0)) by lia. cbn [negb]. by rewrite Hr, Ho, andb_false_r.
Qed.

(** Reconciling a Run All ends and leaves nothing to do: with enough
    turns and no interference the loop over the owned parent returns; then
    either a child is queued or running and the parent still runs under this
    owner, or the parent is finished and no longer registered. *)
Theorem reconcileParent_settles : ∀ rounds p owner c d r, schema d →
  ingestion_runs d !! p = Some r → run_kind r = KindRunAllParent → owned_by owner r = true →
  String.length owner = 64%nat → parents c !! p = Some owner → Forall quiet_round rounds →
  (∀ i x, ingestion_runs d !! i = Some x → child_of p x = true →
     is_Some (source_settings d !! or_empty (run_job_key x))) →
  remaining p d + 1 < Z.of_nat (length rounds) →
  ∃ c' d' r', reconcileParent rounds p owner c d = Some (c', d') ∧ rtc repository_step d d' ∧
    ingestion_runs d' !! p = Some r' ∧
    (0 < actives p d' ∧ run_status r' = StatusRunning ∧ owner_id r' = Some owner ∧ parents c' = parents c ∨
     actives p d' = 0 ∧ IsTerminal (run_status r') = true ∧ parents c' = delete p (parents c)).
Proof.
  induction rounds as [|rd rounds IH]; intros p owner c d r Hd Hr Hk Ho Hlen Hpar Hq Hsrc Hrem.
  { pose proof (remaining_nonneg p d). cbn in Hrem. lia. }
  apply Forall_cons in Hq as [Hrd Hq]. cbn [reconcileParent length] in *. rewrite Hrd. unfold runTx.
  destruct (owned_split _ _ Ho) as [Hrun Hown].
  destruct (reconcile_cases (round_now rd) p owner d r Hd Hr Hk Ho Hlen) as [(ch & d1 & r1 & E & Hr1 & Hch & Hre & Hst & Hact)|(_ & i & x & Hx & Hcx & Hn)].
  2:{ destruct (Hsrc i x Hx Hcx) as [? ?]. congruence. }
  rewrite E. pose proof (ReconcileParent_step (round_now rd) p owner d) as S1. unfold runTx in S1. rewrite E in S1. cbn in S1.
  pose proof (touches_ReconcileParent _ _ _ _ _ _ E) as [Es Et].
  destruct (Et p r1 Hr1) as (r0 & Hr0 & Hi1 & Ho1). assert (r0 = r) as -> by congruence.
  destruct ch.
  2:{ exists c, d1, r1. do 3 (split; [done|]). left. pose proof (proj1 Hch eq_refl) as Hpos.
      rewrite Hact. rewrite (proj2 (Z.ltb_lt 0 _) Hpos) in Hst. split_and!; congruence || done. }
  assert (Hd1 : schema d1) by (by apply (reachable_lifecycle d)).
  destruct (IsTerminal (run_status r1)) eqn:Ht.
  - destruct rounds as [|rd2 rounds]; [pose proof (remaining_nonneg p d1); cbn [length one_if] in *; lia|].
    apply Forall_cons in Hq as [Hrd2 Hq]. cbn [reconcileParent]. rewrite Hrd2. unfold runTx.
    rewrite (ReconcileParent_lost _ p owner d1 r1) by (done || (unfold owned_by, has_status; by destruct (run_status r1))).
    rewrite bool_decide_eq_true_2 by done. unfold drop_parent. rewrite Hpar, bool_decide_eq_true_2 by done.
    exists (set_parents (delete p) c), d1, r1. do 3 (split; [done|]). right. split; [auto|done].
  - assert (Hrun1 : run_status r1 = StatusRunning).
    { rewrite Hst in Ht |- *. repeat case_match; try done. unfold parent_status in *. by repeat case_match. }
    destruct (IH p owner c d1 r1) as (c' & d' & r' & ? & ? & ? & ?); try done.
    + unfold run_identity in Hi1. congruence.
    + unfold owned_by, has_status. rewrite Hrun1, Ho1, Hown. by rewrite !bool_decide_eq_true_2.
    + intros i x' Hx' Hcx'. destruct (Et i x' Hx') as (x & Hx & Hi & _). rewrite Es. unfold run_identity in Hi.
      assert (run_job_key x' = run_job_key x ∧ parent_run_id x' = parent_run_id x) as [-> Hp] by (split; congruence).
      apply (Hsrc i x Hx). unfold child_of in *. by rewrite <- Hp.
    + cbn [one_if] in Hre. lia.
    + exists c', d', r'. split; [done|]. split; [by etransitivity|]. done.
Qed.

(** *** Recovery *)

(** A round without interference whose owner identity could be drawn. *)
Definition quiet_recovery (r : recovery_round) : Prop :=
  rr_races r = [id] ∧ ∃ owner, rr_owner r = Some owner ∧ String.length owner = 64%nat.

(** What the coordinator and the database agree on after recoveries: an
    abandoned job stays abandoned, a parent taken over runs under the
    identity it is registered with, and an execution of either is stopped. *)
Definition recovery_noted (f : Recovery) (c : Coordinator) (d : db) : Prop :=
  (∃ r, ingestion_runs d !! rec_run f = Some r ∧
     if bool_decide (rec_kind f = KindRunAllParent)
     then run_kind r = KindRunAllParent ∧ run_status r = StatusRunning ∧ is_Some (owner_id r) ∧ parents c !! rec_run f = owner_id r
     else run_kind r ≠ KindRunAllParent ∧ run_status r = StatusAbandoned) ∧
  local c !! rec_run f ≠ Some None.

Lemma note_recovery_local f c i : local (note_recovery f c) !! i =
  if decide (i = rec_run f) then cancel_cause ErrOwnershipLost <$> local c !! i else local c !! i.
Proof.
  unfold note_recovery, stop_local. cbn. assert (local (if bool_decide (rec_kind f = KindRunAllParent)
    then set_parents (insert (rec_run f) (rec_new_owner f)) c else c) = local c) as -> by by case_bool_decide.
  destruct (decide (i = rec_run f)) as [->|]; [by rewrite lookup_alter_eq|by rewrite lookup_alter_ne].
Qed.
Lemma note_recovery_parents f c i : parents (note_recovery f c) !! i =
  if bool_decide (rec_kind f = KindRunAllParent) && bool_decide (i = rec_run f) then Some (rec_new_owner f) else parents c !! i.
Proof.
  unfold note_recovery, stop_local. cbn. case_bool_decide; cbn [andb]; [|done]. cbn.
  case_bool_decide as Hi; [subst i; by rewrite lookup_insert_eq|by rewrite lookup_insert_ne].
Qed.

(** One recovery: the row it concerns, and the rest unchanged. *)
Lemma recovery_step now owner d : schema d → String.length owner = 64%nat →
  match RecoverOneStale now ingestionLease [id] owner d with
  | None => False
  | Some (Err _, d') => d' = d
  | Some (Ok None, d') => d' = d ∧ ∀ i r, ingestion_runs d !! i = Some r → stale now ingestionLease r = false
  | Some (Ok (Some f), d') => rtc repository_step d d' ∧ ∃ s r,
      ingestion_runs d !! rec_run f = Some s ∧ ingestion_runs d' !! rec_run f = Some r ∧
      run_kind s = rec_kind f ∧ run_kind r = rec_kind f ∧ run_status s = StatusRunning ∧
      (∀ i x, i ≠ rec_run f → ingestion_runs d !! i = Some x → ingestion_runs d' !! i = Some x) ∧
      if bool_decide (rec_kind f = KindRunAllParent)
      then run_status r = StatusRunning ∧ owner_id r = Some (rec_new_owner f)
      else run_status r = StatusAbandoned
  end.
Proof.
  intros Hd Hlen. pose proof (recover_one now ingestionLease owner d Hd ltac:(done) Hlen) as H.
  destruct (select_first longer_silent (stale now ingestionLease) (ingestion_runs d)) as [s|] eqn:Hsel.
  2:{ destruct H as [Hno ->]. done. }
  destruct H as (Hs & _ & Hjob & Hparent & _).
  pose proof (select_first_Some _ _ _ _ Hsel) as [_ [i Hi]]. destruct (t_ids _ _ _ _ _ (runs_ok d Hd) _ _ Hi) as [<- _].
  assert (Hrun : run_status s = StatusRunning) by (by apply stale_spec in Hs as (? & _)).
  assert (Hstep : ∀ f d', recover_candidate now ingestionLease owner s d = Ok (Some f, d') → rtc repository_step d d').
  { intros f d' E. apply rtc_once. by eapply step_recover. }
  destruct (decide (run_kind s = KindRunAllParent)) as [Hk|Hk].
  - destruct (recover_parent now ingestionLease owner d s Hd Hi Hs Hk ltac:(done)) as [[e E]|(d' & E & Hold & r & Hr & Hr1 & Ho & _)];
      unfold RecoverOneStale; rewrite Hlen; cbn [Nat.eqb negb orb Z.leb recover_loop];
      unfold recover_step, id, runTx; rewrite Hsel, E; [done|]. cbn [isSome orb].
    split; [by eapply Hstep|]. exists s, r. cbn [recovery_of rec_run rec_kind rec_new_owner].
    assert (run_kind r = run_kind s) as ->.
    { destruct (l_rows _ _ (reachable_lifecycle d d' Hd (Hstep _ _ E)) _ s Hi) as (r0 & Hr0 & Hid & _).
      unfold run_identity in Hid. congruence. }
    rewrite bool_decide_eq_true_2 by done. split_and!; eauto.
  - rewrite (Hjob Hk). split; [eapply Hstep, recover_job; done|]. exists s, (abandoned_row now s).
    cbn [recovery_of rec_run rec_kind]. rewrite bool_decide_eq_false_2 by done. split_and!; try done; [cbn; by rewrite lookup_insert_eq|].
    intros j x Hj Hx. cbn. by rewrite lookup_insert_ne.
Qed.

(** Noting one recovery keeps the earlier ones noted. *)
Lemma recovery_noted_step f g c d d' s r : recovery_noted f c d →
  ingestion_runs d !! rec_run g = Some s → ingestion_runs d' !! rec_run g = Some r →
  run_kind s = rec_kind g → run_kind r = rec_kind g → run_status s = StatusRunning →
  (∀ i x, i ≠ rec_run g → ingestion_runs d !! i = Some x → ingestion_runs d' !! i = Some x) →
  (if bool_decide (rec_kind g = KindRunAllParent)
   then run_status r = StatusRunning ∧ owner_id r = Some (rec_new_owner g) else run_status r = StatusAbandoned) →
  recovery_noted f (note_recovery g c) d'.
Proof.
  intros [(x & Hx & Hf) Hl] Hs Hr Hks Hkr Hrun Hold Hg. unfold recovery_noted. rewrite note_recovery_local.
  destruct (decide (rec_run f = rec_run g)) as [He|Hne].
  - split; [|destruct (local c !! rec_run f) as [[]|]; cbn; congruence].
    exists r. rewrite He in *. split; [done|]. assert (x = s) as -> by congruence.
    rewrite note_recovery_parents, (bool_decide_eq_true_2 (rec_run g = rec_run g)), andb_true_r by done.
    destruct (decide (rec_kind f = KindRunAllParent)) as [Hkf|Hkf].
    + rewrite bool_decide_eq_true_2 in Hf |- * by done. destruct Hf as (Hk & _).
      rewrite bool_decide_eq_true_2 in Hg |- * by congruence. destruct Hg as [-> ->]. split; [congruence|]. by split_and!.
    + rewrite bool_decide_eq_false_2 in Hf by done. destruct Hf as [_ Ha]. congruence.
  - split; [|done]. exists x. split; [by apply Hold|]. rewrite note_recovery_parents.
    rewrite (bool_decide_eq_false_2 (rec_run f = rec_run g)), andb_false_r by done. done.
Qed.
Lemma recovery_noted_new g c d' r : ingestion_runs d' !! rec_run g = Some r → run_kind r = rec_kind g →
  (if bool_decide (rec_kind g = KindRunAllParent)
   then run_status r = StatusRunning ∧ owner_id r = Some (rec_new_owner g) else run_status r = StatusAbandoned) →
  recovery_noted g (note_recovery g c) d'.
Proof.
  intros Hr Hk Hg. split.
  - exists r. split; [done|]. rewrite note_recovery_parents, (bool_decide_eq_true_2 (rec_run g = rec_run g)), andb_true_r by done.
    case_bool_decide as Hp; [|split; congruence]. destruct Hg as [-> ->]. split; [congruence|]. by split_and!.
  - rewrite note_recovery_local, decide_True by done. by destruct (local c !! rec_run g) as [[]|].
Qed.

Lemma recover_sweep_recovers batch rounds acc c d : schema d → Forall quiet_recovery rounds → (batch <= length rounds)%nat →
  (∀ f, f ∈ acc → recovery_noted f c d) →
  ∃ found c' d', recover_sweep batch rounds acc c d = Some (found, c', d') ∧ rtc repository_step d d' ∧
    (length found <= length acc + batch)%nat ∧ (∀ f, f ∈ found → recovery_noted f c' d') ∧
    (length found = length acc + batch ∨
     (∃ now, ∀ i r, ingestion_runs d' !! i = Some r → stale now ingestionLease r = false) ∨
     ∃ now owner e, RecoverOneStale now ingestionLease [id] owner d' = Some (Err e, d'))%nat.
Proof.
  revert rounds acc c d. induction batch as [|batch IH]; intros rounds acc c d Hd Hq Hlen Hacc; cbn [recover_sweep].
  { exists acc, c, d. do 2 (split; [done|]). split; [lia|]. split; [done|]. left. lia. }
  destruct rounds as [|rd rounds]; [cbn in Hlen; lia|]. apply Forall_cons in Hq as [(Hrace & owner & Ho & Hlo) Hq].
  rewrite Ho, Hrace. pose proof (recovery_step (rr_now rd) owner d Hd Hlo) as H.
  destruct (RecoverOneStale (rr_now rd) ingestionLease [id] owner d) as [[[[g|]|e] d1]|] eqn:E; [| | |done].
  - destruct H as (S1 & s & r & Hs & Hr & Hks & Hkr & Hrun & Hold & Hg).
    assert (Hd1 : schema d1) by (by apply (reachable_lifecycle d)).
    destruct (IH rounds (acc ++ [g]) (note_recovery g c) d1 Hd1 Hq ltac:(cbn in Hlen; lia)) as (found & c' & d' & -> & S2 & Hn & Hall & Hend).
    + intros f [Hf| ->%list_elem_of_singleton]%elem_of_app; [eapply recovery_noted_step; eauto|by eapply recovery_noted_new].
    + exists found, c', d'. rewrite length_app in *. cbn [length] in *. split; [done|]. split; [by etransitivity|]. split; [lia|]. split; [done|].
      destruct Hend as [?|?]; [left; lia|by right].
  - destruct H as [-> Hno]. exists acc, c, d. do 2 (split; [done|]). split; [lia|]. split; [done|]. right. left. eauto.
  - subst d1. exists acc, c, d. do 2 (split; [done|]). split; [lia|]. split; [done|]. right. right. eauto.
Qed.

(** A recovery sweep is bounded and leaves its books right: without
    interference it ends after at most 256 recoveries; every job it
    recovered is abandoned, every Run All parent it took over runs under the
    identity registered here, and no local execution of a recovered run goes
    on uncancelled; it stops early only when no owner has been silent for
    longer than the lease, or when a take-over failed. *)
Theorem recover_sweep_bounded : ∀ rounds c d, schema d → Forall quiet_recovery rounds →
  (ingestionRecoveryBatch <= length rounds)%nat →
  ∃ found c' d', recover_sweep ingestionRecoveryBatch rounds [] c d = Some (found, c', d') ∧ rtc repository_step d d' ∧
    (length found <= 256)%nat ∧ (∀ f, f ∈ found → recovery_noted f c' d') ∧
    (length found = 256%nat ∨
     (∃ now, ∀ i r, ingestion_runs d' !! i = Some r → stale now ingestionLease r = false) ∨
     ∃ now owner e, RecoverOneStale now ingestionLease [id] owner d' = Some (Err e, d')).
Proof.
  intros rounds c d Hd Hq Hlen. apply (recover_sweep_recovers ingestionRecoveryBatch rounds [] c d Hd Hq Hlen).
  intros f Hf. by apply not_elem_of_nil in Hf.
Qed.

(** ** Witnesses *)

Definition no_work (d : db) : db := d.
Lemma no_work_steps d : rtc repository_step d (no_work d).
Proof. apply rtc_refl. Qed.
Definition sample_claimed : Run := run_value (sample_row 1 "cif_detail" StatusRunning (Some sample_owner)) None.
Definition sample_coordinator : Coordinator := mkCoordinator ∅ {[ 1 := sample_owner ]}.


Lemma heartbeat_watches_witness :
  heartbeat 0 (beat_of 1 sample_owner <$> [(second, Some (7, sample_db)); (3 * minute, None)]) = Some ErrLeaseUnproven ∧
  goes_on 1 sample_owner 0 (second, Some (7, sample_db)).
Proof.
  pose proof (heartbeat_watches 1 sample_owner 0 [(second, Some (7, sample_db)); (3 * minute, None)]
    ltac:(constructor; [exact sample_schema|constructor; [exact I|constructor]])) as H.
  assert (E : heartbeat 0 (beat_of 1 sample_owner <$> [(second, Some (7, sample_db)); (3 * minute, None)]) = Some ErrLeaseUnproven)
    by (vm_compute; reflexivity).
  rewrite E in H. destruct H as (pre & b & post & Hb & Hstop & Hpre). split; [exact E|].
  destruct pre as [|b0 pre].
  - exfalso. injection Hb as <- _. vm_compute in Hstop. destruct Hstop as [_ Hs]. discriminate Hs.
  - injection Hb as <- _. apply (Hpre [] _ pre eq_refl).
Defined.

Definition quiet (now : instant) : round := mkRound now id.
Lemma reconcileParent_settles_witness : ∃ c' d' r',
  reconcileParent (replicate 4 (quiet 9)) 1 sample_owner sample_coordinator sample_all = Some (c', d') ∧
  ingestion_runs d' !! 1 = Some r' ∧ IsTerminal (run_status r') = true ∧ parents c' !! 1 = None.
Proof.
  assert (Hsrc : ∀ i c, ingestion_runs sample_all !! i = Some c → child_of 1 c = true →
    is_Some (source_settings sample_all !! or_empty (run_job_key c))).
  { intros i c Hc. cbn in Hc. apply lookup_insert_Some in Hc as [[_ <-]|[_ [_ <-]%lookup_singleton_Some]]; vm_compute; [done|eauto]. }
  destruct (reconcileParent_settles (replicate 4 (quiet 9)) 1 sample_owner sample_coordinator sample_all sample_parent sample_all_schema
    eq_refl eq_refl eq_refl eq_refl eq_refl ltac:(repeat constructor) Hsrc ltac:(vm_compute; reflexivity)) as (c' & d' & r' & H & _ & Hr & Hend).
  exists c', d', r'. split; [exact H|]. split; [exact Hr|]. destruct Hend as [(Hact & _)|(_ & Ht & Hp)].
  - exfalso. assert (E : (λ x, actives 1 x.2) <$> reconcileParent (replicate 4 (quiet 9)) 1 sample_owner sample_coordinator sample_all = Some 0)
      by (vm_compute; reflexivity). rewrite H in E. injection E as E. rewrite E in Hact. discriminate Hact.
  - split; [exact Ht|]. rewrite Hp. apply lookup_delete_eq.
Defined.

Lemma recover_sweep_bounded_witness : ∃ found c' d',
  recover_sweep ingestionRecoveryBatch (replicate 256 (mkRecoveryRound (Some sample_owner) hour [id])) [] sample_coordinator sample_silent =
    Some (found, c', d') ∧ (length found <= 256)%nat.
Proof.
  destruct (recover_sweep_bounded (replicate 256 (mkRecoveryRound (Some sample_owner) hour [id])) sample_coordinator sample_silent
    sample_silent_schema) as (found & c' & d' & H & _ & Hn & _).
  - apply Forall_replicate. split; [reflexivity|]. exists sample_owner. split; reflexivity.
  - rewrite length_replicate. exact (Nat.le_refl _).
  - exists found, c', d'. split; [exact H|exact Hn].
Defined.
