(* ===== verification/FixedPlans.v ===== *)
(** * Fixed report plans (src/internal/ingestion/fixed.go)

    What a fixed report load will request: the members of its plan, the
    checksum that identifies the plan, the source chunks a member's interval
    is split into, and the assignment of business dates to the rows a chunk
    returned.  The same chunks are walked by
    [fetchFixedMemberSegments] of src/internal/ingestionexec/executor.go. *)

From S2P Require Import Prelude Calendar Json Hash Catalog Params Table.

Open Scope Z_scope.

(** ** Plans *)

Record FixedDateRangeParams := mkFixedRange { fr_from : CalendarDate; fr_to : CalendarDate }.
Record ReplacementScope := mkScope { rs_job : string; rs_from : CalendarDate; rs_to : CalendarDate }.
Record RequestDescriptor := mkDescriptor {
  MemberKey : string; ReportName : string; DescriptorParameters : list string;
  RequestedFrom : CalendarDate; RequestedTo : CalendarDate; SourceLocationID : string; AccountCode : string }.
Record FixedPlan := mkPlan {
  plan_job : string; plan_range : FixedDateRangeParams; plan_scope : ReplacementScope;
  plan_members : list RequestDescriptor; plan_variants : list string; plan_require_all : bool }.
#[export] Instance RequestDescriptor_eq_dec : EqDecision RequestDescriptor. Proof. solve_decision. Defined.

Definition SingleFixedMemberKey : string := "__single__".

(** [freezeNonblank]: the distinct trimmed values, sorted; the map's
    iteration order is lost in the sort. *)
Definition freezeNonblank (values : list string) (name : string) : result (list string) :=
  let set := remove_dups (filter (λ v, v ≠ "") (trim_space <$> values)) in
  match set with
  | [] => Err (Errorf ("captured " +:+ name +:+ " set is empty"))
  | _ => Ok (sort_strings set)
  end.
Definition FreezeLocations (values : list string) : result (list string) := freezeNonblank values "location".
Definition FreezeAccountCodes (values : list string) : result (list string) := freezeNonblank values "account code".

Definition descriptor_parameters (key location account from to : string) : list string :=
  if (key =? "cif_opening_report")%string then [location; from; to]
  else if (key =? "journal_transaction_report")%string then [location; ""; from; to; ""; ""]
  else if (key =? "balance_sheet_report")%string then [location; to]
  else if (key =? "profit_loss_statement")%string then [location; from; to]
  else if (key =? "coa_movement_report")%string then [account; from; to; location]
  else if (key =? "fund_distribution_report")%string then [location; ""; ""; ""; from; to]
  else if (key =? "vault_mutation_report")%string then [location; from; to]
  else if (key =? "teller_mutation_report")%string then [location; "ALL"; from; to]
  else [].

Definition descriptor (definition : FixedDefinition) (requested : FixedDateRangeParams)
    (location account memberKey : string) : RequestDescriptor :=
  mkDescriptor memberKey (f_report definition)
    (descriptor_parameters (f_key definition) location account (date_string (fr_from requested)) (date_string (fr_to requested)))
    (fr_from requested) (fr_to requested) location account.

Definition BuildFixedRequestDescriptor (definition : FixedDefinition) (requested : FixedDateRangeParams)
    (location account memberKey : string) : result RequestDescriptor :=
  if IsZero (fr_from requested) || IsZero (fr_to requested) ||
     negb (string_le (date_string (fr_from requested)) (date_string (fr_to requested))) || (memberKey =? "")%string
  then Err (Errorf "valid fixed request descriptor is required") else
  if negb (existsb (λ c, (f_key c =? f_key definition)%string) FixedDefinitions)
  then Err (Errorf "unknown fixed definition") else
  Ok (descriptor definition requested location account memberKey).

Definition complete_plan (definition : FixedDefinition) (requested : FixedDateRangeParams)
    (members : list RequestDescriptor) : FixedPlan :=
  mkPlan (f_key definition) requested (mkScope (f_key definition) (fr_from requested) (fr_to requested)) members [] true.

Definition BuildFixedPlan (definition : FixedDefinition) (requested : FixedDateRangeParams)
    (locations accounts : list string) : result FixedPlan :=
  if IsZero (fr_from requested) || IsZero (fr_to requested) ||
     negb (string_le (date_string (fr_from requested)) (date_string (fr_to requested)))
  then Err (Errorf "valid fixed report date range is required") else
  if f_snapshot definition && negb (bool_decide (fr_from requested = fr_to requested))
  then Err (Errorf "requires one fixed snapshot date") else
  if bool_decide (f_location definition = PerLocation) then
    match locations with
    | [] => Err (Errorf "requires a frozen location set")
    | _ => Ok (complete_plan definition requested ((λ l, descriptor definition requested l "" l) <$> locations))
    end
  else if bool_decide (f_account definition = AllAccountCodes) then
    match accounts with
    | [] => Err (Errorf "requires a frozen account-code set")
    | _ => Ok (complete_plan definition requested ((λ a, descriptor definition requested "" a a) <$> accounts))
    end
  else Ok (complete_plan definition requested [descriptor definition requested "" "" SingleFixedMemberKey]).

Definition BuildFixedSnapshotPlan (definition : FixedDefinition) (date : CalendarDate) (locations : list string)
    : result FixedPlan :=
  if negb (f_snapshot definition) then Err (Errorf "is not a fixed snapshot report")
  else BuildFixedPlan definition (mkFixedRange date date) locations [].

(** [binary.Write(BigEndian, uint32(len))] and the bytes. *)
Definition be_string (n : nat) (x : Z) : string := string_of_codes (Z.to_N <$> be_bytes n x).
Definition manifest_string (value : string) : string := be_string 4 (Z.of_nat (String.length value)) +:+ value.

Fixpoint hex_encode (s : string) : string :=
  match s with
  | "" => ""
  | String c s => String (hex_digit (code c / 16)) (String (hex_digit (code c mod 16)) (hex_encode s))
  end.

Definition dateLocationMemberKey (date : CalendarDate) (location : string) : string :=
  hex_encode (sha256 (manifest_string (date_string date) +:+ manifest_string location)).

(** [date != dates[index-1].AddDays(1)] for every date after the first, and
    no zero date. *)
Fixpoint contiguous (previous : option CalendarDate) (dates : list CalendarDate) : bool :=
  match dates with
  | [] => true
  | date :: dates =>
      negb (IsZero date) &&
      match previous with Some p => bool_decide (date = AddDays p 1) | None => true end && contiguous (Some date) dates
  end.

Definition BuildFixedDateSeriesPlan (definition : FixedDefinition) (dates : list CalendarDate) (locations : list string)
    : result FixedPlan :=
  match dates with
  | [] => Err (Errorf "balance sheet date series is required")
  | from :: rest =>
      if negb (f_key definition =? "balance_sheet_report")%string || negb (f_snapshot definition)
      then Err (Errorf "balance sheet date series is required") else
      if negb (contiguous None dates) then Err (Errorf "fixed date series must be ascending and contiguous") else
      match locations with
      | [] => Err (Errorf "requires a frozen location set")
      | _ => Ok (complete_plan definition (mkFixedRange from (List.last rest from))
               (mjoin ((λ date, (λ l, descriptor definition (mkFixedRange date date) l "" (dateLocationMemberKey date l)) <$> locations)
                 <$> dates)))
      end
  end.

(** ** The plan's checksum *)

(** The member keys are present and distinct. *)
Fixpoint check_members (seen : list string) (members : list RequestDescriptor) : result unit :=
  match members with
  | [] => Ok tt
  | m :: members =>
      if (MemberKey m =? "")%string then Err (Errorf "fixed plan member key is required") else
      if bool_decide (MemberKey m ∈ seen) then Err (Errorf "duplicate fixed plan member") else
      check_members (MemberKey m :: seen) members
  end.

Definition member_before (a b : RequestDescriptor) : bool :=
  match String.compare (MemberKey a) (MemberKey b) with Lt => true | _ => false end.

Definition location_text (s : LocationStrategy) : string :=
  match s with SingleRequestAllLocationsEmpty => "single_request_all_locations_empty" | PerLocation => "per_location" end.
Definition account_text (s : AccountCodeStrategy) : string :=
  match s with NoAccountCodeStrategy => "none" | AllAccountCodes => "all_account_codes" end.
Definition publication_text (m : PublicationMode) : string :=
  match m with DateAddressable => "date_addressable" | IntervalResult => "interval_result" end.
Definition request_text (m : SourceRequestMode) : string :=
  match m with BoundedDateChunks => "bounded_date_chunks" | ExactInterval => "exact_interval" end.

Definition member_strings (m : RequestDescriptor) : list string :=
  [MemberKey m; date_string (RequestedFrom m); date_string (RequestedTo m); SourceLocationID m; AccountCode m].
Definition plan_strings (definition : FixedDefinition) (plan : FixedPlan) : list string :=
  [plan_job plan; location_text (f_location definition); account_text (f_account definition);
   date_string (fr_from (plan_range plan)); date_string (fr_to (plan_range plan));
   publication_text (f_publication definition); request_text (f_request definition); f_report definition;
   f_coverage_header definition; f_coverage_layout definition].

Definition encode_strings (l : list string) : string := string_concat (manifest_string <$> l).

(** The bytes the checksum is taken of. *)
Definition manifest_bytes (definition : FixedDefinition) (plan : FixedPlan) : string :=
  let members := sort_by member_before (plan_members plan) in
  "DWH-FIXED-MANIFEST" +:+ string_of_codes [0%N] +:+ be_string 2 2 +:+
  encode_strings (plan_strings definition plan) +:+
  be_string 4 (f_max_chunk_days definition) +:+
  be_string 4 (Z.of_nat (length (plan_variants plan))) +:+ encode_strings (plan_variants plan) +:+
  be_string 4 (Z.of_nat (length members)) +:+ string_concat ((λ m, encode_strings (member_strings m)) <$> members).

Definition FixedManifestChecksum (definition : FixedDefinition) (plan : FixedPlan) : result string :=
  if negb (plan_job plan =? f_key definition)%string || Nat.eqb (length (plan_members plan)) 0 || negb (plan_require_all plan)
  then Err (Errorf "complete fixed plan is required") else
  let? _ := check_members [] (plan_members plan) in
  Ok (sha256 (manifest_bytes definition plan)).

(** ** Column names *)

Fixpoint trim_left_char (x : ascii) (s : string) : string :=
  match s with String c rest => if (c =? x)%char then trim_left_char x rest else s | "" => "" end.
(** [strings.Trim] of one character. *)
Definition trim_char (x : ascii) (s : string) : string := string_rev (trim_left_char x (string_rev (trim_left_char x s))).

(** The loop of [toSnakeCase], on ASCII texts (all headers of the catalogue
    are): [written] says whether the builder holds anything. *)
Fixpoint snakeLoop (previous : option ascii) (written previousSeparator : bool) (s : string) : string :=
  match s with
  | "" => ""
  | String current rest =>
      if negb (is_lower current || is_upper current) && negb (is_digit current) then
        if written && negb previousSeparator then String "_" (snakeLoop (Some current) true true rest)
        else snakeLoop (Some current) written previousSeparator rest
      else
        let boundary := match previous with
          | Some p => is_lower p || is_digit p ||
              is_upper p && match rest with String n _ => is_lower n | "" => false end
          | None => false
          end in
        (if is_upper current && negb previousSeparator && boundary then "_" else "") +:+
        String (to_lower current) (snakeLoop (Some current) true false rest)
  end.
Definition toSnakeCase (value : string) : string := trim_char "_" (snakeLoop None false false (trim_space value)).
Definition FixedColumnName (header : string) : string := toSnakeCase header.

Example snake_headers : toSnakeCase <$> ["CoA No"; "Employee ID / Retired ID"; "Home  Sub-Distric"; "datetime"; "OpenAPIKey2 (v)"] =
  ["co_a_no"; "employee_id_retired_id"; "home_sub_distric"; "datetime"; "open_api_key2_v"].
Proof. vm_compute. reflexivity. Qed.

(** ** Source chunks *)

Record DateChunk := mkChunk { chunk_from : CalendarDate; chunk_to : CalendarDate }.

(** The loop of [ChunkDateRange], one chunk per turn. *)
Fixpoint chunkLoop (fuel : nat) (start to : CalendarDate) (maxDays : Z) : option (list DateChunk) :=
  match fuel with
  | O => None
  | S fuel =>
      if string_le (date_string start) (date_string to) then
        let next := AddDays start (maxDays - 1) in
        let end_ := if (year to <? year next) || negb (string_le (date_string next) (date_string to)) then to else next in
        if bool_decide (end_ = to) then Some [mkChunk start end_]
        else cons (mkChunk start end_) <$> chunkLoop fuel (AddDays end_ 1) to maxDays
      else Some []
  end.
Definition chunkFuel (from to : CalendarDate) : nat := S (Z.to_nat (date_days to - date_days from)).

Definition ChunkDateRange (from to : CalendarDate) (maxDays : Z) : result (list DateChunk) :=
  if IsZero from || IsZero to || negb (string_le (date_string from) (date_string to))
  then Err (Errorf "valid date range is required") else
  match chunkLoop (chunkFuel from to) from to (if maxDays <=? 0 then 30 else maxDays) with
  | Some chunks => Ok chunks
  | None => Err (Errorf "chunk loop did not end")
  end.

Definition FixedSourceChunks (definition : FixedDefinition) (from to : CalendarDate) : result (list DateChunk) :=
  if (year from <? 1000) || (9999 <? year from) || (year to <? 1000) || (9999 <? year to) ||
     negb (string_le (date_string from) (date_string to))
  then Err (Errorf "valid fixed source date range is required") else
  if f_snapshot definition && negb (bool_decide (from = to))
  then Err (Errorf "requires an exact snapshot source request") else
  match f_request definition with
  | ExactInterval => Ok [mkChunk from to]
  | BoundedDateChunks =>
      if (f_max_chunk_days definition <? 1) || (30 <? f_max_chunk_days definition)
      then Err (Errorf "has invalid bounded source chunk size")
      else ChunkDateRange from to (f_max_chunk_days definition)
  end.

(** ** Chunks *)

(** The dates a chunk asks for. *)
Definition chunk_dates (c : DateChunk) : list CalendarDate :=
  interval (date_days (chunk_from c)) (interval_count (chunk_from c) (chunk_to c)).

Lemma interval_app from n m : interval from (n + m) = interval from n ++ interval (from + Z.of_nat n) m.
Proof.
  revert from. induction n as [|n IH]; intros from; [by rewrite Z.add_0_r|].
  rewrite Nat.add_succ_l, !interval_cons, IH. cbn [app]. do 3 f_equal. lia.
Qed.

Lemma year_mono a b : a <= b → year (days_date a) <= year (days_date b).
Proof.
  intros Hab. destruct (Z.eq_dec a b) as [->|]; [lia|].
  pose proof (days_date_key_lt a (b - a) ltac:(lia)) as H. replace (a + (b - a)) with b in H by lia.
  pose proof (proj1 (valid_date_spec _) (days_date_valid a)) as Ha. pose proof (proj1 (valid_date_spec _) (days_date_valid b)) as Hb.
  pose proof (days_in_bounds (year (days_date a)) (month (days_date a))).
  pose proof (days_in_bounds (year (days_date b)) (month (days_date b))). unfold date_key in H. lia.
Qed.

Lemma year_beyond n : date_days lastDay < n → 9999 < year (days_date n).
Proof.
  intros Hn. pose proof (proj2 (date_key_lt lastDay (days_date n) eq_refl (days_date_valid n))) as H.
  rewrite date_days_date in H. specialize (H Hn). change (date_key lastDay) with 99991231 in H.
  pose proof (proj1 (valid_date_spec _) (days_date_valid n)) as Hv.
  pose proof (days_in_bounds (year (days_date n)) (month (days_date n))). unfold date_key in H. lia.
Qed.

(** The end of the chunk starting at day [a], for an interval ending at
    [b]. *)
Lemma chunk_end from to a maxDays : usable from = true → usable to = true → date_days from <= a <= date_days to → 1 <= maxDays →
  (if (year to <? year (AddDays (days_date a) (maxDays - 1))) ||
      negb (string_le (date_string (AddDays (days_date a) (maxDays - 1))) (date_string to))
   then to else AddDays (days_date a) (maxDays - 1)) = days_date (Z.min (a + maxDays - 1) (date_days to)).
Proof.
  intros Hf Ht Ha Hm. apply usable_spec in Ht as Ht'. destruct Ht' as [Hv Hy].
  assert (Hlast : date_days to <= date_days lastDay).
  { destruct (Z.le_gt_cases (date_days to) (date_days lastDay)); [done|].
    pose proof (year_beyond (date_days to) ltac:(lia)) as H9. rewrite days_date_days in H9 by done. lia. }
  assert (Hadd : AddDays (days_date a) (maxDays - 1) = days_date (a + maxDays - 1)).
  { unfold AddDays. rewrite usable_nonzero, date_days_date by (apply (usable_between from); [done|lia]). f_equal. lia. }
  rewrite Hadd. destruct (Z.leb_spec (a + maxDays - 1) (date_days to)) as [Hle|Hgt].
  - rewrite Z.min_l by lia. pose proof (year_mono (a + maxDays - 1) (date_days to) Hle) as Hyear.
    rewrite days_date_days in Hyear by done. rewrite (proj2 (Z.ltb_ge _ _)) by lia.
    rewrite usable_string_le, date_days_date; [|apply (usable_between from); [done|lia]|done].
    by rewrite (proj2 (Z.leb_le _ _)) by lia.
  - rewrite Z.min_r, days_date_days by (done || lia).
    destruct (year to <? year (days_date (a + maxDays - 1))) eqn:E; [done|]. cbn [orb]. apply Z.ltb_ge in E.
    destruct (Z.le_gt_cases (a + maxDays - 1) (date_days lastDay)) as [Hl|Hl].
    + rewrite usable_string_le, date_days_date; [|apply (usable_between from); [done|lia]|done].
      by rewrite (proj2 (Z.leb_gt _ _)) by lia.
    + pose proof (year_beyond _ Hl). lia.
Qed.

(** The chunks of a loop: every date once and in order, none longer than
    [maxDays], all but the last exactly as long. *)
Definition chunks_cover (a b maxDays : Z) (chunks : list DateChunk) : Prop :=
  mjoin (chunk_dates <$> chunks) = interval a (Z.to_nat (b - a + 1)) ∧
  Forall (λ c, (1 <= length (chunk_dates c))%nat ∧ Z.of_nat (length (chunk_dates c)) <= maxDays) chunks ∧
  ∀ i c, chunks !! i = Some c → (S i < length chunks)%nat → Z.of_nat (length (chunk_dates c)) = maxDays.

Lemma chunkLoop_covers from to maxDays : usable from = true → usable to = true → 1 <= maxDays →
  ∀ fuel a, date_days from <= a <= date_days to → (Z.to_nat (date_days to - a) < fuel)%nat →
  ∃ chunks, chunkLoop fuel (days_date a) to maxDays = Some chunks ∧ chunks_cover a (date_days to) maxDays chunks.
Proof.
  intros Hf Ht Hm. apply usable_valid in Ht as Hv.
  assert (Hlast : date_days to <= date_days lastDay).
  { apply usable_spec in Ht as [_ Hy]. destruct (Z.le_gt_cases (date_days to) (date_days lastDay)); [done|].
    pose proof (year_beyond (date_days to) ltac:(lia)) as H9. rewrite days_date_days in H9 by done. lia. }
  induction fuel as [|fuel IH]; intros a Ha Hfuel; [lia|]. cbn [chunkLoop].
  assert (Hu : usable (days_date a) = true) by (apply (usable_between from); [done|lia]).
  rewrite usable_string_le, date_days_date by done. rewrite (proj2 (Z.leb_le _ _)) by lia.
  rewrite (chunk_end from) by done. set (e := Z.min (a + maxDays - 1) (date_days to)).
  assert (Hlen : length (chunk_dates (mkChunk (days_date a) (days_date e))) = Z.to_nat (e - a + 1)).
  { unfold chunk_dates. rewrite interval_length. unfold interval_count. cbn. by rewrite !date_days_date. }
  assert (Hdates : chunk_dates (mkChunk (days_date a) (days_date e)) = interval a (Z.to_nat (e - a + 1))).
  { unfold chunk_dates, interval_count. cbn. by rewrite !date_days_date. }
  case_bool_decide as He.
  - assert (e = date_days to) as Eb by (rewrite <- He; by rewrite date_days_date). eexists. split; [done|]. split_and!.
    + rewrite He in Hdates |- *. cbn [fmap list_fmap mjoin list_join]. rewrite app_nil_r. rewrite Hdates. by rewrite Eb.
    + constructor; [|constructor]. rewrite Hlen. unfold e in *. lia.
    + intros i c Hi Hl. cbn in Hl. lia.
  - assert (e < date_days to) as Eb.
    { destruct (Z.eq_dec e (date_days to)) as [E|]; [|unfold e in *; lia]. exfalso. apply He. rewrite E. by apply days_date_days. }
    assert (Ee : e = a + maxDays - 1) by (unfold e in *; lia).
    assert (AddDays (days_date e) 1 = days_date (e + 1)) as ->.
    { unfold AddDays. by rewrite usable_nonzero, date_days_date by (apply (usable_between from); [done|lia]). }
    destruct (IH (e + 1) ltac:(lia) ltac:(lia)) as (chunks & -> & Hc & Hall & Hfull). eexists. split; [done|]. split_and!.
    + cbn [fmap option_fmap option_map list_fmap mjoin list_join]. rewrite Hdates. fold (mjoin (M := list) (A := CalendarDate)).
      change (interval a (Z.to_nat (e - a + 1)) ++ mjoin (chunk_dates <$> chunks) = interval a (Z.to_nat (date_days to - a + 1))).
      rewrite Hc. replace (Z.to_nat (date_days to - a + 1)) with (Z.to_nat (e - a + 1) + Z.to_nat (date_days to - (e + 1) + 1))%nat by lia.
      rewrite interval_app. do 2 f_equal. lia.
    + constructor; [|done]. rewrite Hlen. lia.
    + intros [|i] c Hi Hl; cbn in Hi, Hl; [|apply (Hfull i); [done|lia]]. injection Hi as <-. rewrite Hlen. lia.
Qed.

Lemma ChunkDateRange_covers from to maxDays : usable from = true → usable to = true → date_days from <= date_days to →
  ∃ chunks, ChunkDateRange from to maxDays = Ok chunks ∧
    chunks_cover (date_days from) (date_days to) (if maxDays <=? 0 then 30 else maxDays) chunks.
Proof.
  intros Hf Ht Hle. unfold ChunkDateRange. rewrite !usable_nonzero, usable_string_le by done. cbn [orb].
  rewrite (proj2 (Z.leb_le _ _)) by done. cbn [negb].
  destruct (chunkLoop_covers from to (if maxDays <=? 0 then 30 else maxDays) Hf Ht ltac:(destruct (Z.leb_spec maxDays 0); lia)
    (chunkFuel from to) (date_days from)) as (chunks & E & Hc); [lia|unfold chunkFuel; lia|].
  rewrite days_date_days in E by (by apply usable_valid). rewrite E. by exists chunks.
Qed.

(** C30: splitting an interval into source chunks is the inclusive date loop,
    cut into pieces: for every interval of dates of the years 1 to 9999 the
    chunks exist, their dates one after the other are exactly the dates of
    the interval, each chunk has between one and [maxDays] dates (30 by
    default), and only the last may have fewer. *)
Theorem ChunkDateRange_partition : ∀ from to maxDays, usable from = true → usable to = true → date_days from <= date_days to →
  ∃ chunks, ChunkDateRange from to maxDays = Ok chunks ∧
    mjoin (chunk_dates <$> chunks) = interval (date_days from) (interval_count from to) ∧
    (date_days to < date_days lastDay → inclusiveDates from to = Ok (mjoin (chunk_dates <$> chunks))) ∧
    Forall (λ c, (1 <= length (chunk_dates c))%nat ∧ Z.of_nat (length (chunk_dates c)) <= if maxDays <=? 0 then 30 else maxDays) chunks ∧
    ∀ i c, chunks !! i = Some c → (S i < length chunks)%nat →
      Z.of_nat (length (chunk_dates c)) = if maxDays <=? 0 then 30 else maxDays.
Proof.
  intros from to maxDays Hf Ht Hle. destruct (ChunkDateRange_covers from to maxDays Hf Ht Hle) as (chunks & E & Hc & Hall & Hfull).
  exists chunks. split; [done|]. split; [exact Hc|]. split; [|done]. intros Hl.
  rewrite inclusiveDates_interval, Hc by done. by rewrite (proj2 (Z.leb_le _ _)) by done.
Qed.

(** ** Reading a manifest back *)

Fixpoint read_be (n : nat) (acc : Z) (s : string) : option (Z * string) :=
  match n with
  | O => Some (acc, s)
  | S n => match s with String c s => read_be n (256 * acc + Z.of_N (code c)) s | "" => None end
  end.
Fixpoint cut (n : nat) (s : string) : option (string * string) :=
  match n with
  | O => Some ("", s)
  | S n => match s with
           | String c s => match cut n s with Some (a, b) => Some (String c a, b) | None => None end
           | "" => None
           end
  end.
Definition read_string (s : string) : option (string * string) :=
  match read_be 4 0 s with Some (n, s) => cut (Z.to_nat n) s | None => None end.
Fixpoint read_many {A} (read : string → option (A * string)) (n : nat) (s : string) : option (list A * string) :=
  match n with
  | O => Some ([], s)
  | S n =>
      match read s with
      | Some (a, s) => match read_many read n s with Some (l, s) => Some (a :: l, s) | None => None end
      | None => None
      end
  end.

(** What a manifest says: the ten strings of the plan, the chunk size, the
    variants and the five strings of each member. *)
Definition read_manifest (s : string) : option (list string * Z * list string * list (list string)) :=
  '(_, s) ← cut 21 s;
  '(header, s) ← read_many read_string 10 s;
  '(days, s) ← read_be 4 0 s;
  '(v, s) ← read_be 4 0 s;
  '(variants, s) ← read_many read_string (Z.to_nat v) s;
  '(m, s) ← read_be 4 0 s;
  '(members, s) ← read_many (read_many read_string 5) (Z.to_nat m) s;
  if (s =? "")%string then Some (header, days, variants, members) else None.

Lemma code_byte n : (n < 256)%N → code (byte n) = n.
Proof. intros H. unfold code, byte. by apply N_ascii_embedding. Qed.

Lemma string_of_codes_cons n l : string_of_codes (n :: l) = String (byte n) (string_of_codes l).
Proof. done. Qed.

Lemma be_bytes_S n x : be_bytes (S n) x = Z.land (Z.shiftr x (8 * Z.of_nat n)) 255 :: be_bytes n x.
Proof. unfold be_bytes. rewrite seq_S, reverse_app. done. Qed.

Lemma read_be_write n : ∀ acc x rest, read_be n acc (be_string n x +:+ rest) = Some (acc * 256 ^ Z.of_nat n + x mod 256 ^ Z.of_nat n, rest).
Proof.
  induction n as [|n IH]; intros acc x rest.
  { cbn. rewrite Z.mod_1_r. do 2 f_equal. lia. }
  unfold be_string. rewrite be_bytes_S, fmap_cons, string_of_codes_cons, string_app_cons. cbn [read_be].
  assert (Hb : Z.land (Z.shiftr x (8 * Z.of_nat n)) 255 = (x / 256 ^ Z.of_nat n) mod 256).
  { change 255 with (Z.ones 8). rewrite Z.land_ones, Z.shiftr_div_pow2 by lia. rewrite Z.pow_mul_r by lia. done. }
  pose proof (Z.mod_pos_bound (x / 256 ^ Z.of_nat n) 256 ltac:(lia)) as Hr.
  rewrite code_byte by (rewrite Hb; lia). rewrite Hb, Z2N.id by lia. fold (be_string n x).
  change (string_of_codes (Z.to_N <$> be_bytes n x)) with (be_string n x). rewrite IH. do 2 f_equal.
  rewrite Nat2Z.inj_succ, Z.pow_succ_r by lia. assert (0 < 256 ^ Z.of_nat n) by (apply Z.pow_pos_nonneg; lia).
  rewrite (Z.mul_comm 256 (256 ^ _)), Z.rem_mul_r by lia. lia.
Qed.

Lemma cut_app a b : cut (String.length a) (a +:+ b) = Some (a, b).
Proof. induction a as [|c a IH]; [done|]. rewrite string_app_cons. cbn. by rewrite IH. Qed.

(** Texts of fewer than 2^32 bytes. *)
Definition short (s : string) : Prop := Z.of_nat (String.length s) < 2 ^ 32.

Lemma read_string_write s rest : short s → read_string (manifest_string s +:+ rest) = Some (s, rest).
Proof.
  intros Hs. unfold read_string, manifest_string. rewrite string_app_assoc, read_be_write.
  rewrite Z.mod_small by (unfold short in Hs; cbn; lia). rewrite Z.mul_0_l, Z.add_0_l, Nat2Z.id. apply cut_app.
Qed.

Lemma read_many_write {A} (read : string → option (A * string)) (write : A → string) (P : A → Prop) :
  (∀ a rest, P a → read (write a +:+ rest) = Some (a, rest)) →
  ∀ l rest, Forall P l → read_many read (length l) (string_concat (write <$> l) +:+ rest) = Some (l, rest).
Proof.
  intros H. induction l as [|a l IH]; intros rest Hl; [done|]. apply Forall_cons in Hl as [Ha Hl].
  change (string_concat (write <$> a :: l)) with (write a +:+ string_concat (write <$> l)).
  rewrite string_app_assoc. cbn [length read_many]. rewrite H by done. by rewrite IH.
Qed.

Lemma read_strings_write l rest : Forall short l → read_many read_string (length l) (encode_strings l +:+ rest) = Some (l, rest).
Proof. apply read_many_write. apply read_string_write. Qed.

(** A plan whose texts and counts fit their length fields. *)
Definition framed (definition : FixedDefinition) (plan : FixedPlan) : Prop :=
  Forall short (plan_strings definition plan) ∧ Forall short (plan_variants plan) ∧
  Forall (λ m, Forall short (member_strings m)) (plan_members plan) ∧
  0 <= f_max_chunk_days definition < 2 ^ 32 ∧ Z.of_nat (length (plan_variants plan)) < 2 ^ 32 ∧
  Z.of_nat (length (plan_members plan)) < 2 ^ 32.

(** The bytes whose digest identifies a fixed report load say what the
    load is: they can be read back to the job, strategies, dates and report,
    the chunk size, the source variants in order, and every member's key,
    dates, location and account in key order; so plans with different
    requests have different bytes. *)
Theorem manifest_round_trip : ∀ definition plan, framed definition plan →
  read_manifest (manifest_bytes definition plan) =
    Some (plan_strings definition plan, f_max_chunk_days definition, plan_variants plan,
          member_strings <$> sort_by member_before (plan_members plan)) ∧
  sort_by member_before (plan_members plan) ≡ₚ plan_members plan.
Proof.
  intros definition plan (Hp & Hv & Hm & Hd & Hnv & Hnm). split; [|apply sort_by_Permutation].
  set (members := sort_by member_before (plan_members plan)).
  assert (Hperm : members ≡ₚ plan_members plan) by apply sort_by_Permutation.
  unfold manifest_bytes. fold members. unfold read_manifest.
  rewrite <- (string_app_assoc (string_of_codes [0%N])). rewrite <- (string_app_assoc "DWH-FIXED-MANIFEST").
  change 21%nat with (String.length ("DWH-FIXED-MANIFEST" +:+ string_of_codes [0%N] +:+ be_string 2 2)).
  rewrite cut_app. cbn [mbind option_bind].
  change 10%nat with (length (plan_strings definition plan)). rewrite read_strings_write by done. cbn [mbind option_bind].
  rewrite read_be_write, Z.mod_small by done. cbn [mbind option_bind].
  rewrite read_be_write, Z.mod_small by (split; [lia|exact Hnv]). cbn [mbind option_bind].
  rewrite Z.mul_0_l, !Z.add_0_l, Nat2Z.id, read_strings_write by done. cbn [mbind option_bind].
  rewrite read_be_write, Z.mod_small by (rewrite Hperm; split; [lia|exact Hnm]). cbn [mbind option_bind].
  rewrite Z.mul_0_l, !Z.add_0_l, Nat2Z.id.
  change ((λ m, encode_strings (member_strings m)) <$> members) with ((encode_strings ∘ member_strings) <$> members).
  rewrite <- (string_app_nil_r (string_concat _)), list_fmap_compose, <- (length_fmap member_strings members).
  rewrite (read_many_write (read_many read_string 5) encode_strings (λ l, Forall short l ∧ length l = 5%nat)).
  - done.
  - intros l rest [Hl Hn]. rewrite <- Hn. by apply read_strings_write.
  - apply Forall_fmap. unfold members. rewrite sort_by_Permutation. eapply Forall_impl; [exact Hm|]. intros m Hs. by split.
Qed.

(** ** Business dates of source rows *)

(** The elements of a time layout; everything else stands for itself. *)
Inductive layout_token :=
  | TYear | TMonth | TDay | THour | TMinute | TSecond | TLiteral (c : ascii).

(** [nextStdChunk] for layouts made of "2006", "01", "02", "15", "04", "05"
    and literal punctuation, which is what the catalogue declares. *)
Fixpoint layout_tokens (fuel : nat) (layout : string) : list layout_token :=
  match fuel, layout with
  | S fuel, String c rest =>
      match cut_prefix "2006" layout, cut_prefix "01" layout, cut_prefix "02" layout,
            cut_prefix "15" layout, cut_prefix "04" layout, cut_prefix "05" layout with
      | Some l, _, _, _, _, _ => TYear :: layout_tokens fuel l
      | _, Some l, _, _, _, _ => TMonth :: layout_tokens fuel l
      | _, _, Some l, _, _, _ => TDay :: layout_tokens fuel l
      | _, _, _, Some l, _, _ => THour :: layout_tokens fuel l
      | _, _, _, _, Some l, _ => TMinute :: layout_tokens fuel l
      | _, _, _, _, _, Some l => TSecond :: layout_tokens fuel l
      | _, _, _, _, _, _ => TLiteral c :: layout_tokens fuel rest
      end
  | _, _ => []
  end.

(** A time without zone or fraction, as the layouts show it. *)
Record source_time := mkTime { t_date : CalendarDate; t_hour : Z; t_minute : Z; t_second : Z }.
Definition no_time : source_time := mkTime (mkDate 0 1 1) 0 0 0.
#[export] Instance source_time_eq_dec : EqDecision source_time. Proof. solve_decision. Defined.

Definition format_token (t : source_time) (token : layout_token) : string :=
  match token with
  | TYear => year_string (year (t_date t))
  | TMonth => pad2 (month (t_date t))
  | TDay => pad2 (day (t_date t))
  | THour => pad2 (t_hour t)
  | TMinute => pad2 (t_minute t)
  | TSecond => pad2 (t_second t)
  | TLiteral c => String c ""
  end.
(** [Time.Format]. *)
Definition Format (layout : string) (t : source_time) : string :=
  string_concat (format_token t <$> layout_tokens (String.length layout) layout).

Fixpoint cut_spaces (s : string) : string :=
  match s with String " " s => cut_spaces s | _ => s end.
Fixpoint cut_digits (s : string) : string :=
  match s with String c s' => if is_digit c then cut_digits s' else s | "" => "" end.

(** [getnum]: one digit is enough unless the element is fixed. *)
Definition getnum (fixed : bool) (s : string) : option (Z * string) :=
  match s with
  | String a s1 =>
      x ← digit_value a;
      match s1 with
      | String b s2 =>
          match digit_value b with
          | Some y => Some (10 * x + y, s2)
          | None => if fixed then None else Some (x, s1)
          end
      | "" => if fixed then None else Some (x, s1)
      end
  | "" => None
  end.
Definition getyear (s : string) : option (Z * string) :=
  '(a, s) ← getnum true s; '(b, s) ← getnum true s; Some (100 * a + b, s).

(** A fraction of a second in the value is read though the layout has
    none. *)
Definition skip_fraction (s : string) : string :=
  match s with
  | String c (String d _ as rest) =>
      if ((c =? ".")%char || (c =? ",")%char) && is_digit d then cut_digits rest else s
  | _ => s
  end.

(** One element of [time.Parse]; a blank in the layout matches any number of
    blanks. *)
Definition parse_token (t : source_time) (token : layout_token) (s : string) : option (source_time * string) :=
  let d := t_date t in
  match token with
  | TYear => '(y, s) ← getyear s; Some (mkTime (mkDate y (month d) (day d)) (t_hour t) (t_minute t) (t_second t), s)
  | TMonth => '(m, s) ← getnum true s;
      if (1 <=? m) && (m <=? 12) then Some (mkTime (mkDate (year d) m (day d)) (t_hour t) (t_minute t) (t_second t), s) else None
  | TDay => '(n, s) ← getnum true s; Some (mkTime (mkDate (year d) (month d) n) (t_hour t) (t_minute t) (t_second t), s)
  | THour => '(h, s) ← getnum false s; if h <? 24 then Some (mkTime d h (t_minute t) (t_second t), s) else None
  | TMinute => '(m, s) ← getnum true s; if m <? 60 then Some (mkTime d (t_hour t) m (t_second t), s) else None
  | TSecond => '(n, s) ← getnum true s;
      if n <? 60 then Some (mkTime d (t_hour t) (t_minute t) n, skip_fraction s) else None
  | TLiteral " " => match s with
      | "" => Some (t, "") | String c _ => if (c =? " ")%char then Some (t, cut_spaces s) else None end
  | TLiteral c => match s with String x s => if (x =? c)%char then Some (t, s) else None | "" => None end
  end.
Fixpoint parse_tokens (tokens : list layout_token) (t : source_time) (s : string) : option (source_time * string) :=
  match tokens with
  | [] => Some (t, s)
  | token :: tokens => '(t, s) ← parse_token t token s; parse_tokens tokens t s
  end.
(** [time.Parse]: the whole value is read and names a day that exists. *)
Definition Parse (layout value : string) : option source_time :=
  '(t, s) ← parse_tokens (layout_tokens (String.length layout) layout) no_time value;
  if (s =? "")%string && valid_date (t_date t) then Some t else None.

Definition ParseFixedCoverageDate (definition : FixedDefinition) (raw : string) (snapshot : CalendarDate) : result CalendarDate :=
  if negb (bool_decide (f_publication definition = DateAddressable)) then Err (Errorf "has no source business-date contract") else
  if f_snapshot definition then
    if IsZero snapshot then Err (Errorf "requires a snapshot coverage date") else Ok snapshot
  else
  if (f_coverage_header definition =? "")%string || (f_coverage_layout definition =? "")%string || (raw =? "")%string
  then Err (Errorf "requires a valid source business date") else
  match Parse (f_coverage_layout definition) raw with
  | Some parsed =>
      if negb (Format (f_coverage_layout definition) parsed =? raw)%string || (year (t_date parsed) <? 1000)
      then Err (Errorf "has an invalid or unsupported source business date")
      else Ok (t_date parsed)
  | None => Err (Errorf "has an invalid or unsupported source business date")
  end.

(** A parsed source row; its values by header. *)
Record FixedCSVRow := mkRow {
  SourceRowNumber : Z; SourceRowChecksum : string; RowLocationID : string; CoverageDate : CalendarDate;
  Values : gmap string string }.
Definition set_coverage (row : FixedCSVRow) (date : CalendarDate) : FixedCSVRow :=
  mkRow (SourceRowNumber row) (SourceRowChecksum row) (RowLocationID row) date (Values row).

(** The first loop of [ValidateFixedCoverage]: the dates of the rows. *)
Fixpoint coverage_dates (definition : FixedDefinition) (from to : CalendarDate) (rows : list FixedCSVRow) : result (list CalendarDate) :=
  match rows with
  | [] => Ok []
  | row :: rows =>
      let? date := ParseFixedCoverageDate definition (default "" (Values row !! f_coverage_header definition)) to in
      if negb (string_le (date_string from) (date_string date)) || negb (string_le (date_string date) (date_string to))
      then Err (Errorf "business date is outside its source segment") else
      let? dates := coverage_dates definition from to rows in Ok (date :: dates)
  end.

(** The verdict and the rows as the call leaves them. *)
Definition ValidateFixedCoverage (definition : FixedDefinition) (from to : CalendarDate) (rows : list FixedCSVRow)
    : result unit * list FixedCSVRow :=
  if IsZero from || IsZero to || negb (string_le (date_string from) (date_string to))
  then (Err (Errorf "valid fixed source segment is required"), rows) else
  match f_publication definition with
  | IntervalResult =>
      if forallb (λ row, IsZero (CoverageDate row)) rows then (Ok tt, rows)
      else (Err (Errorf "interval rows must not have coverage dates"), rows)
  | DateAddressable =>
      if f_snapshot definition && negb (bool_decide (from = to))
      then (Err (Errorf "requires one snapshot coverage date"), rows) else
      match coverage_dates definition from to rows with
      | Err e => (Err e, rows)
      | Ok dates => (Ok tt, zip_with set_coverage rows dates)
      end
  end.

Example coverage_vault : ParseFixedCoverageDate (nth 6 FixedDefinitions (fixed "" "" "" PerLocation NoAccountCodeStrategy [] "" "" false))
  "2026 -08-1309:05:59" zero_date = Ok (mkDate 2026 8 13).
Proof. vm_compute. reflexivity. Qed.
Example coverage_teller : (λ raw, is_ok (ParseFixedCoverageDate (nth 7 FixedDefinitions (fixed "" "" "" PerLocation NoAccountCodeStrategy [] "" "" false))
  raw zero_date)) <$> ["2026-08-13 09:05:59"; "2026-08-13  09:05:59"; "2026-08-13 9:05:59"; "2026-08-13 09:05:59.5"; "2026-02-29 09:05:59"]
  = [true; false; false; false; false].
Proof. vm_compute. reflexivity. Qed.

(** A moment as a source may write it. *)
Definition moment (t : source_time) : Prop :=
  valid_date (t_date t) = true ∧ 0 <= year (t_date t) <= 9999 ∧ 0 <= t_hour t < 24 ∧ 0 <= t_minute t < 60 ∧ 0 <= t_second t < 60.

Lemma getnum_pad2 fixed n rest : 0 <= n < 100 → getnum fixed (pad2 n +:+ rest) = Some (n, rest).
Proof.
  intros Hn. unfold pad2. rewrite !string_app_cons. cbn [getnum].
  rewrite !digit_value_digit by (Z.to_euclidean_division_equations; lia). cbn [mbind option_bind].
  do 2 f_equal. Z.to_euclidean_division_equations; lia.
Qed.

Lemma getyear_string y rest : 0 <= y <= 9999 → getyear (year_string y +:+ rest) = Some (y, rest).
Proof.
  intros Hy. rewrite year_string_4, pad4_pad2, string_app_assoc by lia. unfold getyear.
  rewrite getnum_pad2 by (Z.to_euclidean_division_equations; lia). cbn [mbind option_bind].
  rewrite getnum_pad2 by (Z.to_euclidean_division_equations; lia). cbn [mbind option_bind].
  do 2 f_equal. Z.to_euclidean_division_equations; lia.
Qed.

Lemma getnum_bounds fixed s n rest : getnum fixed s = Some (n, rest) → 0 <= n < 100.
Proof.
  destruct s as [|a [|b s]]; [done|..]; cbn; destruct (digit_value a) as [x|] eqn:Ea; try done; cbn; apply digit_value_Some in Ea as [Ha _].
  - destruct fixed; [done|]. intros [= <- _]. lia.
  - destruct (digit_value b) as [y|] eqn:Eb; [|destruct fixed; [done|]; intros [= <- _]; lia].
    apply digit_value_Some in Eb as [Hb _]. intros [= <- _]. lia.
Qed.

(** The fields of a time being read stay in their ranges. *)
Definition reading (t : source_time) : Prop :=
  0 <= year (t_date t) <= 9999 ∧ 0 <= t_hour t < 24 ∧ 0 <= t_minute t < 60 ∧ 0 <= t_second t < 60.

Lemma parse_token_reading t token s t' s' : reading t → parse_token t token s = Some (t', s') → reading t'.
Proof.
  intros (Hy & Hh & Hm & Hs) H. destruct token as [| | | | | |c]; cbn [parse_token] in H.
  - unfold getyear in H. destruct (getnum true s) as [[a s1]|] eqn:Ea; [|done]. cbn [mbind option_bind] in H.
    destruct (getnum true s1) as [[b s2]|] eqn:Eb; [|done]. injection H as <- <-.
    apply getnum_bounds in Ea, Eb. unfold reading; cbn; lia.
  - destruct (getnum true s) as [[a s1]|] eqn:Ea; [|done]. cbn [mbind option_bind] in H. case_match; [|done]. by injection H as <- <-.
  - destruct (getnum true s) as [[a s1]|] eqn:Ea; [|done]. by injection H as <- <-.
  - destruct (getnum false s) as [[a s1]|] eqn:Ea; [|done]. cbn [mbind option_bind] in H.
    destruct (Z.ltb_spec a 24); [|done]. injection H as <- <-. apply getnum_bounds in Ea. unfold reading; cbn; lia.
  - destruct (getnum true s) as [[a s1]|] eqn:Ea; [|done]. cbn [mbind option_bind] in H.
    destruct (Z.ltb_spec a 60); [|done]. injection H as <- <-. apply getnum_bounds in Ea. unfold reading; cbn; lia.
  - destruct (getnum true s) as [[a s1]|] eqn:Ea; [|done]. cbn [mbind option_bind] in H.
    destruct (Z.ltb_spec a 60); [|done]. injection H as <- <-. apply getnum_bounds in Ea. unfold reading; cbn; lia.
  - assert (t' = t) as ->; [|done]. repeat case_match; simplify_eq; done.
Qed.

Lemma Parse_moment layout value t : Parse layout value = Some t → moment t.
Proof.
  unfold Parse. generalize (layout_tokens (String.length layout) layout). intros tokens H.
  destruct (parse_tokens tokens no_time value) as [[t' s]|] eqn:E; [|done]. cbn [mbind option_bind] in H.
  destruct ((s =? "")%string && valid_date (t_date t')) eqn:Ev; [|done]. injection H as ->.
  apply andb_true_iff in Ev as [_ Hv]. split; [done|]. clear Hv.
  assert (H0 : reading no_time) by (vm_compute; intuition discriminate). revert E H0. generalize no_time value.
  induction tokens as [|token tokens IH]; intros t0 v; cbn [parse_tokens]; [by intros [= -> _]|].
  destruct (parse_token t0 token v) as [[t1 v1]|] eqn:E1; [|done]. cbn [mbind option_bind]. intros E H0.
  exact (IH t1 v1 E (parse_token_reading _ _ _ _ _ H0 E1)).
Qed.

(** The time with one element read from [t]. *)
Definition set_token (t0 t : source_time) (token : layout_token) : source_time :=
  let d := t_date t0 in
  match token with
  | TYear => mkTime (mkDate (year (t_date t)) (month d) (day d)) (t_hour t0) (t_minute t0) (t_second t0)
  | TMonth => mkTime (mkDate (year d) (month (t_date t)) (day d)) (t_hour t0) (t_minute t0) (t_second t0)
  | TDay => mkTime (mkDate (year d) (month d) (day (t_date t))) (t_hour t0) (t_minute t0) (t_second t0)
  | THour => mkTime d (t_hour t) (t_minute t0) (t_second t0)
  | TMinute => mkTime d (t_hour t0) (t_minute t) (t_second t0)
  | TSecond => mkTime d (t_hour t0) (t_minute t0) (t_second t)
  | TLiteral _ => t0
  end.
(** What may follow an element that reads ahead. *)
Definition separated (token : layout_token) (rest : string) : Prop :=
  match token with
  | TSecond => rest = ""
  | TLiteral c => c = " "%char → match rest with String x _ => x ≠ " "%char | "" => False end
  | _ => True
  end.

Lemma parse_token_write t t0 token rest : moment t → separated token rest →
  parse_token t0 token (format_token t token +:+ rest) = Some (set_token t0 t token, rest).
Proof.
  intros (Hv & Hy & Hh & Hm & Hs) Hsep. apply valid_date_spec in Hv as Hv'. pose proof (days_in_bounds (year (t_date t)) (month (t_date t))).
  destruct token as [| | | | | |c]; cbn [parse_token format_token set_token].
  - by rewrite getyear_string.
  - rewrite getnum_pad2 by lia. cbn [mbind option_bind]. rewrite (proj2 (andb_true_iff _ _)); [done|]. lia.
  - by rewrite getnum_pad2 by lia.
  - rewrite getnum_pad2 by lia. cbn [mbind option_bind]. by rewrite (proj2 (Z.ltb_lt _ _)) by lia.
  - rewrite getnum_pad2 by lia. cbn [mbind option_bind]. by rewrite (proj2 (Z.ltb_lt _ _)) by lia.
  - rewrite getnum_pad2 by lia. cbn [mbind option_bind]. rewrite (proj2 (Z.ltb_lt _ _)) by lia.
    cbn [separated] in Hsep. by rewrite Hsep.
  - rewrite string_app_cons, string_app_nil. cbn [separated] in Hsep. destruct (decide (c = " "%char)) as [->|Hc].
    + specialize (Hsep eq_refl). cbn. destruct rest as [|x rest]; [done|]. cbn.
      destruct x as [[] [] [] [] [] [] [] []]; try done; by destruct Hsep.
    + assert (Hx : (c =? c)%char = true) by apply Ascii.eqb_refl.
      destruct c as [[] [] [] [] [] [] [] []]; try (by rewrite Hx); done.
Qed.

(** Texts and layouts of the catalogue. *)
Definition coverage_layouts : list string := [dateLayout; "2006 -01-0215:04:05"; "2006-01-02 15:04:05"].

Lemma catalog_layouts definition : definition ∈ FixedDefinitions → f_publication definition = DateAddressable →
  f_snapshot definition = false → (f_coverage_header definition =? "")%string = false ∧ f_coverage_layout definition ∈ coverage_layouts.
Proof.
  intros Hin Hp Hs. assert (H : forallb (λ d, negb (bool_decide (f_publication d = DateAddressable)) || f_snapshot d ||
    negb (f_coverage_header d =? "")%string && bool_decide (f_coverage_layout d ∈ coverage_layouts)) FixedDefinitions = true) by (vm_compute; reflexivity).
  rewrite forallb_forall in H. specialize (H definition (proj1 (list_elem_of_In _ _) Hin)).
  rewrite (bool_decide_true _ Hp), Hs in H. cbn [negb orb] in H. apply andb_true_iff in H as [Hh Hl].
  split; [by apply negb_true_iff|]. by apply bool_decide_eq_true in Hl.
Qed.

Lemma pad2_first n rest : 0 <= n < 100 → ∃ x s, pad2 n +:+ rest = String x s ∧ x ≠ " "%char.
Proof.
  intros Hn. eexists _, _. split; [done|]. 
  destruct (digit_cases (n / 10) ltac:(Z.to_euclidean_division_equations; lia)) as [->|[->|[->|[->|[->|[->|[->|[->|[->| ->]]]]]]]]]; done.
Qed.

Lemma Parse_Format layout t : layout ∈ coverage_layouts → moment t →
  ∃ t', Parse layout (Format layout t) = Some t' ∧ t_date t' = t_date t ∧ Format layout t' = Format layout t.
Proof.
  intros Hl Ht. unfold Parse, Format. destruct Ht as (Hv & Hy & Hh & Hm & Hs). pose proof (conj Hv (conj Hy (conj Hh (conj Hm Hs)))) as Ht.
  assert (Hd : mkDate (year (t_date t)) (month (t_date t)) (day (t_date t)) = t_date t) by (by destruct (t_date t)).
  unfold coverage_layouts in Hl. rewrite !elem_of_cons in Hl. 
  destruct Hl as [->|[->|[->|Hl]]]; [..|by apply elem_of_nil in Hl];
    match goal with |- context [layout_tokens ?n ?l] => let x := eval vm_compute in (layout_tokens n l) in change (layout_tokens n l) with x end;
    cbn [fmap list_fmap string_concat foldr parse_tokens];
    repeat (rewrite parse_token_write; [cbn [mbind option_bind]|done|first [done|by intros; vm_compute|idtac]]).
  all: try (destruct t as [[y m d] h mi s]; cbn in Hv; cbn; rewrite Hv; eexists; split_and!; reflexivity).
  cbn [separated format_token]. intros _. destruct (pad2_first (t_hour t) (format_token t (TLiteral ":") +:+ format_token t TMinute +:+
    format_token t (TLiteral ":") +:+ format_token t TSecond +:+ "") ltac:(lia)) as (x & s & E & Hx).
  cbn [format_token] in E. by rewrite E.
Qed.

(** The business date of a source row is read strictly: for the reports of
    the catalogue that carry one, a text is accepted exactly when it is the
    layout's rendering of a moment, with a year from 1000. *)
Lemma ParseFixedCoverageDate_strict definition raw snapshot d : definition ∈ FixedDefinitions →
  f_publication definition = DateAddressable → f_snapshot definition = false →
  ParseFixedCoverageDate definition raw snapshot = Ok d ↔
  ∃ t, moment t ∧ t_date t = d ∧ 1000 <= year d ∧ raw = Format (f_coverage_layout definition) t.
Proof.
  intros Hin Hp Hs. destruct (catalog_layouts definition Hin Hp Hs) as [Hh Hl]. unfold ParseFixedCoverageDate.
  rewrite (bool_decide_true _ Hp), Hs, Hh. cbn [negb orb].
  assert (Hl' : (f_coverage_layout definition =? "")%string = false).
  { apply String.eqb_neq. intros E. unfold coverage_layouts in Hl. rewrite !elem_of_cons, elem_of_nil in Hl.
    destruct Hl as [Hl|[Hl|[Hl|[]]]]; by rewrite Hl in E. }
  rewrite Hl'. cbn [orb]. split.
  - destruct (raw =? "")%string; [done|]. destruct (Parse _ raw) as [t|] eqn:E; [|done].
    destruct (negb _ || _) eqn:Ef; [done|]. intros [= <-]. apply orb_false_iff in Ef as [Ef Ey].
    apply negb_false_iff, String.eqb_eq in Ef. apply Z.ltb_ge in Ey. exists t. by split; [apply Parse_moment in E|].
  - intros (t & Ht & <- & Hy & ->). destruct (Parse_Format _ t Hl Ht) as (t' & -> & Hd & Hf).
    assert ((Format (f_coverage_layout definition) t =? "")%string = false) as ->.
    { apply String.eqb_neq. intros E. destruct Ht as (_ & Hyr & _). 
      unfold coverage_layouts in Hl. rewrite !elem_of_cons, elem_of_nil in Hl.
      destruct Hl as [Hl|[Hl|[Hl|[]]]]; rewrite Hl in E; revert E;
      unfold Format; match goal with |- context [layout_tokens ?n ?l] => let x := eval vm_compute in (layout_tokens n l) in change (layout_tokens n l) with x end;
      cbn [fmap list_fmap string_concat foldr format_token]; rewrite year_string_4 by lia; done. }
    rewrite Hf, String.eqb_refl, Hd, (proj2 (Z.ltb_ge _ _)) by done. done.
Qed.

(** A row whose text names a moment of the day [d] of the interval. *)
Definition dated (definition : FixedDefinition) (from to : CalendarDate) (row : FixedCSVRow) (d : CalendarDate) : Prop :=
  ∃ t, moment t ∧ t_date t = d ∧ 1000 <= year d ∧ date_days from <= date_days d <= date_days to ∧
    default "" (Values row !! f_coverage_header definition) = Format (f_coverage_layout definition) t.

Section Coverage.
Context (definition : FixedDefinition) (Hin : definition ∈ FixedDefinitions)
  (Hp : f_publication definition = DateAddressable) (Hs : f_snapshot definition = false)
  (from to : CalendarDate) (Hf : usable from = true) (Ht : usable to = true) (Hle : date_days from <= date_days to).

Lemma coverage_dates_cons row rows dates : coverage_dates definition from to (row :: rows) = Ok dates ↔
  ∃ d ds, dates = d :: ds ∧ dated definition from to row d ∧ coverage_dates definition from to rows = Ok ds.
Proof using All.
  cbn [coverage_dates]. rewrite res_bind_Ok. split.
  - intros (d & Hd & H). apply (ParseFixedCoverageDate_strict _ _ _ _ Hin Hp Hs) in Hd as (t & Hm & <- & Hy & Hraw).
    assert (Hu : usable (t_date t) = true) by (apply usable_spec; split; [apply Hm|destruct Hm as (_ & ? & _); lia]).
    rewrite !usable_string_le in H by done. destruct (negb _ || _) eqn:E; [done|].
    apply orb_false_iff in E as [E1 E2]. apply negb_false_iff, Z.leb_le in E1, E2.
    apply res_bind_Ok in H as (ds & Hds & [= <-]). exists (t_date t), ds. split_and!; [done| |done].
    exists t. by split_and!.
  - intros (d & ds & -> & (t & Hm & <- & Hy & Hd & Hraw) & Hds). exists (t_date t). split.
    { apply (ParseFixedCoverageDate_strict _ _ _ _ Hin Hp Hs). exists t. by split_and!. }
    assert (Hu : usable (t_date t) = true) by (apply usable_spec; split; [apply Hm|destruct Hm as (_ & ? & _); lia]).
    rewrite !usable_string_le by done. rewrite !(proj2 (Z.leb_le _ _)) by lia. cbn [negb orb]. by rewrite Hds.
Qed.

Lemma coverage_dates_rows rows dates : coverage_dates definition from to rows = Ok dates ↔ Forall2 (dated definition from to) rows dates.
Proof using All.
  revert dates. induction rows as [|row rows IH]; intros dates.
  - split; [by intros [= <-]|by intros ->%Forall2_nil_inv_l].
  - rewrite coverage_dates_cons. split.
    + intros (d & ds & -> & Hd & Hds). constructor; [done|]. by apply IH.
    + intros H. apply Forall2_cons_inv_l in H as (d & ds & Hd & Hds & ->). exists d, ds. split_and!; [done..|]. by apply IH.
Qed.

Lemma ValidateFixedCoverage_ranged rows : ValidateFixedCoverage definition from to rows =
  match coverage_dates definition from to rows with
  | Err e => (Err e, rows)
  | Ok dates => (Ok tt, zip_with set_coverage rows dates)
  end.
Proof using All.
  unfold ValidateFixedCoverage. rewrite !usable_nonzero, usable_string_le by done. rewrite (proj2 (Z.leb_le _ _)) by done.
  cbn [negb orb]. by rewrite Hp, Hs.
Qed.
End Coverage.

(** Validating a segment is all or nothing and strict: it succeeds
    exactly when the text of every row is the report's rendering of a moment
    on a date of the requested interval; then every row, in order, carries
    that date and is otherwise unchanged; when it fails no row is
    changed. *)
Theorem ValidateFixedCoverage_assigns : ∀ definition from to rows verdict rows', definition ∈ FixedDefinitions →
  f_publication definition = DateAddressable → f_snapshot definition = false →
  usable from = true → usable to = true → date_days from <= date_days to →
  ValidateFixedCoverage definition from to rows = (verdict, rows') →
  (verdict = Ok tt ↔ Forall (λ row, ∃ d, dated definition from to row d) rows) ∧
  (verdict = Ok tt → Forall2 (λ row row', ∃ d, dated definition from to row d ∧ row' = set_coverage row d) rows rows') ∧
  (∀ e, verdict = Err e → rows' = rows).
Proof.
  intros definition from to rows verdict rows' Hin Hp Hs Hf Ht Hle. rewrite ValidateFixedCoverage_ranged by done.
  destruct (coverage_dates definition from to rows) as [dates|e] eqn:E; intros [= <- <-].
  - apply coverage_dates_rows in E; [|done..]. split_and!; [split; [intros _|done]| |done].
    + clear -E. induction E; constructor; eauto.
    + intros _. clear -E. induction E; constructor; eauto.
  - split_and!; [split; [done|]|done|done]. intros H.
    assert (∃ dates, Forall2 (dated definition from to) rows dates) as [dates Hd].
    { clear -H. induction H as [|row rows [d Hd] _ [ds IH]]; [by exists []|]. exists (d :: ds). by constructor. }
    apply coverage_dates_rows in Hd; [|done..]. by rewrite Hd in E.
Qed.

(** ** Witnesses *)

Definition year_2026 : CalendarDate := mkDate 2026 1 1.
Definition year_2026_end : CalendarDate := mkDate 2026 12 31.

Lemma ChunkDateRange_partition_witness :
  ∃ chunks, ChunkDateRange year_2026 year_2026_end 30 = Ok chunks ∧
    mjoin (chunk_dates <$> chunks) = interval (date_days year_2026) (interval_count year_2026 year_2026_end) ∧
    length chunks = 13%nat.
Proof.
  destruct (ChunkDateRange_partition year_2026 year_2026_end 30 eq_refl eq_refl ltac:(vm_compute; discriminate))
    as (chunks & E & H & _). exists chunks. split; [exact E|]. split; [exact H|].
  assert (Hn : match ChunkDateRange year_2026 year_2026_end 30 with Ok l => length l | Err _ => 0%nat end = 13%nat)
    by (vm_compute; reflexivity).
  rewrite E in Hn. exact Hn.
Defined.

(** A profit and loss load of two locations. *)
Definition sample_fixed : FixedDefinition :=
  nth 3 FixedDefinitions (fixed "" "" "" PerLocation NoAccountCodeStrategy [] "" "" false).
Definition sample_plan : result FixedPlan :=
  match FreezeLocations ["002 "; "001"; "001"] with
  | Ok locations => BuildFixedPlan sample_fixed (mkFixedRange year_2026 year_2026_end) locations []
  | Err e => Err e
  end.

(** [framed], evaluated. *)
Definition short_test (s : string) : bool := Z.of_nat (String.length s) <? 2 ^ 32.
Definition framed_test (definition : FixedDefinition) (plan : FixedPlan) : bool :=
  forallb short_test (plan_strings definition plan) && forallb short_test (plan_variants plan) &&
  forallb (λ m, forallb short_test (member_strings m)) (plan_members plan) &&
  (0 <=? f_max_chunk_days definition) && (f_max_chunk_days definition <? 2 ^ 32) &&
  (Z.of_nat (length (plan_variants plan)) <? 2 ^ 32) && (Z.of_nat (length (plan_members plan)) <? 2 ^ 32).

Lemma framed_tested definition plan : framed_test definition plan = true → framed definition plan.
Proof.
  assert (Hl : ∀ l, forallb short_test l = true → Forall short l).
  { intros l. rewrite forallb_forall, Forall_forall. intros H s Hs. apply Z.ltb_lt, H, list_elem_of_In, Hs. }
  unfold framed_test. rewrite !andb_true_iff, !Z.ltb_lt, Z.leb_le. intros ((((((Hp & Hv) & Hm) & ?) & ?) & ?) & ?).
  split_and!; [by apply Hl..| |done|done|done|done]. rewrite forallb_forall in Hm. apply Forall_forall.
  intros m Hin. apply Hl, Hm, list_elem_of_In, Hin.
Qed.

Lemma manifest_round_trip_witness : match sample_plan with
  | Ok plan => read_manifest (manifest_bytes sample_fixed plan) =
      Some (plan_strings sample_fixed plan, 0, [],
        [["001"; "2026-01-01"; "2026-12-31"; "001"; ""]; ["002"; "2026-01-01"; "2026-12-31"; "002"; ""]])
  | Err _ => False
  end.
Proof.
  assert (H : match sample_plan with
    | Ok plan => framed_test sample_fixed plan = true ∧ f_max_chunk_days sample_fixed = 0 ∧ plan_variants plan = [] ∧
        member_strings <$> sort_by member_before (plan_members plan) =
          [["001"; "2026-01-01"; "2026-12-31"; "001"; ""]; ["002"; "2026-01-01"; "2026-12-31"; "002"; ""]]
    | Err _ => False end).
  { vm_compute. split_and!; reflexivity. }
  destruct sample_plan as [plan|e]; [|exact H]. destruct H as (Hf & Hd & Hv & Hm).
  destruct (manifest_round_trip sample_fixed plan (framed_tested _ _ Hf)) as [E _]. rewrite E, Hd, Hv, Hm. reflexivity.
Defined.

Definition sample_teller : FixedDefinition :=
  nth 7 FixedDefinitions (fixed "" "" "" PerLocation NoAccountCodeStrategy [] "" "" false).
Definition sample_row (text : string) : FixedCSVRow := mkRow 2 "" "" zero_date {["transactiondate" := text]}.

Lemma ValidateFixedCoverage_assigns_witness :
  ValidateFixedCoverage sample_teller year_2026 year_2026_end [sample_row "2026-08-13 09:05:59"; sample_row "2027-08-13 09:05:59"] =
    (Err (Errorf "business date is outside its source segment"), [sample_row "2026-08-13 09:05:59"; sample_row "2027-08-13 09:05:59"]) ∧
  ¬ Forall (λ row, ∃ d, dated sample_teller year_2026 year_2026_end row d)
      [sample_row "2026-08-13 09:05:59"; sample_row "2027-08-13 09:05:59"].
Proof.
  assert (E : ValidateFixedCoverage sample_teller year_2026 year_2026_end [sample_row "2026-08-13 09:05:59"; sample_row "2027-08-13 09:05:59"] =
    (Err (Errorf "business date is outside its source segment"), [sample_row "2026-08-13 09:05:59"; sample_row "2027-08-13 09:05:59"]))
    by (vm_compute; reflexivity).
  assert (Hin : sample_teller ∈ FixedDefinitions) by (apply list_elem_of_In; apply nth_In; vm_compute; repeat constructor).
  split; [exact E|]. intros H.
  destruct (ValidateFixedCoverage_assigns sample_teller year_2026 year_2026_end _ _ _ Hin eq_refl eq_refl eq_refl eq_refl
    ltac:(vm_compute; discriminate) E) as ([_ Hok] & _). discriminate (Hok H).
Defined.
