(* ===== verification/FixedCsv.v ===== *)
(** * Reading fixed report files (src/internal/ingestion/fixed.go)

    The [encoding/csv] reader as [ParseFixedCSV] configures it (the separator
    is a bar, quotes are lazy, the number of fields is the header's), the
    validation of the headers, and the rows with their checksums.  The
    reader is modelled on the whole text; texts that do not fit its buffer
    take the same path. *)

From S2P Require Import Prelude Calendar Json Hash Catalog Params FixedPlans.

Open Scope Z_scope.

(** ** The reader *)

Definition newline : ascii := byte 10.
Definition carriage : ascii := byte 13.
Definition quote : ascii := byte 34.
Definition bar : ascii := byte 124.

(** [ReadSlice] up to a line feed: the text before it and, when there is a
    line feed, what follows. *)
Fixpoint cut_line (s : string) : string * option string :=
  match s with
  | "" => ("", None)
  | String c rest =>
      if (c =? newline)%char then ("", Some rest)
      else let (line, more) := cut_line rest in (String c line, more)
  end.
Fixpoint drop_carriage (s : string) : string :=
  match s with
  | "" => ""
  | String c "" => if (c =? carriage)%char then "" else s
  | String c rest => String c (drop_carriage rest)
  end.

(** A line, whether it ended with a line feed, and the rest; a carriage
    return before the line feed or the end is dropped. *)
Record csv_line := mkLine { line_text : string; line_feed : bool; line_rest : string }.
Definition readLine (s : string) : option csv_line :=
  match s with
  | "" => None
  | _ =>
      match cut_line s with
      | (line, Some rest) => Some (mkLine (drop_carriage line) true rest)
      | (line, None) => Some (mkLine (drop_carriage line) false "")
      end
  end.

(** The text up to a character and what follows it. *)
Fixpoint cut_at (x : ascii) (s : string) : string * option string :=
  match s with
  | "" => ("", None)
  | String c rest =>
      if (c =? x)%char then ("", Some rest) else let (a, more) := cut_at x rest in (String c a, more)
  end.

Definition feed_text (feed : bool) : string := if feed then String newline "" else "".

(** The fields of the record whose current line is [line] ([feed]: it ended
    with a line feed), the text that follows being [rest]; [number] is the
    number of that line.  A quoted field goes on over line ends.  [field] is
    what was read of the quoted field, [None] at the start of a field. *)
Fixpoint readFields (fuel : nat) (field : option string) (line : string) (feed : bool) (rest : string) (number : Z)
    (fields : list string) : option (list string * string * Z) :=
  match fuel with
  | O => None
  | S fuel =>
      match field with
      | None =>
          match line with
          | String c line' =>
              if (c =? quote)%char then readFields fuel (Some "") line' feed rest number fields
              else
                match cut_at bar line with
                | (value, Some more) => readFields fuel None more feed rest number (fields ++ [value])
                | (value, None) => Some (fields ++ [value], rest, number)
                end
          | "" => Some (fields ++ [""], rest, number)
          end
      | Some value =>
          match cut_at quote line with
          | (text, Some more) =>
              let value := value +:+ text in
              match more with
              | "" => Some (fields ++ [value], rest, number)
              | String c more' =>
                  if (c =? quote)%char then readFields fuel (Some (value +:+ String quote "")) more' feed rest number fields
                  else if (c =? bar)%char then readFields fuel None more' feed rest number (fields ++ [value])
                  else readFields fuel (Some (value +:+ String quote "")) more feed rest number fields
              end
          | (text, None) =>
              let value := value +:+ text +:+ feed_text feed in
              match readLine rest with
              | None => Some (fields ++ [value], "", number)
              | Some l => readFields fuel (Some value) (line_text l) (line_feed l) (line_rest l) (number + 1) fields
              end
          end
      end
  end.

(** [Reader.Read]: empty lines are skipped; the record's first line, its
    fields, and the state after it. *)
Record csv_record := mkRecord { record_line : Z; record_fields : list string; record_rest : string; record_number : Z }.
Fixpoint readRecord (fuel : nat) (s : string) (number : Z) : option csv_record :=
  match fuel with
  | O => None
  | S fuel =>
      match readLine s with
      | None => None
      | Some l =>
          if (line_text l =? "")%string then readRecord fuel (line_rest l) (number + 1) else
          match readFields (2 * S (String.length s)) None (line_text l) (line_feed l) (line_rest l) (number + 1) [] with
          | Some (fields, rest, last) => Some (mkRecord (number + 1) fields rest last)
          | None => None
          end
      end
  end.
Definition Read (s : string) (number : Z) : option csv_record := readRecord (S (String.length s)) s number.

(** ** Headers *)

Record FixedHeaderError := mkHeaderError {
  he_report : string; he_kind : string; he_expected : string; he_raw : string; he_normalized : string; he_column : Z }.

(** The loop over the received headers: the headers seen and the header of
    each column name. *)
Fixpoint headersLoop (definition : FixedDefinition) (index : nat) (rawHeaders headers : list string)
    (seen : list string) (normalized : list (string * string)) : option FixedHeaderError :=
  match rawHeaders, headers with
  | raw :: rawHeaders, header :: headers =>
      let expected := default "" (f_headers definition !! index) in
      let fail kind expected := Some (mkHeaderError (f_key definition) kind expected raw header (Z.of_nat index + 1)) in
      if bool_decide (header ∈ seen) then fail "duplicate" expected else
      match assoc (toSnakeCase header) normalized with
      | Some previous => fail "normalization_collision" previous
      | None =>
          if negb (bool_decide (header ∈ f_headers definition)) then fail "unexpected" expected
          else headersLoop definition (S index) rawHeaders headers (header :: seen) ((toSnakeCase header, header) :: normalized)
      end
  | _, _ => None
  end.
(** The first required header that was not received. *)
Fixpoint missingHeader (definition : FixedDefinition) (index : Z) (required headers : list string) : option FixedHeaderError :=
  match required with
  | [] => None
  | header :: required =>
      if bool_decide (header ∈ headers) then missingHeader definition (index + 1) required headers
      else Some (mkHeaderError (f_key definition) "missing" header "" "" (index + 1))
  end.
Definition validateFixedHeaders (definition : FixedDefinition) (rawHeaders headers : list string) : option FixedHeaderError :=
  match headersLoop definition 0 rawHeaders headers [] [] with
  | Some e => Some e
  | None => missingHeader definition 0 (f_headers definition) headers
  end.

(** ** Rows *)

(** [bytes.Join(values, {0})]. *)
Fixpoint join_nul (values : list string) : string :=
  match values with
  | [] => ""
  | [value] => value
  | value :: values => value +:+ String (byte 0) (join_nul values)
  end.
Definition row_checksum (values : list string) : string := hex_encode (sha256 (join_nul values)).

Definition csv_row (definition : FixedDefinition) (sourceLocationID : string) (headers : list string) (line : Z)
    (values : list string) : FixedCSVRow :=
  mkRow line (row_checksum values) (if f_source_location definition then sourceLocationID else "") zero_date
    (list_to_map (zip headers values)).

Inductive csv_error := ErrNoHeader | ErrHeader (e : FixedHeaderError) | ErrFieldCount (line : Z).

Fixpoint readRows (fuel : nat) (definition : FixedDefinition) (sourceLocationID : string) (headers : list string)
    (s : string) (number : Z) : option (list FixedCSVRow + csv_error) :=
  match fuel with
  | O => None
  | S fuel =>
      match Read s number with
      | None => Some (inl [])
      | Some r =>
          if negb (Nat.eqb (length (record_fields r)) (length headers)) then Some (inr (ErrFieldCount (record_line r))) else
          match readRows fuel definition sourceLocationID headers (record_rest r) (record_number r) with
          | Some (inl rows) => Some (inl (csv_row definition sourceLocationID headers (record_line r) (record_fields r) :: rows))
          | e => e
          end
      end
  end.

Definition byte_order_mark : string := string_of_codes [239; 187; 191]%N.

Definition ParseFixedCSV (definition : FixedDefinition) (sourceLocationID content : string) : option (list FixedCSVRow + csv_error) :=
  let content := default content (cut_prefix byte_order_mark content) in
  match Read content 0 with
  | None => Some (inr ErrNoHeader)
  | Some r =>
      let headers := trim_space <$> record_fields r in
      match validateFixedHeaders definition (record_fields r) headers with
      | Some e => Some (inr (ErrHeader e))
      | None => readRows (S (String.length content)) definition sourceLocationID headers (record_rest r) (record_number r)
      end
  end.

(** ** The reader ends *)

Lemma cut_line_length s : match cut_line s with
  | (line, Some rest) => (String.length line + S (String.length rest) = String.length s)%nat
  | (line, None) => line = s
  end.
Proof.
  induction s as [|c s IH]; [done|]. cbn [cut_line]. destruct (c =? newline)%char; [done|].
  destruct (cut_line s) as [line [rest|]]; cbn; [lia|by rewrite IH].
Qed.
Lemma drop_carriage_length s : (String.length (drop_carriage s) <= String.length s)%nat.
Proof. induction s as [|c [|d s] IH]; [done|unfold drop_carriage; destruct (c =? carriage)%char; cbn [String.length]; lia|].
  change (drop_carriage (String c (String d s))) with (String c (drop_carriage (String d s))). cbn [String.length] in *. lia.
Qed.

(** A line is shorter than the text it is taken from, up to its line feed. *)
Lemma readLine_length s l : readLine s = Some l →
  (String.length (line_text l) + String.length (line_rest l) <= String.length s)%nat ∧ (String.length (line_rest l) < String.length s)%nat.
Proof.
  unfold readLine. destruct s as [|c s]; [done|]. pose proof (cut_line_length (String c s)) as H.
  destruct (cut_line (String c s)) as [line [rest|]]; intros [= <-]; cbn [line_text line_rest];
    pose proof (drop_carriage_length line) as Hd; [lia|]. subst line. cbn [String.length] in *. lia.
Qed.

Lemma cut_at_length x s : match cut_at x s with
  | (a, Some more) => (String.length a + S (String.length more) = String.length s)%nat
  | (a, None) => a = s
  end.
Proof.
  induction s as [|c s IH]; [done|]. cbn [cut_at]. destruct (c =? x)%char; [done|].
  destruct (cut_at x s) as [a [more|]]; cbn; [lia|by rewrite IH].
Qed.

Lemma readFields_ends fuel : ∀ field line feed rest number fields,
  (String.length line + 2 * String.length rest < fuel)%nat →
  ∃ r last n, readFields fuel field line feed rest number fields = Some (r, last, n) ∧ (String.length last <= String.length rest)%nat.
Proof.
  induction fuel as [|fuel IH]; intros field line feed rest number fields Hf; [lia|]. cbn [readFields].
  destruct field as [value|].
  - pose proof (cut_at_length quote line) as Hc. destruct (cut_at quote line) as [text [more|]].
    + destruct more as [|c more]; [by eauto 10|]. cbn in Hc.
      destruct (c =? quote)%char; [apply IH; lia|]. destruct (c =? bar)%char; apply IH; cbn; lia.
    + destruct (readLine rest) as [l|] eqn:El; [|eexists _, _, _; split; [done|cbn; lia]].
      apply readLine_length in El as [H1 H2].
      destruct (IH (Some (value +:+ text +:+ feed_text feed)) (line_text l) (line_feed l) (line_rest l) (number + 1) fields) as (r & last & n & E & Hl);
        [lia|]. eexists _, _, _. split; [exact E|lia].
  - destruct line as [|c line]; [by eauto 10|]. destruct (c =? quote)%char; [apply IH; cbn in Hf; lia|].
    pose proof (cut_at_length bar (String c line)) as Hc. destruct (cut_at bar (String c line)) as [value [more|]]; [apply IH; lia|by eauto 10].
Qed.

Lemma readRecord_ends fuel : ∀ s number, (String.length s < fuel)%nat →
  match readRecord fuel s number with
  | Some r => (String.length (record_rest r) < String.length s)%nat
  | None => True
  end.
Proof.
  induction fuel as [|fuel IH]; intros s number Hf; [lia|]. cbn [readRecord]. destruct (readLine s) as [l|] eqn:El; [|done].
  apply readLine_length in El as [H1 H2]. destruct (line_text l =? "")%string.
  - specialize (IH (line_rest l) (number + 1) ltac:(lia)). destruct (readRecord _ _ _); [lia|done].
  - destruct (readFields_ends (2 * S (String.length s)) None (line_text l) (line_feed l) (line_rest l) (number + 1) [] ltac:(lia))
      as (r & last & n & -> & Hl). cbn. lia.
Qed.
Lemma Read_ends s number r : Read s number = Some r → (String.length (record_rest r) < String.length s)%nat.
Proof. intros H. pose proof (readRecord_ends (S (String.length s)) s number ltac:(lia)) as He. unfold Read in H. by rewrite H in He. Qed.

Lemma readRows_ends definition location headers fuel : ∀ s number, (String.length s < fuel)%nat →
  is_Some (readRows fuel definition location headers s number).
Proof.
  induction fuel as [|fuel IH]; intros s number Hf; [lia|]. cbn [readRows]. destruct (Read s number) as [r|] eqn:Er; [|done].
  apply Read_ends in Er. destruct (negb _); [done|]. destruct (IH (record_rest r) (record_number r) ltac:(lia)) as [[rows|e] ->]; done.
Qed.

Lemma ParseFixedCSV_ends definition location content : is_Some (ParseFixedCSV definition location content).
Proof.
  unfold ParseFixedCSV. set (s := default content (cut_prefix byte_order_mark content)). destruct (Read s 0) as [r|] eqn:Er; [|done].
  apply Read_ends in Er. destruct (validateFixedHeaders _ _ _); [done|]. apply readRows_ends. 
  assert (String.length s <= String.length content)%nat; [|lia]. subst s. unfold byte_order_mark.
  destruct (cut_prefix _ content) as [rest|] eqn:E; [|done]. cbn [default from_option id]. clear -E.
  destruct content as [|a [|b [|c content]]]; cbn in E; repeat (case_match; try done); simplify_eq. cbn. lia.
Qed.

(** ** Writing a file *)

Definition quote_text : string := String quote "".
Definition newline_text : string := String newline "".
Fixpoint double_quotes (s : string) : string :=
  match s with
  | "" => ""
  | String c s => if (c =? quote)%char then String quote (String quote (double_quotes s)) else String c (double_quotes s)
  end.
Definition write_field (value : string) : string := quote_text +:+ double_quotes value +:+ quote_text.
Fixpoint write_record (values : list string) : string :=
  match values with
  | [] => newline_text
  | [value] => write_field value +:+ newline_text
  | value :: values => write_field value +:+ String bar (write_record values)
  end.

(** Texts without carriage returns, which the reader may drop. *)
Definition no_carriage (s : string) : bool := string_forallb (λ c, negb (c =? carriage)%char) s.
Fixpoint count_char (x : ascii) (s : string) : Z :=
  match s with "" => 0 | String c s => (if (c =? x)%char then 1 else 0) + count_char x s end.
Definition newlines (values : list string) : Z := foldr (λ v n, count_char newline v + n) 0 values.

(** The reader at a text: in a field or at its start. *)
Definition at_text (fuel : nat) (field : option string) (s : string) (number : Z) (fields : list string) :=
  let (line, more) := cut_line s in readFields fuel field line (isSome more) (default "" more) number fields.

Lemma no_carriage_app a b : no_carriage (a +:+ b) = no_carriage a && no_carriage b.
Proof. unfold no_carriage. induction a as [|c a IH]; [done|]. rewrite string_app_cons. cbn [string_forallb]. by rewrite IH, andb_assoc. Qed.

Lemma drop_carriage_same s : no_carriage s = true → drop_carriage s = s.
Proof.
  induction s as [|c [|d s] IH]; [done| |].
  - unfold no_carriage, drop_carriage. cbn [string_forallb]. by destruct (c =? carriage)%char.
  - intros H. change (drop_carriage (String c (String d s))) with (String c (drop_carriage (String d s))).
    rewrite IH; [done|]. unfold no_carriage in *. cbn [string_forallb] in *. by apply andb_true_iff in H as [_ H].
Qed.

Lemma cut_line_carriage s : no_carriage s = true → no_carriage (cut_line s).1 = true.
Proof.
  induction s as [|c s IH]; [done|]. unfold no_carriage in *. cbn [string_forallb cut_line]. intros [Hc Hs]%andb_true_iff.
  destruct (c =? newline)%char; [done|]. specialize (IH Hs). destruct (cut_line s) as [line more]. cbn in *. by rewrite Hc.
Qed.

Lemma readLine_cut s : no_carriage s = true → s ≠ "" → readLine s = Some (mkLine (cut_line s).1 (isSome (cut_line s).2) (default "" (cut_line s).2)).
Proof.
  intros Hc Hs. apply cut_line_carriage, drop_carriage_same in Hc. unfold readLine. destruct s as [|c s]; [done|].
  destruct (cut_line (String c s)) as [line [rest|]]; cbn in *; by rewrite Hc.
Qed.

Section Steps.
Context (fuel : nat) (number : Z) (fields : list string).

Lemma at_char acc c s : (c =? quote)%char = false → (c =? newline)%char = false →
  at_text fuel (Some acc) (String c s) number fields = at_text fuel (Some (acc +:+ String c "")) s number fields.
Proof.
  intros Hq Hn. unfold at_text. cbn [cut_line]. rewrite Hn. destruct (cut_line s) as [line more].
  destruct fuel as [|fuel']; [done|]. cbn [readFields cut_at]. rewrite Hq. destruct (cut_at quote line) as [text [m|]].
  - assert (E : (acc +:+ String c "") +:+ text = acc +:+ String c text) by (by rewrite string_app_assoc). by rewrite E.
  - assert (E : (acc +:+ String c "") +:+ text +:+ feed_text (isSome more) = acc +:+ String c text +:+ feed_text (isSome more))
      by (by rewrite string_app_assoc). by rewrite E.
Qed.

Lemma at_newline acc s : no_carriage s = true → s ≠ "" →
  at_text (S fuel) (Some acc) (String newline s) number fields = at_text fuel (Some (acc +:+ newline_text)) s (number + 1) fields.
Proof.
  intros Hc Hs. unfold at_text. cbn [cut_line]. rewrite Ascii.eqb_refl. cbn [readFields cut_at default from_option id isSome feed_text].
  rewrite readLine_cut by done. cbn [line_text line_feed line_rest]. rewrite string_app_nil. by destruct (cut_line s).
Qed.

Lemma at_quotes acc s :
  at_text (S fuel) (Some acc) (String quote (String quote s)) number fields = at_text fuel (Some (acc +:+ quote_text)) s number fields.
Proof.
  unfold at_text. cbn [cut_line]. change (quote =? newline)%char with false. cbn [cut_line]. 
  destruct (cut_line s) as [line more]. cbn [readFields cut_at]. rewrite !Ascii.eqb_refl. by rewrite string_app_nil_r.
Qed.

Lemma at_open s : at_text (S fuel) None (String quote s) number fields = at_text fuel (Some "") s number fields.
Proof.
  unfold at_text. cbn [cut_line]. change (quote =? newline)%char with false. destruct (cut_line s) as [line more].
  cbn [readFields]. by rewrite Ascii.eqb_refl.
Qed.

Lemma at_bar acc s : at_text (S fuel) (Some acc) (String quote (String bar s)) number fields = at_text fuel None s number (fields ++ [acc]).
Proof.
  unfold at_text. cbn [cut_line]. change (quote =? newline)%char with false. change (bar =? newline)%char with false. cbn [cut_line].
  destruct (cut_line s) as [line more]. cbn [readFields cut_at]. rewrite !Ascii.eqb_refl. change (bar =? quote)%char with false.
  by rewrite string_app_nil_r.
Qed.

Lemma at_end acc s : at_text (S fuel) (Some acc) (String quote (String newline s)) number fields = Some (fields ++ [acc], s, number).
Proof.
  unfold at_text. cbn [cut_line]. change (quote =? newline)%char with false. rewrite Ascii.eqb_refl.
  cbn [readFields cut_at]. rewrite !Ascii.eqb_refl. by rewrite string_app_nil_r.
Qed.
End Steps.

(** The steps a quoted value takes. *)
Definition value_steps (v : string) : nat := Z.to_nat (count_char quote v + count_char newline v).

Lemma count_char_nonneg x s : 0 <= count_char x s.
Proof. induction s as [|c s IH]; cbn; [lia|]. destruct (c =? x)%char; lia. Qed.

Lemma double_quotes_carriage v : no_carriage v = true → no_carriage (double_quotes v) = true.
Proof.
  unfold no_carriage. induction v as [|c v IH]; [done|]. cbn [string_forallb double_quotes]. intros [Hc Hv]%andb_true_iff.
  destruct (Ascii.eqb_spec c quote) as [->|]; cbn [string_forallb]; [by apply IH|]. rewrite Hc. by apply IH.
Qed.

Lemma at_value v : ∀ fuel acc s number fields, no_carriage v = true → no_carriage s = true → s ≠ "" →
  at_text (value_steps v + fuel) (Some acc) (double_quotes v +:+ s) number fields =
  at_text fuel (Some (acc +:+ v)) s (number + count_char newline v) fields.
Proof.
  induction v as [|c v IH]; intros fuel acc s number fields Hv Hs Hne.
  { cbn. by rewrite string_app_nil_r, Z.add_0_r. }
  assert (Hv' : no_carriage v = true) by (unfold no_carriage in *; cbn in Hv; by apply andb_true_iff in Hv as [_ Hv]).
  assert (Hsteps : value_steps (String c v) = ((if (c =? quote)%char then 1 else 0) + (if (c =? newline)%char then 1 else 0) + value_steps v)%nat).
  { unfold value_steps. cbn [count_char]. pose proof (count_char_nonneg quote v). pose proof (count_char_nonneg newline v).
    destruct (c =? quote)%char, (c =? newline)%char; lia. }
  cbn [double_quotes count_char]. rewrite Hsteps. destruct (Ascii.eqb_spec c quote) as [->|Hq].
  - change (quote =? newline)%char with false. rewrite !string_app_cons. cbn [Nat.add]. rewrite at_quotes, IH by done.
    rewrite string_app_assoc. done.
  - rewrite string_app_cons. destruct (Ascii.eqb_spec c newline) as [->|Hn].
    + cbn [Nat.add]. rewrite at_newline.
      * rewrite IH by done. rewrite string_app_assoc. f_equal. lia.
      * rewrite no_carriage_app, (double_quotes_carriage v Hv'). done.
      * intros E. apply (f_equal String.length) in E. rewrite string_length_app in E. destruct s; [done|]. cbn in E. lia.
    + cbn [Nat.add]. rewrite at_char; [|by apply Ascii.eqb_neq|by apply Ascii.eqb_neq]. rewrite IH by done. rewrite string_app_assoc. done.
Qed.

Definition record_steps (values : list string) : nat := foldr (λ v n, (2 + value_steps v + n)%nat) 0%nat values.

Lemma write_record_carriage values : Forall (λ v, no_carriage v = true) values → no_carriage (write_record values) = true.
Proof.
  induction values as [|v values IH]; intros Hv; [done|]. apply Forall_cons in Hv as [Hv Hvs].
  assert (Hw : no_carriage (write_field v) = true) by (unfold write_field; by rewrite !no_carriage_app, double_quotes_carriage).
  cbn [write_record]. destruct values as [|w values]; [by rewrite no_carriage_app, Hw|].
  rewrite no_carriage_app, Hw. cbn [andb]. apply IH in Hvs. by unfold no_carriage in *; cbn [string_forallb]; rewrite Hvs.
Qed.

Lemma at_record values : ∀ fuel s number fields, values ≠ [] → Forall (λ v, no_carriage v = true) values → no_carriage s = true →
  at_text (record_steps values + fuel) None (write_record values +:+ s) number fields =
  Some (fields ++ values, s, number + newlines values).
Proof.
  induction values as [|v values IH]; intros fuel s number fields Hne Hv Hs; [done|]. clear Hne. apply Forall_cons in Hv as [Hv Hvs].
  cbn [write_record record_steps foldr newlines]. unfold write_field, quote_text. destruct values as [|w values].
  - rewrite !string_app_assoc, !string_app_cons, !string_app_nil. cbn [foldr Nat.add]. rewrite at_open.
    replace (S (value_steps v + 0 + fuel)) with (value_steps v + S fuel)%nat by lia.
    rewrite at_value by (done || by unfold no_carriage in *; cbn [string_forallb]; rewrite Hs).
    rewrite string_app_nil. unfold newline_text. rewrite string_app_cons, string_app_nil, at_end. do 2 f_equal. lia.
  - set (rest := write_record (w :: values)). change (foldr _ 0%nat (w :: values)) with (record_steps (w :: values)).
    change (foldr _ 0 (w :: values)) with (newlines (w :: values)).
    rewrite !string_app_assoc, !string_app_cons, !string_app_nil. cbn [Nat.add]. rewrite at_open.
    replace (S (value_steps v + record_steps (w :: values) + fuel)) with (value_steps v + S (record_steps (w :: values) + fuel))%nat by lia.
    assert (Hr : no_carriage (rest +:+ s) = true) by (rewrite no_carriage_app, Hs; unfold rest; by rewrite write_record_carriage).
    rewrite at_value by (done || by unfold no_carriage in *; cbn [string_forallb]; rewrite Hr).
    rewrite string_app_nil, at_bar. unfold rest. rewrite IH by done. rewrite <- app_assoc. do 2 f_equal. lia.
Qed.

Lemma double_quotes_steps v : (value_steps v <= String.length (double_quotes v))%nat.
Proof.
  unfold value_steps. induction v as [|c v IH]; [cbn; lia|]. cbn [count_char double_quotes].
  pose proof (count_char_nonneg quote v). pose proof (count_char_nonneg newline v).
  destruct (Ascii.eqb_spec c quote) as [->|]; [change (quote =? newline)%char with false|destruct (c =? newline)%char]; cbn [String.length]; lia.
Qed.

Lemma record_steps_length values : (record_steps values <= String.length (write_record values))%nat.
Proof.
  induction values as [|v values IH]; [cbn; lia|]. cbn [record_steps foldr write_record]. change (foldr _ 0%nat values) with (record_steps values).
  pose proof (double_quotes_steps v) as Hv. unfold write_field, quote_text.
  destruct values as [|w values]; rewrite !string_length_app; cbn [String.length record_steps foldr] in *; lia.
Qed.

Lemma write_record_first values rest : values ≠ [] → ∃ s, write_record values +:+ rest = String quote s.
Proof. destruct values as [|v [|w values]]; [done|by eexists|by eexists]. Qed.

Lemma Read_record values s number : values ≠ [] → Forall (λ v, no_carriage v = true) values → no_carriage s = true →
  Read (write_record values +:+ s) number = Some (mkRecord (number + 1) values s (number + 1 + newlines values)).
Proof.
  intros Hne Hv Hs. set (content := write_record values +:+ s).
  assert (Hc : no_carriage content = true) by (unfold content; by rewrite no_carriage_app, Hs, write_record_carriage).
  destruct (write_record_first values s Hne) as [t Ht]. fold content in Ht.
  unfold Read. cbn [readRecord]. rewrite readLine_cut by (done || by rewrite Ht). cbn [line_text line_feed line_rest].
  assert (((cut_line content).1 =? "")%string = false) as ->.
  { rewrite Ht. cbn [cut_line]. change (quote =? newline)%char with false. by destruct (cut_line t). }
  assert (Hfuel : (record_steps values <= String.length content)%nat).
  { pose proof (record_steps_length values). unfold content. rewrite string_length_app. lia. }
  pose proof (at_record values (2 * S (String.length content) - record_steps values) s (number + 1) [] Hne Hv Hs) as Ha.
  replace (record_steps values + (2 * S (String.length content) - record_steps values))%nat with (2 * S (String.length content))%nat in Ha by lia.
  fold content in Ha. unfold at_text in Ha. destruct (cut_line content) as [line more]. cbn [fst snd]. by rewrite Ha.
Qed.

(** The rows of a file, numbered by the line each starts on. *)
Fixpoint numbered_rows (definition : FixedDefinition) (location : string) (number : Z) (rows : list (list string)) : list FixedCSVRow :=
  match rows with
  | [] => []
  | values :: rows =>
      csv_row definition location (f_headers definition) (number + 1) values ::
      numbered_rows definition location (number + 1 + newlines values) rows
  end.
Definition write_file (definition : FixedDefinition) (rows : list (list string)) : string :=
  write_record (f_headers definition) +:+ string_concat (write_record <$> rows).

Section RoundTrip.
Context (definition : FixedDefinition) (location : string) (Hne : f_headers definition ≠ []).
Let writable (values : list string) : Prop :=
  length values = length (f_headers definition) ∧ Forall (λ v, no_carriage v = true) values.

Lemma rows_carriage rows : Forall writable rows → no_carriage (string_concat (write_record <$> rows)) = true.
Proof using Type.
  induction 1 as [|values rows [_ Hv] _ IH]; [done|].
  change (string_concat (write_record <$> values :: rows)) with (write_record values +:+ string_concat (write_record <$> rows)).
  by rewrite no_carriage_app, IH, write_record_carriage.
Qed.

Lemma readRows_written rows : ∀ fuel number, (length rows < fuel)%nat → Forall writable rows →
  readRows fuel definition location (f_headers definition) (string_concat (write_record <$> rows)) number =
  Some (inl (numbered_rows definition location number rows)).
Proof using Hne.
  induction rows as [|values rows IH]; intros fuel number Hf Hrows; (destruct fuel as [|fuel]; [cbn in Hf; lia|]); [done|].
  apply Forall_cons in Hrows as [[Hl Hv] Hrows]. cbn [readRows].
  change (string_concat (write_record <$> values :: rows)) with (write_record values +:+ string_concat (write_record <$> rows)).
  rewrite Read_record; [|by intros ->; destruct (f_headers definition)|done|by apply rows_carriage].
  cbn [record_fields record_rest record_line record_number]. rewrite Hl, Nat.eqb_refl. cbn [negb].
  rewrite IH; [done|cbn in Hf; lia|done].
Qed.

Lemma rows_length rows : Forall writable rows → (length rows <= String.length (string_concat (write_record <$> rows)))%nat.
Proof using Hne.
  induction 1 as [|values rows [Hl _] _ IH]; [cbn; lia|].
  change (string_concat (write_record <$> values :: rows)) with (write_record values +:+ string_concat (write_record <$> rows)).
  rewrite string_length_app. cbn [length]. assert (values ≠ []) as Hv by (intros ->; by destruct (f_headers definition)).
  destruct (write_record_first values "" Hv) as [t Ht]. rewrite string_app_nil_r in Ht. rewrite Ht. cbn. lia.
Qed.
End RoundTrip.

(** The headers of the catalogue are received as they are required. *)
Definition headers_plain (definition : FixedDefinition) : bool :=
  negb (bool_decide (f_headers definition = [])) && bool_decide (trim_space <$> f_headers definition = f_headers definition) &&
  forallb no_carriage (f_headers definition) && (newlines (f_headers definition) =? 0) &&
  negb (isSome (validateFixedHeaders definition (f_headers definition) (f_headers definition))).

Lemma catalog_headers definition : definition ∈ FixedDefinitions → headers_plain definition = true.
Proof.
  intros Hin. assert (H : forallb headers_plain FixedDefinitions = true) by (vm_compute; reflexivity).
  rewrite forallb_forall in H. by apply H, list_elem_of_In.
Qed.

(** C31: reading ends on every text, and inverts writing: for every report of
    the catalogue, a file with the required headers and any rows of values
    without carriage returns, written with quoted fields (so values may hold
    bars, quotes and line ends), parses to exactly these rows, in order, each
    with the line it starts on, the checksum of its values and its values by
    header. *)
Theorem ParseFixedCSV_round_trip : ∀ definition location content rows, definition ∈ FixedDefinitions →
  Forall (λ values, length values = length (f_headers definition) ∧ Forall (λ v, no_carriage v = true) values) rows →
  is_Some (ParseFixedCSV definition location content) ∧
  ParseFixedCSV definition location (write_file definition rows) = Some (inl (numbered_rows definition location 1 rows)).
Proof.
  intros definition location content rows Hin Hrows. split; [apply ParseFixedCSV_ends|].
  pose proof (catalog_headers definition Hin) as Hh. unfold headers_plain in Hh. rewrite !andb_true_iff, !negb_true_iff in Hh.
  destruct Hh as ((((Hne%bool_decide_eq_false & Htrim%bool_decide_eq_true) & Hcar) & Hnl%Z.eqb_eq) & Hval).
  assert (Hcar' : Forall (λ v, no_carriage v = true) (f_headers definition)).
  { apply Forall_forall. intros v Hv. rewrite forallb_forall in Hcar. by apply Hcar, list_elem_of_In. }
  pose proof (rows_carriage definition rows Hrows) as Hrc.
  unfold ParseFixedCSV, write_file. set (body := string_concat (write_record <$> rows)) in *.
  destruct (write_record_first (f_headers definition) body Hne) as [t Ht].
  assert (cut_prefix byte_order_mark (write_record (f_headers definition) +:+ body) = None) as -> by (by rewrite Ht).
  cbn [default from_option id]. rewrite Read_record by done. cbn [record_fields record_rest record_number]. rewrite Htrim.
  destruct (validateFixedHeaders _ _ _); [done|]. rewrite Hnl. unfold body.
  rewrite readRows_written; [done|done| |done]. pose proof (rows_length definition Hne rows Hrows) as Hl.
  rewrite string_length_app. fold body in Hl |- *. lia.
Qed.

(** ** Witness *)

Definition sample_values (first : string) : list string := first :: replicate (length (f_headers sample_teller) - 1) "x".
Lemma ParseFixedCSV_round_trip_witness : ∃ rows,
  ParseFixedCSV sample_teller "" (write_file sample_teller [sample_values ("a" +:+ newline_text +:+ quote_text +:+ "b|"); sample_values "c"]) =
    Some (inl rows) ∧ SourceRowNumber <$> rows = [2; 4].
Proof.
  assert (Hin : sample_teller ∈ FixedDefinitions) by (apply list_elem_of_In; apply nth_In; vm_compute; repeat constructor).
  destruct (ParseFixedCSV_round_trip sample_teller "" "" [sample_values ("a" +:+ newline_text +:+ quote_text +:+ "b|"); sample_values "c"] Hin) as [_ H].
  - repeat constructor.
  - eexists. split; [exact H|]. vm_compute. reflexivity.
Defined.
