(* ===== verification/Inserts.v ===== *)
(** * Batched inserts (src/internal/ingestionstore/sql.go)

    [insertRows] sends the rows of a table in statements of bounded size.
    The statement itself and the values of a row are parameters; the theorem
    says the batches change nothing: the rows arrive as if one statement had
    sent them all. *)

From S2P Require Import Prelude.

Open Scope Z_scope.

(** A value of a row: texts and byte strings have a size, everything else
    counts as 32 bytes. *)
Inductive sql_value := VText (s : string) | VBytes (s : string) | VOther.

Definition value_bytes (v : sql_value) : Z :=
  match v with VText s | VBytes s => Z.of_nat (String.length s) | VOther => 32 end.
Definition estimateRowBytes (row : list sql_value) : Z :=
  foldl (λ bytes v, bytes + value_bytes v) (Z.of_nat (length row) * 8) row.

(** [safeIdentifier]: a lower-case letter or an underscore, then these or
    digits. *)
Definition safeIdentifier (s : string) : bool :=
  match s with
  | "" => false
  | String c rest =>
      (is_lower c || (c =? "_")%char) && string_forallb (λ c, is_lower c || is_digit c || (c =? "_")%char) rest
  end.
Definition quoteIdentifier (value : string) : result string :=
  if Nat.eqb (String.length value) 0 || (64 <? String.length value)%nat || negb (safeIdentifier value)
  then Err (Errorf "unsafe SQL identifier") else Ok (string_of_codes [96%N] +:+ value +:+ string_of_codes [96%N]).

Definition maxInsertParameters : Z := 60000.
Definition maxInsertBytes : Z := 4 * 2 ^ 20.

Section InsertRows.
Context {S R : Type} (values : R → list sql_value) (exec : list R → Tx S unit).

Definition rowBytes (r : R) : Z := estimateRowBytes (values r).
Definition maxRows (columns : list string) : Z :=
  Z.min 500 (Z.max 1 (maxInsertParameters / Z.of_nat (length columns))).

(** The inner loop: the rows of the next statement and the rest. *)
Fixpoint batch (maxRows taken bytes : Z) (rows : list R) : result (list R * list R) :=
  match rows with
  | [] => Ok ([], [])
  | r :: rest =>
      if negb (taken <? maxRows) then Ok ([], rows) else
      if maxInsertBytes <? rowBytes r then Err (Errorf "row exceeds bounded insert size") else
      if (0 <? taken) && (maxInsertBytes <? bytes + rowBytes r) then Ok ([], rows) else
      let? (b, rest) := batch maxRows (taken + 1) (bytes + rowBytes r) rest in Ok (r :: b, rest)
  end.

(** The outer loop; every statement takes at least one row. *)
Fixpoint insertLoop (fuel : nat) (columns : list string) (rows : list R) : Tx S unit :=
  match rows, fuel with
  | [], _ => tx_ret tt
  | _, O => tx_fail (Errorf "insert loop did not end")
  | _, Datatypes.S fuel =>
      let* (b, rest) := tx_lift (batch (maxRows columns) 0 0 rows) in
      tx_guard (forallb (λ r, Nat.eqb (length (values r)) (length columns)) b) (Errorf "row has the wrong number of values") ;;;
      exec b ;;;
      insertLoop fuel columns rest
  end.

Definition insertRows (table : string) (columns : list string) (rows : list R) : Tx S unit :=
  match rows with
  | [] => tx_ret tt
  | _ =>
      let* _ := tx_lift (quoteIdentifier table) in
      let* _ := tx_lift (foldr (λ c rest, let? _ := quoteIdentifier c in rest) (Ok tt) columns) in
      insertLoop (length rows) columns rows
  end.

(** ** Lemmas *)

Lemma batch_split n taken bytes rows : 0 <= taken →
  match batch n taken bytes rows with
  | Ok (b, rest) => rows = b ++ rest ∧ (Z.of_nat (length b) <= Z.max 0 (n - taken)) ∧
      Forall (λ r, rowBytes r <= maxInsertBytes) b ∧ (rest ≠ [] → b = [] → taken ≠ 0 ∨ n <= 0)
  | Err _ => Exists (λ r, maxInsertBytes < rowBytes r) rows
  end.
Proof.
  revert taken bytes. induction rows as [|r rows IH]; intros taken bytes Ht; cbn [batch].
  { split_and!; [done|cbn; lia|constructor|done]. }
  destruct (Z.ltb_spec taken n) as [Hn|Hn]; cbn [negb]; [|split_and!; [done|cbn; lia|constructor|lia]].
  destruct (Z.ltb_spec maxInsertBytes (rowBytes r)) as [Hr|Hr]; [by constructor|].
  destruct ((0 <? taken) && _) eqn:E.
  { apply andb_true_iff in E as [E _]. apply Z.ltb_lt in E. split_and!; [done|cbn; lia|constructor|lia]. }
  specialize (IH (taken + 1) (bytes + rowBytes r) ltac:(lia)). destruct (batch _ _ _ rows) as [[b rest]|e]; cbn [res_bind].
  - destruct IH as (-> & Hl & Hb & _). split_and!; [done|cbn; lia|by constructor|done].
  - by right.
Qed.

Lemma maxRows_pos columns : 1 <= maxRows columns <= 500.
Proof. unfold maxRows. lia. Qed.

(** A statement that can be cut in two. *)
Definition composes : Prop := (∀ s, exec [] s = Ok (tt, s)) ∧ ∀ a b s, exec (a ++ b) s = (exec a ;;; exec b) s.

Lemma insertLoop_exec fuel columns rows s : composes → (length rows <= fuel)%nat →
  Forall (λ r, rowBytes r <= maxInsertBytes ∧ length (values r) = length columns) rows →
  insertLoop fuel columns rows s = exec rows s.
Proof.
  intros [He Hc]. revert rows s. induction fuel as [|fuel IH]; intros rows s Hl Hrows.
  { destruct rows; [|cbn in Hl; lia]. by rewrite He. }
  destruct rows as [|r rows]; [by rewrite He|]. cbn [insertLoop].
  pose proof (batch_split (maxRows columns) 0 0 (r :: rows) ltac:(lia)) as Hb.
  pose proof (maxRows_pos columns). unfold tx_bind at 1, tx_lift.
  destruct (batch _ 0 0 (r :: rows)) as [[b rest]|e].
  - destruct Hb as (E & _ & _ & Hne). rewrite E in Hrows |- *. apply Forall_app in Hrows as [Hb Hrest].
    assert (Hg : forallb (λ r, Nat.eqb (length (values r)) (length columns)) b = true).
    { apply forallb_forall. intros x Hx. apply Nat.eqb_eq. rewrite Forall_forall in Hb. apply Hb. by apply list_elem_of_In. }
    rewrite Hg, Hc. unfold tx_guard, tx_bind, tx_ret. destruct (exec b s) as [[[] s']|e]; [|done].
    apply IH; [|done]. assert (b ≠ []) as Hb0.
    { intros ->. destruct rest; [done|]. destruct (Hne ltac:(done) eq_refl); lia. }
    apply (f_equal length) in E. rewrite length_app in E. destruct b; [done|]. cbn in *. lia.
  - exfalso. apply Exists_exists in Hb as (x & Hx & Hlt). rewrite Forall_forall in Hrows. specialize (Hrows x Hx). lia.
Qed.

(** A row a statement can carry. *)
Definition fits (columns : list string) (r : R) : Prop :=
  rowBytes r <= maxInsertBytes ∧ length (values r) = length columns.

Lemma insertLoop_Ok fuel columns rows s r : composes → insertLoop fuel columns rows s = Ok r →
  exec rows s = Ok r ∧ Forall (fits columns) rows.
Proof.
  intros [He Hc]. revert s rows. induction fuel as [|fuel IH]; intros s l; [by destruct l; [rewrite He|]|].
  destruct l as [|x l]; [by rewrite He|]. cbn [insertLoop].
  intros ([b rest] & s0 & (? & Hb & [= <- ->])%tx_lift_Ok & H)%tx_bind_Ok.
  apply tx_bind_Ok in H as (_ & s1 & (Hg & [= _ ->])%tx_guard_Ok & H).
  apply tx_bind_Ok in H as ([] & s2 & Hx & H). pose proof (batch_split (maxRows columns) 0 0 (x :: l) ltac:(lia)) as Hs.
  rewrite Hb in Hs. destruct Hs as (-> & _ & Hsize & _). rewrite Hc, (tx_bind_eq _ _ _ _ _ Hx).
  apply IH in H as [H Hrest]. split; [done|]. apply Forall_app. split; [|done]. rewrite forallb_forall in Hg.
  apply Forall_forall. intros y Hy. rewrite Forall_forall in Hsize. split; [by apply Hsize|].
  apply Nat.eqb_eq, Hg, list_elem_of_In, Hy.
Qed.

Lemma insertRows_Ok table columns rows s r : composes → insertRows table columns rows s = Ok r →
  exec rows s = Ok r ∧ Forall (fits columns) rows.
Proof.
  intros Hc H. unfold insertRows in H. destruct rows as [|x rows]; [by rewrite (proj1 Hc s)|].
  apply tx_bind_Ok in H as (_ & s0 & (? & _ & [= _ ->])%tx_lift_Ok & H).
  apply tx_bind_Ok in H as (_ & s1 & (? & _ & [= _ ->])%tx_lift_Ok & H). by eapply insertLoop_Ok.
Qed.

(** Sending rows in batches changes nothing: with identifiers that need
    no quoting, if every row has the table's width and fits a statement, the
    result is the one of a single statement with all the rows, whatever the
    statement does with them as long as it can be cut in two; and rows that
    do not fit are never accepted. *)
Theorem insertRows_equiv : ∀ table columns rows s, composes →
  is_ok (quoteIdentifier table) = true → forallb (λ c, is_ok (quoteIdentifier c)) columns = true →
  (Forall (fits columns) rows → insertRows table columns rows s = exec rows s) ∧
  (¬ Forall (fits columns) rows → is_ok (insertRows table columns rows s) = false).
Proof.
  intros table columns rows s Hc Ht Hcols. split.
  - intros Hrows. unfold insertRows. destruct rows as [|r rows]; [by rewrite (proj1 Hc s)|].
    assert (Hf : foldr (λ c rest, let? _ := quoteIdentifier c in rest) (Ok tt) columns = Ok tt).
    { clear -Hcols. induction columns as [|c columns IH]; [done|]. cbn in *. apply andb_true_iff in Hcols as [H1 H2].
      destruct (quoteIdentifier c); [|done]. by apply IH. }
    unfold tx_bind at 1, tx_lift at 1. destruct (quoteIdentifier table); [|done]. unfold tx_bind at 1, tx_lift. rewrite Hf.
    by apply insertLoop_exec.
  - intros Hn. destruct (insertRows table columns rows s) as [r|e] eqn:E; [|done].
    destruct Hn. by apply insertRows_Ok in E as [_ ?].
Qed.
End InsertRows.

(** ** Witness *)

Definition append_rows (rows : list string) : Tx (list string) unit := λ s, Ok (tt, s ++ rows).

Lemma insertRows_equiv_witness :
  insertRows (λ r : string, [VText r; VOther]) append_rows "ingestion_rows" ["name"; "position"] ["a"; "b"] ["z"] = Ok (tt, ["z"; "a"; "b"]).
Proof.
  destruct (insertRows_equiv (λ r : string, [VText r; VOther]) append_rows "ingestion_rows" ["name"; "position"] ["a"; "b"] ["z"]) as [H _].
  - split; [intros s; unfold append_rows; by rewrite app_nil_r|].
    intros a b s. unfold append_rows, tx_bind. by rewrite app_assoc.
  - reflexivity.
  - reflexivity.
  - rewrite H; [reflexivity|]. repeat constructor; vm_compute; discriminate.
Defined.
