(* ===== verification/FixedStore.v ===== *)
(** * Storage of fixed reports (src/internal/ingestionstore/fixed.go and
    fixed_contract.go)

    A fixed report load: its frozen plan and members, the segments staged for
    each member, and the publication that replaces the report's rows and ends
    the run in one transaction.  Locks are not modelled: every transaction is
    one atomic step, which is what its [FOR UPDATE] reads are for.  DATE
    columns are kept as the text [DATE_FORMAT] gives; columns no statement
    reads ([published_at], [created_at]) and column length limits are left
    out. *)

From S2P Require Import Prelude Calendar Json Hash Catalog Params Access AuditTrail Table Store Runs Inserts FixedPlans.

Open Scope Z_scope.

#[export] Instance FixedDefinition_eq_dec : EqDecision FixedDefinition. Proof. solve_decision. Defined.

(** ** Tables (src/migrations/20260813033031 and 20260813033039) *)

Inductive LoadStatus := fixedLoadPending | fixedLoadPublished.
#[export] Instance LoadStatus_eq_dec : EqDecision LoadStatus. Proof. solve_decision. Defined.
Inductive MemberStatus := fixedMemberPending | fixedMemberSuccess.
#[export] Instance MemberStatus_eq_dec : EqDecision MemberStatus. Proof. solve_decision. Defined.

(** [fixed_report_loads] ([fixedLoadContract]); the JSON column of the
    variants is the list it holds. *)
Record fixedLoadContract := mkLoad {
  IngestionRunID : Z; load_job : string; load_from : string; load_to : string; load_status : LoadStatus;
  ExpectedMemberCount : Z; Manifest : string; load_version : Z; load_publication : string; load_source_mode : string;
  load_max_days : Z; load_variants : list string }.
(** [fixed_report_load_members] ([fixedLoadMember]); a NULL location or
    account is the empty text. *)
Record fixedLoadMember := mkMember {
  member_key : string; member_status : MemberStatus; member_count : Z; member_checksum : string;
  StagedSegments : Z; ExpectedSegments : Z; member_location : string; member_account : string;
  member_from : string; member_to : string }.
(** [fixed_report_load_segments] ([fixedStoredSegment]). *)
Record fixedStoredSegment := mkSegmentRow {
  segment_key : string; segment_index : Z; segment_from : string; segment_to : string; segment_as_of : string;
  segment_count : Z; segment_variant : string; segment_checksum : string }.
(** A row of a staging table. *)
Record staged_row := mkStaged {
  st_load : Z; st_member : string; st_ordinal : Z; st_segment : Z; st_number : Z; st_checksum : string; st_file : string;
  st_from : string; st_to : string; st_as_of : string; st_location : option string; st_coverage : option string;
  st_values : list (string * string) }.
(** A row of a report's table, less its identifier. *)
Record final_row := mkFinal {
  fin_load : Z; fin_ordinal : Z; fin_segment : Z; fin_number : Z; fin_checksum : string; fin_file : string;
  fin_from : string; fin_to : string; fin_as_of : string; fin_location : option string; fin_coverage : option string;
  fin_values : list (string * string) }.
#[export] Instance final_row_eq_dec : EqDecision final_row. Proof. solve_decision. Defined.

Record fixed_db := mkFixedDb {
  base : db;
  fixed_report_loads : gmap Z fixedLoadContract;
  next_load_id : Z;
  fixed_report_load_members : gmap (Z * string) fixedLoadMember;
  fixed_report_load_segments : gmap (Z * string * Z) fixedStoredSegment;
  staging : gmap string (list staged_row);
  reports : gmap string (list final_row);
  fixed_report_date_publications : gmap (string * string) Z;
  fixed_report_publications : gmap (string * string * string) (option Z) }.

Definition set_base (x : db) (s : fixed_db) : fixed_db :=
  mkFixedDb x (fixed_report_loads s) (next_load_id s) (fixed_report_load_members s) (fixed_report_load_segments s)
    (staging s) (reports s) (fixed_report_date_publications s) (fixed_report_publications s).
Definition set_loads (x : gmap Z fixedLoadContract) (next : Z) (s : fixed_db) : fixed_db :=
  mkFixedDb (base s) x next (fixed_report_load_members s) (fixed_report_load_segments s)
    (staging s) (reports s) (fixed_report_date_publications s) (fixed_report_publications s).
Definition set_members (x : gmap (Z * string) fixedLoadMember) (s : fixed_db) : fixed_db :=
  mkFixedDb (base s) (fixed_report_loads s) (next_load_id s) x (fixed_report_load_segments s)
    (staging s) (reports s) (fixed_report_date_publications s) (fixed_report_publications s).
Definition set_segments (x : gmap (Z * string * Z) fixedStoredSegment) (s : fixed_db) : fixed_db :=
  mkFixedDb (base s) (fixed_report_loads s) (next_load_id s) (fixed_report_load_members s) x
    (staging s) (reports s) (fixed_report_date_publications s) (fixed_report_publications s).
Definition set_staging (x : gmap string (list staged_row)) (s : fixed_db) : fixed_db :=
  mkFixedDb (base s) (fixed_report_loads s) (next_load_id s) (fixed_report_load_members s) (fixed_report_load_segments s)
    x (reports s) (fixed_report_date_publications s) (fixed_report_publications s).
Definition set_reports (x : gmap string (list final_row)) (s : fixed_db) : fixed_db :=
  mkFixedDb (base s) (fixed_report_loads s) (next_load_id s) (fixed_report_load_members s) (fixed_report_load_segments s)
    (staging s) x (fixed_report_date_publications s) (fixed_report_publications s).
Definition set_date_publications (x : gmap (string * string) Z) (s : fixed_db) : fixed_db :=
  mkFixedDb (base s) (fixed_report_loads s) (next_load_id s) (fixed_report_load_members s) (fixed_report_load_segments s)
    (staging s) (reports s) x (fixed_report_publications s).
Definition set_publications (x : gmap (string * string * string) (option Z)) (s : fixed_db) : fixed_db :=
  mkFixedDb (base s) (fixed_report_loads s) (next_load_id s) (fixed_report_load_members s) (fixed_report_load_segments s)
    (staging s) (reports s) (fixed_report_date_publications s) x.

Definition in_base {A} (m : Tx db A) : Tx fixed_db A := λ s,
  match m (base s) with Ok (a, b) => Ok (a, set_base b s) | Err e => Err e end.

Definition table_rows {R} (table : string) (t : gmap string (list R)) : list R := default [] (t !! table).

(** A statement that gives a DATE column this text. *)
Definition date_column (value : string) : result unit :=
  match ParseCalendarDate value with Ok _ => Ok tt | Err _ => Err (Errorf "Incorrect date value") end.
Definition mustDate (value : string) : CalendarDate :=
  match ParseCalendarDate value with Ok date => date | Err _ => zero_date end.

(** ** Storage of a definition *)

Record fixedStorage := mkStorage {
  finalTable : string; stagingTable : string; storage_columns : list string; storage_location : bool }.

Definition fixedStorageFor (definition : FixedDefinition) : result fixedStorage :=
  if negb (existsb (λ c, (f_key c =? f_key definition)%string && bool_decide (c = definition)) FixedDefinitions)
  then Err (Errorf "fixed report definition is not canonical") else
  let? table := FixedTableName (f_key definition) in
  Ok (mkStorage table ("stg_" +:+ table) (FixedColumnName <$> f_headers definition) (f_source_location definition)).

Definition fixedStorages : result (list fixedStorage) :=
  foldr (λ definition rest, let? storage := fixedStorageFor definition in let? storages := rest in Ok (storage :: storages))
    (Ok []) FixedDefinitions.

(** ** Contracts *)

Fixpoint ascending (previous : option string) (variants : list string) : bool :=
  match variants with
  | [] => true
  | v :: variants =>
      negb (v =? "")%string && negb (v =? "%")%string && (trim_space v =? v)%string &&
      match previous with Some p => negb (string_le v p) | None => true end && ascending (Some v) variants
  end.
Definition validateSourceVariants (def : FixedDefinition) (variants : list string) : result unit :=
  if (f_key def =? "journal_transaction_report")%string then
    if Nat.eqb (length variants) 0 then Err (Errorf "frozen Journal transaction types are required") else
    if ascending None variants then Ok tt else Err (Errorf "canonical exact Journal source variants are required")
  else if Nat.eqb (length variants) 0 then Ok tt else Err (Errorf "unexpected Fixed source variants").

Definition readFixedLoad (id : Z) : Tx fixed_db fixedLoadContract := λ s,
  match fixed_report_loads s !! id with Some load => Ok (load, s) | None => Err ErrNoRows end.

Definition validate (load : fixedLoadContract) (def : FixedDefinition) : result unit :=
  if negb (load_job load =? f_key def)%string || negb (load_version load =? 2) ||
     negb (load_publication load =? publication_text (f_publication def))%string ||
     negb (load_source_mode load =? request_text (f_request def))%string || negb (load_max_days load =? f_max_chunk_days def)
  then Err (Errorf "Fixed load does not implement the current frozen publication contract") else
  if negb (string_le "1000-01-01" (load_from load)) || negb (string_le (load_to load) "9999-12-31") ||
     negb (string_le (load_from load) (load_to load))
  then Err (Errorf "invalid Fixed load calendar range") else
  validateSourceVariants def (load_variants load).

(** The segment handed to [StageMemberSegment]. *)
Record FixedSegment := mkSegment {
  Index : Z; SourcePeriodFrom : CalendarDate; SourcePeriodTo : CalendarDate; RequestVariant : string; FileName : string;
  AsOfDate : CalendarDate; SourceRows : list FixedCSVRow }.

Definition partitions (variants : list string) : Z := Z.max 1 (Z.of_nat (length variants)).

Definition validateFixedSegment (def : FixedDefinition) (load : fixedLoadContract) (member : fixedLoadMember)
    (segment : FixedSegment) : result unit :=
  let? chunks := FixedSourceChunks def (mustDate (member_from member)) (mustDate (member_to member)) in
  let n := partitions (load_variants load) in
  if negb (ExpectedSegments member =? Z.of_nat (length chunks) * n) || (Index segment <? 0) ||
     (Z.of_nat (length chunks) * n <=? Index segment)
  then Err (Errorf "Fixed segment differs from frozen source plan") else
  match chunks !! Z.to_nat (Index segment / n) with
  | None => Err (Errorf "index out of range")
  | Some chunk =>
      let variant := default "" (load_variants load !! Z.to_nat (Index segment mod n)) in
      if negb (bool_decide (SourcePeriodFrom segment = chunk_from chunk)) || negb (bool_decide (SourcePeriodTo segment = chunk_to chunk)) ||
         negb (bool_decide (AsOfDate segment = chunk_to chunk)) || negb (RequestVariant segment =? variant)%string
      then Err (Errorf "Fixed segment boundaries/variant differ from frozen source request") else Ok tt
  end.

(** ** BeginLoad *)

Definition run_load_taken (runID : Z) (s : fixed_db) : bool :=
  existsb (λ p, IngestionRunID p.2 =? runID) (map_to_list (fixed_report_loads s)).

(** [INSERT INTO fixed_report_loads]: the run has no other load and
    exists. *)
Definition insert_load (load : fixedLoadContract) : Tx fixed_db Z := λ s,
  if negb (is_ok (date_column (load_from load)) && is_ok (date_column (load_to load))) then Err (Errorf "Incorrect date value") else
  if run_load_taken (IngestionRunID load) s then Err ErrDuplicateKey else
  if negb (isSome (ingestion_runs (base s) !! IngestionRunID load)) then Err ErrForeignKey else
  Ok (next_load_id s, set_loads (<[next_load_id s := load]> (fixed_report_loads s)) (next_load_id s + 1) s).

Definition memberColumns : list string :=
  ["load_id"; "member_key"; "status"; "source_location_id"; "account_code"; "source_period_from"; "source_period_to"; "expected_segment_count"].
Definition nullableFixedDimension (value : string) : sql_value := if (value =? "")%string then VOther else VText value.
Definition member_values (m : fixedLoadMember) : list sql_value :=
  [VOther; VText (member_key m); VText "pending"; nullableFixedDimension (member_location m); nullableFixedDimension (member_account m);
   VText (member_from m); VText (member_to m); VOther].
(** [INSERT INTO fixed_report_load_members], one row after the other. *)
Definition insert_member (loadID : Z) (m : fixedLoadMember) : Tx fixed_db unit := λ s,
  if negb (is_ok (date_column (member_from m)) && is_ok (date_column (member_to m))) then Err (Errorf "Incorrect date value") else
  if isSome (fixed_report_load_members s !! (loadID, member_key m)) then Err ErrDuplicateKey else
  if negb (isSome (fixed_report_loads s !! loadID)) then Err ErrForeignKey else
  Ok (tt, set_members (<[(loadID, member_key m) := m]> (fixed_report_load_members s)) s).
Fixpoint each {A} (insert : A → Tx fixed_db unit) (rows : list A) : Tx fixed_db unit :=
  match rows with [] => tx_ret tt | r :: rows => insert r ;;; each insert rows end.

(** The rows of the members, each within the load's range. *)
Fixpoint memberRows (definition : FixedDefinition) (plan : FixedPlan) (members : list RequestDescriptor) : result (list fixedLoadMember) :=
  match members with
  | [] => Ok []
  | m :: members =>
      if negb (string_le (date_string (fr_from (plan_range plan))) (date_string (RequestedFrom m))) ||
         negb (string_le (date_string (RequestedTo m)) (date_string (fr_to (plan_range plan))))
      then Err (Errorf "member source range is outside its load") else
      let? chunks := FixedSourceChunks definition (RequestedFrom m) (RequestedTo m) in
      let? rows := memberRows definition plan members in
      Ok (mkMember (MemberKey m) fixedMemberPending 0 "" 0 (Z.of_nat (length chunks) * partitions (plan_variants plan))
            (SourceLocationID m) (AccountCode m) (date_string (RequestedFrom m)) (date_string (RequestedTo m)) :: rows)
  end.

Definition beginLoadTransaction (ingestionRunID : Z) (definition : FixedDefinition) (plan : FixedPlan) (manifest : string)
    : Tx fixed_db Z :=
  tx_lift (validateSourceVariants definition (plan_variants plan)) ;;;
  let* loadID := insert_load (mkLoad ingestionRunID (plan_job plan) (date_string (fr_from (plan_range plan)))
    (date_string (fr_to (plan_range plan))) fixedLoadPending (Z.of_nat (length (plan_members plan))) manifest 2
    (publication_text (f_publication definition)) (request_text (f_request definition)) (f_max_chunk_days definition)
    (plan_variants plan)) in
  let* rows := tx_lift (memberRows definition plan (plan_members plan)) in
  insertRows member_values (each (insert_member loadID)) "fixed_report_load_members" memberColumns rows ;;;
  tx_ret loadID.

Definition BeginLoad (ingestionRunID : Z) (definition : FixedDefinition) (plan : FixedPlan) : Tx fixed_db Z :=
  if ingestionRunID =? 0 then tx_fail (Errorf "ingestion run is required") else
  let* _ := tx_lift (fixedStorageFor definition) in
  let* manifest := tx_lift (FixedManifestChecksum definition plan) in
  beginLoadTransaction ingestionRunID definition plan manifest.

(** ** StageMemberSegment *)

Definition lock_member (loadID : Z) (key : string) : Tx fixed_db fixedLoadMember := λ s,
  match fixed_report_load_members s !! (loadID, key) with Some m => Ok (m, s) | None => Err (Errorf "lock fixed member") end.

Definition staged_values (r : staged_row) : list sql_value :=
  [VOther; VText (st_member r); VOther; VOther; VOther; VText (st_checksum r); VText (st_file r); VText (st_from r); VText (st_to r);
   VText (st_as_of r)] ++
  match st_location r with Some l => [VText l] | None => [] end ++
  match st_coverage r with Some c => [VText c] | None => [] end ++ ((λ p, VText p.2) <$> st_values r).
Definition stagedColumns (specification : fixedStorage) (definition : FixedDefinition) : list string :=
  ["load_id"; "member_key"; "row_ordinal"; "source_segment_index"; "source_row_number"; "source_row_checksum"; "source_file_name";
   "period_from"; "period_to"; "as_of_date"] ++
  (if storage_location specification then ["source_location_id"] else []) ++
  (if bool_decide (f_publication definition = DateAddressable) then ["coverage_date"] else []) ++ storage_columns specification.

(** The primary key and the source-row key of a staging table. *)
Definition staged_clash (r s : staged_row) : bool :=
  bool_decide ((st_load r, st_member r, st_ordinal r) = (st_load s, st_member s, st_ordinal s)) ||
  bool_decide ((st_load r, st_member r, st_segment r, st_number r) = (st_load s, st_member s, st_segment s, st_number s)).
Definition insert_staged (table : string) (r : staged_row) : Tx fixed_db unit := λ s,
  if existsb (staged_clash r) (table_rows table (staging s)) then Err ErrDuplicateKey else
  if negb (isSome (fixed_report_load_members s !! (st_load r, st_member r))) then Err ErrForeignKey else
  Ok (tt, set_staging (<[table := table_rows table (staging s) ++ [r]]> (staging s)) s).

(** The loop over the segment's rows. *)
Fixpoint stageRows (specification : fixedStorage) (definition : FixedDefinition) (load : fixedLoadContract) (loadID : Z)
    (descriptor : RequestDescriptor) (segment : FixedSegment) (ordinal : Z) (rows : list FixedCSVRow) : result (list staged_row) :=
  match rows with
  | [] => Ok []
  | row :: rows =>
      if (SourceRowNumber row <? 2) || negb (Nat.eqb (String.length (SourceRowChecksum row)) 64)
      then Err (Errorf "invalid fixed source row") else
      if storage_location specification &&
         ((SourceLocationID descriptor =? "")%string || negb (RowLocationID row =? SourceLocationID descriptor)%string)
      then Err (Errorf "source location does not match frozen descriptor") else
      if bool_decide (f_publication definition = DateAddressable) && IsZero (CoverageDate row)
      then Err (Errorf "validated coverage date required") else
      let? rest := stageRows specification definition load loadID descriptor segment (ordinal + 1) rows in
      Ok (mkStaged loadID (MemberKey descriptor) ordinal (Index segment) (SourceRowNumber row) (SourceRowChecksum row) (FileName segment)
            (load_from load) (load_to load) (date_string (AsOfDate segment))
            (if storage_location specification then Some (RowLocationID row) else None)
            (if bool_decide (f_publication definition = DateAddressable) then Some (date_string (CoverageDate row)) else None)
            (zip (storage_columns specification) ((λ header, default "" (Values row !! header)) <$> f_headers definition)) :: rest)
  end.

(** [WriteFixedMemberChecksumPart] over checksums. *)
Definition checksum_parts (checksums : list string) : string := string_concat (manifest_string <$> checksums).

Definition insert_segment (loadID : Z) (r : fixedStoredSegment) : Tx fixed_db unit := λ s,
  if isSome (fixed_report_load_segments s !! (loadID, segment_key r, segment_index r)) then Err ErrDuplicateKey else
  if negb (isSome (fixed_report_load_members s !! (loadID, segment_key r))) then Err ErrForeignKey else
  Ok (tt, set_segments (<[(loadID, segment_key r, segment_index r) := r]> (fixed_report_load_segments s)) s).
Definition update_member (loadID : Z) (key : string) (set : fixedLoadMember → fixedLoadMember) : Tx fixed_db unit :=
  tx_modify (λ s, set_members (alter set (loadID, key) (fixed_report_load_members s)) s).
Definition set_staged (count segments : Z) (m : fixedLoadMember) : fixedLoadMember :=
  mkMember (member_key m) (member_status m) count (member_checksum m) segments (ExpectedSegments m) (member_location m)
    (member_account m) (member_from m) (member_to m).
Definition set_success (checksum : string) (m : fixedLoadMember) : fixedLoadMember :=
  mkMember (member_key m) fixedMemberSuccess (member_count m) checksum (StagedSegments m) (ExpectedSegments m) (member_location m)
    (member_account m) (member_from m) (member_to m).

Definition stageMemberSegmentTransaction (specification : fixedStorage) (definition : FixedDefinition) (loadID : Z)
    (descriptor : RequestDescriptor) (segment : FixedSegment) : Tx fixed_db unit :=
  let* member := lock_member loadID (MemberKey descriptor) in
  tx_guard (bool_decide (member_status member = fixedMemberPending)) (Errorf "fixed member status cannot stage") ;;;
  tx_guard (negb (Index segment <? 0) && (Index segment =? StagedSegments member)) (Errorf "invalid or out-of-order fixed source segment") ;;;
  let* load := readFixedLoad loadID in
  tx_lift (validate load definition) ;;;
  tx_guard (bool_decide (load_status load = fixedLoadPending)) (Errorf "fixed load is not pending") ;;;
  tx_guard ((date_string (RequestedFrom descriptor) =? member_from member)%string && (date_string (RequestedTo descriptor) =? member_to member)%string &&
            (SourceLocationID descriptor =? member_location member)%string && (AccountCode descriptor =? member_account member)%string)
    (Errorf "Fixed descriptor differs from its frozen member") ;;;
  tx_lift (validateFixedSegment definition load member segment) ;;;
  let '(verdict, sourceRows) :=
    ValidateFixedCoverage definition (SourcePeriodFrom segment) (SourcePeriodTo segment) (SourceRows segment) in
  tx_lift verdict ;;;
  let* rows := tx_lift (stageRows specification definition load loadID descriptor segment (member_count member + 1) sourceRows) in
  insertRows staged_values (each (insert_staged (stagingTable specification))) (stagingTable specification)
    (stagedColumns specification definition) rows ;;;
  insert_segment loadID (mkSegmentRow (MemberKey descriptor) (Index segment) (date_string (SourcePeriodFrom segment))
    (date_string (SourcePeriodTo segment)) (date_string (AsOfDate segment)) (Z.of_nat (length rows)) (RequestVariant segment)
    (sha256 (checksum_parts (SourceRowChecksum <$> sourceRows)))) ;;;
  update_member loadID (MemberKey descriptor)
    (set_staged (member_count member + Z.of_nat (length rows)) (StagedSegments member + 1)).

Definition StageMemberSegment (definition : FixedDefinition) (loadID : Z) (descriptor : RequestDescriptor) (segment : FixedSegment)
    : Tx fixed_db unit :=
  let* specification := tx_lift (fixedStorageFor definition) in
  if (loadID =? 0) || (MemberKey descriptor =? "")%string then tx_fail (Errorf "load and member are required") else
  stageMemberSegmentTransaction specification definition loadID descriptor segment.

(** ** FinalizeMemberCandidate *)

Definition finalizeMemberCandidateTransaction (definition : FixedDefinition) (loadID : Z) (descriptor : RequestDescriptor)
    (expectedSegments rowCount : Z) (checksum : string) : Tx fixed_db unit :=
  let* member := lock_member loadID (MemberKey descriptor) in
  let counts := (ExpectedSegments member =? expectedSegments) && (StagedSegments member =? expectedSegments) && (member_count member =? rowCount) in
  match member_status member with
  | fixedMemberSuccess =>
      tx_guard (counts && (member_checksum member =? checksum)%string) (Errorf "completed fixed member metadata does not match")
  | fixedMemberPending =>
      let* load := readFixedLoad loadID in
      tx_guard ((load_job load =? f_key definition)%string && bool_decide (load_status load = fixedLoadPending))
        (Errorf "fixed load is not pending for job") ;;;
      tx_guard counts (Errorf "fixed member staged count does not match completed candidate") ;;;
      update_member loadID (MemberKey descriptor) (set_success checksum)
  end.

Definition FinalizeMemberCandidate (definition : FixedDefinition) (loadID : Z) (descriptor : RequestDescriptor)
    (expectedSegments rowCount : Z) (checksum : string) : Tx fixed_db unit :=
  let* _ := tx_lift (fixedStorageFor definition) in
  if (loadID =? 0) || (MemberKey descriptor =? "")%string || (expectedSegments <? 1)
  then tx_fail (Errorf "load, member, and positive expected segment count are required") else
  finalizeMemberCandidateTransaction definition loadID descriptor expectedSegments rowCount checksum.

(** ** Promote *)

(** [for d := mustDate(from); d.String() <= to; d = d.AddDays(1)], left at
    [to]. *)
Fixpoint dateLoop (fuel : nat) (d : CalendarDate) (to : string) : option (list CalendarDate) :=
  match fuel with
  | O => None
  | S fuel =>
      if string_le (date_string d) to then
        if (date_string d =? to)%string then Some [d] else cons d <$> dateLoop fuel (AddDays d 1) to
      else Some []
  end.
Definition load_dates (from to : string) : result (list CalendarDate) :=
  match dateLoop (chunkFuel (mustDate from) (mustDate to)) (mustDate from) to with
  | Some dates => Ok dates
  | None => Err (Errorf "date loop did not end")
  end.

Definition key_before (a b : fixedLoadMember) : bool :=
  match String.compare (member_key a) (member_key b) with Lt => true | _ => false end.
(** [... FROM fixed_report_load_members WHERE load_id=? ORDER BY member_key] *)
Definition load_members (loadID : Z) (s : fixed_db) : list fixedLoadMember :=
  sort_by key_before (filter (λ p, p.1.1 = loadID) (map_to_list (fixed_report_load_members s))).*2.
Definition segment_before (a b : fixedStoredSegment) : bool :=
  match String.compare (segment_key a) (segment_key b) with Lt => true | Eq => segment_index a <? segment_index b | Gt => false end.
Definition load_segments (loadID : Z) (s : fixed_db) : list fixedStoredSegment :=
  sort_by segment_before (filter (λ p, p.1.1.1 = loadID) (map_to_list (fixed_report_load_segments s))).*2.
Definition staged_before (a b : staged_row) : bool :=
  match String.compare (st_member a) (st_member b) with Lt => true | Eq => st_ordinal a <? st_ordinal b | Gt => false end.
(** [... FROM stg WHERE load_id=? ORDER BY member_key,row_ordinal] *)
Definition load_staged (table : string) (loadID : Z) (s : fixed_db) : list staged_row :=
  sort_by staged_before (filter (λ r, st_load r = loadID) (table_rows table (staging s))).

(** *** [validateFixedSegments] *)

Definition identity (r : fixedStoredSegment) : string * Z := (segment_key r, segment_index r).
Record segment_totals := mkTotals { counts : gmap string Z; row_totals : gmap string Z; found : gmap (string * Z) fixedStoredSegment }.
Definition total (t : gmap string Z) (key : string) : Z := default 0 (t !! key).

(** The first loop: every member lies in the load; [known]. *)
Fixpoint knownMembers (load : fixedLoadContract) (members : list fixedLoadMember) (known : gmap string fixedLoadMember)
    : result (gmap string fixedLoadMember) :=
  match members with
  | [] => Ok known
  | m :: members =>
      if negb (string_le (load_from load) (member_from m)) || negb (string_le (member_to m) (load_to load)) || (ExpectedSegments m =? 0)
      then Err (Errorf "invalid frozen member source coverage") else
      knownMembers load members (<[member_key m := m]> known)
  end.
(** The second loop: every stored segment is the next one of its member. *)
Fixpoint storedSegments (def : FixedDefinition) (load : fixedLoadContract) (known : gmap string fixedLoadMember)
    (stored : list fixedStoredSegment) (t : segment_totals) : result segment_totals :=
  match stored with
  | [] => Ok t
  | r :: stored =>
      match known !! segment_key r with
      | None => Err (Errorf "missing or unknown Fixed source segment")
      | Some m =>
          if negb (segment_index r =? total (counts t) (segment_key r)) then Err (Errorf "missing or unknown Fixed source segment") else
          let? _ := validateFixedSegment def load m
            (mkSegment (segment_index r) (mustDate (segment_from r)) (mustDate (segment_to r)) (segment_variant r) ""
               (mustDate (segment_as_of r)) []) in
          storedSegments def load known stored
            (mkTotals (<[segment_key r := total (counts t) (segment_key r) + 1]> (counts t))
               (<[segment_key r := total (row_totals t) (segment_key r) + segment_count r]> (row_totals t))
               (<[identity r := r]> (found t)))
      end
  end.
Definition member_complete (t : segment_totals) (m : fixedLoadMember) : bool :=
  (total (counts t) (member_key m) =? ExpectedSegments m) && (StagedSegments m =? ExpectedSegments m) &&
  (total (row_totals t) (member_key m) =? member_count m).

(** Snapshot members: one date and one location each. *)
Fixpoint snapshotMembers (members : list fixedLoadMember) (locations : gset string) (dates : gmap string (gset string))
    : result (gset string * gmap string (gset string)) :=
  match members with
  | [] => Ok (locations, dates)
  | m :: members =>
      if negb (member_from m =? member_to m)%string || (member_location m =? "")%string then Err (Errorf "invalid snapshot member") else
      let at_date := default ∅ (dates !! member_from m) in
      if bool_decide (member_location m ∈ at_date) then Err (Errorf "duplicate snapshot member") else
      snapshotMembers members (locations ∪ {[member_location m]}) (<[member_from m := at_date ∪ {[member_location m]}]> dates)
  end.

Definition check_coverage (def : FixedDefinition) (load : fixedLoadContract) (members : list fixedLoadMember) : result unit :=
  if f_snapshot def then
    let? (locations, dates) := snapshotMembers members ∅ ∅ in
    let? days := load_dates (load_from load) (load_to load) in
    if forallb (λ d, Nat.eqb (size (default ∅ (dates !! date_string d))) (size locations)) days then Ok tt
    else Err (Errorf "snapshot date lacks complete locations")
  else if forallb (λ m, (member_from m =? load_from load)%string && (member_to m =? load_to load)%string) members then Ok tt
  else Err (Errorf "range member differs from parent coverage").

Definition validateFixedSegments (def : FixedDefinition) (load : fixedLoadContract) (members : list fixedLoadMember)
    (stored : list fixedStoredSegment) : result (gmap (string * Z) fixedStoredSegment) :=
  let? known := knownMembers load members ∅ in
  let? t := storedSegments def load known stored (mkTotals ∅ ∅ ∅) in
  if negb (forallb (member_complete t) members) then Err (Errorf "Fixed member/segment completeness mismatch") else
  let? _ := check_coverage def load members in
  Ok (found t).

(** *** [validateStagedMembers] *)

(** A count and the bytes written to the hash. *)
Definition aggregate_add (checksum : string) (a : Z * string) : Z * string := (a.1 + 1, a.2 +:+ manifest_string checksum).

(** The text of the column the business date was read from. *)
Definition raw_date (def : FixedDefinition) (r : staged_row) : option string :=
  if f_snapshot def then Some (st_as_of r) else assoc (FixedColumnName (f_coverage_header def)) (st_values r).

Definition check_staged (def : FixedDefinition) (segments : gmap (string * Z) fixedStoredSegment) (r : staged_row) : result unit :=
  match segments !! (st_member r, st_segment r) with
  | None => Err (Errorf "staging contains unknown or mismatched source segment")
  | Some source =>
      if negb (st_as_of r =? segment_as_of source)%string then Err (Errorf "staging contains unknown or mismatched source segment") else
      match f_publication def with
      | IntervalResult => Ok tt
      | DateAddressable =>
          match raw_date def r, st_coverage r with
          | Some raw, Some coverage =>
              match ParseFixedCoverageDate def raw (mustDate (st_as_of r)) with
              | Err _ => Err (Errorf "staged row has invalid source coverage date")
              | Ok date =>
                  if negb (date_string date =? coverage)%string || negb (string_le (segment_from source) coverage) ||
                     negb (string_le coverage (segment_to source))
                  then Err (Errorf "staged row has invalid source coverage date") else Ok tt
              end
          | _, _ => Err (Errorf "staged row has invalid source coverage date")
          end
      end
  end.

Fixpoint stagedLoop (def : FixedDefinition) (segments : gmap (string * Z) fixedStoredSegment) (rows : list staged_row)
    (memberAggregates : gmap string (Z * string)) (segmentAggregates : gmap (string * Z) (Z * string))
    : result (gmap string (Z * string) * gmap (string * Z) (Z * string)) :=
  match rows with
  | [] => Ok (memberAggregates, segmentAggregates)
  | r :: rows =>
      if negb (isSome (memberAggregates !! st_member r)) || negb (isSome (segmentAggregates !! (st_member r, st_segment r)))
      then Err (Errorf "staging contains unknown or mismatched source segment") else
      let? _ := check_staged def segments r in
      stagedLoop def segments rows (alter (aggregate_add (st_checksum r)) (st_member r) memberAggregates)
        (alter (aggregate_add (st_checksum r)) (st_member r, st_segment r) segmentAggregates)
  end.

Definition agrees (a : option (Z * string)) (count : Z) (checksum : string) : bool :=
  match a with Some a => (a.1 =? count) && (sha256 a.2 =? checksum)%string | None => false end.

Definition validateStagedMembers (def : FixedDefinition) (rows : list staged_row) (members : list fixedLoadMember)
    (segments : gmap (string * Z) fixedStoredSegment) : result unit :=
  let? (memberAggregates, segmentAggregates) := stagedLoop def segments rows
    (list_to_map ((λ m, (member_key m, (0, ""))) <$> members)) ((λ _, (0, "")) <$> segments) in
  if negb (forallb (λ m, agrees (memberAggregates !! member_key m) (member_count m) (member_checksum m)) members)
  then Err (Errorf "Fixed member staged count/checksum mismatch") else
  if negb (forallb (λ p, agrees (segmentAggregates !! p.1) (segment_count p.2) (segment_checksum p.2)) (map_to_list segments))
  then Err (Errorf "Fixed segment staged count/checksum mismatch") else Ok tt.

(** *** Publication *)

Definition between (from to : string) (value : option string) : bool :=
  match value with Some v => string_le from v && string_le v to | None => false end.
Definition publish_row (r : staged_row) : final_row :=
  mkFinal (st_load r) (st_ordinal r) (st_segment r) (st_number r) (st_checksum r) (st_file r) (st_from r) (st_to r) (st_as_of r)
    (st_location r) (st_coverage r) (st_values r).

(** [publishFixedDates]: upserts of at most 500 dates. *)
Definition upsert_dates (jobKey : string) (loadID : Z) (dates : list CalendarDate) : Tx fixed_db unit :=
  tx_modify (λ s, set_date_publications
    (foldl (λ t d, <[(jobKey, date_string d) := loadID]> t) (fixed_report_date_publications s) dates) s).
Fixpoint publishLoop (jobKey : string) (loadID : Z) (values dates : list CalendarDate) : Tx fixed_db unit :=
  match dates with
  | [] => match values with [] => tx_ret tt | _ => upsert_dates jobKey loadID values end
  | d :: dates =>
      let values := values ++ [d] in
      if Nat.eqb (length values) 500 then upsert_dates jobKey loadID values ;;; publishLoop jobKey loadID [] dates
      else publishLoop jobKey loadID values dates
  end.
Definition publishFixedDates (loadID : Z) (load : fixedLoadContract) : Tx fixed_db unit :=
  let* dates := tx_lift (load_dates (load_from load) (load_to load)) in
  publishLoop (load_job load) loadID [] dates.

Definition set_published (load : fixedLoadContract) : fixedLoadContract :=
  mkLoad (IngestionRunID load) (load_job load) (load_from load) (load_to load) fixedLoadPublished (ExpectedMemberCount load)
    (Manifest load) (load_version load) (load_publication load) (load_source_mode load) (load_max_days load) (load_variants load).

(** Whether the load is already what is published, or an error when a newer
    load is. *)
Definition check_dates (definition : FixedDefinition) (loadID : Z) (load : fixedLoadContract) : Tx fixed_db bool := λ s,
  let publications := filter (λ p, p.1.1 = f_key definition ∧ between (load_from load) (load_to load) (Some p.1.2) = true)
    (map_to_list (fixed_report_date_publications s)) in
  if existsb (λ p, loadID <? p.2) publications then Err ErrFixedStale else
  let equal := length (filter (λ p, p.2 = loadID) publications) in
  match load_dates (load_from load) (load_to load) with
  | Err e => Err e
  | Ok dates => Ok (bool_decide (load_status load = fixedLoadPublished) && Nat.eqb equal (length dates), s)
  end.
Definition check_interval (definition : FixedDefinition) (loadID : Z) (load : fixedLoadContract) : Tx fixed_db bool :=
  let key := (f_key definition, load_from load, load_to load) in
  tx_modify (λ s, match fixed_report_publications s !! key with
    | Some _ => s | None => set_publications (<[key := None]> (fixed_report_publications s)) s end) ;;;
  let* active := tx_gets (λ s, default None (fixed_report_publications s !! key)) in
  match active with
  | Some a =>
      if loadID <? a then tx_fail ErrFixedStale
      else tx_ret ((a =? loadID) && bool_decide (load_status load = fixedLoadPublished))
  | None => tx_ret false
  end.

(** The plan a load was frozen from. *)
Definition member_request (m : fixedLoadMember) : RequestDescriptor :=
  mkDescriptor (member_key m) "" [] (mustDate (member_from m)) (mustDate (member_to m)) (member_location m) (member_account m).
Definition frozen_plan (load : fixedLoadContract) (members : list fixedLoadMember) : FixedPlan :=
  mkPlan (load_job load) (mkFixedRange (mustDate (load_from load)) (mustDate (load_to load))) (mkScope "" zero_date zero_date)
    (member_request <$> members) (load_variants load) true.

(** The rows the load replaces. *)
Definition replaced (definition : FixedDefinition) (load : fixedLoadContract) (r : final_row) : bool :=
  match f_publication definition with
  | DateAddressable => between (load_from load) (load_to load) (fin_coverage r)
  | IntervalResult => (fin_from r =? load_from load)%string && (fin_to r =? load_to load)%string
  end.

Definition finish_fenced (fenced : bool) (now : instant) (runID : Z) (ownerID : string) : Tx fixed_db unit :=
  if fenced then in_base (FinishSucceededInTx now runID ownerID) else tx_ret tt.

(** The statements of the publication, once the load is found complete. *)
Definition publish (specification : fixedStorage) (definition : FixedDefinition) (loadID : Z) (load : fixedLoadContract)
    : Tx fixed_db unit :=
  tx_modify (λ s, set_reports (<[finalTable specification :=
    filter (λ r, replaced definition load r = false) (table_rows (finalTable specification) (reports s))]> (reports s)) s) ;;;
  tx_modify (λ s, set_reports (<[finalTable specification := table_rows (finalTable specification) (reports s) ++
    (publish_row <$> load_staged (stagingTable specification) loadID s)]> (reports s)) s) ;;;
  match f_publication definition with
  | DateAddressable => publishFixedDates loadID load
  | IntervalResult => tx_modify (λ s, set_publications
      (alter (λ _, Some loadID) (f_key definition, load_from load, load_to load) (fixed_report_publications s)) s)
  end ;;;
  tx_modify (λ s, set_loads (alter set_published loadID (fixed_report_loads s)) (next_load_id s) s).

Definition promoteTransaction (now : instant) (runID : Z) (ownerID : string) (specification : fixedStorage)
    (definition : FixedDefinition) (loadID : Z) (fenced : bool) : Tx fixed_db unit :=
  let* load := readFixedLoad loadID in
  tx_lift (validate load definition) ;;;
  let* members := tx_gets (load_members loadID) in
  tx_guard ((ExpectedMemberCount load =? Z.of_nat (length members)) && (negb fenced || (IngestionRunID load =? runID)))
    (Errorf "fixed load is incomplete or belongs to another run") ;;;
  tx_guard (forallb (λ m, bool_decide (member_status m = fixedMemberSuccess)) members) (Errorf "fixed load member is incomplete") ;;;
  let* replay := match f_publication definition with
    | DateAddressable => check_dates definition loadID load
    | IntervalResult => check_interval definition loadID load
    end in
  if (replay : bool) then finish_fenced fenced now runID ownerID else
  tx_guard (match FixedManifestChecksum definition (frozen_plan load members) with
            | Ok manifest => (manifest =? Manifest load)%string | Err _ => false end)
    (Errorf "fixed load manifest differs from frozen requests") ;;;
  let* stored := tx_gets (load_segments loadID) in
  let* segments := tx_lift (validateFixedSegments definition load members stored) in
  let* rows := tx_gets (load_staged (stagingTable specification) loadID) in
  tx_lift (validateStagedMembers definition rows members segments) ;;;
  publish specification definition loadID load ;;;
  finish_fenced fenced now runID ownerID.

(** A publication that an earlier, unacknowledged commit already made. *)
Definition committed (runID loadID : Z) (s : fixed_db) : bool :=
  match ingestion_runs (base s) !! runID, fixed_report_loads s !! loadID with
  | Some r, Some l => bool_decide (run_status r = StatusSucceeded) && (IngestionRunID l =? runID) && bool_decide (load_status l = fixedLoadPublished)
  | _, _ => false
  end.

Definition Promote (now : instant) (runID : Z) (ownerID : string) (definition : FixedDefinition) (loadID : Z) (s : fixed_db)
    : result unit * fixed_db :=
  if (runID =? 0) || (ownerID =? "")%string then (Err (Errorf "complete fixed publication ownership is required"), s) else
  match fixedStorageFor definition with
  | Err e => (Err e, s)
  | Ok specification =>
      match runTx (promoteTransaction now runID ownerID specification definition loadID true) s with
      | (Err e, s') =>
          if negb (bool_decide (e = ErrFixedStale)) && committed runID loadID s' then (Ok tt, s') else (Err e, s')
      | r => r
      end
  end.

(** ** CleanupTerminal *)

Definition fixedTerminal (status : Status) : bool :=
  match status with StatusSucceeded | StatusFailed | StatusCancelled | StatusAbandoned => true | _ => false end.
(** The staged row's load belongs to a run that is over. *)
Definition terminal_load (s : fixed_db) (loadID : Z) : bool :=
  match fixed_report_loads s !! loadID with
  | Some l => match ingestion_runs (base s) !! IngestionRunID l with Some r => fixedTerminal (run_status r) | None => false end
  | None => false
  end.

Record fixedCleanupCandidate := mkCleanup { LoadID : Z; CleanupTable : string }.
Fixpoint fixedCleanupCandidates (limit : nat) (storages : list fixedStorage) (s : fixed_db) : list fixedCleanupCandidate :=
  match storages with
  | [] => []
  | storage :: storages =>
      match limit with
      | O => []
      | _ =>
          let ids := take limit (sort_by Z.ltb (remove_dups (filter (λ id, terminal_load s id = true)
            (st_load <$> table_rows (stagingTable storage) (staging s))))) in
          ((λ id, mkCleanup id (stagingTable storage)) <$> ids) ++ fixedCleanupCandidates (limit - length ids) storages s
      end
  end.
Definition cleanupFixedCandidate (candidate : fixedCleanupCandidate) (s : fixed_db) : Z * fixed_db :=
  let rows := table_rows (CleanupTable candidate) (staging s) in
  let doomed := λ r, (st_load r =? LoadID candidate) && terminal_load s (LoadID candidate) in
  (Z.of_nat (length (filter (λ r, doomed r = true) rows)),
   set_staging (<[CleanupTable candidate := filter (λ r, doomed r = false) rows]> (staging s)) s).

Record FixedCleanupResult := mkCleanupResult { Candidates : Z; Loads : Z; CleanupRows : Z; RowsByTable : gmap string Z }.
Fixpoint cleanupLoop (candidates : list fixedCleanupCandidate) (r : FixedCleanupResult) (s : fixed_db) : FixedCleanupResult * fixed_db :=
  match candidates with
  | [] => (r, s)
  | c :: candidates =>
      let (deleted, s) := cleanupFixedCandidate c s in
      if deleted =? 0 then cleanupLoop candidates r s else
      cleanupLoop candidates (mkCleanupResult (Candidates r) (Loads r + 1) (CleanupRows r + deleted)
        (<[CleanupTable c := total (RowsByTable r) (CleanupTable c) + deleted]> (RowsByTable r))) s
  end.
Definition CleanupTerminal (limit : Z) (s : fixed_db) : result FixedCleanupResult * fixed_db :=
  if limit <? 1 then (Err (Errorf "positive Fixed staging cleanup limit is required"), s) else
  match fixedStorages with
  | Err e => (Err e, s)
  | Ok storages =>
      let candidates := fixedCleanupCandidates (Z.to_nat limit) storages s in
      let (r, s) := cleanupLoop candidates (mkCleanupResult (Z.of_nat (length candidates)) 0 0 ∅) s in (Ok r, s)
  end.

(** ** Dates of loads *)

Lemma mustDate_usable x : IsZero (mustDate x) = false → usable (mustDate x) = true ∧ x = date_string (mustDate x).
Proof.
  unfold mustDate. destruct (ParseCalendarDate x) as [d|e] eqn:E; [|done]. intros Hz.
  apply ParseCalendarDate_Ok in E as [Hd <-]. split; [unfold usable; by rewrite Hd, Hz|]. unfold date_string. by rewrite Hz.
Qed.

Lemma mustDate_string d : usable d = true → mustDate (date_string d) = d.
Proof.
  intros Hd. unfold mustDate, date_string. rewrite (usable_nonzero d Hd), parse_format_date by (by apply usable_four). done.
Qed.

(** A text between two dates of the years 1000 to 9999, in a DATE column. *)
Lemma date_column_usable x : is_ok (date_column x) = true → string_le "1000-01-01" x = true → usable (mustDate x) = true ∧ x = date_string (mustDate x).
Proof.
  intros Hx Hle. apply mustDate_usable. unfold mustDate, date_column in *.
  destruct (ParseCalendarDate x) as [d|e] eqn:E; [|done]. apply ParseCalendarDate_Ok in E as [Hd <-].
  unfold IsZero. destruct (year d =? 0) eqn:Ey; [|done]. exfalso. apply Z.eqb_eq in Ey.
  unfold format_date in Hle. rewrite Ey in Hle. by vm_compute in Hle.
Qed.

Lemma dateLoop_interval from to (n : nat) a fuel : usable from = true → usable to = true →
  date_days from <= a → a + Z.of_nat n = date_days to + 1 → (1 <= n)%nat → (n <= fuel)%nat →
  dateLoop fuel (days_date a) (date_string to) = Some (interval a n).
Proof.
  intros Hf Ht. revert a fuel. induction n as [|n IH]; intros a fuel Ha Hn Hpos Hfuel; [lia|].
  destruct fuel as [|fuel]; [lia|]. cbn [dateLoop]. pose proof (usable_le_last to Ht) as Hlast.
  assert (Hu : usable (days_date a) = true).
  { apply (usable_between from); [done|lia]. }
  rewrite usable_string_le, date_days_date by done. rewrite (proj2 (Z.leb_le _ _)) by lia.
  rewrite interval_cons. destruct n as [|n].
  - assert (days_date a = to) as ->.
    { replace a with (date_days to) by lia. apply days_date_days. by apply usable_valid. }
    by rewrite String.eqb_refl.
  - assert ((date_string (days_date a) =? date_string to)%string = false) as ->.
    { apply String.eqb_neq. intros E. apply (f_equal mustDate) in E. rewrite !mustDate_string in E by done.
      apply (f_equal date_days) in E. rewrite date_days_date in E. lia. }
    assert (AddDays (days_date a) 1 = days_date (a + 1)) as ->.
    { unfold AddDays. by rewrite usable_nonzero, date_days_date. }
    rewrite (IH (a + 1) fuel) by lia. done.
Qed.

Lemma load_dates_interval from to : usable from = true → usable to = true → date_days from <= date_days to →
  load_dates (date_string from) (date_string to) = Ok (interval (date_days from) (interval_count from to)).
Proof.
  intros Hf Ht Hle. unfold load_dates. rewrite !mustDate_string by done.
  rewrite <- (days_date_days from) at 2 by (by apply usable_valid).
  rewrite (dateLoop_interval from to (interval_count from to)); [done|done|done|lia|unfold interval_count; lia..|].
  unfold chunkFuel, interval_count. lia.
Qed.

(** A chunk whose days lie in the requested interval. *)
Definition chunk_within (from to : CalendarDate) (c : DateChunk) : Prop :=
  usable (chunk_from c) = true ∧ usable (chunk_to c) = true ∧
  date_days from <= date_days (chunk_from c) ∧ date_days (chunk_from c) <= date_days (chunk_to c) ∧ date_days (chunk_to c) <= date_days to.

Lemma elem_of_interval d a n : d ∈ interval a n ↔ ∃ i, d = days_date i ∧ a <= i < a + Z.of_nat n.
Proof.
  unfold interval. rewrite list_elem_of_fmap. split.
  - intros (i & -> & [_ Hi]%elem_of_seq). exists (a + Z.of_nat i). split; [done|lia].
  - intros (i & -> & Hi). exists (Z.to_nat (i - a)). split; [f_equal; lia|]. apply elem_of_seq. lia.
Qed.

Lemma chunkLoop_within from to maxDays fuel : ∀ a chunks, usable from = true → usable to = true → 1 <= maxDays →
  date_days from <= a <= date_days to → chunkLoop fuel (days_date a) to maxDays = Some chunks →
  Forall (chunk_within from to) chunks.
Proof.
  induction fuel as [|fuel IH]; intros a chunks Hf Ht Hm Ha H; [done|]. cbn [chunkLoop] in H.
  pose proof (usable_le_last to Ht) as Hlast.
  assert (Hua : usable (days_date a) = true) by (apply (usable_between from); [done|lia]).
  rewrite usable_string_le, date_days_date in H by done. rewrite (proj2 (Z.leb_le _ _)) in H by lia.
  rewrite (chunk_end from) in H by done. set (e := Z.min (a + maxDays - 1) (date_days to)) in H.
  assert (Hue : usable (days_date e) = true) by (apply (usable_between from); [done|unfold e; lia]).
  assert (Hw : chunk_within from to (mkChunk (days_date a) (days_date e))).
  { split_and!; cbn [chunk_from chunk_to]; [done|done|..]; rewrite ?date_days_date; unfold e; lia. }
  case_bool_decide as He; [injection H as <-; by constructor|].
  destruct (chunkLoop fuel (AddDays (days_date e) 1) to maxDays) as [rest|] eqn:E; [|done]. injection H as <-.
  constructor; [done|]. assert (e ≠ date_days to) as Hne.
  { intros E'. apply He. rewrite E'. apply days_date_days. by apply usable_valid. }
  assert (Hadd : AddDays (days_date e) 1 = days_date (e + 1)) by (unfold AddDays; by rewrite usable_nonzero, date_days_date).
  rewrite Hadd in E. eapply (IH (e + 1)); [done..| |exact E]. unfold e in *. lia.
Qed.

(** What [FixedSourceChunks] gives: the request's dates are valid and the
    chunks lie between them. *)
Lemma FixedSourceChunks_within def x y chunks : FixedSourceChunks def (mustDate x) (mustDate y) = Ok chunks →
  usable (mustDate x) = true ∧ usable (mustDate y) = true ∧ Forall (chunk_within (mustDate x) (mustDate y)) chunks.
Proof.
  unfold FixedSourceChunks. destruct (_ || _ || _ || _ || _) eqn:E; [done|]. rewrite !orb_false_iff in E.
  destruct E as ((((Hx1 & Hx2) & Hy1) & Hy2) & Hle). apply Z.ltb_ge in Hx1, Hx2, Hy1, Hy2. apply negb_false_iff in Hle.
  destruct (mustDate_usable x) as [Hx _]; [unfold IsZero; apply Z.eqb_neq; lia|].
  destruct (mustDate_usable y) as [Hy _]; [unfold IsZero; apply Z.eqb_neq; lia|].
  rewrite usable_string_le in Hle by done. apply Z.leb_le in Hle.
  destruct (f_snapshot def && _); [done|]. intros H. split_and!; [done|done|]. destruct (f_request def).
  - destruct (_ || _) eqn:Em; [done|]. apply orb_false_iff in Em as [Em _]. apply Z.ltb_ge in Em.
    unfold ChunkDateRange in H. rewrite !usable_nonzero, usable_string_le in H by done.
    rewrite (proj2 (Z.leb_le _ _)) in H by done. cbn [orb negb] in H. rewrite (proj2 (Z.leb_gt _ _)) in H by lia.
    destruct (chunkLoop _ _ _ _) as [l|] eqn:E; [|done]. injection H as <-.
    rewrite <- (days_date_days (mustDate x)) in E by (by apply usable_valid).
    eapply (chunkLoop_within (mustDate x)); [done|done| |split; [reflexivity|done]|exact E]. lia.
  - injection H as <-. constructor; [|constructor]. by split_and!.
Qed.

Lemma validateFixedSegment_Ok def load m segment : validateFixedSegment def load m segment = Ok tt →
  usable (mustDate (member_from m)) = true ∧ usable (mustDate (member_to m)) = true ∧
  ∃ chunk, chunk_within (mustDate (member_from m)) (mustDate (member_to m)) chunk ∧
    SourcePeriodFrom segment = chunk_from chunk ∧ SourcePeriodTo segment = chunk_to chunk ∧ AsOfDate segment = chunk_to chunk.
Proof.
  unfold validateFixedSegment. intros (chunks & Hc & H)%res_bind_Ok. apply FixedSourceChunks_within in Hc as (Hf & Ht & Hc).
  destruct (_ || _ || _); [done|]. destruct (chunks !! _) as [c|] eqn:E; [|done]. destruct (_ || _ || _ || _) eqn:Eb; [done|].
  rewrite !orb_false_iff, !negb_false_iff, !bool_decide_eq_true in Eb. destruct Eb as (((H1 & H2) & H3) & _).
  split_and!; [done|done|]. exists c. split_and!; [|done..]. rewrite Forall_forall in Hc. apply Hc. by eapply list_elem_of_lookup_2.
Qed.

(** *** The segments of a load *)

Lemma string_le_trans a b c : string_le a b = true → string_le b c = true → string_le a c = true.
Proof.
  intros Ha Hb. assert (String.le a c) as H.
  { etrans; apply Is_true_true; [exact Ha|exact Hb]. }
  by apply Is_true_true in H.
Qed.

(** A member within the load. *)
Definition member_in (load : fixedLoadContract) (m : fixedLoadMember) : Prop :=
  string_le (load_from load) (member_from m) = true ∧ string_le (member_to m) (load_to load) = true ∧ ExpectedSegments m ≠ 0.
(** A segment within the load. *)
Definition segment_in (load : fixedLoadContract) (r : fixedStoredSegment) : Prop :=
  string_le (load_from load) (segment_from r) = true ∧ string_le (segment_to r) (load_to load) = true.

Lemma knownMembers_Ok load members : ∀ known known', knownMembers load members known = Ok known' →
  Forall (member_in load) members ∧
  ∀ key m, known' !! key = Some m → known !! key = Some m ∨ m ∈ members.
Proof.
  induction members as [|m members IH]; intros known known' H; cbn [knownMembers] in H.
  { injection H as ->. split; [constructor|by left]. }
  destruct (_ || _ || _) eqn:E; [done|]. rewrite !orb_false_iff, !negb_false_iff, Z.eqb_neq in E. destruct E as [[H1 H2] H3].
  apply IH in H as [Hall Hk]. split; [by constructor|]. intros key x Hx. apply Hk in Hx as [Hx|Hx]; [|right; by right].
  apply lookup_insert_Some in Hx as [[_ ->]|[_ Hx]]; [right; by left|by left].
Qed.

Lemma validateFixedSegment_in def load m r : member_in load m →
  validateFixedSegment def load m (mkSegment (segment_index r) (mustDate (segment_from r)) (mustDate (segment_to r)) (segment_variant r) ""
    (mustDate (segment_as_of r)) []) = Ok tt → segment_in load r.
Proof.
  intros (Hf & Ht & _) H. apply validateFixedSegment_Ok in H as (Hmf & Hmt & c & (Hcf & Hct & H1 & H2 & H3) & Ef & Et & _).
  cbn [SourcePeriodFrom SourcePeriodTo] in Ef, Et. split.
  - apply (string_le_trans _ (member_from m)); [done|]. destruct (mustDate_usable (member_from m)) as [_ ->]; [by apply usable_nonzero|].
    destruct (mustDate_usable (segment_from r)) as [_ ->]; [rewrite Ef; by apply usable_nonzero|].
    rewrite usable_string_le by (done || by rewrite Ef). rewrite Ef. by apply Z.leb_le.
  - apply (string_le_trans _ (member_to m)); [|done]. destruct (mustDate_usable (member_to m)) as [_ ->]; [by apply usable_nonzero|].
    destruct (mustDate_usable (segment_to r)) as [_ ->]; [rewrite Et; by apply usable_nonzero|].
    rewrite usable_string_le by (done || by rewrite Et). rewrite Et. by apply Z.leb_le.
Qed.

Lemma storedSegments_Ok def load known stored : (∀ key m, known !! key = Some m → member_in load m) →
  ∀ t t', storedSegments def load known stored t = Ok t' →
  (∀ id r, found t' !! id = Some r → found t !! id = Some r ∨ r ∈ stored ∧ id = identity r ∧ segment_in load r).
Proof.
  intros Hk. induction stored as [|r stored IH]; intros t t' H id x Hx; cbn [storedSegments] in H.
  { injection H as ->. by left. }
  destruct (known !! segment_key r) as [m|] eqn:Em; [|done]. destruct (negb _); [done|].
  apply res_bind_Ok in H as ([] & Hv & H). apply (IH _ _ H) in Hx as [Hx|(Hx & -> & Hin)]; [|right; split_and!; [by right|done..]].
  cbn [found] in Hx. apply lookup_insert_Some in Hx as [[<- <-]|[_ Hx]]; [|by left].
  right. split_and!; [by left|done|]. eapply validateFixedSegment_in, Hv. eauto.
Qed.

Lemma validateFixedSegments_Ok def load members stored segments : validateFixedSegments def load members stored = Ok segments →
  Forall (member_in load) members ∧ (∀ id r, segments !! id = Some r → r ∈ stored ∧ id = identity r ∧ segment_in load r) ∧
  check_coverage def load members = Ok tt ∧ Forall (λ m, StagedSegments m = ExpectedSegments m) members.
Proof.
  unfold validateFixedSegments. intros (known & Hk & H)%res_bind_Ok. apply knownMembers_Ok in Hk as [Hall Hk].
  apply res_bind_Ok in H as (t & Ht & H). destruct (negb _) eqn:Ec; [done|]. apply negb_false_iff in Ec.
  apply res_bind_Ok in H as ([] & Hc & [= <-]). split_and!; [done| |done|].
  - intros id r Hr. destruct (storedSegments_Ok def load known stored) with (t := mkTotals ∅ ∅ ∅) (t' := t) (id := id) (r := r) as [Hx|Hx]; [|done..|].
    + intros key m Hm. destruct (Hk key m Hm) as [Hx|Hx]; [by rewrite lookup_empty in Hx|]. rewrite Forall_forall in Hall. by apply Hall.
    + exact Hx.
  - apply Forall_forall. intros m Hm. rewrite forallb_forall in Ec. specialize (Ec m (proj1 (list_elem_of_In _ _) Hm)).
    unfold member_complete in Ec. rewrite !andb_true_iff, !Z.eqb_eq in Ec. lia.
Qed.

(** *** The staged rows of a load *)

Definition rows_of (key : string) (rows : list staged_row) : list staged_row := filter (λ r, st_member r = key) rows.
Definition aggregated (rows : list staged_row) (a : Z * string) : Z * string :=
  (a.1 + Z.of_nat (length rows), a.2 +:+ checksum_parts (st_checksum <$> rows)).

Lemma aggregated_nil a : aggregated [] a = a.
Proof. destruct a. unfold aggregated. cbn. by rewrite Z.add_0_r, string_app_nil_r. Qed.
Lemma aggregated_cons r rows a : aggregated (r :: rows) a = aggregated rows (aggregate_add (st_checksum r) a).
Proof.
  unfold aggregated, aggregate_add, checksum_parts. cbn [fst snd length fmap list_fmap string_concat foldr].
  rewrite string_app_assoc. f_equal. lia.
Qed.

Lemma stagedLoop_Ok def segments rows : ∀ ma sa ma' sa', stagedLoop def segments rows ma sa = Ok (ma', sa') →
  Forall (λ r, is_Some (ma !! st_member r) ∧ check_staged def segments r = Ok tt) rows ∧
  ∀ key, ma' !! key = aggregated (rows_of key rows) <$> ma !! key.
Proof.
  induction rows as [|r rows IH]; intros ma sa ma' sa' H; cbn [stagedLoop] in H.
  { injection H as -> ->. split; [constructor|]. intros key. unfold rows_of. rewrite filter_nil. 
    destruct (ma' !! key); cbn; [by rewrite aggregated_nil|done]. }
  destruct (_ || _) eqn:E; [done|]. apply orb_false_iff in E as [E _]. apply negb_false_iff in E.
  apply res_bind_Ok in H as ([] & Hc & H). apply IH in H as [Hall Hm]. split.
  - constructor.
    + split; [|done]. by destruct (ma !! st_member r).
    + eapply Forall_impl; [exact Hall|]. intros x [Hx Hx']. split; [|done].
      by rewrite lookup_alter_is_Some in Hx.
  - intros key. rewrite Hm. unfold rows_of. rewrite filter_cons. destruct (decide (st_member r = key)) as [->|Hne].
    + rewrite lookup_alter_eq. destruct (ma !! key); cbn; [by rewrite aggregated_cons|done].
    + by rewrite lookup_alter_ne.
Qed.

(** The staged rows of a load agree with what its members were finalised
    with. *)
Definition rows_complete (members : list fixedLoadMember) (rows : list staged_row) : Prop :=
  Forall (λ r, st_member r ∈ member_key <$> members) rows ∧
  Forall (λ m, Z.of_nat (length (rows_of (member_key m) rows)) = member_count m ∧
    sha256 (checksum_parts (st_checksum <$> rows_of (member_key m) rows)) = member_checksum m) members.

Lemma zero_aggregates members key : (list_to_map ((λ m, (member_key m, (0, ""))) <$> members) : gmap string (Z * string)) !! key =
  if bool_decide (key ∈ member_key <$> members) then Some (0, "") else None.
Proof.
  induction members as [|m members IH]; [done|]. cbn [fmap list_fmap list_to_map foldr uncurry].
  destruct (decide (key = member_key m)) as [->|Hne].
  - rewrite lookup_insert_eq, bool_decide_true by left. done.
  - rewrite lookup_insert_ne by done. rewrite IH. apply (f_equal (λ b : bool, if b then Some (0, "") else None)).
    apply bool_decide_ext. rewrite elem_of_cons. naive_solver.
Qed.

Lemma validateStagedMembers_Ok def rows members segments : validateStagedMembers def rows members segments = Ok tt →
  rows_complete members rows ∧ Forall (λ r, check_staged def segments r = Ok tt) rows.
Proof.
  unfold validateStagedMembers. intros ([ma sa] & Hl & H)%res_bind_Ok. apply stagedLoop_Ok in Hl as [Hrows Hma].
  destruct (negb (forallb _ members)) eqn:Em; [done|]. apply negb_false_iff in Em. clear H. split; [split|].
  - eapply Forall_impl; [exact Hrows|]. intros r [[a Ha] _]. rewrite zero_aggregates in Ha. by case_bool_decide.
  - apply Forall_forall. intros m Hm. rewrite forallb_forall in Em. specialize (Em m (proj1 (list_elem_of_In _ _) Hm)).
    rewrite Hma, zero_aggregates, bool_decide_true in Em by (apply list_elem_of_fmap; eauto). unfold agrees in Em.
    cbn [fmap option_fmap option_map] in Em. unfold aggregated in Em. cbn [fst snd] in Em. rewrite string_app_nil in Em.
    apply andb_true_iff in Em as [E1%Z.eqb_eq E2%String.eqb_eq]. split; [lia|done].
  - eapply Forall_impl; [exact Hrows|]. by intros r [_ ?].
Qed.

Lemma ParseFixedCoverageDate_usable def raw snapshot d : usable snapshot = true ∨ IsZero snapshot = true →
  ParseFixedCoverageDate def raw snapshot = Ok d → usable d = true.
Proof.
  intros Hs. unfold ParseFixedCoverageDate. destruct (negb _); [done|]. destruct (f_snapshot def).
  - destruct (IsZero snapshot) eqn:E; [done|]. intros [= <-]. by destruct Hs.
  - destruct (_ || _ || _); [done|]. destruct (Parse _ raw) as [t|] eqn:E; [|done]. destruct (negb _ || _) eqn:Eb; [done|].
    intros [= <-]. apply orb_false_iff in Eb as [_ Ey]. apply Z.ltb_ge in Ey. apply Parse_moment in E as (Hv & Hy & _).
    apply usable_spec. split; [done|lia].
Qed.

(** A business date within the load. *)
Definition covered (load : fixedLoadContract) (r : staged_row) : Prop :=
  ∃ d, usable d = true ∧ st_coverage r = Some (date_string d) ∧
    string_le (load_from load) (date_string d) = true ∧ string_le (date_string d) (load_to load) = true.

Lemma check_staged_covered def load segments r : f_publication def = DateAddressable →
  (∀ id x, segments !! id = Some x → segment_in load x) → check_staged def segments r = Ok tt → covered load r.
Proof.
  intros Hp Hs. unfold check_staged. destruct (segments !! _) as [source|] eqn:E; [|done]. destruct (negb _); [done|].
  rewrite Hp. destruct (raw_date def r) as [raw|], (st_coverage r) as [c|] eqn:Ec; try done.
  destruct (ParseFixedCoverageDate def raw _) as [d|] eqn:Ed; [|done]. destruct (_ || _ || _) eqn:Eb; [done|]. intros _.
  rewrite !orb_false_iff, !negb_false_iff in Eb. destruct Eb as [[Eq%String.eqb_eq H1] H2]. subst c.
  destruct (Hs _ _ E) as [H3 H4]. exists d. split_and!; [|done|by eapply string_le_trans|by eapply string_le_trans].
  eapply ParseFixedCoverageDate_usable, Ed. destruct (IsZero (mustDate (st_as_of r))) eqn:Ez; [by right|left].
  by apply mustDate_usable.
Qed.

(** ** Publication *)

Definition loads_dated (s : fixed_db) : Prop :=
  ∀ id load, fixed_report_loads s !! id = Some load → is_ok (date_column (load_from load)) = true ∧ is_ok (date_column (load_to load)) = true.

Lemma validate_dates load def : validate load def = Ok tt → is_ok (date_column (load_from load)) = true → is_ok (date_column (load_to load)) = true →
  load_job load = f_key def ∧ ∃ from to, usable from = true ∧ usable to = true ∧ load_from load = date_string from ∧
    load_to load = date_string to ∧ date_days from <= date_days to.
Proof.
  unfold validate. destruct (_ || _ || _ || _ || _) eqn:E; [done|]. rewrite !orb_false_iff, negb_false_iff in E.
  destruct E as ((((Hj%String.eqb_eq & _) & _) & _) & _). destruct (_ || _ || _) eqn:E; [done|].
  rewrite !orb_false_iff, !negb_false_iff in E. destruct E as ((H1 & H2) & H3). intros _ Hf Ht. split; [done|].
  destruct (date_column_usable _ Hf H1) as [Huf Ef]. destruct (date_column_usable _ Ht ltac:(by eapply string_le_trans)) as [Hut Et].
  exists (mustDate (load_from load)), (mustDate (load_to load)). split_and!; [done..|].
  rewrite Ef, Et, usable_string_le in H3 by done. by apply Z.leb_le.
Qed.

Definition publish_dates (jobKey : string) (loadID : Z) (t : gmap (string * string) Z) (dates : list CalendarDate) : gmap (string * string) Z :=
  foldl (λ t d, <[(jobKey, date_string d) := loadID]> t) t dates.

Lemma publishLoop_eq jobKey loadID dates : ∀ values s, (length values < 500)%nat →
  publishLoop jobKey loadID values dates s =
  Ok (tt, set_date_publications (publish_dates jobKey loadID (fixed_report_date_publications s) (values ++ dates)) s).
Proof.
  induction dates as [|d dates IH]; intros values s Hl; cbn [publishLoop].
  - rewrite app_nil_r. destruct values; [by destruct s|done].
  - destruct (Nat.eqb_spec (length (values ++ [d])) 500) as [E|E].
    + unfold upsert_dates, tx_bind, tx_modify. rewrite IH by (cbn; lia). cbn [app]. unfold publish_dates.
      replace (values ++ d :: dates) with ((values ++ [d]) ++ dates) by (by rewrite <- app_assoc).
      rewrite (foldl_app _ (values ++ [d])). done.
    + rewrite length_app in E. cbn in E. rewrite IH by (rewrite length_app; cbn; lia). by rewrite <- app_assoc.
Qed.

Lemma publish_dates_lookup jobKey loadID dates : ∀ t job x, publish_dates jobKey loadID t dates !! (job, x) =
  if bool_decide (job = jobKey ∧ x ∈ date_string <$> dates) then Some loadID else t !! (job, x).
Proof.
  unfold publish_dates. induction dates as [|d dates IH] using rev_ind; intros t job x.
  { rewrite bool_decide_false; [done|]. by intros [_ ?%not_elem_of_nil]. }
  rewrite foldl_app, fmap_app. cbn [foldl fmap list_fmap].
  destruct (decide ((job, x) = (jobKey, date_string d))) as [[= -> ->]|Hne].
  - rewrite lookup_insert_eq, bool_decide_true; [done|]. split; [done|]. apply elem_of_app. right. by left.
  - rewrite lookup_insert_ne by congruence. rewrite IH. apply (f_equal (λ b : bool, if b then Some loadID else _)).
    apply bool_decide_ext. rewrite elem_of_app, list_elem_of_singleton. naive_solver.
Qed.

Lemma interval_strings from to d : usable from = true → usable to = true → usable d = true → date_days from <= date_days to →
  date_string d ∈ date_string <$> interval (date_days from) (interval_count from to) ↔ date_days from <= date_days d <= date_days to.
Proof.
  intros Hf Ht Hd Hle. rewrite list_elem_of_fmap. split.
  - intros (x & E & (i & -> & Hi)%elem_of_interval). unfold interval_count in Hi. pose proof (usable_le_last to Ht).
    apply (f_equal mustDate) in E. rewrite !mustDate_string in E; [|apply (usable_between from); [done|lia]|done].
    rewrite E, date_days_date. lia.
  - intros Hin. exists d. split; [done|]. apply elem_of_interval. exists (date_days d).
    rewrite days_date_days by (by apply usable_valid). split; [done|]. unfold interval_count. lia.
Qed.
