(* ===== verification/FixedPublication.v ===== *)
(** * Publication of fixed reports

    What the transactions of FixedStore.v promise.  [Promote] refines the
    abstract publication [publication_spec]: a map from business dates to the
    load that is published for the date and its rows, of which one load
    replaces an interval at a time.  The invariant [fixed_ok] says the rows of
    a report always belong to the load that is recorded as published. *)

From S2P Require Import Prelude Calendar Json Hash Catalog Params Access AuditTrail Table Store Schema Runs RunLifecycle Inserts FixedPlans FixedStore.

Open Scope Z_scope.

(** ** The end of the run *)

Lemma finish_succeeded now runID ownerID d d' : FinishSucceededInTx now runID ownerID d = Ok (tt, d') →
  ∃ r r', ingestion_runs d !! runID = Some r ∧ run_status r = StatusRunning ∧ owner_id r = Some ownerID ∧ cancel_requested_at r = None ∧
    d' = set_ingestion_runs (<[runID := r']> (ingestion_runs d)) d ∧ run_status r' = StatusSucceeded.
Proof.
  unfold FinishSucceededInTx, finish. intros (n & d1 & Hu & (Hn & [= ->])%tx_guard_Ok)%tx_bind_Ok.
  apply update_one_Ok in Hu as [(_ & r & Hr & Hc & _ & _ & ->)|(-> & _)]; [|done].
  rewrite bool_decide_true in Hc by done. unfold owned_by, has_status in Hc.
  apply andb_true_iff in Hc as [[Hs Ho]%andb_true_iff Hcancel]. apply bool_decide_eq_true in Hs, Ho.
  eexists r, _. split_and!; [done|done|done| |done|done]. by destruct (cancel_requested_at r).
Qed.

Lemma finish_fenced_Ok now runID ownerID s s' : finish_fenced true now runID ownerID s = Ok (tt, s') →
  (∃ r, ingestion_runs (base s) !! runID = Some r ∧ run_status r = StatusRunning ∧ owner_id r = Some ownerID ∧ cancel_requested_at r = None) ∧
  ∃ b r', s' = set_base b s ∧ ingestion_runs b !! runID = Some r' ∧ run_status r' = StatusSucceeded.
Proof.
  unfold finish_fenced, in_base. destruct (FinishSucceededInTx _ _ _ (base s)) as [[[] b]|] eqn:E; [|done].
  intros [= <-]. apply finish_succeeded in E as (r & r' & Hr & Hs & Ho & Hc & -> & Hs').
  split; [by exists r|]. eexists _, r'. split_and!; [done| |done]. apply lookup_insert_eq.
Qed.

(** ** What [promoteTransaction] does *)

(** The database after the statements of [publish]. *)
Definition promoted (specification : fixedStorage) (definition : FixedDefinition) (loadID : Z) (load : fixedLoadContract)
    (dates : list CalendarDate) (s : fixed_db) : fixed_db :=
  set_loads (alter set_published loadID (fixed_report_loads s)) (next_load_id s)
    (set_date_publications (publish_dates (load_job load) loadID (fixed_report_date_publications s) dates)
      (set_reports (<[finalTable specification :=
         filter (λ r, replaced definition load r = false) (table_rows (finalTable specification) (reports s)) ++
         (publish_row <$> load_staged (stagingTable specification) loadID s)]> (reports s)) s)).

Lemma publish_dated specification definition loadID load s s' : f_publication definition = DateAddressable →
  publish specification definition loadID load s = Ok (tt, s') →
  ∃ dates, load_dates (load_from load) (load_to load) = Ok dates ∧ s' = promoted specification definition loadID load dates s.
Proof.
  intros Hp H. unfold publish in H. rewrite Hp in H. unfold publishFixedDates in H.
  unfold tx_bind at 1, tx_modify at 1 in H. unfold tx_bind at 1, tx_modify at 1 in H.
  apply tx_bind_Ok in H as ([] & s2 & (dates & s3 & (? & Hd & [= <- ->])%tx_lift_Ok & H2)%tx_bind_Ok & H).
  rewrite publishLoop_eq in H2 by (cbn; lia). injection H2 as <-. unfold tx_modify in H. injection H as <-.
  exists dates. split; [done|]. unfold promoted. cbn. unfold table_rows. rewrite lookup_insert_eq. cbn. by rewrite insert_insert_eq.
Qed.

Section Promote.
Context (now : instant) (runID : Z) (ownerID : string) (definition : FixedDefinition) (specification : fixedStorage)
  (loadID : Z).

(** The load is complete: all members of the frozen plan are final, and the
    staged rows are theirs, dated within the load. *)
Definition complete (s : fixed_db) (load : fixedLoadContract) : Prop :=
  let members := load_members loadID s in
  let rows := load_staged (stagingTable specification) loadID s in
  Z.of_nat (length members) = ExpectedMemberCount load ∧
  Forall (λ m, member_status m = fixedMemberSuccess ∧ StagedSegments m = ExpectedSegments m) members ∧
  (∃ manifest, FixedManifestChecksum definition (frozen_plan load members) = Ok manifest ∧ manifest = Manifest load) ∧
  rows_complete members rows ∧ (f_publication definition = DateAddressable → Forall (covered load) rows).

(** No date of the load has a newer load. *)
Definition newest (s : fixed_db) (load : fixedLoadContract) : Prop :=
  ∀ x n, fixed_report_date_publications s !! (f_key definition, x) = Some n →
    string_le (load_from load) x = true → string_le x (load_to load) = true → n <= loadID.

Lemma check_dates_Ok load s b s' : check_dates definition loadID load s = Ok (b, s') →
  s' = s ∧ newest s load ∧ (b = true → load_status load = fixedLoadPublished).
Proof.
  unfold check_dates. destruct (existsb _ _) eqn:E; [done|]. destruct (load_dates _ _) as [dates|]; [|done].
  intros [= <- <-]. split_and!; [done| |].
  - intros x n Hx Hf Ht. destruct (Z.le_gt_cases n loadID) as [|Hgt]; [done|]. exfalso.
    assert (existsb (λ p, loadID <? p.2) (filter (λ p, p.1.1 = f_key definition ∧ between (load_from load) (load_to load) (Some p.1.2) = true)
      (map_to_list (fixed_report_date_publications s))) = true) as Ht2; [|by rewrite E in Ht2].
    apply existsb_exists. exists ((f_key definition, x), n). split; [|by apply Z.ltb_lt].
    apply list_elem_of_In, list_elem_of_filter. split; [|by apply elem_of_map_to_list].
    cbn [fst snd between]. split; [done|]. by rewrite Hf, Ht.
  - intros [Hb _]%andb_true_iff. by apply bool_decide_eq_true in Hb.
Qed.

(** The verdict on what is published now. *)
Definition check_published (load : fixedLoadContract) : Tx fixed_db bool :=
  match f_publication definition with
  | DateAddressable => check_dates definition loadID load
  | IntervalResult => check_interval definition loadID load
  end.

Lemma check_published_same load s b s' : check_published load s = Ok (b, s') →
  s' = s ∨ f_publication definition = IntervalResult ∧
    fixed_report_publications s !! (f_key definition, load_from load, load_to load) = None ∧
    s' = set_publications (<[(f_key definition, load_from load, load_to load) := None]> (fixed_report_publications s)) s.
Proof.
  unfold check_published. destruct (f_publication definition); [intros (-> & _)%check_dates_Ok; by left|].
  unfold check_interval. unfold tx_bind at 1, tx_modify. intros (active & s1 & [= <- <-] & H)%tx_bind_Ok.
  assert (Hs : s' = match fixed_report_publications s !! (f_key definition, load_from load, load_to load) with
    | Some _ => s | None => set_publications (<[(f_key definition, load_from load, load_to load) := None]> (fixed_report_publications s)) s end).
  { revert H. unfold tx_ret, tx_fail. repeat case_match; intros; by simplify_eq/=. }
  destruct (fixed_report_publications s !! _) eqn:E; rewrite Hs; [by left|]. right. by split_and!.
Qed.

Lemma check_published_Ok load s b s' : check_published load s = Ok (b, s') →
  (b = true → load_status load = fixedLoadPublished) ∧
  (f_publication definition = IntervalResult → is_Some (fixed_report_publications s' !! (f_key definition, load_from load, load_to load))).
Proof.
  intros H. split.
  - intros ->. revert H. unfold check_published. destruct (f_publication definition); [intros (_ & _ & Hb)%check_dates_Ok; by apply Hb|].
    unfold check_interval. unfold tx_bind at 1, tx_modify. intros (active & s1 & [= <- <-] & H)%tx_bind_Ok.
    destruct (default None _) as [a|]; [|done]. destruct (loadID <? a); [done|]. injection H as [_ H]%andb_true_iff _.
    by apply bool_decide_eq_true in H.
  - intros Hp. revert H. unfold check_published. rewrite Hp. unfold check_interval. unfold tx_bind at 1, tx_modify.
    intros (active & s1 & [= <- <-] & H)%tx_bind_Ok.
    set (key := (f_key definition, load_from load, load_to load)) in *.
    assert (Hs : s' = match fixed_report_publications s !! key with
      | Some _ => s | None => set_publications (<[key := None]> (fixed_report_publications s)) s end)
      by (revert H; unfold tx_ret, tx_fail; repeat case_match; intros; by simplify_eq/=).
    rewrite Hs. destruct (fixed_report_publications s !! key) eqn:E; [by rewrite E|]. cbn. by rewrite lookup_insert_eq.
Qed.

Lemma complete_same s s' load : fixed_report_load_members s' = fixed_report_load_members s → staging s' = staging s →
  complete s load → complete s' load.
Proof. intros E1 E2. unfold complete, load_members, load_staged. by rewrite E1, E2. Qed.

Lemma promoteTransaction_Ok s s' : promoteTransaction now runID ownerID specification definition loadID true s = Ok (tt, s') →
  ∃ load replay s1, fixed_report_loads s !! loadID = Some load ∧ validate load definition = Ok tt ∧ IngestionRunID load = runID ∧
  check_published load s = Ok (replay, s1) ∧
  (replay = true ∧ finish_fenced true now runID ownerID s1 = Ok (tt, s') ∨
   replay = false ∧ complete s1 load ∧ ∃ s2, publish specification definition loadID load s1 = Ok (tt, s2) ∧
     finish_fenced true now runID ownerID s2 = Ok (tt, s')).
Proof.
  unfold promoteTransaction. intros (load & s0 & Hload & H)%tx_bind_Ok. unfold readFixedLoad in Hload.
  destruct (fixed_report_loads s !! loadID) as [load'|] eqn:El; [|done]. injection Hload as -> <-.
  apply tx_bind_Ok in H as ([] & s1 & ([] & Hv & [= ->])%tx_lift_Ok & H).
  apply tx_bind_Ok in H as (members & s2 & [= <- <-] & H).
  apply tx_bind_Ok in H as ([] & s3 & (Hg & [= ->])%tx_guard_Ok & H).
  apply tx_bind_Ok in H as ([] & s4 & (Hm & [= ->])%tx_guard_Ok & H).
  apply tx_bind_Ok in H as (replay & s5 & Hcheck & H).
  cbn [negb orb] in Hg. apply andb_true_iff in Hg as [Hcount%Z.eqb_eq Hrun%Z.eqb_eq].
  exists load, replay, s5. split_and!; [done..|]. destruct replay; [by left|right].
  apply tx_bind_Ok in H as ([] & s6 & (Hman & [= ->])%tx_guard_Ok & H).
  apply tx_bind_Ok in H as (stored & s7 & [= <- <-] & H).
  apply tx_bind_Ok in H as (segments & s8 & (? & Hseg & [= <- ->])%tx_lift_Ok & H).
  apply tx_bind_Ok in H as (rows & s9 & [= <- <-] & H).
  apply tx_bind_Ok in H as ([] & s10 & ([] & Hstaged & [= ->])%tx_lift_Ok & H).
  apply tx_bind_Ok in H as ([] & s11 & Hpub & H).
  apply validateFixedSegments_Ok in Hseg as (Hin & Hseg & _ & Hsegs). apply validateStagedMembers_Ok in Hstaged as [Hrows Hchecked].
  split; [done|]. split; [|by exists s11].
  assert (Hmem : load_members loadID s5 = load_members loadID s).
  { destruct (check_published_same _ _ _ _ Hcheck) as [->|(_ & _ & ->)]; done. }
  unfold complete. rewrite Hmem. split_and!; [done| | |done|].
  - apply Forall_forall. intros m Hx. rewrite forallb_forall in Hm. rewrite Forall_forall in Hsegs.
    split; [|by apply Hsegs]. specialize (Hm m (proj1 (list_elem_of_In _ _) Hx)). by apply bool_decide_eq_true in Hm.
  - destruct (FixedManifestChecksum _ _) as [manifest|]; [|done]. apply String.eqb_eq in Hman. by exists manifest.
  - intros Hp. eapply Forall_impl; [exact Hchecked|]. intros r Hr. eapply check_staged_covered; [exact Hp| |exact Hr].
    intros id x Hx. by apply Hseg in Hx as (_ & _ & ?).
Qed.

(** The same for reports with business dates. *)
Lemma promoteTransaction_dated s s' : f_publication definition = DateAddressable →
  promoteTransaction now runID ownerID specification definition loadID true s = Ok (tt, s') →
  ∃ load, fixed_report_loads s !! loadID = Some load ∧ validate load definition = Ok tt ∧ IngestionRunID load = runID ∧ newest s load ∧
  (load_status load = fixedLoadPublished ∧ finish_fenced true now runID ownerID s = Ok (tt, s') ∨
   complete s load ∧ ∃ dates, load_dates (load_from load) (load_to load) = Ok dates ∧
     finish_fenced true now runID ownerID (promoted specification definition loadID load dates s) = Ok (tt, s')).
Proof.
  intros Hp H. apply promoteTransaction_Ok in H as (load & replay & s1 & Hload & Hv & Hrun & Hcheck & H).
  unfold check_published in Hcheck. rewrite Hp in Hcheck. apply check_dates_Ok in Hcheck as (-> & Hnew & Hrep).
  exists load. split_and!; [done..|]. destruct H as [[-> H]|(_ & Hc & s2 & Hpub & H)]; [left; by split; [apply Hrep|]|right].
  apply publish_dated in Hpub as (dates & Hd & ->); [|done]. split; [done|]. by exists dates.
Qed.
End Promote.

(** ** The abstract publication *)

(** What is published for a date: the load and its rows. *)
Definition published (s : fixed_db) (definition : FixedDefinition) (d : CalendarDate) : option Z * list final_row :=
  (fixed_report_date_publications s !! (f_key definition, date_string d),
   match fixedStorageFor definition with
   | Ok specification => filter (λ r, fin_coverage r = Some (date_string d)) (table_rows (finalTable specification) (reports s))
   | Err _ => []
   end).

(** What a load has staged for a date, in the order of members and rows. *)
Definition candidate (s : fixed_db) (definition : FixedDefinition) (loadID : Z) (d : CalendarDate) : list final_row :=
  match fixedStorageFor definition with
  | Ok specification =>
      publish_row <$> filter (λ r, st_coverage r = Some (date_string d)) (load_staged (stagingTable specification) loadID s)
  | Err _ => []
  end.

(** The specification: a load that is newer than everything published in
    its interval replaces the interval, date by date, and nothing else. *)
Definition publication_spec (from to : CalendarDate) (loadID : Z) (content : CalendarDate → list final_row)
    (before after : CalendarDate → option Z * list final_row) : Prop :=
  ∀ d, usable d = true →
    if bool_decide (date_days from <= date_days d <= date_days to)
    then (∀ n, (before d).1 = Some n → n <= loadID) ∧ after d = (Some loadID, content d)
    else after d = before d.

Lemma filter_fmap_publish x (rows : list staged_row) :
  filter (λ r, fin_coverage r = x) (publish_row <$> rows : list final_row) = publish_row <$> filter (λ r, st_coverage r = x) rows.
Proof.
  induction rows as [|r rows IH]; [done|]. rewrite fmap_cons, !filter_cons. cbn [fin_coverage publish_row].
  destruct (decide (st_coverage r = x)); rewrite IH; done.
Qed.

Lemma filter_none {A} (P : A → Prop) `{∀ x, Decision (P x)} (l : list A) : Forall (λ x, ¬ P x) l → filter P l = [].
Proof. induction 1 as [|x l Hx _ IH]; [done|]. by rewrite filter_cons_False. Qed.
Lemma filter_keep {A} (P Q : A → Prop) `{∀ x, Decision (P x)} `{∀ x, Decision (Q x)} (l : list A) :
  (∀ x, Q x → P x) → filter Q (filter P l) = filter Q l.
Proof.
  intros Hpq. induction l as [|x l IH]; [done|]. rewrite (filter_cons P), (filter_cons Q x l).
  destruct (decide (P x)) as [Hx|Hx].
  - rewrite filter_cons. by rewrite IH.
  - destruct (decide (Q x)); [by destruct Hx; apply Hpq|done].
Qed.

Lemma FixedTableName_inj k1 k2 table : FixedTableName k1 = Ok table → FixedTableName k2 = Ok table → k1 = k2.
Proof.
  unfold FixedTableName, fixedTables. cbn [assoc].
  repeat match goal with |- context [(?k =? ?x)%string] => destruct (String.eqb_spec k x); subst end; by intros [= <-].
Qed.

Lemma fixedStorageFor_Ok definition specification : fixedStorageFor definition = Ok specification →
  definition ∈ FixedDefinitions ∧ FixedTableName (f_key definition) = Ok (finalTable specification).
Proof.
  unfold fixedStorageFor. destruct (negb _) eqn:E; [done|]. apply negb_false_iff, existsb_exists in E as (c & Hc & E).
  apply andb_true_iff in E as [_ E%bool_decide_eq_true]. subst c. intros (table & Ht & [= <-])%res_bind_Ok.
  split; [by apply list_elem_of_In|done].
Qed.

Lemma published_promoted specification definition loadID load from to s b d : fixedStorageFor definition = Ok specification →
  f_publication definition = DateAddressable → load_job load = f_key definition →
  load_from load = date_string from → load_to load = date_string to → usable from = true → usable to = true → usable d = true →
  date_days from <= date_days to → Forall (covered load) (load_staged (stagingTable specification) loadID s) →
  published (set_base b (promoted specification definition loadID load (interval (date_days from) (interval_count from to)) s)) definition d =
  if bool_decide (date_days from <= date_days d <= date_days to) then (Some loadID, candidate s definition loadID d) else published s definition d.
Proof.
  intros Hspec Hp Hj Hlf Hlt Hf Ht Hd Hle Hcov. unfold published, candidate. rewrite Hspec.
  unfold promoted. cbn [fixed_report_date_publications reports set_base set_loads set_date_publications set_reports].
  rewrite publish_dates_lookup, Hj. unfold table_rows at 1. rewrite lookup_insert_eq. cbn [default from_option id].
  rewrite filter_app, filter_fmap_publish.
  assert (Hin : bool_decide (f_key definition = f_key definition ∧ date_string d ∈ date_string <$> interval (date_days from) (interval_count from to)) =
    bool_decide (date_days from <= date_days d <= date_days to)).
  { apply bool_decide_ext. rewrite interval_strings by done. naive_solver. }
  rewrite Hin. 
  assert (Hbetween : ∀ r, fin_coverage r = Some (date_string d) → replaced definition load r = bool_decide (date_days from <= date_days d <= date_days to)).
  { intros r Hr. unfold replaced, between. rewrite Hp, Hr, Hlf, Hlt, !usable_string_le by done. apply eq_true_iff_eq.
    rewrite andb_true_iff, !Z.leb_le, bool_decide_eq_true. done. }
  case_bool_decide as Hc.
  - rewrite (filter_none _ (filter _ (table_rows _ _))); [done|]. apply Forall_forall. intros r [Hr _]%list_elem_of_filter Hx.
    by rewrite Hbetween in Hr.
  - rewrite filter_keep; [|intros r Hx; by rewrite Hbetween]. rewrite (filter_none _ (load_staged _ _ _)); [by rewrite app_nil_r|].
    eapply Forall_impl; [exact Hcov|]. intros r (x & Hx & Hr & H1 & H2) Heq. rewrite Hr in Heq. injection Heq as E.
    apply Hc. rewrite Hlf, E, usable_string_le in H1 by done. rewrite Hlt, E, usable_string_le in H2 by done. lia.
Qed.

Lemma published_other specification definition other loadID load dates s b d : fixedStorageFor definition = Ok specification →
  load_job load = f_key definition → f_key other ≠ f_key definition →
  published (set_base b (promoted specification definition loadID load dates s)) other d = published s other d.
Proof.
  intros Hspec Hj Hne. unfold published. unfold promoted.
  cbn [fixed_report_date_publications reports set_base set_loads set_date_publications set_reports].
  rewrite publish_dates_lookup, bool_decide_false by (rewrite Hj; naive_solver). f_equal.
  destruct (fixedStorageFor other) as [spec'|] eqn:Ho; [|done]. unfold table_rows at 1.
  rewrite lookup_insert_ne; [done|]. intros E. apply fixedStorageFor_Ok in Hspec as [_ H1], Ho as [_ H2]. rewrite E in H1.
  apply Hne. by eapply FixedTableName_inj.
Qed.

Lemma Promote_cases now runID ownerID definition loadID s s' : Promote now runID ownerID definition loadID s = (Ok tt, s') →
  ∃ specification, fixedStorageFor definition = Ok specification ∧
  (s' = s ∧ committed runID loadID s = true ∨ promoteTransaction now runID ownerID specification definition loadID true s = Ok (tt, s')).
Proof.
  unfold Promote. destruct (_ || _); [done|]. destruct (fixedStorageFor definition) as [specification|]; [|done]. unfold runTx.
  destruct (promoteTransaction _ _ _ _ _ _ _ s) as [[[] t]|e] eqn:E.
  - intros [= <-]. exists specification. by split; [|right].
  - destruct (_ && _) eqn:Eb; [|done]. intros [= <-]. apply andb_true_iff in Eb as [_ Hc]. exists specification. split; [done|by left].
Qed.

(** C2: publishing a load refines the abstract publication, atomically with
    the end of its run: when [Promote] reports success, the run has succeeded
    and the load is published, and either what is published was not touched
    (the load had been published before), or, date by date of the load's
    interval, the load has replaced what was published, which no newer load
    had, with exactly the rows it staged for that date, in the order of
    members and rows; outside the interval, and for every other report,
    nothing changed. *)
Theorem Promote_refines : ∀ now runID ownerID definition loadID s s', loads_dated s →
  f_publication definition = DateAddressable → Promote now runID ownerID definition loadID s = (Ok tt, s') →
  committed runID loadID s' = true ∧
  (∃ load from to, fixed_report_loads s !! loadID = Some load ∧
    (load_status load = fixedLoadPublished ∧ (∀ d, published s' definition d = published s definition d) ∨
     load_from load = date_string from ∧ load_to load = date_string to ∧ usable from = true ∧ usable to = true ∧ date_days from <= date_days to ∧
     publication_spec from to loadID (candidate s definition loadID) (published s definition) (published s' definition))) ∧
  ∀ other d, f_key other ≠ f_key definition → published s' other d = published s other d.
Proof.
  intros now runID ownerID definition loadID s s' Hdated Hp H. apply Promote_cases in H as (specification & Hspec & [[-> Hc]|H]).
  - split_and!; [done| |done]. unfold committed in Hc. destruct (ingestion_runs (base s) !! runID); [|done].
    destruct (fixed_report_loads s !! loadID) as [load|]; [|done]. exists load, zero_date, zero_date. split; [done|]. left. split; [|done].
    apply andb_true_iff in Hc as [_ Hc]. by apply bool_decide_eq_true in Hc.
  - apply promoteTransaction_dated in H as (load & Hload & Hv & Hrun & Hnew & H); [|done]. destruct (Hdated _ _ Hload) as [H1 H2].
    destruct (validate_dates _ _ Hv H1 H2) as (Hj & from & to & Hf & Ht & Elf & Elt & Hle). destruct H as [[Hst Hfin]|(Hcomplete & dates & Hdates & Hfin)].
    + apply finish_fenced_Ok in Hfin as [_ (b & r & -> & Hr & Hs)]. split_and!; [| |done].
      * unfold committed. cbn. rewrite Hr, Hload, !bool_decide_true, Hrun, Z.eqb_refl by done. done.
      * exists load, zero_date, zero_date. split; [done|]. by left.
    + rewrite Elf, Elt, load_dates_interval in Hdates by done. injection Hdates as <-.
      apply finish_fenced_Ok in Hfin as [_ (b & r & -> & Hr & Hs)]. split_and!.
      * unfold committed. cbn. rewrite Hr, lookup_alter_eq, Hload. cbn. rewrite Hrun, Z.eqb_refl, !bool_decide_true by done. done.
      * exists load, from, to. split; [done|]. right. split_and!; [done..|]. intros d Hd.
        rewrite (published_promoted specification definition loadID load from to) by (done || by apply Hcomplete).
        case_bool_decide as Hin; [|done]. split; [|done]. intros n Hn. apply (Hnew _ _ Hn); rewrite ?Elf, ?Elt, usable_string_le by done; apply Z.leb_le; lia.
      * intros other d Hne. by apply (published_other specification).
Qed.

(** ** Completeness of what is published *)

(** C6: only complete loads are published: when [Promote] changes what is
    published for some date, the load has all the members of its frozen plan
    (the plan's checksum is recomputed from them), every member is final with
    all its source segments, and the rows that become published are the
    members' staged rows, as many and with the same checksum as the member
    was finalised with, each dated within the load. *)
Theorem Promote_complete : ∀ now runID ownerID definition specification loadID s s' d, loads_dated s →
  f_publication definition = DateAddressable → fixedStorageFor definition = Ok specification → usable d = true →
  Promote now runID ownerID definition loadID s = (Ok tt, s') → published s' definition d ≠ published s definition d →
  ∃ load, fixed_report_loads s !! loadID = Some load ∧ IngestionRunID load = runID ∧ complete definition specification loadID s load ∧
    (∃ r, ingestion_runs (base s) !! runID = Some r ∧ run_status r = StatusRunning ∧ owner_id r = Some ownerID ∧ cancel_requested_at r = None) ∧
    table_rows (finalTable specification) (reports s') =
      filter (λ r, replaced definition load r = false) (table_rows (finalTable specification) (reports s)) ++
      (publish_row <$> load_staged (stagingTable specification) loadID s).
Proof.
  intros now runID ownerID definition specification loadID s s' d Hdated Hp Hspec Hd H Hne.
  apply Promote_cases in H as (specification' & Hspec' & [[-> Hc]|H]); [done|]. rewrite Hspec in Hspec'. injection Hspec' as <-.
  apply promoteTransaction_dated in H as (load & Hload & Hv & Hrun & Hnew & H); [|done]. destruct H as [[Hst Hfin]|(Hcomplete & dates & Hdates & Hfin)].
  - exfalso. apply finish_fenced_Ok in Hfin as [_ (b & r & -> & Hr & Hs)]. by apply Hne.
  - apply finish_fenced_Ok in Hfin as [Hr (b & r & -> & _)]. exists load. split_and!; [done..|].
    cbn. unfold table_rows at 1. by rewrite lookup_insert_eq.
Qed.

(** ** The invariant *)

(** The load recorded as published for the period of a row. *)
Definition authority (s : fixed_db) (definition : FixedDefinition) (r : final_row) : option Z :=
  match f_publication definition with
  | DateAddressable => match fin_coverage r with Some x => fixed_report_date_publications s !! (f_key definition, x) | None => None end
  | IntervalResult => default None (fixed_report_publications s !! (f_key definition, fin_from r, fin_to r))
  end.

(** A load that is published, and whose run has succeeded. *)
Definition load_published (s : fixed_db) (loadID : Z) : Prop :=
  ∃ load run, fixed_report_loads s !! loadID = Some load ∧ load_status load = fixedLoadPublished ∧
    ingestion_runs (base s) !! IngestionRunID load = Some run ∧ run_status run = StatusSucceeded.

Definition staged_row_ok (loads : gmap Z fixedLoadContract) (r : staged_row) : Prop :=
  ∃ load, loads !! st_load r = Some load ∧ st_from r = load_from load ∧ st_to r = load_to load.

Record fixed_ok (s : fixed_db) : Prop := {
  fo_base : schema (base s);
  fo_dated : loads_dated s;
  fo_fresh : ∀ id load, fixed_report_loads s !! id = Some load → id < next_load_id s;
  fo_staged : ∀ table r, r ∈ table_rows table (staging s) → staged_row_ok (fixed_report_loads s) r;
  fo_rows : ∀ definition specification r, fixedStorageFor definition = Ok specification →
    r ∈ table_rows (finalTable specification) (reports s) →
    authority s definition r = Some (fin_load r) ∧ load_published s (fin_load r) }.

(** Committed work on a load. *)
Inductive fixed_step : fixed_db → fixed_db → Prop :=
  | step_run s b : repository_step (base s) b → fixed_step s (set_base b s)
  | step_begin runID definition plan s a s' : BeginLoad runID definition plan s = Ok (a, s') → fixed_step s s'
  | step_stage definition loadID descriptor segment s a s' :
      StageMemberSegment definition loadID descriptor segment s = Ok (a, s') → fixed_step s s'
  | step_finalize definition loadID descriptor segments rows checksum s a s' :
      FinalizeMemberCandidate definition loadID descriptor segments rows checksum s = Ok (a, s') → fixed_step s s'
  | step_promote now runID ownerID definition loadID s r s' :
      Promote now runID ownerID definition loadID s = (r, s') → fixed_step s s'
  | step_cleanup limit s r s' : CleanupTerminal limit s = (r, s') → fixed_step s s'.

Lemma fixed_ok_base s b : fixed_ok s → lifecycle (base s) b → fixed_ok (set_base b s).
Proof.
  intros [Hb Hd Hf Hs Hr] [Hb' Hrows _]. split; [done|done|done|done|].
  intros definition specification r Hspec Hin. destruct (Hr _ _ _ Hspec Hin) as [Ha (load & run & Hl & Hst & Hrun & Hsu)].
  split; [done|]. destruct (Hrows _ _ Hrun) as (run' & Hrun' & _ & _ & Ht & _). rewrite Ht in Hrun' by (by rewrite Hsu).
  by exists load, run.
Qed.

(** Tables that no published row depends on. *)
Lemma fixed_ok_members s x : fixed_ok s → fixed_ok (set_members x s).
Proof. by intros [? ? ? ? ?]. Qed.
Lemma fixed_ok_segments s x : fixed_ok s → fixed_ok (set_segments x s).
Proof. by intros [? ? ? ? ?]. Qed.
Lemma fixed_ok_staging s x : (∀ table r, r ∈ table_rows table x → staged_row_ok (fixed_report_loads s) r) →
  fixed_ok s → fixed_ok (set_staging x s).
Proof. intros Hx [? ? ? ? ?]. by split. Qed.

Lemma preserves_insert_load load : preserves fixed_ok (insert_load load).
Proof.
  intros s a s' [Hb Hd Hf Hs Hr] H. unfold insert_load in H. destruct (negb _) eqn:Ed; [done|]. destruct (run_load_taken _ _); [done|].
  destruct (negb (isSome _)) in H; [done|]. injection H as <- <-. apply negb_false_iff, andb_true_iff in Ed as [E1 E2].
  assert (Hnew : ∀ id, id < next_load_id s → <[next_load_id s := load]> (fixed_report_loads s) !! id = fixed_report_loads s !! id)
    by (intros id Hid; apply lookup_insert_ne; lia).
  split; cbn; [done| | | |].
  - intros id l Hl. cbn in Hl. apply lookup_insert_Some in Hl as [[<- <-]|[_ Hl]]; [done|]. by apply (Hd id).
  - intros id l [[<- <-]|[_ Hl]]%lookup_insert_Some; [lia|]. specialize (Hf _ _ Hl). lia.
  - intros table r Hin. destruct (Hs _ _ Hin) as (l & Hl & H). exists l. rewrite Hnew by (by eapply Hf). done.
  - intros definition specification r Hspec Hin. destruct (Hr _ _ _ Hspec Hin) as [Ha (l & run & Hl & H)]. split; [done|].
    exists l, run. cbn. rewrite Hnew by (by eapply Hf). done.
Qed.

Lemma preserves_insert_member (P : fixed_db → Prop) loadID m : (∀ s x, P s → P (set_members x s)) → preserves P (insert_member loadID m).
Proof.
  intros HP s a s' Hs H. unfold insert_member in H. destruct (negb _) in H; [done|]. destruct (isSome _) in H; [done|].
  destruct (negb _) in H; [done|]. injection H as _ <-. by apply HP.
Qed.
Lemma preserves_insert_segment (P : fixed_db → Prop) loadID r : (∀ s x, P s → P (set_segments x s)) → preserves P (insert_segment loadID r).
Proof.
  intros HP s a s' Hs H. unfold insert_segment in H. destruct (isSome _) in H; [done|].
  destruct (negb _) in H; [done|]. injection H as _ <-. by apply HP.
Qed.

Lemma each_composes {A} (insert : A → Tx fixed_db unit) : composes (each insert).
Proof.
  split; [done|]. intros a b. induction a as [|x a IH]; intros s; [done|]. cbn [app each]. unfold tx_bind at 1 2 3.
  destruct (insert x s) as [[[] s1]|e]; [|done]. by rewrite IH.
Qed.

Lemma preserves_insertRows {A} (P : fixed_db → Prop) values (insert : A → Tx fixed_db unit) table columns rows :
  Forall (λ r, preserves P (insert r)) rows → preserves P (insertRows values (each insert) table columns rows).
Proof.
  intros Hrows s a s' Hs H. apply insertRows_Ok in H as [H _]; [|apply each_composes]. revert s Hs H.
  induction Hrows as [|r rows Hr _ IH]; intros s Hs H; [by injection H as _ <-|].
  cbn [each] in H. apply tx_bind_Ok in H as ([] & s1 & H1 & H2). eapply IH, H2. by eapply Hr.
Qed.

Lemma preserves_BeginLoad runID definition plan : preserves fixed_ok (BeginLoad runID definition plan).
Proof.
  unfold BeginLoad. destruct (runID =? 0); [apply preserves_fail|]. tx_preserves.
  unfold beginLoadTransaction. tx_preserves.
  - apply preserves_insert_load.
  - apply preserves_insertRows, Forall_true. intros m. apply preserves_insert_member. apply fixed_ok_members.
Qed.

Lemma stageRows_load specification definition load loadID descriptor segment rows : ∀ ordinal staged,
  stageRows specification definition load loadID descriptor segment ordinal rows = Ok staged →
  Forall (λ r, st_load r = loadID ∧ st_from r = load_from load ∧ st_to r = load_to load) staged.
Proof.
  induction rows as [|row rows IH]; intros ordinal staged H; cbn [stageRows] in H; [by injection H as <-|].
  destruct (_ || _); [done|]. destruct (storage_location _ && _); [done|]. destruct (bool_decide _ && _) in H; [done|].
  apply res_bind_Ok in H as (rest & Hr & [= <-]). constructor; [done|]. by eapply IH.
Qed.

Lemma preserves_insert_staged (loadID : Z) load table r : st_load r = loadID → st_from r = load_from load → st_to r = load_to load →
  preserves (λ s, fixed_ok s ∧ fixed_report_loads s !! loadID = Some load) (insert_staged table r).
Proof.
  intros H1 H2 H3 s a s' [Hs Hl] H. unfold insert_staged in H. destruct (existsb _ _); [done|]. destruct (negb _) in H; [done|].
  injection H as _ <-. split; [|done]. apply fixed_ok_staging; [|done]. intros t x. unfold table_rows at 1.
  destruct (decide (t = table)) as [->|Hne].
  - rewrite lookup_insert_eq. cbn. intros [Hx| ->%list_elem_of_singleton]%elem_of_app; [by eapply fo_staged|].
    exists load. by rewrite H1.
  - rewrite lookup_insert_ne by done. by eapply fo_staged.
Qed.

Lemma preserves_StageMemberSegment definition loadID descriptor segment : preserves fixed_ok (StageMemberSegment definition loadID descriptor segment).
Proof.
  intros s a s' Hs H. unfold StageMemberSegment in H.
  apply tx_bind_Ok in H as (specification & s0 & (? & _ & [= <- ->])%tx_lift_Ok & H). destruct (_ || _); [done|].
  unfold stageMemberSegmentTransaction in H. apply tx_bind_Ok in H as (member & s1 & Hm & H).
  unfold lock_member in Hm. destruct (fixed_report_load_members s !! _); [|done]. injection Hm as -> <-.
  apply tx_bind_Ok in H as ([] & s2 & (_ & [= ->])%tx_guard_Ok & H). apply tx_bind_Ok in H as ([] & s3 & (_ & [= ->])%tx_guard_Ok & H).
  apply tx_bind_Ok in H as (load & s4 & Hload & H). unfold readFixedLoad in Hload.
  destruct (fixed_report_loads s !! loadID) as [l|] eqn:El; [|done]. injection Hload as -> <-.
  apply tx_bind_Ok in H as ([] & s5 & (? & _ & [= _ ->])%tx_lift_Ok & H). apply tx_bind_Ok in H as ([] & s6 & (_ & [= ->])%tx_guard_Ok & H).
  apply tx_bind_Ok in H as ([] & s7 & (_ & [= ->])%tx_guard_Ok & H). apply tx_bind_Ok in H as ([] & s8 & (? & _ & [= _ ->])%tx_lift_Ok & H).
  destruct (ValidateFixedCoverage _ _ _ _) as [verdict sourceRows]. apply tx_bind_Ok in H as ([] & s9 & (? & _ & [= _ ->])%tx_lift_Ok & H).
  apply tx_bind_Ok in H as (rows & s10 & (? & Hrows & [= <- ->])%tx_lift_Ok & H). apply stageRows_load in Hrows.
  assert (Hp : preserves (λ s, fixed_ok s ∧ fixed_report_loads s !! loadID = Some load)
    (insertRows staged_values (each (insert_staged (stagingTable specification))) (stagingTable specification) (stagedColumns specification definition) rows ;;;
     insert_segment loadID (mkSegmentRow (MemberKey descriptor) (Index segment) (date_string (SourcePeriodFrom segment))
       (date_string (SourcePeriodTo segment)) (date_string (AsOfDate segment)) (Z.of_nat (length rows)) (RequestVariant segment)
       (sha256 (checksum_parts (SourceRowChecksum <$> sourceRows)))) ;;;
     update_member loadID (MemberKey descriptor) (set_staged (member_count member + Z.of_nat (length rows)) (StagedSegments member + 1)))).
  { apply preserves_bind; [|intros []; apply preserves_bind; [|intros []]].
    - apply preserves_insertRows. eapply Forall_impl; [exact Hrows|]. intros r (H1 & H2 & H3). by apply (preserves_insert_staged loadID).
    - apply preserves_insert_segment. intros ? ? [Ho Hl]. split; [by apply fixed_ok_segments|done].
    - apply preserves_modify. intros s0 [Ho Hl]. split; [by apply fixed_ok_members|done]. }
  by destruct (Hp s a s' (conj Hs El) H).
Qed.

Lemma preserves_lock_member (P : fixed_db → Prop) loadID key : preserves P (lock_member loadID key).
Proof. intros s a s' Hs H. unfold lock_member in H. destruct (_ !! _); [|done]. by injection H as _ <-. Qed.
Lemma preserves_readFixedLoad (P : fixed_db → Prop) loadID : preserves P (readFixedLoad loadID).
Proof. intros s a s' Hs H. unfold readFixedLoad in H. destruct (_ !! _); [|done]. by injection H as _ <-. Qed.
Lemma preserves_update_member loadID key set : preserves fixed_ok (update_member loadID key set).
Proof. apply preserves_modify. intros s Hs. by apply fixed_ok_members. Qed.
#[local] Hint Resolve preserves_lock_member preserves_readFixedLoad preserves_update_member : tx.

Lemma preserves_Finalize definition loadID descriptor segments count checksum :
  preserves fixed_ok (FinalizeMemberCandidate definition loadID descriptor segments count checksum).
Proof. unfold FinalizeMemberCandidate, finalizeMemberCandidateTransaction. tx_preserves. Qed.

Lemma cleanup_ok candidates : ∀ result s, fixed_ok s → fixed_ok (cleanupLoop candidates result s).2.
Proof.
  induction candidates as [|c candidates IH]; intros result s Hs; [done|]. cbn [cleanupLoop].
  unfold cleanupFixedCandidate. assert (Hok : fixed_ok (set_staging (<[CleanupTable c := filter
    (λ r, (st_load r =? LoadID c) && terminal_load s (LoadID c) = false) (table_rows (CleanupTable c) (staging s))]> (staging s)) s)).
  { apply fixed_ok_staging; [|done]. intros table r. unfold table_rows at 1.
    destruct (decide (table = CleanupTable c)) as [->|Hne].
    - rewrite lookup_insert_eq. cbn. intros [_ Hx]%list_elem_of_filter. by eapply fo_staged.
    - rewrite lookup_insert_ne by done. by eapply fo_staged. }
  destruct (_ =? 0); by apply IH.
Qed.

Lemma canonical_key_inj d1 d2 s1 s2 : fixedStorageFor d1 = Ok s1 → fixedStorageFor d2 = Ok s2 → f_key d1 = f_key d2 → d1 = d2.
Proof.
  intros [H1 _]%fixedStorageFor_Ok [H2 _]%fixedStorageFor_Ok E.
  assert (Hn : NoDup (f_key <$> FixedDefinitions)) by (apply (bool_decide_eq_true_1 _); vm_compute; reflexivity).
  apply list_elem_of_lookup in H1 as [i Hi], H2 as [j Hj].
  assert (i = j) as ->; [|congruence]. apply (NoDup_lookup _ _ _ (f_key d1) Hn); rewrite list_lookup_fmap; [by rewrite Hi|].
  rewrite Hj. cbn. by rewrite E.
Qed.

(** The publication statements in both modes. *)
Lemma publish_effect specification definition loadID load s s' : publish specification definition loadID load s = Ok (tt, s') →
  ∃ dated intervals,
    s' = set_loads (alter set_published loadID (fixed_report_loads s)) (next_load_id s)
      (set_publications intervals (set_date_publications dated
        (set_reports (<[finalTable specification :=
           filter (λ r, replaced definition load r = false) (table_rows (finalTable specification) (reports s)) ++
           (publish_row <$> load_staged (stagingTable specification) loadID s)]> (reports s)) s))) ∧
    match f_publication definition with
    | DateAddressable => intervals = fixed_report_publications s ∧
        ∃ dates, load_dates (load_from load) (load_to load) = Ok dates ∧
          dated = publish_dates (load_job load) loadID (fixed_report_date_publications s) dates
    | IntervalResult => dated = fixed_report_date_publications s ∧
        intervals = alter (λ _, Some loadID) (f_key definition, load_from load, load_to load) (fixed_report_publications s)
    end.
Proof.
  intros H. destruct (f_publication definition) eqn:Hp.
  - apply publish_dated in H as (dates & Hd & ->); [|done]. exists (publish_dates (load_job load) loadID (fixed_report_date_publications s) dates), (fixed_report_publications s).
    split; [reflexivity|]. split; [done|]. by exists dates.
  - unfold publish in H. rewrite Hp in H. injection H as <-. eexists _, _. split; [|done]. unfold set_loads. cbn.
    unfold table_rows. rewrite lookup_insert_eq. cbn. by rewrite insert_insert_eq.
Qed.

Lemma load_staged_In table loadID s r : r ∈ load_staged table loadID s → st_load r = loadID ∧ r ∈ table_rows table (staging s).
Proof. unfold load_staged. rewrite sort_by_Permutation. by intros [? ?]%list_elem_of_filter. Qed.

(** Rows that are kept keep their authority, and so do the new ones. *)
Lemma publish_authority specification definition loadID load s s' definition' specification' r : fixed_ok s →
  fixedStorageFor definition = Ok specification → validate load definition = Ok tt → fixed_report_loads s !! loadID = Some load →
  (f_publication definition = DateAddressable → Forall (covered load) (load_staged (stagingTable specification) loadID s)) →
  (f_publication definition = IntervalResult → is_Some (fixed_report_publications s !! (f_key definition, load_from load, load_to load))) →
  publish specification definition loadID load s = Ok (tt, s') →
  fixedStorageFor definition' = Ok specification' → r ∈ table_rows (finalTable specification') (reports s') →
  authority s' definition' r = Some (fin_load r) ∧ (fin_load r = loadID ∨ load_published s (fin_load r)).
Proof.
  intros Hs Hspec Hv Hload Hcov Hint Hpub Hspec' Hr. destruct (fo_dated _ Hs _ _ Hload) as [Hd1 Hd2].
  destruct (validate_dates _ _ Hv Hd1 Hd2) as (Hj & from & to & Hf & Ht & Elf & Elt & Hle).
  apply publish_effect in Hpub as (dated & intervals & -> & Heff). cbn [reports set_loads set_publications set_date_publications set_reports] in Hr.
  unfold authority. cbn [fixed_report_date_publications fixed_report_publications set_loads set_publications set_date_publications set_reports].
  destruct (decide (f_key definition' = f_key definition)) as [Ek|Hne].
  - assert (definition' = definition) as -> by (by eapply canonical_key_inj). rewrite Hspec in Hspec'. injection Hspec' as <-.
    unfold table_rows at 1 in Hr. rewrite lookup_insert_eq in Hr. cbn [default from_option id] in Hr. apply elem_of_app in Hr as [[Hkeep Hr]%list_elem_of_filter|Hr].
    + destruct (fo_rows _ Hs _ _ _ Hspec Hr) as [Ha Hp]. split; [|by right]. unfold authority in Ha. unfold replaced in Hkeep.
      destruct (f_publication definition).
      * destruct Heff as [-> (dates & Hdates & ->)]. destruct (fin_coverage r) as [x|]; [|done]. rewrite publish_dates_lookup, bool_decide_false; [done|].
        intros [_ Hx]. rewrite Elf, Elt, load_dates_interval in Hdates by done. injection Hdates as <-.
        apply list_elem_of_fmap in Hx as (y & -> & (i & -> & Hi)%elem_of_interval). unfold interval_count in Hi. pose proof (usable_le_last to Ht).
        assert (Hu : usable (days_date i) = true) by (apply (usable_between from); [done|lia]).
        unfold between in Hkeep. rewrite Elf, Elt, !usable_string_le, date_days_date in Hkeep by done.
        rewrite !(proj2 (Z.leb_le _ _)) in Hkeep by lia. done.
      * destruct Heff as [-> ->]. rewrite lookup_alter_ne; [done|]. intros [= E1 E2]. rewrite <- E1, <- E2, !String.eqb_refl in Hkeep. done.
    + apply list_elem_of_fmap in Hr as (x & -> & Hx). cbn [fin_load fin_coverage fin_from fin_to publish_row].
      apply load_staged_In in Hx as Hx'. destruct Hx' as [Hxl Hxs]. split; [|by left]. rewrite Hxl. destruct (f_publication definition).
      * destruct Heff as [-> (dates & Hdates & ->)]. specialize (Hcov eq_refl). rewrite Forall_forall in Hcov.
        destruct (Hcov x Hx) as (d & Hd & -> & H1 & H2). rewrite Elf, Elt, load_dates_interval in Hdates by done. injection Hdates as <-.
        rewrite publish_dates_lookup, bool_decide_true; [done|]. split; [done|]. apply interval_strings; [done..|].
        rewrite Elf, usable_string_le in H1 by done. rewrite Elt, usable_string_le in H2 by done. lia.
      * destruct Heff as [-> ->]. destruct (fo_staged _ Hs _ _ Hxs) as (l & Hl & E1 & E2). rewrite Hxl, Hload in Hl. injection Hl as <-.
        rewrite E1, E2, lookup_alter_eq. destruct (Hint eq_refl) as [a ->]. done.
  - unfold table_rows at 1 in Hr. rewrite lookup_insert_ne in Hr.
    2: { intros E. apply fixedStorageFor_Ok in Hspec as [_ H1], Hspec' as [_ H2]. rewrite E in H1. apply Hne. by eapply FixedTableName_inj. }
    destruct (fo_rows _ Hs _ _ _ Hspec' Hr) as [Ha Hp]. split; [|by right]. unfold authority in Ha. destruct (f_publication definition').
    + destruct (fin_coverage r) as [x|]; [|done]. destruct (f_publication definition).
      * destruct Heff as [-> (dates & _ & ->)]. rewrite publish_dates_lookup, bool_decide_false; [done|]. rewrite Hj. naive_solver.
      * by destruct Heff as [-> _].
    + destruct (f_publication definition); [by destruct Heff as [-> _]|]. destruct Heff as [_ ->]. rewrite lookup_alter_ne; [done|]. naive_solver.
Qed.

Lemma check_published_ok definition loadID load s b s' : fixed_ok s → check_published definition loadID load s = Ok (b, s') → fixed_ok s'.
Proof.
  intros Hs H. destruct (check_published_same _ _ _ _ _ _ H) as [->|(Hp & Hnone & ->)]; [done|].
  destruct Hs as [Hb Hd Hf Hst Hr]. split; [done|done|done|done|]. intros definition' specification' r Hspec Hin.
  destruct (Hr _ _ _ Hspec Hin) as [Ha Hl]. split; [|done]. unfold authority in *. destruct (f_publication definition'); [done|].
  cbn [fixed_report_publications set_publications]. rewrite lookup_insert_ne; [done|]. intros E. rewrite E in Hnone. by rewrite Hnone in Ha.
Qed.

Lemma finish_fenced_lifecycle now runID ownerID s s' : schema (base s) → finish_fenced true now runID ownerID s = Ok (tt, s') →
  ∃ b r, s' = set_base b s ∧ lifecycle (base s) b ∧ ingestion_runs b !! runID = Some r ∧ run_status r = StatusSucceeded.
Proof.
  intros Hb H. assert (H' := H). apply finish_fenced_Ok in H' as [_ (b & r & -> & Hr & Hs)]. exists b, r. split_and!; [done| |done|done].
  unfold finish_fenced, in_base in H. destruct (FinishSucceededInTx _ _ _ (base s)) as [[[] b']|] eqn:E; [|done].
  assert (base (set_base b' s) = base (set_base b s)) as Hbb by congruence. cbn in Hbb. subst b'. apply repository_step_lifecycle; [done|]. by eapply step_finish_in_tx.
Qed.

Lemma fixed_ok_promote now runID ownerID definition specification loadID s s' : fixed_ok s → fixedStorageFor definition = Ok specification →
  promoteTransaction now runID ownerID specification definition loadID true s = Ok (tt, s') → fixed_ok s'.
Proof.
  intros Hs Hspec H. apply promoteTransaction_Ok in H as (load & replay & s1 & Hload & Hv & Hrun & Hcheck & H).
  assert (Hs1 : fixed_ok s1) by (by eapply check_published_ok).
  assert (Hload1 : fixed_report_loads s1 !! loadID = Some load).
  { by destruct (check_published_same _ _ _ _ _ _ Hcheck) as [->|(_ & _ & ->)]. }
  apply check_published_Ok in Hcheck as [_ Hint]. destruct H as [[_ H]|(_ & Hc & s2 & Hpub & H)].
  - destruct (finish_fenced_lifecycle _ _ _ _ _ (fo_base _ Hs1) H) as (b & r & -> & Hlife & _). by apply fixed_ok_base.
  - assert (Ha : ∀ definition' specification' r, fixedStorageFor definition' = Ok specification' →
      r ∈ table_rows (finalTable specification') (reports s2) →
      authority s2 definition' r = Some (fin_load r) ∧ (fin_load r = loadID ∨ load_published s1 (fin_load r))).
    { intros definition' specification' r. eapply publish_authority; [done..| |done|done]. apply Hc. }
    apply publish_effect in Hpub as (dated & intervals & E & _).
    assert (Hbase : base s2 = base s1) by (by rewrite E).
    destruct (finish_fenced_lifecycle now runID ownerID s2 s') as (b & run & -> & Hlife & Hr & Hsu); [rewrite Hbase; apply Hs1|done|].
    rewrite Hbase in Hlife. destruct Hlife as [Hb Hrows _].
    assert (Hloads : fixed_report_loads s2 = alter set_published loadID (fixed_report_loads s1)) by (by rewrite E).
    assert (Hl : ∀ id l', fixed_report_loads s2 !! id = Some l' → ∃ l, fixed_report_loads s1 !! id = Some l ∧
      load_from l' = load_from l ∧ load_to l' = load_to l ∧ IngestionRunID l' = IngestionRunID l).
    { intros id l' Hl'. rewrite Hloads in Hl'. destruct (decide (id = loadID)) as [->|Hne].
      - rewrite lookup_alter_eq, Hload1 in Hl'. injection Hl' as <-. by exists load.
      - rewrite lookup_alter_ne in Hl' by done. by exists l'. }
    split.
    + done.
    + intros id l' Hl'. destruct (Hl id l' Hl') as (l & Hl1 & E1 & E2 & _). rewrite E1, E2. by apply (fo_dated _ Hs1 id).
    + intros id l' Hl'. destruct (Hl id l' Hl') as (l & Hl1 & _). pose proof (fo_fresh _ Hs1 _ _ Hl1). by rewrite E.
    + intros table r Hin. assert (Hin1 : r ∈ table_rows table (staging s1)) by (by rewrite E in Hin).
      destruct (fo_staged _ Hs1 _ _ Hin1) as (l & Hl1 & E1 & E2). unfold staged_row_ok. cbn [fixed_report_loads set_base]. rewrite Hloads.
      destruct (decide (st_load r = loadID)) as [Eq|Hne].
      * rewrite Eq, lookup_alter_eq. rewrite Eq in Hl1. rewrite Hl1. by exists (set_published l).
      * rewrite lookup_alter_ne by done. by exists l.
    + intros definition' specification' r Hspec' Hin. destruct (Ha _ _ _ Hspec' Hin) as [Ha1 Hp]. split; [exact Ha1|].
      unfold load_published. cbn [fixed_report_loads base set_base]. rewrite Hloads. destruct (decide (fin_load r = loadID)) as [->|Hne].
      * rewrite lookup_alter_eq, Hload1. exists (set_published load), run. split_and!; [done|done| |done]. cbn. by rewrite Hrun.
      * destruct Hp as [|(l & old & Hl1 & Hst & Hold & Hos)]; [done|]. rewrite lookup_alter_ne by done.
        destruct (Hrows _ _ Hold) as (r' & Hr' & _ & _ & Ht & _). rewrite Ht in Hr' by (by rewrite Hos). by exists l, old.
Qed.

Lemma fixed_step_ok s s' : fixed_ok s → fixed_step s s' → fixed_ok s'.
Proof.
  intros Hs H. destruct H as [s0 b H|runID definition plan s0 a s1 H|definition loadID descriptor segment s0 a s1 H|definition loadID descriptor segments rows checksum s0 a s1 H
    |now runID ownerID definition loadID s0 r s1 H|limit s0 r s1 H].
  - apply fixed_ok_base; [done|]. apply repository_step_lifecycle; [apply Hs|done].
  - exact (preserves_BeginLoad _ _ _ _ _ _ Hs H).
  - exact (preserves_StageMemberSegment _ _ _ _ _ _ _ Hs H).
  - exact (preserves_Finalize _ _ _ _ _ _ _ _ _ Hs H).
  - unfold Promote in H. destruct (_ || _); [by injection H as _ <-|]. destruct (fixedStorageFor definition) as [specification|] eqn:Hspec; [|by injection H as _ <-].
    unfold runTx in H. destruct (promoteTransaction _ _ _ _ _ _ _ s0) as [[[] t]|e] eqn:E.
    + injection H as _ <-. by eapply fixed_ok_promote.
    + destruct (_ && _); by injection H as _ <-.
  - unfold CleanupTerminal in H. destruct (limit <? 1); [by injection H as _ <-|]. destruct fixedStorages as [storages|]; [|by injection H as _ <-].
    destruct (cleanupLoop _ _ s0) as [result t] eqn:E. injection H as _ <-.
    pose proof (cleanup_ok (fixedCleanupCandidates (Z.to_nat limit) storages s0)
      (mkCleanupResult (Z.of_nat (length (fixedCleanupCandidates (Z.to_nat limit) storages s0))) 0 0 ∅) s0 Hs) as Ho. by rewrite E in Ho.
Qed.

(** C3: along any sequence of operations on fixed report loads, interleaved
    with any transactions of the run repository, every row a report shows
    belongs to the load recorded as published for the row's period (its
    business date, or its interval for reports without one); that load is
    marked published and its run has succeeded.  So rows of failed,
    cancelled or abandoned runs are never shown, and no date or interval
    mixes the rows of two loads. *)
Theorem published_rows_owned : ∀ s s' definition specification, fixed_ok s → rtc fixed_step s s' →
  fixedStorageFor definition = Ok specification →
  (∀ r, r ∈ table_rows (finalTable specification) (reports s') →
     authority s' definition r = Some (fin_load r) ∧ load_published s' (fin_load r)) ∧
  (f_publication definition = DateAddressable → ∀ r r', r ∈ table_rows (finalTable specification) (reports s') →
     r' ∈ table_rows (finalTable specification) (reports s') → fin_coverage r = fin_coverage r' → fin_load r = fin_load r') ∧
  (f_publication definition = IntervalResult → ∀ r r', r ∈ table_rows (finalTable specification) (reports s') →
     r' ∈ table_rows (finalTable specification) (reports s') → fin_from r = fin_from r' → fin_to r = fin_to r' → fin_load r = fin_load r').
Proof.
  intros s s' definition specification Hs Hsteps Hspec. assert (Hs' : fixed_ok s').
  { induction Hsteps as [|s s1 s2 H _ IH]; [done|]. apply IH. by eapply fixed_step_ok. }
  assert (Hrows : ∀ r, r ∈ table_rows (finalTable specification) (reports s') →
     authority s' definition r = Some (fin_load r) ∧ load_published s' (fin_load r)) by (intros r; by apply fo_rows).
  split_and!; [done|..]; intros Hp r r' Hr Hr'; destruct (Hrows r Hr) as [Ha _], (Hrows r' Hr') as [Ha' _]; unfold authority in Ha, Ha'; rewrite Hp in Ha, Ha'.
  - intros E. rewrite E in Ha. congruence.
  - intros E1 E2. rewrite E1, E2 in Ha. congruence.
Qed.

(** ** Witnesses: a load of the teller mutation report *)

Definition after {A} (m : Tx fixed_db A) (s : fixed_db) : fixed_db := match m s with Ok (_, s) => s | Err _ => s end.
Lemma after_Ok {A} (m : Tx fixed_db A) s : is_ok (m s) = true → ∃ a, m s = Ok (a, after m s).
Proof. unfold after. destruct (m s) as [[a s']|e]; [|done]. by exists a. Qed.

Definition teller_day : CalendarDate := mkDate 2026 8 13.
Definition teller_range : FixedDateRangeParams := mkFixedRange teller_day (mkDate 2026 8 14).
Definition teller_plan : FixedPlan :=
  match BuildFixedPlan sample_teller teller_range [] [] with Ok plan => plan | Err _ => complete_plan sample_teller teller_range [] end.
Definition teller_request : RequestDescriptor := descriptor sample_teller teller_range "" "" SingleFixedMemberKey.
Definition teller_row (number : Z) (text : string) : FixedCSVRow :=
  mkRow number (hex_encode (sha256 text)) "" zero_date {["transactiondate" := text]}.
Definition teller_rows : list FixedCSVRow := [teller_row 2 "2026-08-13 09:05:59"; teller_row 3 "2026-08-14 10:00:00"].
Definition teller_segment : FixedSegment := mkSegment 0 teller_day (mkDate 2026 8 14) "" "" (mkDate 2026 8 14) teller_rows.

Definition fixed_start : fixed_db := mkFixedDb sample_db ∅ 1 ∅ ∅ ∅ ∅ ∅ ∅.
Definition fixed_begun : fixed_db := after (BeginLoad 1 sample_teller teller_plan) fixed_start.
Definition fixed_staged : fixed_db := after (StageMemberSegment sample_teller 1 teller_request teller_segment) fixed_begun.
Definition teller_checksum : string := sha256 (checksum_parts (SourceRowChecksum <$> teller_rows)).
Definition fixed_final : fixed_db := after (FinalizeMemberCandidate sample_teller 1 teller_request 1 2 teller_checksum) fixed_staged.
Definition fixed_published : fixed_db := (Promote 100 1 sample_owner sample_teller 1 fixed_final).2.

Lemma fixed_start_ok : fixed_ok fixed_start.
Proof.
  split; [exact sample_schema| | | |]; unfold loads_dated; cbn.
  - intros id load H. by rewrite lookup_empty in H.
  - intros id load H. by rewrite lookup_empty in H.
  - intros table r H. unfold table_rows in H. rewrite lookup_empty in H. by apply not_elem_of_nil in H.
  - intros definition specification r _ H. unfold table_rows in H. rewrite lookup_empty in H. by apply not_elem_of_nil in H.
Qed.

Lemma fixed_final_reached : rtc fixed_step fixed_start fixed_final.
Proof.
  destruct (after_Ok (BeginLoad 1 sample_teller teller_plan) fixed_start) as [a1 H1]; [vm_compute; reflexivity|].
  destruct (after_Ok (StageMemberSegment sample_teller 1 teller_request teller_segment) fixed_begun) as [a2 H2]; [vm_compute; reflexivity|].
  destruct (after_Ok (FinalizeMemberCandidate sample_teller 1 teller_request 1 2 teller_checksum) fixed_staged) as [a3 H3]; [vm_compute; reflexivity|].
  eapply rtc_l; [exact (step_begin _ _ _ _ _ _ H1)|]. eapply rtc_l; [exact (step_stage _ _ _ _ _ _ _ H2)|].
  apply rtc_once. exact (step_finalize _ _ _ _ _ _ _ _ _ H3).
Qed.

Lemma fixed_final_ok : fixed_ok fixed_final.
Proof.
  pose proof fixed_final_reached as H. pose proof fixed_start_ok as Hs. revert Hs. induction H as [|s s1 s2 H _ IH]; [done|].
  intros Hs. apply IH. by eapply fixed_step_ok.
Qed.

Lemma fixed_promotes : Promote 100 1 sample_owner sample_teller 1 fixed_final = (Ok tt, fixed_published).
Proof.
  assert (H : (Promote 100 1 sample_owner sample_teller 1 fixed_final).1 = Ok tt) by (vm_compute; reflexivity).
  unfold fixed_published. destruct (Promote 100 1 sample_owner sample_teller 1 fixed_final) as [r s]. cbn in *. by rewrite H.
Qed.

Lemma Promote_refines_witness : Promote 100 1 sample_owner sample_teller 1 fixed_final = (Ok tt, fixed_published) ∧
  committed 1 1 fixed_published = true ∧ (published fixed_published sample_teller teller_day).1 = Some 1 ∧
  length (published fixed_published sample_teller teller_day).2 = 1%nat.
Proof.
  destruct (Promote_refines 100 1 sample_owner sample_teller 1 fixed_final fixed_published (fo_dated _ fixed_final_ok) eq_refl fixed_promotes)
    as (H & _). split; [exact fixed_promotes|]. split; [exact H|]. vm_compute. split; reflexivity.
Defined.

Definition teller_storage : fixedStorage :=
  match fixedStorageFor sample_teller with Ok specification => specification | Err _ => mkStorage "" "" [] false end.
Lemma teller_storage_Ok : fixedStorageFor sample_teller = Ok teller_storage.
Proof. vm_compute. reflexivity. Qed.

Lemma Promote_complete_witness : ∃ load, fixed_report_loads fixed_final !! 1 = Some load ∧ complete sample_teller teller_storage 1 fixed_final load.
Proof.
  destruct (Promote_complete 100 1 sample_owner sample_teller teller_storage 1 fixed_final fixed_published teller_day
    (fo_dated _ fixed_final_ok) eq_refl teller_storage_Ok eq_refl fixed_promotes) as (load & Hl & _ & Hc & _).
  - intros E. assert (H : (published fixed_published sample_teller teller_day).1 = (published fixed_final sample_teller teller_day).1)
      by (rewrite E; exact eq_refl). vm_compute in H. discriminate.
  - exists load. split; [exact Hl|exact Hc].
Defined.

Lemma published_rows_owned_witness : rtc fixed_step fixed_start fixed_published ∧
  length (table_rows (finalTable teller_storage) (reports fixed_published)) = 2%nat ∧
  (∀ r, r ∈ table_rows (finalTable teller_storage) (reports fixed_published) →
     authority fixed_published sample_teller r = Some (fin_load r) ∧ load_published fixed_published (fin_load r)).
Proof.
  assert (H : rtc fixed_step fixed_start fixed_published).
  { exact (rtc_r _ _ _ fixed_final_reached (step_promote _ _ _ _ _ _ _ _ fixed_promotes)). }
  destruct (published_rows_owned fixed_start fixed_published sample_teller teller_storage fixed_start_ok H teller_storage_Ok) as [Hr _].
  split; [exact H|]. split; [vm_compute; reflexivity|exact Hr].
Defined.
