(* ===== verification/FixedExecution.v ===== *)
(** * Execution of a fixed report load (src/internal/ingestionexec/executor.go)

    What happens between the plan of a load and its publication: the
    dimensions are read from the source and frozen, every member's segments
    are requested, parsed, validated and staged in order, and the member is
    finalised with the count and checksum of its rows.  The members are
    worked on concurrently: the pool is a transition system in which any
    member may make the next step, and other transactions may commit in
    between.  The answers of the Fincloud service are an interface. *)

From S2P Require Import Prelude Calendar Json Hash Catalog Params Access AuditTrail Table Store Runs FixedPlans FixedCsv Inserts FixedStore.

Open Scope Z_scope.

(** ** The source *)

Record JournalTransactionType := mkJournalType { type_id : string; type_description : string }.

(** The answers of the Fincloud service during the execution: the same
    request gets the same answer. *)
Class FincloudSource := {
  FetchJournalTransactionTypes : result (list JournalTransactionType);
  FetchAccessibleLocations : result (list string);
  FetchAccountCodes : result (list string);
  DownloadReport : string → list string → result string }.

Definition frozen_types (rows : list JournalTransactionType) : list JournalTransactionType :=
  foldl (λ frozen row,
    let id := trim_space (type_id row) in
    if (id =? "")%string || (id =? "%")%string || existsb (λ t, (type_id t =? id)%string) frozen then frozen
    else frozen ++ [mkJournalType id (type_description row)]) [] rows.
Definition type_before (a b : JournalTransactionType) : bool :=
  match String.compare (type_id a) (type_id b) with Lt => true | _ => false end.
Definition freezeJournalTransactionTypes (rows : list JournalTransactionType) : result (list JournalTransactionType) :=
  match frozen_types rows with
  | [] => Err (Errorf "captured journal transaction-type set is empty")
  | frozen => Ok (sort_by type_before frozen)
  end.

Definition journalTransactionRequest (request : RequestDescriptor) (transactionTypeID : string) : result RequestDescriptor :=
  let id := trim_space transactionTypeID in
  match DescriptorParameters request with
  | [location; _; from; to; p4; p5] =>
      if negb (ReportName request =? "Journal Transaction csv")%string || (id =? "")%string || (id =? "%")%string
      then Err (Errorf "valid exact Journal transaction type is required")
      else Ok (mkDescriptor (MemberKey request) (ReportName request) [location; id; from; to; p4; p5] (RequestedFrom request)
                 (RequestedTo request) (SourceLocationID request) (AccountCode request))
  | _ => Err (Errorf "valid exact Journal transaction type is required")
  end.

Definition is_journal (definition : FixedDefinition) : bool := (f_key definition =? "journal_transaction_report")%string.

Inductive fixedLayer := fixedLayerContract | fixedLayerSource | fixedLayerSourceContract | fixedLayerPersistence.

Section Source.
Context {source : FincloudSource}.

(** ** The plan *)

(** The dimensions of [executeFixed], then the plan; an error carries its
    class and step. *)
Definition plan_failure : Type := string * string.
Definition enumerated {A} (answer : result (list A)) (step : string) : list A + plan_failure :=
  match answer with Ok rows => inl rows | Err _ => inr ("source", step) end.
Definition frozen {A} (set : result A) (step : string) : A + plan_failure :=
  match set with Ok a => inl a | Err _ => inr ("source_contract", step) end.
Definition then_ {A B} (m : A + plan_failure) (k : A → B + plan_failure) : B + plan_failure :=
  match m with inl a => k a | inr f => inr f end.

Definition planTypes (definition : FixedDefinition) : list JournalTransactionType + plan_failure :=
  if is_journal definition then
    then_ (enumerated FetchJournalTransactionTypes "enumerate_journal_transaction_types") (λ rows,
    frozen (freezeJournalTransactionTypes rows) "enumerate_journal_transaction_types")
  else inl [].
Definition planLocations (definition : FixedDefinition) : list string + plan_failure :=
  if bool_decide (f_location definition = PerLocation) then
    then_ (enumerated FetchAccessibleLocations "enumerate_locations") (λ rows, frozen (FreezeLocations rows) "enumerate_locations")
  else inl [].
Definition planAccounts (definition : FixedDefinition) : list string + plan_failure :=
  if bool_decide (f_account definition = AllAccountCodes) then
    then_ (enumerated FetchAccountCodes "enumerate_account_codes") (λ rows, frozen (FreezeAccountCodes rows) "enumerate_account_codes")
  else inl [].
Definition with_variants (plan : FixedPlan) (types : list JournalTransactionType) : FixedPlan :=
  mkPlan (plan_job plan) (plan_range plan) (plan_scope plan) (plan_members plan) (plan_variants plan ++ (type_id <$> types)) (plan_require_all plan).

Definition planFixed (job : JobDefinition) (definition : FixedDefinition) (parameters : Parameters)
    : FixedPlan * list JournalTransactionType + plan_failure :=
  then_ (planTypes definition) (λ types,
  then_ (planLocations definition) (λ locations,
  then_ (planAccounts definition) (λ accounts,
  let plan :=
    if bool_decide (j_strategy job = SingleDate) then
      match DecodeDateSeries parameters with
      | Err e => Err e
      | Ok dates => BuildFixedDateSeriesPlan definition dates locations
      end
    else
      match DecodeRange parameters with
      | Err e => Err e
      | Ok range => BuildFixedPlan definition (mkFixedRange (r_from range) (r_to range)) locations accounts
      end in
  match plan with
  | Err _ => inr ("contract", "plan")
  | Ok plan => inl (with_variants plan types, types)
  end))).

(** ** Segments of a member *)

(** The source requests of a member: chunk by chunk, each for every
    transaction type. *)
Record segment_request := mkRequest { rq_index : Z; rq_chunk : DateChunk; rq_type : JournalTransactionType }.
Definition segment_requests (chunks : list DateChunk) (types : list JournalTransactionType) : list segment_request :=
  let pairs := mjoin ((λ c, (λ t, (c, t)) <$> types) <$> chunks) in
  zip_with (λ (i : nat) (p : DateChunk * JournalTransactionType), mkRequest (Z.of_nat i) p.1 p.2) (seq 0 (length pairs)) pairs.

Definition member_failure : Type := fixedLayer * string.

(** One turn of the loop of [fetchFixedMemberSegments], up to the staging. *)
Definition fetchSegment (definition : FixedDefinition) (descriptor : RequestDescriptor) (rq : segment_request)
    : FixedSegment + member_failure :=
  let chunk := rq_chunk rq in
  let request :=
    match BuildFixedRequestDescriptor definition (mkFixedRange (chunk_from chunk) (chunk_to chunk)) (SourceLocationID descriptor)
            (AccountCode descriptor) (MemberKey descriptor) with
    | Err e => Err e
    | Ok request => if is_journal definition then journalTransactionRequest request (type_id (rq_type rq)) else Ok request
    end in
  match request with
  | Err _ => inr (fixedLayerContract, "plan_fixed_member")
  | Ok request =>
      match DownloadReport (ReportName request) (DescriptorParameters request) with
      | Err _ => inr (fixedLayerSource, "download_report")
      | Ok content =>
          match ParseFixedCSV definition (SourceLocationID descriptor) content with
          | Some (inl parsed) =>
              match ValidateFixedCoverage definition (chunk_from chunk) (chunk_to chunk) parsed with
              | (Err _, _) => inr (fixedLayerSourceContract, "validate_fixed_coverage")
              | (Ok _, parsed) =>
                  inl (mkSegment (rq_index rq) (chunk_from chunk) (chunk_to chunk) (type_id (rq_type rq)) "" (chunk_to chunk) parsed)
              end
          | _ => inr (fixedLayerSourceContract, "parse_fixed_csv")
          end
      end
  end.

(** ** Workers *)

(** A member being fetched: the requests left, and what was counted and
    hashed so far. *)
Record worker := mkWorker {
  w_descriptor : RequestDescriptor; w_left : list segment_request; w_segments : Z; w_rows : Z; w_hash : string }.
Inductive fixedMemberResult :=
  | Working (w : worker)
  | MemberSucceeded (rows segments : Z) (checksum : string)
  | MemberFailed (failure : member_failure).

(** The start of [fetchFixedMemberSegments]. *)
Definition startMember (definition : FixedDefinition) (types : list JournalTransactionType) (descriptor : RequestDescriptor)
    : fixedMemberResult :=
  match FixedSourceChunks definition (RequestedFrom descriptor) (RequestedTo descriptor) with
  | Err _ => MemberFailed (fixedLayerContract, "plan_fixed_member")
  | Ok chunks =>
      let transactionTypes := if is_journal definition then types else [mkJournalType "" ""] in
      if Nat.eqb (length transactionTypes) 0 then MemberFailed (fixedLayerContract, "plan_fixed_member") else
      Working (mkWorker descriptor (segment_requests chunks transactionTypes)
        (Z.of_nat (length chunks) * Z.of_nat (length transactionTypes)) 0 "")
  end.

(** The next step of a worker: one segment is fetched and staged, or the
    member is finalised. *)
Definition work_on (definition : FixedDefinition) (loadID : Z) (w : worker) (s : fixed_db) : fixedMemberResult * fixed_db :=
  match w_left w with
  | rq :: later =>
      match fetchSegment definition (w_descriptor w) rq with
      | inr failure => (MemberFailed failure, s)
      | inl segment =>
          match runTx (StageMemberSegment definition loadID (w_descriptor w) segment) s with
          | (Err _, s) => (MemberFailed (fixedLayerPersistence, "stage_fixed_member_segment"), s)
          | (Ok _, s) =>
              (Working (mkWorker (w_descriptor w) later (w_segments w) (w_rows w + Z.of_nat (length (SourceRows segment)))
                 (w_hash w +:+ checksum_parts (SourceRowChecksum <$> SourceRows segment))), s)
          end
      end
  | [] =>
      match runTx (FinalizeMemberCandidate definition loadID (w_descriptor w) (w_segments w) (w_rows w) (sha256 (w_hash w))) s with
      | (Err _, s) => (MemberFailed (fixedLayerPersistence, "finalize_fixed_member_candidate"), s)
      | (Ok _, s) => (MemberSucceeded (w_rows w) (w_segments w) (sha256 (w_hash w)), s)
      end
  end.

(** [fetchAndStageFixedMember] alone: a step per request and one to
    finalise. *)
Fixpoint runMember (fuel : nat) (definition : FixedDefinition) (loadID : Z) (m : fixedMemberResult) (s : fixed_db)
    : fixedMemberResult * fixed_db :=
  match fuel, m with
  | S fuel, Working w => let (m, s) := work_on definition loadID w s in runMember fuel definition loadID m s
  | _, _ => (m, s)
  end.
Definition fetchAndStageFixedMember (definition : FixedDefinition) (loadID : Z) (types : list JournalTransactionType)
    (descriptor : RequestDescriptor) (s : fixed_db) : fixedMemberResult * fixed_db :=
  match startMember definition types descriptor with
  | Working w => runMember (S (length (w_left w))) definition loadID (Working w) s
  | m => (m, s)
  end.

(** ** The pool *)

(** Everything the transactions of the load depend on. *)
Definition same_load (table : string) (loadID : Z) (s s' : fixed_db) : Prop :=
  fixed_report_loads s' !! loadID = fixed_report_loads s !! loadID ∧
  (∀ key, fixed_report_load_members s' !! (loadID, key) = fixed_report_load_members s !! (loadID, key)) ∧
  filter (λ r, st_load r = loadID) (table_rows table (staging s')) = filter (λ r, st_load r = loadID) (table_rows table (staging s)).

(** [runFixedPool]: any member makes its next step, or transactions that do
    not concern the load commit. *)
Inductive pool_step (definition : FixedDefinition) (table : string) (loadID : Z) :
    list fixedMemberResult * fixed_db → list fixedMemberResult * fixed_db → Prop :=
  | pool_work i w m members s s' :
      members !! i = Some (Working w) → work_on definition loadID w s = (m, s') →
      pool_step definition table loadID (members, s) (<[i := m]> members, s')
  | pool_other members s s' : same_load table loadID s s' → pool_step definition table loadID (members, s) (members, s').

(** What the source says a member's rows are: its segments in order. *)
Fixpoint member_segments (definition : FixedDefinition) (descriptor : RequestDescriptor) (requests : list segment_request)
    : option (list FixedSegment) :=
  match requests with
  | [] => Some []
  | rq :: requests =>
      match fetchSegment definition descriptor rq, member_segments definition descriptor requests with
      | inl segment, Some segments => Some (segment :: segments)
      | _, _ => None
      end
  end.
End Source.
