(* ===== verification/FixedSource.v ===== *)
(** * From the source to the report

    The composition of the components a fixed report load goes through: the
    pool of FixedExecution.v on top of the transactions of FixedStore.v.
    Whatever the interleaving, when the load is published the report shows,
    for every date of the interval, exactly the rows the source returned for
    it, in the order of members, requests and lines. *)

From S2P Require Import Prelude Calendar Json Hash Catalog Params Access AuditTrail Table Store Schema Runs RunLifecycle FixedPlans FixedCsv Inserts FixedStore FixedPublication FixedExecution.
From S2P Require Diagnostics.
From stdpp Require Import sorting.

Open Scope Z_scope.

(** ** Effects of the transactions *)

Lemma each_staged_Ok table rows : ∀ s s', each (insert_staged table) rows s = Ok (tt, s') →
  ∃ x, s' = set_staging x s ∧ table_rows table x = table_rows table (staging s) ++ rows.
Proof.
  induction rows as [|r rows IH]; intros s s' H; cbn [each] in H.
  - injection H as <-. exists (staging s). split; [by destruct s|by rewrite app_nil_r].
  - apply tx_bind_Ok in H as ([] & s1 & H1 & H). unfold insert_staged in H1. destruct (existsb _ _); [done|].
    destruct (negb _) in H1; [done|]. injection H1 as <-. apply IH in H as (x & -> & Hx). exists x. split; [by destruct s|].
    rewrite Hx. cbn. unfold table_rows at 1. rewrite lookup_insert_eq. cbn. by rewrite <- app_assoc.
Qed.

Lemma stageRows_length specification definition load loadID descriptor segment rows : ∀ ordinal staged,
  stageRows specification definition load loadID descriptor segment ordinal rows = Ok staged → length staged = length rows.
Proof.
  induction rows as [|row rows IH]; intros ordinal staged H; cbn [stageRows] in H; [by injection H as <-|].
  destruct (_ || _); [done|]. destruct (storage_location _ && _); [done|]. destruct (bool_decide _ && _) in H; [done|].
  apply res_bind_Ok in H as (rest & Hr & [= <-]). cbn. f_equal. by eapply IH.
Qed.

Lemma alter_insert_lookup {A} (f : A → A) (k : Z * string) (x : A) (t : gmap (Z * string) A) : t !! k = Some x → alter f k t = <[k := f x]> t.
Proof.
  intros Hk. apply map_eq. intros j. destruct (decide (j = k)) as [->|Hne].
  - by rewrite lookup_alter_eq, lookup_insert_eq, Hk.
  - by rewrite lookup_alter_ne, lookup_insert_ne.
Qed.

(** A committed [StageMemberSegment]. *)
Lemma StageMemberSegment_effect definition specification loadID descriptor segment s s' : fixedStorageFor definition = Ok specification →
  StageMemberSegment definition loadID descriptor segment s = Ok (tt, s') →
  ∃ member load sourceRows rows x y,
    fixed_report_load_members s !! (loadID, MemberKey descriptor) = Some member ∧ member_status member = fixedMemberPending ∧
    fixed_report_loads s !! loadID = Some load ∧
    ValidateFixedCoverage definition (SourcePeriodFrom segment) (SourcePeriodTo segment) (SourceRows segment) = (Ok tt, sourceRows) ∧
    stageRows specification definition load loadID descriptor segment (member_count member + 1) sourceRows = Ok rows ∧
    table_rows (stagingTable specification) x = table_rows (stagingTable specification) (staging s) ++ rows ∧
    s' = set_members (<[(loadID, MemberKey descriptor) :=
           set_staged (member_count member + Z.of_nat (length rows)) (StagedSegments member + 1) member]> (fixed_report_load_members s))
           (set_segments y (set_staging x s)).
Proof.
  intros Hspec H. unfold StageMemberSegment in H.
  apply tx_bind_Ok in H as (specification' & s0 & (? & Hspec' & [= <- ->])%tx_lift_Ok & H). rewrite Hspec in Hspec'. injection Hspec' as <-.
  destruct (_ || _); [done|]. unfold stageMemberSegmentTransaction in H. apply tx_bind_Ok in H as (member & s1 & Hm & H).
  unfold lock_member in Hm. destruct (fixed_report_load_members s !! _) as [m|] eqn:Em; [|done]. injection Hm as -> <-.
  apply tx_bind_Ok in H as ([] & s2 & (Hst%bool_decide_eq_true & [= ->])%tx_guard_Ok & H). apply tx_bind_Ok in H as ([] & s3 & (_ & [= ->])%tx_guard_Ok & H).
  apply tx_bind_Ok in H as (load & s4 & Hload & H). unfold readFixedLoad in Hload.
  destruct (fixed_report_loads s !! loadID) as [l|] eqn:El; [|done]. injection Hload as -> <-.
  apply tx_bind_Ok in H as ([] & s5 & (? & _ & [= _ ->])%tx_lift_Ok & H). apply tx_bind_Ok in H as ([] & s6 & (_ & [= ->])%tx_guard_Ok & H).
  apply tx_bind_Ok in H as ([] & s7 & (_ & [= ->])%tx_guard_Ok & H). apply tx_bind_Ok in H as ([] & s8 & (? & _ & [= _ ->])%tx_lift_Ok & H).
  destruct (ValidateFixedCoverage _ _ _ _) as [verdict sourceRows] eqn:Ev. apply tx_bind_Ok in H as ([] & s9 & (? & -> & [= -> ->])%tx_lift_Ok & H).
  apply tx_bind_Ok in H as (rows & s10 & (? & Hrows & [= <- ->])%tx_lift_Ok & H).
  apply tx_bind_Ok in H as ([] & s11 & Hins & H). apply insertRows_Ok in Hins as [Hins _]; [|apply each_composes].
  apply each_staged_Ok in Hins as (stg & -> & Hstg). apply tx_bind_Ok in H as ([] & s12 & Hseg & H). unfold insert_segment in Hseg.
  destruct (isSome _) in Hseg; [done|]. destruct (negb _) in Hseg; [done|]. injection Hseg as <-.
  unfold update_member, tx_modify in H. apply (f_equal (λ r, match r with Ok (_, t) => t | Err _ => s end)) in H. cbv beta iota in H. eexists member, load, sourceRows, rows, stg, _. split_and!; [done..|].
  rewrite <- H. cbn [fixed_report_load_members set_segments set_staging]. by rewrite (alter_insert_lookup _ _ _ _ Em).
Qed.

(** A committed [FinalizeMemberCandidate] changes the member's row only. *)
Lemma Finalize_effect definition loadID descriptor segments count checksum s s' :
  FinalizeMemberCandidate definition loadID descriptor segments count checksum s = Ok (tt, s') →
  ∃ m, s' = set_members m s ∧ ∀ key, key ≠ MemberKey descriptor → m !! (loadID, key) = fixed_report_load_members s !! (loadID, key).
Proof.
  intros H. unfold FinalizeMemberCandidate in H. apply tx_bind_Ok in H as (? & s0 & (? & _ & [= _ ->])%tx_lift_Ok & H).
  destruct (_ || _ || _); [done|]. unfold finalizeMemberCandidateTransaction in H. apply tx_bind_Ok in H as (member & s1 & Hm & H).
  unfold lock_member in Hm. destruct (fixed_report_load_members s !! _) as [m|] eqn:Em; [|done]. injection Hm as -> <-.
  destruct (member_status member).
  - apply tx_bind_Ok in H as (load & s2 & Hload & H). unfold readFixedLoad in Hload. destruct (_ !! loadID); [|done]. injection Hload as -> <-.
    apply tx_bind_Ok in H as ([] & s3 & (_ & [= ->])%tx_guard_Ok & H). apply tx_bind_Ok in H as ([] & s4 & (_ & [= ->])%tx_guard_Ok & H).
    unfold update_member, tx_modify in H. injection H as <-. eexists. split; [done|]. intros key Hne. by rewrite lookup_alter_ne by congruence.
  - apply tx_guard_Ok in H as [_ [= ->]]. exists (fixed_report_load_members s). split; [by destruct s|done].
Qed.

(** A segment that was validated once validates again, unchanged. *)
Lemma coverage_dates_length definition from to rows dates : coverage_dates definition from to rows = Ok dates → length dates = length rows.
Proof.
  revert dates. induction rows as [|row rows IH]; intros dates H; cbn [coverage_dates] in H; [by injection H as <-|].
  apply res_bind_Ok in H as (d & _ & H). destruct (_ || _); [done|]. apply res_bind_Ok in H as (ds & Hd & [= <-]). cbn. f_equal. by apply IH.
Qed.
Lemma coverage_dates_again definition from to rows dates : length dates = length rows →
  coverage_dates definition from to (zip_with set_coverage rows dates) = coverage_dates definition from to rows.
Proof.
  revert dates. induction rows as [|row rows IH]; intros [|d dates] Hl; try done. cbn [zip_with coverage_dates].
  rewrite IH by (cbn in Hl; lia). done.
Qed.
Lemma set_coverage_again rows dates : length dates = length rows →
  zip_with set_coverage (zip_with set_coverage rows dates) dates = zip_with set_coverage rows dates.
Proof.
  revert dates. induction rows as [|row rows IH]; intros [|d dates] Hl; try done. cbn [zip_with]. rewrite IH by (cbn in Hl; lia). done.
Qed.
Lemma ValidateFixedCoverage_again definition from to rows rows' :
  ValidateFixedCoverage definition from to rows = (Ok tt, rows') → ValidateFixedCoverage definition from to rows' = (Ok tt, rows').
Proof.
  unfold ValidateFixedCoverage. destruct (_ || _ || _); [done|]. destruct (f_publication definition).
  - destruct (_ && _); [done|]. destruct (coverage_dates definition from to rows) as [dates|] eqn:E; [|done]. intros [= <-].
    apply coverage_dates_length in E as Hl. rewrite coverage_dates_again, E by done. by rewrite set_coverage_again.
  - destruct (forallb _ rows) eqn:E; [|done]. intros [= <-]. by rewrite E.
Qed.

(** ** Orders *)

Lemma string_compare_refl a : String.compare a a = Eq.
Proof. pose proof (String.compare_antisym a a) as H. by destruct (String.compare a a). Qed.

Lemma not_before (a b : string) : match String.compare b a with Lt => true | _ => false end = false ↔ string_le a b = true.
Proof. unfold string_le. rewrite (String.compare_antisym a b). by destruct (String.compare b a). Qed.
Lemma string_le_both a b : string_le a b = true → string_le b a = true → a = b.
Proof.
  intros Ha Hb. unfold string_le in *. rewrite (String.compare_antisym b a) in Hb.
  destruct (String.compare a b) eqn:E; [by apply String.compare_eq_iff|done|done].
Qed.

Lemma member_in_order a b : in_order member_before a b ↔ string_le (MemberKey a) (MemberKey b) = true.
Proof. apply not_before. Qed.
Lemma staged_in_order a b : in_order staged_before a b ↔
  string_le (st_member a) (st_member b) = true ∧ (st_member a = st_member b → st_ordinal a <= st_ordinal b).
Proof.
  unfold in_order, staged_before, string_le. rewrite (String.compare_antisym (st_member a) (st_member b)).
  destruct (String.compare (st_member b) (st_member a)) eqn:E; cbn [CompOpp].
  - apply String.compare_eq_iff in E. rewrite Z.ltb_ge. naive_solver.
  - naive_solver.
  - split; [|done]. intros _. split; [done|]. intros Eq. by rewrite Eq, string_compare_refl in E.
Qed.

Lemma member_before_order : (∀ a b c, in_order member_before a b → in_order member_before b c → in_order member_before a c) ∧
  (∀ a b, member_before a b = true → member_before b a = false).
Proof.
  split.
  - intros a b c. rewrite !member_in_order. apply string_le_trans.
  - intros a b. unfold member_before. rewrite (String.compare_antisym (MemberKey b)). by destruct (String.compare (MemberKey a) _).
Qed.
Lemma staged_before_order : (∀ a b c, in_order staged_before a b → in_order staged_before b c → in_order staged_before a c) ∧
  (∀ a b, staged_before a b = true → staged_before b a = false).
Proof.
  split.
  - intros a b c. rewrite !staged_in_order. intros [H1 H2] [H3 H4]. split; [by eapply string_le_trans|]. intros E.
    assert (st_member a = st_member b) as E1 by (apply string_le_both; [done|by rewrite E]).
    etrans; [by apply H2|]. apply H4. by rewrite <- E1.
  - intros a b. unfold staged_before. rewrite (String.compare_antisym (st_member b)).
    destruct (String.compare (st_member a) _); cbn [CompOpp]; [|done..]. intros ?%Z.ltb_lt. apply Z.ltb_ge. lia.
Qed.

(** ** The rows a member stages *)

Section Image.
Context (specification : fixedStorage) (definition : FixedDefinition) (load : fixedLoadContract) (loadID : Z).

(** The staged rows of a member's segments, numbered through. *)
Fixpoint stage_all (descriptor : RequestDescriptor) (ordinal : Z) (segments : list FixedSegment) : result (list staged_row) :=
  match segments with
  | [] => Ok []
  | segment :: segments =>
      let? rows := stageRows specification definition load loadID descriptor segment ordinal (SourceRows segment) in
      let? rest := stage_all descriptor (ordinal + Z.of_nat (length rows)) segments in
      Ok (rows ++ rest)
  end.

Lemma stage_all_snoc descriptor segment rows segments : ∀ ordinal image, stage_all descriptor ordinal segments = Ok image →
  stageRows specification definition load loadID descriptor segment (ordinal + Z.of_nat (length image)) (SourceRows segment) = Ok rows →
  stage_all descriptor ordinal (segments ++ [segment]) = Ok (image ++ rows).
Proof.
  induction segments as [|g segments IH]; intros ordinal image H Hr; cbn [stage_all app] in *.
  - injection H as <-. cbn in Hr. rewrite Z.add_0_r in Hr. rewrite Hr. cbn. by rewrite app_nil_r.
  - apply res_bind_Ok in H as (a & -> & H). apply res_bind_Ok in H as (b & Hb & [= <-]). cbn [res_bind].
    rewrite (IH _ _ Hb); [by rewrite <- app_assoc|]. rewrite length_app in Hr. etrans; [|exact Hr]. f_equal. lia.
Qed.

(** What a reader of the report sees of a row. *)
Definition shown : Type := Z * string * option string * option string * list (string * string).
Definition shown_final (r : final_row) : shown := (fin_number r, fin_checksum r, fin_location r, fin_coverage r, fin_values r).
Definition shown_staged (r : staged_row) : shown := (st_number r, st_checksum r, st_location r, st_coverage r, st_values r).
Definition shown_source (row : FixedCSVRow) : shown :=
  (SourceRowNumber row, SourceRowChecksum row, if storage_location specification then Some (RowLocationID row) else None,
   if bool_decide (f_publication definition = DateAddressable) then Some (date_string (CoverageDate row)) else None,
   zip (storage_columns specification) ((λ header, default "" (Values row !! header)) <$> f_headers definition)).

Definition numbered (descriptor : RequestDescriptor) (ordinal : Z) (rows : list staged_row) : Prop :=
  Forall (λ r, st_load r = loadID ∧ st_member r = MemberKey descriptor) rows ∧
  ∀ i r, rows !! i = Some r → st_ordinal r = ordinal + Z.of_nat i.

Lemma numbered_app descriptor ordinal a b : numbered descriptor ordinal a → numbered descriptor (ordinal + Z.of_nat (length a)) b →
  numbered descriptor ordinal (a ++ b).
Proof.
  intros [Ha1 Ha2] [Hb1 Hb2]. split; [by apply Forall_app|]. intros i r [Hi|[Hl Hi]]%lookup_app_Some; [by apply Ha2|].
  apply Hb2 in Hi. lia.
Qed.

Lemma stageRows_image descriptor segment rows : ∀ ordinal staged,
  stageRows specification definition load loadID descriptor segment ordinal rows = Ok staged →
  numbered descriptor ordinal staged ∧ shown_staged <$> staged = shown_source <$> rows.
Proof.
  induction rows as [|row rows IH]; intros ordinal staged H; cbn [stageRows] in H; [by injection H as <-|].
  destruct (_ || _); [done|]. destruct (storage_location _ && _); [done|]. destruct (bool_decide _ && _) in H; [done|].
  apply res_bind_Ok in H as (rest & Hr & [= <-]). apply IH in Hr as [Hn Hs]. split.
  - apply (numbered_app _ _ [_]); [|done]. split; [by constructor|]. intros [|i] r [= <-]. cbn. lia.
  - rewrite !fmap_cons. by rewrite Hs.
Qed.

Lemma stage_all_image descriptor segments : ∀ ordinal image, stage_all descriptor ordinal segments = Ok image →
  numbered descriptor ordinal image ∧ shown_staged <$> image = shown_source <$> mjoin (SourceRows <$> segments).
Proof.
  induction segments as [|g segments IH]; intros ordinal image H; cbn [stage_all] in H; [by injection H as <-|].
  apply res_bind_Ok in H as (a & Ha & H). apply res_bind_Ok in H as (b & Hb & [= <-]).
  apply stageRows_image in Ha as [Hn Hs]. apply IH in Hb as [Hn' Hs']. split; [by apply numbered_app|].
  by rewrite fmap_app, Hs, Hs', <- fmap_app.
Qed.
End Image.

Lemma numbered_sorted loadID descriptor ordinal rows : numbered loadID descriptor ordinal rows → StronglySorted (in_order staged_before) rows.
Proof.
  revert ordinal. induction rows as [|r rows IH]; intros ordinal [Hall Hn]; [constructor|].
  apply Forall_cons in Hall as [[_ Hr] Hall]. constructor.
  - apply (IH (ordinal + 1)). split; [done|]. intros i x Hi. rewrite (Hn (S i) x Hi). lia.
  - apply Forall_forall. intros x Hx. apply staged_in_order. rewrite Forall_forall in Hall. destruct (Hall x Hx) as [_ ->]. rewrite Hr.
    split; [unfold string_le; by rewrite string_compare_refl|]. intros _.
    apply list_elem_of_lookup in Hx as [i Hi]. rewrite (Hn 0%nat r eq_refl), (Hn (S i) x Hi). lia.
Qed.

(** ** The start of a load *)

Lemma memberRows_Ok definition plan members : ∀ rows, memberRows definition plan members = Ok rows →
  member_key <$> rows = MemberKey <$> members ∧ Forall (λ m, member_count m = 0) rows.
Proof.
  induction members as [|d members IH]; intros rows H; cbn [memberRows] in H; [by injection H as <-|].
  destruct (_ || _); [done|]. apply res_bind_Ok in H as (chunks & _ & H). apply res_bind_Ok in H as (rest & Hr & [= <-]).
  apply IH in Hr as [Hk Hc]. split; [|by constructor]. rewrite !fmap_cons. by rewrite Hk.
Qed.

Lemma each_member_Ok loadID rows : ∀ s s', each (insert_member loadID) rows s = Ok (tt, s') →
  fixed_report_loads s' = fixed_report_loads s ∧ staging s' = staging s ∧
  (∀ key m, fixed_report_load_members s !! (loadID, key) = Some m → fixed_report_load_members s' !! (loadID, key) = Some m) ∧
  Forall (λ m, fixed_report_load_members s' !! (loadID, member_key m) = Some m) rows ∧ NoDup (member_key <$> rows).
Proof.
  assert (∀ s s', each (insert_member loadID) rows s = Ok (tt, s') →
    Forall (λ m, fixed_report_load_members s !! (loadID, member_key m) = None) rows ∧
    fixed_report_loads s' = fixed_report_loads s ∧ staging s' = staging s ∧
    (∀ key m, fixed_report_load_members s !! (loadID, key) = Some m → fixed_report_load_members s' !! (loadID, key) = Some m) ∧
    Forall (λ m, fixed_report_load_members s' !! (loadID, member_key m) = Some m) rows ∧ NoDup (member_key <$> rows)) as H;
    [|intros s s' Hs; by destruct (H s s' Hs) as [_ ?]].
  induction rows as [|r rows IH]; intros s s' H; cbn [each] in H.
  { injection H as <-. split_and!; [constructor|done..|constructor|constructor]. }
  apply tx_bind_Ok in H as ([] & s1 & H1 & H). unfold insert_member in H1. destruct (negb _); [done|].
  destruct (isSome _) eqn:En; [done|]. destruct (negb _) in H1; [done|]. injection H1 as <-.
  assert (Hnone : fixed_report_load_members s !! (loadID, member_key r) = None) by (by destruct (fixed_report_load_members s !! _)).
  apply IH in H as (Hfree & Hl & Hst & Hkeep & Hrows & Hnd).
  cbn [fixed_report_load_members fixed_report_loads staging set_members] in *.
  assert (Hne : Forall (λ m, member_key m ≠ member_key r ∧ fixed_report_load_members s !! (loadID, member_key m) = None) rows).
  { eapply Forall_impl; [exact Hfree|]. intros m [Hm Hk]%lookup_insert_None. split; [congruence|done]. }
  split_and!; [constructor; [done|]|done|done| | |].
  - eapply Forall_impl; [exact Hne|]. by intros m [_ ?].
  - intros key m Hm. apply Hkeep. rewrite lookup_insert_ne; [done|]. intros [= <-]. by rewrite Hnone in Hm.
  - constructor; [|done]. apply Hkeep. apply lookup_insert_eq.
  - rewrite fmap_cons. constructor; [|done]. intros (m & E & Hm)%list_elem_of_fmap. rewrite Forall_forall in Hne. by destruct (Hne m Hm).
Qed.

(** A load that was begun: its plan, its members, and nothing staged. *)
Lemma BeginLoad_Ok runID definition plan loadID s s' : fixed_ok s → BeginLoad runID definition plan s = Ok (loadID, s') →
  (∃ load, fixed_report_loads s' !! loadID = Some load ∧ load_status load = fixedLoadPending ∧ load_job load = plan_job plan ∧
    load_from load = date_string (fr_from (plan_range plan)) ∧ load_to load = date_string (fr_to (plan_range plan)) ∧
    is_ok (date_column (load_from load)) = true ∧ is_ok (date_column (load_to load)) = true) ∧
  NoDup (MemberKey <$> plan_members plan) ∧ plan_job plan = f_key definition ∧
  (∀ d, d ∈ plan_members plan → ∃ row, fixed_report_load_members s' !! (loadID, MemberKey d) = Some row ∧ member_count row = 0) ∧
  ∀ table, filter (λ r, st_load r = loadID) (table_rows table (staging s')) = [].
Proof.
  intros Hs H. unfold BeginLoad in H. destruct (runID =? 0); [done|].
  apply tx_bind_Ok in H as (specification & s0 & (? & _ & [= _ ->])%tx_lift_Ok & H).
  apply tx_bind_Ok in H as (manifest & s1 & (? & Hman & [= _ ->])%tx_lift_Ok & H).
  assert (Hj : plan_job plan = f_key definition).
  { unfold FixedManifestChecksum in Hman. destruct (_ || _ || _) eqn:E; [done|]. rewrite !orb_false_iff, negb_false_iff in E.
    by destruct E as [[?%String.eqb_eq _] _]. }
  unfold beginLoadTransaction in H. apply tx_bind_Ok in H as (? & s2 & (? & _ & [= _ ->])%tx_lift_Ok & H).
  apply tx_bind_Ok in H as (id & s3 & Hins & H). unfold insert_load in Hins. destruct (negb _) eqn:Ed; [done|].
  destruct (run_load_taken _ _); [done|]. destruct (negb (isSome _)) in Hins; [done|]. injection Hins as <- <-.
  apply negb_false_iff, andb_true_iff in Ed as [Ed1 Ed2].
  apply tx_bind_Ok in H as (rows & s4 & (? & Hrows & [= -> ->])%tx_lift_Ok & H).
  apply tx_bind_Ok in H as ([] & s5 & Hins & [= <- <-]). apply insertRows_Ok in Hins as [Hins _]; [|apply each_composes].
  apply memberRows_Ok in Hrows as [Hkeys Hcounts]. apply each_member_Ok in Hins as (Hl & Hst & _ & Hmem & Hnd).
  cbn [fixed_report_loads staging set_loads] in Hl, Hst. split_and!; [|by rewrite <- Hkeys|done| |].
  - eexists. split; [rewrite Hl; apply lookup_insert_eq|]. split_and!; done.
  - intros d Hd. apply (list_elem_of_fmap_2 MemberKey) in Hd. rewrite <- Hkeys in Hd. apply list_elem_of_fmap in Hd as (m & -> & Hm).
    rewrite Forall_forall in Hmem, Hcounts. exists m. split; [by apply Hmem|by apply Hcounts].
  - intros table. rewrite Hst. apply filter_none, Forall_forall. intros r Hr E.
    destruct (fo_staged _ Hs _ _ Hr) as (l & Hlo & _). pose proof (fo_fresh _ Hs _ _ Hlo). rewrite E in *. lia.
Qed.

(** ** The pool *)

Lemma filter_all {A} (P : A → Prop) `{∀ x, Decision (P x)} (l : list A) : Forall P l → filter P l = l.
Proof. induction 1 as [|x l Hx _ IH]; [done|]. by rewrite filter_cons_True, IH. Qed.

Lemma join_cons_eq {A} (l : list A) (ls : list (list A)) : mjoin (l :: ls) = l ++ mjoin ls.
Proof. done. Qed.
Lemma join_insert {A} (ls : list (list A)) i l l' : ls !! i = Some l → mjoin (<[i := l ++ l']> ls) ≡ₚ mjoin ls ++ l'.
Proof.
  revert i. induction ls as [|x ls IH]; intros i H; [done|]. destruct i as [|i].
  - injection H as ->. cbn. by rewrite <- !app_assoc, (Permutation_app_comm l' _).
  - cbn. by rewrite (IH i H), app_assoc.
Qed.

Section Pool.
Context {source : FincloudSource} (definition : FixedDefinition) (specification : fixedStorage) (types : list JournalTransactionType)
  (load : fixedLoadContract) (loadID : Z) (plan : list RequestDescriptor).
Hypothesis Hspec : fixedStorageFor definition = Ok specification.
Hypothesis Hkeys : NoDup (MemberKey <$> plan).

(** The segments the source returns for the requests of a member. *)
Definition source_segments (d : RequestDescriptor) : option (list FixedSegment) :=
  match startMember definition types d with Working w => member_segments definition d (w_left w) | _ => None end.

(** What is known of a member while the pool works on it. *)
Definition member_inv (s : fixed_db) (d : RequestDescriptor) (m : fixedMemberResult) (image : list staged_row) : Prop :=
  match m with
  | Working w =>
      w_descriptor w = d ∧
      ∃ w0 fetched segments row, startMember definition types d = Working w0 ∧ w_left w0 = fetched ++ w_left w ∧
        member_segments definition d fetched = Some segments ∧ stage_all specification definition load loadID d 1 segments = Ok image ∧
        fixed_report_load_members s !! (loadID, MemberKey d) = Some row ∧ member_count row = Z.of_nat (length image)
  | MemberSucceeded _ _ _ =>
      ∃ segments, source_segments d = Some segments ∧ stage_all specification definition load loadID d 1 segments = Ok image
  | MemberFailed _ => True
  end.

Definition pool_inv (p : list fixedMemberResult * fixed_db) : Prop :=
  fixed_report_loads p.2 !! loadID = Some load ∧
  ∃ images, length p.1 = length plan ∧ length images = length plan ∧
    (∀ i d m image, plan !! i = Some d → p.1 !! i = Some m → images !! i = Some image → member_inv p.2 d m image) ∧
    filter (λ r, st_load r = loadID) (table_rows (stagingTable specification) (staging p.2)) ≡ₚ mjoin images.

Lemma member_inv_same s s' d m image : fixed_report_load_members s' !! (loadID, MemberKey d) = fixed_report_load_members s !! (loadID, MemberKey d) →
  member_inv s d m image → member_inv s' d m image.
Proof. intros E. destruct m as [w| |]; cbn [member_inv]; [|done..]. by rewrite E. Qed.

Lemma member_segments_snoc d rq segment fetched : ∀ segments, member_segments definition d fetched = Some segments →
  fetchSegment definition d rq = inl segment → member_segments definition d (fetched ++ [rq]) = Some (segments ++ [segment]).
Proof.
  induction fetched as [|r fetched IH]; intros segments H Hs; cbn [member_segments app] in *; [injection H as <-; by rewrite Hs|].
  destruct (fetchSegment definition d r); [|done]. destruct (member_segments definition d fetched) eqn:E; [|done].
  injection H as <-. by rewrite (IH _ eq_refl Hs).
Qed.

Lemma fetchSegment_valid d rq segment : fetchSegment definition d rq = inl segment →
  ValidateFixedCoverage definition (SourcePeriodFrom segment) (SourcePeriodTo segment) (SourceRows segment) = (Ok tt, SourceRows segment).
Proof.
  unfold fetchSegment. repeat case_match; try discriminate; intros [= <-]; cbn [SourcePeriodFrom SourcePeriodTo SourceRows];
    match goal with H : ValidateFixedCoverage _ _ _ _ = (Ok ?a, _) |- _ => destruct a; by eapply ValidateFixedCoverage_again end.
Qed.

(** One more image, or none, at member [i]. *)
Lemma pool_inv_step members images s s' i d m rows : fixed_report_loads s' !! loadID = Some load →
  length members = length plan → length images = length plan → plan !! i = Some d →
  (∀ j d m image, plan !! j = Some d → members !! j = Some m → images !! j = Some image → member_inv s d m image) →
  filter (λ r, st_load r = loadID) (table_rows (stagingTable specification) (staging s)) ≡ₚ mjoin images →
  (∀ key, key ≠ MemberKey d → fixed_report_load_members s' !! (loadID, key) = fixed_report_load_members s !! (loadID, key)) →
  filter (λ r, st_load r = loadID) (table_rows (stagingTable specification) (staging s')) =
    filter (λ r, st_load r = loadID) (table_rows (stagingTable specification) (staging s)) ++ rows →
  (∀ image, images !! i = Some image → member_inv s' d m (image ++ rows)) →
  pool_inv (<[i := m]> members, s').
Proof using Hkeys.
  intros Hl Hlm Hli Hd Hinv Hperm Hsame Hrows Hi. split; [done|]. cbn [fst snd].
  destruct (lookup_lt_is_Some_2 images i) as [image Himage]; [rewrite Hli; by eapply lookup_lt_Some|].
  exists (<[i := image ++ rows]> images). rewrite !length_insert. split_and!; [done|done| |].
  - intros j d' m' image' Hj Hm Him. destruct (decide (j = i)) as [->|Hne].
    + rewrite list_lookup_insert_eq in Hm by (rewrite Hlm; by eapply lookup_lt_Some).
      rewrite (list_lookup_insert_eq images) in Him by (rewrite Hli; by eapply lookup_lt_Some). simplify_eq. by apply Hi.
    + rewrite list_lookup_insert_ne in Hm by done. rewrite (list_lookup_insert_ne images) in Him by done. eapply member_inv_same, Hinv; [|done..]. apply Hsame. intros E.
      apply Hne. apply (NoDup_lookup _ _ _ (MemberKey d) Hkeys); rewrite list_lookup_fmap; [by rewrite Hj; cbn; rewrite E|by rewrite Hd].
  - rewrite Hrows, Hperm. by rewrite join_insert.
Qed.

Lemma pool_inv_preserved p p' : pool_inv p → pool_step definition (stagingTable specification) loadID p p' → pool_inv p'.
Proof using Hspec Hkeys.
  intros Hinv Hstep. destruct Hstep as [i w m members s s' Hw Hwork|members s s' (Hl & Hm & Hst)].
  2: { destruct Hinv as (Hload & images & Hlm & Hli & Hinv & Hperm). split; [by rewrite <- Hload; apply Hl|]. exists images. cbn [fst snd] in *.
    split_and!; [done..| |by rewrite Hst]. intros i d m image Hd Hmi Himage. eapply member_inv_same, Hinv; [apply Hm|done..]. }
  destruct Hinv as (Hload & images & Hlm & Hli & Hinv & Hperm). cbn [fst snd] in *.
  destruct (lookup_lt_is_Some_2 plan i) as [d Hd]; [rewrite <- Hlm; by eapply lookup_lt_Some|].
  destruct (lookup_lt_is_Some_2 images i) as [image0 Himage0]; [rewrite Hli; by eapply lookup_lt_Some|].
  destruct (Hinv i d _ _ Hd Hw Himage0) as (Hwd & w0 & fetched & segments & row & Hstart & Hleft & Hsegs & Hall & Hrow & Hcount).
  unfold work_on in Hwork. rewrite Hwd in Hwork. destruct (w_left w) as [|rq later] eqn:Ew.
  - unfold runTx in Hwork. destruct (FinalizeMemberCandidate _ _ _ _ _ _ _) as [[[] s1]|e] eqn:E; injection Hwork as <- <-.
    + apply Finalize_effect in E as (mm & -> & Hother).
      apply (pool_inv_step members images s _ i d _ []); [done..|by rewrite app_nil_r|]. intros image Him. simplify_eq. rewrite app_nil_r.
      exists segments. split; [|done]. unfold source_segments. rewrite Hstart, Hleft. by rewrite app_nil_r.
    + apply (pool_inv_step members images s _ i d _ []); [done..|by rewrite app_nil_r|done].
  - destruct (fetchSegment definition d rq) as [segment|failure] eqn:Ef.
    2: { injection Hwork as <- <-. apply (pool_inv_step members images s _ i d _ []); [done..|by rewrite app_nil_r|done]. }
    unfold runTx in Hwork. destruct (StageMemberSegment _ _ _ _ _) as [[[] s1]|e] eqn:E; injection Hwork as <- <-.
    2: { apply (pool_inv_step members images s _ i d _ []); [done..|by rewrite app_nil_r|done]. }
    apply (StageMemberSegment_effect _ _ _ _ _ _ _ Hspec) in E
      as (member & load' & sourceRows & rows & x & y & Hmem & _ & Hload' & Hval & Hstage & Htab & ->).
    rewrite (fetchSegment_valid _ _ _ Ef) in Hval. injection Hval as <-. rewrite Hload in Hload'. injection Hload' as <-.
    rewrite Hrow in Hmem. injection Hmem as <-. apply stageRows_image in Hstage as Hnum. destruct Hnum as [[Hnum _] _].
    apply (pool_inv_step members images s _ i d _ rows); try done.
    + intros key Hne. cbn. by rewrite lookup_insert_ne by congruence.
    + cbn [staging set_members set_segments set_staging]. rewrite Htab, filter_app, (filter_all _ rows); [done|].
      eapply Forall_impl; [exact Hnum|]. by intros r [? _].
    + intros image Him. simplify_eq. split; [done|].
      exists w0, (fetched ++ [rq]), (segments ++ [segment]), (set_staged (member_count row + Z.of_nat (length rows)) (StagedSegments row + 1) row).
      split_and!.
      * done.
      * rewrite Hleft. cbn. by rewrite <- app_assoc.
      * by eapply member_segments_snoc.
      * eapply stage_all_snoc; [done|]. rewrite <- Hcount. by rewrite Z.add_comm.
      * apply lookup_insert_eq.
      * cbn. rewrite length_app. lia.
Qed.

Lemma pool_inv_start s : fixed_report_loads s !! loadID = Some load →
  (∀ d, d ∈ plan → ∃ row, fixed_report_load_members s !! (loadID, MemberKey d) = Some row ∧ member_count row = 0) →
  filter (λ r, st_load r = loadID) (table_rows (stagingTable specification) (staging s)) = [] →
  pool_inv (startMember definition types <$> plan, s).
Proof.
  intros Hl Hm Hst. split; [done|]. cbn [fst snd]. exists (replicate (length plan) []). rewrite length_fmap, length_replicate. split_and!; [done|done| |].
  - intros i d m image Hd Hmi [-> _]%lookup_replicate. rewrite list_lookup_fmap, Hd in Hmi. injection Hmi as <-.
    destruct (startMember definition types d) as [w|rows segments checksum|failure] eqn:E; [| |done].
    + destruct (Hm d) as (row & Hrow & Hc); [by eapply list_elem_of_lookup_2|]. split.
      * revert E. unfold startMember. repeat case_match; intros; by simplify_eq.
      * exists w, [], [], row. by rewrite E.
    + exfalso. revert E. unfold startMember. repeat case_match; intros; by simplify_eq.
  - rewrite Hst. by induction (length plan).
Qed.

(** The staged rows of a load all of whose members succeeded. *)
Definition load_source : list FixedCSVRow :=
  mjoin ((λ d, mjoin (SourceRows <$> default [] (source_segments d))) <$> sort_by member_before plan).

Definition image_of (d : RequestDescriptor) : list staged_row :=
  match stage_all specification definition load loadID d 1 (default [] (source_segments d)) with Ok rows => rows | Err _ => [] end.

Lemma image_sorted ds : NoDup (MemberKey <$> ds) → StronglySorted (in_order member_before) ds →
  Forall (λ d, numbered loadID d 1 (image_of d)) ds → StronglySorted (in_order staged_before) (mjoin (image_of <$> ds)).
Proof.
  induction ds as [|d ds IH]; intros Hnd Hs Hn; [constructor|]. rewrite fmap_cons in *. apply NoDup_cons in Hnd as [Hnin Hnd].
  apply StronglySorted_cons in Hs as [Hd Hs]. apply Forall_cons in Hn as [Hn1 Hn].
  rewrite join_cons_eq. apply StronglySorted_app. split_and!.
  - intros a b Ha Hb. apply list_elem_of_join in Hb as (l & Hb & (d' & -> & Hd')%list_elem_of_fmap).
    rewrite Forall_forall in Hn, Hd. destruct (Hn d' Hd') as [Hall _], Hn1 as [Hall1 _]. rewrite Forall_forall in Hall, Hall1.
    destruct (Hall b Hb) as [_ Eb], (Hall1 a Ha) as [_ Ea]. apply staged_in_order. rewrite Ea, Eb. split; [by apply member_in_order, Hd|].
    intros E. destruct Hnin. rewrite E. by apply list_elem_of_fmap_2.
  - by eapply numbered_sorted.
  - by apply IH.
Qed.

Lemma load_staged_source members s : pool_inv (members, s) → Forall (λ m, match m with MemberSucceeded _ _ _ => True | _ => False end) members →
  Forall (λ d, is_Some (source_segments d)) plan ∧
  shown_staged <$> load_staged (stagingTable specification) loadID s = shown_source specification definition <$> load_source.
Proof using Hkeys.
  intros (_ & images & Hlm & Hli & Hinv & Hperm) Hall. cbn [fst snd] in *.
  assert (Hmem : ∀ i d image, plan !! i = Some d → images !! i = Some image →
    ∃ segments, source_segments d = Some segments ∧ stage_all specification definition load loadID d 1 segments = Ok image).
  { intros i d image Hd Him. destruct (lookup_lt_is_Some_2 members i) as [m Hm]; [rewrite Hlm; by eapply lookup_lt_Some|].
    rewrite Forall_lookup in Hall. specialize (Hall _ _ Hm). specialize (Hinv i d m image Hd Hm Him). by destruct m. }
  assert (Hseg : Forall (λ d, ∃ segments image, source_segments d = Some segments ∧
    stage_all specification definition load loadID d 1 segments = Ok image) plan).
  { apply Forall_lookup. intros i d Hd. destruct (lookup_lt_is_Some_2 images i) as [image Him]; [rewrite Hli; by eapply lookup_lt_Some|].
    destruct (Hmem i d image Hd Him) as (segments & H). by exists segments, image. }
  assert (Himages : images = image_of <$> plan).
  { apply list_eq. intros i. rewrite list_lookup_fmap. destruct (plan !! i) as [d|] eqn:Hd.
    - destruct (lookup_lt_is_Some_2 images i) as [image Him]; [rewrite Hli; by eapply lookup_lt_Some|].
      destruct (Hmem i d image Hd Him) as (segments & H1 & H2). rewrite Him. cbn [fmap option_fmap option_map]. unfold image_of. rewrite H1. change (default [] (Some segments)) with segments. by rewrite H2.
    - apply lookup_ge_None_2. rewrite Hli. by apply lookup_ge_None. }
  assert (Hnum : Forall (λ d, numbered loadID d 1 (image_of d) ∧
    shown_staged <$> image_of d = shown_source specification definition <$> mjoin (SourceRows <$> default [] (source_segments d))) plan).
  { eapply Forall_impl; [exact Hseg|]. intros d (segments & image & H1 & H2). unfold image_of. rewrite H1. change (default [] (Some segments)) with segments. rewrite H2.
    by apply stage_all_image in H2. }
  split; [eapply Forall_impl; [exact Hseg|]; intros d (segments & _ & -> & _); by exists segments|].
  assert (Hsort : sort_by member_before plan ≡ₚ plan) by apply sort_by_Permutation.
  destruct member_before_order as [Hmt Hma]. destruct staged_before_order as [Hst Hsa].
  assert (Hload : load_staged (stagingTable specification) loadID s = mjoin (image_of <$> sort_by member_before plan)).
  { unfold load_staged. apply sort_by_unique; [done|done| | |].
    - intros a b Ha Hb [Hk1 Ho1]%staged_in_order [Hk2 Ho2]%staged_in_order. rewrite Hperm, Himages in Ha, Hb.
      assert (Ek : st_member a = st_member b) by (by apply string_le_both). specialize (Ho1 Ek). symmetry in Ek. specialize (Ho2 Ek).
      apply list_elem_of_join in Ha as (la & Ha & (d1 & -> & Hd1)%list_elem_of_fmap), Hb as (lb & Hb & (d2 & -> & Hd2)%list_elem_of_fmap).
      rewrite Forall_forall in Hnum. destruct (Hnum d1 Hd1) as [[Hall1 Hn1] _], (Hnum d2 Hd2) as [[Hall2 Hn2] _].
      rewrite Forall_forall in Hall1, Hall2. destruct (Hall1 a Ha) as [_ Ea], (Hall2 b Hb) as [_ Eb].
      assert (d1 = d2) as <-.
      { apply list_elem_of_lookup in Hd1 as [i Hi], Hd2 as [j Hj]. assert (i = j) as ->; [|congruence].
        apply (NoDup_lookup _ _ _ (MemberKey d1) Hkeys); rewrite list_lookup_fmap; [by rewrite Hi|]. rewrite Hj. cbn. congruence. }
      apply list_elem_of_lookup in Ha as [i Hi], Hb as [j Hj]. rewrite (Hn1 i a Hi), (Hn1 j b Hj) in *. assert (i = j) as -> by lia. congruence.
    - rewrite Hperm, Himages. by rewrite Hsort.
    - apply image_sorted; [by rewrite Hsort|by apply sort_by_in_order|]. rewrite Hsort. eapply Forall_impl; [exact Hnum|]. by intros d [? _]. }
  rewrite Hload. unfold load_source. assert (Hin : Forall (λ d, shown_staged <$> image_of d =
    shown_source specification definition <$> mjoin (SourceRows <$> default [] (source_segments d))) (sort_by member_before plan)).
  { rewrite Hsort. eapply Forall_impl; [exact Hnum|]. by intros d [_ ?]. }
  clear -Hin. induction Hin as [|d ds Hd _ IH]; [done|]. rewrite !fmap_cons, !join_cons_eq. by rewrite !fmap_app, Hd, IH.
Qed.
End Pool.

(** ** From the source to the report *)

Lemma filter_image {A B} (f : A → B) (P : A → Prop) (Q : B → Prop) `{∀ x, Decision (P x)} `{∀ x, Decision (Q x)} (l : list A) :
  (∀ x, P x ↔ Q (f x)) → f <$> filter P l = filter Q (f <$> l).
Proof.
  intros Hpq. induction l as [|x l IH]; [done|]. rewrite fmap_cons, !filter_cons.
  destruct (decide (P x)), (decide (Q (f x))); try naive_solver. by rewrite fmap_cons, IH.
Qed.

Definition succeeded (m : fixedMemberResult) : Prop := match m with MemberSucceeded _ _ _ => True | _ => False end.
(** The rows of the source for a date. *)
Definition rows_on (d : CalendarDate) (rows : list FixedCSVRow) : list FixedCSVRow :=
  filter (λ row, date_string (CoverageDate row) = date_string d) rows.

Definition shown_on (d : CalendarDate) (x : shown) : Prop := x.1.2 = Some (date_string d).
#[export] Instance shown_on_dec d x : Decision (shown_on d x). Proof. unfold shown_on. solve_decision. Defined.

Lemma candidate_source definition specification loadID rows s d : f_publication definition = DateAddressable →
  fixedStorageFor definition = Ok specification →
  shown_staged <$> load_staged (stagingTable specification) loadID s = shown_source specification definition <$> rows →
  shown_final <$> candidate s definition loadID d = shown_source specification definition <$> rows_on d rows.
Proof.
  intros Hp Hspec H. unfold candidate, rows_on. rewrite Hspec, <- list_fmap_compose.
  rewrite (filter_image (shown_source specification definition) _ (shown_on d)).
  2: { intros row. unfold shown_on, shown_source. rewrite Hp, bool_decide_true by done. cbn [fst snd]. split; [by intros ->|by intros [= E]]. }
  rewrite <- H. by rewrite <- (filter_image shown_staged (λ r, st_coverage r = Some (date_string d)) (shown_on d)).
Qed.

(** C1: a fixed report load from the source to the report: after [BeginLoad]
    froze a plan, whatever the interleaving of the workers with each other
    and with other transactions, if every member succeeded and [Promote]
    reports success, then for every date of the load's interval the report
    shows this load and exactly the rows the source returned for the date,
    in the order of members, requests and lines; other dates are left as they
    were. *)
Theorem fixed_load_publishes_source : ∀ (source : FincloudSource) definition specification types runID plan loadID s0 s1 results s2 now ownerID s3,
  fixed_ok s0 → fixedStorageFor definition = Ok specification → f_publication definition = DateAddressable →
  BeginLoad runID definition plan s0 = Ok (loadID, s1) →
  rtc (pool_step definition (stagingTable specification) loadID) (startMember definition types <$> plan_members plan, s1) (results, s2) →
  Forall succeeded results → Promote now runID ownerID definition loadID s2 = (Ok tt, s3) →
  Forall (λ d, is_Some (source_segments definition types d)) (plan_members plan) ∧
  ∃ from to, usable from = true ∧ usable to = true ∧ date_string from = date_string (fr_from (plan_range plan)) ∧
    date_string to = date_string (fr_to (plan_range plan)) ∧ date_days from <= date_days to ∧
    ∀ d, usable d = true →
      if bool_decide (date_days from <= date_days d <= date_days to) then
        (published s3 definition d).1 = Some loadID ∧
        shown_final <$> (published s3 definition d).2 =
          shown_source specification definition <$> rows_on d (load_source definition types (plan_members plan))
      else published s3 definition d = published s2 definition d.
Proof.
  intros source definition specification types runID plan loadID s0 s1 results s2 now ownerID s3 Hs0 Hspec Hp Hbegin Hpool Hall Hpromote.
  apply BeginLoad_Ok in Hbegin as ((load & Hl & Hpending & Hjob & Hlf & Hlt & Hd1 & Hd2) & Hkeys & Hplan & Hmem & Hst); [|done].
  assert (Hinv : pool_inv definition specification types load loadID (plan_members plan) (results, s2)).
  { pose proof (pool_inv_start definition specification types load loadID (plan_members plan) s1 Hl Hmem (Hst _)) as Hinv.
    revert Hinv. induction Hpool as [|p p1 p2 Hstep _ IH]; [done|]. intros Hinv. apply IH. by eapply pool_inv_preserved. }
  destruct (load_staged_source _ _ _ _ _ _ Hkeys _ _ Hinv Hall) as [Hsome Hstaged]. split; [done|]. destruct Hinv as [Hl2 _]. cbn [snd] in Hl2.
  apply Promote_cases in Hpromote as (specification' & Hspec' & H). rewrite Hspec in Hspec'. injection Hspec' as <-.
  destruct H as [[-> Hc]|H].
  { unfold committed in Hc. rewrite Hl2 in Hc. destruct (ingestion_runs _ !! _); [|done]. rewrite Hpending in Hc.
    rewrite !andb_true_iff, bool_decide_eq_true in Hc. by destruct Hc as [_ Hc%bool_decide_eq_true]. }
  apply promoteTransaction_dated in H as (load' & Hload & Hv & Hrun & Hnew & H); [|done]. rewrite Hl2 in Hload. injection Hload as <-.
  destruct (validate_dates _ _ Hv Hd1 Hd2) as (Hj & from & to & Hf & Ht & Elf & Elt & Hle).
  destruct H as [[Hpub _]|(Hcomplete & dates & Hdates & Hfin)]; [congruence|]. exists from, to.
  split_and!; [done|done|congruence|congruence|done|]. intros d Hd.
  rewrite Elf, Elt, load_dates_interval in Hdates by done. injection Hdates as <-.
  apply finish_fenced_Ok in Hfin as [_ (b & r & -> & _)].
  rewrite (published_promoted specification definition loadID load from to) by (done || by apply Hcomplete).
  case_bool_decide; [|done]. split; [done|]. by apply candidate_source.
Qed.

(** ** Witness: two days of the teller mutation report *)

Definition teller_record (moment : string) : list string :=
  (λ header, if (header =? "transactiondate")%string then moment else "x") <$> f_headers sample_teller.
#[local] Instance teller_source : FincloudSource := {|
  FetchJournalTransactionTypes := Ok []; FetchAccessibleLocations := Ok []; FetchAccountCodes := Ok [];
  DownloadReport _ _ := Ok (write_file sample_teller [teller_record "2026-08-13 09:05:59"; teller_record "2026-08-14 10:00:00"]) |}.

Definition pool_turn (p : list fixedMemberResult * fixed_db) : list fixedMemberResult * fixed_db :=
  match p.1 !! 0%nat with
  | Some (Working w) => let (m, s) := work_on sample_teller 1 w p.2 in (<[0%nat := m]> p.1, s)
  | _ => p
  end.
Lemma pool_turn_step p : rtc (pool_step sample_teller (stagingTable teller_storage) 1) p (pool_turn p).
Proof.
  unfold pool_turn. destruct p as [members s]. cbn [fst snd]. destruct (members !! 0%nat) as [[w| |]|] eqn:E; [|constructor..].
  destruct (work_on sample_teller 1 w s) as [m s'] eqn:Ew. apply rtc_once. by eapply pool_work.
Qed.

Definition teller_start : list fixedMemberResult * fixed_db := (startMember sample_teller [] <$> plan_members teller_plan, fixed_begun).
Definition teller_end : list fixedMemberResult * fixed_db := pool_turn (pool_turn teller_start).
Definition teller_shown : fixed_db := (Promote 100 1 sample_owner sample_teller 1 teller_end.2).2.
Definition succeeded_test (m : fixedMemberResult) : bool := match m with MemberSucceeded _ _ _ => true | _ => false end.
Lemma succeeded_tested l : forallb succeeded_test l = true → Forall succeeded l.
Proof. rewrite forallb_forall, Forall_forall. intros H m Hm. specialize (H m (proj1 (list_elem_of_In _ _) Hm)). by destruct m. Qed.

Lemma fixed_load_publishes_source_witness :
  is_ok (Promote 100 1 sample_owner sample_teller 1 teller_end.2).1 = true ∧ (published teller_shown sample_teller teller_day).1 = Some 1 ∧
  shown_final <$> (published teller_shown sample_teller teller_day).2 =
    shown_source teller_storage sample_teller <$> rows_on teller_day (load_source sample_teller [] (plan_members teller_plan)) ∧
  length (published teller_shown sample_teller teller_day).2 = 1%nat.
Proof.
  assert (Hok : (Promote 100 1 sample_owner sample_teller 1 teller_end.2).1 = Ok tt) by (vm_compute; reflexivity).
  assert (Hb : BeginLoad 1 sample_teller teller_plan fixed_start = Ok (1, fixed_begun)).
  { destruct (after_Ok (BeginLoad 1 sample_teller teller_plan) fixed_start) as [a H]; [vm_compute; reflexivity|].
    assert (E : match BeginLoad 1 sample_teller teller_plan fixed_start with Ok (i, _) => i | Err _ => 0 end = 1) by (vm_compute; reflexivity).
    rewrite H in E. rewrite H, E. reflexivity. }
  assert (Hpool : rtc (pool_step sample_teller (stagingTable teller_storage) 1) teller_start teller_end).
  { unfold teller_end. etrans; apply pool_turn_step. }
  assert (Hall : Forall succeeded teller_end.1) by (apply succeeded_tested; vm_compute; reflexivity).
  assert (Hp : Promote 100 1 sample_owner sample_teller 1 teller_end.2 = (Ok tt, teller_shown)).
  { rewrite <- Hok. unfold teller_shown. apply surjective_pairing. }
  split; [rewrite Hok; reflexivity|].
  destruct (fixed_load_publishes_source teller_source sample_teller teller_storage [] 1 teller_plan 1 fixed_start fixed_begun teller_end.1 teller_end.2
    100 sample_owner teller_shown fixed_start_ok teller_storage_Ok eq_refl Hb
    (eq_ind _ (λ p, rtc _ teller_start p) Hpool _ (surjective_pairing teller_end)) Hall Hp)
    as (_ & from & to & Hf & Ht & Ef & Et & _ & H).
  assert (from = teller_day) as -> by (apply (f_equal mustDate) in Ef; rewrite mustDate_string in Ef by exact Hf; exact Ef).
  assert (to = mkDate 2026 8 14) as -> by (apply (f_equal mustDate) in Et; rewrite mustDate_string in Et by exact Ht; exact Et).
  destruct (H teller_day eq_refl) as [H1 H2]. split; [exact H1|]. split; [exact H2|]. vm_compute. reflexivity.
Defined.
