(* ===== verification/SqlScan.v ===== *)
(** * Scanning report SQL (src/internal/reporting/scanner.go, readonly.go)

    The lexer that report templates, option queries and the read-only policy
    share: it finds the [:key] placeholders and the optional blocks [[...]]
    outside of strings, quoted identifiers and comments, and collects the
    tokens the policy looks at.  A turn of the scanner's loop is a function
    of the lexical state and the text that is left; what it found is an
    event that is then applied to the scan. *)

From S2P Require Import Prelude Catalog.

Open Scope Z_scope.

Definition ErrInvalid : error := Errorf "invalid report definition".

Record SQLMode := mkMode { ANSIQuotes : bool; NoBackslashEscapes : bool }.

(** [strings.Split(s, ",")] *)
Fixpoint split_comma (s : string) : list string :=
  match s with
  | "" => [""]
  | String c rest =>
      if (c =? ",")%char then "" :: split_comma rest
      else match split_comma rest with item :: items => String c item :: items | [] => [String c ""] end
  end.
Definition ParseSQLMode (value : string) : SQLMode :=
  foldl (λ mode item,
    if (trim_space item =? "ANSI_QUOTES")%string then mkMode true (NoBackslashEscapes mode)
    else if (trim_space item =? "NO_BACKSLASH_ESCAPES")%string then mkMode (ANSIQuotes mode) true
    else mode) (mkMode false false) (split_comma value).

(** ** Characters *)

Definition isIdentifierByte (c : ascii) : bool := is_lower c || is_upper c || is_digit c || (c =? "_")%char.
Definition isCommentWhitespace (c : ascii) : bool := (code c <=? 32)%N || (code c =? 127)%N.
Definition to_upper (c : ascii) : ascii := if is_lower c then byte (code c - 32) else c.
Definition single_quote : ascii := byte 39.
Definition double_quote : ascii := byte 34.
Definition backtick : ascii := byte 96.
Definition back_slash : ascii := byte 92.
Definition line_feed_char : ascii := byte 10.
Definition carriage_char : ascii := byte 13.

(** [string(character)] of a byte: its rune. *)
Definition rune_text (c : ascii) : string :=
  if (code c <? 128)%N then String c "" else string_of_codes [192 + code c / 64; 128 + code c mod 64]%N.

(** [strings.ToUpper] of a quoted name, up to runes that stay outside of
    ASCII: U+0131 and U+017F become "I" and "S"; the names it is compared
    with are ASCII. *)
Fixpoint upper_name (s : string) : string :=
  match s with
  | String c rest =>
      match rest with
      | String d rest' =>
          if (code c =? 196)%N && (code d =? 177)%N then String "I" (upper_name rest')
          else if (code c =? 197)%N && (code d =? 191)%N then String "S" (upper_name rest')
          else String (to_upper c) (upper_name rest)
      | "" => String (to_upper c) ""
      end
  | "" => ""
  end.

(** [parameterKeyPattern] *)
Definition parameterKeyPattern (s : string) : bool :=
  match s with String c rest => is_lower c && string_forallb ident_char rest | "" => false end.

(** ** Turns of the scanner *)

Inductive lex_state :=
  | normal | singleString | doubleString | doubleIdentifier (name : string) | backtickIdentifier (name : string)
  | lineComment | blockComment.

Inductive event :=
  | EvNone
  | EvSQL                            (* SQL that is no token *)
  | EvOpen | EvClose                 (* [[ and ]] *)
  | EvToken (text : string)
  | EvAssign                         (* := *)
  | EvPlaceholder (key : string)
  | EvName (name : string)           (* the end of a quoted identifier *)
  | EvComment (executable : bool).

(** What a turn found, the next state, the text it read and what is left. *)
Record turn := mkTurn { t_event : event; t_state : lex_state; t_text : string; t_rest : string }.

Definition head_is (x : ascii) (s : string) : bool := match s with String c _ => (c =? x)%char | "" => false end.
Definition tail (s : string) : string := match s with String _ rest => rest | "" => "" end.
Definition one (c : ascii) : string := String c "".
Definition two (c d : ascii) : string := String c (String d "").

(** The run of identifier bytes at the start, and the rest. *)
Fixpoint take_word (s : string) : string * string :=
  match s with
  | String c rest => if isIdentifierByte c then let (word, rest) := take_word rest in (String c word, rest) else ("", s)
  | "" => ("", "")
  end.

Definition lex_normal (mode : SQLMode) (c : ascii) (s : string) : turn :=
  if isIdentifierByte c then
    let (word, rest) := take_word s in mkTurn (EvToken (string_map to_upper (String c word))) normal (String c word) rest
  else if (c =? "[")%char && head_is "[" s then mkTurn EvOpen normal (two "[" "[") (tail s)
  else if (c =? "]")%char && head_is "]" s then mkTurn EvClose normal (two "]" "]") (tail s)
  else if (c =? single_quote)%char then mkTurn (EvToken "<literal>") singleString (one c) s
  else if (c =? double_quote)%char then
    mkTurn (EvToken "<quoted>") (if ANSIQuotes mode then doubleIdentifier "" else doubleString) (one c) s
  else if (c =? backtick)%char then mkTurn (EvToken "<quoted>") (backtickIdentifier "") (one c) s
  else if (c =? "#")%char then mkTurn EvNone lineComment (one c) s
  else if (c =? "-")%char then
    match s with
    | String d (String e rest) =>
        if (d =? "-")%char && isCommentWhitespace e then mkTurn EvNone lineComment (String c (two d e)) rest
        else mkTurn EvSQL normal (one c) s
    | _ => mkTurn EvSQL normal (one c) s
    end
  else if (c =? "/")%char then
    if head_is "*" s then
      let rest := tail s in
      mkTurn (EvComment (head_is "!" rest || head_is "M" rest && head_is "!" (tail rest))) blockComment (two c "*") rest
    else mkTurn EvSQL normal (one c) s
  else if (c =? ":")%char then
    if head_is "=" s then mkTurn EvAssign normal (two c "=") (tail s) else
    let (key, rest) := take_word s in
    if (key =? "")%string then mkTurn EvNone normal (one c) s else mkTurn (EvPlaceholder key) normal (String c key) rest
  else mkTurn (if isCommentWhitespace c then EvNone else EvToken (rune_text c)) normal (one c) s.

Definition lex_string (mode : SQLMode) (quote : ascii) (state : lex_state) (c : ascii) (s : string) : turn :=
  if (c =? quote)%char then
    if head_is quote s then mkTurn EvNone state (two c quote) (tail s) else mkTurn EvNone normal (one c) s
  else
    match s with
    | String d rest =>
        if (c =? back_slash)%char && negb (NoBackslashEscapes mode) then mkTurn EvNone state (two c d) rest
        else mkTurn EvNone state (one c) s
    | "" => mkTurn EvNone state (one c) s
    end.

(** [strings.ReplaceAll] of a doubled quote by one. *)
Fixpoint undouble (quote : ascii) (s : string) : string :=
  match s with
  | String c rest =>
      if (c =? quote)%char && head_is quote rest
      then match rest with String _ rest => String quote (undouble quote rest) | "" => "" end
      else String c (undouble quote rest)
  | "" => ""
  end.

Definition lex_identifier (quote : ascii) (name : string) (state : string → lex_state) (c : ascii) (s : string) : turn :=
  if (c =? quote)%char then
    if head_is quote s then mkTurn EvNone (state (name +:+ two c quote)) (two c quote) (tail s)
    else mkTurn (EvName (upper_name (undouble quote name))) normal (one c) s
  else mkTurn EvNone (state (name +:+ one c)) (one c) s.

(** One turn of the loop of [scanStatement], by its [switch state]. *)
Definition lexeme (mode : SQLMode) (state : lex_state) (c : ascii) (s : string) : turn :=
  match state with
  | normal => lex_normal mode c s
  | singleString => lex_string mode single_quote singleString c s
  | doubleString => lex_string mode double_quote doubleString c s
  | doubleIdentifier name => lex_identifier double_quote name doubleIdentifier c s
  | backtickIdentifier name => lex_identifier backtick name backtickIdentifier c s
  | lineComment => mkTurn EvNone (if (c =? line_feed_char)%char || (c =? carriage_char)%char then normal else lineComment) (one c) s
  | blockComment =>
      if (c =? "*")%char && head_is "/" s then mkTurn EvNone normal (two c "/") (tail s) else mkTurn EvNone blockComment (one c) s
  end.

(** ** The scan *)

Record Placeholder := mkPlaceholder { ph_key : string; ph_start : nat; ph_end : nat }.
Record optionalBlock := mkBlock {
  bl_start : nat; bl_content_start : nat; bl_content_end : nat; bl_end : nat; bl_placeholders : list Placeholder }.
(** A token, with the name [QuotedNames] holds for its position. *)
Record sql_token := mkToken { tok : string; quoted_name : option string }.
Record statementScan := mkScan {
  Placeholders : list Placeholder; OptionalBlocks : list optionalBlock; Tokens : list sql_token; ExecutableComment : bool }.
Record scanner := mkScanner {
  scan : statementScan; openBlock : option (nat * list Placeholder); blockHasSQL : bool }.

Definition add_token (text : string) (s : statementScan) : statementScan :=
  mkScan (Placeholders s) (OptionalBlocks s) (Tokens s ++ [mkToken text None]) (ExecutableComment s).
Fixpoint name_last (name : string) (tokens : list sql_token) : list sql_token :=
  match tokens with
  | [] => []
  | [t] => [mkToken (tok t) (Some name)]
  | t :: tokens => t :: name_last name tokens
  end.
Definition has_sql (sc : scanner) : bool := blockHasSQL sc || isSome (openBlock sc).

(** The effect of a turn that read the text from [index] to [after]. *)
Definition apply_event (index after : nat) (ev : event) (sc : scanner) : result scanner :=
  let s := scan sc in
  match ev with
  | EvNone => Ok sc
  | EvSQL => Ok (mkScanner s (openBlock sc) (has_sql sc))
  | EvOpen =>
      if isSome (openBlock sc) then Err (Errorf "nested optional SQL blocks are not supported")
      else Ok (mkScanner s (Some (index, [])) false)
  | EvClose =>
      match openBlock sc with
      | None => Err (Errorf "unmatched optional SQL block close")
      | Some (start, placeholders) =>
          if negb (blockHasSQL sc) then Err (Errorf "optional SQL block must contain SQL") else
          Ok (mkScanner (mkScan (Placeholders s)
                (OptionalBlocks s ++ [mkBlock start (start + 2) index after placeholders]) (Tokens s) (ExecutableComment s))
              None (blockHasSQL sc))
      end
  | EvToken text => Ok (mkScanner (add_token text s) (openBlock sc) (has_sql sc))
  | EvAssign => Ok (mkScanner (add_token ":=" s) (openBlock sc) (blockHasSQL sc))
  | EvPlaceholder key =>
      if negb (parameterKeyPattern key) then Err (Errorf "invalid placeholder") else
      let placeholder := mkPlaceholder key index after in
      let s := add_token "?" s in
      Ok (mkScanner (mkScan (Placeholders s ++ [placeholder]) (OptionalBlocks s) (Tokens s) (ExecutableComment s))
            (match openBlock sc with Some (start, l) => Some (start, l ++ [placeholder]) | None => None end) (has_sql sc))
  | EvName name =>
      Ok (mkScanner (mkScan (Placeholders s) (OptionalBlocks s) (name_last name (Tokens s)) (ExecutableComment s))
            (openBlock sc) (blockHasSQL sc))
  | EvComment executable =>
      Ok (mkScanner (mkScan (Placeholders s) (OptionalBlocks s) (Tokens s) (ExecutableComment s || executable))
            (openBlock sc) (blockHasSQL sc))
  end.

Fixpoint scan_loop (fuel : nat) (mode : SQLMode) (state : lex_state) (index : nat) (s : string) (sc : scanner)
    : option (result (lex_state * scanner)) :=
  match s with
  | "" => Some (Ok (state, sc))
  | String c rest =>
      match fuel with
      | O => None
      | S fuel =>
          let t := lexeme mode state c rest in
          let after := (index + String.length (t_text t))%nat in
          match apply_event index after (t_event t) sc with
          | Err e => Some (Err e)
          | Ok sc => scan_loop fuel mode (t_state t) after (t_rest t) sc
          end
      end
  end.

Definition ended (state : lex_state) : bool := match state with normal | lineComment => true | _ => false end.
Definition no_scan : scanner := mkScanner (mkScan [] [] [] false) None false.

Definition scanStatement (statement : string) (mode : SQLMode) : result statementScan :=
  match scan_loop (String.length statement) mode normal 0 statement no_scan with
  | None => Err (Errorf "scan did not end")
  | Some (Err e) => Err e
  | Some (Ok (state, sc)) =>
      if negb (ended state) then Err (Errorf "unterminated SQL lexical context") else
      if isSome (openBlock sc) then Err (Errorf "unclosed optional SQL block") else Ok (scan sc)
  end.
Definition ScanPlaceholders (statement : string) (mode : SQLMode) : result (list Placeholder) :=
  let? s := scanStatement statement mode in Ok (Placeholders s).

(** ** The read-only policy *)

Definition next (tokens : list sql_token) : string := match tokens with t :: _ => tok t | [] => "" end.
Definition function_name (t : sql_token) : string := default (tok t) (quoted_name t).

(** What is refused at a token, given the tokens after it.  The tokens hold
    no blanks, so [strings.Join] of four is one clause only for these. *)
Definition forbidden (t : sql_token) (rest : list sql_token) : bool :=
  (tok t =? "FOR")%string && ((next rest =? "UPDATE")%string || (next rest =? "SHARE")%string) ||
  (tok t =? "LOCK")%string && bool_decide (tok <$> take 3 rest = ["IN"; "SHARE"; "MODE"]) ||
  ((function_name t =? "GET_LOCK")%string || (function_name t =? "RELEASE_LOCK")%string ||
   (function_name t =? "RELEASE_ALL_LOCKS")%string) && (next rest =? "(")%string ||
  (function_name t =? "LAST_INSERT_ID")%string && (next rest =? "(")%string &&
  match rest with _ :: argument :: _ => negb (tok argument =? ")")%string | _ => false end.

(** The loop of [ValidateReadOnlyStatement]: the depth at the end. *)
Fixpoint policy (depth : Z) (tokens : list sql_token) : option Z :=
  match tokens with
  | [] => Some depth
  | t :: rest =>
      if (tok t =? ";")%string || (tok t =? ":=")%string || (tok t =? "INTO")%string then None else
      let depth := if (tok t =? "(")%string then depth + 1 else if (tok t =? ")")%string then depth - 1 else depth in
      if depth <? 0 then None else
      if forbidden t rest then None else policy depth rest
  end.

(** [closingParen]: the tokens up to the parenthesis that closes [depth], and
    those after it. *)
Fixpoint closingParen (depth : Z) (tokens : list sql_token) : option (list sql_token * list sql_token) :=
  match tokens with
  | [] => None
  | t :: rest =>
      if (tok t =? ")")%string && (depth =? 1) then Some ([], rest) else
      let depth := if (tok t =? "(")%string then depth + 1 else if (tok t =? ")")%string then depth - 1 else depth in
      match closingParen depth rest with Some (inside, after) => Some (t :: inside, after) | None => None end
  end.

Definition cte_name (t : sql_token) : bool :=
  (tok t =? "<quoted>")%string || parameterKeyPattern (string_map to_lower (tok t)).
(** The column names of a common table expression, if any. *)
Definition skip_columns (tokens : list sql_token) : option (list sql_token) :=
  if (next tokens =? "(")%string then snd <$> closingParen 1 (drop 1 tokens) else Some tokens.
(** [AS (] and the query in parentheses. *)
Definition cte_body (tokens : list sql_token) : option (list sql_token * list sql_token) :=
  if (next tokens =? "AS")%string && (next (drop 1 tokens) =? "(")%string then closingParen 1 (drop 2 tokens) else None.

Fixpoint readOnlyQuery (fuel : nat) (tokens : list sql_token) : bool :=
  match fuel, tokens with
  | S fuel, t :: rest =>
      if (tok t =? "SELECT")%string then true else
      if negb (tok t =? "WITH")%string then false else
      cteLoop fuel (if (next rest =? "RECURSIVE")%string then drop 1 rest else rest)
  | _, _ => false
  end
with cteLoop (fuel : nat) (tokens : list sql_token) : bool :=
  match fuel, tokens with
  | S fuel, t :: rest =>
      cte_name t &&
      match skip_columns rest with
      | None => false
      | Some rest =>
          match cte_body rest with
          | None => false
          | Some (inside, after) =>
              readOnlyQuery fuel inside &&
              if (next after =? ",")%string then cteLoop fuel (drop 1 after) else (next after =? "SELECT")%string
          end
      end
  | _, _ => false
  end.

Fixpoint drop_semicolon (tokens : list sql_token) : list sql_token :=
  match tokens with
  | [] => []
  | [t] => if (tok t =? ";")%string then [] else [t]
  | t :: tokens => t :: drop_semicolon tokens
  end.
Definition read_only_tokens (tokens : list sql_token) : bool :=
  match policy 0 (drop_semicolon tokens) with
  | Some 0 => readOnlyQuery (S (length (drop_semicolon tokens))) (drop_semicolon tokens)
  | _ => false
  end.

Definition ValidateReadOnlyStatement (statement : string) (mode : SQLMode) : result unit :=
  match scanStatement statement mode with
  | Err _ => Err ErrInvalid
  | Ok s =>
      if ExecutableComment s || Nat.eqb (length (Tokens s)) 0 || negb (read_only_tokens (Tokens s)) then Err ErrInvalid else Ok tt
  end.

(** ** Every turn reads the text it reports *)

Lemma take_word_app s : (take_word s).1 +:+ (take_word s).2 = s.
Proof.
  induction s as [|c s IH]; [done|]. cbn [take_word]. destruct (isIdentifierByte c); [|done].
  destruct (take_word s) as [word rest]. cbn [fst snd] in *. by rewrite <- IH.
Qed.

Lemma head_is_tail x s : head_is x s = true → String x (tail s) = s.
Proof. destruct s as [|c s]; [done|]. cbn. intros H%Ascii.eqb_eq. by subst. Qed.

(** A turn is a split of the text, and never empty. *)
Definition reads (t : turn) (c : ascii) (s : string) : Prop :=
  t_text t +:+ t_rest t = String c s ∧ (1 <= String.length (t_text t))%nat.

Lemma reads_one ev st c s : reads (mkTurn ev st (one c) s) c s.
Proof. split; [done|cbn; lia]. Qed.
Lemma reads_two ev st c d s : head_is d s = true → reads (mkTurn ev st (two c d) (tail s)) c s.
Proof. intros H%head_is_tail. split; [by rewrite <- H|cbn; lia]. Qed.

Lemma lexeme_reads mode state c s : reads (lexeme mode state c s) c s.
Proof.
  assert (Hstr : ∀ q st, reads (lex_string mode q st c s) c s).
  { intros q st. unfold lex_string. destruct (c =? q)%char.
    - destruct (head_is q s) eqn:E; [by apply reads_two|apply reads_one].
    - destruct s as [|d s]; [apply reads_one|]. destruct (_ && _); [|apply reads_one]. split; [done|cbn; lia]. }
  assert (Hid : ∀ q name st, reads (lex_identifier q name st c s) c s).
  { intros q name st. unfold lex_identifier. destruct (c =? q)%char; [|apply reads_one].
    destruct (head_is q s) eqn:E; [by apply reads_two|apply reads_one]. }
  destruct state; cbn [lexeme]; try apply Hstr; try apply Hid; try apply reads_one.
  - unfold lex_normal. destruct (isIdentifierByte c).
    { pose proof (take_word_app s) as H. destruct (take_word s) as [word rest]. cbn [fst snd] in H. split; [by rewrite <- H|cbn; lia]. }
    destruct (_ && _) eqn:E1; [apply andb_true_iff in E1 as [E1%Ascii.eqb_eq E]; subst; by apply reads_two|].
    destruct ((c =? "]")%char && _) eqn:E2; [apply andb_true_iff in E2 as [E2%Ascii.eqb_eq E]; subst; by apply reads_two|].
    destruct (c =? single_quote)%char; [apply reads_one|]. destruct (c =? double_quote)%char; [apply reads_one|].
    destruct (c =? backtick)%char; [apply reads_one|]. destruct (c =? "#")%char; [apply reads_one|].
    destruct (c =? "-")%char.
    { destruct s as [|d [|e s]]; [apply reads_one..|]. destruct ((d =? "-")%char && _); [|apply reads_one]. split; [done|cbn; lia]. }
    destruct (c =? "/")%char; [destruct (head_is "*" s) eqn:E; [by apply reads_two|apply reads_one]|].
    destruct (c =? ":")%char; [|apply reads_one]. destruct (head_is "=" s) eqn:E; [by apply reads_two|].
    pose proof (take_word_app s) as H. destruct (take_word s) as [word rest]. destruct (word =? "")%string; [apply reads_one|].
    cbn [fst snd] in H. split; [by rewrite <- H|cbn; lia].
  - destruct (c =? "*")%char eqn:E1; cbn [andb]; [|apply reads_one]. destruct (head_is "/" s) eqn:E; [by apply reads_two|apply reads_one].
Qed.

(** The fuel of [scanStatement] is enough. *)
Lemma scan_loop_ends mode fuel : ∀ state index s sc, (String.length s <= fuel)%nat → is_Some (scan_loop fuel mode state index s sc).
Proof.
  induction fuel as [|fuel IH]; intros state index s sc Hl; destruct s as [|c s]; cbn [scan_loop]; try by eexists.
  { cbn in Hl. lia. }
  destruct (apply_event _ _ _ sc); [|by eexists]. apply IH. destruct (lexeme_reads mode state c s) as [H1 H2].
  apply (f_equal String.length) in H1. rewrite string_length_app in H1. cbn in H1, Hl. lia.
Qed.
Lemma scan_loop_error mode fuel : ∀ state index s sc, scan_loop fuel mode state index s sc ≠ Some (Err (Errorf "scan did not end")).
Proof.
  induction fuel as [|fuel IH]; intros state index s sc; destruct s as [|c s]; cbn [scan_loop]; try discriminate.
  destruct (apply_event _ _ _ sc) as [sc'|e] eqn:E; [apply IH|]. intros [= ->]. unfold apply_event in E. repeat case_match; done.
Qed.
Lemma scanStatement_ends statement mode : scanStatement statement mode ≠ Err (Errorf "scan did not end").
Proof.
  unfold scanStatement. destruct (scan_loop_ends mode (String.length statement) normal 0 statement no_scan) as [r E]; [lia|]. rewrite E.
  destruct r as [[st sc]|e].
  - destruct (negb _); [done|]. by destruct (isSome _).
  - intros [= ->]. by apply scan_loop_error in E.
Qed.

(** ** Line comments *)

Definition line_break (c : ascii) : bool := (c =? line_feed_char)%char || (c =? carriage_char)%char.
Definition one_line (s : string) : bool := string_forallb (λ c, negb (line_break c)) s.

Lemma scan_line_comment mode s : ∀ fuel index sc, (String.length s <= fuel)%nat → one_line s = true →
  scan_loop fuel mode lineComment index s sc = Some (Ok (lineComment, sc)).
Proof.
  induction s as [|c s IH]; intros fuel index sc Hl H; [by destruct fuel|]. cbn [one_line string_forallb] in H. apply andb_true_iff in H as [Hc H].
  destruct fuel as [|fuel]; [cbn in Hl; lia|]. cbn [scan_loop lexeme t_event t_state t_rest apply_event]. unfold line_break in Hc.
  apply negb_true_iff in Hc. rewrite Hc. apply IH; [cbn in Hl; lia|done].
Qed.

Definition comment_break : string := "SELECT 1 --" +:+ one line_feed_char.

Lemma scan_comment_break mode x : one_line x = true →
  scanStatement (comment_break +:+ x) mode = Ok (mkScan [] [] [mkToken "SELECT" None; mkToken "1" None] false).
Proof.
  intros Hx. unfold scanStatement.
  change (comment_break +:+ x) with ("SELECT 1 --" +:+ String line_feed_char x). rewrite string_length_app.
  change (String.length "SELECT 1 --" + String.length (String line_feed_char x))%nat with (5 + (7 + String.length x))%nat.
  assert (E : scan_loop (5 + (7 + String.length x)) mode normal 0 ("SELECT 1 --" +:+ String line_feed_char x) no_scan =
    scan_loop (7 + String.length x) mode lineComment 12 x
      (mkScanner (mkScan [] [] [mkToken "SELECT" None; mkToken "1" None] false) None false)) by reflexivity.
  rewrite E, scan_line_comment by (lia || done). done.
Qed.

(** C40: the scanner reads the character after "--" as part of the comment
    marker, also when it is the line feed that ends the comment for the
    server: whatever one line of SQL follows "--" and a line feed, the
    read-only policy does not see it and accepts the statement. *)
Theorem read_only_comment_gap : ∀ mode x, one_line x = true → ValidateReadOnlyStatement (comment_break +:+ x) mode = Ok tt.
Proof. intros mode x Hx. unfold ValidateReadOnlyStatement. by rewrite scan_comment_break. Qed.

Lemma read_only_comment_gap_witness :
  ValidateReadOnlyStatement (comment_break +:+ "INTO OUTFILE '/tmp/rows'") (mkMode false false) = Ok tt ∧
  ValidateReadOnlyStatement ("SELECT 1 " +:+ "INTO OUTFILE '/tmp/rows'") (mkMode false false) = Err ErrInvalid.
Proof. split; [apply (read_only_comment_gap (mkMode false false) "INTO OUTFILE '/tmp/rows'"); reflexivity|vm_compute; reflexivity]. Defined.

(** ** The recursion of [readOnlyQuery] ends *)

Lemma closingParen_length tokens : ∀ depth inside after, closingParen depth tokens = Some (inside, after) →
  (length inside + S (length after) = length tokens)%nat.
Proof.
  induction tokens as [|t tokens IH]; intros depth inside after H; cbn [closingParen] in H; [done|].
  destruct (_ && _); [by injection H as <- <-|].
  destruct (closingParen _ tokens) as [[i a]|] eqn:E; [|done]. injection H as <- <-. apply IH in E. cbn. lia.
Qed.
Lemma skip_columns_length tokens rest : skip_columns tokens = Some rest → (length rest <= length tokens)%nat.
Proof.
  unfold skip_columns. destruct (_ =? _)%string; [|by intros [= ->]]. destruct (closingParen 1 (drop 1 tokens)) as [[i a]|] eqn:E; [|done].
  intros [= <-]. apply closingParen_length in E. rewrite length_drop in E. lia.
Qed.
Lemma cte_body_length tokens inside after : cte_body tokens = Some (inside, after) →
  (length inside < length tokens ∧ length after < length tokens)%nat.
Proof.
  unfold cte_body. destruct (_ && _); [|done]. intros H. apply closingParen_length in H. rewrite length_drop in H. lia.
Qed.

(** More fuel than tokens changes nothing. *)
Lemma readOnlyQuery_fuel n : ∀ fuel fuel' tokens, (length tokens < n)%nat → (length tokens < fuel)%nat → (length tokens < fuel')%nat →
  readOnlyQuery fuel tokens = readOnlyQuery fuel' tokens ∧ cteLoop fuel tokens = cteLoop fuel' tokens.
Proof.
  induction n as [|n IH]; intros fuel fuel' tokens Hn Hf Hf'; [lia|].
  destruct fuel as [|fuel], fuel' as [|fuel']; [lia..|]. destruct tokens as [|t rest]; [done|]. cbn [readOnlyQuery cteLoop length] in *. split.
  - destruct (tok t =? "SELECT")%string; [done|]. destruct (negb _); [done|].
    assert (Hl : (length (if (next rest =? "RECURSIVE")%string then drop 1 rest else rest) <= length rest)%nat)
      by (destruct (_ =? _)%string; rewrite ?length_drop; lia). apply IH; lia.
  - destruct (cte_name t); [|done]. cbn [andb]. destruct (skip_columns rest) as [rest'|] eqn:E1; [|done]. apply skip_columns_length in E1.
    destruct (cte_body rest') as [[inside after]|] eqn:E2; [|done]. apply cte_body_length in E2 as [H1 H2].
    rewrite (proj1 (IH fuel fuel' inside ltac:(lia) ltac:(lia) ltac:(lia))). f_equal. destruct (_ =? _)%string; [|done].
    apply IH; rewrite length_drop; lia.
Qed.
