(* ===== verification/SqlMarks.v ===== *)
(** * Placeholders become question marks

    What replacing the placeholders of a statement by question marks does to
    its lexical structure: nothing.  [render] is the text with every
    placeholder replaced, found by following the scanner's turns; scanning
    it again gives the same tokens, a list placeholder widened to several
    marks ([widened]), and the read-only policy cannot tell the difference. *)

From S2P Require Import Prelude Catalog SqlScan.

Open Scope Z_scope.

(** [n + 1] marks with commas between them. *)
Definition more_text (n : nat) : string := string_concat (replicate n ",?").
Definition question (n : nat) : string := "?" +:+ more_text n.

Definition mark : sql_token := mkToken "?" None.
Definition comma : sql_token := mkToken "," None.
Fixpoint more (n : nat) : list sql_token := match n with O => [] | S n => comma :: mark :: more n end.

(** The text with every placeholder replaced. *)
Fixpoint render (fuel : nat) (width : string → nat) (mode : SQLMode) (state : lex_state) (s : string) : string :=
  match s, fuel with
  | String c rest, S fuel =>
      let t := lexeme mode state c rest in
      match t_event t with EvPlaceholder key => question (width key) | _ => t_text t end +:+ render fuel width mode (t_state t) (t_rest t)
  | _, _ => ""
  end.

(** Some marks of the first list are several in the second. *)
Inductive widened : list sql_token → list sql_token → Prop :=
  | w_nil : widened [] []
  | w_cons t l l' : widened l l' → widened (t :: l) (t :: l')
  | w_mark n l l' : widened l l' → widened (mark :: l) (mark :: more n ++ l').

Definition marks (l : list sql_token) : Z := Z.of_nat (length (filter (λ t, tok t = "?") l)).

Lemma widened_app a a' b b' : widened a a' → widened b b' → widened (a ++ b) (a' ++ b').
Proof.
  induction 1 as [|t l l' _ IH|n l l' _ IH]; intros Hb; cbn [app]; [done|apply w_cons; auto|]. rewrite <- app_assoc. apply w_mark. auto.
Qed.
Lemma widened_refl l : widened l l.
Proof. induction l; by constructor. Qed.
Lemma marks_app a b : marks (a ++ b) = marks a + marks b.
Proof. unfold marks. rewrite filter_app, length_app. lia. Qed.
Lemma marks_more n : marks (more n) = Z.of_nat n.
Proof.
  induction n as [|n IH]; [done|]. change (more (S n)) with ([comma; mark] ++ more n). rewrite marks_app, IH.
  change (marks [comma; mark]) with 1. lia.
Qed.

(** ** Texts that differ in placeholders ahead *)

(** Equal up to a placeholder, where the other text has a mark. *)
Fixpoint similar (s q : string) : Prop :=
  match s, q with
  | "", "" => True
  | String c s, String d q => (c = d ∧ similar s q) ∨ (c = ":"%char ∧ d = "?"%char)
  | _, _ => False
  end.

Lemma similar_head s q x : similar s q → x ≠ ":"%char → x ≠ "?"%char → head_is x s = head_is x q.
Proof.
  destruct s as [|c s], q as [|d q]; try done. intros [[-> _]|[-> ->]] H1 H2; [done|]. unfold head_is.
  rewrite (proj2 (Ascii.eqb_neq ":" x)), (proj2 (Ascii.eqb_neq "?" x)); congruence.
Qed.
Lemma similar_tail s q x : similar s q → head_is x s = true → x ≠ ":"%char → similar (tail s) (tail q).
Proof.
  destruct s as [|c s], q as [|d q]; try done. intros [[-> H]|[-> ->]]; [done|]. unfold head_is. intros H%Ascii.eqb_eq Hx. congruence.
Qed.
Lemma similar_app t s q : similar s q → similar (t +:+ s) (t +:+ q).
Proof. intros H. induction t as [|c t IH]; [done|]. left. by split. Qed.
Lemma similar_nil q : similar "" q → q = "".
Proof. by destruct q. Qed.

Lemma take_word_head s : match (take_word s).2 with String c _ => isIdentifierByte c = false | "" => True end.
Proof.
  induction s as [|c s IH]; [done|]. cbn [take_word]. destruct (isIdentifierByte c) eqn:E; [|done].
  by destruct (take_word s) as [word rest].
Qed.
Lemma take_word_none q : match q with String c _ => isIdentifierByte c = false | "" => True end → take_word q = ("", q).
Proof. destruct q as [|c q]; [done|]. cbn [take_word]. by intros ->. Qed.
Lemma similar_word s word rest q : take_word s = (word, rest) → similar rest q → take_word (word +:+ q) = (word, q).
Proof.
  revert word. induction s as [|c s IH]; intros word H Hq; cbn [take_word] in H.
  { injection H as <- <-. by destruct q. }
  destruct (isIdentifierByte c) eqn:E.
  - destruct (take_word s) as [w r] eqn:Ew. injection H as <- <-. rewrite string_app_cons. cbn [take_word]. rewrite E.
    by rewrite (IH w eq_refl Hq).
  - injection H as <- <-. rewrite string_app_nil. apply take_word_none. destruct q as [|d q]; [done|].
    destruct Hq as [[-> _]|[_ ->]]; [done|reflexivity].
Qed.

(** ** A turn reads the same from a similar text *)

Definition same_turn (mode : SQLMode) (state : lex_state) (c : ascii) (t : turn) (q : string) : Prop :=
  lexeme mode state c (tail (t_text t) +:+ q) = mkTurn (t_event t) (t_state t) (t_text t) q.

Lemma string_turn mode quote state c s q : quote ≠ ":"%char → quote ≠ "?"%char →
  similar (t_rest (lex_string mode quote state c s)) q →
  lex_string mode quote state c (tail (t_text (lex_string mode quote state c s)) +:+ q) =
    mkTurn (t_event (lex_string mode quote state c s)) (t_state (lex_string mode quote state c s)) (t_text (lex_string mode quote state c s)) q.
Proof.
  intros H1 H2. unfold lex_string. destruct (c =? quote)%char eqn:E.
  - destruct (head_is quote s) eqn:Eh; intros H; cbn [t_text t_rest t_event t_state tail one two] in *.
    + change (String quote "" +:+ q) with (String quote q). cbn [head_is tail]. by rewrite Ascii.eqb_refl.
    + rewrite string_app_nil. by rewrite <- (similar_head _ _ _ H), Eh.
  - destruct s as [|d s].
    { intros ->%similar_nil. reflexivity. }
    destruct (_ && _) eqn:Eb; intros H; cbn [t_text t_rest t_event t_state tail one two] in *.
    + change (String d "" +:+ q) with (String d q). done.
    + rewrite string_app_nil. by destruct q.
Qed.

Lemma identifier_turn quote name state c s q : quote ≠ ":"%char → quote ≠ "?"%char →
  similar (t_rest (lex_identifier quote name state c s)) q →
  lex_identifier quote name state c (tail (t_text (lex_identifier quote name state c s)) +:+ q) =
    mkTurn (t_event (lex_identifier quote name state c s)) (t_state (lex_identifier quote name state c s))
      (t_text (lex_identifier quote name state c s)) q.
Proof.
  intros H1 H2. unfold lex_identifier. destruct (c =? quote)%char eqn:E; [|intros _; reflexivity].
  destruct (head_is quote s) eqn:Eh; intros H; cbn [t_text t_rest t_event t_state tail one two] in *.
  - change (String quote "" +:+ q) with (String quote q). cbn [head_is tail]. by rewrite Ascii.eqb_refl.
  - rewrite string_app_nil. by rewrite <- (similar_head _ _ _ H), Eh.
Qed.

(** Whether a comment marker goes on. *)
Definition comment_marker (s : string) : bool :=
  match s with String d (String e _) => (d =? "-")%char && isCommentWhitespace e | _ => false end.
Lemma comment_marker_similar s q : similar s q → comment_marker s = comment_marker q.
Proof.
  destruct s as [|d [|e s]], q as [|d' [|e' q]]; try done; cbn [similar].
  - intros [[-> []]|[-> ->]]. done.
  - intros [[-> []]|[-> ->]]. done.
  - intros [[-> [[-> _]|[-> ->]]]|[-> ->]]; [done| |done]. cbn [comment_marker]. by destruct (d' =? "-")%char.
Qed.
Lemma comment_marker_none c s : comment_marker s = false →
  match s with
  | String d (String e rest) =>
      if (d =? "-")%char && isCommentWhitespace e then mkTurn EvNone lineComment (String c (two d e)) rest else mkTurn EvSQL normal (one c) s
  | _ => mkTurn EvSQL normal (one c) s
  end = mkTurn EvSQL normal (one c) s.
Proof. destruct s as [|d [|e s]]; [done..|]. cbn [comment_marker]. by intros ->. Qed.

(** A turn of one character. *)
Ltac single_turn Hopen :=
  let H := fresh "H" in intros H; cbn [t_text t_rest t_event t_state tail one] in *; rewrite string_app_nil;
  destruct (Hopen H) as [-> ->].

Lemma normal_turn mode c s q : (∀ key, t_event (lex_normal mode c s) ≠ EvPlaceholder key) →
  similar (t_rest (lex_normal mode c s)) q → same_turn mode normal c (lex_normal mode c s) q.
Proof.
  unfold same_turn. cbn [lexeme]. unfold lex_normal. intros Hev. destruct (isIdentifierByte c) eqn:Ei.
  { destruct (take_word s) as [word rest] eqn:Ew. cbn [t_text t_rest t_event t_state tail] in *. intros H.
    by rewrite (similar_word _ _ _ _ Ew H). }
  destruct ((c =? "[")%char && head_is "[" s) eqn:E1.
  { intros _. apply andb_true_iff in E1 as [E1 _]. rewrite E1. reflexivity. }
  destruct ((c =? "]")%char && head_is "]" s) eqn:E2.
  { intros _. apply andb_true_iff in E2 as [E2%Ascii.eqb_eq _]. rewrite E2. reflexivity. }
  assert (Hopen : similar s q → (c =? "[")%char && head_is "[" q = false ∧ (c =? "]")%char && head_is "]" q = false).
  { intros H. by rewrite <- !(similar_head _ _ _ H), E1, E2. }
  destruct (c =? single_quote)%char; [single_turn Hopen; done|]. destruct (c =? double_quote)%char; [single_turn Hopen; done|].
  destruct (c =? backtick)%char; [single_turn Hopen; done|]. destruct (c =? "#")%char; [single_turn Hopen; done|].
  destruct (c =? "-")%char.
  { destruct (comment_marker s) eqn:Em.
    - destruct s as [|d [|e s]]; [done..|]. cbn [comment_marker] in Em. rewrite Em. intros _. cbn [t_text t_event t_state tail].
      change (two d e +:+ q) with (String d (String e q)). cbv iota. rewrite Em.
      apply andb_true_iff in Em as [->%Ascii.eqb_eq _]. change (head_is "[" (String "-" (String e q))) with false.
      change (head_is "]" (String "-" (String e q))) with false. by rewrite !andb_false_r.
    - rewrite (comment_marker_none c s Em). single_turn Hopen. apply comment_marker_none. by rewrite <- (comment_marker_similar s q). }
  destruct (c =? "/")%char eqn:Es.
  { destruct (head_is "*" s) eqn:Eh.
    - intros H. cbn [t_text t_rest t_event t_state tail two one] in *. change (String "*" "" +:+ q) with (String "*" q).
      apply Ascii.eqb_eq in Es. subst c. cbn [head_is tail]. f_equal. f_equal. rewrite <- (similar_head _ _ "!" H) by done. f_equal.
      rewrite <- (similar_head _ _ "M" H) by done. destruct (head_is "M" (tail s)) eqn:E; [|done]. cbn [andb].
      by rewrite (similar_head _ _ "!" (similar_tail _ _ _ H E ltac:(done))).
    - single_turn Hopen. by rewrite <- (similar_head _ _ "*" H), Eh. }
  destruct (c =? ":")%char eqn:Ec.
  { destruct (head_is "=" s) eqn:Eh.
    - intros H. cbn [t_text t_rest t_event t_state tail two one] in *. apply Ascii.eqb_eq in Ec. subst c. reflexivity.
    - destruct (take_word s) as [key rest] eqn:Ew. destruct (key =? "")%string eqn:Ek; [|by destruct (Hev key)].
      apply String.eqb_eq in Ek. subst key. single_turn Hopen. rewrite <- (similar_head _ _ "=" H), Eh by done.
      assert (rest = s) as -> by (pose proof (take_word_app s) as E; rewrite Ew in E; done).
      pose proof (similar_word _ _ _ _ Ew H) as E. rewrite string_app_nil in E. by rewrite E. }
  single_turn Hopen. done.
Qed.

Lemma lexeme_similar mode state c s q : (∀ key, t_event (lexeme mode state c s) ≠ EvPlaceholder key) →
  similar (t_rest (lexeme mode state c s)) q → same_turn mode state c (lexeme mode state c s) q.
Proof.
  destruct state; unfold same_turn; cbn [lexeme]; intros Hev H.
  - by apply normal_turn.
  - by apply string_turn.
  - by apply string_turn.
  - by apply identifier_turn.
  - by apply identifier_turn.
  - reflexivity.
  - destruct (c =? "*")%char eqn:E; cbn [andb] in *; [|reflexivity]. destruct (head_is "/" s) eqn:Eh; cbn [t_text t_rest t_event t_state tail two one] in *.
    + reflexivity.
    + rewrite string_app_nil. by rewrite <- (similar_head _ _ "/" H), Eh.
Qed.

(** ** Scanning what was rendered *)

Lemma placeholder_turn mode state c s key : t_event (lexeme mode state c s) = EvPlaceholder key →
  state = normal ∧ c = ":"%char ∧ t_state (lexeme mode state c s) = normal.
Proof.
  destruct state; cbn [lexeme]; unfold lex_string, lex_identifier; try (repeat case_match; done).
  unfold lex_normal. repeat case_match; try done. intros _. split; [done|]. split; [|done]. by apply Ascii.eqb_eq.
Qed.

Definition in_identifier (state : lex_state) : bool := match state with doubleIdentifier _ | backtickIdentifier _ => true | _ => false end.

Lemma render_similar fuel width mode : ∀ state s, (String.length s <= fuel)%nat → similar s (render fuel width mode state s).
Proof.
  induction fuel as [|fuel IH]; intros state s Hl; (destruct s as [|c s]; [done|]); [cbn in Hl; lia|]. cbn [render].
  destruct (lexeme_reads mode state c s) as [H1 H2]. assert (Hrest : (String.length (t_rest (lexeme mode state c s)) <= fuel)%nat).
  { apply (f_equal String.length) in H1. rewrite string_length_app in H1. cbn in H1, Hl. lia. }
  specialize (IH (t_state (lexeme mode state c s)) _ Hrest).
  destruct (t_event (lexeme mode state c s)) eqn:E; try (rewrite <- H1 at 1; by apply similar_app).
  apply placeholder_turn in E as (_ & -> & _). by right.
Qed.

(** The tokens of the rendered text, while an identifier is being read or
    not. *)
Definition tokens_rel (state : lex_state) (l l' : list sql_token) : Prop :=
  if in_identifier state then ∃ a a' t, l = a ++ [t] ∧ l' = a' ++ [t] ∧ widened a a' else widened l l'.

Definition extra (width : string → nat) (placeholders : list Placeholder) : Z :=
  foldr (λ p n, Z.of_nat (width (ph_key p)) + n) 0 placeholders.

Record rendered (width : string → nat) (state : lex_state) (sc sc' : scanner) : Prop := {
  rd_tokens : tokens_rel state (Tokens (scan sc)) (Tokens (scan sc'));
  rd_marks : marks (Tokens (scan sc')) = marks (Tokens (scan sc)) + extra width (Placeholders (scan sc));
  rd_none : Placeholders (scan sc') = [];
  rd_executable : ExecutableComment (scan sc') = ExecutableComment (scan sc);
  rd_open : isSome (openBlock sc') = isSome (openBlock sc);
  rd_sql : blockHasSQL sc' = blockHasSQL sc }.

Lemma name_last_app name a t : name_last name (a ++ [t]) = a ++ [mkToken (tok t) (Some name)].
Proof. induction a as [|x a IH]; [done|]. cbn [app name_last]. destruct (a ++ [t]) eqn:E; [by destruct a|]. by rewrite IH. Qed.
Lemma marks_same_text a t t' : tok t = tok t' → marks (a ++ [t]) = marks (a ++ [t']).
Proof. intros H. rewrite !marks_app. unfold marks. rewrite !filter_cons, !filter_nil, H. by destruct (decide _). Qed.
Lemma tokens_rel_widened state l l' : tokens_rel state l l' → widened l l'.
Proof. unfold tokens_rel. destruct (in_identifier state); [|done]. intros (a & a' & t & -> & -> & H). apply widened_app; [done|apply widened_refl]. Qed.

(** Neither side is at the start or the end of an identifier. *)
Definition turn_keeps (state : lex_state) (t : turn) : Prop :=
  in_identifier (t_state t) = in_identifier state ∨ in_identifier state = false ∧ in_identifier (t_state t) = false.
Definition turn_shaped (state : lex_state) (t : turn) : Prop :=
  if in_identifier state then
    t_event t = EvNone ∧ in_identifier (t_state t) = true ∨ (∃ name, t_event t = EvName name) ∧ t_state t = normal
  else (∀ name, t_event t ≠ EvName name) ∧ (in_identifier (t_state t) = true → ∃ text, t_event t = EvToken text).
(** Names are given at the end of an identifier, tokens outside. *)
Lemma turn_shape mode state c s : turn_shaped state (lexeme mode state c s).
Proof.
  unfold turn_shaped. destruct state; cbn [lexeme in_identifier]; unfold lex_string, lex_identifier; try (repeat case_match; naive_solver).
  unfold lex_normal. destruct (isIdentifierByte c); [destruct (take_word s); naive_solver|]. repeat case_match; naive_solver.
Qed.

Lemma shaped_keeps state t : turn_shaped state t → (∀ text, t_event t ≠ EvToken text) → (∀ name, t_event t ≠ EvName name) → turn_keeps state t.
Proof.
  unfold turn_shaped, turn_keeps. destruct (in_identifier state), (in_identifier (t_state t)); intros H H1 H2; auto.
  - destruct H as [[_ Hx]|[[name Hx] _]]; [discriminate|by destruct (H2 name)].
  - destruct H as [_ Hx]. destruct (Hx eq_refl) as [text Hy]. by destruct (H1 text).
Qed.
Lemma shaped_name state t name : turn_shaped state t → t_event t = EvName name → in_identifier state = true ∧ t_state t = normal.
Proof.
  unfold turn_shaped. destruct (in_identifier state); intros H E; [|by destruct H as [H _]; destruct (H name)].
  split; [done|]. destruct H as [[H _]|[_ H]]; congruence.
Qed.

(** A turn that is no placeholder, on both sides. *)
Lemma apply_event_rendered width mode state c s index after index' after' sc sc' sc1 :
  (∀ key, t_event (lexeme mode state c s) ≠ EvPlaceholder key) → rendered width state sc sc' →
  apply_event index after (t_event (lexeme mode state c s)) sc = Ok sc1 →
  ∃ sc1', apply_event index' after' (t_event (lexeme mode state c s)) sc' = Ok sc1' ∧ rendered width (t_state (lexeme mode state c s)) sc1 sc1'.
Proof.
  intros Hev [Ht Hm Hn He Ho Hs] H. pose proof (turn_shape mode state c s) as Hshape.
  revert Hev H Hshape. generalize (lexeme mode state c s). intros t Hev H Hshape.
  assert (Hw := tokens_rel_widened _ _ _ Ht).
  assert (Htok : ∀ text, tokens_rel (t_state t) (Tokens (add_token text (scan sc))) (Tokens (add_token text (scan sc'))) ∧
    marks (Tokens (add_token text (scan sc'))) = marks (Tokens (add_token text (scan sc))) + extra width (Placeholders (scan sc))).
  { intros text. split.
    - unfold tokens_rel. cbn [add_token Tokens]. destruct (in_identifier (t_state t)); [by eexists _, _, _|]. apply widened_app; [done|apply widened_refl].
    - cbn [add_token Tokens]. rewrite !marks_app. lia. }
  assert (Hkeep : turn_keeps state t → tokens_rel (t_state t) (Tokens (scan sc)) (Tokens (scan sc'))).
  { unfold tokens_rel in *. intros [E|[E1 E2]]; [by rewrite E|]. rewrite E1 in Ht. by rewrite E2. }
  pose proof (shaped_keeps _ _ Hshape) as Hk. pose proof (λ name, shaped_name _ _ name Hshape) as Hname. clear Hshape.
  unfold has_sql in *. destruct (t_event t) as [| | | |text| |key|name|executable] eqn:E; cbn [apply_event] in *; unfold has_sql in *; rewrite ?Ho, ?Hs.
  - injection H as <-. eexists. split; [reflexivity|]. split; [apply Hkeep, Hk; discriminate|first [assumption|reflexivity]..].
  - injection H as <-. eexists. split; [reflexivity|]. split; [apply Hkeep, Hk; discriminate|first [assumption|reflexivity]..].
  - destruct (isSome (openBlock sc)); [discriminate|]. injection H as <-. eexists. split; [reflexivity|].
    split; [apply Hkeep, Hk; discriminate|first [assumption|reflexivity]..].
  - destruct (openBlock sc) as [[start l]|]; [|discriminate]. destruct (openBlock sc') as [[start' l']|]; [|discriminate].
    destruct (negb (blockHasSQL sc)); [discriminate|]. injection H as <-. eexists. split; [reflexivity|].
    split; [apply Hkeep, Hk; discriminate|first [assumption|reflexivity]..].
  - injection H as <-. eexists. split; [reflexivity|]. destruct (Htok text). split; first [assumption|reflexivity].
  - injection H as <-. eexists. split; [reflexivity|]. destruct (Htok ":="). split; first [assumption|reflexivity].
  - by destruct (Hev key).
  - injection H as <-. eexists. split; [reflexivity|]. destruct (Hname name eq_refl) as [Ei Est]. unfold tokens_rel in Ht. rewrite Ei in Ht.
    destruct Ht as (a & a' & x & Ea & Ea' & Hwa). split; [| |first [assumption|reflexivity]..].
    + rewrite Est. unfold tokens_rel. cbn [in_identifier scan Tokens]. rewrite Ea, Ea', !name_last_app. apply widened_app; [assumption|apply widened_refl].
    + cbn [scan Tokens Placeholders]. rewrite Ea, Ea', !name_last_app in *.
      rewrite !(marks_same_text _ (mkToken (tok x) (Some name)) x) by reflexivity. assumption.
  - injection H as <-. eexists. split; [reflexivity|]. split; [apply Hkeep, Hk; discriminate|first [assumption|reflexivity]|first [assumption|reflexivity]| |first [assumption|reflexivity]..].
    cbn [scan ExecutableComment]. by rewrite He.
Qed.

Lemma more_text_S n : more_text (S n) = ",?" +:+ more_text n.
Proof. done. Qed.
Lemma question_length n : String.length (question n) = S (2 * n).
Proof.
  unfold question. rewrite string_length_app. change (String.length "?") with 1%nat.
  induction n as [|n IH]; [done|]. rewrite more_text_S, string_length_app. change (String.length ",?") with 2%nat. lia.
Qed.

Definition add_tokens (l : list sql_token) (sc : scanner) : scanner :=
  mkScanner (mkScan (Placeholders (scan sc)) (OptionalBlocks (scan sc)) (Tokens (scan sc) ++ l) (ExecutableComment (scan sc)))
    (openBlock sc) (has_sql sc).
Lemma add_tokens_app a b sc : add_tokens b (add_tokens a sc) = add_tokens (a ++ b) sc.
Proof. unfold add_tokens, has_sql. cbn. rewrite app_assoc. f_equal. destruct (isSome (openBlock sc)); [by rewrite !orb_true_r|by rewrite !orb_false_r]. Qed.

(** Reading marks. *)
Lemma scan_char fuel mode index c s sc : lex_normal mode c s = mkTurn (EvToken (one c)) normal (one c) s →
  scan_loop (S fuel) mode normal index (String c s) sc = scan_loop fuel mode normal (index + 1) s (add_tokens [mkToken (one c) None] sc).
Proof. intros H. cbn [scan_loop lexeme]. by rewrite H. Qed.
Lemma scan_more n : ∀ fuel mode index s sc, scan_loop (2 * n + fuel) mode normal index (more_text n +:+ s) (add_tokens [] sc) =
  scan_loop fuel mode normal (index + 2 * n) s (add_tokens (more n) sc).
Proof.
  induction n as [|n IH]; intros fuel mode index s sc; [rewrite Nat.mul_0_r, Nat.add_0_r; done|].
  rewrite more_text_S, string_app_assoc. change (",?" +:+ (more_text n +:+ s)) with (String "," (String "?" (more_text n +:+ s))).
  replace (2 * S n + fuel)%nat with (S (S (2 * n + fuel))) by lia.
  rewrite (scan_char _ _ _ "," (String "?" (more_text n +:+ s))) by done. rewrite scan_char by done.
  rewrite !add_tokens_app. cbn [app].
  replace (add_tokens [mkToken (one ",") None; mkToken (one "?") None] sc) with (add_tokens [] (add_tokens [comma; mark] sc)) by by rewrite add_tokens_app.
  rewrite IH, add_tokens_app. f_equal. lia.
Qed.
Lemma scan_question n fuel mode index s sc : scan_loop (S (2 * n) + fuel) mode normal index (question n +:+ s) sc =
  scan_loop fuel mode normal (index + S (2 * n)) s (add_tokens (mark :: more n) sc).
Proof.
  unfold question. rewrite string_app_assoc. change ("?" +:+ (more_text n +:+ s)) with (String "?" (more_text n +:+ s)).
  rewrite Nat.add_succ_l, scan_char by done.
  replace (add_tokens [mkToken (one "?") None] sc) with (add_tokens [] (add_tokens [mark] sc)) by by rewrite add_tokens_app.
  rewrite scan_more, add_tokens_app. f_equal. lia.
Qed.

(** A placeholder, on both sides. *)
Lemma apply_placeholder_rendered width index after key sc sc' sc1 : rendered width normal sc sc' →
  apply_event index after (EvPlaceholder key) sc = Ok sc1 → rendered width normal sc1 (add_tokens (mark :: more (width key)) sc').
Proof.
  intros [Ht Hm Hn He Ho Hs] H. cbn [apply_event] in H. destruct (negb _); [done|]. injection H as <-. unfold tokens_rel in Ht. cbn [in_identifier] in Ht.
  split; cbn [scan add_tokens add_token Tokens Placeholders ExecutableComment openBlock blockHasSQL].
  - unfold tokens_rel. cbn [in_identifier]. apply widened_app; [done|]. change [mkToken "?" None] with [mark].
    rewrite <- (app_nil_r (more _)). apply w_mark, w_nil.
  - rewrite !marks_app. change (mark :: more (width key)) with ([mark] ++ more (width key)). rewrite marks_app, marks_more.
    change (marks [mkToken "?" None]) with 1. change (marks [mark]) with 1. unfold extra. rewrite foldr_app. cbn [foldr ph_key].
    assert (Hf : ∀ l z, foldr (λ p n, Z.of_nat (width (ph_key p)) + n) z l = extra width l + z).
    { intros l z. induction l as [|p l IH]; [done|]. change (extra width (p :: l)) with (Z.of_nat (width (ph_key p)) + extra width l). cbn [foldr]. rewrite IH. lia. }
    rewrite Hf. unfold extra in *. lia.
  - done.
  - done.
  - rewrite Ho. by destruct (openBlock sc) as [[start l]|].
  - unfold has_sql. by rewrite Ho, Hs.
Qed.

Lemma scan_rendered_loop width mode fuel : ∀ state s index sc state1 sc1, (String.length s <= fuel)%nat →
  scan_loop fuel mode state index s sc = Some (Ok (state1, sc1)) →
  ∀ index' sc', rendered width state sc sc' →
  ∃ sc1', scan_loop (String.length (render fuel width mode state s)) mode state index' (render fuel width mode state s) sc' = Some (Ok (state1, sc1')) ∧
    rendered width state1 sc1 sc1'.
Proof.
  assert (Hmore : ∀ mode fuel state index s sc r, scan_loop fuel mode state index s sc = Some r →
    ∀ fuel', (fuel <= fuel')%nat → scan_loop fuel' mode state index s sc = Some r).
  { clear. intros mode fuel. induction fuel as [|fuel IH]; intros state index s sc r H fuel' Hf; destruct s as [|c s]; cbn [scan_loop] in H.
    - by destruct fuel'.
    - done.
    - by destruct fuel'.
    - destruct fuel' as [|fuel']; [lia|]. cbn [scan_loop]. destruct (apply_event _ _ _ sc); [|done]. eapply IH; [done|lia]. }
  induction fuel as [|fuel IH]; intros state s index sc state1 sc1 Hl H index' sc' Hr; (destruct s as [|c s]; [injection H as -> ->; by exists sc'|]);
    [cbn in Hl; lia|]. cbn [scan_loop render] in *.
  destruct (lexeme_reads mode state c s) as [H1 H2]. assert (Hrest : (String.length (t_rest (lexeme mode state c s)) <= fuel)%nat).
  { apply (f_equal String.length) in H1. rewrite string_length_app in H1. cbn in H1, Hl. lia. }
  destruct (apply_event index _ (t_event (lexeme mode state c s)) sc) as [sc2|e] eqn:Ea; [|done].
  destruct (t_event (lexeme mode state c s)) eqn:E.
  all: try (
    assert (Hev : ∀ key, t_event (lexeme mode state c s) ≠ EvPlaceholder key) by (rewrite E; discriminate);
    rewrite <- E in Ea; pose proof (render_similar fuel width mode (t_state (lexeme mode state c s)) _ Hrest) as Hsim;
    pose proof (lexeme_similar _ _ _ _ _ Hev Hsim) as Hsame; unfold same_turn in Hsame;
    destruct (t_text (lexeme mode state c s)) as [|c' read] eqn:Et; [cbn in H2; lia|];
    rewrite string_app_cons in *; injection H1 as -> H1; cbn [tail] in Hsame;
    cbn [String.length]; cbn [scan_loop]; rewrite Hsame; cbn [t_event t_state t_text t_rest];
    destruct (apply_event_rendered width _ _ _ _ _ _ index' (index' + String.length (String c read)) _ _ _ Hev Hr Ea) as (sc2' & Ea' & Hr');
    rewrite Ea'; destruct (IH _ _ _ _ _ _ Hrest H (index' + String.length (String c read))%nat sc2' Hr') as (sc1' & Hs & Hfin);
    exists sc1'; split; [|done]; eapply Hmore; [exact Hs|rewrite string_length_app; lia]).
  apply placeholder_turn in E as Hp. destruct Hp as (-> & -> & Est). rewrite Est in *.
  pose proof (apply_placeholder_rendered _ _ _ _ _ _ _ Hr Ea) as Hr'.
  destruct (IH _ _ _ _ _ _ Hrest H (index' + S (2 * width key))%nat _ Hr') as (sc1' & Hs & Hfin). exists sc1'. split; [|done].
  rewrite string_length_app, question_length, scan_question. exact Hs.
Qed.

(** The scan of the rendered statement. *)
Lemma scan_rendered width mode statement s : scanStatement statement mode = Ok s →
  ∃ s', scanStatement (render (String.length statement) width mode normal statement) mode = Ok s' ∧
    Placeholders s' = [] ∧ ExecutableComment s' = ExecutableComment s ∧ widened (Tokens s) (Tokens s') ∧
    marks (Tokens s') = marks (Tokens s) + extra width (Placeholders s).
Proof.
  unfold scanStatement at 1. destruct (scan_loop _ _ _ _ _ _) as [[[state sc]|e]|] eqn:E; try done.
  destruct (negb (ended state)) eqn:Een; [done|]. destruct (isSome (openBlock sc)) eqn:Eo; [done|]. intros [= <-].
  assert (Hstart : rendered width normal no_scan no_scan) by (split; [apply w_nil|reflexivity..]).
  destruct (scan_rendered_loop width mode _ _ _ _ _ _ _ (le_n _) E 0%nat no_scan Hstart) as (sc' & E' & [Ht Hm Hn He Ho Hs]).
  exists (scan sc'). unfold scanStatement. rewrite E', Een, Ho, Eo. split_and!; [done..| |done].
  by eapply tokens_rel_widened.
Qed.

(** ** The policy on widened tokens *)

Lemma widened_nil l' : widened [] l' → l' = [].
Proof. by inversion 1. Qed.
Lemma widened_next l l' : widened l l' → next l = next l'.
Proof. by destruct 1. Qed.
Lemma widened_drop l l' : widened l l' → (next l =? "?")%string = false → widened (drop 1 l) (drop 1 l').
Proof. destruct 1; [constructor|done|done]. Qed.
Lemma widened_length l l' : widened l l' → (length l <= length l')%nat ∧ (l = [] ↔ l' = []).
Proof.
  induction 1 as [|t l l' _ [IH _]|n l l' _ [IH _]]; [done|..]; cbn [length]; rewrite ?length_app; split; try lia; naive_solver.
Qed.

Lemma take_three l a b c : a ≠ "" → b ≠ "" → c ≠ "" →
  tok <$> take 3 l = [a; b; c] ↔ next l = a ∧ next (drop 1 l) = b ∧ next (drop 2 l) = c.
Proof. intros Ha Hb Hc. destruct l as [|x [|y [|z l]]]; cbn; naive_solver. Qed.

Lemma forbidden_widened t l l' : widened l l' → forbidden t l = forbidden t l'.
Proof.
  intros Hw. pose proof (widened_next _ _ Hw) as E1.
  assert (E3 : bool_decide (tok <$> take 3 l = ["IN"; "SHARE"; "MODE"]) = bool_decide (tok <$> take 3 l' = ["IN"; "SHARE"; "MODE"])).
  { apply bool_decide_ext. rewrite !take_three by done. rewrite E1. destruct (decide (next l' = "IN")) as [E|]; [|naive_solver].
    pose proof (widened_drop _ _ Hw ltac:(by rewrite E1, E)) as Hw1. pose proof (widened_next _ _ Hw1) as E2. rewrite E2.
    destruct (decide (next (drop 1 l') = "SHARE")) as [E'|]; [|naive_solver].
    pose proof (widened_drop _ _ Hw1 ltac:(by rewrite E2, E')) as Hw2. rewrite !drop_drop in Hw2; cbn [Nat.add] in Hw2. by rewrite (widened_next _ _ Hw2). }
  unfold forbidden. rewrite E1, E3. f_equal. destruct (next l' =? "(")%string eqn:E; [|by rewrite !andb_false_r]. f_equal.
  apply String.eqb_eq in E. destruct Hw as [|x l l' Hw|]; [done| |done]. by destruct Hw.
Qed.

Lemma policy_more n depth l : policy depth (more n ++ l) = policy depth l ∨ depth < 0.
Proof.
  destruct (Z.ltb_spec depth 0) as [|Hd]; [by right|left]. apply Z.ltb_ge in Hd. induction n as [|n IH]; [done|]. cbn [more app policy].
  change (forbidden comma (mark :: more n ++ l)) with false.
  change (tok comma =? ";")%string with false. change (tok comma =? ":=")%string with false. change (tok comma =? "INTO")%string with false.
  change (tok comma =? "(")%string with false. change (tok comma =? ")")%string with false.
  change (tok mark =? ";")%string with false. change (tok mark =? ":=")%string with false. change (tok mark =? "INTO")%string with false.
  change (tok mark =? "(")%string with false. change (tok mark =? ")")%string with false. cbn [orb]. rewrite Hd.
  assert (forbidden mark (more n ++ l) = false) as ->; [|done]. unfold forbidden. cbn. done.
Qed.
Lemma policy_widened l l' : widened l l' → ∀ depth d, 0 <= depth → policy depth l = Some d → policy depth l' = Some d.
Proof.
  induction 1 as [|t l l' Hw IH|n l l' Hw IH]; intros depth d Hd H; cbn [policy] in *; [done| |].
  - destruct (_ || _ || _); [done|]. rewrite <- (forbidden_widened t l l' Hw).
    destruct (_ <? 0) eqn:E; [done|]. destruct (forbidden t l); [done|]. apply IH; [|done]. by apply Z.ltb_ge.
  - change (tok mark =? ";")%string with false in *. change (tok mark =? ":=")%string with false in *. change (tok mark =? "INTO")%string with false in *.
    change (tok mark =? "(")%string with false in *. change (tok mark =? ")")%string with false in *. cbn [orb] in *.
    rewrite (proj2 (Z.ltb_ge _ _) Hd) in *. assert (Hf : ∀ l, forbidden mark l = false) by done. rewrite Hf in *.
    destruct (policy_more n depth l') as [->|]; [by apply IH|lia].
Qed.

Lemma closingParen_more n depth l inside after : closingParen depth l = Some (inside, after) →
  closingParen depth (more n ++ l) = Some (more n ++ inside, after).
Proof. intros H. induction n as [|n IH]; [done|]. cbn [more app closingParen]. cbn. by rewrite IH. Qed.
Lemma closingParen_widened l l' : widened l l' → ∀ depth inside after, closingParen depth l = Some (inside, after) →
  ∃ inside' after', closingParen depth l' = Some (inside', after') ∧ widened inside inside' ∧ widened after after'.
Proof.
  induction 1 as [|t l l' Hw IH|n l l' Hw IH]; intros depth inside after H; cbn [closingParen] in *; [done| |].
  - destruct (_ && _); [injection H as <- <-; eexists _, _; split_and!; [done|constructor|done]|].
    destruct (closingParen _ l) as [[i a]|] eqn:E; [|done]. injection H as <- <-.
    destruct (IH _ _ _ E) as (i' & a' & -> & Hi & Ha). eexists _, _. split_and!; [done|by apply w_cons|done].
  - change (tok mark =? ")")%string with false in *. change (tok mark =? "(")%string with false in *. cbn [andb] in *.
    destruct (closingParen depth l) as [[i a]|] eqn:E; [|done]. injection H as <- <-.
    destruct (IH _ _ _ E) as (i' & a' & E' & Hi & Ha). rewrite (closingParen_more _ _ _ _ _ E').
    eexists _, _. split_and!; [done|by apply w_mark|done].
Qed.

Lemma skip_columns_widened l l' rest : widened l l' → skip_columns l = Some rest → ∃ rest', skip_columns l' = Some rest' ∧ widened rest rest'.
Proof.
  intros Hw. unfold skip_columns. rewrite <- (widened_next _ _ Hw). destruct (next l =? "(")%string eqn:E; [|intros [= <-]; by eexists].
  destruct (closingParen 1 (drop 1 l)) as [[i a]|] eqn:Ec; [|done]. intros [= <-]. apply String.eqb_eq in E.
  destruct (closingParen_widened _ _ (widened_drop _ _ Hw ltac:(by rewrite E)) _ _ _ Ec) as (i' & a' & -> & _ & Ha). by exists a'.
Qed.
Lemma cte_body_widened l l' inside after : widened l l' → cte_body l = Some (inside, after) →
  ∃ inside' after', cte_body l' = Some (inside', after') ∧ widened inside inside' ∧ widened after after'.
Proof.
  intros Hw. unfold cte_body. rewrite <- (widened_next _ _ Hw). destruct (next l =? "AS")%string eqn:E; [|done]. apply String.eqb_eq in E.
  pose proof (widened_drop _ _ Hw ltac:(by rewrite E)) as Hw1. rewrite <- (widened_next _ _ Hw1).
  destruct (next (drop 1 l) =? "(")%string eqn:E1; [|done]. apply String.eqb_eq in E1.
  pose proof (widened_drop _ _ Hw1 ltac:(by rewrite E1)) as Hw2. rewrite !drop_drop in Hw2; cbn [Nat.add] in Hw2. cbn [andb]. by apply closingParen_widened.
Qed.

Lemma readOnlyQuery_widened fuel : ∀ fuel' l l', (fuel <= fuel')%nat → widened l l' →
  (readOnlyQuery fuel l = true → readOnlyQuery fuel' l' = true) ∧ (cteLoop fuel l = true → cteLoop fuel' l' = true).
Proof.
  induction fuel as [|fuel IH]; intros fuel' l l' Hf Hw; [done|]. destruct fuel' as [|fuel']; [lia|].
  destruct Hw as [|t l l' Hw|n l l' Hw]; [done| |done]. split; cbn [readOnlyQuery cteLoop].
  - destruct (tok t =? "SELECT")%string; [done|]. destruct (negb _); [done|]. apply IH; [lia|].
    rewrite <- (widened_next _ _ Hw). destruct (next l =? "RECURSIVE")%string eqn:E; [|done]. apply String.eqb_eq in E.
    apply widened_drop; [done|by rewrite E].
  - destruct (cte_name t); [|done]. cbn [andb]. destruct (skip_columns l) as [rest|] eqn:E1; [|done].
    destruct (skip_columns_widened _ _ _ Hw E1) as (rest' & -> & Hw1). destruct (cte_body rest) as [[inside after]|] eqn:E2; [|done].
    destruct (cte_body_widened _ _ _ _ Hw1 E2) as (inside' & after' & -> & Hi & Ha). rewrite !andb_true_iff. intros [H1 H2].
    split; [eapply IH; [|exact Hi|exact H1]; lia|]. rewrite <- (widened_next _ _ Ha).
    destruct (next after =? ",")%string eqn:E; [|done]. apply String.eqb_eq in E.
    eapply IH; [|apply widened_drop; [exact Ha|by rewrite E]|exact H2]. lia.
Qed.

Lemma drop_semicolon_cons t l : l ≠ [] → drop_semicolon (t :: l) = t :: drop_semicolon l.
Proof. by destruct l. Qed.
Lemma drop_semicolon_more n l : drop_semicolon (mark :: more n ++ l) = if decide (l = []) then mark :: more n else mark :: more n ++ drop_semicolon l.
Proof.
  induction n as [|n IH].
  - cbn [more app]. destruct (decide (l = [])) as [->|Hl]; [done|]. by rewrite drop_semicolon_cons.
  - cbn [more app]. rewrite drop_semicolon_cons by done. rewrite drop_semicolon_cons by done. rewrite IH. by destruct (decide (l = [])).
Qed.
Lemma drop_semicolon_widened l l' : widened l l' → widened (drop_semicolon l) (drop_semicolon l').
Proof.
  induction 1 as [|t l l' Hw IH|n l l' Hw IH]; [constructor| |].
  - destruct (decide (l = [])) as [->|Hl].
    + apply widened_nil in Hw as ->. apply widened_refl.
    + rewrite !drop_semicolon_cons; [by apply w_cons| |done]. intros E. apply Hl. by apply (widened_length _ _ Hw).
  - rewrite drop_semicolon_more. destruct (decide (l' = [])) as [E|Hl].
    + apply (widened_length _ _ Hw) in E as ->. rewrite <- (app_nil_r (more n)). apply w_mark, w_nil.
    + rewrite drop_semicolon_cons; [by apply w_mark|]. intros E. apply Hl. by apply (widened_length _ _ Hw).
Qed.

Lemma read_only_widened l l' : widened l l' → read_only_tokens l = true → read_only_tokens l' = true.
Proof.
  intros Hw. unfold read_only_tokens. apply drop_semicolon_widened in Hw. destruct (policy 0 (drop_semicolon l)) as [d|] eqn:E; [|done].
  destruct d; [|done..]. rewrite (policy_widened _ _ Hw 0 0 (Z.le_refl 0) E). apply readOnlyQuery_widened; [|done].
  apply widened_length in Hw. lia.
Qed.

(** The policy accepts the rendered statement if it accepts the template. *)
Lemma rendered_read_only width mode statement : ValidateReadOnlyStatement statement mode = Ok tt →
  ValidateReadOnlyStatement (render (String.length statement) width mode normal statement) mode = Ok tt.
Proof.
  unfold ValidateReadOnlyStatement. destruct (scanStatement statement mode) as [s|e] eqn:E; [|done].
  destruct (scan_rendered width mode statement s E) as (s' & -> & _ & -> & Hw & _).
  destruct (_ || _ || _) eqn:Eb; [done|]. intros _. rewrite !orb_false_iff, negb_false_iff in Eb. destruct Eb as ((E1 & E2) & E3).
  rewrite E1, (read_only_widened _ _ Hw E3). apply widened_length in Hw as [Hl _]. apply Nat.eqb_neq in E2.
  by rewrite (proj2 (Nat.eqb_neq _ _)) by lia.
Qed.
