(* ===== verification/ReportParams.v ===== *)
(** * Parameters of report templates (src/internal/reporting/parameters.go,
    model.go)

    A template declares parameters; what a user submits is normalised to
    typed values before it is bound into the template's SQL.  A JSON column
    keeps the document it holds; identifiers of rows are left out.  Decimal
    numbers are parsed by a library (github.com/shopspring/decimal), whose
    text form is the interface [DecimalLibrary]. *)

From S2P Require Import Prelude Calendar Json Catalog FixedPlans SqlScan Table.

Open Scope Z_scope.

Inductive ParameterType :=
  | ParameterText | ParameterInteger | ParameterDecimal | ParameterDate | ParameterDatetime | ParameterBoolean
  | ParameterSingleOption | ParameterMultipleOption | ParameterTypeOther (name : string).
#[export] Instance ParameterType_eq_dec : EqDecision ParameterType. Proof. solve_decision. Defined.

Definition OptionSourceStatic : string := "static".
Definition OptionSourceDynamic : string := "dynamic".

Record ParameterOption := mkOption { opt_value : string; opt_label : string; opt_order : Z }.
Record ReportParameter := mkParameter {
  p_key : string; p_label : string; p_type : ParameterType; p_source : string; p_sql : string; p_required : bool;
  p_default : option json; p_order : Z; p_options : list ParameterOption }.
Record InputValue := mkInput { Present : bool; InputValues : list string }.
(** What [Scalar] holds: a string, an [int64] or a [bool]. *)
Inductive scalar := SText (text : string) | SInt (n : Z) | SBool (b : bool).
Record NormalizedValue := mkValue { Scalar : option scalar; Multi : list string; OptionLabels : gmap string string }.
Definition no_value : NormalizedValue := mkValue None [] ∅.
Definition Provided (value : NormalizedValue) : bool := isSome (Scalar value) || negb (Nat.eqb (length (Multi value)) 0).

(** ** ValidateParameters *)

Definition isOptionType (t : ParameterType) : bool :=
  match t with ParameterSingleOption | ParameterMultipleOption => true | _ => false end.
Definition effectiveOptionSource (p : ReportParameter) : string :=
  if isOptionType (p_type p) && (p_source p =? "")%string then OptionSourceStatic else p_source p.
Definition is_dynamic (p : ReportParameter) : bool := (effectiveOptionSource p =? OptionSourceDynamic)%string.

Definition validate_type (p : ReportParameter) : result unit :=
  match p_type p with
  | ParameterSingleOption | ParameterMultipleOption =>
      if (effectiveOptionSource p =? OptionSourceStatic)%string then
        if Nat.eqb (length (p_options p)) 0 then Err (Errorf "requires options") else
        if negb (p_sql p =? "")%string then Err (Errorf "static parameter cannot have dynamic SQL") else Ok tt
      else if (effectiveOptionSource p =? OptionSourceDynamic)%string then
        if negb (Nat.eqb (length (p_options p)) 0) then Err (Errorf "dynamic parameter cannot have static options") else
        if Nat.ltb (Nat.pow 2 20) (String.length (p_sql p)) then Err (Errorf "dynamic option SQL exceeds 1 MiB") else Ok tt
      else Err (Errorf "parameter has invalid option source")
  | ParameterTypeOther _ => Err (Errorf "parameter has invalid type")
  | _ =>
      if negb (Nat.eqb (length (p_options p)) 0) || negb (p_source p =? "")%string || negb (p_sql p =? "")%string
      then Err (Errorf "parameter cannot have option configuration") else Ok tt
  end.

Fixpoint validate_options (values : list string) (orders : list Z) (options : list ParameterOption) : result unit :=
  match options with
  | [] => Ok tt
  | o :: options =>
      if (opt_value o =? "")%string || (trim_space (opt_label o) =? "")%string then Err (Errorf "parameter has an empty option") else
      if bool_decide (opt_value o ∈ values) then Err (Errorf "parameter has duplicate option value") else
      if bool_decide (opt_order o ∈ orders) then Err (Errorf "parameter has duplicate option order") else
      validate_options (opt_value o :: values) (opt_order o :: orders) options
  end.

(** [strings.HasSuffix(key, "__count")] and [strings.TrimSuffix]. *)
Definition trim_count (key : string) : option string := string_rev <$> cut_prefix (string_rev "__count") (string_rev key).

Fixpoint validate_parameters (keys : list string) (orders : list Z) (parameters : list ReportParameter) : result unit :=
  match parameters with
  | [] => Ok tt
  | p :: parameters =>
      if negb (parameterKeyPattern (p_key p)) || isSome (trim_count (p_key p)) then Err (Errorf "invalid parameter key") else
      if bool_decide (p_key p ∈ keys) then Err (Errorf "duplicate parameter") else
      if bool_decide (p_order p ∈ orders) then Err (Errorf "duplicate parameter display order") else
      if (trim_space (p_label p) =? "")%string then Err (Errorf "parameter has no label") else
      let? _ := validate_type p in
      let? _ := validate_options [] [] (p_options p) in
      validate_parameters (p_key p :: keys) (p_order p :: orders) parameters
  end.
Definition ValidateParameters (parameters : list ReportParameter) : result unit := validate_parameters [] [] parameters.

(** ** Integers *)

Fixpoint parse_nat (n : Z) (s : string) : option Z :=
  match s with
  | "" => Some n
  | String c s => match digit_value c with Some d => parse_nat (10 * n + d) s | None => None end
  end.
Definition parse_digits (s : string) : option Z := if (s =? "")%string then None else parse_nat 0 s.
Definition int64 (n : Z) : bool := (- 2 ^ 63 <=? n) && (n <? 2 ^ 63).
(** [strconv.ParseInt(value, 10, 64)] *)
Definition ParseInt (value : string) : option Z :=
  let n := match value with
    | String c rest => if (c =? "-")%char then Z.opp <$> parse_digits rest else if (c =? "+")%char then parse_digits rest else parse_digits value
    | "" => None
    end in
  match n with Some n => if int64 n then Some n else None | None => None end.

Fixpoint digits_of (fuel : nat) (n : Z) (s : string) : string :=
  match fuel with
  | O => s
  | S fuel => if n <? 10 then String (digit n) s else digits_of fuel (n / 10) (String (digit (n mod 10)) s)
  end.
(** [strconv.FormatInt(n, 10)]: twenty digits are enough for 64 bits. *)
Definition FormatInt (n : Z) : string := if n <? 0 then String "-" (digits_of 20 (- n) "") else digits_of 20 n "".

(** ** Patterns *)

Fixpoint span_digits (s : string) : string * string :=
  match s with
  | String c rest => if is_digit c then let (digits, rest) := span_digits rest in (String c digits, rest) else ("", s)
  | "" => ("", "")
  end.
(** [^[+-]?[0-9]+(?:\.[0-9]+)?$] *)
Definition decimalPattern (s : string) : bool :=
  let s := match s with String c rest => if (c =? "+")%char || (c =? "-")%char then rest else s | "" => s end in
  let (whole, rest) := span_digits s in
  negb (whole =? "")%string &&
  match rest with
  | "" => true
  | String c rest =>
      (c =? ".")%char && let (fraction, rest) := span_digits rest in negb (fraction =? "")%string && (rest =? "")%string
  end.

(** [n] digits at the start. *)
Fixpoint take_digits (n : nat) (s : string) : option (string * string) :=
  match n with
  | O => Some ("", s)
  | S n =>
      match s with
      | String c rest =>
          if is_digit c then match take_digits n rest with Some (digits, rest) => Some (String c digits, rest) | None => None end else None
      | "" => None
      end
  end.
Definition take_char (x : ascii) (s : string) : option string :=
  match s with String c rest => if (c =? x)%char then Some rest else None | "" => None end.

(** [datetimePattern]: the date, hour and minute, the seconds or "", the
    fraction or "". *)
Definition datetime_match (s : string) : option (string * string * string * string) :=
  '(y, s) ← take_digits 4 s; s ← take_char "-" s; '(m, s) ← take_digits 2 s; s ← take_char "-" s; '(d, s) ← take_digits 2 s;
  s ← match take_char "T" s with Some s => Some s | None => take_char " " s end;
  '(h, s) ← take_digits 2 s; s ← take_char ":" s; '(mi, s) ← take_digits 2 s;
  let date := y +:+ "-" +:+ m +:+ "-" +:+ d in
  let time := h +:+ ":" +:+ mi in
  if (s =? "")%string then Some (date, time, "", "") else
  s ← take_char ":" s; '(sec, s) ← take_digits 2 s;
  if (s =? "")%string then Some (date, time, sec, "") else
  s ← take_char "." s;
  let (fraction, rest) := span_digits s in
  if negb (fraction =? "")%string && Nat.leb (String.length fraction) 6 && (rest =? "")%string
  then Some (date, time, sec, "." +:+ fraction) else None.

(** ** normalizeParameter *)

(** [decimal.NewFromString], then [String]: a text it accepts has one
    canonical text, which is a decimal number again. *)
Class DecimalLibrary := {
  decimal_text : string → option string;
  decimal_canonical : ∀ s t, decimalPattern s = true → decimal_text s = Some t →
    decimalPattern t = true ∧ t ≠ "" ∧ decimal_text t = Some t }.

Definition option_before (a b : ParameterOption) : bool := opt_order a <? opt_order b.
(** The loop over the sorted options. *)
Fixpoint select_options (options : list ParameterOption) (selected : gset string) : list string * gmap string string * gset string :=
  match options with
  | [] => ([], ∅, selected)
  | o :: options =>
      if bool_decide (opt_value o ∈ selected) then
        let '(multi, labels, unknown) := select_options options (selected ∖ {[opt_value o]}) in
        (opt_value o :: multi, <[opt_value o := opt_label o]> labels, unknown)
      else select_options options selected
  end.
Definition has_duplicate (values : list string) : bool := negb (bool_decide (NoDup values)).

Definition normalize_multiple (p : ReportParameter) (values : list string) : result NormalizedValue :=
  if has_duplicate values then Err (Errorf "duplicate selection") else
  let '(multi, labels, unknown) := select_options (sort_by option_before (p_options p)) (list_to_set values) in
  if bool_decide (unknown = ∅) then Ok (mkValue None multi labels) else Err (Errorf "invalid option").

Definition text_value (text : string) : NormalizedValue := mkValue (Some (SText text)) [] ∅.

(** A single value that is not empty. *)
Definition normalize_single `{DecimalLibrary} (p : ReportParameter) (value : string) : result NormalizedValue :=
  match p_type p with
  | ParameterText => Ok (text_value value)
  | ParameterInteger =>
      match ParseInt value with Some n => Ok (mkValue (Some (SInt n)) [] ∅) | None => Err (Errorf "must be a 64-bit integer") end
  | ParameterDecimal =>
      if negb (decimalPattern value) then Err (Errorf "must be a decimal number") else
      match decimal_text value with Some text => Ok (text_value text) | None => Err (Errorf "must be a decimal number") end
  | ParameterDate =>
      match ParseCalendarDate value with Ok _ => Ok (text_value value) | Err _ => Err (Errorf "must use YYYY-MM-DD") end
  | ParameterDatetime =>
      match datetime_match value with
      | None => Err (Errorf "must use YYYY-MM-DD HH:MM[:SS[.ffffff]]")
      | Some (date, time, seconds, fraction) =>
          let moment := date +:+ " " +:+ time +:+ ":" +:+ (if (seconds =? "")%string then "00" else seconds) in
          if isSome (Parse "2006-01-02 15:04:05" moment) then Ok (text_value (moment +:+ fraction))
          else Err (Errorf "has invalid date or time components")
      end
  | ParameterBoolean =>
      let lower := string_map to_lower value in
      if (lower =? "true")%string || (lower =? "1")%string then Ok (mkValue (Some (SBool true)) [] ∅) else
      if (lower =? "false")%string || (lower =? "0")%string then Ok (mkValue (Some (SBool false)) [] ∅) else
      Err (Errorf "must be true or false")
  | ParameterSingleOption =>
      match list_find (λ o, opt_value o = value) (p_options p) with
      | Some (_, o) => Ok (mkValue (Some (SText value)) [] {[value := opt_label o]})
      | None => Err (Errorf "invalid option")
      end
  | _ => Err (Errorf "invalid type")
  end.

Definition normalizeParameter `{DecimalLibrary} (p : ReportParameter) (values : list string) : result NormalizedValue :=
  if bool_decide (p_type p = ParameterMultipleOption) then normalize_multiple p values else
  match values with
  | _ :: _ :: _ => Err (Errorf "accepts one value")
  | [] => Ok no_value
  | [value] => if (value =? "")%string then Ok no_value else normalize_single p value
  end.

(** The loop over values that must not be empty and not come twice. *)
Fixpoint distinct_values (empty duplicate : error) (seen values : list string) : result unit :=
  match values with
  | [] => Ok tt
  | value :: values =>
      if (value =? "")%string then Err empty else
      if bool_decide (value ∈ seen) then Err duplicate else distinct_values empty duplicate (value :: seen) values
  end.

Definition normalizeDynamicSnapshot (p : ReportParameter) (values : list string) : result NormalizedValue :=
  if bool_decide (p_type p = ParameterSingleOption) then
    match values with
    | _ :: _ :: _ => Err (Errorf "accepts one value")
    | [] => Ok no_value
    | [value] => if (value =? "")%string then Ok no_value else Ok (text_value value)
    end
  else
    let? _ := distinct_values (Errorf "invalid option") (Errorf "duplicate selection") [] values in Ok (mkValue None values ∅).

(** ** Defaults *)

Definition default_string (item : json) : result string :=
  match item with
  | JStr s => Ok s
  | JBool b => Ok (if b then "true" else "false")
  | JNum raw => Ok raw
  | _ => Err (Errorf "default must contain strings, numbers, or booleans")
  end.
Fixpoint default_list (items : list json) : result (list string) :=
  match items with
  | [] => Ok []
  | item :: items => let? s := default_string item in let? l := default_list items in Ok (s :: l)
  end.
Definition defaultStrings (value : json) : result (list string) :=
  match value with JArr items => default_list items | _ => let? s := default_string value in Ok [s] end.
(** A default that is there and is not [null]. *)
Definition present_default (p : ReportParameter) : option json :=
  match p_default p with Some JNull | None => None | Some value => Some value end.
Definition DefaultInput (p : ReportParameter) : InputValue :=
  match present_default p with
  | Some value => match defaultStrings value with Ok values => mkInput false values | Err _ => mkInput false [] end
  | None => mkInput false []
  end.

(** ** NormalizeParameters *)

Section Normalize.
Context `{DecimalLibrary}.

(** The values to normalise: the submitted ones, or the default. *)
Definition submitted (p : ReportParameter) (input : gmap string InputValue) : result (list string) :=
  let provided := default (mkInput false []) (input !! p_key p) in
  match present_default p with
  | Some value => if Present provided then Ok (InputValues provided) else defaultStrings value
  | None => Ok (InputValues provided)
  end.

(** The loop; [snapshot] says whether dynamic parameters are taken as they
    are or refused. *)
Definition normalize_one (snapshot : bool) (p : ReportParameter) (input : gmap string InputValue) : result NormalizedValue :=
  if negb snapshot && is_dynamic p then Err (Errorf "dynamic parameter requires option resolution") else
  let? values := submitted p input in
  let? value := if is_dynamic p then normalizeDynamicSnapshot p values else normalizeParameter p values in
  if p_required p && negb (Provided value) then Err (Errorf "is required") else Ok value.
Fixpoint normalizeLoop (snapshot : bool) (parameters : list ReportParameter) (input : gmap string InputValue)
    : result (gmap string NormalizedValue) :=
  match parameters with
  | [] => Ok ∅
  | p :: parameters =>
      let? value := normalize_one snapshot p input in
      let? values := normalizeLoop snapshot parameters input in
      Ok (<[p_key p := value]> values)
  end.
Definition normalize (snapshot : bool) (parameters : list ReportParameter) (input : gmap string InputValue)
    : result (gmap string NormalizedValue) :=
  let? _ := ValidateParameters parameters in
  let? values := normalizeLoop snapshot parameters input in
  if forallb (λ key, bool_decide (key ∈ p_key <$> parameters)) (map_to_list input).*1 then Ok values else Err (Errorf "unknown parameter").

Definition NormalizeParameters : list ReportParameter → gmap string InputValue → result (gmap string NormalizedValue) := normalize false.
Definition NormalizeSnapshotParameters : list ReportParameter → gmap string InputValue → result (gmap string NormalizedValue) := normalize true.
End Normalize.

Definition canonical_values (value : NormalizedValue) : list string :=
  match Scalar value with
  | Some (SText text) => [text]
  | Some (SInt n) => [FormatInt n]
  | Some (SBool b) => [if b then "true" else "false"]
  | None => Multi value
  end.
Definition CanonicalInput (values : gmap string NormalizedValue) : gmap string InputValue :=
  (λ value, mkInput true (canonical_values value)) <$> values.

(** ** Texts of integers *)

Lemma digits_of_parse fuel : ∀ n s, 0 <= n < 10 ^ Z.of_nat fuel → (0 < fuel)%nat → parse_nat 0 (digits_of fuel n s) = parse_nat n s.
Proof.
  induction fuel as [|fuel IH]; intros n s Hn Hf; [lia|]. cbn [digits_of]. destruct (Z.ltb_spec n 10) as [Hlt|Hge].
  - cbn [parse_nat]. by rewrite digit_value_digit by lia.
  - rewrite Nat2Z.inj_succ, Z.pow_succ_r in Hn by lia. assert (0 < fuel)%nat by (destruct fuel; [cbn in Hn; lia|lia]).
    assert (0 <= n / 10 < 10 ^ Z.of_nat fuel) by (split; [apply Z.div_pos; lia|apply Z.div_lt_upper_bound; lia]).
    rewrite IH by done. cbn [parse_nat]. pose proof (Z.mod_pos_bound n 10). rewrite digit_value_digit by lia.
    f_equal. pose proof (Z.div_mod n 10). lia.
Qed.
Lemma digits_of_head fuel : ∀ n s, 0 <= n → (0 < fuel)%nat → n < 10 ^ Z.of_nat fuel →
  ∃ d rest, digits_of fuel n s = String (digit d) rest ∧ 0 <= d <= 9.
Proof.
  induction fuel as [|fuel IH]; intros n s Hn Hf Hlt; [lia|]. cbn [digits_of]. destruct (Z.ltb_spec n 10); [exists n, s; split; [done|lia]|].
  rewrite Nat2Z.inj_succ, Z.pow_succ_r in Hlt by lia. destruct fuel as [|fuel]; [cbn in Hlt; lia|].
  apply IH; [apply Z.div_pos; lia|lia|]. revert Hlt. generalize (10 ^ Z.of_nat (S fuel)). intros p Hp. apply Z.div_lt_upper_bound; lia.
Qed.
Lemma digit_no_sign d : 0 <= d <= 9 → (digit d =? "-")%char = false ∧ (digit d =? "+")%char = false.
Proof. intros H. destruct (digit_cases d H) as [->|[->|[->|[->|[->|[->|[->|[->|[->| ->]]]]]]]]]; split; reflexivity. Qed.

Lemma ParseInt_FormatInt n : int64 n = true → ParseInt (FormatInt n) = Some n ∧ FormatInt n ≠ "".
Proof.
  intros Hn. assert (Hb := Hn). unfold int64 in Hb. apply andb_true_iff in Hb as [H1%Z.leb_le H2%Z.ltb_lt].
  assert (Hpow : 2 ^ 63 < 10 ^ Z.of_nat 20) by (vm_compute; reflexivity).
  assert (Hd : ∀ m, 0 <= m <= 2 ^ 63 → parse_digits (digits_of 20 m "") = Some m ∧
    ∃ d rest, digits_of 20 m "" = String (digit d) rest ∧ 0 <= d <= 9).
  { intros m Hm. destruct (digits_of_head 20 m "" ltac:(lia) ltac:(lia) ltac:(lia)) as (d & rest & E & Hd). split; [|exists d, rest; exact (conj E Hd)].
    unfold parse_digits. rewrite digits_of_parse by lia. rewrite E. reflexivity. }
  unfold FormatInt. destruct (Z.ltb_spec n 0).
  - split; [|done]. unfold ParseInt. change (("-" =? "-")%char) with true. cbv iota.
    destruct (Hd (- n) ltac:(lia)) as [-> _]. cbn [fmap option_fmap option_map]. rewrite Z.opp_involutive. by rewrite Hn.
  - destruct (Hd n ltac:(lia)) as [Hp (d & rest & E & Hr)]. rewrite E in *. split; [|done]. unfold ParseInt.
    destruct (digit_no_sign d Hr) as [-> ->]. by rewrite Hp, Hn.
Qed.

(** ** Texts of moments *)

Definition all_digits (s : string) : bool := string_forallb is_digit s.
Lemma take_digits_Some n : ∀ s ds rest, take_digits n s = Some (ds, rest) →
  s = ds +:+ rest ∧ String.length ds = n ∧ ∀ r, take_digits n (ds +:+ r) = Some (ds, r).
Proof.
  induction n as [|n IH]; intros s ds rest H; cbn [take_digits] in H; [by injection H as <- <-|].
  destruct s as [|c s]; [done|]. destruct (is_digit c) eqn:E; [|done]. destruct (take_digits n s) as [[ds' rest']|] eqn:Et; [|done].
  injection H as <- <-. apply IH in Et as (-> & <- & Ht). split_and!; [done|done|]. intros r. rewrite string_app_cons. cbn [take_digits]. by rewrite E, Ht.
Qed.
Lemma take_char_Some x s rest : take_char x s = Some rest → s = String x rest.
Proof. destruct s as [|c s]; [done|]. cbn. destruct (Ascii.eqb_spec c x) as [->|]; [|done]. by intros [= ->]. Qed.
Lemma take_char_eq x s : take_char x (String x s) = Some s.
Proof. cbn. by rewrite Ascii.eqb_refl. Qed.

Lemma span_digits_Some s : ∀ ds rest, span_digits s = (ds, rest) → s = ds +:+ rest ∧ span_digits ds = (ds, "").
Proof.
  induction s as [|c s IH]; intros ds rest H; cbn [span_digits] in H; [by injection H as <- <-|].
  destruct (is_digit c) eqn:E; [|by injection H as <- <-]. destruct (span_digits s) as [ds' rest'] eqn:Es. injection H as <- <-.
  destruct (IH _ _ eq_refl) as [-> Hd]. split; [done|]. cbn [span_digits]. by rewrite E, Hd.
Qed.

(** A matched moment in its canonical form is matched with the same parts. *)
Lemma datetime_match_again s date time seconds fraction : datetime_match s = Some (date, time, seconds, fraction) →
  let seconds' := if (seconds =? "")%string then "00" else seconds in
  datetime_match (date +:+ " " +:+ time +:+ ":" +:+ seconds' +:+ fraction) = Some (date, time, seconds', fraction).
Proof.
  intros H. unfold datetime_match in H.
  apply bind_Some in H as ([y s1] & Hy & H). apply bind_Some in H as (s2 & _ & H). apply bind_Some in H as ([m s3] & Hm & H).
  apply bind_Some in H as (s4 & _ & H). apply bind_Some in H as ([d s5] & Hd & H). apply bind_Some in H as (s6 & _ & H).
  apply bind_Some in H as ([h s7] & Hh & H). apply bind_Some in H as (s8 & _ & H). apply bind_Some in H as ([mi s9] & Hmi & H).
  apply take_digits_Some in Hy as (_ & _ & Hy), Hm as (_ & _ & Hm), Hd as (_ & _ & Hd), Hh as (_ & _ & Hh), Hmi as (_ & _ & Hmi).
  assert (Hback : ∀ sec frac,
    (∀ r, take_digits 2 (sec +:+ r) = Some (sec, r)) →
    (frac = "" ∨ ∃ digits, frac = "." +:+ digits ∧ (let (fraction, rest) := span_digits digits in
      negb (fraction =? "")%string && Nat.leb (String.length fraction) 6 && (rest =? "")%string = true ∧ fraction = digits)) →
    datetime_match ((y +:+ "-" +:+ m +:+ "-" +:+ d) +:+ " " +:+ (h +:+ ":" +:+ mi) +:+ ":" +:+ sec +:+ frac) =
      Some (y +:+ "-" +:+ m +:+ "-" +:+ d, h +:+ ":" +:+ mi, sec, frac)).
  { intros sec frac Hsec Hfrac. unfold datetime_match. rewrite !string_app_assoc.
    rewrite Hy. cbn [mbind option_bind]. change ("-" +:+ m +:+ "-" +:+ d +:+ " " +:+ h +:+ ":" +:+ mi +:+ ":" +:+ sec +:+ frac)
      with (String "-" (m +:+ "-" +:+ d +:+ " " +:+ h +:+ ":" +:+ mi +:+ ":" +:+ sec +:+ frac)).
    rewrite take_char_eq. cbn [mbind option_bind]. rewrite Hm. cbn [mbind option_bind].
    change ("-" +:+ d +:+ " " +:+ h +:+ ":" +:+ mi +:+ ":" +:+ sec +:+ frac) with (String "-" (d +:+ " " +:+ h +:+ ":" +:+ mi +:+ ":" +:+ sec +:+ frac)).
    rewrite take_char_eq. cbn [mbind option_bind]. rewrite Hd. cbn [mbind option_bind].
    change (" " +:+ h +:+ ":" +:+ mi +:+ ":" +:+ sec +:+ frac) with (String " " (h +:+ ":" +:+ mi +:+ ":" +:+ sec +:+ frac)).
    rewrite take_char_eq. change (take_char "T" (String " " (h +:+ ":" +:+ mi +:+ ":" +:+ sec +:+ frac))) with (@None string).
    cbv iota. cbn [mbind option_bind]. rewrite Hh. cbn [mbind option_bind].
    change (":" +:+ mi +:+ ":" +:+ sec +:+ frac) with (String ":" (mi +:+ ":" +:+ sec +:+ frac)). rewrite take_char_eq. cbn [mbind option_bind].
    rewrite Hmi. cbn [mbind option_bind]. change (":" +:+ sec +:+ frac) with (String ":" (sec +:+ frac)).
    change ((String ":" (sec +:+ frac) =? "")%string) with false. cbv iota. rewrite take_char_eq. cbn [mbind option_bind].
    rewrite Hsec. cbn [mbind option_bind]. destruct Hfrac as [->|(digits & -> & Hf)]; [done|].
    change (("." +:+ digits =? "")%string) with false. cbv iota. change ("." +:+ digits) with (String "." digits).
    rewrite take_char_eq. cbn [mbind option_bind]. destruct (span_digits digits) as [fr rest]. destruct Hf as [-> ->]. done. }
  destruct (s9 =? "")%string; [injection H as <- <- <- <-; apply Hback; [done|by left]|].
  apply bind_Some in H as (s10 & _ & H). apply bind_Some in H as ([sec s11] & Hsec & H). apply take_digits_Some in Hsec as (_ & Hl & Hsec).
  assert (Hne : (sec =? "")%string = false) by (by destruct sec).
  destruct (s11 =? "")%string; [injection H as <- <- <- <-; rewrite Hne; apply Hback; [done|by left]|].
  apply bind_Some in H as (s12 & _ & H). destruct (span_digits s12) as [fr rest] eqn:Es. destruct (_ && _ && _) eqn:Eb; [|done].
  injection H as <- <- <- <-. rewrite Hne. apply Hback; [done|]. right. exists fr. split; [done|].
  apply span_digits_Some in Es as [-> Es]. assert (Eb' := Eb). apply andb_true_iff in Eb' as [_ ->%String.eqb_eq].
  rewrite Es. split; [|done]. exact Eb.
Qed.

(** ** Types of normalised values *)

(** A moment in the form MySQL takes. *)
Definition canonical_moment (text : string) : Prop :=
  ∃ date time seconds fraction, datetime_match text = Some (date, time, seconds, fraction) ∧
    text = date +:+ " " +:+ time +:+ ":" +:+ seconds +:+ fraction ∧
    is_Some (Parse "2006-01-02 15:04:05" (date +:+ " " +:+ time +:+ ":" +:+ seconds)).

Lemma filter_ext_in {A} (P Q : A → Prop) `{∀ x, Decision (P x)} `{∀ x, Decision (Q x)} (l : list A) :
  (∀ x, x ∈ l → P x ↔ Q x) → filter P l = filter Q l.
Proof.
  induction l as [|x l IH]; intros Hpq; [done|]. rewrite !filter_cons. rewrite IH by (intros y Hy; apply Hpq; by right).
  assert (P x ↔ Q x) by (apply Hpq; by left). destruct (decide (P x)), (decide (Q x)); naive_solver.
Qed.

Section Types.
Context `{DecimalLibrary}.

(** What a value of a parameter can be, by the parameter's type. *)
Definition has_type (p : ReportParameter) (v : NormalizedValue) : Prop :=
  match p_type p, Scalar v with
  | ParameterMultipleOption, None =>
      NoDup (Multi v) ∧ if is_dynamic p then "" ∉ Multi v else
        Multi v = filter (λ o, o ∈ Multi v) (opt_value <$> sort_by option_before (p_options p))
  | _, None => Multi v = []
  | t, Some s =>
      Multi v = [] ∧
      match t, s with
      | ParameterText, SText text => text ≠ ""
      | ParameterInteger, SInt n => int64 n = true
      | ParameterDecimal, SText text => decimalPattern text = true ∧ decimal_text text = Some text
      | ParameterDate, SText text => ∃ d, ParseCalendarDate text = Ok d ∧ format_date d = text
      | ParameterDatetime, SText text => canonical_moment text
      | ParameterBoolean, SBool _ => True
      | ParameterSingleOption, SText text => if is_dynamic p then text ≠ "" else text ∈ opt_value <$> p_options p
      | _, _ => False
      end
  end.

Lemma select_options_Ok options : ∀ selected multi labels unknown, select_options options selected = (multi, labels, unknown) →
  NoDup (opt_value <$> options) →
  NoDup multi ∧ selected = list_to_set multi ∪ unknown ∧ multi = filter (λ o, o ∈ selected) (opt_value <$> options).
Proof.
  induction options as [|o options IH]; intros selected multi labels unknown H0 Hnd; cbn [select_options] in H0.
  { injection H0 as <- <- <-. split; [constructor|]. split; [set_solver|done]. }
  rewrite fmap_cons in Hnd. apply NoDup_cons in Hnd as [Hnin Hnd]. rewrite fmap_cons, filter_cons. case_bool_decide as Hin.
  - rewrite decide_True by done. destruct (select_options options (selected ∖ {[opt_value o]})) as [[m l] u] eqn:E. injection H0 as <- <- <-.
    destruct (IH _ _ _ _ E Hnd) as (Hm & Hs & Hf). assert (Ho : opt_value o ∉ m).
    { rewrite Hf, list_elem_of_filter. set_solver. }
    assert (Hu : opt_value o ∉ u) by set_solver.
    split; [by constructor|]. split.
    + cbn [list_to_set]. rewrite <- union_assoc_L, <- Hs. apply set_eq. intros x. destruct (decide (x = opt_value o)); set_solver.
    + f_equal. rewrite Hf at 1. apply filter_ext_in. intros x Hx.
      assert (x ≠ opt_value o) by (intros ->; done). set_solver.
  - rewrite decide_False by done. by eapply IH.
Qed.

Lemma values_distinct options : ∀ values orders, validate_options values orders options = Ok tt →
  NoDup (opt_value <$> options) ∧ Forall (λ v, v ∉ values) (opt_value <$> options) ∧ "" ∉ opt_value <$> options.
Proof.
  induction options as [|o options IH]; intros values orders H0; cbn [validate_options] in H0; [split_and!; [constructor|constructor|]; by apply not_elem_of_nil|].
  destruct (_ || _) eqn:E; [done|]. apply orb_false_iff in E as [E%String.eqb_neq _]. case_bool_decide as Hv; [done|]. case_bool_decide; [done|].
  apply IH in H0 as (Hnd & Hf & He). rewrite fmap_cons. split_and!.
  - constructor; [|done]. intros Hin. rewrite Forall_forall in Hf. destruct (Hf _ Hin). by left.
  - constructor; [done|]. eapply Forall_impl; [exact Hf|]. intros v Hx Hin. apply Hx. by right.
  - rewrite not_elem_of_cons. by split.
Qed.

Lemma ParseInt_int64 value n : ParseInt value = Some n → int64 n = true.
Proof. unfold ParseInt. intros E. repeat (case_match; try discriminate); congruence. Qed.

(** A normalised value has its type, and normalises to itself. *)
Lemma normalize_multiple_Ok p values v : p_type p = ParameterMultipleOption → is_dynamic p = false → NoDup (opt_value <$> p_options p) →
  normalize_multiple p values = Ok v → has_type p v ∧ normalize_multiple p (canonical_values v) = Ok v.
Proof.
  intros Ht Hd Hnd. unfold normalize_multiple. destruct (has_duplicate values); [done|].
  destruct (select_options _ (list_to_set values)) as [[multi labels] unknown] eqn:E. case_bool_decide as Hu; [|done]. intros [= <-].
  assert (Hnd' : NoDup (opt_value <$> sort_by option_before (p_options p))) by (by rewrite sort_by_Permutation).
  destruct (select_options_Ok _ _ _ _ _ E Hnd') as (Hm & Hs & Hf). rewrite Hu, (right_id_L ∅ (∪)) in Hs.
  cbn [canonical_values Scalar Multi]. unfold has_duplicate. rewrite bool_decide_true by done. cbn [negb]. rewrite <- Hs, E, bool_decide_true by done.
  split; [|done]. unfold has_type. rewrite Ht, Hd. cbn [Scalar Multi]. split; [done|]. rewrite Hf at 1. apply list_filter_iff. intros x. set_solver.
Qed.

Lemma normalize_single_Ok p value v : p_type p ≠ ParameterMultipleOption → is_dynamic p = false → value ≠ "" → normalize_single p value = Ok v →
  has_type p v ∧ ∃ text, canonical_values v = [text] ∧ text ≠ "" ∧ normalize_single p text = Ok v.
Proof.
  intros Hm Hd Hne. unfold normalize_single, has_type. destruct (p_type p); try done.
  - intros [= <-]. cbn. split; [done|]. by exists value.
  - destruct (ParseInt value) as [n|] eqn:E; [|done]. intros [= <-]. cbn [Scalar Multi canonical_values].
    pose proof (ParseInt_int64 _ _ E) as Hn.
    destruct (ParseInt_FormatInt n Hn) as [Hp Hf]. split; [done|]. exists (FormatInt n). split; [done|]. split; [done|]. by rewrite Hp.
  - destruct (decimalPattern value) eqn:Ep; [|done]. cbn [negb]. destruct (decimal_text value) as [text|] eqn:E; [|done]. intros [= <-].
    destruct (decimal_canonical _ _ Ep E) as (H1 & H2 & H3). cbn [Scalar Multi canonical_values text_value]. split; [done|].
    exists text. split; [done|]. split; [done|]. by rewrite H1, H3.
  - destruct (ParseCalendarDate value) as [d|] eqn:E; [|done]. intros [= <-]. cbn [Scalar Multi canonical_values text_value].
    apply ParseCalendarDate_Ok in E as E'. destruct E' as [_ E']. split; [split; [done|]; by exists d|]. exists value. split; [done|]. split; [done|]. by rewrite E.
  - destruct (datetime_match value) as [[[[date time] seconds] fraction]|] eqn:E; [|done]. apply datetime_match_again in E. cbv zeta in E.
    set (seconds' := if (seconds =? "")%string then "00" else seconds) in *. destruct (Parse _ _) as [m|] eqn:Em; [|done]. cbn [isSome]. intros [= <-].
    assert (Ht : (date +:+ " " +:+ time +:+ ":" +:+ seconds') +:+ fraction = date +:+ " " +:+ time +:+ ":" +:+ seconds' +:+ fraction)
      by (by rewrite !string_app_assoc).
    assert (Hs : (seconds' =? "")%string = false) by (unfold seconds'; destruct (seconds =? "")%string eqn:Es; [done|exact Es]).
    cbn [Scalar Multi canonical_values text_value]. rewrite Ht. split.
    + split; [done|]. exists date, time, seconds', fraction. split_and!; [done|done|by rewrite Em].
    + eexists. split; [done|]. split; [intros Hx; by rewrite Hx in E|]. rewrite E, Hs, Em. cbn [isSome]. by rewrite Ht.
  - destruct (_ || _); [intros [= <-]|destruct (_ || _); [intros [= <-]|done]]; cbn [Scalar Multi canonical_values]; (split; [done|]).
    + exists "true". by split_and!.
    + exists "false". by split_and!.
  - destruct (list_find _ _) as [[i o]|] eqn:E; [|done]. intros [= <-]. cbn [Scalar Multi canonical_values]. rewrite Hd.
    split; [|exists value; split; [done|]; split; [done|]; by rewrite E]. split; [done|]. apply list_find_Some in E as (E & <- & _). apply list_elem_of_fmap_2.
    by eapply list_elem_of_lookup_2.
Qed.
(** Whether a parameter is one [ValidateParameters] lets through. *)
Definition valid_parameter (p : ReportParameter) : Prop :=
  validate_type p = Ok tt ∧ NoDup (opt_value <$> p_options p) ∧ "" ∉ opt_value <$> p_options p.

Lemma validate_parameters_Ok parameters : ∀ keys orders, validate_parameters keys orders parameters = Ok tt →
  NoDup (p_key <$> parameters) ∧ Forall (λ key, key ∉ keys) (p_key <$> parameters) ∧ Forall valid_parameter parameters.
Proof.
  induction parameters as [|p parameters IH]; intros keys orders Hok; cbn [validate_parameters] in Hok; [split_and!; constructor|].
  destruct (_ || _); [done|]. case_bool_decide as Hk; [done|]. case_bool_decide; [done|]. destruct (_ =? _)%string; [done|].
  destruct (validate_type p) as [[]|] eqn:Et; [|done]. cbn [res_bind] in Hok.
  destruct (validate_options [] [] (p_options p)) as [[]|] eqn:Eo; [|done]. cbn [res_bind] in Hok.
  apply IH in Hok as (Hnd & Hf & Hv). apply values_distinct in Eo as (Hod & _ & Hoe). rewrite fmap_cons. split_and!.
  - constructor; [|done]. intros Hin. rewrite Forall_forall in Hf. apply (Hf _ Hin). by left.
  - constructor; [done|]. eapply Forall_impl; [exact Hf|]. intros v Hx Hin. apply Hx. by right.
  - by constructor.
Qed.

Lemma dynamic_option p : valid_parameter p → is_dynamic p = true → p_type p = ParameterSingleOption ∨ p_type p = ParameterMultipleOption.
Proof.
  unfold valid_parameter, validate_type, is_dynamic, effectiveOptionSource. intros [Hv _].
  destruct (p_type p); try tauto; cbn [isOptionType andb]; intros E%String.eqb_eq;
    try (rewrite E, orb_true_r in Hv; cbn in Hv; discriminate); discriminate.
Qed.

Lemma no_value_type p : p_type p ≠ ParameterMultipleOption → has_type p no_value.
Proof. unfold has_type. by destruct (p_type p). Qed.

Lemma distinct_values_Ok empty duplicate values : ∀ seen, distinct_values empty duplicate seen values = Ok tt →
  NoDup values ∧ ("" ∉ values) ∧ ∀ v, v ∈ values → v ∉ seen.
Proof.
  induction values as [|v values IH]; intros seen Hok; cbn [distinct_values] in Hok; [split_and!; [constructor|apply not_elem_of_nil|]|].
  { intros v Hv. by apply elem_of_nil in Hv. }
  destruct (v =? "")%string eqn:E; [done|]. apply String.eqb_neq in E. case_bool_decide as Hs; [done|]. apply IH in Hok as (H1 & H2 & H3). split_and!.
  - constructor; [|done]. intros Hin. apply (H3 v Hin). by left.
  - rewrite not_elem_of_cons. by split.
  - intros x [->|Hx]%elem_of_cons; [done|]. intros Hxs. apply (H3 x Hx). by right.
Qed.

Lemma normalizeDynamicSnapshot_Ok p values v : valid_parameter p → is_dynamic p = true → normalizeDynamicSnapshot p values = Ok v →
  has_type p v ∧ normalizeDynamicSnapshot p (canonical_values v) = Ok v.
Proof.
  intros Hv Hd. unfold normalizeDynamicSnapshot. destruct (dynamic_option p Hv Hd) as [E|E]; rewrite E.
  - rewrite bool_decide_true by done. assert (Hno : has_type p no_value) by (by apply no_value_type; rewrite E).
    destruct values as [|value [|]]; [intros [= <-]; exact (conj Hno eq_refl)| |done].
    destruct (value =? "")%string eqn:Ev; intros [= <-]; [exact (conj Hno eq_refl)|]. cbn [canonical_values text_value Scalar]. rewrite Ev.
    split; [|done]. unfold has_type. rewrite E, Hd. cbn. split; [done|]. by apply String.eqb_neq.
  - rewrite bool_decide_false by done. intros (u & Hd' & [= <-])%res_bind_Ok. cbn [canonical_values Scalar Multi]. rewrite Hd'. split; [|done].
    destruct u. apply distinct_values_Ok in Hd' as (H1 & H2 & _). unfold has_type. by rewrite E, Hd.
Qed.

Lemma normalizeParameter_Ok p values v : valid_parameter p → is_dynamic p = false → normalizeParameter p values = Ok v →
  has_type p v ∧ normalizeParameter p (canonical_values v) = Ok v.
Proof.
  intros (_ & Hnd & _) Hd. unfold normalizeParameter. case_bool_decide as Ht; [by apply normalize_multiple_Ok|].
  pose proof (no_value_type p Ht) as Hno. destruct values as [|value [|]]; [intros [= <-]; exact (conj Hno eq_refl)| |done].
  destruct (value =? "")%string eqn:Ev; [intros [= <-]; exact (conj Hno eq_refl)|]. apply String.eqb_neq in Ev.
  intros Hn. destruct (normalize_single_Ok p value v Ht Hd Ev Hn) as (Hty & text & -> & Hne & Hn'). split; [done|].
  apply String.eqb_neq in Hne. by rewrite Hne.
Qed.

Lemma submitted_present p input values : input !! p_key p = Some (mkInput true values) → submitted p input = Ok values.
Proof. unfold submitted. intros ->. by destruct (present_default p). Qed.

(** What one turn of the loop gives. *)
Lemma normalize_one_Ok snapshot p input v : valid_parameter p → normalize_one snapshot p input = Ok v →
  has_type p v ∧ (p_required p = true → Provided v = true) ∧
  ∀ again, again !! p_key p = Some (mkInput true (canonical_values v)) → normalize_one snapshot p again = Ok v.
Proof.
  intros Hv. unfold normalize_one. destruct (negb snapshot && is_dynamic p); [done|]. destruct (submitted p input) as [values|]; [|done]. cbn [res_bind].
  destruct (if is_dynamic p then normalizeDynamicSnapshot p values else normalizeParameter p values) as [value|] eqn:E; [|done]. cbn [res_bind].
  destruct (p_required p && negb (Provided value)) eqn:Er; [done|]. intros [= <-].
  assert (Hok : has_type p value ∧
    (if is_dynamic p then normalizeDynamicSnapshot p (canonical_values value) else normalizeParameter p (canonical_values value)) = Ok value).
  { destruct (is_dynamic p) eqn:Ed; [by apply (normalizeDynamicSnapshot_Ok _ values)|by apply (normalizeParameter_Ok _ values)]. }
  destruct Hok as [Hty Hn]. split; [done|]. split.
  - intros Hr. rewrite Hr in Er. by apply negb_false_iff in Er.
  - intros again Ha. rewrite (submitted_present _ _ _ Ha). cbn [res_bind]. rewrite Hn. cbn [res_bind]. by rewrite Er.
Qed.

Lemma normalizeLoop_Ok snapshot parameters : ∀ input values, normalizeLoop snapshot parameters input = Ok values →
  NoDup (p_key <$> parameters) → Forall valid_parameter parameters →
  dom values = list_to_set (p_key <$> parameters) ∧
  Forall (λ p, ∃ v, values !! p_key p = Some v ∧ has_type p v ∧ (p_required p = true → Provided v = true)) parameters ∧
  ∀ again, (∀ key v, values !! key = Some v → again !! key = Some (mkInput true (canonical_values v))) →
    normalizeLoop snapshot parameters again = Ok values.
Proof.
  induction parameters as [|p parameters IH]; intros input values Hok Hnd Hv; cbn [normalizeLoop] in Hok.
  { injection Hok as <-. split; [by rewrite dom_empty_L|]. split; [constructor|done]. }
  destruct (normalize_one snapshot p input) as [v|] eqn:E; [|done]. cbn [res_bind] in Hok.
  destruct (normalizeLoop snapshot parameters input) as [rest|] eqn:El; [|done]. cbn [res_bind] in Hok. injection Hok as <-.
  rewrite fmap_cons in Hnd. apply NoDup_cons in Hnd as [Hnin Hnd]. apply Forall_cons in Hv as [Hp Hv].
  destruct (IH _ _ El Hnd Hv) as (Hdom & Hall & Hagain). destruct (normalize_one_Ok _ _ _ _ Hp E) as (Hty & Hr & Hone). split_and!.
  - rewrite dom_insert_L, Hdom. by rewrite fmap_cons.
  - constructor; [exists v; by rewrite lookup_insert_eq|]. rewrite Forall_forall in Hall |- *. intros q Hq.
    destruct (Hall q Hq) as (w & Hw & Hrest). exists w. split; [|done]. rewrite lookup_insert_ne; [done|]. intros Heq. apply Hnin. rewrite Heq.
    by apply list_elem_of_fmap_2.
  - intros again Ha. cbn [normalizeLoop]. rewrite (Hone again) by (apply Ha; by rewrite lookup_insert_eq). cbn [res_bind].
    rewrite (Hagain again); [done|]. intros key w Hw. apply Ha. rewrite lookup_insert_ne; [done|]. intros <-.
    apply elem_of_dom_2 in Hw. rewrite Hdom in Hw. apply elem_of_list_to_set in Hw. done.
Qed.

Lemma known_keys (parameters : list ReportParameter) {A} (input : gmap string A) :
  forallb (λ key, bool_decide (key ∈ p_key <$> parameters)) (map_to_list input).*1 = true ↔ dom input ⊆ list_to_set (p_key <$> parameters).
Proof.
  rewrite forallb_forall. split.
  - intros Hf key [a Ha]%elem_of_dom. apply elem_of_list_to_set. eapply bool_decide_eq_true_1, Hf. apply list_elem_of_In, list_elem_of_fmap. exists (key, a).
    split; [done|]. by apply elem_of_map_to_list.
  - intros Hsub key Hk. apply bool_decide_eq_true_2. apply list_elem_of_In, list_elem_of_fmap in Hk as ([k a] & -> & Hka%elem_of_map_to_list). apply elem_of_dom_2 in Hka.
    apply Hsub in Hka. by apply elem_of_list_to_set in Hka.
Qed.

Lemma normalize_Ok snapshot parameters input values : normalize snapshot parameters input = Ok values →
  NoDup (p_key <$> parameters) ∧ Forall valid_parameter parameters ∧ normalizeLoop snapshot parameters input = Ok values ∧
  dom input ⊆ list_to_set (p_key <$> parameters) ∧ ValidateParameters parameters = Ok tt.
Proof.
  unfold normalize. destruct (ValidateParameters parameters) as [[]|] eqn:Ev; [|done]. cbn [res_bind].
  destruct (normalizeLoop snapshot parameters input) as [vs|] eqn:El; [|done]. cbn [res_bind].
  destruct (forallb _ _) eqn:Ek; [|done]. intros [= <-]. apply validate_parameters_Ok in Ev as (Hnd & _ & Hv). by apply known_keys in Ek.
Qed.

(** C35: what [NormalizeParameters] and [NormalizeSnapshotParameters] return
    is typed: there is a value for exactly the declared parameters, each of
    its parameter's type (an [int64], a calendar date, a moment in the
    canonical form, an option that is declared, selections without a
    duplicate and in the options' order, ...), there for every required
    parameter, and no submitted key was unknown. *)
Theorem normalize_typed (snapshot : bool) (parameters : list ReportParameter) (input : gmap string InputValue)
    (values : gmap string NormalizedValue) (Hok : normalize snapshot parameters input = Ok values) :
  dom values = list_to_set (p_key <$> parameters) ∧ dom input ⊆ dom values ∧
  ∀ p, p ∈ parameters → ∃ v, values !! p_key p = Some v ∧ has_type p v ∧ (p_required p = true → Provided v = true).
Proof.
  apply normalize_Ok in Hok as (Hnd & Hv & Hl & Hsub & _). destruct (normalizeLoop_Ok _ _ _ _ Hl Hnd Hv) as (Hdom & Hall & _).
  split; [done|]. split; [by rewrite Hdom|]. by apply Forall_forall.
Qed.

(** Normalised values survive being stored and read back: normalising
    the canonical input of a result gives the result again, for submitted
    values and for snapshots. *)
Theorem CanonicalInput_round_trip (snapshot : bool) (parameters : list ReportParameter) (input : gmap string InputValue)
    (values : gmap string NormalizedValue) (Hok : normalize snapshot parameters input = Ok values) :
  normalize snapshot parameters (CanonicalInput values) = Ok values.
Proof.
  apply normalize_Ok in Hok as (Hnd & Hv & Hl & _ & Hp). destruct (normalizeLoop_Ok _ _ _ _ Hl Hnd Hv) as (Hdom & _ & Hagain).
  unfold normalize. rewrite Hp. cbn [res_bind]. rewrite Hagain; [cbn [res_bind]|].
  - replace (forallb _ _) with true; [done|]. symmetry. apply known_keys. unfold CanonicalInput. by rewrite dom_fmap_L, Hdom.
  - intros key v Hk. unfold CanonicalInput. by rewrite lookup_fmap, Hk.
Qed.
End Types.

(** ** A concrete template *)

Definition plain_decimal_text (s : string) : option string := if decimalPattern s then Some s else None.
#[local] Instance plain_decimal : DecimalLibrary.
Proof.
  refine {| decimal_text := plain_decimal_text |}. unfold plain_decimal_text. intros s t Hp E. rewrite Hp in E. injection E as <-. rewrite Hp.
  split; [done|]. split; [by intros ->|done].
Defined.

Definition sample_parameters : list ReportParameter := [
  mkParameter "start" "Start" ParameterDate "" "" true None 1 [];
  mkParameter "at" "At" ParameterDatetime "" "" false (Some (JStr "2024-02-29T08:30")) 2 [];
  mkParameter "limit" "Limit" ParameterInteger "" "" false (Some (JNum "+10")) 3 [];
  mkParameter "status" "Status" ParameterMultipleOption "static" "" true None 4 [mkOption "C" "Closed" 2; mkOption "O" "Open" 1];
  mkParameter "branch" "Branch" ParameterSingleOption "dynamic" "SELECT code, name FROM branches" false None 5 []].
Definition sample_input : gmap string InputValue := <["start" := mkInput true ["2024-02-29"]]> (
  <["status" := mkInput true ["C"; "O"]]> {["branch" := mkInput true ["001"]]}).
Definition sample_values : gmap string NormalizedValue := <["start" := text_value "2024-02-29"]> (
  <["at" := text_value "2024-02-29 08:30:00"]> (<["limit" := mkValue (Some (SInt 10)) [] ∅]> (
  <["status" := mkValue None ["O"; "C"] (<["O" := "Open"]> {["C" := "Closed"]})]> {["branch" := text_value "001"]}))).

Lemma normalize_typed_witness : normalize true sample_parameters sample_input = Ok sample_values ∧
  dom sample_values = list_to_set (p_key <$> sample_parameters).
Proof.
  assert (E : normalize true sample_parameters sample_input = Ok sample_values) by (vm_compute; reflexivity).
  exact (conj E (proj1 (normalize_typed true sample_parameters sample_input sample_values E))).
Defined.

Lemma CanonicalInput_round_trip_witness : normalize true sample_parameters sample_input = Ok sample_values ∧
  normalize true sample_parameters (CanonicalInput sample_values) = Ok sample_values.
Proof.
  assert (E : normalize true sample_parameters sample_input = Ok sample_values) by (vm_compute; reflexivity).
  exact (conj E (CanonicalInput_round_trip true sample_parameters sample_input sample_values E)).
Defined.
