(* ===== verification/ReportBind.v ===== *)
(** * Binding report templates (src/internal/reporting/parameters.go)

    A template's SQL is validated, its optional blocks are kept or dropped,
    and its placeholders are replaced by question marks with the arguments
    collected in order.  The code writes the query by slicing the statement
    at the positions the scanner reported; here a slice out of range is an
    error of its own (the code would panic), which no theorem needs to
    exclude by hypothesis. *)

From S2P Require Import Prelude Json Catalog FixedPlans SqlScan SqlMarks ReportParams.

Open Scope Z_scope.

(** [statement[a:b]] *)
Definition out_of_range : error := Errorf "slice bounds out of range".
Definition slice (a b : nat) (s : string) : result string :=
  if Nat.leb a b && Nat.leb b (String.length s) then Ok (String.substring a (b - a) s) else Err out_of_range.

Definition splitPlaceholderKey (key : string) : string * bool :=
  match trim_count key with Some key => (key, true) | None => (key, false) end.

(** The map [definitions] by key, which several functions build. *)
Definition definitions (parameters : list ReportParameter) : gmap string ReportParameter :=
  foldl (λ m p, <[p_key p := p]> m) ∅ parameters.
Definition is_multiple (defs : gmap string ReportParameter) (key : string) : bool :=
  match defs !! key with Some p => bool_decide (p_type p = ParameterMultipleOption) | None => false end.

(** ** Validation of references *)

(** One placeholder: it names a declared parameter, and a count one of a
    multiple option. *)
Definition reference (defs : gmap string ReportParameter) (p : Placeholder) : result (string * ReportParameter) :=
  let (key, count) := splitPlaceholderKey (ph_key p) in
  match defs !! key with
  | None => Err (Errorf "SQL references unknown parameter")
  | Some d =>
      if count && negb (bool_decide (p_type d = ParameterMultipleOption)) then Err (Errorf "count is only valid for multiple options")
      else Ok (key, d)
  end.
Fixpoint references (defs : gmap string ReportParameter) (placeholders : list Placeholder) : result unit :=
  match placeholders with
  | [] => Ok tt
  | p :: placeholders => let? _ := reference defs p in references defs placeholders
  end.
Definition validateReferences (placeholders : list Placeholder) (parameters : list ReportParameter) : result unit :=
  references (definitions parameters) placeholders.

(** [validatedOptionalBlock] *)
Record validatedOptionalBlock := mkValidated { vb_block : optionalBlock; OptionalKeys : list string }.

(** The optional parameters a block references, in order, each once. *)
Fixpoint block_keys (defs : gmap string ReportParameter) (seen : list string) (placeholders : list Placeholder) : result (list string) :=
  match placeholders with
  | [] => Ok []
  | p :: placeholders =>
      let? r := reference defs p in
      if p_required r.2 || bool_decide (r.1 ∈ seen) then block_keys defs seen placeholders else
      let? keys := block_keys defs (r.1 :: seen) placeholders in Ok (r.1 :: keys)
  end.
Fixpoint validate_blocks (defs : gmap string ReportParameter) (blocks : list optionalBlock) : result (list validatedOptionalBlock) :=
  match blocks with
  | [] => Ok []
  | b :: blocks =>
      let? keys := block_keys defs [] (bl_placeholders b) in
      if Nat.eqb (length keys) 0 then Err (Errorf "optional SQL block must reference at least one optional parameter") else
      let? rest := validate_blocks defs blocks in Ok (mkValidated b keys :: rest)
  end.
(** The set [inside] of the placeholders of the blocks, by position. *)
Definition inside (blocks : list optionalBlock) : list nat := ph_start <$> (blocks ≫= bl_placeholders).
Fixpoint outside_references (defs : gmap string ReportParameter) (within : list nat) (placeholders : list Placeholder) : result unit :=
  match placeholders with
  | [] => Ok tt
  | p :: placeholders =>
      if bool_decide (ph_start p ∈ within) then outside_references defs within placeholders else
      let? r := reference defs p in
      if negb (p_required r.2) then Err (Errorf "optional parameter is referenced outside an optional SQL block")
      else outside_references defs within placeholders
  end.

Definition scanAndValidateStatement (statement : string) (parameters : list ReportParameter) (mode : SQLMode)
    : result (statementScan * list validatedOptionalBlock) :=
  let? s := scanStatement statement mode in
  let? _ := ValidateReadOnlyStatement statement mode in
  if Nat.eqb (length (OptionalBlocks s)) 0 then
    let? _ := validateReferences (Placeholders s) parameters in Ok (s, [])
  else
    let defs := definitions parameters in
    let? blocks := validate_blocks defs (OptionalBlocks s) in
    let? _ := outside_references defs (inside (OptionalBlocks s)) (Placeholders s) in
    Ok (s, blocks).

(** ** Optional blocks *)

(** Whether all the optional parameters of a block have a value. *)
Fixpoint include (values : gmap string NormalizedValue) (keys : list string) : result bool :=
  match keys with
  | [] => Ok true
  | key :: keys =>
      match values !! key with
      | None => Err (Errorf "parameter is not normalized")
      | Some value => let? rest := include values keys in Ok (Provided value && rest)
      end
  end.
Fixpoint resolve_loop (statement : string) (values : gmap string NormalizedValue) (position : nat) (blocks : list validatedOptionalBlock)
    : result string :=
  match blocks with
  | [] => slice position (String.length statement) statement
  | b :: blocks =>
      let? before := slice position (bl_start (vb_block b)) statement in
      let? kept := include values (OptionalKeys b) in
      let? content := if kept then slice (bl_content_start (vb_block b)) (bl_content_end (vb_block b)) statement else Ok " " in
      let? rest := resolve_loop statement values (bl_end (vb_block b)) blocks in
      Ok (before +:+ content +:+ rest)
  end.
Definition resolveOptionalBlocks (statement : string) (blocks : list validatedOptionalBlock) (values : gmap string NormalizedValue)
    : result string :=
  if Nat.eqb (length blocks) 0 then Ok statement else resolve_loop statement values 0 blocks.

(** ** Bind *)

(** An argument of the query: nil, a string or an integer, or a boolean. *)
Definition argument : Type := option scalar.

(** What one placeholder writes and passes. *)
Definition bind_one (defs : gmap string ReportParameter) (values : gmap string NormalizedValue) (name : string)
    : result (string * list argument) :=
  let (key, count) := splitPlaceholderKey name in
  match values !! key with
  | None => Err (Errorf "parameter is not normalized")
  | Some value =>
      if count then
        if negb (is_multiple defs key) then Err (Errorf "count is only valid for multiple options")
        else Ok ("?", [Some (SInt (Z.of_nat (length (Multi value))))])
      else if is_multiple defs key then
        match Multi value with
        | [] => Ok ("?", [None])
        | item :: items => Ok (question (length items), Some ∘ SText <$> item :: items)
        end
      else Ok ("?", [Scalar value])
  end.

Fixpoint bind_loop (defs : gmap string ReportParameter) (values : gmap string NormalizedValue) (statement : string) (position : nat)
    (placeholders : list Placeholder) : result (string * list argument) :=
  match placeholders with
  | [] => let? tail := slice position (String.length statement) statement in Ok (tail, [])
  | p :: placeholders =>
      let? before := slice position (ph_start p) statement in
      let? written := bind_one defs values (ph_key p) in
      let? rest := bind_loop defs values statement (ph_end p) placeholders in
      Ok (before +:+ written.1 +:+ rest.1, written.2 ++ rest.2)
  end.

Definition Bind (statement : string) (parameters : list ReportParameter) (values : gmap string NormalizedValue) (mode : SQLMode)
    : result (string * list argument) :=
  let? validated := scanAndValidateStatement statement parameters mode in
  let? statement := resolveOptionalBlocks statement validated.2 values in
  let? _ := ValidateReadOnlyStatement statement mode in
  let? placeholders := ScanPlaceholders statement mode in
  bind_loop (definitions parameters) values statement 0 placeholders.

(** [DriverNamedValues]: the ordinals, from 1; the types of arguments it
    refuses are not types of [argument]. *)
Definition DriverNamedValues (arguments : list argument) : list (nat * argument) := imap (λ i v, (S i, v)) arguments.

(** ** ReferencedParameters, ValidateBinding and ValidateTemplateBinding *)

Fixpoint referenced (seen : list string) (placeholders : list Placeholder) : list string :=
  match placeholders with
  | [] => []
  | p :: placeholders =>
      let key := (splitPlaceholderKey (ph_key p)).1 in
      if bool_decide (key ∈ seen) then referenced seen placeholders else key :: referenced (key :: seen) placeholders
  end.
Definition ReferencedParameters (statement : string) (parameters : list ReportParameter) (mode : SQLMode) : result (list string) :=
  let? validated := scanAndValidateStatement statement parameters mode in Ok (referenced [] (Placeholders validated.1)).

Section Binding.
Context `{DecimalLibrary}.

Definition validate_default (p : ReportParameter) : result unit :=
  match present_default p with
  | None => Ok tt
  | Some value =>
      match defaultStrings value with
      | Err _ => Err (Errorf "parameter has invalid default")
      | Ok values =>
          if is_dynamic p then
            if bool_decide (p_type p = ParameterSingleOption) && Nat.ltb 1 (length values) then Err (Errorf "parameter default accepts one value") else
            distinct_values (Errorf "parameter has an empty default") (Errorf "parameter has duplicate default value") [] values
          else match normalizeParameter p values with Ok _ => Ok tt | Err _ => Err (Errorf "parameter has invalid default") end
      end
  end.
Fixpoint validateDefaults (parameters : list ReportParameter) : result unit :=
  match parameters with
  | [] => Ok tt
  | p :: parameters => let? _ := validate_default p in validateDefaults parameters
  end.

(** What both validations begin with. *)
Definition validate_definition (statement : string) (parameters : list ReportParameter) : result unit :=
  if (trim_space statement =? "")%string then Err (Errorf "SQL must not be empty") else
  let? _ := ValidateParameters parameters in validateDefaults parameters.
Definition ValidateBinding (statement : string) (parameters : list ReportParameter) (mode : SQLMode) : result unit :=
  let? _ := validate_definition statement parameters in
  let? _ := scanAndValidateStatement statement parameters mode in Ok tt.

(** The references of a dynamic parameter, all of them upstream of it. *)
Definition upstream (all : list ReportParameter) (mode : SQLMode) (p : ReportParameter) : result (list string) :=
  if (trim_space (p_sql p) =? "")%string then Err (Errorf "dynamic option SQL must not be empty") else
  let? keys := ReferencedParameters (p_sql p) all mode in
  if forallb (λ key, default 0 (p_order <$> definitions all !! key) <? p_order p) keys then Ok keys
  else Err (Errorf "dynamic parameter references non-upstream parameter").
Fixpoint dynamic_references (all : list ReportParameter) (mode : SQLMode) (parameters : list ReportParameter) : result (list string) :=
  match parameters with
  | [] => Ok []
  | p :: parameters =>
      if negb (is_dynamic p) then dynamic_references all mode parameters else
      let? keys := upstream all mode p in
      let? rest := dynamic_references all mode parameters in Ok (keys ++ rest)
  end.
Definition ValidateTemplateBinding (statement : string) (parameters : list ReportParameter) (mode : SQLMode) : result unit :=
  let? _ := validate_definition statement parameters in
  let? main := ReferencedParameters statement parameters mode in
  let? dynamic := dynamic_references parameters mode parameters in
  if forallb (λ p, bool_decide (p_key p ∈ main ++ dynamic)) parameters then Ok tt
  else Err (Errorf "parameter is not used by report SQL").
End Binding.

(** ** templateValidationQueries *)

(** A state holds the optional parameters that have a value; two states with
    the same fingerprint are one. *)
Definition fingerprint (optional : list string) (state : list string) : list bool := (λ key, bool_decide (key ∈ state)) <$> optional.
Definition addState (optional : list string) (limit : nat) (states : list (list string)) (state : list string) : list (list string) :=
  if Nat.leb limit (length states) then states else
  if bool_decide (fingerprint optional state ∈ fingerprint optional <$> states) then states else states ++ [state].
Definition presence_states (optional : list string) (limit : nat) (blocks : list validatedOptionalBlock) : list (list string) :=
  foldl (addState optional limit) []
    (if Nat.eqb (length blocks) 0 then [optional]
     else [[]; optional] ++ (OptionalKeys <$> blocks) ++ ((λ omitted, filter (λ key, key ≠ omitted) optional) <$> optional)).

Definition optional_keys (parameters : list ReportParameter) : list string := p_key <$> filter (λ p, p_required p = false) parameters.
Definition validation_text : string := "optional-block-validation".
Definition validation_value (state : list string) (p : ReportParameter) : NormalizedValue :=
  if negb (p_required p) && negb (bool_decide (p_key p ∈ state)) then no_value
  else if bool_decide (p_type p = ParameterMultipleOption) then mkValue None [validation_text] ∅
  else mkValue (Some (SText validation_text)) [] ∅.
Definition validation_values (parameters : list ReportParameter) (state : list string) : gmap string NormalizedValue :=
  foldl (λ m p, <[p_key p := validation_value state p]> m) ∅ parameters.

(** The queries of the states, each once. *)
Fixpoint state_queries (statement : string) (parameters : list ReportParameter) (mode : SQLMode) (seen : list string)
    (states : list (list string)) : result (list string) :=
  match states with
  | [] => Ok []
  | state :: states =>
      let? bound := Bind statement parameters (validation_values parameters state) mode in
      if bool_decide (bound.1 ∈ seen) then state_queries statement parameters mode seen states else
      let? rest := state_queries statement parameters mode (bound.1 :: seen) states in Ok (bound.1 :: rest)
  end.
Definition templateValidationQueries (statement : string) (parameters : list ReportParameter) (mode : SQLMode) (limit : nat)
    : result (list string) :=
  let? validated := scanAndValidateStatement statement parameters mode in
  if Nat.eqb limit 0 then Ok [] else
  state_queries statement parameters mode [] (presence_states (optional_keys parameters) limit validated.2).

(** ** Slices *)

Lemma substring_middle a : ∀ b c, String.substring (String.length a) (String.length b) (a +:+ b +:+ c) = b.
Proof.
  induction a as [|x a IH]; intros b c; [|apply IH]. change ("" +:+ b +:+ c) with (b +:+ c). cbn [String.length].
  induction b as [|y b IH]; [by destruct c|]. rewrite string_app_cons. cbn [String.length String.substring]. by rewrite IH.
Qed.
Lemma slice_app a b c : slice (String.length a) (String.length a + String.length b) (a +:+ b +:+ c) = Ok b.
Proof.
  unfold slice. rewrite !string_length_app. rewrite !(proj2 (Nat.leb_le _ _)) by lia. cbn [andb].
  replace (String.length a + String.length b - String.length a)%nat with (String.length b) by lia. by rewrite substring_middle.
Qed.
Lemma slice_end a b : slice (String.length a) (String.length (a +:+ b)) (a +:+ b) = Ok b.
Proof. rewrite <- (string_app_nil_r b) at 2. rewrite string_length_app. rewrite slice_app. done. Qed.
Lemma slice_total a b s : (a <= b <= String.length s)%nat → is_ok (slice a b s) = true.
Proof. intros H. unfold slice. by rewrite !(proj2 (Nat.leb_le _ _)) by lia. Qed.

(** ** Bind by positions is the scanner's substitution *)

(** The marks of a placeholder beyond the first. *)
Definition width (defs : gmap string ReportParameter) (values : gmap string NormalizedValue) (name : string) : nat :=
  let (key, count) := splitPlaceholderKey name in
  match values !! key with
  | Some value => if negb count && is_multiple defs key then pred (length (Multi value)) else 0
  | None => 0
  end.
Fixpoint collect (defs : gmap string ReportParameter) (values : gmap string NormalizedValue) (placeholders : list Placeholder)
    : result (list argument) :=
  match placeholders with
  | [] => Ok []
  | p :: placeholders =>
      let? written := bind_one defs values (ph_key p) in
      let? rest := collect defs values placeholders in Ok (written.2 ++ rest)
  end.

Lemma bind_one_Ok defs values name written : bind_one defs values name = Ok written →
  written.1 = question (width defs values name) ∧ length written.2 = S (width defs values name).
Proof.
  unfold bind_one, width. destruct (splitPlaceholderKey name) as [key count]. destruct (values !! key) as [value|]; [|done].
  destruct count; cbn [negb andb].
  - destruct (is_multiple defs key); [|done]. by intros [= <-].
  - destruct (is_multiple defs key); [|by intros [= <-]]. destruct (Multi value) as [|item items]; intros [= <-]; [done|].
    cbn [fst snd length Nat.pred]. by rewrite length_fmap.
Qed.

Lemma apply_event_placeholders index after ev sc sc' : apply_event index after ev sc = Ok sc' →
  Placeholders (scan sc') = Placeholders (scan sc) ++ match ev with EvPlaceholder key => [mkPlaceholder key index after] | _ => [] end.
Proof.
  unfold apply_event. destruct ev; repeat case_match; try discriminate; intros [= <-]; cbn; by rewrite ?app_nil_r.
Qed.

Lemma scan_loop_positions defs values mode fuel : ∀ state index s sc state1 sc1, (String.length s <= fuel)%nat →
  scan_loop fuel mode state index s sc = Some (Ok (state1, sc1)) →
  ∃ new, Placeholders (scan sc1) = Placeholders (scan sc) ++ new ∧
    ∀ a b, index = (String.length a + String.length b)%nat →
      bind_loop defs values (a +:+ b +:+ s) (String.length a) new =
      let? arguments := collect defs values new in Ok (b +:+ render fuel (width defs values) mode state s, arguments).
Proof.
  induction fuel as [|fuel IH]; intros state index s sc state1 sc1 Hl H; (destruct s as [|c s];
    [injection H as -> ->; exists []; split; [by rewrite app_nil_r|]; intros a b _; cbn [bind_loop collect res_bind];
     rewrite slice_end; done|]); [cbn in Hl; lia|]. cbn [scan_loop render] in *.
  destruct (lexeme_reads mode state c s) as [H1 H2]. revert H H1 H2. generalize (lexeme mode state c s). intros t H H1 H2.
  assert (Hrest : (String.length (t_rest t) <= fuel)%nat).
  { apply (f_equal String.length) in H1. rewrite string_length_app in H1. cbn in H1, Hl. lia. }
  destruct (apply_event _ _ (t_event t) sc) as [sc'|e] eqn:Ea; [|done]. apply apply_event_placeholders in Ea.
  destruct (IH _ _ _ _ _ _ Hrest H) as (new & Hnew & Hfill). rewrite Ea, <- app_assoc in Hnew. eexists. split; [exact Hnew|].
  intros a b Hi. rewrite <- H1. assert (Hend : (index + String.length (t_text t) = String.length (a +:+ b +:+ t_text t))%nat)
    by (rewrite !string_length_app; lia).
  assert (Hgo : bind_loop defs values (a +:+ b +:+ t_text t +:+ t_rest t) (String.length a) new =
    let? arguments := collect defs values new in Ok (b +:+ t_text t +:+ render fuel (width defs values) mode (t_state t) (t_rest t), arguments)).
  { specialize (Hfill a (b +:+ t_text t)). rewrite !string_app_assoc in Hfill. apply Hfill. rewrite string_length_app. lia. }
  destruct (t_event t) eqn:Ev; try exact Hgo. clear Hgo.
  cbn [app bind_loop collect ph_start ph_end ph_key]. subst index. rewrite slice_app. cbn [res_bind].
  destruct (bind_one defs values key) as [written|e] eqn:Eb; [|done]. cbn [res_bind]. destruct (bind_one_Ok _ _ _ _ Eb) as [<- _].
  specialize (Hfill (a +:+ b +:+ t_text t) ""). rewrite Hend. rewrite !string_app_assoc in Hfill. change ("" +:+ t_rest t) with (t_rest t) in Hfill.
  rewrite Hfill by (rewrite !string_length_app; cbn [String.length]; lia). destruct (collect defs values new); [|done]. cbn [res_bind fst snd].
  done.
Qed.

(** The query that [bind_loop] writes. *)
Lemma bind_loop_render defs values statement mode s : scanStatement statement mode = Ok s →
  bind_loop defs values statement 0 (Placeholders s) =
  let? arguments := collect defs values (Placeholders s) in
  Ok (render (String.length statement) (width defs values) mode normal statement, arguments).
Proof.
  unfold scanStatement. destruct (scan_loop _ _ _ _ _ _) as [[[state sc]|e]|] eqn:E; try done.
  destruct (negb _); [done|]. destruct (isSome _); [done|]. intros [= <-].
  destruct (scan_loop_positions defs values mode _ _ _ _ _ _ _ (le_n _) E) as (new & -> & Hfill). exact (Hfill "" "" eq_refl).
Qed.

(** The query and the arguments, by the scanner's turns. *)
Definition bind_reference (statement : string) (parameters : list ReportParameter) (values : gmap string NormalizedValue) (mode : SQLMode)
    : result (string * list argument) :=
  let? validated := scanAndValidateStatement statement parameters mode in
  let? resolved := resolveOptionalBlocks statement validated.2 values in
  let? _ := ValidateReadOnlyStatement resolved mode in
  let? s := scanStatement resolved mode in
  let defs := definitions parameters in
  let? arguments := collect defs values (Placeholders s) in
  Ok (render (String.length resolved) (width defs values) mode normal resolved, arguments).

Lemma Bind_reference statement parameters values mode :
  Bind statement parameters values mode = bind_reference statement parameters values mode.
Proof.
  unfold Bind, bind_reference. destruct (scanAndValidateStatement _ _ _) as [validated|]; [|done]. cbn [res_bind].
  destruct (resolveOptionalBlocks _ _ _) as [resolved|]; [|done]. cbn [res_bind].
  destruct (ValidateReadOnlyStatement resolved mode); [|done]. cbn [res_bind]. unfold ScanPlaceholders.
  destruct (scanStatement resolved mode) as [s|] eqn:E; [|done]. cbn [res_bind]. by apply bind_loop_render.
Qed.

(** Writing the query by slicing the statement at the reported positions
    is the same as following the scanner's turns and writing question marks
    in place of the placeholders it finds: [Bind] is [bind_reference], on
    every template and every error. *)
Theorem Bind_substitutes : ∀ statement parameters values mode,
  Bind statement parameters values mode = bind_reference statement parameters values mode.
Proof. exact Bind_reference. Qed.

Lemma collect_length defs values placeholders : ∀ arguments, collect defs values placeholders = Ok arguments →
  Z.of_nat (length arguments) = Z.of_nat (length placeholders) + extra (width defs values) placeholders.
Proof.
  induction placeholders as [|p placeholders IH]; intros arguments H; cbn [collect] in H; [by injection H as <-|].
  destruct (bind_one defs values (ph_key p)) as [written|] eqn:E; [|done]. cbn [res_bind] in H.
  destruct (collect defs values placeholders) as [rest|] eqn:Er; [|done]. injection H as <-. apply bind_one_Ok in E as [_ E].
  specialize (IH _ eq_refl). rewrite length_app, E. change (extra (width defs values) (p :: placeholders)) with
    (Z.of_nat (width defs values (ph_key p)) + extra (width defs values) placeholders). cbn [length]. lia.
Qed.

(** C32: what [Bind] returns is safe to send: the query passes the read-only
    policy, no placeholder is left in it, its tokens are those of the
    template with its chosen blocks (a list's mark repeated, with commas),
    and it has one more question mark than the template's own for each
    argument. *)
Theorem Bind_read_only (statement : string) (parameters : list ReportParameter) (values : gmap string NormalizedValue) (mode : SQLMode)
    (query : string) (arguments : list argument) (Hok : Bind statement parameters values mode = Ok (query, arguments)) :
  ValidateReadOnlyStatement query mode = Ok tt ∧
  ∃ validated resolved s q, scanAndValidateStatement statement parameters mode = Ok validated ∧
    resolveOptionalBlocks statement validated.2 values = Ok resolved ∧ scanStatement resolved mode = Ok s ∧ scanStatement query mode = Ok q ∧
    Placeholders q = [] ∧ widened (Tokens s) (Tokens q) ∧
    marks (Tokens q) - Z.of_nat (length arguments) = marks (Tokens s) - Z.of_nat (length (Placeholders s)).
Proof.
  rewrite Bind_reference in Hok. unfold bind_reference in Hok. apply res_bind_Ok in Hok as (validated & Hv & Hok).
  apply res_bind_Ok in Hok as (resolved & Hr & Hok). apply res_bind_Ok in Hok as ([] & Hro & Hok). apply res_bind_Ok in Hok as (s & Hs & Hok).
  apply res_bind_Ok in Hok as (arguments' & Hc & Hok). injection Hok as <- <-. split; [by apply rendered_read_only|].
  destruct (scan_rendered (width (definitions parameters) values) mode resolved s Hs) as (q & Hq & Hnone & _ & Hw & Hm).
  exists validated, resolved, s, q. apply collect_length in Hc. split_and!; try done. lia.
Qed.

(** ** What the query's text depends on *)

(** The same parameters have values, the lists have the same lengths. *)
Definition same_shape (defs : gmap string ReportParameter) (values values' : gmap string NormalizedValue) : Prop :=
  ∀ key, match values !! key, values' !! key with
    | Some a, Some b => Provided a = Provided b ∧ (is_multiple defs key = true → length (Multi a) = length (Multi b))
    | None, None => True
    | _, _ => False
    end.

Lemma include_shape defs values values' keys : same_shape defs values values' → include values keys = include values' keys.
Proof.
  intros Hs. induction keys as [|key keys IH]; [done|]. cbn [include]. specialize (Hs key). rewrite IH.
  destruct (values !! key), (values' !! key); try done. by destruct Hs as [-> _].
Qed.
Lemma resolve_shape defs values values' statement blocks : same_shape defs values values' →
  resolveOptionalBlocks statement blocks values = resolveOptionalBlocks statement blocks values'.
Proof.
  intros Hs. unfold resolveOptionalBlocks. destruct (Nat.eqb _ _); [done|]. generalize 0%nat.
  induction blocks as [|b blocks IH]; intros position; [done|]. cbn [resolve_loop]. by rewrite (include_shape _ _ _ _ Hs), IH.
Qed.
Definition shape_of {A} (r : result (A * list argument)) : result (A * nat) := let? r := r in Ok (r.1, length r.2).
Lemma bind_one_shape defs values values' name : same_shape defs values values' →
  shape_of (bind_one defs values name) = shape_of (bind_one defs values' name).
Proof.
  intros Hs. unfold bind_one. destruct (splitPlaceholderKey name) as [key count]. specialize (Hs key).
  destruct (values !! key) as [a|], (values' !! key) as [b|]; try done. destruct Hs as [_ Hl].
  destruct count; [by destruct (is_multiple defs key)|]. destruct (is_multiple defs key); [|done]. specialize (Hl eq_refl).
  destruct (Multi a) as [|x l], (Multi b) as [|y l']; try done. cbn [length] in Hl. injection Hl as Hl. unfold shape_of. cbn [res_bind fst snd].
  rewrite !length_fmap. cbn [length]. by rewrite Hl.
Qed.
Lemma bind_loop_shape defs values values' statement placeholders : same_shape defs values values' → ∀ position,
  shape_of (bind_loop defs values statement position placeholders) = shape_of (bind_loop defs values' statement position placeholders).
Proof.
  intros Hs. induction placeholders as [|p placeholders IH]; intros position; [done|]. cbn [bind_loop].
  destruct (slice _ _ _) as [before|]; [|done]. cbn [res_bind]. pose proof (bind_one_shape _ _ _ (ph_key p) Hs) as E. specialize (IH (ph_end p)).
  unfold shape_of in *. destruct (bind_one defs values (ph_key p)) as [w|], (bind_one defs values' (ph_key p)) as [w'|]; cbn [res_bind] in *; try done.
  injection E as Et El. destruct (bind_loop defs values _ _ _) as [r|], (bind_loop defs values' _ _ _) as [r'|]; cbn [res_bind fst snd] in *; try done.
  injection IH as Er Erl. by rewrite !length_app, Et, El, Er, Erl.
Qed.

Lemma bind_shape statement parameters values values' mode : same_shape (definitions parameters) values values' →
  shape_of (Bind statement parameters values mode) = shape_of (Bind statement parameters values' mode).
Proof.
  intros Hshape. unfold Bind. destruct (scanAndValidateStatement _ _ _) as [validated|]; [|done]. cbn [res_bind]. rewrite (resolve_shape _ _ _ _ _ Hshape).
  destruct (resolveOptionalBlocks _ _ _) as [resolved|]; [|done]. cbn [res_bind]. destruct (ValidateReadOnlyStatement _ _); [|done]. cbn [res_bind].
  destruct (ScanPlaceholders _ _); [|done]. cbn [res_bind]. by apply bind_loop_shape.
Qed.

(** C33: no submitted value reaches the text of the query: two inputs that
    give values to the same parameters, with lists of the same lengths, bind
    to the same text, the same number of arguments and the same errors. *)
Theorem Bind_shape (statement : string) (parameters : list ReportParameter) (values values' : gmap string NormalizedValue) (mode : SQLMode)
    (Hshape : same_shape (definitions parameters) values values') :
  shape_of (Bind statement parameters values mode) = shape_of (Bind statement parameters values' mode).
Proof. by apply bind_shape. Qed.

(** ** The positions of the scan *)

(** The blocks from [lo] on, in order and apart, up to [hi]. *)
Fixpoint spans (lo hi : nat) (blocks : list optionalBlock) : Prop :=
  match blocks with
  | [] => (lo <= hi)%nat
  | b :: blocks => (lo <= bl_start b <= bl_content_start b)%nat ∧ (bl_content_start b <= bl_content_end b <= bl_end b)%nat ∧ spans (bl_end b) hi blocks
  end.
Lemma spans_app lo hi blocks : ∀ b, spans lo hi blocks → (hi <= bl_start b <= bl_content_start b)%nat →
  (bl_content_start b <= bl_content_end b <= bl_end b)%nat → spans lo (bl_end b) (blocks ++ [b]).
Proof.
  intros b. revert lo. induction blocks as [|x blocks IH]; intros lo H H1 H2; cbn [spans app] in *; [split_and!; lia|]. naive_solver.
Qed.
Lemma spans_le lo hi hi' blocks : spans lo hi blocks → (hi <= hi')%nat → spans lo hi' blocks.
Proof. revert lo. induction blocks as [|b blocks IH]; intros lo H Hle; cbn [spans] in *; [lia|naive_solver]. Qed.

(** What holds of the scan at every turn, at the position [index]. *)
Record positioned (index : nat) (sc : scanner) : Prop := {
  pos_blocks : match openBlock sc with
    | None => spans 0 index (OptionalBlocks (scan sc))
    | Some (start, _) => spans 0 start (OptionalBlocks (scan sc)) ∧ (start + 2 <= index)%nat
    end;
  pos_placeholders : Forall (λ p, (ph_start p < index)%nat) (Placeholders (scan sc));
  pos_distinct : NoDup (ph_start <$> Placeholders (scan sc));
  pos_within : OptionalBlocks (scan sc) ≫= bl_placeholders ⊆ Placeholders (scan sc);
  pos_open : match openBlock sc with Some (_, l) => l ⊆ Placeholders (scan sc) | None => True end }.

(** A turn that opens a block reads two characters, and every turn reads
    one. *)
Definition turn_width (t : turn) : Prop :=
  (1 <= String.length (t_text t))%nat ∧ (t_event t = EvOpen → (2 <= String.length (t_text t))%nat).
Lemma lexeme_width mode state c s : turn_width (lexeme mode state c s).
Proof.
  split; [by destruct (lexeme_reads mode state c s)|].
  destruct state; cbn [lexeme]; unfold lex_string, lex_identifier, lex_normal; repeat case_match; cbn; try discriminate; lia.
Qed.

Lemma apply_event_positioned index t sc sc' : turn_width t → positioned index sc →
  apply_event index (index + String.length (t_text t)) (t_event t) sc = Ok sc' → positioned (index + String.length (t_text t)) sc'.
Proof.
  intros [H1 H2] [Hb Hp Hd Hw Ho]. revert H1 H2. generalize (String.length (t_text t)). intros n H1 H2 H.
  assert (Hp' : Forall (λ p, (ph_start p < index + n)%nat) (Placeholders (scan sc))) by (eapply Forall_impl; [exact Hp|cbn; lia]).
  assert (Hb' : match openBlock sc with
    | None => spans 0 (index + n) (OptionalBlocks (scan sc))
    | Some (start, _) => spans 0 start (OptionalBlocks (scan sc)) ∧ (start + 2 <= index + n)%nat end).
  { destruct (openBlock sc) as [[start l]|]; [split; [by apply Hb|lia]|]. eapply spans_le; [exact Hb|lia]. }
  unfold apply_event in H. destruct (t_event t).
  1,2,5,6,8,9: injection H as <-; split; assumption.
  - destruct (openBlock sc); [done|]. injection H as <-. specialize (H2 eq_refl). split; cbn; try assumption; [split; [done|lia]|].
    intros x Hx. by apply elem_of_nil in Hx.
  - destruct (openBlock sc) as [[start l]|]; [|done]. destruct (negb _); [done|]. injection H as <-. destruct Hb as [Hs Hi].
    split; cbn; try assumption; [| |done].
    + apply (spans_app 0 start _ (mkBlock start (start + 2) index (index + n) l)); cbn; [done|lia..].
    + rewrite bind_app, bind_singleton. cbn. intros x [Hx|Hx]%elem_of_app; [by apply Hw|by apply Ho].
  - destruct (negb _); [done|]. injection H as <-. split; cbn; try assumption.
    + destruct (openBlock sc) as [[start l]|]; exact Hb'.
    + apply Forall_app. split; [done|]. constructor; [cbn; lia|constructor].
    + rewrite fmap_app. apply NoDup_app. split; [done|]. split; [|apply NoDup_singleton]. intros x Hx Hin. cbn in Hin.
      apply list_elem_of_singleton in Hin as ->. apply list_elem_of_fmap in Hx as (p & Hx & Hin).
      rewrite Forall_forall in Hp. specialize (Hp p Hin). lia.
    + intros x Hx. apply elem_of_app. left. by apply Hw.
    + destruct (openBlock sc) as [[start l]|]; [|done]. intros x [Hx|Hx]%elem_of_app; apply elem_of_app; [left; by apply Ho|by right].
Qed.

Lemma scan_loop_positioned mode fuel : ∀ state index s sc state1 sc1, positioned index sc →
  scan_loop fuel mode state index s sc = Some (Ok (state1, sc1)) → positioned (index + String.length s) sc1.
Proof.
  induction fuel as [|fuel IH]; intros state index s sc state1 sc1 Hp H; destruct s as [|c s]; cbn [scan_loop] in H.
  - injection H as -> ->. by rewrite Nat.add_0_r.
  - done.
  - injection H as -> ->. by rewrite Nat.add_0_r.
  - pose proof (lexeme_width mode state c s) as Hwd. destruct (lexeme_reads mode state c s) as [H1 _].
    revert H H1 Hwd. generalize (lexeme mode state c s). intros t H H1 Hwd.
    destruct (apply_event _ _ (t_event t) sc) as [sc'|] eqn:Ea; [|done]. apply apply_event_positioned in Ea; [|done..].
    apply (IH _ _ _ _ _ _ Ea) in H. apply (f_equal String.length) in H1. rewrite string_length_app in H1.
    by rewrite <- H1, Nat.add_assoc.
Qed.

Lemma scanStatement_positioned statement mode s : scanStatement statement mode = Ok s →
  spans 0 (String.length statement) (OptionalBlocks s) ∧ NoDup (ph_start <$> Placeholders s) ∧ OptionalBlocks s ≫= bl_placeholders ⊆ Placeholders s.
Proof.
  unfold scanStatement. destruct (scan_loop _ _ _ _ _ _) as [[[state sc]|e]|] eqn:E; try done.
  destruct (negb _); [done|]. destruct (openBlock sc) eqn:Eo; [done|]. intros [= <-].
  assert (H0 : positioned 0 no_scan) by (split; cbn; try constructor; intros x Hx; by apply elem_of_nil in Hx).
  destruct (scan_loop_positioned _ _ _ _ _ _ _ _ H0 E) as [Hb _ Hd Hw _]. rewrite Eo in Hb. done.
Qed.

(** ** No slice is out of range *)

Definition no_panic {A} (r : result A) : Prop := r ≠ Err out_of_range.
Lemma no_panic_bind {A B} (m : result A) (k : A → result B) : no_panic m → (∀ a, m = Ok a → no_panic (k a)) → no_panic (res_bind m k).
Proof. unfold no_panic. destruct m; cbn; [intros _ H; by apply H|congruence]. Qed.
Lemma no_panic_Ok {A} (a : A) : no_panic (Ok a).
Proof. done. Qed.

Lemma scan_loop_no_panic mode fuel : ∀ state index s sc, scan_loop fuel mode state index s sc ≠ Some (Err out_of_range).
Proof.
  induction fuel as [|fuel IH]; intros state index s sc; destruct s as [|c s]; cbn [scan_loop]; try discriminate.
  destruct (apply_event _ _ _ sc) as [sc'|e] eqn:E; [apply IH|]. intros [= ->]. unfold apply_event in E. repeat case_match; done.
Qed.
Lemma scanStatement_no_panic statement mode : no_panic (scanStatement statement mode).
Proof.
  unfold no_panic, scanStatement. destruct (scan_loop _ _ _ _ _ _) as [[[state sc]|e]|] eqn:E; [| |done].
  - destruct (negb _); [done|]. by destruct (isSome _).
  - intros [= ->]. by apply scan_loop_no_panic in E.
Qed.
Lemma ValidateReadOnlyStatement_no_panic statement mode : no_panic (ValidateReadOnlyStatement statement mode).
Proof. unfold no_panic, ValidateReadOnlyStatement. destruct (scanStatement _ _); [|done]. by destruct (_ || _ || _). Qed.
Lemma reference_no_panic defs p : no_panic (reference defs p).
Proof. unfold no_panic, reference. destruct (splitPlaceholderKey _) as [key count]. destruct (defs !! key); [|done]. by destruct (_ && _). Qed.
Lemma references_no_panic defs placeholders : no_panic (references defs placeholders).
Proof. induction placeholders as [|p l IH]; [done|]. cbn [references]. apply no_panic_bind; [apply reference_no_panic|done]. Qed.
Lemma block_keys_no_panic defs placeholders : ∀ seen, no_panic (block_keys defs seen placeholders).
Proof.
  induction placeholders as [|p l IH]; intros seen; [done|]. cbn [block_keys]. apply no_panic_bind; [apply reference_no_panic|]. intros r _.
  destruct (_ || _); [done|]. by apply no_panic_bind.
Qed.
Lemma validate_blocks_no_panic defs blocks : no_panic (validate_blocks defs blocks).
Proof.
  induction blocks as [|b blocks IH]; [done|]. cbn [validate_blocks]. apply no_panic_bind; [apply block_keys_no_panic|]. intros keys _.
  destruct (Nat.eqb _ _); [done|]. by apply no_panic_bind.
Qed.
Lemma outside_no_panic defs within placeholders : no_panic (outside_references defs within placeholders).
Proof.
  induction placeholders as [|p l IH]; [done|]. cbn [outside_references]. case_bool_decide; [done|].
  apply no_panic_bind; [apply reference_no_panic|]. intros r _. by destruct (negb _).
Qed.
Lemma scanAndValidate_no_panic statement parameters mode : no_panic (scanAndValidateStatement statement parameters mode).
Proof.
  unfold scanAndValidateStatement. apply no_panic_bind; [apply scanStatement_no_panic|]. intros s _.
  apply no_panic_bind; [apply ValidateReadOnlyStatement_no_panic|]. intros _ _. destruct (Nat.eqb _ _).
  - apply no_panic_bind; [apply references_no_panic|done].
  - apply no_panic_bind; [apply validate_blocks_no_panic|]. intros blocks _. apply no_panic_bind; [apply outside_no_panic|done].
Qed.

Lemma validate_blocks_same defs blocks : ∀ validated, validate_blocks defs blocks = Ok validated → vb_block <$> validated = blocks.
Proof.
  induction blocks as [|b blocks IH]; intros validated H; cbn [validate_blocks] in H; [by injection H as <-|].
  apply res_bind_Ok in H as (keys & _ & H). destruct (Nat.eqb _ _); [done|]. apply res_bind_Ok in H as (rest & Hr & H). injection H as <-.
  rewrite fmap_cons. by rewrite (IH _ Hr).
Qed.
Lemma scanAndValidate_Ok statement parameters mode s blocks : scanAndValidateStatement statement parameters mode = Ok (s, blocks) →
  scanStatement statement mode = Ok s ∧ ValidateReadOnlyStatement statement mode = Ok tt ∧
  vb_block <$> blocks = OptionalBlocks s.
Proof.
  unfold scanAndValidateStatement. intros (s' & Hs & H)%res_bind_Ok. apply res_bind_Ok in H as ([] & Hro & H).
  destruct (Nat.eqb _ _) eqn:E.
  - apply res_bind_Ok in H as ([] & _ & H). injection H as <- <-. apply Nat.eqb_eq, length_zero_iff_nil in E. split_and!; [done..|]. by rewrite E.
  - apply res_bind_Ok in H as (bs & Hb & H). apply res_bind_Ok in H as ([] & _ & H). injection H as <- <-. by apply validate_blocks_same in Hb.
Qed.

Lemma include_no_panic values keys : no_panic (include values keys).
Proof. induction keys as [|key keys IH]; [done|]. cbn [include]. destruct (values !! key); [|done]. by apply no_panic_bind. Qed.
Lemma slice_no_panic a b s : (a <= b <= String.length s)%nat → no_panic (slice a b s).
Proof. intros H. unfold no_panic, slice. by rewrite !(proj2 (Nat.leb_le _ _)) by lia. Qed.
Lemma spans_lo lo hi blocks : spans lo hi blocks → (lo <= hi)%nat.
Proof. revert lo. induction blocks as [|b blocks IH]; intros lo H; cbn [spans] in H; [done|]. destruct H as (H1 & H2 & H3%IH). lia. Qed.
Lemma resolve_loop_no_panic statement values blocks : ∀ position, spans position (String.length statement) (vb_block <$> blocks) →
  no_panic (resolve_loop statement values position blocks).
Proof.
  induction blocks as [|b blocks IH]; intros position H; cbn [resolve_loop].
  { apply slice_no_panic. cbn in H. lia. }
  rewrite fmap_cons in H. cbn [spans] in H. destruct H as (H1 & H2 & H3). pose proof (spans_lo _ _ _ H3).
  apply no_panic_bind; [apply slice_no_panic; lia|]. intros before _. apply no_panic_bind; [apply include_no_panic|]. intros kept _.
  apply no_panic_bind; [destruct kept; [apply slice_no_panic; lia|done]|]. intros content _. apply no_panic_bind; [by apply IH|done].
Qed.
Lemma bind_one_no_panic defs values name : no_panic (bind_one defs values name).
Proof.
  unfold no_panic, bind_one. destruct (splitPlaceholderKey name) as [key count]. destruct (values !! key) as [v|]; [|done].
  destruct count; [by destruct (negb _)|]. destruct (is_multiple defs key); [|done]. by destruct (Multi v).
Qed.
Lemma collect_no_panic defs values placeholders : no_panic (collect defs values placeholders).
Proof.
  induction placeholders as [|p l IH]; [done|]. cbn [collect]. apply no_panic_bind; [apply bind_one_no_panic|]. intros w _. by apply no_panic_bind.
Qed.

(** [Bind] never slices out of range: the positions of the blocks and
    placeholders it scans are in order, apart and inside of the statement,
    whatever the template, the parameters, the values and the SQL mode. *)
Theorem Bind_in_range : ∀ statement parameters values mode, Bind statement parameters values mode ≠ Err out_of_range.
Proof.
  intros statement parameters values mode. rewrite Bind_reference. unfold bind_reference. apply no_panic_bind; [apply scanAndValidate_no_panic|].
  intros [s blocks] (Hs & _ & Hb)%scanAndValidate_Ok. apply no_panic_bind.
  { cbn [snd]. unfold resolveOptionalBlocks. destruct (Nat.eqb _ _); [done|]. apply resolve_loop_no_panic. rewrite Hb.
    by apply (scanStatement_positioned statement mode). }
  intros resolved _. apply no_panic_bind; [apply ValidateReadOnlyStatement_no_panic|]. intros _ _.
  apply no_panic_bind; [apply scanStatement_no_panic|]. intros s' _. cbv zeta. apply no_panic_bind; [apply collect_no_panic|done].
Qed.

(** ** What a validated template references *)

Lemma definitions_lookup parameters key d : definitions parameters !! key = Some d → d ∈ parameters ∧ p_key d = key.
Proof.
  unfold definitions. assert (H : ∀ (m : gmap string ReportParameter) (P : ReportParameter → Prop),
    (∀ k x, m !! k = Some x → P x ∧ p_key x = k) → (∀ x, x ∈ parameters → P x) →
    ∀ k x, foldl (λ m p, <[p_key p := p]> m) m parameters !! k = Some x → P x ∧ p_key x = k).
  { induction parameters as [|p parameters IH]; intros m P Hm Hp k x; [apply Hm|]. cbn [foldl]. apply IH; [|intros y Hy; apply Hp; by right].
    intros k' y. rewrite lookup_insert_Some. intros [[<- <-]|[_ Hy]]; [|by apply Hm]. split; [apply Hp; by left|done]. }
  apply (H ∅ (λ x, x ∈ parameters)); [|done]. intros k x. by rewrite lookup_empty.
Qed.

(** A placeholder that [reference] lets through. *)
Definition declared (defs : gmap string ReportParameter) (p : Placeholder) : Prop := ∃ r, reference defs p = Ok r.
Lemma reference_Ok defs p r : reference defs p = Ok r →
  r.1 = (splitPlaceholderKey (ph_key p)).1 ∧ defs !! r.1 = Some r.2 ∧
  ((splitPlaceholderKey (ph_key p)).2 = true → is_multiple defs r.1 = true).
Proof.
  unfold reference, is_multiple. destruct (splitPlaceholderKey _) as [key count]. destruct (defs !! key) as [d|] eqn:E; [|done].
  destruct (count && _) eqn:Ec; [done|]. intros [= <-]. cbn [fst snd]. rewrite E. split_and!; [done..|]. intros ->. by apply negb_false_iff in Ec.
Qed.
Lemma references_Ok defs placeholders : references defs placeholders = Ok tt → Forall (declared defs) placeholders.
Proof.
  induction placeholders as [|p l IH]; [constructor|]. cbn [references]. intros (r & Hr & H)%res_bind_Ok. constructor; [by exists r|by apply IH].
Qed.
Lemma block_keys_Ok defs placeholders : ∀ seen keys, block_keys defs seen placeholders = Ok keys → Forall (declared defs) placeholders.
Proof.
  induction placeholders as [|p l IH]; intros seen keys; [constructor|]. cbn [block_keys]. intros (r & Hr & H)%res_bind_Ok. constructor; [by exists r|].
  destruct (_ || _); [by eapply IH|]. apply res_bind_Ok in H as (rest & H & _). by eapply IH.
Qed.
Lemma validate_blocks_Ok defs blocks : ∀ validated, validate_blocks defs blocks = Ok validated →
  Forall (declared defs) (blocks ≫= bl_placeholders).
Proof.
  induction blocks as [|b blocks IH]; intros validated H; [constructor|]. cbn [validate_blocks] in H. apply res_bind_Ok in H as (keys & Hk & H).
  destruct (Nat.eqb _ _); [done|]. apply res_bind_Ok in H as (rest & Hr & _). rewrite bind_cons. apply Forall_app.
  split; [by eapply block_keys_Ok|by eapply IH].
Qed.
Lemma outside_Ok defs within placeholders : outside_references defs within placeholders = Ok tt →
  ∀ p, p ∈ placeholders → ph_start p ∈ within ∨ declared defs p.
Proof.
  induction placeholders as [|q l IH]; intros H p Hp; [by apply elem_of_nil in Hp|]. cbn [outside_references] in H.
  case_bool_decide as Hin.
  - apply elem_of_cons in Hp as [->|Hp]; [by left|by apply IH].
  - apply res_bind_Ok in H as (r & Hr & H). destruct (negb _); [done|]. apply elem_of_cons in Hp as [->|Hp]; [right; by exists r|by apply IH].
Qed.

Lemma fmap_inj_in {A B} (f : A → B) (l : list A) x y : NoDup (f <$> l) → x ∈ l → y ∈ l → f x = f y → x = y.
Proof.
  induction l as [|z l IH]; intros Hnd Hx Hy E; [by apply elem_of_nil in Hx|]. rewrite fmap_cons in Hnd. apply NoDup_cons in Hnd as [Hz Hnd].
  apply elem_of_cons in Hx, Hy. destruct Hx as [->|Hx], Hy as [->|Hy]; [done| | |by apply IH].
  - destruct Hz. rewrite E. by apply list_elem_of_fmap_2.
  - destruct Hz. rewrite <- E. by apply list_elem_of_fmap_2.
Qed.

(** Every placeholder of a validated template names a declared parameter. *)
Lemma validated_declared statement parameters mode s blocks : scanAndValidateStatement statement parameters mode = Ok (s, blocks) →
  Forall (declared (definitions parameters)) (Placeholders s).
Proof.
  unfold scanAndValidateStatement. intros (s' & Hs & H)%res_bind_Ok. apply res_bind_Ok in H as ([] & _ & H). destruct (Nat.eqb _ _).
  { apply res_bind_Ok in H as ([] & H & E). injection E as <- <-. by apply references_Ok. }
  apply res_bind_Ok in H as (bs & Hb & H). apply res_bind_Ok in H as ([] & Ho & E). injection E as <- <-.
  apply validate_blocks_Ok in Hb. destruct (scanStatement_positioned _ _ _ Hs) as (_ & Hnd & Hw). rewrite Forall_forall in Hb |- *. intros p Hp.
  destruct (outside_Ok _ _ _ Ho p Hp) as [Hin|]; [|done]. apply list_elem_of_fmap in Hin as (q & E & Hq).
  replace p with q; [by apply Hb|]. symmetry. by apply (fmap_inj_in ph_start (Placeholders s')); [|exact Hp|by apply Hw|].
Qed.

Lemma referenced_in placeholders : ∀ seen key, key ∈ referenced seen placeholders →
  ∃ p, p ∈ placeholders ∧ key = (splitPlaceholderKey (ph_key p)).1.
Proof.
  induction placeholders as [|p l IH]; intros seen key H; cbn [referenced] in H; [by apply elem_of_nil in H|].
  case_bool_decide; [|apply elem_of_cons in H as [->|H]; [exists p; split; [by left|done]|]]; apply IH in H as (q & Hq & ->); exists q; (split; [by right|done]).
Qed.
Lemma ReferencedParameters_declared statement parameters mode keys : ReferencedParameters statement parameters mode = Ok keys →
  ∀ key, key ∈ keys → ∃ d, definitions parameters !! key = Some d.
Proof.
  unfold ReferencedParameters. intros ([s blocks] & Hv & H)%res_bind_Ok. injection H as <-. intros key (p & Hp & ->)%referenced_in.
  apply validated_declared in Hv. rewrite Forall_forall in Hv. destruct (Hv p Hp) as [r Hr]. apply reference_Ok in Hr as (<- & Hr & _). by exists r.2.
Qed.

(** ** A validated template binds *)

Lemma collect_Ok defs values placeholders : Forall (declared defs) placeholders → (∀ key d, defs !! key = Some d → is_Some (values !! key)) →
  ∃ arguments, collect defs values placeholders = Ok arguments.
Proof.
  intros Hd Hv. induction Hd as [|p l [r Hr] _ [arguments IH]]; [by eexists|]. cbn [collect].
  apply reference_Ok in Hr as (Hk & Hl & Hc). assert (Hone : ∃ w, bind_one defs values (ph_key p) = Ok w).
  { unfold bind_one. destruct (splitPlaceholderKey (ph_key p)) as [key count]. cbn [fst snd] in *. subst key. destruct (Hv _ _ Hl) as [v ->].
    destruct count; [rewrite Hc by done; by eexists|]. destruct (is_multiple defs r.1); [|by eexists]. destruct (Multi v); by eexists. }
  destruct Hone as [w ->]. cbn [res_bind]. rewrite IH. by eexists.
Qed.

Section Total.
Context {decimals : DecimalLibrary}.

(** C34: a template without optional blocks that passes [ValidateBinding]
    binds for every input that normalises: [Bind] returns a query. *)
Theorem Bind_total (snapshot : bool) (statement : string) (parameters : list ReportParameter) (mode : SQLMode)
    (input : gmap string InputValue) (values : gmap string NormalizedValue) (s : statementScan)
    (Hvalid : ValidateBinding statement parameters mode = Ok tt) (Hvalues : normalize snapshot parameters input = Ok values)
    (Hscan : scanStatement statement mode = Ok s) (Hblocks : OptionalBlocks s = []) :
  ∃ query arguments, Bind statement parameters values mode = Ok (query, arguments).
Proof.
  unfold ValidateBinding in Hvalid. apply res_bind_Ok in Hvalid as ([] & _ & Hvalid). apply res_bind_Ok in Hvalid as ([s' blocks] & Hv & _).
  pose proof (validated_declared _ _ _ _ _ Hv) as Hd. destruct (scanAndValidate_Ok _ _ _ _ _ Hv) as (Hs & Hro & Hb).
  rewrite Hscan in Hs. injection Hs as <-. rewrite Hblocks in Hb. apply fmap_nil_inv in Hb as ->.
  rewrite Bind_reference. unfold bind_reference. rewrite Hv. cbn [res_bind snd].
  change (resolveOptionalBlocks statement [] values) with (Ok statement). cbn [res_bind]. rewrite Hro. cbn [res_bind]. rewrite Hscan. cbn [res_bind].
  destruct (collect_Ok (definitions parameters) values (Placeholders s) Hd) as [arguments ->]; [|cbn [res_bind]; by eexists _, _].
  intros key d (Hin & <-)%definitions_lookup. apply normalize_Ok in Hvalues as (Hnd & Hvp & Hl & _).
  destruct (normalizeLoop_Ok _ _ _ _ Hl Hnd Hvp) as (Hdom & _). apply elem_of_dom. rewrite Hdom. apply elem_of_list_to_set. by apply list_elem_of_fmap_2.
Qed.

Lemma dynamic_references_Ok all mode parameters : ∀ keys, dynamic_references all mode parameters = Ok keys →
  (∀ p, p ∈ parameters → is_dynamic p = true → ∃ own, upstream all mode p = Ok own) ∧
  (∀ key, key ∈ keys → ∃ p own, p ∈ parameters ∧ is_dynamic p = true ∧ upstream all mode p = Ok own ∧ key ∈ own).
Proof.
  induction parameters as [|p parameters IH]; intros keys H; cbn [dynamic_references] in H.
  { injection H as <-. split; [intros p Hp|intros k Hk]; exfalso; by eapply elem_of_nil. }
  destruct (is_dynamic p) eqn:Ed; cbn [negb] in H.
  - apply res_bind_Ok in H as (own & Ho & H). apply res_bind_Ok in H as (rest & Hr & H). injection H as <-. destruct (IH _ Hr) as [H1 H2]. split.
    + intros q [->|Hq]%elem_of_cons Hd; [by exists own|by apply H1].
    + intros key [Hk|Hk]%elem_of_app; [exists p, own; split_and!; [by left|done..]|]. destruct (H2 key Hk) as (q & o & Hq & Hrest). exists q, o. split; [by right|done].
  - destruct (IH _ H) as [H1 H2]. split.
    + intros q [->|Hq]%elem_of_cons Hd; [congruence|by apply H1].
    + intros key Hk. destruct (H2 key Hk) as (q & o & Hq & Hrest). exists q, o. split; [by right|done].
Qed.
Lemma upstream_Ok all mode p keys : upstream all mode p = Ok keys → ReferencedParameters (p_sql p) all mode = Ok keys ∧
  ∀ key, key ∈ keys → ∃ q, q ∈ all ∧ p_key q = key ∧ p_order q < p_order p.
Proof.
  unfold upstream. destruct (_ =? _)%string; [done|]. intros (ks & Hk & H)%res_bind_Ok. destruct (forallb _ ks) eqn:Ef; [|done]. injection H as <-.
  split; [done|]. intros key Hin. destruct (ReferencedParameters_declared _ _ _ _ Hk key Hin) as [d Hd].
  rewrite forallb_forall in Ef. specialize (Ef key ltac:(by apply list_elem_of_In)). rewrite Hd in Ef. cbn in Ef. apply Z.ltb_lt in Ef.
  destruct (definitions_lookup _ _ _ Hd) as [Hq Hqk]. by exists d.
Qed.

(** In a template that passes [ValidateTemplateBinding] the parameters
    can be resolved one after the other: the option SQL of a dynamic
    parameter references only declared parameters of a strictly smaller
    display order, so references never form a cycle; and every declared
    parameter is referenced, by the report's SQL or by such an option SQL. *)
Theorem template_upstream (statement : string) (parameters : list ReportParameter) (mode : SQLMode)
    (Hvalid : ValidateTemplateBinding statement parameters mode = Ok tt) :
  (∀ p, p ∈ parameters → is_dynamic p = true → ∃ keys, ReferencedParameters (p_sql p) parameters mode = Ok keys ∧
    ∀ key, key ∈ keys → ∃ q, q ∈ parameters ∧ p_key q = key ∧ p_order q < p_order p) ∧
  ∀ p, p ∈ parameters → ∃ sql keys, (sql = statement ∨ ∃ q, q ∈ parameters ∧ is_dynamic q = true ∧ sql = p_sql q) ∧
    ReferencedParameters sql parameters mode = Ok keys ∧ p_key p ∈ keys.
Proof.
  unfold ValidateTemplateBinding in Hvalid. apply res_bind_Ok in Hvalid as ([] & _ & Hvalid). apply res_bind_Ok in Hvalid as (main & Hm & Hvalid).
  apply res_bind_Ok in Hvalid as (dynamic & Hd & Hvalid). destruct (forallb _ parameters) eqn:Ef; [|done].
  destruct (dynamic_references_Ok _ _ _ _ Hd) as [H1 H2]. split.
  - intros p Hp Hdy. destruct (H1 p Hp Hdy) as [own Ho]. exists own. by apply upstream_Ok.
  - intros p Hp. rewrite forallb_forall in Ef. specialize (Ef p ltac:(by apply list_elem_of_In)).
    apply bool_decide_eq_true_1 in Ef. apply elem_of_app in Ef as [Hk|Hk].
    + exists statement, main. split; [by left|done].
    + destruct (H2 _ Hk) as (q & own & Hq & Hdy & Ho & Hin). apply upstream_Ok in Ho as [Ho _]. exists (p_sql q), own. split; [right; by exists q|done].
Qed.
End Total.

(** ** The queries a template is checked with *)

Lemma state_queries_Ok statement parameters mode states : ∀ seen queries, state_queries statement parameters mode seen states = Ok queries →
  NoDup queries ∧ (∀ q, q ∈ queries → q ∉ seen) ∧ (length queries <= length states)%nat ∧
  ∀ state, state ∈ states → ∃ bound, Bind statement parameters (validation_values parameters state) mode = Ok bound ∧ (bound.1 ∈ seen ∨ bound.1 ∈ queries).
Proof.
  induction states as [|state states IH]; intros seen queries H; cbn [state_queries] in H.
  { injection H as <-. split_and!; [constructor|intros q Hq; by apply elem_of_nil in Hq|done|intros q Hq; by apply elem_of_nil in Hq]. }
  apply res_bind_Ok in H as (bound & Hb & H). case_bool_decide as Hin.
  - destruct (IH _ _ H) as (H1 & H2 & H3 & H4). split_and!; [done..|cbn; lia|]. intros x [->|Hx]%elem_of_cons; [exists bound; by auto|by apply H4].
  - apply res_bind_Ok in H as (rest & Hr & H). injection H as <-. destruct (IH _ _ Hr) as (H1 & H2 & H3 & H4). split_and!.
    + constructor; [|done]. intros Hx. apply (H2 _ Hx). by left.
    + intros q [->|Hq]%elem_of_cons; [done|]. intros Hx. apply (H2 _ Hq). by right.
    + cbn. lia.
    + intros x [->|Hx]%elem_of_cons; [exists bound; split; [done|right; by left]|]. destruct (H4 x Hx) as (b & Hb' & [Hs|Hs]).
      * exists b. split; [done|]. apply elem_of_cons in Hs as [->|Hs]; [right; by left|by left].
      * exists b. split; [done|right; by right].
Qed.
Lemma presence_states_length optional limit blocks : (length (presence_states optional limit blocks) <= limit)%nat.
Proof.
  unfold presence_states. assert (H : ∀ candidates states, (length states <= limit)%nat →
    (length (foldl (addState optional limit) states candidates) <= limit)%nat); [|apply H; cbn; lia].
  induction candidates as [|c candidates IH]; intros states Hl; [done|]. cbn [foldl]. apply IH. unfold addState.
  destruct (Nat.leb_spec limit (length states)); [done|]. case_bool_decide; [done|]. rewrite length_app. cbn. lia.
Qed.

(** [templateValidationQueries] gives at most [limit] queries, no two the
    same; and what is checked is what is sent: an input that gives values to
    the same parameters as one of the presence states (lists of one item)
    binds, and to one of these queries. *)
Theorem templateValidationQueries_cover (statement : string) (parameters : list ReportParameter) (mode : SQLMode) (limit : nat)
    (queries : list string) (Hok : templateValidationQueries statement parameters mode limit = Ok queries) :
  (length queries <= limit)%nat ∧ NoDup queries ∧
  ∀ s blocks state values, scanAndValidateStatement statement parameters mode = Ok (s, blocks) →
    state ∈ presence_states (optional_keys parameters) limit blocks →
    same_shape (definitions parameters) (validation_values parameters state) values →
    ∃ query arguments, Bind statement parameters values mode = Ok (query, arguments) ∧ query ∈ queries.
Proof.
  unfold templateValidationQueries in Hok. apply res_bind_Ok in Hok as ([s blocks] & Hv & Hok).
  destruct (Nat.eqb_spec limit 0) as [->|Hl].
  { injection Hok as <-. split; [done|]. split; [constructor|]. intros s' blocks' state values _ Hin. exfalso.
    pose proof (presence_states_length (optional_keys parameters) 0 blocks') as H0. destruct (presence_states _ _ _); [by apply elem_of_nil in Hin|cbn in H0; lia]. }
  apply state_queries_Ok in Hok as (Hnd & _ & Hlen & Hall). pose proof (presence_states_length (optional_keys parameters) limit blocks) as Hp. cbn [snd] in *.
  split; [lia|]. split; [done|]. intros s' blocks' state values Hv' Hin Hshape. rewrite Hv in Hv'. injection Hv' as <- <-.
  destruct (Hall state Hin) as ([query arguments] & Hb & [Hx|Hx]); [by apply elem_of_nil in Hx|]. cbn [fst] in Hx.
  pose proof (bind_shape statement _ _ _ mode Hshape) as E. rewrite Hb in E. destruct (Bind statement parameters values mode) as [[q a]|]; [|done].
  cbn in E. injection E as <- _. by exists query, a.
Qed.

(** ** A concrete template *)

Definition loan_parameters : list ReportParameter := [
  mkParameter "date" "Date" ParameterDate "" "" true None 0 [];
  mkParameter "products" "Products" ParameterMultipleOption "" "" false None 1 [mkOption "KPR" "Kpr" 0; mkOption "KMG" "Kmg" 1];
  mkParameter "enabled" "Enabled" ParameterBoolean "" "" false None 2 [];
  mkParameter "branch" "Branch" ParameterSingleOption "dynamic" "SELECT code, name FROM branches WHERE opened <= :date" false None 3 []].
Definition loan_sql : string :=
  "SELECT * FROM loans WHERE report_date=:date[[ AND product_id IN (:products) ]][[ AND enabled=:enabled AND branch=:branch]] ORDER BY id".
Definition loan_values (products : list string) : gmap string NormalizedValue := <["date" := text_value "2026-09-07"]> (
  <["products" := mkValue None products ∅]> (<["enabled" := no_value]> {["branch" := no_value]})).
Definition plain_mode : SQLMode := mkMode false false.
Definition loan_query : string := "SELECT * FROM loans WHERE report_date=? AND product_id IN (?,?)   ORDER BY id".

Lemma loan_bound : Bind loan_sql loan_parameters (loan_values ["KPR"; "KMG"]) plain_mode =
  Ok (loan_query, [Some (SText "2026-09-07"); Some (SText "KPR"); Some (SText "KMG")]).
Proof. vm_compute. reflexivity. Qed.

Lemma Bind_read_only_witness : ValidateReadOnlyStatement loan_query plain_mode = Ok tt.
Proof. exact (proj1 (Bind_read_only _ _ _ _ _ _ loan_bound)). Defined.

Lemma same_shape_check defs (values values' : gmap string NormalizedValue) :
  dom values = dom values' → map_Forall (λ key a, match values' !! key with
    | Some b => Provided a = Provided b ∧ (is_multiple defs key = true → length (Multi a) = length (Multi b)) | None => False end) values →
  same_shape defs values values'.
Proof.
  intros Hd Hf key. specialize (Hf key). destruct (values !! key) as [a|] eqn:E.
  - by apply Hf.
  - destruct (values' !! key) eqn:E'; [|done]. apply not_elem_of_dom in E. rewrite Hd in E. apply E. by apply elem_of_dom_2 in E'.
Qed.

Lemma loan_shape : same_shape (definitions loan_parameters) (loan_values ["KPR"; "KMG"]) (loan_values ["x' OR 1=1"; "--"]).
Proof.
  apply same_shape_check; [unfold loan_values; by rewrite !dom_insert_L, dom_singleton_L|].
  unfold loan_values. repeat (apply map_Forall_insert_2; [by vm_compute|]). apply map_Forall_empty.
Qed.
Lemma Bind_shape_witness : shape_of (Bind loan_sql loan_parameters (loan_values ["x' OR 1=1"; "--"]) plain_mode) = Ok (loan_query, 3%nat).
Proof. rewrite <- (Bind_shape loan_sql loan_parameters _ _ plain_mode loan_shape). vm_compute. reflexivity. Defined.

Definition plain_sql : string := "SELECT :products__count, name FROM loans WHERE opened = :date AND product IN (:products)".
Definition plain_input : gmap string InputValue := <["date" := mkInput true ["2026-09-07"]]> {["products" := mkInput true ["KMG"; "KPR"]]}.
Definition plain_scan : statementScan := Eval vm_compute in match scanStatement plain_sql plain_mode with Ok s => s | Err _ => scan no_scan end.
Lemma Bind_total_witness : ∃ query arguments, Bind plain_sql (take 2 loan_parameters) (loan_values ["KPR"; "KMG"]) plain_mode = Ok (query, arguments).
Proof.
  destruct (Bind_total (decimals := plain_decimal) false plain_sql (take 2 loan_parameters) plain_mode plain_input
    (<["date" := text_value "2026-09-07"]> {["products" := mkValue None ["KPR"; "KMG"] (<["KPR" := "Kpr"]> {["KMG" := "Kmg"]})]}) plain_scan)
    as (query & arguments & H); [vm_compute; reflexivity..|].
  exists query, arguments. rewrite <- H. vm_compute. reflexivity.
Defined.

Lemma template_upstream_witness :
  ValidateTemplateBinding (H := plain_decimal) loan_sql loan_parameters plain_mode = Ok tt ∧
  ∃ keys, ReferencedParameters "SELECT code, name FROM branches WHERE opened <= :date" loan_parameters plain_mode = Ok keys.
Proof.
  assert (E : ValidateTemplateBinding (H := plain_decimal) loan_sql loan_parameters plain_mode = Ok tt) by (vm_compute; reflexivity).
  split; [exact E|]. destruct (template_upstream (decimals := plain_decimal) _ _ _ E) as [H _].
  destruct (H (mkParameter "branch" "Branch" ParameterSingleOption "dynamic" "SELECT code, name FROM branches WHERE opened <= :date" false None 3 []))
    as (keys & Hk & _); [do 3 right; left|reflexivity|by exists keys].
Defined.

Definition loan_validated : statementScan * list validatedOptionalBlock :=
  Eval vm_compute in match scanAndValidateStatement loan_sql loan_parameters plain_mode with Ok v => v | Err _ => (scan no_scan, []) end.
Definition loan_queries : list string :=
  Eval vm_compute in match templateValidationQueries loan_sql loan_parameters plain_mode 64 with Ok queries => queries | Err _ => [] end.
Lemma one_product_shape : same_shape (definitions loan_parameters) (validation_values loan_parameters ["products"]) (loan_values ["KMG"]).
Proof.
  apply same_shape_check; [vm_compute; reflexivity|]. unfold loan_values.
  change (validation_values loan_parameters ["products"]) with
    (<["branch" := no_value]> (<["enabled" := no_value]> (<["products" := mkValue None [validation_text] ∅]>
      (<["date" := mkValue (Some (SText validation_text)) [] ∅]> (∅ : gmap string NormalizedValue))))).
  repeat (apply map_Forall_insert_2; [by vm_compute|]). apply map_Forall_empty.
Qed.
Lemma templateValidationQueries_cover_witness :
  ∃ query arguments, Bind loan_sql loan_parameters (loan_values ["KMG"]) plain_mode = Ok (query, arguments) ∧ query ∈ loan_queries.
Proof.
  assert (E : templateValidationQueries loan_sql loan_parameters plain_mode 64 = Ok loan_queries) by (vm_compute; reflexivity).
  destruct (templateValidationQueries_cover _ _ _ _ _ E) as (_ & _ & H).
  apply (H loan_validated.1 loan_validated.2 ["products"] (loan_values ["KMG"])); [vm_compute; reflexivity| |exact one_product_shape].
  change (presence_states (optional_keys loan_parameters) 64 loan_validated.2) with
    [[]; ["products"; "enabled"; "branch"]; ["products"]; ["enabled"; "branch"]; ["products"; "branch"]; ["products"; "enabled"]].
  do 2 right. left.
Defined.
