(* ===== verification/Totp.v ===== *)
(** * One-time codes (src/internal/mfa/totp.go, internal/auth/token.go)

    TOTP as RFC 6238 has it (SHA-1, six digits, 30 seconds), recovery codes
    and tokens.  SHA-1, HMAC and base 32 are written out, so codes compute;
    random bytes are arguments. *)

From S2P Require Import Prelude Calendar Hash AuditTrail SqlScan ReportParams.

Open Scope Z_scope.

Definition bytes_of (s : string) : list Z := (λ c, Z.of_N (code c)) <$> String.list_ascii_of_string s.
Definition text_of (l : list Z) : string := string_of_codes (Z.to_N <$> l).

(** ** SHA-1 and HMAC (crypto/sha1, crypto/hmac) *)

Definition rotl32 (n x : Z) : Z := Z.lor (word32 (Z.shiftl x n)) (Z.shiftr x (32 - n)).
Definition sha1_init : list Z := [1732584193; 4023233417; 2562383102; 271733878; 3285377520].

(** The message schedule, latest word first. *)
Fixpoint sha1_schedule (n : nat) (w : list Z) : list Z :=
  match n with
  | O => w
  | S n => sha1_schedule n (rotl32 1 (Z.lxor (Z.lxor (nth 2 w 0) (nth 7 w 0)) (Z.lxor (nth 13 w 0) (nth 15 w 0))) :: w)
  end.
Definition sha1_round (s : list Z) (tw : nat * Z) : list Z :=
  match s with
  | [a; b; c; d; e] =>
      let (f, k) :=
        if Nat.ltb tw.1 20 then (Z.lor (Z.land b c) (Z.land (Z.lxor b 4294967295) d), 1518500249)
        else if Nat.ltb tw.1 40 then (Z.lxor (Z.lxor b c) d, 1859775393)
        else if Nat.ltb tw.1 60 then (Z.lor (Z.lor (Z.land b c) (Z.land b d)) (Z.land c d), 2400959708)
        else (Z.lxor (Z.lxor b c) d, 3395469782) in
      [word32 (rotl32 5 a + f + e + k + tw.2); a; rotl32 30 b; c; d]
  | _ => s
  end.
Definition sha1_block (s block : list Z) : list Z :=
  let w := reverse (sha1_schedule 64 (reverse (be_words block))) in
  zip_with (λ x y, word32 (x + y)) s (foldl sha1_round s (zip (seq 0 80) w)).
Fixpoint sha1_blocks (fuel : nat) (s m : list Z) : list Z :=
  match fuel with
  | O => s
  | S fuel => match m with [] => s | _ => sha1_blocks fuel (sha1_block s (take 64 m)) (drop 64 m) end
  end.
(** Padding is that of SHA-256. *)
Definition sha1 (m : list Z) : list Z := sha1_blocks (length m / 64 + 2) sha1_init (sha256_pad m) ≫= be_bytes 4.

Definition hmac_sha1 (key message : list Z) : list Z :=
  let key := if Nat.ltb 64 (length key) then sha1 key else key in
  let key := key ++ replicate (64 - length key) 0 in
  sha1 ((Z.lxor 92 <$> key) ++ sha1 ((Z.lxor 54 <$> key) ++ message)).

(** ** Base 32 without padding (encoding/base32) *)

Definition base32_char (d : Z) : ascii := byte (Z.to_N (if d <? 26 then 65 + d else 24 + d)).
Definition base32_digit (c : ascii) : option Z :=
  if is_upper c then Some (Z.of_N (code c) - 65) else if in_range 50 55 c then Some (Z.of_N (code c) - 24) else None.

(** The digits of [n] in base [b], most significant first. *)
Definition digits_base (b : Z) (count : nat) (n : Z) : list Z :=
  (λ i : nat, (n / b ^ Z.of_nat i) mod b) <$> reverse (seq 0 count).
Definition of_base (b : Z) (l : list Z) : Z := foldl (λ n d, b * n + d) 0 l.

(** Characters for the bytes of a group, and back: 1, 2, 3 or 4 bytes need
    2, 4, 5 or 7 characters. *)
Definition group_chars (bytes : nat) : nat := (8 * bytes + 4) / 5.
Definition group_bytes (chars : nat) : nat := match chars with 8 => 5 | 7 => 4 | 5 => 3 | 4 => 2 | 2 => 1 | _ => 0 end%nat.
Definition encode_group (l : list Z) : list Z :=
  take (group_chars (length l)) (digits_base 32 8 (of_base 256 (l ++ replicate (5 - length l) 0))).
Definition decode_group (l : list Z) : list Z :=
  take (group_bytes (length l)) (digits_base 256 5 (of_base 32 (l ++ replicate (8 - length l) 0))).

Fixpoint base32_groups (fuel : nat) (l : list Z) : list Z :=
  match fuel, l with
  | S fuel, _ :: _ => encode_group (take 5 l) ++ base32_groups fuel (drop 5 l)
  | _, _ => []
  end.
Definition base32_encode (l : list Z) : string := String.string_of_list_ascii (base32_char <$> base32_groups (length l) l).

Fixpoint all_base32 (l : list ascii) : option (list Z) :=
  match l with
  | [] => Some []
  | c :: l => match base32_digit c, all_base32 l with Some d, Some ds => Some (d :: ds) | _, _ => None end
  end.
Fixpoint base32_ungroup (fuel : nat) (l : list Z) : list Z :=
  match fuel, l with
  | S fuel, _ :: _ => decode_group (take 8 l) ++ base32_ungroup fuel (drop 8 l)
  | _, _ => []
  end.
(** [DecodeString]: line breaks are skipped; a last group of 1, 3 or 6
    characters gives no byte and no error. *)
Definition base32_decode (s : string) : option (list Z) :=
  match all_base32 (filter (λ c, line_break c = false) (String.list_ascii_of_string s)) with
  | Some l => Some (base32_ungroup (length l) l)
  | None => None
  end.

(** ** Codes *)

Definition ChallengeLifetime : Z := 5 * minute.
Definition Freshness : Z := 10 * minute.
Definition MaxFailures : Z := 5.

Definition Recent (verified now : instant) : bool :=
  negb (verified =? zero_time) && (verified <=? now) && (now - verified <=? Freshness).

(** [random]: 20 bytes. *)
Definition NewSecret (random : list Z) : string := base32_encode random.

(** [%06d] *)
Definition six_digits (n : Z) : string := String.string_of_list_ascii (digit <$> digits_base 10 6 n).
Definition Code (secret : string) (counter : Z) : option string :=
  match base32_decode secret with
  | None => None
  | Some key =>
      let digest := hmac_sha1 key (be_bytes 8 counter) in
      let offset := Z.to_nat (Z.land (nth 19 digest 0) 15) in
      let value := Z.land (of_base 256 (take 4 (drop offset digest))) 2147483647 in
      Some (six_digits (value mod 1000000))
  end.

(** [now.Unix() / 30] *)
Definition time_step (now : instant) : Z := Z.quot (now / second) 30.
Fixpoint match_counters (secret input : string) (last : Z) (counters : list Z) : Z * bool :=
  match counters with
  | [] => (0, false)
  | counter :: counters =>
      if bool_decide (Code secret counter = Some input) then (counter, last <? counter)
      else match_counters secret input last counters
  end.
Definition Match (secret input : string) (now : instant) (last : Z) : Z * bool :=
  if negb (Nat.eqb (String.length input) 6) || negb (string_forallb is_digit input) then (0, false) else
  let current := time_step now in match_counters secret input last [current; current - 1; current + 1].

(** [random]: 16 bytes for each code. *)
Definition recovery_code (random : list Z) : string :=
  let s := base32_encode random in
  let part i := String.substring (5 * i) 5 s in
  part 0%nat +:+ "-" +:+ part 1%nat +:+ "-" +:+ part 2%nat +:+ "-" +:+ part 3%nat +:+ "-" +:+
  String.substring 20 (String.length s - 20) s.
Definition NewRecoveryCodes (random : list (list Z)) : list string := recovery_code <$> random.

(** [strings.ToUpper] without the dashes; runes that stay outside of ASCII
    are left as they are. *)
Definition recovery_text (input : string) : string :=
  upper_name (String.string_of_list_ascii (filter (λ c, c ≠ "-"%char) (String.list_ascii_of_string (trim_space input)))).
Definition RecoveryHash (userID : Z) (input : string) : string :=
  sha256 ("mfa-recovery:" +:+ FormatInt userID +:+ ":" +:+ recovery_text input).

(** ** Tokens *)

Definition base64url_char (d : Z) : ascii :=
  byte (Z.to_N (if d <? 26 then 65 + d else if d <? 52 then 71 + d else if d <? 62 then d - 4 else if d =? 62 then 45 else 95)).
Fixpoint base64_groups (fuel : nat) (l : list Z) : list Z :=
  match fuel, l with
  | S fuel, _ :: _ =>
      take (S (length (take 3 l))) (digits_base 64 4 (of_base 256 (take 3 l ++ replicate (3 - length (take 3 l)) 0))) ++
      base64_groups fuel (drop 3 l)
  | _, _ => []
  end.
(** [random]: 32 bytes. *)
Definition GenerateToken (random : list Z) : string :=
  String.string_of_list_ascii (base64url_char <$> base64_groups (length random) random).
Definition HashToken (token : string) : string := sha256 token.

(** ** Base 32 round trip *)

Lemma of_base_cons b d l : of_base b (d :: l) = d * b ^ Z.of_nat (length l) + of_base b l.
Proof.
  unfold of_base. cbn [foldl]. rewrite Z.mul_0_r, Z.add_0_l. assert (H : ∀ l n, foldl (λ n d, b * n + d) n l = n * b ^ Z.of_nat (length l) + foldl (λ n d, b * n + d) 0 l).
  { clear. intros l. induction l as [|x l IH]; intros n; [cbn; lia|]. cbn [foldl length]. rewrite IH, (IH (b * 0 + x)).
    rewrite Nat2Z.inj_succ, Z.pow_succ_r by lia. lia. }
  apply H.
Qed.
Lemma of_base_app b l l' : of_base b (l ++ l') = of_base b l * b ^ Z.of_nat (length l') + of_base b l'.
Proof.
  induction l as [|d l IH]; [change (of_base b []) with 0; cbn [app]; lia|]. cbn [app]. rewrite !of_base_cons, IH, length_app, Nat2Z.inj_add, Z.pow_add_r by lia. lia.
Qed.
Lemma of_base_zeros b n : of_base b (replicate n 0) = 0.
Proof. induction n as [|n IH]; [done|]. cbn [replicate]. by rewrite of_base_cons, IH. Qed.
Lemma digits_base_S b k n : digits_base b (S k) n = (n / b ^ Z.of_nat k) mod b :: digits_base b k n.
Proof. unfold digits_base. rewrite seq_S, reverse_snoc. done. Qed.

Definition in_base (b : Z) (l : list Z) : Prop := Forall (λ d, 0 <= d < b) l.
Lemma of_base_bound b l : 1 < b → in_base b l → 0 <= of_base b l < b ^ Z.of_nat (length l).
Proof.
  intros Hb. induction 1 as [|d l Hd _ IH]; [cbn; lia|]. rewrite of_base_cons. cbn [length]. rewrite Nat2Z.inj_succ, Z.pow_succ_r by lia. nia.
Qed.
Lemma digits_of_base b l : 1 < b → in_base b l → ∀ m, digits_base b (length l) (m * b ^ Z.of_nat (length l) + of_base b l) = l.
Proof.
  intros Hb. induction 1 as [|d l Hd Hl IH]; intros m; [done|]. cbn [length]. rewrite digits_base_S.
  pose proof (of_base_bound b l Hb Hl) as Hbd. assert (Hp : 0 < b ^ Z.of_nat (length l)) by lia.
  assert (E : m * b ^ Z.of_nat (S (length l)) + of_base b (d :: l) = (m * b + d) * b ^ Z.of_nat (length l) + of_base b l).
  { rewrite of_base_cons, Nat2Z.inj_succ, Z.pow_succ_r by lia. lia. }
  rewrite E, IH. f_equal. rewrite Z.div_add_l, (Z.div_small (of_base b l)), Z.add_0_r by lia.
  rewrite Z.add_comm, Z.mod_add by lia. by apply Z.mod_small.
Qed.
Lemma of_base_digits b k : 1 < b → ∀ n, 0 <= n → of_base b (digits_base b k n) = n mod b ^ Z.of_nat k.
Proof.
  intros Hb. induction k as [|k IH]; intros n Hn; [by rewrite Z.mod_1_r|]. rewrite digits_base_S, of_base_cons, IH by done.
  assert (Hl : length (digits_base b k n) = k) by (unfold digits_base; by rewrite length_fmap, length_reverse, length_seq).
  rewrite Hl, Nat2Z.inj_succ, Z.pow_succ_r by lia. rewrite (Z.mul_comm b), Z.rem_mul_r by lia. lia.
Qed.
Lemma digits_base_length b k n : length (digits_base b k n) = k.
Proof. unfold digits_base. by rewrite length_fmap, length_reverse, length_seq. Qed.
Lemma digits_base_drop b k j n : (j <= k)%nat → drop (k - j) (digits_base b k n) = digits_base b j n.
Proof.
  induction k as [|k IH]; intros Hj; [by replace j with 0%nat by lia|]. destruct (decide (j = S k)) as [->|].
  { by rewrite Nat.sub_diag. }
  replace (S k - j)%nat with (S (k - j)) by lia. rewrite digits_base_S. cbn [drop]. apply IH. lia.
Qed.
Lemma digits_base_zeros b j a : 1 < b → digits_base b j (a * b ^ Z.of_nat j) = replicate j 0.
Proof.
  intros Hb. assert (H : ∀ m, (j <= m)%nat → digits_base b j (a * b ^ Z.of_nat m) = replicate j 0); [|by apply H].
  induction j as [|j IH]; intros m Hm; [done|]. rewrite digits_base_S, IH by lia. cbn [replicate]. f_equal.
  replace (Z.of_nat m) with (Z.of_nat (m - S j) + 1 + Z.of_nat j) by lia. rewrite !Z.pow_add_r by lia.
  rewrite Z.mul_assoc, Z.div_mul by (apply Z.pow_nonzero; lia). rewrite Z.pow_1_r, Z.mul_assoc. apply Z.mod_mul. lia.
Qed.
Lemma digits_in_base b k n : 0 < b → in_base b (digits_base b k n).
Proof. intros Hb. unfold digits_base, in_base. apply Forall_fmap, Forall_forall. intros i _. cbn. by apply Z.mod_pos_bound. Qed.

Lemma decode_encode_group l : in_base 256 l → (1 <= length l <= 5)%nat → decode_group (encode_group l) = l.
Proof.
  intros Hl Hk. set (j := (5 - length l)%nat). set (N := of_base 256 (l ++ replicate j 0)).
  assert (HN : N = of_base 256 l * 256 ^ Z.of_nat j) by (unfold N; rewrite of_base_app, of_base_zeros, length_replicate; lia).
  pose proof (of_base_bound 256 l ltac:(lia) Hl) as Hb. set (g := group_chars (length l)).
  assert (Hg : group_bytes g = length l ∧ (g <= 8)%nat ∧ ∃ c, 256 ^ Z.of_nat j = c * 32 ^ Z.of_nat (8 - g)).
  { subst g j. assert (length l = 1 ∨ length l = 2 ∨ length l = 3 ∨ length l = 4 ∨ length l = 5)%nat as [->|[->|[->|[->| ->]]]] by lia;
      (split; [done|]; split; [cbn; lia|]); [by exists 4|by exists 16|by exists 2|by exists 8|by exists 1]. }
  destruct Hg as (Hgb & Hg8 & c & Hc).
  assert (HNb : 0 <= N < 256 ^ 5).
  { rewrite HN. assert (256 ^ 5 = 256 ^ Z.of_nat (length l) * 256 ^ Z.of_nat j) as ->.
    { rewrite <- Z.pow_add_r by lia. f_equal. subst j. lia. } pose proof (Z.pow_pos_nonneg 256 (Z.of_nat j)). nia. }
  assert (Henc : encode_group l ++ replicate (8 - g) 0 = digits_base 32 8 N).
  { unfold encode_group. fold j g N. rewrite <- (take_drop g (digits_base 32 8 N)) at 2. f_equal.
    pose proof (digits_base_drop 32 8 (8 - g) N ltac:(lia)) as E. replace (8 - (8 - g))%nat with g in E by lia. rewrite E, HN, Hc, Z.mul_assoc.
    symmetry. apply digits_base_zeros. lia. }
  assert (Hlen : length (encode_group l) = g).
  { unfold encode_group. fold j g N. rewrite length_take, digits_base_length. lia. }
  unfold decode_group. rewrite Hlen, Henc, of_base_digits by lia. rewrite Z.mod_small by (cbn; lia). rewrite Hgb.
  assert (Hd : digits_base 256 5 N = l ++ replicate j 0).
  { assert (E5 : length (l ++ replicate j 0) = 5%nat) by (rewrite length_app, length_replicate; subst j; lia).
    assert (Hin : in_base 256 (l ++ replicate j 0)) by (apply Forall_app; split; [done|]; apply Forall_replicate; lia).
    pose proof (digits_of_base 256 _ ltac:(lia) Hin 0) as E. rewrite E5, Z.mul_0_l, Z.add_0_l in E. exact E. }
  by rewrite Hd, take_app_length.
Qed.

Lemma encode_group_length l : (length l <= 5)%nat → length (encode_group l) = group_chars (length l).
Proof.
  intros Hl. unfold encode_group. rewrite length_take, digits_base_length.
  assert (group_chars (length l) <= 8)%nat; [|lia]. unfold group_chars.
  transitivity ((8 * 5 + 4) / 5)%nat; [apply Nat.Div0.div_le_mono; lia|done].
Qed.
Lemma base32_groups_digits fuel : ∀ l, in_base 32 (base32_groups fuel l).
Proof.
  induction fuel as [|fuel IH]; intros l; [constructor|]. destruct l as [|x l]; [constructor|]. cbn [base32_groups]. apply Forall_app. split; [|apply IH].
  unfold encode_group. apply Forall_take, digits_in_base. lia.
Qed.
Lemma ungroup_groups n : ∀ l fuel fuel', (length l <= n)%nat → (length l <= fuel)%nat → (length (base32_groups fuel l) <= fuel')%nat → in_base 256 l →
  base32_ungroup fuel' (base32_groups fuel l) = l.
Proof.
  induction n as [|n IH]; intros l fuel fuel' Hn Hf Hf' Hl.
  { destruct l; [|cbn in Hn; lia]. destruct fuel; by destruct fuel'. }
  destruct l as [|x l]; [destruct fuel; by destruct fuel'|]. destruct fuel as [|fuel]; [cbn in Hf; lia|]. cbn [base32_groups] in *.
  set (h := take 5 (x :: l)) in *. assert (Hh : (1 <= length h <= 5)%nat) by (subst h; rewrite length_take; cbn [length]; lia).
  pose proof (encode_group_length h ltac:(lia)) as Hg.
  assert (Hpos : (2 <= group_chars (length h))%nat).
  { unfold group_chars. transitivity ((8 * 1 + 4) / 5)%nat; [done|apply Nat.Div0.div_le_mono; lia]. }
  destruct fuel' as [|fuel']; [rewrite length_app in Hf'; lia|].
  assert (E : decode_group (take 8 (encode_group h ++ base32_groups fuel (drop 5 (x :: l)))) = h ∧
    drop 8 (encode_group h ++ base32_groups fuel (drop 5 (x :: l))) = base32_groups fuel (drop 5 (x :: l))).
  { destruct (decide (5 <= length (x :: l))%nat) as [H5|H5].
    - assert (E8 : length (encode_group h) = 8%nat) by (rewrite Hg; subst h; rewrite length_take, Nat.min_l by done; done).
      rewrite <- E8, take_app_length, drop_app_length. split; [|done]. apply decode_encode_group; [subst h; by apply Forall_take|lia].
    - rewrite (drop_ge (x :: l)) by lia. assert (base32_groups fuel [] = []) as -> by (by destruct fuel). rewrite app_nil_r.
      assert (group_chars (length h) <= 8)%nat.
      { unfold group_chars. transitivity ((8 * 5 + 4) / 5)%nat; [apply Nat.Div0.div_le_mono; lia|done]. }
      rewrite take_ge, drop_ge by lia. split; [|done]. apply decode_encode_group; [subst h; by apply Forall_take|lia]. }
  destruct E as [E1 E2]. assert (Hf2 := Hf'). destruct (encode_group h ++ base32_groups fuel (drop 5 (x :: l))) as [|y t] eqn:Ey.
  { apply (f_equal length) in Ey. rewrite length_app in Ey. cbn [length] in Ey. lia. }
  cbn [base32_ungroup]. rewrite E1, E2, IH.
  - subst h. apply take_drop.
  - rewrite length_drop. cbn [length] in *. lia.
  - rewrite length_drop. cbn [length] in *. lia.
  - rewrite <- Ey, length_app in Hf2. lia.
  - by apply Forall_drop.
Qed.

Lemma base32_digit_char d : 0 <= d < 32 → base32_digit (base32_char d) = Some d ∧ line_break (base32_char d) = false.
Proof.
  intros Hd. assert (H : forallb (λ d : nat, bool_decide (base32_digit (base32_char (Z.of_nat d)) = Some (Z.of_nat d)) &&
    negb (line_break (base32_char (Z.of_nat d)))) (seq 0 32) = true) by (vm_compute; reflexivity).
  rewrite forallb_forall in H. specialize (H (Z.to_nat d) ltac:(apply in_seq; lia)). apply andb_true_iff in H as [H1%bool_decide_eq_true H2%negb_true_iff].
  rewrite Z2Nat.id in * by lia. done.
Qed.
Lemma all_base32_chars l : in_base 32 l → all_base32 (base32_char <$> l) = Some l ∧
  filter (λ c, line_break c = false) (base32_char <$> l) = base32_char <$> l.
Proof.
  induction 1 as [|d l Hd _ [IH1 IH2]]; [done|]. destruct (base32_digit_char d Hd) as [H1 H2]. rewrite fmap_cons, filter_cons_True by done.
  cbn [all_base32]. by rewrite H1, IH1, IH2.
Qed.

(** Every byte string is read back from its base 32 text. *)
Lemma base32_round_trip l : in_base 256 l → base32_decode (base32_encode l) = Some l.
Proof.
  intros Hl. unfold base32_decode, base32_encode. rewrite String.list_ascii_of_string_of_list_ascii.
  destruct (all_base32_chars _ (base32_groups_digits (length l) l)) as [H1 ->]. rewrite H1. f_equal. by apply (ungroup_groups (length l)).
Qed.

(** ** Codes *)

(** A new secret has a code at every time. *)
Lemma Code_NewSecret random counter : in_base 256 random → is_Some (Code (NewSecret random) counter).
Proof. intros Hr. unfold Code, NewSecret. rewrite base32_round_trip by done. by eexists. Qed.

Lemma match_counters_Some secret input last counters c : match_counters secret input last counters = (c, true) →
  c ∈ counters ∧ Code secret c = Some input ∧ last < c.
Proof.
  induction counters as [|x l IH]; [done|]. cbn [match_counters]. case_bool_decide as E; [|intros H; destruct (IH H); split; [by right|done]].
  intros [= <- Hl]. split; [by left|]. split; [done|]. by apply Z.ltb_lt.
Qed.
(** A code that matches is the code of a time step around now, after the
    last one that was accepted. *)
Lemma Match_Some secret input now last c : Match secret input now last = (c, true) →
  Code secret c = Some input ∧ time_step now - 1 <= c <= time_step now + 1 ∧ last < c.
Proof.
  unfold Match. destruct (_ || _); [done|]. intros (Hin & Hc & Hl)%match_counters_Some. split; [done|]. split; [|done].
  rewrite !elem_of_cons in Hin. destruct Hin as [->|[->|[->|H]]]; [lia..|]. by apply elem_of_nil in H.
Qed.

(** The test vectors of RFC 6238 that the sources check. *)
Example rfc6238_vectors : (λ t, Code (base32_encode (bytes_of "12345678901234567890")) (t / 30)) <$>
  [59; 1111111109; 1111111111; 1234567890; 2000000000; 20000000000] =
  [Some "287082"; Some "081804"; Some "050471"; Some "005924"; Some "279037"; Some "353130"].
Proof. vm_compute. reflexivity. Qed.
