(* ===== verification/Secrets.v ===== *)
(** * Encrypted secrets (src/internal/secretcrypto/crypto.go)

    Envelopes around authenticated encryption: a version byte, the nonce and
    the sealed text, bound to a purpose and a record.  AES-GCM itself is the
    interface [Aead]; random nonces are arguments. *)

From S2P Require Import Prelude Hash Totp.

Open Scope Z_scope.

Definition Purpose := string.
Definition PurposeReportingDatasourcePassword : Purpose := "reporting-datasource-password".
Definition PurposeFincloudAuthPassword : Purpose := "fincloud-auth-profile-password".
Definition PurposeMFATOTPActive : Purpose := "mfa-totp-active".
Definition PurposeMFATOTPPending : Purpose := "mfa-totp-pending".
Definition versionLegacyReporting : ascii := byte 1.
Definition versionPurposeBound : ascii := byte 2.

Definition validPurpose (purpose : Purpose) : bool :=
  (purpose =? PurposeReportingDatasourcePassword)%string || (purpose =? PurposeFincloudAuthPassword)%string ||
  (purpose =? PurposeMFATOTPActive)%string || (purpose =? PurposeMFATOTPPending)%string.

(** What crypto/cipher documents of GCM: 12 bytes of nonce, 16 of overhead,
    and what was sealed is opened with the same nonce and data. *)
Class Aead := {
  aead_seal : string → string → string → string;         (* nonce, plaintext, additional data *)
  aead_open : string → string → string → option string;  (* nonce, ciphertext, additional data *)
  aead_length : ∀ nonce text data, String.length (aead_seal nonce text data) = (String.length text + 16)%nat;
  aead_open_seal : ∀ nonce text data, aead_open nonce (aead_seal nonce text data) data = Some text }.

Definition zero_byte : string := String (byte 0) "".
Definition domain : string := "new-dwh-secret" +:+ zero_byte.
Definition purposeAAD (purpose : Purpose) (recordID : Z) : string := domain +:+ purpose +:+ zero_byte +:+ text_of (be_bytes 8 recordID).
Definition legacyReportingAAD (recordID : Z) : string := text_of (be_bytes 8 recordID).

Definition bad_envelope : error := Errorf "unsupported secret envelope".
(** [s[n:]] *)
Definition suffix_of (n : nat) (s : string) : string := String.substring n (String.length s - n) s.

Section Cipher.
Context `{Aead}.

Definition Encrypt (nonce : string) (purpose : Purpose) (recordID : Z) (plaintext : string) : result string :=
  if negb (validPurpose purpose) || (recordID =? 0) then Err (Errorf "secret purpose and record ID are required") else
  Ok (String versionPurposeBound (nonce +:+ aead_seal nonce plaintext (purposeAAD purpose recordID))).

Definition Decrypt (purpose : Purpose) (recordID : Z) (encoded : string) : result string :=
  if negb (validPurpose purpose) || (recordID =? 0) then Err (Errorf "secret purpose and record ID are required") else
  if Nat.ltb (String.length encoded) (1 + 12 + 16) then Err bad_envelope else
  match encoded with
  | "" => Err bad_envelope
  | String version rest =>
      let? data :=
        if (version =? versionPurposeBound)%char then Ok (purposeAAD purpose recordID)
        else if (version =? versionLegacyReporting)%char then
          if negb (purpose =? PurposeReportingDatasourcePassword)%string then Err bad_envelope else Ok (legacyReportingAAD recordID)
        else Err bad_envelope in
      match aead_open (prefix_of 12 rest) (suffix_of 12 rest) data with
      | Some text => Ok text
      | None => Err (Errorf "decrypt secret")
      end
  end.

(** ** Round trip *)

Lemma prefix_suffix a b : prefix_of (String.length a) (a +:+ b) = a ∧ suffix_of (String.length a) (a +:+ b) = b.
Proof.
  split; [apply substring_app|]. unfold suffix_of. rewrite string_length_app.
  replace (String.length a + String.length b - String.length a)%nat with (String.length b) by lia.
  induction a as [|c a IH]; [|exact IH]. change ("" +:+ b) with b. change (String.length "") with 0%nat. induction b as [|c b IH]; [done|]. cbn [String.length String.substring]. by rewrite IH.
Qed.

Lemma Decrypt_Encrypt nonce purpose recordID plaintext encoded : String.length nonce = 12%nat →
  Encrypt nonce purpose recordID plaintext = Ok encoded → Decrypt purpose recordID encoded = Ok plaintext.
Proof.
  unfold Encrypt, Decrypt. intros Hn. destruct (_ || _); [done|]. intros [= <-].
  destruct (prefix_suffix nonce (aead_seal nonce plaintext (purposeAAD purpose recordID))) as [Hp Hs]. rewrite Hn in Hp, Hs.
  cbn [String.length]. rewrite string_length_app, Hn, aead_length, (proj2 (Nat.ltb_ge _ _)) by lia.
  change ((versionPurposeBound =? versionPurposeBound)%char) with true. cbn [res_bind]. by rewrite Hp, Hs, aead_open_seal.
Qed.
End Cipher.

(** ** Envelopes are bound to one purpose and one record *)

Lemma text_of_be_bytes_inj n a b : 0 <= a < 2 ^ 64 → 0 <= b < 2 ^ 64 → n = 8%nat → text_of (be_bytes n a) = text_of (be_bytes n b) → a = b.
Proof.
  intros Ha Hb -> H. unfold text_of, string_of_codes in H. apply (f_equal String.list_ascii_of_string) in H.
  rewrite !String.list_ascii_of_string_of_list_ascii, <- !list_fmap_compose in H.
  assert (Hinj : ∀ l l' : list Z, Forall (λ x, 0 <= x < 256) l → Forall (λ x, 0 <= x < 256) l' →
    byte ∘ Z.to_N <$> l = byte ∘ Z.to_N <$> l' → l = l').
  { induction l as [|x l IH]; intros [|y l'] Hl Hl' E; [done..|]. apply Forall_cons in Hl as [Hx Hl], Hl' as [Hy Hl'].
    injection E as E El. f_equal; [|by apply IH]. apply (f_equal code) in E. unfold byte, code in E.
    rewrite !N_ascii_embedding in E by lia. lia. }
  assert (Hbytes : ∀ z, Forall (λ x, 0 <= x < 256) (be_bytes 8 z)).
  { intros z. unfold be_bytes. apply Forall_fmap, Forall_forall. intros i _. cbn. change 255 with (Z.ones 8).
    rewrite Z.land_ones by lia. apply Z.mod_pos_bound. lia. }
  specialize (Hinj _ _ (Hbytes a) (Hbytes b) H).
  assert (Hof : ∀ z, be_bytes 8 z = digits_base 256 8 z).
  { intros z. unfold be_bytes, digits_base. apply list_fmap_ext. intros _ i _. change 255 with (Z.ones 8). rewrite Z.land_ones by lia.
    rewrite Z.shiftr_div_pow2 by lia. by rewrite Z.pow_mul_r by lia. }
  rewrite !Hof in Hinj. apply (f_equal (of_base 256)) in Hinj. rewrite !of_base_digits in Hinj by lia.
  by rewrite !Z.mod_small in Hinj by lia.
Qed.

Lemma string_app_inj a : ∀ b c d, String.length a = String.length c → a +:+ b = c +:+ d → a = c ∧ b = d.
Proof.
  induction a as [|x a IH]; intros b [|y c] d Hl E; try done. rewrite !string_app_cons in E. injection E as <- E. injection Hl as Hl.
  destruct (IH _ _ _ Hl E) as [-> ->]. done.
Qed.
Lemma purposeAAD_inj p p' i i' : validPurpose p = true → validPurpose p' = true → 0 <= i < 2 ^ 64 → 0 <= i' < 2 ^ 64 →
  purposeAAD p i = purposeAAD p' i' → p = p' ∧ i = i'.
Proof.
  intros Hp Hp' Hi Hi' E. unfold purposeAAD in E. apply string_app_inj in E as [_ E]; [|done].
  assert (Hlen : ∀ z, String.length (text_of (be_bytes 8 z)) = 8%nat).
  { intros z. unfold text_of. by rewrite string_of_codes_length, length_fmap, be_bytes_length. }
  assert (Hl : String.length p = String.length p').
  { apply (f_equal String.length) in E. rewrite !string_length_app, !Hlen in E. lia. }
  apply string_app_inj in E as [-> E]; [|done]. split; [done|]. apply string_app_inj in E as [_ E]; [|done].
  by apply (text_of_be_bytes_inj 8).
Qed.
