(* ===== verification/BrowserStore.v ===== *)
(** * Users, roles and browser sessions in the database
    (src/migrations, internal/auth/repository.go)

    The tables behind browser security: users and roles, sessions, and the
    multi-factor state (challenges, enrollments, recovery codes), with the
    statements sent to them and the cascades of their foreign keys.  It is a
    store of its own: no transaction of the program touches both it and the
    ingestion tables of Store.v.  [created_at] and [updated_at] columns that
    nothing reads are left out. *)

From S2P Require Import Prelude Calendar Access AuditTrail Hash.
From stdpp Require Import gmap.

Open Scope Z_scope.

Record role_row := mkRoleRow { rl_name : string; rl_slug : string; rl_system : bool; rl_permissions : gset string }.
Record user_row := mkUserRow {
  us_username : string; us_name : string; us_password : string; us_role : Z; us_active : bool; us_last_login : option instant }.
Record session_row := mkSession {
  se_id : Z; se_user : Z; se_impersonated : option Z; se_token : string; se_remember : bool; se_expires : instant;
  se_last_seen : instant; se_verified : instant }.

(** [chk_mfa_challenge_purpose] *)
Inductive challenge_purpose := Login | Enrollment | StepUp | Rotation | RotateAuthorize | Regenerate.
#[export] Instance challenge_purpose_eq_dec : EqDecision challenge_purpose. Proof. solve_decision. Defined.
Record Challenge := mkChallenge {
  ch_id : Z; ch_token : string; ch_user : Z; ch_session : option Z; ch_purpose : challenge_purpose; ch_pending : option string;
  ch_remember : bool; ch_next : string; ch_failures : Z; ch_expires : instant; ch_consumed : option instant }.
Record enrollment := mkEnrollment { en_secret : string; en_last : Z; en_enrolled : instant }.

Record bdb := mkBdb {
  b_users : gmap Z user_row; b_next_user : Z;
  b_roles : gmap Z role_row; b_next_role : Z;
  b_permissions : gset string;                         (* the keys of [permissions] *)
  b_sessions : gmap Z session_row; b_next_session : Z;
  b_challenges : gmap Z Challenge; b_next_challenge : Z;
  b_enrollments : gmap Z enrollment;
  b_codes : gmap (Z * string) (option instant);        (* user and code hash; used_at *)
  b_audit : list audit_row }.

Definition set_b_users (x : gmap Z user_row) (d : bdb) : bdb :=
  mkBdb x (b_next_user d) (b_roles d) (b_next_role d) (b_permissions d) (b_sessions d)
    (b_next_session d) (b_challenges d) (b_next_challenge d) (b_enrollments d) (b_codes d) (b_audit d).
Definition set_b_next_user (x : Z) (d : bdb) : bdb :=
  mkBdb (b_users d) x (b_roles d) (b_next_role d) (b_permissions d) (b_sessions d)
    (b_next_session d) (b_challenges d) (b_next_challenge d) (b_enrollments d) (b_codes d) (b_audit d).
Definition set_b_roles (x : gmap Z role_row) (d : bdb) : bdb :=
  mkBdb (b_users d) (b_next_user d) x (b_next_role d) (b_permissions d) (b_sessions d)
    (b_next_session d) (b_challenges d) (b_next_challenge d) (b_enrollments d) (b_codes d) (b_audit d).
Definition set_b_next_role (x : Z) (d : bdb) : bdb :=
  mkBdb (b_users d) (b_next_user d) (b_roles d) x (b_permissions d) (b_sessions d)
    (b_next_session d) (b_challenges d) (b_next_challenge d) (b_enrollments d) (b_codes d) (b_audit d).
Definition set_b_sessions (x : gmap Z session_row) (d : bdb) : bdb :=
  mkBdb (b_users d) (b_next_user d) (b_roles d) (b_next_role d) (b_permissions d) x
    (b_next_session d) (b_challenges d) (b_next_challenge d) (b_enrollments d) (b_codes d) (b_audit d).
Definition set_b_next_session (x : Z) (d : bdb) : bdb :=
  mkBdb (b_users d) (b_next_user d) (b_roles d) (b_next_role d) (b_permissions d) (b_sessions d)
    x (b_challenges d) (b_next_challenge d) (b_enrollments d) (b_codes d) (b_audit d).
Definition set_b_challenges (x : gmap Z Challenge) (d : bdb) : bdb :=
  mkBdb (b_users d) (b_next_user d) (b_roles d) (b_next_role d) (b_permissions d) (b_sessions d)
    (b_next_session d) x (b_next_challenge d) (b_enrollments d) (b_codes d) (b_audit d).
Definition set_b_next_challenge (x : Z) (d : bdb) : bdb :=
  mkBdb (b_users d) (b_next_user d) (b_roles d) (b_next_role d) (b_permissions d) (b_sessions d)
    (b_next_session d) (b_challenges d) x (b_enrollments d) (b_codes d) (b_audit d).
Definition set_b_enrollments (x : gmap Z enrollment) (d : bdb) : bdb :=
  mkBdb (b_users d) (b_next_user d) (b_roles d) (b_next_role d) (b_permissions d) (b_sessions d)
    (b_next_session d) (b_challenges d) (b_next_challenge d) x (b_codes d) (b_audit d).
Definition set_b_codes (x : gmap (Z * string) (option instant)) (d : bdb) : bdb :=
  mkBdb (b_users d) (b_next_user d) (b_roles d) (b_next_role d) (b_permissions d) (b_sessions d)
    (b_next_session d) (b_challenges d) (b_next_challenge d) (b_enrollments d) x (b_audit d).
Definition set_b_audit (x : list audit_row) (d : bdb) : bdb :=
  mkBdb (b_users d) (b_next_user d) (b_roles d) (b_next_role d) (b_permissions d) (b_sessions d)
    (b_next_session d) (b_challenges d) (b_next_challenge d) (b_enrollments d) (b_codes d) x.

(** ** The audit log *)

Definition known (d : bdb) (user : Z) : bool := isSome (b_users d !! user).
Definition known_identity (d : bdb) (identity : option Identity) : bool :=
  match identity with Some i => known d (UserID i) | None => true end.
Definition insert_browser_audit (row : audit_row) : Tx bdb unit := λ d,
  if negb (known_identity d (al_actor row) && known_identity d (al_effective row)) then Err ErrForeignKey
  else Ok (tt, set_b_audit (b_audit d ++ [row]) d).
#[export] Program Instance browser_audit : AuditLog bdb := {|
  audit_logs := b_audit; known_user := known; insert_audit := insert_browser_audit |}.
Next Obligation. intros row d r. unfold insert_browser_audit. case_match; [done|]. by intros [= <-]. Qed.
Next Obligation. intros row d e. unfold insert_browser_audit. case_match; naive_solver. Qed.

(** ** Sessions *)

(** The first row a query gives, or [sql.ErrNoRows]. *)
Definition find_row {K A} `{Countable K} (cond : A → bool) (t : gmap K A) : option A :=
  head (filter (λ a, cond a = true) (map_to_list t).*2).
Definition exists_row {K A} `{Countable K} (cond : A → bool) (t : gmap K A) : bool := isSome (find_row cond t).

Definition insert_session (row : Z → session_row) : Tx bdb Z := λ d,
  let id := b_next_session d in
  if exists_row (λ s, (se_token s =? se_token (row id))%string) (b_sessions d) then Err ErrDuplicateKey else
  if negb (known d (se_user (row id))) then Err ErrForeignKey else
  Ok (id, set_b_next_session (id + 1) (set_b_sessions (<[id := row id]> (b_sessions d)) d)).

(** [DELETE FROM sessions WHERE ...], with the cascade to the challenges. *)
Definition session_alive (sessions : gmap Z session_row) (c : Challenge) : bool :=
  match ch_session c with Some id => isSome (sessions !! id) | None => true end.
Definition delete_sessions (cond : session_row → bool) (d : bdb) : bdb :=
  let kept := filter (λ r, cond r.2 = false) (b_sessions d) in
  set_b_challenges (filter (λ r, session_alive kept r.2 = true) (b_challenges d)) (set_b_sessions kept d).
Definition delete_challenges (cond : Challenge → bool) (d : bdb) : bdb :=
  set_b_challenges (filter (λ r, cond r.2 = false) (b_challenges d)) d.

Definition ErrSessionNotFound : error := Errorf "session not found".
Definition ErrSessionIdentityInvalid : error := Errorf "session identity is invalid".
Definition FindValidSession (token_hash : string) (now : instant) (d : bdb) : result session_row :=
  match find_row (λ s, (se_token s =? token_hash)%string && (now <? se_expires s)) (b_sessions d) with
  | Some s => Ok s
  | None => Err ErrSessionNotFound
  end.
Definition UpdateLastSeenAt (id : Z) (now : instant) (d : bdb) : bdb :=
  set_b_sessions (alter (λ s, mkSession (se_id s) (se_user s) (se_impersonated s) (se_token s) (se_remember s) (se_expires s) now (se_verified s))
    id (b_sessions d)) d.
Definition Revoke (token_hash : string) : bdb → bdb := delete_sessions (λ s, (se_token s =? token_hash)%string).
Definition RevokeAllForUser (user : Z) : bdb → bdb := delete_sessions (λ s, se_user s =? user).
Definition DeleteExpired (now : instant) (d : bdb) : bdb :=
  delete_sessions (λ s, se_expires s <=? now) (delete_challenges (λ c, ch_expires c <=? now) d).

Record CreateSessionParams := mkSessionParams {
  cs_user : Z; cs_token : string; cs_remember : bool; cs_expires : instant; cs_last_seen : instant; cs_verified : instant }.
Definition CreateSessionIn (params : CreateSessionParams) (now : instant) : Tx bdb session_row :=
  if cs_verified params =? zero_time then tx_fail (Errorf "session requires verified MFA") else
  if cs_user params =? 0 then tx_fail (Errorf "user ID must not be zero") else
  if (cs_token params =? zero_checksum)%string then tx_fail (Errorf "token hash must not be empty") else
  if cs_last_seen params =? zero_time then tx_fail (Errorf "session last seen time must not be zero") else
  if negb (now <? cs_expires params) then tx_fail (Errorf "session expiry must be after creation time") else
  let row id := mkSession id (cs_user params) None (cs_token params) (cs_remember params) (cs_expires params) (cs_last_seen params)
    (cs_verified params) in
  let* id := insert_session row in tx_ret (row id).

(** ** Lemmas *)

Lemma find_row_Some {K A} `{Countable K} (cond : A → bool) (t : gmap K A) a : find_row cond t = Some a →
  cond a = true ∧ ∃ k, t !! k = Some a.
Proof.
  unfold find_row. intros Hh. destruct (filter _ _) as [|x l] eqn:E; [done|]. injection Hh as ->.
  assert (Hin : a ∈ filter (λ a, cond a = true) (map_to_list t).*2) by (rewrite E; by left).
  apply list_elem_of_filter in Hin as [Hc Hin]. split; [done|]. apply list_elem_of_fmap in Hin as ([k b] & -> & Hk%elem_of_map_to_list). by exists k.
Qed.
Lemma find_row_None {K A} `{Countable K} (cond : A → bool) (t : gmap K A) : find_row cond t = None ↔ ∀ k a, t !! k = Some a → cond a = false.
Proof.
  unfold find_row. split.
  - intros Hh k a Hk. destruct (cond a) eqn:E; [|done]. destruct (filter _ _) as [|x l] eqn:El; [|done].
    assert (Hin : a ∈ filter (λ a, cond a = true) (map_to_list t).*2).
    { apply list_elem_of_filter. split; [done|]. apply list_elem_of_fmap. exists (k, a). split; [done|]. by apply elem_of_map_to_list. }
    rewrite El in Hin. by apply elem_of_nil in Hin.
  - intros Hall. destruct (filter _ _) as [|x l] eqn:El; [done|]. exfalso.
    assert (Hin : x ∈ filter (λ a, cond a = true) (map_to_list t).*2) by (rewrite El; by left).
    apply list_elem_of_filter in Hin as [Hc Hin]. apply list_elem_of_fmap in Hin as ([k b] & -> & Hk%elem_of_map_to_list).
    cbn in Hc. by rewrite (Hall k b Hk) in Hc.
Qed.
Lemma exists_row_false {K A} `{Countable K} (cond : A → bool) (t : gmap K A) : exists_row cond t = false ↔ ∀ k a, t !! k = Some a → cond a = false.
Proof. unfold exists_row. rewrite <- find_row_None. by destruct (find_row cond t). Qed.
