(* ===== verification/Mfa.v ===== *)
(** * Multi-factor authentication (src/internal/mfa/store.go)

    Challenges are issued by a password login or from a session, and
    verified by a one-time code or a recovery code in one transaction with
    everything the verification changes.  The clock, which the code reads
    again after waiting for locks, and all randomness are arguments; the
    unlocked lookup of a challenge's user is part of the step, since rows
    never change their user. *)

From S2P Require Import Prelude Calendar Access AuditTrail Hash Table Totp Secrets BrowserStore.
From stdpp Require Import gmap.

Open Scope Z_scope.

Definition mfa_ErrInvalid : error := Errorf "invalid verification code".
Definition ErrExhausted : error := Errorf "MFA challenge exhausted".
Definition ErrPending : error := Errorf "MFA challenge already pending; use the original browser or sign in again".

Record StoreConfig := mkStoreConfig { Lifetime : Z; RememberLifetime : Z; IdleTimeout : Z }.
Record Issued := mkIssued { Token : string; issued_challenge : Challenge }.
Record Verified := mkVerified {
  RawToken : string; v_session : option session_row; Next : string; RecoveryCodes : list string; Pending : option Issued; Logout : bool }.

Record issue_random := mkIssueRandom { ir_token : list Z; ir_secret : list Z; ir_nonce : string }.
Record verify_random := mkVerifyRandom {
  vr_nonce : string; vr_codes : list (list Z); vr_token : list Z; vr_issue : issue_random }.

Definition lockUser (id : Z) : Tx bdb user_row := λ d,
  match b_users d !! id with Some u => Ok (u, d) | None => Err ErrNoRows end.

(** ** Issuing *)

Definition insert_challenge (row : Z → Challenge) : Tx bdb Z := λ d,
  let id := b_next_challenge d in
  if exists_row (λ c, (ch_token c =? ch_token (row id))%string) (b_challenges d) then Err ErrDuplicateKey else
  if negb (known d (ch_user (row id)) && session_alive (b_sessions d) (row id)) then Err ErrForeignKey else
  Ok (id, set_b_next_challenge (id + 1) (set_b_challenges (<[id := row id]> (b_challenges d)) d)).
Definition update_challenge (id : Z) (f : Challenge → Challenge) : Tx bdb unit :=
  tx_modify (λ d, set_b_challenges (alter f id (b_challenges d)) d).
Definition set_pending (pending : option string) (c : Challenge) : Challenge :=
  mkChallenge (ch_id c) (ch_token c) (ch_user c) (ch_session c) (ch_purpose c) pending (ch_remember c) (ch_next c) (ch_failures c) (ch_expires c)
    (ch_consumed c).
Definition set_failures (failures : Z) (consumed : option instant) (c : Challenge) : Challenge :=
  mkChallenge (ch_id c) (ch_token c) (ch_user c) (ch_session c) (ch_purpose c) (ch_pending c) (ch_remember c) (ch_next c) failures (ch_expires c)
    consumed.
Definition set_consumed (now : instant) (c : Challenge) : Challenge :=
  mkChallenge (ch_id c) (ch_token c) (ch_user c) (ch_session c) (ch_purpose c) None (ch_remember c) (ch_next c) (ch_failures c) (ch_expires c)
    (Some now).

Definition is_setup (purpose : challenge_purpose) : bool := bool_decide (purpose = Enrollment ∨ purpose = Rotation).

Section Store.
Context `{Aead} (cfg : StoreConfig).

Definition issue (random : issue_random) (id sessionID : Z) (purpose : challenge_purpose) (remember : bool) (next : string) (now : instant)
    : Tx bdb Issued :=
  let token := GenerateToken (ir_token random) in
  let session := if sessionID =? 0 then None else Some sessionID in
  let row pending cid := mkChallenge cid (HashToken token) id session purpose pending remember next 0 (now + ChallengeLifetime) None in
  let* cid := insert_challenge (row None) in
  if is_setup purpose then
    let* encoded := tx_lift (Encrypt (ir_nonce random) PurposeMFATOTPPending cid (NewSecret (ir_secret random))) in
    update_challenge cid (set_pending (Some encoded)) ;;;
    tx_ret (mkIssued token (row (Some encoded) cid))
  else tx_ret (mkIssued token (row None cid)).

(** [now]: the clock after the user is locked. *)
Definition BeginLogin (random : issue_random) (id : Z) (passwordHash : string) (remember : bool) (next : string) (now : instant) : Tx bdb Issued :=
  let* u := lockUser id in
  if negb (us_active u) || negb (us_password u =? passwordHash)%string then tx_fail mfa_ErrInvalid else
  let* enrolled := tx_gets (λ d, isSome (b_enrollments d !! id)) in
  let purpose := if (enrolled : bool) then Login else Enrollment in
  tx_modify (delete_challenges (λ c, (ch_user c =? id) && negb (isSome (ch_session c)))) ;;;
  issue random id 0 purpose remember next now.

Definition Get (token : string) (now : instant) (d : bdb) : result Challenge :=
  match find_row (λ c, (ch_token c =? HashToken token)%string && negb (isSome (ch_consumed c)) && (now <? ch_expires c) && (ch_failures c <? 5))
          (b_challenges d) with
  | Some c => Ok c
  | None => Err mfa_ErrInvalid
  end.
Definition PendingSecret (c : Challenge) : result string :=
  if negb (is_setup (ch_purpose c)) then Err mfa_ErrInvalid
  else Decrypt PurposeMFATOTPPending (ch_id c) (default "" (ch_pending c)).

Definition idle (now : instant) (session : session_row) : bool := negb (now <? se_last_seen session + IdleTimeout cfg).
Definition expired_or_idle (now : instant) (session : session_row) : bool := negb (now <? se_expires session) || idle now session.

Definition lockSession (id sessionID : Z) (now : instant) : Tx bdb session_row := λ d,
  match b_sessions d !! sessionID with
  | None => Err mfa_ErrInvalid
  | Some row =>
      if negb (se_user row =? id) then Err mfa_ErrInvalid else
      match FindValidSession (se_token row) now d with
      | Err _ => Err mfa_ErrInvalid
      | Ok session => if (se_verified session =? zero_time) || idle now session then Err mfa_ErrInvalid else Ok (session, d)
      end
  end.

(** The clock is read before and after the session is locked. *)
Definition BeginAuthenticated (random : issue_random) (id sessionID : Z) (purpose : challenge_purpose) (next existingToken : string)
    (now now' : instant) : Tx bdb Issued :=
  if negb (bool_decide (purpose = StepUp ∨ purpose = RotateAuthorize ∨ purpose = Regenerate)) then tx_fail mfa_ErrInvalid else
  let* u := lockUser id in
  if negb (us_active u) then tx_fail mfa_ErrInvalid else
  let* session := lockSession id sessionID now in
  if negb (bool_decide (purpose = StepUp)) && isSome (se_impersonated session) then tx_fail mfa_ErrInvalid else
  if expired_or_idle now' session then tx_fail mfa_ErrInvalid else
  let* pending := tx_gets (λ d, select_first (λ a b, ch_id a <? ch_id b)
    (λ c, bool_decide (ch_session c = Some sessionID) && negb (isSome (ch_consumed c)) && (now' <? ch_expires c)) (b_challenges d)) in
  match pending with
  | Some c =>
      if negb (ch_token c =? HashToken existingToken)%string || negb (bool_decide (ch_purpose c = purpose)) then tx_fail ErrPending
      else tx_ret (mkIssued existingToken c)
  | None => issue random id sessionID purpose false next now'
  end.

(** ** Verification *)

(** What a verification was accepted for. *)
Inductive factor := FSetup (counter : Z) | FTotp (counter : Z) | FRecovery (hash : string).
Inductive verify_outcome :=
  | Rejected (exhausted : bool) (attribution : Attribution)
  | Accepted (f : factor) (c : Challenge) (v : Verified).

Definition mfa_event (attribution : Attribution) (id : Z) (now : instant) (action : Action) : Event :=
  mkEvent attribution action (Some ResourceUser) id None now.

(** The session a challenge belongs to, locked and checked. *)
Definition verify_session (c : Challenge) (id sessionID : Z) (now : instant) : Tx bdb (option session_row) :=
  match ch_session c with
  | Some bound =>
      if negb (bound =? sessionID) then tx_fail mfa_ErrInvalid else
      let* session := lockSession id sessionID now in
      if negb (bool_decide (ch_purpose c = StepUp)) && isSome (se_impersonated session) then tx_fail mfa_ErrInvalid
      else tx_ret (Some session)
  | None => if negb (sessionID =? 0) then tx_fail mfa_ErrInvalid else tx_ret None
  end.
Definition verify_attribution (id : Z) (u : user_row) (session : option session_row) : Tx bdb Attribution :=
  let actor := mkIdentity id (us_username u) in
  match session ≫= se_impersonated with
  | None => tx_ret (mkAttribution (Some actor) (Some actor))
  | Some target => λ d,
      match b_users d !! target with
      | Some t => Ok (mkAttribution (Some actor) (Some (mkIdentity target (us_username t))), d)
      | None => Err ErrNoRows
      end
  end.

Definition check_code (c : Challenge) (id : Z) (input : string) (now : instant) : Tx bdb (option factor) :=
  if is_setup (ch_purpose c) then
    let* secret := tx_lift (PendingSecret c) in
    let (counter, valid) := Match secret input now (-1) in tx_ret (if valid then Some (FSetup counter) else None)
  else
    let* active := tx_gets (λ d, b_enrollments d !! id) in
    match active with
    | None => tx_fail mfa_ErrInvalid
    | Some e =>
        let* secret := tx_lift (Decrypt PurposeMFATOTPActive id (en_secret e)) in
        let (counter, valid) := Match secret input now (en_last e) in
        if valid then tx_ret (Some (FTotp counter)) else
        let* used := tx_gets (λ d, b_codes d !! (id, RecoveryHash id input)) in
        tx_ret (match used with Some None => Some (FRecovery (RecoveryHash id input)) | _ => None end)
    end.
Definition check_password (c : Challenge) (u : user_row) (passwordHash : string) : bool :=
  if bool_decide (ch_purpose c = RotateAuthorize ∨ ch_purpose c = Regenerate)
  then negb (passwordHash =? "")%string && (passwordHash =? us_password u)%string else true.

Definition reject (c : Challenge) (sessionID : Z) (attribution : Attribution) (now : instant) : Tx bdb verify_outcome :=
  let failures := ch_failures c + 1 in
  let exhausted := failures =? MaxFailures in
  update_challenge (ch_id c) (set_failures failures (if exhausted then Some now else None)) ;;;
  (if exhausted && isSome (ch_session c) then tx_modify (delete_sessions (λ s, se_id s =? sessionID)) else tx_ret tt) ;;;
  tx_ret (Rejected exhausted attribution).

Fixpoint insert_codes (id : Z) (codes : list string) : Tx bdb unit :=
  match codes with
  | [] => tx_ret tt
  | code :: codes =>
      (λ d, match b_codes d !! (id, RecoveryHash id code) with
            | Some _ => Err ErrDuplicateKey
            | None => Ok (tt, set_b_codes (<[(id, RecoveryHash id code) := None]> (b_codes d)) d)
            end) ;;;
      insert_codes id codes
  end.
Definition delete_codes (id : Z) (d : bdb) : bdb := set_b_codes (filter (λ r, (r.1.1 =? id) = false) (b_codes d)) d.
Definition replaceRecovery (random : list (list Z)) (id : Z) : Tx bdb (list string) :=
  let codes := NewRecoveryCodes random in
  tx_modify (delete_codes id) ;;; insert_codes id codes ;;; tx_ret codes.
Definition clearChallengesSessions (id : Z) : Tx bdb unit :=
  tx_modify (delete_challenges (λ c, ch_user c =? id)) ;;; tx_modify (RevokeAllForUser id).

(** The factor is used up: a new secret, a spent recovery code, or the
    counter of the code; the codes a setup hands out. *)
Definition spend_factor (f : factor) (c : Challenge) (id : Z) (random : verify_random) (attribution : Attribution) (now : instant)
    : Tx bdb (list string) :=
  match f with
  | FSetup counter =>
      let* secret := tx_lift (PendingSecret c) in
      let* encoded := tx_lift (Encrypt (vr_nonce random) PurposeMFATOTPActive id secret) in
      (if bool_decide (ch_purpose c = Enrollment) then λ d,
         match b_enrollments d !! id with
         | Some _ => Err ErrDuplicateKey
         | None => Ok (tt, set_b_enrollments (<[id := mkEnrollment encoded counter now]> (b_enrollments d)) d)
         end
       else tx_modify (λ d, set_b_enrollments (alter (λ e, mkEnrollment encoded counter (en_enrolled e)) id (b_enrollments d)) d)) ;;;
      let* codes := replaceRecovery (vr_codes random) id in
      Append (mfa_event attribution id now (if bool_decide (ch_purpose c = Rotation) then ActionMFARotated else ActionMFAEnrolled)) ;;;
      tx_ret codes
  | FRecovery hash =>
      tx_modify (λ d, set_b_codes (alter (λ used, match used with None => Some now | _ => used end) (id, hash) (b_codes d)) d) ;;;
      Append (mfa_event attribution id now ActionMFARecoveryUsed) ;;; tx_ret []
  | FTotp counter =>
      tx_modify (λ d, set_b_enrollments (alter (λ e, mkEnrollment (en_secret e) counter (en_enrolled e)) id (b_enrollments d)) d) ;;; tx_ret []
  end.

Definition set_last_login (id : Z) (now : instant) (d : bdb) : bdb :=
  set_b_users (alter (λ u, mkUserRow (us_username u) (us_name u) (us_password u) (us_role u) (us_active u) (Some now)) id (b_users d)) d.
Definition set_verified (id : Z) (now : instant) (d : bdb) : bdb :=
  set_b_sessions (alter (λ s, mkSession (se_id s) (se_user s) (se_impersonated s) (se_token s) (se_remember s) (se_expires s) (se_last_seen s) now)
    id (b_sessions d)) d.

(** What the purpose of the challenge asks for. *)
Definition fulfil (c : Challenge) (id sessionID : Z) (random : verify_random) (attribution : Attribution) (codes : list string) (now : instant)
    : Tx bdb Verified :=
  let emit action := Append (mfa_event attribution id now action) in
  match ch_purpose c with
  | Login | Enrollment =>
      let raw := GenerateToken (vr_token random) in
      let lifetime := if ch_remember c then RememberLifetime cfg else Lifetime cfg in
      let* session := CreateSessionIn (mkSessionParams id (HashToken raw) (ch_remember c) (now + lifetime) now now) now in
      tx_modify (set_last_login id now) ;;;
      emit ActionAuthLogin ;;;
      tx_ret (mkVerified raw (Some session) (ch_next c) codes None false)
  | StepUp =>
      tx_modify (set_verified sessionID now) ;;;
      emit ActionMFAStepUp ;;;
      tx_ret (mkVerified "" None (ch_next c) codes None false)
  | RotateAuthorize =>
      let* pending := issue (vr_issue random) id sessionID Rotation false "/login" now in
      tx_ret (mkVerified "" None (ch_next c) codes (Some pending) false)
  | Regenerate =>
      let* codes := replaceRecovery (vr_codes random) id in
      emit ActionMFARecoveryRegenerated ;;;
      clearChallengesSessions id ;;;
      tx_ret (mkVerified "" None "/login" codes None true)
  | Rotation =>
      clearChallengesSessions id ;;;
      tx_ret (mkVerified "" None "/login" codes None true)
  end.

(** The transaction of [Verify]; the clock is read after the challenge and
    after the session are locked. *)
Definition verify_tx (random : verify_random) (id : Z) (token input : string) (sessionID : Z) (passwordHash : string) (now now' : instant)
    : Tx bdb verify_outcome :=
  let* u := lockUser id in
  let* found := tx_gets (λ d, find_row (λ c, (ch_token c =? HashToken token)%string) (b_challenges d)) in
  match found with
  | None => tx_fail mfa_ErrInvalid
  | Some c =>
      if negb (us_active u) || isSome (ch_consumed c) || negb (now <? ch_expires c) || (MaxFailures <=? ch_failures c)
      then tx_fail mfa_ErrInvalid else
      let* session := verify_session c id sessionID now in
      if negb (now' <? ch_expires c) || match session with Some s => expired_or_idle now' s | None => false end then tx_fail mfa_ErrInvalid else
      let* attribution := verify_attribution id u session in
      let* code := check_code c id input now' in
      match code with
      | Some f =>
          if negb (check_password c u passwordHash) then reject c sessionID attribution now' else
          let* codes := spend_factor f c id random attribution now' in
          update_challenge (ch_id c) (set_consumed now') ;;;
          let* v := fulfil c id sessionID random attribution codes now' in
          tx_ret (Accepted f c v)
      | None => reject c sessionID attribution now'
      end
  end.

(** [audit.Append] on the database, its error only logged. *)
Definition append_best_effort (event : Event) (d : bdb) : bdb := (runTx (Append event) d).2.

Definition Verify_full (random : verify_random) (token input : string) (sessionID : Z) (passwordHash : string) (now now' : instant) (d : bdb)
    : result verify_outcome * bdb :=
  match find_row (λ c, (ch_token c =? HashToken token)%string) (b_challenges d) with
  | None => (Err mfa_ErrInvalid, d)
  | Some c =>
      let id := ch_user c in
      let (outcome, d) := runTx (verify_tx random id token input sessionID passwordHash now now') d in
      (outcome,
       match outcome with
       | Ok (Rejected exhausted attribution) =>
           foldl (λ d action, append_best_effort (mfa_event attribution id now' action) d) d
             (ActionMFAFailed :: if exhausted then [ActionMFAExhausted] else [])
       | _ => d
       end)
  end.
Definition Verify (random : verify_random) (token input : string) (sessionID : Z) (passwordHash : string) (now now' : instant) (d : bdb)
    : result Verified * bdb :=
  let (outcome, d) := Verify_full random token input sessionID passwordHash now now' d in
  (match outcome with
   | Ok (Accepted _ _ v) => Ok v
   | Ok (Rejected exhausted _) => Err (if exhausted then ErrExhausted else mfa_ErrInvalid)
   | Err e => Err e
   end, d).

(** ** Status and reset *)

Record Status := mkStatus { Enabled : bool; EnrolledAt : option instant; Remaining : Z }.
Definition mfa_status (id : Z) (d : bdb) : Status :=
  match b_enrollments d !! id with
  | None => mkStatus false None 0
  | Some e => mkStatus true (Some (en_enrolled e)) (Z.of_nat (size (filter (λ r, (r.1.1 =? id) && negb (isSome r.2) = true) (b_codes d))))
  end.

Fixpoint lock_users (actorID : Z) (ids : list Z) : Tx bdb unit :=
  match ids with
  | [] => tx_ret tt
  | id :: ids =>
      let* u := lockUser id in
      if (id =? actorID) && negb (us_active u) then tx_fail mfa_ErrInvalid else lock_users actorID ids
  end.
Definition has_permission (d : bdb) (user : Z) (permission : string) : bool :=
  match b_users d !! user with
  | None => false
  | Some u =>
      match b_roles d !! us_role u with
      | None => false
      | Some r => IsAdminRole (rl_slug r) || bool_decide (permission ∈ rl_permissions r)
      end
  end.
(** The clock is read after the users and after the session are locked. *)
Definition Reset (targetID actorID sessionID : Z) (attribution : Attribution) (now now' : instant) : Tx bdb unit :=
  if (targetID =? 0) || negb (actorID =? 0) && (targetID =? actorID) then tx_fail mfa_ErrInvalid else
  let ids := if actorID =? 0 then [targetID] else if actorID <? targetID then [actorID; targetID] else [targetID; actorID] in
  lock_users actorID ids ;;;
  let* at_ :=
    (if actorID =? 0 then tx_ret (now, ActionMFAOperatorReset) else
     let* session := lockSession actorID sessionID now in
     if expired_or_idle now' session || isSome (se_impersonated session) || negb (Recent (se_verified session) now') then tx_fail mfa_ErrInvalid else
     let* allowed := tx_gets (λ d, has_permission d actorID "users.mfa.reset") in
     if negb allowed then tx_fail mfa_ErrInvalid else tx_ret (now', ActionMFAAdminReset)) in
  tx_modify (λ d, set_b_enrollments (delete targetID (b_enrollments d)) d) ;;;
  tx_modify (delete_codes targetID) ;;;
  clearChallengesSessions targetID ;;;
  Append (mfa_event attribution targetID at_.1 at_.2).
End Store.
