(* ===== verification/UserAdmin.v ===== *)
(** * Users, roles and impersonation
    (src/internal/features/users, features/roles, features/impersonation)

    The transactions by which administrators manage accounts.  Passwords
    arrive hashed (Argon2 is a library), names and slugs validated. *)

From S2P Require Import Prelude Calendar Json Access AuditTrail Hash Table BrowserStore.
From stdpp Require Import gmap.

Open Scope Z_scope.

Definition users_ErrNotFound : error := Errorf "management record not found".
Definition ErrAdminMutation : error := Errorf "administrator account mutation requires an administrator".
Definition ErrSelfRoleChange : error := Errorf "non-administrator cannot change own role".
Definition ErrLastActiveAdmin : error := Errorf "at least one active administrator must remain".
Definition ErrSelfDeactivation : error := Errorf "cannot deactivate current account".
Definition ErrUsernameTaken : error := Errorf "username already exists".
Definition ErrRoleSlugTaken : error := Errorf "role slug already exists".
Definition ErrProtectedRole : error := Errorf "system role is protected".
Definition ErrRoleAssigned : error := Errorf "role is assigned to users".
Definition ErrAdminPermissions : error := Errorf "administrator permissions cannot be changed".
Definition ErrSelfRolePermissions : error := Errorf "cannot change permissions of own role".
Definition ErrUnknownPermission : error := Errorf "unknown permission".

(** ** Users *)

Definition findUser (id : Z) : Tx bdb (user_row * role_row) := λ d,
  match b_users d !! id with
  | Some u => match b_roles d !! us_role u with Some r => Ok ((u, r), d) | None => Err users_ErrNotFound end
  | None => Err users_ErrNotFound
  end.
Definition findRole (id : Z) : Tx bdb role_row := λ d,
  match b_roles d !! id with Some r => Ok (r, d) | None => Err users_ErrNotFound end.
(** The identifier of the role with a slug, which is unique. *)
Definition lockRoleBySlug (slug : string) : Tx bdb Z := λ d,
  match list_find (λ r, rl_slug r.2 = slug) (map_to_list (b_roles d)) with Some (_, (id, _)) => Ok (id, d) | None => Err users_ErrNotFound end.
Definition active_with (role : Z) (d : bdb) : gmap Z user_row := filter (λ r, (us_role r.2 =? role) && us_active r.2 = true) (b_users d).
Definition lockActiveAdministrators (roleID : Z) : Tx bdb nat := tx_gets (λ d, size (active_with roleID d)).

Definition update_user (id : Z) (f : user_row → user_row) (d : bdb) : bdb := set_b_users (alter f id (b_users d)) d.
Definition set_profile (username name : string) (u : user_row) : user_row :=
  mkUserRow username name (us_password u) (us_role u) (us_active u) (us_last_login u).
Definition set_role (role : Z) (u : user_row) : user_row :=
  mkUserRow (us_username u) (us_name u) (us_password u) role (us_active u) (us_last_login u).
Definition set_active (active : bool) (u : user_row) : user_row :=
  mkUserRow (us_username u) (us_name u) (us_password u) (us_role u) active (us_last_login u).
Definition set_password (hash : string) (u : user_row) : user_row :=
  mkUserRow (us_username u) (us_name u) hash (us_role u) (us_active u) (us_last_login u).

Definition admin_event (requester : Requester) (action : Action) (resource : ResourceType) (id : Z) (metadata : Metadata) (now : instant) : Event :=
  mkEvent (attribution_of requester) action (Some resource) id metadata now.
Definition RoleChangeMetadata (from to : string) : json := JObj [("from_role", JStr from); ("to_role", JStr to)].
Definition activeStatus (active : bool) : string := if active then "active" else "inactive".

Definition username_taken (username : string) (except : option Z) (d : bdb) : bool :=
  existsb (λ r, (us_username r.2 =? username)%string && negb (bool_decide (Some r.1 = except))) (map_to_list (b_users d)).

(** [Service.CreateUser] from the role on: the role is read, then the
    repository inserts. *)
Definition CreateUser (requester : Requester) (username name passwordHash : string) (roleID : Z) (now : instant) : Tx bdb Z :=
  let* role := findRole roleID in
  if IsAdminRole (rl_slug role) && negb (IsEffectiveAdmin requester) then tx_fail ErrAdminMutation else
  let* taken := tx_gets (username_taken username None) in
  if taken then tx_fail ErrUsernameTaken else
  let* id := tx_gets b_next_user in
  tx_modify (λ d, set_b_next_user (id + 1) (set_b_users (<[id := mkUserRow username name passwordHash roleID true None]> (b_users d)) d)) ;;;
  let* _ := findUser id in
  Append (admin_event requester ActionUserCreated ResourceUser id None now) ;;; tx_ret id.

Definition UpdateUserProfile (requester : Requester) (id : Z) (username name : string) (now : instant) : Tx bdb unit :=
  let* target := findUser id in
  if IsAdminRole (rl_slug target.2) && negb (IsEffectiveAdmin requester) then tx_fail ErrAdminMutation else
  let* taken := tx_gets (username_taken username (Some id)) in
  if taken then tx_fail ErrUsernameTaken else
  tx_modify (update_user id (set_profile username name)) ;;;
  let* _ := findUser id in
  Append (admin_event requester ActionUserProfileUpdated ResourceUser id None now).

(** [ErrLastActiveAdmin] when the change would leave no active
    administrator. *)
Definition keep_admin (leaves : bool) (adminRole : Z) : Tx bdb unit :=
  if leaves then
    let* admins := lockActiveAdministrators adminRole in
    if Nat.leb admins 1 then tx_fail ErrLastActiveAdmin else tx_ret tt
  else tx_ret tt.

Definition AssignUserRole (requester : Requester) (userID roleID : Z) (now : instant) : Tx bdb unit :=
  let* adminRole := lockRoleBySlug AdminRoleSlug in
  let* target := findUser userID in
  let* requested := findRole roleID in
  if negb (IsEffectiveAdmin requester) && (UserID (Effective requester) =? userID) then tx_fail ErrSelfRoleChange else
  if (IsAdminRole (rl_slug target.2) || IsAdminRole (rl_slug requested)) && negb (IsEffectiveAdmin requester) then tx_fail ErrAdminMutation else
  keep_admin (us_active target.1 && (us_role target.1 =? adminRole) && negb (roleID =? adminRole)) adminRole ;;;
  tx_modify (update_user userID (set_role roleID)) ;;;
  (if IsAdminRole (rl_slug requested) then tx_modify (delete_sessions (λ s, bool_decide (se_impersonated s = Some userID))) else tx_ret tt) ;;;
  Append (admin_event requester ActionUserRoleChanged ResourceUser userID (Some (RoleChangeMetadata (rl_slug target.2) (rl_slug requested))) now).

Definition SetUserActive (requester : Requester) (userID : Z) (active : bool) (now : instant) : Tx bdb unit :=
  let* adminRole := lockRoleBySlug AdminRoleSlug in
  let* target := findUser userID in
  if negb active && (UserID (Effective requester) =? userID) then tx_fail ErrSelfDeactivation else
  if IsAdminRole (rl_slug target.2) && negb (IsEffectiveAdmin requester) then tx_fail ErrAdminMutation else
  keep_admin (negb active && us_active target.1 && (us_role target.1 =? adminRole)) adminRole ;;;
  tx_modify (update_user userID (set_active active)) ;;;
  (if active then tx_ret tt else
     tx_modify (delete_challenges (λ c, ch_user c =? userID)) ;;;
     tx_modify (delete_sessions (λ s, (se_user s =? userID) || bool_decide (se_impersonated s = Some userID)))) ;;;
  Append (admin_event requester (if active then ActionUserActivated else ActionUserDeactivated) ResourceUser userID
    (Some (StatusChangeMetadata (activeStatus (us_active target.1)) (activeStatus active))) now).

Definition ResetUserPassword (requester : Requester) (userID : Z) (passwordHash : string) (now : instant) : Tx bdb unit :=
  let* target := findUser userID in
  if IsAdminRole (rl_slug target.2) && negb (IsEffectiveAdmin requester) then tx_fail ErrAdminMutation else
  tx_modify (update_user userID (set_password passwordHash)) ;;;
  tx_modify (delete_challenges (λ c, ch_user c =? userID)) ;;;
  tx_modify (RevokeAllForUser userID) ;;;
  Append (admin_event requester ActionUserPasswordReset ResourceUser userID None now).

(** ** Roles *)

Definition update_role (id : Z) (f : role_row → role_row) (d : bdb) : bdb := set_b_roles (alter f id (b_roles d)) d.
Definition set_role_name (name : string) (r : role_row) : role_row := mkRoleRow name (rl_slug r) (rl_system r) (rl_permissions r).
Definition set_permissions (keys : gset string) (r : role_row) : role_row := mkRoleRow (rl_name r) (rl_slug r) (rl_system r) keys.

Definition CreateRole (requester : Requester) (name slug : string) (now : instant) : Tx bdb Z :=
  let* taken := tx_gets (λ d, exists_row (λ r, (rl_slug r =? slug)%string) (b_roles d)) in
  if taken then tx_fail ErrRoleSlugTaken else
  let* id := tx_gets b_next_role in
  tx_modify (λ d, set_b_next_role (id + 1) (set_b_roles (<[id := mkRoleRow name slug false ∅]> (b_roles d)) d)) ;;;
  Append (admin_event requester ActionRoleCreated ResourceRole id None now) ;;; tx_ret id.

Definition UpdateName (requester : Requester) (id : Z) (name : string) (now : instant) : Tx bdb unit :=
  let* role := findRole id in
  if rl_system role then tx_fail ErrProtectedRole else
  tx_modify (update_role id (set_role_name name)) ;;;
  Append (admin_event requester ActionRoleUpdated ResourceRole id None now).

Definition DeleteRole (requester : Requester) (id : Z) (now : instant) : Tx bdb unit :=
  let* role := findRole id in
  if rl_system role then tx_fail ErrProtectedRole else
  let* assigned := tx_gets (λ d, exists_row (λ u, us_role u =? id) (b_users d)) in
  if assigned then tx_fail ErrRoleAssigned else
  tx_modify (λ d, set_b_roles (delete id (b_roles d)) d) ;;;
  Append (admin_event requester ActionRoleDeleted ResourceRole id None now).

(** [sort.Strings] of a set. *)
Definition PermissionsUpdatedMetadata (added removed : list string) : json :=
  JObj [("added", JArr (JStr <$> added)); ("removed", JArr (JStr <$> removed))].
Definition sorted_keys (keys : gset string) : list string := sort_by String.ltb (elements keys).
Definition permissionChanges (existing selected : gset string) : list string * list string :=
  (sorted_keys (selected ∖ existing), sorted_keys (existing ∖ selected)).

(** The loop of [INSERT]s: a key inserted twice breaks the primary key. *)
Fixpoint insert_permissions (canonical : list string) (present : gset string) (selected : list string) : result (gset string) :=
  match selected with
  | [] => Ok present
  | key :: selected =>
      if negb (bool_decide (key ∈ canonical)) then Err ErrUnknownPermission else
      if bool_decide (key ∈ present) then Err ErrDuplicateKey else insert_permissions canonical ({[key]} ∪ present) selected
  end.
Definition ReplacePermissions (requester : Requester) (roleID : Z) (canonical selected : list string) (now : instant) : Tx bdb unit :=
  let* role := findRole roleID in
  if IsAdminRole (rl_slug role) then tx_fail ErrAdminPermissions else
  let* actor := (λ d, match b_users d !! UserID (Effective requester) with Some u => Ok (u, d) | None => Err users_ErrNotFound end) in
  if negb (IsEffectiveAdmin requester) && (us_role actor =? roleID) then tx_fail ErrSelfRolePermissions else
  if bool_decide (canonical = []) then tx_fail (Errorf "build permission lookup") else
  let* keys := tx_gets b_permissions in
  if negb (forallb (λ key, bool_decide (key ∈ keys)) canonical) then tx_fail ErrUnknownPermission else
  let existing : gset string := rl_permissions role ∩ list_to_set canonical in
  let* changed := tx_lift (insert_permissions canonical (rl_permissions role ∖ list_to_set canonical) selected) in
  tx_modify (update_role roleID (set_permissions changed)) ;;;
  let changes := permissionChanges existing (list_to_set selected) in
  Append (admin_event requester ActionRolePermissionsUpdated ResourceRole roleID (Some (PermissionsUpdatedMetadata changes.1 changes.2)) now).

(** ** Impersonation *)

Definition ErrTargetNotFound : error := Errorf "impersonation target not found".
Definition ErrTargetInactive : error := Errorf "impersonation target is inactive".
Definition ErrTargetAdmin : error := Errorf "administrator cannot be impersonated".
Definition ErrSelf : error := Errorf "cannot impersonate self".
Definition ErrAlreadyActive : error := Errorf "session is already impersonating".
Definition ErrNotActive : error := Errorf "session is not impersonating".

(** The transaction either ends with a session or revokes it, which is
    committed with [ErrSessionIdentityInvalid]. *)
Definition revokeInvalidSession (id : Z) : Tx bdb (result session_row) :=
  tx_modify (delete_sessions (λ s, se_id s =? id)) ;;; tx_ret (Err ErrSessionIdentityInvalid).
Definition identity_of (id : Z) (d : bdb) : option (user_row * role_row) :=
  match b_users d !! id with
  | Some u => match b_roles d !! us_role u with Some r => Some (u, r) | None => None end
  | None => None
  end.
Definition valid_actor (identity : option (user_row * role_row)) : bool :=
  match identity with Some (u, r) => us_active u && IsAdminRole (rl_slug r) | None => false end.
Definition valid_target (identity : option (user_row * role_row)) : bool :=
  match identity with Some (u, r) => us_active u && negb (IsAdminRole (rl_slug r)) | None => false end.
Definition matchesAttribution (attribution : Attribution) (actorID effectiveID : Z) : bool :=
  match a_actor attribution, a_effective attribution with
  | Some a, Some e => (UserID a =? actorID) && (UserID e =? effectiveID)
  | _, _ => false
  end.
(** [UPDATE sessions SET token_hash = ?, impersonated_user_id = ?] *)
Definition change_session (id : Z) (token : string) (target : option Z) : Tx bdb unit := λ d,
  if exists_row (λ s, (se_token s =? token)%string && negb (se_id s =? id)) (b_sessions d) then Err ErrDuplicateKey else
  Ok (tt, set_b_sessions (alter (λ s, mkSession (se_id s) (se_user s) target token (se_remember s) (se_expires s) (se_last_seen s) (se_verified s))
    id (b_sessions d)) d).

Definition Start (token_hash : string) (targetUserID : Z) (attribution : Attribution) (now : instant) (newTokenHash : string)
    : Tx bdb (result session_row) :=
  let* session := (λ d, match FindValidSession token_hash now d with Ok s => Ok (s, d) | Err e => Err e end) in
  if isSome (se_impersonated session) then tx_fail ErrAlreadyActive else
  let* actor := tx_gets (identity_of (se_user session)) in
  if negb (valid_actor actor) then revokeInvalidSession (se_id session) else
  if targetUserID =? se_user session then tx_fail ErrSelf else
  let* target := tx_gets (identity_of targetUserID) in
  match target with
  | None => tx_fail ErrTargetNotFound
  | Some (t, role) =>
      if negb (us_active t) then tx_fail ErrTargetInactive else
      if IsAdminRole (rl_slug role) then tx_fail ErrTargetAdmin else
      if negb (matchesAttribution attribution (se_user session) targetUserID) then tx_fail (Errorf "impersonation audit attribution does not match locked identities") else
      if (newTokenHash =? zero_checksum)%string then tx_fail (Errorf "new session token hash must not be empty") else
      change_session (se_id session) newTokenHash (Some targetUserID) ;;;
      Append (mkEvent attribution ActionImpersonationStarted (Some ResourceUser) targetUserID (Some (JObj [("target_role", JStr (rl_slug role))])) now) ;;;
      tx_ret (Ok (mkSession (se_id session) (se_user session) (Some targetUserID) newTokenHash (se_remember session) (se_expires session)
        (se_last_seen session) (se_verified session)))
  end.

Definition Stop (token_hash : string) (attribution : Attribution) (now : instant) (newTokenHash : string) : Tx bdb (result session_row) :=
  let* session := (λ d, match FindValidSession token_hash now d with Ok s => Ok (s, d) | Err e => Err e end) in
  match se_impersonated session with
  | None => tx_fail ErrNotActive
  | Some target =>
      let* actor := tx_gets (identity_of (se_user session)) in
      if negb (valid_actor actor) then revokeInvalidSession (se_id session) else
      let* other := tx_gets (identity_of target) in
      if negb (valid_target other) then revokeInvalidSession (se_id session) else
      if negb (matchesAttribution attribution (se_user session) target) then tx_fail (Errorf "stop impersonation audit attribution does not match locked identities") else
      if (newTokenHash =? zero_checksum)%string then tx_fail (Errorf "new session token hash must not be empty") else
      change_session (se_id session) newTokenHash None ;;;
      Append (mkEvent attribution ActionImpersonationStopped (Some ResourceUser) target None now) ;;;
      tx_ret (Ok (mkSession (se_id session) (se_user session) None newTokenHash (se_remember session) (se_expires session)
        (se_last_seen session) (se_verified session)))
  end.
