(* ===== verification/Accounts.v ===== *)
(** * Accounts made outside the administration pages
    (src/internal/user/repository.go, internal/access/bootstrap.go and
    repository.go, internal/app/admin.go, Register of
    internal/browserauth/service.go)

    Start-up synchronises permissions and system roles; the command line
    creates administrators and visitors may register.  Names arrive
    normalised and validated, passwords hashed. *)

From S2P Require Import Prelude Calendar Access BrowserStore UserAdmin.
From stdpp Require Import gmap.

Open Scope Z_scope.

(** [Repository.Create] of internal/user. *)
Definition users_Create (username name passwordHash : string) (roleID : Z) (active : bool) : Tx bdb Z :=
  if (passwordHash =? "")%string then tx_fail (Errorf "password hash must not be empty") else
  if roleID =? 0 then tx_fail (Errorf "role ID must not be zero") else
  let* taken := tx_gets (username_taken username None) in
  if taken then tx_fail ErrUsernameTaken else
  let* role := tx_gets (λ d, b_roles d !! roleID) in
  match role with
  | None => tx_fail ErrForeignKey
  | Some _ =>
      let* id := tx_gets b_next_user in
      tx_modify (λ d, set_b_next_user (id + 1) (set_b_users (<[id := mkUserRow username name passwordHash roleID active None]> (b_users d)) d)) ;;;
      tx_ret id
  end.

(** [FindRoleBySlug] *)
Definition FindRoleBySlug (slug : string) : Tx bdb Z := λ d,
  match lockRoleBySlug slug d with Ok r => Ok r | Err _ => Err (Errorf "access record not found") end.
Definition Register (username name passwordHash : string) : Tx bdb Z :=
  let* role := FindRoleBySlug UserRoleSlug in users_Create username name passwordHash role true.
Definition CreateAdministrator (username name passwordHash : string) : Tx bdb Z :=
  let* role := FindRoleBySlug AdminRoleSlug in users_Create username name passwordHash role true.

(** ** Bootstrap *)

(** [INSERT ... ON DUPLICATE KEY UPDATE] on the slug. *)
Definition ensureSystemRole (name slug : string) (d : bdb) : bdb :=
  match lockRoleBySlug slug d with
  | Ok (id, _) => update_role id (λ r, mkRoleRow name (rl_slug r) true (rl_permissions r)) d
  | Err _ =>
      let id := b_next_role d in
      set_b_next_role (id + 1) (set_b_roles (<[id := mkRoleRow name slug true ∅]> (b_roles d)) d)
  end.
Definition syncPermission (definition : PermissionDefinition) (d : bdb) : bdb :=
  mkBdb (b_users d) (b_next_user d) (b_roles d) (b_next_role d) ({[perm_key definition]} ∪ b_permissions d) (b_sessions d)
    (b_next_session d) (b_challenges d) (b_next_challenge d) (b_enrollments d) (b_codes d) (b_audit d).
Definition system_roles : list (string * string) := [("Administrator", AdminRoleSlug); ("User", UserRoleSlug)].
Definition Bootstrap (definitions : list PermissionDefinition) : Tx bdb unit :=
  let* _ := tx_lift (ValidateRegistry definitions) in
  tx_modify (λ d, foldl (λ d definition, syncPermission definition d) d definitions) ;;;
  tx_modify (λ d, foldl (λ d r, ensureSystemRole r.1 r.2 d) d system_roles).
