(* ===== verification/BrowserInv.v ===== *)
(** * What the browser tables always satisfy

    The invariant of users, roles, sessions and challenges, and that every
    statement and transaction of Mfa.v, UserAdmin.v and Accounts.v keeps it.
    Statements first, one lemma each; the transactions are compositions. *)

From S2P Require Import Prelude Calendar Access AuditTrail Hash Table Totp Secrets BrowserStore Mfa UserAdmin Accounts.
From stdpp Require Import gmap.

Open Scope Z_scope.

Definition is_active (d : bdb) (user : Z) : bool := match b_users d !! user with Some u => us_active u | None => false end.
Definition is_admin (d : bdb) (user : Z) : bool :=
  match identity_of user d with Some (_, r) => IsAdminRole (rl_slug r) | None => false end.
Definition active_admin (d : bdb) : Prop := ∃ user, is_active d user = true ∧ is_admin d user = true.

(** ** The invariant *)

Record roles_ok (d : bdb) : Prop := {
  admin_role : ∃ id r, b_roles d !! id = Some r ∧ rl_slug r = AdminRoleSlug;
  admin_system : ∀ id r, b_roles d !! id = Some r → rl_slug r = AdminRoleSlug → rl_system r = true;
  slug_unique : ∀ i j r r', b_roles d !! i = Some r → b_roles d !! j = Some r' → rl_slug r = rl_slug r' → i = j;
  role_bound : ∀ i r, b_roles d !! i = Some r → i < b_next_role d }.
Definition users_ok (d : bdb) : Prop :=
  0 < b_next_user d ∧ ∀ id u, b_users d !! id = Some u → 0 < id < b_next_user d ∧ is_Some (b_roles d !! us_role u).
(** Sessions belong to active users; nobody acts as an administrator or as
    an inactive user. *)
Definition session_ok (d : bdb) (id : Z) (s : session_row) : Prop :=
  se_id s = id ∧ 0 < id < b_next_session d ∧ is_active d (se_user s) = true ∧
  ∀ target, se_impersonated s = Some target → is_active d target = true ∧ is_admin d target = false.
Definition sessions_ok (d : bdb) : Prop :=
  0 < b_next_session d ∧ (∀ id s, b_sessions d !! id = Some s → session_ok d id s) ∧
  ∀ i j s s', b_sessions d !! i = Some s → b_sessions d !! j = Some s' → se_token s = se_token s' → i = j.
Definition login_purpose (purpose : challenge_purpose) : bool := bool_decide (purpose = Login ∨ purpose = Enrollment).
Definition session_of (d : bdb) (id user : Z) : Prop := ∃ s, b_sessions d !! id = Some s ∧ se_user s = user.
(** Challenges belong to active users, those of a session to its user, and
    are used up by the fifth failure. *)
Definition challenge_ok (d : bdb) (id : Z) (c : Challenge) : Prop :=
  ch_id c = id ∧ id < b_next_challenge d ∧ is_active d (ch_user c) = true ∧ login_purpose (ch_purpose c) = negb (isSome (ch_session c)) ∧
  (∀ session, ch_session c = Some session → session_of d session (ch_user c)) ∧
  0 <= ch_failures c <= MaxFailures ∧ (ch_failures c = MaxFailures → is_Some (ch_consumed c)).
Definition challenges_ok (d : bdb) : Prop :=
  (∀ id c, b_challenges d !! id = Some c → challenge_ok d id c) ∧
  ∀ i j c c', b_challenges d !! i = Some c → b_challenges d !! j = Some c' → ch_token c = ch_token c' → i = j.
Definition browser_ok (d : bdb) : Prop := roles_ok d ∧ users_ok d ∧ sessions_ok d ∧ challenges_ok d.

(** The invariant inside a transaction about an active user and one of the
    user's sessions; 0 stands for none. *)
Definition inv (user session : Z) (d : bdb) : Prop :=
  browser_ok d ∧ (user = 0 ∨ is_active d user = true) ∧ (session = 0 ∨ session_of d session user).

Lemma inv_ok user session d : inv user session d → browser_ok d. Proof. by intros []. Qed.
Lemma inv_weaken user session d : inv user session d → inv user 0 d. Proof. intros (? & ? & _). unfold inv. eauto. Qed.
Lemma ok_inv d : browser_ok d → inv 0 0 d. Proof. unfold inv. eauto. Qed.

(** ** Triples *)

Definition tx_post {S A} (P : S → Prop) (m : Tx S A) (Q : A → S → Prop) : Prop := ∀ s a s', P s → m s = Ok (a, s') → Q a s'.
Lemma tx_post_bind {S A B} (P : S → Prop) (m : Tx S A) Q (k : A → Tx S B) R :
  tx_post P m Q → (∀ a, tx_post (Q a) (k a) R) → tx_post P (tx_bind m k) R.
Proof. intros Hm Hk s b s' Hs (a & s1 & H1 & H2)%tx_bind_Ok. eapply Hk, H2. eauto. Qed.
Lemma preserves_post {S A} (P Q : S → Prop) (m : Tx S A) : preserves P m → (∀ s, P s → Q s) → tx_post P m (λ _, Q).
Proof. intros Hm HQ s a s' Hs H. eauto. Qed.
Lemma post_preserves {S A} (P : S → Prop) (m : Tx S A) : tx_post P m (λ _, P) → preserves P m.
Proof. done. Qed.
Lemma preserves_weaken {S A} (P Q : S → Prop) (m : Tx S A) : (∀ s, P s → Q s) → tx_post Q m (λ _, P) → preserves P m.
Proof. intros HQ Hm s a s' Hs H. eauto. Qed.
(** Statements that only read. *)
Lemma post_pure {S A} (P : S → Prop) (m : Tx S A) (Q : A → S → Prop) :
  (∀ s a s', P s → m s = Ok (a, s') → s' = s ∧ Q a s) → tx_post P m Q.
Proof. intros H s a s' Hs Hm. by destruct (H s a s' Hs Hm) as [-> ?]. Qed.
Lemma preserves_readonly {S A} (P : S → Prop) (m : Tx S A) : readonly m → preserves P m.
Proof. intros H s a s' Hs Hm. by rewrite (H _ _ _ Hm). Qed.

(** ** Frames *)

(** Audit rows, enrollments, recovery codes and permissions do not matter. *)
Definition frame (d d' : bdb) : Prop :=
  b_users d' = b_users d ∧ b_next_user d' = b_next_user d ∧ b_roles d' = b_roles d ∧ b_next_role d' = b_next_role d ∧
  b_sessions d' = b_sessions d ∧ b_next_session d' = b_next_session d ∧
  b_challenges d' = b_challenges d ∧ b_next_challenge d' = b_next_challenge d.
Lemma inv_frame user session d d' : frame d d' → inv user session d → inv user session d'.
Proof.
  destruct d, d'. unfold frame. cbn. intros (-> & -> & -> & -> & -> & -> & -> & ->) (([] & ?) & ?).
  split; [split|]; [constructor|..]; assumption.
Qed.
Lemma frame_preserves user session (f : bdb → bdb) : (∀ d, frame d (f d)) → preserves (inv user session) (tx_modify f).
Proof. intros Hf. apply preserves_modify. intros d. apply inv_frame, Hf. Qed.

(** Accounts change, sessions and challenges stay: their users must still be
    active, and the targets no administrators. *)
Lemma inv_accounts user session d d' : frame (set_b_roles (b_roles d') (set_b_next_role (b_next_role d')
    (set_b_users (b_users d') (set_b_next_user (b_next_user d') d)))) d' →
  roles_ok d' → users_ok d' →
  (∀ id s, b_sessions d !! id = Some s → is_active d' (se_user s) = true ∧
     ∀ target, se_impersonated s = Some target → is_active d' target = true ∧ is_admin d' target = false) →
  (∀ id c, b_challenges d !! id = Some c → is_active d' (ch_user c) = true) →
  (user = 0 ∨ is_active d' user = true) →
  inv user session d → inv user session d'.
Proof.
  unfold frame. cbn. intros (_ & _ & _ & _ & Es & Ens & Ec & Enc) Hr Hu Hs Hc Hact ((_ & _ & (Hn & Hso & Hsu) & Hco & Hcu) & _ & Hof).
  split; [split; [done|]; split; [done|]; split|].
  - unfold sessions_ok. rewrite Es, Ens. split; [done|]. split; [|done]. intros id s Hid. destruct (Hso id s Hid) as (? & ? & _).
    unfold session_ok. rewrite Ens. split; [done|]. split; [done|]. exact (Hs id s Hid).
  - unfold challenges_ok. rewrite Ec. split; [|done]. intros id c Hid. destruct (Hco id c Hid) as (? & ? & _ & ? & Hse & ?).
    unfold challenge_ok, session_of. rewrite Es, Enc. repeat split; try tauto. by eapply Hc.
  - split; [done|]. unfold session_of. by rewrite Es.
Qed.

(** Accounts that stay active and do not become administrators. *)
Definition accounts_le (d d' : bdb) : Prop :=
  ∀ user, is_active d user = true → is_active d' user = true ∧ (is_admin d user = false → is_admin d' user = false).
Lemma inv_accounts_le user session d d' : frame (set_b_roles (b_roles d') (set_b_next_role (b_next_role d')
    (set_b_users (b_users d') (set_b_next_user (b_next_user d') d)))) d' →
  roles_ok d' → users_ok d' → accounts_le d d' → inv user session d → inv user session d'.
Proof.
  intros Hf Hr Hu Ha H. pose proof H as ((_ & _ & (_ & Hs & _) & Hc & _) & Hact & _). revert H. apply inv_accounts; try done.
  - intros id s Hid. destruct (Hs id s Hid) as (_ & _ & Hsa & Himp). split; [by apply Ha|]. intros t Ht.
    destruct (Himp t Ht) as [Hta Hadm]. destruct (Ha t Hta) as [? Hna]. split; [done|by apply Hna].
  - intros id c Hid. destruct (Hc id c Hid) as (_ & _ & Hca & _). by apply Ha.
  - destruct Hact as [|Hact]; [by left|]. right. by apply Ha.
Qed.

(** ** Statements on sessions and challenges *)

Lemma inv_delete_challenges user session cond d : inv user session d → inv user session (delete_challenges cond d).
Proof.
  intros ((Hr & Hu & Hs & Hc & Huniq) & Hrest). split; [|done]. split; [by destruct Hr; constructor|]. split; [done|]. split; [done|].
  split; cbn.
  - intros id c [Hid _]%map_lookup_filter_Some. exact (Hc id c Hid).
  - intros i j c c' [Hi _]%map_lookup_filter_Some [Hj _]%map_lookup_filter_Some. by apply Huniq.
Qed.
Lemma inv_delete_sessions user session cond d : (∀ s, b_sessions d !! session = Some s → cond s = false) →
  inv user session d → inv user session (delete_sessions cond d).
Proof.
  intros Hkeep ((Hr & Hu & (Hn & Hs & Hsu) & Hc & Hcu) & Hact & Hof). split; [split; [by destruct Hr; constructor|]; split; [done|]; split|].
  - split; [done|]. split; cbn.
    + intros id s [Hid _]%map_lookup_filter_Some. exact (Hs id s Hid).
    + intros i j s s' [Hi _]%map_lookup_filter_Some [Hj _]%map_lookup_filter_Some. by apply Hsu.
  - split; cbn.
    + intros id c [Hid Halive]%map_lookup_filter_Some. cbn in Halive. destruct (Hc id c Hid) as (? & ? & ? & ? & Hse & ?).
      repeat split; try tauto. intros se Hse'. destruct (Hse se Hse') as (s & Hs' & Hsu'). exists s. split; [|done]. cbn.
      unfold session_alive in Halive. rewrite Hse' in Halive. apply map_lookup_filter_Some. split; [done|]. cbn.
      destruct (filter _ (b_sessions d) !! se) as [s0|] eqn:E; [|done]. apply map_lookup_filter_Some in E as [E E']. by simplify_eq.
    + intros i j c c' [Hi _]%map_lookup_filter_Some [Hj _]%map_lookup_filter_Some. by apply Hcu.
  - split; [done|]. destruct Hof as [|(s & Hsess & Huser)]; [by left|]. right. exists s. split; [|done]. cbn.
    apply map_lookup_filter_Some. split; [done|]. cbn. by apply Hkeep.
Qed.
Lemma inv_delete_sessions_0 user cond d : inv user 0 d → inv user 0 (delete_sessions cond d).
Proof.
  intros H. apply inv_delete_sessions; [|done]. intros s Hs. destruct H as ((_ & _ & (_ & Hok & _) & _) & _).
  destruct (Hok 0 s Hs) as (_ & ? & _). lia.
Qed.

(** A session keeps its id, user and target; or takes a fresh token and a
    target that may be impersonated. *)
Lemma inv_alter_session user session id f d :
  (∀ s, b_sessions d !! id = Some s →
     se_id (f s) = se_id s ∧ se_user (f s) = se_user s ∧
     (se_token (f s) = se_token s ∨ ∀ j s', b_sessions d !! j = Some s' → se_token s' = se_token (f s) → j = id) ∧
     ∀ target, se_impersonated (f s) = Some target → is_active d target = true ∧ is_admin d target = false) →
  inv user session d → inv user session (set_b_sessions (alter f id (b_sessions d)) d).
Proof.
  intros Hf ((Hr & Hu & (Hn & Hs & Hsu) & Hc & Hcu) & Hact & Hof).
  assert (Hold : ∀ j s, alter f id (b_sessions d) !! j = Some s →
    ∃ s0, b_sessions d !! j = Some s0 ∧ (s = s0 ∧ j ≠ id ∨ j = id ∧ s = f s0)).
  { intros j s. destruct (decide (j = id)) as [->|Hne].
    - rewrite lookup_alter_eq. destruct (b_sessions d !! id) as [s0|]; [|done]. intros [= <-]. exists s0. eauto.
    - rewrite lookup_alter_ne by done. intros Hj. exists s. eauto. }
  assert (Hsof : ∀ se u, session_of d se u → session_of (set_b_sessions (alter f id (b_sessions d)) d) se u).
  { intros se u (s & Hse & Hsu'). unfold session_of. cbn. destruct (decide (se = id)) as [->|Hne].
    - exists (f s). rewrite lookup_alter_eq, Hse. split; [done|]. destruct (Hf s Hse) as (_ & -> & _). done.
    - exists s. by rewrite lookup_alter_ne. }
  split; [split; [by destruct Hr; constructor|]; split; [done|]; split|].
  - split; [done|]. split; cbn.
    + intros j s (s0 & Hj & [[-> _]|[-> ->]])%Hold; [exact (Hs j s0 Hj)|].
      destruct (Hs id s0 Hj) as (? & ? & ? & ?), (Hf s0 Hj) as (Hid & Huser & _ & Himp). split; [congruence|]. split; [done|].
      split; [by rewrite Huser|exact Himp].
    + intros i j s s' (s0 & Hi & Hs0)%Hold (s1 & Hj & Hs1)%Hold Ht.
      destruct Hs0 as [[-> Hni]|[-> ->]], Hs1 as [[-> Hnj]|[-> ->]]; [by eapply Hsu| | |done].
      * destruct (Hf s1 Hj) as (_ & _ & [Hsame|Hfresh] & _); [rewrite Hsame in Ht; by eapply Hsu|by eapply Hfresh].
      * destruct (Hf s0 Hi) as (_ & _ & [Hsame|Hfresh] & _); [rewrite Hsame in Ht; by eapply Hsu|]. symmetry. eapply Hfresh; [done|by symmetry].
  - split; cbn; [|exact Hcu]. intros j c Hj. destruct (Hc j c Hj) as (? & ? & ? & ? & Hse & ?). repeat split; try tauto.
    intros se Hse'. by apply Hsof, Hse.
  - split; [done|]. destruct Hof as [|Hof]; [by left|right; by apply Hsof].
Qed.

Lemma inv_insert_session user session row d : inv user session d →
  let id := b_next_session d in
  exists_row (λ s, (se_token s =? se_token (row id))%string) (b_sessions d) = false →
  se_id (row id) = id → is_active d (se_user (row id)) = true → se_impersonated (row id) = None →
  inv user session (set_b_next_session (id + 1) (set_b_sessions (<[id := row id]> (b_sessions d)) d)).
Proof.
  cbn zeta. intros ((Hr & Hu & (Hn & Hs & Hsu) & Hc & Hcu) & Hact & Hof) Hfresh Hid Ha Himp. rewrite exists_row_false in Hfresh.
  set (id := b_next_session d) in *.
  assert (Hlt : ∀ j s, b_sessions d !! j = Some s → j < id) by (intros j s Hj; destruct (Hs j s Hj) as (_ & ? & _); unfold id; lia).
  assert (Hsof : ∀ se u, session_of d se u → session_of (set_b_next_session (id + 1) (set_b_sessions (<[id:=row id]> (b_sessions d)) d)) se u).
  { intros se u (s & Hse & Hsu'). exists s. split; [|done]. cbn. rewrite lookup_insert_ne; [done|]. specialize (Hlt _ _ Hse). lia. }
  split; [split; [by destruct Hr; constructor|]; split; [done|]; split|].
  - split; [cbn; unfold id; lia|]. split; cbn.
    + intros j s [[<- <-]|[Hne Hj]]%lookup_insert_Some; [split; [done|]; split; [cbn; unfold id; lia|]; split; [done|by rewrite Himp]|].
      destruct (Hs j s Hj) as (? & ? & ?). split; [done|]. split; [cbn; unfold id; lia|done].
    + intros i j s s' [[<- <-]|[Hni Hi]]%lookup_insert_Some [[<- <-]|[Hnj Hj]]%lookup_insert_Some Ht; [done| | |by eapply Hsu].
      * specialize (Hfresh _ _ Hj). cbn in Hfresh. by rewrite Ht, String.eqb_refl in Hfresh.
      * specialize (Hfresh _ _ Hi). cbn in Hfresh. by rewrite Ht, String.eqb_refl in Hfresh.
  - split; cbn; [|exact Hcu]. intros j c Hj. destruct (Hc j c Hj) as (? & ? & ? & ? & Hse & ?). repeat split; try tauto.
    intros se Hse'. by apply Hsof, Hse.
  - split; [done|]. destruct Hof as [|Hof]; [by left|right; by apply Hsof].
Qed.

Lemma inv_insert_challenge user session row d : inv user session d →
  let id := b_next_challenge d in
  exists_row (λ c, (ch_token c =? ch_token (row id))%string) (b_challenges d) = false → challenge_ok (set_b_next_challenge (id + 1) d) id (row id) →
  inv user session (set_b_next_challenge (id + 1) (set_b_challenges (<[id := row id]> (b_challenges d)) d)).
Proof.
  cbn zeta. intros ((Hr & Hu & Hs & Hc & Hcu) & Hact & Hof) Hfresh Hok. rewrite exists_row_false in Hfresh.
  split; [split; [by destruct Hr; constructor|]; split; [done|]; split; [done|]|done]. split; cbn.
  - intros j c [[<- <-]|[Hne Hj]]%lookup_insert_Some; [exact Hok|]. destruct (Hc j c Hj) as (? & ? & ?). split; [done|].
    split; [cbn; lia|done].
  - intros i j s s' [[<- <-]|[Hni Hi]]%lookup_insert_Some [[<- <-]|[Hnj Hj]]%lookup_insert_Some Ht; [done| | |by eapply Hcu].
    + specialize (Hfresh _ _ Hj). cbn in Hfresh. by rewrite Ht, String.eqb_refl in Hfresh.
    + specialize (Hfresh _ _ Hi). cbn in Hfresh. by rewrite Ht, String.eqb_refl in Hfresh.
Qed.

(** An update of a challenge keeps what identifies it. *)
Definition same_challenge (c c' : Challenge) : Prop :=
  ch_id c' = ch_id c ∧ ch_token c' = ch_token c ∧ ch_user c' = ch_user c ∧ ch_session c' = ch_session c ∧ ch_purpose c' = ch_purpose c.
Lemma inv_alter_challenge user session id f d :
  (∀ c, b_challenges d !! id = Some c → same_challenge c (f c) ∧ 0 <= ch_failures (f c) <= MaxFailures ∧
    (ch_failures (f c) = MaxFailures → is_Some (ch_consumed (f c)))) →
  inv user session d → inv user session (set_b_challenges (alter f id (b_challenges d)) d).
Proof.
  intros Hf ((Hr & Hu & Hs & Hc & Hcu) & Hact & Hof).
  assert (Hold : ∀ j c, alter f id (b_challenges d) !! j = Some c →
    ∃ c0, b_challenges d !! j = Some c0 ∧ same_challenge c0 c ∧ 0 <= ch_failures c <= MaxFailures ∧
      (ch_failures c = MaxFailures → is_Some (ch_consumed c))).
  { intros j c. destruct (decide (j = id)) as [->|Hne].
    - rewrite lookup_alter_eq. destruct (b_challenges d !! id) as [c0|] eqn:E; [|done]. intros [= <-]. exists c0. split; [done|]. by apply Hf.
    - rewrite lookup_alter_ne by done. intros Hj. exists c. split; [done|]. destruct (Hc j c Hj) as (_ & _ & _ & _ & _ & ?). split; done. }
  split; [split; [by destruct Hr; constructor|]; split; [done|]; split; [done|]|done]. split; cbn.
  - intros j c (c0 & Hj & (Hi & _ & Huser & Hse & Hp) & Hfail)%Hold. destruct (Hc j c0 Hj) as (? & ? & ? & ? & ? & _).
    unfold challenge_ok. rewrite Hi, Huser, Hse, Hp. done.
  - intros i j c c' (c0 & Hi & (_ & Ht & _) & _)%Hold (c1 & Hj & (_ & Ht' & _) & _)%Hold E. rewrite Ht, Ht' in E. by eapply Hcu.
Qed.

(** ** Statements on accounts *)

Lemma roles_ok_frame d d' : b_roles d' = b_roles d → b_next_role d' = b_next_role d → roles_ok d → roles_ok d'.
Proof. intros Er En []. constructor; by rewrite ?Er, ?En. Qed.
Lemma identity_of_role user d u r : identity_of user d = Some (u, r) ↔ b_users d !! user = Some u ∧ b_roles d !! us_role u = Some r.
Proof.
  unfold identity_of. destruct (b_users d !! user) as [u'|]; [|naive_solver]. destruct (b_roles d !! us_role u') eqn:E; naive_solver.
Qed.
Lemma is_admin_true d user : is_admin d user = true ↔
  ∃ u r, b_users d !! user = Some u ∧ b_roles d !! us_role u = Some r ∧ rl_slug r = AdminRoleSlug.
Proof.
  unfold is_admin, identity_of, IsAdminRole. destruct (b_users d !! user) as [u|] eqn:Eu; [|naive_solver].
  destruct (b_roles d !! us_role u) as [r|] eqn:Er; [|naive_solver]. rewrite String.eqb_eq. naive_solver.
Qed.
Lemma is_active_true d user : is_active d user = true ↔ ∃ u, b_users d !! user = Some u ∧ us_active u = true.
Proof. unfold is_active. destruct (b_users d !! user); naive_solver. Qed.

(** A row keeps its role and is not deactivated. *)
Lemma inv_update_user user session id f d :
  (∀ u, b_users d !! id = Some u → us_role (f u) = us_role u ∧ (us_active u = true → us_active (f u) = true)) →
  inv user session d → inv user session (update_user id f d).
Proof.
  intros Hf H. pose proof H as ((Hr & (Hn & Hu) & _) & _). revert H. apply inv_accounts_le; [done| |split; [done|]|].
  - by apply (roles_ok_frame d).
  - intros j u. cbn. destruct (decide (j = id)) as [->|Hne].
    + rewrite lookup_alter_eq. intros (u0 & Hu0 & ->)%fmap_Some. rewrite (proj1 (Hf u0 Hu0)). by apply Hu.
    + rewrite lookup_alter_ne by done. apply Hu.
  - intros j. unfold is_active, is_admin, identity_of, update_user. cbn. destruct (decide (j = id)) as [->|Hne].
    + rewrite lookup_alter_eq. destruct (b_users d !! id) as [u|] eqn:E; [|done]. cbn. destruct (Hf u eq_refl) as [-> Ha].
      intros Hua. split; [by apply Ha|]. by destruct (b_roles d !! us_role u).
    + rewrite lookup_alter_ne by done. done.
Qed.

Lemma inv_insert_user user session row d : is_Some (b_roles d !! us_role row) → inv user session d →
  inv user session (set_b_next_user (b_next_user d + 1) (set_b_users (<[b_next_user d := row]> (b_users d)) d)).
Proof.
  intros Hrow H. pose proof H as ((Hr & (Hn & Hu) & _) & _).
  assert (Hfresh : b_users d !! b_next_user d = None) by (destruct (b_users d !! b_next_user d) eqn:E; [apply Hu in E; lia|done]).
  revert H. apply inv_accounts_le; [done| | |].
  - by apply (roles_ok_frame d).
  - split; [cbn; lia|]. intros j u. cbn. intros [[<- <-]|[Hne Hj]]%lookup_insert_Some; [split; [lia|done]|]. destruct (Hu j u Hj). split; [lia|done].
  - intros j Hj. assert (b_next_user d ≠ j). { intros <-. unfold is_active in Hj. by rewrite Hfresh in Hj. }
    unfold is_active, is_admin, identity_of in *. cbn. rewrite lookup_insert_ne by done. done.
Qed.

(** A role keeps its slug; nothing else of it matters. *)
Lemma inv_update_role user session id f d : (∀ r, rl_slug (f r) = rl_slug r ∧ (rl_system r = true → rl_system (f r) = true)) →
  inv user session d → inv user session (update_role id f d).
Proof.
  intros Hf H. pose proof H as ((Hr & (Hn & Hu) & _) & _).
  assert (Hl : ∀ j, alter f id (b_roles d) !! j = (if decide (j = id) then f else (λ r, r)) <$> b_roles d !! j).
  { intros j. destruct (decide (j = id)) as [->|]; [by rewrite lookup_alter_eq|]. rewrite lookup_alter_ne by done. by destruct (_ !! j). }
  assert (Hs : ∀ j r, alter f id (b_roles d) !! j = Some r → ∃ r0, b_roles d !! j = Some r0 ∧ rl_slug r = rl_slug r0 ∧ (rl_system r0 = true → rl_system r = true)).
  { intros j r. rewrite Hl. intros (r0 & Hj & ->)%fmap_Some. exists r0. split; [done|]. destruct (decide _); [apply Hf|done]. }
  revert H. apply inv_accounts_le; [done| | |].
  - destruct Hr as [(i & r & Hi & Hir) Hsys Huniq Hb]. constructor; cbn.
    + exists i, ((if decide (i = id) then f else (λ r, r)) r). rewrite Hl, Hi. split; [done|]. destruct (decide _); [by rewrite (proj1 (Hf r))|done].
    + intros j r' (r0 & Hj & Hsl & Hsy)%Hs Hadm. apply Hsy. eapply Hsys; [exact Hj|congruence].
    + intros j k r1 r2 (r1' & Hj & -> & _)%Hs (r2' & Hk & -> & _)%Hs. by apply Huniq.
    + intros j r' (r0 & Hj & _)%Hs. by eapply Hb.
  - split; [done|]. intros j u Hj. cbn in *. destruct (Hu j u Hj) as [? [r Hur]]. split; [done|]. rewrite Hl, Hur. by eexists.
  - intros j Hj. split; [done|]. unfold is_admin, identity_of. cbn. destruct (b_users d !! j) as [u|]; [|done].
    rewrite Hl. destruct (b_roles d !! us_role u) as [r|]; [|done]. cbn. destruct (decide _); [by rewrite (proj1 (Hf r))|done].
Qed.

Lemma inv_insert_role user session row d :
  exists_row (λ r, (rl_slug r =? rl_slug row)%string) (b_roles d) = false → inv user session d →
  inv user session (set_b_next_role (b_next_role d + 1) (set_b_roles (<[b_next_role d := row]> (b_roles d)) d)).
Proof.
  rewrite exists_row_false. intros Hfresh H. pose proof H as ((Hr & (Hn & Hu) & _) & _). destruct Hr as [(i & r & Hi & Hir) Hsys Huniq Hb].
  assert (Hnew : ∀ j r', b_roles d !! j = Some r' → rl_slug r' ≠ rl_slug row).
  { intros j r' Hj E. specialize (Hfresh j r' Hj). cbn in Hfresh. by rewrite E, String.eqb_refl in Hfresh. }
  revert H. apply inv_accounts_le; [done| | |].
  - constructor; cbn.
    + exists i, r. rewrite lookup_insert_ne; [done|]. specialize (Hb i r Hi). lia.
    + intros j r' [[<- <-]|[Hne Hj]]%lookup_insert_Some Hadm; [|by eapply Hsys]. exfalso. apply (Hnew i r Hi). congruence.
    + intros j k r1 r2 [[<- <-]|[_ Hj]]%lookup_insert_Some [[<- <-]|[_ Hk]]%lookup_insert_Some E; [done| | |by eapply Huniq].
      * exfalso. eapply Hnew; [exact Hk|by symmetry].
      * exfalso. by eapply Hnew.
    + intros j r' [[<- <-]|[_ Hj]]%lookup_insert_Some; [lia|]. specialize (Hb j r' Hj). lia.
  - split; [done|]. intros j u Hj. cbn in *. destruct (Hu j u Hj) as [? [r' Hur]]. split; [done|]. rewrite lookup_insert_ne; [by eexists|].
    specialize (Hb _ _ Hur). lia.
  - intros j Hj. split; [done|]. unfold is_admin, identity_of. cbn. destruct (b_users d !! j) as [u|] eqn:E; [|done].
    destruct (Hu j u E) as [_ [r' Hur]]. rewrite lookup_insert_ne; [done|]. specialize (Hb _ _ Hur). lia.
Qed.

(** A role nobody has, and that is not the administrators', is deleted. *)
Lemma inv_delete_role user session id d : (∀ r, b_roles d !! id = Some r → rl_slug r ≠ AdminRoleSlug) →
  (∀ j u, b_users d !! j = Some u → us_role u ≠ id) → inv user session d → inv user session (set_b_roles (delete id (b_roles d)) d).
Proof.
  intros Hadm Hnone H. pose proof H as ((Hr & (Hn & Hu) & _) & _). destruct Hr as [(i & r & Hi & Hir) Hsys Huniq Hb].
  revert H. apply inv_accounts_le; [done| | |].
  - constructor; cbn.
    + exists i, r. rewrite lookup_delete_ne; [done|]. intros ->. by eapply Hadm.
    + intros j r' [_ Hj]%lookup_delete_Some. by eapply Hsys.
    + intros j k r1 r2 [_ Hj]%lookup_delete_Some [_ Hk]%lookup_delete_Some. by eapply Huniq.
    + intros j r' [_ Hj]%lookup_delete_Some. by eapply Hb.
  - split; [done|]. intros j u Hj. cbn in *. destruct (Hu j u Hj) as [? ?]. split; [done|]. rewrite lookup_delete_ne; [done|]. intros E. by eapply (Hnone j).
  - intros j Hj. split; [done|]. unfold is_admin, identity_of. cbn. destruct (b_users d !! j) as [u|] eqn:E; [|done].
    rewrite lookup_delete_ne; [done|]. intros E'. by eapply (Hnone j).
Qed.

(** ** Transactions of multi-factor authentication *)

Lemma frame_audit x d : frame d (set_b_audit x d). Proof. done. Qed.
Lemma frame_enrollments x d : frame d (set_b_enrollments x d). Proof. done. Qed.
Lemma frame_codes x d : frame d (set_b_codes x d). Proof. done. Qed.

Lemma Append_browser event s r : Append event s = Ok r → ∃ row, audit_row_of event = Ok row ∧ r = (tt, set_b_audit (b_audit s ++ [row]) s).
Proof.
  unfold Append. intros (row & s' & (? & Hrow & [= -> ->])%tx_lift_Ok & Hi)%tx_bind_Ok. exists x. split; [done|].
  cbn in Hi. unfold insert_browser_audit in Hi. destruct (negb _); [done|]. by injection Hi as <-.
Qed.
Lemma append_inv user session event : preserves (inv user session) (Append event).
Proof. intros d a d' Hd (row & _ & [= _ ->])%Append_browser. by apply (inv_frame _ _ d). Qed.
Lemma insert_codes_inv user session id codes : preserves (inv user session) (insert_codes id codes).
Proof.
  induction codes as [|code codes IH]; [apply preserves_ret|]. apply preserves_bind; [|intros _; exact IH].
  intros d a d' Hd. destruct (b_codes d !! _); [done|]. intros [= _ <-]. by apply (inv_frame _ _ d).
Qed.
Lemma delete_challenges_inv user session cond : preserves (inv user session) (tx_modify (delete_challenges cond)).
Proof. apply preserves_modify. intros d. apply inv_delete_challenges. Qed.
Lemma delete_sessions_inv user cond : preserves (inv user 0) (tx_modify (delete_sessions cond)).
Proof. apply preserves_modify. intros d. apply inv_delete_sessions_0. Qed.
Lemma clearChallengesSessions_inv user id : preserves (inv user 0) (clearChallengesSessions id).
Proof. apply preserves_bind; [apply delete_challenges_inv|intros _; apply delete_sessions_inv]. Qed.
Lemma set_verified_inv user session id now : preserves (inv user session) (tx_modify (set_verified id now)).
Proof.
  apply preserves_modify. intros d H. apply inv_alter_session; [|done]. intros s Hs. cbn. split; [done|]. split; [done|]. split; [by left|].
  destruct H as ((_ & _ & (_ & Hok & _) & _) & _). by apply (Hok id s Hs).
Qed.
Lemma set_last_login_inv user session id now : preserves (inv user session) (tx_modify (set_last_login id now)).
Proof. apply preserves_modify. intros d. by apply inv_update_user. Qed.
Lemma set_pending_inv user session id pending : preserves (inv user session) (update_challenge id (set_pending pending)).
Proof.
  apply preserves_modify. intros d H. apply inv_alter_challenge; [|done]. intros c Hc. split; [done|].
  destruct H as ((_ & _ & _ & Hok & _) & _). by apply (Hok id c Hc).
Qed.
Lemma set_consumed_inv user session id now : preserves (inv user session) (update_challenge id (set_consumed now)).
Proof.
  apply preserves_modify. intros d H. apply inv_alter_challenge; [|done]. intros c Hc. split; [done|].
  destruct H as ((_ & _ & _ & Hok & _) & _). split; [by apply (Hok id c Hc)|]. eexists. done.
Qed.
#[export] Hint Resolve append_inv insert_codes_inv delete_challenges_inv delete_sessions_inv clearChallengesSessions_inv
  set_verified_inv set_last_login_inv set_pending_inv set_consumed_inv : tx.

Lemma replaceRecovery_inv user session random id : preserves (inv user session) (replaceRecovery random id).
Proof. unfold replaceRecovery. tx_preserves. by apply frame_preserves. Qed.
#[export] Hint Resolve replaceRecovery_inv : tx.

Section Store.
Context {aead : Aead} (cfg : StoreConfig).

(** Reads that establish the invariant of an active user's session. *)
Lemma lockUser_post id : tx_post browser_ok (lockUser id) (λ u d, browser_ok d ∧ b_users d !! id = Some u ∧ (us_active u = true → id ≠ 0 ∧ inv id 0 d)).
Proof.
  apply post_pure. intros d u d' Hd. unfold lockUser. destruct (b_users d !! id) as [u'|] eqn:Eu; [|done]. intros [= <- <-].
  split; [done|]. split; [done|]. split; [done|]. intros Ha. destruct Hd as (? & (? & Hu) & ?). destruct (Hu id u' Eu).
  split; [lia|]. split; [done|]. split; [right; by rewrite is_active_true; eauto|by left].
Qed.
Lemma FindValidSession_own d id s now s' : browser_ok d → b_sessions d !! id = Some s →
  FindValidSession (se_token s) now d = Ok s' → s' = s ∧ now < se_expires s.
Proof.
  intros (_ & _ & (_ & _ & Huniq) & _) Hs. unfold FindValidSession. destruct (find_row _ _) as [s0|] eqn:E; [|done]. intros [= <-].
  apply find_row_Some in E as [[Ht Hexp]%andb_true_iff [k Hk]]. apply String.eqb_eq in Ht. rewrite (Huniq k id s0 s Hk Hs Ht) in Hk. simplify_eq.
  split; [done|lia].
Qed.
Lemma lockSession_Ok id session now d s d' : browser_ok d → lockSession cfg id session now d = Ok (s, d') →
  d' = d ∧ b_sessions d !! session = Some s ∧ se_user s = id ∧ now < se_expires s ∧ idle cfg now s = false.
Proof.
  intros Hd. unfold lockSession. destruct (b_sessions d !! session) as [row|] eqn:Er; [|done].
  destruct (negb (se_user row =? id)) eqn:Eu; [done|]. destruct (FindValidSession _ _ _) as [s0|] eqn:Ef; [|done].
  destruct (FindValidSession_own _ _ _ _ _ Hd Er Ef) as [-> ?]. destruct (_ || _) eqn:Ei; [done|]. intros [= <- <-].
  apply orb_false_iff in Ei as [_ Ei]. repeat split; try done. apply negb_false_iff in Eu. lia.
Qed.
Lemma lockSession_post id session now : tx_post (inv id 0) (lockSession cfg id session now)
  (λ s d, inv id session d ∧ b_sessions d !! session = Some s ∧ session ≠ 0).
Proof.
  apply post_pure. intros d s d' Hd Hl. pose proof Hd as (Hok & Hact & _).
  destruct (lockSession_Ok _ _ _ _ _ _ Hok Hl) as (-> & Hs & Hu & _). split; [done|]. split; [|split; [done|]].
  - split; [done|]. split; [done|]. right. by exists s.
  - destruct Hok as (_ & _ & (_ & Hso & _) & _). destruct (Hso _ _ Hs) as (_ & ? & _). lia.
Qed.

Lemma insert_challenge_inv user session row :
  (∀ d, inv user session d → challenge_ok (set_b_next_challenge (b_next_challenge d + 1) d) (b_next_challenge d) (row (b_next_challenge d))) →
  preserves (inv user session) (insert_challenge row).
Proof.
  intros Hrow d id d' Hd. unfold insert_challenge. cbn zeta. destruct (exists_row _ _) eqn:Ef; [done|].
  destruct (negb _) eqn:Ek; [done|]. intros [= <- <-]. by apply (inv_insert_challenge _ _ row d Hd Ef), Hrow.
Qed.
Lemma issue_inv random user session purpose remember next now : user ≠ 0 → login_purpose purpose = (session =? 0) →
  preserves (inv user session) (issue random user session purpose remember next now).
Proof.
  intros Hu Hp. unfold issue. cbn zeta. apply preserves_bind; [|intros cid; tx_preserves].
  apply insert_challenge_inv. intros d (Hok & Hact & Hof).
  split; [done|]. split; [cbn; lia|]. cbn. split; [by destruct Hact|].
  rewrite Hp. destruct (session =? 0) eqn:E0; cbn; [split; [done|]; split; [by intros|]; split; [split; [lia|vm_compute; done]|done]|].
  split; [done|]. split; [|split; [split; [lia|vm_compute; done]|done]]. intros se [= <-]. apply Z.eqb_neq in E0. by destruct Hof.
Qed.

(** After the lock of an active user. *)
Definition locked (id : Z) (u : user_row) (d : bdb) : Prop :=
  browser_ok d ∧ b_users d !! id = Some u ∧ (us_active u = true → id ≠ 0 ∧ inv id 0 d).
Lemma locked_post {A} id u (m : Tx bdb A) Q : us_active u = true → (id ≠ 0 → tx_post (inv id 0) m Q) → tx_post (locked id u) m Q.
Proof. intros Hu Hm d a d' (_ & _ & Hl) Hrun. destruct (Hl Hu) as [Hid Hd]. by eapply Hm. Qed.
Lemma fail_post {A} P e (Q : A → bdb → Prop) : tx_post P (tx_fail e) Q. Proof. by intros ???. Qed.
Lemma inv_post {A} user session (m : Tx bdb A) : preserves (inv user session) m → tx_post (inv user session) m (λ _, browser_ok).
Proof. intros Hm. apply preserves_post; [done|]. apply inv_ok. Qed.

Lemma BeginLogin_inv random id hash remember next now : preserves browser_ok (BeginLogin random id hash remember next now).
Proof.
  unfold BeginLogin. eapply tx_post_bind; [apply lockUser_post|]. intros u.
  destruct (us_active u) eqn:Ea; [|apply fail_post]. cbn [negb orb]. destruct (negb _); [apply fail_post|].
  apply locked_post; [done|]. intros Hid. apply inv_post.
  apply preserves_bind; [apply preserves_gets|]. intros enrolled. apply preserves_bind; [apply delete_challenges_inv|]. intros _.
  apply issue_inv; [done|]. by destruct enrolled.
Qed.

Lemma BeginAuthenticated_inv random id session purpose next token now now' :
  preserves browser_ok (BeginAuthenticated cfg random id session purpose next token now now').
Proof.
  unfold BeginAuthenticated. case_bool_decide as Hp; [|apply fail_post]. cbn [negb].
  eapply tx_post_bind; [apply lockUser_post|]. intros u. destruct (us_active u) eqn:Ea; [|apply fail_post]. cbn [negb].
  apply locked_post; [done|]. intros Hid. eapply tx_post_bind; [apply lockSession_post|]. intros s.
  destruct (_ && _); [apply fail_post|]. destruct (expired_or_idle _ _ _); [apply fail_post|].
  intros d a d' (Hd & _ & Hs). revert d a d' Hd. apply inv_post. apply preserves_bind; [apply preserves_gets|]. intros pending.
  destruct pending as [c|]; [destruct (_ || _); auto with tx|]. apply issue_inv; [done|]. apply Z.eqb_neq in Hs as ->.
  unfold login_purpose. rewrite bool_decide_false; [done|]. naive_solver.
Qed.

(** ** Verification *)

Lemma verify_session_Ok c id session now d r d' : browser_ok d → verify_session cfg c id session now d = Ok (r, d') →
  d' = d ∧ match r with
           | Some s => ch_session c = Some session ∧ b_sessions d !! session = Some s ∧ se_user s = id ∧ now < se_expires s ∧
               idle cfg now s = false ∧ (ch_purpose c = StepUp ∨ se_impersonated s = None)
           | None => ch_session c = None ∧ session = 0
           end.
Proof.
  intros Hd. unfold verify_session. destruct (ch_session c) as [bound|] eqn:Ec.
  - destruct (negb (bound =? session)) eqn:Eb; [done|]. intros (s & d1 & Hl & Hk)%tx_bind_Ok.
    destruct (lockSession_Ok _ _ _ _ _ _ Hd Hl) as (-> & Hs & Hu & Hx & Hi). apply negb_false_iff, Z.eqb_eq in Eb as ->.
    destruct (_ && _) eqn:Ei; [done|]. injection Hk as <- <-. repeat split; try done. case_bool_decide; [by left|right].
    by destruct (se_impersonated s).
  - destruct (session =? 0) eqn:E0; [|done]. cbn. intros [= <- <-]. split; [done|]. split; [done|lia].
Qed.
Lemma verify_attribution_readonly id u s : readonly (verify_attribution id u s).
Proof.
  intros d a d'. unfold verify_attribution. destruct (s ≫= se_impersonated) as [t|]; [|by intros [= _ <-]].
  destruct (b_users d !! t); [by intros [= _ <-]|done].
Qed.
Lemma check_code_readonly c id input now : readonly (check_code c id input now).
Proof.
  intros d a d'. unfold check_code. destruct (is_setup _).
  - intros H. tx_inv. destruct (Match _ _ _ _) as [counter []]; cbn in H; by injection H as _ <-.
  - intros H. tx_inv; intros; simplify_eq; done.
Qed.

Lemma reject_inv c id session attribution now : tx_post (λ d, inv id session d ∧ b_challenges d !! ch_id c = Some c ∧ ch_failures c < MaxFailures)
  (reject c session attribution now) (λ _, browser_ok).
Proof.
  unfold reject. cbn zeta. apply tx_post_bind with (λ _, inv id 0).
  - intros d a d' (Hd & Hc & Hf) [= _ <-]. eapply inv_weaken. apply inv_alter_challenge; [|exact Hd]. intros c' Hc'.
    assert (c' = c) as -> by congruence. split; [done|]. cbn. destruct Hd as ((_ & _ & _ & Hok & _) & _).
    destruct (Hok _ _ Hc) as (_ & _ & _ & _ & _ & Hb & _). split; [lia|]. intros ->%Z.eqb_eq. by eexists.
  - intros _. apply inv_post. destruct (_ && _); tx_preserves.
Qed.

Lemma spend_factor_inv user session f c id random attribution now : preserves (inv user session) (spend_factor f c id random attribution now).
Proof.
  destruct f as [counter|counter|hash]; unfold spend_factor.
  - tx_preserves; [|by apply frame_preserves]. intros d0 x d1 Hd. destruct (b_enrollments d0 !! id); [done|].
    intros [= _ <-]. by apply (inv_frame _ _ d0).
  - tx_preserves. by apply frame_preserves.
  - tx_preserves. by apply frame_preserves.
Qed.

Lemma CreateSessionIn_inv user session params now : user = cs_user params → user ≠ 0 →
  preserves (inv user session) (CreateSessionIn params now).
Proof.
  intros Hu Hu0. unfold CreateSessionIn.
  repeat match goal with |- preserves _ (if ?x then _ else _) => destruct x; [apply preserves_fail|] end. cbn zeta. apply preserves_bind; [|tx_preserves].
  intros d id d' Hd. unfold insert_session. cbn zeta. destruct (exists_row _ _) eqn:Ef; [done|].
  destruct (negb _); [done|]. intros [= <- <-]. refine (inv_insert_session _ _ (λ id, _) d Hd Ef eq_refl _ eq_refl).
  cbn. destruct Hd as (_ & [?|?] & _); [done|]. by subst.
Qed.

Lemma fulfil_inv c id session random attribution codes now : id ≠ 0 → (login_purpose (ch_purpose c) = (session =? 0)) →
  tx_post (inv id session) (fulfil cfg c id session random attribution codes now) (λ _, browser_ok).
Proof.
  intros Hid Hp. unfold fulfil. cbn zeta. destruct (ch_purpose c) eqn:Ec.
  1, 2: apply inv_post, preserves_bind; [by apply CreateSessionIn_inv|intros s; tx_preserves].
  - apply inv_post; tx_preserves.
  - intros d a d' Hd%inv_weaken. revert d a d' Hd. apply inv_post. tx_preserves.
  - apply inv_post, preserves_bind; [by apply issue_inv|intros pending; tx_preserves].
  - intros d a d' Hd%inv_weaken. revert d a d' Hd. apply inv_post. tx_preserves.
Qed.

Lemma verify_tx_inv random id token input session hash now now' :
  preserves browser_ok (verify_tx cfg random id token input session hash now now').
Proof.
  unfold verify_tx. eapply tx_post_bind; [apply lockUser_post|]. intros u.
  intros d a d' Hl (found & d1 & [= <- <-] & Hrun)%tx_bind_Ok. destruct (find_row _ _) as [c|] eqn:Ef; [|done].
  destruct (us_active u) eqn:Ea; [|done]. destruct Hl as (_ & _ & Hl). destruct (Hl eq_refl) as [Hid Hinv]. clear Hl.
  apply find_row_Some in Ef as [_ [k Hk]]. pose proof Hinv as (Hok & Hact & _). destruct (proj1 (proj2 (proj2 (proj2 Hok))) k c Hk)
    as (Hki & _ & _ & Hpur & Hse & Hfb & _). subst k. cbn [negb orb] in Hrun. destruct (_ || _ || _) eqn:Eg in Hrun; [done|].
  apply orb_false_iff in Eg as [_ Emax]. apply tx_bind_Ok in Hrun as (s & d2 & Hs & Hrun).
  apply verify_session_Ok in Hs as [-> Hs]; [|done]. destruct (_ || _) in Hrun; [done|].
  assert (Hinv' : inv id session d ∧ login_purpose (ch_purpose c) = (session =? 0)).
  { rewrite Hpur. destruct s as [s|].
    - destruct Hs as (-> & Hs & Hu & _). split; [split; [done|]; split; [done|]; right; by exists s|]. cbn.
      destruct Hok as (_ & _ & (_ & Hso & _) & _). destruct (Hso _ _ Hs) as (_ & ? & _). symmetry. apply Z.eqb_neq. lia.
    - destruct Hs as (-> & ->). by split. }
  destruct Hinv' as [Hinv' Hlp]. apply tx_bind_Ok in Hrun as (at_ & d3 & ->%verify_attribution_readonly & Hrun).
  apply tx_bind_Ok in Hrun as (code & d4 & ->%check_code_readonly & Hrun).
  assert (Hrej : tx_post (λ d0, d0 = d) (reject c session at_ now') (λ _, browser_ok)).
  { intros d0 x d5 -> Hr. eapply reject_inv; [|exact Hr]. split; [exact Hinv'|]. split; [done|lia]. }
  destruct code as [f|]; [|by eapply Hrej]. destruct (negb _); [by eapply Hrej|]. clear Hrej.
  revert Hrun. generalize Hinv'. apply (tx_post_bind (inv id session) _ (λ _, inv id session) _ (λ _, browser_ok)); [apply spend_factor_inv|].
  intros codes. apply tx_post_bind with (λ _, inv id session); [apply set_consumed_inv|]. intros _.
  apply tx_post_bind with (λ _, browser_ok); [by apply fulfil_inv|]. intros v. apply (preserves_ret browser_ok).
Qed.

Lemma append_best_effort_inv event d : browser_ok d → browser_ok (append_best_effort event d).
Proof. intros Hd. apply (inv_ok 0 0). unfold append_best_effort. apply preserves_runTx; [apply append_inv|by apply ok_inv]. Qed.

Lemma Verify_full_inv random token input session hash now now' d : browser_ok d →
  browser_ok (Verify_full cfg random token input session hash now now' d).2.
Proof.
  intros Hd. unfold Verify_full. destruct (find_row _ _) as [c|]; [|done]. destruct (runTx _ _) as [outcome d1] eqn:E.
  assert (Hd1 : browser_ok d1).
  { change d1 with ((outcome, d1).2). rewrite <- E. by apply preserves_runTx; [apply verify_tx_inv|]. }
  destruct outcome as [[exhausted at_|]|]; try done. cbn [snd]. destruct exhausted; cbn; by repeat apply append_best_effort_inv.
Qed.

Lemma lock_users_readonly actor ids : readonly (lock_users actor ids).
Proof.
  induction ids as [|id ids IH]; [by intros d a d' [= _ <-]|]. intros d a d' (u & d1 & Hl & Hrun)%tx_bind_Ok.
  unfold lockUser in Hl. destruct (b_users d !! id); [|done]. injection Hl as <- <-. destruct (_ && _); [done|]. by apply IH in Hrun.
Qed.
Lemma lockSession_readonly id session now : readonly (lockSession cfg id session now).
Proof.
  intros d a d'. unfold lockSession. destruct (b_sessions d !! session); [|done]. destruct (negb _); [done|].
  destruct (FindValidSession _ _ _); [|done]. destruct (_ || _); [done|]. by intros [= _ <-].
Qed.
Lemma Reset_inv target actor session attribution now now' : preserves browser_ok (Reset cfg target actor session attribution now now').
Proof.
  apply preserves_weaken with (inv 0 0); [apply ok_inv|]. apply inv_post. unfold Reset. destruct (_ || _); [auto with tx|].
  cbn zeta. apply preserves_bind; [apply preserves_readonly, lock_users_readonly|]. intros _. apply preserves_bind.
  - destruct (actor =? 0); [auto with tx|]. apply preserves_bind; [apply preserves_readonly, lockSession_readonly|]. intros s.
    destruct (_ || _); tx_preserves.
  - intros at_. tx_preserves; by apply frame_preserves.
Qed.
End Store.

(** ** Administration of users and roles *)

Lemma lockRoleBySlug_Ok slug d r : lockRoleBySlug slug d = Ok r → r.2 = d ∧ ∃ row, b_roles d !! r.1 = Some row ∧ rl_slug row = slug.
Proof.
  unfold lockRoleBySlug. destruct (list_find _ _) as [[i [id row]]|] eqn:E; [|done]. intros [= <-]. split; [done|].
  apply list_find_Some in E as (Hin & Hs & _). exists row. split; [|done]. apply elem_of_map_to_list. by apply list_elem_of_lookup_2 in Hin.
Qed.
Lemma lockRoleBySlug_Err slug d e : lockRoleBySlug slug d = Err e → ∀ id row, b_roles d !! id = Some row → rl_slug row ≠ slug.
Proof.
  unfold lockRoleBySlug. destruct (list_find _ _) as [[i [id row]]|] eqn:E; [done|]. intros _ id row Hid Hs.
  apply list_find_None in E. eapply Forall_forall in E; [|by apply elem_of_map_to_list]. done.
Qed.
Lemma findUser_Ok id d r : findUser id d = Ok r → r.2 = d ∧ b_users d !! id = Some r.1.1 ∧ b_roles d !! us_role r.1.1 = Some r.1.2.
Proof. unfold findUser. destruct (b_users d !! id) as [u|]; [|done]. destruct (b_roles d !! us_role u) eqn:E; [|done]. by intros [= <-]. Qed.
Lemma findRole_Ok id d r : findRole id d = Ok r → r.2 = d ∧ b_roles d !! id = Some r.1.
Proof. unfold findRole. destruct (b_roles d !! id); [|done]. by intros [= <-]. Qed.
Lemma findUser_readonly id : readonly (findUser id).
Proof. intros d a d' [<- _]%findUser_Ok. done. Qed.
Lemma keep_admin_Ok leaves role d r : keep_admin leaves role d = Ok r → r.2 = d ∧ (leaves = true → (1 < size (active_with role d))%nat).
Proof.
  unfold keep_admin. destruct leaves; [|by intros [= <-]]. intros (n & d1 & [= <- <-] & Hrun)%tx_bind_Ok.
  destruct (Nat.leb _ 1) eqn:E; [done|]. injection Hrun as <-. split; [done|]. intros _. by apply Nat.leb_gt in E.
Qed.

(** Walk a committed transaction: reads become facts about the state they
    read, writes become states. *)
Ltac browser_walk H :=
  lazymatch type of H with
  | tx_bind _ _ _ = Ok _ =>
      let a := fresh "a" in let s := fresh "s" in let H1 := fresh "Hs" in
      apply tx_bind_Ok in H as (a & s & H1 & H); browser_walk H1; browser_walk H
  | tx_gets _ _ = Ok _ => injection H as <- <-
  | tx_modify _ _ = Ok _ => injection H as _ <-
  | tx_ret _ _ = Ok _ => injection H as <- <-
  | tx_fail _ _ = Ok _ => discriminate H
  | tx_lift _ _ = Ok _ => let Hl := fresh "Hl" in let x := fresh "x" in apply tx_lift_Ok in H as (x & Hl & H); injection H as -> ->
  | findUser _ _ = Ok (?a, _) => let u := fresh "u" in let r := fresh "r" in let Hu := fresh "Hu" in let Hr := fresh "Hr" in
      destruct a as [u r]; apply findUser_Ok in H as (H & Hu & Hr); cbn [fst snd] in H, Hu, Hr |- *; subst; cbn [fst snd] in *
  | findRole _ _ = Ok _ => let Hr := fresh "Hr" in apply findRole_Ok in H as (H & Hr); cbn [fst snd] in H, Hr; subst
  | lockRoleBySlug _ _ = Ok _ => let r := fresh "r" in let Hr := fresh "Hadm" in let Hs := fresh "Hslug" in
      apply lockRoleBySlug_Ok in H as (H & r & Hr & Hs); cbn [fst snd] in H, Hr, Hs; subst
  | keep_admin _ _ _ = Ok _ => let Hk := fresh "Hk" in apply keep_admin_Ok in H as (H & Hk); cbn [fst snd] in H; subst
  | Append _ _ = Ok _ => let row := fresh "row" in let Hrow := fresh "Hrow" in
      apply Append_browser in H as (row & Hrow & H); injection H as _ ->
  | (if ?x then _ else _) _ = Ok _ => let E := fresh "E" in destruct x eqn:E; try discriminate H; browser_walk H
  | _ => idtac
  end.

(** [admin_guard r q]: an administrator's account only for administrators. *)
Definition admin_guard (requester : Requester) (r : role_row) : Prop := rl_slug r = AdminRoleSlug → IsEffectiveAdmin requester = true.
Lemma admin_guard_intro requester r : IsAdminRole (rl_slug r) && negb (IsEffectiveAdmin requester) = false → admin_guard requester r.
Proof. unfold admin_guard, IsAdminRole. intros E Ha. rewrite Ha in E. by destruct (IsEffectiveAdmin requester). Qed.

Lemma admin_guard_pair requester r q b : IsAdminRole (rl_slug q) = b → (IsAdminRole (rl_slug r) || b) && negb (IsEffectiveAdmin requester) = false →
  admin_guard requester r ∧ admin_guard requester q.
Proof.
  unfold admin_guard, IsAdminRole. intros <- E. rewrite andb_orb_distrib_l, orb_false_iff in E. destruct E as [E E'].
  by split; apply admin_guard_intro.
Qed.

Lemma CreateUser_Ok requester username name hash role now d id d' : CreateUser requester username name hash role now d = Ok (id, d') →
  id = b_next_user d ∧ ∃ r row, b_roles d !! role = Some r ∧ admin_guard requester r ∧
    username_taken username None d = false ∧
    d' = set_b_audit (b_audit d ++ [row]) (set_b_next_user (b_next_user d + 1)
      (set_b_users (<[b_next_user d := mkUserRow username name hash role true None]> (b_users d)) d)).
Proof.
  unfold CreateUser. intros H. browser_walk H.
  split; [done|]. exists a, row. split; [done|]. split; [by apply admin_guard_intro|done].
Qed.

Lemma UpdateUserProfile_Ok requester id username name now d a d' : UpdateUserProfile requester id username name now d = Ok (a, d') →
  ∃ u r log, b_users d !! id = Some u ∧ b_roles d !! us_role u = Some r ∧ admin_guard requester r ∧
    username_taken username (Some id) d = false ∧ d' = set_b_audit log (update_user id (set_profile username name) d).
Proof.
  unfold UpdateUserProfile. intros H. browser_walk H. exists u, r. eexists. repeat (split; [done|]). split; [by apply admin_guard_intro|]. done.
Qed.

Definition drop_impersonations (userID : Z) : bdb → bdb := delete_sessions (λ s, bool_decide (se_impersonated s = Some userID)).
Lemma AssignUserRole_Ok requester userID roleID now d a d' : AssignUserRole requester userID roleID now d = Ok (a, d') →
  ∃ u r q admin ra log, b_users d !! userID = Some u ∧ b_roles d !! us_role u = Some r ∧ b_roles d !! roleID = Some q ∧
    b_roles d !! admin = Some ra ∧ rl_slug ra = AdminRoleSlug ∧ admin_guard requester r ∧ admin_guard requester q ∧
    (us_active u = true → us_role u = admin → roleID ≠ admin → (1 < size (active_with admin d))%nat) ∧
    d' = set_b_audit log (update_user userID (set_role roleID) (if IsAdminRole (rl_slug q) then drop_impersonations userID d else d)).
Proof.
  unfold AssignUserRole. intros H. browser_walk H; exists u, r0, a1, a0, r.
  all: destruct (admin_guard_pair _ _ _ _ E1 E0) as [Hg Hg'].
  all: eexists; repeat (split; [done|]); split; [|rewrite E1; reflexivity].
  all: intros Ha Hro Hne; apply Hk; rewrite Ha, Hro, Z.eqb_refl; cbn; apply negb_true_iff; lia.
Qed.

Definition drop_user (userID : Z) (d : bdb) : bdb :=
  delete_sessions (λ s, (se_user s =? userID) || bool_decide (se_impersonated s = Some userID)) (delete_challenges (λ c, ch_user c =? userID) d).
Lemma SetUserActive_Ok requester userID active now d a d' : SetUserActive requester userID active now d = Ok (a, d') →
  ∃ u r admin ra log, b_users d !! userID = Some u ∧ b_roles d !! us_role u = Some r ∧ b_roles d !! admin = Some ra ∧ rl_slug ra = AdminRoleSlug ∧
    admin_guard requester r ∧ (active = false → UserID (Effective requester) ≠ userID) ∧
    (active = false → us_active u = true → us_role u = admin → (1 < size (active_with admin d))%nat) ∧
    d' = set_b_audit log (update_user userID (set_active active) (if active then d else drop_user userID d)).
Proof.
  unfold SetUserActive. intros H. browser_walk H; exists u, r0, a0, r.
  all: eexists; repeat (split; [done|]); split; [by apply admin_guard_intro|].
  - split; [done|]. split; [done|]. reflexivity.
  - split; [intros _; cbn in E; lia|]. split; [|reflexivity]. intros _ Ha Hro. apply Hk. by rewrite Ha, Hro, Z.eqb_refl.
Qed.

Lemma ResetUserPassword_Ok requester userID hash now d a d' : ResetUserPassword requester userID hash now d = Ok (a, d') →
  ∃ u r log, b_users d !! userID = Some u ∧ b_roles d !! us_role u = Some r ∧ admin_guard requester r ∧
    d' = set_b_audit log (RevokeAllForUser userID (delete_challenges (λ c, ch_user c =? userID) (update_user userID (set_password hash) d))).
Proof.
  unfold ResetUserPassword. intros H. browser_walk H. exists u, r. eexists. repeat (split; [done|]). split; [by apply admin_guard_intro|]. reflexivity.
Qed.

Lemma roles_Ok : 
  (∀ requester name slug now d id d', CreateRole requester name slug now d = Ok (id, d') →
     exists_row (λ r, (rl_slug r =? slug)%string) (b_roles d) = false ∧
     ∃ log, d' = set_b_audit log (set_b_next_role (b_next_role d + 1) (set_b_roles (<[b_next_role d := mkRoleRow name slug false ∅]> (b_roles d)) d))) ∧
  (∀ requester id name now d a d', UpdateName requester id name now d = Ok (a, d') →
     ∃ r log, b_roles d !! id = Some r ∧ rl_system r = false ∧ d' = set_b_audit log (update_role id (set_role_name name) d)) ∧
  (∀ requester id now d a d', DeleteRole requester id now d = Ok (a, d') →
     ∃ r log, b_roles d !! id = Some r ∧ rl_system r = false ∧ exists_row (λ u, us_role u =? id) (b_users d) = false ∧
       d' = set_b_audit log (set_b_roles (delete id (b_roles d)) d)).
Proof.
  split; [|split].
  - intros requester name slug now d id d' H. unfold CreateRole in H. browser_walk H. split; [done|]. by eexists.
  - intros requester id name now d a d' H. unfold UpdateName in H. browser_walk H. exists a0. eexists. repeat (split; [done|]). reflexivity.
  - intros requester id now d a d' H. unfold DeleteRole in H. browser_walk H. exists a0. eexists. repeat (split; [done|]). reflexivity.
Qed.

Lemma ReplacePermissions_Ok requester role canonical selected now d a d' : ReplacePermissions requester role canonical selected now d = Ok (a, d') →
  ∃ r u changed log, b_roles d !! role = Some r ∧ rl_slug r ≠ AdminRoleSlug ∧ b_users d !! UserID (Effective requester) = Some u ∧
    (IsEffectiveAdmin requester = false → us_role u ≠ role) ∧
    insert_permissions canonical (rl_permissions r ∖ list_to_set canonical) selected = Ok changed ∧
    d' = set_b_audit log (update_role role (set_permissions changed) d).
Proof.
  unfold ReplacePermissions. intros H. browser_walk H. destruct (b_users d !! UserID (Effective requester)) as [u|] eqn:Eu; [|done].
  injection Hs as <- <-. exists a0, u, x. eexists. split; [done|]. split; [by apply String.eqb_neq|]. split; [done|].
  split; [intros Hi; rewrite Hi in E0; cbn in E0; lia|]. split; [done|]. reflexivity.
Qed.

(** ** Impersonation *)

Definition with_token (token : string) (target : option Z) (s : session_row) : session_row :=
  mkSession (se_id s) (se_user s) target token (se_remember s) (se_expires s) (se_last_seen s) (se_verified s).
Lemma change_session_Ok id token target d r : change_session id token target d = Ok r →
  exists_row (λ s, (se_token s =? token)%string && negb (se_id s =? id)) (b_sessions d) = false ∧
  r = (tt, set_b_sessions (alter (with_token token target) id (b_sessions d)) d).
Proof. unfold change_session. destruct (exists_row _ _); [done|]. by intros [= <-]. Qed.
(** A transition revokes a session whose actor lost the right, which is
    committed, or gives the session a fresh token and its target. *)
Definition session_revoked (id : Z) (d d' : bdb) : Prop := d' = delete_sessions (λ s, se_id s =? id) d.
Definition session_moved (s : session_row) (token : string) (target : option Z) (d d' : bdb) : Prop :=
  exists_row (λ s', (se_token s' =? token)%string && negb (se_id s' =? se_id s)) (b_sessions d) = false ∧ token ≠ zero_checksum ∧
  ∃ log, d' = set_b_audit log (set_b_sessions (alter (with_token token target) (se_id s) (b_sessions d)) d).

Lemma Start_Ok token_hash target attribution now new d r d' : Start token_hash target attribution now new d = Ok (r, d') →
  ∃ s, FindValidSession token_hash now d = Ok s ∧ se_impersonated s = None ∧
    (r = Err ErrSessionIdentityInvalid ∧ valid_actor (identity_of (se_user s) d) = false ∧ session_revoked (se_id s) d d' ∨
     valid_actor (identity_of (se_user s) d) = true ∧ target ≠ se_user s ∧ is_active d target = true ∧ is_admin d target = false ∧
     matchesAttribution attribution (se_user s) target = true ∧ session_moved s new (Some target) d d' ∧ r = Ok (with_token new (Some target) s)).
Proof.
  unfold Start. intros (s & d1 & Hf & Hrun)%tx_bind_Ok. destruct (FindValidSession token_hash now d) as [s'|] eqn:Ef; [|done].
  injection Hf as <- <-. exists s'. split; [done|]. destruct (isSome _) eqn:Ei; [done|]. split; [by destruct (se_impersonated s')|].
  browser_walk Hrun; [left|right]; rewrite ?negb_true_iff, ?negb_false_iff in *.
  - unfold revokeInvalidSession in Hrun. browser_walk Hrun. done.
  - destruct (identity_of target d) as [[t role]|] eqn:Et; [|done]. browser_walk Hrun. apply change_session_Ok in Hs as [Hfresh [= _ ->]].
    rewrite ?negb_false_iff in *. split; [done|]. split; [lia|]. apply identity_of_role in Et as Et'. destruct Et' as [Hu Hr].
    split; [rewrite is_active_true; eauto|]. split; [unfold is_admin; by rewrite Et|]. split; [done|]. split; [|done].
    split; [done|]. split; [by apply String.eqb_neq|]. by eexists.
Qed.
Lemma Stop_Ok token_hash attribution now new d r d' : Stop token_hash attribution now new d = Ok (r, d') →
  ∃ s target, FindValidSession token_hash now d = Ok s ∧ se_impersonated s = Some target ∧
    (r = Err ErrSessionIdentityInvalid ∧ session_revoked (se_id s) d d' ∧
       valid_actor (identity_of (se_user s) d) && valid_target (identity_of target d) = false ∨
     valid_actor (identity_of (se_user s) d) = true ∧ matchesAttribution attribution (se_user s) target = true ∧
     session_moved s new None d d' ∧ r = Ok (with_token new None s)).
Proof.
  unfold Stop. intros (s & d1 & Hf & Hrun)%tx_bind_Ok. destruct (FindValidSession token_hash now d) as [s'|] eqn:Ef; [|done].
  injection Hf as <- <-. destruct (se_impersonated s') as [target|] eqn:Ei; [|done]. exists s', target. split; [done|]. split; [done|].
  browser_walk Hrun; [left|left|right]; rewrite ?negb_true_iff, ?negb_false_iff in *.
  - unfold revokeInvalidSession in Hrun. browser_walk Hrun. split; [done|]. split; [done|]. by rewrite E.
  - unfold revokeInvalidSession in Hrun. browser_walk Hrun. split; [done|]. split; [done|]. by rewrite E0, andb_false_r.
  - apply change_session_Ok in Hs as [Hfresh [= _ ->]]. split; [done|]. split; [done|]. split; [|done].
    split; [done|]. split; [by apply String.eqb_neq|]. by eexists.
Qed.
