(* ===== verification/BrowserSystem.v ===== *)
(** * Browser security as one transition system

    Every committed transaction on the tables of BrowserStore.v is a step;
    theorems over all interleavings are proved on its executions. *)

From S2P Require Import Prelude Calendar Access AuditTrail Hash Table Totp Secrets BrowserStore Mfa UserAdmin Accounts BrowserInv.
From stdpp Require Import gmap.

Open Scope Z_scope.

(** ** Steps *)

(** The administration requests. *)
Inductive account_op :=
  | OpCreateUser (username name hash : string) (role : Z)
  | OpUpdateProfile (id : Z) (username name : string)
  | OpAssignRole (id role : Z)
  | OpSetActive (id : Z) (active : bool)
  | OpResetPassword (id : Z) (hash : string)
  | OpCreateRole (name slug : string)
  | OpUpdateRole (id : Z) (name : string)
  | OpDeleteRole (id : Z)
  | OpReplacePermissions (id : Z) (canonical selected : list string).
Definition account_tx (requester : Requester) (op : account_op) (now : instant) : Tx bdb unit :=
  match op with
  | OpCreateUser username name hash role => CreateUser requester username name hash role now ;;; tx_ret tt
  | OpUpdateProfile id username name => UpdateUserProfile requester id username name now
  | OpAssignRole id role => AssignUserRole requester id role now
  | OpSetActive id active => SetUserActive requester id active now
  | OpResetPassword id hash => ResetUserPassword requester id hash now
  | OpCreateRole name slug => CreateRole requester name slug now ;;; tx_ret tt
  | OpUpdateRole id name => UpdateName requester id name now
  | OpDeleteRole id => DeleteRole requester id now
  | OpReplacePermissions id canonical selected => ReplacePermissions requester id canonical selected now
  end.

(** What a step did, as far as the theorems below need it. *)
Inductive browser_label :=
  | LQuiet
  | LAccepted (f : factor) (c : Challenge)
  | LRejected (c : Challenge)
  | LReset (target : Z)
  | LAccount (requester : Requester)
  | LOperator.

Section System.
Context {aead : Aead} (cfg : StoreConfig).

Definition verify_label (token : string) (d : bdb) (outcome : result verify_outcome) : browser_label :=
  match outcome with
  | Ok (Accepted f c _) => LAccepted f c
  | Ok (Rejected _ _) =>
      match find_row (λ c, (ch_token c =? HashToken token)%string) (b_challenges d) with Some c => LRejected c | None => LQuiet end
  | Err _ => LQuiet
  end.

Inductive browser_step : browser_label → bdb → bdb → Prop :=
  | step_BeginLogin random id hash remember next now d :
      browser_step LQuiet d (runTx (BeginLogin random id hash remember next now) d).2
  | step_BeginAuthenticated random id session purpose next token now now' d :
      browser_step LQuiet d (runTx (BeginAuthenticated cfg random id session purpose next token now now') d).2
  | step_Verify random token input session hash now now' d :
      browser_step (verify_label token d (Verify_full cfg random token input session hash now now' d).1) d
        (Verify_full cfg random token input session hash now now' d).2
  | step_Reset target actor session attribution now now' d d' :
      Reset cfg target actor session attribution now now' d = Ok (tt, d') → browser_step (LReset target) d d'
  | step_account requester op now d : browser_step (LAccount requester) d (runTx (account_tx requester op now) d).2
  | step_Start token target attribution now new d : browser_step LQuiet d (runTx (Start token target attribution now new) d).2
  | step_Stop token attribution now new d : browser_step LQuiet d (runTx (Stop token attribution now new) d).2
  | step_UpdateLastSeenAt id now d : browser_step LQuiet d (UpdateLastSeenAt id now d)
  | step_Revoke token d : browser_step LQuiet d (Revoke token d)
  | step_expired_challenges now d : browser_step LQuiet d (delete_challenges (λ c, ch_expires c <=? now) d)
  | step_expired_sessions now d : browser_step LQuiet d (delete_sessions (λ s, se_expires s <=? now) d)
  | step_Register username name hash d : browser_step LQuiet d (runTx (Register username name hash) d).2
  | step_CreateAdministrator username name hash d : browser_step LOperator d (runTx (CreateAdministrator username name hash) d).2
  | step_Bootstrap definitions d : browser_step LQuiet d (runTx (Bootstrap definitions) d).2
  | step_event event d : browser_step LQuiet d (append_best_effort event d).

Inductive browser_trace : list browser_label → bdb → bdb → Prop :=
  | trace_nil d : browser_trace [] d d
  | trace_step l ls d d1 d2 : browser_step l d d1 → browser_trace ls d1 d2 → browser_trace (l :: ls) d d2.

(** The database before the first start, and what start-up makes of it. *)
Definition empty_bdb : bdb := mkBdb ∅ 1 ∅ 1 ∅ ∅ 1 ∅ 1 ∅ ∅ [].
Definition browser_reachable (d : bdb) : Prop :=
  ∃ definitions d0 labels, Bootstrap definitions empty_bdb = Ok (tt, d0) ∧ browser_trace labels d0 d.
End System.

(** ** The invariant is kept *)

Lemma inv_audit log d : browser_ok d → browser_ok (set_b_audit log d).
Proof. intros Hd. apply (inv_ok 0 0), (inv_frame 0 0 d); [done|by apply ok_inv]. Qed.
Lemma is_active_set_role d id role user : is_active (update_user id (set_role role) d) user = is_active d user.
Proof.
  unfold is_active, update_user. cbn. destruct (decide (user = id)) as [->|]; [|by rewrite lookup_alter_ne].
  rewrite lookup_alter_eq. by destruct (b_users d !! id).
Qed.
Lemma is_admin_update_other d id f user : user ≠ id → is_admin (update_user id f d) user = is_admin d user.
Proof. intros Hne. unfold is_admin, identity_of, update_user. cbn. by rewrite lookup_alter_ne. Qed.
Lemma is_admin_set_role d id u role q : b_users d !! id = Some u → b_roles d !! role = Some q →
  is_admin (update_user id (set_role role) d) id = IsAdminRole (rl_slug q).
Proof. intros Hu Hq. unfold is_admin, identity_of, update_user. cbn. rewrite lookup_alter_eq, Hu. cbn. by rewrite Hq. Qed.

Lemma ok_set_role d id u role q : b_users d !! id = Some u → b_roles d !! role = Some q →
  (IsAdminRole (rl_slug q) = true → ∀ j s, b_sessions d !! j = Some s → se_impersonated s ≠ Some id) →
  browser_ok d → browser_ok (update_user id (set_role role) d).
Proof.
  intros Hu Hq Hno Hok. pose proof Hok as (Hr & (Hn & Hus) & (_ & Hs & _) & Hc & _). apply (inv_ok 0 0). apply (inv_accounts 0 0 d); [done| | | | |by left|by apply ok_inv].
  - by apply (roles_ok_frame d).
  - split; [done|]. intros j u'. cbn. destruct (decide (j = id)) as [->|Hne].
    + rewrite lookup_alter_eq, Hu. cbn. intros [= <-]. cbn. split; [by destruct (Hus id u Hu)|by eexists].
    + rewrite lookup_alter_ne by done. apply Hus.
  - intros j s Hj. destruct (Hs j s Hj) as (_ & _ & Ha & Himp). split; [by rewrite is_active_set_role|]. intros t Ht.
    destruct (Himp t Ht) as [Hta Htn]. split; [by rewrite is_active_set_role|]. destruct (decide (t = id)) as [->|Hne].
    + rewrite (is_admin_set_role _ _ _ _ _ Hu Hq). destruct (IsAdminRole (rl_slug q)) eqn:E; [|done]. by destruct (Hno eq_refl j s Hj).
    + by rewrite is_admin_update_other.
  - intros j c Hj. rewrite is_active_set_role. by apply (Hc j c Hj).
Qed.

Lemma ok_deactivate d id : (∀ j s, b_sessions d !! j = Some s → se_user s ≠ id ∧ se_impersonated s ≠ Some id) →
  (∀ j c, b_challenges d !! j = Some c → ch_user c ≠ id) → browser_ok d → browser_ok (update_user id (set_active false) d).
Proof.
  intros Hnos Hnoc Hok. pose proof Hok as (Hr & (Hn & Hus) & (_ & Hs & _) & Hc & _). apply (inv_ok 0 0).
  assert (Hsame : ∀ user, user ≠ id → is_active (update_user id (set_active false) d) user = is_active d user).
  { intros user Hne. unfold is_active, update_user. cbn. by rewrite lookup_alter_ne. }
  apply (inv_accounts 0 0 d); [done| | | | |by left|by apply ok_inv].
  - by apply (roles_ok_frame d).
  - split; [done|]. intros j u'. cbn. destruct (decide (j = id)) as [->|Hne].
    + rewrite lookup_alter_eq. intros (u & Hu & ->)%fmap_Some. exact (Hus id u Hu).
    + rewrite lookup_alter_ne by done. apply Hus.
  - intros j s Hj. destruct (Hs j s Hj) as (_ & _ & Ha & Himp), (Hnos j s Hj) as [Hne Hni]. split; [by rewrite Hsame|]. intros t Ht.
    destruct (Himp t Ht) as [Hta Htn]. assert (t ≠ id) by (intros ->; done). by rewrite Hsame, is_admin_update_other.
  - intros j c Hj. rewrite Hsame; [by apply (Hc j c Hj)|]. by eapply Hnoc.
Qed.

Lemma ok_delete_sessions cond d : browser_ok d → browser_ok (delete_sessions cond d).
Proof. intros Hd. by apply (inv_ok 0 0), inv_delete_sessions_0, ok_inv. Qed.
Lemma ok_delete_challenges cond d : browser_ok d → browser_ok (delete_challenges cond d).
Proof. intros Hd. by apply (inv_ok 0 0), inv_delete_challenges, ok_inv. Qed.
Lemma ok_update_user d id f : (∀ u, us_role (f u) = us_role u ∧ (us_active u = true → us_active (f u) = true)) →
  browser_ok d → browser_ok (update_user id f d).
Proof. intros Hf Hd. apply (inv_ok 0 0), inv_update_user; [intros u _; apply Hf|by apply ok_inv]. Qed.
Lemma kept_session cond d j s : b_sessions (delete_sessions cond d) !! j = Some s → b_sessions d !! j = Some s ∧ cond s = false.
Proof. cbn. intros [? ?]%map_lookup_filter_Some. done. Qed.

Lemma account_tx_ok requester op now : preserves browser_ok (account_tx requester op now).
Proof.
  intros d a d' Hd. destruct op; cbn [account_tx]; intros Hrun.
  - browser_walk Hrun. apply CreateUser_Ok in Hs as (-> & r & row & Hr & _ & _ & ->). apply inv_audit, (inv_ok 0 0), inv_insert_user; [|by apply ok_inv].
    cbn. by eexists.
  - apply UpdateUserProfile_Ok in Hrun as (u & r & log & _ & _ & _ & _ & ->). by apply inv_audit, ok_update_user.
  - apply AssignUserRole_Ok in Hrun as (u & r & q & admin & ra & log & Hu & _ & Hq & _ & _ & _ & _ & _ & ->). apply inv_audit.
    destruct (IsAdminRole (rl_slug q)) eqn:E.
    + eapply ok_set_role; [exact Hu|exact Hq| |by apply ok_delete_sessions]. intros _ j s [_ Hc]%kept_session. by apply bool_decide_eq_false in Hc.
    + eapply ok_set_role; [exact Hu|exact Hq| |done]. by rewrite E.
  - apply SetUserActive_Ok in Hrun as (u & r & admin & ra & log & _ & _ & _ & _ & _ & _ & _ & ->). apply inv_audit. destruct active; [by apply ok_update_user|].
    apply ok_deactivate; [| |by apply ok_delete_sessions, ok_delete_challenges].
    + intros j s [_ [Hc Hi]%orb_false_iff]%kept_session. split; [lia|]. by apply bool_decide_eq_false in Hi.
    + intros j c [[Hj Hc]%map_lookup_filter_Some _]%map_lookup_filter_Some. cbn in Hc. lia.
  - apply ResetUserPassword_Ok in Hrun as (u & r & log & _ & _ & _ & ->). by apply inv_audit, ok_delete_sessions, ok_delete_challenges, ok_update_user.
  - browser_walk Hrun. apply (proj1 roles_Ok) in Hs as (Hf & log & ->). apply inv_audit, (inv_ok 0 0).
    apply (inv_insert_role 0 0 (mkRoleRow name slug false ∅)); [done|by apply ok_inv].
  - apply (proj1 (proj2 roles_Ok)) in Hrun as (r & log & _ & _ & ->). apply inv_audit, (inv_ok 0 0), inv_update_role; [done|by apply ok_inv].
  - apply (proj2 (proj2 roles_Ok)) in Hrun as (r & log & Hr & Hsys & Hnone & ->). apply inv_audit, (inv_ok 0 0), inv_delete_role; [| |by apply ok_inv].
    + intros r' Hr' E. destruct Hd as ([_ Hs _ _] & _). specialize (Hs id r' Hr' E). congruence.
    + rewrite exists_row_false in Hnone. intros j u Hu. specialize (Hnone j u Hu). cbn in Hnone. lia.
  - apply ReplacePermissions_Ok in Hrun as (r & u & changed & log & _ & _ & _ & _ & _ & ->). apply inv_audit, (inv_ok 0 0), inv_update_role; [done|by apply ok_inv].
Qed.

Lemma session_moved_ok token now s new target d d' : browser_ok d → FindValidSession token now d = Ok s →
  (∀ t, target = Some t → is_active d t = true ∧ is_admin d t = false) → session_moved s new target d d' → browser_ok d'.
Proof.
  intros Hd Hf Ht (Hfresh & _ & log & ->). apply inv_audit, (inv_ok 0 0), inv_alter_session; [|by apply ok_inv].
  pose proof Hd as (_ & _ & (_ & Hok & _) & _).
  intros s0 Hs0. split; [done|]. split; [done|]. split; [right|exact Ht]. cbn. intros j s' Hj Etok. rewrite exists_row_false in Hfresh.
  specialize (Hfresh j s' Hj). cbn in Hfresh. rewrite Etok, String.eqb_refl in Hfresh. apply negb_false_iff, Z.eqb_eq in Hfresh.
  destruct (Hok j s' Hj) as [<- _]. done.
Qed.
Lemma transition_ok : (∀ token target attribution now new, preserves browser_ok (Start token target attribution now new)) ∧
  (∀ token attribution now new, preserves browser_ok (Stop token attribution now new)).
Proof.
  split.
  - intros token target attribution now new d r d' Hd (s & Hf & _ & [(_ & _ & ->)|(_ & _ & Ha & Hn & _ & Hm & _)])%Start_Ok.
    + by apply ok_delete_sessions.
    + eapply session_moved_ok; [done|done| |done]. intros t [= <-]. done.
  - intros token attribution now new d r d' Hd (s & target & Hf & _ & [(_ & -> & _)|(_ & _ & Hm & _)])%Stop_Ok.
    + by apply ok_delete_sessions.
    + eapply session_moved_ok; [done|done| |done]. by intros t.
Qed.

Lemma users_Create_Ok username name hash role active d id d' : users_Create username name hash role active d = Ok (id, d') →
  id = b_next_user d ∧ username_taken username None d = false ∧ is_Some (b_roles d !! role) ∧
  d' = set_b_next_user (b_next_user d + 1) (set_b_users (<[b_next_user d := mkUserRow username name hash role active None]> (b_users d)) d).
Proof.
  unfold users_Create. intros H. browser_walk H.
  split; [done|]. split; [done|]. split; [by eexists|done].
Qed.
Lemma FindRoleBySlug_Ok slug d r : FindRoleBySlug slug d = Ok r → r.2 = d ∧ ∃ row, b_roles d !! r.1 = Some row ∧ rl_slug row = slug.
Proof. unfold FindRoleBySlug. destruct (lockRoleBySlug slug d) as [r'|] eqn:E; [|done]. intros [= ->]. by apply lockRoleBySlug_Ok. Qed.
Lemma users_Create_ok username name hash role active : preserves browser_ok (users_Create username name hash role active).
Proof.
  intros d a d' Hd (-> & _ & Hr & ->)%users_Create_Ok. apply (inv_ok 0 0), inv_insert_user; [exact Hr|by apply ok_inv].
Qed.
Lemma slug_Create_ok slug username name hash : preserves browser_ok (let* role := FindRoleBySlug slug in users_Create username name hash role true).
Proof.
  apply preserves_bind; [|intros role; apply users_Create_ok]. intros d a d' Hd [E _]%FindRoleBySlug_Ok. cbn in E. by subst.
Qed.

(** ** Start-up *)

Lemma syncPermissions_frame definitions d : frame d (foldl (λ d definition, syncPermission definition d) d definitions).
Proof. revert d. induction definitions as [|p ps IH]; intros d; [done|]. exact (IH (syncPermission p d)). Qed.
Lemma ensureSystemRole_ok name slug d : browser_ok d → browser_ok (ensureSystemRole name slug d).
Proof.
  intros Hd. unfold ensureSystemRole. destruct (lockRoleBySlug slug d) as [[id d1]|] eqn:E.
  - apply (inv_ok 0 0), inv_update_role; [done|by apply ok_inv].
  - apply (inv_ok 0 0), (inv_insert_role 0 0 (mkRoleRow name slug true ∅)); [|by apply ok_inv]. apply exists_row_false. intros k r Hr.
    apply String.eqb_neq. by eapply lockRoleBySlug_Err.
Qed.
Lemma Bootstrap_ok definitions : preserves browser_ok (Bootstrap definitions).
Proof.
  unfold Bootstrap. apply preserves_bind; [auto with tx|]. intros _. apply preserves_bind.
  - apply preserves_modify. intros d Hd. apply (inv_ok 0 0), (inv_frame 0 0 d); [apply syncPermissions_frame|by apply ok_inv].
  - intros _. apply preserves_modify. intros d Hd. by apply ensureSystemRole_ok, ensureSystemRole_ok.
Qed.
Lemma Bootstrap_empty definitions d : Bootstrap definitions empty_bdb = Ok (tt, d) → browser_ok d.
Proof.
  unfold Bootstrap. intros (u & d1 & Hv & Hrun)%tx_bind_Ok. apply tx_lift_Ok in Hv as (x & _ & [= -> ->]).
  apply tx_bind_Ok in Hrun as (u & d1 & [= _ <-] & [= <-]).
  pose proof (syncPermissions_frame definitions empty_bdb) as Hf. set (d0 := foldl _ _ _) in *. clearbody d0.
  unfold frame in Hf. cbn in Hf. destruct d0. cbn in Hf. destruct Hf as (-> & -> & -> & -> & -> & -> & -> & ->).
  apply (ensureSystemRole_ok "User" UserRoleSlug).
  assert (Hone : ∀ id r, (<[1 := mkRoleRow "Administrator" AdminRoleSlug true ∅]> (∅ : gmap Z role_row)) !! id = Some r →
    id = 1 ∧ r = mkRoleRow "Administrator" AdminRoleSlug true ∅) by (intros id r [[<- <-]|[_ ?]]%lookup_insert_Some; done).
  split; [constructor|split; [done|split; [done|done]]].
  - by exists 1, (mkRoleRow "Administrator" AdminRoleSlug true ∅).
  - by intros id r [_ ->]%Hone.
  - by intros i j r r' [-> _]%Hone [-> _]%Hone.
  - by intros i r [-> _]%Hone.
Qed.

Section Invariants.
Context {aead : Aead} (cfg : StoreConfig).

Lemma browser_step_ok l d d' : browser_step cfg l d d' → browser_ok d → browser_ok d'.
Proof.
  intros Hstep Hd. destruct Hstep.
  - by apply preserves_runTx; [apply BeginLogin_inv|].
  - by apply preserves_runTx; [apply BeginAuthenticated_inv|].
  - by apply Verify_full_inv.
  - by eapply Reset_inv.
  - by apply preserves_runTx; [apply account_tx_ok|].
  - by apply preserves_runTx; [apply transition_ok|].
  - by apply preserves_runTx; [apply transition_ok|].
  - apply (inv_ok 0 0), inv_alter_session; [|by apply ok_inv]. intros s Hs. split; [done|]. split; [done|]. split; [by left|]. cbn.
    destruct Hd as (_ & _ & (_ & Hok & _) & _). by apply (Hok id s Hs).
  - by apply ok_delete_sessions.
  - by apply ok_delete_challenges.
  - by apply ok_delete_sessions.
  - by apply preserves_runTx; [apply slug_Create_ok|].
  - by apply preserves_runTx; [apply slug_Create_ok|].
  - by apply preserves_runTx; [apply Bootstrap_ok|].
  - by apply append_best_effort_inv.
Qed.
Lemma browser_trace_ok ls d d' : browser_trace cfg ls d d' → browser_ok d → browser_ok d'.
Proof. induction 1 as [|l ls d d1 d2 Hs _ IH]; [done|]. intros Hd. by eapply IH, browser_step_ok. Qed.
Lemma browser_reachable_ok d : browser_reachable cfg d → browser_ok d.
Proof. intros (definitions & d0 & ls & Hb & Ht). by eapply browser_trace_ok, Bootstrap_empty. Qed.
End Invariants.

(** ** Accounts *)

(** What an account is, the time of the last login aside. *)
Definition account_of (u : user_row) : string * string * string * Z * bool :=
  (us_username u, us_name u, us_password u, us_role u, us_active u).
Definition accounts (d : bdb) : gmap Z (string * string * string * Z * bool) * gmap Z role_row := (account_of <$> b_users d, b_roles d).
Definition accounts_are a (d : bdb) : Prop := accounts d = a.

Lemma accounts_active d user : is_active d user = match (accounts d).1 !! user with Some (_, _, _, _, active) => active | None => false end.
Proof. unfold is_active, accounts. cbn. rewrite lookup_fmap. by destruct (b_users d !! user). Qed.
Lemma accounts_admin d user : is_admin d user =
  match (accounts d).1 !! user with Some (_, _, _, role, _) => match (accounts d).2 !! role with Some r => IsAdminRole (rl_slug r) | None => false end | None => false end.
Proof.
  unfold is_admin, identity_of, accounts. cbn. rewrite lookup_fmap. destruct (b_users d !! user) as [u|]; [|done]. cbn. by destruct (b_roles d !! us_role u).
Qed.

Lemma modify_accounts a f : (∀ d, accounts (f d) = accounts d) → preserves (accounts_are a) (tx_modify f).
Proof. intros Hf. apply preserves_modify. intros d Hd. unfold accounts_are. by rewrite Hf. Qed.
Lemma frame_accounts d d' : frame d d' → accounts d' = accounts d.
Proof. unfold frame, accounts. by intros (-> & _ & -> & _). Qed.
Lemma append_accounts a event : preserves (accounts_are a) (Append event).
Proof. intros d u d' Hd (row & _ & [= _ ->])%Append_browser. done. Qed.
Lemma insert_codes_accounts a id codes : preserves (accounts_are a) (insert_codes id codes).
Proof.
  induction codes as [|code codes IH]; [apply preserves_ret|]. apply preserves_bind; [|intros _; exact IH].
  intros d x d' Hd. destruct (b_codes d !! _); [done|]. by intros [= _ <-].
Qed.
Lemma set_last_login_accounts id now d : accounts (set_last_login id now d) = accounts d.
Proof.
  unfold accounts, set_last_login. cbn. f_equal. apply map_eq. intros j. rewrite !lookup_fmap.
  destruct (decide (j = id)) as [->|]; [|by rewrite lookup_alter_ne]. rewrite lookup_alter_eq. by destruct (b_users d !! id).
Qed.
Lemma insert_challenge_accounts a row : preserves (accounts_are a) (insert_challenge row).
Proof. intros d x d' Hd. unfold insert_challenge. cbn zeta. destruct (exists_row _ _); [done|]. destruct (negb _); [done|]. by intros [= _ <-]. Qed.
Lemma insert_session_accounts a row : preserves (accounts_are a) (insert_session row).
Proof. intros d x d' Hd. unfold insert_session. cbn zeta. destruct (exists_row _ _); [done|]. destruct (negb _); [done|]. by intros [= _ <-]. Qed.
#[export] Hint Resolve append_accounts insert_codes_accounts insert_challenge_accounts insert_session_accounts : tx.

Ltac accounts_same := tx_preserves; first [by apply modify_accounts | by apply preserves_readonly | idtac].
Lemma issue_accounts {aead : Aead} a random id session purpose remember next now :
  preserves (accounts_are a) (issue random id session purpose remember next now).
Proof. unfold issue, update_challenge. accounts_same. Qed.
Lemma replaceRecovery_accounts a random id : preserves (accounts_are a) (replaceRecovery random id).
Proof. unfold replaceRecovery. accounts_same. Qed.
Lemma clear_accounts a id : preserves (accounts_are a) (clearChallengesSessions id).
Proof. unfold clearChallengesSessions. accounts_same. Qed.
#[export] Hint Resolve issue_accounts replaceRecovery_accounts clear_accounts : tx.

Lemma lockUser_readonly id : readonly (lockUser id).
Proof. intros d u d'. unfold lockUser. destruct (b_users d !! id); [|done]. by intros [= _ <-]. Qed.
#[export] Hint Resolve preserves_readonly lockUser_readonly lockSession_readonly lock_users_readonly verify_attribution_readonly
  check_code_readonly : tx.

Section Accounts.
Context {aead : Aead} (cfg : StoreConfig).

Lemma BeginLogin_accounts a random id hash remember next now : preserves (accounts_are a) (BeginLogin random id hash remember next now).
Proof. unfold BeginLogin. accounts_same. Qed.
Lemma BeginAuthenticated_accounts a random id session purpose next token now now' :
  preserves (accounts_are a) (BeginAuthenticated cfg random id session purpose next token now now').
Proof. unfold BeginAuthenticated. accounts_same. Qed.
Lemma spend_factor_accounts a f c id random attribution now : preserves (accounts_are a) (spend_factor f c id random attribution now).
Proof.
  unfold spend_factor. accounts_same. intros d u d' Hd. destruct (b_enrollments d !! id); [done|]. by intros [= _ <-].
Qed.
Lemma reject_accounts a c session attribution now : preserves (accounts_are a) (reject c session attribution now).
Proof. unfold reject, update_challenge. accounts_same. Qed.
Lemma CreateSessionIn_accounts a params now : preserves (accounts_are a) (CreateSessionIn params now).
Proof. unfold CreateSessionIn. accounts_same. Qed.
Lemma fulfil_accounts a c id session random attribution codes now :
  preserves (accounts_are a) (fulfil cfg c id session random attribution codes now).
Proof.
  unfold fulfil. destruct (ch_purpose c).
  1, 2: apply preserves_bind; [apply CreateSessionIn_accounts|intros s; accounts_same; apply modify_accounts, set_last_login_accounts].
  all: accounts_same.
Qed.
Lemma verify_session_readonly c id session now : readonly (verify_session cfg c id session now).
Proof.
  intros d s d'. unfold verify_session. destruct (ch_session c).
  - destruct (negb _); [done|]. intros (s' & d1 & ->%lockSession_readonly & Hrun)%tx_bind_Ok. destruct (_ && _); [done|]. by injection Hrun as _ <-.
  - destruct (negb _); [done|]. by intros [= _ <-].
Qed.
Lemma verify_tx_accounts a random id token input session hash now now' :
  preserves (accounts_are a) (verify_tx cfg random id token input session hash now now').
Proof using Type.
  pose proof verify_session_readonly. pose proof spend_factor_accounts. pose proof fulfil_accounts. pose proof reject_accounts.
  unfold verify_tx, update_challenge. accounts_same.
Qed.
Lemma Verify_full_accounts random token input session hash now now' d :
  accounts (Verify_full cfg random token input session hash now now' d).2 = accounts d.
Proof.
  unfold Verify_full. destruct (find_row _ _) as [c|]; [|done]. destruct (runTx _ _) as [outcome d1] eqn:E.
  assert (Hd1 : accounts d1 = accounts d).
  { change d1 with ((outcome, d1).2). rewrite <- E. by apply (preserves_runTx (accounts_are (accounts d))); [apply verify_tx_accounts|]. }
  assert (Hap : ∀ e d', accounts (append_best_effort e d') = accounts d').
  { intros e d'. unfold append_best_effort. by apply (preserves_runTx (accounts_are (accounts d'))); [apply append_accounts|]. }
  destruct outcome as [[exhausted at_|]|]; try done. cbn [snd]. destruct exhausted; cbn; by rewrite ?Hap.
Qed.
Lemma Reset_accounts a target actor session attribution now now' : preserves (accounts_are a) (Reset cfg target actor session attribution now now').
Proof. unfold Reset. accounts_same. Qed.
End Accounts.

(** ** Administrators *)

(** Administrators' accounts are untouched, and nobody became or ceased to be
    one. *)
Definition guarded (d d' : bdb) : Prop :=
  (∀ user, is_admin d user = true → (accounts d').1 !! user = (accounts d).1 !! user) ∧ (∀ user, is_admin d' user = is_admin d user).
Definition keeps_admin (d d' : bdb) : Prop := active_admin d → active_admin d'.

Lemma same_accounts d d' : accounts d' = accounts d → guarded d d' ∧ keeps_admin d d'.
Proof.
  intros E. split; [split|].
  - intros user _. by rewrite E.
  - intros user. by rewrite !accounts_admin, E.
  - intros (user & Ha & Hadm). exists user. by rewrite accounts_active, accounts_admin, E, <- accounts_active, <- accounts_admin.
Qed.
Lemma users_same d d' : (accounts d').1 = (accounts d).1 → (∀ user, is_admin d' user = is_admin d user) → guarded d d' ∧ keeps_admin d d'.
Proof.
  intros E Ha. split; [split|].
  - intros user _. by rewrite E.
  - intros user. by rewrite Ha.
  - intros (user & Hact & Hadm). exists user. rewrite accounts_active, E, <- accounts_active, Ha. done.
Qed.
Lemma accounts_update d id f user : (accounts (update_user id f d)).1 !! user = if decide (user = id) then account_of <$> (f <$> b_users d !! id) else (accounts d).1 !! user.
Proof. cbn. rewrite !lookup_fmap. destruct (decide _) as [->|]; [by rewrite lookup_alter_eq|by rewrite lookup_alter_ne]. Qed.
Lemma guarded_update d id f : is_admin d id = false → is_admin (update_user id f d) id = false → guarded d (update_user id f d).
Proof.
  intros Hn Hn'. split; [intros user Ha|intros user].
  - rewrite accounts_update. destruct (decide (user = id)) as [->|]; [congruence|done].
  - destruct (decide (user = id)) as [->|]; [congruence|]. by apply is_admin_update_other.
Qed.
Lemma is_admin_update_role d id f : (∀ r, rl_slug (f r) = rl_slug r) → ∀ user, is_admin (update_role id f d) user = is_admin d user.
Proof.
  intros Hf user. unfold is_admin, identity_of, update_role. cbn. destruct (b_users d !! user) as [u|]; [|done].
  destruct (decide (us_role u = id)) as [<-|]; [|by rewrite lookup_alter_ne]. rewrite lookup_alter_eq.
  destruct (b_roles d !! us_role u); [|done]. cbn. by rewrite Hf.
Qed.
Lemma is_admin_insert_role d row : browser_ok d → ∀ user,
  is_admin (set_b_next_role (b_next_role d + 1) (set_b_roles (<[b_next_role d := row]> (b_roles d)) d)) user = is_admin d user.
Proof.
  intros ([_ _ _ Hb] & (_ & Hu) & _) user. unfold is_admin, identity_of. cbn. destruct (b_users d !! user) as [u|] eqn:E; [|done].
  destruct (Hu _ _ E) as [_ [r Hr]]. rewrite lookup_insert_ne; [done|]. specialize (Hb _ _ Hr). lia.
Qed.
Lemma is_admin_delete_role d id : (∀ j u, b_users d !! j = Some u → us_role u ≠ id) → ∀ user,
  is_admin (set_b_roles (delete id (b_roles d)) d) user = is_admin d user.
Proof.
  intros Hnone user. unfold is_admin, identity_of. cbn. destruct (b_users d !! user) as [u|] eqn:E; [|done].
  rewrite lookup_delete_ne; [done|]. intros E'. by eapply Hnone.
Qed.
Lemma insert_user_admin d row : browser_ok d →
  let d' := set_b_next_user (b_next_user d + 1) (set_b_users (<[b_next_user d := row]> (b_users d)) d) in
  keeps_admin d d' ∧ (is_admin d' (b_next_user d) = false → guarded d d').
Proof.
  cbn zeta. intros (_ & (_ & Hu) & _). set (d' := set_b_next_user _ _).
  assert (Hfresh : b_users d !! b_next_user d = None) by (destruct (b_users d !! b_next_user d) eqn:E; [apply Hu in E; lia|done]).
  assert (Hother : ∀ user, user ≠ b_next_user d → is_admin d' user = is_admin d user ∧ is_active d' user = is_active d user).
  { intros user Hne. unfold is_admin, is_active, identity_of, d'. cbn. by rewrite lookup_insert_ne. }
  assert (Hold : ∀ user, is_admin d user = true → user ≠ b_next_user d).
  { intros user Ha ->. unfold is_admin, identity_of in Ha. by rewrite Hfresh in Ha. }
  split; [|intros Hna; split; [intros user Ha|intros user]].
  - intros (user & Hact & Ha). exists user. destruct (Hother user (Hold user Ha)) as [-> ->]. done.
  - unfold d'. cbn. rewrite fmap_insert, lookup_insert_ne; [done|]. by apply not_eq_sym, Hold.
  - destruct (decide (user = b_next_user d)) as [->|Hne]; [|by destruct (Hother user Hne)]. rewrite Hna. unfold is_admin, identity_of. by rewrite Hfresh.
Qed.

(** An active administrator besides one who leaves. *)
Lemma another_admin d role id : (1 < size (active_with role d))%nat → ∃ other u, other ≠ id ∧ b_users d !! other = Some u ∧ us_active u = true ∧ us_role u = role.
Proof.
  intros Hsize. destruct (decide (map_Exists (λ k _, k ≠ id) (active_with role d))) as [(k & u & Hk & Hne)|Hno].
  - apply map_lookup_filter_Some in Hk as [Hk Hc]. apply andb_true_iff in Hc as [Hc Ha]. exists k, u. cbn in Hc, Ha. repeat split; [done|done|done|lia].
  - exfalso. assert (Hall : ∀ k u, active_with role d !! k = Some u → k = id).
    { intros k u Hk. destruct (decide (k = id)); [done|]. exfalso. apply Hno. by exists k, u. }
    set (u0 := default (mkUserRow "" "" "" 0 false None) (active_with role d !! id)).
    assert (Hsub : active_with role d ⊆ {[id := u0]}).
    { apply map_subseteq_spec. intros k u Hk. pose proof (Hall k u Hk) as ->. unfold u0. rewrite Hk. cbn. by rewrite lookup_singleton_eq. }
    apply map_subseteq_size in Hsub. rewrite map_size_singleton in Hsub. lia.
Qed.

Lemma slug_admin d user u r : b_users d !! user = Some u → b_roles d !! us_role u = Some r → is_admin d user = IsAdminRole (rl_slug r).
Proof. intros Hu Hr. unfold is_admin, identity_of. by rewrite Hu, Hr. Qed.
Lemma guard_not_admin requester d user u r : b_users d !! user = Some u → b_roles d !! us_role u = Some r → admin_guard requester r →
  IsEffectiveAdmin requester = false → is_admin d user = false.
Proof.
  intros Hu Hr Hg He. rewrite (slug_admin d user u r Hu Hr). unfold IsAdminRole. destruct (rl_slug r =? AdminRoleSlug)%string eqn:E; [|done].
  apply String.eqb_eq, Hg in E. congruence.
Qed.
Lemma keeps_update d id f : (∀ u, b_users d !! id = Some u → is_active d id = true → is_admin d id = true →
    us_active (f u) = true ∧ us_role (f u) = us_role u) → keeps_admin d (update_user id f d).
Proof.
  intros Hf (user & Hact & Ha). exists user. destruct (decide (user = id)) as [->|Hne].
  - pose proof Ha as (u & r & Hu & Hr & Hs)%is_admin_true. destruct (Hf u Hu Hact Ha) as [Hfa Hfr]. split.
    + apply is_active_true. exists (f u). unfold update_user. cbn. by rewrite lookup_alter_eq, Hu.
    + apply is_admin_true. exists (f u), r. unfold update_user. cbn. by rewrite lookup_alter_eq, Hu, Hfr.
  - rewrite is_admin_update_other by done. split; [|done]. unfold is_active, update_user in *. cbn. by rewrite lookup_alter_ne.
Qed.
(** The change of one account that [keep_admin] let through. *)
Lemma keeps_leave d id u role ra f : browser_ok d → b_users d !! id = Some u → b_roles d !! role = Some ra → rl_slug ra = AdminRoleSlug →
  (us_active u = true → us_role u = role → (us_active (f u) = true ∧ us_role (f u) = role) ∨ (1 < size (active_with role d))%nat) →
  keeps_admin d (update_user id f d).
Proof.
  intros ([_ _ Huniq _] & _) Hu Hra Hslug Hf Hadm. destruct (decide (is_active d id = true ∧ is_admin d id = true)) as [[Hact Ha]|Hno].
  - pose proof Ha as (u' & r & Hu' & Hr & Hs)%is_admin_true. assert (u' = u) as -> by congruence.
    assert (Hro : us_role u = role) by (eapply Huniq; [exact Hr|exact Hra|congruence]).
    assert (Hua : us_active u = true) by (unfold is_active in Hact; by rewrite Hu in Hact).
    destruct (Hf Hua Hro) as [[Hfa Hfr]|(other & uo & Hne & Huo & Hoa & Hor)%(another_admin d role id)].
    + revert Hadm. apply keeps_update. intros u' Hu1 _ _. assert (u' = u) as -> by congruence. split; [done|congruence].
    + exists other. rewrite is_admin_update_other by done. split.
      * apply is_active_true. exists uo. unfold update_user. cbn. by rewrite lookup_alter_ne.
      * apply is_admin_true. exists uo, ra. split; [done|]. by rewrite Hor.
  - revert Hadm. apply keeps_update. intros u' _ Hact Ha. by destruct Hno.
Qed.

Lemma guard_update requester d id f u r q : b_users d !! id = Some u → b_roles d !! us_role u = Some r → b_roles d !! us_role (f u) = Some q →
  admin_guard requester r → admin_guard requester q → IsEffectiveAdmin requester = false → guarded d (update_user id f d).
Proof.
  intros Hu Hr Hq Hg Hg' He. apply guarded_update; [exact (guard_not_admin _ _ _ _ _ Hu Hr Hg He)|].
  eapply (guard_not_admin requester _ _ (f u) q); [|exact Hq|exact Hg'|exact He]. unfold update_user. cbn. by rewrite lookup_alter_eq, Hu.
Qed.
(** What sessions, challenges and the audit log are does not matter. *)
Lemma admins_accounts (P : Prop) d d1 d2 : accounts d2 = accounts d1 → keeps_admin d d1 ∧ (P → guarded d d1) → keeps_admin d d2 ∧ (P → guarded d d2).
Proof.
  intros E [Hk Hg]. destruct (same_accounts d1 d2 E) as [[Hs1 Hs2] Hs3]. split; [intros Ha; by apply Hs3, Hk|]. intros HP.
  destruct (Hg HP) as [H1 H2]. split; [intros user Ha; rewrite E; by apply H1|intros user; by rewrite Hs2].
Qed.

Lemma users_keep (P : Prop) d d' : (accounts d').1 = (accounts d).1 → (∀ user, is_admin d' user = is_admin d user) → keeps_admin d d' ∧ (P → guarded d d').
Proof. intros E Ha. destruct (users_same d d' E Ha). done. Qed.

Lemma account_tx_admins requester op now d a d' : browser_ok d → account_tx requester op now d = Ok (a, d') →
  keeps_admin d d' ∧ (IsEffectiveAdmin requester = false → guarded d d').
Proof.
  intros Hd Hrun. destruct op; cbn [account_tx] in Hrun.
  - browser_walk Hrun. apply CreateUser_Ok in Hs as (-> & r & row & Hr & Hg & _ & ->).
    destruct (insert_user_admin d (mkUserRow username name hash role true None) Hd) as [Hk Hgu]. split; [exact Hk|]. intros He. apply Hgu.
    eapply (guard_not_admin requester _ _ (mkUserRow username name hash role true None) r); [|exact Hr|exact Hg|exact He]. apply lookup_insert_eq.
  - apply UpdateUserProfile_Ok in Hrun as (u & r & log & Hu & Hr & Hg & _ & ->).
    apply (admins_accounts _ _ (update_user id (set_profile username name) d)); [done|]. split; [|by eapply guard_update].
    apply keeps_update. intros u' Hu' Hact _. split; [|done]. unfold is_active in Hact. by rewrite Hu' in Hact.
  - apply AssignUserRole_Ok in Hrun as (u & r & q & admin & ra & log & Hu & Hr & Hq & Hra & Hslug & Hg & Hg' & Hk & ->).
    apply (admins_accounts _ _ (update_user id (set_role role) d)); [by destruct (IsAdminRole _)|]. split; [|by eapply guard_update].
    eapply keeps_leave; [done|done|exact Hra|done|]. intros Ha Hro.
    destruct (decide (role = admin)) as [->|Hne]; [left|right]; [done|by apply Hk].
  - apply SetUserActive_Ok in Hrun as (u & r & admin & ra & log & Hu & Hr & Hra & Hslug & Hg & _ & Hk & ->).
    apply (admins_accounts _ _ (update_user id (set_active active) d)); [by destruct active|]. split; [|by eapply guard_update].
    eapply keeps_leave; [done|done|exact Hra|done|]. intros Ha Hro. destruct active; [by left|right; by apply Hk].
  - apply ResetUserPassword_Ok in Hrun as (u & r & log & Hu & Hr & Hg & ->).
    apply (admins_accounts _ _ (update_user id (set_password hash) d)); [done|]. split; [|by eapply guard_update].
    apply keeps_update. intros u' Hu' Hact _. split; [|done]. unfold is_active in Hact. by rewrite Hu' in Hact.
  - browser_walk Hrun. apply (proj1 roles_Ok) in Hs as (_ & log & ->).
    apply (admins_accounts _ _ (set_b_next_role (b_next_role d + 1) (set_b_roles (<[b_next_role d := mkRoleRow name slug false ∅]> (b_roles d)) d))); [done|].
    apply users_keep; [reflexivity|by apply is_admin_insert_role].
  - apply (proj1 (proj2 roles_Ok)) in Hrun as (r & log & _ & _ & ->). apply (admins_accounts _ _ (update_role id (set_role_name name) d)); [done|].
    apply users_keep; [reflexivity|by apply is_admin_update_role].
  - apply (proj2 (proj2 roles_Ok)) in Hrun as (r & log & _ & _ & Hnone & ->). apply (admins_accounts _ _ (set_b_roles (delete id (b_roles d)) d)); [done|].
    rewrite exists_row_false in Hnone. apply users_keep; [reflexivity|].
    apply is_admin_delete_role. intros j u Hj. specialize (Hnone j u Hj). cbn in Hnone. lia.
  - apply ReplacePermissions_Ok in Hrun as (r & u & changed & log & _ & _ & _ & _ & _ & ->).
    apply (admins_accounts _ _ (update_role id (set_permissions changed) d)); [done|].
    apply users_keep; [reflexivity|by apply is_admin_update_role].
Qed.

(** ** The properties *)

Definition by_admin (l : browser_label) : Prop :=
  match l with LAccount requester => IsEffectiveAdmin requester = true | LOperator => True | _ => False end.

Lemma slug_Create_admins slug username name hash d a d' : browser_ok d →
  (let* role := FindRoleBySlug slug in users_Create username name hash role true) d = Ok (a, d') →
  keeps_admin d d' ∧ (slug ≠ AdminRoleSlug → guarded d d').
Proof.
  intros Hd (role & d1 & [E (r & Hr & Hs)]%FindRoleBySlug_Ok & (-> & _ & _ & ->)%users_Create_Ok)%tx_bind_Ok. cbn in E, Hr. subst d1.
  destruct (insert_user_admin d (mkUserRow username name hash role true None) Hd) as [Hk Hg]. split; [exact Hk|]. intros Hne. apply Hg.
  rewrite (slug_admin _ _ (mkUserRow username name hash role true None) r); [|apply lookup_insert_eq|exact Hr].
  unfold IsAdminRole. apply String.eqb_neq. congruence.
Qed.
Lemma ensureSystemRole_admins name slug d : browser_ok d →
  (accounts (ensureSystemRole name slug d)).1 = (accounts d).1 ∧ ∀ user, is_admin (ensureSystemRole name slug d) user = is_admin d user.
Proof.
  intros Hd. unfold ensureSystemRole. destruct (lockRoleBySlug slug d) as [[id d1]|].
  - split; [done|]. by apply is_admin_update_role.
  - split; [done|]. by apply is_admin_insert_role.
Qed.
Lemma Bootstrap_admins definitions d a d' : browser_ok d → Bootstrap definitions d = Ok (a, d') → guarded d d' ∧ keeps_admin d d'.
Proof.
  intros Hd. unfold Bootstrap. intros (u & d1 & Hv & Hrun)%tx_bind_Ok. apply tx_lift_Ok in Hv as (x & _ & [= -> ->]).
  apply tx_bind_Ok in Hrun as (u & d1 & [= _ <-] & [= _ <-]).
  pose proof (syncPermissions_frame definitions d) as Hf. set (d0 := foldl _ _ definitions) in *. clearbody d0.
  assert (Hd0 : browser_ok d0) by (apply (inv_ok 0 0), (inv_frame 0 0 d); [done|by apply ok_inv]).
  pose proof (frame_accounts _ _ Hf) as E0. cbn [foldl system_roles fst snd].
  destruct (ensureSystemRole_admins "Administrator" AdminRoleSlug d0 Hd0) as [E1 Ha1].
  destruct (ensureSystemRole_admins "User" UserRoleSlug _ (ensureSystemRole_ok "Administrator" AdminRoleSlug d0 Hd0)) as [E2 Ha2].
  apply users_same.
  - by rewrite E2, E1, E0.
  - intros user. rewrite Ha2, Ha1. by rewrite !accounts_admin, E0.
Qed.

Section Properties.
Context {aead : Aead} (cfg : StoreConfig).

Lemma runTx_cases {A} (m : Tx bdb A) d : (runTx m d).2 = d ∨ ∃ a d', m d = Ok (a, d') ∧ (runTx m d).2 = d'.
Proof. unfold runTx. destruct (m d) as [[a d']|]; [right; by exists a, d'|by left]. Qed.
Lemma run_accounts {A} (m : Tx bdb A) d : (∀ a, preserves (accounts_are a) m) → accounts (runTx m d).2 = accounts d.
Proof. intros Hm. by apply (preserves_runTx (accounts_are (accounts d))); [apply Hm|]. Qed.
Lemma Start_accounts token target attribution now new a : preserves (accounts_are a) (Start token target attribution now new).
Proof. intros d r d' Hd (s & _ & _ & [(_ & _ & ->)|(_ & _ & _ & _ & _ & (_ & _ & log & ->) & _)])%Start_Ok; done. Qed.
Lemma Stop_accounts token attribution now new a : preserves (accounts_are a) (Stop token attribution now new).
Proof. intros d r d' Hd (s & target & _ & _ & [(_ & -> & _)|(_ & _ & (_ & _ & log & ->) & _)])%Stop_Ok; done. Qed.

Lemma browser_step_admins l d d' : browser_step cfg l d d' → browser_ok d → keeps_admin d d' ∧ (¬ by_admin l → guarded d d').
Proof.
  intros Hstep Hd.
  assert (Hsame : accounts d' = accounts d → keeps_admin d d' ∧ (¬ by_admin l → guarded d d')) by (intros E; destruct (same_accounts d d' E); done).
  destruct Hstep; try solve [by apply Hsame].
  - apply Hsame, run_accounts. intros a. apply BeginLogin_accounts.
  - apply Hsame, run_accounts. intros a. apply BeginAuthenticated_accounts.
  - apply Hsame, Verify_full_accounts.
  - apply Hsame. by eapply (Reset_accounts cfg (accounts d)).
  - destruct (runTx_cases (account_tx requester op now) d) as [E|(a & d' & Hrun & E)]; [apply Hsame; by rewrite E|]. rewrite E.
    destruct (account_tx_admins requester op now d a d' Hd Hrun) as [Hk Hg]. split; [done|]. intros Hn. apply Hg.
    by destruct (IsEffectiveAdmin requester) eqn:Ei.
  - apply Hsame, run_accounts. intros a. apply Start_accounts.
  - apply Hsame, run_accounts. intros a. apply Stop_accounts.
  - destruct (runTx_cases (Register username name hash) d) as [E|(a & d' & Hrun & E)]; [apply Hsame; by rewrite E|]. rewrite E.
    destruct (slug_Create_admins _ _ _ _ _ _ _ Hd Hrun) as [Hk Hg]. split; [done|]. intros _. by apply Hg.
  - destruct (runTx_cases (CreateAdministrator username name hash) d) as [E|(a & d' & Hrun & E)]; [apply Hsame; by rewrite E|]. rewrite E.
    destruct (slug_Create_admins _ _ _ _ _ _ _ Hd Hrun) as [Hk Hg]. split; [done|]. intros []. done.
  - destruct (runTx_cases (Bootstrap definitions) d) as [E|(a & d' & Hrun & E)]; [apply Hsame; by rewrite E|]. rewrite E.
    destruct (Bootstrap_admins _ _ _ _ Hd Hrun) as [Hk Hg]. done.
  - apply Hsame. unfold append_best_effort. apply run_accounts. intros a. apply append_accounts.
Qed.

(** C15: in every state that start-up and any sequence of transactions
    reaches, sessions and challenges belong to active users, no session
    impersonates an administrator or an inactive user, the challenge of a
    session belongs to the session's user, and a challenge with five
    failures is consumed. *)
Theorem browser_invariants d : browser_reachable cfg d →
  (∀ id s, b_sessions d !! id = Some s → is_active d (se_user s) = true ∧
     ∀ target, se_impersonated s = Some target → is_active d target = true ∧ is_admin d target = false) ∧
  (∀ id c, b_challenges d !! id = Some c → is_active d (ch_user c) = true ∧
     (∀ session, ch_session c = Some session → session_of d session (ch_user c)) ∧
     0 <= ch_failures c <= MaxFailures ∧ (ch_failures c = MaxFailures → is_Some (ch_consumed c))).
Proof.
  intros (_ & _ & (_ & Hs & _) & Hc & _)%browser_reachable_ok. split.
  - intros id s Hid. by destruct (Hs id s Hid) as (_ & _ & ? & ?).
  - intros id c Hid. by destruct (Hc id c Hid) as (_ & _ & ? & _ & ? & ?).
Qed.

(** C14: once there is an active administrator there always is one; and as
    long as no administrator's request and no operator command is among the
    steps, every administrator's account, its password and activity
    included, stays as it is and nobody becomes an administrator. *)
Theorem administrators_protected ls d d' : browser_reachable cfg d → browser_trace cfg ls d d' →
  (active_admin d → active_admin d') ∧
  (Forall (λ l, ¬ by_admin l) ls →
     (∀ user, is_admin d user = true → (accounts d').1 !! user = (accounts d).1 !! user) ∧ ∀ user, is_admin d' user = is_admin d user).
Proof.
  intros Hd%browser_reachable_ok Htr. induction Htr as [d|l ls d d1 d2 Hstep Htr IH]; [done|].
  destruct (browser_step_admins _ _ _ Hstep Hd) as [Hk Hg], (IH (browser_step_ok _ _ _ _ Hstep Hd)) as [Hk' Hg'].
  split; [intros Ha; by apply Hk', Hk|]. intros [Hl Hls]%Forall_cons. destruct (Hg Hl) as [H1 H2], (Hg' Hls) as [H3 H4].
  split; [intros user Ha; rewrite H3; [by apply H1|by rewrite H2]|intros user; by rewrite H4].
Qed.
End Properties.
