(* ===== verification/MfaProps.v ===== *)
(** * What multi-factor authentication guarantees

    What one verification does, and theorems over whole executions: factors
    are accepted once, a challenge takes five attempts, sessions come from
    accepted factors only, and what a reset removes. *)

From S2P Require Import Prelude Calendar Access AuditTrail Hash Table Totp Secrets BrowserStore Mfa UserAdmin Accounts BrowserInv BrowserSystem.
From stdpp Require Import gmap.

Open Scope Z_scope.

(** ** What a statement can change *)

(** Enrollments and recovery codes. *)
Definition credentials_are x (d : bdb) : Prop := (b_enrollments d, b_codes d) = x.
(** How many attempts a challenge still takes. *)
Definition attempts_left (c : Challenge) : Z := if isSome (ch_consumed c) then 0 else MaxFailures - ch_failures c.
Definition challenge_left (id : Z) (d : bdb) : Z :=
  if b_next_challenge d <=? id then MaxFailures else match b_challenges d !! id with Some c => attempts_left c | None => 0 end.
Definition left_at_most (id k : Z) (d : bdb) : Prop := 0 <= k ∧ challenge_left id d <= k.

Lemma left_delete id k cond d : left_at_most id k d → left_at_most id k (delete_challenges cond d).
Proof.
  intros [Hk Hl]. split; [done|]. revert Hl. unfold challenge_left, delete_challenges. cbn. destruct (_ <=? id); [done|].
  intros Hl. destruct (filter _ _ !! id) as [c|] eqn:E; [|done]. apply map_lookup_filter_Some in E as [E _]. by rewrite E in Hl.
Qed.
Lemma left_delete_sessions id k cond d : left_at_most id k d → left_at_most id k (delete_sessions cond d).
Proof.
  intros [Hk Hl]. split; [done|]. revert Hl. unfold challenge_left, delete_sessions. cbn. destruct (_ <=? id); [done|].
  intros Hl. destruct (filter _ _ !! id) as [c|] eqn:E; [|done]. apply map_lookup_filter_Some in E as [E _]. by rewrite E in Hl.
Qed.
Lemma left_alter id k i f d : (∀ c, i = id → b_challenges d !! id = Some c → attempts_left c <= k → attempts_left (f c) <= k) →
  left_at_most id k d → left_at_most id k (set_b_challenges (alter f i (b_challenges d)) d).
Proof.
  intros Hf [Hk Hl]. split; [done|]. revert Hl. unfold challenge_left. cbn. destruct (_ <=? id); [done|].
  destruct (decide (i = id)) as [->|Hne]; [|by rewrite lookup_alter_ne]. rewrite lookup_alter_eq.
  destruct (b_challenges d !! id) as [c|] eqn:E; [|done]. cbn. by apply Hf.
Qed.
Lemma left_insert id k row : (∀ n, ch_failures (row n) = 0) → preserves (left_at_most id k) (insert_challenge row).
Proof.
  intros Hrow d n d' [Hk Hl]. unfold insert_challenge. cbn zeta. destruct (exists_row _ _); [done|]. destruct (negb _); [done|].
  intros [= _ <-]. split; [done|]. revert Hl. unfold challenge_left. cbn.
  destruct (b_next_challenge d <=? id) eqn:E; intros Hl.
  - destruct (b_next_challenge d + 1 <=? id) eqn:E'; [done|]. assert (b_next_challenge d = id) as <- by lia. rewrite lookup_insert_eq.
    unfold attempts_left. rewrite Hrow. destruct (isSome _); [done|]. unfold MaxFailures in *. lia.
  - destruct (b_next_challenge d + 1 <=? id) eqn:E'; [lia|]. rewrite lookup_insert_ne by lia. done.
Qed.
Lemma left_pending id k i pending d : left_at_most id k d → left_at_most id k (set_b_challenges (alter (set_pending pending) i (b_challenges d)) d).
Proof. by apply left_alter. Qed.
Lemma left_consumed id k i now d : left_at_most id k d → left_at_most id k (set_b_challenges (alter (set_consumed now) i (b_challenges d)) d).
Proof. intros Hd. apply left_alter; [|done]. intros c _ _ _. apply Hd. Qed.

(** Sessions that exist. *)
Definition sessions_within (ids : gset Z) (d : bdb) : Prop := dom (b_sessions d) ⊆ ids.
Lemma within_delete ids cond d : sessions_within ids d → sessions_within ids (delete_sessions cond d).
Proof.
  intros Hd id Hid. apply Hd. apply elem_of_dom in Hid as [s [Hs _]%map_lookup_filter_Some]. by eapply elem_of_dom_2.
Qed.

(** What the three have in common: the other tables do not matter, deleting
    and issuing challenges, and deleting sessions, keep them. *)
Definition same_credentials (d d' : bdb) : Prop :=
  b_enrollments d' = b_enrollments d ∧ b_codes d' = b_codes d ∧ b_challenges d' = b_challenges d ∧ b_next_challenge d' = b_next_challenge d ∧
  dom (b_sessions d') = dom (b_sessions d).
Record stable (P : bdb → Prop) : Prop := {
  stable_same : ∀ d d', same_credentials d d' → P d → P d';
  stable_delete_challenges : ∀ cond d, P d → P (delete_challenges cond d);
  stable_delete_sessions : ∀ cond d, P d → P (delete_sessions cond d);
  stable_insert : ∀ row, (∀ n, ch_failures (row n) = 0) → preserves P (insert_challenge row);
  stable_pending : ∀ i pending d, P d → P (set_b_challenges (alter (set_pending pending) i (b_challenges d)) d);
  stable_consumed : ∀ i now d, P d → P (set_b_challenges (alter (set_consumed now) i (b_challenges d)) d) }.

Lemma credentials_stable x : stable (credentials_are x).
Proof.
  constructor; try done.
  - intros d d' (E1 & E2 & _). unfold credentials_are. by rewrite E1, E2.
  - intros row _ d y d' Hd. unfold insert_challenge. cbn zeta. destruct (exists_row _ _); [done|]. destruct (negb _); [done|]. by intros [= _ <-].
Qed.
Lemma left_stable id k : stable (left_at_most id k).
Proof.
  constructor.
  - intros d d' (_ & _ & E1 & E2 & _). unfold left_at_most, challenge_left. by rewrite E1, E2.
  - intros cond d. apply left_delete.
  - intros cond d. apply left_delete_sessions.
  - apply left_insert.
  - intros i pending d. apply left_pending.
  - intros i now d. apply left_consumed.
Qed.
Lemma within_stable ids : stable (sessions_within ids).
Proof.
  constructor; try done.
  - intros d d' (_ & _ & _ & _ & E). unfold sessions_within. by rewrite E.
  - intros cond d. apply within_delete.
  - intros row _ d y d' Hd. unfold insert_challenge. cbn zeta. destruct (exists_row _ _); [done|]. destruct (negb _); [done|]. by intros [= _ <-].
Qed.

Section Stable.
Context {aead : Aead} (cfg : StoreConfig) (P : bdb → Prop) (HP : stable P).

Lemma same_preserves f : (∀ d, same_credentials d (f d)) → preserves P (tx_modify f).
Proof using HP. intros Hf. apply preserves_modify. intros d. by apply stable_same. Qed.
Lemma stable_append event : preserves P (Append event).
Proof using HP. intros d u d' Hd (row & _ & [= _ ->])%Append_browser. by apply (stable_same P HP d). Qed.
Lemma stable_modify_delete cond : preserves P (tx_modify (delete_challenges cond)).
Proof using HP. apply preserves_modify. intros d. by apply stable_delete_challenges. Qed.
Lemma stable_modify_sessions cond : preserves P (tx_modify (delete_sessions cond)).
Proof using HP. apply preserves_modify. intros d. by apply stable_delete_sessions. Qed.
Lemma alter_sessions_same f id d : same_credentials d (set_b_sessions (alter f id (b_sessions d)) d).
Proof using Type. repeat split. cbn. by rewrite dom_alter_L. Qed.
Lemma stable_issue random id session purpose remember next now : preserves P (issue random id session purpose remember next now).
Proof using HP.
  unfold issue, update_challenge. apply preserves_bind; [by apply stable_insert|]. intros n. destruct (is_setup purpose); [|auto with tx].
  apply preserves_bind; [auto with tx|]. intros e. apply preserves_bind; [|auto with tx]. apply preserves_modify. intros d. by apply stable_pending.
Qed.
Hint Resolve stable_append stable_modify_delete stable_modify_sessions stable_issue : tx.
Lemma stable_clear id : preserves P (clearChallengesSessions id).
Proof using HP. unfold clearChallengesSessions. tx_preserves. Qed.
Hint Resolve stable_clear : tx.

Lemma BeginLogin_stable random id hash remember next now : preserves P (BeginLogin random id hash remember next now).
Proof using HP. unfold BeginLogin. tx_preserves. Qed.
Lemma BeginAuthenticated_stable random id session purpose next token now now' :
  preserves P (BeginAuthenticated cfg random id session purpose next token now now').
Proof using HP. unfold BeginAuthenticated. tx_preserves. Qed.
Lemma change_session_stable id token target : preserves P (change_session id token target).
Proof using HP. intros d y d' Hd [_ [= _ ->]]%change_session_Ok. eapply stable_same; [done|apply alter_sessions_same|done]. Qed.
Lemma Start_stable token target attribution now new : preserves P (Start token target attribution now new).
Proof using HP.
  intros d r d' Hd (s & _ & _ & [(_ & _ & ->)|(_ & _ & _ & _ & _ & (_ & _ & log & ->) & _)])%Start_Ok; [by apply stable_delete_sessions|].
  eapply stable_same; [done| |exact Hd]. apply (alter_sessions_same (with_token new (Some target)) (se_id s) d).
Qed.
Lemma Stop_stable token attribution now new : preserves P (Stop token attribution now new).
Proof using HP.
  intros d r d' Hd (s & target & _ & _ & [(_ & -> & _)|(_ & _ & (_ & _ & log & ->) & _)])%Stop_Ok; [by apply stable_delete_sessions|].
  eapply stable_same; [done| |exact Hd]. apply (alter_sessions_same (with_token new None) (se_id s) d).
Qed.
Lemma account_tx_stable requester op now : preserves P (account_tx requester op now).
Proof using HP.
  intros d a d' Hd Hrun. destruct op; cbn [account_tx] in Hrun.
  - browser_walk Hrun. apply CreateUser_Ok in Hs as (_ & r & row & _ & _ & _ & ->). by apply (stable_same P HP d).
  - apply UpdateUserProfile_Ok in Hrun as (u & r & log & _ & _ & _ & _ & ->). by apply (stable_same P HP d).
  - apply AssignUserRole_Ok in Hrun as (u & r & q & admin & ra & log & _ & _ & _ & _ & _ & _ & _ & _ & ->).
    destruct (IsAdminRole _); [|by apply (stable_same P HP d)]. apply (stable_same P HP (drop_impersonations id d)); [done|]. by apply (stable_delete_sessions P HP).
  - apply SetUserActive_Ok in Hrun as (u & r & admin & ra & log & _ & _ & _ & _ & _ & _ & _ & ->). destruct active; [by apply (stable_same P HP d)|].
    apply (stable_same P HP (drop_user id d)); [done|]. by apply (stable_delete_sessions P HP), (stable_delete_challenges P HP).
  - apply ResetUserPassword_Ok in Hrun as (u & r & log & _ & _ & _ & ->).
    apply (stable_same P HP (RevokeAllForUser id (delete_challenges (λ c, ch_user c =? id) (update_user id (set_password hash) d)))); [done|].
    apply (stable_delete_sessions P HP), (stable_delete_challenges P HP). by apply (stable_same P HP d).
  - browser_walk Hrun. apply (proj1 roles_Ok) in Hs as (_ & log & ->). by apply (stable_same P HP d).
  - apply (proj1 (proj2 roles_Ok)) in Hrun as (r & log & _ & _ & ->). by apply (stable_same P HP d).
  - apply (proj2 (proj2 roles_Ok)) in Hrun as (r & log & _ & _ & _ & ->). by apply (stable_same P HP d).
  - apply ReplacePermissions_Ok in Hrun as (r & u & changed & log & _ & _ & _ & _ & _ & ->). by apply (stable_same P HP d).
Qed.
Lemma slug_Create_stable slug username name hash : preserves P (let* role := FindRoleBySlug slug in users_Create username name hash role true).
Proof using HP.
  intros d a d' Hd (role & d1 & [E _]%FindRoleBySlug_Ok & (_ & _ & _ & ->)%users_Create_Ok)%tx_bind_Ok. cbn in E. subst d1. by apply (stable_same P HP d).
Qed.
Lemma Bootstrap_stable definitions : preserves P (Bootstrap definitions).
Proof using HP.
  assert (Hrole : ∀ name slug d, same_credentials d (ensureSystemRole name slug d)).
  { intros name slug d. unfold ensureSystemRole. by destruct (lockRoleBySlug slug d) as [[]|]. }
  unfold Bootstrap. apply preserves_bind; [auto with tx|]. intros _. apply preserves_bind; apply preserves_modify || (intros _; apply preserves_modify).
  - intros d. revert d. induction definitions as [|p ps IH]; intros d Hd; [done|]. apply IH. by apply (stable_same P HP d).
  - intros d Hd. cbn [foldl system_roles]. eapply stable_same; [done|apply Hrole|]. by eapply stable_same; [|apply Hrole|].
Qed.
Lemma best_effort_stable event d : P d → P (append_best_effort event d).
Proof using HP. intros Hd. unfold append_best_effort. apply preserves_runTx; [apply stable_append|done]. Qed.
End Stable.

(** ** One verification *)

Section Verify.
Context {aead : Aead} (cfg : StoreConfig).

(** The code the user typed stands for the factor: a code of the pending or
    of the active secret in the window around [now], newer than the last
    one accepted, or an unused recovery code. *)
Definition factor_valid (d : bdb) (c : Challenge) (input : string) (now : instant) (f : factor) : Prop :=
  match f with
  | FSetup n => is_setup (ch_purpose c) = true ∧
      ∃ secret, PendingSecret c = Ok secret ∧ Code secret n = Some input ∧ time_step now - 1 <= n <= time_step now + 1
  | FTotp n => is_setup (ch_purpose c) = false ∧
      ∃ e secret, b_enrollments d !! ch_user c = Some e ∧ Decrypt PurposeMFATOTPActive (ch_user c) (en_secret e) = Ok secret ∧
        Code secret n = Some input ∧ time_step now - 1 <= n <= time_step now + 1 ∧ en_last e < n
  | FRecovery h => is_setup (ch_purpose c) = false ∧
      h = RecoveryHash (ch_user c) input ∧ b_codes d !! (ch_user c, h) = Some None ∧ is_Some (b_enrollments d !! ch_user c)
  end.

Lemma check_code_Some c input now d f d' : check_code c (ch_user c) input now d = Ok (Some f, d') → d' = d ∧ factor_valid d c input now f.
Proof.
  intros H. split; [by eapply check_code_readonly|]. revert H. unfold check_code, factor_valid. destruct (is_setup _) eqn:Es.
  - intros (secret & d1 & Hs & H)%tx_bind_Ok. apply tx_lift_Ok in Hs as (x & Hs & [= -> ->]).
    destruct (Match x input now (-1)) as [n []] eqn:Em; [|done]. injection H as <- _. apply Match_Some in Em as (? & ? & _).
    split; [done|]. by exists x.
  - intros (active & d1 & [= <- <-] & H)%tx_bind_Ok. destruct (b_enrollments d !! ch_user c) as [e|]; [|done].
    apply tx_bind_Ok in H as (secret & d1 & Hs & H). apply tx_lift_Ok in Hs as (x & Hs & [= -> ->]).
    destruct (Match x input now (en_last e)) as [n []] eqn:Em.
    + injection H as <- _. apply Match_Some in Em as (? & ? & ?). split; [done|]. by exists e, x.
    + apply tx_bind_Ok in H as (used & d1 & [= <- <-] & H). injection H as H _.
      destruct (b_codes d !! _) as [[]|] eqn:Eu; try done. injection H as <-. split; [done|]. split; [done|]. split; [done|by eexists].
Qed.

(** The challenge a verification is about, as it checks it. *)
Definition challenge_open (d : bdb) (token : string) (now : instant) (c : Challenge) : Prop :=
  find_row (λ c, (ch_token c =? HashToken token)%string) (b_challenges d) = Some c ∧ b_challenges d !! ch_id c = Some c ∧
  is_active d (ch_user c) = true ∧ ch_consumed c = None ∧ now < ch_expires c ∧ ch_failures c < MaxFailures.
Definition consumed_in (c : Challenge) (now : instant) (d : bdb) : bdb := set_b_challenges (alter (set_consumed now) (ch_id c) (b_challenges d)) d.

Lemma verify_tx_cases random c token input session hash now now' d out d' : browser_ok d →
  find_row (λ c, (ch_token c =? HashToken token)%string) (b_challenges d) = Some c →
  verify_tx cfg random (ch_user c) token input session hash now now' d = Ok (out, d') →
  challenge_open d token now c ∧ ∃ attribution,
    reject c session attribution now' d = Ok (out, d') ∨
    ∃ f v codes d1, out = Accepted f c v ∧ factor_valid d c input now' f ∧
      (∃ u, b_users d !! ch_user c = Some u ∧ check_password c u hash = true) ∧
      (∀ s, ch_session c = Some s → s = session) ∧
      spend_factor f c (ch_user c) random attribution now' d = Ok (codes, d1) ∧
      fulfil cfg c (ch_user c) session random attribution codes now' (consumed_in c now' d1) = Ok (v, d').
Proof.
  intros Hd Hfind. unfold verify_tx. intros (u & d1 & Hl & Hrun)%tx_bind_Ok. unfold lockUser in Hl.
  destruct (b_users d !! ch_user c) as [u'|] eqn:Eu; [|done]. injection Hl as <- <-.
  apply tx_bind_Ok in Hrun as (found & d1 & [= <- <-] & Hrun). rewrite Hfind in Hrun.
  destruct (_ || _) eqn:Eg in Hrun; [done|]. rewrite !orb_false_iff in Eg. destruct Eg as [[[Ea Ec] Ex] Em].
  pose proof (find_row_Some _ _ _ Hfind) as [_ [k Hk]]. destruct Hd as (Hr & Hu & Hs & Hc & Hcu). pose proof (Hc k c Hk) as (<- & _).
  split. { split; [done|]. split; [done|]. apply negb_false_iff in Ea, Ex. split; [apply is_active_true; eauto|]. split; [by destruct (ch_consumed c)|]. lia. }
  apply tx_bind_Ok in Hrun as (s & d1 & Hs' & Hrun). apply verify_session_Ok in Hs' as [-> Hse]; [|done].
  destruct (_ || _) in Hrun; [done|]. apply tx_bind_Ok in Hrun as (at_ & d1 & ->%verify_attribution_readonly & Hrun). exists at_.
  apply tx_bind_Ok in Hrun as (code & d1 & Hcode & Hrun). destruct code as [f|]; [|left; apply check_code_readonly in Hcode as ->; done].
  apply check_code_Some in Hcode as [-> Hf]. destruct (negb _) eqn:Ep in Hrun; [by left|]. right.
  apply tx_bind_Ok in Hrun as (codes & d1 & Hsp & Hrun). apply tx_bind_Ok in Hrun as (u1 & d2 & [= _ <-] & Hrun).
  apply tx_bind_Ok in Hrun as (v & d2 & Hful & [= <- <-]). exists f, v, codes, d1. split; [done|]. split; [done|].
  split; [exists u'; split; [done|by apply negb_false_iff]|]. split; [|done]. intros s0 Hs0. destruct s; destruct Hse as [E _]; congruence.
Qed.
End Verify.

(** ** What an accepted or a rejected verification changes *)

(** The credentials themselves do not matter. *)
Definition neutral (P : bdb → Prop) : Prop :=
  ∀ d d', b_challenges d' = b_challenges d → b_next_challenge d' = b_next_challenge d → dom (b_sessions d') = dom (b_sessions d) → P d → P d'.
Lemma left_neutral id k : neutral (left_at_most id k).
Proof. intros d d' E1 E2 _. unfold left_at_most, challenge_left. by rewrite E1, E2. Qed.
Lemma within_neutral ids : neutral (sessions_within ids).
Proof. intros d d' _ _ E. unfold sessions_within. by rewrite E. Qed.

Section Effects.
Context {aead : Aead} (cfg : StoreConfig) (P : bdb → Prop) (HP : stable P).

Lemma neutral_modify f : neutral P → (∀ d, b_challenges (f d) = b_challenges d ∧ b_next_challenge (f d) = b_next_challenge d ∧
  dom (b_sessions (f d)) = dom (b_sessions d)) → preserves P (tx_modify f).
Proof using Type. intros Hn Hf. apply preserves_modify. intros d. destruct (Hf d) as (? & ? & ?). by apply Hn. Qed.
Lemma neutral_codes id codes : neutral P → preserves P (insert_codes id codes).
Proof using Type.
  intros Hn. induction codes as [|code codes IH]; [apply preserves_ret|]. apply preserves_bind; [|intros _; exact IH].
  intros d x d' Hd. destruct (b_codes d !! _); [done|]. intros [= _ <-]. by apply (Hn d).
Qed.
Lemma neutral_recovery random id : neutral P → preserves P (replaceRecovery random id).
Proof using Type.
  intros Hn. unfold replaceRecovery. apply preserves_bind; [by apply neutral_modify|]. intros _.
  apply preserves_bind; [by apply neutral_codes|auto with tx].
Qed.
Lemma neutral_spend f c id random attribution now : neutral P → preserves P (spend_factor f c id random attribution now).
Proof using HP.
  intros Hn. pose proof (neutral_recovery (vr_codes random) id Hn) as Hre. pose proof (stable_append P HP) as Ha.
  destruct f; unfold spend_factor.
  - apply preserves_bind; [auto with tx|]. intros secret. apply preserves_bind; [auto with tx|]. intros encoded. apply preserves_bind; [|intros _; tx_preserves].
    destruct (bool_decide _); [|by apply neutral_modify]. intros d x d' Hd. destruct (b_enrollments d !! id); [done|]. intros [= _ <-]. by apply (Hn d).
  - apply preserves_bind; [by apply neutral_modify|auto with tx].
  - apply preserves_bind; [by apply neutral_modify|]. intros _. tx_preserves.
Qed.
Lemma fulfil_stable c id session random attribution codes now :
  (login_purpose (ch_purpose c) = true → ∀ params now, preserves P (CreateSessionIn params now)) → (ch_purpose c = Regenerate → preserves P (replaceRecovery (vr_codes random) id)) →
  preserves P (fulfil cfg c id session random attribution codes now).
Proof using HP.
  intros Hlogin Hre. unfold fulfil. cbn zeta. pose proof (stable_append P HP) as Ha. pose proof (stable_clear P HP) as Hc.
  pose proof (same_preserves P HP) as Hs. destruct (ch_purpose c) eqn:Ec.
  1, 2: apply preserves_bind; [by apply Hlogin|]; intros s; apply preserves_bind; [by apply Hs|]; intros _; tx_preserves.
  - apply preserves_bind; [apply Hs; intros d; apply alter_sessions_same|]. intros _. tx_preserves.
  - apply preserves_bind; [auto with tx|]. intros _. auto with tx.
  - apply preserves_bind; [by apply stable_issue|]. intros pending. auto with tx.
  - apply preserves_bind; [by apply Hre|]. intros cs. apply preserves_bind; [auto with tx|]. intros _. tx_preserves.
Qed.
(** A rejection: the failure is counted, the session perhaps deleted. *)
Lemma reject_Ok c session attribution now d out d' : reject c session attribution now d = Ok (out, d') →
  let exhausted := ch_failures c + 1 =? MaxFailures in
  let counted := set_b_challenges (alter (set_failures (ch_failures c + 1) (if exhausted then Some now else None)) (ch_id c) (b_challenges d)) d in
  out = Rejected exhausted attribution ∧
  d' = if exhausted && isSome (ch_session c) then delete_sessions (λ s, se_id s =? session) counted else counted.
Proof using Type.
  unfold reject. cbn zeta. intros (u & d1 & [= _ <-] & Hrun)%tx_bind_Ok. apply tx_bind_Ok in Hrun as (u1 & d2 & Hdel & [= <- <-]).
  split; [done|]. destruct (_ && _); by injection Hdel as _ <-.
Qed.
End Effects.

Lemma session_left id k params now : preserves (left_at_most id k) (CreateSessionIn params now).
Proof.
  unfold CreateSessionIn. repeat match goal with |- preserves _ (if ?x then _ else _) => destruct x; [apply preserves_fail|] end.
  apply preserves_bind; [|auto with tx]. intros d y d' Hd. unfold insert_session. cbn zeta. destruct (exists_row _ _); [done|].
  destruct (negb _); [done|]. by intros [= _ <-].
Qed.
Lemma session_credentials x params now : preserves (credentials_are x) (CreateSessionIn params now).
Proof.
  unfold CreateSessionIn. repeat match goal with |- preserves _ (if ?x then _ else _) => destruct x; [apply preserves_fail|] end.
  apply preserves_bind; [|auto with tx]. intros d y d' Hd. unfold insert_session. cbn zeta. destruct (exists_row _ _); [done|].
  destruct (negb _); [done|]. by intros [= _ <-].
Qed.

(** ** The cases of a step *)

Section Steps.
Context {aead : Aead} (cfg : StoreConfig).

Definition rejected (c : Challenge) (d d' : bdb) : Prop :=
  ∃ token now, challenge_open d token now c ∧ ∃ (session now' : Z) (exhausted : bool) attribution,
  let counted := set_b_challenges (alter (set_failures (ch_failures c + 1) (if exhausted then Some now' else None)) (ch_id c) (b_challenges d)) d in
  exhausted = (ch_failures c + 1 =? MaxFailures) ∧
  d' = foldl (λ d action, append_best_effort (mfa_event attribution (ch_user c) now' action) d)
         (if exhausted && isSome (ch_session c) then delete_sessions (λ s, se_id s =? session) counted else counted)
         (ActionMFAFailed :: if exhausted then [ActionMFAExhausted] else []).
Definition accepted (f : factor) (c : Challenge) (d d' : bdb) : Prop :=
  ∃ token input now now', challenge_open d token now c ∧ factor_valid d c input now' f ∧
  ∃ random session attribution codes d1 v,
    spend_factor f c (ch_user c) random attribution now' d = Ok (codes, d1) ∧
    fulfil cfg c (ch_user c) session random attribution codes now' (consumed_in c now' d1) = Ok (v, d').

Lemma browser_step_cases l d d' : browser_step cfg l d d' → browser_ok d →
  match l with
  | LAccepted f c => accepted f c d d'
  | LRejected c => rejected c d d'
  | LReset target => ∃ actor session attribution now now', Reset cfg target actor session attribution now now' d = Ok (tt, d')
  | _ => ∀ P, stable P → P d → P d'
  end.
Proof.
  intros Hstep Hd. destruct Hstep.
  - intros P HP HPd. apply preserves_runTx; [by apply BeginLogin_stable|done].
  - intros P HP HPd. apply preserves_runTx; [by apply BeginAuthenticated_stable|done].
  - unfold Verify_full. destruct (find_row _ (b_challenges d)) as [c|] eqn:Ef; [|cbn; intros P HP HPd; exact HPd].
    unfold runTx. destruct (verify_tx _ _ _ _ _ _ _ _ _ d) as [[out d1]|e] eqn:E; [|cbn; intros P HP HPd; exact HPd].
    destruct (verify_tx_cases cfg random c token input session hash now now' d out d1 Hd Ef E) as (Hopen & at_ & [Hrej|(f & v & codes & d2 & -> & Hf & _ & _ & Hsp & Hful)]).
    + apply reject_Ok in Hrej as [-> ->]. cbn [fst snd verify_label]. rewrite Ef. exists token, now. split; [done|]. by exists session, now', (ch_failures c + 1 =? MaxFailures), at_.
    + cbn [fst snd verify_label]. exists token, input, now, now'. split; [done|]. split; [done|]. by exists random, session, at_, codes, d2, v.
  - by exists actor, session, attribution, now, now'.
  - intros P HP HPd. apply preserves_runTx; [by apply account_tx_stable|done].
  - intros P HP HPd. apply preserves_runTx; [by apply Start_stable|done].
  - intros P HP HPd. apply preserves_runTx; [by apply Stop_stable|done].
  - intros P HP HPd. eapply stable_same; [done|apply alter_sessions_same|done].
  - intros P HP HPd. by apply (stable_delete_sessions P HP).
  - intros P HP HPd. by apply (stable_delete_challenges P HP).
  - intros P HP HPd. by apply (stable_delete_sessions P HP).
  - intros P HP HPd. apply preserves_runTx; [by apply slug_Create_stable|done].
  - intros P HP HPd. apply preserves_runTx; [by apply slug_Create_stable|done].
  - intros P HP HPd. apply preserves_runTx; [by apply Bootstrap_stable|done].
  - intros P HP HPd. by apply best_effort_stable.
Qed.

(** ** Attempts on a challenge *)

Definition attempt_on (id : Z) (l : browser_label) : Z :=
  match l with LAccepted _ c | LRejected c => if ch_id c =? id then 1 else 0 | _ => 0 end.

Lemma challenge_left_bounds id d : browser_ok d → 0 <= challenge_left id d <= MaxFailures.
Proof.
  intros (_ & _ & _ & Hc & _). unfold challenge_left, attempts_left. assert (0 <= MaxFailures) by (vm_compute; done).
  destruct (_ <=? _); [lia|]. destruct (b_challenges d !! id) as [c|] eqn:E; [|lia].
  destruct (Hc id c E) as (_ & _ & _ & _ & _ & ? & _). destruct (isSome _); lia.
Qed.
Lemma left_refl id d : browser_ok d → left_at_most id (challenge_left id d) d.
Proof. intros Hd. split; [|done]. by apply challenge_left_bounds. Qed.
Lemma open_left d token now c : browser_ok d → challenge_open d token now c → challenge_left (ch_id c) d = MaxFailures - ch_failures c ∧ ch_failures c < MaxFailures.
Proof.
  intros (_ & _ & _ & Hc & _) (_ & Hk & _ & Hcons & _ & Hf). destruct (Hc _ _ Hk) as (_ & Hb & _). split; [|done]. unfold challenge_left, attempts_left.
  destruct (b_next_challenge d <=? ch_id c) eqn:E; [lia|]. by rewrite Hk, Hcons.
Qed.

(** The next identifier never goes back. *)
Definition next_at_least (n : Z) (d : bdb) : Prop := n <= b_next_challenge d.
Lemma next_stable n : stable (next_at_least n).
Proof using Type.
  constructor; try done.
  - intros d d' (_ & _ & _ & E & _). unfold next_at_least. by rewrite E.
  - intros row _ d y d' Hd. unfold insert_challenge. cbn zeta. destruct (exists_row _ _); [done|]. destruct (negb _); [done|].
    intros [= _ <-]. unfold next_at_least in *. cbn. lia.
Qed.
Lemma next_neutral n : neutral (next_at_least n).
Proof using Type. intros d d' _ E _. unfold next_at_least. by rewrite E. Qed.

Lemma accepted_left f c d d' id : browser_ok d → accepted f c d d' → challenge_left id d' <= if ch_id c =? id then 0 else challenge_left id d.
Proof using Type.
  intros Hd (token & input & now & now' & Hopen & _ & random & session & at_ & codes & d1 & v & Hsp & Hful).
  assert (Hpre : ∀ k, preserves (left_at_most id k) (fulfil cfg c (ch_user c) session random at_ codes now')).
  { intros k. apply fulfil_stable; [apply left_stable|intros _ params n; apply session_left|intros _; apply neutral_recovery, left_neutral]. }
  assert (Hd1 : left_at_most id (challenge_left id d) d1).
  { eapply (neutral_spend _ (left_stable id _)); [apply left_neutral|by apply left_refl|exact Hsp]. }
  assert (Hn1 : next_at_least (b_next_challenge d) d1).
  { eapply (neutral_spend _ (next_stable _)); [apply next_neutral| |exact Hsp]. unfold next_at_least. lia. }
  destruct (ch_id c =? id) eqn:E.
  - apply Z.eqb_eq in E as <-. eapply (Hpre 0); [|exact Hful]. split; [done|]. unfold challenge_left, consumed_in. cbn.
    destruct Hopen as (_ & Hk & _). destruct Hd as (_ & _ & _ & Hc & _). destruct (Hc _ _ Hk) as (_ & Hb & _). unfold next_at_least in Hn1.
    rewrite (proj2 (Z.leb_gt _ _)) by lia. rewrite lookup_alter_eq. destruct (b_challenges d1 !! ch_id c); [done|done].
  - eapply Hpre; [|exact Hful]. by apply (stable_consumed _ (left_stable id _)).
Qed.
Lemma rejected_left c d d' id : browser_ok d → rejected c d d' → challenge_left id d' <= challenge_left id d - if ch_id c =? id then 1 else 0.
Proof using Type.
  intros Hd (token & now & Hopen & session & now' & exhausted & at_ & Hex & ->).
  set (k := challenge_left id d - if ch_id c =? id then 1 else 0).
  enough (left_at_most id k (set_b_challenges (alter (set_failures (ch_failures c + 1) (if exhausted then Some now' else None)) (ch_id c) (b_challenges d)) d)) as H.
  { assert (Hsess : ∀ cond d0, left_at_most id k d0 → left_at_most id k (delete_sessions cond d0)) by (intros; by apply left_delete_sessions).
    pose proof (best_effort_stable _ (left_stable id k)) as Hap. cbn [foldl].
    destruct exhausted; cbn [foldl andb]; [destruct (isSome _)|]; repeat apply Hap; auto; apply H. }
  destruct (open_left _ _ _ _ Hd Hopen) as [Hl Hf]. pose proof (challenge_left_bounds id d Hd) as Hb.
  destruct Hopen as (_ & Hk & _). pose proof Hd as (_ & _ & _ & Hc & _). destruct (Hc _ _ Hk) as (_ & Hn & _).
  destruct (ch_id c =? id) eqn:E.
  - apply Z.eqb_eq in E as <-. split; [unfold k; lia|]. unfold challenge_left at 1. cbn. rewrite (proj2 (Z.leb_gt _ _)) by lia.
    rewrite lookup_alter_eq, Hk. cbn. unfold attempts_left, k. cbn. rewrite Hl. destruct exhausted; cbn; lia.
  - apply left_alter; [intros c0 Hi; lia|]. unfold k. rewrite Z.sub_0_r. by apply left_refl.
Qed.
End Steps.

Section Attempts.
Context {aead : Aead} (cfg : StoreConfig).

Lemma Reset_neutral P target actor session attribution now now' : stable P → neutral P → preserves P (Reset cfg target actor session attribution now now').
Proof.
  intros HP Hn. pose proof (stable_append P HP) as Ha. pose proof (stable_clear P HP) as Hc. unfold Reset. destruct (_ || _); [auto with tx|].
  apply preserves_bind; [auto with tx|]. intros _. apply preserves_bind.
  - destruct (actor =? 0); [auto with tx|]. apply preserves_bind; [auto with tx|]. intros s. destruct (_ || _ || _); tx_preserves.
  - intros at_. apply preserves_bind; [by apply neutral_modify|]. intros _. apply preserves_bind; [by apply neutral_modify|]. intros _. tx_preserves.
Qed.

Definition attempts (id : Z) (ls : list browser_label) : Z := foldr (λ l n, attempt_on id l + n) 0 ls.

Lemma step_attempts l d d' id : browser_step cfg l d d' → browser_ok d → challenge_left id d' + attempt_on id l <= challenge_left id d.
Proof.
  intros Hstep Hd. pose proof (browser_step_cases cfg l d d' Hstep Hd) as Hcase. pose proof (left_refl id d Hd) as Hl.
  destruct l; cbn [attempt_on].
  1, 5, 6: destruct (Hcase _ (left_stable id (challenge_left id d)) Hl); lia.
  - pose proof (accepted_left cfg f c d d' id Hd Hcase) as Ha. destruct Hcase as (token & input & now & now' & Hopen & _).
    destruct (open_left _ _ _ _ Hd Hopen) as [E Hf]. destruct (ch_id c =? id) eqn:Eid in Ha |- *; [|lia].
    apply Z.eqb_eq in Eid as <-. rewrite E. lia.
  - pose proof (rejected_left c d d' id Hd Hcase). lia.
  - destruct Hcase as (actor & session & at_ & now & now' & Hr).
    destruct (Reset_neutral _ target actor session at_ now now' (left_stable id (challenge_left id d)) (left_neutral _ _) d tt d' Hl Hr). lia.
Qed.
Lemma trace_attempts ls d d' id : browser_trace cfg ls d d' → browser_ok d → challenge_left id d' + attempts id ls <= challenge_left id d.
Proof.
  induction 1 as [d|l ls d d1 d2 Hs _ IH]; intros Hd; cbn; [lia|]. pose proof (step_attempts _ _ _ id Hs Hd).
  specialize (IH (browser_step_ok _ _ _ _ Hs Hd)). fold (attempts id ls). lia.
Qed.
Lemma trace_app ls ls' d d' : browser_trace cfg (ls ++ ls') d d' ↔ ∃ d1, browser_trace cfg ls d d1 ∧ browser_trace cfg ls' d1 d'.
Proof.
  revert d. induction ls as [|l ls IH]; intros d; cbn.
  - split; [intros H; exists d; split; [constructor|done]|]. intros (d1 & H & ?). by inversion H; subst.
  - split.
    + intros H. inversion H as [|? ? ? d1 ? Hs Ht]; subst. apply IH in Ht as (d2 & H1 & H2). exists d2. split; [by econstructor|done].
    + intros (d2 & H & H2). inversion H as [|? ? ? d1 ? Hs Ht]; subst. econstructor; [done|]. apply IH. by exists d2.
Qed.
Lemma trace_cons l ls d d' : browser_trace cfg (l :: ls) d d' ↔ ∃ d1, browser_step cfg l d d1 ∧ browser_trace cfg ls d1 d'.
Proof.
  split; [|intros (d1 & ? & ?); by econstructor]. intros H. inversion H; subst. eauto.
Qed.
Lemma attempts_nonneg id ls : 0 <= attempts id ls.
Proof. induction ls as [|l ls IH]; cbn; [lia|]. fold (attempts id ls). destruct l; cbn; [lia|destruct (_ =? _); lia|destruct (_ =? _); lia|lia..]. Qed.

(** C23: over any execution a challenge takes at most five verification
    attempts, accepted or rejected, and none after one was accepted. *)
Theorem challenge_attempts ls d d' : browser_reachable cfg d → browser_trace cfg ls d d' →
  (∀ id, attempts id ls <= 5) ∧
  (∀ before f c after, ls = before ++ LAccepted f c :: after → attempts (ch_id c) after = 0).
Proof.
  intros Hd%browser_reachable_ok Ht. split.
  - intros id. pose proof (trace_attempts ls d d' id Ht Hd) as Ha. pose proof (challenge_left_bounds id d Hd) as Hb.
    pose proof (challenge_left_bounds id d' (browser_trace_ok _ _ _ _ Ht Hd)). change MaxFailures with 5 in *. lia.
  - intros before f c after ->. apply trace_app in Ht as (d1 & H1 & (d2 & Hs & H2)%trace_cons).
    pose proof (browser_trace_ok _ _ _ _ H1 Hd) as Hd1. pose proof (browser_step_ok _ _ _ _ Hs Hd1) as Hd2.
    pose proof (browser_step_cases cfg _ _ _ Hs Hd1) as Hacc. cbn in Hacc. pose proof (accepted_left cfg f c d1 d2 (ch_id c) Hd1 Hacc) as Hl.
    rewrite Z.eqb_refl in Hl. pose proof (trace_attempts after d2 d' (ch_id c) H2 Hd2). pose proof (attempts_nonneg (ch_id c) after).
    pose proof (challenge_left_bounds (ch_id c) d' (browser_trace_ok _ _ _ _ H2 Hd2)). lia.
Qed.
End Attempts.

(** ** Credentials *)

Section Credentials.
Context {aead : Aead} (cfg : StoreConfig).

Definition enrollments_are x (d : bdb) : Prop := b_enrollments d = x.
Lemma enrollments_stable x : stable (enrollments_are x).
Proof using Type.
  constructor; try done.
  - intros d d' (E & _). unfold enrollments_are. by rewrite E.
  - intros row _ d y d' Hd. unfold insert_challenge. cbn zeta. destruct (exists_row _ _); [done|]. destruct (negb _); [done|]. by intros [= _ <-].
Qed.
Definition code_is (user : Z) (hash : string) x (d : bdb) : Prop := b_codes d !! (user, hash) = x.
Lemma code_stable user hash x : stable (code_is user hash x).
Proof using Type.
  constructor; try done.
  - intros d d' (_ & E & _). unfold code_is. by rewrite E.
  - intros row _ d y d' Hd. unfold insert_challenge. cbn zeta. destruct (exists_row _ _); [done|]. destruct (negb _); [done|]. by intros [= _ <-].
Qed.
Lemma insert_codes_enrollments x id codes : preserves (enrollments_are x) (insert_codes id codes).
Proof using Type.
  induction codes as [|code codes IH]; [apply preserves_ret|]. apply preserves_bind; [|intros _; exact IH].
  intros d u d' Hd. destruct (b_codes d !! _); [done|]. by intros [= _ <-].
Qed.
Lemma insert_codes_other user hash x id codes : user ≠ id → preserves (code_is user hash x) (insert_codes id codes).
Proof using Type.
  intros Hne. induction codes as [|code codes IH]; [apply preserves_ret|]. apply preserves_bind; [|intros _; exact IH].
  intros d u d' Hd. destruct (b_codes d !! _); [done|]. intros [= _ <-]. unfold code_is. cbn. rewrite lookup_insert_ne; [done|congruence].
Qed.
Lemma recovery_enrollments x random id : preserves (enrollments_are x) (replaceRecovery random id).
Proof using Type.
  unfold replaceRecovery. apply preserves_bind; [by apply preserves_modify|]. intros _. apply preserves_bind; [apply insert_codes_enrollments|auto with tx].
Qed.
Lemma delete_codes_other user hash x id d : user ≠ id → code_is user hash x d → code_is user hash x (delete_codes id d).
Proof using Type.
  intros Hne <-. unfold code_is, delete_codes. cbn. destruct (b_codes d !! (user, hash)) as [y|] eqn:E.
  - apply map_lookup_filter_Some. split; [done|]. cbn. by apply Z.eqb_neq.
  - apply map_lookup_filter_None. by left.
Qed.
Lemma recovery_other user hash x random id : user ≠ id → preserves (code_is user hash x) (replaceRecovery random id).
Proof using Type.
  intros Hne. unfold replaceRecovery. apply preserves_bind; [apply preserves_modify; intros d; by apply delete_codes_other|]. intros _.
  apply preserves_bind; [by apply insert_codes_other|auto with tx].
Qed.
Lemma session_enrollments x params now : preserves (enrollments_are x) (CreateSessionIn params now).
Proof using Type. intros d a d' Hd H. eapply (session_credentials (x, b_codes d)) in H; [|by rewrite <- Hd]. by injection H. Qed.
Lemma session_code user hash x params now : preserves (code_is user hash x) (CreateSessionIn params now).
Proof using Type.
  intros d a d' Hd H. eapply (session_credentials (b_enrollments d, b_codes d)) in H; [|done]. unfold code_is. by injection H as _ ->.
Qed.
Lemma fulfil_enrollments x c id session random attribution codes now : preserves (enrollments_are x) (fulfil cfg c id session random attribution codes now).
Proof using Type.
  apply fulfil_stable; [apply enrollments_stable|intros _ params n; apply session_enrollments|intros _; apply recovery_enrollments].
Qed.
Lemma fulfil_code user hash x c id session random attribution codes now : (ch_purpose c = Regenerate → user ≠ id) →
  preserves (code_is user hash x) (fulfil cfg c id session random attribution codes now).
Proof using Type.
  intros Hne. apply fulfil_stable; [apply code_stable|intros _ params n; apply session_code|intros E; by apply recovery_other, Hne].
Qed.

(** What the accepted factor did to the credentials. *)
Lemma accepted_credentials f c d d' : accepted cfg f c d d' →
  (∀ user, user ≠ ch_user c → b_enrollments d' !! user = b_enrollments d !! user) ∧
  match f with
  | FSetup n => ∀ e, b_enrollments d' !! ch_user c = Some e → en_last e = n
  | FTotp n => ∃ e e', b_enrollments d !! ch_user c = Some e ∧ b_enrollments d' !! ch_user c = Some e' ∧ en_last e < n ∧ en_last e' = n
  | FRecovery _ => b_enrollments d' = b_enrollments d
  end.
Proof using Type.
  intros (token & input & now & now' & _ & Hf & random & session & at_ & codes & d1 & v & Hsp & Hful).
  apply (fulfil_enrollments (b_enrollments d1)) in Hful; [|done]. unfold enrollments_are in Hful. rewrite Hful. clear Hful.
  destruct f as [n|n|h]; unfold spend_factor in Hsp.
  - apply tx_bind_Ok in Hsp as (secret & d2 & [x [_ [= -> ->]]]%tx_lift_Ok & Hsp).
    apply tx_bind_Ok in Hsp as (encoded & d2 & [x' [_ [= -> ->]]]%tx_lift_Ok & Hsp). apply tx_bind_Ok in Hsp as (u & d2 & Hen & Hsp).
    assert (H1 : b_enrollments d1 = b_enrollments d2).
    { apply tx_bind_Ok in Hsp as (cs & d3 & Hre & Hsp). apply (recovery_enrollments (b_enrollments d2)) in Hre; [|done].
      apply tx_bind_Ok in Hsp as (u1 & d4 & (row & _ & [= _ ->])%Append_browser & [= _ <-]). exact Hre. }
    rewrite H1. destruct (bool_decide _).
    + destruct (b_enrollments d !! ch_user c) eqn:E; [done|]. injection Hen as _ <-. cbn. split.
      * intros user Hne. by rewrite lookup_insert_ne.
      * intros e. rewrite lookup_insert_eq. by intros [= <-].
    + injection Hen as _ <-. cbn. split.
      * intros user Hne. by rewrite lookup_alter_ne.
      * intros e. rewrite lookup_alter_eq. intros (e0 & _ & ->)%fmap_Some. done.
  - apply tx_bind_Ok in Hsp as (u & d2 & [= _ <-] & [= _ <-]). cbn. split; [intros user Hne; by rewrite lookup_alter_ne|].
    destruct Hf as (_ & e & secret & He & _ & _ & _ & Hlt). exists e. rewrite lookup_alter_eq, He. eexists. done.
  - apply tx_bind_Ok in Hsp as (u & d2 & [= _ <-] & Hsp). apply tx_bind_Ok in Hsp as (u1 & d3 & (row & _ & [= _ ->])%Append_browser & [= _ <-]). done.
Qed.

(** New codes are handed out by a setup and by regeneration. *)
Definition new_secret (user : Z) (l : browser_label) : bool :=
  match l with LAccepted (FSetup _) c => ch_user c =? user | _ => false end.
Definition new_codes (user : Z) (l : browser_label) : bool :=
  match l with
  | LAccepted f c => (ch_user c =? user) && (match f with FSetup _ => true | _ => false end || bool_decide (ch_purpose c = Regenerate))
  | _ => false
  end.
Definition unused (d : bdb) (user : Z) (hash : string) : Prop := b_codes d !! (user, hash) = Some None.

Lemma spend_code f c id random attribution now d codes d1 user hash : spend_factor f c id random attribution now d = Ok (codes, d1) →
  (user ≠ id ∨ ∀ n, f ≠ FSetup n) →
  b_codes d1 !! (user, hash) = b_codes d !! (user, hash) ∨
  ∃ time, b_codes d1 !! (user, hash) = (λ used, match used with None => Some time | _ => used end) <$> b_codes d !! (user, hash).
Proof using Type.
  intros Hsp Hne. destruct f as [n|n|h]; unfold spend_factor in Hsp; [left|left|].
  - destruct Hne as [Hne|Hne]; [|by destruct (Hne n)]. change (code_is user hash (b_codes d !! (user, hash)) d1).
    apply tx_bind_Ok in Hsp as (secret & d2 & [x [_ [= -> ->]]]%tx_lift_Ok & Hsp).
    apply tx_bind_Ok in Hsp as (encoded & d2 & [x' [_ [= -> ->]]]%tx_lift_Ok & Hsp). apply tx_bind_Ok in Hsp as (u & d2 & Hen & Hsp).
    assert (H2 : code_is user hash (b_codes d !! (user, hash)) d2).
    { destruct (bool_decide _); [destruct (b_enrollments d !! id); [done|]|]; by injection Hen as _ <-. }
    apply tx_bind_Ok in Hsp as (cs & d3 & Hre & Hsp). eapply (recovery_other user hash) in Hre; [|exact Hne|exact H2].
    by apply tx_bind_Ok in Hsp as (u1 & d4 & (row & _ & [= _ ->])%Append_browser & [= _ <-]).
  - by apply tx_bind_Ok in Hsp as (u & d2 & [= _ <-] & [= _ <-]).
  - apply tx_bind_Ok in Hsp as (u & d2 & [= _ <-] & Hsp). apply tx_bind_Ok in Hsp as (u1 & d3 & (row & _ & [= _ ->])%Append_browser & [= _ <-]).
    cbn. destruct (decide ((user, hash) = (id, h))) as [[= -> ->]|Hk]; [right|left; by rewrite lookup_alter_ne].
    exists now. by rewrite lookup_alter_eq.
Qed.
Lemma accepted_codes f c d d' user hash : accepted cfg f c d d' → new_codes user (LAccepted f c) = false → ¬ unused d user hash → ¬ unused d' user hash.
Proof using Type.
  intros (token & input & now & now' & _ & Hf & random & session & at_ & codes & d1 & v & Hsp & Hful) Hnew Hun. cbn in Hnew.
  assert (Hside : (user ≠ ch_user c ∨ ∀ n, f ≠ FSetup n) ∧ (ch_purpose c = Regenerate → user ≠ ch_user c)).
  { apply andb_false_iff in Hnew as [Hne|[Hs Hr]%orb_false_iff]; [split; [left|intros _]; lia|]. apply bool_decide_eq_false in Hr.
    split; [right; intros n ->; done|done]. }
  destruct Hside as [Hsetup Hreg]. eapply (fulfil_code user hash (b_codes d1 !! (user, hash))) in Hful; [|exact Hreg|done].
  unfold code_is in Hful. unfold unused in *. rewrite Hful.
  destruct (spend_code f c (ch_user c) random at_ now' d codes d1 user hash Hsp Hsetup) as [->|[time ->]]; [done|].
  destruct (b_codes d !! (user, hash)) as [[]|]; cbn; congruence.
Qed.
Lemma accepted_recovery h c d d' : accepted cfg (FRecovery h) c d d' →
  unused d (ch_user c) h ∧ (ch_purpose c ≠ Regenerate → ¬ unused d' (ch_user c) h).
Proof using Type.
  intros (token & input & now & now' & _ & Hf & random & session & at_ & codes & d1 & v & Hsp & Hful).
  destruct Hf as (_ & _ & Hun & _). split; [exact Hun|]. intros Hreg.
  eapply (fulfil_code (ch_user c) h (b_codes d1 !! (ch_user c, h))) in Hful; [|done|done]. unfold code_is in Hful. unfold unused. rewrite Hful.
  unfold spend_factor in Hsp. apply tx_bind_Ok in Hsp as (u & d2 & [= _ <-] & Hsp).
  apply tx_bind_Ok in Hsp as (u1 & d3 & (row & _ & [= _ ->])%Append_browser & [= _ <-]). cbn. rewrite lookup_alter_eq, Hun. done.
Qed.
Lemma Reset_credentials target actor session attribution now now' d d' :
  Reset cfg target actor session attribution now now' d = Ok (tt, d') →
  b_enrollments d' = delete target (b_enrollments d) ∧ b_codes d' = filter (λ r, (r.1.1 =? target) = false) (b_codes d).
Proof using Type.
  unfold Reset. destruct (_ || _); [done|]. cbn zeta. intros (u & d1 & ->%lock_users_readonly & Hrun)%tx_bind_Ok.
  apply tx_bind_Ok in Hrun as (at_ & d1 & Hat & Hrun). assert (d1 = d) as ->.
  { destruct (actor =? 0); [by injection Hat as _ <-|]. apply tx_bind_Ok in Hat as (s & d2 & ->%lockSession_readonly & Hat).
    destruct (_ || _ || _); [done|]. apply tx_bind_Ok in Hat as (b & d2 & [= _ <-] & Hat). destruct (negb b); [done|]. by injection Hat as _ <-. }
  apply tx_bind_Ok in Hrun as (u1 & d1 & [= _ <-] & Hrun). apply tx_bind_Ok in Hrun as (u2 & d1 & [= _ <-] & Hrun).
  apply tx_bind_Ok in Hrun as (u3 & d1 & Hcl & (row & _ & [= ->])%Append_browser). unfold clearChallengesSessions in Hcl.
  apply tx_bind_Ok in Hcl as (u4 & d2 & [= _ <-] & [= _ <-]). done.
Qed.
Lemma rejected_credentials c d d' : rejected c d d' → b_enrollments d' = b_enrollments d ∧ b_codes d' = b_codes d.
Proof using Type.
  intros (token & now & _ & session & now' & exhausted & at_ & _ & ->).
  assert (Hap : ∀ e d0, (b_enrollments (append_best_effort e d0), b_codes (append_best_effort e d0)) = (b_enrollments d0, b_codes d0)).
  { intros e d0. by apply (best_effort_stable _ (credentials_stable (b_enrollments d0, b_codes d0))). }
  destruct exhausted; cbn [foldl andb]; [destruct (isSome (ch_session c))|]; rewrite <- (pair_equal_spec _ _ _ _) , ?Hap; done.
Qed.
End Credentials.

(** ** Factors over executions *)

Section Factors.
Context {aead : Aead} (cfg : StoreConfig).

(** Counters up to [n] are spent. *)
Definition spent_counter (user n : Z) (d : bdb) : Prop := ∀ e, b_enrollments d !! user = Some e → n <= en_last e.
Definition counter_of (f : factor) : option Z := match f with FSetup n | FTotp n => Some n | FRecovery _ => None end.

Lemma step_spent l d d' user n : browser_step cfg l d d' → browser_ok d → new_secret user l = false → spent_counter user n d → spent_counter user n d'.
Proof.
  intros Hstep Hd Hl Hn. pose proof (browser_step_cases cfg l d d' Hstep Hd) as Hcase.
  assert (Hsame : b_enrollments d' !! user = b_enrollments d !! user → spent_counter user n d') by (unfold spent_counter; by intros ->).
  destruct l as [|f c|c|target|requester|].
  1, 5, 6: apply Hsame; by rewrite (Hcase _ (enrollments_stable (b_enrollments d)) eq_refl).
  - apply accepted_credentials in Hcase as [Hother Hf]. destruct (decide (user = ch_user c)) as [->|Hne]; [|by apply Hsame, Hother].
    destruct f as [m|m|h]; cbn in Hl; [by rewrite Z.eqb_refl in Hl| |apply Hsame; by rewrite Hf].
    destruct Hf as (e & e' & He & He' & Hlt & Hm). intros e0 He0. specialize (Hn e He). assert (e0 = e') as -> by congruence. lia.
  - apply rejected_credentials in Hcase as [E _]. apply Hsame. by rewrite E.
  - destruct Hcase as (actor & session & at_ & now & now' & [E _]%Reset_credentials). intros e. rewrite E. intros [_ He]%lookup_delete_Some. by apply Hn.
Qed.
Lemma step_used l d d' user hash : browser_step cfg l d d' → browser_ok d → new_codes user l = false → ¬ unused d user hash → ¬ unused d' user hash.
Proof.
  intros Hstep Hd Hl Hn. pose proof (browser_step_cases cfg l d d' Hstep Hd) as Hcase.
  destruct l as [|f c|c|target|requester|].
  1, 5, 6: unfold unused in *; by rewrite (Hcase _ (code_stable user hash (b_codes d !! (user, hash))) eq_refl).
  - by eapply accepted_codes.
  - apply rejected_credentials in Hcase as [_ E]. unfold unused in *. by rewrite E.
  - destruct Hcase as (actor & session & at_ & now & now' & [_ E]%Reset_credentials). unfold unused in *. rewrite E. by intros [? _]%map_lookup_filter_Some.
Qed.
Lemma trace_keeps (P : bdb → Prop) (quiet : browser_label → bool) ls d d' :
  (∀ l d d', browser_step cfg l d d' → browser_ok d → quiet l = false → P d → P d') →
  browser_trace cfg ls d d' → browser_ok d → Forall (λ l, quiet l = false) ls → P d → P d'.
Proof.
  intros Hstep Ht. induction Ht as [d|l ls d d1 d2 Hs _ IH]; [done|]. intros Hd [Hl Hls]%Forall_cons HP.
  apply IH; [by eapply browser_step_ok|done|by eapply Hstep].
Qed.

(** C13: over any execution a factor is accepted once. The one-time codes
    accepted for a user come from strictly later time steps, until a new
    secret is set up; and a recovery code that was accepted is not accepted
    again, until new codes are handed out. *)
Theorem factors_accepted_once d d' f1 c1 f2 c2 before between after : browser_reachable cfg d →
  browser_trace cfg (before ++ LAccepted f1 c1 :: between ++ LAccepted f2 c2 :: after) d d' → ch_user c1 = ch_user c2 →
  (∀ n m, counter_of f1 = Some n → f2 = FTotp m → Forall (λ l, new_secret (ch_user c1) l = false) between → n < m) ∧
  (∀ hash, f1 = FRecovery hash → f2 = FRecovery hash →
     Forall (λ l, new_codes (ch_user c1) l = false) (LAccepted f1 c1 :: between) → False).
Proof.
  intros Hd%browser_reachable_ok (d1 & H1 & (d2 & Hs1 & (d3 & H2 & (d4 & Hs2 & _)%trace_cons)%trace_app)%trace_cons)%trace_app Huser.
  pose proof (browser_trace_ok _ _ _ _ H1 Hd) as Hd1. pose proof (browser_step_ok _ _ _ _ Hs1 Hd1) as Hd2.
  pose proof (browser_trace_ok _ _ _ _ H2 Hd2) as Hd3.
  pose proof (browser_step_cases cfg _ _ _ Hs1 Hd1) as Ha1. pose proof (browser_step_cases cfg _ _ _ Hs2 Hd3) as Ha2. cbn in Ha1, Ha2. split.
  - intros n m Hn -> Hquiet. apply accepted_credentials in Ha1 as [_ Hf1], Ha2 as [_ (e & e' & He & _ & Hlt & _)].
    assert (Hspent : spent_counter (ch_user c1) n d2).
    { intros e0 He0. destruct f1 as [k|k|]; cbn in Hn; [injection Hn as ->; by rewrite (Hf1 e0 He0)| |done]. injection Hn as ->.
      destruct Hf1 as (? & e1 & _ & He1 & _ & <-). assert (e0 = e1) as -> by congruence. done. }
    eapply (trace_keeps (spent_counter (ch_user c1) n) (new_secret (ch_user c1))) in Hspent; [|intros; by eapply step_spent|exact H2|done|done].
    rewrite <- Huser in He. specialize (Hspent e He). lia.
  - intros hash -> -> [Hl Hquiet]%Forall_cons. apply accepted_recovery in Ha1 as [_ Hused], Ha2 as [Hun _].
    assert (Hnot : ¬ unused d2 (ch_user c1) hash).
    { apply Hused. intros E. cbn in Hl. by rewrite Z.eqb_refl, bool_decide_true in Hl. }
    eapply (trace_keeps (λ d, ¬ unused d (ch_user c1) hash) (new_codes (ch_user c1))) in Hnot; [|intros; by eapply step_used|exact H2|done|done].
    by rewrite <- Huser in Hun.
Qed.

(** ** Sessions *)

Lemma reject_within ids c d d' : rejected c d d' → sessions_within ids d → sessions_within ids d'.
Proof.
  intros (token & now & _ & session & now' & exhausted & at_ & _ & ->) Hd.
  pose proof (best_effort_stable _ (within_stable ids)) as Hap. pose proof (within_delete ids) as Hdel.
  destruct exhausted; cbn [foldl andb]; [destruct (isSome (ch_session c))|]; repeat apply Hap; try apply Hdel; exact Hd.
Qed.

(** A session that was not there comes from [fulfil] of a sign-in. *)
Lemma fulfil_login c id session random attribution codes now d v d' : login_purpose (ch_purpose c) = true →
  fulfil cfg c id session random attribution codes now d = Ok (v, d') →
  ∃ s, b_sessions d' = <[b_next_session d := s]> (b_sessions d) ∧
    s = mkSession (b_next_session d) id None (HashToken (GenerateToken (vr_token random))) (ch_remember c)
      (now + if ch_remember c then RememberLifetime cfg else Lifetime cfg) now now.
Proof.
  intros Hp. unfold fulfil. cbn zeta. destruct (ch_purpose c); try done.
  all: intros (s & d1 & Hcs & Hrun)%tx_bind_Ok; unfold CreateSessionIn in Hcs; repeat match type of Hcs with (if ?x then _ else _) _ = _ => destruct x; [done|] end.
  all: cbn zeta in Hcs; apply tx_bind_Ok in Hcs as (n & d2 & Hins & [= <- <-]); unfold insert_session in Hins; cbn zeta in Hins.
  all: repeat match type of Hins with (if ?x then _ else _) = _ => destruct x; [done|] end; injection Hins as <- <-.
  all: apply tx_bind_Ok in Hrun as (u & d2 & [= _ <-] & Hrun); apply tx_bind_Ok in Hrun as (u1 & d3 & (row & _ & [= _ ->])%Append_browser & [= _ <-]).
  all: by eexists.
Qed.
Definition sessions_are x (d : bdb) : Prop := (b_sessions d, b_next_session d) = x.
Lemma codes_sessions x id codes : preserves (sessions_are x) (insert_codes id codes).
Proof.
  induction codes as [|code codes IH]; [apply preserves_ret|]. apply preserves_bind; [|intros _; exact IH].
  intros d u d' Hd. destruct (b_codes d !! _); [done|]. by intros [= _ <-].
Qed.
Lemma append_sessions x event : preserves (sessions_are x) (Append event).
Proof. intros d u d' Hd (row & _ & [= _ ->])%Append_browser. done. Qed.
Lemma modify_sessions x f : (∀ d, (b_sessions (f d), b_next_session (f d)) = (b_sessions d, b_next_session d)) → preserves (sessions_are x) (tx_modify f).
Proof. intros Hf. apply preserves_modify. intros d Hd. unfold sessions_are. by rewrite Hf. Qed.
Hint Resolve codes_sessions append_sessions : tx.
Lemma spend_sessions x f c id random attribution now : preserves (sessions_are x) (spend_factor f c id random attribution now).
Proof.
  destruct f; unfold spend_factor, replaceRecovery; tx_preserves; try by apply modify_sessions.
  intros d u d' Hd. destruct (b_enrollments d !! id); [done|]. by intros [= _ <-].
Qed.

(** C12: every new session comes from an accepted verification of a sign-in
    challenge that was open, by a valid factor of the challenge's user at
    that time; it is that user's own session. *)
Theorem sessions_need_factors l d d' id s : browser_reachable cfg d → browser_step cfg l d d' →
  b_sessions d !! id = None → b_sessions d' !! id = Some s →
  ∃ f c token input now now', l = LAccepted f c ∧ challenge_open d token now c ∧ login_purpose (ch_purpose c) = true ∧
    factor_valid d c input now' f ∧ se_user s = ch_user c ∧ se_impersonated s = None ∧ se_verified s = now' ∧
    se_expires s = now' + if ch_remember c then RememberLifetime cfg else Lifetime cfg.
Proof.
  intros Hd%browser_reachable_ok Hstep Hnone Hsome. pose proof (browser_step_cases cfg _ _ _ Hstep Hd) as Hcase.
  assert (Hnew : ¬ sessions_within (dom (b_sessions d)) d').
  { intros Hin. apply not_elem_of_dom in Hnone. apply Hnone, Hin. by eapply elem_of_dom_2. }
  assert (Hwithin : sessions_within (dom (b_sessions d)) d) by (unfold sessions_within; reflexivity).
  destruct l as [|f c|c|target|requester|].
  1, 5, 6: by destruct Hnew; apply (Hcase _ (within_stable _)).
  - destruct Hcase as (token & input & now & now' & Hopen & Hf & random & session & at_ & codes & d1 & v & Hsp & Hful).
    exists f, c, token, input, now, now'. split; [done|]. split; [done|].
    pose proof (spend_sessions (b_sessions d, b_next_session d) _ _ _ _ _ _ d _ _ eq_refl Hsp) as Es. injection Es as Es En.
    destruct (login_purpose (ch_purpose c)) eqn:Ep.
    + split; [done|]. split; [done|]. destruct (fulfil_login _ _ _ _ _ _ _ _ _ _ Ep Hful) as (s' & E & Hs'). unfold consumed_in in E, Hs'. cbn in E, Hs'.
      rewrite Es, En in E. rewrite E in Hsome. apply lookup_insert_Some in Hsome as [[_ ->]|[_ Hold]]; [|congruence]. by rewrite Hs'.
    + destruct Hnew.
      assert (Hpre : preserves (sessions_within (dom (b_sessions d))) (fulfil cfg c (ch_user c) session random at_ codes now')).
      { apply (fulfil_stable cfg _ (within_stable _)); [by rewrite Ep|]. intros _. apply neutral_recovery, within_neutral. }
      eapply Hpre; [|exact Hful]. unfold sessions_within, consumed_in. cbn. by rewrite Es.
  - destruct Hnew. by eapply reject_within.
  - destruct Hcase as (actor & session & at_ & now & now' & Hr). destruct Hnew.
    eapply (Reset_neutral cfg _ target actor session at_ now now' (within_stable _) (within_neutral _)); [exact Hwithin|exact Hr].
Qed.

Lemma lock_users_Ok actor ids d r : lock_users actor ids d = Ok r → actor ∈ ids → is_active d actor = true.
Proof.
  revert d r. induction ids as [|id ids IH]; intros d r; [by intros _ ?%elem_of_nil|]. cbn. intros (u & d1 & Hl & Hrun)%tx_bind_Ok Hin.
  unfold lockUser in Hl. destruct (b_users d !! id) as [u'|] eqn:Eu; [|done]. injection Hl as <- <-. destruct (_ && _) eqn:E in Hrun; [done|].
  apply elem_of_cons in Hin as [->|Hin]; [|by eapply IH]. rewrite Z.eqb_refl in E. apply is_active_true. exists u'. split; [done|].
  by apply negb_false_iff.
Qed.

(** A reset removes the target's authenticator, recovery codes,
    challenges and sessions and nobody else's; unless an operator asked for
    it, it takes another user with a live session of their own, verified in
    the last ten minutes, whose role may reset or is the administrators'. *)
Theorem Reset_removes target actor session attribution now now' d d' : browser_reachable cfg d →
  Reset cfg target actor session attribution now now' d = Ok (tt, d') →
  (b_enrollments d' = delete target (b_enrollments d) ∧ (∀ user hash, b_codes d' !! (user, hash) = if user =? target then None else b_codes d !! (user, hash)) ∧
   (∀ id s, b_sessions d' !! id = Some s ↔ b_sessions d !! id = Some s ∧ se_user s ≠ target) ∧
   (∀ id c, b_challenges d' !! id = Some c ↔ b_challenges d !! id = Some c ∧ ch_user c ≠ target) ∧ accounts d' = accounts d) ∧
  (actor ≠ 0 → actor ≠ target ∧ is_active d actor = true ∧ has_permission d actor "users.mfa.reset" = true ∧
     ∃ s, b_sessions d !! session = Some s ∧ se_user s = actor ∧ se_impersonated s = None ∧ now < se_expires s ∧ Recent (se_verified s) now' = true).
Proof.
  intros Hd%browser_reachable_ok Hrun. pose proof (Reset_credentials cfg _ _ _ _ _ _ _ _ Hrun) as [Een Eco].
  pose proof (Reset_accounts cfg (accounts d) _ _ _ _ _ _ d tt d' eq_refl Hrun) as Eac. revert Hrun.
  unfold Reset. destruct (_ || _) eqn:Eg; [done|]. cbn zeta. intros (u & d1 & Hlock & Hrun)%tx_bind_Ok.
  pose proof Hlock as ->%lock_users_readonly. apply tx_bind_Ok in Hrun as (at_ & d1 & Hat & Hrun).
  assert (Hsess : d1 = d ∧ (actor ≠ 0 → has_permission d actor "users.mfa.reset" = true ∧
    ∃ s, b_sessions d !! session = Some s ∧ se_user s = actor ∧ se_impersonated s = None ∧ now < se_expires s ∧ Recent (se_verified s) now' = true)).
  { destruct (actor =? 0) eqn:E0; [injection Hat as _ <-; split; [done|lia]|]. apply tx_bind_Ok in Hat as (s & d2 & Hls & Hat).
    apply lockSession_Ok in Hls as (-> & Hs & Hu & Hx & _); [|done]. destruct (_ || _ || _) eqn:Eo; [done|]. rewrite !orb_false_iff in Eo.
    destruct Eo as [[_ Ei] Er]. apply tx_bind_Ok in Hat as (b & d2 & [= <- <-] & Hat). destruct (negb _) eqn:Ep in Hat; [done|]. injection Hat as _ <-.
    split; [done|]. intros _. apply negb_false_iff in Er, Ep. split; [done|]. exists s. split; [done|]. split; [done|].
    split; [by destruct (se_impersonated s)|done]. }
  destruct Hsess as [-> Hsess]. apply tx_bind_Ok in Hrun as (u1 & d1 & [= _ <-] & Hrun). apply tx_bind_Ok in Hrun as (u2 & d1 & [= _ <-] & Hrun).
  apply tx_bind_Ok in Hrun as (u3 & d1 & Hcl & (row & _ & [= E'])%Append_browser). unfold clearChallengesSessions in Hcl.
  apply tx_bind_Ok in Hcl as (u4 & d2 & [= _ <-] & [= _ <-]). split; [|intros Ha].
  - split; [done|]. split; [|split; [|split; [|done]]].
    + intros user hash. rewrite Eco. destruct (user =? target) eqn:Et.
      * apply map_lookup_filter_None. right. intros x _. cbn. by rewrite Et.
      * destruct (b_codes d !! (user, hash)) eqn:Ec; [by apply map_lookup_filter_Some|apply map_lookup_filter_None; by left].
    + intros id s. rewrite E'. cbn. rewrite map_lookup_filter_Some. cbn. by rewrite Z.eqb_neq.
    + intros id c. rewrite E'. cbn. rewrite !map_lookup_filter_Some. cbn. rewrite Z.eqb_neq. split; [by intros [[? ?] _]|]. intros [Hc Hne].
      split; [done|]. destruct Hd as (_ & _ & _ & Hcok & _). destruct (Hcok id c Hc) as (_ & _ & _ & _ & Hse & _).
      unfold session_alive. destruct (ch_session c) as [se|] eqn:Ese; [|done]. destruct (Hse se eq_refl) as (s & Hs & Hu).
      assert (E2 : filter (λ r, (se_user r.2 =? target) = false) (b_sessions d) !! se = Some s).
      { apply map_lookup_filter_Some. split; [done|]. cbn. apply Z.eqb_neq. congruence. }
      cbn. rewrite E2. done.
  - apply orb_false_iff in Eg as [_ Eg]. destruct (Hsess Ha) as [Hp Hs]. apply Z.eqb_neq in Ha as E0. rewrite E0 in Eg, Hlock. cbn in Eg.
    split; [lia|]. split; [|done]. eapply lock_users_Ok; [exact Hlock|]. destruct (actor <? target); set_solver.
Qed.
End Factors.
