(* ===== verification/BrowserAuth.v ===== *)
(** * Sign-in and session resolution
    (src/internal/browserauth/security.go, service.go and mfa.go)

    The throttle of failed sign-ins, the password step of a sign-in, and
    what a request's session token stands for.  Argon2 is the parameter
    [verifyPassword]; usernames arrive normalised. *)

From S2P Require Import Prelude Calendar Access AuditTrail Hash Table Totp Secrets BrowserStore Mfa UserAdmin Accounts BrowserInv BrowserSystem.
From stdpp Require Import gmap.

Open Scope Z_scope.

(** ** The throttle *)

Definition maxLoginFailureEntries : Z := 10000.
Record loginFailure := mkLoginFailure { lf_count : Z; lf_first : instant; lf_locked : instant }.
Record loginFailures := mkLoginFailures {
  lf_entries : gmap string loginFailure; lf_window : Z; lf_lockout : Z; lf_max : Z; lf_cleanup : instant }.
Definition set_entries (entries : gmap string loginFailure) (f : loginFailures) : loginFailures :=
  mkLoginFailures entries (lf_window f) (lf_lockout f) (lf_max f) (lf_cleanup f).
(** The zero value a missing key reads as. *)
Definition no_failure : loginFailure := mkLoginFailure 0 zero_time zero_time.
Definition failure_of (f : loginFailures) (username : string) : loginFailure := default no_failure (lf_entries f !! username).
Definition is_zero (t : instant) : bool := t =? zero_time.

Definition failure_stale (f : loginFailures) (now : instant) (entry : loginFailure) : bool :=
  if negb (is_zero (lf_locked entry)) then lf_locked entry <=? now else lf_first entry + lf_window f <=? now.
Definition cleanup (now : instant) (f : loginFailures) : loginFailures :=
  if now - lf_cleanup f <? Z.min minute (Z.min (lf_window f) (lf_lockout f)) then f else
  mkLoginFailures (filter (λ r, failure_stale f now r.2 = false) (lf_entries f)) (lf_window f) (lf_lockout f) (lf_max f) now.
Definition blocked (username : string) (now : instant) (f : loginFailures) : bool * loginFailures :=
  let f := cleanup now f in
  let entry := failure_of f username in
  (now <? lf_locked entry,
   if negb (is_zero (lf_locked entry)) && (lf_locked entry <=? now) then set_entries (delete username (lf_entries f)) f else f).
Definition fail (username : string) (now : instant) (f : loginFailures) : loginFailures :=
  let f := cleanup now f in
  let entry := failure_of f username in
  if now <? lf_locked entry then f else
  let entry :=
    if is_zero (lf_first entry) || (lf_first entry + lf_window f <=? now) || negb (is_zero (lf_locked entry))
    then mkLoginFailure 0 now zero_time else entry in
  if negb (isSome (lf_entries f !! username)) && (maxLoginFailureEntries <=? Z.of_nat (size (lf_entries f))) then f else
  let count := lf_count entry + 1 in
  let entry := mkLoginFailure count (lf_first entry) (if lf_max f <=? count then now + lf_lockout f else lf_locked entry) in
  set_entries (<[username := entry]> (lf_entries f)) f.
Definition clear (username : string) (f : loginFailures) : loginFailures := set_entries (delete username (lf_entries f)) f.

(** ** Sign-in *)

Definition MaxPasswordBytes : Z := 1024.
Definition MaxUsernameLength : Z := 191.
(** [ValidateUsername] of a normalised username. *)
Definition ValidateUsername (username : string) : bool :=
  negb (username =? "")%string && ValidString username && (Z.of_nat (length (runes username)) <=? MaxUsernameLength).
Inductive login_result := LoginIssued (issued : Issued) | LoginInvalid | LoginThrottled | LoginError (e : error).

Section Service.
Context {aead : Aead} (cfg : StoreConfig) (verifyPassword : string → string → result bool) (dummyHash : string).

(** Holding a slot: the throttle is asked again before Argon2 runs. *)
Definition verifyBounded (username password hash : string) (now : instant) (f : loginFailures) : option (result bool) * loginFailures :=
  let (locked, f) := blocked username now f in
  (if locked then None else Some (verifyPassword password hash), f).

Definition FindByUsername (username : string) (d : bdb) : option (Z * user_row) :=
  snd <$> list_find (λ r, us_username r.2 = username) (map_to_list (b_users d)).

Definition login_fails (username : string) (now : instant) (r : login_result) (f : loginFailures) : loginFailures :=
  match r with LoginInvalid => fail username now f | _ => f end.

(** [now]: the time of the request; [now']: the clock after the user is locked. *)
Definition Login (random : issue_random) (username password : string) (remember : bool) (next : string) (now now' : instant)
    (f : loginFailures) (d : bdb) : login_result * loginFailures * bdb :=
  if negb (ValidateUsername username) || (password =? "")%string || (MaxPasswordBytes <? Z.of_nat (String.length password)) then (LoginInvalid, f, d) else
  let (locked, f) := blocked username now f in
  if (locked : bool) then (LoginThrottled, f, d) else
  let '(r, f, d) :=
    match FindByUsername username d with
    | None =>
        let (verified, f) := verifyBounded username password dummyHash now f in
        (match verified with None => LoginThrottled | Some (Err e) => LoginError e | Some (Ok _) => LoginInvalid end, f, d)
    | Some (id, found) =>
        let (verified, f) := verifyBounded username password (us_password found) now f in
        match verified with
        | None => (LoginThrottled, f, d)
        | Some (Err e) => (LoginError e, f, d)
        | Some (Ok valid) =>
            if negb valid || negb (us_active found) then (LoginInvalid, f, d) else
            let f := clear username f in
            let (issued, d) := runTx (BeginLogin random id (us_password found) remember next now') d in
            (match issued with
             | Ok issued => LoginIssued issued
             | Err e => if bool_decide (e = mfa_ErrInvalid) then LoginInvalid else LoginError e
             end, f, d)
        end
    end in
  (r, login_fails username now r f, d).

(** The hash comes back and is compared again under the user's lock. *)
Definition ConfirmPassword (id : Z) (password : string) (now : instant) (f : loginFailures) (d : bdb) : result string * loginFailures :=
  if (password =? "")%string || (MaxPasswordBytes <? Z.of_nat (String.length password)) then (Err (Errorf "invalid username or password"), f) else
  match b_users d !! id with
  | None => (Err (Errorf "user not found"), f)
  | Some u =>
      let (verified, f) := verifyBounded (us_username u) password (us_password u) now f in
      (match verified with
       | None => Err (Errorf "login throttled")
       | Some (Err e) => Err e
       | Some (Ok valid) => if negb valid || negb (us_active u) then Err (Errorf "invalid username or password") else Ok (us_password u)
       end, f)
  end.
End Service.

(** ** Sessions of requests *)

Definition LastSeenTouchInterval : Z := 5 * minute.
Record Principal := mkPrincipal {
  pr_user : Z; pr_username : string; pr_role : Z; pr_slug : string; pr_permissions : PermissionSet; pr_verified : instant;
  pr_session : Z; pr_actor : Z; pr_actor_name : string; pr_actor_slug : string; pr_impersonating : bool }.
Definition principal_Can (p : Principal) (permission : string) : bool := IsAdminRole (pr_slug p) || Has (pr_permissions p) permission.
Definition SecurityContext (p : Principal) : Requester :=
  mkRequester (mkIdentity (pr_actor p) (pr_actor_name p)) (mkIdentity (pr_user p) (pr_username p)) (pr_role p) (pr_slug p) (pr_permissions p).
Definition auditAttributionFromPrincipal (p : Principal) : Attribution :=
  mkAttribution (Some (mkIdentity (pr_actor p) (pr_actor_name p))) (Some (mkIdentity (pr_user p) (pr_username p))).

Definition ErrUnauthenticated : error := Errorf "unauthenticated".
Definition revokeUnauthenticated (token_hash : string) (d : bdb) : result Principal * bdb := (Err ErrUnauthenticated, Revoke token_hash d).

Section Sessions.
Context (IdleTimeout : Z).

Definition touch (s : session_row) (now : instant) (d : bdb) : bdb :=
  if Z.min LastSeenTouchInterval (Z.quot IdleTimeout 2) <=? now - se_last_seen s then UpdateLastSeenAt (se_id s) now d else d.
Definition principal_of (s : session_row) (actor effective : Z * user_row * role_row) : Principal :=
  let '(aid, a, ar) := actor in let '(eid, e, er) := effective in
  mkPrincipal eid (us_username e) (us_role e) (rl_slug er)
    (if IsAdminRole (rl_slug er) then NewPermissionSet [] else NewPermissionSet (elements (rl_permissions er)))
    (se_verified s) (se_id s) aid (us_username a) (rl_slug ar) (isSome (se_impersonated s)).
Definition ResolveSession (token_hash : string) (now : instant) (d : bdb) : result Principal * bdb :=
  match FindValidSession token_hash now d with
  | Err _ => (Err ErrUnauthenticated, d)
  | Ok s =>
      if is_zero (se_verified s) || negb (now <? se_expires s) || negb (now <? se_last_seen s + IdleTimeout) then revokeUnauthenticated token_hash d else
      match identity_of (se_user s) d with
      | None => revokeUnauthenticated token_hash d
      | Some (a, ar) =>
          if negb (us_active a) then revokeUnauthenticated token_hash d else
          let actor := (se_user s, a, ar) in
          match se_impersonated s with
          | None => (Ok (principal_of s actor actor), touch s now d)
          | Some target =>
              if negb (IsAdminRole (rl_slug ar)) then revokeUnauthenticated token_hash d else
              match identity_of target d with
              | None => revokeUnauthenticated token_hash d
              | Some (e, er) =>
                  if negb (us_active e) || IsAdminRole (rl_slug er) then revokeUnauthenticated token_hash d
                  else (Ok (principal_of s actor (target, e, er)), touch s now d)
              end
          end
      end
  end.
Definition Logout_session (token_hash : string) : bdb → bdb := Revoke token_hash.

(** The challenge of a request: a session's challenge only for that session
    and user, never for another purpose than step-up while impersonating;
    a sign-in challenge only without a session. *)
Definition request_challenge (token : string) (principal : option Principal) (now : instant) (d : bdb) : result Challenge :=
  let? c := Get token now d in
  match ch_session c, principal with
  | Some session, Some p =>
      if negb (pr_session p =? session) || negb (pr_actor p =? ch_user c) then Err mfa_ErrInvalid
      else if negb (bool_decide (ch_purpose c = StepUp)) && pr_impersonating p then Err mfa_ErrInvalid else Ok c
  | Some _, None => Err mfa_ErrInvalid
  | None, Some _ => Err mfa_ErrInvalid
  | None, None => Ok c
  end.
End Sessions.

(** ** The throttle locks and stays bounded *)

Inductive throttle_op := OpBlocked (username : string) (now : instant) | OpFail (username : string) (now : instant) | OpClear (username : string).
Definition throttle (f : loginFailures) (op : throttle_op) : loginFailures :=
  match op with OpBlocked u now => (blocked u now f).2 | OpFail u now => fail u now f | OpClear u => clear u f end.
Definition op_time (op : throttle_op) : option instant := match op with OpBlocked _ now | OpFail _ now => Some now | OpClear _ => None end.
Definition op_clears (username : string) (op : throttle_op) : bool := match op with OpClear u => (u =? username)%string | _ => false end.

(** [username] is locked until [until]. *)
Definition locked_until (f : loginFailures) (username : string) (until : instant) : Prop := lf_locked (failure_of f username) = until.

Lemma failure_of_insert f u v entry : failure_of (set_entries (<[u := entry]> (lf_entries f)) f) v = if decide (v = u) then entry else failure_of f v.
Proof. unfold failure_of. cbn. destruct (decide (v = u)) as [->|]; [by rewrite lookup_insert_eq|by rewrite lookup_insert_ne]. Qed.
Lemma failure_of_delete f u v : u ≠ v → failure_of (set_entries (delete u (lf_entries f)) f) v = failure_of f v.
Proof. intros Hne. unfold failure_of. cbn. by rewrite lookup_delete_ne. Qed.
Lemma cleanup_locked f now u until : zero_time < until → now < until → locked_until f u until → failure_of (cleanup now f) u = failure_of f u.
Proof.
  intros Hz Hn Hl. unfold cleanup. destruct (_ <? _); [done|]. unfold locked_until, failure_of in *. cbn.
  destruct (lf_entries f !! u) as [entry|] eqn:E.
  - cbn in Hl. assert (E2 : filter (λ r, failure_stale f now r.2 = false) (lf_entries f) !! u = Some entry); [|by rewrite E2].
    apply map_lookup_filter_Some. split; [done|]. cbn.
    unfold failure_stale, is_zero. rewrite Hl. rewrite (proj2 (Z.eqb_neq _ _)) by lia. cbn. apply Z.leb_gt. lia.
  - assert (E2 : filter (λ r, failure_stale f now r.2 = false) (lf_entries f) !! u = None); [|by rewrite E2].
    apply map_lookup_filter_None. by left.
Qed.
Lemma throttle_locked f op u until : zero_time < until → locked_until f u until → op_clears u op = false →
  (∀ now, op_time op = Some now → now < until) → locked_until (throttle f op) u until.
Proof.
  intros Hz Hl Hc Ht. destruct op as [v now|v now|v]; cbn in *.
  - specialize (Ht now eq_refl). pose proof (cleanup_locked f now u until Hz Ht Hl) as Hcl. destruct (_ && _) eqn:E; [|unfold locked_until; by rewrite Hcl].
    destruct (decide (v = u)) as [->|Hne]; [|unfold locked_until; by rewrite failure_of_delete, Hcl].
    rewrite Hcl in E. unfold locked_until in Hl. lia.
  - specialize (Ht now eq_refl). pose proof (cleanup_locked f now u until Hz Ht Hl) as Hcl. unfold fail. cbn zeta.
    set (g := cleanup now f) in *. destruct (now <? lf_locked (failure_of g v)) eqn:E; [unfold locked_until; by rewrite Hcl|].
    destruct (_ && _); [unfold locked_until; by rewrite Hcl|]. unfold locked_until. rewrite failure_of_insert.
    destruct (decide (u = v)) as [->|]; [|by rewrite Hcl]. exfalso. rewrite Hcl in E. unfold locked_until in Hl. lia.
  - apply String.eqb_neq in Hc. unfold locked_until, clear. by rewrite failure_of_delete.
Qed.

Lemma cleanup_size now f : (size (lf_entries (cleanup now f)) ≤ size (lf_entries f))%nat.
Proof. unfold cleanup. destruct (_ <? _); [done|]. cbn. apply map_subseteq_size, map_filter_subseteq. Qed.
Lemma throttle_bounded f op : Z.of_nat (size (lf_entries f)) <= maxLoginFailureEntries → Z.of_nat (size (lf_entries (throttle f op))) <= maxLoginFailureEntries.
Proof.
  assert (Hdel : ∀ u (g : loginFailures), (size (delete u (lf_entries g)) ≤ size (lf_entries g))%nat) by (intros; apply map_subseteq_size, delete_subseteq).
  intros H. destruct op as [v now|v now|v]; cbn.
  - pose proof (cleanup_size now f). destruct (_ && _); cbn; [pose proof (Hdel v (cleanup now f))|]; lia.
  - unfold fail. cbn zeta. pose proof (cleanup_size now f). set (g := cleanup now f) in *. destruct (_ <? _); [lia|].
    destruct (_ && _) eqn:E; [lia|]. cbn. rewrite map_size_insert. destruct (lf_entries g !! v) as [e|]; cbn in *; [lia|].
    apply Z.leb_gt in E. lia.
  - pose proof (Hdel v f). lia.
Qed.

(** Failures of one username are counted within the window of the first. *)
Definition counting (u : string) (first k : Z) (f : loginFailures) : Prop :=
  lf_entries f !! u = Some (mkLoginFailure k first zero_time) ∧ 0 < k < lf_max f.
Definition op_fails (u : string) (op : throttle_op) : Z := match op with OpFail v _ => if (v =? u)%string then 1 else 0 | _ => 0 end.
Definition fails_in (u : string) (ops : list throttle_op) : Z := foldr (λ op n, op_fails u op + n) 0 ops.
Definition times_between (a b : instant) (ops : list throttle_op) : Prop := Forall (λ op, ∀ now, op_time op = Some now → a <= now < b) ops.

Lemma cleanup_counting f now u first k : zero_time < first → now < first + lf_window f → counting u first k f → counting u first k (cleanup now f).
Proof.
  intros Hz Hn [He Hk]. unfold cleanup. destruct (_ <? _); [done|]. split; [|done]. cbn. apply map_lookup_filter_Some. split; [done|]. cbn.
  unfold failure_stale, is_zero. cbn. rewrite Z.eqb_refl. cbn. lia.
Qed.
Lemma cleanup_config now f : lf_window (cleanup now f) = lf_window f ∧ lf_lockout (cleanup now f) = lf_lockout f ∧ lf_max (cleanup now f) = lf_max f.
Proof. unfold cleanup. by destruct (_ <? _). Qed.
Lemma throttle_config op f : lf_window (throttle f op) = lf_window f ∧ lf_lockout (throttle f op) = lf_lockout f ∧ lf_max (throttle f op) = lf_max f.
Proof.
  destruct op as [v now|v now|v]; cbn; [| |done]; pose proof (cleanup_config now f).
  - by destruct (_ && _).
  - unfold fail. cbn zeta. destruct (_ <? _); [done|]. by destruct (_ && _).
Qed.
Lemma throttle_counting f op u first k : zero_time < first → counting u first k f → op_clears u op = false →
  (∀ now, op_time op = Some now → first <= now < first + lf_window f) →
  if op_fails u op =? 0 then counting u first k (throttle f op)
  else match op_time op with
       | Some now => if lf_max f <=? k + 1 then locked_until (throttle f op) u (now + lf_lockout f) else counting u first (k + 1) (throttle f op)
       | None => False
       end.
Proof.
  intros Hz Hc Hcl Ht. destruct op as [v now|v now|v]; cbn [op_fails op_time op_clears throttle Z.eqb] in *.
  - specialize (Ht now eq_refl). pose proof (cleanup_counting f now u first k Hz (proj2 Ht) Hc) as [He Hk]. unfold blocked. cbn zeta.
    destruct (_ && _) eqn:E; cbn [snd]; [|done]. split; [|done]. cbn. destruct (decide (v = u)) as [->|Hne]; [|by rewrite lookup_delete_ne].
    exfalso. unfold failure_of in E. rewrite He in E. cbn in E. unfold is_zero in E. by rewrite Z.eqb_refl in E.
  - specialize (Ht now eq_refl). pose proof (cleanup_counting f now u first k Hz (proj2 Ht) Hc) as Hg. destruct (cleanup_config now f) as (Ew & El & Em).
    unfold fail. cbn zeta. set (g := cleanup now f) in *. destruct Hg as [He Hk]. destruct (v =? u)%string eqn:Euv; cbn.
    + apply String.eqb_eq in Euv as ->. unfold failure_of. rewrite He. cbn. rewrite (proj2 (Z.ltb_ge _ _)) by lia. unfold is_zero. cbn.
      rewrite (proj2 (Z.eqb_neq first _)) by lia. rewrite Ew, (proj2 (Z.leb_gt _ now)) by lia. rewrite Z.eqb_refl. cbn.
      rewrite Em, El. destruct (lf_max f <=? k + 1) eqn:E.
      * unfold locked_until, failure_of. cbn. by rewrite lookup_insert_eq.
      * split; cbn; [by rewrite lookup_insert_eq|]. rewrite Em. lia.
    + apply String.eqb_neq in Euv. destruct (_ <? _); [done|]. destruct (_ && _); [done|]. split; [|done]. cbn. by rewrite lookup_insert_ne.
  - split; [|apply Hc]. unfold clear. cbn. apply String.eqb_neq in Hcl. rewrite lookup_delete_ne by done. apply Hc.
Qed.
Lemma throttles_locked ops f u until : zero_time < until → locked_until f u until → Forall (λ op, op_clears u op = false) ops →
  Forall (λ op, ∀ now, op_time op = Some now → now < until) ops → locked_until (foldl throttle f ops) u until.
Proof.
  intros Hz. revert f. induction ops as [|op ops IH]; intros f Hl; [done|]. intros [Hc Hcs]%Forall_cons [Ht Hts]%Forall_cons. cbn.
  apply IH; [by apply throttle_locked|done|done].
Qed.
Lemma throttles_counting ops f u first k : zero_time < first → 0 < lf_lockout f → counting u first k f → Forall (λ op, op_clears u op = false) ops →
  times_between first (first + Z.min (lf_window f) (lf_lockout f)) ops → lf_max f <= k + fails_in u ops →
  ∃ t, first <= t ∧ locked_until (foldl throttle f ops) u (t + lf_lockout f).
Proof.
  intros Hz Hlo. revert f k Hlo. induction ops as [|op ops IH]; intros f k Hlo Hc Hcl Ht Hmax; [destruct Hc as [_ ?]; cbn in Hmax; lia|].
  apply Forall_cons in Hcl as [Hcl Hcls]. apply Forall_cons in Ht as [Ht Hts]. cbn [foldl]. cbn [fails_in foldr] in Hmax. fold (fails_in u ops) in Hmax.
  pose proof (throttle_counting f op u first k Hz Hc Hcl ltac:(intros now Hnow; specialize (Ht now Hnow); lia)) as Hstep.
  destruct (throttle_config op f) as (Ew & El & Em). destruct (op_fails u op =? 0) eqn:E0.
  - apply Z.eqb_eq in E0. rewrite E0 in Hmax. rewrite <- El. eapply (IH _ k); [lia|done|done|by rewrite Ew, El|lia].
  - assert (E1 : op_fails u op = 1) by (destruct op; cbn in *; [lia|destruct (_ =? _)%string; lia|lia]). rewrite E1 in Hmax.
    destruct (op_time op) as [now|] eqn:Et; [|done]. specialize (Ht now eq_refl). destruct (lf_max f <=? k + 1) eqn:E.
    + exists now. split; [lia|]. apply throttles_locked; [lia|done|done|]. eapply Forall_impl; [exact Hts|]. cbn. intros o Ho n Hn. specialize (Ho n Hn). lia.
    + rewrite <- El. eapply (IH _ (k + 1)); [lia|done|done|by rewrite Ew, El|lia].
Qed.

Section Properties.
Context {aead : Aead} (cfg : StoreConfig).

Definition login_input (username password : string) : bool :=
  ValidateUsername username && negb (password =? "")%string && (Z.of_nat (String.length password) <=? MaxPasswordBytes).

(** C24: when a username without a record fails [lf_max] times within the
    window and the lockout, it is locked for the lockout from the last of
    these failures on: every sign-in in that time is refused before any
    password is verified, whatever other usernames do meanwhile and whatever
    the password verifier would say. *)
Theorem failed_logins_lock f u t ops : zero_time < t → 0 < lf_lockout f → 0 < lf_window f → 0 < lf_max f →
  lf_entries f !! u = None → Z.of_nat (size (lf_entries f)) < maxLoginFailureEntries →
  Forall (λ op, op_clears u op = false) ops → times_between t (t + Z.min (lf_window f) (lf_lockout f)) ops → lf_max f <= 1 + fails_in u ops →
  ∃ last, t <= last ∧ ∀ verify dummy random password remember next now now' d,
    login_input u password = true → now < last + lf_lockout f →
    (Login verify dummy random u password remember next now now' (foldl throttle (fail u t f) ops) d).1.1 = LoginThrottled ∧
    (Login verify dummy random u password remember next now now' (foldl throttle (fail u t f) ops) d).2 = d.
Proof.
  intros Hz Hlo Hwi Hmax Hnone Hroom Hcl Ht Hfails.
  enough (∃ last, t <= last ∧ locked_until (foldl throttle (fail u t f) ops) u (last + lf_lockout f)) as (last & Hl & Hlocked).
  { exists last. split; [done|]. intros verify dummy random password remember next now now' d Hin Hnow.
    unfold login_input in Hin. rewrite !andb_true_iff in Hin. destruct Hin as [[Hv Hp] Hlen]. unfold Login.
    rewrite Hv, (proj1 (negb_true_iff _) Hp), (proj2 (Z.ltb_ge _ _)) by lia. cbn [negb orb].
    assert (Hb : (blocked u now (foldl throttle (fail u t f) ops)).1 = true).
    { unfold blocked. cbn. set (g := foldl _ _ _) in *. rewrite (cleanup_locked g now u (last + lf_lockout f)) by (lia || done).
      unfold locked_until in Hlocked. rewrite Hlocked. lia. }
    destruct (blocked _ _ _) as [b g]. cbn in Hb. subst b. done. }
  pose proof (cleanup_size t f) as Hsize. destruct (cleanup_config t f) as (Ew & El & Em).
  assert (Hnone' : lf_entries (cleanup t f) !! u = None).
  { unfold cleanup. destruct (_ <? _); [done|]. cbn. apply map_lookup_filter_None. by left. }
  assert (Hfail : fail u t f = set_entries (<[u := mkLoginFailure 1 t (if lf_max f <=? 1 then t + lf_lockout f else zero_time)]> (lf_entries (cleanup t f))) (cleanup t f)).
  { unfold fail, failure_of. cbn zeta. rewrite Hnone'. cbn [default no_failure lf_locked lf_first lf_count isSome negb]. rewrite (proj2 (Z.ltb_ge t _)) by lia.
    unfold is_zero at 1. rewrite Z.eqb_refl. cbn [orb andb lf_locked lf_first lf_count]. rewrite (proj2 (Z.leb_gt _ _)) by lia. by rewrite Em, El. }
  destruct (throttle_config (OpFail u t) f) as (Fw & Fl & Fm). cbn in Fw, Fl, Fm.
  destruct (lf_max f <=? 1) eqn:E1.
  - exists t. split; [lia|]. apply throttles_locked; [lia| |done|].
    + rewrite Hfail. unfold locked_until. by rewrite failure_of_insert, decide_True.
    + eapply Forall_impl; [exact Ht|]. cbn. intros o Ho n Hn. specialize (Ho n Hn). lia.
  - rewrite <- Fl. apply (throttles_counting _ _ _ _ 1); [done|lia| |done|by rewrite Fw, Fl|lia].
    split; [|rewrite Fm; lia]. rewrite Hfail. cbn. by rewrite lookup_insert_eq.
Qed.

(** The table of failed sign-ins never holds more than ten thousand
    usernames. *)
Theorem login_failures_bounded window lockout max ops :
  Z.of_nat (size (lf_entries (foldl throttle (mkLoginFailures ∅ window lockout max zero_time) ops))) <= 10000.
Proof.
  set (f := mkLoginFailures _ _ _ _ _). change 10000 with maxLoginFailureEntries.
  assert (Hf : Z.of_nat (size (lf_entries f)) <= maxLoginFailureEntries) by (vm_compute; discriminate). clearbody f. revert f Hf.
  induction ops as [|op ops IH]; intros f Hf; [exact Hf|]. apply IH. by apply throttle_bounded.
Qed.
End Properties.

(** ** What a session token stands for *)

Section Resolution.
Context {aead : Aead} (cfg : StoreConfig).

Definition stands_for (d : bdb) (now : instant) (token : string) (s : session_row) (p : Principal) : Prop :=
  FindValidSession token now d = Ok s ∧ se_verified s ≠ zero_time ∧ now < se_expires s ∧ now < se_last_seen s + IdleTimeout cfg ∧
  pr_session p = se_id s ∧ pr_actor p = se_user s ∧ is_active d (pr_actor p) = true ∧ is_active d (pr_user p) = true ∧
  (∀ permission, principal_Can p permission = has_permission d (pr_user p) permission) ∧
  match se_impersonated s with
  | None => pr_user p = pr_actor p ∧ pr_impersonating p = false
  | Some target => pr_user p = target ∧ pr_impersonating p = true ∧ is_admin d (pr_actor p) = true ∧
      is_admin d (pr_user p) = false ∧ IsEffectiveAdmin (SecurityContext p) = false
  end.

Lemma principal_permissions d s actor user u r permission : identity_of user d = Some (u, r) →
  principal_Can (principal_of s actor (user, u, r)) permission = has_permission d user permission.
Proof.
  intros (Hu & Hr)%identity_of_role. unfold principal_Can, has_permission, principal_of. destruct actor as [[aid a] ar]. rewrite Hu, Hr. cbn [pr_slug pr_permissions].
  destruct (IsAdminRole (rl_slug r)); [reflexivity|]. cbn [orb]. unfold Has. apply bool_decide_ext. by rewrite elem_of_NewPermissionSet, elem_of_elements.
Qed.

(** A token resolves to a principal exactly when its session is live and,
    if it impersonates, still belongs to an administrator; the principal has
    the permissions of its effective user's role in the database and no
    more, and while impersonating it is never an administrator. In any other
    case the request is unauthenticated and the session, if there is one, is
    gone. *)
Theorem ResolveSession_spec token now d : browser_reachable cfg d →
  match ResolveSession (IdleTimeout cfg) token now d with
  | (Ok p, d') => ∃ s, stands_for d now token s p ∧ d' = touch (IdleTimeout cfg) s now d
  | (Err e, d') => e = ErrUnauthenticated ∧
      (FindValidSession token now d = Err ErrSessionNotFound ∧ d' = d ∨
       ∃ s, FindValidSession token now d = Ok s ∧ (∀ id s', b_sessions d' !! id = Some s' → se_token s' ≠ token) ∧
         (se_verified s = zero_time ∨ se_last_seen s + IdleTimeout cfg <= now ∨
          is_Some (se_impersonated s) ∧ is_admin d (se_user s) = false))
  end.
Proof.
  intros (_ & (_ & Hus) & (_ & Hso & _) & _)%browser_reachable_ok. unfold ResolveSession.
  destruct (FindValidSession token now d) as [s|e] eqn:Ef.
  2: { split; [done|]. left. unfold FindValidSession in Ef. destruct (find_row _ _); [done|]. by injection Ef as <-. }
  pose proof Ef as Ef'. unfold FindValidSession in Ef'. destruct (find_row _ _) as [s0|] eqn:Er; [|done]. injection Ef' as ->.
  apply find_row_Some in Er as [[_ Hexp]%andb_true_iff [k Hk]]. destruct (Hso k s Hk) as (_ & _ & Hact & Himp). apply Z.ltb_lt in Hexp.
  assert (Hrev : ∀ (P : Prop), P → P ∧ ∀ id s', b_sessions (Revoke token d) !! id = Some s' → se_token s' ≠ token).
  { intros P HP. split; [done|]. intros id s' [_ Hc]%kept_session. by apply String.eqb_neq. }
  destruct (_ || _ || _) eqn:Eg; cbn [revokeUnauthenticated].
  { split; [done|]. right. exists s. split; [done|]. split; [by apply (Hrev True)|]. unfold is_zero in Eg. rewrite !orb_true_iff, !negb_true_iff in Eg. lia. }
  unfold is_zero in Eg. rewrite !orb_false_iff, !negb_false_iff in Eg. destruct Eg as [[Ez _] Ei].
  assert (Hid : ∀ user, is_active d user = true → ∃ u r, identity_of user d = Some (u, r) ∧ us_active u = true ∧ is_admin d user = IsAdminRole (rl_slug r)).
  { intros user (u & Hu & Hua)%is_active_true. destruct (Hus user u Hu) as [_ [r Hr]]. exists u, r.
    assert (E : identity_of user d = Some (u, r)) by (by apply identity_of_role). split; [done|]. split; [done|]. unfold is_admin. by rewrite E. }
  destruct (Hid _ Hact) as (a & ar & Ea & Haa & Hadm). rewrite Ea, Haa. cbn [negb].
  assert (Hstands : ∀ user u r, identity_of user d = Some (u, r) → is_active d user = true →
    (match se_impersonated s with None => user = se_user s | Some target => user = target ∧ is_admin d (se_user s) = true ∧ IsAdminRole (rl_slug r) = false end) →
    stands_for d now token s (principal_of s (se_user s, a, ar) (user, u, r))).
  { intros user u r Eu Hu Hcase. split; [done|]. split; [lia|]. split; [done|]. split; [lia|]. split; [done|]. split; [done|]. split; [exact Hact|].
    split; [exact Hu|]. split; [intros permission; by apply principal_permissions|].
    destruct (se_impersonated s) as [target|] eqn:Eim; [|by unfold principal_of; rewrite Eim]. destruct Hcase as (-> & Hca & Hcr).
    assert (is_admin d target = false) by (unfold is_admin; by rewrite Eu). unfold principal_of. rewrite Eim. done. }
  destruct (se_impersonated s) as [target|] eqn:Eim.
  - destruct (IsAdminRole (rl_slug ar)) eqn:Ear; cbn [negb].
    2: { split; [done|]. right. exists s. split; [done|]. split; [by apply (Hrev True)|]. right. right. split; [by eexists|]. by rewrite Hadm. }
    destruct (Himp target eq_refl) as [Hta Htn]. destruct (Hid _ Hta) as (e & er & Ee & Hea & Hee). rewrite Ee, Hea. rewrite <- Hee, Htn. cbn [negb orb].
    exists s. split; [|done]. apply Hstands; [done|done|]. by rewrite Hadm, <- Hee, Htn.
  - exists s. split; [|done]. by apply Hstands.
Qed.
End Resolution.
