(* ===== verification/BrowserDemo.v ===== *)
(** * A concrete execution of browser security

    Start-up, an administrator made on the command line, enrollment by a
    first sign-in and a second sign-in by a one-time code, with a toy cipher
    in place of AES-GCM.  The properties of BrowserSystem.v and MfaProps.v
    are applied to it. *)

From S2P Require Import Prelude Calendar Access AuditTrail Hash Table Totp Secrets BrowserStore Mfa UserAdmin Accounts BrowserInv BrowserSystem MfaProps BrowserAuth.
From stdpp Require Import gmap.

Open Scope Z_scope.

(** Seals by appending sixteen bytes. *)
Definition toy_tag : string := "0123456789abcdef".
Lemma toy_open_seal (text : string) : prefix_of (String.length (text +:+ toy_tag) - 16) (text +:+ toy_tag) = text.
Proof.
  rewrite string_length_app. change (String.length toy_tag) with 16%nat. replace (String.length text + 16 - 16)%nat with (String.length text) by lia.
  apply prefix_suffix.
Qed.
#[export] Program Instance toy_aead : Aead := {|
  aead_seal _ text _ := text +:+ toy_tag; aead_open _ sealed _ := Some (prefix_of (String.length sealed - 16) sealed) |}.
Next Obligation. intros nonce text. intros. exact (string_length_app text toy_tag). Qed.
Next Obligation. intros nonce text. intros. cbn beta. by rewrite toy_open_seal. Qed.

Definition demo_config : StoreConfig := mkStoreConfig (12 * hour) (30 * day_length) (2 * hour).
Definition demo_time : instant := date_days (mkDate 2026 3 2) * day_length + 9 * hour.
Definition demo_issue (n : Z) : issue_random := mkIssueRandom (repeat n 32) (repeat (n + 1) 20) "nonce-nonce-".
Definition demo_random (n : Z) : verify_random := mkVerifyRandom "nonce-nonce-" [repeat n 10] (repeat (n + 2) 32) (demo_issue n).
Definition demo_token (n : Z) : string := GenerateToken (repeat n 32).
Definition demo_code (now : instant) : string := default "" (Code (NewSecret (repeat 2 20)) (time_step now)).

Definition demo_0 : bdb := Eval vm_compute in (runTx (Bootstrap []) empty_bdb).2.
Definition demo_1 : bdb := Eval vm_compute in (runTx (CreateAdministrator "root" "Root" "argon2") demo_0).2.
Definition demo_2 : bdb := Eval vm_compute in (runTx (BeginLogin (demo_issue 1) 1 "argon2" false "/" demo_time) demo_1).2.
Definition demo_verify_1 := Verify_full demo_config (demo_random 3) (demo_token 1) (demo_code demo_time) 0 "" demo_time demo_time demo_2.
Definition demo_3 : bdb := Eval vm_compute in demo_verify_1.2.
Definition demo_later : instant := demo_time + minute.
Definition demo_4 : bdb := Eval vm_compute in (runTx (BeginLogin (demo_issue 7) 1 "argon2" false "/" demo_later) demo_3).2.
Definition demo_verify_2 := Verify_full demo_config (demo_random 9) (demo_token 7) (demo_code demo_later) 0 "" demo_later demo_later demo_4.
Definition demo_5 : bdb := Eval vm_compute in demo_verify_2.2.

Definition accepted_label (outcome : result verify_outcome) : browser_label :=
  match outcome with Ok (Accepted f c _) => LAccepted f c | _ => LQuiet end.
Definition demo_label_1 : browser_label := Eval vm_compute in accepted_label demo_verify_1.1.
Definition demo_label_2 : browser_label := Eval vm_compute in accepted_label demo_verify_2.1.
Definition label_factor (l : browser_label) : factor := match l with LAccepted f _ => f | _ => FTotp 0 end.
Definition no_challenge : Challenge := mkChallenge 0 "" 0 None BrowserStore.Login None false "" 0 0 None.
Definition label_challenge (l : browser_label) : Challenge := match l with LAccepted _ c => c | _ => no_challenge end.
Definition operator : Attribution := mkAttribution None None.
Definition demo_6 : bdb := Eval vm_compute in (runTx (Reset demo_config 1 0 0 operator demo_later demo_later) demo_5).2.

(** ** The execution *)

Lemma step_by l l' d d' d'' : browser_step demo_config l d d' → l = l' → d' = d'' → browser_step demo_config l' d d''.
Proof. by intros ? -> ->. Qed.
Lemma demo_step_1 : browser_step demo_config LOperator demo_0 demo_1.
Proof. eapply step_by; [exact (step_CreateAdministrator demo_config "root" "Root" "argon2" demo_0)|vm_compute; reflexivity|vm_compute; reflexivity]. Qed.
Lemma demo_step_2 : browser_step demo_config LQuiet demo_1 demo_2.
Proof. eapply step_by; [exact (step_BeginLogin demo_config (demo_issue 1) 1 "argon2" false "/" demo_time demo_1)|vm_compute; reflexivity|vm_compute; reflexivity]. Qed.
Lemma demo_step_3 : browser_step demo_config demo_label_1 demo_2 demo_3.
Proof. eapply step_by; [exact (step_Verify demo_config (demo_random 3) (demo_token 1) (demo_code demo_time) 0 "" demo_time demo_time demo_2)|vm_compute; reflexivity|vm_compute; reflexivity]. Qed.
Lemma demo_step_4 : browser_step demo_config LQuiet demo_3 demo_4.
Proof. eapply step_by; [exact (step_BeginLogin demo_config (demo_issue 7) 1 "argon2" false "/" demo_later demo_3)|vm_compute; reflexivity|vm_compute; reflexivity]. Qed.
Lemma demo_step_5 : browser_step demo_config demo_label_2 demo_4 demo_5.
Proof. eapply step_by; [exact (step_Verify demo_config (demo_random 9) (demo_token 7) (demo_code demo_later) 0 "" demo_later demo_later demo_4)|vm_compute; reflexivity|vm_compute; reflexivity]. Qed.
Lemma demo_trace_1 : browser_trace demo_config [LQuiet; demo_label_1; LQuiet; demo_label_2] demo_1 demo_5.
Proof. eapply trace_step, trace_step, trace_step, trace_step, trace_nil; [apply demo_step_2|apply demo_step_3|apply demo_step_4|apply demo_step_5]. Qed.
Lemma demo_reachable ls d : browser_trace demo_config ls demo_1 d → browser_reachable demo_config d.
Proof.
  intros Ht. exists [], demo_0, (LOperator :: ls). split; [vm_compute; reflexivity|]. eapply trace_step; [apply demo_step_1|exact Ht].
Qed.

(** ** The properties at this execution *)

Lemma browser_invariants_witness : is_active demo_5 1 = true ∧ se_user <$> b_sessions demo_5 !! 2 = Some 1.
Proof.
  destruct (browser_invariants demo_config demo_5 (demo_reachable _ _ demo_trace_1)) as [Hs _].
  split; [|vm_compute; reflexivity]. destruct (b_sessions demo_5 !! 2) as [s|] eqn:E; [|vm_compute in E; discriminate E].
  destruct (Hs 2 s E) as [Ha _]. vm_compute in E. injection E as <-. exact Ha.
Defined.

Lemma administrators_protected_witness : active_admin demo_5 ∧ (accounts demo_5).1 !! 1 = (accounts demo_1).1 !! 1.
Proof.
  destruct (administrators_protected demo_config _ demo_1 demo_5 (demo_reachable [] demo_1 (trace_nil _ _)) demo_trace_1) as [Hk Hg].
  split; [apply Hk; exists 1; split; vm_compute; reflexivity|].
  destruct Hg as [Hacc _]; [repeat apply Forall_cons_2; [intros []..|apply Forall_nil_2]|]. apply Hacc. vm_compute. reflexivity.
Defined.

Lemma challenge_attempts_witness : attempts (ch_id (label_challenge demo_label_1)) [LQuiet; demo_label_2] = 0.
Proof.
  destruct (challenge_attempts demo_config _ demo_1 demo_5 (demo_reachable [] demo_1 (trace_nil _ _)) demo_trace_1) as [_ Hafter].
  apply (Hafter [LQuiet] (label_factor demo_label_1)). reflexivity.
Defined.

Lemma factors_accepted_once_witness : ∃ n m, counter_of (label_factor demo_label_1) = Some n ∧ label_factor demo_label_2 = FTotp m ∧ n < m.
Proof.
  exists 59081400, 59081402. split; [vm_compute; reflexivity|]. split; [vm_compute; reflexivity|].
  apply (factors_accepted_once demo_config demo_1 demo_5 (label_factor demo_label_1) (label_challenge demo_label_1)
    (label_factor demo_label_2) (label_challenge demo_label_2) [LQuiet] [LQuiet] []).
  - exact (demo_reachable [] demo_1 (trace_nil _ _)).
  - exact demo_trace_1.
  - vm_compute. reflexivity.
  - vm_compute. reflexivity.
  - vm_compute. reflexivity.
  - apply Forall_cons_2; [reflexivity|apply Forall_nil_2].
Defined.

Lemma sessions_need_factors_witness : ∃ s f c, b_sessions demo_5 !! 2 = Some s ∧ demo_label_2 = LAccepted f c ∧ se_user s = ch_user c.
Proof.
  destruct (b_sessions demo_5 !! 2) as [s|] eqn:E; [|vm_compute in E; discriminate E].
  assert (Hr : browser_reachable demo_config demo_4).
  { apply (demo_reachable [LQuiet; demo_label_1; LQuiet]). eapply trace_step, trace_step, trace_step, trace_nil; [apply demo_step_2|apply demo_step_3|apply demo_step_4]. }
  destruct (sessions_need_factors demo_config demo_label_2 demo_4 demo_5 2 s Hr demo_step_5) as (f & c & _ & _ & _ & _ & Hl & _ & _ & _ & Hu & _).
  - vm_compute. reflexivity.
  - exact E.
  - exists s, f, c. split; [reflexivity|]. split; [exact Hl|exact Hu].
Defined.

Lemma Reset_removes_witness : b_enrollments demo_6 = delete 1 (b_enrollments demo_5) ∧ b_sessions demo_6 !! 2 = None.
Proof.
  destruct (Reset_removes demo_config 1 0 0 operator demo_later demo_later demo_5 demo_6 (demo_reachable _ _ demo_trace_1)) as [(He & _) _].
  - vm_compute. reflexivity.
  - split; [exact He|vm_compute; reflexivity].
Defined.

(** The password step with a verifier that refuses every password. *)
Definition demo_throttle : loginFailures := mkLoginFailures ∅ (15 * minute) (15 * minute) 3 zero_time.
Definition demo_failures : list throttle_op := [OpFail "root" (demo_time + second); OpBlocked "eve" (demo_time + second); OpFail "root" (demo_time + 2 * second)].
Definition refuse (password hash : string) : result bool := Ok false.

Lemma failed_logins_lock_witness :
  (Login refuse "" (demo_issue 1) "root" "guess" false "/" (demo_time + 3 * second) demo_time (foldl throttle (fail "root" demo_time demo_throttle) demo_failures) demo_1).1.1
  = LoginThrottled.
Proof.
  destruct (failed_logins_lock demo_throttle "root" demo_time demo_failures) as (last & Hlast & Hlocked).
  1-6: vm_compute; reflexivity.
  - repeat apply Forall_cons_2; [reflexivity..|apply Forall_nil_2].
  - repeat apply Forall_cons_2; [..|apply Forall_nil_2]; intros now [= <-]; vm_compute; split; congruence.
  - vm_compute. discriminate.
  - apply (Hlocked refuse "" (demo_issue 1) "guess" false "/" (demo_time + 3 * second) demo_time demo_1); [vm_compute; reflexivity|].
    change (lf_lockout demo_throttle) with (15 * minute). unfold minute, second in *. lia.
Defined.

Lemma ResolveSession_spec_witness : ∃ p d, ResolveSession (2 * hour) (se_token (default (mkSession 0 0 None "" false 0 0 0) (b_sessions demo_5 !! 2))) demo_later demo_5 = (Ok p, d) ∧
  pr_user p = pr_actor p ∧ principal_Can p "users.view" = true.
Proof.
  pose proof (ResolveSession_spec demo_config (se_token (default (mkSession 0 0 None "" false 0 0 0) (b_sessions demo_5 !! 2))) demo_later demo_5 (demo_reachable _ _ demo_trace_1)) as Hspec.
  change (IdleTimeout demo_config) with (2 * hour) in Hspec.
  destruct (ResolveSession _ _ _ _) as [[p|e] d] eqn:E; [|vm_compute in E; discriminate E].
  exists p, d. split; [reflexivity|]. destruct Hspec as (s & (Hf & _ & _ & _ & _ & _ & _ & _ & Hcan & Himp) & _).
  assert (Hs : se_impersonated s = None) by (vm_compute in Hf; injection Hf as <-; reflexivity). rewrite Hs in Himp. destruct Himp as [Hu _].
  split; [exact Hu|]. rewrite Hcan. vm_compute in E. injection E as <- _. vm_compute. reflexivity.
Defined.
