(* ===== verification/SessionLanes.v ===== *)
(** * Sessions of the banking core (src/internal/fincloud/session_coordinator.go)

    The core lets a user have one session at a time, so whoever works as the
    same user shares a client or waits in the user's lane: first come, first
    served, with exclusive turns for connection tests.  A lane's critical
    sections (between locking and unlocking its mutex) are the operations;
    the objects its pointers lead to (waiters, their channels, leases) are in
    [slot] beside it, by the waiter's number.  Closing idle connections
    changes nothing here. *)

From S2P Require Import Prelude.
From stdpp Require Import gmap sorting.

Open Scope Z_scope.

Definition ErrSessionCoordinatorClosed : error := Errorf "Fincloud session coordinator is closed".
Definition ErrAuthContext : error := Errorf "invalid Fincloud auth context".
Definition ErrClientConfiguration : error := Errorf "incomplete Fincloud configuration".

Record AuthContext := mkAuth {
  ProfileID : Z; Revision : Z; ProfileName : string; Username : string; Password : string; RoleID : string; LocationID : string }.

Definition invalidAuthIdentifier (value : string) : bool :=
  (value =? "")%string || negb (value =? trim_space value)%string.

Definition Validate (auth : AuthContext) : result unit :=
  if (ProfileID auth =? 0) || (Revision auth =? 0) || (ProfileName auth =? "")%string || (Password auth =? "")%string ||
     invalidAuthIdentifier (Username auth) || invalidAuthIdentifier (RoleID auth) || invalidAuthIdentifier (LocationID auth)
  then Err ErrAuthContext else Ok tt.

Definition sameSessionContext (left right : AuthContext) : bool :=
  (Username left =? Username right)%string && (Password left =? Password right)%string &&
  (RoleID left =? RoleID right)%string && (LocationID left =? LocationID right)%string.

(** The coordinator's configuration: whether the base URL is one (an absolute
    HTTPS URL without credentials, query or fragment) and the timeout. *)
Record SessionCoordinatorConfig := mkSessionConfig { BaseURLValid : bool; HTTPTimeout : Z }.

(** A client by its address; the credentials it was made with. *)
Record Client := mkClient { cl_id : Z; cl_auth : AuthContext }.
#[export] Instance AuthContext_eq_dec : EqDecision AuthContext. Proof. solve_decision. Defined.
#[export] Instance Client_eq_dec : EqDecision Client. Proof. solve_decision. Defined.

(** [NewClient]; [next] is the address of the object it allocates. *)
Definition NewClient (config : SessionCoordinatorConfig) (auth : AuthContext) (next : Z) : result Client :=
  if (Password auth =? "")%string || invalidAuthIdentifier (Username auth) || invalidAuthIdentifier (LocationID auth) ||
     invalidAuthIdentifier (RoleID auth)
  then Err ErrClientConfiguration
  else if negb (BaseURLValid config) || (HTTPTimeout config <=? 0) then Err ErrClientConfiguration
  else Ok (mkClient next auth).

(** ** Lanes *)

Record sessionEpoch := mkEpoch { ep_auth : AuthContext; ep_client : Client; ep_exclusive : bool }.
Record sessionWaiter := mkWaiter { wt_auth : AuthContext; wt_exclusive : bool }.
Record coordinatedLease := mkLease { le_client : Client; le_released : bool }.
(** What is sent on a waiter's channel: a lease (the one with its number) or an error. *)
Inductive sessionGrant := Granted | Refused (err : error).
Record sessionLane := mkLane { current : option sessionEpoch; active : Z; waiters : list Z; closed : bool }.
Record slot := mkSlot {
  lane : sessionLane; asked : gmap Z sessionWaiter; sent : gmap Z sessionGrant; leases : gmap Z coordinatedLease }.

Definition set_lane (l : sessionLane) (s : slot) : slot := mkSlot l (asked s) (sent s) (leases s).
Definition set_current (e : option sessionEpoch) (s : slot) : slot :=
  set_lane (mkLane e (active (lane s)) (waiters (lane s)) (closed (lane s))) s.
Definition set_active (n : Z) (s : slot) : slot :=
  set_lane (mkLane (current (lane s)) n (waiters (lane s)) (closed (lane s))) s.
Definition set_waiters (w : list Z) (s : slot) : slot :=
  set_lane (mkLane (current (lane s)) (active (lane s)) w (closed (lane s))) s.
Definition set_closed (s : slot) : slot :=
  set_lane (mkLane (current (lane s)) (active (lane s)) (waiters (lane s)) true) s.
Definition add_asked (w : Z) (x : sessionWaiter) (s : slot) : slot := mkSlot (lane s) (<[w := x]> (asked s)) (sent s) (leases s).
Definition put_lease (w : Z) (x : coordinatedLease) (s : slot) : slot := mkSlot (lane s) (asked s) (sent s) (<[w := x]> (leases s)).

Definition new_slot : slot := mkSlot (mkLane None 0 [] false) ∅ ∅ ∅.

(** [lane.popLocked().done <- ...] *)
Definition popLocked (s : slot) : slot := set_waiters (tail (waiters (lane s))) s.
Definition send (w : Z) (grant : sessionGrant) (s : slot) : slot :=
  mkSlot (lane s) (asked s) (<[w := grant]> (sent s)) (leases s).
(** A lease is allocated and sent. *)
Definition send_lease (w : Z) (client : Client) (s : slot) : slot :=
  send w Granted (put_lease w (mkLease client false) (popLocked s)).
Definition send_error (w : Z) (e : error) (s : slot) : slot := send w (Refused e) (popLocked s).

(** A turn of the loop of [grantLocked] returns, continues, or, between its
    two halves, falls through.  [next] is the next free address. *)
Inductive turn := Return (s : slot) (next : Z) | Continue (s : slot) (next : Z) | Fall (s : slot) (next : Z).

(** [if lane.active == 0 { ... }] *)
Definition grant_idle (config : SessionCoordinatorConfig) (w : Z) (x : sessionWaiter) (s : slot) (next : Z) : turn :=
  if negb (active (lane s) =? 0) then Fall s next else
  let client :=
    match current (lane s) with
    | Some epoch => if negb (wt_exclusive x) && sameSessionContext (ep_auth epoch) (wt_auth x) then Ok (ep_client epoch, next)
                    else let? client := NewClient config (wt_auth x) next in Ok (client, next + 1)
    | None => let? client := NewClient config (wt_auth x) next in Ok (client, next + 1)
    end in
  match client with
  | Err e => Continue (send_error w e s) next
  | Ok (client, next) =>
      let s := send_lease w client (set_active 1 (set_current (Some (mkEpoch (wt_auth x) client (wt_exclusive x))) s)) in
      if wt_exclusive x then Return s next else Fall s next
  end.

(** The rest of the loop's body: the next waiter joins the holders. *)
Definition grant_join (s : slot) (next : Z) : turn :=
  match waiters (lane s), current (lane s) with
  | w :: _, Some epoch =>
      match asked s !! w with
      | Some x =>
          if ep_exclusive epoch || wt_exclusive x || negb (sameSessionContext (ep_auth epoch) (wt_auth x)) then Return s next
          else Continue (send_lease w (ep_client epoch) (set_active (active (lane s) + 1) s)) next
      | None => Return s next
      end
  | _, _ => Return s next
  end.

Definition grant_turn (config : SessionCoordinatorConfig) (s : slot) (next : Z) : turn :=
  match waiters (lane s) with
  | [] => Return s next
  | w :: _ =>
      match asked s !! w with
      | None => Return s next
      | Some x =>
          if closed (lane s) then Continue (send_error w ErrSessionCoordinatorClosed s) next
          else match grant_idle config w x s next with Fall s next => grant_join s next | turn => turn end
      end
  end.

Fixpoint grant_loop (config : SessionCoordinatorConfig) (fuel : nat) (s : slot) (next : Z) : slot * Z :=
  match fuel with
  | O => (s, next)
  | S fuel =>
      match grant_turn config s next with
      | Return s next => (s, next)
      | Continue s next | Fall s next => grant_loop config fuel s next
      end
  end.
(** Every turn that goes on takes a waiter off the list. *)
Definition grantLocked (config : SessionCoordinatorConfig) (s : slot) (next : Z) : slot * Z :=
  grant_loop config (length (waiters (lane s))) s next.

(** The critical section of [lane.acquire]; [w] is the new waiter. *)
Definition lane_acquire (config : SessionCoordinatorConfig) (w : Z) (auth : AuthContext) (exclusive : bool) (s : slot) (next : Z) :
    result (slot * Z) :=
  if closed (lane s) then Err ErrSessionCoordinatorClosed else
  let s := add_asked w (mkWaiter auth exclusive) s in
  Ok (grantLocked config (set_waiters (waiters (lane s) ++ [w]) s) next).

(** [append(lane.waiters[:index], lane.waiters[index+1:]...)] at the target. *)
Fixpoint remove_waiter (target : Z) (l : list Z) : list Z :=
  match l with [] => [] | w :: l => if w =? target then l else w :: remove_waiter target l end.

(** [lane.cancel]: whether the waiter was still in the list. *)
Definition lane_cancel (config : SessionCoordinatorConfig) (target : Z) (s : slot) (next : Z) : bool * (slot * Z) :=
  if bool_decide (target ∈ waiters (lane s)) then
    (true, grantLocked config (set_waiters (remove_waiter target (waiters (lane s))) s) next)
  else (false, (s, next)).

Definition lane_release (config : SessionCoordinatorConfig) (s : slot) (next : Z) : slot * Z :=
  let s := if 0 <? active (lane s) then set_active (active (lane s) - 1) s else s in
  let s :=
    match current (lane s) with
    | Some epoch =>
        if active (lane s) =? 0 then
          if closed (lane s) then set_current None s
          else set_current (Some (mkEpoch (ep_auth epoch) (ep_client epoch) false)) s
        else s
    | None => s
    end in
  grantLocked config s next.

Definition lane_invalidate (client : Client) (s : slot) : slot :=
  match current (lane s) with
  | Some epoch => if cl_id (ep_client epoch) =? cl_id client then set_current None s else s
  | None => s
  end.

Definition lane_close (config : SessionCoordinatorConfig) (s : slot) (next : Z) : slot * Z :=
  let '(s, next) := grantLocked config (set_closed s) next in
  (if (active (lane s) =? 0) && isSome (current (lane s)) then set_current None s else s, next).

(** [coordinatedLease.Release]: once. *)
Definition Release (config : SessionCoordinatorConfig) (w : Z) (s : slot) (next : Z) : slot * Z :=
  match leases s !! w with
  | Some l => if le_released l then (s, next) else lane_release config (put_lease w (mkLease (le_client l) true) s) next
  | None => (s, next)
  end.

(** ** The coordinator *)

(** [sc_next] is the next free address (of waiters and clients). *)
Record SessionCoordinator := mkSessions { sc_closed : bool; sc_lanes : gmap string slot; sc_next : Z }.

Definition NewSessionCoordinator (config : SessionCoordinatorConfig) : result SessionCoordinator :=
  let validation := mkAuth 0 0 "" "validation" "validation" "validation" "validation" in
  let? _ := NewClient config validation 0 in Ok (mkSessions false ∅ 1).

(** [coordinator.acquire] up to [lane.acquire]: the lane of the user. *)
Definition coordinator_acquire (auth : AuthContext) (sc : SessionCoordinator) : result SessionCoordinator :=
  let? _ := Validate auth in
  if sc_closed sc then Err ErrSessionCoordinatorClosed else
  match sc_lanes sc !! Username auth with
  | Some _ => Ok sc
  | None => Ok (mkSessions (sc_closed sc) (<[Username auth := new_slot]> (sc_lanes sc)) (sc_next sc))
  end.

(** [Close] up to its loop over the lanes it found. *)
Definition Close (sc : SessionCoordinator) : list string * SessionCoordinator :=
  if sc_closed sc then ([], sc) else ((map_to_list (sc_lanes sc)).*1, mkSessions true (sc_lanes sc) (sc_next sc)).

Definition put_slot (user : string) (r : slot * Z) (sc : SessionCoordinator) : SessionCoordinator :=
  mkSessions (sc_closed sc) (<[user := r.1]> (sc_lanes sc)) r.2.

(** What any number of goroutines do, one critical section at a time.  A
    caller enters the lane it looked up, possibly after the coordinator was
    closed; it may give up while it waits, and releases every lease it was
    sent, perhaps twice; a connection test whose login failed invalidates
    the client before its release; [Close] closes lanes one by one. *)
Inductive session_label :=
  | SLookup (auth : AuthContext) | SEnter (auth : AuthContext) (exclusive : bool) | SCancel (user : string) (w : Z)
  | SRelease (user : string) (w : Z) | SInvalidate (user : string) (w : Z) | SClose | SCloseLane (user : string).

Inductive session_step (config : SessionCoordinatorConfig) : SessionCoordinator → session_label → SessionCoordinator → Prop :=
  | step_lookup sc auth sc' : coordinator_acquire auth sc = Ok sc' → session_step config sc (SLookup auth) sc'
  | step_enter sc auth exclusive s r :
      Validate auth = Ok tt → sc_lanes sc !! Username auth = Some s →
      lane_acquire config (sc_next sc) auth exclusive s (sc_next sc + 1) = Ok r →
      session_step config sc (SEnter auth exclusive) (put_slot (Username auth) r sc)
  | step_cancel sc user w s r :
      sc_lanes sc !! user = Some s → lane_cancel config w s (sc_next sc) = (true, r) →
      session_step config sc (SCancel user w) (put_slot user r sc)
  | step_release sc user w s :
      sc_lanes sc !! user = Some s →
      session_step config sc (SRelease user w) (put_slot user (Release config w s (sc_next sc)) sc)
  | step_invalidate sc user w s x l :
      sc_lanes sc !! user = Some s → asked s !! w = Some x → wt_exclusive x = true →
      leases s !! w = Some l → le_released l = false →
      session_step config sc (SInvalidate user w) (put_slot user (lane_invalidate (le_client l) s, sc_next sc) sc)
  | step_close sc : session_step config sc SClose (Close sc).2
  | step_close_lane sc user s :
      sc_closed sc = true → sc_lanes sc !! user = Some s →
      session_step config sc (SCloseLane user) (put_slot user (lane_close config s (sc_next sc)) sc).

Inductive sessions_reachable (config : SessionCoordinatorConfig) : SessionCoordinator → Prop :=
  | sessions_initial sc : NewSessionCoordinator config = Ok sc → sessions_reachable config sc
  | sessions_later sc l sc' : sessions_reachable config sc → session_step config sc l sc' → sessions_reachable config sc'.

(** ** Contexts *)

Lemma sameSessionContext_spec left right :
  sameSessionContext left right = true ↔
  Username left = Username right ∧ Password left = Password right ∧ RoleID left = RoleID right ∧ LocationID left = LocationID right.
Proof. unfold sameSessionContext. rewrite !andb_true_iff, !String.eqb_eq. tauto. Qed.
Lemma same_refl auth : sameSessionContext auth auth = true.
Proof. by apply sameSessionContext_spec. Qed.
Lemma same_sym left right : sameSessionContext left right = true → sameSessionContext right left = true.
Proof. rewrite !sameSessionContext_spec. naive_solver. Qed.
Lemma same_trans a b c : sameSessionContext a b = true → sameSessionContext b c = true → sameSessionContext a c = true.
Proof. rewrite !sameSessionContext_spec. naive_solver congruence. Qed.

Lemma NewClient_Ok config auth next client :
  NewClient config auth next = Ok client → client = mkClient next auth.
Proof. unfold NewClient. repeat case_match; naive_solver. Qed.

(** ** Leases that are held *)

Definition live (s : slot) : gmap Z coordinatedLease := filter (λ l, le_released l.2 = false) (leases s).
Definition holds (s : slot) (w : Z) (l : coordinatedLease) : Prop := leases s !! w = Some l ∧ le_released l = false.

Lemma live_lookup s w l : live s !! w = Some l ↔ holds s w l.
Proof. unfold live, holds. by rewrite map_lookup_filter_Some. Qed.
Lemma holds_live_empty s : live s = ∅ → ∀ w l, ¬ holds s w l.
Proof. intros He w l Hl. apply live_lookup in Hl. by rewrite He in Hl. Qed.
Lemma live_put w l s :
  leases s !! w = None → le_released l = false → live (put_lease w l s) = <[w := l]> (live s).
Proof. intros _ Hl. unfold live. simpl. by rewrite map_filter_insert_True. Qed.
Lemma live_release w l client s :
  leases s !! w = Some l → live (put_lease w (mkLease client true) s) = delete w (live s).
Proof. intros _. unfold live. simpl. rewrite map_filter_insert_False by done. by rewrite map_filter_delete. Qed.

(** ** The invariant of a lane *)

(** The lane's holders, and what was sent to whom.  [next] bounds addresses. *)
Record slot_pre (user : string) (next : Z) (s : slot) : Prop := {
  pre_active : active (lane s) = Z.of_nat (size (live s));
  pre_asked : ∀ w x, asked s !! w = Some x → w < next ∧ Username (wt_auth x) = user;
  pre_sorted : StronglySorted Z.lt (waiters (lane s));
  pre_waiting : ∀ w, w ∈ waiters (lane s) → is_Some (asked s !! w) ∧ sent s !! w = None;
  pre_order : ∀ w j, w ∈ waiters (lane s) → is_Some (sent s !! j) → j < w;
  pre_sent_lt : ∀ w, is_Some (sent s !! w) → w < next;
  pre_sent : ∀ w, sent s !! w = Some Granted ↔ is_Some (leases s !! w);
  pre_lease : ∀ w l, leases s !! w = Some l → ∃ x,
    asked s !! w = Some x ∧ sameSessionContext (cl_auth (le_client l)) (wt_auth x) = true ∧ cl_id (le_client l) < next;
  pre_fresh : ∀ w l x j l', leases s !! w = Some l → asked s !! w = Some x → wt_exclusive x = true →
    leases s !! j = Some l' → j < w → cl_id (le_client l') < cl_id (le_client l);
  pre_epoch : ∀ e, current (lane s) = Some e →
    sameSessionContext (cl_auth (ep_client e)) (ep_auth e) = true ∧ cl_id (ep_client e) < next ∧
    (ep_exclusive e = true → active (lane s) <= 1) ∧
    (∀ w l x, holds s w l → asked s !! w = Some x → le_client l = ep_client e ∧ wt_exclusive x = ep_exclusive e);
  pre_none : current (lane s) = None → ∀ w l x, holds s w l → asked s !! w = Some x → wt_exclusive x = true ∧ active (lane s) <= 1 }.

(** After a critical section nobody waits for nobody. *)
Definition settled (s : slot) : Prop :=
  waiters (lane s) = [] ∨ closed (lane s) = false ∧ 0 < active (lane s).
(** A closed lane lets go of its client with the last lease. *)
Definition shut (s : slot) : Prop := closed (lane s) = true → active (lane s) = 0 → current (lane s) = None.
Definition slot_ok (user : string) (next : Z) (s : slot) : Prop := slot_pre user next s ∧ settled s ∧ shut s.

Lemma pre_active_pos user next s : slot_pre user next s → 0 <= active (lane s).
Proof. intros H. rewrite (pre_active _ _ _ H). lia. Qed.
Lemma pre_idle user next s : slot_pre user next s → active (lane s) = 0 → ∀ w l, ¬ holds s w l.
Proof. intros H H0. apply holds_live_empty. rewrite (pre_active _ _ _ H) in H0. apply map_size_empty_iff. lia. Qed.
Lemma pre_next user next next' s : slot_pre user next s → next <= next' → slot_pre user next' s.
Proof.
  intros [] Hn. split; try done.
  - intros w x Hx. destruct (pre_asked0 w x Hx). split; [lia|done].
  - intros w Hw. specialize (pre_sent_lt0 w Hw). lia.
  - intros w l Hl. destruct (pre_lease0 w l Hl) as (x & ? & ? & ?). exists x. repeat split; [done..|lia].
  - intros e He. destruct (pre_epoch0 e He) as (? & ? & ? & ?). repeat split; try done; [lia|naive_solver..].
Qed.

(** The head of the list and what is known of it. *)
Lemma pre_head user next s w rest :
  slot_pre user next s → waiters (lane s) = w :: rest →
  is_Some (asked s !! w) ∧ sent s !! w = None ∧ leases s !! w = None ∧ StronglySorted Z.lt rest ∧ (∀ v, v ∈ rest → w < v).
Proof.
  intros H Hw. pose proof (pre_waiting _ _ _ H w) as Hh. rewrite Hw in Hh. destruct Hh as [Ha Hs]; [by left|].
  pose proof (pre_sorted _ _ _ H) as Hsort. rewrite Hw in Hsort. apply StronglySorted_inv in Hsort as [Hsort Hall].
  repeat split; try done.
  - destruct (leases s !! w) eqn:El; [|done]. assert (sent s !! w = Some Granted); [|congruence]. apply (pre_sent _ _ _ H). eauto.
  - intros v Hv. by eapply Forall_forall in Hall.
Qed.

(** An error is sent to the head of the list. *)
Lemma pre_send_error user next s w rest e :
  slot_pre user next s → waiters (lane s) = w :: rest → slot_pre user next (send_error w e s).
Proof.
  intros H Hw. destruct (pre_head _ _ _ _ _ H Hw) as (Ha & Hs & Hl & Hsort & Hlt).
  destruct H. unfold send_error, popLocked, send. rewrite Hw. simpl.
  split; simpl; try done.
  - intros v Hv. destruct (pre_waiting0 v) as [? Hv']; [rewrite Hw; by right|]. split; [done|].
    rewrite lookup_insert_ne; [done|]. specialize (Hlt v Hv). lia.
  - intros v j Hv Hj. destruct (decide (j = w)) as [->|?]; [by apply Hlt|].
    rewrite lookup_insert_ne in Hj by done. apply pre_order0; [rewrite Hw; by right|done].
  - intros v Hv. destruct (decide (v = w)) as [->|?]; [destruct Ha as [x Hx]; by destruct (pre_asked0 w x Hx)|].
    rewrite lookup_insert_ne in Hv by done. auto.
  - intros v. destruct (decide (v = w)) as [->|?].
    + rewrite lookup_insert_eq, Hl. split; [done|]. by intros [? [=]].
    + by rewrite lookup_insert_ne.
Qed.

(** A lease is sent to the head of the list, which joins or starts epoch [e]. *)
Lemma pre_send_lease user next next' s w rest x e :
  slot_pre user next s → waiters (lane s) = w :: rest → asked s !! w = Some x → next <= next' →
  sameSessionContext (cl_auth (ep_client e)) (ep_auth e) = true →
  sameSessionContext (ep_auth e) (wt_auth x) = true → cl_id (ep_client e) < next' →
  ep_exclusive e = wt_exclusive x → (ep_exclusive e = true → active (lane s) = 0) →
  (∀ v l y, holds s v l → asked s !! v = Some y → le_client l = ep_client e ∧ wt_exclusive y = ep_exclusive e) →
  (wt_exclusive x = true → ∀ j l, leases s !! j = Some l → cl_id (le_client l) < cl_id (ep_client e)) →
  slot_pre user next' (send_lease w (ep_client e) (set_active (active (lane s) + 1) (set_current (Some e) s))).
Proof.
  intros H Hw Hx Hn Hce Hex Hid Hexcl Hone Hholds Hfresh.
  destruct (pre_head _ _ _ _ _ H Hw) as (Ha & Hs & Hl & Hsort & Hlt).
  apply pre_next with (next' := next') in H; [|done]. destruct H.
  assert (Hnew : ∀ v l, holds (send_lease w (ep_client e) (set_active (active (lane s) + 1) (set_current (Some e) s))) v l →
    v = w ∧ le_client l = ep_client e ∨ holds s v l).
  { intros v l [Hv Hr]. simpl in Hv. destruct (decide (v = w)) as [->|?].
    - rewrite lookup_insert_eq in Hv. left. by simplify_eq.
    - right. rewrite lookup_insert_ne in Hv by done. done. }
  split.
  - unfold send_lease, live. simpl. rewrite map_filter_insert_True by done. rewrite map_size_insert_None.
    + rewrite pre_active0. unfold live. lia.
    + apply map_lookup_filter_None. by left.
  - done.
  - simpl. by rewrite Hw.
  - simpl. rewrite Hw. simpl. intros v Hv. destruct (pre_waiting0 v) as [? Hv']; [rewrite Hw; by right|]. split; [done|].
    rewrite lookup_insert_ne; [done|]. specialize (Hlt v Hv). lia.
  - simpl. rewrite Hw. simpl. intros v j Hv Hj. destruct (decide (j = w)) as [->|?]; [by apply Hlt|].
    rewrite lookup_insert_ne in Hj by done. apply pre_order0; [rewrite Hw; by right|done].
  - simpl. intros v Hv. destruct (decide (v = w)) as [->|?]; [by destruct (pre_asked0 w x Hx)|].
    rewrite lookup_insert_ne in Hv by done. auto.
  - simpl. intros v. destruct (decide (v = w)) as [->|?]; [rewrite !lookup_insert_eq; naive_solver|by rewrite !lookup_insert_ne].
  - simpl. intros v l Hv. destruct (decide (v = w)) as [->|?].
    + rewrite lookup_insert_eq in Hv. simplify_eq. exists x. simpl. repeat split; [done| |done]. by eapply same_trans.
    + rewrite lookup_insert_ne in Hv by done. eauto.
  - simpl. intros v l y j l' Hv Hy Hye Hj Hlt'. destruct (decide (v = w)) as [->|?].
    + rewrite lookup_insert_eq in Hv. simplify_eq. simpl. rewrite lookup_insert_ne in Hj by lia. eauto.
    + rewrite lookup_insert_ne in Hv by done. destruct (decide (j = w)) as [->|?].
      * assert (v < w); [|lia]. apply pre_order0; [rewrite Hw; by left|]. exists Granted. apply pre_sent0. eauto.
      * rewrite lookup_insert_ne in Hj by done. eauto.
  - simpl. intros e' [= <-]. repeat split; [done|done|intros He; rewrite Hone; [lia|done]|..].
    + destruct (Hnew _ _ H) as [[-> ->]|Hh]; [done|]. by eapply Hholds.
    + destruct (Hnew _ _ H) as [[-> ?]|Hh]; [congruence|]. by eapply Hholds.
  - done.
Qed.

(** ** The loop *)

Definition turn_state (t : turn) : slot * Z := match t with Return s n | Continue s n | Fall s n => (s, n) end.
(** What a critical section never changes: who asked, what was sent, whether the lane is closed. *)
Definition later (s : slot) (next : Z) (r : slot * Z) : Prop :=
  next <= r.2 ∧ asked r.1 = asked s ∧ closed (lane r.1) = closed (lane s) ∧
  (∀ w g, sent s !! w = Some g → sent r.1 !! w = Some g) ∧
  (∀ w l, leases s !! w = Some l → leases r.1 !! w = Some l) ∧
  (∀ w, w ∈ waiters (lane r.1) → w ∈ waiters (lane s)) ∧
  (∀ w, w ∈ waiters (lane s) → w ∈ waiters (lane r.1) ∨ is_Some (sent r.1 !! w)) ∧
  (∀ w l, leases r.1 !! w = Some l → leases s !! w = Some l ∨ w ∈ waiters (lane s)) ∧
  (closed (lane s) = true → leases r.1 = leases s ∧ active (lane r.1) = active (lane s) ∧ current (lane r.1) = current (lane s)).
Lemma later_refl s next : later s next (s, next).
Proof. split_and!; simpl; auto; lia. Qed.
Lemma later_trans s n s1 n1 r : later s n (s1, n1) → later s1 n1 r → later s n r.
Proof.
  unfold later. simpl. intros (H1 & H2 & H3 & H4 & H5 & H6 & H7 & H8 & H9) (J1 & J2 & J3 & J4 & J5 & J6 & J7 & J8 & J9).
  split_and!; [lia|congruence|congruence|auto|auto|auto|..].
  - intros w [?|[g Hg]]%H7; [auto|]. right. exists g. auto.
  - intros w l [?|?]%J8; auto.
  - intros Hc. destruct (H9 Hc) as (? & ? & ?). destruct J9 as (? & ? & ?); [congruence|]. split_and!; congruence.
Qed.

Definition grant_ok (user : string) (s : slot) (next : Z) (r : slot * Z) : Prop :=
  slot_pre user r.2 r.1 ∧ later s next r ∧ shut r.1.

Lemma later_error s next w rest e :
  waiters (lane s) = w :: rest → sent s !! w = None → later s next (send_error w e s, next).
Proof.
  intros Hw Hs. unfold send_error, popLocked. rewrite Hw. split_and!; simpl; auto; try lia.
  - intros v g Hv. rewrite lookup_insert_ne; [done|]. intros ->. congruence.
  - intros v Hv. rewrite Hw. by right.
  - rewrite Hw. intros v [->|?]%elem_of_cons; [right; rewrite lookup_insert_eq; eauto|by left].
Qed.
Lemma later_lease s next next' w rest client e a :
  waiters (lane s) = w :: rest → sent s !! w = None → leases s !! w = None → next <= next' → closed (lane s) = false →
  later s next (send_lease w client (set_active a (set_current e s)), next').
Proof.
  intros Hw Hs Hl Hn Hc. unfold send_lease, popLocked. split_and!; simpl; rewrite ?Hw; auto; try congruence.
  - intros v g Hv. rewrite lookup_insert_ne; [done|]. intros ->. congruence.
  - intros v l Hv. rewrite lookup_insert_ne; [done|]. intros ->. congruence.
  - intros v Hv. by right.
  - intros v [->|?]%elem_of_cons; [right; rewrite lookup_insert_eq; eauto|by left].
  - intros v l Hv. destruct (decide (v = w)) as [->|?]; [right; by left|]. rewrite lookup_insert_ne in Hv by done. by left.
Qed.

Lemma error_ok user s next w rest e :
  slot_pre user next s → shut s → waiters (lane s) = w :: rest → grant_ok user s next (send_error w e s, next).
Proof.
  intros H Hs Hw. destruct (pre_head _ _ _ _ _ H Hw) as (_ & Hn & _). split; [by eapply pre_send_error|].
  split; [by eapply later_error|done].
Qed.

(** The first half of a turn. *)
Lemma idle_ok config user s next w rest x :
  slot_pre user next s → closed (lane s) = false → waiters (lane s) = w :: rest → asked s !! w = Some x →
  grant_ok user s next (turn_state (grant_idle config w x s next)) ∧
  match grant_idle config w x s next with
  | Return s' _ => closed (lane s') = false ∧ 0 < active (lane s')
  | Continue s' _ => waiters (lane s') = rest
  | Fall s' _ => (waiters (lane s') = w :: rest ∨ waiters (lane s') = rest) ∧ closed (lane s') = false ∧ 0 < active (lane s')
  end.
Proof.
  intros H Hc Hw Hx. pose proof (pre_active_pos _ _ _ H) as Hpos.
  assert (Hshut : ∀ s', closed (lane s') = false → shut s') by (unfold shut; intros; congruence).
  destruct (pre_head _ _ _ _ _ H Hw) as (_ & Hs & Hl & _).
  assert (Hfresh : ∀ client next', NewClient config (wt_auth x) next = Ok client → next' = next + 1 → active (lane s) = 0 →
    grant_ok user s next (send_lease w client (set_active 1 (set_current (Some (mkEpoch (wt_auth x) client (wt_exclusive x))) s)), next')).
  { intros client next' ->%NewClient_Ok -> H0. split; [|split; [eapply later_lease; eauto; lia|by apply Hshut]].
    simpl. replace 1 with (active (lane s) + 1) at 2 by lia.
    apply (pre_send_lease user next (next + 1) s w rest x (mkEpoch (wt_auth x) (mkClient next (wt_auth x)) (wt_exclusive x)));
      simpl; try done; try lia; [apply same_refl|apply same_refl|..].
    - intros v l y Hv. by destruct (pre_idle _ _ _ H H0 v l).
    - intros _ j l Hj. destruct (pre_lease _ _ _ H j l Hj) as (? & _ & _ & ?). lia. }
  unfold grant_idle. destruct (active (lane s) =? 0) eqn:E0; simpl; [apply Z.eqb_eq in E0|apply Z.eqb_neq in E0].
  2:{ split; [|split; [by left|split; [done|lia]]]. split; [done|]. split; [apply later_refl|by apply Hshut]. }
  destruct (current (lane s)) as [e|] eqn:He; [destruct (negb (wt_exclusive x) && sameSessionContext (ep_auth e) (wt_auth x)) eqn:Er|].
  - apply andb_true_iff in Er as [Hne Hsame]. apply negb_true_iff in Hne. rewrite Hne. simpl.
    destruct (pre_epoch _ _ _ H e He) as (Hce & Hid & _ & _). split.
    + split; [|split; [eapply later_lease; eauto; lia|by apply Hshut]]. simpl. replace 1 with (active (lane s) + 1) by lia.
      apply (pre_send_lease user next next s w rest x (mkEpoch (wt_auth x) (ep_client e) false)); simpl; try done; try lia.
      * by eapply same_trans.
      * apply same_refl.
      * intros v l y Hv. by destruct (pre_idle _ _ _ H E0 v l).
      * intros ?; congruence.
    + rewrite Hw. simpl. split; [by right|done].
  - destruct (NewClient config (wt_auth x) next) as [client|err] eqn:En; simpl.
    + destruct (wt_exclusive x) eqn:Ex; simpl; (split; [by apply Hfresh|]); rewrite ?Hw; [done|split; [by right|done]].
    + split; [eapply error_ok; eauto|]. by rewrite Hw.
  - destruct (NewClient config (wt_auth x) next) as [client|err] eqn:En; simpl.
    + destruct (wt_exclusive x) eqn:Ex; simpl; (split; [by apply Hfresh|]); rewrite ?Hw; [done|split; [by right|done]].
    + split; [eapply error_ok; eauto|]. by rewrite Hw.
Qed.

(** The second half: the head joins the holders or the critical section ends. *)
Lemma join_ok user s next :
  slot_pre user next s → closed (lane s) = false → 0 < active (lane s) →
  grant_ok user s next (turn_state (grant_join s next)) ∧
  match grant_join s next with
  | Return s' _ => settled s'
  | Continue s' _ | Fall s' _ => length (waiters (lane s)) = S (length (waiters (lane s')))
  end.
Proof.
  intros H Hc Hpos.
  assert (Hend : grant_ok user s next (s, next) ∧ settled s).
  { split; [|by right]. split; [done|]. split; [apply later_refl|]. unfold shut. simpl. intros. congruence. }
  unfold grant_join. destruct (waiters (lane s)) as [|w rest] eqn:Hw; [done|].
  destruct (current (lane s)) as [e|] eqn:He; [|done]. destruct (asked s !! w) as [x|] eqn:Hx; [|done].
  destruct (ep_exclusive e || wt_exclusive x || negb (sameSessionContext (ep_auth e) (wt_auth x))) eqn:Eb; [done|].
  apply orb_false_iff in Eb as [[Hee Hwe]%orb_false_iff Hsame%negb_false_iff].
  destruct (pre_epoch _ _ _ H e He) as (Hce & Hid & _ & Hh). destruct (pre_head _ _ _ _ _ H Hw) as (_ & Hs & Hl & _).
  assert (Hset : ∀ a, set_active a s = set_active a (set_current (Some e) s)) by (intros; unfold set_active, set_current, set_lane; simpl; by rewrite He).
  rewrite Hset. split; [split; [|split]|]; simpl.
  - apply (pre_send_lease user next next s w rest x e); try done; try lia; try congruence; try (intros; congruence).
  - eapply later_lease; eauto; lia.
  - unfold shut. simpl. intros. congruence.
  - by rewrite Hw.
Qed.

Lemma turn_ok config user s next :
  slot_pre user next s → shut s →
  grant_ok user s next (turn_state (grant_turn config s next)) ∧
  match grant_turn config s next with
  | Return s' _ => settled s'
  | Continue s' _ | Fall s' _ => (length (waiters (lane s')) < length (waiters (lane s)))%nat
  end.
Proof.
  intros H Hsh. unfold grant_turn. destruct (waiters (lane s)) as [|w rest] eqn:Hw.
  { split; [|by left]. split; [done|]. split; [apply later_refl|done]. }
  destruct (pre_head _ _ _ _ _ H Hw) as ([x Hx] & Hs & _). rewrite Hx.
  destruct (closed (lane s)) eqn:Hc; simpl.
  { split; [by eapply error_ok|]. rewrite Hw. simpl. lia. }
  destruct (idle_ok config _ _ _ _ _ _ H Hc Hw Hx) as [Hg Ht].
  destruct (grant_idle config w x s next) as [s' n'|s' n'|s' n'] eqn:Ei; simpl in *.
  - split; [done|by right].
  - split; [done|]. rewrite Ht. lia.
  - destruct Hg as (Hp & Hl & _). destruct Ht as (Hw' & Hc' & Hpos). simpl in Hp.
    destruct (join_ok user s' n' Hp Hc' Hpos) as [(Hp' & Hl' & Hs') Ht]. split; [split; [done|split; [|done]]|].
    + by eapply later_trans.
    + destruct (grant_join s' n'); try done; destruct Hw' as [Hw'|Hw']; rewrite Hw' in Ht; simpl in *; lia.
Qed.

Lemma grant_loop_ok config user fuel s next :
  (length (waiters (lane s)) <= fuel)%nat → slot_pre user next s → shut s →
  grant_ok user s next (grant_loop config fuel s next) ∧ settled (grant_loop config fuel s next).1.
Proof.
  revert s next. induction fuel as [|fuel IH]; intros s next Hf H Hsh; simpl.
  { split; [split; [done|split; [apply later_refl|done]]|]. left. destruct (waiters (lane s)); [done|simpl in Hf; lia]. }
  destruct (turn_ok config user s next H Hsh) as [(Hp & Hl & Hs) Ht].
  destruct (grant_turn config s next) as [s' n'|s' n'|s' n'] eqn:Et; simpl in *; [by split; [split; [|split]|]|..];
    (destruct (IH s' n') as [(Hp' & Hl' & Hs') Ht']; [lia|done..|]; split; [|done]; split; [done|split; [|done]]; by eapply later_trans).
Qed.
Lemma grantLocked_ok config user s next :
  slot_pre user next s → shut s →
  grant_ok user s next (grantLocked config s next) ∧ settled (grantLocked config s next).1.
Proof. intros. apply grant_loop_ok; [lia|done..]. Qed.

(** ** The critical sections *)

Lemma acquire_ok config user s next auth exclusive r :
  slot_ok user next s → Username auth = user → lane_acquire config next auth exclusive s (next + 1) = Ok r →
  slot_ok user r.2 r.1 ∧ next < r.2.
Proof.
  intros (H & Hs & Hsh) Hu. unfold lane_acquire. destruct (closed (lane s)) eqn:Hc; [done|]. intros [= <-].
  match goal with |- context [grantLocked config ?s' _] => set (s1 := s') end.
  assert (Hlt : ∀ w, w ∈ waiters (lane s) → w < next).
  { intros w Hw. destruct (pre_waiting _ _ _ H w Hw) as [[x Hx] _]. by destruct (pre_asked _ _ _ H w x Hx). }
  assert (Hnone : asked s !! next = None).
  { destruct (asked s !! next) as [x|] eqn:Hx; [|done]. destruct (pre_asked _ _ _ H next x Hx). lia. }
  pose proof (pre_sent_lt _ _ _ H) as Hsent.
  assert (H1 : slot_pre user (next + 1) s1).
  { apply pre_next with (next' := next + 1) in H; [|lia]. destruct H.
    assert (Hask : ∀ w l x, leases s !! w = Some l → <[next := mkWaiter auth exclusive]> (asked s) !! w = Some x → asked s !! w = Some x).
    { intros w l x Hl. destruct (pre_lease0 w l Hl) as (y & Hy & _). rewrite lookup_insert_ne; [done|]. intros ->. congruence. }
    split; simpl; try done.
    - intros w x Hx. destruct (decide (w = next)) as [->|?].
      + rewrite lookup_insert_eq in Hx. simplify_eq. simpl. split; [lia|done].
      + rewrite lookup_insert_ne in Hx by done. auto.
    - apply StronglySorted_app_2; [|done|by constructor; constructor]. intros w v Hw ->%list_elem_of_singleton. auto.
    - intros w [Hw| ->%list_elem_of_singleton]%elem_of_app.
      + destruct (pre_waiting0 w Hw) as [[x Hx] ?]. split; [|done]. rewrite lookup_insert_ne; [eauto|]. specialize (Hlt w Hw). lia.
      + rewrite lookup_insert_eq. split; [eauto|]. destruct (sent s !! next) eqn:E; [|done].
        specialize (Hsent next). rewrite E in Hsent. assert (next < next) by eauto; lia.
    - intros w j [Hw| ->%list_elem_of_singleton]%elem_of_app Hj; auto.
    - intros w l Hl. destruct (pre_lease0 w l Hl) as (x & Hx & ?). exists x. rewrite lookup_insert_ne; [done|]. intros ->. congruence.
    - intros w l x j l' Hl Hx. eapply pre_fresh0; eauto.
    - intros e He. destruct (pre_epoch0 e He) as (? & ? & ? & Hh). split_and!; try done. intros w l x [Hl Hr] Hx.
      eapply Hh; [by split|eauto].
    - intros He w l x [Hl Hr] Hx. eapply pre_none0; [done|by split|eauto]. }
  destruct (grantLocked_ok config user s1 (next + 1) H1) as [(Hp & (Hn & _) & Hs') Ht]; [unfold shut; simpl; congruence|].
  split; [done|lia].
Qed.

Lemma remove_waiter_In target w l : w ∈ remove_waiter target l → w ∈ l.
Proof.
  induction l as [|v l IH]; simpl; [done|]. destruct (v =? target); [by right|].
  intros [->|?]%elem_of_cons; [by left|right; auto].
Qed.
Lemma remove_waiter_sorted target l : StronglySorted Z.lt l → StronglySorted Z.lt (remove_waiter target l).
Proof.
  induction 1 as [|v l Hl IH Hv]; simpl; [constructor|]. destruct (v =? target); [done|]. constructor; [done|].
  apply Forall_forall. intros w Hw%remove_waiter_In. by eapply Forall_forall in Hv.
Qed.

Lemma pre_waiters user next s l :
  slot_pre user next s → (∀ w, w ∈ l → w ∈ waiters (lane s)) → StronglySorted Z.lt l → slot_pre user next (set_waiters l s).
Proof. intros [] Hl Hs. split; simpl; auto. Qed.

Lemma cancel_ok config user s next w r :
  slot_ok user next s → lane_cancel config w s next = (true, r) → slot_ok user r.2 r.1 ∧ next <= r.2.
Proof.
  intros (H & Hs & Hsh). unfold lane_cancel. case_bool_decide as Hw; [|done]. intros [= <-].
  destruct (grantLocked_ok config user (set_waiters (remove_waiter w (waiters (lane s))) s) next) as [(Hp & (Hn & _) & Hs') Ht].
  - apply pre_waiters; [done|intros v; apply remove_waiter_In|apply remove_waiter_sorted, (pre_sorted _ _ _ H)].
  - done.
  - done.
Qed.

Lemma invalidate_ok user next s w x l :
  slot_ok user next s → asked s !! w = Some x → wt_exclusive x = true → holds s w l →
  slot_ok user next (lane_invalidate (le_client l) s).
Proof.
  intros (H & Hs & Hsh) Hx Hex Hl. unfold lane_invalidate. destruct (current (lane s)) as [e|] eqn:He; [|done].
  destruct (cl_id (ep_client e) =? cl_id (le_client l)); [|done].
  destruct (pre_epoch _ _ _ H e He) as (_ & _ & H1 & Hh). destruct (Hh w l x Hl Hx) as [_ Hee].
  split; [|split; [done|by intros ?]]. destruct H. split; simpl; try done.
  intros _ v l' y Hl' Hy. destruct (Hh v l' y Hl' Hy) as [_ ->]. split; [congruence|]. apply H1. congruence.
Qed.

Lemma drop_client_pre user next s : slot_pre user next s → active (lane s) = 0 → slot_pre user next (set_current None s).
Proof.
  intros H H0. pose proof (pre_idle _ _ _ H H0) as Hidle. destruct H. split; simpl; try done.
  intros _ w l x Hl. by destruct (Hidle w l).
Qed.

Lemma close_ok config user s next :
  slot_ok user next s → slot_ok user (lane_close config s next).2 (lane_close config s next).1 ∧ next <= (lane_close config s next).2.
Proof.
  intros (H & Hs & Hsh). unfold lane_close.
  assert (H1 : slot_pre user next (set_closed s)) by (destruct H; split; done).
  assert (Hg : slot_pre user (grantLocked config (set_closed s) next).2 (grantLocked config (set_closed s) next).1 ∧
    next <= (grantLocked config (set_closed s) next).2 ∧ waiters (lane (grantLocked config (set_closed s) next).1) = []).
  { destruct Hs as [Hw|[_ Hpos]].
    - unfold grantLocked. simpl. rewrite Hw. simpl. done.
    - destruct (grantLocked_ok config user (set_closed s) next H1) as [(Hp & (Hn & _ & Hc & _) & _) [Ht|[Ht _]]].
      + unfold shut. simpl. lia.
      + done.
      + simpl in Hc. congruence. }
  destruct (grantLocked config (set_closed s) next) as [s' next']. simpl in Hg. destruct Hg as (Hp & Hn & Hw).
  destruct (active (lane s') =? 0) eqn:E0; [apply Z.eqb_eq in E0|apply Z.eqb_neq in E0]; simpl.
  - destruct (current (lane s')) as [e|] eqn:He; simpl.
    + split; [|done]. split; [by apply drop_client_pre|]. split; [by left|done].
    + split; [|done]. split; [done|]. split; [by left|]. by intros _ _.
  - split; [|done]. split; [done|]. split; [by left|]. by intros _ ?.
Qed.

(** A holder is gone. *)
Lemma release_pre user next s w l :
  slot_pre user next s → holds s w l →
  0 < active (lane s) ∧ slot_pre user next (set_active (active (lane s) - 1) (put_lease w (mkLease (le_client l) true) s)).
Proof.
  intros H [Hl Hr].
  assert (Hw : live s !! w = Some l) by by apply live_lookup.
  assert (Hsize : size (live s) = S (size (delete w (live s)))).
  { rewrite <-(insert_delete_id (live s) w l Hw) at 1. by rewrite map_size_insert_None by apply lookup_delete_eq. }
  destruct H. split; [lia|].
  assert (Hnew : ∀ v l', <[w := mkLease (le_client l) true]> (leases s) !! v = Some l' →
    ∃ l0, leases s !! v = Some l0 ∧ le_client l' = le_client l0 ∧ (le_released l' = false → v ≠ w ∧ l' = l0)).
  { intros v l' Hv. destruct (decide (v = w)) as [->|?].
    - rewrite lookup_insert_eq in Hv. simplify_eq. by exists l.
    - rewrite lookup_insert_ne in Hv by done. by exists l'. }
  assert (Hone : active (lane s) <= 1 → ∀ v l', <[w := mkLease (le_client l) true]> (leases s) !! v = Some l' → le_released l' = false → False).
  { intros H1 v l' Hv Hr'. destruct (Hnew v l' Hv) as (l0 & Hl0 & _ & Heq). destruct (Heq Hr') as [Hne ->].
    assert (Hd : delete w (live s) !! v = Some l0) by (rewrite lookup_delete_ne by done; by apply live_lookup).
    assert (size (delete w (live s)) ≠ 0%nat) as Hz by (apply map_size_non_empty_iff; intros E; by rewrite E in Hd). lia. }
  split; simpl; try done.
  - change (live _) with (live (put_lease w (mkLease (le_client l) true) s)). rewrite (live_release w l) by done. lia.
  - intros v. rewrite pre_sent0. destruct (decide (v = w)) as [->|?]; [rewrite lookup_insert_eq, Hl; naive_solver|by rewrite lookup_insert_ne].
  - intros v l' (l0 & Hl0 & -> & _)%Hnew. eauto.
  - intros v l' x j l'' (l0 & Hl0 & -> & _)%Hnew Hx Hex (l1 & Hl1 & -> & _)%Hnew. eauto.
  - intros e He. destruct (pre_epoch0 e He) as (? & ? & H1 & Hh). split_and!; try done.
    + intros Hex. specialize (H1 Hex). lia.
    + intros v l' x [Hv Hr'] Hx. destruct (Hnew v l' Hv) as (l0 & Hl0 & _ & Heq). destruct (Heq Hr') as [Hne ->]. eapply Hh; [by split|done].
  - intros He v l' x [Hv Hr'] Hx. destruct (Hnew v l' Hv) as (l0 & Hl0 & _ & Heq). destruct (Heq Hr') as [Hne ->].
    destruct (pre_none0 He v l0 x) as [_ H1]; [by split|done|]. destruct (Hone H1 v l0 Hv Hr').
Qed.

(** What [Release] leaves for [grantLocked]. *)
Lemma Release_grants config user s next w l :
  slot_ok user next s → holds s w l → ∃ s',
    Release config w s next = grantLocked config s' next ∧ slot_pre user next s' ∧ shut s' ∧
    leases s' = <[w := mkLease (le_client l) true]> (leases s) ∧ waiters (lane s') = waiters (lane s) ∧
    sent s' = sent s ∧ asked s' = asked s ∧ closed (lane s') = closed (lane s).
Proof.
  intros (H & Hs & Hsh) Hh. pose proof Hh as [Hl Hr]. unfold Release. rewrite Hl, Hr.
  destruct (release_pre user next s w l H) as [Hpos H1]; [done|].
  unfold lane_release. simpl. replace (0 <? active (lane s)) with true by (symmetry; by apply Z.ltb_lt). simpl.
  match goal with |- context [grantLocked config ?s' _] => set (s2 := s') end. exists s2.
  assert (slot_pre user next s2 ∧ shut s2) as [H2 Hsh2].
  { unfold s2. destruct (current (lane s)) as [e|] eqn:He; [|split; [done|by intros _ ?]].
    destruct (active (lane s) - 1 =? 0) eqn:E0; [apply Z.eqb_eq in E0|apply Z.eqb_neq in E0]; [|split; [done|intros _ ?; simpl in *; lia]].
    destruct (closed (lane s)) eqn:Hc; [split; [by apply drop_client_pre|by intros _ ?]|].
    split; [|unfold shut; simpl; congruence].
    pose proof (pre_idle _ _ _ H1 E0) as Hidle. destruct H1. split; simpl in *; try done.
    intros e' [= <-]. destruct (pre_epoch0 e He) as (? & ? & ? & ?). split_and!; simpl; try done. intros v l' x Hv. by destruct (Hidle v l'). }
  split; [done|]. split; [done|]. split; [done|]. unfold s2. by repeat case_match.
Qed.
Lemma Release_idle config s next w : (∀ l, ¬ holds s w l) → Release config w s next = (s, next).
Proof.
  intros Hn. unfold Release. destruct (leases s !! w) as [l|] eqn:Hl; [|done]. destruct (le_released l) eqn:Hr; [done|].
  by destruct (Hn l).
Qed.
Lemma holds_dec s w : (∃ l, holds s w l) ∨ ∀ l, ¬ holds s w l.
Proof. destruct (live s !! w) as [l|] eqn:Hl; [left; exists l; by apply live_lookup|right; intros l ?%live_lookup; congruence]. Qed.

Lemma Release_ok config user s next w :
  slot_ok user next s → slot_ok user (Release config w s next).2 (Release config w s next).1 ∧ next <= (Release config w s next).2.
Proof.
  intros Hok. destruct (holds_dec s w) as [[l Hl]|Hn]; [|by rewrite Release_idle].
  destruct (Release_grants config user s next w l) as (s' & -> & Hp & Hsh & _); [done..|].
  destruct (grantLocked_ok config user s' next Hp Hsh) as [(? & (? & _) & ?) ?]. done.
Qed.

(** ** The coordinator *)

Definition sessions_ok (sc : SessionCoordinator) : Prop :=
  ∀ user s, sc_lanes sc !! user = Some s → slot_ok user (sc_next sc) s.

Lemma slot_ok_next user next next' s : slot_ok user next s → next <= next' → slot_ok user next' s.
Proof. intros (H & ? & ?) ?. split; [by eapply pre_next|done]. Qed.
Lemma put_slot_ok user r sc :
  sessions_ok sc → slot_ok user r.2 r.1 → sc_next sc <= r.2 → sessions_ok (put_slot user r sc).
Proof.
  intros H Hr Hn user' s. unfold put_slot. simpl. intros [[-> <-]|[? Hs]]%lookup_insert_Some; [done|].
  eapply slot_ok_next; [by apply H|done].
Qed.
Lemma new_slot_ok user next : slot_ok user next new_slot.
Proof.
  split; [|split; [by left|by intros ?]].
  split; simpl; try done; try (intros ? ? ?%not_elem_of_nil; done); try (intros ? ?%not_elem_of_nil; done); [constructor|..].
  - intros w [g Hg]. done.
  - intros w. split; [done|]. by intros [l Hl].
Qed.

Lemma session_step_ok config sc l sc' : sessions_ok sc → session_step config sc l sc' → sessions_ok sc'.
Proof.
  intros H Hstep. destruct Hstep as [sc auth sc' Hl|sc auth exclusive s r Hv Hs Hr|sc user w s r Hs Hr|sc user w s Hs
    |sc user w s x l Hs Hx Hex Hl Hr|sc|sc user s Hc Hs].
  - unfold coordinator_acquire in Hl. destruct (Validate auth); [|done]. simpl in Hl. destruct (sc_closed sc); [done|].
    destruct (sc_lanes sc !! Username auth) eqn:E; simplify_eq; [done|]. intros user s. simpl.
    intros [[<- <-]|[? Hs]]%lookup_insert_Some; [apply new_slot_ok|auto].
  - destruct (acquire_ok config (Username auth) s (sc_next sc) auth exclusive r) as [? ?]; [by apply H|done..|].
    apply put_slot_ok; [done..|lia].
  - destruct (cancel_ok config user s (sc_next sc) w r) as [? ?]; [by apply H|done..|]. by apply put_slot_ok.
  - destruct (Release_ok config user s (sc_next sc) w) as [? ?]; [by apply H|]. by apply put_slot_ok.
  - apply put_slot_ok; [done|eapply invalidate_ok; eauto; by split|simpl; lia].
  - unfold Close. destruct (sc_closed sc); done.
  - destruct (close_ok config user s (sc_next sc)) as [? ?]; [by apply H|]. by apply put_slot_ok.
Qed.
Lemma sessions_reachable_ok config sc : sessions_reachable config sc → sessions_ok sc.
Proof.
  induction 1 as [sc Hn|]; [|by eapply session_step_ok]. unfold NewSessionCoordinator, res_bind in Hn.
  destruct (NewClient _ _ _); [|done]. simplify_eq. intros user s. simpl. by rewrite lookup_empty.
Qed.

Lemma pre_two user next s v w l l' :
  slot_pre user next s → holds s v l → holds s w l' → v ≠ w → 1 < active (lane s).
Proof.
  intros H Hl%live_lookup Hl'%live_lookup Hne. rewrite (pre_active _ _ _ H).
  rewrite <-(insert_delete_id (live s) v l Hl), map_size_insert_None by apply lookup_delete_eq.
  assert (Hd : delete v (live s) !! w = Some l') by by rewrite lookup_delete_ne.
  assert (size (delete v (live s)) ≠ 0%nat); [|lia]. apply map_size_non_empty_iff. intros E. by rewrite E in Hd.
Qed.

(** Releasing while the first in line still waits: everyone else stays, and
    the holders only become fewer. *)
Lemma Release_waiting config user s next w rest v l :
  slot_ok user next s → waiters (lane s) = w :: rest → holds s v l →
  let r := Release config v s next in
  is_Some (sent r.1 !! w) ∨
  (∃ rest', waiters (lane r.1) = w :: rest') ∧ (∀ j l, holds r.1 j l → holds s j l ∧ j ≠ v).
Proof.
  intros Hok Hw Hl r. destruct (Release_grants config user s next v l) as (s' & Heq & Hp & Hsh & Hle & Hws & Hse & _); [done..|].
  destruct (grantLocked_ok config user s' next Hp Hsh) as [(Hp' & (_ & _ & _ & _ & _ & Hin & Hout & Hnew & _) & _) _].
  unfold r. rewrite Heq. rewrite Hws, Hw in Hin, Hout, Hnew. destruct (pre_head _ _ _ _ _ (proj1 Hok) Hw) as (_ & _ & _ & _ & Hlt).
  destruct (Hout w) as [Hr|Hr]; [by left| |by left]. right. split.
  - destruct (waiters (lane (grantLocked config s' next).1)) as [|u rest'] eqn:Hr'; [by apply not_elem_of_nil in Hr|].
    destruct (pre_head _ _ _ _ _ Hp' Hr') as (_ & _ & _ & _ & Hlt'). exists rest'. f_equal.
    apply elem_of_cons in Hr as [->|Hr]; [done|]. specialize (Hlt' w Hr).
    assert (u ∈ w :: rest) as [->|Hu]%elem_of_cons by (apply Hin; by left); [done|]. specialize (Hlt u Hu). lia.
  - intros j l' [Hj Hjr]. destruct (Hnew j l' Hj) as [Hj'|Hj'].
    + rewrite Hle in Hj'. destruct (decide (j = v)) as [->|?]; [rewrite lookup_insert_eq in Hj'; by simplify_eq|].
      by rewrite lookup_insert_ne in Hj'.
    + assert (j < w) by (apply (pre_order _ _ _ Hp' w j Hr); exists Granted; apply (pre_sent _ _ _ Hp'); eauto).
      apply elem_of_cons in Hj' as [->|Hj']; [lia|]. specialize (Hlt j Hj'). lia.
Qed.
Lemma Release_sent config user s next v w :
  slot_ok user next s → is_Some (sent s !! w) → is_Some (sent (Release config v s next).1 !! w).
Proof.
  intros Hok [g Hg]. destruct (holds_dec s v) as [[l Hl]|Hn]; [|rewrite Release_idle by done; eauto].
  destruct (Release_grants config user s next v l) as (s' & -> & Hp & Hsh & _ & _ & Hse & _); [done..|].
  destruct (grantLocked_ok config user s' next Hp Hsh) as [(_ & (_ & _ & _ & Hsent & _) & _) _]. exists g. apply Hsent. by rewrite Hse.
Qed.

Lemma releases_sent config user vs r w :
  slot_ok user r.2 r.1 → is_Some (sent r.1 !! w) → is_Some (sent (foldl (λ r v, Release config v r.1 r.2) r vs).1 !! w).
Proof.
  revert r. induction vs as [|v vs IH]; intros r Hok Hw; simpl; [done|]. apply IH; [by apply Release_ok|by eapply Release_sent].
Qed.
Lemma releases_serve config user vs r w rest :
  slot_ok user r.2 r.1 → waiters (lane r.1) = w :: rest → (∀ v l, holds r.1 v l → v ∈ vs) →
  is_Some (sent (foldl (λ r v, Release config v r.1 r.2) r vs).1 !! w).
Proof.
  revert r rest. induction vs as [|v vs IH]; intros r rest Hok Hw Hall; simpl.
  - destruct Hok as (H & [Hs|[_ Hpos]] & _); [congruence|]. rewrite (pre_active _ _ _ H) in Hpos.
    assert (live r.1 = ∅) as E; [|rewrite E, map_size_empty in Hpos; lia].
    apply map_empty. intros v. destruct (live r.1 !! v) as [l|] eqn:Hl; [|done]. apply live_lookup, Hall in Hl. by apply not_elem_of_nil in Hl.
  - destruct (holds_dec r.1 v) as [[l Hl]|Hn].
    + destruct (Release_waiting config user r.1 r.2 w rest v l Hok Hw Hl) as [Hs|[[rest' Hw'] Hh]].
      * eapply releases_sent; [by apply Release_ok|done].
      * eapply IH; [by apply Release_ok|done|]. intros j l' Hj. destruct (Hh j l' Hj) as [Hj' ?].
        apply Hall in Hj' as [->|?]%elem_of_cons; done.
    + rewrite Release_idle by done. destruct r as [s next]. eapply IH; [done..|]. intros j l' Hj. pose proof (Hall j l' Hj) as [->|?]%elem_of_cons; [|done].
      by destruct (Hn l').
Qed.

(** C28: at any moment, whatever the goroutines did: everyone who holds a
    lease of one user works through one client, made with the credentials
    they all asked for; a connection test holds its lease alone, and its
    client is newer than everything handed out before. *)
Theorem sessions_exclusive config sc user s v w l l' x y :
  sessions_reachable config sc → sc_lanes sc !! user = Some s →
  holds s v l → asked s !! v = Some x → leases s !! w = Some l' → asked s !! w = Some y →
  Username (wt_auth x) = user ∧ sameSessionContext (cl_auth (le_client l)) (wt_auth x) = true ∧
  (le_released l' = false → v ≠ w →
    le_client l = le_client l' ∧ sameSessionContext (wt_auth x) (wt_auth y) = true ∧ wt_exclusive x = false ∧ wt_exclusive y = false) ∧
  (wt_exclusive x = true → w < v → cl_id (le_client l') < cl_id (le_client l)).
Proof.
  intros Hr Hs Hl Hx Hl' Hy. apply sessions_reachable_ok in Hr. destruct (Hr user s Hs) as (H & _ & _).
  destruct (pre_lease _ _ _ H v l) as (x' & ? & Hsame & _); [apply Hl|]. simplify_eq.
  split; [by apply (pre_asked _ _ _ H v x)|]. split; [done|]. split.
  - intros Hrel Hne. destruct (pre_lease _ _ _ H w l' Hl') as (y' & ? & Hsame' & _). simplify_eq.
    assert (Hlive' : holds s w l') by done.
    pose proof (pre_two _ _ _ _ _ _ _ H Hl Hlive' Hne) as Htwo.
    destruct (current (lane s)) as [e|] eqn:He.
    + destruct (pre_epoch _ _ _ H e He) as (_ & _ & H1 & Hh). destruct (Hh v l x Hl Hx) as [Hc1 He1]. destruct (Hh w l' y Hlive' Hy) as [Hc2 He2].
      assert (ep_exclusive e = false) as Hex by (destruct (ep_exclusive e); [specialize (H1 eq_refl); lia|done]).
      split; [congruence|]. split; [|split; congruence]. eapply same_trans; [by apply same_sym|]. by rewrite Hc1, <-Hc2.
    + destruct (pre_none _ _ _ H He v l x Hl Hx). lia.
  - intros Hex Hlt. eapply (pre_fresh _ _ _ H v l x w l'); eauto. apply Hl.
Qed.

(** C29: nobody waits for nobody.  Whoever waits has been sent nothing yet and
    waits behind someone who holds a lease in an open lane; everyone who was
    sent an answer asked earlier.  When those who hold leases release them,
    in any order, the first in line has its answer. *)
Theorem waiters_progress config sc user s w rest :
  sessions_reachable config sc → sc_lanes sc !! user = Some s → waiters (lane s) = w :: rest →
  closed (lane s) = false ∧ live s ≠ ∅ ∧
  (∀ v, v ∈ w :: rest → sent s !! v = None ∧ (∀ j, is_Some (sent s !! j) → j < v)) ∧
  (∀ vs, (∀ v, v ∈ vs ↔ is_Some (live s !! v)) →
    is_Some (sent (foldl (λ r v, Release config v r.1 r.2) (s, sc_next sc) vs).1 !! w)).
Proof.
  intros Hr Hs Hw. apply sessions_reachable_ok in Hr. pose proof (Hr user s Hs) as (H & Hset & Hsh).
  destruct Hset as [?|[Hc Hpos]]; [congruence|]. split; [done|]. split.
  { rewrite (pre_active _ _ _ H) in Hpos. intros E. rewrite E, map_size_empty in Hpos. lia. }
  split.
  - intros v Hv. rewrite <-Hw in Hv. split; [by apply (pre_waiting _ _ _ H)|]. intros j. by apply (pre_order _ _ _ H).
  - intros vs Hvs. eapply (releases_serve config user vs (s, sc_next sc)); [by apply Hr|done|].
    intros v l Hl. apply Hvs. exists l. by apply live_lookup.
Qed.

(** ** Shutting down *)

(** A closed lane stays closed and hands out nothing. *)
Definition winds_down (s s' : slot) : Prop :=
  closed (lane s) = true → closed (lane s') = true ∧ ∀ w l, holds s' w l → holds s w l.

Lemma later_winds_down s next r : later s next r → winds_down s r.1.
Proof.
  intros (_ & _ & Hc & _ & _ & _ & _ & _ & Hl) Hcl. destruct (Hl Hcl) as (He & _ & _).
  split; [congruence|]. unfold holds. by rewrite He.
Qed.
Lemma winds_down_via s s1 s2 :
  closed (lane s1) = closed (lane s) → (∀ w l, holds s1 w l → holds s w l) → winds_down s1 s2 → winds_down s s2.
Proof. intros Hc Hh Hw Hcl. rewrite <-Hc in Hcl. destruct (Hw Hcl). split; auto. Qed.

Lemma cancel_winds_down config user s next w r :
  slot_ok user next s → lane_cancel config w s next = (true, r) → winds_down s r.1.
Proof.
  intros (H & Hs & Hsh). unfold lane_cancel. case_bool_decide; [|done]. intros [= <-].
  destruct (grantLocked_ok config user (set_waiters (remove_waiter w (waiters (lane s))) s) next) as [(_ & Hl & _) _].
  - apply pre_waiters; [done|intros v; apply remove_waiter_In|apply remove_waiter_sorted, (pre_sorted _ _ _ H)].
  - done.
  - eapply winds_down_via, later_winds_down, Hl; done.
Qed.
Lemma Release_winds_down config user s next w : slot_ok user next s → winds_down s (Release config w s next).1.
Proof.
  intros Hok. destruct (holds_dec s w) as [[l Hl]|Hn]; [|by rewrite Release_idle].
  destruct (Release_grants config user s next w l) as (s' & -> & Hp & Hsh & Hle & _ & _ & _ & Hc); [done..|].
  destruct (grantLocked_ok config user s' next Hp Hsh) as [(_ & Hla & _) _].
  eapply winds_down_via, later_winds_down, Hla; [done|]. intros v l' [Hv Hr]. rewrite Hle in Hv.
  apply lookup_insert_Some in Hv as [[_ <-]|[_ Hv]]; [by simpl in Hr|by split].
Qed.
Lemma close_winds_down config user s next :
  slot_ok user next s → winds_down s (lane_close config s next).1 ∧ closed (lane (lane_close config s next).1) = true.
Proof.
  intros (H & Hs & Hsh). unfold lane_close.
  assert (Hl : later (set_closed s) next (grantLocked config (set_closed s) next)).
  { destruct Hs as [Hw|[_ Hpos]]; [unfold grantLocked; simpl; rewrite Hw; apply later_refl|].
    apply (grantLocked_ok config user); [destruct H; by split|]. unfold shut. simpl. lia. }
  destruct (grantLocked config (set_closed s) next) as [s' next']. pose proof Hl as (_ & _ & Hc & _ & _ & _ & _ & _ & Hle).
  destruct (Hle eq_refl) as (Hle' & _ & _). simpl in *.
  assert (winds_down s s') by (intros _; split; [done|]; unfold holds; by rewrite Hle').
  destruct ((active (lane s') =? 0) && isSome (current (lane s'))); done.
Qed.

(** Once the coordinator is closed it stays closed, no lane is added, and
    each lane that [Close] has reached (it visits them all) winds down: it
    hands out no lease, nobody waits in it, and it drops its client when the
    last lease is released. *)
Theorem sessions_shutdown config sc l sc' :
  sessions_reachable config sc → session_step config sc l sc' →
  (∀ user, is_Some (sc_lanes sc !! user) → sc_closed sc = false → user ∈ (Close sc).1) ∧
  (sc_closed sc = true → sc_closed sc' = true ∧ ∀ user s', sc_lanes sc' !! user = Some s' → ∃ s,
    sc_lanes sc !! user = Some s ∧
    (l = SCloseLane user ∨ closed (lane s) = true →
       closed (lane s') = true ∧ waiters (lane s') = [] ∧ (live s' = ∅ → current (lane s') = None)) ∧
    (closed (lane s) = true → ∀ w g, holds s' w g → holds s w g)).
Proof.
  intros Hr Hstep. assert (H : sessions_ok sc) by by eapply sessions_reachable_ok.
  assert (H' : sessions_ok sc') by by eapply session_step_ok. split.
  { intros user [s Hs] Hc. unfold Close. rewrite Hc. simpl. apply list_elem_of_fmap. exists (user, s). split; [done|]. by apply elem_of_map_to_list. }
  intros Hcl. assert (Hwd : sc_closed sc' = true ∧ ∀ user s', sc_lanes sc' !! user = Some s' → ∃ s, sc_lanes sc !! user = Some s ∧
    winds_down s s' ∧ (l = SCloseLane user → closed (lane s') = true)).
  { assert (Hput : ∀ user s r, sc_lanes sc !! user = Some s → winds_down s r.1 → (l = SCloseLane user → closed (lane r.1) = true) →
      (∀ user', l = SCloseLane user' → user' = user) → ∀ user' s', sc_lanes (put_slot user r sc) !! user' = Some s' → ∃ s,
      sc_lanes sc !! user' = Some s ∧ winds_down s s' ∧ (l = SCloseLane user' → closed (lane s') = true)).
    { intros user s r Hs Hw Hc Hl user' s'. simpl. intros [[<- <-]|[Hne Hs']]%lookup_insert_Some; [eauto|].
      exists s'. split; [done|]. split; [by intros ?|]. intros ->. by destruct Hne; rewrite (Hl user'). }
    destruct Hstep as [sc auth sc' Hl|sc auth exclusive s r Hv Hs Hr'|sc user w s r Hs Hr'|sc user w s Hs
      |sc user w s x g Hs Hx Hex Hl Hr'|sc|sc user s Hc Hs].
    - unfold coordinator_acquire in Hl. destruct (Validate auth); [|done]. simpl in Hl. by rewrite Hcl in Hl.
    - split; [done|]. apply (Hput _ s); [done| |done|done]. intros Hc. unfold lane_acquire in Hr'. by rewrite Hc in Hr'.
    - split; [done|]. apply (Hput _ s); [done| |done|done]. by eapply cancel_winds_down; [apply H|].
    - split; [done|]. apply (Hput _ s); [done| |done|done]. by eapply Release_winds_down, H.
    - split; [done|]. apply (Hput _ s); [done| |done|done]. unfold lane_invalidate. by repeat case_match.
    - unfold Close. rewrite Hcl. simpl. split; [done|]. intros user s' Hs'. exists s'. split; [done|]. by split.
    - destruct (close_winds_down config user s (sc_next sc)) as [? ?]; [by apply H|]. split; [done|].
      apply (Hput _ s); [done|done|done|]. by intros ? [= ->]. }
  destruct Hwd as [Hc Hwd]. split; [done|]. intros user s' Hs'. destruct (Hwd user s' Hs') as (s & Hs & Hw & Hcs). exists s.
  split; [done|]. split; [|intros Hcl'; by apply Hw]. intros Hcase.
  assert (Hcs' : closed (lane s') = true) by (destruct Hcase as [->|Hcl']; [by apply Hcs|by apply Hw]).
  destruct (H' user s' Hs') as (Hp & [Hset|[? _]] & Hsh); [|congruence]. split; [done|]. split; [done|].
  intros E. apply Hsh; [done|]. by rewrite (pre_active _ _ _ Hp), E, map_size_empty.
Qed.

(** ** An execution *)

(** The steps as a function. *)
Definition session_exec (config : SessionCoordinatorConfig) (l : session_label) (sc : SessionCoordinator) : option SessionCoordinator :=
  match l with
  | SLookup auth => match coordinator_acquire auth sc with Ok sc' => Some sc' | Err _ => None end
  | SEnter auth exclusive =>
      match Validate auth, sc_lanes sc !! Username auth with
      | Ok _, Some s =>
          match lane_acquire config (sc_next sc) auth exclusive s (sc_next sc + 1) with
          | Ok r => Some (put_slot (Username auth) r sc) | Err _ => None end
      | _, _ => None
      end
  | SCancel user w =>
      s ← sc_lanes sc !! user;
      match lane_cancel config w s (sc_next sc) with (true, r) => Some (put_slot user r sc) | _ => None end
  | SRelease user w => s ← sc_lanes sc !! user; Some (put_slot user (Release config w s (sc_next sc)) sc)
  | SInvalidate user w =>
      s ← sc_lanes sc !! user; x ← asked s !! w; l ← leases s !! w;
      if wt_exclusive x && negb (le_released l) then Some (put_slot user (lane_invalidate (le_client l) s, sc_next sc) sc) else None
  | SClose => Some (Close sc).2
  | SCloseLane user =>
      s ← sc_lanes sc !! user; if sc_closed sc then Some (put_slot user (lane_close config s (sc_next sc)) sc) else None
  end.
Definition sessions_run (config : SessionCoordinatorConfig) (ls : list session_label) (sc : SessionCoordinator) : option SessionCoordinator :=
  foldl (λ r l, sc ← r; session_exec config l sc) (Some sc) ls.

Lemma session_exec_step config l sc sc' : session_exec config l sc = Some sc' → session_step config sc l sc'.
Proof.
  destruct l; simpl; intros H.
  - destruct (coordinator_acquire auth sc) eqn:E; simplify_eq. by constructor.
  - destruct (Validate auth) as [[]|] eqn:Ev; [|done]. destruct (sc_lanes sc !! Username auth) eqn:Es; [|done].
    destruct (lane_acquire _ _ _ _ _ _) eqn:Ea; simplify_eq. by econstructor.
  - apply bind_Some in H as (s & Hs & H). destruct (lane_cancel _ _ _ _) as [[] r] eqn:Ec; simplify_eq. by econstructor.
  - apply bind_Some in H as (s & Hs & H). simplify_eq. by constructor.
  - apply bind_Some in H as (s & Hs & (x & Hx & (g & Hg & H)%bind_Some)%bind_Some).
    destruct (wt_exclusive x && negb (le_released g)) eqn:E; simplify_eq.
    apply andb_true_iff in E as [? ?%negb_true_iff]. by econstructor.
  - simplify_eq. constructor.
  - apply bind_Some in H as (s & Hs & H). destruct (sc_closed sc) eqn:E; simplify_eq. by constructor.
Qed.
Lemma sessions_run_reachable config ls sc sc' :
  sessions_reachable config sc → sessions_run config ls sc = Some sc' → sessions_reachable config sc'.
Proof.
  unfold sessions_run. revert sc sc'. induction ls as [|l ls IH] using rev_ind; simpl; intros sc sc' Hr H; [by injection H as <-|].
  rewrite foldl_app in H. simpl in H. apply bind_Some in H as (sc1 & H1 & H2).
  eapply sessions_later; [by eapply IH|by apply session_exec_step].
Qed.

Definition demo_config : SessionCoordinatorConfig := mkSessionConfig true 30.
Definition demo_auth (password : string) : AuthContext := mkAuth 1 1 "profile" "teller" password "role" "head office".
(** Two runs share a session, a test and another password wait. *)
Definition demo_labels : list session_label :=
  [SLookup (demo_auth "a"); SEnter (demo_auth "a") false; SEnter (demo_auth "a") false; SEnter (demo_auth "a") true; SEnter (demo_auth "b") false].
Definition demo_start : SessionCoordinator := mkSessions false ∅ 1.
Definition demo_sessions (ls : list session_label) : SessionCoordinator := default demo_start (sessions_run demo_config ls demo_start).
Definition demo_slot (ls : list session_label) : slot := default new_slot (sc_lanes (demo_sessions ls) !! "teller").

Lemma demo_lanes_reachable ls : is_Some (sessions_run demo_config ls demo_start) → sessions_reachable demo_config (demo_sessions ls).
Proof.
  intros [sc' H]. unfold demo_sessions. rewrite H. simpl. eapply sessions_run_reachable, H. by apply sessions_initial.
Qed.

(** At a state: the first two hold one client. *)
Lemma sessions_exclusive_witness :
  ∃ l l', leases (demo_slot demo_labels) !! 1 = Some l ∧ leases (demo_slot demo_labels) !! 3 = Some l' ∧ le_client l = le_client l'.
Proof.
  eexists _, _. split; [vm_compute; reflexivity|]. split; [vm_compute; reflexivity|].
  refine (proj1 (proj1 (proj2 (proj2 (sessions_exclusive demo_config (demo_sessions demo_labels) "teller" (demo_slot demo_labels) 1 3 _ _
    (mkWaiter (demo_auth "a") false) (mkWaiter (demo_auth "a") false) _ _ _ _ _ _))) _ _)).
  - apply demo_lanes_reachable. eexists. vm_compute. reflexivity.
  - vm_compute. reflexivity.
  - split; vm_compute; reflexivity.
  - vm_compute. reflexivity.
  - vm_compute. reflexivity.
  - vm_compute. reflexivity.
  - reflexivity.
  - lia.
Defined.
(** The test waits for both; when they are gone, it has its answer. *)
Lemma waiters_progress_witness :
  is_Some (sent (foldl (λ r v, Release demo_config v r.1 r.2) (demo_slot demo_labels, sc_next (demo_sessions demo_labels)) [1; 3]).1 !! 4).
Proof.
  refine (proj2 (proj2 (proj2 (waiters_progress demo_config (demo_sessions demo_labels) "teller" (demo_slot demo_labels) 4 [5] _ _ _))) [1; 3] _).
  - apply demo_lanes_reachable. eexists. vm_compute. reflexivity.
  - vm_compute. reflexivity.
  - vm_compute. reflexivity.
  - intros v. rewrite <-elem_of_dom. replace (dom (live (demo_slot demo_labels))) with ({[1; 3]} : gset Z) by (vm_compute; reflexivity). set_solver.
Defined.
(** Shut down while they wait. *)
Lemma sessions_shutdown_witness :
  waiters (lane (demo_slot (demo_labels ++ [SClose; SCloseLane "teller"]))) = [].
Proof.
  destruct (sessions_shutdown demo_config (demo_sessions (demo_labels ++ [SClose])) (SCloseLane "teller")
    (demo_sessions (demo_labels ++ [SClose; SCloseLane "teller"]))) as [_ H].
  - apply demo_lanes_reachable. eexists. vm_compute. reflexivity.
  - apply session_exec_step. vm_compute. reflexivity.
  - destruct H as [_ H]; [vm_compute; reflexivity|].
    destruct (H "teller" (demo_slot (demo_labels ++ [SClose; SCloseLane "teller"]))) as (s & _ & Hs & _); [vm_compute; reflexivity|].
    destruct Hs as (_ & Hw & _); [left; reflexivity|exact Hw].
Defined.
