(* ===== verification/ReportStore.v ===== *)
(** * Report tables (src/migrations, internal/reporting/model.go)

    Datasources, templates with their parameters and options, who may run
    which template, and export jobs, beside the accounts of BrowserStore.v:
    the transactions of reporting read both and write the reporting tables
    and the audit log.  Identifiers of parameters only order their rows; the
    options of a parameter are rows of their own in the source and are kept
    with it here, in the order of their insertion. *)

From S2P Require Import Prelude Calendar Json Access AuditTrail Table ReportParams BrowserStore.
From stdpp Require Import gmap.

Open Scope Z_scope.

Definition ErrNotFound : error := Errorf "reporting record not found".
Definition reporting_ErrConflict : error := Errorf "reporting record changed".
Definition ErrForbidden : error := Errorf "report access denied".
Definition ErrInactive : error := Errorf "reporting record is not active".
Definition ErrReportInvalid (detail : string) : error := Errorf ("invalid report definition: " +:+ detail).
Definition ErrClaimLost : error := Errorf "export claim ownership lost".
Definition ErrLeaseUnproven : error := Errorf "export lease could not be proven".

Definition ReportStatus := string.
Definition StatusActive : ReportStatus := "active".
Definition StatusDisabled : ReportStatus := "disabled".
Definition StatusArchived : ReportStatus := "archived".
Definition TLSPolicy := string.
Definition TLSRequired : TLSPolicy := "required".
Definition TLSDisabled : TLSPolicy := "disabled".

Record Datasource := mkDatasource {
  ds_name : string; ds_description : string; ds_network : string; ds_host : string; ds_port : Z; ds_socket : string;
  ds_database : string; ds_username : string; ds_password : option string; ds_tls : TLSPolicy; ds_status : ReportStatus;
  ds_revision : Z; ds_created_by : Z; ds_updated_by : Z }.
Record template_row := mkTemplateRow {
  te_name : string; te_description : string; te_datasource : Z; te_sql : string; te_status : ReportStatus; te_revision : Z;
  te_created_by : Z; te_updated_by : Z }.
(** [pr_source], [pr_sql] and [pr_default] are NULL columns. *)
Record parameter_row := mkParameterRow {
  pr_id : Z; pr_report : Z; pr_key : string; pr_label : string; pr_type : ParameterType; pr_source : option string;
  pr_sql : option string; pr_required : bool; pr_default : option json; pr_order : Z; pr_options : list ParameterOption }.
(** The parameters an export was submitted with, and their values: the
    document in [parameters_json]. *)
Record Snapshot := mkSnapshot { sn_version : Z; sn_parameters : list ReportParameter; sn_input : gmap string InputValue }.

Inductive job_status := StatusQueued | StatusRunning | StatusSucceeded | StatusFailed.
Record Artifact := mkArtifact { RelativePath : string; ArtifactName : string; ArtifactType : string; ArtifactSize : Z; Parts : Z; Rows : Z }.
(** A row of [report_export_jobs]; the columns a success fills at once are
    [jb_artifact]. *)
Record Job := mkJob {
  jb_id : Z; jb_report : Z; jb_report_name : string; jb_sql : string; jb_datasource : Z; jb_snapshot : Snapshot; jb_user : Z;
  jb_status : job_status; jb_attempt : Z; jb_owner : option string; jb_claimed : option instant; jb_heartbeat : option instant;
  jb_rows : Z; jb_part : Z; jb_artifact : option Artifact; jb_expires : option instant; jb_deleted : option instant;
  jb_failure : option (string * string); jb_created : instant; jb_started : option instant; jb_finished : option instant }.

Record rdb := mkRdb {
  r_base : bdb;
  r_datasources : gmap Z Datasource; r_next_datasource : Z;
  r_templates : gmap Z template_row; r_next_template : Z;
  r_parameters : gmap Z parameter_row; r_next_parameter : Z;
  r_access : gset (Z * Z);                             (* report and user *)
  r_jobs : gmap Z Job; r_next_job : Z }.

Definition set_r_base (x : bdb) (d : rdb) : rdb :=
  mkRdb x (r_datasources d) (r_next_datasource d) (r_templates d) (r_next_template d) (r_parameters d) (r_next_parameter d)
    (r_access d) (r_jobs d) (r_next_job d).
Definition set_r_datasources (x : gmap Z Datasource) (next : Z) (d : rdb) : rdb :=
  mkRdb (r_base d) x next (r_templates d) (r_next_template d) (r_parameters d) (r_next_parameter d)
    (r_access d) (r_jobs d) (r_next_job d).
Definition set_r_templates (x : gmap Z template_row) (next : Z) (d : rdb) : rdb :=
  mkRdb (r_base d) (r_datasources d) (r_next_datasource d) x next (r_parameters d) (r_next_parameter d)
    (r_access d) (r_jobs d) (r_next_job d).
Definition set_r_parameters (x : gmap Z parameter_row) (next : Z) (d : rdb) : rdb :=
  mkRdb (r_base d) (r_datasources d) (r_next_datasource d) (r_templates d) (r_next_template d) x next
    (r_access d) (r_jobs d) (r_next_job d).
Definition set_r_access (x : gset (Z * Z)) (d : rdb) : rdb :=
  mkRdb (r_base d) (r_datasources d) (r_next_datasource d) (r_templates d) (r_next_template d) (r_parameters d) (r_next_parameter d)
    x (r_jobs d) (r_next_job d).
Definition set_r_jobs (x : gmap Z Job) (next : Z) (d : rdb) : rdb :=
  mkRdb (r_base d) (r_datasources d) (r_next_datasource d) (r_templates d) (r_next_template d) (r_parameters d) (r_next_parameter d)
    (r_access d) x next.

(** Work on the accounts, as part of a transaction on everything. *)
Definition on_base {A} (m : Tx bdb A) : Tx rdb A := λ d,
  match m (r_base d) with Ok (a, b) => Ok (a, set_r_base b d) | Err e => Err e end.

(** ** The audit log *)

#[export] Program Instance report_audit : AuditLog rdb := {|
  audit_logs d := b_audit (r_base d); known_user d := known (r_base d); insert_audit row := on_base (insert_audit row) |}.
Next Obligation.
  intros row d r. unfold on_base. destruct (insert_audit row (r_base d)) as [[a b]|] eqn:E; [|done]. intros [= <-].
  apply (insert_audit_Ok (S := bdb)) in E. exact E.
Qed.
Next Obligation.
  intros row d e. unfold on_base. destruct (insert_audit row (r_base d)) as [[a b]|] eqn:E; [done|]. intros [= <-].
  by apply (insert_audit_Err (S := bdb)) in E.
Qed.

(** ** Datasources *)

(** [chk_report_datasources_connection] and the other checks. *)
Definition datasource_check (r : Datasource) : bool :=
  (((ds_network r =? "tcp")%string && (1 <=? ds_port r) && (ds_port r <=? 65535) && (ds_socket r =? "")%string) ||
   ((ds_network r =? "unix")%string && (ds_host r =? "")%string && (ds_port r =? 0) && negb (ds_socket r =? "")%string &&
    (ds_tls r =? TLSDisabled)%string && negb (isSome (ds_password r)))) &&
  ((ds_tls r =? TLSRequired)%string || (ds_tls r =? TLSDisabled)%string) &&
  bool_decide (ds_status r ∈ [StatusActive; StatusDisabled; StatusArchived]) && (0 <? ds_revision r).
(** Another row has the name. *)
Definition name_taken {R} (name : R → string) (id : Z) (value : string) (t : gmap Z R) : bool :=
  existsb (λ r, negb (r.1 =? id) && (name r.2 =? value)%string) (map_to_list t).
Definition users_known (d : rdb) (users : list Z) : bool := forallb (known (r_base d)) users.

Definition put_datasource (id : Z) (r : Datasource) : Tx rdb unit := λ d,
  if name_taken ds_name id (ds_name r) (r_datasources d) then Err ErrDuplicateKey else
  if negb (users_known d [ds_created_by r; ds_updated_by r]) then Err ErrForeignKey else
  if negb (datasource_check r) then Err ErrCheckConstraint else
  Ok (tt, set_r_datasources (<[id := r]> (r_datasources d)) (Z.max (r_next_datasource d) (id + 1)) d).
Definition insert_datasource (r : Datasource) : Tx rdb Z := λ d,
  let id := r_next_datasource d in tx_bind (put_datasource id r) (λ _, tx_ret id) d.
(** [UPDATE report_datasources SET ... WHERE id=? AND ...]: the affected rows. *)
Definition update_datasource (id : Z) (cond : Datasource → bool) (set : Datasource → Datasource) : Tx rdb Z := λ d,
  match r_datasources d !! id with
  | Some r => if cond r then tx_bind (put_datasource id (set r)) (λ _, tx_ret 1) d else Ok (0, d)
  | None => Ok (0, d)
  end.

(** ** Templates *)

Definition template_check (r : template_row) : bool :=
  bool_decide (te_status r ∈ [StatusActive; StatusDisabled; StatusArchived]) && (0 <? te_revision r).
Definition put_template (id : Z) (r : template_row) : Tx rdb unit := λ d,
  if name_taken te_name id (te_name r) (r_templates d) then Err ErrDuplicateKey else
  if negb (isSome (r_datasources d !! te_datasource r)) || negb (users_known d [te_created_by r; te_updated_by r])
  then Err ErrForeignKey else
  if negb (template_check r) then Err ErrCheckConstraint else
  Ok (tt, set_r_templates (<[id := r]> (r_templates d)) (Z.max (r_next_template d) (id + 1)) d).
Definition insert_template (r : template_row) : Tx rdb Z := λ d,
  let id := r_next_template d in tx_bind (put_template id r) (λ _, tx_ret id) d.
Definition update_template (id : Z) (cond : template_row → bool) (set : template_row → template_row) : Tx rdb Z := λ d,
  match r_templates d !! id with
  | Some r => if cond r then tx_bind (put_template id (set r)) (λ _, tx_ret 1) d else Ok (0, d)
  | None => Ok (0, d)
  end.

(** ** Parameters *)

(** [chk_report_parameters_option_source] and [chk_report_parameters_type]. *)
Definition parameter_check (r : parameter_row) : bool :=
  match pr_type r with
  | ParameterTypeOther _ => false
  | ParameterSingleOption | ParameterMultipleOption =>
      match pr_source r with
      | Some source => ((source =? OptionSourceStatic)%string && negb (isSome (pr_sql r))) || ((source =? OptionSourceDynamic)%string && isSome (pr_sql r))
      | None => false
      end
  | _ => negb (isSome (pr_source r)) && negb (isSome (pr_sql r))
  end.
Definition same_parameter (r r' : parameter_row) : bool :=
  (pr_report r =? pr_report r') && ((pr_key r =? pr_key r')%string || (pr_order r =? pr_order r')).
Definition insert_parameter (row : Z → parameter_row) : Tx rdb Z := λ d,
  let id := r_next_parameter d in
  let r := row id in
  if existsb (λ r', same_parameter r r'.2) (map_to_list (r_parameters d)) then Err ErrDuplicateKey else
  if negb (isSome (r_templates d !! pr_report r)) then Err ErrForeignKey else
  if negb (parameter_check r) then Err ErrCheckConstraint else
  Ok (id, set_r_parameters (<[id := r]> (r_parameters d)) (id + 1) d).
(** [INSERT INTO report_parameter_options] *)
Definition insert_option (parameter : Z) (o : ParameterOption) : Tx rdb unit := λ d,
  match r_parameters d !! parameter with
  | None => Err ErrForeignKey
  | Some r =>
      if existsb (λ o', (opt_value o =? opt_value o')%string || (opt_order o =? opt_order o')) (pr_options r) then Err ErrDuplicateKey else
      Ok (tt, set_r_parameters (<[parameter := mkParameterRow (pr_id r) (pr_report r) (pr_key r) (pr_label r) (pr_type r) (pr_source r)
        (pr_sql r) (pr_required r) (pr_default r) (pr_order r) (pr_options r ++ [o])]> (r_parameters d)) (r_next_parameter d) d)
  end.
(** [DELETE FROM report_parameters WHERE report_id=?], options included. *)
Definition delete_parameters (report : Z) (d : rdb) : rdb :=
  set_r_parameters (filter (λ r, pr_report r.2 ≠ report) (r_parameters d)) (r_next_parameter d) d.

(** ** Export jobs *)

#[export] Instance ParameterOption_eq_dec : EqDecision ParameterOption. Proof. solve_decision. Defined.
#[export] Instance json_eq_dec : EqDecision json.
Proof.
  unfold EqDecision. fix go 1. intros x y. unfold Decision. decide equality; try apply bool_dec; try apply String.string_dec.
  - apply List.list_eq_dec. exact go.
  - apply List.list_eq_dec. intros [k v] [k' v']. destruct (String.string_dec k k') as [->|]; [|right; congruence].
    destruct (go v v') as [->|]; [by left|right; congruence].
Defined.
#[export] Instance ReportParameter_eq_dec : EqDecision ReportParameter. Proof. solve_decision. Defined.
#[export] Instance InputValue_eq_dec : EqDecision InputValue. Proof. solve_decision. Defined.
#[export] Instance Snapshot_eq_dec : EqDecision Snapshot. Proof. solve_decision. Defined.
#[export] Instance job_status_eq_dec : EqDecision job_status. Proof. solve_decision. Defined.
#[export] Instance Artifact_eq_dec : EqDecision Artifact. Proof. solve_decision. Defined.
#[export] Instance Job_eq_dec : EqDecision Job. Proof. solve_decision. Defined.

(** [UPDATE report_export_jobs SET ... WHERE id=? AND ...]: the affected rows. *)
Definition update_job (id : Z) (cond : Job → bool) (set : Job → Job) : Tx rdb Z := λ d,
  let r := update_at id cond set (r_jobs d) in Ok (r.2, set_r_jobs r.1 (r_next_job d) d).
Definition update_jobs (cond : Job → bool) (set : Job → Job) : Tx rdb Z := λ d,
  let r := update_all cond set (r_jobs d) in Ok (r.2, set_r_jobs r.1 (r_next_job d) d).
Definition insert_job (row : Z → Job) : Tx rdb Z := λ d,
  let id := r_next_job d in
  let r := row id in
  if negb (isSome (r_templates d !! jb_report r)) || negb (isSome (r_datasources d !! jb_datasource r)) || negb (known (r_base d) (jb_user r))
  then Err ErrForeignKey else
  if negb (sn_version (jb_snapshot r) =? 1) then Err ErrCheckConstraint else
  Ok (id, set_r_jobs (<[id := r]> (r_jobs d)) (id + 1) d).
