(* ===== verification/ReportTemplates.v ===== *)
(** * The report repository (src/internal/reporting/repository.go, crypto.go)

    How datasources and templates are created, changed and switched on and
    off, and how access is granted: one transaction each, fenced by the
    revision the user saw.  What a transaction returns is what the read after
    its commit starts from; that read is a step of its own.  The policy on
    destinations is an argument. *)

From S2P Require Import Prelude Calendar Json Access AuditTrail Table Secrets SqlScan ReportParams ReportBind BrowserStore ReportStore.
From stdpp Require Import gmap sorting.

Open Scope Z_scope.

Definition appendAudit (requester : Requester) (action : Action) (resource : ResourceType) (id : Z) (metadata : Metadata) (now : instant) :
    Tx rdb unit :=
  Append (mkEvent (attribution_of requester) action (Some resource) id metadata now).

(** [SELECT ... WHERE id=?] *)
Definition FindDatasource (id : Z) : Tx rdb Datasource := λ d,
  match r_datasources d !! id with Some r => Ok (r, d) | None => Err ErrNotFound end.
Definition find_template_row (id : Z) : Tx rdb template_row := λ d,
  match r_templates d !! id with Some r => Ok (r, d) | None => Err ErrNotFound end.

(** ** Datasources *)

Record DatasourceInput := mkDatasourceInput {
  di_name : string; di_description : string; di_host : string; di_database : string; di_username : string; di_password : string;
  di_network : string; di_socket : string; di_port : Z; di_tls : TLSPolicy }.

Definition normalizeDatasourceInput (input : DatasourceInput) : DatasourceInput :=
  let network := trim_space (di_network input) in
  let network := if (network =? "")%string then "tcp" else network in
  let unix := (network =? "unix")%string in
  mkDatasourceInput (trim_space (di_name input)) (di_description input)
    (if unix then "" else trim_space (di_host input)) (trim_space (di_database input)) (trim_space (di_username input)) (di_password input)
    network (if (network =? "tcp")%string then "" else trim_space (di_socket input)) (if unix then 0 else di_port input)
    (if unix && (di_tls input =? "")%string then TLSDisabled else di_tls input).

Definition validateDatasourceInput (input : DatasourceInput) (passwordRequired : bool) : result unit :=
  let input := normalizeDatasourceInput input in
  if (di_name input =? "")%string || (di_database input =? "")%string || (di_username input =? "")%string
  then Err (ErrReportInvalid "datasource connection fields are required") else
  let? _ :=
    if (di_network input =? "tcp")%string then
      if (di_host input =? "")%string || (di_port input =? 0) then Err (ErrReportInvalid "TCP host and port are required") else
      if passwordRequired && (di_password input =? "")%string then Err (ErrReportInvalid "datasource password is required") else Ok tt
    else if (di_network input =? "unix")%string then
      if (di_socket input =? "")%string || Nat.ltb 1024 (String.length (di_socket input)) || negb (has_prefix (di_socket input) "/") ||
         string_existsb (λ c, (code c =? 0)%N) (di_socket input)
      then Err (ErrReportInvalid "Unix socket path must be an absolute path of at most 1024 bytes without NUL") else
      if negb (di_password input =? "")%string || negb (di_tls input =? TLSDisabled)%string
      then Err (ErrReportInvalid "Unix socket connections require no password and disabled TLS") else Ok tt
    else Err (ErrReportInvalid "connection must be TCP or Unix socket") in
  if negb (di_tls input =? TLSRequired)%string && negb (di_tls input =? TLSDisabled)%string
  then Err (ErrReportInvalid "TLS policy must be required or disabled") else Ok tt.

Definition datasourceUpdateMetadata (existing : Datasource) (input : DatasourceInput) : json :=
  let network := if (ds_network existing =? "")%string then "tcp" else ds_network existing in
  let changed := filter (λ f : string * bool, f.2 = true) [
    ("network", negb (network =? di_network input)%string); ("host", negb (ds_host existing =? di_host input)%string);
    ("port", negb (ds_port existing =? di_port input)); ("socket_path", negb (ds_socket existing =? di_socket input)%string);
    ("database_name", negb (ds_database existing =? di_database input)%string);
    ("username", negb (ds_username existing =? di_username input)%string); ("tls_policy", negb (ds_tls existing =? di_tls input)%string)] in
  let credentials := negb (di_password input =? "")%string || negb (network =? di_network input)%string ||
    negb (ds_username existing =? di_username input)%string in
  JObj ([("credentials_changed", JBool credentials); ("connection_changed", JBool (negb (Nat.eqb (length changed) 0)))] ++
        match changed with [] => [] | _ => [("changed_fields", JArr (JStr <$> changed.*1))] end).

Section Repository.
Context {aead : Aead}.
(** [DestinationPolicy.Validate] *)
Variable destinations : string → string → string → result unit.

Definition datasourcePassword (nonce : string) (id : Z) (input : DatasourceInput) (existing : option Datasource) : result (option string) :=
  if (di_network input =? "unix")%string then Ok None else
  if negb (di_password input =? "")%string then
    let? envelope := Encrypt nonce PurposeReportingDatasourcePassword id (di_password input) in Ok (Some envelope)
  else match existing with
    | Some row =>
        if (ds_network row =? "unix")%string || (default "" (ds_password row) =? "")%string
        then Err (ErrReportInvalid "a new password is required for TCP") else Ok (ds_password row)
    | None => Err (ErrReportInvalid "a new password is required for TCP")
    end.

Definition CreateDatasource (nonce : string) (requester : Requester) (input : DatasourceInput) (now : instant) : Tx rdb Z :=
  let input := normalizeDatasourceInput input in
  let* _ := tx_lift (destinations (di_network input) (di_host input) (di_socket input)) in
  let* _ := tx_lift (validateDatasourceInput input true) in
  let user := UserID (Effective requester) in
  let* id := insert_datasource (mkDatasource (di_name input) (di_description input) (di_network input) (di_host input) (di_port input)
    (di_socket input) (di_database input) (di_username input) None (di_tls input) StatusDisabled 1 user user) in
  let* ciphertext := tx_lift (datasourcePassword nonce id input None) in
  let* _ := update_datasource id (λ _, true) (λ r, mkDatasource (ds_name r) (ds_description r) (ds_network r) (ds_host r) (ds_port r)
    (ds_socket r) (ds_database r) (ds_username r) ciphertext (ds_tls r) (ds_status r) (ds_revision r) (ds_created_by r) (ds_updated_by r)) in
  appendAudit requester ActionReportDatasourceCreated ResourceReportDatasource id None now ;;;
  tx_ret id.

Definition UpdateDatasource (nonce : string) (requester : Requester) (id expectedRevision : Z) (input : DatasourceInput) (now : instant) :
    Tx rdb unit :=
  let input := normalizeDatasourceInput input in
  let* _ := tx_lift (destinations (di_network input) (di_host input) (di_socket input)) in
  let* _ := tx_lift (validateDatasourceInput input false) in
  let* existing := FindDatasource id in
  tx_guard (ds_revision existing =? expectedRevision) reporting_ErrConflict ;;;
  tx_guard (negb (ds_status existing =? StatusArchived)%string) ErrInactive ;;;
  let* ciphertext := tx_lift (datasourcePassword nonce id input (Some existing)) in
  let* affected := update_datasource id (λ r, ds_revision r =? expectedRevision)
    (λ r, mkDatasource (di_name input) (di_description input) (di_network input) (di_host input) (di_port input)
      (di_socket input) (di_database input) (di_username input) ciphertext (di_tls input) (ds_status r) (ds_revision r + 1)
      (ds_created_by r) (UserID (Effective requester))) in
  tx_guard (affected =? 1) reporting_ErrConflict ;;;
  appendAudit requester ActionReportDatasourceUpdated ResourceReportDatasource id (Some (datasourceUpdateMetadata existing input)) now.
End Repository.

Definition valid_status (status : ReportStatus) : bool := bool_decide (status ∈ [StatusActive; StatusDisabled; StatusArchived]).

Definition SetDatasourceStatus (requester : Requester) (id expectedRevision : Z) (status : ReportStatus) (now : instant) : Tx rdb unit :=
  tx_guard (valid_status status) (ErrReportInvalid "invalid datasource status") ;;;
  let* existing := FindDatasource id in
  let from := ds_status existing in
  tx_guard (negb (from =? StatusArchived)%string) ErrInactive ;;;
  let* affected := update_datasource id (λ r, ds_revision r =? expectedRevision)
    (λ r, mkDatasource (ds_name r) (ds_description r) (ds_network r) (ds_host r) (ds_port r) (ds_socket r) (ds_database r)
      (ds_username r) (ds_password r) (ds_tls r) status (ds_revision r + 1) (ds_created_by r) (UserID (Effective requester))) in
  tx_guard (affected =? 1) reporting_ErrConflict ;;;
  appendAudit requester ActionReportDatasourceStateChanged ResourceReportDatasource id (Some (StatusChangeMetadata from status)) now.

(** ** Templates *)

Record TemplateInput := mkTemplateInput {
  ti_name : string; ti_description : string; ti_sql : string; ti_datasource : Z; ti_parameters : list ReportParameter }.
Record Template := mkTemplate {
  t_id : Z; t_name : string; t_description : string; t_datasource : Z; t_datasource_name : string; t_datasource_status : ReportStatus;
  t_sql : string; t_status : ReportStatus; t_revision : Z; t_parameters : list ReportParameter }.

Definition validateTemplateInput (input : TemplateInput) : result unit :=
  if (trim_space (ti_name input) =? "")%string || (ti_datasource input =? 0) then Err (ErrReportInvalid "report name and datasource are required") else
  if 2 ^ 20 <? Z.of_nat (String.length (ti_sql input)) then Err (ErrReportInvalid "SQL exceeds 1 MiB") else
  ValidateParameters (ti_parameters input).

(** The row of a parameter. *)
Definition stored_parameter (report : Z) (p : ReportParameter) (id : Z) : parameter_row :=
  mkParameterRow id report (p_key p) (p_label p) (p_type p)
    (if isOptionType (p_type p) then Some (effectiveOptionSource p) else None)
    (if isOptionType (p_type p) && is_dynamic p then Some (p_sql p) else None)
    (p_required p) (p_default p) (p_order p) [].
Fixpoint insert_options (parameter : Z) (options : list ParameterOption) : Tx rdb unit :=
  match options with
  | [] => tx_ret tt
  | o :: options => insert_option parameter o ;;; insert_options parameter options
  end.
Fixpoint insert_parameters (report : Z) (parameters : list ReportParameter) : Tx rdb unit :=
  match parameters with
  | [] => tx_ret tt
  | p :: parameters =>
      let* id := insert_parameter (stored_parameter report p) in
      insert_options id (p_options p) ;;; insert_parameters report parameters
  end.
Definition replaceParameters (report : Z) (parameters : list ReportParameter) : Tx rdb unit :=
  tx_modify (delete_parameters report) ;;; insert_parameters report parameters.

(** [ORDER BY display_order,id], and what the columns are read as. *)
Definition row_before (a b : parameter_row) : bool := (pr_order a <? pr_order b) || ((pr_order a =? pr_order b) && (pr_id a <? pr_id b)).
Definition loaded_parameter (r : parameter_row) : ReportParameter :=
  mkParameter (pr_key r) (pr_label r) (pr_type r) (default "" (pr_source r)) (default "" (pr_sql r)) (pr_required r)
    (Some (default JNull (pr_default r))) (pr_order r) (sort_by option_before (pr_options r)).
Definition parameters_of (report : Z) (d : rdb) : list ReportParameter :=
  loaded_parameter <$> select_by row_before (λ r, pr_report r =? report) (r_parameters d).

Definition FindTemplate (id : Z) (d : rdb) : result Template :=
  match r_templates d !! id with
  | None => Err ErrNotFound
  | Some r =>
      match r_datasources d !! te_datasource r with
      | None => Err ErrNotFound
      | Some s => Ok (mkTemplate id (te_name r) (te_description r) (te_datasource r) (ds_name s) (ds_status s) (te_sql r) (te_status r)
          (te_revision r) (parameters_of id d))
      end
  end.

Definition CreateTemplate (requester : Requester) (input : TemplateInput) (now : instant) : Tx rdb Z :=
  let* _ := tx_lift (validateTemplateInput input) in
  let user := UserID (Effective requester) in
  let* id := insert_template (mkTemplateRow (ti_name input) (ti_description input) (ti_datasource input) (ti_sql input) StatusDisabled 1 user user) in
  replaceParameters id (ti_parameters input) ;;;
  appendAudit requester ActionReportTemplateCreated ResourceReportTemplate id None now ;;;
  tx_ret id.

Definition UpdateTemplate (requester : Requester) (id expectedRevision : Z) (input : TemplateInput) (now : instant) : Tx rdb unit :=
  let* _ := tx_lift (validateTemplateInput input) in
  let* existing := find_template_row id in
  tx_guard (te_revision existing =? expectedRevision) reporting_ErrConflict ;;;
  tx_guard (negb (te_status existing =? StatusArchived)%string) ErrInactive ;;;
  let* affected := update_template id (λ r, te_revision r =? expectedRevision)
    (λ r, mkTemplateRow (ti_name input) (ti_description input) (ti_datasource input) (ti_sql input) (te_status r) (te_revision r + 1)
      (te_created_by r) (UserID (Effective requester))) in
  tx_guard (affected =? 1) reporting_ErrConflict ;;;
  replaceParameters id (ti_parameters input) ;;;
  appendAudit requester ActionReportTemplateUpdated ResourceReportTemplate id None now.

Definition SetTemplateStatus (requester : Requester) (id expectedRevision : Z) (status : ReportStatus) (now : instant) : Tx rdb unit :=
  tx_guard (valid_status status) (ErrReportInvalid "invalid report status") ;;;
  let* existing := find_template_row id in
  let from := te_status existing in
  tx_guard (negb (from =? StatusArchived)%string) ErrInactive ;;;
  let* affected := update_template id (λ r, te_revision r =? expectedRevision)
    (λ r, mkTemplateRow (te_name r) (te_description r) (te_datasource r) (te_sql r) status (te_revision r + 1) (te_created_by r)
      (UserID (Effective requester))) in
  tx_guard (affected =? 1) reporting_ErrConflict ;;;
  appendAudit requester ActionReportTemplateStateChanged ResourceReportTemplate id (Some (StatusChangeMetadata from status)) now.

(** ** Access *)

Definition user_active (d : rdb) (user : Z) : bool :=
  match b_users (r_base d) !! user with Some u => us_active u | None => false end.
Definition HasAccess (report user : Z) (d : rdb) : bool := bool_decide ((report, user) ∈ r_access d) && user_active d user.

Definition AccessChangeMetadata (user : Z) (granted : bool) : json := JObj [("user_id", jnum user); ("granted", JBool granted)].
Definition grant_access (report user : Z) : Tx rdb unit := λ d,
  if isSome (r_templates d !! report) && known (r_base d) user then Ok (tt, set_r_access ({[(report, user)]} ∪ r_access d) d) else Err ErrForeignKey.
Definition SetAccess (requester : Requester) (report user : Z) (grant : bool) (now : instant) : Tx rdb unit :=
  let* row := tx_gets (λ d, b_users (r_base d) !! user) in
  match row with
  | None => tx_fail ErrNotFound
  | Some u =>
      tx_guard (negb (grant && negb (us_active u))) (ErrReportInvalid "user is inactive") ;;;
      (if grant then grant_access report user else tx_modify (λ d, set_r_access (r_access d ∖ {[(report, user)]}) d)) ;;;
      appendAudit requester ActionReportTemplateAccessChanged ResourceReportTemplate report (Some (AccessChangeMetadata user grant)) now
  end.

(** ** What statements do *)

Lemma appendAudit_Ok requester action resource id metadata now d u d' :
  appendAudit requester action resource id metadata now d = Ok (u, d') →
  ∃ row, audit_row_of (mkEvent (attribution_of requester) action (Some resource) id metadata now) = Ok row ∧
    d' = set_r_base (set_b_audit (b_audit (r_base d) ++ [row]) (r_base d)) d.
Proof.
  unfold appendAudit, Append. intros (row & s & (row' & Hr & [= -> ->])%tx_lift_Ok & Hi)%tx_bind_Ok. exists row'. split; [done|].
  cbn in Hi. unfold on_base, insert_browser_audit in Hi. destruct (negb _); [done|]. by injection Hi as _ <-.
Qed.

Lemma update_datasource_Ok id cond set d n d' : update_datasource id cond set d = Ok (n, d') →
  n = 0 ∧ d' = d ∨ n = 1 ∧ ∃ r, r_datasources d !! id = Some r ∧ cond r = true ∧ datasource_check (set r) = true ∧
    d' = set_r_datasources (<[id := set r]> (r_datasources d)) (Z.max (r_next_datasource d) (id + 1)) d.
Proof.
  unfold update_datasource. destruct (r_datasources d !! id) as [r|]; [|intros [= <- <-]; by left].
  destruct (cond r) eqn:Hc; [|intros [= <- <-]; by left]. unfold put_datasource, tx_bind.
  repeat case_match; try done; simplify_eq. intros [= <- <-]. right. split; [done|]. exists r. split; [done|]. split; [done|].
  split; [|done]. by apply negb_false_iff.
Qed.
Lemma update_template_Ok id cond set d n d' : update_template id cond set d = Ok (n, d') →
  n = 0 ∧ d' = d ∨ n = 1 ∧ ∃ r, r_templates d !! id = Some r ∧ cond r = true ∧ template_check (set r) = true ∧
    d' = set_r_templates (<[id := set r]> (r_templates d)) (Z.max (r_next_template d) (id + 1)) d.
Proof.
  unfold update_template. destruct (r_templates d !! id) as [r|]; [|intros [= <- <-]; by left].
  destruct (cond r) eqn:Hc; [|intros [= <- <-]; by left]. unfold put_template, tx_bind.
  repeat case_match; try done; simplify_eq. intros [= <- <-]. right. split; [done|]. exists r. split; [done|]. split; [done|].
  split; [|done]. by apply negb_false_iff.
Qed.
Lemma FindDatasource_Ok id d r d' : FindDatasource id d = Ok (r, d') → r_datasources d !! id = Some r ∧ d' = d.
Proof. unfold FindDatasource. case_match; naive_solver. Qed.
Lemma find_template_row_Ok id d r d' : find_template_row id d = Ok (r, d') → r_templates d !! id = Some r ∧ d' = d.
Proof. unfold find_template_row. case_match; naive_solver. Qed.

(** Parameters and options: only their table changes. *)
Definition parameters_only (d d' : rdb) : Prop := ∃ x next, d' = set_r_parameters x next d.
Lemma parameters_only_refl d : parameters_only d d.
Proof. exists (r_parameters d), (r_next_parameter d). by destruct d. Qed.
Lemma parameters_only_trans d d1 d2 : parameters_only d d1 → parameters_only d1 d2 → parameters_only d d2.
Proof. intros (x & n & ->) (y & m & ->). by exists y, m. Qed.
Lemma insert_parameter_Ok row d id d' : insert_parameter row d = Ok (id, d') →
  id = r_next_parameter d ∧ d' = set_r_parameters (<[id := row id]> (r_parameters d)) (id + 1) d ∧
  parameter_check (row id) = true ∧ is_Some (r_templates d !! pr_report (row id)) ∧
  ∀ i r, r_parameters d !! i = Some r → same_parameter (row id) r = false.
Proof.
  unfold insert_parameter. destruct (existsb _ _) eqn:Ex; [done|]. destruct (r_templates d !! _) as [t|] eqn:Et; [|done]. cbn [isSome negb].
  destruct (parameter_check _) eqn:Ec; [|done]. intros [= <- <-]. split_and!; [done|done|done|eauto|].
  intros i r Hi. destruct (same_parameter _ r) eqn:E; [|done]. assert (existsb (λ r', same_parameter (row (r_next_parameter d)) r'.2) (map_to_list (r_parameters d)) = true); [|congruence].
  apply existsb_exists. exists (i, r). split; [|done]. by apply list_elem_of_In, elem_of_map_to_list.
Qed.

Lemma insert_option_only parameter o d u d' : insert_option parameter o d = Ok (u, d') → parameters_only d d'.
Proof. unfold insert_option. repeat case_match; try done. intros [= <- <-]. by eexists _, _. Qed.
Lemma insert_options_only parameter options : ∀ d u d', insert_options parameter options d = Ok (u, d') → parameters_only d d'.
Proof.
  induction options as [|o options IH]; intros d u d' H; cbn [insert_options] in H; [injection H as <- <-; apply parameters_only_refl|].
  apply tx_bind_Ok in H as ([] & s & H1 & H2). eapply parameters_only_trans; [by eapply insert_option_only|by eapply IH].
Qed.
Lemma insert_parameters_only report parameters : ∀ d u d', insert_parameters report parameters d = Ok (u, d') → parameters_only d d'.
Proof.
  induction parameters as [|p parameters IH]; intros d u d' H; cbn [insert_parameters] in H; [injection H as <- <-; apply parameters_only_refl|].
  apply tx_bind_Ok in H as (id & s & H1 & H2). apply tx_bind_Ok in H2 as ([] & s2 & H2 & H3).
  apply insert_parameter_Ok in H1 as (_ & -> & _). eapply parameters_only_trans; [by eexists _, _|].
  eapply parameters_only_trans; [by eapply insert_options_only|by eapply IH].
Qed.
Lemma replaceParameters_only report parameters d u d' : replaceParameters report parameters d = Ok (u, d') → parameters_only d d'.
Proof.
  unfold replaceParameters. intros ([] & s & [= <-] & H)%tx_bind_Ok. eapply parameters_only_trans; [by eexists _, _|by eapply insert_parameters_only].
Qed.

(** ** Revisions *)

(** The changes users make to a datasource or a template they have seen. *)
Inductive report_change :=
  | ChangeDatasource (nonce : string) (input : DatasourceInput) | ChangeDatasourceStatus (status : ReportStatus)
  | ChangeTemplate (input : TemplateInput) | ChangeTemplateStatus (status : ReportStatus).
Definition apply_change {aead : Aead} (destinations : string → string → string → result unit) (change : report_change) (requester : Requester)
    (id expectedRevision : Z) (now : instant) : Tx rdb unit :=
  match change with
  | ChangeDatasource nonce input => UpdateDatasource destinations nonce requester id expectedRevision input now
  | ChangeDatasourceStatus status => SetDatasourceStatus requester id expectedRevision status now
  | ChangeTemplate input => UpdateTemplate requester id expectedRevision input now
  | ChangeTemplateStatus status => SetTemplateStatus requester id expectedRevision status now
  end.
Definition changes_template (change : report_change) : bool :=
  match change with ChangeTemplate _ | ChangeTemplateStatus _ => true | _ => false end.
(** Revision and status of a row of the table a change is about. *)
Definition version_of (template : bool) (id : Z) (d : rdb) : option (Z * ReportStatus) :=
  if template then (λ r, (te_revision r, te_status r)) <$> r_templates d !! id
  else (λ r, (ds_revision r, ds_status r)) <$> r_datasources d !! id.

(** What a committed change amounts to. *)
Definition audited (requester : Requester) (id : Z) (row : audit_row) : Prop :=
  al_actor row = Some (Actor requester) ∧ al_effective row = Some (Effective requester) ∧ ∃ resource, al_resource row = Some (resource, id).
Lemma appendAudit_audited requester action resource id metadata now d u d' :
  appendAudit requester action resource id metadata now d = Ok (u, d') →
  ∃ row, audited requester id row ∧ d' = set_r_base (set_b_audit (b_audit (r_base d) ++ [row]) (r_base d)) d.
Proof.
  intros (row & Hrow & ->)%appendAudit_Ok. exists row. split; [|done]. apply audit_row_of_Ok in Hrow as (_ & _ & Ha & He & Hr & _).
  split; [done|]. split; [done|]. by exists resource.
Qed.

Definition changed_row {R} (revision : R → Z) (status : R → ReportStatus) (expected : Z) (r r' : R) : Prop :=
  revision r = expected ∧ status r ≠ StatusArchived ∧ revision r' = expected + 1.
Lemma change_datasource_effect {aead : Aead} destinations change requester id expected now d d' : changes_template change = false →
  apply_change destinations change requester id expected now d = Ok (tt, d') → ∃ r r' next row,
    r_datasources d !! id = Some r ∧ changed_row ds_revision ds_status expected r r' ∧ datasource_check r' = true ∧ audited requester id row ∧
    d' = set_r_base (set_b_audit (b_audit (r_base d) ++ [row]) (r_base d)) (set_r_datasources (<[id := r']> (r_datasources d)) next d).
Proof.
  intros Hc H.
  assert (Hcase : ∀ r set d0, r_datasources d !! id = Some r → negb (ds_status r =? StatusArchived)%string = true → ∀ n,
    update_datasource id (λ r, ds_revision r =? expected) set d = Ok (n, d0) → (n =? 1) = true → (∀ r, ds_revision (set r) = ds_revision r + 1) →
    ∀ row, audited requester id row → d' = set_r_base (set_b_audit (b_audit (r_base d0) ++ [row]) (r_base d0)) d0 →
    ∃ r r' next row, r_datasources d !! id = Some r ∧ changed_row ds_revision ds_status expected r r' ∧ datasource_check r' = true ∧
      audited requester id row ∧
      d' = set_r_base (set_b_audit (b_audit (r_base d) ++ [row]) (r_base d)) (set_r_datasources (<[id := r']> (r_datasources d)) next d)).
  { intros r set d0 Hr Hst%negb_true_iff%String.eqb_neq n Hup Hn Hset row Ha ->. apply Z.eqb_eq in Hn as ->.
    apply update_datasource_Ok in Hup as [[? _]|(_ & r' & Hr' & Hcond%Z.eqb_eq & Hcheck & ->)]; [done|]. simplify_eq.
    eexists _, _, _, row. split_and!; [exact Hr|split_and!; [done|done|apply Hset]|exact Hcheck|exact Ha|reflexivity]. }
  destruct change as [nonce input|status| |]; try done; cbn [apply_change] in H; unfold UpdateDatasource, SetDatasourceStatus in H; tx_open H;
    apply FindDatasource_Ok in Hst as [Hr ->]; apply appendAudit_audited in H as (row & Ha & Hd'); by eapply Hcase.
Qed.
Lemma change_template_effect {aead : Aead} destinations change requester id expected now d d' : changes_template change = true →
  apply_change destinations change requester id expected now d = Ok (tt, d') → ∃ r r' next row params next',
    r_templates d !! id = Some r ∧ changed_row te_revision te_status expected r r' ∧ template_check r' = true ∧ audited requester id row ∧
    d' = set_r_base (set_b_audit (b_audit (r_base d) ++ [row]) (r_base d))
      (set_r_parameters params next' (set_r_templates (<[id := r']> (r_templates d)) next d)).
Proof.
  intros Hc H.
  assert (Hcase : ∀ r set d0 d1, r_templates d !! id = Some r → negb (te_status r =? StatusArchived)%string = true → ∀ n,
    update_template id (λ r, te_revision r =? expected) set d = Ok (n, d0) → (n =? 1) = true → (∀ r, te_revision (set r) = te_revision r + 1) →
    parameters_only d0 d1 → ∀ row, audited requester id row → d' = set_r_base (set_b_audit (b_audit (r_base d1) ++ [row]) (r_base d1)) d1 →
    ∃ r r' next row params next', r_templates d !! id = Some r ∧ changed_row te_revision te_status expected r r' ∧ template_check r' = true ∧
      audited requester id row ∧ d' = set_r_base (set_b_audit (b_audit (r_base d) ++ [row]) (r_base d))
      (set_r_parameters params next' (set_r_templates (<[id := r']> (r_templates d)) next d))).
  { intros r set d0 d1 Hr Hst%negb_true_iff%String.eqb_neq n Hup Hn Hset (params & next' & ->) row Ha ->. apply Z.eqb_eq in Hn as ->.
    apply update_template_Ok in Hup as [[? _]|(_ & r' & Hr' & Hcond%Z.eqb_eq & Hcheck & ->)]; [done|]. simplify_eq.
    eexists _, _, _, row, params, next'. split_and!; [exact Hr|split_and!; [done|done|apply Hset]|exact Hcheck|exact Ha|reflexivity]. }
  destruct change as [| |input|status]; try done; cbn [apply_change] in H; unfold UpdateTemplate, SetTemplateStatus in H; tx_open H;
    apply find_template_row_Ok in Hst as [Hr ->]; apply appendAudit_audited in H as (row & Ha & Hd').
  - eapply Hcase; try done. by eapply replaceParameters_only.
  - eapply Hcase; try done. apply parameters_only_refl.
Qed.
(** Both at once: the version that changes and what stays. *)
Lemma change_effect {aead : Aead} destinations change requester id expected now d d' :
  apply_change destinations change requester id expected now d = Ok (tt, d') →
  (∃ status status', version_of (changes_template change) id d = Some (expected, status) ∧ status ≠ StatusArchived ∧
     version_of (changes_template change) id d' = Some (expected + 1, status')) ∧
  (∀ template id', (template, id') ≠ (changes_template change, id) → version_of template id' d' = version_of template id' d) ∧
  (∃ row, b_audit (r_base d') = b_audit (r_base d) ++ [row] ∧ audited requester id row).
Proof.
  intros H. destruct (changes_template change) eqn:Hc.
  - destruct (change_template_effect _ _ _ _ _ _ _ _ Hc H) as (r & r' & next & row & params & next' & Hr & (Hrev & Hst & Hrev') & _ & Ha & ->).
    split; [|split; [|by exists row]].
    + exists (te_status r), (te_status r'). unfold version_of. cbn. rewrite Hr, lookup_insert_eq. cbn. by rewrite Hrev, Hrev'.
    + intros [] id' Hne; cbn; [|done]. rewrite lookup_insert_ne; [done|congruence].
  - destruct (change_datasource_effect _ _ _ _ _ _ _ _ Hc H) as (r & r' & next & row & Hr & (Hrev & Hst & Hrev') & _ & Ha & ->).
    split; [|split; [|by exists row]].
    + exists (ds_status r), (ds_status r'). unfold version_of. cbn. rewrite Hr, lookup_insert_eq. cbn. by rewrite Hrev, Hrev'.
    + intros [] id' Hne; cbn; [done|]. rewrite lookup_insert_ne; [done|congruence].
Qed.

(** C11: a change is applied to the revision its author saw or not at all:
    when it commits, the row had that revision and was not archived, it has
    the next revision now, the versions of all other datasources and
    templates are as they were, and one audit event names its author.  So of
    two changes of one revision only one is applied, and what is archived
    stays as it is. *)
Theorem report_change_fenced {aead : Aead} destinations change requester id expected now d d'
    (Hok : apply_change destinations change requester id expected now d = Ok (tt, d')) :
  (∃ status status', version_of (changes_template change) id d = Some (expected, status) ∧ status ≠ StatusArchived ∧
     version_of (changes_template change) id d' = Some (expected + 1, status')) ∧
  (∀ template id', (template, id') ≠ (changes_template change, id) → version_of template id' d' = version_of template id' d) ∧
  (∃ row, b_audit (r_base d') = b_audit (r_base d) ++ [row] ∧ al_actor row = Some (Actor requester) ∧
     al_effective row = Some (Effective requester) ∧ ∃ resource, al_resource row = Some (resource, id)) ∧
  (∀ change', changes_template change' = changes_template change →
     is_ok (apply_change destinations change' requester id expected now d') = false).
Proof.
  destruct (change_effect _ _ _ _ _ _ _ _ Hok) as ((status & status' & Hv & Hs & Hv') & Hother & row & Hrow & Ha).
  split; [by exists status, status'|]. split; [done|]. split; [by exists row|].
  intros change' Hc. destruct (apply_change _ change' _ _ _ _ _) as [[[] d2]|] eqn:E; [|done].
  destruct (change_effect _ _ _ _ _ _ _ _ E) as ((s2 & _ & Hv2 & _) & _). rewrite Hc, Hv' in Hv2. injection Hv2. lia.
Qed.

(** ** Parameters as they are read back *)

(** Rows know their keys, keys are below the counter, and owners exist. *)
Record parameters_wf (d : rdb) : Prop := {
  pw_id : ∀ i r, r_parameters d !! i = Some r → pr_id r = i ∧ i < r_next_parameter d;
  pw_report : ∀ i r, r_parameters d !! i = Some r → is_Some (r_templates d !! pr_report r) }.

Definition canonical_parameter (p : ReportParameter) : ReportParameter :=
  mkParameter (p_key p) (p_label p) (p_type p) (if isOptionType (p_type p) then effectiveOptionSource p else "")
    (if isOptionType (p_type p) && is_dynamic p then p_sql p else "") (p_required p) (Some (default JNull (p_default p))) (p_order p)
    (sort_by option_before (p_options p)).
Definition parameter_before (a b : ReportParameter) : bool := p_order a <? p_order b.
Definition canonical_parameters (parameters : list ReportParameter) : list ReportParameter :=
  sort_by parameter_before (canonical_parameter <$> parameters).

Lemma row_before_order : (∀ a b c, in_order row_before a b → in_order row_before b c → in_order row_before a c) ∧
  (∀ a b, row_before a b = true → row_before b a = false).
Proof. unfold in_order, row_before. split; intros; repeat (case_match || rewrite ?orb_true_iff, ?orb_false_iff, ?andb_true_iff, ?andb_false_iff, ?Z.ltb_lt, ?Z.ltb_ge, ?Z.eqb_eq, ?Z.eqb_neq in *); lia. Qed.
Lemma parameter_before_order : (∀ a b c, in_order parameter_before a b → in_order parameter_before b c → in_order parameter_before a c) ∧
  (∀ a b, parameter_before a b = true → parameter_before b a = false).
Proof. unfold in_order, parameter_before. split; intros; rewrite ?Z.ltb_lt, ?Z.ltb_ge in *; lia. Qed.
Lemma row_in_order a b : in_order row_before a b ↔ pr_order a < pr_order b ∨ pr_order a = pr_order b ∧ pr_id a <= pr_id b.
Proof. unfold in_order, row_before. rewrite orb_false_iff, andb_false_iff, Z.eqb_neq, !Z.ltb_ge. lia. Qed.

Lemma select_NoDup (cond : parameter_row → bool) (t : gmap Z parameter_row) :
  (∀ i r, t !! i = Some r → pr_id r = i) → NoDup (select cond t).
Proof.
  intros Hid. unfold select. apply NoDup_filter. apply (NoDup_fmap_1 pr_id). rewrite <- list_fmap_compose.
  assert (Heq : (pr_id ∘ snd) <$> map_to_list t = (map_to_list t).*1); [|rewrite Heq; apply NoDup_fst_map_to_list].
  apply list_fmap_ext. intros k [i r] Hk. apply list_elem_of_lookup_2, elem_of_map_to_list in Hk. by apply Hid.
Qed.

Lemma parameters_of_ext report d d' : parameters_wf d → parameters_wf d' →
  (∀ i r, pr_report r = report → r_parameters d !! i = Some r ↔ r_parameters d' !! i = Some r) →
  parameters_of report d' = parameters_of report d.
Proof.
  intros Hw Hw' Hext. unfold parameters_of, select_by. f_equal. destruct row_before_order as [Htr Has].
  assert (Hp : select (λ r, pr_report r =? report) (r_parameters d') ≡ₚ select (λ r, pr_report r =? report) (r_parameters d)).
  { apply NoDup_Permutation; [apply select_NoDup; intros; by apply (pw_id _ Hw')|apply select_NoDup; intros; by apply (pw_id _ Hw)|].
    intros r. rewrite !elem_of_select, Z.eqb_eq. split; intros [Hr [i Hi]]; (split; [done|]; exists i; by apply Hext). }
  apply sort_by_unique; [done|done| |by rewrite sort_by_Permutation|by apply sort_by_in_order].
  intros a b [_ [i Ha]]%elem_of_select [_ [j Hb]]%elem_of_select Hab%row_in_order Hba%row_in_order.
  destruct (pw_id _ Hw' _ _ Ha) as [<- _], (pw_id _ Hw' _ _ Hb) as [<- _].
  assert (pr_id a = pr_id b) by lia. congruence.
Qed.

(** The rows [replaceParameters] writes. *)
Definition full_row (report : Z) (p : ReportParameter) (id : Z) : parameter_row :=
  let r := stored_parameter report p id in
  mkParameterRow (pr_id r) (pr_report r) (pr_key r) (pr_label r) (pr_type r) (pr_source r) (pr_sql r) (pr_required r) (pr_default r)
    (pr_order r) (p_options p).
Fixpoint new_rows (next report : Z) (parameters : list ReportParameter) : list (Z * parameter_row) :=
  match parameters with [] => [] | p :: parameters => (next, full_row report p next) :: new_rows (next + 1) report parameters end.

Lemma insert_options_Ok id options : ∀ d u d' r, r_parameters d !! id = Some r → insert_options id options d = Ok (u, d') →
  d' = set_r_parameters (<[id := mkParameterRow (pr_id r) (pr_report r) (pr_key r) (pr_label r) (pr_type r) (pr_source r) (pr_sql r)
    (pr_required r) (pr_default r) (pr_order r) (pr_options r ++ options)]> (r_parameters d)) (r_next_parameter d) d.
Proof.
  induction options as [|o options IH]; intros d u d' r Hr H; cbn [insert_options] in H.
  - injection H as _ <-. rewrite app_nil_r. destruct d, r. unfold set_r_parameters. cbn in *. by rewrite insert_id.
  - apply tx_bind_Ok in H as (u1 & s & H1 & H2). unfold insert_option in H1. rewrite Hr in H1. destruct (existsb _ _); [done|].
    injection H1 as <- <-. eapply IH in H2; [|cbn; apply lookup_insert_eq]. rewrite H2. cbn. unfold set_r_parameters. cbn.
    by rewrite insert_insert_eq, <- app_assoc.
Qed.

Lemma insert_parameters_Ok report parameters : ∀ d u d', insert_parameters report parameters d = Ok (u, d') →
  d' = set_r_parameters (foldl (λ t r, <[r.1 := r.2]> t) (r_parameters d) (new_rows (r_next_parameter d) report parameters))
    (r_next_parameter d + Z.of_nat (length parameters)) d.
Proof.
  induction parameters as [|p parameters IH]; intros d u d' H; cbn [insert_parameters] in H.
  - injection H as _ <-. cbn. rewrite Z.add_0_r. by destruct d.
  - apply tx_bind_Ok in H as (id & s & H1 & H2). apply tx_bind_Ok in H2 as (u2 & s2 & H2 & H3).
    apply insert_parameter_Ok in H1 as (-> & -> & _). eapply insert_options_Ok in H2; [|cbn; apply lookup_insert_eq]. subst s2.
    apply IH in H3 as ->. cbn -[Z.of_nat]. unfold set_r_parameters. cbn -[Z.of_nat]. rewrite insert_insert_eq. f_equal. lia.
Qed.

Lemma new_rows_lookup next report parameters : ∀ (t : gmap Z parameter_row) i r,
  foldl (λ t r, <[r.1 := r.2]> t) t (new_rows next report parameters) !! i = Some r ↔
  (i, r) ∈ new_rows next report parameters ∨ ¬ (next <= i < next + Z.of_nat (length parameters)) ∧ t !! i = Some r.
Proof.
  revert next. induction parameters as [|p parameters IH]; intros next t i r; cbn [new_rows foldl length].
  - rewrite elem_of_nil. split; [right; split; [lia|done]|]. by intros [|[_ ?]].
  - rewrite IH, elem_of_cons. cbn [fst snd]. rewrite lookup_insert_Some. split.
    + intros [?|(Hn & [[<- <-]|[? ?]])]; [by left; right|by left; left|]. right. split; [lia|done].
    + intros [[[= -> ->]|?]|[Hn ?]]; [|by left|].
      * right. split; [lia|by left].
      * right. split; [lia|]. right. split; [lia|done].
Qed.
Lemma new_rows_In next report parameters i r : (i, r) ∈ new_rows next report parameters →
  next <= i < next + Z.of_nat (length parameters) ∧ pr_id r = i ∧ pr_report r = report ∧ ∃ p, p ∈ parameters ∧ r = full_row report p i.
Proof.
  revert next. induction parameters as [|p parameters IH]; intros next; cbn [new_rows length]; [by intros ?%not_elem_of_nil|].
  intros [[= -> ->]|Hin]%elem_of_cons; [split; [lia|]; split; [done|]; split; [done|]; exists p; split; [by left|done]|].
  apply IH in Hin as (? & ? & ? & q & Hq & ?). split; [lia|]. split; [done|]. split; [done|]. exists q. split; [by right|done].
Qed.
Lemma new_rows_loaded next report parameters : loaded_parameter <$> (new_rows next report parameters).*2 = canonical_parameter <$> parameters.
Proof.
  revert next. induction parameters as [|p parameters IH]; intros next; [done|]. cbn [new_rows fmap list_fmap snd]. f_equal; [|apply IH].
  unfold loaded_parameter, canonical_parameter, full_row, stored_parameter. cbn.
  destruct (isOptionType (p_type p)), (is_dynamic p); reflexivity.
Qed.
Lemma new_rows_keys next report parameters : NoDup (new_rows next report parameters).*2.
Proof.
  revert next. induction parameters as [|p parameters IH]; intros next; cbn [new_rows fmap list_fmap snd]; [constructor|].
  constructor; [|apply IH]. intros ([i r] & Heq & Hin)%list_elem_of_fmap. apply new_rows_In in Hin as (Hi & Hid & _). cbn in Heq. subst r. cbn in Hid. lia.
Qed.

(** ** Validation does not depend on the order *)

Definition option_ok (o : ParameterOption) : Prop := opt_value o ≠ "" ∧ trim_space (opt_label o) ≠ "".
Lemma validate_options_iff options : ∀ values orders, validate_options values orders options = Ok tt ↔
  Forall option_ok options ∧ NoDup (opt_value <$> options) ∧ NoDup (opt_order <$> options) ∧
  Forall (λ o, opt_value o ∉ values ∧ opt_order o ∉ orders) options.
Proof.
  induction options as [|o options IH]; intros values orders; cbn [validate_options]; [split; [intros _; split_and!; constructor|done]|].
  rewrite !fmap_cons, !NoDup_cons, !Forall_cons. destruct (_ || _) eqn:E.
  { split; [done|]. intros [[[Hv Hl] _] _]. apply String.eqb_neq in Hv, Hl. by rewrite Hv, Hl in E. }
  apply orb_false_iff in E as [Hv%String.eqb_neq Hl%String.eqb_neq]. case_bool_decide as Hiv; [naive_solver|]. case_bool_decide as Hio; [naive_solver|].
  rewrite IH. assert (Hsp : Forall (λ o', opt_value o' ∉ opt_value o :: values ∧ opt_order o' ∉ opt_order o :: orders) options ↔
    opt_value o ∉ (opt_value <$> options) ∧ opt_order o ∉ (opt_order <$> options) ∧ Forall (λ o, opt_value o ∉ values ∧ opt_order o ∉ orders) options).
  { rewrite !Forall_forall, !list_elem_of_fmap. setoid_rewrite not_elem_of_cons. naive_solver. }
  rewrite Hsp. unfold option_ok. tauto.
Qed.

Definition parameter_ok (p : ReportParameter) : Prop :=
  parameterKeyPattern (p_key p) = true ∧ trim_count (p_key p) = None ∧ trim_space (p_label p) ≠ "" ∧ validate_type p = Ok tt ∧
  validate_options [] [] (p_options p) = Ok tt.
Lemma validate_parameters_iff parameters : ∀ keys orders, validate_parameters keys orders parameters = Ok tt ↔
  Forall parameter_ok parameters ∧ NoDup (p_key <$> parameters) ∧ NoDup (p_order <$> parameters) ∧
  Forall (λ p, p_key p ∉ keys ∧ p_order p ∉ orders) parameters.
Proof.
  induction parameters as [|p parameters IH]; intros keys orders; cbn [validate_parameters]; [split; [intros _; split_and!; constructor|done]|].
  rewrite !fmap_cons, !NoDup_cons, !Forall_cons. unfold parameter_ok at 1. destruct (_ || _) eqn:E.
  { split; [done|]. intros [[(Hk & Ht & _) _] _]. by rewrite Hk, Ht in E. }
  apply orb_false_iff in E as [Hk%negb_false_iff Ht]. destruct (trim_count (p_key p)); [done|].
  case_bool_decide as Hik; [naive_solver|]. case_bool_decide as Hio; [naive_solver|].
  destruct (trim_space (p_label p) =? "")%string eqn:El; [apply String.eqb_eq in El; naive_solver|apply String.eqb_neq in El].
  destruct (validate_type p) as [[]|]; cbn [res_bind]; [|naive_solver]. destruct (validate_options _ _ _) as [[]|]; cbn [res_bind]; [|naive_solver].
  rewrite IH. assert (Hsp : Forall (λ q, p_key q ∉ p_key p :: keys ∧ p_order q ∉ p_order p :: orders) parameters ↔
    p_key p ∉ (p_key <$> parameters) ∧ p_order p ∉ (p_order <$> parameters) ∧ Forall (λ q, p_key q ∉ keys ∧ p_order q ∉ orders) parameters).
  { rewrite !Forall_forall, !list_elem_of_fmap. setoid_rewrite not_elem_of_cons. naive_solver. }
  rewrite Hsp. tauto.
Qed.
Lemma ValidateParameters_iff parameters : ValidateParameters parameters = Ok tt ↔
  Forall parameter_ok parameters ∧ NoDup (p_key <$> parameters) ∧ NoDup (p_order <$> parameters).
Proof.
  unfold ValidateParameters. rewrite validate_parameters_iff. split; [tauto|]. intros (? & ? & ?). split_and!; try done.
  apply Forall_true. intros p. split; apply not_elem_of_nil.
Qed.

Lemma canonical_source p : effectiveOptionSource (canonical_parameter p) = if isOptionType (p_type p) then effectiveOptionSource p else "".
Proof.
  unfold effectiveOptionSource, canonical_parameter. cbn. unfold effectiveOptionSource. destruct (isOptionType (p_type p)); cbn; [|done].
  destruct (p_source p =? "")%string eqn:E; cbn; [done|]. by rewrite E.
Qed.
Lemma canonical_length p : length (p_options (canonical_parameter p)) = length (p_options p).
Proof. cbn. by rewrite sort_by_Permutation. Qed.
Lemma canonical_ok p : parameter_ok p → parameter_ok (canonical_parameter p).
Proof.
  intros (Hk & Ht & Hl & Hty & Ho). split_and!; [done|done|done|..].
  - revert Hty. unfold validate_type. rewrite canonical_source, canonical_length. cbn [canonical_parameter p_type p_sql p_source].
    unfold is_dynamic. destruct (p_type p); cbn [isOptionType andb].
    1-6: by destruct (Nat.eqb (length (p_options p)) 0).
    3: done.
    all: destruct (effectiveOptionSource p =? OptionSourceStatic)%string eqn:Es.
    1, 3: apply String.eqb_eq in Es; rewrite Es; change (OptionSourceStatic =? OptionSourceDynamic)%string with false; cbv iota;
      destruct (Nat.eqb (length (p_options p)) 0), (negb (p_sql p =? "")%string); done.
    all: destruct (effectiveOptionSource p =? OptionSourceDynamic)%string; intros H; exact H.
  - apply validate_options_iff in Ho as (H1 & H2 & H3 & H4). apply validate_options_iff. cbn [canonical_parameter p_options].
    pose proof (sort_by_Permutation option_before (p_options p)) as Hp. split_and!.
    + apply Forall_forall. intros o Ho. rewrite Hp in Ho. by eapply Forall_forall in H1.
    + by rewrite (fmap_Permutation _ _ _ Hp).
    + by rewrite (fmap_Permutation _ _ _ Hp).
    + apply Forall_true. intros o. split; apply not_elem_of_nil.
Qed.
Lemma canonical_parameters_valid parameters : ValidateParameters parameters = Ok tt → ValidateParameters (canonical_parameters parameters) = Ok tt.
Proof.
  rewrite !ValidateParameters_iff. unfold canonical_parameters. intros (Hf & Hk & Ho).
  pose proof (sort_by_Permutation parameter_before (canonical_parameter <$> parameters)) as Hp.
  split_and!; [rewrite Hp|rewrite (fmap_Permutation _ _ _ Hp), <- list_fmap_compose; exact Hk|rewrite (fmap_Permutation _ _ _ Hp), <- list_fmap_compose; exact Ho].
  apply Forall_fmap. eapply Forall_impl; [exact Hf|]. apply canonical_ok.
Qed.

(** What replacing parameters does to the parameters of every template. *)
Lemma replaceParameters_Ok report parameters d u d' : parameters_wf d → is_Some (r_templates d !! report) → ValidateParameters parameters = Ok tt →
  replaceParameters report parameters d = Ok (u, d') →
  parameters_wf d' ∧ parameters_of report d' = canonical_parameters parameters ∧
  ∀ report', report' ≠ report → parameters_of report' d' = parameters_of report' d.
Proof.
  intros Hw Ht Hv. unfold replaceParameters. intros (u1 & s & [= _ <-] & H)%tx_bind_Ok. apply insert_parameters_Ok in H as ->.
  set (t := foldl _ _ _). set (n := Z.of_nat (length parameters)). unfold delete_parameters in *. cbn in t.
  assert (Hlook : ∀ i r, t !! i = Some r ↔ (i, r) ∈ new_rows (r_next_parameter d) report parameters ∨ pr_report r ≠ report ∧ r_parameters d !! i = Some r).
  { intros i r. unfold t. rewrite new_rows_lookup. rewrite map_lookup_filter_Some. cbn. split.
    - intros [?|(? & ? & ?)]; auto.
    - intros [?|[? Hi]]; [by left|]. right. destruct (pw_id _ Hw _ _ Hi). split; [lia|done]. }
  assert (Hw' : parameters_wf (set_r_parameters t (r_next_parameter d + n) d)).
  { split; cbn; intros i r [Hin|[Hr Hi]]%Hlook.
    - apply new_rows_In in Hin as (? & ? & _). subst n. split; [done|lia].
    - destruct (pw_id _ Hw _ _ Hi). split; [done|lia].
    - apply new_rows_In in Hin as (_ & _ & -> & _). done.
    - by apply (pw_report _ Hw i). }
  change (set_r_parameters _ _ _) with (set_r_parameters t (r_next_parameter d + n) d).
  split; [done|]. split.
  - apply ValidateParameters_iff in Hv as (_ & _ & Hord). unfold canonical_parameters. symmetry.
    destruct parameter_before_order as [Htr Has], row_before_order as [Htr' Has'].
    assert (Hsel : select (λ r, pr_report r =? report) t ≡ₚ (new_rows (r_next_parameter d) report parameters).*2).
    { apply NoDup_Permutation; [apply select_NoDup; intros i r Hi; by apply (pw_id _ Hw')|apply new_rows_keys|].
      intros r. rewrite elem_of_select, list_elem_of_fmap, Z.eqb_eq. split.
      - intros [Hr [i [Hin|[? _]]%Hlook]]; [|done]. by exists (i, r).
      - intros ([i r'] & -> & Hin). split; [by apply new_rows_In in Hin as (_ & _ & Hr & _)|]. exists i. apply Hlook. by left. }
    apply sort_by_unique; [done|done|..].
    + intros a b Ha Hb. unfold in_order, parameter_before. rewrite !Z.ltb_ge. intros Hab Hba.
      apply (fmap_inj_in p_order (canonical_parameter <$> parameters)); [|done|done|lia]. rewrite <- list_fmap_compose. exact Hord.
    + unfold parameters_of, select_by. cbn [r_parameters set_r_parameters]. rewrite <- (new_rows_loaded (r_next_parameter d) report parameters).
      apply fmap_Permutation. by rewrite sort_by_Permutation, Hsel.
    + unfold parameters_of, select_by. cbn [r_parameters set_r_parameters].
      assert (Hs : StronglySorted (in_order row_before) (sort_by row_before (select (λ r, pr_report r =? report) t))) by by apply sort_by_in_order.
      induction Hs as [|a l Hl IH Ha]; cbn [fmap list_fmap]; constructor; [done|]. apply Forall_fmap. eapply Forall_impl; [exact Ha|].
      intros b Hb%row_in_order. unfold in_order, parameter_before. cbn. apply Z.ltb_ge. lia.
  - intros report' Hne. apply parameters_of_ext; [done|done|]. cbn. intros i r Hr. rewrite Hlook. split; [right; split; [congruence|done]|].
    intros [Hin|[_ ?]]; [|done]. apply new_rows_In in Hin as (_ & _ & ? & _). congruence.
Qed.

(** ** Everything that happens to the report tables *)

Inductive report_op :=
  | OpCreateDatasource (nonce : string) (input : DatasourceInput) | OpChange (change : report_change) (id expected : Z)
  | OpCreateTemplate (input : TemplateInput) | OpSetAccess (report user : Z) (grant : bool).
Definition report_tx {aead : Aead} (destinations : string → string → string → result unit) (op : report_op) (requester : Requester)
    (now : instant) : Tx rdb unit :=
  match op with
  | OpCreateDatasource nonce input => let* _ := CreateDatasource destinations nonce requester input now in tx_ret tt
  | OpChange change id expected => apply_change destinations change requester id expected now
  | OpCreateTemplate input => let* _ := CreateTemplate requester input now in tx_ret tt
  | OpSetAccess report user grant => SetAccess requester report user grant now
  end.
(** AES-GCM takes nonces of twelve bytes. *)
Definition good_nonce (op : report_op) : Prop :=
  match op with OpCreateDatasource nonce _ | OpChange (ChangeDatasource nonce _) _ _ => String.length nonce = 12%nat | _ => True end.

Definition empty_rdb (base : bdb) : rdb := mkRdb base ∅ 1 ∅ 1 ∅ 1 ∅ ∅ 1.
(** The accounts change by their own transactions. *)
Inductive report_reachable {aead : Aead} (destinations : string → string → string → result unit) : rdb → Prop :=
  | report_initial base : report_reachable destinations (empty_rdb base)
  | report_later d op requester now d' : report_reachable destinations d → good_nonce op →
      report_tx destinations op requester now d = Ok (tt, d') → report_reachable destinations d'
  | report_accounts d base : report_reachable destinations d → report_reachable destinations (set_r_base base d).

(** A datasource can be connected to: its row is consistent and a TCP
    password opens. *)
Definition credentials_ok {aead : Aead} (id : Z) (r : Datasource) : Prop :=
  datasource_check r = true ∧
  (ds_network r = "unix" ∧ ds_password r = None ∨ ds_network r = "tcp" ∧ ∃ envelope password,
     ds_password r = Some envelope ∧ envelope ≠ "" ∧ Decrypt PurposeReportingDatasourcePassword id envelope = Ok password ∧ password ≠ "").
Record report_ok {aead : Aead} (d : rdb) : Prop := {
  ro_parameters : parameters_wf d;
  ro_next : 0 < r_next_template d ∧ 0 < r_next_datasource d;
  ro_template : ∀ id r, r_templates d !! id = Some r → 0 < id < r_next_template d ∧ template_check r = true ∧
    is_Some (r_datasources d !! te_datasource r) ∧ ValidateParameters (parameters_of id d) = Ok tt;
  ro_datasource : ∀ id r, r_datasources d !! id = Some r → 0 < id < r_next_datasource d ∧ credentials_ok id r;
  ro_access : ∀ report user, (report, user) ∈ r_access d → is_Some (r_templates d !! report) }.

Section Invariant.
Context {aead : Aead}.

Lemma base_ok base d : report_ok d → report_ok (set_r_base base d).
Proof. intros [[] ? ? ? ?]. by split; [split| | | |]. Qed.
Lemma datasource_ok id r next d : report_ok d → 0 < id < next → r_next_datasource d <= next → credentials_ok id r →
  report_ok (set_r_datasources (<[id := r]> (r_datasources d)) next d).
Proof.
  intros [[] ? ? ? ?] Hid Hn Hc. split; [by split|cbn; lia| | |done]; cbn.
  - intros i t Ht. destruct (ro_template0 i t Ht) as (? & ? & Hd & ?). split; [lia|]. split; [done|]. split; [|done].
    destruct (decide (te_datasource t = id)) as [->|?]; [rewrite lookup_insert_eq; eauto|by rewrite lookup_insert_ne].
  - intros i s [[<- <-]|[? Hs]]%lookup_insert_Some; [done|]. destruct (ro_datasource0 i s Hs). split; [lia|done].
Qed.
Lemma template_ok id t next d : report_ok d → 0 < id < next → r_next_template d <= next → template_check t = true →
  is_Some (r_datasources d !! te_datasource t) → ValidateParameters (parameters_of id d) = Ok tt →
  report_ok (set_r_templates (<[id := t]> (r_templates d)) next d).
Proof.
  intros [[] ? ? ? ?] Hid Hn Ht Hd Hp.
  assert (Hsome : ∀ i, is_Some (r_templates d !! i) → is_Some (<[id := t]> (r_templates d) !! i)).
  { intros i Hi. destruct (decide (i = id)) as [->|?]; [rewrite lookup_insert_eq; eauto|by rewrite lookup_insert_ne]. }
  split; [split; cbn; eauto|cbn; lia| |done|cbn; eauto]. cbn.
  intros i u [[<- <-]|[? Hu]]%lookup_insert_Some; [split; [lia|]; by split_and!|]. destruct (ro_template0 i u Hu) as (? & ? & ? & ?). split; [lia|]. by split_and!.
Qed.
Lemma replaced_ok report parameters d u d' : report_ok d → is_Some (r_templates d !! report) → ValidateParameters parameters = Ok tt →
  replaceParameters report parameters d = Ok (u, d') → report_ok d'.
Proof.
  intros Hok Ht Hv Hr. destruct (replaceParameters_only _ _ _ _ _ Hr) as (x & n & ->).
  destruct (replaceParameters_Ok _ _ _ _ _ (ro_parameters _ Hok) Ht Hv Hr) as (Hw & Hrep & Hoth). destruct Hok. split; try done.
  cbn. intros id r Hid. destruct (ro_template0 id r Hid) as (? & ? & ? & Hval). split; [done|]. split; [done|]. split; [done|].
  destruct (decide (id = report)) as [->|Hne]; [rewrite Hrep; by apply canonical_parameters_valid|by rewrite Hoth].
Qed.

Lemma datasourcePassword_ok nonce id input existing password r : String.length nonce = 12%nat → 0 < id →
  datasourcePassword nonce id input existing = Ok password → (∀ row, existing = Some row → credentials_ok id row) →
  datasource_check r = true → ds_network r = di_network input → ds_password r = password → credentials_ok id r.
Proof.
  intros Hn Hid Hp Hex Hcheck Hnet Hpw. split; [done|]. unfold datasourcePassword in Hp. rewrite <- Hnet in Hp.
  destruct (ds_network r =? "unix")%string eqn:Eu; [left; split; [by apply String.eqb_eq|congruence]|]. right.
  assert (Htcp : ds_network r = "tcp").
  { unfold datasource_check in Hcheck. rewrite Eu in Hcheck. destruct (ds_network r =? "tcp")%string eqn:Et; [by apply String.eqb_eq|done]. }
  split; [done|]. destruct (di_password input =? "")%string eqn:Ep; cbn [negb] in Hp.
  - destruct existing as [row|]; [|done]. destruct (Hex row eq_refl) as (_ & [[Hu _]|(_ & e & p & He & ? & ? & ?)]); [by rewrite Hu in Hp|].
    destruct ((ds_network row =? "unix")%string || _); [done|]. injection Hp as <-. exists e, p. by rewrite Hpw.
  - apply res_bind_Ok in Hp as (e & He & [= <-]). exists e, (di_password input). split; [done|]. split; [|split; [by eapply Decrypt_Encrypt|by apply String.eqb_neq]].
    intros ->. unfold Encrypt in He. destruct (_ || _); [done|]. by injection He.
Qed.

Lemma put_datasource_Ok id r d u d' : put_datasource id r d = Ok (u, d') →
  datasource_check r = true ∧ d' = set_r_datasources (<[id := r]> (r_datasources d)) (Z.max (r_next_datasource d) (id + 1)) d.
Proof. unfold put_datasource. destruct (name_taken _ _ _ _); [done|]. destruct (users_known _ _); [|done]. destruct (datasource_check r); [|done]. by intros [= <- <-]. Qed.
Lemma put_template_Ok id r d u d' : put_template id r d = Ok (u, d') →
  template_check r = true ∧ is_Some (r_datasources d !! te_datasource r) ∧
  d' = set_r_templates (<[id := r]> (r_templates d)) (Z.max (r_next_template d) (id + 1)) d.
Proof.
  unfold put_template. destruct (name_taken _ _ _ _); [done|]. destruct (r_datasources d !! te_datasource r) eqn:E; [|done].
  destruct (users_known _ _); [|done]. destruct (template_check r); [|done]. intros [= <- <-]. eauto.
Qed.

Lemma insert_datasource_Ok r d id d' : insert_datasource r d = Ok (id, d') →
  id = r_next_datasource d ∧ datasource_check r = true ∧
  d' = set_r_datasources (<[id := r]> (r_datasources d)) (Z.max (r_next_datasource d) (id + 1)) d.
Proof. unfold insert_datasource. intros ([] & s & [Hc ->]%put_datasource_Ok & [= <- <-])%tx_bind_Ok. done. Qed.
Lemma insert_template_Ok r d id d' : insert_template r d = Ok (id, d') →
  id = r_next_template d ∧ template_check r = true ∧ is_Some (r_datasources d !! te_datasource r) ∧
  d' = set_r_templates (<[id := r]> (r_templates d)) (Z.max (r_next_template d) (id + 1)) d.
Proof. unfold insert_template. intros ([] & s & (Hc & Hd & ->)%put_template_Ok & [= <- <-])%tx_bind_Ok. done. Qed.
Lemma update_datasource_hit id cond set r d n d' : r_datasources d !! id = Some r → cond r = true → update_datasource id cond set d = Ok (n, d') →
  datasource_check (set r) = true ∧ d' = set_r_datasources (<[id := set r]> (r_datasources d)) (Z.max (r_next_datasource d) (id + 1)) d.
Proof. unfold update_datasource. intros -> ->. intros ([] & s & H%put_datasource_Ok & [= <- <-])%tx_bind_Ok. exact H. Qed.
Lemma update_template_hit id cond set r d n d' : r_templates d !! id = Some r → cond r = true → update_template id cond set d = Ok (n, d') →
  template_check (set r) = true ∧ is_Some (r_datasources d !! te_datasource (set r)) ∧
  d' = set_r_templates (<[id := set r]> (r_templates d)) (Z.max (r_next_template d) (id + 1)) d.
Proof. unfold update_template. intros -> ->. intros ([] & s & H%put_template_Ok & [= <- <-])%tx_bind_Ok. exact H. Qed.

Lemma validateTemplateInput_Ok input : validateTemplateInput input = Ok tt → ValidateParameters (ti_parameters input) = Ok tt.
Proof. unfold validateTemplateInput. destruct (_ || _); [done|]. by destruct (_ <? _). Qed.

(** Each operation keeps the invariant. *)
Lemma CreateDatasource_ok destinations nonce requester input now d id d' : report_ok d → String.length nonce = 12%nat →
  CreateDatasource destinations nonce requester input now d = Ok (id, d') → report_ok d'.
Proof.
  intros Hok Hn H. unfold CreateDatasource in H. set (i := normalizeDatasourceInput input) in *. clearbody i. tx_open H.
  apply appendAudit_Ok in Hst1 as (row & _ & ->). apply base_ok. apply insert_datasource_Ok in Hst as (-> & _ & ->).
  eapply update_datasource_hit in Hst0 as [Hcheck ->]; [|cbn; apply lookup_insert_eq|done].
  destruct (ro_next _ Hok) as [_ Hnext]. cbn -[Z.max]. unfold set_r_datasources. cbn -[Z.max]. rewrite insert_insert_eq.
  apply (datasource_ok _ _ _ d); [done|lia|lia|]. eapply datasourcePassword_ok; try done.
Qed.
Lemma change_ok destinations change requester id expected now d d' : report_ok d → good_nonce (OpChange change id expected) →
  apply_change destinations change requester id expected now d = Ok (tt, d') → report_ok d'.
Proof.
  intros Hok Hn H. destruct (ro_next _ Hok) as [Hnt Hnd].
  destruct change as [nonce input|status|input|status]; cbn [apply_change] in H; unfold UpdateDatasource, SetDatasourceStatus, UpdateTemplate, SetTemplateStatus in H.
  - set (i := normalizeDatasourceInput input) in *. clearbody i. tx_open H. apply appendAudit_Ok in H as (row & _ & ->). apply base_ok.
    apply FindDatasource_Ok in Hst as [Hr ->]. eapply update_datasource_hit in Hst0 as [Hcheck ->]; [|done|done].
    destruct (ro_datasource _ Hok _ _ Hr) as [Hid Hc].
    apply datasource_ok; [done|lia|lia|]. eapply datasourcePassword_ok; try done; [lia|]. by intros ? [= <-].
  - tx_open H. apply appendAudit_Ok in H as (row & _ & ->). apply base_ok. apply FindDatasource_Ok in Hst as [Hr ->].
    apply update_datasource_Ok in Hst0 as [[_ ->]|(_ & r & Hr' & _ & Hcheck & ->)]; [done|]. simplify_eq.
    destruct (ro_datasource _ Hok _ _ Hr) as [Hid Hc]. apply datasource_ok; [done|lia|lia|]. split; [done|]. apply Hc.
  - tx_open H. apply appendAudit_Ok in H as (row & _ & ->). apply base_ok. apply find_template_row_Ok in Hst as [Hr ->].
    eapply update_template_hit in Hst0 as (Hcheck & Hds & Hs0); [|done|done]. subst s0. destruct (ro_template _ Hok _ _ Hr) as (Hid & _ & _ & Hv).
    eapply replaced_ok; [..|exact Hst1]; [apply template_ok; try done; lia|cbn -[Z.max]; rewrite lookup_insert_eq; eauto|].
    by destruct x; apply validateTemplateInput_Ok.
  - tx_open H. apply appendAudit_Ok in H as (row & _ & ->). apply base_ok. apply find_template_row_Ok in Hst as [Hr ->].
    apply update_template_Ok in Hst0 as [[_ ->]|(_ & r & Hr' & _ & Hcheck & ->)]; [done|]. simplify_eq.
    destruct (ro_template _ Hok _ _ Hr) as (Hid & _ & Hds & Hv). apply template_ok; try done; lia.
Qed.
Lemma parameters_of_none report d : parameters_wf d → r_templates d !! report = None → parameters_of report d = [].
Proof.
  intros Hw Hn. unfold parameters_of, select_by. destruct (select _ _) as [|r l] eqn:E; [done|].
  assert (r ∈ select (λ r, pr_report r =? report) (r_parameters d)) as [Hr%Z.eqb_eq [i Hi]]%elem_of_select by (rewrite E; by left).
  destruct (pw_report _ Hw i r Hi) as [t Ht]. congruence.
Qed.
Lemma CreateTemplate_ok requester input now d id d' : report_ok d → CreateTemplate requester input now d = Ok (id, d') → report_ok d'.
Proof.
  intros Hok H. destruct (ro_next _ Hok) as [Hnt Hnd]. unfold CreateTemplate in H. tx_open H.
  apply appendAudit_Ok in Hst1 as (row & _ & ->). apply base_ok. apply insert_template_Ok in Hst as (-> & Hcheck & Hds & ->).
  eapply replaced_ok; [..|exact Hst0]; [|cbn -[Z.max]; rewrite lookup_insert_eq; eauto|by destruct x; apply validateTemplateInput_Ok].
  apply template_ok; try done; try lia.
  unfold parameters_of at 1. cbn [r_parameters set_r_templates]. fold (parameters_of (r_next_template d) d). rewrite parameters_of_none; [reflexivity|apply Hok|].
  destruct (r_templates d !! r_next_template d) eqn:E; [|done]. destruct (ro_template _ Hok _ _ E). lia.
Qed.
Lemma SetAccess_ok requester report user grant now d u d' : report_ok d → SetAccess requester report user grant now d = Ok (u, d') → report_ok d'.
Proof.
  intros Hok H. unfold SetAccess in H. apply tx_bind_Ok in H as (row & s & [= <- <-] & H). destruct (b_users (r_base d) !! user); [|done].
  tx_open H. apply appendAudit_Ok in H as (row & _ & ->). apply base_ok. destruct Hok. destruct grant.
  - unfold grant_access in Hst. destruct (isSome _ && _) eqn:E; [|done]. injection Hst as _ <-. split; [by destruct ro_parameters0; split|done|done|done|]. cbn.
    intros r v [[= -> ->]%elem_of_singleton|?]%elem_of_union; [|eauto]. apply andb_true_iff in E as [E _]. destruct (r_templates d !! report); [eauto|done].
  - injection Hst as _ <-. split; [by destruct ro_parameters0; split|done|done|done|]. cbn. intros r v [? _]%elem_of_difference. eauto.
Qed.
End Invariant.

Lemma report_reachable_ok {aead : Aead} destinations d (Hr : report_reachable destinations d) : report_ok d.
Proof.
  induction Hr as [base|d op requester now d' Hr IH Hn H|d base Hr IH].
  - split; cbn; [by split|lia|done|done|]. intros r u Hin. by apply not_elem_of_empty in Hin.
  - destruct op as [nonce input|change id expected|input|report user grant]; cbn [report_tx good_nonce] in *.
    + apply tx_bind_Ok in H as (id & s & H & [= <-]). by eapply CreateDatasource_ok.
    + by eapply change_ok.
    + apply tx_bind_Ok in H as (id & s & H & [= <-]). by eapply CreateTemplate_ok.
    + by eapply SetAccess_ok.
  - by apply base_ok.
Qed.

(** Whatever the order of the transactions, every template has a
    datasource and parameters that validate (so its inputs normalise and its
    SQL binds), every TCP datasource has a password that opens and every
    socket has none, statuses and revisions are proper, and access is
    granted to templates that exist. *)
Theorem report_invariants {aead : Aead} destinations d (Hr : report_reachable destinations d) : report_ok d.
Proof. by eapply report_reachable_ok. Qed.


(** ** The canonical form accepts the same values *)

Section Canonical.
Context {decimals : DecimalLibrary}.

Lemma option_before_order : (∀ a b c, in_order option_before a b → in_order option_before b c → in_order option_before a c) ∧
  (∀ a b, option_before a b = true → option_before b a = false).
Proof. unfold in_order, option_before. split; intros; rewrite ?Z.ltb_lt, ?Z.ltb_ge in *; lia. Qed.
Lemma sort_options_again options : NoDup (opt_order <$> options) →
  sort_by option_before (sort_by option_before options) = sort_by option_before options.
Proof.
  intros Hnd. destruct option_before_order as [Htr Has]. apply sort_by_unique; [done|done| |done|by apply sort_by_in_order].
  intros a b Ha Hb. rewrite sort_by_Permutation in Ha, Hb. unfold in_order, option_before. rewrite !Z.ltb_ge. intros Hab Hba.
  apply (fmap_inj_in opt_order options); [done..|lia].
Qed.
Lemma find_option_sorted options value : NoDup (opt_value <$> options) →
  snd <$> list_find (λ o, opt_value o = value) (sort_by option_before options) = snd <$> list_find (λ o, opt_value o = value) options.
Proof.
  intros Hnd. pose proof (sort_by_Permutation option_before options) as Hp.
  destruct (list_find _ options) as [[i o]|] eqn:E.
  - apply list_find_Some in E as (Hi & Hv & _). apply list_elem_of_lookup_2 in Hi.
    destruct (list_find _ (sort_by _ _)) as [[j o']|] eqn:E'.
    + apply list_find_Some in E' as (Hj & Hv' & _). apply list_elem_of_lookup_2 in Hj. rewrite Hp in Hj. cbn. f_equal.
      apply (fmap_inj_in opt_value options); [done..|congruence].
    + apply list_find_None in E'. rewrite Forall_forall in E'. destruct (E' o); [by rewrite Hp|done].
  - apply list_find_None in E. destruct (list_find _ (sort_by _ _)) as [[j o']|] eqn:E'; [|done].
    apply list_find_Some in E' as (Hj & Hv' & _). apply list_elem_of_lookup_2 in Hj. rewrite Hp in Hj. rewrite Forall_forall in E. by destruct (E o' Hj).
Qed.

Lemma canonical_dynamic p : parameter_ok p → is_dynamic (canonical_parameter p) = is_dynamic p.
Proof.
  intros (_ & _ & _ & Hty & _). unfold is_dynamic. rewrite canonical_source. destruct (isOptionType (p_type p)) eqn:Eo; [done|].
  unfold effectiveOptionSource. rewrite Eo. cbn [andb]. unfold validate_type in Hty.
  destruct (p_source p =? "")%string eqn:Es; [apply String.eqb_eq in Es; by rewrite Es|].
  destruct (p_type p); try done; cbn [negb] in Hty; rewrite orb_true_r in Hty; done.
Qed.
Lemma canonical_default p : present_default (canonical_parameter p) = present_default p.
Proof. unfold present_default, canonical_parameter. cbn. by destruct (p_default p). Qed.
Lemma canonical_normalize_single p value : NoDup (opt_value <$> p_options p) →
  normalize_single (canonical_parameter p) value = normalize_single p value.
Proof.
  intros Hnd. unfold normalize_single. cbn [canonical_parameter p_type p_options]. destruct (p_type p); try reflexivity.
  pose proof (find_option_sorted (p_options p) value Hnd) as Hf.
  destruct (list_find _ (sort_by _ _)) as [[? ?]|], (list_find _ (p_options p)) as [[? ?]|]; cbn in Hf; congruence.
Qed.
Lemma canonical_normalize_one snapshot p input : parameter_ok p → normalize_one snapshot (canonical_parameter p) input = normalize_one snapshot p input.
Proof.
  intros Hok. unfold normalize_one. rewrite canonical_dynamic by done. unfold submitted. rewrite canonical_default.
  change (p_key (canonical_parameter p)) with (p_key p). change (p_required (canonical_parameter p)) with (p_required p).
  destruct (negb snapshot && is_dynamic p); [done|]. destruct (match present_default p with Some _ => _ | None => _ end) as [values|]; [|done]. cbn [res_bind].
  destruct Hok as (_ & _ & _ & _ & Ho). apply validate_options_iff in Ho as (_ & Hv & Hord & _).
  replace (if is_dynamic p then normalizeDynamicSnapshot (canonical_parameter p) values else normalizeParameter (canonical_parameter p) values)
    with (if is_dynamic p then normalizeDynamicSnapshot p values else normalizeParameter p values); [done|].
  destruct (is_dynamic p); [done|]. unfold normalizeParameter, normalize_multiple. cbn [canonical_parameter p_type p_options].
  rewrite sort_options_again by done. case_bool_decide; [done|]. destruct values as [|value []]; try done.
  destruct (value =? "")%string; [done|]. symmetry. by apply canonical_normalize_single.
Qed.

(** The loop does not depend on the order. *)
Lemma normalizeLoop_iff snapshot parameters input : NoDup (p_key <$> parameters) → ∀ values,
  normalizeLoop snapshot parameters input = Ok values ↔
  dom values = list_to_set (p_key <$> parameters) ∧
  ∀ p, p ∈ parameters → ∃ v, normalize_one snapshot p input = Ok v ∧ values !! p_key p = Some v.
Proof.
  induction parameters as [|p parameters IH]; intros Hnd values; cbn [normalizeLoop].
  - split; [intros [= <-]; split; [by rewrite dom_empty_L|]; intros p Hp; by apply not_elem_of_nil in Hp|].
    intros [Hdom _]. f_equal. symmetry. by apply dom_empty_iff_L.
  - rewrite fmap_cons in Hnd. apply NoDup_cons in Hnd as [Hnin Hnd]. specialize (IH Hnd). split.
    + intros (v & Hv & (rest & Hrest & [= <-])%res_bind_Ok)%res_bind_Ok. apply IH in Hrest as [Hdom Hall]. split; [by rewrite dom_insert_L, Hdom|].
      intros q [->|Hq]%elem_of_cons; [exists v; by rewrite lookup_insert_eq|]. destruct (Hall q Hq) as (w & Hw & Hl). exists w. split; [done|].
      rewrite lookup_insert_ne; [done|]. intros Heq. apply Hnin. rewrite Heq. by apply list_elem_of_fmap_2.
    + intros [Hdom Hall]. destruct (Hall p) as (v & Hv & Hl); [by left|]. rewrite Hv. cbn [res_bind].
      assert (Hrest : normalizeLoop snapshot parameters input = Ok (delete (p_key p) values)).
      { apply IH. split.
        - rewrite dom_delete_L, Hdom, fmap_cons. cbn. apply set_eq. intros k. rewrite elem_of_difference, elem_of_union, elem_of_singleton, elem_of_list_to_set.
          split; [naive_solver|]. intros Hk. split; [by right|]. intros ->. done.
        - intros q Hq. destruct (Hall q) as (w & Hw & Hlw); [by right|]. exists w. split; [done|]. rewrite lookup_delete_ne; [done|].
          intros Heq. apply Hnin. rewrite Heq. by apply list_elem_of_fmap_2. }
      rewrite Hrest. cbn [res_bind]. by rewrite insert_delete_id.
Qed.
Lemma canonical_normalize snapshot parameters input values : normalize snapshot parameters input = Ok values →
  normalize snapshot (canonical_parameters parameters) input = Ok values.
Proof.
  intros (Hnd & _ & Hloop & Hsub & Hv)%normalize_Ok.
  pose proof (sort_by_Permutation parameter_before (canonical_parameter <$> parameters)) as Hp. fold (canonical_parameters parameters) in Hp.
  assert (Hkeys : p_key <$> canonical_parameters parameters ≡ₚ p_key <$> parameters).
  { rewrite (fmap_Permutation _ _ _ Hp), <- list_fmap_compose. done. }
  unfold normalize. rewrite canonical_parameters_valid by done. cbn [res_bind].
  assert (Hl : normalizeLoop snapshot (canonical_parameters parameters) input = Ok values).
  { apply normalizeLoop_iff; [by rewrite Hkeys|]. apply normalizeLoop_iff in Hloop as [Hdom Hall]; [|done].
    split; [rewrite Hdom; apply set_eq; intros k; by rewrite !elem_of_list_to_set, Hkeys|].
    intros q Hq. rewrite Hp in Hq. apply list_elem_of_fmap in Hq as (p & -> & Hq). destruct (Hall p Hq) as (v & Hone & Hlook). exists v.
    apply ValidateParameters_iff in Hv as (Hok & _). rewrite Forall_forall in Hok. by rewrite canonical_normalize_one by auto. }
  rewrite Hl. cbn [res_bind]. replace (forallb _ _) with true; [done|]. symmetry. apply known_keys. intros k Hk%Hsub.
  apply elem_of_list_to_set in Hk. apply elem_of_list_to_set. by rewrite Hkeys.
Qed.
End Canonical.
(** What was saved is what is found: a template that was created is
    found with its texts, disabled, in revision 1, and its parameters in
    display order in their canonical form; no other template's parameters
    change.  The canonical form keeps what the parameters accept: whatever
    normalised for the submitted parameters normalises to the same values
    for the stored ones. *)
Theorem template_round_trip {aead : Aead} {decimals : DecimalLibrary} destinations d requester input now id d'
    (Hr : report_reachable destinations d) (Hok : CreateTemplate requester input now d = Ok (id, d')) :
  (∃ datasource, r_datasources d !! ti_datasource input = Some datasource ∧
     FindTemplate id d' = Ok (mkTemplate id (ti_name input) (ti_description input) (ti_datasource input) (ds_name datasource)
       (ds_status datasource) (ti_sql input) StatusDisabled 1 (canonical_parameters (ti_parameters input)))) ∧
  (∀ id', id' ≠ id → parameters_of id' d' = parameters_of id' d) ∧
  (∀ snapshot values result, normalize snapshot (ti_parameters input) values = Ok result →
     normalize snapshot (canonical_parameters (ti_parameters input)) values = Ok result).
Proof.
  apply report_reachable_ok in Hr as Hro. unfold CreateTemplate in Hok. tx_open Hok. destruct x.
  apply appendAudit_Ok in Hst1 as (row & _ & ->). apply insert_template_Ok in Hst as (-> & Hcheck & [datasource Hds] & Hs). subst s.
  apply validateTemplateInput_Ok in Hl. destruct (replaceParameters_only _ _ _ _ _ Hst0) as (x & n & Hs0).
  apply replaceParameters_Ok in Hst0 as (_ & Hrep & Hoth); [|split; cbn; [by apply (pw_id _ (ro_parameters _ Hro))|]|cbn; rewrite lookup_insert_eq; eauto|done].
  2:{ intros i r Hi. destruct (pw_report _ (ro_parameters _ Hro) i r Hi) as [t Ht]. destruct (decide (pr_report r = r_next_template d)) as [->|?];
        [rewrite lookup_insert_eq; eauto|rewrite lookup_insert_ne by done; eauto]. }
  split; [|split].
  - exists datasource. split; [done|]. unfold FindTemplate.
    change (parameters_of (r_next_template d) (set_r_base _ s0)) with (parameters_of (r_next_template d) s0). rewrite Hrep. subst s0. cbn.
    rewrite lookup_insert_eq. cbn [te_datasource]. cbn in Hds. rewrite Hds. done.
  - intros id' Hne. change (parameters_of id' (set_r_base _ s0)) with (parameters_of id' s0). rewrite Hoth by done. done.
  - intros snapshot values result. apply canonical_normalize.
Qed.
