(* ===== verification/ReportAudit.v ===== *)
(** * What the audit log keeps of report parameters (src/internal/reporting/audit.go, internal/audit/audit.go)

    A submission and a run record the values of their parameters.  The log
    takes at most [MaxMetadataBytes] of metadata and refuses more, so the
    values are cut to a budget before they are written. *)

From S2P Require Import Prelude Calendar Json Access AuditTrail Table Secrets ReportParams ReportStore ReportTemplates.
From stdpp Require Import gmap.

Open Scope Z_scope.

Definition auditParameterBudget : Z := Z.shiftl 60 10.
Definition auditParameterReserve : Z := 512.
Definition auditParameterTextLimit : nat := 4096.

(** ** Texts *)

(** [strings.ToValidUTF8(s, U+FFFD)]: one replacement for each run of bytes
    that are no encoding; [bad]: the last byte was one. *)
Fixpoint to_valid_from (skip : nat) (bad : bool) (s : string) : string :=
  match s with
  | "" => ""
  | String c s' =>
      match skip with
      | S skip => String c (to_valid_from skip false s')
      | O =>
          match utf8_width s with
          | O => (if bad then "" else rune_error) +:+ to_valid_from 0 true s'
          | S w => String c (to_valid_from w false s')
          end
      end
  end.
Definition ToValidUTF8 : string → string := to_valid_from 0 false.

(** The text, whether it was cut, the bytes it had and the bytes it keeps. *)
Definition boundedAuditText (value : string) : string * bool * Z * Z :=
  let original := Z.of_nat (String.length value) in
  let valid := ToValidUTF8 value in
  if (Nat.leb (String.length valid) auditParameterTextLimit && (valid =? value)%string)%bool then (value, false, original, original) else
  let stop := valid_end (Nat.min (String.length valid) auditParameterTextLimit) valid in
  (prefix_of stop valid, true, original, Z.of_nat stop).

(** ** The payload *)

Record ReportParameterValueMetadata := mkValueMeta {
  vm_value : string; vm_label : string; vm_value_truncated : bool; vm_value_original : Z; vm_value_included : Z;
  vm_label_truncated : bool; vm_label_original : Z; vm_label_included : Z }.
Record ReportParameterMetadata := mkItemMeta {
  im_key : string; im_label : string; im_type : string; im_unset : bool; im_values : list ReportParameterValueMetadata;
  im_truncated : bool; im_original : Z; im_included : Z; im_omitted : Z }.
Record ReportParametersMetadata := mkParametersMeta {
  pm_items : list ReportParameterMetadata; pm_complete : bool; pm_truncated : bool; pm_original : Z; pm_included : Z; pm_omitted : Z }.

Definition value_json (m : ReportParameterValueMetadata) : json := JObj (
  ("value", JStr (vm_value m)) :: omitempty_string "label" (vm_label m) ++ omitempty_bool "value_truncated" (vm_value_truncated m) ++
  omitempty_int "value_original_bytes" (vm_value_original m) ++ omitempty_int "value_included_bytes" (vm_value_included m) ++
  omitempty_bool "label_truncated" (vm_label_truncated m) ++ omitempty_int "label_original_bytes" (vm_label_original m) ++
  omitempty_int "label_included_bytes" (vm_label_included m)).
Definition item_json (m : ReportParameterMetadata) : json := JObj (
  [("key", JStr (im_key m)); ("label", JStr (im_label m)); ("type", JStr (im_type m)); ("unset", JBool (im_unset m));
   ("values", JArr (value_json <$> im_values m))] ++ omitempty_bool "truncated" (im_truncated m) ++
  [("original_count", jnum (im_original m)); ("included_count", jnum (im_included m)); ("omitted_count", jnum (im_omitted m))]).
Definition parameters_json (m : ReportParametersMetadata) : json := JObj (
  [("items", JArr (item_json <$> pm_items m)); ("complete", JBool (pm_complete m))] ++ omitempty_bool "truncated" (pm_truncated m) ++
  [("original_count", jnum (pm_original m)); ("included_count", jnum (pm_included m)); ("omitted_count", jnum (pm_omitted m))]).
(** [len(encoded)] of [json.Marshal]. *)
Definition encoded (j : json) : Z := Z.of_nat (String.length (json_print j)).

Definition parameter_type_text (t : ParameterType) : string :=
  match t with
  | ParameterText => "text" | ParameterInteger => "integer" | ParameterDecimal => "decimal" | ParameterBoolean => "boolean"
  | ParameterDate => "date" | ParameterDatetime => "datetime" | ParameterSingleOption => "single_option"
  | ParameterMultipleOption => "multiple_option" | ParameterTypeOther name => name
  end.

Definition auditParameterValue (value : string) (labels : gmap string string) : ReportParameterValueMetadata :=
  let '(text, cut, original, included) := boundedAuditText value in
  let m := mkValueMeta text "" cut (if cut then original else 0) (if cut then included else 0) false 0 0 in
  match labels !! value with
  | None => m
  | Some label =>
      let '(text, cut, original, included) := boundedAuditText label in
      mkValueMeta (vm_value m) text (vm_value_truncated m) (vm_value_original m) (vm_value_included m)
        cut (if cut then original else 0) (if cut then included else 0)
  end.

(** [normalizedValueAt] for each index below [normalizedValueCount]. *)
Definition normalizedValues (p : ReportParameter) (value : NormalizedValue) : list string :=
  if bool_decide (p_type p = ParameterMultipleOption) then Multi value else
  match Scalar value with
  | None => []
  | Some (SText text) => [text]
  | Some (SInt n) => [FormatInt n]
  | Some (SBool b) => [if b then "true" else "false"]
  end.

(** ** AuditParameters *)

Definition contentLimit : Z := auditParameterBudget - auditParameterReserve.
(** The values of one parameter; [first]: none was kept so far. *)
Fixpoint keep_values (labels : gmap string string) (first : bool) (used : Z) (texts : list string) :
    list ReportParameterValueMetadata * Z :=
  match texts with
  | [] => ([], used)
  | text :: texts =>
      let selection := auditParameterValue text labels in
      let size := encoded (value_json selection) + (if first then 0 else 1) in
      if contentLimit <? used + size then ([], used) else
      let (kept, used) := keep_values labels false (used + size) texts in (selection :: kept, used)
  end.
Definition item_header (p : ReportParameter) (texts : list string) : ReportParameterMetadata :=
  let count := Z.of_nat (length texts) in
  mkItemMeta (p_key p) (p_label p) (parameter_type_text (p_type p)) (count =? 0) [] false count 0 count.
Definition keep_first (n : nat) (item : ReportParameterMetadata) (values : list ReportParameterValueMetadata) (truncated : bool) :
    ReportParameterMetadata :=
  mkItemMeta (im_key item) (im_label item) (im_type item) (im_unset item) values truncated (im_original item) (Z.of_nat n)
    (im_original item - Z.of_nat n).
Fixpoint keep_items (used : Z) (eligible : list (ReportParameter * NormalizedValue)) : list ReportParameterMetadata :=
  match eligible with
  | [] => []
  | (p, value) :: eligible =>
      let texts := normalizedValues p value in
      let header := item_header p texts in
      let size := encoded (item_json header) + 1 in
      if contentLimit <? used + size then [] else
      let (values, used) := keep_values (OptionLabels value) true (used + size) texts in
      let truncated := negb (Nat.eqb (length values) (length texts)) in
      let item := keep_first (length values) header values truncated in
      if truncated then [item] else item :: keep_items used eligible
  end.

Definition with_items (items : list ReportParameterMetadata) (truncated : bool) (m : ReportParametersMetadata) : ReportParametersMetadata :=
  mkParametersMeta items (pm_complete m) truncated (pm_original m) (Z.of_nat (length items)) (pm_original m - Z.of_nat (length items)).
(** One more value, or the last parameter, is left out. *)
Definition drop_last (m : ReportParametersMetadata) (item : ReportParameterMetadata) : ReportParametersMetadata :=
  let items := removelast (pm_items m) in
  match im_values item with
  | [] => with_items items true m
  | values =>
      let values := removelast values in
      mkParametersMeta (items ++ [keep_first (length values) item values true]) (pm_complete m) (pm_truncated m) (pm_original m)
        (pm_included m) (pm_omitted m)
  end.
Fixpoint fit (fuel : nat) (m : ReportParametersMetadata) : ReportParametersMetadata :=
  match fuel with
  | O => m
  | S fuel =>
      if encoded (parameters_json m) <=? auditParameterBudget then m else
      match last (pm_items m) with
      | None => m
      | Some item => fit fuel (drop_last m item)
      end
  end.
(** Each round leaves out a value or a parameter without values. *)
Definition fit_rounds (m : ReportParametersMetadata) : nat :=
  foldr (λ item n, S (length (im_values item)) + n)%nat O (pm_items m).
Definition fitAuditParameters (m : ReportParametersMetadata) : ReportParametersMetadata := fit (S (fit_rounds m)) m.

Definition eligible_parameters (parameters : list ReportParameter) (normalized : gmap string NormalizedValue) :
    list (ReportParameter * NormalizedValue) :=
  omap (λ p, (λ value, (p, value)) <$> normalized !! p_key p) (sort_by parameter_before parameters).
Definition AuditParameters (parameters : list ReportParameter) (normalized : gmap string NormalizedValue) : ReportParametersMetadata :=
  let eligible := eligible_parameters parameters normalized in
  let start := mkParametersMeta [] (Nat.eqb (length eligible) (length parameters)) false (Z.of_nat (length eligible)) 0 0 in
  let items := keep_items (encoded (parameters_json start)) eligible in
  fitAuditParameters (with_items items (negb (Nat.eqb (length items) (length eligible))) start).

(** ** Failures *)

(** [safeFailure] of an error and the stage it was wrapped with;
    [deadline]: [context.DeadlineExceeded] is in its chain. *)
Definition failureStageAuthorization : string := "authorization".
Definition failureStageParameterValidation : string := "parameter_validation".
Definition failureStageDynamicOptionResolution : string := "dynamic_option_resolution".
Definition failureStageQueryExecution : string := "query_execution".
Definition audit_failure (staged : option string) (deadline : bool) (e : option error) : string * string :=
  match e with
  | None => ("", "")
  | Some e =>
      let stage := default failureStageQueryExecution staged in
      (stage,
       if deadline then "timed_out" else
       if bool_decide (e = ErrForbidden) then "access_denied" else
       if bool_decide (e = ErrInactive) then "inactive" else
       if (stage =? failureStageParameterValidation)%string then "invalid_parameters" else
       if (stage =? failureStageDynamicOptionResolution)%string then "option_resolution_failed" else
       if (stage =? failureStageAuthorization)%string then "authorization_failed" else "query_failed")
  end.

(** ** Payloads *)

Definition AuditIdentity (report : Template) : list (string * json) :=
  [("report_template_id", jnum (t_id report)); ("report_name", JStr (t_name report))] ++ omitempty_int "report_revision" (t_revision report) ++
  [("datasource_id", jnum (t_datasource report))] ++ omitempty_string "datasource_name" (t_datasource_name report).
Definition ReportExportSubmittedMetadata (report : Template) (job : Z) (parameters : ReportParametersMetadata) : json :=
  JObj (AuditIdentity report ++ [("export_job_id", jnum job); ("parameters", parameters_json parameters); ("outcome", JStr "submitted")]).

(** ** Events *)

(** [rows], [truncated] and [reason]: the interactive result. *)
Definition ReportExecutionMetadata (report : Template) (mode : string) (draft : bool) (parameters : ReportParametersMetadata)
    (result : option (Z * bool * string)) (failure : string * string) (duration : Z) : json :=
  JObj (AuditIdentity report ++ [("execution_mode", JStr mode)] ++ omitempty_bool "draft" draft ++
    [("parameters", parameters_json parameters); ("outcome", JStr (if isSome result then "succeeded" else "failed"))] ++
    omitempty_string "failure_stage" failure.1 ++ omitempty_string "failure_class" failure.2 ++
    match result with
    | Some (rows, truncated, reason) =>
        [("returned_row_count", jnum rows); ("result_truncated", JBool truncated)] ++ omitempty_string "truncation_reason" reason
    | None => []
    end ++ [("execution_duration_ms", jnum duration)]).
(** [outcome]: the result, or the stage, deadline and error of the failure. *)
Definition appendExecutionAudit (requester : Requester) (action : Action) (mode : string) (draft : bool) (report : Template)
    (parameters : list ReportParameter) (normalized : gmap string NormalizedValue)
    (outcome : (Z * bool * string) + (option string * bool * error)) (duration : Z) (now : instant) : Tx rdb unit :=
  let metadata := ReportExecutionMetadata report mode draft (AuditParameters parameters normalized)
    (match outcome with inl r => Some r | inr _ => None end)
    (match outcome with inl _ => audit_failure None false None | inr (staged, deadline, e) => audit_failure staged deadline (Some e) end)
    duration in
  appendAudit requester action ResourceReportTemplate (t_id report) (Some metadata) now.

(** [option_state]: the state the options ended in, and how many there are. *)
Definition appendOptionsTestAudit (requester : Requester) (report : Template) (draft : list ReportParameter) (target : Z)
    (normalized : gmap string NormalizedValue) (option_state : string) (options : Z) (failed : option (option string * bool * error))
    (duration : Z) (now : instant) : Tx rdb unit :=
  let parameters := filter (λ p, isSome (normalized !! p_key p) = true) draft in
  let failure := match failed with None => ("", "") | Some (staged, deadline, e) => audit_failure staged deadline (Some e) end in
  let chosen := if target <? 0 then None else draft !! Z.to_nat target in
  let metadata := JObj (AuditIdentity report ++ [("draft", JBool true)] ++
    match chosen with
    | Some p => omitempty_string "target_parameter_key" (p_key p) ++ omitempty_string "target_parameter_label" (p_label p)
    | None => []
    end ++
    [("upstream_parameters", parameters_json (AuditParameters parameters normalized));
     ("outcome", JStr (if isSome failed then "failed" else "succeeded"))] ++
    omitempty_string "failure_stage" failure.1 ++ omitempty_string "failure_class" failure.2 ++ omitempty_string "option_state" option_state ++
    (if negb (isSome failed) && (option_state =? "ready")%string then [("option_count", jnum options)] else []) ++
    [("execution_duration_ms", jnum duration)]) in
  appendAudit requester ActionReportTemplateOptionsTested ResourceReportTemplate (t_id report) (Some metadata) now.

(** ** Sizes of encoded values *)

Lemma pretty_go_length n x s : (x < 10 ^ N.of_nat n)%N → (String.length (pretty_N_go x s) <= n + String.length s)%nat.
Proof.
  revert x s. induction n as [|n IH]; intros x s Hx.
  - replace x with 0%N by (cbn in Hx; lia). rewrite pretty_N_go_0. lia.
  - destruct (decide (x = 0%N)) as [->|Hne]; [rewrite pretty_N_go_0; lia|]. rewrite pretty_N_go_step by lia.
    assert (Hd : (x `div` 10 < 10 ^ N.of_nat n)%N).
    { apply N.Div0.div_lt_upper_bound. rewrite Nat2N.inj_succ, N.pow_succ_r' in Hx. lia. }
    specialize (IH _ (String (pretty_N_char (x `mod` 10)) s) Hd). cbn [String.length] in IH. lia.
Qed.
Lemma encoded_number n : 0 <= n < 10 ^ 20 → encoded (jnum n) <= 20.
Proof.
  intros Hn. unfold encoded, jnum. cbn [json_print]. destruct n as [|x|]; [vm_compute; congruence| |lia].
  change (pretty (Z.pos x)) with (pretty (N.pos x)). unfold pretty, pretty_N. rewrite decide_False by done.
  pose proof (pretty_go_length 20 (N.pos x) "") as H. change (String.length "") with 0%nat in H. change (10 ^ N.of_nat 20)%N with (Z.to_N (10 ^ 20)) in H. lia.
Qed.

Lemma escape_char_length c : (String.length (escape_char c) <= 6)%nat.
Proof. destruct c as [[] [] [] [] [] [] [] []]; vm_compute; lia. Qed.
Lemma separator_escape_length s e : separator_escape s = Some e → String.length e = 6%nat.
Proof. unfold separator_escape. repeat case_match; intros [= <-]; reflexivity. Qed.
Lemma utf8_width_4 s : (utf8_width s <= 4)%nat.
Proof. destruct s as [|a [|b [|c [|e s]]]]; cbn [utf8_width]; repeat case_match; lia. Qed.
(** Six bytes for each rune are enough. *)
Lemma escape_from_length s : ∀ keep skip, (skip <= 3)%nat →
  (String.length (escape_from keep skip s) <= (if keep then skip else 0) + 6 * length (runes_from skip s))%nat.
Proof.
  induction s as [|c s IH]; intros keep skip Hskip; [cbn; lia|]. cbn [escape_from runes_from]. destruct skip as [|skip].
  - pose proof (utf8_width_4 (String c s)) as Hw. destruct (utf8_width (String c s)) as [|[|w]].
    + rewrite string_length_app. cbn [length]. pose proof (IH true 0%nat ltac:(lia)) as H. change (String.length (String backslash "ufffd")) with 6%nat. cbv iota in H. lia.
    + rewrite string_length_app. cbn [length]. pose proof (IH true 0%nat ltac:(lia)) as H. cbv iota in H. pose proof (escape_char_length c). lia.
    + destruct (separator_escape (String c s)) as [e|] eqn:E; rewrite string_length_app; cbn [length].
      * apply separator_escape_length in E. pose proof (IH false (S w) ltac:(lia)) as H. cbv iota in H. lia.
      * pose proof (IH true (S w) ltac:(lia)) as H. cbv iota in H. cbn [String.length]. change (String.length "") with 0%nat. lia.
  - rewrite string_length_app. pose proof (IH keep skip ltac:(lia)). destruct keep; cbn [String.length]; lia.
Qed.
Lemma encoded_string s n : (length (runes s) <= n)%nat → encoded (JStr s) <= 6 * Z.of_nat n + 2.
Proof.
  intros Hn. unfold encoded. cbn [json_print]. unfold print_string. cbn [String.length]. rewrite string_length_app. cbn [String.length].
  pose proof (escape_from_length s true 0%nat ltac:(lia)) as H. cbv iota in H. unfold escape. fold (runes s) in H. unfold runes in *. lia.
Qed.

(** An upper bound on an object: its members, a colon and a comma each. *)
Definition members_size (l : list (string * json)) : Z :=
  foldr (λ kx n, encoded (JStr kx.1) + encoded kx.2 + 2 + n) 2 l.
Lemma members_size_cons k x l : members_size ((k, x) :: l) = encoded (JStr k) + encoded x + 2 + members_size l.
Proof. reflexivity. Qed.
Lemma members_size_nil : members_size [] = 2.
Proof. reflexivity. Qed.
Lemma members_size_app l l' : members_size (l ++ l') = members_size l + members_size l' - 2.
Proof.
  induction l as [|[k x] l IH]; [rewrite members_size_nil; cbn [app]; lia|]. rewrite <- app_comm_cons, !members_size_cons, IH. lia.
Qed.
Lemma encoded_object l : encoded (JObj l) <= members_size l.
Proof.
  unfold encoded at 1. rewrite json_print_obj, string_length_app. change (String.length "{") with 1%nat.
  enough (Z.of_nat (String.length (print_members l)) <= members_size l - 1) by lia.
  induction l as [|[k x] l IH]; [vm_compute; congruence|]. destruct l as [|y l].
  - cbn [print_members members_size foldr fst snd]. rewrite !string_length_app. unfold encoded. cbn [json_print].
    change (String.length ":") with 1%nat. change (String.length "}") with 1%nat. lia.
  - change (print_members ((k, x) :: y :: l)) with (print_string k +:+ ":" +:+ json_print x +:+ "," +:+ print_members (y :: l)).
    rewrite !string_length_app, members_size_cons.
    unfold encoded at 1 2. change (json_print (JStr k)) with (print_string k). change (String.length ":") with 1%nat. change (String.length ",") with 1%nat. lia.
Qed.

(** ** Bounded texts *)

Fixpoint string_drop (n : nat) (s : string) : string :=
  match n, s with S n, String _ s' => string_drop n s' | _, _ => s end.
Lemma prefix_drop n s : prefix_of n s +:+ string_drop n s = s.
Proof.
  unfold prefix_of. revert n. induction s as [|c s IH]; intros [|n]; try done. cbn [String.substring string_drop]. by rewrite string_app_cons, IH.
Qed.
Lemma runes_of_valid s : ∀ skip, to_valid_from skip false s = s → string_concat (runes_from skip s) = string_drop skip s.
Proof.
  induction s as [|c s IH]; intros skip; [by destruct skip|]. cbn [to_valid_from runes_from]. destruct skip as [|skip]; [|intros [= H]; by apply IH].
  destruct (utf8_width (String c s)) as [|w] eqn:Hw.
  - change (if false then "" else rune_error) with rune_error. intros H. exfalso. unfold rune_error in H. cbn in H. injection H as <- H.
    destruct s as [|b s]; [done|]. injection H as <- H. destruct s as [|e s]; [done|]. injection H as <- _. vm_compute in Hw. destruct s; vm_compute in Hw; discriminate Hw.
  - intros [= H]. cbn [String.substring]. unfold string_concat. cbn [foldr]. fold (string_concat (runes_from w s)). rewrite IH by done.
    rewrite string_app_cons. cbn [string_drop]. f_equal. apply prefix_drop.
Qed.
Lemma ValidString_of_valid s : ToValidUTF8 s = s → ValidString s = true.
Proof. intros H. unfold ValidString. apply String.eqb_eq. by apply (runes_of_valid s 0). Qed.

Lemma valid_end_spec n s : (valid_end n s <= n)%nat ∧ ValidString (prefix_of (valid_end n s) s) = true.
Proof.
  induction n as [|n [IH1 IH2]]; [split; [done|]; by destruct s|]. cbn [valid_end]. destruct (ValidString (prefix_of (S n) s)) eqn:E; [done|]. split; [lia|done].
Qed.
Lemma prefix_of_length n s : (String.length (prefix_of n s) <= n)%nat.
Proof. unfold prefix_of. revert n. induction s as [|c s IH]; intros [|n]; cbn; [lia..|]. specialize (IH n). lia. Qed.

(** A text the log keeps: valid, short, and the whole value unless it is
    marked as cut. *)
Definition bounded_text (value text : string) (cut : bool) : Prop :=
  ValidString text = true ∧ (String.length text <= auditParameterTextLimit)%nat ∧
  (if cut then ∃ rest, text +:+ rest = ToValidUTF8 value else text = value).
Lemma boundedAuditText_spec value text cut original included : boundedAuditText value = (text, cut, original, included) →
  bounded_text value text cut.
Proof.
  unfold boundedAuditText. destruct (_ && _)%bool eqn:E.
  - intros [= <- <- _ _]. apply andb_true_iff in E as [Hl%Nat.leb_le Hv%String.eqb_eq]. rewrite Hv in Hl.
    split; [by apply ValidString_of_valid|]. split; done.
  - intros [= <- <- _ _]. pose proof (valid_end_spec (Nat.min (String.length (ToValidUTF8 value)) auditParameterTextLimit) (ToValidUTF8 value)) as [Hn Hv].
    split; [done|]. split; [etransitivity; [apply prefix_of_length|lia]|]. eexists. apply prefix_drop.
Qed.

(** ** What is kept *)

Definition value_ok (labels : gmap string string) (text : string) (v : ReportParameterValueMetadata) : Prop :=
  v = auditParameterValue text labels ∧ bounded_text text (vm_value v) (vm_value_truncated v) ∧
  match labels !! text with Some label => bounded_text label (vm_label v) (vm_label_truncated v) | None => vm_label v = "" end.
Lemma auditParameterValue_ok labels text : value_ok labels text (auditParameterValue text labels).
Proof.
  unfold value_ok, auditParameterValue. destruct (boundedAuditText text) as [[[t c] o] i] eqn:E. apply boundedAuditText_spec in E.
  destruct (labels !! text) as [label|]; [|done]. destruct (boundedAuditText label) as [[[t' c'] o'] i'] eqn:E'. by apply boundedAuditText_spec in E'.
Qed.

(** An item keeps the first values of its parameter and counts them. *)
Record item_ok (pv : ReportParameter * NormalizedValue) (item : ReportParameterMetadata) : Prop := {
  io_key : im_key item = p_key pv.1;
  io_original : im_original item = Z.of_nat (length (normalizedValues pv.1 pv.2));
  io_values : Forall2 (value_ok (OptionLabels pv.2)) (take (length (im_values item)) (normalizedValues pv.1 pv.2)) (im_values item);
  io_included : im_included item = Z.of_nat (length (im_values item));
  io_omitted : im_omitted item = im_original item - im_included item;
  io_truncated : im_truncated item = negb (im_omitted item =? 0) }.
(** The parameters kept are the first; only the last may be cut. *)
Record kept (eligible : list (ReportParameter * NormalizedValue)) (m : ReportParametersMetadata) : Prop := {
  kp_items : Forall2 item_ok (take (length (pm_items m)) eligible) (pm_items m);
  kp_whole : ∀ item, item ∈ removelast (pm_items m) → im_truncated item = false;
  kp_original : pm_original m = Z.of_nat (length eligible);
  kp_included : pm_included m = Z.of_nat (length (pm_items m));
  kp_omitted : pm_omitted m = pm_original m - pm_included m;
  kp_truncated : pm_truncated m = negb (pm_omitted m =? 0) }.

Lemma keep_values_spec labels : ∀ texts first used,
  Forall2 (value_ok labels) (take (length (keep_values labels first used texts).1) texts) (keep_values labels first used texts).1.
Proof.
  induction texts as [|text texts IH]; intros first used; cbn [keep_values]; [constructor|]. destruct (contentLimit <? _); [constructor|].
  destruct (keep_values labels false _ texts) as [values used'] eqn:E. cbn [fst length take]. constructor; [apply auditParameterValue_ok|].
  specialize (IH false (used + (encoded (value_json (auditParameterValue text labels)) + (if first then 0 else 1)))). by rewrite E in IH.
Qed.
Lemma keep_first_ok p value values : Forall2 (value_ok (OptionLabels value)) (take (length values) (normalizedValues p value)) values →
  item_ok (p, value) (keep_first (length values) (item_header p (normalizedValues p value)) values
    (negb (Nat.eqb (length values) (length (normalizedValues p value))))).
Proof.
  intros Hv. pose proof (Forall2_length _ _ _ Hv) as Hl. rewrite length_take in Hl. split; try done. cbn.
  destruct (Nat.eqb_spec (length values) (length (normalizedValues p value))) as [->|?]; [by rewrite Z.sub_diag|].
  symmetry. apply negb_true_iff, Z.eqb_neq. lia.
Qed.
Lemma elem_of_removelast_cons {A} (x y : A) l : y ∈ removelast (x :: l) → y = x ∨ y ∈ removelast l.
Proof. destruct l as [|z l]; [by intros ?%elem_of_nil|]. change (removelast (x :: z :: l)) with (x :: removelast (z :: l)). by intros [->|]%elem_of_cons; [left|right]. Qed.
Lemma keep_items_spec : ∀ eligible used,
  Forall2 item_ok (take (length (keep_items used eligible)) eligible) (keep_items used eligible) ∧
  ∀ item, item ∈ removelast (keep_items used eligible) → im_truncated item = false.
Proof.
  induction eligible as [|[p value] eligible IH]; intros used; cbn [keep_items]; [by split; [constructor|intros ? ?%elem_of_nil]|].
  destruct (contentLimit <? _); [by split; [constructor|intros ? ?%elem_of_nil]|].
  match goal with |- context [keep_values ?l ?f ?u ?t] => pose proof (keep_values_spec l t f u) as Hv; destruct (keep_values l f u t) as [values used'] end.
  apply keep_first_ok in Hv. cbn [fst] in Hv. destruct (negb _) eqn:Ht.
  - split; [by constructor; [|constructor]|by intros ? ?%elem_of_nil].
  - destruct (IH used') as [IH1 IH2]. split; [by constructor|]. intros item [->|?]%elem_of_removelast_cons; [done|auto].
Qed.
Lemma keep_items_length eligible used : (length (keep_items used eligible) <= length eligible)%nat.
Proof. destruct (keep_items_spec eligible used) as [H%Forall2_length _]. rewrite length_take in H. lia. Qed.

Lemma removelast_length {A} (l : list A) : length (removelast l) = pred (length l).
Proof. induction l as [|x [|y l] IH]; [done..|]. change (removelast (x :: y :: l)) with (x :: removelast (y :: l)). cbn [length] in *. lia. Qed.
Lemma elem_of_removelast {A} (x : A) l : x ∈ removelast l → x ∈ l.
Proof.
  destruct (last l) as [y|] eqn:E; [|by apply last_None in E as ->]. apply last_Some in E as [l' ->]. rewrite List.removelast_last.
  intros H. apply elem_of_app. by left.
Qed.
Lemma last_removelast {A} (l : list A) x : last l = Some x → l = removelast l ++ [x].
Proof. intros [l' ->]%last_Some. by rewrite List.removelast_last. Qed.
Lemma Forall2_removelast {A B} (P : A → B → Prop) l l' : Forall2 P (take (length l') l) l' →
  Forall2 P (take (length (removelast l')) l) (removelast l').
Proof.
  intros H. destruct (last l') as [x|] eqn:E; [|by apply last_None in E as ->].
  pose proof (last_removelast _ _ E) as Hl. rewrite Hl in H. apply Forall2_app_inv_r in H as (l1 & l2 & H1 & _ & Ht).
  pose proof (Forall2_length _ _ _ H1) as Hlen. rewrite <- Hl in Ht.
  replace (take (length (removelast l')) l) with l1; [done|]. rewrite <- Hlen.
  apply (f_equal (take (length l1))) in Ht. rewrite take_take, take_app_length in Ht.
  rewrite Nat.min_l in Ht by (rewrite Hlen, removelast_length; lia). done.
Qed.

Lemma drop_last_kept eligible m item : kept eligible m → last (pm_items m) = Some item → kept eligible (drop_last m item).
Proof.
  intros [Hi Hw Ho Hinc Hom Htr] Hl. pose proof (last_removelast _ _ Hl) as Heq. pose proof (removelast_length (pm_items m)) as Hrl.
  assert (Hpos : (0 < length (pm_items m))%nat) by (rewrite Heq, length_app; cbn; lia).
  pose proof (Forall2_length _ _ _ Hi) as Hlen. rewrite length_take in Hlen.
  pose proof (Forall2_removelast _ _ _ Hi) as Hi'. unfold drop_last. destruct (im_values item) as [|v values] eqn:Hv.
  - split; cbn; try done.
    + intros i Hin%elem_of_removelast. by apply Hw.
    + symmetry. apply negb_true_iff, Z.eqb_neq. lia.
  - assert (Hitem : ∃ pv, take (length (pm_items m)) eligible = take (length (removelast (pm_items m))) eligible ++ [pv] ∧ item_ok pv item).
    { pose proof Hi as Hi2. rewrite Heq in Hi2 at 2. apply Forall2_app_inv_r in Hi2 as (l1 & l2 & H1 & H2 & Ht).
      apply Forall2_cons_inv_r in H2 as (pv & l3 & Hok & H3 & ->). apply Forall2_nil_inv_r in H3 as ->. exists pv. split; [|done]. rewrite Ht. f_equal.
      apply Forall2_length in H1. apply (f_equal (take (length l1))) in Ht. rewrite take_take, take_app_length in Ht.
      rewrite <- Ht, H1. f_equal. lia. }
    destruct Hitem as (pv & Ht & [Hk Hor Hvs Hin Hot Htrunc]).
    assert (Hnew : item_ok pv (keep_first (length (removelast (v :: values))) item (removelast (v :: values)) true)).
    { split; try done; cbn [im_values keep_first]; [rewrite Hv in Hvs; by apply Forall2_removelast|].
      cbn. symmetry. apply negb_true_iff, Z.eqb_neq. rewrite Hor. apply Forall2_length in Hvs. rewrite Hv, length_take in Hvs.
      pose proof (removelast_length (v :: values)) as Hr. cbn [length] in Hr, Hvs. cbn [removelast] in Hr. lia. }
    assert (Hlen' : length (removelast (pm_items m) ++ [keep_first (length (removelast (v :: values))) item (removelast (v :: values)) true]) = length (pm_items m))
      by (rewrite length_app; cbn [length]; lia).
    split; cbn [pm_items pm_original pm_included pm_omitted pm_truncated].
    + rewrite Hlen', Ht. apply Forall2_app; [done|by constructor; [|constructor]].
    + intros i. rewrite List.removelast_last. apply Hw.
    + done.
    + by rewrite Hlen'.
    + done.
    + done.
Qed.

Lemma fit_rounds_app l l' : foldr (λ item n, S (length (im_values item)) + n)%nat O (l ++ l') =
  (foldr (λ item n, S (length (im_values item)) + n)%nat O l + foldr (λ item n, S (length (im_values item)) + n)%nat O l')%nat.
Proof. induction l as [|x l IH]; [done|]. cbn [app foldr]. rewrite IH. lia. Qed.
Lemma drop_last_rounds m item : last (pm_items m) = Some item → (fit_rounds (drop_last m item) < fit_rounds m)%nat.
Proof.
  intros Hl. unfold fit_rounds. rewrite (last_removelast _ _ Hl), fit_rounds_app. unfold drop_last. cbn [foldr].
  destruct (im_values item) as [|v values] eqn:Hv; cbn [with_items pm_items]; [lia|]. rewrite fit_rounds_app. cbn [foldr keep_first im_values].
  rewrite removelast_length. cbn [length pred]. lia.
Qed.
Lemma fit_spec eligible fuel : ∀ m, kept eligible m → (fit_rounds m < fuel)%nat →
  kept eligible (fit fuel m) ∧ (encoded (parameters_json (fit fuel m)) <= auditParameterBudget ∨ pm_items (fit fuel m) = []).
Proof.
  induction fuel as [|fuel IH]; intros m Hk Hf; [lia|]. cbn [fit]. destruct (Z.leb_spec (encoded (parameters_json m)) auditParameterBudget); [eauto|].
  destruct (last (pm_items m)) as [item|] eqn:E; [|apply last_None in E; eauto]. apply drop_last_rounds in E as Hr.
  apply IH; [by apply drop_last_kept|lia].
Qed.

(** Bounds on the fields of an object with constant names. *)
Lemma encoded_bool b : encoded (JBool b) <= 5.
Proof. destruct b; vm_compute; congruence. Qed.
Definition short_key (key : string) : bool := encoded (JStr key) <=? 40.
Lemma size_nil : members_size [] <= 2.
Proof. done. Qed.
Lemma size_cons key x l n r : short_key key = true → encoded x <= n → members_size l <= r → members_size ((key, x) :: l) <= 42 + n + r.
Proof. intros Hk%Z.leb_le. rewrite members_size_cons. lia. Qed.
Lemma size_app l l' r r' : members_size l <= r → members_size l' <= r' → members_size (l ++ l') <= r + r'.
Proof. rewrite members_size_app. lia. Qed.
Lemma size_bool key b : short_key key = true → members_size (omitempty_bool key b) <= 48.
Proof. intros Hk. destruct b; [apply (size_cons _ _ _ 4 2); [done|vm_compute; congruence|apply size_nil]|etransitivity; [apply size_nil|lia]]. Qed.
Lemma size_int key n : short_key key = true → 0 <= n < 10 ^ 20 → members_size (omitempty_int key n) <= 64.
Proof.
  intros Hk Hn. unfold omitempty_int. destruct (n =? 0); [etransitivity; [apply size_nil|lia]|].
  apply (size_cons _ _ _ 20 2); [done|by apply encoded_number|apply size_nil].
Qed.
Lemma size_string key s n : short_key key = true → (length (runes s) <= n)%nat → members_size (omitempty_string key s) <= 46 + 6 * Z.of_nat n.
Proof.
  intros Hk Hn. unfold omitempty_string. destruct (s =? "")%string; [etransitivity; [apply size_nil|lia]|].
  pose proof (size_cons key (JStr s) [] _ 2 Hk (encoded_string s n Hn) size_nil). lia.
Qed.
(** Bound an object field by field; the values are hypotheses. *)
Ltac sizes :=
  lazymatch goal with
  | |- members_size [] <= _ => apply size_nil
  | |- members_size (_ ++ _) <= _ => eapply size_app; sizes
  | |- members_size (_ :: _) <= _ => eapply size_cons; [reflexivity|sizes|sizes]
  | |- members_size (omitempty_bool _ _) <= _ => apply size_bool; reflexivity
  | |- members_size (omitempty_int _ _) <= _ => apply size_int; [reflexivity|eassumption]
  | |- members_size (omitempty_string _ _) <= _ => eapply size_string; [reflexivity|eassumption]
  | |- encoded (jnum _) <= _ => apply encoded_number; eassumption
  | |- encoded (JBool _) <= _ => apply encoded_bool
  | |- encoded (JStr _) <= _ => first [eapply encoded_string; eassumption | eassumption | apply Z.le_refl]
  | |- _ => eassumption
  end.
Ltac object_size := etransitivity; [apply encoded_object|]; etransitivity; [sizes|].

Lemma parameters_json_empty eligible m : kept eligible m → Z.of_nat (length eligible) < 10 ^ 20 → pm_items m = [] →
  encoded (parameters_json m) <= 400.
Proof.
  intros [_ _ Ho Hi Hom _] Hlen Hnil. unfold parameters_json. rewrite Hnil in *. cbn [length fmap list_fmap] in *.
  assert (0 <= pm_original m < 10 ^ 20) by lia. assert (0 <= pm_included m < 10 ^ 20) by lia. assert (0 <= pm_omitted m < 10 ^ 20) by lia.
  assert (encoded (JArr []) <= 2) by done. object_size. lia.
Qed.

(** The parameters that have a value, in display order. *)
Lemma eligible_parameters_length parameters normalized : (length (eligible_parameters parameters normalized) <= length parameters)%nat.
Proof.
  unfold eligible_parameters. pose proof (Permutation_length (sort_by_Permutation parameter_before parameters)) as Hp. rewrite <- Hp.
  generalize (sort_by parameter_before parameters). intros l. induction l as [|x l IH]; cbn; [done|]. destruct (normalized !! p_key x); cbn; lia.
Qed.

Lemma AuditParameters_kept parameters normalized : Z.of_nat (length parameters) < 10 ^ 20 →
  encoded (parameters_json (AuditParameters parameters normalized)) <= auditParameterBudget ∧
  kept (eligible_parameters parameters normalized) (AuditParameters parameters normalized).
Proof.
  intros Hlen. pose proof (eligible_parameters_length parameters normalized) as Hel. unfold AuditParameters, fitAuditParameters.
  set (eligible := eligible_parameters parameters normalized) in *. set (start := mkParametersMeta _ _ _ _ _ _).
  set (items := keep_items _ eligible). set (m := with_items _ _ _).
  assert (Hk : kept eligible m).
  { destruct (keep_items_spec eligible (encoded (parameters_json start))) as [H1 H2]. fold items in H1, H2.
    pose proof (keep_items_length eligible (encoded (parameters_json start))) as H3. fold items in H3. split; try done.
    cbn. destruct (Nat.eqb_spec (length items) (length eligible)) as [->|?]; [by rewrite Z.sub_diag|]. symmetry. apply negb_true_iff, Z.eqb_neq. lia. }
  destruct (fit_spec eligible (S (fit_rounds m)) m Hk) as [Hk' [Hle|Hnil]]; [lia|done|]. split; [|done].
  etransitivity; [eapply parameters_json_empty; [done|lia|done]|vm_compute; congruence].
Qed.

(** What the columns of a template allow: VARCHAR(128) names. *)
Record identity_fits (report : Template) : Prop := {
  if_id : 0 <= t_id report < 10 ^ 20;
  if_revision : 0 <= t_revision report < 10 ^ 20;
  if_datasource : 0 <= t_datasource report < 10 ^ 20;
  if_name : (length (runes (t_name report)) <= 128)%nat;
  if_datasource_name : (length (runes (t_datasource_name report)) <= 128)%nat }.
Lemma AuditIdentity_size report : identity_fits report → members_size (AuditIdentity report) <= 1900.
Proof. intros [Hi Hr Hd Hn Hdn]. unfold AuditIdentity. etransitivity; [sizes|]. lia. Qed.
Lemma submitted_fits report job m : identity_fits report → 0 <= job < 10 ^ 20 → encoded (parameters_json m) <= auditParameterBudget →
  encoded (ReportExportSubmittedMetadata report job m) <= MaxMetadataBytes.
Proof.
  intros Hf%AuditIdentity_size Hj Hm. change auditParameterBudget with 61440 in Hm. change MaxMetadataBytes with 65536.
  assert (encoded (JStr "submitted") <= 11) by (vm_compute; congruence). unfold ReportExportSubmittedMetadata.
  etransitivity; [apply encoded_object|]. rewrite members_size_app. enough (members_size
    [("export_job_id", jnum job); ("parameters", parameters_json m); ("outcome", JStr "submitted")] <= 61700) by lia.
  etransitivity; [sizes|]. lia.
Qed.
(** The part of a run's event that depends on its outcome. *)
Lemma execution_result_size (result : option (Z * bool * string)) :
  match result with Some (rows, _, reason) => 0 <= rows < 10 ^ 20 ∧ (length (runes reason) <= 32)%nat | None => True end →
  members_size match result with
    | Some (rows, truncated, reason) =>
        [("returned_row_count", jnum rows); ("result_truncated", JBool truncated)] ++ omitempty_string "truncation_reason" reason
    | None => []
    end <= 400.
Proof. destruct result as [[[rows truncated] reason]|]; [|done]. intros [Hrows Hreason]. etransitivity; [sizes|]. lia. Qed.
Lemma execution_fits report mode draft m result failure duration : identity_fits report → encoded (parameters_json m) <= auditParameterBudget →
  (length (runes mode) <= 32)%nat → (length (runes failure.1) <= 64)%nat → (length (runes failure.2) <= 64)%nat → 0 <= duration < 10 ^ 20 →
  match result with Some (rows, _, reason) => 0 <= rows < 10 ^ 20 ∧ (length (runes reason) <= 32)%nat | None => True end →
  encoded (ReportExecutionMetadata report mode draft m result failure duration) <= MaxMetadataBytes.
Proof.
  intros Hf%AuditIdentity_size Hm Hmode Hf1 Hf2 Hd Hr%execution_result_size. change auditParameterBudget with 61440 in Hm. change MaxMetadataBytes with 65536.
  assert (Ho : encoded (JStr (if isSome result then "succeeded" else "failed")) <= 11) by (destruct result; vm_compute; congruence).
  unfold ReportExecutionMetadata. revert Hr Ho. generalize (JStr (if isSome result then "succeeded" else "failed")). generalize (match result with
    | Some (rows, truncated, reason) =>
        [("returned_row_count", jnum rows); ("result_truncated", JBool truncated)] ++ omitempty_string "truncation_reason" reason
    | None => [] end). intros fields outcome Hr Ho. revert Hf. generalize (AuditIdentity report). intros identity Hf. object_size. lia.
Qed.

(** C22: what is kept of the values of a report's parameters fits its budget
    and says what it leaves out: the parameters kept are the first in
    display order, each with the first of its values, only the last one cut;
    every text kept is valid, at most 4096 bytes, and the whole value unless
    it is marked as cut.  With the lengths the columns allow, the events of a
    submission, and of a run of either outcome, fit the log's limit. *)
Theorem AuditParameters_bounded parameters normalized : Z.of_nat (length parameters) < 10 ^ 20 →
  let m := AuditParameters parameters normalized in
  encoded (parameters_json m) <= auditParameterBudget ∧
  kept (eligible_parameters parameters normalized) m ∧
  (∀ report, identity_fits report →
     (∀ job, 0 <= job < 10 ^ 20 → encoded (ReportExportSubmittedMetadata report job m) <= MaxMetadataBytes) ∧
     (∀ mode draft staged deadline e duration, (length (runes mode) <= 32)%nat → (length (runes (default "" staged)) <= 64)%nat →
        0 <= duration < 10 ^ 20 →
        encoded (ReportExecutionMetadata report mode draft m None (audit_failure staged deadline (Some e)) duration) <= MaxMetadataBytes) ∧
     (∀ mode draft rows truncated reason duration, (length (runes mode) <= 32)%nat → (length (runes reason) <= 32)%nat →
        0 <= rows < 10 ^ 20 → 0 <= duration < 10 ^ 20 →
        encoded (ReportExecutionMetadata report mode draft m (Some (rows, truncated, reason)) (audit_failure None false None) duration)
          <= MaxMetadataBytes)).
Proof.
  intros Hlen m. destruct (AuditParameters_kept parameters normalized Hlen) as [Hb Hk]. fold m in Hb, Hk. split; [done|]. split; [done|].
  intros report Hf. split; [|split].
  - intros job Hj. by apply submitted_fits.
  - intros mode draft staged deadline e duration Hmode Hst Hd. apply execution_fits; try done.
    + destruct staged as [stage|]; [exact Hst|vm_compute; lia].
    + unfold audit_failure. cbn [snd]. repeat case_match; vm_compute; lia.
  - intros mode draft rows truncated reason duration Hmode Hreason Hrows Hd. apply execution_fits; try done; vm_compute; lia.
Qed.
