(* ===== verification/ReportExports.v ===== *)
(** * Report exports (src/internal/reportexport/repository.go, model.go)

    The queue of export jobs: submission by those who may run and export the
    report, claims by workers, heartbeats, progress, the two ends of an
    attempt, the recovery of attempts whose worker is gone, who sees and
    downloads what, and the expiry of artifacts.  Each operation is one
    transaction or statement. *)

From S2P Require Import Prelude Calendar Json Access AuditTrail Table Secrets ReportParams BrowserStore ReportStore ReportTemplates ReportAudit.
From stdpp Require Import gmap.

Open Scope Z_scope.

Inductive Scope := ScopeMine | ScopeAll | OtherScope (name : string).
Inductive DownloadAccess := DownloadAccessOwner | DownloadAccessViewAll.
#[export] Instance DownloadAccess_eq_dec : EqDecision DownloadAccess. Proof. solve_decision. Defined.

(** ** Who may export *)

(** [u.is_active AND (role.slug=? OR EXISTS (... p.key='reports.export'))],
    users joined with their role. *)
Definition may_export (d : rdb) (user : Z) : bool :=
  match b_users (r_base d) !! user with
  | Some u =>
      us_active u && match b_roles (r_base d) !! us_role u with
        | Some role => (rl_slug role =? AdminRoleSlug)%string || bool_decide ("reports.export" ∈ rl_permissions role)
        | None => false
        end
  | None => false
  end.
Definition is_status (status expected : ReportStatus) : bool := (status =? expected)%string.
(** The row of [Submit]'s first [SELECT]. *)
Definition submit_revision (report user : Z) (d : rdb) : option Z :=
  match r_templates d !! report with
  | Some r =>
      match r_datasources d !! te_datasource r with
      | Some s =>
          if bool_decide ((report, user) ∈ r_access d) && is_status (te_status r) StatusActive && is_status (ds_status s) StatusActive && may_export d user
          then Some (te_revision r) else None
      | None => None
      end
  | None => None
  end.
(** [datasource]: the one an execution requires to be active, if any. *)
Definition eligible (user report : Z) (datasource : option Z) (d : rdb) : bool :=
  match r_templates d !! report with
  | Some r =>
      match r_datasources d !! default (te_datasource r) datasource with
      | Some s =>
          bool_decide ((report, user) ∈ r_access d) && is_status (te_status r) StatusActive && may_export d user &&
          (negb (isSome datasource) || is_status (ds_status s) StatusActive)
      | None => false
      end
  | None => false
  end.
Definition EligibleForExecution (user report datasource : Z) (d : rdb) : bool := eligible user report (Some datasource) d.

(** ** Submission *)

Section Submission.
Context {decimals : DecimalLibrary}.

Definition queued_job (requester : Requester) (report : Template) (snapshot : Snapshot) (now : instant) (id : Z) : Job :=
  mkJob id (t_id report) (t_name report) (t_sql report) (t_datasource report) snapshot (UserID (Effective requester))
    StatusQueued 0 None None None 0 0 None None None None now None None.
Definition Submit (requester : Requester) (report : Template) (normalized : gmap string NormalizedValue) (now : instant) : Tx rdb Z :=
  let* current := tx_gets (submit_revision (t_id report) (UserID (Effective requester))) in
  match current with
  | None => tx_fail ErrForbidden
  | Some currentRevision =>
      if negb (currentRevision =? t_revision report) then tx_fail reporting_ErrConflict else
      let canonical := CanonicalInput normalized in
      let* _ := tx_lift (NormalizeSnapshotParameters (t_parameters report) canonical) in
      let* id := insert_job (queued_job requester report (mkSnapshot 1 (t_parameters report) canonical) now) in
      appendAudit requester ActionReportExportSubmitted ResourceReportExport id
        (Some (ReportExportSubmittedMetadata report id (AuditParameters (t_parameters report) normalized))) now ;;;
      tx_ret id
  end.
End Submission.

(** ** What is visible *)

Definition FindJob (id : Z) (d : rdb) : result Job :=
  match r_jobs d !! id with Some j => Ok j | None => Err ErrNotFound end.

(** The columns of the lists: neither the SQL, nor the parameters, nor the
    place of the artifact.  [vj_requester]: name and username, when the user
    exists. *)
Record VisibleJob := mkVisibleJob {
  vj_id : Z; vj_report : Z; vj_report_name : string; vj_user : Z; vj_requester : option (string * string); vj_status : job_status;
  vj_attempt : Z; vj_rows : Z; vj_part : Z; vj_artifact : option (string * string * Z * Z * Z); vj_expires : option instant;
  vj_deleted : option instant; vj_failure : option string; vj_created : instant; vj_started : option instant; vj_finished : option instant }.
Definition visible_job (d : rdb) (j : Job) : VisibleJob :=
  mkVisibleJob (jb_id j) (jb_report j) (jb_report_name j) (jb_user j)
    ((λ u, (us_name u, us_username u)) <$> b_users (r_base d) !! jb_user j) (jb_status j) (jb_attempt j) (jb_rows j) (jb_part j)
    ((λ a, (ArtifactName a, ArtifactType a, ArtifactSize a, Parts a, Rows a)) <$> jb_artifact j) (jb_expires j) (jb_deleted j)
    (snd <$> jb_failure j) (jb_created j) (jb_started j) (jb_finished j).
Definition RequesterDisplayName (job : VisibleJob) : string :=
  match vj_requester job with
  | Some (name, _) => if (name =? "")%string then "User #" +:+ pretty (vj_user job) else name
  | None => "User #" +:+ pretty (vj_user job)
  end.

Definition visibleScope (scope : Scope) (user : Z) : result (Job → bool) :=
  match scope with
  | ScopeAll => Ok (λ _, true)
  | ScopeMine => if user =? 0 then Err (Errorf "effective export viewer is required") else Ok (λ j, jb_user j =? user)
  | OtherScope _ => Err (Errorf "invalid report export scope")
  end.
Definition CountVisible (scope : Scope) (user : Z) (d : rdb) : result Z :=
  let? where_ := visibleScope scope user in Ok (count where_ (r_jobs d)).
Definition newest_first (a b : Job) : bool :=
  (jb_created b <? jb_created a) || ((jb_created a =? jb_created b) && (jb_id b <? jb_id a)).
Definition ListVisible (scope : Scope) (user : Z) (limit offset : nat) (d : rdb) : result (list VisibleJob) :=
  let? where_ := visibleScope scope user in
  Ok (visible_job d <$> take limit (drop offset (select_by newest_first where_ (r_jobs d)))).
Definition FindVisible (id : Z) (scope : Scope) (user : Z) (d : rdb) : result VisibleJob :=
  let? where_ := visibleScope scope user in
  match r_jobs d !! id with
  | Some j => if where_ j then Ok (visible_job d j) else Err ErrNotFound
  | None => Err ErrNotFound
  end.

Definition has_job_status (status : job_status) (j : Job) : bool := bool_decide (jb_status j = status).
(** Queued, running and failed. *)
Record Health := mkHealth { h_queued : Z; h_running : Z; h_failed : Z }.
Definition HealthForUser (user : Z) (d : rdb) : Health :=
  let number status := count (λ j, (jb_user j =? user) && has_job_status status j) (r_jobs d) in
  mkHealth (number StatusQueued) (number StatusRunning) (number StatusFailed).
Definition Processing (health : Health) : Z := h_queued health + h_running health.

(** ** Attempts *)

Definition oldest_first (a b : Job) : bool :=
  (jb_created a <? jb_created b) || ((jb_created a =? jb_created b) && (jb_id a <? jb_id b)).
Definition set_claimed (owner : string) (now : instant) (j : Job) : Job :=
  mkJob (jb_id j) (jb_report j) (jb_report_name j) (jb_sql j) (jb_datasource j) (jb_snapshot j) (jb_user j)
    StatusRunning (jb_attempt j + 1) (Some owner) (Some now) (Some now) 0 0 (jb_artifact j) (jb_expires j) (jb_deleted j)
    None (jb_created j) (Some (default now (jb_started j))) (jb_finished j).
(** [locked]: the rows other transactions hold; [attempt] is an INT UNSIGNED. *)
Definition Claim (owner : string) (locked : Z → bool) (now : instant) : Tx rdb (option Job) :=
  if negb (Nat.eqb (String.length owner) 64) then tx_fail (Errorf "opaque export owner is required") else
  let* first := tx_gets (λ d, select_first oldest_first (λ j, has_job_status StatusQueued j && negb (locked (jb_id j))) (r_jobs d)) in
  match first with
  | None => tx_ret None
  | Some j =>
      if 2 ^ 32 <=? jb_attempt j + 1 then tx_fail ErrOutOfRange else
      let* affected := update_job (jb_id j) (has_job_status StatusQueued) (set_claimed owner now) in
      if negb (affected =? 1) then tx_fail ErrClaimLost else
      let* job := tx_gets (λ d, r_jobs d !! jb_id j) in
      match job with Some job => tx_ret (Some job) | None => tx_fail ErrNoRows end
  end.

(** [status='running' AND owner_id=? AND attempt=?] *)
Definition owned_by (owner : string) (attempt : Z) (j : Job) : bool :=
  has_job_status StatusRunning j && bool_decide (jb_owner j = Some owner) && (jb_attempt j =? attempt).
Definition set_heartbeat (now : instant) (j : Job) : Job :=
  mkJob (jb_id j) (jb_report j) (jb_report_name j) (jb_sql j) (jb_datasource j) (jb_snapshot j) (jb_user j)
    (jb_status j) (jb_attempt j) (jb_owner j) (jb_claimed j) (Some now) (jb_rows j) (jb_part j) (jb_artifact j) (jb_expires j) (jb_deleted j)
    (jb_failure j) (jb_created j) (jb_started j) (jb_finished j).
Definition Heartbeat (id : Z) (owner : string) (attempt : Z) (now : instant) : Tx rdb bool :=
  let* affected := update_job id (owned_by owner attempt) (set_heartbeat now) in tx_ret (affected =? 1).
Definition set_progress (rows part : Z) (j : Job) : Job :=
  mkJob (jb_id j) (jb_report j) (jb_report_name j) (jb_sql j) (jb_datasource j) (jb_snapshot j) (jb_user j)
    (jb_status j) (jb_attempt j) (jb_owner j) (jb_claimed j) (jb_heartbeat j) rows part (jb_artifact j) (jb_expires j) (jb_deleted j)
    (jb_failure j) (jb_created j) (jb_started j) (jb_finished j).
Definition Progress (id : Z) (owner : string) (attempt rows part : Z) : Tx rdb bool :=
  let* affected := update_job id (owned_by owner attempt) (set_progress rows part) in tx_ret (affected =? 1).

Definition set_succeeded (artifact : Artifact) (expires now : instant) (j : Job) : Job :=
  mkJob (jb_id j) (jb_report j) (jb_report_name j) (jb_sql j) (jb_datasource j) (jb_snapshot j) (jb_user j)
    StatusSucceeded (jb_attempt j) (jb_owner j) (jb_claimed j) (Some now) (jb_rows j) (jb_part j) (Some artifact) (Some expires) (jb_deleted j)
    (jb_failure j) (jb_created j) (jb_started j) (Some now).
(** [chk_report_export_jobs_artifact_type] is checked on the row that changes. *)
Definition Succeed (id : Z) (owner : string) (attempt : Z) (artifact : Artifact) (expires now : instant) : Tx rdb bool := λ d,
  match r_jobs d !! id with
  | Some j =>
      if owned_by owner attempt j && negb ((ArtifactType artifact =? "xlsx")%string || (ArtifactType artifact =? "zip")%string)
      then Err ErrCheckConstraint
      else tx_bind (update_job id (owned_by owner attempt) (set_succeeded artifact expires now)) (λ affected, tx_ret (affected =? 1)) d
  | None => Ok (false, d)
  end.
Definition set_failed (class message : string) (now : instant) (j : Job) : Job :=
  mkJob (jb_id j) (jb_report j) (jb_report_name j) (jb_sql j) (jb_datasource j) (jb_snapshot j) (jb_user j)
    StatusFailed (jb_attempt j) (jb_owner j) (jb_claimed j) (Some now) (jb_rows j) (jb_part j) (jb_artifact j) (jb_expires j) (jb_deleted j)
    (Some (class, message)) (jb_created j) (jb_started j) (Some now).
Definition Fail_ (id : Z) (owner : string) (attempt : Z) (class message : string) (now : instant) : Tx rdb bool :=
  let* affected := update_job id (owned_by owner attempt) (set_failed (prefix_of 64 class) (prefix_of 500 message) now) in tx_ret (affected =? 1).
Definition set_requeued (j : Job) : Job :=
  mkJob (jb_id j) (jb_report j) (jb_report_name j) (jb_sql j) (jb_datasource j) (jb_snapshot j) (jb_user j)
    StatusQueued (jb_attempt j) None None None (jb_rows j) (jb_part j) (jb_artifact j) (jb_expires j) (jb_deleted j)
    (jb_failure j) (jb_created j) (jb_started j) (jb_finished j).
Definition stale (cutoff : instant) (j : Job) : bool :=
  has_job_status StatusRunning j && match jb_heartbeat j with Some at_ => at_ <? cutoff | None => false end.
Definition RequeueStale (cutoff : instant) : Tx rdb Z := update_jobs (stale cutoff) set_requeued.

(** ** Downloads and expiry *)

Definition authorizedDownloadAccess (ownerAllowed viewAll : bool) : option DownloadAccess :=
  if ownerAllowed then Some DownloadAccessOwner else if viewAll then Some DownloadAccessViewAll else None.
(** [answer]: what the read of the eligibility returned; [None] when
    nothing may be downloaded. *)
Definition authorize_download (job : Job) (user : Z) (viewAll : bool) (answer : result bool) : result (option (Job * DownloadAccess)) :=
  let others := Ok ((λ access, (job, access)) <$> authorizedDownloadAccess false viewAll) in
  if jb_user job =? user then
    match answer with
    | Ok allowed => Ok ((λ access, (job, access)) <$> authorizedDownloadAccess allowed viewAll)
    | Err e => if viewAll then others else Err e
    end
  else others.
Definition AuthorizeDownload (id user : Z) (viewAll : bool) (d : rdb) : result (option (Job * DownloadAccess)) :=
  let? job := FindJob id d in authorize_download job user viewAll (Ok (eligible user (jb_report job) None d)).

Definition undeleted (j : Job) : bool := has_job_status StatusSucceeded j && isSome (jb_artifact j) && negb (isSome (jb_deleted j)).
Definition artifact_paths (jobs : list Job) : list string := omap (λ j, RelativePath <$> jb_artifact j) jobs.
Definition ReferencedArtifacts (d : rdb) : gset string := list_to_set (artifact_paths (select undeleted (r_jobs d))).
Definition expired (now : instant) (j : Job) : bool :=
  undeleted j && match jb_expires j with Some at_ => at_ <=? now | None => false end.
Definition ExpiredArtifacts (now : instant) (d : rdb) : list Job := select (expired now) (r_jobs d).
Definition set_deleted (now : instant) (j : Job) : Job :=
  mkJob (jb_id j) (jb_report j) (jb_report_name j) (jb_sql j) (jb_datasource j) (jb_snapshot j) (jb_user j)
    (jb_status j) (jb_attempt j) (jb_owner j) (jb_claimed j) (jb_heartbeat j) (jb_rows j) (jb_part j) (jb_artifact j) (jb_expires j) (Some now)
    (jb_failure j) (jb_created j) (jb_started j) (jb_finished j).
Definition MarkArtifactDeleted (id : Z) (now : instant) : Tx rdb unit :=
  let* _ := update_job id (λ j, has_job_status StatusSucceeded j && negb (isSome (jb_deleted j))) (set_deleted now) in tx_ret tt.

Definition access_text (access : DownloadAccess) : string :=
  match access with DownloadAccessOwner => "owner" | DownloadAccessViewAll => "report_exports.view_all" end.
Definition RecordDownload (requester : Requester) (job : Job) (access : DownloadAccess) (now : instant) : Tx rdb unit :=
  appendAudit requester ActionReportExportDownloaded ResourceReportExport (jb_id job) (Some (JObj (
    [("report_template_id", jnum (jb_report job)); ("report_name", JStr (jb_report_name job)); ("datasource_id", jnum (jb_datasource job));
     ("export_job_id", jnum (jb_id job))] ++ omitempty_int "submitted_by_user_id" (jb_user job) ++
    omitempty_string "access_path" (access_text access) ++
    [("artifact_name", JStr (default "" (ArtifactName <$> jb_artifact job)))] ++
    omitempty_string "artifact_type" (default "" (ArtifactType <$> jb_artifact job))))) now.

(** ** Downloads (src/internal/features/reports/handler.go) *)

Inductive download :=
  | DownloadForbidden | DownloadNotFound | DownloadInternal (e : error)
  | DownloadServed (path name content_type : string) (size : Z) (access : DownloadAccess).
Definition content_type (kind : string) : string :=
  if (kind =? "zip")%string then "application/zip" else "application/vnd.openxmlformats-officedocument.spreadsheetml.sheet".
(** [Download]; [open]: whether the artifact can be opened.  The state is
    the one after the audit row of a download. *)
Definition Download (requester : Requester) (viewAll : bool) (open : string → bool) (id : Z) (now : instant) (d : rdb) : download * rdb :=
  match AuthorizeDownload id (UserID (Effective requester)) viewAll d with
  | Err _ | Ok None => (DownloadForbidden, d)
  | Ok (Some (job, access)) =>
      match jb_artifact job with
      | Some artifact =>
          if negb (has_job_status StatusSucceeded job) || isSome (jb_deleted job) then (DownloadForbidden, d) else
          if negb (open (RelativePath artifact)) then (DownloadNotFound, d) else
          match RecordDownload requester job access now d with
          | Ok (_, d') => (DownloadServed (RelativePath artifact) (ArtifactName artifact) (content_type (ArtifactType artifact)) (ArtifactSize artifact) access, d')
          | Err e => (DownloadInternal e, d)
          end
      | None => (DownloadForbidden, d)
      end
  end.

(** The scope a list is asked for with, or the status of the refusal. *)
Definition requestedExportScope (value : string) (canViewAll : bool) : Scope + Z :=
  if (value =? "")%string then inl (if canViewAll then ScopeAll else ScopeMine) else
  if (value =? "mine")%string then inl ScopeMine else
  if (value =? "all")%string then (if canViewAll then inl ScopeAll else inr 403) else inr 400.

(** ** Everything that happens to the queue *)

Section System.
Context {decimals : DecimalLibrary}.

Inductive export_op :=
  | OpSubmit (requester : Requester) (report : Template) (normalized : gmap string NormalizedValue)
  | OpClaim (owner : string) (locked : Z → bool)
  | OpHeartbeat (id : Z) (owner : string) (attempt : Z)
  | OpProgress (id : Z) (owner : string) (attempt rows part : Z)
  | OpSucceed (id : Z) (owner : string) (attempt : Z) (artifact : Artifact) (expires : instant)
  | OpFail (id : Z) (owner : string) (attempt : Z) (class message : string)
  | OpRequeueStale (cutoff : instant)
  | OpMarkDeleted (id : Z)
  | OpRecordDownload (requester : Requester) (job : Job) (access : DownloadAccess).
Definition export_tx (op : export_op) (now : instant) : Tx rdb unit :=
  match op with
  | OpSubmit requester report normalized => let* _ := Submit requester report normalized now in tx_ret tt
  | OpClaim owner locked => let* _ := Claim owner locked now in tx_ret tt
  | OpHeartbeat id owner attempt => let* _ := Heartbeat id owner attempt now in tx_ret tt
  | OpProgress id owner attempt rows part => let* _ := Progress id owner attempt rows part in tx_ret tt
  | OpSucceed id owner attempt artifact expires => let* _ := Succeed id owner attempt artifact expires now in tx_ret tt
  | OpFail id owner attempt class message => let* _ := Fail_ id owner attempt class message now in tx_ret tt
  | OpRequeueStale cutoff => let* _ := RequeueStale cutoff in tx_ret tt
  | OpMarkDeleted id => MarkArtifactDeleted id now
  | OpRecordDownload requester job access => RecordDownload requester job access now
  end.

(** Everything else leaves the jobs alone. *)
Inductive export_step : rdb → rdb → Prop :=
  | export_transaction op now d d' : export_tx op now d = Ok (tt, d') → export_step d d'
  | export_other d d' : r_jobs d' = r_jobs d → r_next_job d' = r_next_job d → export_step d d'.
Inductive export_steps : rdb → rdb → Prop :=
  | export_none d : export_steps d d
  | export_more d d' d'' : export_steps d d' → export_step d' d'' → export_steps d d''.
Definition exports_reachable (d : rdb) : Prop := ∃ base, export_steps (empty_rdb base) d.

(** What a job is about never changes. *)
Definition same_job (j j' : Job) : Prop :=
  jb_id j' = jb_id j ∧ jb_report j' = jb_report j ∧ jb_report_name j' = jb_report_name j ∧ jb_sql j' = jb_sql j ∧
  jb_datasource j' = jb_datasource j ∧ jb_snapshot j' = jb_snapshot j ∧ jb_user j' = jb_user j ∧ jb_created j' = jb_created j.
(** The moves of a job. *)
Inductive job_move (j : Job) : Job → Prop :=
  | move_none : job_move j j
  | move_claim owner now : jb_status j = StatusQueued → jb_attempt j + 1 < 2 ^ 32 → job_move j (set_claimed owner now j)
  | move_heartbeat now : jb_status j = StatusRunning → job_move j (set_heartbeat now j)
  | move_progress rows part : jb_status j = StatusRunning → job_move j (set_progress rows part j)
  | move_succeed artifact expires now : jb_status j = StatusRunning → job_move j (set_succeeded artifact expires now j)
  | move_fail class message now : jb_status j = StatusRunning → job_move j (set_failed class message now j)
  | move_requeue : jb_status j = StatusRunning → job_move j (set_requeued j)
  | move_delete now : jb_status j = StatusSucceeded → jb_deleted j = None → job_move j (set_deleted now j).
Definition jobs_moved (d d' : rdb) : Prop :=
  r_next_job d' = r_next_job d ∧ ∀ id, option_Forall2 job_move (r_jobs d !! id) (r_jobs d' !! id).
Definition job_added (d d' : rdb) : Prop :=
  ∃ requester report normalized values now,
    NormalizeSnapshotParameters (t_parameters report) (CanonicalInput normalized) = Ok values ∧
    r_jobs d' = <[r_next_job d := queued_job requester report (mkSnapshot 1 (t_parameters report) (CanonicalInput normalized)) now (r_next_job d)]> (r_jobs d) ∧
    r_next_job d' = r_next_job d + 1.

(** A job's row is consistent, and its stored parameters still normalise. *)
Record job_ok (id : Z) (j : Job) : Prop := {
  jo_id : jb_id j = id;
  jo_attempt : 0 <= jb_attempt j < 2 ^ 32;
  jo_snapshot : sn_version (jb_snapshot j) = 1 ∧
    ∃ values, NormalizeSnapshotParameters (sn_parameters (jb_snapshot j)) (sn_input (jb_snapshot j)) = Ok values;
  jo_state : match jb_status j with
    | StatusQueued => jb_owner j = None ∧ jb_heartbeat j = None ∧ (0 < jb_attempt j ↔ is_Some (jb_started j))
    | StatusRunning => is_Some (jb_owner j) ∧ is_Some (jb_heartbeat j) ∧ is_Some (jb_started j) ∧ 0 < jb_attempt j ∧ jb_failure j = None
    | StatusSucceeded => is_Some (jb_artifact j) ∧ is_Some (jb_expires j) ∧ is_Some (jb_finished j) ∧ 0 < jb_attempt j ∧ jb_failure j = None
    | StatusFailed => is_Some (jb_failure j) ∧ is_Some (jb_finished j) ∧ 0 < jb_attempt j
    end;
  jo_artifact : jb_status j ≠ StatusSucceeded → jb_artifact j = None ∧ jb_expires j = None ∧ jb_deleted j = None }.
Definition jobs_ok (d : rdb) : Prop := 0 < r_next_job d ∧ ∀ id j, r_jobs d !! id = Some j → 0 < id < r_next_job d ∧ job_ok id j.

(** ** The moves of the operations *)

Lemma jobs_moved_refl d d' : r_jobs d' = r_jobs d → r_next_job d' = r_next_job d → jobs_moved d d'.
Proof. intros Hj Hn. split; [done|]. intros id. rewrite Hj. destruct (r_jobs d !! id); constructor. constructor. Qed.
Lemma update_job_moved id cond set d n d' : (∀ j, cond j = true → job_move j (set j)) → update_job id cond set d = Ok (n, d') → jobs_moved d d'.
Proof.
  intros Hm [= <- <-]. split; [done|]. intros i. cbn. rewrite update_at_lookup. case_bool_decide as Hi.
  - destruct (r_jobs d !! i) as [j|]; cbn; constructor. destruct (cond j) eqn:E; [by apply Hm|constructor].
  - destruct (r_jobs d !! i); constructor. constructor.
Qed.
Lemma update_jobs_moved cond set d n d' : (∀ j, cond j = true → job_move j (set j)) → update_jobs cond set d = Ok (n, d') → jobs_moved d d'.
Proof.
  intros Hm [= <- <-]. split; [done|]. intros i. cbn. rewrite lookup_fmap.
  destruct (r_jobs d !! i) as [j|]; cbn; constructor. destruct (cond j) eqn:E; [by apply Hm|constructor].
Qed.
Lemma owned_by_true owner attempt j : owned_by owner attempt j = true ↔
  jb_status j = StatusRunning ∧ jb_owner j = Some owner ∧ jb_attempt j = attempt.
Proof. unfold owned_by, has_job_status. rewrite !andb_true_iff, !bool_decide_eq_true, Z.eqb_eq. tauto. Qed.
Lemma owned_update_moved set id owner attempt d n d' : (∀ j, jb_status j = StatusRunning → job_move j (set j)) →
  update_job id (owned_by owner attempt) set d = Ok (n, d') → jobs_moved d d'.
Proof. intros Hm. apply update_job_moved. intros j (Hr & _)%owned_by_true. auto. Qed.
Lemma appendAudit_jobs requester action resource id metadata now d u d' : appendAudit requester action resource id metadata now d = Ok (u, d') →
  r_jobs d' = r_jobs d ∧ r_next_job d' = r_next_job d.
Proof. intros (row & _ & ->)%appendAudit_Ok. done. Qed.

Lemma Submit_Ok requester report normalized now d id d' : Submit requester report normalized now d = Ok (id, d') →
  submit_revision (t_id report) (UserID (Effective requester)) d = Some (t_revision report) ∧
  id = r_next_job d ∧
  (∃ values, NormalizeSnapshotParameters (t_parameters report) (CanonicalInput normalized) = Ok values) ∧
  ∃ row, audited requester id row ∧ al_action row = ActionReportExportSubmitted ∧
    d' = set_r_base (set_b_audit (b_audit (r_base d) ++ [row]) (r_base d))
      (set_r_jobs (<[id := queued_job requester report (mkSnapshot 1 (t_parameters report) (CanonicalInput normalized)) now id]> (r_jobs d)) (id + 1) d).
Proof.
  unfold Submit. intros (current & s & [= <- <-] & H)%tx_bind_Ok. destruct (submit_revision _ _ _) as [revision|] eqn:E; [|done].
  destruct (Z.eqb_spec revision (t_revision report)) as [->|]; [|done]. cbn [negb] in H. tx_open H.
  split; [done|]. unfold insert_job in Hst. destruct (negb (isSome _) || _ || _); [done|]. destruct (negb (sn_version _ =? 1)); [done|]. injection Hst as <- <-.
  split; [done|]. split; [eauto|]. apply appendAudit_Ok in Hst0 as (row & Hrow & ->). exists row. apply audit_row_of_Ok in Hrow as (_ & Hac & Ha & He & Hr & _).
  split; [|done]. split; [done|]. split; [done|]. by exists ResourceReportExport.
Qed.
Definition jobs_keyed (d : rdb) : Prop := ∀ id j, r_jobs d !! id = Some j → jb_id j = id.
Definition claimable (locked : Z → bool) (j : Job) : bool := has_job_status StatusQueued j && negb (locked (jb_id j)).
Lemma claimable_true locked j : claimable locked j = true ↔ jb_status j = StatusQueued ∧ locked (jb_id j) = false.
Proof. unfold claimable, has_job_status. by rewrite andb_true_iff, bool_decide_eq_true, negb_true_iff. Qed.
Lemma Claim_Ok owner locked now d result d' : jobs_keyed d → Claim owner locked now d = Ok (result, d') →
  String.length owner = 64%nat ∧
  match result with
  | None => d' = d ∧ ∀ id j, r_jobs d !! id = Some j → jb_status j = StatusQueued → locked id = true
  | Some job => ∃ j, r_jobs d !! jb_id j = Some j ∧ jb_status j = StatusQueued ∧ locked (jb_id j) = false ∧ jb_attempt j + 1 < 2 ^ 32 ∧
      job = set_claimed owner now j ∧ d' = set_r_jobs (<[jb_id j := job]> (r_jobs d)) (r_next_job d) d ∧
      select_first oldest_first (claimable locked) (r_jobs d) = Some j
  end.
Proof.
  intros Hkey. unfold Claim. destruct (Nat.eqb_spec (String.length owner) 64); [|done]. cbn [negb]. fold (claimable locked).
  intros (first & s & [= <- <-] & H)%tx_bind_Ok. split; [done|]. fold (claimable locked) in H. destruct (select_first _ _ _) as [j|] eqn:E.
  - destruct (Z.leb_spec (2 ^ 32) (jb_attempt j + 1)) as [|Ha]; [done|]. apply first_by_elem, elem_of_select in E as Hj.
    destruct Hj as [[Hq Hl]%claimable_true [i Hi]]. assert (jb_id j = i) as <- by (by apply Hkey).
    assert (Hu : update_job (jb_id j) (has_job_status StatusQueued) (set_claimed owner now) d =
      Ok (1, set_r_jobs (<[jb_id j := set_claimed owner now j]> (r_jobs d)) (r_next_job d) d)).
    { unfold update_job, update_at, changes. rewrite Hi. unfold has_job_status. rewrite bool_decide_true by done. rewrite bool_decide_false; [done|].
      intros Heq. apply (f_equal jb_status) in Heq. cbn in Heq. congruence. }
    rewrite (tx_bind_eq _ _ _ _ _ Hu) in H. cbn [Z.eqb Pos.eqb negb] in H. unfold tx_bind, tx_gets in H. cbn in H. rewrite lookup_insert_eq in H.
    injection H as <- <-. exists j. by split_and!.
  - injection H as <- <-. split; [done|]. intros id j Hj Hq. pose proof (proj1 (select_first_None _ _ _) E id j Hj) as Hc.
    rewrite <- (Hkey id j Hj). destruct (locked (jb_id j)) eqn:El; [done|]. assert (Ht : claimable locked j = true) by (by apply claimable_true). congruence.
Qed.

(** One row, for a worker that says which attempt it is. *)
Lemma owned_update_Ok set id owner attempt d b d' :
  (let* affected := update_job id (owned_by owner attempt) set in tx_ret (affected =? 1)) d = Ok (b, d') →
  (b = true ∧ ∃ j, r_jobs d !! id = Some j ∧ owned_by owner attempt j = true ∧ d' = set_r_jobs (<[id := set j]> (r_jobs d)) (r_next_job d) d) ∨
  (b = false ∧ r_jobs d' = r_jobs d ∧ r_next_job d' = r_next_job d ∧ ∀ j, r_jobs d !! id = Some j → owned_by owner attempt j = true → set j = j).
Proof.
  intros (n & s & [= <- <-] & [= <- <-])%tx_bind_Ok.
  destruct (update_at_affected id (owned_by owner attempt) set (r_jobs d)) as [(-> & j & Hj & Ho & _ & ->)|(-> & -> & H)]; [left|right]; eauto 10.
Qed.
Lemma Succeed_Ok id owner attempt artifact expires now d b d' : Succeed id owner attempt artifact expires now d = Ok (b, d') →
  (b = true ∧ ∃ j, r_jobs d !! id = Some j ∧ owned_by owner attempt j = true ∧
     d' = set_r_jobs (<[id := set_succeeded artifact expires now j]> (r_jobs d)) (r_next_job d) d) ∨
  (b = false ∧ r_jobs d' = r_jobs d ∧ r_next_job d' = r_next_job d ∧ ∀ j, r_jobs d !! id = Some j → owned_by owner attempt j = false).
Proof.
  unfold Succeed. destruct (r_jobs d !! id) as [j|] eqn:E; [|intros [= <- <-]; right; by split_and!].
  destruct (_ && _); [done|]. intros [H|(? & ? & ? & Hno)]%owned_update_Ok; [left; by rewrite E in H|right]. split_and!; try done.
  intros ? [= <-]. destruct (owned_by owner attempt j) eqn:Ho; [|done]. specialize (Hno j E Ho). apply (f_equal jb_status) in Hno. cbn in Hno.
  apply owned_by_true in Ho as [Hr _]. congruence.
Qed.

Lemma export_tx_jobs op now d d' : jobs_keyed d → export_tx op now d = Ok (tt, d') → jobs_moved d d' ∨ job_added d d'.
Proof.
  intros Hkey H. destruct op; cbn [export_tx] in H; unfold MarkArtifactDeleted in H; try apply tx_bind_Ok in H as (x & s & H & [= <-]).
  - right. apply Submit_Ok in H as (_ & -> & (values & Hv) & row & _ & _ & ->). exists requester, report, normalized, values, now. done.
  - left. apply Claim_Ok in H as [_ H]; [|done]. destruct x as [job|]; [|destruct H as [-> _]; by apply jobs_moved_refl].
    destruct H as (j & Hj & Hq & _ & Ha & -> & -> & _). split; [done|]. intros id. cbn. destruct (decide (id = jb_id j)) as [->|].
    + rewrite lookup_insert_eq, Hj. constructor. by constructor.
    + rewrite lookup_insert_ne by done. destruct (r_jobs d !! id); constructor. constructor.
  - left. apply tx_bind_Ok in H as (n & s' & H & [= _ <-]). eapply owned_update_moved, H. by constructor.
  - left. apply tx_bind_Ok in H as (n & s' & H & [= _ <-]). eapply owned_update_moved, H. by constructor.
  - left. apply Succeed_Ok in H as [(_ & j & Hj & [Hr _]%owned_by_true & ->)|(_ & ? & ? & _)]; [|by apply jobs_moved_refl]. split; [done|]. intros i. cbn.
    destruct (decide (i = id)) as [->|]; [rewrite lookup_insert_eq, Hj; constructor; by constructor|].
    rewrite lookup_insert_ne by done. destruct (r_jobs d !! i); constructor. constructor.
  - left. apply tx_bind_Ok in H as (n & s' & H & [= _ <-]). eapply owned_update_moved, H. by constructor.
  - left. eapply update_jobs_moved, H. intros j. unfold stale, has_job_status. rewrite andb_true_iff, bool_decide_eq_true. intros [? _]. by constructor.
  - left. eapply update_job_moved, H. intros j. unfold has_job_status. rewrite andb_true_iff, bool_decide_eq_true, negb_true_iff. intros [? Hd].
    destruct (jb_deleted j) eqn:E; [done|]. by constructor.
  - left. apply appendAudit_jobs in H as [? ?]. by apply jobs_moved_refl.
Qed.

(** ** What stays true of a job *)

Lemma job_move_same j j' : job_move j j' → same_job j j'.
Proof. by destruct 1. Qed.
Lemma job_move_ok id j j' : job_ok id j → job_move j j' → job_ok id j'.
Proof.
  intros [Hid Ha Hs Hst Har] Hm.
  destruct Hm as [|owner now Hq Hlt|now Hr|rows part Hr|artifact expires now Hr|class message now Hr|Hr|now Hr Hd];
    [by split|rewrite Hq in Hst|rewrite Hr in Hst..]; try (assert (Hne : jb_status j ≠ StatusSucceeded) by congruence; specialize (Har Hne)).
  - split; cbn; try done; [lia|]. split_and!; [eauto..|lia|done].
  - destruct Hst as (Ho & _ & Hrest). split; cbn; try done. rewrite Hr. split; [done|]. split; [eauto|done].
  - split; cbn; try done. by rewrite Hr.
  - destruct Hst as (_ & _ & _ & ? & ?). split; cbn; try done; split_and!; eauto.
  - destruct Hst as (_ & _ & _ & ? & ?). split; cbn; try done; split_and!; eauto.
  - destruct Hst as (_ & _ & ? & ? & ?). split; cbn; try done.
  - split; cbn; rewrite ?Hr; try done.
Qed.
Lemma queued_job_ok requester report normalized values now id :
  NormalizeSnapshotParameters (t_parameters report) (CanonicalInput normalized) = Ok values →
  job_ok id (queued_job requester report (mkSnapshot 1 (t_parameters report) (CanonicalInput normalized)) now id).
Proof.
  intros Hv. split; cbn; try done; eauto.
Qed.

Lemma jobs_ok_keyed d : jobs_ok d → jobs_keyed d.
Proof. intros [_ H] id j Hj. apply (H id j Hj). Qed.
Lemma export_step_jobs d d' : jobs_ok d → export_step d d' → jobs_moved d d' ∨ job_added d d'.
Proof.
  intros Hok Hs. revert Hok. destruct Hs as [op now d1 d2 H|d1 d2 Hj Hn]; intros Hok; [|left; by apply jobs_moved_refl].
  eapply export_tx_jobs; [by apply jobs_ok_keyed|exact H].
Qed.
Lemma jobs_step_ok d d' : jobs_ok d → jobs_moved d d' ∨ job_added d d' → jobs_ok d'.
Proof.
  intros [Hpos Hok] [[Hn Hm]|(requester & report & normalized & values & now & Hv & Hj & Hn)].
  - split; [lia|]. intros id j' Hj'. specialize (Hm id). rewrite Hj' in Hm. inversion Hm as [j ? Hmove E|]; subst. destruct (Hok id j) as [? Hjok]; [done|].
    rewrite Hn. split; [done|]. by eapply job_move_ok.
  - split; [lia|]. intros id j'. rewrite Hj, Hn. intros [[<- <-]|[_ H]]%lookup_insert_Some; [split; [lia|by eapply queued_job_ok]|].
    destruct (Hok id j' H). split; [lia|done].
Qed.
Lemma export_steps_ok d d' : export_steps d d' → jobs_ok d → jobs_ok d'.
Proof. induction 1 as [|d d1 d2 _ IH Hstep]; [done|]. intros Hok. eapply jobs_step_ok; [by apply IH|]. apply export_step_jobs; [by apply IH|done]. Qed.
Lemma exports_reachable_ok d : exports_reachable d → jobs_ok d.
Proof. intros [base H]. eapply export_steps_ok; [exact H|]. split; [cbn; lia|]. intros id j Hj. cbn in Hj. by rewrite lookup_empty in Hj. Qed.

(** What a job may become. *)
Record evolves (j j' : Job) : Prop := {
  ev_same : same_job j j';
  ev_attempt : jb_attempt j <= jb_attempt j';
  ev_failed : jb_status j = StatusFailed → j' = j;
  ev_succeeded : jb_status j = StatusSucceeded → jb_status j' = StatusSucceeded ∧ jb_attempt j' = jb_attempt j ∧
    jb_artifact j' = jb_artifact j ∧ jb_expires j' = jb_expires j ∧ jb_finished j' = jb_finished j ∧
    (jb_deleted j ≠ None → jb_deleted j' = jb_deleted j);
  ev_owner : ∀ owner, jb_status j' = StatusRunning → jb_owner j' = Some owner → jb_attempt j' = jb_attempt j →
    jb_status j = StatusRunning ∧ jb_owner j = Some owner }.
Lemma job_move_evolves j j' : job_move j j' → evolves j j'.
Proof.
  intros Hm. split; [by apply job_move_same|..]; destruct Hm; cbn; try congruence; try lia; try done.
Qed.
Lemma evolves_refl j : evolves j j.
Proof. by split. Qed.
Lemma evolves_trans j j1 j2 : evolves j j1 → evolves j1 j2 → evolves j j2.
Proof.
  intros [S1 A1 F1 U1 O1] [S2 A2 F2 U2 O2]. split.
  - unfold same_job in *. intuition congruence.
  - lia.
  - intros Hf. specialize (F1 Hf). subst. auto.
  - intros Hs. destruct (U1 Hs) as (Hs1 & ? & ? & ? & ? & Hd1). destruct (U2 Hs1) as (? & ? & ? & ? & ? & Hd2). split_and!; try congruence.
    intros Hd. rewrite Hd2, Hd1 by (rewrite ?Hd1; done). done.
  - intros owner Hr Ho Ha. assert (jb_attempt j2 = jb_attempt j1) by lia. destruct (O2 owner Hr Ho H) as [Hr1 Ho1]. apply O1; try done. lia.
Qed.
Lemma export_steps_evolve d d' id j : export_steps d d' → jobs_ok d → r_jobs d !! id = Some j → ∃ j', r_jobs d' !! id = Some j' ∧ evolves j j'.
Proof.
  intros H Hok Hj. induction H as [|d d1 d2 Hs IH Hstep]; [eauto using evolves_refl|]. destruct (IH Hok Hj) as (j1 & Hj1 & Hev).
  assert (Hok1 : jobs_ok d1) by (by eapply export_steps_ok). apply export_step_jobs in Hstep as [[_ Hm]|(? & ? & ? & ? & ? & _ & Hj2 & _)]; [| |done].
  - specialize (Hm id). rewrite Hj1 in Hm. inversion Hm as [? j2 Hmove E E2|]; subst. exists j2. split; [done|]. eapply evolves_trans, job_move_evolves; done.
  - exists j1. split; [|done]. rewrite Hj2, lookup_insert_ne; [done|]. destruct Hok1 as [_ Hok1]. destruct (Hok1 id j1 Hj1). lia.
Qed.

(** ** The properties of the queue *)

(** The row of every job is consistent with its status and holds
    parameters that still normalise; and whatever happens later, a job keeps
    what it is about and never loses an attempt, a failed job stays as it
    is, and a succeeded one keeps its artifact, expiry and attempt. *)
Theorem export_lifecycle d d' id j (Hr : exports_reachable d) (Hs : export_steps d d') (Hj : r_jobs d !! id = Some j) :
  job_ok id j ∧ ∃ j', r_jobs d' !! id = Some j' ∧ job_ok id j' ∧ evolves j j'.
Proof.
  apply exports_reachable_ok in Hr as Hok. split; [by apply Hok|]. destruct (export_steps_evolve _ _ _ _ Hs Hok Hj) as (j' & Hj' & He).
  exists j'. split; [done|]. split; [|done]. apply (export_steps_ok _ _ Hs) in Hok. by apply Hok.
Qed.

Lemma update_job_none id cond set d : (∀ j, r_jobs d !! id = Some j → cond j = false) → update_job id cond set d = Ok (0, d).
Proof.
  intros Hno. unfold update_job, update_at, changes. destruct (r_jobs d !! id) as [j|]; [rewrite (Hno j eq_refl)|]; cbn; by destruct d.
Qed.
(** C20: a worker that no longer holds an attempt never holds it again: its
    heartbeats, progress and either end are refused and change nothing, in
    every later state. *)
Theorem export_fenced d d' id j owner attempt (Hr : exports_reachable d) (Hs : export_steps d d') (Hj : r_jobs d !! id = Some j)
    (Hold : attempt <= jb_attempt j) (Hlost : owned_by owner attempt j = false) :
  (∀ now, Heartbeat id owner attempt now d' = Ok (false, d')) ∧
  (∀ rows part, Progress id owner attempt rows part d' = Ok (false, d')) ∧
  (∀ artifact expires now, Succeed id owner attempt artifact expires now d' = Ok (false, d')) ∧
  (∀ class message now, Fail_ id owner attempt class message now d' = Ok (false, d')).
Proof.
  apply exports_reachable_ok in Hr as Hok. destruct (export_steps_evolve _ _ _ _ Hs Hok Hj) as (j' & Hj' & He).
  assert (Hno : ∀ i, r_jobs d' !! id = Some i → owned_by owner attempt i = false).
  { intros i Hi. rewrite Hj' in Hi. injection Hi as <-. destruct (owned_by owner attempt j') eqn:E; [|done]. apply owned_by_true in E as (Hrun & Ho & Ha).
    destruct (ev_owner _ _ He owner Hrun Ho) as [Hr1 Ho1]; [pose proof (ev_attempt _ _ He); lia|].
    assert (owned_by owner attempt j = true); [|congruence]. apply owned_by_true. pose proof (ev_attempt _ _ He). split_and!; [done|done|lia]. }
  assert (Hu : ∀ set, (let* affected := update_job id (owned_by owner attempt) set in tx_ret (affected =? 1)) d' = Ok (false, d')).
  { intros set. by rewrite (tx_bind_eq _ _ _ _ _ (update_job_none _ _ _ _ Hno)). }
  split_and!; intros; [apply Hu..| |apply Hu]. unfold Succeed. rewrite Hj', (Hno _ Hj'). apply Hu.
Qed.

(** Who may submit. *)
Lemma submit_revision_Some report user d revision : submit_revision report user d = Some revision ↔ ∃ r s,
  r_templates d !! report = Some r ∧ te_revision r = revision ∧ te_status r = StatusActive ∧ r_datasources d !! te_datasource r = Some s ∧
  ds_status s = StatusActive ∧ (report, user) ∈ r_access d ∧ may_export d user = true.
Proof.
  unfold submit_revision, is_status. destruct (r_templates d !! report) as [r|]; [|naive_solver].
  destruct (r_datasources d !! te_datasource r) as [s|] eqn:Es; [|naive_solver].
  destruct (_ && _) eqn:E.
  - apply andb_true_iff in E as [[[Ha%bool_decide_eq_true Ht%String.eqb_eq]%andb_true_iff Hd%String.eqb_eq]%andb_true_iff Hm]. naive_solver.
  - split; [done|]. intros (? & s' & [= <-] & _ & Ht & Hs' & Hd & Ha & Hm). rewrite Es in Hs'. injection Hs' as <-. rewrite Ht, Hd, Hm, bool_decide_true in E by done. done.
Qed.

Lemma insert_job_accepts requester report normalized now d : is_Some (r_templates d !! t_id report) → is_Some (r_datasources d !! t_datasource report) →
  known (r_base d) (UserID (Effective requester)) = true →
  let row := queued_job requester report (mkSnapshot 1 (t_parameters report) normalized) now in
  insert_job row d = Ok (r_next_job d, set_r_jobs (<[r_next_job d := row (r_next_job d)]> (r_jobs d)) (r_next_job d + 1) d).
Proof. intros [? Ht] [? Hd] Hk row. unfold insert_job, row. cbn [queued_job jb_report jb_datasource jb_user]. by rewrite Ht, Hd, Hk. Qed.
Lemma appendAudit_accepts requester action resource id json now d : attributable requester → match resource with OtherResource _ => False | _ => True end →
  knownAction action = true → id ≠ 0 → now ≠ zero_time → encoded json <= MaxMetadataBytes →
  known (r_base d) (UserID (Actor requester)) = true → known (r_base d) (UserID (Effective requester)) = true →
  ∃ d', appendAudit requester action resource id (Some json) now d = Ok (tt, d').
Proof.
  intros [Ha He] Hres Hact Hid Hnow Hsize Hka Hke. unfold appendAudit, Append, audit_row_of. cbn [e_action e_attribution e_resource e_resource_id e_created_at e_metadata].
  rewrite Hact. cbn [negb attribution_of a_actor a_effective fmap option_fmap option_map]. rewrite Ha. cbn [res_bind]. rewrite He. cbn [res_bind].
  rewrite bool_decide_false by done. apply Z.eqb_neq in Hid, Hnow. rewrite Hid, Hnow. cbn [xorb]. unfold encoded in Hsize. apply Z.ltb_ge in Hsize. rewrite Hsize.
  destruct resource; try done; erewrite tx_bind_eq by reflexivity; cbn [insert_audit report_audit browser_audit]; unfold on_base, insert_browser_audit;
    cbn [al_actor al_effective known_identity]; rewrite Hka, Hke; eauto.
Qed.

(** C19: a submission is accepted exactly from a user who is active, may
    export, has access to the report, and saw its current revision, while
    report and datasource are active.  It queues one job with the report as
    it was shown and the validated values, and one audit row; the values
    stored give the validated ones back.  Values that were validated are
    never refused, and the audit row never is too long. *)
Theorem Submit_outcome requester report normalized now d (Hr : exports_reachable d) :
  let user := UserID (Effective requester) in
  (submit_revision (t_id report) user d = None → Submit requester report normalized now d = Err ErrForbidden) ∧
  (∀ revision, submit_revision (t_id report) user d = Some revision → revision ≠ t_revision report →
     Submit requester report normalized now d = Err reporting_ErrConflict) ∧
  (∀ id d', Submit requester report normalized now d = Ok (id, d') →
     (∃ r s, r_templates d !! t_id report = Some r ∧ te_revision r = t_revision report ∧ te_status r = StatusActive ∧
        r_datasources d !! te_datasource r = Some s ∧ ds_status s = StatusActive ∧ (t_id report, user) ∈ r_access d ∧ may_export d user = true) ∧
     r_jobs d !! id = None ∧
     ∃ row, audited requester id row ∧ al_action row = ActionReportExportSubmitted ∧
       d' = set_r_base (set_b_audit (b_audit (r_base d) ++ [row]) (r_base d))
         (set_r_jobs (<[id := queued_job requester report (mkSnapshot 1 (t_parameters report) (CanonicalInput normalized)) now id]> (r_jobs d)) (id + 1) d)) ∧
  (∀ input, NormalizeSnapshotParameters (t_parameters report) input = Ok normalized →
     NormalizeSnapshotParameters (t_parameters report) (CanonicalInput normalized) = Ok normalized ∧
     (submit_revision (t_id report) user d = Some (t_revision report) → is_Some (r_datasources d !! t_datasource report) →
      attributable requester → known (r_base d) (UserID (Actor requester)) = true → now ≠ zero_time →
      identity_fits report → r_next_job d < 10 ^ 20 → Z.of_nat (length (t_parameters report)) < 10 ^ 20 →
      ∃ id d', Submit requester report normalized now d = Ok (id, d'))).
Proof.
  apply exports_reachable_ok in Hr as Hok. intros user. split; [|split; [|split]].
  - intros E. unfold Submit. erewrite tx_bind_eq by reflexivity. fold user. by rewrite E.
  - intros revision E Hne. unfold Submit. erewrite tx_bind_eq by reflexivity. fold user. rewrite E. apply Z.eqb_neq in Hne. by rewrite Hne.
  - intros id d' (Hsub & -> & _ & row & Hrow & Hac & Hd')%Submit_Ok. split; [by apply submit_revision_Some in Hsub|]. split; [|eauto].
    destruct (r_jobs d !! r_next_job d) as [j|] eqn:E; [|done]. apply Hok in E. lia.
  - intros input Hn. assert (Hrt : NormalizeSnapshotParameters (t_parameters report) (CanonicalInput normalized) = Ok normalized)
      by (by apply (CanonicalInput_round_trip true _ input)). split; [done|].
    intros Hsub Hds Hat Hkn Hnow Hfit Hnext Hlen. unfold Submit. erewrite tx_bind_eq by reflexivity. fold user. rewrite Hsub, Z.eqb_refl. cbn [negb].
    rewrite Hrt. erewrite tx_bind_eq by reflexivity. apply submit_revision_Some in Hsub as (r & s & Ht & _ & _ & _ & _ & _ & Hm).
    assert (Huser : known (r_base d) user = true).
    { unfold may_export in Hm. unfold known. by destruct (b_users (r_base d) !! user). }
    erewrite tx_bind_eq; [|by apply insert_job_accepts].
    set (d1 := set_r_jobs _ _ d). set (json := ReportExportSubmittedMetadata _ _ _).
    assert (Hd' : ∃ d', appendAudit requester ActionReportExportSubmitted ResourceReportExport (r_next_job d) (Some json) now d1 = Ok (tt, d')).
    { destruct Hok. apply appendAudit_accepts; [done|done|reflexivity|lia|done| |done|done].
      apply submitted_fits; [done|lia|by apply AuditParameters_kept]. }
    destruct Hd' as [d' Hd'].
    exists (r_next_job d), d'. by erewrite tx_bind_eq by exact Hd'.
Qed.

Lemma oldest_first_strict : Table.strict oldest_first.
Proof.
  unfold Table.strict, oldest_first. split.
  - intros a. rewrite orb_false_iff, andb_false_iff, !Z.ltb_irrefl. auto.
  - intros a b c. rewrite !orb_true_iff, !andb_true_iff, !Z.ltb_lt, !Z.eqb_eq. lia.
Qed.
(** A claim takes the oldest queued job no other transaction holds,
    starts its next attempt for the worker and resets what the job shows;
    with nothing to take it changes nothing.  It fails only for an owner that
    is not 64 bytes long or when the attempts of the job it would take are
    used up.  From then on the attempt is the worker's until it ends or goes
    stale: heartbeats succeed in between. *)
Theorem export_Claim owner locked now d (Hr : exports_reachable d) :
  (String.length owner ≠ 64%nat → ∃ e, Claim owner locked now d = Err e) ∧
  (String.length owner = 64%nat →
   (Claim owner locked now d = Ok (None, d) ∧ ∀ id j, r_jobs d !! id = Some j → jb_status j = StatusQueued → locked id = true) ∨
   ∃ id j, r_jobs d !! id = Some j ∧ jb_status j = StatusQueued ∧ locked id = false ∧
     (∀ id' j', r_jobs d !! id' = Some j' → jb_status j' = StatusQueued → locked id' = false → oldest_first j' j = false) ∧
     if jb_attempt j =? 2 ^ 32 - 1 then Claim owner locked now d = Err ErrOutOfRange else
     ∃ d', Claim owner locked now d = Ok (Some (set_claimed owner now j), d') ∧ r_jobs d' = <[id := set_claimed owner now j]> (r_jobs d) ∧
       ∀ now', now' ≠ now → ∃ d'', Heartbeat id owner (jb_attempt j + 1) now' d' = Ok (true, d'')).
Proof.
  apply exports_reachable_ok in Hr as Hok. pose proof (jobs_ok_keyed _ Hok) as Hkey. unfold Claim. split.
  { intros Hl. apply Nat.eqb_neq in Hl. rewrite Hl. eexists. reflexivity. }
  intros Hl. rewrite Hl. cbn [Nat.eqb negb]. erewrite tx_bind_eq by reflexivity. fold (claimable locked).
  destruct (select_first oldest_first (claimable locked) (r_jobs d)) as [j|] eqn:E; [right|left].
  - apply select_first_Some in E as Hj. destruct Hj as [[Hq Hun]%claimable_true [id Hid]]. pose proof (Hkey id j Hid) as Hjid. subst id.
    exists (jb_id j), j. split; [done|]. split; [done|]. split; [done|]. split.
    { intros id' j' Hj' Hq' Hl'. eapply (select_first_least oldest_first); [apply oldest_first_strict| |exact E|exact Hj'|].
      - intros i i' a b Ha Hb. unfold oldest_first. rewrite !orb_false_iff, !andb_false_iff, !Z.ltb_ge, !Z.eqb_neq.
        intros Hab Hba. apply Hkey in Ha as Hia. apply Hkey in Hb as Hib. assert (i = i') by lia. subst i'. congruence.
      - apply claimable_true. split; [done|]. by rewrite (Hkey _ _ Hj'). }
    pose proof (jo_attempt _ _ (proj2 (proj2 Hok _ _ Hid))) as Ha.
    destruct (Z.eqb_spec (jb_attempt j) (2 ^ 32 - 1)) as [Heq|Hne].
    + by rewrite (proj2 (Z.leb_le _ _)) by lia.
    + rewrite (proj2 (Z.leb_gt _ _)) by lia. exists (set_r_jobs (<[jb_id j := set_claimed owner now j]> (r_jobs d)) (r_next_job d) d).
      split; [|split; [done|]].
      * assert (Hu : update_job (jb_id j) (has_job_status StatusQueued) (set_claimed owner now) d =
          Ok (1, set_r_jobs (<[jb_id j := set_claimed owner now j]> (r_jobs d)) (r_next_job d) d)).
        { unfold update_job, update_at, changes. rewrite Hid. unfold has_job_status. rewrite bool_decide_true by done. rewrite bool_decide_false; [done|].
          intros Heq. apply (f_equal jb_status) in Heq. cbn in Heq. congruence. }
        rewrite (tx_bind_eq _ _ _ _ _ Hu). unfold tx_bind, tx_gets. cbn. by rewrite lookup_insert_eq.
      * intros now' Hnow. unfold Heartbeat, update_job, update_at, changes, tx_bind. cbn [r_jobs set_r_jobs]. rewrite lookup_insert_eq.
        assert (Ho : owned_by owner (jb_attempt j + 1) (set_claimed owner now j) = true) by (by apply owned_by_true).
        rewrite Ho, bool_decide_false; [eexists; reflexivity|]. intros Heq. apply (f_equal jb_heartbeat) in Heq. cbn in Heq. congruence.
  - split; [done|]. intros id j Hj Hq. pose proof (proj1 (select_first_None _ _ _) E id j Hj) as Hc.
    destruct (locked id) eqn:El; [done|]. rewrite <- (Hkey id j Hj) in El. assert (Ht : claimable locked j = true) by (by apply claimable_true). congruence.
Qed.

(** C21: a download serves the undeleted artifact of a succeeded job, either
    to the user who submitted it and may still export its active report, or
    to a user who may see all exports, and only after its audit row; every
    other answer leaves the database as it was.  The lists show a user's own
    jobs and, to others, no job. *)
Theorem Download_authorized requester viewAll open id now d :
  let user := UserID (Effective requester) in
  (∀ path name kind size access d', Download requester viewAll open id now d = (DownloadServed path name kind size access, d') →
     ∃ j artifact row, r_jobs d !! id = Some j ∧ jb_status j = StatusSucceeded ∧ jb_deleted j = None ∧ jb_artifact j = Some artifact ∧
       path = RelativePath artifact ∧ open path = true ∧
       (access = DownloadAccessOwner ∧ jb_user j = user ∧ may_export d user = true ∧ (jb_report j, user) ∈ r_access d ∧
          (∃ r, r_templates d !! jb_report j = Some r ∧ te_status r = StatusActive) ∨
        access = DownloadAccessViewAll ∧ viewAll = true) ∧
       audited requester (jb_id j) row ∧ al_action row = ActionReportExportDownloaded ∧
       d' = set_r_base (set_b_audit (b_audit (r_base d) ++ [row]) (r_base d)) d) ∧
  (∀ answer d', Download requester viewAll open id now d = (answer, d') →
     (∀ path name kind size access, answer ≠ DownloadServed path name kind size access) → d' = d) ∧
  (∀ v, FindVisible id ScopeMine user d = Ok v → vj_user v = user) ∧
  (∀ limit offset vs, ListVisible ScopeMine user limit offset d = Ok vs → ∀ v, v ∈ vs → vj_user v = user).
Proof.
  intros user. split; [|split; [|split]].
  - intros path name kind size access d'. unfold Download, AuthorizeDownload, FindJob. fold user. destruct (r_jobs d !! id) as [j|] eqn:Ej; [|done].
    cbn [res_bind]. destruct (authorize_download _ _ _ _) as [[[job acc]|]|] eqn:E; [|done..].
    assert (Hacc : job = j ∧ (acc = DownloadAccessOwner ∧ jb_user j = user ∧ eligible user (jb_report j) None d = true ∨ acc = DownloadAccessViewAll ∧ viewAll = true)).
    { unfold authorize_download, authorizedDownloadAccess in E. destruct (Z.eqb_spec (jb_user j) user) as [Hu|]; [|destruct viewAll; naive_solver].
      destruct (eligible user (jb_report j) None d) eqn:He; [|destruct viewAll; naive_solver]. injection E as <- <-. auto. }
    destruct Hacc as [-> Hacc]. destruct (jb_artifact j) as [artifact|] eqn:Ea; [|done]. destruct (negb _ || _) eqn:Es; [done|].
    apply orb_false_iff in Es as [Es%negb_false_iff Ed]. unfold has_job_status in Es. apply bool_decide_eq_true in Es. destruct (jb_deleted j) eqn:Edel; [done|].
    destruct (negb (open _)) eqn:Eo; [done|]. apply negb_false_iff in Eo. destruct (RecordDownload _ _ _ _ d) as [[u d1]|] eqn:Er; [|done].
    intros [= <- <- <- <- <- <-]. apply appendAudit_Ok in Er as (row & Hrow & ->). apply audit_row_of_Ok in Hrow as (_ & Hac & Hact & Heff & Hres & _).
    exists j, artifact, row. do 6 (split; [done|]). split; [|split; [split; [done|split; [done|by exists ResourceReportExport]]|by split]].
    destruct Hacc as [(-> & Hu & He)|[-> Hv]]; [left|by right]. split; [done|]. split; [done|]. unfold eligible, is_status in He.
    destruct (r_templates d !! jb_report j) as [r|] eqn:Et; [|done]. cbn [default] in He. destruct (r_datasources d !! _); [|done].
    rewrite !andb_true_iff, bool_decide_eq_true, String.eqb_eq in He. destruct He as [[[Ha Ht] Hm] _]. split_and!; eauto.
  - intros answer d'. unfold Download. repeat case_match; intros [= <- <-] Hne; try done. by destruct (Hne _ _ _ _ _ eq_refl).
  - intros v. unfold FindVisible, visibleScope. destruct (user =? 0); [done|]. cbn [res_bind]. destruct (r_jobs d !! id) as [j|]; [|done].
    destruct (Z.eqb_spec (jb_user j) user); [|done]. by intros [= <-].
  - intros limit offset vs. unfold ListVisible, visibleScope. destruct (user =? 0); [done|]. cbn [res_bind]. intros [= <-] v (j & -> & Hj)%list_elem_of_fmap.
    assert (Hin : j ∈ select_by newest_first (λ j, jb_user j =? user) (r_jobs d)).
    { eapply elem_of_sublist; [exact Hj|]. etransitivity; [apply sublist_take|apply sublist_drop]. }
    unfold select_by in Hin. rewrite sort_by_Permutation in Hin. apply elem_of_select in Hin as [Hu%Z.eqb_eq _]. exact Hu.
Qed.

End System.
