(* ===== verification/ExportWorker.v ===== *)
(** * Export workers and their files (src/internal/reportexport/worker.go, storage.go)

    Workers claim jobs, write a workbook, publish it under the storage's
    [final] directory and record the success; the cleanup removes the files
    of expired artifacts and files no job refers to.  Any number of attempts
    and cleanups run at once, on one database, one directory and one clock;
    an attempt may also die at any point.  [Succeed]'s answer may get lost
    after its commit when [lossy]. *)

From S2P Require Import Prelude Calendar Json Access AuditTrail Table Secrets ReportParams BrowserStore ReportStore ReportTemplates ReportAudit ReportExports.
From stdpp Require Import gmap.

Open Scope Z_scope.

(** ** Paths (storage.go), as the names between the slashes *)

Fixpoint components (s : string) : list string :=
  match s with
  | "" => [""]
  | String c s' =>
      if (c =? "/")%char then "" :: components s' else
      match components s' with name :: names => String c name :: names | [] => [String c ""] end
  end.
(** [filepath.Clean] of a rooted path; [acc]: the names so far, reversed. *)
Definition clean_step (acc : list string) (name : string) : list string :=
  if (name =? "")%string || (name =? ".")%string then acc else if (name =? "..")%string then tail acc else name :: acc.
Definition clean (names : list string) : list string := rev (foldl clean_step [] names).
Definition within (root path : list string) : bool := bool_decide (root `prefix_of` path).
(** [Storage.path]: where an artifact is. *)
Definition storage_path (root : list string) (relative : string) : result (list string) :=
  if (relative =? "")%string || has_prefix relative "/" then Err (Errorf "invalid artifact path") else
  let path := clean (root ++ components relative) in
  if within (root ++ ["final"]) path then Ok path else Err (Errorf "artifact path escapes export storage").
(** The relative path [Publish] returns; [token]: hexadecimal, random. *)
Definition published_path (id attempt : Z) (token name : string) : string :=
  "final" +:+ "/" +:+ pretty id +:+ "/" +:+ pretty attempt +:+ "/" +:+ token +:+ "/" +:+ name.

(** ** Failures *)

Inductive export_stage := StageEligibility | StageQuery | StageWorkbook | StagePublish.
#[export] Instance export_stage_eq_dec : EqDecision export_stage. Proof. solve_decision. Defined.
(** [deadline]: the error or its cause is [context.DeadlineExceeded];
    [unproven]: the cause is [ErrLeaseUnproven]. *)
Definition safeFailure (stage : export_stage) (deadline unproven : bool) : string * string :=
  if deadline then ("timeout", "Export exceeded the configured time limit.") else
  if unproven then ("lease_unproven", "Export stopped because worker ownership could not be verified.") else
  match stage with
  | StageEligibility => ("access_revoked", "Export authorization or report availability changed before execution.")
  | StageQuery => ("query_failed", "Report export failed while reading the datasource.")
  | StageWorkbook => ("xlsx_failed", "The result could not be represented safely as XLSX.")
  | StagePublish => ("artifact_failed", "The report export artifact could not be published.")
  end.

(** ** Workers *)

(** Durations are microseconds. *)
Record WorkerConfig := mkWorkerConfig {
  Concurrency : Z; ExportTimeout : Z; HeartbeatInterval : Z; StaleAfter : Z; Retention : Z;
  CleanupInterval : Z; OrphanGrace : Z }.
(** The bounds of [NewWorker]. *)
Definition worker_config_ok (cfg : WorkerConfig) : bool :=
  (1 <=? Concurrency cfg) && (0 <? ExportTimeout cfg) && (0 <? HeartbeatInterval cfg) && (HeartbeatInterval cfg <? StaleAfter cfg) &&
  (0 <? Retention cfg) && (0 <? CleanupInterval cfg) && (ExportTimeout cfg <? OrphanGrace cfg).

(** Where [execute] is.  [begun]: when its timeout started. *)
Inductive attempt_stage :=
  | Claimed
  | Executing (begun : instant)                                   (* before the eligibility check *)
  | Writing (begun : instant)                                     (* the check passed *)
  | Published (begun : instant) (path : string)
  | Failing (published : option string) (failure : option (string * string)).   (* [None]: the claim is lost *)
Record attempt := mkAttempt { at_job : Job; at_owner : string; at_stage : attempt_stage }.
Definition at_key (a : attempt) : Z * Z := (jb_id (at_job a), jb_attempt (at_job a)).

(** One round of [cleanup]; [started] is its [now]. *)
Inductive cleanup :=
  | Expiring (started : instant) (jobs : list Job)
  | Marking (started : instant) (job : Job) (jobs : list Job)
  | Reconciling (started : instant) (referenced : gset string).

Record world := mkWorld {
  w_db : rdb; w_files : gmap string instant;                     (* the files under final: path and modification time *)
  w_attempts : list attempt; w_cleanups : list cleanup; w_now : instant }.
Definition set_w_db (d : rdb) (w : world) : world := mkWorld d (w_files w) (w_attempts w) (w_cleanups w) (w_now w).
Definition set_w_files (files : gmap string instant) (w : world) : world := mkWorld (w_db w) files (w_attempts w) (w_cleanups w) (w_now w).
Definition set_w_attempts (l : list attempt) (w : world) : world := mkWorld (w_db w) (w_files w) l (w_cleanups w) (w_now w).
Definition set_w_cleanups (l : list cleanup) (w : world) : world := mkWorld (w_db w) (w_files w) (w_attempts w) l (w_now w).

Section Workers.
Context {decimals : DecimalLibrary} (cfg : WorkerConfig) (lossy : bool).

(** The checks before anything is written: the submitter may still export
    the report, and datasource and snapshot can be used. *)
Definition execution_allowed (job : Job) (d : rdb) : bool :=
  EligibleForExecution (jb_user job) (jb_report job) (jb_datasource job) d && (sn_version (jb_snapshot job) =? 1) &&
  match r_datasources d !! jb_datasource job with Some s => is_status (ds_status s) StatusActive | None => false end.

(** What one attempt does next: the new database and files, and its next
    stage, [None] when it is over. *)
Inductive attempt_step (a : attempt) (now : instant) (d : rdb) (files : gmap string instant) :
    rdb → gmap string instant → option attempt_stage → Prop :=
  | attempt_execute : at_stage a = Claimed → attempt_step a now d files d files (Some (Executing now))
  | attempt_eligible begun : at_stage a = Executing begun → execution_allowed (at_job a) d = true →
      attempt_step a now d files d files (Some (Writing begun))
  | attempt_ineligible begun : at_stage a = Executing begun → execution_allowed (at_job a) d = false →
      attempt_step a now d files d files (Some (Failing None (Some (safeFailure StageEligibility false false))))
  (* an error, a timeout or a lost claim *)
  | attempt_error begun failure : at_stage a = Executing begun ∨ at_stage a = Writing begun →
      attempt_step a now d files d files (Some (Failing None failure))
  (* the file keeps the time of its last write *)
  | attempt_publish begun token name written : at_stage a = Writing begun → begun <= written <= now →
      let path := published_path (jb_id (at_job a)) (jb_attempt (at_job a)) token name in
      attempt_step a now d files d (<[path := written]> files) (Some (Published begun path))
  (* the file was moved, and what follows failed *)
  | attempt_publish_error begun token name written failure : at_stage a = Writing begun → begun <= written <= now →
      let path := published_path (jb_id (at_job a)) (jb_attempt (at_job a)) token name in
      attempt_step a now d files d (<[path := written]> files) (Some (Failing None failure))
  (* the success is recorded within the timeout; [at_] was read before *)
  | attempt_succeed begun path artifact at_ owned d' : at_stage a = Published begun path → RelativePath artifact = path → at_ <= now →
      now < begun + ExportTimeout cfg →
      Succeed (jb_id (at_job a)) (at_owner a) (jb_attempt (at_job a)) artifact (at_ + Retention cfg) at_ d = Ok (owned, d') →
      attempt_step a now d files d' files (if owned then None else Some (Failing (Some path) None))
  (* it is not recorded *)
  | attempt_succeed_error begun path failure : at_stage a = Published begun path →
      attempt_step a now d files d files (Some (Failing (Some path) failure))
  (* it is recorded, and the answer does not arrive *)
  | attempt_succeed_lost begun path artifact at_ owned d' failure : lossy = true →
      at_stage a = Published begun path → RelativePath artifact = path → at_ <= now →
      Succeed (jb_id (at_job a)) (at_owner a) (jb_attempt (at_job a)) artifact (at_ + Retention cfg) at_ d = Ok (owned, d') →
      attempt_step a now d files d' files (Some (Failing (Some path) failure))
  | attempt_unpublish path failure (removed : bool) : at_stage a = Failing (Some path) failure →
      attempt_step a now d files d (if removed then delete path files else files) (Some (Failing None failure))
  | attempt_claim_lost : at_stage a = Failing None None → attempt_step a now d files d files None
  | attempt_fail class message owned d' : at_stage a = Failing None (Some (class, message)) →
      Fail_ (jb_id (at_job a)) (at_owner a) (jb_attempt (at_job a)) class message now d = Ok (owned, d') →
      attempt_step a now d files d' files None
  (* the process dies, or the failure cannot be recorded *)
  | attempt_gone : attempt_step a now d files d files None.

(** What one cleanup does next; [None]: it is over. *)
Inductive cleanup_step : cleanup → rdb → gmap string instant → rdb → gmap string instant → option cleanup → Prop :=
  | cleanup_remove started job jobs artifact d files : jb_artifact job = Some artifact →
      cleanup_step (Expiring started (job :: jobs)) d files d (delete (RelativePath artifact) files) (Some (Marking started job jobs))
  | cleanup_skip started job jobs d files : cleanup_step (Expiring started (job :: jobs)) d files d files (Some (Expiring started jobs))
  | cleanup_mark started job jobs d files d' : MarkArtifactDeleted (jb_id job) started d = Ok (tt, d') →
      cleanup_step (Marking started job jobs) d files d' files (Some (Expiring started jobs))
  | cleanup_mark_error started job jobs d files : cleanup_step (Marking started job jobs) d files d files (Some (Expiring started jobs))
  | cleanup_reference started d files :
      cleanup_step (Expiring started []) d files d files (Some (Reconciling started (ReferencedArtifacts d)))
  | cleanup_reconcile started referenced path written d files : files !! path = Some written → path ∉ referenced →
      written < started - OrphanGrace cfg →
      cleanup_step (Reconciling started referenced) d files d (delete path files) (Some (Reconciling started referenced))
  | cleanup_end c d files : cleanup_step c d files d files None.

(** The operations that are not part of an attempt or a cleanup. *)
Definition background (op : export_op) : bool :=
  match op with
  | OpSubmit _ _ _ | OpHeartbeat _ _ _ | OpProgress _ _ _ _ _ | OpRequeueStale _ | OpRecordDownload _ _ _ => true
  | _ => false
  end.

Inductive worker_step : world → world → Prop :=
  | step_time w now : w_now w <= now → worker_step w (mkWorld (w_db w) (w_files w) (w_attempts w) (w_cleanups w) now)
  | step_background w op at_ d' : background op = true → export_tx op at_ (w_db w) = Ok (tt, d') → worker_step w (set_w_db d' w)
  | step_other w d' : r_jobs d' = r_jobs (w_db w) → r_next_job d' = r_next_job (w_db w) → worker_step w (set_w_db d' w)
  | step_claim w owner locked job at_ d' : Claim owner locked at_ (w_db w) = Ok (Some job, d') →
      worker_step w (set_w_attempts (mkAttempt job owner Claimed :: w_attempts w) (set_w_db d' w))
  | step_attempt w before a after d' files' next : w_attempts w = before ++ a :: after →
      attempt_step a (w_now w) (w_db w) (w_files w) d' files' next →
      worker_step w (set_w_attempts (before ++ match next with Some stage => [mkAttempt (at_job a) (at_owner a) stage] | None => [] end ++ after)
        (set_w_files files' (set_w_db d' w)))
  | step_cleanup_start w started : started <= w_now w →
      worker_step w (set_w_cleanups (Expiring started (ExpiredArtifacts started (w_db w)) :: w_cleanups w) w)
  | step_cleanup w before c after d' files' next : w_cleanups w = before ++ c :: after →
      cleanup_step c (w_db w) (w_files w) d' files' next →
      worker_step w (set_w_cleanups (before ++ option_list next ++ after) (set_w_files files' (set_w_db d' w))).
Inductive worker_reachable : world → Prop :=
  | worker_initial base now : worker_reachable (mkWorld (empty_rdb base) ∅ [] [] now)
  | worker_later w w' : worker_reachable w → worker_step w w' → worker_reachable w'.

End Workers.

(** ** Paths of attempts *)

Definition no_slash (s : string) : bool := string_forallb (λ c, negb (c =? "/")%char) s.
Lemma slash_split a a' r r' : no_slash a = true → no_slash a' = true → a +:+ "/" +:+ r = a' +:+ "/" +:+ r' → a = a' ∧ r = r'.
Proof.
  unfold no_slash. revert a'. induction a as [|c a IH]; intros [|c' a']; cbn [string_forallb]; rewrite ?andb_true_iff; intros H H' Heq.
  - by injection Heq as Heq.
  - injection Heq as <- _. by destruct H'.
  - injection Heq as -> _. by destruct H.
  - injection Heq as <- Heq. destruct H as [_ H], H' as [_ H']. by destruct (IH a' H H' Heq) as [-> ->].
Qed.
Lemma pretty_go_slash x s : no_slash s = true → no_slash (pretty_N_go x s) = true.
Proof.
  revert s. induction (N.lt_wf_0 x) as [x _ IH]. intros s Hs. destruct (decide (x = 0%N)) as [->|Hne]; [by rewrite pretty_N_go_0|].
  rewrite pretty_N_go_step by lia. apply IH; [by apply N.div_lt; lia|]. unfold no_slash in *. cbn [string_forallb]. rewrite Hs, andb_true_r.
  unfold pretty_N_char. by repeat case_match.
Qed.
Lemma pretty_slash (z : Z) : no_slash (pretty z) = true.
Proof.
  destruct z as [|p|p]; [done| |].
  - change (pretty (Z.pos p)) with (pretty (N.pos p)). unfold pretty, pretty_N. rewrite decide_False by done. by apply pretty_go_slash.
  - change (pretty (Z.neg p)) with (String "-" (pretty (N.pos p))). unfold no_slash. cbn [string_forallb]. unfold pretty, pretty_N. rewrite decide_False by done.
    by apply (pretty_go_slash (N.pos p) "").
Qed.
Lemma published_path_inj id attempt token name id' attempt' token' name' :
  published_path id attempt token name = published_path id' attempt' token' name' → id = id' ∧ attempt = attempt'.
Proof.
  unfold published_path. intros H. assert (Hn : no_slash "final" = true) by done.
  apply (slash_split "final" "final") in H as [_ H]; [|done..]. apply slash_split in H as [Hi%(inj pretty) H]; [|apply pretty_slash..].
  apply slash_split in H as [Ha%(inj pretty) _]; [|apply pretty_slash..]. done.
Qed.

(** ** The invariant of the system *)

Section Invariant.
Context {decimals : DecimalLibrary} (cfg : WorkerConfig).

(** The path of an attempt's artifact. *)
Definition path_of (id n : Z) (path : string) : Prop := ∃ token name, path = published_path id n token name.
Lemma path_of_inj id n id' n' path : path_of id n path → path_of id' n' path → id = id' ∧ n = n'.
Proof. intros (t & x & ->) (t' & x' & H). by eapply published_path_inj. Qed.

Definition succeeded (j : Job) (artifact : Artifact) (expires : instant) : Prop :=
  jb_status j = StatusSucceeded ∧ jb_artifact j = Some artifact ∧ jb_expires j = Some expires.
Definition stage_path (s : attempt_stage) : option string :=
  match s with Published _ path => Some path | Failing published _ => published | _ => None end.
Definition stage_begun (s : attempt_stage) : option instant :=
  match s with Executing begun | Writing begun | Published begun _ => Some begun | _ => None end.

(** A live attempt: it was claimed, it did not succeed, and its file is
    there while its timeout runs. *)
Record attempt_ok (w : world) (a : attempt) : Prop := {
  ao_row : ∃ j, r_jobs (w_db w) !! jb_id (at_job a) = Some j ∧ jb_attempt (at_job a) <= jb_attempt j ∧
    (jb_status j = StatusSucceeded → jb_attempt j ≠ jb_attempt (at_job a));
  ao_path : ∀ path, stage_path (at_stage a) = Some path → path_of (jb_id (at_job a)) (jb_attempt (at_job a)) path;
  ao_begun : ∀ begun, stage_begun (at_stage a) = Some begun → begun <= w_now w;
  ao_file : ∀ begun path, at_stage a = Published begun path →
    (∃ written, w_files w !! path = Some written ∧ begun <= written) ∨ begun + ExportTimeout cfg <= w_now w }.
(** A round of cleanup only has jobs whose artifact has expired. *)
Definition cleanup_jobs (c : cleanup) : list Job :=
  match c with Expiring _ jobs => jobs | Marking _ job jobs => job :: jobs | Reconciling _ _ => [] end.
Definition cleanup_started (c : cleanup) : instant :=
  match c with Expiring t _ | Marking t _ _ | Reconciling t _ => t end.
Record cleanup_ok (w : world) (c : cleanup) : Prop := {
  co_started : cleanup_started c <= w_now w;
  co_jobs : ∀ job, job ∈ cleanup_jobs c → ∃ artifact expires j, succeeded job artifact expires ∧ expires <= w_now w ∧
    r_jobs (w_db w) !! jb_id job = Some j ∧ succeeded j artifact expires }.
(** The artifact of a succeeded job. *)
Record artifact_ok (w : world) (id : Z) (j : Job) : Prop := {
  fo_path : ∀ artifact expires, succeeded j artifact expires → path_of id (jb_attempt j) (RelativePath artifact);
  fo_file : ∀ artifact expires, succeeded j artifact expires → jb_deleted j = None → w_now w < expires →
    ∃ written, w_files w !! RelativePath artifact = Some written ∧
      ∀ started referenced, Reconciling started referenced ∈ w_cleanups w → RelativePath artifact ∈ referenced ∨ started - OrphanGrace cfg <= written }.
Record world_ok (w : world) : Prop := {
  wo_jobs : jobs_ok (w_db w);
  wo_keys : NoDup (at_key <$> w_attempts w);
  wo_attempts : ∀ a, a ∈ w_attempts w → attempt_ok w a;
  wo_cleanups : ∀ c, c ∈ w_cleanups w → cleanup_ok w c;
  wo_artifacts : ∀ id j, r_jobs (w_db w) !! id = Some j → artifact_ok w id j }.

(** A change of the database in which no job succeeds. *)
Record quiet (d d' : rdb) : Prop := {
  qu_ok : jobs_ok d';
  qu_evolves : ∀ id j, r_jobs d !! id = Some j → ∃ j', r_jobs d' !! id = Some j' ∧ evolves j j';
  qu_succeeded : ∀ id j', r_jobs d' !! id = Some j' → jb_status j' = StatusSucceeded → ∃ j, r_jobs d !! id = Some j ∧
    jb_status j = StatusSucceeded }.
Lemma evolves_succeeded j j' artifact expires : evolves j j' → succeeded j artifact expires → succeeded j' artifact expires.
Proof. intros He (Hs & Ha & Hx). destruct (ev_succeeded _ _ He Hs) as (? & _ & ? & ? & _). split_and!; congruence. Qed.
Lemma quiet_artifact w d' id j' : quiet (w_db w) d' → r_jobs d' !! id = Some j' →
  (∀ j, r_jobs (w_db w) !! id = Some j → artifact_ok w id j) → artifact_ok (set_w_db d' w) id j'.
Proof.
  intros Hq Hj' Hok. assert (Hback : ∀ artifact expires, succeeded j' artifact expires →
    ∃ j, r_jobs (w_db w) !! id = Some j ∧ succeeded j artifact expires ∧ jb_attempt j' = jb_attempt j ∧ (jb_deleted j' = None → jb_deleted j = None)).
  { intros artifact expires (Hs & Ha & Hx). destruct (qu_succeeded _ _ Hq id j' Hj' Hs) as (j & Hj & Hsj). exists j. split; [done|].
    destruct (qu_evolves _ _ Hq id j Hj) as (j1 & Hj1 & He). rewrite Hj' in Hj1. injection Hj1 as <-.
    destruct (ev_succeeded _ _ He Hsj) as (_ & Hat & Har & Hex & _ & Hdel). split; [split_and!; congruence|]. split; [done|].
    intros Hnone. destruct (jb_deleted j) eqn:E; [|done]. rewrite Hdel in Hnone; done. }
  split.
  - intros artifact expires Hsu. destruct (Hback _ _ Hsu) as (j & Hj & Hsj & -> & _). by eapply fo_path; [apply Hok|].
  - intros artifact expires Hsu Hdel Hnow. destruct (Hback _ _ Hsu) as (j & Hj & Hsj & _ & Hd). by eapply (fo_file w id j); [apply Hok| | |]; eauto.
Qed.
Lemma quiet_ok w d' : world_ok w → quiet (w_db w) d' → world_ok (set_w_db d' w).
Proof.
  intros [Hj Hk Ha Hc Hf] Hq. split; [apply Hq|done|..].
  - intros a Hin. destruct (Ha a Hin) as [(j & Hrow & Hle & Hne) Hp Hb Hfile]. split; try done.
    destruct (qu_evolves _ _ Hq _ j Hrow) as (j' & Hj' & He). exists j'. split; [done|]. split; [pose proof (ev_attempt _ _ He); lia|].
    intros Hs. destruct (qu_succeeded _ _ Hq _ j' Hj' Hs) as (j2 & Hj2 & Hs2). rewrite Hrow in Hj2. injection Hj2 as <-.
    destruct (ev_succeeded _ _ He Hs2) as (_ & -> & _). auto.
  - intros c Hin. destruct (Hc c Hin) as [Hst Hjobs]. split; [done|]. intros job Hjob. destruct (Hjobs job Hjob) as (artifact & expires & j & Hs & Hx & Hrow & Hsj).
    destruct (qu_evolves _ _ Hq _ j Hrow) as (j' & Hj' & He). exists artifact, expires, j'. split_and!; try done. by eapply evolves_succeeded.
  - intros id j' Hj'. eapply quiet_artifact; eauto.
Qed.

Lemma quiet_step d d' : jobs_ok d → export_step d d' →
  (∀ id j', r_jobs d' !! id = Some j' → jb_status j' = StatusSucceeded → ∃ j, r_jobs d !! id = Some j ∧ jb_status j = StatusSucceeded) → quiet d d'.
Proof.
  intros Hok Hs Hsu. split; [by eapply jobs_step_ok, export_step_jobs| |done].
  intros id j Hj. eapply export_steps_evolve; [eapply export_more; [apply export_none|exact Hs]|done|done].
Qed.
Lemma update_succeeded id cond set d n d' : (∀ j, cond j = true → jb_status (set j) = StatusSucceeded → jb_status j = StatusSucceeded) →
  update_job id cond set d = Ok (n, d') → ∀ i j', r_jobs d' !! i = Some j' → jb_status j' = StatusSucceeded →
  ∃ j, r_jobs d !! i = Some j ∧ jb_status j = StatusSucceeded.
Proof.
  intros Hc [= <- <-] i j'. cbn. rewrite update_at_lookup. case_bool_decide; [|eauto].
  destruct (r_jobs d !! i) as [j|]; [|done]. cbn. intros [= <-] Hs. exists j. split; [done|]. destruct (cond j) eqn:E; auto.
Qed.
Lemma quiet_export op now d d' : jobs_ok d → (∀ id owner n artifact expires, op ≠ OpSucceed id owner n artifact expires) →
  export_tx op now d = Ok (tt, d') → quiet d d'.
Proof.
  intros Hok Hop H. apply quiet_step; [done|by eapply export_transaction|].
  destruct op as [requester report normalized|owner locked|jid owner n|jid owner n rows part|jid owner n artifact expires|jid owner n class message|cutoff|jid|];
    cbn [export_tx] in H; unfold MarkArtifactDeleted in H; try apply tx_bind_Ok in H as (x & s & H & [= <-]).
  - apply Submit_Ok in H as (_ & -> & _ & row & _ & _ & ->). cbn. intros i j' [[<- <-]|[_ Hj]]%lookup_insert_Some; [done|eauto].
  - apply Claim_Ok in H as [_ H]; [|by apply jobs_ok_keyed]. destruct x as [job|]; [|destruct H as [-> _]; eauto].
    destruct H as (j & Hj & Hq & _ & Ha & -> & -> & _). cbn. intros i j' [[<- <-]|[_ Hj']]%lookup_insert_Some; [done|eauto].
  - apply tx_bind_Ok in H as (m & s' & H & [= _ <-]). by eapply update_succeeded; [|exact H].
  - apply tx_bind_Ok in H as (m & s' & H & [= _ <-]). by eapply update_succeeded; [|exact H].
  - by destruct (Hop jid owner n artifact expires).
  - apply tx_bind_Ok in H as (m & s' & H & [= _ <-]). by eapply update_succeeded; [|exact H].
  - injection H as <- <-. cbn. intros i j'. rewrite lookup_fmap. destruct (r_jobs d !! i) as [j|]; [|done]. cbn. intros [= <-] Hs. exists j. split; [done|].
    by destruct (stale cutoff j).
  - by eapply update_succeeded; [|exact H].
  - apply appendAudit_jobs in H as [-> _]. eauto.
Qed.
Lemma quiet_refl d d' : jobs_ok d → r_jobs d' = r_jobs d → r_next_job d' = r_next_job d → quiet d d'.
Proof. intros Hok Hj Hn. apply quiet_step; [done|by apply export_other|]. rewrite Hj. eauto. Qed.

(** ** Every step keeps the invariant *)

Lemma wo_time w now : w_now w <= now → world_ok w → world_ok (mkWorld (w_db w) (w_files w) (w_attempts w) (w_cleanups w) now).
Proof.
  intros Hn [Hj Hk Ha Hc Hf]. split; try done.
  - intros a Hin. destruct (Ha a Hin) as [Hr Hp Hb Hfile]. split; try done; cbn.
    + intros begun Hst. specialize (Hb begun Hst). lia.
    + intros begun path Hst. destruct (Hfile begun path Hst); [by left|right; lia].
  - intros c Hin. destruct (Hc c Hin) as [Hst Hjobs]. split; [cbn; lia|]. intros job Hjob.
    destruct (Hjobs job Hjob) as (artifact & expires & j & ? & ? & ? & ?). exists artifact, expires, j. split_and!; try done. cbn. lia.
  - intros id j Hrow. destruct (Hf id j Hrow) as [Hp Hfile]. split; [done|]. cbn. intros artifact expires Hs Hd Hlt. apply (Hfile artifact expires Hs Hd). lia.
Qed.

Lemma NoDup_keys before a after next stage : NoDup (at_key <$> before ++ a :: after) →
  next = None ∨ next = Some stage → NoDup (at_key <$> before ++ (match next with Some s => [mkAttempt (at_job a) (at_owner a) s] | None => [] end) ++ after).
Proof.
  rewrite !fmap_app, fmap_cons. intros Hnd [->| ->]; cbn; [|done]. apply NoDup_app in Hnd as (Hb & Hd & Ha). apply NoDup_cons in Ha as [_ Ha].
  apply NoDup_app. split; [done|]. split; [|done]. intros k Hk Hk'. apply (Hd k Hk). by right.
Qed.
(** The other attempts have other keys. *)
Lemma other_key w before a after b : world_ok w → w_attempts w = before ++ a :: after → b ∈ before ++ after → at_key b ≠ at_key a.
Proof.
  intros [_ Hk _ _ _] Heq Hb Hkey. rewrite Heq, fmap_app, fmap_cons in Hk. apply NoDup_app in Hk as (_ & Hd & Hc). apply NoDup_cons in Hc as [Hn _].
  apply elem_of_app in Hb as [Hb|Hb].
  - apply (Hd (at_key b)); [by apply list_elem_of_fmap_2|rewrite Hkey; by left].
  - apply Hn. rewrite <- Hkey. by apply list_elem_of_fmap_2.
Qed.

Lemma key_inj w a b : world_ok w → a ∈ w_attempts w → b ∈ w_attempts w → at_key a = at_key b → a = b.
Proof.
  intros [_ Hk _ _ _] Ha Hb Heq. induction (w_attempts w) as [|c l IH]; [by apply elem_of_nil in Ha|]. rewrite fmap_cons in Hk. apply NoDup_cons in Hk as [Hn Hk].
  apply elem_of_cons in Ha as [->|Ha], Hb as [->|Hb]; [done|..].
  - destruct Hn. rewrite Heq. by apply list_elem_of_fmap_2.
  - destruct Hn. rewrite <- Heq. by apply list_elem_of_fmap_2.
  - auto.
Qed.
(** No succeeded job has the path of a live attempt. *)
Lemma attempt_path_free w a id j artifact expires : world_ok w → a ∈ w_attempts w → r_jobs (w_db w) !! id = Some j → succeeded j artifact expires →
  ¬ path_of (jb_id (at_job a)) (jb_attempt (at_job a)) (RelativePath artifact).
Proof.
  intros Hw Ha Hj Hs Hp. pose proof (fo_path _ _ _ (wo_artifacts _ Hw id j Hj) _ _ Hs) as Hp'. destruct (path_of_inj _ _ _ _ _ Hp Hp') as [Hi Hn]. subst id.
  destruct (ao_row _ _ (wo_attempts _ Hw a Ha)) as (j' & Hj' & _ & Hne). rewrite Hj in Hj'. injection Hj' as <-. destruct Hs as [Hs _]. by apply (Hne Hs).
Qed.

(** An attempt writes or removes its own file. *)
Lemma wo_own_file w a files' : world_ok w → a ∈ w_attempts w → (∀ begun path, at_stage a ≠ Published begun path) →
  (∀ path, ¬ path_of (jb_id (at_job a)) (jb_attempt (at_job a)) path → files' !! path = w_files w !! path) → world_ok (set_w_files files' w).
Proof.
  intros Hw Ha Hst Hfiles. split; [apply Hw..| | |].
  - intros b Hb. destruct (wo_attempts _ Hw b Hb) as [Hr Hp Hbg Hf]. split; try done. intros begun path Hs. cbn [w_files set_w_files w_now]. rewrite Hfiles; [by apply Hf|].
    intros Hpa. specialize (Hp path). rewrite Hs in Hp. specialize (Hp eq_refl). destruct (path_of_inj _ _ _ _ _ Hpa Hp) as [Hi Hn].
    assert (a = b) as -> by (apply (key_inj w); try done; unfold at_key; congruence). by apply (Hst begun path).
  - intros c Hc. by destruct (wo_cleanups _ Hw c Hc).
  - intros id j Hj. destruct (wo_artifacts _ Hw id j Hj) as [Hp Hf]. split; [done|]. intros artifact expires Hs Hd Hn. cbn [w_files set_w_files w_cleanups].
    rewrite Hfiles; [by eapply Hf|]. by eapply attempt_path_free.
Qed.
(** An attempt goes on to another stage, or is over. *)
Lemma wo_stage w before a after next : world_ok w → w_attempts w = before ++ a :: after →
  (∀ stage, next = Some stage → attempt_ok w (mkAttempt (at_job a) (at_owner a) stage)) →
  world_ok (set_w_attempts (before ++ match next with Some stage => [mkAttempt (at_job a) (at_owner a) stage] | None => [] end ++ after) w).
Proof.
  intros Hw Heq Hn. split; [apply Hw| | |intros c Hc; by destruct (wo_cleanups _ Hw c Hc)|intros id j Hj; by destruct (wo_artifacts _ Hw id j Hj)].
  - apply (NoDup_keys _ _ _ _ (default Claimed next)); [rewrite <- Heq; apply Hw|]. destruct next; [by right|by left].
  - intros b Hb. cbn [w_attempts set_w_attempts] in Hb. apply elem_of_app in Hb as [Hb|[Hb|Hb]%elem_of_app].
    + destruct (wo_attempts _ Hw b); [|done]. rewrite Heq. apply elem_of_app. by left.
    + destruct next as [stage|]; [|by apply elem_of_nil in Hb]. apply list_elem_of_singleton in Hb as ->. by destruct (Hn stage eq_refl).
    + destruct (wo_attempts _ Hw b); [|done]. rewrite Heq. apply elem_of_app. right. by right.
Qed.
(** A success is recorded, by an attempt that is over then. *)
Lemma wo_succeed w id owner n artifact expires at_ d' : world_ok w → (∀ a, a ∈ w_attempts w → at_key a ≠ (id, n)) →
  Succeed id owner n artifact expires at_ (w_db w) = Ok (true, d') → path_of id n (RelativePath artifact) →
  (∃ written, w_files w !! RelativePath artifact = Some written ∧
     ∀ started referenced, Reconciling started referenced ∈ w_cleanups w → started - OrphanGrace cfg <= written) →
  world_ok (set_w_db d' w).
Proof.
  intros Hw Hkey Hsu Hpath (written & Hfile & Hold). pose proof (wo_jobs _ Hw) as Hjobs.
  assert (Hstep : export_step (w_db w) d').
  { apply (export_transaction (OpSucceed id owner n artifact expires) at_). cbn [export_tx]. by erewrite tx_bind_eq by exact Hsu. }
  destruct (Succeed_Ok _ _ _ _ _ _ _ _ _ Hsu) as [(_ & j0 & Hj0 & (Hrun & _ & Hat)%owned_by_true & Hd')|(? & _)]; [|done].
  assert (Hrows : ∀ i j', r_jobs d' !! i = Some j' → i = id ∧ j' = set_succeeded artifact expires at_ j0 ∨ i ≠ id ∧ r_jobs (w_db w) !! i = Some j').
  { intros i j'. rewrite Hd'. cbn. intros [[<- <-]|[? ?]]%lookup_insert_Some; auto. }
  split; [by eapply jobs_step_ok, export_step_jobs|apply Hw|..].
  - intros b Hb. destruct (wo_attempts _ Hw b Hb) as [(j & Hj & Hle & Hne) Hp Hbg Hf]. split; try done. cbn [w_db set_w_db]. rewrite Hd'. cbn [r_jobs set_r_jobs].
    destruct (decide (jb_id (at_job b) = id)) as [Hid|?]; [|exists j; rewrite lookup_insert_ne by done; done].
    rewrite Hid in *. rewrite lookup_insert_eq. rewrite Hj0 in Hj. injection Hj as <-. eexists. split; [done|]. split; [done|]. intros _ Heq. cbn in Heq.
    apply (Hkey b Hb). unfold at_key. congruence.
  - intros c Hc. destruct (wo_cleanups _ Hw c Hc) as [Hst Hj]. split; [done|]. intros job Hjob. destruct (Hj job Hjob) as (art & ex & j & Hs & Hx & Hrow & Hsj).
    destruct (export_steps_evolve _ _ _ _ (export_more _ _ _ (export_none _) Hstep) Hjobs Hrow) as (j' & Hj' & He).
    exists art, ex, j'. split_and!; try done. by eapply evolves_succeeded.
  - intros i j' [[-> ->]|[Hne Hj]]%Hrows; [|by destruct (wo_artifacts _ Hw i j' Hj)]. split; intros art ex (_ & [= <-] & _).
    + cbn. by rewrite Hat.
    + intros _ _. exists written. split; [done|]. intros started referenced Hin. right. by eapply Hold.
Qed.

Context (Hcfg : worker_config_ok cfg = true).
Lemma grace_exceeds_timeout : ExportTimeout cfg < OrphanGrace cfg.
Proof using Hcfg. unfold worker_config_ok in Hcfg. rewrite !andb_true_iff, !Z.ltb_lt in Hcfg. tauto. Qed.

(** The same attempt in a stage that promises less. *)
Lemma attempt_ok_stage w a stage : attempt_ok w a → (∀ begun path, stage ≠ Published begun path) →
  (∀ path, stage_path stage = Some path → stage_path (at_stage a) = Some path) →
  (∀ begun, stage_begun stage = Some begun → stage_begun (at_stage a) = Some begun ∨ begun <= w_now w) →
  attempt_ok w (mkAttempt (at_job a) (at_owner a) stage).
Proof.
  intros [Hr Hp Hb Hf] Hn Hp' Hb'. split; cbn; [done|auto|intros begun Hs; destruct (Hb' begun Hs); auto|intros begun path Hs; by destruct (Hn begun path)].
Qed.

Lemma attempt_step_ok w before a after d' files' next : world_ok w → w_attempts w = before ++ a :: after →
  attempt_step cfg false a (w_now w) (w_db w) (w_files w) d' files' next →
  world_ok (set_w_attempts (before ++ match next with Some stage => [mkAttempt (at_job a) (at_owner a) stage] | None => [] end ++ after)
    (set_w_files files' (set_w_db d' w))).
Proof using Hcfg.
  intros Hw Heq Hstep. assert (Ha : a ∈ w_attempts w) by (rewrite Heq; apply elem_of_app; right; by left).
  pose proof (wo_attempts _ Hw a Ha) as Hok. pose proof (wo_jobs _ Hw) as Hjobs.
  assert (Hsame : ∀ next', (∀ stage, next' = Some stage → attempt_ok w (mkAttempt (at_job a) (at_owner a) stage)) →
    world_ok (set_w_attempts (before ++ match next' with Some stage => [mkAttempt (at_job a) (at_owner a) stage] | None => [] end ++ after)
      (set_w_files (w_files w) (set_w_db (w_db w) w)))).
  { intros next' Hn. assert (set_w_files (w_files w) (set_w_db (w_db w) w) = w) as -> by (by destruct w). by apply wo_stage. }
  destruct Hstep as [Hs|begun Hs _|begun Hs _|begun failure Hs|begun token name written Hs Hwr path|begun token name written failure Hs Hwr path
    |begun path artifact at_ owned d' Hs Hpath Hat Hdl Hsu|begun path failure Hs|begun path artifact at_ owned d' failure Hl|path failure removed Hs|Hs
    |class message owned d' Hs Hfail|].
  - refine (Hsame (Some _) _). intros ? [= <-]. apply attempt_ok_stage; try done. intros ? [= <-]. right. lia.
  - refine (Hsame (Some _) _). intros ? [= <-]. apply attempt_ok_stage; try done. rewrite Hs. auto.
  - refine (Hsame (Some _) _). intros ? [= <-]. by apply attempt_ok_stage.
  - refine (Hsame (Some _) _). intros ? [= <-]. by apply attempt_ok_stage.
  - assert (Hp : path_of (jb_id (at_job a)) (jb_attempt (at_job a)) path) by (by exists token, name).
    assert (Hw1 : world_ok (set_w_files (<[path := written]> (w_files w)) w)).
    { apply (wo_own_file w a); [done|done|rewrite Hs; done|]. intros p Hnp. rewrite lookup_insert_ne; [done|]. by intros ->. }
    apply (wo_stage _ before a after (Some (Published begun path)) Hw1 Heq). intros ? [= <-]. destruct (wo_attempts _ Hw1 a Ha) as [Hr _ Hb _].
    split; cbn; [done|by intros ? [= <-]|intros ? [= <-]; apply Hb; by rewrite Hs|]. intros ? ? [= <- <-]. left. exists written. rewrite lookup_insert_eq. split; [done|lia].
  - assert (Hw1 : world_ok (set_w_files (<[path := written]> (w_files w)) w)).
    { apply (wo_own_file w a); [done|done|rewrite Hs; done|]. intros p Hnp. rewrite lookup_insert_ne; [done|]. intros <-. apply Hnp. by exists token, name. }
    apply (wo_stage _ before a after (Some (Failing None failure)) Hw1 Heq). intros ? [= <-]. apply attempt_ok_stage; [|done..]. by apply (wo_attempts _ Hw1).
  - destruct owned.
    + assert (Hgone : world_ok (set_w_attempts (before ++ [] ++ after) w)) by (by apply (wo_stage _ before a after None)).
      assert (Hp : path_of (jb_id (at_job a)) (jb_attempt (at_job a)) (RelativePath artifact)).
      { rewrite Hpath. apply (ao_path _ _ Hok). by rewrite Hs. }
      apply (wo_succeed (set_w_attempts (before ++ [] ++ after) w) (jb_id (at_job a)) (at_owner a) (jb_attempt (at_job a)) artifact (at_ + Retention cfg) at_);
        [done| |done|done|].
      { intros b Hb. by apply (other_key w before a after). }
      destruct (ao_file _ _ Hok _ _ Hs) as [(written & Hf & Hge)|?]; [|lia]. rewrite <- Hpath in Hf. exists written. split; [done|].
      intros started referenced Hin. pose proof (co_started _ _ (wo_cleanups _ Hw _ Hin)) as Hst. cbn in Hst. pose proof grace_exceeds_timeout. lia.
    + destruct (Succeed_Ok _ _ _ _ _ _ _ _ _ Hsu) as [[? _]|(_ & Hj & Hn & _)]; [done|].
      assert (Hw1 : world_ok (set_w_db d' w)) by (apply quiet_ok; [done|by apply quiet_refl]).
      apply (wo_stage _ before a after (Some (Failing (Some path) None)) Hw1 Heq). intros ? [= <-]. apply attempt_ok_stage; [by apply (wo_attempts _ Hw1)|done| |done].
      intros ? [= <-]. by rewrite Hs.
  - refine (Hsame (Some _) _). intros ? [= <-]. apply attempt_ok_stage; [done|done| |done]. intros ? [= <-]. by rewrite Hs.
  - done.
  - assert (Hw1 : world_ok (set_w_files (if removed then delete path (w_files w) else w_files w) w)).
    { apply (wo_own_file w a); [done|done|by rewrite Hs|]. intros p Hnp. destruct removed; [|done]. rewrite lookup_delete_ne; [done|]. intros <-.
      apply Hnp, (ao_path _ _ Hok). by rewrite Hs. }
    apply (wo_stage _ before a after (Some (Failing None failure)) Hw1 Heq). intros ? [= <-]. apply attempt_ok_stage; [|done..]. by apply (wo_attempts _ Hw1).
  - by refine (Hsame None _).
  - assert (Hw1 : world_ok (set_w_db d' w)).
    { apply quiet_ok; [done|]. eapply (quiet_export (OpFail (jb_id (at_job a)) (at_owner a) (jb_attempt (at_job a)) class message) (w_now w)); [done|done|].
      cbn [export_tx]. by erewrite tx_bind_eq by exact Hfail. }
    by apply (wo_stage _ before a after None Hw1 Heq).
  - by refine (Hsame None _).
Qed.

(** A cleanup goes on. *)
Lemma wo_cleanup w before c after next : world_ok w → w_cleanups w = before ++ c :: after → (∀ c', next = Some c' → cleanup_ok w c') →
  (∀ started referenced, next = Some (Reconciling started referenced) → (∃ started', c = Reconciling started' referenced ∧ started = started') ∨
     referenced = ReferencedArtifacts (w_db w)) →
  world_ok (set_w_cleanups (before ++ option_list next ++ after) w).
Proof.
  intros Hw Heq Hn Href. assert (Hin : ∀ c', c' ∈ before ++ option_list next ++ after → c' ∈ w_cleanups w ∨ next = Some c').
  { intros c' Hc'. rewrite Heq. rewrite !elem_of_app, elem_of_cons in *. destruct next as [n|]; cbn in Hc'; rewrite ?elem_of_cons, ?elem_of_nil in Hc'; naive_solver. }
  split; [apply Hw|apply Hw|..].
  - intros a Ha. by destruct (wo_attempts _ Hw a Ha).
  - intros c' [Hc'| ->]%Hin; [by destruct (wo_cleanups _ Hw c' Hc')|by destruct (Hn c' eq_refl)].
  - intros id j Hj. destruct (wo_artifacts _ Hw id j Hj) as [Hp Hf]. split; [done|]. intros artifact expires Hs Hd Hlt.
    destruct (Hf artifact expires Hs Hd Hlt) as (written & Hfile & Hold). exists written. split; [done|]. intros started referenced [Hc'| ->]%Hin; [auto|].
    destruct (Href _ _ eq_refl) as [(? & -> & ->)| ->].
    + apply Hold. rewrite Heq. apply elem_of_app. right. by left.
    + left. unfold ReferencedArtifacts. apply elem_of_list_to_set. unfold artifact_paths. apply list_elem_of_omap. exists j. destruct Hs as (Hst & Ha & _).
      split; [|by rewrite Ha]. apply elem_of_select. split; [|by exists id]. unfold undeleted, has_job_status. by rewrite bool_decide_true, Ha, Hd.
Qed.
(** Files that belong to nobody, or to an expired artifact, are removed. *)
Lemma wo_remove w path : world_ok w →
  (∀ a begun, a ∈ w_attempts w → at_stage a = Published begun path → begun + ExportTimeout cfg <= w_now w) →
  (∀ id j artifact expires, r_jobs (w_db w) !! id = Some j → succeeded j artifact expires → jb_deleted j = None → w_now w < expires →
     RelativePath artifact ≠ path) →
  world_ok (set_w_files (delete path (w_files w)) w).
Proof.
  intros Hw Hat Hjob. split; [apply Hw|apply Hw|..].
  - intros a Ha. destruct (wo_attempts _ Hw a Ha) as [Hr Hp Hb Hf]. split; try done. intros begun p Hs. cbn.
    destruct (decide (p = path)) as [->|Hne]; [right; by eapply Hat|]. rewrite lookup_delete_ne by done. by apply Hf.
  - intros c Hc. by destruct (wo_cleanups _ Hw c Hc).
  - intros id j Hj. destruct (wo_artifacts _ Hw id j Hj) as [Hp Hf]. split; [done|]. intros artifact expires Hs Hd Hlt. cbn.
    rewrite lookup_delete_ne; [by eapply Hf|]. intros Heq. by eapply Hjob.
Qed.

Lemma cleanup_step_ok w before c after d' files' next : world_ok w → w_cleanups w = before ++ c :: after →
  cleanup_step cfg c (w_db w) (w_files w) d' files' next →
  world_ok (set_w_cleanups (before ++ option_list next ++ after) (set_w_files files' (set_w_db d' w))).
Proof using Hcfg.
  intros Hw Heq Hstep. assert (Hc : c ∈ w_cleanups w) by (rewrite Heq; apply elem_of_app; right; by left).
  pose proof (wo_cleanups _ Hw c Hc) as Hok. inversion Hstep; subst.
  - destruct (co_jobs _ _ Hok job) as (art & ex & j & Hs & Hx & Hrow & Hsj); [by left|]. destruct Hs as (Hs & Ha & He). rewrite Ha in H. injection H as <-.
    assert (Hw1 : world_ok (set_w_files (delete (RelativePath art) (w_files w)) w)).
    { apply wo_remove; [done|..].
      - intros a begun Hin Hst. destruct (attempt_path_free w a _ j art ex Hw Hin Hrow Hsj). apply (ao_path _ _ (wo_attempts _ Hw a Hin)). by rewrite Hst.
      - intros id j' art' ex' Hj' Hs' _ Hlt Hpath. pose proof (fo_path _ _ _ (wo_artifacts _ Hw id j' Hj') _ _ Hs') as P1.
        pose proof (fo_path _ _ _ (wo_artifacts _ Hw _ j Hrow) _ _ Hsj) as P2. rewrite Hpath in P1. destruct (path_of_inj _ _ _ _ _ P1 P2) as [-> _].
        rewrite Hrow in Hj'. injection Hj' as <-. destruct Hs' as (_ & _ & E1), Hsj as (_ & _ & E2). rewrite E1 in E2. injection E2 as ->. lia. }
    apply (wo_cleanup _ before (Expiring started (job :: jobs)) after (Some (Marking started job jobs)) Hw1 Heq); [|done]. intros ? [= <-]. by destruct Hok.
  - assert (set_w_files (w_files w) (set_w_db (w_db w) w) = w) as -> by (by destruct w).
    apply (wo_cleanup w before _ after (Some (Expiring started jobs)) Hw Heq); [|done]. intros ? [= <-]. destruct Hok as [? Hjobs]. split; [done|]. intros x Hx. apply Hjobs. by right.
  - assert (Hw1 : world_ok (set_w_db d' w)).
    { apply quiet_ok; [done|]. by eapply (quiet_export (OpMarkDeleted (jb_id job)) started); [apply Hw|..]. }
    apply (wo_cleanup _ before (Marking started job jobs) after (Some (Expiring started jobs)) Hw1 Heq); [|done]. intros ? [= <-].
    destruct (wo_cleanups _ Hw1 _ Hc) as [? Hjobs]. split; [done|]. intros x Hx. apply Hjobs. by right.
  - assert (set_w_files (w_files w) (set_w_db (w_db w) w) = w) as -> by (by destruct w).
    apply (wo_cleanup w before _ after (Some (Expiring started jobs)) Hw Heq); [|done]. intros ? [= <-]. destruct Hok as [? Hjobs]. split; [done|]. intros x Hx. apply Hjobs. by right.
  - assert (set_w_files (w_files w) (set_w_db (w_db w) w) = w) as -> by (by destruct w).
    apply (wo_cleanup w before _ after (Some (Reconciling started (ReferencedArtifacts (w_db w)))) Hw Heq).
    + intros ? [= <-]. destruct Hok. split; [done|]. intros x Hx. by apply elem_of_nil in Hx.
    + intros ? ? [= <- <-]. by right.
  - assert (Hw1 : world_ok (set_w_files (delete path (w_files w)) w)).
    { pose proof grace_exceeds_timeout. pose proof (co_started _ _ Hok) as Hst. cbn in Hst. apply wo_remove; [done|..].
      - intros a begun Hin Hs. destruct (ao_file _ _ (wo_attempts _ Hw a Hin) _ _ Hs) as [(m & Hm & Hge)|]; [|done].
        assert (m = written) as -> by congruence. lia.
      - intros id j art ex Hj Hs Hd Hlt Hp. subst path. destruct (fo_file _ _ _ (wo_artifacts _ Hw id j Hj) _ _ Hs Hd Hlt) as (m & Hm & Hold).
        assert (m = written) as -> by congruence. destruct (Hold _ _ Hc); [done|lia]. }
    apply (wo_cleanup _ before (Reconciling started referenced) after (Some (Reconciling started referenced)) Hw1 Heq).
    + intros ? [= <-]. by destruct (wo_cleanups _ Hw1 _ Hc).
    + intros ? ? [= <- <-]. left. by exists started.
  - assert (set_w_files (w_files w) (set_w_db (w_db w) w) = w) as -> by (by destruct w). by apply (wo_cleanup w before c after None Hw Heq).
Qed.

Lemma claim_ok w owner locked at_ job d' : world_ok w → Claim owner locked at_ (w_db w) = Ok (Some job, d') →
  world_ok (set_w_attempts (mkAttempt job owner Claimed :: w_attempts w) (set_w_db d' w)).
Proof.
  intros Hw Hclaim. pose proof (wo_jobs _ Hw) as Hjobs.
  assert (Hw1 : world_ok (set_w_db d' w)).
  { apply quiet_ok; [done|]. eapply (quiet_export (OpClaim owner locked) at_); [done|done|]. cbn [export_tx]. by erewrite tx_bind_eq by exact Hclaim. }
  destruct (Claim_Ok _ _ _ _ _ _ (jobs_ok_keyed _ Hjobs) Hclaim) as (_ & j & Hj & Hq & _ & Ha & -> & Hd' & _).
  split; [apply Hw1| | |intros c Hc; by destruct (wo_cleanups _ Hw1 c Hc)|intros id i Hi; by destruct (wo_artifacts _ Hw1 id i Hi)].
  - cbn [w_attempts set_w_attempts set_w_db]. rewrite fmap_cons. apply NoDup_cons. split; [|apply Hw]. intros (b & Hk & Hb)%list_elem_of_fmap. unfold at_key in Hk. cbn in Hk.
    injection Hk as Hid Hn. destruct (ao_row _ _ (wo_attempts _ Hw b Hb)) as (i & Hi & Hle & _). rewrite <- Hid, Hj in Hi. injection Hi as <-. lia.
  - cbn [w_attempts set_w_attempts]. intros b [->|Hb]%elem_of_cons; [|by destruct (wo_attempts _ Hw1 b Hb)]. split; try done. cbn. rewrite Hd'. cbn. rewrite lookup_insert_eq.
    eexists. split; [done|]. cbn. split; [lia|done].
Qed.
Lemma cleanup_start_ok w started : world_ok w → started <= w_now w →
  world_ok (set_w_cleanups (Expiring started (ExpiredArtifacts started (w_db w)) :: w_cleanups w) w).
Proof.
  intros Hw Hst. split; [apply Hw|apply Hw|..].
  - intros a Ha. by destruct (wo_attempts _ Hw a Ha).
  - intros c [->|Hc]%elem_of_cons; [|by destruct (wo_cleanups _ Hw c Hc)]. split; [done|]. intros job Hjob. cbn [cleanup_jobs] in Hjob.
    apply elem_of_select in Hjob as [He [id Hid]]. unfold expired, undeleted, has_job_status in He. rewrite !andb_true_iff, bool_decide_eq_true in He.
    destruct He as [[[Hs Ha] _] Hx]. destruct (jb_artifact job) as [artifact|] eqn:Ea; [|done]. destruct (jb_expires job) as [expires|] eqn:Ex; [|done].
    apply Z.leb_le in Hx. assert (Hsu : succeeded job artifact expires) by done. exists artifact, expires, job. split; [done|]. split; [cbn; lia|]. split; [|done].
    cbn. by rewrite (jobs_ok_keyed _ (wo_jobs _ Hw) _ _ Hid).
  - intros id j Hj. destruct (wo_artifacts _ Hw id j Hj) as [Hp Hf]. split; [done|]. intros artifact expires Hs Hd Hlt.
    destruct (Hf artifact expires Hs Hd Hlt) as (written & Hfile & Hold). exists written. split; [done|]. intros t referenced [?|Hin]%elem_of_cons; [done|by apply (Hold t)].
Qed.
Lemma worker_reachable_ok w : worker_reachable cfg false w → world_ok w.
Proof using Hcfg.
  induction 1 as [base now|w w' _ Hw Hstep].
  - split; cbn.
    + split; [cbn; lia|]. intros id j Hj. cbn in Hj. by rewrite lookup_empty in Hj.
    + constructor.
    + by intros a ?%elem_of_nil.
    + by intros c ?%elem_of_nil.
    + intros id j Hj. by rewrite lookup_empty in Hj.
  - destruct Hstep as [w now Hn|w op at_ d' Hop Htx|w d' Hj Hn|w owner locked job at_ d' Hc|w before a after d' files' next Heq Hs|w started Hst|w before c after d' files' next Heq Hs].
    + by apply wo_time.
    + apply quiet_ok; [done|]. eapply (quiet_export op at_); [apply Hw| |done]. by intros ? ? ? ? ? ->.
    + apply quiet_ok; [done|]. apply quiet_refl; [apply Hw|done|done].
    + by eapply claim_ok.
    + by apply (attempt_step_ok w before a after).
    + by apply cleanup_start_ok.
    + by apply (cleanup_step_ok w before c after).
Qed.
End Invariant.

(** C9: whatever workers and cleanups do at once, with an export timeout
    below the orphan grace and no answer lost, the artifact of a succeeded
    job is on disk, under the directory of its job and attempt, until it
    expires or is marked as deleted. *)
Theorem artifacts_kept {decimals : DecimalLibrary} cfg w id j expires (Hcfg : worker_config_ok cfg = true)
    (Hr : worker_reachable cfg false w) (Hj : r_jobs (w_db w) !! id = Some j) (Hs : jb_status j = StatusSucceeded)
    (Hd : jb_deleted j = None) (He : jb_expires j = Some expires) (Hnow : w_now w < expires) :
  ∃ artifact written, jb_artifact j = Some artifact ∧ w_files w !! RelativePath artifact = Some written ∧
    path_of id (jb_attempt j) (RelativePath artifact).
Proof.
  apply (worker_reachable_ok cfg Hcfg) in Hr as Hw. destruct (wo_jobs _ _ Hw) as [_ Hjobs]. destruct (Hjobs id j Hj) as [_ Hok].
  pose proof (jo_state _ _ Hok) as Hst. rewrite Hs in Hst. destruct Hst as ([artifact Ha] & _). assert (Hsu : succeeded j artifact expires) by done.
  destruct (fo_file _ _ _ _ (wo_artifacts _ _ Hw id j Hj) _ _ Hsu Hd Hnow) as (written & Hf & _). exists artifact, written. split; [done|]. split; [done|].
  by eapply fo_path; [apply (wo_artifacts _ _ Hw id j Hj)|].
Qed.

(** ** The storage *)

Definition proper_name (name : string) : Prop := name ≠ "" ∧ name ≠ "." ∧ name ≠ ".." ∧ no_slash name = true.
Lemma components_name a : no_slash a = true → components a = [a].
Proof.
  unfold no_slash. induction a as [|c a IH]; [done|]. cbn [string_forallb components]. intros [Hc%negb_true_iff Ha]%andb_true_iff. by rewrite Hc, IH.
Qed.
Lemma components_app a r : no_slash a = true → components (a +:+ "/" +:+ r) = a :: components r.
Proof.
  unfold no_slash. induction a as [|c a IH]; [done|]. cbn [string_forallb]. intros [Hc%negb_true_iff Ha]%andb_true_iff. rewrite string_app_cons. cbn [components].
  by rewrite Hc, IH.
Qed.
Lemma clean_proper names : Forall proper_name names → ∀ acc, foldl clean_step acc names = rev names ++ acc.
Proof.
  induction 1 as [|name names (H1 & H2 & H3 & _) _ IH]; intros acc; [done|]. cbn [foldl]. rewrite IH. unfold clean_step.
  apply String.eqb_neq in H1, H2, H3. rewrite H1, H2, H3. cbn [orb rev]. by rewrite <- app_assoc.
Qed.
Lemma clean_proper_id names : Forall proper_name names → clean names = names.
Proof. intros H. unfold clean. rewrite clean_proper by done. by rewrite app_nil_r, rev_involutive. Qed.
Lemma pretty_go_digits x s : string_forallb is_digit s = true → string_forallb is_digit (pretty_N_go x s) = true ∧
  (String.length s <= String.length (pretty_N_go x s))%nat.
Proof.
  revert s. induction (N.lt_wf_0 x) as [x _ IH]. intros s Hs. destruct (decide (x = 0%N)) as [->|Hne]; [by rewrite pretty_N_go_0|].
  rewrite pretty_N_go_step by lia. destruct (IH (x `div` 10)%N ltac:(apply N.div_lt; lia) (String (pretty_N_char (x `mod` 10)) s)) as [H1 H2].
  - cbn [string_forallb]. rewrite Hs, andb_true_r. unfold pretty_N_char. by repeat case_match.
  - split; [done|]. cbn [String.length] in H2. lia.
Qed.
Lemma pretty_proper (z : Z) : 0 <= z → proper_name (pretty z).
Proof.
  intros Hz. destruct z as [|p|p]; [by vm_compute| |lia]. assert (Hd : string_forallb is_digit (pretty (Z.pos p)) = true ∧ pretty (Z.pos p) ≠ "").
  { change (pretty (Z.pos p)) with (pretty (N.pos p)). unfold pretty, pretty_N. rewrite decide_False by done. split; [by apply pretty_go_digits|].
    rewrite pretty_N_go_step by lia. intros H. destruct (pretty_go_digits (N.pos p `div` 10) (String (pretty_N_char (N.pos p `mod` 10)) "")) as [_ Hl].
    - cbn [string_forallb]. rewrite andb_true_r. unfold pretty_N_char. by repeat case_match.
    - rewrite H in Hl. cbn in Hl. lia. }
  destruct Hd as [Hd Hne]. split; [done|]. split; [by intros Heq; rewrite Heq in Hd|]. split; [by intros Heq; rewrite Heq in Hd|]. apply pretty_slash.
Qed.

(** An artifact path resolves below the storage's [final] directory or
    is refused; the path a publication returns resolves to the directory of
    its job and attempt. *)
Theorem storage_path_confined root (Hroot : Forall proper_name root) :
  (∀ relative path, storage_path root relative = Ok path → root ++ ["final"] `prefix_of` path) ∧
  (∀ id attempt token name, 0 <= id → 0 <= attempt → proper_name token → proper_name name →
     storage_path root (published_path id attempt token name) = Ok (root ++ ["final"; pretty id; pretty attempt; token; name])).
Proof.
  split.
  - intros relative path. unfold storage_path, within. destruct (_ || _); [done|]. case_bool_decide as Hp; [|done]. by intros [= <-].
  - intros id attempt token name Hid Hat Ht Hn. unfold storage_path, published_path. 
    match goal with |- (if ?b then _ else _) = _ => replace b with false by reflexivity end.
    rewrite (components_app "final") by done. rewrite components_app by apply pretty_slash. rewrite components_app by apply pretty_slash.
    rewrite components_app by apply Ht. rewrite components_name by apply Hn.
    rewrite clean_proper_id.
    + unfold within. rewrite bool_decide_true; [done|]. apply prefix_app. by eexists.
    + apply Forall_app. split; [done|]. repeat constructor; try apply Ht; try apply Hn; try (apply pretty_proper; done); done.
Qed.
