(* ===== verification/ReportDemo.v ===== *)
(** * A concrete report and its exports

    A datasource and a template are created and switched on, access is
    granted, an export is submitted, claimed, published and recorded; the
    properties of the report and export files are applied to the execution.
    The cipher and the accounts are those of BrowserDemo.v. *)

From S2P Require Import Prelude Calendar Json Access AuditTrail Hash Table Secrets ReportParams BrowserStore BrowserDemo ReportStore ReportTemplates ReportAudit ReportExports ExportWorker.
From stdpp Require Import gmap.

Open Scope Z_scope.

#[local] Existing Instance plain_decimal.

Definition allow (network host socket : string) : result unit := Ok tt.
Definition demo_root : Requester := mkRequester (mkIdentity 1 "root") (mkIdentity 1 "root") 1 "admin" ∅.
Definition demo_datasource : DatasourceInput :=
  mkDatasourceInput "Warehouse" "" "db.internal" "dwh" "reader" "secret" "tcp" "" 3306 TLSRequired.
Definition demo_template : TemplateInput := mkTemplateInput "Loans" "" "SELECT 1" 1 sample_parameters.

Definition after_report (op : report_op) (d : rdb) : rdb := (runTx (report_tx allow op demo_root demo_time) d).2.
Definition after_export (op : export_op) (now : instant) (d : rdb) : rdb := (runTx (export_tx op now) d).2.

Definition report_0 : rdb := Eval vm_compute in empty_rdb demo_1.
Definition report_1 : rdb := Eval vm_compute in after_report (OpCreateDatasource "nonce-nonce-" demo_datasource) report_0.
Definition report_2 : rdb := Eval vm_compute in after_report (OpChange (ChangeDatasourceStatus StatusActive) 1 1) report_1.
Definition report_3 : rdb := Eval vm_compute in after_report (OpCreateTemplate demo_template) report_2.
Definition report_4 : rdb := Eval vm_compute in after_report (OpChange (ChangeTemplateStatus StatusActive) 1 1) report_3.
Definition report_5 : rdb := Eval vm_compute in after_report (OpSetAccess 1 1 true) report_4.

Lemma report_by d op d' : good_nonce op → report_tx allow op demo_root demo_time d = Ok (tt, d') → report_reachable allow d → report_reachable allow d'.
Proof. intros Hn H Hr. by eapply report_later. Qed.
Lemma report_0_reachable : report_reachable allow report_0.
Proof. exact (report_initial allow demo_1). Qed.
Lemma report_2_reachable : report_reachable allow report_2.
Proof.
  apply (report_by report_1 (OpChange (ChangeDatasourceStatus StatusActive) 1 1)); [done|vm_compute; reflexivity|].
  apply (report_by report_0 (OpCreateDatasource "nonce-nonce-" demo_datasource)); [reflexivity|vm_compute; reflexivity|]. apply report_0_reachable.
Qed.
Lemma report_5_reachable : report_reachable allow report_5.
Proof.
  apply (report_by report_4 (OpSetAccess 1 1 true)); [done|vm_compute; reflexivity|]. apply (report_by report_3 (OpChange (ChangeTemplateStatus StatusActive) 1 1)); [done|vm_compute; reflexivity|].
  apply (report_by report_2 (OpCreateTemplate demo_template)); [done|vm_compute; reflexivity|]. apply report_2_reachable.
Qed.

(** ** The templates *)

Lemma report_change_fenced_witness : version_of false 1 report_2 = Some (2, StatusActive) ∧
  is_ok (apply_change allow (ChangeDatasource "nonce-nonce-" demo_datasource) demo_root 1 1 demo_time report_2) = false.
Proof.
  destruct (report_change_fenced allow (ChangeDatasourceStatus StatusActive) demo_root 1 1 demo_time report_1 report_2) as (_ & _ & _ & Hfence).
  - vm_compute. reflexivity.
  - split; [vm_compute; reflexivity|]. apply (Hfence (ChangeDatasource "nonce-nonce-" demo_datasource)). reflexivity.
Defined.
Lemma report_invariants_witness : ValidateParameters (parameters_of 1 report_5) = Ok tt ∧ is_Some (r_templates report_5 !! 1).
Proof.
  destruct (report_invariants allow report_5 report_5_reachable) as [_ _ Ht _ _].
  destruct (r_templates report_5 !! 1) as [r|] eqn:E; [|vm_compute in E; discriminate E].
  destruct (Ht 1 r E) as (_ & _ & _ & Hp). split; [exact Hp|by exists r].
Defined.
Lemma template_round_trip_witness : parameters_of 2 report_3 = parameters_of 2 report_2 ∧
  normalize true (canonical_parameters sample_parameters) sample_input = Ok sample_values.
Proof.
  destruct (template_round_trip allow report_2 demo_root demo_template demo_time 1 report_3 report_2_reachable) as (_ & Hother & Hnorm).
  - vm_compute. reflexivity.
  - split; [apply Hother; discriminate|]. apply (Hnorm true sample_input). vm_compute. reflexivity.
Defined.
Lemma AuditParameters_bounded_witness : encoded (parameters_json (AuditParameters sample_parameters sample_values)) <= auditParameterBudget ∧
  length (pm_items (AuditParameters sample_parameters sample_values)) = 5%nat.
Proof.
  destruct (AuditParameters_bounded sample_parameters sample_values) as [Hb _]; [vm_compute; reflexivity|].
  split; [exact Hb|vm_compute; reflexivity].
Defined.

(** ** The exports *)

Definition demo_owner : string := "0123456789abcdef0123456789abcdef0123456789abcdef0123456789abcdef".
Definition demo_shown : Template := Eval vm_compute in
  match FindTemplate 1 report_5 with Ok report => report | Err _ => mkTemplate 0 "" "" 0 "" "" "" "" 0 [] end.
Definition demo_artifact : Artifact := mkArtifact (published_path 1 1 "ab12" "loans.xlsx") "loans.xlsx" "xlsx" 7 1 3.
Definition demo_workers : WorkerConfig := mkWorkerConfig 2 (30 * minute) (10 * second) minute (24 * hour) hour hour.
Definition export_1 : rdb := Eval vm_compute in after_export (OpSubmit demo_root demo_shown sample_values) demo_time report_5.
Definition export_2 : rdb := Eval vm_compute in after_export (OpClaim demo_owner (λ _, false)) demo_time export_1.
Definition export_3 : rdb := Eval vm_compute in
  after_export (OpSucceed 1 demo_owner 1 demo_artifact (demo_time + Retention demo_workers)) demo_time export_2.
Definition no_job : Job := mkJob 0 0 "" "" 0 (mkSnapshot 0 [] ∅) 0 StatusFailed 0 None None None 0 0 None None None None 0 None None.
Definition job_in (d : rdb) : Job := default no_job (r_jobs d !! 1).

Lemma export_by d op now d' : export_tx op now d = Ok (tt, d') → export_steps d d'.
Proof. intros H. by eapply export_more, export_transaction; [apply export_none|]. Qed.
Lemma export_steps_trans d d' d'' : export_steps d d' → export_steps d' d'' → export_steps d d''.
Proof. intros H H'. revert d H. induction H' as [d1|d1 d2 d3 _ IH Hs]; intros d H; [done|]. eapply export_more; [by apply IH|exact Hs]. Qed.
Lemma export_1_steps : export_steps report_5 export_1.
Proof. apply (export_by report_5 (OpSubmit demo_root demo_shown sample_values) demo_time). vm_compute. reflexivity. Qed.
Lemma export_2_steps : export_steps export_1 export_2.
Proof. apply (export_by export_1 (OpClaim demo_owner (λ _, false)) demo_time). vm_compute. reflexivity. Qed.
Lemma export_3_steps : export_steps export_2 export_3.
Proof. apply (export_by export_2 (OpSucceed 1 demo_owner 1 demo_artifact (demo_time + Retention demo_workers)) demo_time). vm_compute. reflexivity. Qed.
Lemma report_5_exports : exports_reachable report_5.
Proof. exists demo_1. eapply export_more; [apply export_none|]. by apply export_other. Qed.
Lemma later_reachable d d' : exports_reachable d → export_steps d d' → exports_reachable d'.
Proof. intros [base H] H'. exists base. by eapply export_steps_trans. Qed.
Lemma export_1_reachable : exports_reachable export_1.
Proof. eapply later_reachable; [apply report_5_exports|apply export_1_steps]. Qed.
Lemma export_3_reachable : exports_reachable export_3.
Proof. eapply later_reachable; [|apply export_3_steps]. eapply later_reachable; [apply export_1_reachable|apply export_2_steps]. Qed.

Lemma export_lifecycle_witness : ∃ j', r_jobs export_3 !! 1 = Some j' ∧ jb_status j' = StatusSucceeded ∧ evolves (job_in export_1) j'.
Proof.
  destruct (export_lifecycle export_1 export_3 1 (job_in export_1) export_1_reachable (export_steps_trans _ _ _ export_2_steps export_3_steps)) as (_ & j' & Hj' & _ & He);
    [vm_compute; reflexivity|]. exists j'. split; [exact Hj'|]. split; [|exact He]. vm_compute in Hj'. injection Hj' as <-. reflexivity.
Defined.
Lemma export_fenced_witness : Heartbeat 1 demo_owner 1 demo_later export_3 = Ok (false, export_3).
Proof.
  destruct (export_fenced export_3 export_3 1 (job_in export_3) demo_owner 1 export_3_reachable (export_none _)) as (Hb & _);
    [vm_compute; reflexivity|vm_compute; discriminate|vm_compute; reflexivity|]. apply (Hb demo_later).
Defined.
Lemma Submit_outcome_witness : r_jobs report_5 !! 1 = None ∧ ∃ row, al_action row = ActionReportExportSubmitted ∧ b_audit (r_base export_1) = b_audit (r_base report_5) ++ [row].
Proof.
  destruct (Submit_outcome demo_root demo_shown sample_values demo_time report_5 report_5_exports) as (_ & _ & Hok & _).
  destruct (Hok 1 export_1) as (_ & Hnone & row & _ & Hac & Hd); [vm_compute; reflexivity|]. split; [exact Hnone|]. exists row. split; [exact Hac|].
  rewrite Hd. reflexivity.
Defined.
Lemma export_Claim_witness : ∃ d', Claim demo_owner (λ _, false) demo_time export_1 = Ok (Some (set_claimed demo_owner demo_time (job_in export_1)), d').
Proof.
  destruct (export_Claim demo_owner (λ _, false) demo_time export_1 export_1_reachable) as [_ [[Hnone _]|(id & j & Hj & Hq & _ & _ & Hif)]]; [reflexivity| |].
  - vm_compute in Hnone. discriminate Hnone.
  - vm_compute in Hj. destruct id as [|[| |]|]; try discriminate Hj. injection Hj as <-. cbn [jb_attempt Z.eqb] in Hif. destruct Hif as (d' & Hd' & _). exists d'. exact Hd'.
Defined.

(** ** The workers *)

Definition demo_claimed : Job := Eval vm_compute in set_claimed demo_owner demo_time (job_in export_1).
Definition demo_attempt (stage : attempt_stage) : attempt := mkAttempt demo_claimed demo_owner stage.
Definition demo_world (d : rdb) (files : gmap string instant) (attempts : list attempt) : world := mkWorld d files attempts [] demo_time.
Definition demo_files : gmap string instant := {[ RelativePath demo_artifact := demo_time ]}.

Section Demo.
Variable lossy : bool.
Notation reachable := (worker_reachable demo_workers lossy).

Lemma attempt_by d files stage d' files' next : reachable (demo_world d files [demo_attempt stage]) →
  attempt_step demo_workers lossy (demo_attempt stage) demo_time d files d' files' next →
  reachable (demo_world d' files' (match next with Some stage => [demo_attempt stage] | None => [] end)).
Proof.
  intros Hr Hs. eapply worker_later; [exact Hr|]. pose proof (step_attempt demo_workers lossy (demo_world d files [demo_attempt stage]) [] (demo_attempt stage) [] d' files' next eq_refl Hs) as H.
  destruct next; exact H.
Qed.
Lemma claimed_reachable : reachable (demo_world export_2 ∅ [demo_attempt Claimed]).
Proof.
  assert (H0 : reachable (demo_world report_5 ∅ [])).
  { eapply worker_later; [apply (worker_initial demo_workers lossy demo_1 demo_time)|]. by apply (step_other demo_workers lossy (demo_world (empty_rdb demo_1) ∅ []) report_5). }
  assert (H1 : reachable (demo_world export_1 ∅ [])).
  { eapply worker_later; [exact H0|]. apply (step_background demo_workers lossy (demo_world report_5 ∅ []) (OpSubmit demo_root demo_shown sample_values) demo_time export_1);
      [reflexivity|vm_compute; reflexivity]. }
  eapply worker_later; [exact H1|]. apply (step_claim demo_workers lossy (demo_world export_1 ∅ []) demo_owner (λ _, false) demo_claimed demo_time export_2). vm_compute. reflexivity.
Qed.
Lemma published_reachable : reachable (demo_world export_2 demo_files [demo_attempt (Published demo_time (RelativePath demo_artifact))]).
Proof.
  apply (attempt_by export_2 ∅ (Writing demo_time) export_2 demo_files (Some (Published demo_time (RelativePath demo_artifact)))).
  - apply (attempt_by export_2 ∅ (Executing demo_time) export_2 ∅ (Some (Writing demo_time))).
    + apply (attempt_by export_2 ∅ Claimed export_2 ∅ (Some (Executing demo_time))); [apply claimed_reachable|]. by apply attempt_execute.
    + apply attempt_eligible; [reflexivity|vm_compute; reflexivity].
  - apply (attempt_publish demo_workers lossy (demo_attempt (Writing demo_time)) demo_time export_2 ∅ demo_time "ab12" "loans.xlsx" demo_time); [reflexivity|lia].
Qed.
Lemma succeeded_reachable : reachable (demo_world export_3 demo_files []).
Proof.
  apply (attempt_by export_2 demo_files (Published demo_time (RelativePath demo_artifact)) export_3 demo_files None); [apply published_reachable|].
  apply (attempt_succeed demo_workers lossy (demo_attempt (Published demo_time (RelativePath demo_artifact))) demo_time export_2 demo_files demo_time (RelativePath demo_artifact)
    demo_artifact demo_time true export_3); [reflexivity..|lia|vm_compute; reflexivity|vm_compute; reflexivity].
Qed.
End Demo.

Lemma artifacts_kept_witness : ∃ artifact, jb_artifact (job_in export_3) = Some artifact ∧ is_Some (demo_files !! RelativePath artifact).
Proof.
  destruct (artifacts_kept demo_workers (demo_world export_3 demo_files []) 1 (job_in export_3) (demo_time + Retention demo_workers)) as (artifact & written & Ha & Hf & _).
  - vm_compute. reflexivity.
  - apply succeeded_reachable.
  - vm_compute. reflexivity.
  - vm_compute. reflexivity.
  - vm_compute. reflexivity.
  - vm_compute. reflexivity.
  - vm_compute. reflexivity.
  - exists artifact. split; [exact Ha|]. exists written. exact Hf.
Defined.


Lemma storage_path_confined_witness : storage_path ["srv"; "exports"] (published_path 7 1 "ab12" "loans.xlsx") = Ok ["srv"; "exports"; "final"; "7"; "1"; "ab12"; "loans.xlsx"].
Proof.
  destruct (storage_path_confined ["srv"; "exports"]) as [_ H].
  - repeat constructor; discriminate.
  - apply (H 7 1 "ab12" "loans.xlsx"); [lia|lia| |]; repeat split; discriminate.
Defined.
