(* ===== verification/DatasetStore.v ===== *)
(** * Custom dataset tables (src/internal/customdataset/model.go, ddl.go, src/migrations)

    Uploads, datasets with their columns, imports, and the physical table
    and view of each dataset, beside the accounts of BrowserStore.v.  The
    physical tables hold the rows of every attempt of every import; what a
    reader sees is the dataset's view ([view_rows]). *)

From S2P Require Import Prelude Calendar Json Access AuditTrail Table BrowserStore ReportParams.
From stdpp Require Import gmap.

Open Scope Z_scope.

Definition MaxUploadBytes : Z := 150000000.
Definition MaxDataRows : Z := 1000000.
Definition MaxColumns : nat := 50.
Definition MaxDiagnostics : nat := 100.
Definition PreviewRows : nat := 25.
Definition InferenceRows : Z := 1000.

Definition ErrDatasetNotFound : error := Errorf "custom dataset not found".
Definition ErrDatasetChanged : error := Errorf "custom dataset changed".
Definition ErrDatasetConflict (detail : string) : error := Errorf ("custom dataset changed: " +:+ detail).
Definition ErrInvalid (detail : string) : error := Errorf ("invalid custom dataset: " +:+ detail).
Definition ErrDatasetInactive (detail : string) : error := Errorf ("custom dataset is not active: " +:+ detail).
Definition ErrImportClaimLost : error := Errorf "custom dataset import ownership lost".
Definition ErrImportLeaseUnproven : error := Errorf "custom dataset import ownership could not be verified".

Inductive DatasetStatus := DatasetProvisioning | DatasetActive | DatasetArchived.
Inductive ImportStatus := ImportQueued | ImportRunning | ImportSucceeded | ImportFailed.
Inductive upload_status := UploadUploaded | UploadRetained | UploadExpired.
Definition ImportMode := string.
Definition ModeReplace : ImportMode := "replace".
Definition ModeAppend : ImportMode := "append".
Inductive LogicalType := TypeText | TypeInteger | TypeDecimal | TypeDate | TypeDateTime | TypeBoolean | TypeOther (name : string).
Definition Delimiter := string.
Definition DelimiterComma : Delimiter := "comma".
Definition DelimiterSemicolon : Delimiter := "semicolon".
Definition DelimiterTab : Delimiter := "tab".
Definition Rune (delimiter : Delimiter) : result ascii :=
  if (delimiter =? DelimiterComma)%string then Ok ","%char else
  if (delimiter =? DelimiterSemicolon)%string then Ok ";"%char else
  if (delimiter =? DelimiterTab)%string then Ok (byte 9) else Err (ErrInvalid "unsupported delimiter").

#[export] Instance DatasetStatus_eq_dec : EqDecision DatasetStatus. Proof. solve_decision. Defined.
#[export] Instance ImportStatus_eq_dec : EqDecision ImportStatus. Proof. solve_decision. Defined.
#[export] Instance upload_status_eq_dec : EqDecision upload_status. Proof. solve_decision. Defined.
#[export] Instance LogicalType_eq_dec : EqDecision LogicalType. Proof. solve_decision. Defined.

(** ** Rows *)

Record Upload := mkUpload {
  up_id : Z; up_key : string; up_name : string; up_size : Z; up_sha256 : string; up_status : upload_status; up_revision : Z;
  up_user : Z; up_retained : option instant; up_expires : option instant; up_created : instant }.
Record Column := mkColumn {
  co_ordinal : Z; co_display : string; co_query : string; co_physical : string; co_type : LogicalType; co_format : option string }.
Record Dataset := mkDataset {
  da_id : Z; da_name : string; da_description : string; da_status : DatasetStatus; da_revision : Z; da_schema : Z;
  da_generation : option Z; da_rows : Z; da_created_by : Z; da_updated_by : Z; da_activated : option instant;
  da_archived : option instant }.
Record Diagnostic := mkDiagnostic {
  dg_record : Z; dg_column : string; dg_expected : string; dg_value : string; dg_reason : string }.
Record Import := mkImport {
  ip_id : Z; ip_dataset : Z; ip_upload : Z; ip_delimiter : Delimiter; ip_header : Z; ip_mode : ImportMode; ip_schema : Z;
  ip_generation : option Z; ip_status : ImportStatus; ip_phase : string; ip_attempt : Z; ip_published : option Z;
  ip_owner : option string; ip_claimed : option instant; ip_heartbeat : option instant; ip_records : Z; ip_staged : Z;
  ip_failure : option (string * string); ip_diagnostics : option (list Diagnostic); ip_truncated : bool; ip_user : Z;
  ip_started : option instant; ip_finished : option instant; ip_created : instant }.
(** A value of a data row as [convert] makes it: a decimal in the text the
    library gives it, a date by its days, a date and time by its instant. *)
Inductive cell := CNull | CText (s : string) | CInteger (n : Z) | CDecimal (s : string) | CTime (at_ : instant) | CBool (b : bool).
Record data_row := mkDataRow { dr_import : Z; dr_attempt : Z; dr_source : Z; dr_values : list cell }.

#[export] Instance Upload_eq_dec : EqDecision Upload. Proof. solve_decision. Defined.
#[export] Instance Column_eq_dec : EqDecision Column. Proof. solve_decision. Defined.
#[export] Instance Dataset_eq_dec : EqDecision Dataset. Proof. solve_decision. Defined.
#[export] Instance Diagnostic_eq_dec : EqDecision Diagnostic. Proof. solve_decision. Defined.
#[export] Instance Import_eq_dec : EqDecision Import. Proof. solve_decision. Defined.
#[export] Instance cell_eq_dec : EqDecision cell. Proof. solve_decision. Defined.
#[export] Instance data_row_eq_dec : EqDecision data_row. Proof. solve_decision. Defined.

(** A physical table: the names and types of its data columns, its rows in
    the order of [_row_id].  A view: the physical and the query name of each
    column. *)
Record data_table := mkDataTable { dt_columns : list (string * string); dt_rows : list data_row }.

Record cdb := mkCdb {
  c_base : bdb;
  c_uploads : gmap Z Upload; c_next_upload : Z;
  c_datasets : gmap Z Dataset; c_next_dataset : Z;
  c_columns : gmap Z (list Column);                    (* custom_dataset_columns by dataset *)
  c_imports : gmap Z Import; c_next_import : Z;
  c_tables : gmap Z data_table; c_views : gmap Z (list (string * string)) }.

Definition set_c_base (x : bdb) (d : cdb) : cdb :=
  mkCdb x (c_uploads d) (c_next_upload d) (c_datasets d) (c_next_dataset d) (c_columns d) (c_imports d) (c_next_import d) (c_tables d) (c_views d).
Definition set_c_uploads (x : gmap Z Upload) (next : Z) (d : cdb) : cdb :=
  mkCdb (c_base d) x next (c_datasets d) (c_next_dataset d) (c_columns d) (c_imports d) (c_next_import d) (c_tables d) (c_views d).
Definition set_c_datasets (x : gmap Z Dataset) (next : Z) (d : cdb) : cdb :=
  mkCdb (c_base d) (c_uploads d) (c_next_upload d) x next (c_columns d) (c_imports d) (c_next_import d) (c_tables d) (c_views d).
Definition set_c_columns (x : gmap Z (list Column)) (d : cdb) : cdb :=
  mkCdb (c_base d) (c_uploads d) (c_next_upload d) (c_datasets d) (c_next_dataset d) x (c_imports d) (c_next_import d) (c_tables d) (c_views d).
Definition set_c_imports (x : gmap Z Import) (next : Z) (d : cdb) : cdb :=
  mkCdb (c_base d) (c_uploads d) (c_next_upload d) (c_datasets d) (c_next_dataset d) (c_columns d) x next (c_tables d) (c_views d).
Definition set_c_tables (x : gmap Z data_table) (d : cdb) : cdb :=
  mkCdb (c_base d) (c_uploads d) (c_next_upload d) (c_datasets d) (c_next_dataset d) (c_columns d) (c_imports d) (c_next_import d) x (c_views d).
Definition set_c_views (x : gmap Z (list (string * string))) (d : cdb) : cdb :=
  mkCdb (c_base d) (c_uploads d) (c_next_upload d) (c_datasets d) (c_next_dataset d) (c_columns d) (c_imports d) (c_next_import d) (c_tables d) x.
Definition empty_cdb (base : bdb) : cdb := mkCdb base ∅ 1 ∅ 1 ∅ ∅ 1 ∅ ∅.

(** ** The audit log *)

Definition on_accounts {A} (m : Tx bdb A) : Tx cdb A := λ d,
  match m (c_base d) with Ok (a, b) => Ok (a, set_c_base b d) | Err e => Err e end.
#[export] Program Instance dataset_audit : AuditLog cdb := {|
  audit_logs d := b_audit (c_base d); known_user d := known (c_base d); insert_audit row := on_accounts (insert_audit row) |}.
Next Obligation.
  intros row d r. unfold on_accounts. destruct (insert_audit row (c_base d)) as [[a b]|] eqn:E; [|done]. intros [= <-].
  apply (insert_audit_Ok (S := bdb)) in E. exact E.
Qed.
Next Obligation.
  intros row d e. unfold on_accounts. destruct (insert_audit row (c_base d)) as [[a b]|] eqn:E; [done|]. intros [= <-].
  by apply (insert_audit_Err (S := bdb)) in E.
Qed.

(** ** Statements *)

(** [uq_custom_dataset_uploads_storage_key] and the reference to the user. *)
Definition insert_upload (row : Z → Upload) : Tx cdb Z := λ d,
  let id := c_next_upload d in
  if exists_row (λ u, (up_key u =? up_key (row id))%string) (c_uploads d) then Err ErrDuplicateKey else
  if negb (known (c_base d) (up_user (row id))) then Err ErrForeignKey else
  Ok (id, set_c_uploads (<[id := row id]> (c_uploads d)) (id + 1) d).
Definition update_upload (id : Z) (cond : Upload → bool) (set : Upload → Upload) : Tx cdb Z := λ d,
  let r := update_at id cond set (c_uploads d) in Ok (r.2, set_c_uploads r.1 (c_next_upload d) d).

Definition insert_dataset (row : Z → Dataset) : Tx cdb Z := λ d,
  let id := c_next_dataset d in
  if negb (known (c_base d) (da_created_by (row id)) && known (c_base d) (da_updated_by (row id))) then Err ErrForeignKey else
  Ok (id, set_c_datasets (<[id := row id]> (c_datasets d)) (id + 1) d).
Definition update_dataset (id : Z) (cond : Dataset → bool) (set : Dataset → Dataset) : Tx cdb Z := λ d,
  match c_datasets d !! id with
  | Some row => if changes cond set row && negb (known (c_base d) (da_updated_by (set row))) then Err ErrForeignKey else
      let r := update_at id cond set (c_datasets d) in Ok (r.2, set_c_datasets r.1 (c_next_dataset d) d)
  | None => Ok (0, d)
  end.

Definition timed (t : LogicalType) : bool := bool_decide (t = TypeDate) || bool_decide (t = TypeDateTime).
(** [chk_custom_dataset_columns_ordinal], [_type] and [_date_format]. *)
Definition column_check (c : Column) : bool :=
  (1 <=? co_ordinal c) && (co_ordinal c <=? 50) &&
  match co_type c with TypeOther _ => false | _ => Bool.eqb (timed (co_type c)) (isSome (co_format c)) end.
(** The primary key and [uq_custom_dataset_columns_query], [_physical]. *)
Definition same_column (c c' : Column) : bool :=
  (co_ordinal c =? co_ordinal c') || (co_query c =? co_query c')%string || (co_physical c =? co_physical c')%string.
Definition insert_column (dataset : Z) (c : Column) : Tx cdb unit := λ d,
  let columns := default [] (c_columns d !! dataset) in
  if existsb (same_column c) columns then Err ErrDuplicateKey else
  if negb (isSome (c_datasets d !! dataset)) then Err ErrForeignKey else
  if negb (column_check c) then Err ErrCheckConstraint else
  Ok (tt, set_c_columns (<[dataset := columns ++ [c]]> (c_columns d)) d).
Definition delete_columns (dataset : Z) : Tx cdb unit := λ d, Ok (tt, set_c_columns (delete dataset (c_columns d)) d).

Definition active (i : Import) : bool := bool_decide (ip_status i = ImportQueued) || bool_decide (ip_status i = ImportRunning).
(** The checks on delimiter, header, mode and schema revision. *)
Definition import_check (i : Import) : bool :=
  bool_decide (ip_delimiter i ∈ [DelimiterComma; DelimiterSemicolon; DelimiterTab]) && (0 <? ip_header i) &&
  bool_decide (ip_mode i ∈ [ModeReplace; ModeAppend]) && (0 <? ip_schema i).
(** [uq_custom_dataset_imports_active]: one queued or running import per
    dataset. *)
Definition insert_import (row : Z → Import) : Tx cdb Z := λ d,
  let id := c_next_import d in
  let i := row id in
  if active i && exists_row (λ i', active i' && (ip_dataset i' =? ip_dataset i)) (c_imports d) then Err ErrDuplicateKey else
  if negb (isSome (c_datasets d !! ip_dataset i) && isSome (c_uploads d !! ip_upload i) && known (c_base d) (ip_user i)) then Err ErrForeignKey else
  if negb (import_check i) then Err ErrCheckConstraint else
  Ok (id, set_c_imports (<[id := i]> (c_imports d)) (id + 1) d).
(** [UPDATE custom_dataset_imports SET ... WHERE id=? AND ...]: no statement
    makes a finished import active, so the key above is not at stake. *)
Definition update_import (id : Z) (cond : Import → bool) (set : Import → Import) : Tx cdb Z := λ d,
  let r := update_at id cond set (c_imports d) in Ok (r.2, set_c_imports r.1 (c_next_import d) d).
Definition update_imports (cond : Import → bool) (set : Import → Import) : Tx cdb Z := λ d,
  let r := update_all cond set (c_imports d) in Ok (r.2, set_c_imports r.1 (c_next_import d) d).

(** ** The physical tables (ddl.go) *)

Definition dateFormats : list string := ["YYYY-MM-DD"; "DD/MM/YYYY"; "MM/DD/YYYY"].
Definition validDateFormat (format : option string) (dateTime : bool) : bool :=
  match format with
  | None => false
  | Some f => existsb (λ candidate, (f =? if dateTime then candidate +:+ " HH:mm:ss" else candidate)%string) dateFormats
  end.
Definition sqlType (c : Column) : result string :=
  let invalid := Err (ErrInvalid ("invalid type/date format for column " +:+ FormatInt (co_ordinal c))) in
  let plain name := match co_format c with Some _ => invalid | None => Ok name end in
  match co_type c with
  | TypeText => plain "LONGTEXT"
  | TypeInteger => plain "BIGINT"
  | TypeDecimal => plain "DECIMAL(65,30)"
  | TypeDate => if validDateFormat (co_format c) false then Ok "DATE" else invalid
  | TypeDateTime => if validDateFormat (co_format c) true then Ok "DATETIME" else invalid
  | TypeBoolean => plain "BOOLEAN"
  | TypeOther _ => invalid
  end.
Definition column_type (c : Column) : string := match sqlType c with Ok name => name | Err _ => "" end.
(** [createTableSQL]: the data columns of the table. *)
Definition table_spec (columns : list Column) : list (string * string) := (λ c, (co_physical c, column_type c)) <$> columns.
(** [createViewSQL]: [SELECT r.physical AS query]. *)
Definition view_spec (columns : list Column) : list (string * string) := (λ c, (co_physical c, co_query c)) <$> columns.

Definition row_key (r : data_row) : Z * Z * Z := (dr_import r, dr_attempt r, dr_source r).
(** [uq_import_attempt_source] over the table and the new rows. *)
Fixpoint fresh_rows (taken : list (Z * Z * Z)) (rows : list data_row) : bool :=
  match rows with
  | [] => true
  | r :: rows => negb (bool_decide (row_key r ∈ taken)) && fresh_rows (row_key r :: taken) rows
  end.
(** One [INSERT] of many rows applies all or none. *)
Definition insert_rows (dataset : Z) (rows : list data_row) : Tx cdb unit := λ d,
  match c_tables d !! dataset with
  | None => Err (Errorf "table does not exist")
  | Some t =>
      if negb (forallb (λ r, Nat.leb (length (dr_values r)) (length (dt_columns t))) rows) then Err (Errorf "unknown column") else
      if negb (fresh_rows (row_key <$> dt_rows t) rows) then Err ErrDuplicateKey else
      Ok (tt, set_c_tables (<[dataset := mkDataTable (dt_columns t) (dt_rows t ++ rows)]> (c_tables d)) d)
  end.
(** [DELETE ... WHERE ... LIMIT n]: the first rows of the table that match. *)
Fixpoint delete_limit (n : nat) (cond : data_row → bool) (rows : list data_row) : list data_row * nat :=
  match rows with
  | [] => ([], 0%nat)
  | r :: rest =>
      if cond r then
        match n with
        | O => (rows, 0%nat)
        | S n => let (kept, deleted) := delete_limit n cond rest in (kept, S deleted)
        end
      else let (kept, deleted) := delete_limit n cond rest in (r :: kept, deleted)
  end.

(** The [FROM] of the view: rows of the published attempt of the succeeded
    imports in the dataset's current generation. *)
Definition shows (d : cdb) (dataset : Z) (r : data_row) : bool :=
  match c_datasets d !! dataset, c_imports d !! dr_import r with
  | Some da, Some i =>
      (ip_dataset i =? dataset) && bool_decide (ip_status i = ImportSucceeded) &&
      match da_generation da, ip_generation i with Some g, Some g' => g =? g' | _, _ => false end &&
      bool_decide (ip_published i = Some (dr_attempt r))
  | _, _ => false
  end.
Definition table_rows (d : cdb) (dataset : Z) : list data_row :=
  match c_tables d !! dataset with Some t => dt_rows t | None => [] end.
Definition view_rows (d : cdb) (dataset : Z) : list data_row :=
  filter (λ r, shows d dataset r = true) (table_rows d dataset).
