(* ===== verification/Datasets.v ===== *)
(** * Custom datasets (src/internal/customdataset/repository.go, jobs.go, ddl.go)

    Uploads, submissions of imports, their claims by workers, heartbeats and
    progress, the two ends of an attempt, the recovery of attempts whose
    worker is gone, and the cleanup of rows nothing shows.  Each operation is
    one transaction or statement; a transaction whose commit fails is looked
    at again by [inspect_failed] and [inspect_published]. *)

From S2P Require Import Prelude Calendar Json Access AuditTrail Table BrowserStore ReportParams DatasetStore.
From stdpp Require Import gmap.

Open Scope Z_scope.

Record StoredFile := mkStoredFile { sf_key : string; sf_name : string; sf_size : Z; sf_sha256 : string }.
Record Submission := mkSubmission {
  su_name : string; su_description : string; su_dataset : Z; su_upload : Z; su_revision : Z; su_delimiter : Delimiter;
  su_header : Z; su_mode : ImportMode; su_columns : list Column }.

(** ** The audit payload *)

Definition CustomDatasetMetadata (dataset upload import schema rows : Z) (mode sha256 outcome : string) : json := JObj (
  omitempty_int "dataset_id" dataset ++ omitempty_int "upload_id" upload ++ omitempty_int "import_id" import ++
  omitempty_int "schema_revision" schema ++ omitempty_int "rows" rows ++ omitempty_string "mode" mode ++
  omitempty_string "sha256" sha256 ++ omitempty_string "outcome" outcome).
Definition appendAudit (requester : Requester) (action : Action) (resource : ResourceType) (id : Z) (metadata : json) (now : instant) : Tx cdb unit :=
  Append (mkEvent (attribution_of requester) action (Some resource) id (Some metadata) now).
(** What workers record has no identity. *)
Definition appendSystemAudit (action : Action) (resource : ResourceType) (id : Z) (metadata : json) (now : instant) : Tx cdb unit :=
  Append (mkEvent (mkAttribution None None) action (Some resource) id (Some metadata) now).

(** ** Uploads *)

Definition new_upload (requester : Requester) (file : StoredFile) (expires now : instant) (id : Z) : Upload :=
  mkUpload id (sf_key file) (sf_name file) (sf_size file) (sf_sha256 file) UploadUploaded 1 (UserID (Effective requester)) None (Some expires) now.
Definition CreateUpload (requester : Requester) (file : StoredFile) (expires now : instant) : Tx cdb Upload :=
  if (sf_key file =? "")%string || (sf_size file <=? 0) || (UserID (Effective requester) =? 0) then tx_fail (ErrInvalid "invalid upload") else
  let* id := insert_upload (new_upload requester file expires now) in
  appendAudit requester ActionCustomDatasetUploadStored ResourceCustomDatasetUpload id
    (CustomDatasetMetadata 0 id 0 0 0 "" (sf_sha256 file) "stored") now ;;;
  let* upload := tx_gets (λ d, c_uploads d !! id) in
  match upload with Some u => tx_ret u | None => tx_fail ErrDatasetNotFound end.
Definition FindUpload (id : Z) (d : cdb) : result Upload :=
  match c_uploads d !! id with Some u => Ok u | None => Err ErrDatasetNotFound end.

Definition has_upload_status (status : upload_status) (u : Upload) : bool := bool_decide (up_status u = status).
Definition after (expires : option instant) (now : instant) : bool := match expires with Some at_ => now <? at_ | None => false end.
Definition retained_for (dataset upload : Z) (d : cdb) : bool :=
  exists_row (λ i, (ip_upload i =? upload) && (ip_dataset i =? dataset) &&
    match c_datasets d !! ip_dataset i with Some da => bool_decide (da_status da = DatasetProvisioning) | None => false end) (c_imports d).
Definition FindUploadForRequester (requester : Requester) (id dataset : Z) (now : instant) (d : cdb) : result Upload :=
  if UserID (Effective requester) =? 0 then Err ErrDatasetNotFound else
  match c_uploads d !! id with
  | Some u =>
      if (has_upload_status UploadUploaded u && (up_user u =? UserID (Effective requester)) && after (up_expires u) now) ||
         (has_upload_status UploadRetained u && retained_for dataset id d)
      then Ok u else Err ErrDatasetNotFound
  | None => Err ErrDatasetNotFound
  end.

Definition upload_due (now : instant) (u : Upload) : bool :=
  has_upload_status UploadUploaded u && match up_expires u with Some at_ => at_ <=? now | None => false end.
Definition ExpiredUploads (now : instant) (d : cdb) : list Upload := select_by (λ a b, up_id a <? up_id b) (upload_due now) (c_uploads d).
Definition set_expired (u : Upload) : Upload :=
  mkUpload (up_id u) (up_key u) (up_name u) (up_size u) (up_sha256 u) UploadExpired (up_revision u + 1) (up_user u) (up_retained u) (up_expires u) (up_created u).
Definition ExpireUpload (id revision : Z) (now : instant) : Tx cdb bool :=
  let* affected := update_upload id (λ u, (up_revision u =? revision) && upload_due now u) set_expired in tx_ret (affected =? 1).
Definition in_use (u : Upload) : bool := has_upload_status UploadUploaded u || has_upload_status UploadRetained u.
Definition ReferencedUploadKeys (d : cdb) : gset string := list_to_set (up_key <$> select in_use (c_uploads d)).

(** ** Datasets *)

Definition Find (id : Z) (d : cdb) : result Dataset :=
  match c_datasets d !! id with Some da => Ok da | None => Err ErrDatasetNotFound end.
Definition by_ordinal (a b : Column) : bool := co_ordinal a <? co_ordinal b.
Definition Columns (dataset : Z) (d : cdb) : list Column := sort_by by_ordinal (default [] (c_columns d !! dataset)).
Definition FindImport (id : Z) (d : cdb) : result Import :=
  match c_imports d !! id with Some i => Ok i | None => Err ErrDatasetNotFound end.

Definition sameColumn (l r : Column) : bool := bool_decide (l = r).
Fixpoint sameColumns (ls rs : list Column) : bool :=
  match ls, rs with
  | [], [] => true
  | l :: ls, r :: rs => sameColumn l r && sameColumns ls rs
  | _, _ => false
  end.

(** [fmt.Sprintf("c%03d", n)] *)
Definition physical_name (n : Z) : string :=
  "c" +:+ (if n <? 10 then "00" else if n <? 100 then "0" else "") +:+ FormatInt n.
Fixpoint validate_columns (index : Z) (seen : gset string) (columns : list Column) : result unit :=
  match columns with
  | [] => Ok tt
  | c :: columns =>
      if negb (co_ordinal c =? index + 1) || negb (co_physical c =? physical_name (index + 1))%string ||
         (trim_space (co_display c) =? "")%string || (co_query c =? "")%string || Nat.ltb 64 (String.length (co_query c))
      then Err (ErrInvalid ("invalid column " +:+ FormatInt (index + 1))) else
      if bool_decide (co_query c ∈ seen) then Err (ErrInvalid "duplicate query name") else
      let? _ := sqlType c in validate_columns (index + 1) ({[co_query c]} ∪ seen) columns
  end.
Definition validateSubmission (input : Submission) : result unit :=
  if (su_upload input =? 0) || (su_header input =? 0) || (Nat.eqb (length (su_columns input)) 0) || Nat.ltb MaxColumns (length (su_columns input))
  then Err (ErrInvalid "incomplete import configuration") else
  let? _ := Rune (su_delimiter input) in
  if negb (su_mode input =? ModeReplace)%string && negb (su_mode input =? ModeAppend)%string then Err (ErrInvalid "invalid import mode") else
  if (su_dataset input =? 0) && ((trim_space (su_name input) =? "")%string || Nat.ltb 128 (String.length (trim_space (su_name input))) ||
     Nat.ltb 1000 (String.length (trim_space (su_description input)))) then Err (ErrInvalid "invalid dataset metadata") else
  validate_columns 0 ∅ (su_columns input).

Fixpoint replaceColumns (dataset : Z) (columns : list Column) : Tx cdb unit :=
  match columns with
  | [] => tx_ret tt
  | c :: columns => insert_column dataset c ;;; replaceColumns dataset columns
  end.

Definition new_dataset (user : Z) (name description : string) (id : Z) : Dataset :=
  mkDataset id name description DatasetProvisioning 1 1 None 0 user user None None.
Definition set_revised (user : Z) (name description : string) (da : Dataset) : Dataset :=
  mkDataset (da_id da) name description (da_status da) (da_revision da + 1) (da_schema da + 1) (da_generation da) (da_rows da) (da_created_by da) user
    (da_activated da) (da_archived da).
Definition of_dataset (dataset : Z) (status : ImportStatus → bool) (i : Import) : bool := (ip_dataset i =? dataset) && status (ip_status i).
Definition is_succeeded (s : ImportStatus) : bool := bool_decide (s = ImportSucceeded).
Definition is_active (s : ImportStatus) : bool := bool_decide (s = ImportQueued) || bool_decide (s = ImportRunning).

(** The dataset a submission is for: created, revised, or as it is. *)
Definition submit_dataset (requester : Requester) (input : Submission) : Tx cdb Dataset :=
  let user := UserID (Effective requester) in
  let name := trim_space (su_name input) in
  let description := trim_space (su_description input) in
  if su_dataset input =? 0 then
    let* id := insert_dataset (new_dataset user name description) in
    replaceColumns id (su_columns input) ;;; tx_ret (new_dataset user name description id)
  else
    let* found := tx_gets (λ d, c_datasets d !! su_dataset input) in
    match found with
    | None => tx_fail ErrDatasetNotFound
    | Some da =>
        if bool_decide (da_status da = DatasetArchived) then tx_fail (ErrDatasetInactive "archived dataset is terminal") else
        if negb (su_revision input =? da_revision da) then tx_fail ErrDatasetChanged else
        if bool_decide (da_status da = DatasetProvisioning) then
          let* successful := tx_gets (λ d, count (of_dataset (da_id da) is_succeeded) (c_imports d)) in
          let* running := tx_gets (λ d, count (of_dataset (da_id da) is_active) (c_imports d)) in
          if negb (successful =? 0) || isSome (da_generation da) then tx_fail (ErrDatasetConflict "published schema is frozen") else
          if negb (running =? 0) then tx_fail (ErrDatasetConflict "an import is already active") else
          let revised := if (name =? "")%string then set_revised user (da_name da) (da_description da) da else set_revised user name description da in
          let* _ := update_dataset (da_id da) (λ _, true) (λ _, revised) in
          delete_columns (da_id da) ;;; replaceColumns (da_id da) (su_columns input) ;;; tx_ret revised
        else
          if negb (su_name input =? "")%string && (negb (name =? da_name da)%string || negb (description =? da_description da)%string)
          then tx_fail (ErrInvalid "import cannot change dataset metadata") else
          let* current := tx_gets (Columns (da_id da)) in
          if sameColumns current (su_columns input) then tx_ret da else tx_fail (ErrInvalid "active dataset schema is frozen")
    end.
Definition submit_upload (requester : Requester) (input : Submission) (created : bool) (da : Dataset) (now : instant) : Tx cdb unit :=
  let* found := tx_gets (λ d, c_uploads d !! su_upload input) in
  match found with
  | None => tx_fail ErrDatasetNotFound
  | Some u =>
      match up_status u with
      | UploadUploaded =>
          if negb (up_user u =? UserID (Effective requester)) || negb (after (up_expires u) now) then tx_fail ErrDatasetNotFound else tx_ret tt
      | UploadRetained =>
          if created || negb (bool_decide (da_status da = DatasetProvisioning)) then tx_fail ErrDatasetNotFound else
          let* associated := tx_gets (λ d, count (λ i, (ip_upload i =? su_upload input) && (ip_dataset i =? da_id da)) (c_imports d)) in
          if associated =? 0 then tx_fail ErrDatasetNotFound else tx_ret tt
      | UploadExpired => tx_fail ErrDatasetNotFound
      end
  end.
Definition new_import (user : Z) (input : Submission) (da : Dataset) (now : instant) (id : Z) : Import :=
  mkImport id (da_id da) (su_upload input) (su_delimiter input) (su_header input) (su_mode input) (da_schema da) None ImportQueued "queued" 0 None
    None None None 0 0 None None false user None None now.
Definition set_generation (generation : Z) (i : Import) : Import :=
  mkImport (ip_id i) (ip_dataset i) (ip_upload i) (ip_delimiter i) (ip_header i) (ip_mode i) (ip_schema i) (Some generation) (ip_status i) (ip_phase i)
    (ip_attempt i) (ip_published i) (ip_owner i) (ip_claimed i) (ip_heartbeat i) (ip_records i) (ip_staged i) (ip_failure i) (ip_diagnostics i)
    (ip_truncated i) (ip_user i) (ip_started i) (ip_finished i) (ip_created i).
Definition set_retained (now : instant) (u : Upload) : Upload :=
  mkUpload (up_id u) (up_key u) (up_name u) (up_size u) (up_sha256 u) UploadRetained (up_revision u + 1) (up_user u)
    (Some (default now (up_retained u))) None (up_created u).
Definition retain_upload (id : Z) (now : instant) : Tx cdb unit :=
  let* affected := update_upload id (has_upload_status UploadUploaded) (set_retained now) in
  if affected =? 1 then tx_ret tt else
  let* found := tx_gets (λ d, c_uploads d !! id) in
  match found with
  | Some u => if has_upload_status UploadRetained u then tx_ret tt else tx_fail (ErrInvalid "upload is unavailable")
  | None => tx_fail (ErrInvalid "upload is unavailable")
  end.
Definition audit_submission (requester : Requester) (input : Submission) (created : bool) (da : Dataset) (id : Z) (now : instant) : Tx cdb unit :=
  let event action resource id import mode outcome :=
    appendAudit requester action resource id (CustomDatasetMetadata (da_id da) (su_upload input) import (da_schema da) 0 mode "" outcome) now in
  (if created then event ActionCustomDatasetProvisioned ResourceCustomDataset (da_id da) 0 "" "provisioning"
   else if bool_decide (da_status da = DatasetProvisioning) then event ActionCustomDatasetSchemaRevised ResourceCustomDataset (da_id da) 0 "" "revised"
   else tx_ret tt) ;;;
  event ActionCustomDatasetImportSubmitted ResourceCustomDatasetImport id id (su_mode input) "submitted".
Definition Submit (requester : Requester) (input : Submission) (now : instant) : Tx cdb (Dataset * Import) :=
  let* _ := tx_lift (validateSubmission input) in
  if UserID (Effective requester) =? 0 then tx_fail ErrDatasetNotFound else
  let created := su_dataset input =? 0 in
  let* da := submit_dataset requester input in
  submit_upload requester input created da now ;;;
  let* inserted := tx_try (insert_import (new_import (UserID (Effective requester)) input da now)) in
  match inserted with
  | Err e => tx_fail (if bool_decide (e = ErrDuplicateKey) then ErrDatasetConflict "an import is already active" else e)
  | Ok id =>
      let* generation :=
        (if (su_mode input =? ModeAppend)%string then
          match da_status da, da_generation da with
          | DatasetActive, Some g => tx_ret g
          | _, _ => tx_fail (ErrDatasetInactive "append requires an active dataset")
          end
        else tx_ret id) in
      let* _ := update_import id (λ _, true) (set_generation generation) in
      retain_upload (su_upload input) now ;;;
      audit_submission requester input created da id now ;;;
      let* da' := tx_gets (Find (da_id da)) in
      let* i := tx_gets (FindImport id) in
      let* da' := tx_lift da' in let* i := tx_lift i in tx_ret (da', i)
  end.

Definition set_metadata (user : Z) (name description : string) (da : Dataset) : Dataset :=
  mkDataset (da_id da) name description (da_status da) (da_revision da + 1) (da_schema da) (da_generation da) (da_rows da) (da_created_by da) user
    (da_activated da) (da_archived da).
Definition live_revision (revision : Z) (da : Dataset) : bool := (da_revision da =? revision) && negb (bool_decide (da_status da = DatasetArchived)).
Definition UpdateMetadata (requester : Requester) (id revision : Z) (name description : string) (now : instant) : Tx cdb unit :=
  let name := trim_space name in
  let description := trim_space description in
  if (name =? "")%string || Nat.ltb 128 (String.length name) || Nat.ltb 1000 (String.length description)
  then tx_fail (ErrInvalid "invalid dataset metadata") else
  let* affected := update_dataset id (live_revision revision) (set_metadata (UserID (Effective requester)) name description) in
  if negb (affected =? 1) then tx_fail ErrDatasetChanged else
  appendAudit requester ActionCustomDatasetUpdated ResourceCustomDataset id (CustomDatasetMetadata id 0 0 0 0 "" "" "updated") now.
Definition set_archived (user : Z) (now : instant) (da : Dataset) : Dataset :=
  mkDataset (da_id da) (da_name da) (da_description da) DatasetArchived (da_revision da + 1) (da_schema da) (da_generation da) (da_rows da)
    (da_created_by da) user (da_activated da) (Some now).
Definition Archive (requester : Requester) (id revision : Z) (now : instant) : Tx cdb unit :=
  let* busy := tx_gets (λ d, exists_row (of_dataset id is_active) (c_imports d)) in
  let* affected := update_dataset id (λ da, live_revision revision da && negb busy) (set_archived (UserID (Effective requester)) now) in
  if negb (affected =? 1) then tx_fail ErrDatasetChanged else
  appendAudit requester ActionCustomDatasetArchived ResourceCustomDataset id (CustomDatasetMetadata id 0 0 0 0 "" "" "archived") now.

(** ** Attempts (jobs.go) *)

Definition has_import_status (status : ImportStatus) (i : Import) : bool := bool_decide (ip_status i = status).
Definition import_before (a b : Import) : bool :=
  (ip_created a <? ip_created b) || ((ip_created a =? ip_created b) && (ip_id a <? ip_id b)).
Definition import_claimed (owner : string) (now : instant) (i : Import) : Import :=
  mkImport (ip_id i) (ip_dataset i) (ip_upload i) (ip_delimiter i) (ip_header i) (ip_mode i) (ip_schema i) (ip_generation i)
    ImportRunning "validating" (ip_attempt i + 1) (ip_published i) (Some owner) (Some now) (Some now) 0 0 None None false (ip_user i)
    (Some (default now (ip_started i))) (ip_finished i) (ip_created i).
(** [locked]: the rows other transactions hold. *)
Definition Claim (owner : string) (locked : Z → bool) (now : instant) : Tx cdb (option Import) :=
  if negb (Nat.eqb (String.length owner) 64) then tx_fail (Errorf "opaque custom dataset owner is required") else
  let* first := tx_gets (λ d, select_first import_before (λ i, has_import_status ImportQueued i && negb (locked (ip_id i))) (c_imports d)) in
  match first with
  | None => tx_ret None
  | Some i =>
      if 2 ^ 32 <=? ip_attempt i + 1 then tx_fail ErrOutOfRange else
      let* affected := update_import (ip_id i) (has_import_status ImportQueued) (import_claimed owner now) in
      if negb (affected =? 1) then tx_fail ErrImportClaimLost else
      let* job := tx_gets (λ d, c_imports d !! ip_id i) in
      match job with Some job => tx_ret (Some job) | None => tx_fail ErrNoRows end
  end.
(** [status='running' AND owner_id=? AND attempt=?] *)
Definition owns (owner : string) (attempt : Z) (i : Import) : bool :=
  has_import_status ImportRunning i && bool_decide (ip_owner i = Some owner) && (ip_attempt i =? attempt).
Definition import_heartbeat (now : instant) (i : Import) : Import :=
  mkImport (ip_id i) (ip_dataset i) (ip_upload i) (ip_delimiter i) (ip_header i) (ip_mode i) (ip_schema i) (ip_generation i) (ip_status i) (ip_phase i)
    (ip_attempt i) (ip_published i) (ip_owner i) (ip_claimed i) (Some now) (ip_records i) (ip_staged i) (ip_failure i) (ip_diagnostics i)
    (ip_truncated i) (ip_user i) (ip_started i) (ip_finished i) (ip_created i).
Definition Heartbeat (id : Z) (owner : string) (attempt : Z) (now : instant) : Tx cdb bool :=
  let* affected := update_import id (owns owner attempt) (import_heartbeat now) in tx_ret (affected =? 1).
Definition import_progress (phase : string) (records staged : Z) (i : Import) : Import :=
  mkImport (ip_id i) (ip_dataset i) (ip_upload i) (ip_delimiter i) (ip_header i) (ip_mode i) (ip_schema i) (ip_generation i) (ip_status i) phase
    (ip_attempt i) (ip_published i) (ip_owner i) (ip_claimed i) (ip_heartbeat i) records staged (ip_failure i) (ip_diagnostics i)
    (ip_truncated i) (ip_user i) (ip_started i) (ip_finished i) (ip_created i).
Definition Progress (id : Z) (owner : string) (attempt : Z) (phase : string) (records staged : Z) : Tx cdb bool :=
  if negb (bool_decide (phase ∈ ["validating"; "staging"; "publishing"])) then tx_fail (Errorf "invalid custom dataset phase") else
  let* affected := update_import id (owns owner attempt) (import_progress phase records staged) in tx_ret (affected =? 1).
Definition import_requeued (i : Import) : Import :=
  mkImport (ip_id i) (ip_dataset i) (ip_upload i) (ip_delimiter i) (ip_header i) (ip_mode i) (ip_schema i) (ip_generation i) ImportQueued "queued"
    (ip_attempt i) (ip_published i) None None None (ip_records i) (ip_staged i) (ip_failure i) (ip_diagnostics i)
    (ip_truncated i) (ip_user i) (ip_started i) (ip_finished i) (ip_created i).
Definition import_stale (cutoff : instant) (i : Import) : bool :=
  has_import_status ImportRunning i && match ip_heartbeat i with Some at_ => at_ <? cutoff | None => false end.
Definition RequeueStale (staleAfter now : instant) : Tx cdb Z := update_imports (import_stale (now - staleAfter)) import_requeued.

(** The text without the spaces around it, cut to [maximum] bytes and then
    to whole runes. *)
Definition truncate (value : string) (maximum : nat) : string :=
  let value := trim_space value in
  prefix_of (valid_end (Nat.min (String.length value) maximum) value) value.
Definition nullable {A} (values : list A) : option (list A) := match values with [] => None | _ => Some values end.
Definition import_failed (class message : string) (diagnostics : list Diagnostic) (truncated : bool) (now : instant) (i : Import) : Import :=
  mkImport (ip_id i) (ip_dataset i) (ip_upload i) (ip_delimiter i) (ip_header i) (ip_mode i) (ip_schema i) (ip_generation i) ImportFailed "complete"
    (ip_attempt i) (ip_published i) (ip_owner i) (ip_claimed i) (Some now) (ip_records i) (ip_staged i) (Some (class, message)) (nullable diagnostics)
    truncated (ip_user i) (ip_started i) (Some now) (ip_created i).
Definition Fail_ (job : Import) (owner class message : string) (diagnostics : list Diagnostic) (truncated : bool) (now : instant) : Tx cdb bool :=
  let class := truncate class 64 in
  let message := truncate message 500 in
  let* affected := update_import (ip_id job) (owns owner (ip_attempt job)) (import_failed class message diagnostics truncated now) in
  if negb (affected =? 1) then tx_ret false else
  appendSystemAudit ActionCustomDatasetImportFailed ResourceCustomDatasetImport (ip_id job)
    (CustomDatasetMetadata (ip_dataset job) (ip_upload job) (ip_id job) 0 0 (ip_mode job) "" class) now ;;;
  tx_ret true.

Definition import_succeeded (rows : Z) (now : instant) (i : Import) : Import :=
  mkImport (ip_id i) (ip_dataset i) (ip_upload i) (ip_delimiter i) (ip_header i) (ip_mode i) (ip_schema i) (ip_generation i) ImportSucceeded "complete"
    (ip_attempt i) (Some (ip_attempt i)) (ip_owner i) (ip_claimed i) (Some now) (ip_records i) rows (ip_failure i) (ip_diagnostics i)
    (ip_truncated i) (ip_user i) (ip_started i) (Some now) (ip_created i).
Definition set_replaced (generation rows user : Z) (now : instant) (da : Dataset) : Dataset :=
  mkDataset (da_id da) (da_name da) (da_description da) DatasetActive (da_revision da + 1) (da_schema da) (Some generation) rows (da_created_by da) user
    (Some (default now (da_activated da))) (da_archived da).
Definition set_appended (rows user : Z) (da : Dataset) : Dataset :=
  mkDataset (da_id da) (da_name da) (da_description da) (da_status da) (da_revision da + 1) (da_schema da) (da_generation da) (da_rows da + rows)
    (da_created_by da) user (da_activated da) (da_archived da).
(** [MaxDataRows-rows] is an unsigned subtraction. *)
Definition remaining (rows : Z) : Z := (MaxDataRows - rows) mod 2 ^ 64.
Definition publishable (job current : Import) (owner : string) (da : Dataset) : bool :=
  owns owner (ip_attempt job) current && (ip_schema current =? da_schema da) && negb (bool_decide (da_status da = DatasetArchived)) &&
  isSome (ip_generation current).
Definition publish_dataset (current : Import) (da : Dataset) (generation rows : Z) (now : instant) : Tx cdb unit :=
  if (ip_mode current =? ModeReplace)%string then
    let* _ := update_dataset (da_id da) (λ _, true) (set_replaced generation rows (ip_user current) now) in tx_ret tt
  else if remaining rows <? da_rows da then tx_fail (ErrInvalid "append would exceed 1000000 published rows")
  else let* _ := update_dataset (da_id da) (λ _, true) (set_appended rows (ip_user current)) in tx_ret tt.
Definition Publish (job : Import) (owner : string) (rows : Z) (now : instant) : Tx cdb unit :=
  let* found := tx_gets (λ d, c_imports d !! ip_id job) in
  let* dataset := tx_gets (λ d, c_datasets d !! ip_dataset job) in
  match found, dataset with
  | Some current, Some da =>
      match ip_generation current with
      | Some generation =>
          if negb (publishable job current owner da) then tx_fail ErrImportClaimLost else
          if (ip_mode current =? ModeAppend)%string &&
             (negb (bool_decide (da_generation da = Some generation)) || negb (bool_decide (da_status da = DatasetActive)))
          then tx_fail ErrDatasetChanged else
          let* affected := update_import (ip_id job) (owns owner (ip_attempt job)) (import_succeeded rows now) in
          if negb (affected =? 1) then tx_fail ErrImportClaimLost else
          publish_dataset current da generation rows now ;;;
          let metadata := CustomDatasetMetadata (ip_dataset job) (ip_upload job) (ip_id job) (ip_schema job) rows (ip_mode job) "" "succeeded" in
          appendSystemAudit ActionCustomDatasetImportSucceeded ResourceCustomDatasetImport (ip_id job) metadata now ;;;
          if bool_decide (da_status da = DatasetProvisioning)
          then appendSystemAudit ActionCustomDatasetActivated ResourceCustomDataset (ip_dataset job) metadata now else tx_ret tt
      | None => tx_fail ErrImportClaimLost
      end
  | _, _ => tx_fail ErrNoRows
  end.

(** What is read after a commit that returned an error. *)
Definition inspect_failed (job : Import) (d : cdb) : result bool :=
  match c_imports d !! ip_id job with
  | Some i => Ok (has_import_status ImportFailed i && (ip_attempt i =? ip_attempt job))
  | None => Err ErrNoRows
  end.
Definition inspect_published (job : Import) (d : cdb) : result bool :=
  match c_imports d !! ip_id job with
  | Some i => Ok (has_import_status ImportSucceeded i && (ip_attempt i =? ip_attempt job) && bool_decide (ip_published i = Some (ip_attempt job)))
  | None => Err ErrNoRows
  end.

(** ** Cleanup *)

Record CleanupImport := mkCleanupImport { cl_id : Z; cl_dataset : Z; cl_published : option Z; cl_retired : bool }.
Definition retired (i : Import) (d : cdb) : bool :=
  has_import_status ImportSucceeded i &&
  match da_generation <$> c_datasets d !! ip_dataset i with
  | Some (Some g) => match ip_generation i with Some g' => negb (g' =? g) | None => false end
  | _ => true
  end.
Definition finished_before (a b : Import) : bool :=
  let at_ i := default 0 (ip_finished i) in (at_ a <? at_ b) || ((at_ a =? at_ b) && (ip_id a <? ip_id b)).
Definition cleanup_due (cutoff : instant) (i : Import) : bool :=
  (has_import_status ImportFailed i || has_import_status ImportSucceeded i) && match ip_finished i with Some at_ => at_ <? cutoff | None => false end.
Definition CleanupCandidates (grace now : instant) (d : cdb) : list CleanupImport :=
  (λ i, mkCleanupImport (ip_id i) (ip_dataset i) (ip_published i) (retired i d)) <$>
    select_by finished_before (cleanup_due (now - grace)) (c_imports d).
Definition cleanup_matches (item : CleanupImport) (r : data_row) : bool :=
  (dr_import r =? cl_id item) &&
  match cl_published item with
  | Some attempt => cl_retired item || negb (dr_attempt r =? attempt)
  | None => true
  end.
Definition CleanupRows (item : CleanupImport) : Tx cdb nat := λ d,
  match c_datasets d !! cl_dataset item, c_tables d !! cl_dataset item with
  | None, _ => Err ErrDatasetNotFound
  | Some _, None => Err (Errorf "table does not exist")
  | Some _, Some t =>
      let (kept, deleted) := delete_limit (Z.to_nat 5000) (cleanup_matches item) (dt_rows t) in
      Ok (deleted, set_c_tables (<[cl_dataset item := mkDataTable (dt_columns t) kept]> (c_tables d)) d)
  end.

(** ** The physical table and view of a dataset (ddl.go) *)

Inductive ddl := DropView | DropTable | CreateTable (columns : list (string * string)) | CreateView (columns : list (string * string)).
Definition run_ddl (dataset : Z) (statement : ddl) (d : cdb) : cdb :=
  match statement with
  | DropView => set_c_views (delete dataset (c_views d)) d
  | DropTable => set_c_tables (delete dataset (c_tables d)) d
  | CreateTable columns => set_c_tables (<[dataset := mkDataTable columns []]> (c_tables d)) d
  | CreateView columns => set_c_views (<[dataset := columns]> (c_views d)) d
  end.
Definition resetAllowed (dataset import : Z) (d : cdb) : bool :=
  match c_datasets d !! dataset with
  | Some da =>
      bool_decide (da_status da = DatasetProvisioning) && negb (isSome (da_generation da)) &&
      (count (of_dataset dataset is_succeeded) (c_imports d) =? 0) &&
      (count (λ i, of_dataset dataset is_active i && negb (ip_id i =? import)) (c_imports d) =? 0)
  | None => false
  end.
Definition ErrNoReset : error := Errorf "custom dataset provisioning objects cannot be reset after publication or during another import".
(** The statements of [Ensure] under the dataset's lock, for a worker that
    read [da] and [columns] before; an error in the middle is found before
    any statement ran, except the second [resetAllowed], which follows the
    creation of the table. *)
Definition Ensure (da : Dataset) (columns : list Column) (import : Z) (d : cdb) : list ddl * result unit :=
  let provisioning := bool_decide (da_status da = DatasetProvisioning) in
  let table := c_tables d !! da_id da in
  let exact := match table with Some t => bool_decide (dt_columns t = table_spec columns) | None => false end in
  let reset := isSome table && negb exact in
  if reset && negb provisioning then ([], Err (Errorf "active custom dataset table does not match frozen metadata")) else
  if reset && negb (resetAllowed (da_id da) import d) then ([], Err ErrNoReset) else
  let tables := (if reset then [DropView; DropTable] else []) ++ (if exact then [] else [CreateTable (table_spec columns)]) in
  if provisioning then
    if resetAllowed (da_id da) import d then (tables ++ [DropView; CreateView (view_spec columns)], Ok tt) else (tables, Err ErrNoReset)
  else
    (tables, match c_views d !! da_id da with
      | Some v => if bool_decide (v = view_spec columns) then Ok tt else Err (Errorf "custom dataset view does not match frozen metadata")
      | None => Err ErrNoRows
      end).
(** [Ensure] on the database; each statement commits by itself, and the
    connection may fail after the first [done] of them. *)
Definition run_ensure (da : Dataset) (columns : list Column) (import : Z) (done : option nat) (d : cdb) : result unit * cdb :=
  let '(statements, outcome) := Ensure da columns import d in
  match done with
  | None => (outcome, foldl (λ d s, run_ddl (da_id da) s d) d statements)
  | Some n => (Err (Errorf "invalid connection"), foldl (λ d s, run_ddl (da_id da) s d) d (take n statements))
  end.
