(* ===== verification/DatasetInv.v ===== *)
(** * Invariants of custom datasets

    What holds of uploads, datasets and imports in every state the
    operations of Datasets.v reach, whatever order they run in
    ([datasets_ok]), and what an operation never changes ([kept]). *)

From S2P Require Import Prelude Calendar Json Access AuditTrail Table BrowserStore ReportParams DatasetStore Datasets.
From stdpp Require Import gmap.

Open Scope Z_scope.

(** ** The operations *)

Inductive dataset_op :=
  | OpCreateUpload (requester : Requester) (file : StoredFile) (expires : instant)
  | OpExpireUpload (id revision : Z)
  | OpSubmit (requester : Requester) (input : Submission)
  | OpUpdateMetadata (requester : Requester) (id revision : Z) (name description : string)
  | OpArchive (requester : Requester) (id revision : Z)
  | OpClaim (owner : string) (locked : Z → bool)
  | OpHeartbeat (id : Z) (owner : string) (attempt : Z)
  | OpProgress (id : Z) (owner : string) (attempt : Z) (phase : string) (records staged : Z)
  | OpRequeueStale (staleAfter : instant)
  | OpFail (job : Import) (owner class message : string) (diagnostics : list Diagnostic) (truncated : bool)
  | OpPublish (job : Import) (owner : string) (rows : Z).
Definition dataset_tx (op : dataset_op) (now : instant) : Tx cdb unit :=
  match op with
  | OpCreateUpload requester file expires => let* _ := CreateUpload requester file expires now in tx_ret tt
  | OpExpireUpload id revision => let* _ := ExpireUpload id revision now in tx_ret tt
  | OpSubmit requester input => let* _ := Submit requester input now in tx_ret tt
  | OpUpdateMetadata requester id revision name description => UpdateMetadata requester id revision name description now
  | OpArchive requester id revision => Archive requester id revision now
  | OpClaim owner locked => let* _ := Claim owner locked now in tx_ret tt
  | OpHeartbeat id owner attempt => let* _ := Heartbeat id owner attempt now in tx_ret tt
  | OpProgress id owner attempt phase records staged => let* _ := Progress id owner attempt phase records staged in tx_ret tt
  | OpRequeueStale staleAfter => let* _ := RequeueStale staleAfter now in tx_ret tt
  | OpFail job owner class message diagnostics truncated => let* _ := Fail_ job owner class message diagnostics truncated now in tx_ret tt
  | OpPublish job owner rows => Publish job owner rows now
  end.

(** What an import is about. *)
Definition same_import (i i' : Import) : Prop :=
  ip_id i' = ip_id i ∧ ip_dataset i' = ip_dataset i ∧ ip_upload i' = ip_upload i ∧ ip_delimiter i' = ip_delimiter i ∧ ip_header i' = ip_header i ∧
  ip_mode i' = ip_mode i ∧ ip_schema i' = ip_schema i ∧ ip_generation i' = ip_generation i ∧ ip_user i' = ip_user i ∧ ip_created i' = ip_created i.
(** A worker ends an attempt it claimed ([job] is the row [Claim]
    returned), and publishes no more rows than [Stream] lets through; counts
    are unsigned. *)
Definition of_claim (d : cdb) (job : Import) : Prop := ∃ i, c_imports d !! ip_id job = Some i ∧ same_import job i.
Definition op_allowed (d : cdb) (op : dataset_op) : Prop :=
  match op with
  | OpFail job _ _ _ _ _ => of_claim d job
  | OpPublish job _ rows => of_claim d job ∧ 0 <= rows <= MaxDataRows
  | OpProgress _ _ _ _ _ staged => 0 <= staged
  | _ => True
  end.

(** ** The invariant *)

(** The sum of a column over a table. *)
Definition total {R} (f : R → Z) (t : gmap Z R) : Z := map_fold (λ _ n acc, n + acc) 0 (f <$> t).
(** The rows an import adds to what generation [g] shows. *)
Definition shown (dataset g : Z) (i : Import) : Z :=
  if (ip_dataset i =? dataset) && bool_decide (ip_status i = ImportSucceeded) && bool_decide (ip_generation i = Some g) then ip_staged i else 0.

(** The state of a row, by its status. *)
Definition import_state (i : Import) : Prop :=
  0 <= ip_attempt i ∧ 0 <= ip_staged i ∧
  match ip_status i with
  | ImportQueued => ip_owner i = None ∧ ip_published i = None
  | ImportRunning => is_Some (ip_owner i) ∧ is_Some (ip_heartbeat i) ∧ 0 < ip_attempt i ∧ ip_published i = None
  | ImportSucceeded => 0 < ip_attempt i ∧ ip_published i = Some (ip_attempt i) ∧ is_Some (ip_finished i)
  | ImportFailed => 0 < ip_attempt i ∧ ip_published i = None ∧ is_Some (ip_failure i) ∧ is_Some (ip_finished i)
  end.
(** The generation of an import: its own when it replaces, else the one of
    an import that replaced the dataset's rows. *)
Definition generation_ok (d : cdb) (i : Import) : Prop :=
  if (ip_mode i =? ModeReplace)%string then ip_generation i = Some (ip_id i) else
  ip_mode i = ModeAppend ∧ ∃ g i', ip_generation i = Some g ∧ c_imports d !! g = Some i' ∧ ip_dataset i' = ip_dataset i ∧
    ip_mode i' = ModeReplace ∧ ip_status i' = ImportSucceeded.
Record import_ok (d : cdb) (id : Z) (i : Import) : Prop := {
  io_id : ip_id i = id;
  io_upload : ∃ u, c_uploads d !! ip_upload i = Some u ∧ up_status u = UploadRetained;
  io_state : import_state i;
  io_generation : generation_ok d i;
  io_dataset : ∃ da, c_datasets d !! ip_dataset i = Some da ∧
    (* while it is active nothing about its dataset changes *)
    (active i = true → da_status da ≠ DatasetArchived ∧ ip_schema i = da_schema da ∧
      (ip_mode i = ModeAppend → da_status da = DatasetActive ∧ da_generation da = ip_generation i)) }.
Record dataset_ok (d : cdb) (id : Z) (da : Dataset) : Prop := {
  do_id : da_id da = id;
  do_columns : ∃ columns, c_columns d !! id = Some columns ∧ columns ≠ [] ∧ (length columns <= MaxColumns)%nat ∧ validate_columns 0 ∅ columns = Ok tt;
  do_rows : 0 <= da_rows da <= MaxDataRows;
  do_status : match da_generation da with
    | None => da_status da ≠ DatasetActive ∧ da_rows da = 0 ∧
        ∀ k i, c_imports d !! k = Some i → ip_dataset i = id → ip_status i ≠ ImportSucceeded
    | Some g => da_status da ≠ DatasetProvisioning ∧ da_rows da = total (shown id g) (c_imports d) ∧
        ∃ i, c_imports d !! g = Some i ∧ ip_dataset i = id ∧ ip_mode i = ModeReplace ∧ ip_status i = ImportSucceeded
    end }.
Record datasets_ok (d : cdb) : Prop := {
  ko_next : 0 < c_next_upload d ∧ 0 < c_next_dataset d ∧ 0 < c_next_import d;
  ko_uploads : ∀ id u, c_uploads d !! id = Some u → 0 < id < c_next_upload d ∧ up_id u = id;
  ko_keys : ∀ id id' u u', c_uploads d !! id = Some u → c_uploads d !! id' = Some u' → up_key u = up_key u' → id = id';
  ko_datasets : ∀ id da, c_datasets d !! id = Some da → 0 < id < c_next_dataset d ∧ dataset_ok d id da;
  ko_imports : ∀ id i, c_imports d !! id = Some i → 0 < id < c_next_import d ∧ import_ok d id i;
  ko_columns : ∀ id, c_datasets d !! id = None → c_columns d !! id = None;
  ko_active : ∀ id id' i i', c_imports d !! id = Some i → c_imports d !! id' = Some i' → active i = true → active i' = true →
    ip_dataset i = ip_dataset i' → id = id' }.

(** What no operation changes: a finished import, what an import is about,
    the columns of a dataset an import has published or is active on. *)
Record kept (d d' : cdb) : Prop := {
  kp_imports : ∀ id i, c_imports d !! id = Some i → ∃ i', c_imports d' !! id = Some i' ∧ same_import i i' ∧
    ip_attempt i <= ip_attempt i' ∧ (active i = false → i' = i) ∧
    (* a running attempt ends or stays; a new one has a new number *)
    (ip_status i' = ImportRunning → ip_attempt i' = ip_attempt i → ip_status i = ImportRunning ∧ ip_owner i' = ip_owner i) ∧
    (ip_status i ≠ ImportRunning → ip_status i' = ImportSucceeded ∨ ip_status i' = ImportFailed → i' = i);
  kp_datasets : ∀ id da, c_datasets d !! id = Some da → ∃ da', c_datasets d' !! id = Some da' ∧ da_revision da <= da_revision da' ∧
    (da_status da = DatasetArchived → da' = da) ∧
    (da_status da = DatasetActive → da_status da' ≠ DatasetProvisioning) ∧
    (is_Some (da_generation da) → c_columns d' !! id = c_columns d !! id ∧ da_schema da' = da_schema da);
  kp_columns : ∀ id i, c_imports d !! id = Some i → active i = true → ∀ i', c_imports d' !! id = Some i' → active i' = true →
    c_columns d' !! ip_dataset i = c_columns d !! ip_dataset i;
  kp_uploads : ∀ id u, c_uploads d !! id = Some u → ∃ u', c_uploads d' !! id = Some u' ∧ up_key u' = up_key u ∧
    (up_status u = UploadRetained → up_status u' = UploadRetained) }.

(** ** Sums *)

Section Total.
Context {R : Type}.
Implicit Types (f : R → Z) (t : gmap Z R).

Lemma total_ext f t t' : (∀ k, f <$> t !! k = f <$> t' !! k) → total f t = total f t'.
Proof. intros H. unfold total. f_equal. apply map_eq. intros k. rewrite !lookup_fmap. apply H. Qed.
Lemma total_new f t k r : t !! k = None → total f (<[k := r]> t) = f r + total f t.
Proof.
  intros Hk. unfold total. rewrite fmap_insert, map_fold_insert_L; [done|intros; lia|by rewrite lookup_fmap, Hk].
Qed.
Lemma total_put f t k r r' : t !! k = Some r → total f (<[k := r']> t) = total f t - f r + f r'.
Proof.
  intros Hk. rewrite <- insert_delete_eq, total_new by apply lookup_delete_eq.
  rewrite <- (insert_delete_id t k r Hk) at 2. rewrite total_new by apply lookup_delete_eq. lia.
Qed.
Lemma total_nonneg f t : (∀ k r, t !! k = Some r → 0 <= f r) → 0 <= total f t.
Proof.
  induction t as [|k r t Hk IH] using map_ind; intros H; [done|]. rewrite total_new by done.
  specialize (H k r) as Hr. rewrite lookup_insert_eq in Hr. specialize (Hr eq_refl).
  assert (0 <= total f t); [|lia]. apply IH. intros j x Hj. apply (H j). rewrite lookup_insert_ne; [done|]. intros ->. congruence.
Qed.
Lemma total_le f t k r : t !! k = Some r → (∀ k r, t !! k = Some r → 0 <= f r) → f r <= total f t.
Proof.
  intros Hk H. rewrite <- (insert_delete_id t k r Hk), total_new by apply lookup_delete_eq.
  assert (0 <= total f (delete k t)); [|lia]. apply total_nonneg. intros j x [_ Hj]%lookup_delete_Some. eauto.
Qed.
End Total.

(** ** Quiet moves *)

(** A change of an import that neither starts nor publishes it. *)
Definition quiet_move (i i' : Import) : Prop :=
  i' = i ∨ (active i = true ∧ same_import i i' ∧ import_state i' ∧ ip_status i' ≠ ImportSucceeded).
Lemma same_import_refl i : same_import i i.
Proof. by split_and!. Qed.
Lemma same_import_trans i i' i'' : same_import i i' → same_import i' i'' → same_import i i''.
Proof. unfold same_import. intuition congruence. Qed.
Lemma active_spec i : active i = true ↔ ip_status i = ImportQueued ∨ ip_status i = ImportRunning.
Proof. unfold active. by rewrite orb_true_iff, !bool_decide_eq_true. Qed.
Lemma active_false i : active i = false ↔ ip_status i = ImportSucceeded ∨ ip_status i = ImportFailed.
Proof. unfold active. destruct (ip_status i); cbn; naive_solver. Qed.
Lemma quiet_move_same i i' : quiet_move i i' → same_import i i'.
Proof. intros [->|(_ & H & _)]; [apply same_import_refl|done]. Qed.
Lemma quiet_move_state i i' : quiet_move i i' → import_state i → import_state i'.
Proof. intros [->|(_ & _ & H & _)]; done. Qed.
Lemma quiet_move_active i i' : quiet_move i i' → active i' = true → active i = true.
Proof. by intros [->|(H & _)]. Qed.
Lemma quiet_move_succeeded i i' : quiet_move i i' → (ip_status i = ImportSucceeded ∨ ip_status i' = ImportSucceeded) → i' = i.
Proof. intros [->|(Ha & _ & _ & Hn)]; [done|]. apply active_spec in Ha. intuition congruence. Qed.
Lemma quiet_move_shown ds g i i' : quiet_move i i' → shown ds g i' = shown ds g i.
Proof.
  intros Hm. destruct (decide (ip_status i = ImportSucceeded ∨ ip_status i' = ImportSucceeded)) as [H|H].
  - by rewrite (quiet_move_succeeded i i').
  - unfold shown. rewrite !(bool_decide_eq_false_2 (_ = ImportSucceeded)) by tauto. by rewrite !andb_false_r.
Qed.

Record same_catalog (d d' : cdb) : Prop := {
  sc_uploads : c_uploads d' = c_uploads d; sc_next_upload : c_next_upload d' = c_next_upload d;
  sc_datasets : c_datasets d' = c_datasets d; sc_next_dataset : c_next_dataset d' = c_next_dataset d;
  sc_columns : c_columns d' = c_columns d; sc_next_import : c_next_import d' = c_next_import d }.
Record quiet_moves (d d' : cdb) : Prop := {
  qm_catalog : same_catalog d d';
  qm_imports : ∀ id, option_Forall2 quiet_move (c_imports d !! id) (c_imports d' !! id) }.
Lemma moves_forward d d' id i : quiet_moves d d' → c_imports d !! id = Some i → ∃ i', c_imports d' !! id = Some i' ∧ quiet_move i i'.
Proof. intros [_ H] Hi. specialize (H id). rewrite Hi in H. inversion H; subst. eauto. Qed.
Lemma moves_back d d' id i' : quiet_moves d d' → c_imports d' !! id = Some i' → ∃ i, c_imports d !! id = Some i ∧ quiet_move i i'.
Proof. intros [_ H] Hi. specialize (H id). rewrite Hi in H. inversion H; subst. eauto. Qed.
Lemma moves_total d d' ds g : quiet_moves d d' → total (shown ds g) (c_imports d') = total (shown ds g) (c_imports d).
Proof.
  intros [_ H]. apply total_ext. intros k. specialize (H k). inversion H as [i i' Hm Hi Hi'|Hi Hi']; cbn; [|done].
  f_equal. by apply quiet_move_shown.
Qed.

Lemma moves_generation d d' i i' : quiet_moves d d' → same_import i i' → generation_ok d i → generation_ok d' i'.
Proof.
  intros Hq (Hid & Hds & _ & _ & _ & Hm & _ & Hg & _). unfold generation_ok. rewrite Hid, Hds, Hm, Hg. destruct (ip_mode i =? ModeReplace)%string; [done|].
  intros (Ha & g & j & Hg' & Hj & Hjd & Hjm & Hjs). split; [done|]. exists g, j. split_and!; try done.
  destruct (moves_forward _ _ _ _ Hq Hj) as (j' & Hj' & Hjj). by rewrite (quiet_move_succeeded _ _ Hjj) in Hj' by auto.
Qed.
Lemma moves_import d d' id i i' : quiet_moves d d' → quiet_move i i' → import_ok d id i → import_ok d' id i'.
Proof.
  intros Hq Hm [Hid Hup Hst Hg Hds]. pose proof (quiet_move_same _ _ Hm) as Hs. pose proof Hs as (Ei & Ed & Eu & _ & _ & Emo & Es & Eg & _).
  pose proof (qm_catalog _ _ Hq) as Hc. split.
  - congruence.
  - by rewrite Eu, (sc_uploads _ _ Hc).
  - by eapply quiet_move_state.
  - by eapply moves_generation.
  - rewrite Ed, (sc_datasets _ _ Hc). destruct Hds as (da & Hda & Hact). exists da. split; [done|]. intros Ha.
    rewrite Es, Emo, Eg. apply Hact. by eapply quiet_move_active.
Qed.
Lemma moves_dataset d d' id da : quiet_moves d d' → dataset_ok d id da → dataset_ok d' id da.
Proof.
  intros Hq [Hid Hcol Hrw Hst]. pose proof (qm_catalog _ _ Hq) as Hc. split; [done|by rewrite (sc_columns _ _ Hc)|done|]. destruct (da_generation da) as [g|].
  - destruct Hst as (Hs & Hr & j & Hj & Hjd & Hjm & Hjs). split; [done|]. split; [by rewrite (moves_total d)|]. exists j. split_and!; try done.
    destruct (moves_forward _ _ _ _ Hq Hj) as (j' & Hj' & Hjj). by rewrite (quiet_move_succeeded _ _ Hjj) in Hj' by auto.
  - destruct Hst as (Hs & Hr & Hn). split_and!; [done|done|]. intros k i' Hi' Hd Hss. destruct (moves_back _ _ _ _ Hq Hi') as (i & Hi & Hm).
    apply (Hn k i Hi); [|]; rewrite (quiet_move_succeeded _ _ Hm) in * by auto; done.
Qed.
Lemma moves_ok d d' : datasets_ok d → quiet_moves d d' → datasets_ok d'.
Proof.
  intros [Hn Hu Hk Hd Hi Hco Ha] Hq. pose proof (qm_catalog _ _ Hq) as Hc. split.
  - by rewrite (sc_next_upload _ _ Hc), (sc_next_dataset _ _ Hc), (sc_next_import _ _ Hc).
  - by rewrite (sc_uploads _ _ Hc), (sc_next_upload _ _ Hc).
  - by rewrite (sc_uploads _ _ Hc).
  - rewrite (sc_datasets _ _ Hc), (sc_next_dataset _ _ Hc). intros id da Hda. destruct (Hd id da Hda). split; [done|]. by eapply moves_dataset.
  - rewrite (sc_next_import _ _ Hc). intros id i' Hi'. destruct (moves_back _ _ _ _ Hq Hi') as (i & Hii & Hm). destruct (Hi id i Hii). split; [done|].
    by eapply moves_import.
  - by rewrite (sc_datasets _ _ Hc), (sc_columns _ _ Hc).
  - intros id id' i1 i1' H1 H1' A1 A1' E. destruct (moves_back _ _ _ _ Hq H1) as (i & Hii & Hm), (moves_back _ _ _ _ Hq H1') as (i' & Hii' & Hm').
    apply (Ha id id' i i'); [done|done|by eapply quiet_move_active..|].
    destruct (quiet_move_same _ _ Hm) as (_ & ? & _), (quiet_move_same _ _ Hm') as (_ & ? & _). congruence.
Qed.
Lemma moves_refl d d' : same_catalog d d' → c_imports d' = c_imports d → quiet_moves d d'.
Proof. intros Hc Hi. split; [done|]. intros id. rewrite Hi. destruct (c_imports d !! id); constructor. by left. Qed.

(** ** Effects of the operations *)

Lemma appendAudit_effect requester action resource id metadata now d u d' :
  appendAudit requester action resource id metadata now d = Ok (u, d') → ∃ b, d' = set_c_base b d.
Proof.
  unfold appendAudit, Append. intros (row & s & (row' & _ & [= -> ->])%tx_lift_Ok & Hi)%tx_bind_Ok. cbn in Hi. unfold on_accounts in Hi.
  destruct (insert_browser_audit row' (c_base d)) as [[? b]|]; [|done]. injection Hi as _ <-. by exists b.
Qed.
Lemma appendSystemAudit_effect action resource id metadata now d u d' :
  appendSystemAudit action resource id metadata now d = Ok (u, d') → ∃ b, d' = set_c_base b d.
Proof.
  unfold appendSystemAudit, Append. intros (row & s & (row' & _ & [= -> ->])%tx_lift_Ok & Hi)%tx_bind_Ok. cbn in Hi. unfold on_accounts in Hi.
  destruct (insert_browser_audit row' (c_base d)) as [[? b]|]; [|done]. injection Hi as _ <-. by exists b.
Qed.

(** The moves of an import. *)
Inductive import_move (i : Import) : Import → Prop :=
  | im_none : import_move i i
  | im_claim owner now : ip_status i = ImportQueued → ip_attempt i + 1 < 2 ^ 32 → import_move i (import_claimed owner now i)
  | im_heartbeat now : ip_status i = ImportRunning → import_move i (import_heartbeat now i)
  | im_progress phase records staged : ip_status i = ImportRunning → 0 <= staged → import_move i (import_progress phase records staged i)
  | im_requeue : ip_status i = ImportRunning → import_move i (import_requeued i)
  | im_fail class message diagnostics truncated now : ip_status i = ImportRunning →
      import_move i (import_failed class message diagnostics truncated now i).
Lemma import_move_quiet i i' : import_state i → import_move i i' → quiet_move i i'.
Proof.
  intros (Hn & Hst & Hs) Hm. destruct Hm; [by left|right..]; (split; [apply active_spec; auto|]; split; [by split_and!|]);
    rewrite H in Hs; unfold import_state; cbn; rewrite ?H; (split; [|done]); intuition (eauto; lia).
Qed.
(** The physical tables are left alone. *)
Definition same_tables (d d' : cdb) : Prop := c_tables d' = c_tables d ∧ c_views d' = c_views d.
Definition moves (d d' : cdb) : Prop :=
  same_catalog d d' ∧ same_tables d d' ∧ ∀ id, option_Forall2 import_move (c_imports d !! id) (c_imports d' !! id).
Lemma moves_base b d : moves d (set_c_base b d).
Proof. split; [by split|]. split; [done|]. intros id. cbn. destruct (c_imports d !! id); constructor. constructor. Qed.
Lemma moves_none d : moves d d.
Proof. split; [by split|]. split; [done|]. intros id. destruct (c_imports d !! id); constructor. constructor. Qed.
Lemma moves_trans_base b d d' : moves d d' → moves d (set_c_base b d').
Proof. intros ([] & [] & Hm). split; [by split|]. by split. Qed.
Lemma moves_quiet d d' : datasets_ok d → moves d d' → quiet_moves d d'.
Proof.
  intros Hok (Hc & _ & Hm). split; [done|]. intros id. specialize (Hm id). inversion Hm as [i i' H Hi Hi'|]; constructor.
  apply import_move_quiet; [|done]. by destruct (ko_imports _ Hok id i) as [_ []].
Qed.
Lemma update_import_moves id cond set d n d' : (∀ i, cond i = true → import_move i (set i)) → update_import id cond set d = Ok (n, d') → moves d d'.
Proof.
  intros Hm [= <- <-]. split; [by split|]. split; [done|]. intros k. cbn. rewrite update_at_lookup. case_bool_decide as Hk.
  - destruct (c_imports d !! k) as [i|]; cbn; constructor. destruct (cond i) eqn:E; [by apply Hm|constructor].
  - destruct (c_imports d !! k); constructor. constructor.
Qed.
Lemma owns_true owner attempt i : owns owner attempt i = true ↔ ip_status i = ImportRunning ∧ ip_owner i = Some owner ∧ ip_attempt i = attempt.
Proof. unfold owns, has_import_status. rewrite !andb_true_iff, !bool_decide_eq_true, Z.eqb_eq. tauto. Qed.
Lemma has_import_status_true status i : has_import_status status i = true ↔ ip_status i = status.
Proof. apply bool_decide_eq_true. Qed.
Lemma Heartbeat_moves id owner attempt now d b d' : Heartbeat id owner attempt now d = Ok (b, d') → moves d d'.
Proof.
  intros (n & s & H & [= _ <-])%tx_bind_Ok. eapply update_import_moves; [|exact H]. intros i (Hr & _)%owns_true. by constructor.
Qed.
Lemma Progress_moves id owner attempt phase records staged d b d' : 0 <= staged → Progress id owner attempt phase records staged d = Ok (b, d') → moves d d'.
Proof.
  intros Hs. unfold Progress. destruct (negb _); [done|]. intros (n & s & H & [= _ <-])%tx_bind_Ok. eapply update_import_moves; [|exact H].
  intros i (Hr & _)%owns_true. by constructor.
Qed.
Lemma RequeueStale_moves staleAfter now d n d' : RequeueStale staleAfter now d = Ok (n, d') → moves d d'.
Proof.
  intros [= _ <-]. split; [by split|]. split; [done|]. intros k. cbn. rewrite lookup_fmap. destruct (c_imports d !! k) as [i|]; cbn; constructor.
  destruct (import_stale (now - staleAfter) i) eqn:E; [|constructor]. apply andb_true_iff in E as [E%has_import_status_true _]. by constructor.
Qed.
Lemma Claim_effect owner locked now d r d' : (∀ id i, c_imports d !! id = Some i → ip_id i = id) → Claim owner locked now d = Ok (r, d') →
  match r with
  | None => d' = d
  | Some job => ∃ i, c_imports d !! ip_id job = Some i ∧ ip_status i = ImportQueued ∧ locked (ip_id job) = false ∧ ip_attempt i + 1 < 2 ^ 32 ∧
      job = import_claimed owner now i ∧ d' = set_c_imports (<[ip_id job := job]> (c_imports d)) (c_next_import d) d ∧
      select_first import_before (λ i, has_import_status ImportQueued i && negb (locked (ip_id i))) (c_imports d) = Some i
  end.
Proof.
  intros Hkey. unfold Claim. destruct (negb _); [done|]. intros (first & s & [= <- <-] & H)%tx_bind_Ok.
  destruct (select_first _ _ _) as [i|] eqn:E; [|by injection H as <- <-].
  destruct (Z.leb_spec (2 ^ 32) (ip_attempt i + 1)) as [|Ha]; [done|]. apply first_by_elem, elem_of_select in E as Hi.
  destruct Hi as [[Hq Hl]%andb_true_iff [k Hi]]. apply has_import_status_true in Hq as Hq'. apply negb_true_iff in Hl. assert (ip_id i = k) as <- by (by apply Hkey).
  assert (Hu : update_import (ip_id i) (has_import_status ImportQueued) (import_claimed owner now) d =
    Ok (1, set_c_imports (<[ip_id i := import_claimed owner now i]> (c_imports d)) (c_next_import d) d)).
  { unfold update_import, update_at, changes. rewrite Hi, Hq, bool_decide_false; [done|]. intros Heq%(f_equal ip_status). cbn in Heq. congruence. }
  rewrite (tx_bind_eq _ _ _ _ _ Hu) in H. cbn [Z.eqb Pos.eqb negb] in H. unfold tx_bind, tx_gets in H. cbn in H. rewrite lookup_insert_eq in H.
  injection H as <- <-. exists i. by split_and!.
Qed.
Lemma Claim_moves owner locked now d r d' : (∀ id i, c_imports d !! id = Some i → ip_id i = id) → Claim owner locked now d = Ok (r, d') → moves d d'.
Proof.
  intros Hkey H%Claim_effect; [|done]. destruct r as [job|]; [|subst d'; apply moves_none].
  destruct H as (i & Hi & Hq & _ & Ha & -> & -> & _). split; [by split|]. split; [done|]. intros k. cbn in Hi |- *. destruct (decide (k = ip_id i)) as [->|Hne].
  - rewrite lookup_insert_eq, Hi. constructor. by constructor.
  - rewrite lookup_insert_ne by done. destruct (c_imports d !! k); constructor. constructor.
Qed.
Lemma Fail_effect job owner class message diagnostics truncated now d b d' : Fail_ job owner class message diagnostics truncated now d = Ok (b, d') →
  moves d d' ∧ (b = true → ∃ i base, c_imports d !! ip_id job = Some i ∧ owns owner (ip_attempt job) i = true ∧
    d' = set_c_base base (set_c_imports (<[ip_id job := import_failed (truncate class 64) (truncate message 500) diagnostics truncated now i]> (c_imports d)) (c_next_import d) d)).
Proof.
  unfold Fail_. intros (n & s & Hu & H)%tx_bind_Ok. assert (Hm : moves d s).
  { eapply update_import_moves; [|exact Hu]. intros i (Hr & _)%owns_true. by constructor. }
  injection Hu as Hn <-. destruct (Z.eqb_spec n 1) as [->|]; cbn [negb] in H; [|by injection H as <- <-].
  apply tx_bind_Ok in H as (u & s' & (base & ->)%appendSystemAudit_effect & [= <- <-]). split; [by apply moves_trans_base|].
  intros _. destruct (update_at_affected (ip_id job) (owns owner (ip_attempt job)) (import_failed (truncate class 64) (truncate message 500) diagnostics truncated now)
    (c_imports d)) as [(_ & i & Hi & Ho & _ & E)|(E & _)]; [|congruence]. exists i, base. by rewrite E.
Qed.

(** ** Rebuilding the invariant *)

(** Retained uploads and published imports stay. *)
Record extends (d d' : cdb) : Prop := {
  ex_uploads : ∀ id u, c_uploads d !! id = Some u → up_status u = UploadRetained → ∃ u', c_uploads d' !! id = Some u' ∧ up_status u' = UploadRetained;
  ex_imports : ∀ id i, c_imports d !! id = Some i → ip_status i = ImportSucceeded → c_imports d' !! id = Some i }.
(** What an active import needs of its dataset. *)
Definition serves (i : Import) (da : Dataset) : Prop :=
  active i = true → da_status da ≠ DatasetArchived ∧ ip_schema i = da_schema da ∧
    (ip_mode i = ModeAppend → da_status da = DatasetActive ∧ da_generation da = ip_generation i).
Lemma generation_extends d d' i : extends d d' → generation_ok d i → generation_ok d' i.
Proof.
  intros He. unfold generation_ok. destruct (ip_mode i =? ModeReplace)%string; [done|]. intros (Hm & g & j & Hg & Hj & Hjd & Hjm & Hjs).
  split; [done|]. exists g, j. split_and!; try done. by apply (ex_imports _ _ He).
Qed.
Lemma import_ok_extends d d' id i : extends d d' → import_ok d id i → (∃ da, c_datasets d' !! ip_dataset i = Some da ∧ serves i da) → import_ok d' id i.
Proof.
  intros He [Hid (u & Hu & Hr) Hst Hg _] Hda. split; [done| |done|by eapply generation_extends|done]. by eapply (ex_uploads _ _ He).
Qed.
Lemma dataset_ok_same d d' id da : c_columns d' !! id = c_columns d !! id → c_imports d' = c_imports d → dataset_ok d id da → dataset_ok d' id da.
Proof. intros Hc Hi [Hid Hcol Hrw Hst]. split; [done|by rewrite Hc|done|]. by rewrite !Hi. Qed.

Lemma uploads_ok d d' : datasets_ok d → c_datasets d' = c_datasets d → c_next_dataset d' = c_next_dataset d → c_columns d' = c_columns d →
  c_imports d' = c_imports d → c_next_import d' = c_next_import d → 0 < c_next_upload d' →
  (∀ id u, c_uploads d' !! id = Some u → 0 < id < c_next_upload d' ∧ up_id u = id) →
  (∀ id id' u u', c_uploads d' !! id = Some u → c_uploads d' !! id' = Some u' → up_key u = up_key u' → id = id') →
  (∀ id u, c_uploads d !! id = Some u → up_status u = UploadRetained → ∃ u', c_uploads d' !! id = Some u' ∧ up_status u' = UploadRetained) →
  datasets_ok d'.
Proof.
  intros [(_ & Hn2 & Hn3) _ _ Hd Hi Hco Ha] Ed En Ec Ei Eni Hn Hu Hk Hr. assert (He : extends d d') by (split; [done|by rewrite Ei]). split.
  - by rewrite En, Eni.
  - done.
  - done.
  - rewrite Ed, En. intros id da Hda. destruct (Hd id da Hda). split; [done|]. eapply dataset_ok_same; [by rewrite Ec|done|done].
  - rewrite Ei, Eni. intros id i Hii. destruct (Hi id i Hii) as [? Hok]. split; [done|]. eapply import_ok_extends; [done..|]. rewrite Ed. by destruct Hok.
  - by rewrite Ed, Ec.
  - by rewrite Ei.
Qed.
Lemma same_catalog_ok d d' : same_catalog d d' → c_imports d' = c_imports d → datasets_ok d → datasets_ok d'.
Proof. intros Hc Hi Hok. eapply moves_ok; [done|]. by apply moves_refl. Qed.
Lemma base_ok' b d : datasets_ok d → datasets_ok (set_c_base b d).
Proof. by apply same_catalog_ok. Qed.

(** ** Uploads *)

Lemma CreateUpload_effect requester file expires now d u d' : CreateUpload requester file expires now d = Ok (u, d') →
  ∃ b, u = new_upload requester file expires now (c_next_upload d) ∧
    (∀ k v, c_uploads d !! k = Some v → up_key v ≠ sf_key file) ∧ UserID (Effective requester) ≠ 0 ∧
    d' = set_c_base b (set_c_uploads (<[c_next_upload d := u]> (c_uploads d)) (c_next_upload d + 1) d).
Proof.
  unfold CreateUpload. destruct (_ || _ || _) eqn:Eg; [done|]. apply orb_false_iff in Eg as [_ Eu%Z.eqb_neq].
  intros (id & s & Hi & H)%tx_bind_Ok. unfold insert_upload in Hi. destruct (exists_row _ _) eqn:E; [done|]. destruct (negb _); [done|]. injection Hi as <- <-.
  apply tx_bind_Ok in H as (x & s & (b & ->)%appendAudit_effect & H). apply tx_bind_Ok in H as (f & s & [= <- <-] & H). cbn in H. rewrite lookup_insert_eq in H.
  injection H as <- <-. exists b. split_and!; try done. intros k v Hk Heq. rewrite exists_row_false in E. specialize (E k v Hk). cbn in E.
  by rewrite Heq, String.eqb_refl in E.
Qed.
Lemma CreateUpload_ok requester file expires now d u d' : datasets_ok d → CreateUpload requester file expires now d = Ok (u, d') → datasets_ok d'.
Proof.
  intros Hok (b & -> & Hfresh & _ & ->)%CreateUpload_effect. apply base_ok'. pose proof (ko_next _ Hok) as (Hn & _).
  assert (Hnone : c_uploads d !! c_next_upload d = None).
  { destruct (c_uploads d !! c_next_upload d) eqn:E; [|done]. destruct (ko_uploads _ Hok _ _ E). lia. }
  apply (uploads_ok d); cbn; try done; try lia.
  - intros id u [[<- <-]|[_ Hu]]%lookup_insert_Some; [split; [lia|done]|]. destruct (ko_uploads _ Hok id u Hu). split; [lia|done].
  - intros id id' u u' [[<- <-]|[? Hu]]%lookup_insert_Some [[<- <-]|[? Hu']]%lookup_insert_Some Hk; try done.
    + by destruct (Hfresh _ _ Hu').
    + by destruct (Hfresh _ _ Hu).
    + by eapply (ko_keys _ Hok).
  - intros id u Hu Hr. exists u. rewrite lookup_insert_ne; [done|]. congruence.
Qed.
Lemma update_upload_ok id cond set d n d' : (∀ u, cond u = true → up_id (set u) = up_id u ∧ up_key (set u) = up_key u ∧
  (up_status u = UploadRetained → up_status (set u) = UploadRetained)) →
  update_upload id cond set d = Ok (n, d') → datasets_ok d → datasets_ok d'.
Proof.
  intros Hs [= _ <-] Hok. assert (Hl : ∀ k u', (update_at id cond set (c_uploads d)).1 !! k = Some u' →
    ∃ u, c_uploads d !! k = Some u ∧ up_id u' = up_id u ∧ up_key u' = up_key u).
  { intros k u'. rewrite update_at_lookup. case_bool_decide; [|eauto]. destruct (c_uploads d !! k) as [u|]; [|done]. cbn. intros [= <-]. exists u. split; [done|].
    destruct (cond u) eqn:E; [|done]. by destruct (Hs u E) as (? & ? & _). }
  apply (uploads_ok d); cbn; try done.
  - apply Hok.
  - intros k u' Hu'. destruct (Hl k u' Hu') as (u & Hu & -> & _). by apply (ko_uploads _ Hok).
  - intros k k' u u' Hu Hu' He. destruct (Hl k u Hu) as (v & Hv & _ & E), (Hl k' u' Hu') as (v' & Hv' & _ & E'). eapply (ko_keys _ Hok); [done..|congruence].
  - intros k u Hu Hr. rewrite update_at_lookup. case_bool_decide; [|eauto]. rewrite Hu. cbn. eexists. split; [done|].
    destruct (cond u) eqn:E; [|done]. destruct (Hs u E) as (_ & _ & H'). auto.
Qed.
Lemma ExpireUpload_ok id revision now d b d' : ExpireUpload id revision now d = Ok (b, d') → datasets_ok d → datasets_ok d'.
Proof.
  intros (n & s & H & [= _ <-])%tx_bind_Ok. eapply update_upload_ok; [|exact H]. intros u [_ [Hu _]%andb_true_iff]%andb_true_iff.
  apply bool_decide_eq_true in Hu. cbn. split_and!; [done|done|congruence].
Qed.

(** ** Datasets *)

Lemma update_dataset_effect id cond set d n d' : update_dataset id cond set d = Ok (n, d') →
  n = 0 ∧ d' = set_c_datasets (c_datasets d) (c_next_dataset d) d ∨
  n = 1 ∧ ∃ da, c_datasets d !! id = Some da ∧ cond da = true ∧ d' = set_c_datasets (<[id := set da]> (c_datasets d)) (c_next_dataset d) d.
Proof.
  unfold update_dataset. destruct (c_datasets d !! id) as [da|] eqn:E.
  - destruct (changes cond set da && _); [done|]. intros [= <- <-].
    destruct (update_at_affected id cond set (c_datasets d)) as [(-> & r & Hr & Hc & _ & E0)|(-> & E0 & _)]; [right|left; by rewrite E0].
    split; [done|]. exists r. split; [congruence|]. split; [done|]. by rewrite E0.
  - intros [= <- <-]. left. split; [done|]. by destruct d.
Qed.
Lemma update_dataset_all id set d n d' da : c_datasets d !! id = Some da → update_dataset id (λ _, true) (λ da, set da) d = Ok (n, d') →
  d' = set_c_datasets (<[id := set da]> (c_datasets d)) (c_next_dataset d) d.
Proof.
  intros Hda. unfold update_dataset. rewrite Hda. destruct (changes (λ _, true) set da && _) eqn:E; [done|]. intros [= _ <-].
  unfold update_at. rewrite Hda. destruct (changes (λ _, true) _ da) eqn:Ec; [done|]. cbn. unfold changes in Ec. cbn in Ec. apply negb_false_iff, bool_decide_eq_true in Ec.
  rewrite Ec, insert_id; [done|done].
Qed.
(** One dataset changes, nothing else. *)
Lemma put_dataset_ok d id da da' : datasets_ok d → c_datasets d !! id = Some da → dataset_ok d id da' →
  (∀ i, active i = true → ip_dataset i = id → serves i da → serves i da' ∨ ∀ k, c_imports d !! k ≠ Some i) →
  datasets_ok (set_c_datasets (<[id := da']> (c_datasets d)) (c_next_dataset d) d).
Proof.
  intros [Hn Hu Hk Hd Hi Hco Ha] Hda Hok' Hs. split; try done.
  - cbn. intros k x [[<- <-]|[Hne Hx]]%lookup_insert_Some.
    + destruct (Hd id da Hda) as [? _]. split; [done|]. eapply dataset_ok_same; [..|exact Hok']; done.
    + destruct (Hd k x Hx). split; [done|]. eapply dataset_ok_same; [..|done]; done.
  - intros k i Hii. destruct (Hi k i Hii) as [? Hok]. split; [done|]. eapply import_ok_extends; [|exact Hok|]; [split; cbn; eauto|].
    destruct Hok as [_ _ _ _ (x & Hx & Hserve)]. cbn. destruct (decide (ip_dataset i = id)) as [Heq|Hne].
    + rewrite Heq in *. rewrite Hda in Hx. injection Hx as <-. rewrite lookup_insert_eq. exists da'. split; [done|]. intros Hact.
      destruct (Hs i Hact Heq Hserve) as [Hv|Hv]; [by apply Hv|]. by destruct (Hv k).
    + rewrite lookup_insert_ne by done. eauto.
  - cbn. intros k [Hk' _]%lookup_insert_None. by apply Hco.
Qed.
Lemma UpdateMetadata_effect requester id revision name description now d u d' : UpdateMetadata requester id revision name description now d = Ok (u, d') →
  ∃ b da, c_datasets d !! id = Some da ∧ da_revision da = revision ∧ da_status da ≠ DatasetArchived ∧
    d' = set_c_base b (set_c_datasets (<[id := set_metadata (UserID (Effective requester)) (trim_space name) (trim_space description) da]> (c_datasets d)) (c_next_dataset d) d).
Proof.
  unfold UpdateMetadata. destruct (_ || _ || _); [done|]. intros (n & s & Hu & H)%tx_bind_Ok.
  apply update_dataset_effect in Hu as [[-> ->]|(-> & da & Hda & Hc & ->)]; [done|]. cbn [Z.eqb Pos.eqb negb] in H.
  apply appendAudit_effect in H as [b ->]. apply andb_true_iff in Hc as [Hr%Z.eqb_eq Hs%negb_true_iff%bool_decide_eq_false]. eauto 10.
Qed.
Lemma UpdateMetadata_ok requester id revision name description now d u d' : datasets_ok d →
  UpdateMetadata requester id revision name description now d = Ok (u, d') → datasets_ok d'.
Proof.
  intros Hok (b & da & Hda & _ & _ & ->)%UpdateMetadata_effect. apply base_ok'. eapply put_dataset_ok; [done|done| |].
  - destruct (ko_datasets _ Hok id da Hda) as [_ []]. by split.
  - intros i _ _ Hs. by left.
Qed.
Lemma Archive_effect requester id revision now d u d' : Archive requester id revision now d = Ok (u, d') →
  ∃ b da, c_datasets d !! id = Some da ∧ da_revision da = revision ∧ da_status da ≠ DatasetArchived ∧
    (∀ k i, c_imports d !! k = Some i → ip_dataset i = id → active i = false) ∧
    d' = set_c_base b (set_c_datasets (<[id := set_archived (UserID (Effective requester)) now da]> (c_datasets d)) (c_next_dataset d) d).
Proof.
  unfold Archive. intros (busy & s & [= <- <-] & H)%tx_bind_Ok. apply tx_bind_Ok in H as (n & s & Hu & H).
  apply update_dataset_effect in Hu as [[-> ->]|(-> & da & Hda & Hc & ->)]; [done|]. cbn [Z.eqb Pos.eqb negb] in H.
  apply appendAudit_effect in H as [b ->]. apply andb_true_iff in Hc as [[Hr%Z.eqb_eq Hs%negb_true_iff%bool_decide_eq_false]%andb_true_iff Hb%negb_true_iff].
  exists b, da. split_and!; try done. intros k i Hi Hd. rewrite exists_row_false in Hb. specialize (Hb k i Hi). unfold of_dataset in Hb.
  by rewrite Hd, Z.eqb_refl in Hb.
Qed.
Lemma Archive_ok requester id revision now d u d' : datasets_ok d → Archive requester id revision now d = Ok (u, d') → datasets_ok d'.
Proof.
  intros Hok (b & da & Hda & _ & _ & Hidle & ->)%Archive_effect. apply base_ok'. eapply put_dataset_ok; [done|done| |].
  - destruct (ko_datasets _ Hok id da Hda) as [_ [? ? ? Hst]]. split; try done. cbn. destruct (da_generation da); [by destruct Hst as (_ & ?)|by destruct Hst as (_ & ?)].
  - intros i Hact Hd _. right. intros k Hk. by rewrite (Hidle k i Hk Hd) in Hact.
Qed.

(** ** Publication *)

Definition published_dataset (i : Import) (g rows : Z) (now : instant) (da : Dataset) : Dataset :=
  if (ip_mode i =? ModeReplace)%string then set_replaced g rows (ip_user i) now da else set_appended rows (ip_user i) da.
Record publication (job : Import) (owner : string) (rows : Z) (now : instant) (i : Import) (da : Dataset) (g : Z) (d d' : cdb) : Prop := {
  pb_import : c_imports d !! ip_id job = Some i;
  pb_owned : ip_status i = ImportRunning ∧ ip_owner i = Some owner ∧ ip_attempt i = ip_attempt job;
  pb_dataset : c_datasets d !! ip_dataset job = Some da;
  pb_generation : ip_generation i = Some g;
  pb_schema : ip_schema i = da_schema da;
  pb_live : da_status da ≠ DatasetArchived;
  pb_append : ip_mode i = ModeAppend → da_generation da = Some g ∧ da_status da = DatasetActive;
  pb_limit : ip_mode i ≠ ModeReplace → da_rows da <= remaining rows;
  pb_state : ∃ b, d' = set_c_base b (set_c_datasets (<[da_id da := published_dataset i g rows now da]> (c_datasets d)) (c_next_dataset d)
    (set_c_imports (<[ip_id job := import_succeeded rows now i]> (c_imports d)) (c_next_import d) d)) }.
Lemma publish_dataset_effect i da g rows now d u d' : c_datasets d !! da_id da = Some da → publish_dataset i da g rows now d = Ok (u, d') →
  (ip_mode i ≠ ModeReplace → da_rows da <= remaining rows) ∧
  d' = set_c_datasets (<[da_id da := published_dataset i g rows now da]> (c_datasets d)) (c_next_dataset d) d.
Proof.
  intros Hda. unfold publish_dataset, published_dataset. destruct (String.eqb_spec (ip_mode i) ModeReplace) as [Hm|Hm].
  - intros (n & s & H & [= _ <-])%tx_bind_Ok. split; [done|]. by eapply update_dataset_all in H.
  - destruct (Z.ltb_spec (remaining rows) (da_rows da)); [done|]. intros (n & s & Hu & [= _ <-])%tx_bind_Ok. split; [done|].
    by eapply update_dataset_all in Hu.
Qed.
Lemma Publish_effect job owner rows now d u d' : (∀ id da, c_datasets d !! id = Some da → da_id da = id) → Publish job owner rows now d = Ok (u, d') →
  ∃ i da g, publication job owner rows now i da g d d'.
Proof.
  intros Hkey. unfold Publish. intros (f & s & [= <- <-] & H)%tx_bind_Ok. apply tx_bind_Ok in H as (x & s & [= <- <-] & H).
  destruct (c_imports d !! ip_id job) as [i|] eqn:Ei; [|done]. destruct (c_datasets d !! ip_dataset job) as [da|] eqn:Ed; [|done].
  destruct (ip_generation i) as [g|] eqn:Eg; [|done]. destruct (publishable job i owner da) eqn:Ep; [|done]. cbn [negb] in H.
  unfold publishable in Ep. rewrite !andb_true_iff, owns_true, Z.eqb_eq, negb_true_iff, bool_decide_eq_false in Ep. destruct Ep as [[[Ho Hs] Hl] _].
  destruct (_ && _) eqn:Ea in H; [done|]. apply tx_bind_Ok in H as (n & s & Hu & H). injection Hu as Hn <-.
  destruct (Z.eqb_spec n 1) as [->|]; [|done]. cbn [negb] in H.
  destruct (update_at_affected (ip_id job) (owns owner (ip_attempt job)) (import_succeeded rows now) (c_imports d)) as [(_ & i' & Hi' & _ & _ & E)|(E & _)]; [|congruence].
  rewrite Ei in Hi'. injection Hi' as <-. rewrite E in H. apply tx_bind_Ok in H as (x & s & Hp & H).
  assert (Hid : da_id da = ip_dataset job) by (by apply Hkey). apply publish_dataset_effect in Hp as [Hlim ->]; [|cbn; by rewrite Hid].
  apply tx_bind_Ok in H as (y & s & (b & ->)%appendSystemAudit_effect & H).
  exists i, da, g. split; try done.
  - intros Hm. rewrite Hm in Ea. cbn [String.eqb Ascii.eqb Bool.eqb ModeAppend andb] in Ea. apply orb_false_iff in Ea as [H1%negb_false_iff H2%negb_false_iff].
    by rewrite bool_decide_eq_true in H1, H2.
  - destruct (bool_decide (da_status da = DatasetProvisioning)).
    + apply appendSystemAudit_effect in H as [b' ->]. by exists b'.
    + injection H as _ <-. by exists b.
Qed.

Lemma total_zero {R} (f : R → Z) (t : gmap Z R) : (∀ k r, t !! k = Some r → f r = 0) → total f t = 0.
Proof.
  induction t as [|k r t Hk IH] using map_ind; intros H; [done|]. rewrite total_new by done. rewrite (H k r) by apply lookup_insert_eq.
  rewrite IH; [done|]. intros j x Hj. apply (H j). rewrite lookup_insert_ne; [done|]. intros ->. congruence.
Qed.
Lemma shown_0 ds g i : ip_status i ≠ ImportSucceeded → shown ds g i = 0.
Proof. intros H. unfold shown. by rewrite (bool_decide_eq_false_2 (ip_status i = _)), andb_false_r by done. Qed.
Lemma shown_staged ds g i : ip_dataset i = ds → ip_status i = ImportSucceeded → ip_generation i = Some g → shown ds g i = ip_staged i.
Proof. intros <- Hs Hg. unfold shown. by rewrite Z.eqb_refl, !bool_decide_true. Qed.
Lemma shown_other ds g i : ip_dataset i ≠ ds ∨ ip_generation i ≠ Some g → shown ds g i = 0.
Proof.
  intros [H|H]; unfold shown; [by rewrite (proj2 (Z.eqb_neq _ _) H)|]. by rewrite (bool_decide_eq_false_2 (ip_generation i = _)), andb_false_r.
Qed.
(** A generation whose import has not succeeded shows nothing. *)
Lemma total_unpublished d ds id i : datasets_ok d → c_imports d !! id = Some i → ip_status i ≠ ImportSucceeded → total (shown ds id) (c_imports d) = 0.
Proof.
  intros Hok Hi Hs. apply total_zero. intros k j Hj. destruct (decide (ip_status j = ImportSucceeded)) as [Hjs|]; [|by apply shown_0].
  apply shown_other. right. intros Hg. destruct (ko_imports _ Hok k j Hj) as [_ [Hid _ _ Hgen _]]. unfold generation_ok in Hgen.
  destruct (ip_mode j =? ModeReplace)%string; [congruence|]. destruct Hgen as (_ & g & j' & Hg' & Hj' & _ & _ & Hs'). congruence.
Qed.
Lemma remaining_small rows : 0 <= rows <= MaxDataRows → remaining rows = MaxDataRows - rows.
Proof. intros H. unfold remaining. apply Z.mod_small. unfold MaxDataRows in *. lia. Qed.

Section Published.
Context (d d' : cdb) (job i : Import) (da : Dataset) (owner : string) (rows g : Z) (now : instant).
Hypotheses (Hok : datasets_ok d) (Hjob : of_claim d job) (Hrows : 0 <= rows <= MaxDataRows) (Hp : publication job owner rows now i da g d d').
Let i' := import_succeeded rows now i.
Let da' := published_dataset i g rows now da.

Lemma published_import : ip_id i = ip_id job ∧ ip_dataset i = ip_dataset job ∧ da_id da = ip_dataset i ∧ active i = true.
Proof using Hok Hjob Hp.
  destruct Hjob as (x & Hx & Hid & Hds & _). rewrite (pb_import _ _ _ _ _ _ _ _ _ Hp) in Hx. injection Hx as <-.
  destruct (ko_datasets _ Hok _ _ (pb_dataset _ _ _ _ _ _ _ _ _ Hp)) as [_ [Hda _ _ _]]. destruct (pb_owned _ _ _ _ _ _ _ _ _ Hp) as (Hr & _).
  split_and!; [done|done|congruence|]. apply active_spec. auto.
Qed.
Lemma published_mode : (ip_mode i = ModeReplace ∧ g = ip_id i) ∨
  (ip_mode i = ModeAppend ∧ (ip_mode i =? ModeReplace)%string = false ∧ g ≠ ip_id i ∧ da_generation da = Some g ∧ da_status da = DatasetActive).
Proof using Hok Hp.
  destruct (ko_imports _ Hok _ _ (pb_import _ _ _ _ _ _ _ _ _ Hp)) as [_ [Hid _ _ Hg _]]. unfold generation_ok in Hg.
  rewrite (pb_generation _ _ _ _ _ _ _ _ _ Hp) in Hg. destruct (String.eqb_spec (ip_mode i) ModeReplace) as [Hm|Hm]; [left; split; congruence|right].
  destruct Hg as (Ha & g' & j & [= <-] & Hj & _ & _ & Hs). destruct (pb_append _ _ _ _ _ _ _ _ _ Hp Ha). split_and!; try done.
  intros ->. rewrite Hid, (pb_import _ _ _ _ _ _ _ _ _ Hp) in Hj. injection Hj as <-. destruct (pb_owned _ _ _ _ _ _ _ _ _ Hp). congruence.
Qed.
Lemma published_lookups : c_imports d' = <[ip_id i := i']> (c_imports d) ∧ c_datasets d' = <[ip_dataset i := da']> (c_datasets d) ∧
  c_columns d' = c_columns d ∧ c_uploads d' = c_uploads d ∧ c_next_import d' = c_next_import d ∧ c_next_dataset d' = c_next_dataset d ∧
  c_next_upload d' = c_next_upload d ∧ same_tables d d'.
Proof using Hok Hjob Hp.
  destruct published_import as (Hid & Hds & Hda & _). destruct (pb_state _ _ _ _ _ _ _ _ _ Hp) as [b ->]. cbn. rewrite Hid, <- Hda. by split_and!.
Qed.
Lemma published_extends : extends d d'.
Proof using Hok Hjob Hp.
  destruct published_lookups as (Ei & Ed & Ec & Eu & _). split; [rewrite Eu; eauto|]. intros k j Hj Hs. rewrite Ei, lookup_insert_ne; [done|].
  destruct published_import as (Hid & _). intros <-. rewrite Hid, (pb_import _ _ _ _ _ _ _ _ _ Hp) in Hj. injection Hj as <-.
  destruct (pb_owned _ _ _ _ _ _ _ _ _ Hp). congruence.
Qed.
(** The rows a generation shows afterwards. *)
Lemma published_total ds g' : total (shown ds g') (c_imports d') = total (shown ds g') (c_imports d) + shown ds g' i'.
Proof using Hok Hjob Hp.
  destruct published_lookups as (Ei & _). destruct published_import as (Hid & _). destruct (pb_owned _ _ _ _ _ _ _ _ _ Hp) as (Hr & _).
  rewrite Ei, (total_put _ _ _ i) by (rewrite Hid; apply (pb_import _ _ _ _ _ _ _ _ _ Hp)). rewrite (shown_0 ds g' i) by congruence. lia.
Qed.
Lemma published_dataset_ok : dataset_ok d' (ip_dataset i) da'.
Proof using Hok Hjob Hp Hrows.
  destruct published_import as (Hid & Hds & Hda & _). destruct published_lookups as (Ei & Ed & Ec & _).
  destruct (ko_datasets _ Hok _ _ (pb_dataset _ _ _ _ _ _ _ _ _ Hp)) as [_ [Hdid Hcol Hdr Hst]]. rewrite <- Hds in Hcol, Hst.
  assert (Hnew : total (shown (ip_dataset i) g) (c_imports d') = total (shown (ip_dataset i) g) (c_imports d) + rows).
  { rewrite published_total, shown_staged; [done|done|done|apply (pb_generation _ _ _ _ _ _ _ _ _ Hp)]. }
  unfold da', published_dataset. destruct published_mode as [[Hm Hg]|(Hm & Hm' & Hg & Hgen & Hact)].
  - rewrite Hm. cbn [String.eqb Ascii.eqb Bool.eqb ModeReplace]. split; cbn; [done|by rewrite Ec|done|]. split; [done|].
    rewrite Hnew, Hg, (total_unpublished d _ (ip_id i) i Hok); [|rewrite Hid; apply (pb_import _ _ _ _ _ _ _ _ _ Hp)|destruct (pb_owned _ _ _ _ _ _ _ _ _ Hp); congruence].
    split; [lia|]. exists i'. rewrite Ei, lookup_insert_eq. by split_and!.
  - rewrite Hm'. pose proof (pb_limit _ _ _ _ _ _ _ _ _ Hp) as Hlim. rewrite remaining_small in Hlim by done.
    assert (Hne : ip_mode i ≠ ModeReplace) by (rewrite Hm; done). specialize (Hlim Hne). rewrite Hgen in Hst. destruct Hst as (Hs & Hr & j & Hj & Hjd & Hjm & Hjs).
    split; cbn; [done|by rewrite Ec|lia|]. rewrite Hgen. split; [done|]. split; [by rewrite Hnew, <- Hr|]. exists j.
    split; [by apply (ex_imports _ _ published_extends)|done].
Qed.
Lemma published_ok : datasets_ok d'.
Proof using Hok Hjob Hp Hrows.
  destruct published_import as (Hid & Hds & Hda & Hact). destruct published_lookups as (Ei & Ed & Ec & Eu & Eni & End & Enu & _).
  pose proof published_extends as He. pose proof Hok as [Hn Hu Hk Hd Hi Hco Ha]. pose proof (pb_import _ _ _ _ _ _ _ _ _ Hp) as Hrow. rewrite <- Hid in Hrow.
  split; rewrite ?Eni, ?End, ?Enu, ?Eu; try done.
  - intros id x. rewrite Ed. intros [[<- <-]|[Hne Hx]]%lookup_insert_Some.
    + destruct (Hd _ _ (pb_dataset _ _ _ _ _ _ _ _ _ Hp)) as [? _]. split; [congruence|apply published_dataset_ok].
    + destruct (Hd id x Hx) as [? [Hxid Hcol Hxr Hst]]. split; [done|]. split; [done|by rewrite Ec|done|]. destruct (da_generation x) as [g'|].
      * destruct Hst as (Hs & Hr & j & Hj & Hjs). split; [done|]. rewrite published_total, shown_other by (by left). split; [lia|].
        exists j. split; [|done]. apply (ex_imports _ _ He); [done|apply Hjs].
      * destruct Hst as (Hs & Hr & Hnone). split_and!; [done|done|]. intros k j. rewrite Ei. intros [[<- <-]|[_ Hj]]%lookup_insert_Some Hjd Hjs; [|by eapply Hnone].
        by cbn in Hjd.
  - intros id x. rewrite Ei. intros [[<- <-]|[Hne Hx]]%lookup_insert_Some.
    + destruct (Hi _ _ Hrow) as [? [_ Hup Hst Hg Hdat]]. split; [done|]. split; cbn; [done|by rewrite Eu| | |].
      * destruct Hst as (? & ? & Hst). destruct (pb_owned _ _ _ _ _ _ _ _ _ Hp) as (Hr & _). rewrite Hr in Hst. unfold import_state. cbn. intuition eauto.
      * eapply generation_extends in Hg; [|exact He]. exact Hg.
      * exists da'. by rewrite Ed, lookup_insert_eq.
    + destruct (Hi id x Hx) as [? Hxo]. split; [done|]. eapply import_ok_extends; [done|done|]. destruct Hxo as [Hxid _ _ _ (dx & Hdx & Hserve)]. rewrite Ed.
      destruct (decide (ip_dataset x = ip_dataset i)) as [Heq|Hdne].
      * rewrite Heq, lookup_insert_eq. exists da'. split; [done|]. intros Hxa. by destruct Hne; eapply (Ha _ _ i x).
      * rewrite lookup_insert_ne by done. eauto.
  - rewrite Ed, Ec. intros id [Hx _]%lookup_insert_None. by apply Hco.
  - intros k k' x x'. rewrite Ei. intros [[<- <-]|[Hne Hx]]%lookup_insert_Some [[<- <-]|[Hne' Hx']]%lookup_insert_Some; [done|done|done|by apply Ha].
Qed.
End Published.

(** ** Submission *)

Lemma replaceColumns_effect dataset columns d u d' : replaceColumns dataset columns d = Ok (u, d') → columns ≠ [] →
  d' = set_c_columns (<[dataset := default [] (c_columns d !! dataset) ++ columns]> (c_columns d)) d.
Proof.
  revert d u d'. induction columns as [|c columns IH]; intros d u d' H Hne; [done|]. cbn [replaceColumns] in H.
  apply tx_bind_Ok in H as (x & s & Hc & H). unfold insert_column in Hc. destruct (existsb _ _); [done|]. destruct (negb _); [done|]. destruct (negb _); [done|].
  injection Hc as _ <-. destruct columns as [|c' columns].
  - by injection H as _ <-.
  - apply IH in H; [|done]. rewrite H. cbn. rewrite lookup_insert_eq. cbn. rewrite insert_insert_eq, <- app_assoc. done.
Qed.
Lemma count_0 {R} `{EqDecision R} (cond : R → bool) (t : gmap Z R) : count cond t = 0 → ∀ k r, t !! k = Some r → cond r = false.
Proof.
  intros H k r Hk. destruct (cond r) eqn:E; [|done]. assert (0 < count cond t); [|lia]. apply count_pos. eauto.
Qed.

(** The dataset a submission is for, and the state it is found or made in. *)
Inductive submit_target (user : Z) (input : Submission) (d : cdb) : Dataset → cdb → Prop :=
  | target_new : su_dataset input = 0 →
      let da := new_dataset user (trim_space (su_name input)) (trim_space (su_description input)) (c_next_dataset d) in
      submit_target user input d da
        (set_c_columns (<[da_id da := default [] (c_columns d !! da_id da) ++ su_columns input]> (c_columns d))
          (set_c_datasets (<[da_id da := da]> (c_datasets d)) (da_id da + 1) d))
  | target_revised da name description : su_dataset input ≠ 0 → c_datasets d !! su_dataset input = Some da → da_revision da = su_revision input →
      da_status da = DatasetProvisioning → da_generation da = None →
      (∀ k i, c_imports d !! k = Some i → ip_dataset i = da_id da → ip_status i ≠ ImportSucceeded ∧ active i = false) →
      submit_target user input d (set_revised user name description da)
        (set_c_columns (<[da_id da := su_columns input]> (c_columns d)) (set_c_datasets (<[da_id da := set_revised user name description da]> (c_datasets d)) (c_next_dataset d) d))
  | target_active da : su_dataset input ≠ 0 → c_datasets d !! su_dataset input = Some da → da_revision da = su_revision input →
      da_status da = DatasetActive → sameColumns (Columns (da_id da) d) (su_columns input) = true →
      submit_target user input d da d.
Lemma submit_dataset_effect requester input d da s : su_columns input ≠ [] → (∀ id da, c_datasets d !! id = Some da → da_id da = id) →
  submit_dataset requester input d = Ok (da, s) → submit_target (UserID (Effective requester)) input d da s.
Proof.
  intros Hne Hkey. unfold submit_dataset. destruct (Z.eqb_spec (su_dataset input) 0) as [Hz|Hz].
  - intros (id & s1 & Hi & H)%tx_bind_Ok. unfold insert_dataset in Hi. destruct (negb _); [done|]. injection Hi as <- <-.
    apply tx_bind_Ok in H as (u & s2 & Hc & [= <- <-]). apply replaceColumns_effect in Hc as ->; [|done]. by apply target_new.
  - intros (f & s1 & [= <- <-] & H)%tx_bind_Ok. destruct (c_datasets d !! su_dataset input) as [x|] eqn:Ex; [|done]. apply Hkey in Ex as Hid.
    case_bool_decide as Har; [done|]. destruct (Z.eqb_spec (su_revision input) (da_revision x)) as [Hr|]; [|done]. cbn [negb] in H.
    case_bool_decide as Hp.
    + apply tx_bind_Ok in H as (n1 & s1 & [= <- <-] & H). apply tx_bind_Ok in H as (n2 & s1 & [= <- <-] & H).
      destruct (_ || isSome _) eqn:Es; [done|]. apply orb_false_iff in Es as [Es%negb_false_iff%Z.eqb_eq Eg].
      destruct (negb (count (of_dataset (da_id x) is_active) (c_imports d) =? 0)) eqn:Ea; [done|]. apply negb_false_iff, Z.eqb_eq in Ea.
      apply tx_bind_Ok in H as (n & s2 & Hu & H). rewrite Hid in Hu. eapply (update_dataset_all (su_dataset input) (λ _, _)) in Hu; [|done]. rewrite <- Hid in Hu. subst s2.
      apply tx_bind_Ok in H as (u & s3 & [= _ <-] & H). apply tx_bind_Ok in H as (u2 & s4 & Hc & [= <- <-]).
      apply replaceColumns_effect in Hc as ->; [|done]. cbn. rewrite lookup_delete_eq. cbn.
      assert (Hidle : ∀ k i, c_imports d !! k = Some i → ip_dataset i = da_id x → ip_status i ≠ ImportSucceeded ∧ active i = false).
      { intros k i Hi Hd. pose proof (count_0 _ _ Es k i Hi) as H1. pose proof (count_0 _ _ Ea k i Hi) as H2. unfold of_dataset in H1, H2.
        rewrite Hd, Z.eqb_refl in H1, H2. split; [by apply bool_decide_eq_false in H1|done]. }
      assert (Hg : da_generation x = None) by (by destruct (da_generation x)). clear Eg.
      assert (Hins : ∀ y, set_c_columns (<[da_id x := su_columns input]> (delete (da_id x) (c_columns d)))
        (set_c_columns (delete (da_id x) (c_columns d)) (set_c_datasets (<[da_id x := y]> (c_datasets d)) (c_next_dataset d) d)) =
        set_c_columns (<[da_id x := su_columns input]> (c_columns d)) (set_c_datasets (<[da_id x := y]> (c_datasets d)) (c_next_dataset d) d)).
      { intros y. unfold set_c_columns. cbn. by rewrite insert_delete_eq. }
      rewrite Hins. by destruct (trim_space (su_name input) =? "")%string; apply target_revised.
    + destruct (_ && _); [done|]. apply tx_bind_Ok in H as (c & s1 & [= <- <-] & H). destruct (sameColumns _ _) eqn:Es; [|done].
      injection H as <- <-. apply target_active; try done. by destruct (da_status x).
Qed.

(** The upload a submission may use. *)
Definition usable (user : Z) (input : Submission) (da : Dataset) (now : instant) (d : cdb) (u : Upload) : Prop :=
  (up_status u = UploadUploaded ∧ up_user u = user ∧ ∃ at_, up_expires u = Some at_ ∧ now < at_) ∨
  (up_status u = UploadRetained ∧ su_dataset input ≠ 0 ∧ da_status da = DatasetProvisioning ∧
    ∃ k i, c_imports d !! k = Some i ∧ ip_upload i = su_upload input ∧ ip_dataset i = da_id da).
Lemma submit_upload_effect requester input da now d u d' : submit_upload requester input (su_dataset input =? 0) da now d = Ok (u, d') →
  d' = d ∧ ∃ up, c_uploads d !! su_upload input = Some up ∧ usable (UserID (Effective requester)) input da now d up.
Proof.
  unfold submit_upload. intros (f & s & [= <- <-] & H)%tx_bind_Ok. destruct (c_uploads d !! su_upload input) as [up|]; [|done]. unfold usable.
  destruct (up_status up) eqn:Es; [| |done].
  - destruct (_ || _) eqn:E; [done|]. injection H as _ <-. split; [done|]. exists up. split; [done|]. left. split; [done|].
    apply orb_false_iff in E as [Hu%negb_false_iff%Z.eqb_eq Ha%negb_false_iff]. split; [done|]. unfold after in Ha. destruct (up_expires up) as [at_|]; [|done].
    exists at_. split; [done|by apply Z.ltb_lt].
  - destruct (_ || _) eqn:E; [done|]. apply orb_false_iff in E as [Hz%Z.eqb_neq Hp%negb_false_iff%bool_decide_eq_true].
    apply tx_bind_Ok in H as (n & s & [= <- <-] & H). destruct (_ =? 0) eqn:Ec; [done|]. injection H as _ <-. split; [done|]. exists up. split; [done|]. right.
    split_and!; try done. apply Z.eqb_neq in Ec. pose proof (count_nonneg (λ i, (ip_upload i =? su_upload input) && (ip_dataset i =? da_id da)) (c_imports d)).
    assert (Hpos : 0 < count (λ i, (ip_upload i =? su_upload input) && (ip_dataset i =? da_id da)) (c_imports d)) by lia.
    apply count_pos in Hpos as (k & i & Hi & E).
    apply andb_true_iff in E as [E1%Z.eqb_eq E2%Z.eqb_eq]. by exists k, i.
Qed.
Definition retained (now : instant) (u : Upload) : Upload := if has_upload_status UploadUploaded u then set_retained now u else u.
Record submitted (requester : Requester) (input : Submission) (now : instant) (da : Dataset) (up : Upload) (g : Z) (s d d' : cdb) : Prop := {
  sm_valid : validateSubmission input = Ok tt;
  sm_user : UserID (Effective requester) ≠ 0;
  sm_target : submit_target (UserID (Effective requester)) input d da s;
  sm_upload : c_uploads d !! su_upload input = Some up;
  sm_usable : usable (UserID (Effective requester)) input da now s up;
  sm_idle : ∀ k i, c_imports d !! k = Some i → ip_dataset i = da_id da → active i = false;
  sm_check : import_check (new_import (UserID (Effective requester)) input da now (c_next_import d)) = true;
  sm_generation : if (su_mode input =? ModeAppend)%string then da_status da = DatasetActive ∧ da_generation da = Some g else g = c_next_import d;
  sm_state : ∃ b, d' = set_c_base b (set_c_uploads (<[su_upload input := retained now up]> (c_uploads d)) (c_next_upload d)
    (set_c_imports (<[c_next_import d := set_generation g (new_import (UserID (Effective requester)) input da now (c_next_import d))]> (c_imports d)) (c_next_import d + 1) s)) }.
Lemma target_frame user input d da s : submit_target user input d da s → c_uploads s = c_uploads d ∧ c_next_upload s = c_next_upload d ∧
  c_imports s = c_imports d ∧ c_next_import s = c_next_import d ∧ c_base s = c_base d ∧ same_tables d s.
Proof. by destruct 1. Qed.
Lemma retain_upload_effect id now d u d' up : c_uploads d !! id = Some up → up_status up ≠ UploadExpired → retain_upload id now d = Ok (u, d') →
  d' = set_c_uploads (<[id := retained now up]> (c_uploads d)) (c_next_upload d) d.
Proof.
  intros Hup Hne. unfold retain_upload, retained. intros (n & s & H & H')%tx_bind_Ok. injection H as Hn <-.
  destruct (update_at_affected id (has_upload_status UploadUploaded) (set_retained now) (c_uploads d)) as [(E & r & Hr & Hc & _ & E1)|(E & E1 & Hs)]; rewrite E in Hn; subst n.
  - injection H' as _ <-. rewrite E1. rewrite Hup in Hr. injection Hr as <-. by rewrite Hc.
  - cbn [Z.eqb] in H'. apply tx_bind_Ok in H' as (f & s & [= <- <-] & H'). rewrite E1 in H'. cbn in H'. rewrite Hup in H'.
    destruct (has_upload_status UploadRetained up) eqn:Er; [|done]. injection H' as _ <-. destruct (has_upload_status UploadUploaded up) eqn:Eu.
    + exfalso. apply bool_decide_eq_true in Er, Eu. congruence.
    + by rewrite insert_id.
Qed.
Lemma audit_submission_effect requester input created da id now d u d' : audit_submission requester input created da id now d = Ok (u, d') → ∃ b, d' = set_c_base b d.
Proof.
  unfold audit_submission. intros (u1 & s & H1 & (b & ->)%appendAudit_effect)%tx_bind_Ok. assert (Hs : ∃ b', s = set_c_base b' d).
  { destruct created; [by apply appendAudit_effect in H1|]. destruct (bool_decide _); [by apply appendAudit_effect in H1|]. injection H1 as _ <-. exists (c_base d). by destruct d. }
  destruct Hs as [b' ->]. by exists b.
Qed.
Lemma update_generation id g i t next d : ip_generation i = None →
  update_import id (λ _, true) (set_generation g) (set_c_imports (<[id := i]> t) next d) = Ok (1, set_c_imports (<[id := set_generation g i]> t) next d).
Proof.
  intros Hi. unfold update_import, update_at. cbn [c_imports set_c_imports]. rewrite lookup_insert_eq.
  assert (Hch : changes (λ _, true) (set_generation g) i = true).
  { unfold changes. cbn [andb]. rewrite bool_decide_false; [done|]. intros E%(f_equal ip_generation). cbn in E. congruence. }
  rewrite Hch. cbn [fst snd]. by rewrite insert_insert_eq.
Qed.
Lemma Submit_effect requester input now d r d' : (∀ id da, c_datasets d !! id = Some da → da_id da = id) →
  Submit requester input now d = Ok (r, d') → ∃ da up g s, submitted requester input now da up g s d d' ∧
    c_datasets d' !! da_id da = Some r.1 ∧ c_imports d' !! c_next_import d = Some r.2.
Proof.
  intros Hkey. unfold Submit. intros (v & s0 & (v' & Hv & [= -> ->])%tx_lift_Ok & H)%tx_bind_Ok. destruct v'. destruct (Z.eqb_spec (UserID (Effective requester)) 0) as [|Hu0]; [done|].
  assert (Hne : su_columns input ≠ []). { intros E. unfold validateSubmission in Hv. rewrite E in Hv. cbn in Hv. by rewrite !orb_true_r in Hv. }
  apply tx_bind_Ok in H as (da & s & Ht & H). apply submit_dataset_effect in Ht; [|done|done].
  apply tx_bind_Ok in H as (u & s' & [-> (up & Hup & Hus)]%submit_upload_effect & H). destruct (target_frame _ _ _ _ _ Ht) as (Eu & Enu & Ei & Eni & Eb & _).
  apply tx_bind_Ok in H as (ins & s' & Hins & H). unfold tx_try, insert_import in Hins. rewrite Ei, Eni in Hins.
  destruct (active _ && exists_row _ _) eqn:Eact; [by injection Hins as <- <-|]. destruct (negb (_ && _ && _)); [by injection Hins as <- <-|].
  destruct (negb (import_check _)) eqn:Echk; [by injection Hins as <- <-|]. injection Hins as <- <-. apply negb_false_iff in Echk.
  assert (Eact' : exists_row (λ i', active i' && (ip_dataset i' =? da_id da)) (c_imports d) = false) by exact Eact. clear Eact; rename Eact' into Eact.
  apply tx_bind_Ok in H as (g & s' & Hg & H).
  assert (Hgen : s' = set_c_imports (<[c_next_import d := new_import (UserID (Effective requester)) input da now (c_next_import d)]> (c_imports d)) (c_next_import d + 1) s ∧
    if (su_mode input =? ModeAppend)%string then da_status da = DatasetActive ∧ da_generation da = Some g else g = c_next_import d).
  { destruct (su_mode input =? ModeAppend)%string; [|by injection Hg as <- <-]. destruct (da_status da); [done| |done]. destruct (da_generation da); [|done]. by injection Hg as <- <-. }
  clear Hg. destruct Hgen as [-> Hgen].
  rewrite (tx_bind_eq _ _ _ _ _ (update_generation (c_next_import d) g (new_import (UserID (Effective requester)) input da now (c_next_import d)) (c_imports d) (c_next_import d + 1) s eq_refl)) in H.
  apply tx_bind_Ok in H as (u2 & s' & Hr & H). eapply retain_upload_effect in Hr; [|cbn; exact Hup|]; cycle 1.
  { destruct Hus as [(-> & _)|(-> & _)]; done. }
  subst s'.
  apply tx_bind_Ok in H as (u3 & s' & (b & ->)%audit_submission_effect & H).
  apply tx_bind_Ok in H as (x & s' & [= <- <-] & H). apply tx_bind_Ok in H as (y & s' & [= <- <-] & H).
  apply tx_bind_Ok in H as (x & s' & (x' & Hx & [= -> ->])%tx_lift_Ok & H). apply tx_bind_Ok in H as (y & s' & (y' & Hy & [= -> ->])%tx_lift_Ok & H). injection H as <- <-.
  exists da, up, g, s. split.
  - split; try done.
    + by rewrite <- Eu.
    + intros k i Hi Hd. rewrite exists_row_false in Eact. specialize (Eact k i Hi). cbn in Eact. rewrite Hd, Z.eqb_refl, andb_true_r in Eact. done.
    + exists b. cbn. by rewrite Eu, Enu.
  - unfold Find, FindImport in Hx, Hy. cbn [fst snd]. split.
    + by destruct (c_datasets _ !! da_id da); [injection Hx as ->|].
    + by destruct (c_imports _ !! c_next_import d); [injection Hy as ->|].
Qed.

Lemma validateSubmission_columns input : validateSubmission input = Ok tt →
  su_columns input ≠ [] ∧ (length (su_columns input) <= MaxColumns)%nat ∧ validate_columns 0 ∅ (su_columns input) = Ok tt ∧
  (su_mode input = ModeReplace ∨ su_mode input = ModeAppend).
Proof.
  unfold validateSubmission. destruct (_ || _ || _ || _) eqn:E; [done|]. rewrite !orb_false_iff, Nat.eqb_neq, Nat.ltb_ge in E. destruct E as [[_ Hne] Hle].
  destruct (Rune (su_delimiter input)); [|done]. cbn [res_bind]. destruct (String.eqb_spec (su_mode input) ModeReplace) as [Hm|Hm].
  - cbn [negb andb]. destruct (_ && _); [done|]. intros Hv. split_and!; [by destruct (su_columns input)|done|done|by left].
  - destruct (String.eqb_spec (su_mode input) ModeAppend) as [Ha|]; [|done]. cbn [negb andb]. destruct (_ && _); [done|]. intros Hv.
    split_and!; [by destruct (su_columns input)|done|done|by right].
Qed.
Lemma dataset_ok_insert d d' n i id da : c_columns d' !! id = c_columns d !! id → c_imports d' = <[n := i]> (c_imports d) → c_imports d !! n = None →
  ip_status i ≠ ImportSucceeded → dataset_ok d id da → dataset_ok d' id da.
Proof.
  intros Hc Hi Hn Hs [Hid Hcol Hr Hst]. split; [done|by rewrite Hc|done|]. rewrite Hi. destruct (da_generation da) as [g|].
  - destruct Hst as (H1 & H2 & j & Hj & Hjs). split; [done|]. rewrite total_new, shown_0 by done. split; [done|]. exists j. split; [|done].
    rewrite lookup_insert_ne; [done|]. intros ->. congruence.
  - destruct Hst as (H1 & H2 & H3). split_and!; [done|done|]. intros k j [[<- <-]|[_ Hj]]%lookup_insert_Some Hd; [done|by eapply H3].
Qed.
Lemma columns_of_unknown d id : datasets_ok d → c_next_dataset d <= id → c_datasets d !! id = None ∧ c_columns d !! id = None ∧
  ∀ k i, c_imports d !! k = Some i → ip_dataset i ≠ id.
Proof.
  intros Hok Hid. assert (Hn : c_datasets d !! id = None).
  { destruct (c_datasets d !! id) eqn:E; [|done]. destruct (ko_datasets _ Hok id _ E). lia. }
  split_and!; [done|by apply (ko_columns _ Hok)|]. intros k i Hi <-. destruct (ko_imports _ Hok k i Hi) as [_ [_ _ _ _ (da & Hda & _)]]. congruence.
Qed.
Lemma target_dataset user input d da s : datasets_ok d → validateSubmission input = Ok tt → submit_target user input d da s →
  c_datasets s !! da_id da = Some da ∧ dataset_ok s (da_id da) da ∧ 0 < da_id da < c_next_dataset s ∧ c_next_dataset d <= c_next_dataset s ∧
  da_status da ≠ DatasetArchived ∧ (∀ k, k ≠ da_id da → c_datasets s !! k = c_datasets d !! k ∧ c_columns s !! k = c_columns d !! k) ∧
  (∀ k x, c_datasets d !! k = Some x → k < c_next_dataset s).
Proof.
  intros Hok (Hne & Hlen & Hv & _)%validateSubmission_columns Ht. pose proof (ko_next _ Hok) as (_ & Hn & _).
  assert (Hlt : ∀ k x, c_datasets d !! k = Some x → k < c_next_dataset d) by (intros k x Hk; destruct (ko_datasets _ Hok k x Hk); lia).
  destruct Ht as [Hz da'|da name description Hz Hda Hr Hs Hg Hidle|da Hz Hda Hr Hs Hsame].
  - destruct (columns_of_unknown d (c_next_dataset d) Hok ltac:(lia)) as (_ & Hc & Hi). cbn. rewrite Hc. cbn. split_and!; try lia; try done.
    + apply lookup_insert_eq.
    + split; cbn; [done| |unfold MaxDataRows; lia|].
      * exists (su_columns input). by rewrite lookup_insert_eq.
      * split_and!; [done|done|]. intros k i Hk Hd. by destruct (Hi k i Hk).
    + intros k Hk. by rewrite !lookup_insert_ne.
    + intros k x Hk. specialize (Hlt k x Hk). lia.
  - destruct (ko_datasets _ Hok _ _ Hda) as [Hrange [Hid _ Hrw Hst]]. rewrite Hg in Hst. destruct Hst as (H1 & H2 & H3). cbn. rewrite Hs. split_and!; try lia; try done.
    + apply lookup_insert_eq.
    + split; cbn; [done| |done|].
      * exists (su_columns input). by rewrite lookup_insert_eq.
      * rewrite Hg. split_and!; [by rewrite Hs|done|]. intros k i Hk Hd. by destruct (Hidle k i Hk Hd).
    + intros k Hk. by rewrite !lookup_insert_ne.
  - destruct (ko_datasets _ Hok _ _ Hda) as [Hrange Hdok]. pose proof (do_id _ _ _ Hdok) as Hid. rewrite Hid. split_and!; try lia; try done. by rewrite Hs.
Qed.
Lemma fresh_import d : datasets_ok d → c_imports d !! c_next_import d = None.
Proof. intros Hok. destruct (c_imports d !! c_next_import d) eqn:E; [|done]. destruct (ko_imports _ Hok _ _ E). lia. Qed.
Lemma retained_spec now u : up_status u ≠ UploadExpired → up_status (retained now u) = UploadRetained ∧ up_id (retained now u) = up_id u ∧ up_key (retained now u) = up_key u.
Proof. unfold retained, has_upload_status. case_bool_decide; [done|]. destruct (up_status u) eqn:E; done. Qed.
Lemma Submit_ok requester input now d r d' : datasets_ok d → Submit requester input now d = Ok (r, d') → datasets_ok d'.
Proof.
  intros Hok H. apply Submit_effect in H as (da & up & g & s & [Hv Hu Ht Hup Hus Hidle Hchk Hgen (b & ->)] & _ & _); [|intros id x Hx; by destruct (ko_datasets _ Hok id x Hx) as [_ []]].
  apply base_ok'. destruct (target_frame _ _ _ _ _ Ht) as (Eu & Enu & Ei & Eni & _ & _). destruct (target_dataset _ _ _ _ _ Hok Hv Ht) as (Hda & Hdok & Hrange & Hle & Hlive & Hother & Hlt).
  pose proof (fresh_import d Hok) as Hnone. destruct (retained_spec now up) as (Hrst & Hrid & Hrkey). { destruct Hus as [(-> & _)|(-> & _)]; done. }
  set (i := set_generation g (new_import (UserID (Effective requester)) input da now (c_next_import d))).
  set (d' := set_c_uploads _ _ _). pose proof Hok as [Hn Huk Hkk Hd Hi Hco Ha].
  assert (He : extends d d').
  { split; cbn.
    - intros id u Hx Hr. destruct (decide (id = su_upload input)) as [->|Hne]; [rewrite lookup_insert_eq; eauto|rewrite lookup_insert_ne by done; eauto].
    - intros id x Hx _. rewrite lookup_insert_ne; [done|]. congruence. }
  split; cbn.
  - destruct Hn as (? & ? & ?). lia.
  - intros id u [[<- <-]|[_ Hx]]%lookup_insert_Some; [|by apply Huk]. rewrite Hrid. by apply Huk.
  - intros id id' u u' [[<- <-]|[_ Hx]]%lookup_insert_Some [[<- <-]|[_ Hx']]%lookup_insert_Some Hk; try rewrite Hrkey in Hk; eauto.
  - intros id x Hx. assert (Hs : 0 < id < c_next_dataset s ∧ dataset_ok s id x); [|destruct Hs as [? Hs]; split; [done|]; eapply dataset_ok_insert; [..|exact Hs]; [done|cbn; by rewrite Ei|by rewrite Ei|done]].
    destruct (decide (id = da_id da)) as [->|Hne]; [rewrite Hda in Hx; by injection Hx as <-|]. destruct (Hother id Hne) as [E1 E2]. rewrite E1 in Hx.
    destruct (Hd id x Hx) as [? Hxok]. split; [specialize (Hlt id x Hx); lia|]. by eapply dataset_ok_same.
  - intros id x [[<- <-]|[Hne Hx]]%lookup_insert_Some.
    + split; [destruct Hn as (? & ? & ?); lia|]. split; cbn.
      * done.
      * exists (retained now up). by rewrite lookup_insert_eq.
      * split_and!; done.
      * unfold generation_ok. cbn. destruct (validateSubmission_columns _ Hv) as (_ & _ & _ & [Em|Em]); rewrite Em in Hgen |- *; cbn in Hgen |- *; [by rewrite Hgen|]. split; [done|].
        destruct Hgen as (Hact & Hg). pose proof (do_status _ _ _ Hdok) as Hst. rewrite Hg, Ei in Hst. destruct Hst as (_ & _ & j & Hj & Hjd & Hjm & Hjs).
        exists g, j. split_and!; try done. rewrite lookup_insert_ne; [done|]. congruence.
      * exists da. split; [done|]. intros _. split_and!; [done|done|]. intros Hm. rewrite Hm in Hgen. cbn in Hgen. by destruct Hgen.
    + destruct (Hi id x Hx) as [? Hxok]. split; [lia|]. eapply import_ok_extends; [exact He|exact Hxok|]. destruct Hxok as [_ _ _ _ (dx & Hdx & Hserve)]. cbn.
      destruct (decide (ip_dataset x = da_id da)) as [Heq|Hdne].
      * rewrite Heq. exists da. split; [done|]. intros Hact. by rewrite (Hidle id x Hx Heq) in Hact.
      * destruct (Hother _ Hdne) as [-> _]. eauto.
  - intros id Hx. destruct (decide (id = da_id da)) as [->|Hne]; [congruence|]. destruct (Hother id Hne) as [E1 ->]. apply Hco. by rewrite <- E1.
  - intros id id' x x' [[<- <-]|[_ Hx]]%lookup_insert_Some [[<- <-]|[_ Hx']]%lookup_insert_Some Hax Hax' Heq; [done| | |by eapply Ha].
    + cbn in Heq. by rewrite (Hidle id' x' Hx' (eq_sym Heq)) in Hax'.
    + cbn in Heq. by rewrite (Hidle id x Hx Heq) in Hax.
Qed.

(** ** What is kept *)

Definition import_kept (i i' : Import) : Prop :=
  same_import i i' ∧ ip_attempt i <= ip_attempt i' ∧ (active i = false → i' = i) ∧
  (ip_status i' = ImportRunning → ip_attempt i' = ip_attempt i → ip_status i = ImportRunning ∧ ip_owner i' = ip_owner i) ∧
  (ip_status i ≠ ImportRunning → ip_status i' = ImportSucceeded ∨ ip_status i' = ImportFailed → i' = i).
Definition dataset_kept (d d' : cdb) (id : Z) (da da' : Dataset) : Prop :=
  da_revision da <= da_revision da' ∧ (da_status da = DatasetArchived → da' = da) ∧ (da_status da = DatasetActive → da_status da' ≠ DatasetProvisioning) ∧
  (is_Some (da_generation da) → c_columns d' !! id = c_columns d !! id ∧ da_schema da' = da_schema da).
Definition upload_kept (u u' : Upload) : Prop := up_key u' = up_key u ∧ (up_status u = UploadRetained → up_status u' = UploadRetained).
Lemma import_kept_refl i : import_kept i i.
Proof. split_and!; [done..|lia|done|done|done]. Qed.
Lemma import_move_kept i i' : import_move i i' → import_kept i i'.
Proof.
  destruct 1 as [|owner now Hq _|now Hr|phase records staged Hr _|Hr|class message diagnostics truncated now Hr]; [apply import_kept_refl|..];
    (split; [by split_and!|]); cbn; (split_and!; [lia|intros [E|E]%active_false; congruence|first [done|intros; lia|intros; congruence]|]);
    intros; first [congruence|naive_solver congruence].
Qed.
Lemma dataset_kept_refl d d' id da : c_columns d' = c_columns d → dataset_kept d d' id da da.
Proof. intros Hc. split_and!; [lia|done|congruence|]. by rewrite Hc. Qed.
Lemma kept_intro d d' : (∀ id, c_imports d !! id ≠ None → option_Forall2 import_kept (c_imports d !! id) (c_imports d' !! id)) →
  (∀ id da, c_datasets d !! id = Some da → ∃ da', c_datasets d' !! id = Some da' ∧ dataset_kept d d' id da da') →
  (∀ id i, c_imports d !! id = Some i → active i = true → c_columns d' !! ip_dataset i = c_columns d !! ip_dataset i) →
  (∀ id u, c_uploads d !! id = Some u → ∃ u', c_uploads d' !! id = Some u' ∧ upload_kept u u') → kept d d'.
Proof.
  intros Hi Hd Hc Hu. split; [|done| |done].
  - intros id i Hx. specialize (Hi id). rewrite Hx in Hi. specialize (Hi ltac:(done)). inversion Hi as [? i' H E1 E2|]; subst. by exists i'.
  - intros id i Hx Ha i' _ _. by eapply Hc.
Qed.
Lemma kept_imports_same d d' : c_imports d' = c_imports d → ∀ id, c_imports d !! id ≠ None → option_Forall2 import_kept (c_imports d !! id) (c_imports d' !! id).
Proof. intros -> id _. destruct (c_imports d !! id); constructor. apply import_kept_refl. Qed.
Lemma kept_moves d d' : moves d d' → kept d d'.
Proof.
  intros (Hc & _ & Hm). apply kept_intro.
  - intros id _. specialize (Hm id). inversion Hm; constructor. by apply import_move_kept.
  - intros id da Hda. exists da. rewrite (sc_datasets _ _ Hc). split; [done|]. apply dataset_kept_refl, Hc.
  - by rewrite (sc_columns _ _ Hc).
  - intros id u Hu. exists u. rewrite (sc_uploads _ _ Hc). by split_and!.
Qed.
Lemma kept_upload d d' : c_imports d' = c_imports d → c_datasets d' = c_datasets d → c_columns d' = c_columns d →
  (∀ id u, c_uploads d !! id = Some u → ∃ u', c_uploads d' !! id = Some u' ∧ upload_kept u u') → kept d d'.
Proof.
  intros Hi Hd Hc Hu. apply kept_intro; [by apply kept_imports_same| | |done].
  - intros id da Hda. exists da. rewrite Hd. split; [done|]. by apply dataset_kept_refl.
  - by rewrite Hc.
Qed.
Lemma kept_dataset d b id da da' next : c_datasets d !! id = Some da → dataset_kept d d id da da' →
  kept d (set_c_base b (set_c_datasets (<[id := da']> (c_datasets d)) next d)).
Proof.
  intros Hda Hk. apply kept_intro; cbn; [by apply kept_imports_same| |done|].
  - intros k x Hx. destruct (decide (k = id)) as [->|Hne].
    + rewrite lookup_insert_eq. exists da'. split; [done|]. rewrite Hda in Hx. by injection Hx as <-.
    + rewrite lookup_insert_ne by done. exists x. split; [done|]. by apply dataset_kept_refl.
  - intros k u Hu. exists u. by split_and!.
Qed.
Lemma kept_published d d' job i da owner rows g now : datasets_ok d → of_claim d job → publication job owner rows now i da g d d' → kept d d'.
Proof.
  intros Hok Hjob Hp. destruct (published_import _ _ _ _ _ _ _ _ _ Hok Hjob Hp) as (Hid & Hds & Hda & Hact).
  destruct (published_lookups _ _ _ _ _ _ _ _ _ Hok Hjob Hp) as (Ei & Ed & Ec & Eu & _). pose proof (pb_import _ _ _ _ _ _ _ _ _ Hp) as Hrow.
  destruct (pb_owned _ _ _ _ _ _ _ _ _ Hp) as (Hr & _). rewrite <- Hid in Hrow. pose proof (pb_dataset _ _ _ _ _ _ _ _ _ Hp) as Hdrow. rewrite <- Hds in Hdrow.
  apply kept_intro.
  - intros k _. rewrite Ei. destruct (decide (k = ip_id i)) as [->|Hne].
    + rewrite lookup_insert_eq, Hrow. constructor. split; [by split_and!|]. cbn. split_and!; [lia|congruence|congruence|congruence].
    + rewrite lookup_insert_ne by done. destruct (c_imports d !! k); constructor. apply import_kept_refl.
  - intros k x Hx. rewrite Ed. destruct (decide (k = ip_dataset i)) as [->|Hne].
    + rewrite lookup_insert_eq. eexists. split; [done|]. rewrite Hdrow in Hx. injection Hx as <-. pose proof (pb_live _ _ _ _ _ _ _ _ _ Hp).
      unfold dataset_kept, published_dataset. rewrite Ec. destruct (ip_mode i =? ModeReplace)%string; cbn; split_and!; try lia; try done. congruence.
    + rewrite lookup_insert_ne by done. exists x. split; [done|]. by apply dataset_kept_refl.
  - by rewrite Ec.
  - intros k u Hu. exists u. rewrite Eu. by split_and!.
Qed.
Lemma kept_submitted d d' requester input now r : datasets_ok d → Submit requester input now d = Ok (r, d') → kept d d'.
Proof.
  intros Hok H. apply Submit_effect in H as (da & up & g & s & [Hv Hu Ht Hup Hus Hidle Hchk Hgen (b & ->)] & _ & _); [|intros id x Hx; by destruct (ko_datasets _ Hok id x Hx) as [_ []]].
  destruct (target_dataset _ _ _ _ _ Hok Hv Ht) as (Hda & _ & _ & _ & _ & Hother & _). pose proof (fresh_import d Hok) as Hnone.
  apply kept_intro; cbn.
  - intros k Hk. rewrite lookup_insert_ne by congruence. destruct (c_imports d !! k); constructor. apply import_kept_refl.
  - intros k x Hx. destruct (decide (k = da_id da)) as [->|Hne].
    + exists da. split; [done|]. unfold dataset_kept. cbn. destruct Ht as [Hz da'|da name description Hz Hrow Hr Hs Hg _|da Hz Hrow Hr Hs _].
      * cbn in Hx. destruct (columns_of_unknown d (c_next_dataset d) Hok ltac:(lia)) as (Hnx & _). congruence.
      * destruct (ko_datasets _ Hok _ _ Hrow) as [_ [Hid _ _ _]]. cbn in *. rewrite Hid, Hrow in Hx. injection Hx as <-. split_and!; [lia|congruence|congruence|].
        rewrite Hg. by intros [? ?].
      * destruct (ko_datasets _ Hok _ _ Hrow) as [_ [Hid _ _ _]]. rewrite Hid, Hrow in Hx. injection Hx as <-. split_and!; [lia|done|congruence|done].
    + destruct (Hother k Hne) as [E1 E2]. exists x. split; [by rewrite E1|]. split_and!; [lia|done|congruence|]. cbn. by rewrite E2.
  - intros k i Hi Ha. apply Hother. intros E. by rewrite (Hidle k i Hi E) in Ha.
  - intros k u Hx. destruct (decide (k = su_upload input)) as [->|Hne].
    + rewrite lookup_insert_eq. eexists. split; [done|]. rewrite Hup in Hx. injection Hx as <-. destruct (retained_spec now up) as (? & _ & ?); [destruct Hus as [(-> & _)|(-> & _)]; done|]. by split.
    + rewrite lookup_insert_ne by done. exists u. by split_and!.
Qed.

(** ** Every step *)

Lemma dataset_tx_effect op now d d' : datasets_ok d → op_allowed d op → dataset_tx op now d = Ok (tt, d') → datasets_ok d' ∧ kept d d' ∧ same_tables d d'.
Proof.
  intros Hok Hal H. assert (Hkd : ∀ id da, c_datasets d !! id = Some da → da_id da = id) by (intros id x Hx; by destruct (ko_datasets _ Hok id x Hx) as [_ []]).
  assert (Hki : ∀ id i, c_imports d !! id = Some i → ip_id i = id) by (intros id x Hx; by destruct (ko_imports _ Hok id x Hx) as [_ []]).
  assert (Hmoves : moves d d' → datasets_ok d' ∧ kept d d' ∧ same_tables d d').
  { intros Hm. split; [by eapply moves_ok, moves_quiet|]. split; [by apply kept_moves|]. by destruct Hm as (_ & ? & _). }
  destruct op as [requester file expires|id revision|requester input|requester id revision name description|requester id revision|owner locked|id owner attempt
    |id owner attempt phase records staged|staleAfter|job owner class message diagnostics truncated|job owner rows]; cbn [dataset_tx] in H;
    try (apply tx_bind_Ok in H as (x & s & H & [= ->])).
  - split; [by eapply CreateUpload_ok|]. apply CreateUpload_effect in H as (b & -> & Hfresh & _ & ->). split; [|done]. apply kept_upload; try done. cbn.
    intros id u Hu. exists u. rewrite lookup_insert_ne; [by split_and!|]. intros <-. destruct (ko_uploads _ Hok _ _ Hu). lia.
  - split; [by eapply ExpireUpload_ok|]. apply tx_bind_Ok in H as (n & s & [= _ <-] & [= _ <-]). split; [|done]. apply kept_upload; try done. cbn.
    intros k u Hu. rewrite update_at_lookup. case_bool_decide; [|by exists u]. rewrite Hu. cbn. eexists. split; [done|]. unfold upload_kept.
    destruct (_ && _) eqn:E; [|done]. cbn. apply andb_true_iff in E as [_ [E%bool_decide_eq_true _]%andb_true_iff]. split; [done|congruence].
  - split; [by eapply Submit_ok|]. split; [by eapply kept_submitted|]. destruct x as [da i]. apply Submit_effect in H as (da' & up & g & s & [_ _ Ht _ _ _ _ _ (b & ->)] & _ & _); [|done].
    destruct (target_frame _ _ _ _ _ Ht) as (_ & _ & _ & _ & _ & Hts). exact Hts.
  - split; [by eapply UpdateMetadata_ok|]. apply UpdateMetadata_effect in H as (b & da & Hda & Hr & Hl & ->). split; [|done]. apply (kept_dataset _ _ _ da); [done|].
    unfold dataset_kept. cbn. split_and!; [lia|done|congruence|done].
  - split; [by eapply Archive_ok|]. apply Archive_effect in H as (b & da & Hda & Hr & Hl & _ & ->). split; [|done]. apply (kept_dataset _ _ _ da); [done|].
    unfold dataset_kept. cbn. split_and!; [lia|done|done|done].
  - by eapply Hmoves, Claim_moves.
  - by eapply Hmoves, Heartbeat_moves.
  - by eapply Hmoves, Progress_moves.
  - by eapply Hmoves, RequeueStale_moves.
  - by eapply Hmoves, Fail_effect.
  - destruct Hal as [Hjob Hrows]. apply Publish_effect in H as (i & da & g & Hp); [|done]. split; [by eapply published_ok|]. split; [by eapply kept_published|].
    by eapply published_lookups.
Qed.

(** Everything that happens to the database: the operations, changes of the
    accounts, and the rows and views of the physical tables. *)
Inductive dataset_step (d : cdb) : cdb → Prop :=
  | step_operation op now d' : op_allowed d op → dataset_tx op now d = Ok (tt, d') → dataset_step d d'
  | step_accounts b : dataset_step d (set_c_base b d)
  | step_tables tables views : dataset_step d (set_c_views views (set_c_tables tables d)).
Inductive dataset_reachable : cdb → Prop :=
  | reachable_empty base : dataset_reachable (empty_cdb base)
  | reachable_step d d' : dataset_reachable d → dataset_step d d' → dataset_reachable d'.

Lemma empty_ok base : datasets_ok (empty_cdb base).
Proof. by split. Qed.
Lemma kept_same d d' : same_catalog d d' → c_imports d' = c_imports d → kept d d'.
Proof.
  intros Hc Hi. apply kept_intro; [by apply kept_imports_same| |by rewrite (sc_columns _ _ Hc)|].
  - intros id da Hda. exists da. rewrite (sc_datasets _ _ Hc). split; [done|]. apply dataset_kept_refl, Hc.
  - intros id u Hu. exists u. rewrite (sc_uploads _ _ Hc). by split_and!.
Qed.
Lemma dataset_step_effect d d' : datasets_ok d → dataset_step d d' → datasets_ok d' ∧ kept d d'.
Proof.
  intros Hok [op now s Hal H|b|tables views].
  - by destruct (dataset_tx_effect _ _ _ _ Hok Hal H) as (? & ? & _).
  - split; [by apply base_ok'|by apply kept_same].
  - split; [by apply (same_catalog_ok d)|by apply kept_same].
Qed.
Lemma dataset_reachable_ok d : dataset_reachable d → datasets_ok d.
Proof. induction 1 as [base|d d' _ IH Hs]; [apply empty_ok|]. by eapply dataset_step_effect. Qed.

