(* ===== verification/DatasetCsv.v ===== *)
(** * Custom dataset files (src/internal/customdataset/csv.go)

    The [encoding/csv] reader as [newReader] configures it (strict quotes,
    any number of fields), the detection of the delimiter, query names for
    headers, the preview with its inference of types, and [Stream], which
    converts the rows of a file and hands them on one by one.  [Stream]
    reads from what the reader returns: its records, and the error that ends
    them, if any. *)

From S2P Require Import Prelude Calendar Json Access AuditTrail Table Programs FixedPlans FixedCsv BrowserStore ReportParams DatasetStore Datasets.
From stdpp Require Import gmap sorting.

Open Scope Z_scope.

(** An error a worker meets: [InfrastructureError] is a type of its own. *)
Inductive failure := Fails (e : error) | InfrastructureError (reason : string).
#[export] Instance failure_eq_dec : EqDecision failure. Proof. solve_decision. Defined.
Definition invalid (detail : string) : failure := Fails (ErrInvalid detail).

(** ** The reader *)

Inductive parse_error := ErrBareQuote | ErrQuote.
#[export] Instance parse_error_eq_dec : EqDecision parse_error. Proof. solve_decision. Defined.
Definition parse_error_text (e : parse_error) : string :=
  match e with ErrBareQuote => "bare quote in non-quoted field" | ErrQuote => "extraneous or missing quote in quoted-field" end.

(** The fields of the record whose current line is [line] ([feed]: it ended
    with a line feed), [rest] being the text that follows; [field] is what
    was read of a quoted field, [None] at the start of a field. *)
Fixpoint strict_fields (fuel : nat) (comma : ascii) (field : option string) (line : string) (feed : bool) (rest : string) (fields : list string)
    : option (parse_error + list string * string) :=
  match fuel with
  | O => None
  | S fuel =>
      match field with
      | None =>
          let plain :=
            match cut_at comma line with
            | (value, Some more) =>
                if string_existsb (λ c, (c =? quote)%char) value then Some (inl ErrBareQuote)
                else strict_fields fuel comma None more feed rest (fields ++ [value])
            | (value, None) =>
                if string_existsb (λ c, (c =? quote)%char) value then Some (inl ErrBareQuote) else Some (inr (fields ++ [value], rest))
            end in
          match line with
          | String c line' => if (c =? quote)%char then strict_fields fuel comma (Some "") line' feed rest fields else plain
          | "" => plain
          end
      | Some value =>
          match cut_at quote line with
          | (text, Some more) =>
              let value := value +:+ text in
              match more with
              | "" => Some (inr (fields ++ [value], rest))
              | String c more' =>
                  if (c =? quote)%char then strict_fields fuel comma (Some (value +:+ String quote "")) more' feed rest fields
                  else if (c =? comma)%char then strict_fields fuel comma None more' feed rest (fields ++ [value])
                  else Some (inl ErrQuote)
              end
          | (text, None) =>
              match readLine rest with
              | None => Some (inl ErrQuote)
              | Some l => strict_fields fuel comma (Some (value +:+ text +:+ feed_text feed)) (line_text l) (line_feed l) (line_rest l) fields
              end
          end
      end
  end.

(** What [Read] returns one after the other: the records, and the error
    that ends them, [None] at the end of the text. *)
Fixpoint read_from (fuel : nat) (comma : ascii) (s : string) : option (list (list string) * option string) :=
  match fuel with
  | O => None
  | S fuel =>
      match readLine s with
      | None => Some ([], None)
      | Some l =>
          if (line_text l =? "")%string then read_from fuel comma (line_rest l) else
          match strict_fields (3 * S (String.length s)) comma None (line_text l) (line_feed l) (line_rest l) [] with
          | None => None
          | Some (inl e) => Some ([], Some (parse_error_text e))
          | Some (inr (fields, rest)) =>
              match read_from fuel comma rest with Some (records, stop) => Some (fields :: records, stop) | None => None end
          end
      end
  end.
Definition stripBOM (s : string) : string := match cut_prefix byte_order_mark s with Some rest => rest | None => s end.
Definition reader := (list (list string) * option string)%type.
Definition read_all (comma : ascii) (s : string) : reader := default ([], None) (read_from (S (String.length s)) comma s).
Definition newReader (source : string) (delimiter : Delimiter) : result reader :=
  let? value := Rune delimiter in Ok (read_all value (stripBOM source)).
(** The context ended, or a read failed, before record [n + 1]. *)
Definition interrupted (n : nat) (message : string) (r : reader) : reader :=
  if Nat.leb (length r.1) n then r else (take n r.1, Some message).

(** ** Texts *)

Definition ellipsis : string := string_of_codes [226; 128; 166]%N.
Fixpoint excerpt_from (maximum skip : nat) (s : string) : string :=
  match s with
  | "" => ""
  | String c s' =>
      match skip, maximum with
      | S skip, _ => String c (excerpt_from maximum skip s')
      | O, O => ellipsis
      | O, S maximum => String c (excerpt_from maximum (pred (utf8_width s)) s')
      end
  end.
Definition excerpt (value : string) (maximum : nat) : string := excerpt_from maximum 0 value.
(** [strings.EqualFold(value, target)], [target] in lower-case ASCII: the
    runes that fold to an ASCII letter are U+017F and U+212A besides. *)
Definition fold_rune (rune : string) : string :=
  match rune with
  | String c "" => String (to_lower c) ""
  | _ =>
      if (rune =? string_of_codes [197; 191]%N)%string then "s" else
      if (rune =? string_of_codes [226; 132; 170]%N)%string then "k" else rune
  end.
Definition EqualFold (value target : string) : bool := (string_concat (fold_rune <$> runes value) =? target)%string.
Definition validRecordUTF8 (record : list string) : bool := forallb ValidString record.
Definition allEmpty (record : list string) : bool := forallb (λ v, (v =? "")%string) record.

(** ** Query names *)

(** [unicode.ToLower] of a rune, when it is an ASCII letter or digit: the
    runes whose lower case is ASCII are U+0130 and U+212A besides. *)
Definition lower_alnum (rune : string) : option ascii :=
  match rune with
  | String c "" => let c := to_lower c in if is_lower c || is_digit c then Some c else None
  | _ =>
      if (rune =? string_of_codes [196; 176]%N)%string then Some "i"%char else
      if (rune =? string_of_codes [226; 132; 170]%N)%string then Some "k"%char else None
  end.
(** The builder, reversed, whether the last rune was a separator, and
    whether something did not fit. *)
Record name_builder := mkNameBuilder { nb_text : list ascii; nb_underscore : bool; nb_overflow : bool }.
Definition underscore : ascii := "_"%char.
Definition name_step (b : name_builder) (rune : string) : name_builder :=
  match lower_alnum rune with
  | Some c =>
      if Nat.ltb (length (nb_text b)) 64 then mkNameBuilder (c :: nb_text b) false (nb_overflow b) else mkNameBuilder (nb_text b) false true
  | None =>
      if negb (Nat.eqb (length (nb_text b)) 0) && negb (nb_underscore b) then
        if Nat.ltb (length (nb_text b)) 64 then mkNameBuilder (underscore :: nb_text b) true (nb_overflow b) else mkNameBuilder (nb_text b) true true
      else b
  end.
(** The leading characters that are underscores dropped. *)
Fixpoint drop_underscores (l : list ascii) : list ascii :=
  match l with c :: l' => if (c =? underscore)%char then drop_underscores l' else l | [] => [] end.
Definition trim_right (l : list ascii) : list ascii := rev (drop_underscores (rev l)).
Definition truncateASCII (value : list ascii) (maximum : nat) : list ascii :=
  if Nat.leb (length value) maximum then value else trim_right (take maximum value).
Definition chars (s : string) : list ascii := String.list_ascii_of_string s.
Definition text (l : list ascii) : string := String.string_of_list_ascii l.
(** [fmt.Sprintf("column_%03d", n)] *)
Definition column_default (n : Z) : list ascii := chars ("column_" +:+ (if n <? 10 then "00" else if n <? 100 then "0" else "") +:+ FormatInt n).
Definition base_name (reserved : string → bool) (number : Z) (header : string) : list ascii :=
  let b := foldl name_step (mkNameBuilder [] false false) (runes header) in
  let base := drop_underscores (rev (drop_underscores (nb_text b))) in
  let base := match base with [] => column_default number | c :: _ => if is_digit c then chars "column_" ++ base else base end in
  let base := if negb (nb_overflow b) && reserved (text base) then base ++ chars "_column" else base in
  truncateASCII base 64.
Definition numbered_name (base : list ascii) (collision : Z) : list ascii :=
  let suffix := underscore :: chars (FormatInt collision) in truncateASCII base (64 - length suffix) ++ suffix.
(** The loop over the collisions, from [collision] on. *)
Fixpoint free_name (fuel : nat) (used : list string) (base : list ascii) (collision : Z) : option string :=
  match fuel with
  | O => None
  | S fuel =>
      let name := text (numbered_name base collision) in
      if bool_decide (name ∈ used) then free_name fuel used base (collision + 1) else Some name
  end.
Definition unique_name (used : list string) (base : list ascii) : option string :=
  if bool_decide (text base ∈ used) then free_name (S (length used)) used base 2 else Some (text base).
Fixpoint query_names (reserved : string → bool) (number : Z) (used : list string) (headers : list string) : result (list string) :=
  match headers with
  | [] => Ok []
  | header :: headers =>
      if (trim_space header =? "")%string then Err (ErrInvalid ("header column " +:+ FormatInt number +:+ " is empty")) else
      match unique_name used (base_name reserved number header) with
      | None => Err (Errorf "unreachable")
      | Some name => let? names := query_names reserved (number + 1) (name :: used) headers in Ok (name :: names)
      end
  end.
Definition QueryNames (reserved : string → bool) (headers : list string) : result (list string) :=
  if Nat.eqb (length headers) 0 || Nat.ltb MaxColumns (length headers) then Err (ErrInvalid "header must contain 1 to 50 columns")
  else query_names reserved 1 [] headers.

(** ** Headers and values *)

Fixpoint normalize_columns (number : Z) (record : list string) : result (list string) :=
  match record with
  | [] => Ok []
  | value :: record =>
      let value := trim_space value in
      if (value =? "")%string then Err (ErrInvalid ("header column " +:+ FormatInt number +:+ " is empty")) else
      let? header := normalize_columns (number + 1) record in Ok (value :: header)
  end.
Definition normalizeHeader (record : list string) : result (list string) :=
  if Nat.eqb (length record) 0 || Nat.ltb MaxColumns (length record) then Err (ErrInvalid "header must contain 1 to 50 columns")
  else normalize_columns 1 record.

Inductive date_order := YearMonthDay | DayMonthYear | MonthDayYear.
Definition date_layout (format : string) : option date_order :=
  if (format =? "YYYY-MM-DD")%string then Some YearMonthDay else
  if (format =? "DD/MM/YYYY")%string then Some DayMonthYear else
  if (format =? "MM/DD/YYYY")%string then Some MonthDayYear else None.
(** [strings.TrimSuffix(format, " HH:mm:ss")] when it has the suffix. *)
Definition cut_clock (format : string) : option string :=
  match cut_prefix (string_rev " HH:mm:ss") (string_rev format) with Some rest => Some (string_rev rest) | None => None end.
Definition dateLayout (kind : LogicalType) (format : string) : option (date_order * bool) :=
  if bool_decide (kind = TypeDateTime) then
    match cut_clock format with Some f => (λ o, (o, true)) <$> date_layout f | None => None end
  else (λ o, (o, false)) <$> date_layout format.

Definition take_number (n : nat) (s : string) : option (Z * string) :=
  '(digits, s) ← take_digits n s; number ← parse_digits digits; Some (number, s).
Definition take_date (order : date_order) (s : string) : option (CalendarDate * string) :=
  match order with
  | YearMonthDay => '(y, s) ← take_number 4 s; s ← take_char "-" s; '(m, s) ← take_number 2 s; s ← take_char "-" s; '(d, s) ← take_number 2 s; Some (mkDate y m d, s)
  | DayMonthYear => '(d, s) ← take_number 2 s; s ← take_char "/" s; '(m, s) ← take_number 2 s; s ← take_char "/" s; '(y, s) ← take_number 4 s; Some (mkDate y m d, s)
  | MonthDayYear => '(m, s) ← take_number 2 s; s ← take_char "/" s; '(d, s) ← take_number 2 s; s ← take_char "/" s; '(y, s) ← take_number 4 s; Some (mkDate y m d, s)
  end.
Definition take_clock (s : string) : option (instant * string) :=
  s ← take_char " " s; '(h, s) ← take_number 2 s; s ← take_char ":" s; '(mi, s) ← take_number 2 s; s ← take_char ":" s; '(sec, s) ← take_number 2 s;
  if (h <? 24) && (mi <? 60) && (sec <? 60) then Some (h * hour + mi * minute + sec * second, s) else None.
(** [time.ParseInLocation] followed by the comparison with [Format]: every
    field has its full width and is in range. *)
Definition parse_exact (layout : date_order * bool) (value : string) : option instant :=
  '(date, s) ← take_date layout.1 value;
  if negb (valid_date date) then None else
  '(clock, s) ← (if layout.2 : bool then take_clock s else Some (0, s));
  if (s =? "")%string then Some (date_days date * day_length + clock) else None.

(** [^[+-]?[0-9]+$] *)
Definition unsigned_text (s : string) : string := match s with String c rest => if (c =? "+")%char || (c =? "-")%char then rest else s | "" => s end.
Definition integerPattern (s : string) : bool := negb (unsigned_text s =? "")%string && string_forallb is_digit (unsigned_text s).

Section Convert.
Context {decimals : DecimalLibrary}.

Definition convert (value : string) (c : Column) : result cell :=
  if (value =? "")%string then Ok CNull else
  match co_type c with
  | TypeText => Ok (CText value)
  | TypeInteger =>
      if negb (integerPattern value) then Err (Errorf "value is not canonical integer syntax") else
      match ParseInt value with Some n => Ok (CInteger n) | None => Err (Errorf "value is outside signed BIGINT range") end
  | TypeDecimal =>
      if negb (decimalPattern value) then Err (Errorf "value is not canonical decimal syntax") else
      let (whole, rest) := span_digits (unsigned_text value) in
      let fraction := pred (String.length rest) in
      if Nat.ltb 35 (String.length whole) || Nat.ltb 30 fraction || Nat.ltb 65 (String.length whole + fraction)
      then Err (Errorf "value exceeds DECIMAL(65,30)") else
      match decimal_text value with Some d => Ok (CDecimal d) | None => Err (Errorf "value is not a valid decimal") end
  | TypeDate | TypeDateTime =>
      match co_format c with
      | None => Err (Errorf "column date format is missing")
      | Some format =>
          match dateLayout (co_type c) format with
          | None => Err (Errorf "column date format is invalid")
          | Some layout => match parse_exact layout value with Some at_ => Ok (CTime at_) | None => Err (Errorf ("value does not match " +:+ format)) end
          end
      end
  | TypeBoolean =>
      if EqualFold value "true" then Ok (CBool true) else if EqualFold value "false" then Ok (CBool false) else Err (Errorf "value must be TRUE or FALSE")
  | TypeOther _ => Err (Errorf "column type is invalid")
  end.

Definition type_text (t : LogicalType) : string :=
  match t with
  | TypeText => "text" | TypeInteger => "integer" | TypeDecimal => "decimal" | TypeDate => "date" | TypeDateTime => "datetime"
  | TypeBoolean => "boolean" | TypeOther name => name
  end.
Definition error_text (e : error) : string := match e with Errorf m => m | _ => "" end.
Definition appendDiagnostic (values : list Diagnostic) (value : Diagnostic) : list Diagnostic :=
  if Nat.ltb (length values) MaxDiagnostics then values ++ [value] else values.
Definition full (diagnostics : list Diagnostic) : bool := Nat.eqb (length diagnostics) MaxDiagnostics.
(** The values of a record; [None] for one that cannot be converted.  It
    stops when the diagnostics are full. *)
Fixpoint convert_record (number : Z) (columns : list Column) (record : list string) (diagnostics : list Diagnostic) : list (option cell) * list Diagnostic :=
  match columns, record with
  | c :: columns, value :: record =>
      match convert value c with
      | Ok x => let (values, diagnostics) := convert_record number columns record diagnostics in (Some x :: values, diagnostics)
      | Err e =>
          let diagnostics := appendDiagnostic diagnostics
            (mkDiagnostic number (excerpt (co_display c) 128) (type_text (co_type c)) (excerpt value 128) (error_text e)) in
          if full diagnostics then ([None], diagnostics) else
          let (values, diagnostics) := convert_record number columns record diagnostics in (None :: values, diagnostics)
      end
  | _, _ => ([], diagnostics)
  end.

(** ** Stream *)

(** Records after the header, rows, diagnostics, whether they were cut, and
    the error. *)
Record stream_result := mkStream { st_records : Z; st_rows : Z; st_diagnostics : list Diagnostic; st_truncated : bool; st_error : option failure }.
Fixpoint header_mismatch (number : Z) (header : list string) (columns : list Column) : option failure :=
  match header, columns with
  | h :: header, c :: columns =>
      if (h =? co_display c)%string then header_mismatch (number + 1) header columns
      else Some (invalid ("header column " +:+ FormatInt number +:+ " is not the expected one"))
  | _, _ => None
  end.
Definition check_header (record : list string) (columns : list Column) : option failure :=
  match normalizeHeader record with
  | Err e => Some (Fails e)
  | Ok header =>
      if Nat.eqb (length header) (length columns) then header_mismatch 1 header columns
      else Some (invalid "header has another number of fields")
  end.
Definition field_count (number : Z) (record : list string) (columns : list Column) : Diagnostic :=
  mkDiagnostic number "" "" "" ("record has " +:+ FormatInt (Z.of_nat (length record)) +:+ " fields; expected " +:+ FormatInt (Z.of_nat (length columns))).
Definition row_limit (number : Z) : Diagnostic := mkDiagnostic number "" "" "" "data row limit 1000000 exceeded".

Section Loop.
Context {call : Type} {answer : call → Type} {B : Type}.
(** [consume]: the callback, on the batch it keeps. *)
Context (consume : B → Z → list cell → prog answer (B * option failure)) (headerRecord : Z) (columns : list Column).
Local Open Scope prog_scope.

Definition finished_stream (st : stream_result) (header : bool) : stream_result :=
  if header then st
  else mkStream (st_records st) (st_rows st) (st_diagnostics st) (st_truncated st) (Some (invalid ("header record " +:+ FormatInt headerRecord +:+ " does not exist"))).
Definition failed_stream (st : stream_result) (e : failure) : stream_result :=
  mkStream (st_records st) (st_rows st) (st_diagnostics st) (st_truncated st) (Some e).
(** A data record that has the right number of fields and is not empty: the
    result, or the next record with a new state.  The count of rows is only
    kept by the caller when the row was consumed. *)
Definition stream_row (number : Z) (record : list string) (st : stream_result) (b : B) : prog answer (B * (stream_result + stream_result)) :=
  if st_rows st =? MaxDataRows then
    Ret (b, inl (mkStream (st_records st) (st_rows st) (appendDiagnostic (st_diagnostics st) (row_limit number)) false None))
  else
    let (values, diagnostics) := convert_record number columns record (st_diagnostics st) in
    let st' := mkStream (st_records st) (st_rows st) diagnostics (st_truncated st) None in
    if negb (forallb isSome values) && full diagnostics then Ret (b, inl (mkStream (st_records st) (st_rows st) diagnostics true None)) else
    if negb (forallb isSome values) || negb (Nat.eqb (length diagnostics) 0) then Ret (b, inr st') else
    let! r := consume b number (omap id values) in
    match r with
    | (b, Some e) => Ret (b, inl (failed_stream st' e))
    | (b, None) => Ret (b, inr (mkStream (st_records st) (st_rows st + 1) diagnostics (st_truncated st) None))
    end.
Fixpoint stream_loop (number : Z) (records : list (list string)) (stop : option string) (header : bool) (st : stream_result) (b : B) : prog answer (B * stream_result) :=
  match records with
  | [] =>
      match stop with
      | Some message => Ret (b, failed_stream st (invalid ("CSV record " +:+ FormatInt number +:+ ": " +:+ message)))
      | None => Ret (b, finished_stream st header)
      end
  | record :: records =>
      if negb (validRecordUTF8 record) then Ret (b, failed_stream st (invalid ("CSV record " +:+ FormatInt number +:+ " contains invalid UTF-8"))) else
      if number <? headerRecord then stream_loop (number + 1) records stop header st b else
      if number =? headerRecord then
        match check_header record columns with
        | Some e => Ret (b, failed_stream st e)
        | None => stream_loop (number + 1) records stop true st b
        end
      else
        let st := mkStream (st_records st + 1) (st_rows st) (st_diagnostics st) (st_truncated st) None in
        if negb (Nat.eqb (length record) (length columns)) then
          let diagnostics := appendDiagnostic (st_diagnostics st) (field_count number record columns) in
          if full diagnostics then Ret (b, mkStream (st_records st) (st_rows st) diagnostics true None)
          else stream_loop (number + 1) records stop header (mkStream (st_records st) (st_rows st) diagnostics (st_truncated st) None) b
        else if allEmpty record then stream_loop (number + 1) records stop header st b
        else
          let! r := stream_row number record st b in
          match r with
          | (b, inl st) => Ret (b, st)
          | (b, inr st) => stream_loop (number + 1) records stop header st b
          end
  end.
(** [source]: what the reader returns. *)
Definition Stream (source : result reader) (b : B) : prog answer (B * stream_result) :=
  match source with
  | Err e => Ret (b, mkStream 0 0 [] false (Some (Fails e)))
  | Ok (records, stop) => stream_loop 1 records stop false (mkStream 0 0 [] false None) b
  end.
End Loop.
End Convert.

(** ** The reader ends *)

Lemma strict_fields_ends fuel comma : ∀ field line feed rest fields,
  (2 * String.length line + 3 * String.length rest + (match field with Some _ => 0 | None => 1 end) < fuel)%nat →
  match strict_fields fuel comma field line feed rest fields with
  | Some (inr (_, rest')) => (String.length rest' <= String.length rest)%nat
  | Some (inl _) => True
  | None => False
  end.
Proof.
  induction fuel as [|fuel IH]; intros field line feed rest fields Hf; [lia|]. cbn [strict_fields].
  assert (Hplain : ∀ fields, (2 * String.length line + 3 * String.length rest + 1 < S fuel)%nat →
    match match cut_at comma line with
      | (value, Some more) => if string_existsb (λ c, (c =? quote)%char) value then Some (inl ErrBareQuote)
          else strict_fields fuel comma None more feed rest (fields ++ [value])
      | (value, None) => if string_existsb (λ c, (c =? quote)%char) value then Some (inl ErrBareQuote) else Some (inr (fields ++ [value], rest))
      end with
    | Some (inr (_, rest')) => (String.length rest' <= String.length rest)%nat | Some (inl _) => True | None => False end).
  { intros fs H. pose proof (cut_at_length comma line) as Hl. destruct (cut_at comma line) as [value [more|]]; destruct (string_existsb _ value); try done.
    apply IH. cbn. lia. }
  destruct field as [value|].
  - pose proof (cut_at_length quote line) as Hl. destruct (cut_at quote line) as [t [more|]].
    + destruct more as [|c more']; [done|]. cbn [String.length] in Hl. destruct (c =? quote)%char; [apply IH; lia|]. destruct (c =? comma)%char; [apply IH; cbn; lia|done].
    + destruct (readLine rest) as [l|] eqn:E; [|done]. apply readLine_length in E. specialize (IH (Some (value +:+ t +:+ feed_text feed)) (line_text l) (line_feed l) (line_rest l) fields).
      destruct (strict_fields fuel _ _ _ _ _ _) as [[?|[? r]]|]; [done| |apply IH; cbn; lia].
      assert (String.length r <= String.length (line_rest l))%nat by (apply IH; cbn; lia). lia.
  - destruct line as [|c line']; [by apply Hplain|]. destruct (c =? quote)%char; [|by apply Hplain]. apply IH. cbn [String.length] in *. lia.
Qed.
Lemma read_from_ends fuel comma : ∀ s, (String.length s < fuel)%nat → is_Some (read_from fuel comma s).
Proof.
  induction fuel as [|fuel IH]; intros s Hf; [lia|]. cbn [read_from]. destruct (readLine s) as [l|] eqn:E; [|by eexists].
  apply readLine_length in E. destruct (line_text l =? "")%string; [apply IH; lia|].
  pose proof (strict_fields_ends (3 * S (String.length s)) comma None (line_text l) (line_feed l) (line_rest l) []) as H.
  assert (Hfuel : (2 * String.length (line_text l) + 3 * String.length (line_rest l) + 1 < 3 * S (String.length s))%nat) by lia. specialize (H Hfuel).
  destruct (strict_fields _ _ _ _ _ _ _) as [[e|[fields rest]]|]; [by eexists| |done].
  destruct (IH rest ltac:(lia)) as [[records stop] ->]. by eexists.
Qed.
Lemma read_all_total comma s : read_from (S (String.length s)) comma s = Some (read_all comma s).
Proof. unfold read_all. destruct (read_from_ends (S (String.length s)) comma s ltac:(lia)) as [r ->]. done. Qed.

(** ** What a file's rows are *)

Section Rows.
Context {decimals : DecimalLibrary}.

(** The values of a record all of whose fields convert. *)
Fixpoint record_values (columns : list Column) (record : list string) : option (list cell) :=
  match columns, record with
  | [], [] => Some []
  | c :: columns, value :: record =>
      match convert value c, record_values columns record with Ok x, Some values => Some (x :: values) | _, _ => None end
  | _, _ => None
  end.
(** The data rows of the records from number [number] on: those after the
    header that are not empty, with their numbers. *)
Fixpoint data_rows (headerRecord : Z) (columns : list Column) (number : Z) (records : list (list string)) : list (Z * list cell) :=
  match records with
  | [] => []
  | record :: records =>
      if (number <=? headerRecord) || allEmpty record then data_rows headerRecord columns (number + 1) records
      else match record_values columns record with
        | Some values => (number, values) :: data_rows headerRecord columns (number + 1) records
        | None => data_rows headerRecord columns (number + 1) records
        end
  end.

Lemma appendDiagnostic_grows values value : appendDiagnostic values value ≠ [].
Proof. unfold appendDiagnostic. destruct (Nat.ltb_spec (length values) MaxDiagnostics) as [|H]; [by destruct values|]. intros ->. cbn in H. unfold MaxDiagnostics in H. lia. Qed.
Lemma convert_record_grows number columns : ∀ record diagnostics, diagnostics ≠ [] → (convert_record number columns record diagnostics).2 ≠ [].
Proof.
  induction columns as [|c columns IH]; intros [|value record] diagnostics Hne; try done. cbn [convert_record]. destruct (convert value c).
  - specialize (IH record diagnostics Hne). by destruct (convert_record number columns record diagnostics).
  - destruct (full _); [apply appendDiagnostic_grows|]. specialize (IH record _ (appendDiagnostic_grows diagnostics
      (mkDiagnostic number (excerpt (co_display c) 128) (type_text (co_type c)) (excerpt value 128) (error_text e)))).
    by destruct (convert_record number columns record (appendDiagnostic _ _)).
Qed.
(** Without diagnostics every field was converted. *)
Lemma convert_record_spec number columns : ∀ record diagnostics, length record = length columns →
  let r := convert_record number columns record diagnostics in
  match record_values columns record with
  | Some values => r = (Some <$> values, diagnostics)
  | None => forallb isSome r.1 = false ∧ r.2 ≠ []
  end.
Proof.
  induction columns as [|c columns IH]; intros [|value record] diagnostics Hlen; try done. injection Hlen as Hlen. cbn [convert_record record_values].
  destruct (convert value c) as [x|e].
  - specialize (IH record diagnostics Hlen). cbn in IH. destruct (record_values columns record) as [values|]; [by rewrite IH|].
    destruct (convert_record number columns record diagnostics) as [vs ds]. cbn in *. done.
  - assert (H : forallb isSome (if full (appendDiagnostic diagnostics (mkDiagnostic number (excerpt (co_display c) 128) (type_text (co_type c)) (excerpt value 128) (error_text e)))
      then ([None], appendDiagnostic diagnostics (mkDiagnostic number (excerpt (co_display c) 128) (type_text (co_type c)) (excerpt value 128) (error_text e)))
      else let (values, diagnostics) := convert_record number columns record (appendDiagnostic diagnostics (mkDiagnostic number (excerpt (co_display c) 128) (type_text (co_type c)) (excerpt value 128) (error_text e))) in (@None cell :: values, diagnostics)).1 = false).
    { destruct (full _); [done|]. by destruct (convert_record _ _ _ _). }
    split; [exact H|]. destruct (full _); [apply appendDiagnostic_grows|].
    pose proof (convert_record_grows number columns record _ (appendDiagnostic_grows diagnostics
      (mkDiagnostic number (excerpt (co_display c) 128) (type_text (co_type c)) (excerpt value 128) (error_text e)))) as Hg.
    by destruct (convert_record number columns record (appendDiagnostic _ _)).
Qed.
Lemma omap_id_Some {A} (l : list A) : omap id (Some <$> l) = l.
Proof. induction l as [|a l IH]; [done|]. cbn. by rewrite IH. Qed.
Lemma forallb_isSome {A} (l : list A) : forallb isSome (Some <$> l) = true.
Proof. by induction l. Qed.

(** Row numbers increase. *)
Definition increasing (rows : list (Z * list cell)) : Prop := StronglySorted Z.lt rows.*1.
Lemma data_rows_from header columns : ∀ records number, Forall (λ r, number <= r.1 ∧ header < r.1) (data_rows header columns number records).
Proof.
  induction records as [|record records IH]; intros number; cbn [data_rows]; [done|].
  assert (H : Forall (λ r, number <= r.1 ∧ header < r.1) (data_rows header columns (number + 1) records)).
  { eapply Forall_impl; [apply IH|]. cbn. intros r [? ?]. lia. }
  destruct (Z.leb_spec number header); cbn [orb]; [done|]. destruct (allEmpty record); [done|]. destruct (record_values columns record); [|done].
  constructor; [cbn; lia|done].
Qed.
Lemma data_rows_increasing header columns : ∀ records number, increasing (data_rows header columns number records).
Proof.
  unfold increasing. induction records as [|record records IH]; intros number; cbn [data_rows]; [constructor|].
  destruct (_ || _); [done|]. destruct (record_values columns record); [|done]. cbn. constructor; [done|].
  apply Forall_fmap. eapply Forall_impl; [apply data_rows_from|]. cbn. lia.
Qed.
End Rows.

(** ** What [Stream] hands on *)

Section StreamTriple.
Context {decimals : DecimalLibrary} {call : Type} {answer : call → Type} {B S : Type}.
Context (allowed : call → S → Prop) (steps : ∀ c : call, S → answer c → S → Prop).
Context (consume : B → Z → list cell → prog answer (B * option failure)) (headerRecord : Z) (columns : list Column).
(** [I rows b s]: the batch [b] took [rows]; [E b s]: what remains when it
    failed. *)
Context (I : list (Z * list cell) → B → S → Prop) (E : B → S → Prop).
Hypothesis HIE : ∀ rows b s, I rows b s → E b s.
Hypothesis Hconsume : ∀ rows b s n values, I rows b s → Forall (λ r, r.1 < n) rows → Z.of_nat (length rows) < MaxDataRows →
  ensures allowed steps (consume b n values) s (λ r s', match r.2 with None => I (rows ++ [(n, values)]) r.1 s' | Some _ => E r.1 s' end).

(** Without diagnostics so far, the batch has the rows so far. *)
Definition streaming (rows : list (Z * list cell)) (st : stream_result) (b : B) (s : S) : Prop :=
  st_error st = None ∧ E b s ∧
  (st_diagnostics st = [] → I rows b s ∧ st_rows st = Z.of_nat (length rows) ∧ Z.of_nat (length rows) <= MaxDataRows).
(** At the end: no error and no diagnostics mean every row was taken. *)
Definition streamed (rows : list (Z * list cell)) (stop : option string) (r : B * stream_result) (s : S) : Prop :=
  E r.1 s ∧ (st_error r.2 = None → st_diagnostics r.2 = [] →
    stop = None ∧ I rows r.1 s ∧ st_rows r.2 = Z.of_nat (length rows) ∧ Z.of_nat (length rows) <= MaxDataRows).

Lemma stream_row_ensures rows number record st b s : streaming rows st b s → Forall (λ r, r.1 < number) rows → length record = length columns →
  ensures allowed steps (stream_row consume columns number record st b) s (λ r s', match r.2 with
    | inl st' => E r.1 s' ∧ (st_error st' = None → st_diagnostics st' ≠ [])
    | inr st' => streaming (rows ++ match record_values columns record with Some values => [(number, values)] | None => [] end) st' r.1 s'
    end).
Proof using HIE Hconsume.
  intros (He & HE & HI) Hlt Hlen. unfold stream_row. destruct (Z.eqb_spec (st_rows st) MaxDataRows) as [Hmax|Hmax].
  { cbn. split; [done|]. intros _. apply appendDiagnostic_grows. }
  pose proof (convert_record_spec number columns record (st_diagnostics st) Hlen) as Hc. cbn zeta in Hc.
  pose proof (convert_record_grows number columns record (st_diagnostics st)) as Hg.
  destruct (convert_record number columns record (st_diagnostics st)) as [values diagnostics]. cbn [fst snd] in Hc, Hg.
  destruct (record_values columns record) as [vs|].
  - injection Hc as -> ->. rewrite forallb_isSome. cbn [negb andb orb]. destruct (Nat.eqb_spec (length (st_diagnostics st)) 0) as [Hz|Hz]; cbn [negb].
    + apply nil_length_inv in Hz. destruct (HI Hz) as (Hi & Hr & Hle). apply ensures_bind. rewrite omap_id_Some.
      eapply ensures_weaken; [|apply (Hconsume rows); [done|done|lia]]. intros [b' [e|]] s' H; cbn in H |- *; [done|].
      split; [done|]. split; [by eapply HIE|]. intros _. split; [done|]. rewrite length_app. cbn. lia.
    + cbn. split; [done|]. split; [done|]. intros H. cbn in H. by rewrite H in Hz.
  - destruct Hc as [Hn Hd]. rewrite Hn. cbn [negb andb orb]. destruct (full diagnostics); cbn; [done|]. split; [done|]. split; [done|]. by intros H.
Qed.

Ltac fails := split; [done|cbn; by intros].
Lemma stream_loop_ensures : ∀ records number stop header st b s rows, streaming rows st b s → Forall (λ r, r.1 < number) rows →
  ensures allowed steps (stream_loop consume headerRecord columns number records stop header st b) s
    (streamed (rows ++ data_rows headerRecord columns number records) stop).
Proof using HIE Hconsume.
  induction records as [|record records IH]; intros number stop header st b s rows (He & HE & HI) Hlt; cbn [stream_loop data_rows].
  - rewrite app_nil_r. destruct stop as [message|]; [fails|]. unfold finished_stream. destruct header; [|fails]. split; [done|]. intros _ Hd. split; [done|]. by apply HI.
  - assert (Hlt' : ∀ rows, Forall (λ r : Z * list cell, r.1 < number) rows → Forall (λ r, r.1 < number + 1) rows).
    { intros l Hl. eapply Forall_impl; [exact Hl|]. cbn. lia. }
    destruct (negb (validRecordUTF8 record)); [fails|]. destruct (Z.ltb_spec number headerRecord) as [Hh|Hh].
    { rewrite (proj2 (Z.leb_le _ _)) by lia. cbn [orb]. apply IH; [by split|by apply Hlt']. }
    destruct (Z.eqb_spec number headerRecord) as [->|Hne].
    { rewrite Z.leb_refl. cbn [orb]. destruct (check_header record columns); [fails|]. apply IH; [by split|by apply Hlt']. }
    rewrite (proj2 (Z.leb_gt _ _)) by lia. cbn [orb].
    assert (Hvalues : length record ≠ length columns → record_values columns record = None).
    { clear. revert record. induction columns as [|c cs IHc]; intros [|v record] H; try done. cbn in *. rewrite IHc by lia. by destruct (convert v c). }
    destruct (Nat.eqb_spec (length record) (length columns)) as [Hlen|Hlen]; cbn [negb].
    + destruct (allEmpty record) eqn:Eempty; [apply IH; [by split|by apply Hlt']|]. apply ensures_bind.
      eapply ensures_weaken; [|apply (stream_row_ensures rows); [by split|done|done]]. intros [b' [st'|st']] s'; cbn [fst snd].
      * intros [HE' Hd]. split; [done|]. intros H1 H2. by destruct (Hd H1).
      * intros Hst. assert (Eq : rows ++ match record_values columns record with
            | Some values => (number, values) :: data_rows headerRecord columns (number + 1) records
            | None => data_rows headerRecord columns (number + 1) records end =
          (rows ++ match record_values columns record with Some values => [(number, values)] | None => [] end) ++ data_rows headerRecord columns (number + 1) records).
        { rewrite <- app_assoc. by destruct (record_values columns record). }
        rewrite Eq. apply IH; [done|]. apply Forall_app. split; [by apply Hlt'|]. destruct (record_values columns record); [|done]. repeat constructor. cbn. lia.
    + assert (Hskip : (if allEmpty record then data_rows headerRecord columns (number + 1) records else match record_values columns record with
            | Some values => (number, values) :: data_rows headerRecord columns (number + 1) records
            | None => data_rows headerRecord columns (number + 1) records end) = data_rows headerRecord columns (number + 1) records).
      { rewrite Hvalues by done. by destruct (allEmpty record). }
      rewrite Hskip. cbn [st_diagnostics]. destruct (full _).
      * split; [done|]. cbn. intros _ H. by destruct (appendDiagnostic_grows (st_diagnostics st) (field_count number record columns)).
      * apply IH; [|by apply Hlt']. split; [done|]. split; [done|]. cbn. intros H. by destruct (appendDiagnostic_grows (st_diagnostics st) (field_count number record columns)).
Qed.
(** A stream without error or diagnostics has read the source to its end
    and handed on exactly its data rows, in order. *)
Lemma Stream_ensures source b s : I [] b s →
  ensures allowed steps (Stream consume headerRecord columns source b) s (λ r s', E r.1 s' ∧
    (st_error r.2 = None → st_diagnostics r.2 = [] → ∃ records, source = Ok (records, None) ∧
      let rows := data_rows headerRecord columns 1 records in
      I rows r.1 s' ∧ st_rows r.2 = Z.of_nat (length rows) ∧ Z.of_nat (length rows) <= MaxDataRows)).
Proof using HIE Hconsume.
  intros HI. unfold Stream. destruct source as [[records stop]|e].
  - eapply ensures_weaken; [|apply (stream_loop_ensures records 1 stop false _ b s []); [|done]].
    + intros r s' [HE H]. split; [done|]. intros H1 H2. destruct (H H1 H2) as (-> & Hr). by exists records.
    + split; [done|]. split; [by eapply HIE|]. intros _. split; [done|]. cbn. unfold MaxDataRows. lia.
  - cbn. split; [by eapply HIE|done].
Qed.
End StreamTriple.

(** ** Query names are distinct identifiers *)

Definition name_char (c : ascii) : bool := is_lower c || is_digit c || (c =? underscore)%char.
(** A lower-case letter, then letters, digits and underscores: 64 at most. *)
Definition identifier (l : list ascii) : Prop :=
  Forall (λ c, name_char c = true) l ∧ (length l <= 64)%nat ∧ ∃ c l', l = c :: l' ∧ is_lower c = true.

Lemma lower_alnum_char rune c : lower_alnum rune = Some c → (is_lower c || is_digit c) = true.
Proof.
  unfold lower_alnum. assert (Hr : ∀ r : string, (if (r =? string_of_codes [196; 176]%N)%string then Some "i"%char else
    if (r =? string_of_codes [226; 132; 170]%N)%string then Some "k"%char else None) = Some c → (is_lower c || is_digit c) = true).
  { intros r. destruct (_ =? _)%string; [by intros [= <-]|]. destruct (_ =? _)%string; [by intros [= <-]|done]. }
  destruct rune as [|x [|y r]]; [apply Hr| |apply Hr]. intros H. destruct (is_lower (to_lower x) || is_digit (to_lower x)) eqn:E; [|done]. by injection H as <-.
Qed.
Definition builder_ok (b : name_builder) : Prop := Forall (λ c, name_char c = true) (nb_text b) ∧ (length (nb_text b) <= 64)%nat.
Lemma name_step_ok b rune : builder_ok b → builder_ok (name_step b rune).
Proof.
  intros [Hc Hl]. unfold name_step. destruct (lower_alnum rune) as [c|] eqn:E.
  - destruct (Nat.ltb_spec (length (nb_text b)) 64); [|done]. split; cbn; [|lia]. constructor; [|done]. unfold name_char. by rewrite (lower_alnum_char _ _ E).
  - destruct (_ && _); [|done]. destruct (Nat.ltb_spec (length (nb_text b)) 64); [|done]. split; cbn; [|lia]. by constructor.
Qed.
Lemma drop_underscores_ok (P : ascii → Prop) l : Forall P l → Forall P (drop_underscores l) ∧ (length (drop_underscores l) <= length l)%nat ∧
  match drop_underscores l with [] => True | c :: _ => (c =? underscore)%char = false end.
Proof.
  induction 1 as [|c l Hc Hl IH]; [done|]. cbn [drop_underscores]. destruct (c =? underscore)%char eqn:E; [|split_and!; [by constructor|lia|done]].
  destruct IH as (? & ? & ?). split_and!; [done|cbn; lia|done].
Qed.
Lemma drop_underscores_last l c : (c =? underscore)%char = false → ∃ l', drop_underscores (l ++ [c]) = l' ++ [c].
Proof.
  intros Hc. induction l as [|x l [l' IH]]; cbn; [rewrite Hc; by exists []|]. destruct (x =? underscore)%char; [eauto|]. by exists (x :: l).
Qed.
Lemma truncateASCII_ok (P : ascii → Prop) l c maximum : Forall P (c :: l) → (c =? underscore)%char = false → (1 <= maximum)%nat →
  ∃ l', truncateASCII (c :: l) maximum = c :: l' ∧ Forall P (c :: l') ∧ (length (c :: l') <= maximum)%nat.
Proof.
  intros HP Hc Hm. unfold truncateASCII. destruct (Nat.leb_spec (length (c :: l)) maximum) as [|_]; [by exists l|].
  destruct maximum as [|maximum]; [lia|]. cbn [take]. unfold trim_right. cbn [rev].
  destruct (drop_underscores_last (rev (take maximum l)) c Hc) as [l' Hl']. rewrite Hl'. rewrite rev_app_distr. cbn [rev app]. exists (rev l').
  assert (HP' : Forall P (take (S maximum) (c :: l))) by (by apply Forall_take).
  assert (Hr : Forall P (rev (take maximum l) ++ [c])). { rewrite <- rev_involutive. apply Forall_rev. rewrite rev_app_distr, rev_involutive. exact HP'. }
  destruct (drop_underscores_ok P _ Hr) as (H1 & H2 & _). rewrite Hl' in H1, H2. split; [done|].
  assert (Hrev : c :: rev l' = rev (l' ++ [c])) by (by rewrite rev_app_distr). rewrite Hrev. split; [by apply Forall_rev|].
  rewrite length_rev. rewrite !length_app, length_rev, length_take in H2. rewrite length_app. cbn in *. lia.
Qed.
Lemma is_digit_digit n : 0 <= n <= 9 → is_digit (digit n) = true.
Proof. intros H. assert (Hn : n = 0 ∨ n = 1 ∨ n = 2 ∨ n = 3 ∨ n = 4 ∨ n = 5 ∨ n = 6 ∨ n = 7 ∨ n = 8 ∨ n = 9) by lia. by repeat destruct Hn as [-> | Hn]; subst. Qed.
Lemma digits_of_digits fuel : ∀ n s, 0 <= n → Forall (λ c, is_digit c = true) (chars s) →
  Forall (λ c, is_digit c = true) (chars (digits_of fuel n s)) ∧ (String.length (digits_of fuel n s) <= fuel + String.length s)%nat.
Proof.
  induction fuel as [|fuel IH]; intros n s Hn Hs; cbn [digits_of]; [split; [done|lia]|]. destruct (Z.ltb_spec n 10).
  - split; [|cbn; lia]. constructor; [|done]. apply is_digit_digit. lia.
  - destruct (IH (n / 10) (String (digit (n mod 10)) s)) as [H1 H2].
    + apply Z.div_pos; lia.
    + constructor; [|done]. apply is_digit_digit. pose proof (Z.mod_pos_bound n 10). lia.
    + split; [done|]. cbn in H2. lia.
Qed.
Lemma FormatInt_digits n : 0 <= n → Forall (λ c, is_digit c = true) (chars (FormatInt n)) ∧ (length (chars (FormatInt n)) <= 20)%nat.
Proof.
  intros Hn. unfold FormatInt. destruct (Z.ltb_spec n 0); [lia|]. destruct (digits_of_digits 20 n "" Hn) as [H1 H2]; [constructor|].
  split; [done|]. unfold chars. assert (Hl : ∀ s, length (String.list_ascii_of_string s) = String.length s) by (intros s; induction s as [|c s IH]; cbn; congruence).
  rewrite Hl. change (String.length "") with 0%nat in H2. lia.
Qed.
Lemma chars_app a b : chars (a +:+ b) = chars a ++ chars b.
Proof. induction a as [|c a IH]; [done|]. rewrite string_app_cons. unfold chars in *. cbn [String.list_ascii_of_string]. by rewrite IH. Qed.
Lemma text_chars s : text (chars s) = s.
Proof. apply String.string_of_list_ascii_of_string. Qed.
Lemma chars_text l : chars (text l) = l.
Proof. apply String.list_ascii_of_string_of_list_ascii. Qed.
Lemma digit_name_char c : is_digit c = true → name_char c = true.
Proof. unfold name_char. intros ->. by rewrite orb_true_r. Qed.
Lemma column_default_ok n : 0 <= n → ∃ l, column_default n = "c"%char :: l ∧ Forall (λ c, name_char c = true) (column_default n).
Proof.
  intros Hn. unfold column_default. rewrite !chars_app. eexists. split; [reflexivity|].
  apply Forall_app. split; [repeat constructor|]. apply Forall_app. split; [destruct (n <? 10); [|destruct (n <? 100)]; repeat constructor|].
  eapply Forall_impl; [apply (FormatInt_digits n Hn)|]. apply digit_name_char.
Qed.
Lemma lower_not_underscore c : is_lower c = true → (c =? underscore)%char = false.
Proof. intros H. destruct (Ascii.eqb_spec c underscore) as [->|]; [done|done]. Qed.
Lemma base_name_ok reserved number header : 0 <= number → identifier (base_name reserved number header).
Proof.
  intros Hn. unfold base_name.
  assert (Hb : ∀ l b, builder_ok b → builder_ok (foldl name_step b l)) by (intros l; induction l as [|r l IH]; intros b H; [done|by apply IH, name_step_ok]).
  specialize (Hb (runes header) (mkNameBuilder [] false false)). set (b := foldl _ _ _) in *. destruct Hb as [Hc Hl]; [split; cbn; [done|lia]|].
  destruct (drop_underscores_ok _ _ Hc) as (Hc1 & _ & _). apply Forall_rev in Hc1. destruct (drop_underscores_ok _ _ Hc1) as (Hc2 & _ & Hhead).
  assert (Hbase : ∃ c l, match drop_underscores (rev (drop_underscores (nb_text b))) with
      | [] => column_default number | c :: _ => if is_digit c then chars "column_" ++ drop_underscores (rev (drop_underscores (nb_text b)))
        else drop_underscores (rev (drop_underscores (nb_text b))) end = c :: l ∧ is_lower c = true ∧ Forall (λ c, name_char c = true) (c :: l)).
  { destruct (drop_underscores (rev _)) as [|c l].
    - destruct (column_default_ok number Hn) as (l & -> & H). by exists "c"%char, l.
    - destruct (is_digit c) eqn:Ed.
      + exists "c"%char, (chars "olumn_" ++ c :: l). split; [done|]. split; [done|]. constructor; [done|]. apply Forall_app. split; [repeat constructor|done].
      + exists c, l. split; [done|]. split; [|done]. inversion Hc2 as [|? ? H _]; subst. unfold name_char in H. rewrite Ed, Hhead, !orb_false_r in H. done. }
  destruct Hbase as (c & l & -> & Hlow & Hall).
  assert (Hmore : ∃ l', (if negb (nb_overflow b) && reserved (text (c :: l)) then (c :: l) ++ chars "_column" else c :: l) = c :: l' ∧ Forall (λ c, name_char c = true) (c :: l')).
  { destruct (_ && _); [|by exists l]. exists (l ++ chars "_column"). split; [done|]. inversion Hall; subst. constructor; [done|]. apply Forall_app. split; [done|repeat constructor]. }
  destruct Hmore as (l' & -> & Hall'). destruct (truncateASCII_ok _ l' c 64 Hall' (lower_not_underscore c Hlow) ltac:(lia)) as (l2 & -> & H1 & H2).
  split_and!; [done|done|eauto].
Qed.
Lemma numbered_name_ok base n : identifier base → 0 <= n → identifier (numbered_name base n).
Proof.
  intros (Hall & _ & c & l & -> & Hc) Hn. unfold numbered_name. set (suffix := underscore :: chars (FormatInt n)).
  destruct (FormatInt_digits n Hn) as [Hd Hl]. assert (Hs : (length suffix <= 21)%nat) by (subst suffix; cbn; lia).
  destruct (truncateASCII_ok _ l c (64 - length suffix) Hall (lower_not_underscore c Hc) ltac:(lia)) as (l' & -> & H1 & H2). split_and!.
  - apply Forall_app. split; [done|]. constructor; [done|]. eapply Forall_impl; [exact Hd|]. apply digit_name_char.
  - rewrite length_app. lia.
  - exists c, (l' ++ suffix). done.
Qed.
(** What follows the last underscore. *)
Lemma last_suffix a b d e : Forall (λ c, is_digit c = true) d → Forall (λ c, is_digit c = true) e → a ++ underscore :: d = b ++ underscore :: e → d = e.
Proof.
  assert (Hno : ∀ k d e, Forall (λ c, is_digit c = true) e → underscore :: e = k ++ underscore :: d → d = e).
  { intros [|x k] d' e' He H; [by injection H|]. injection H as _ ->. apply Forall_app in He as [_ He]. by inversion He. }
  intros Hd He [(k & _ & H)|(k & _ & H)]%app_eq_inv; [by eapply Hno|]. symmetry. by eapply Hno.
Qed.
Lemma numbered_name_inj base n m : 0 <= n < 2 ^ 63 → 0 <= m < 2 ^ 63 → numbered_name base n = numbered_name base m → n = m.
Proof.
  intros Hn Hm H. unfold numbered_name in H. cbv zeta in H.
  destruct (FormatInt_digits n ltac:(lia)) as [Hd _], (FormatInt_digits m ltac:(lia)) as [Hd' _].
  apply last_suffix in H; [|done|done]. apply (f_equal text) in H. rewrite !text_chars in H.
  destruct (ParseInt_FormatInt n) as [E _]; [unfold int64; lia|]. destruct (ParseInt_FormatInt m) as [E' _]; [unfold int64; lia|]. congruence.
Qed.
Lemma text_inj l k : text l = text k → l = k.
Proof. intros H%(f_equal chars). by rewrite !chars_text in H. Qed.
Lemma free_name_None fuel used base n : free_name fuel used base n = None → ∀ k, (k < fuel)%nat → text (numbered_name base (n + Z.of_nat k)) ∈ used.
Proof.
  revert n. induction fuel as [|fuel IH]; intros n H k Hk; [lia|]. cbn [free_name] in H. case_bool_decide as Hin; [|done].
  destruct k as [|k]; [by rewrite Z.add_0_r|]. specialize (IH (n + 1) H k ltac:(lia)). by replace (n + Z.of_nat (S k)) with (n + 1 + Z.of_nat k) by lia.
Qed.
Lemma free_name_total used base n : 0 <= n → n + Z.of_nat (length used) < 2 ^ 63 - 1 → is_Some (free_name (S (length used)) used base n).
Proof.
  intros Hn Hb. destruct (free_name _ used base n) eqn:E; [by eexists|]. exfalso. pose proof (free_name_None _ _ _ _ E) as H.
  set (names := (λ k, text (numbered_name base (n + Z.of_nat k))) <$> seq 0 (S (length used))).
  assert (Hnd : NoDup names).
  { apply NoDup_fmap_2_strong; [|apply NoDup_seq]. intros x y Hx%elem_of_seq Hy%elem_of_seq Heq%text_inj%numbered_name_inj; lia. }
  assert (Hsub : names ⊆+ used). { apply NoDup_submseteq; [done|]. intros x (k & -> & Hk%elem_of_seq)%list_elem_of_fmap. apply H. lia. }
  apply submseteq_length in Hsub. unfold names in Hsub. rewrite length_fmap, length_seq in Hsub. lia.
Qed.
Lemma free_name_fresh fuel used base n name : free_name fuel used base n = Some name → name ∉ used ∧ ∃ m, n <= m ∧ name = text (numbered_name base m).
Proof.
  revert n. induction fuel as [|fuel IH]; intros n; [done|]. cbn [free_name]. case_bool_decide as Hin.
  - intros (Hn & m & Hm & ->)%IH. split; [done|]. exists m. split; [lia|done].
  - intros [= <-]. split; [done|]. exists n. split; [lia|done].
Qed.
Lemma unique_name_ok used base : identifier base → (length used <= MaxColumns)%nat → ∃ name, unique_name used base = Some (text name) ∧ text name ∉ used ∧ identifier name.
Proof.
  intros Hb Hl. unfold unique_name. case_bool_decide as Hin; [|by exists base].
  destruct (free_name_total used base 2) as [name Hname]; [lia|unfold MaxColumns in Hl; lia|]. rewrite Hname.
  apply free_name_fresh in Hname as (Hn & m & Hm & ->). exists (numbered_name base m). split_and!; [done|done|]. apply numbered_name_ok; [done|lia].
Qed.
(** The names follow the headers, each an identifier no other has. *)
Definition names_ok (used : list string) (names : list string) : Prop :=
  NoDup names ∧ (∀ name, name ∈ names → name ∉ used) ∧ Forall (λ name, identifier (chars name)) names.
Lemma query_names_ok reserved headers : ∀ number used, 0 <= number → (length used + length headers <= MaxColumns)%nat → Forall (λ h, trim_space h ≠ "") headers →
  ∃ names, query_names reserved number used headers = Ok names ∧ length names = length headers ∧ names_ok used names.
Proof.
  induction headers as [|header headers IH]; intros number used Hn Hl Hne; cbn [query_names].
  - exists []. split; [done|]. split; [done|]. split_and!; [constructor|set_solver|constructor].
  - inversion Hne; subst. destruct (String.eqb_spec (trim_space header) "") as [|_]; [done|]. cbn [length] in Hl.
    destruct (unique_name_ok used (base_name reserved number header)) as (name & -> & Hfresh & Hid); [by apply base_name_ok|lia|].
    destruct (IH (number + 1) (text name :: used)) as (names & -> & Hlen & Hnd & Hdis & Hall); [lia|cbn; lia|done|].
    exists (text name :: names). split; [done|]. split; [cbn; lia|]. split_and!.
    + constructor; [|done]. intros Hin. apply (Hdis _ Hin). by left.
    + intros x [->|Hx]%elem_of_cons; [done|]. intros Hu. apply (Hdis x Hx). by right.
    + constructor; [by rewrite chars_text|done].
Qed.

(** ** The columns of a submission (features/customdatasets/handler.go) *)

Definition logical_type (s : string) : LogicalType :=
  if (s =? "text")%string then TypeText else if (s =? "integer")%string then TypeInteger else if (s =? "decimal")%string then TypeDecimal else
  if (s =? "date")%string then TypeDate else if (s =? "datetime")%string then TypeDateTime else if (s =? "boolean")%string then TypeBoolean else TypeOther s.
(** [kinds]: the type and the date format the form has for each column. *)
Fixpoint form_columns (index : Z) (header names : list string) (kinds : list (string * string)) : list Column :=
  match header, names, kinds with
  | h :: header, name :: names, (kind, format) :: kinds =>
      let t := logical_type kind in
      mkColumn (index + 1) h name (physical_name (index + 1)) t (if timed t then Some (trim_space format) else None)
        :: form_columns (index + 1) header names kinds
  | _, _, _ => []
  end.

Lemma form_columns_valid header : ∀ names kinds index (seen : gset string), length names = length header → length kinds = length header →
  NoDup names → (∀ name, name ∈ names → name ∉ seen) → Forall (λ name, identifier (chars name)) names → Forall (λ h, trim_space h ≠ "") header →
  Forall (λ c, is_ok (sqlType c) = true) (form_columns index header names kinds) → validate_columns index seen (form_columns index header names kinds) = Ok tt.
Proof.
  induction header as [|h header IH]; intros [|name names] [|[kind format] kinds] index seen; try done.
  cbn [form_columns length]. intros Hn Hk Hnd Hdis Hid Hne Hty. inversion Hnd as [|? ? Hnin Hnd']; subst. inversion Hid as [|? ? (Hch & Hl & c & l & Hc & _) Hid']; subst.
  inversion Hne; subst. inversion Hty as [|? ? Hok Hty']; subst. cbn [validate_columns co_ordinal co_physical co_display co_query]. rewrite Z.eqb_refl, String.eqb_refl.
  destruct (String.eqb_spec (trim_space h) "") as [|_]; [done|]. destruct (String.eqb_spec name "") as [->|_]; [done|].
  assert (Hlen : String.length name = length (chars name)) by (clear; unfold chars; induction name as [|x s IH]; cbn; congruence).
  destruct (Nat.ltb_spec 64 (String.length name)) as [|_]; [lia|]. cbn [negb orb].
  rewrite bool_decide_false by (apply Hdis; by left). destruct (sqlType _); [|done]. cbn [res_bind].
  apply IH; try done; try lia. intros x Hx. specialize (Hdis x). assert (x ≠ name) by (intros ->; done). set_solver.
Qed.

(** C37: query names exist for exactly the headers of one to fifty columns
    none of which is blank; they are then distinct, one per column, and each
    is a lower-case letter followed by letters, digits and underscores, at
    most 64 in all; columns made of them are accepted with any types. *)
Theorem QueryNames_identifiers (reserved : string → bool) (headers : list string) :
  ((∃ names, QueryNames reserved headers = Ok names) ↔ (1 <= length headers <= MaxColumns)%nat ∧ Forall (λ h, trim_space h ≠ "") headers) ∧
  ∀ names, QueryNames reserved headers = Ok names →
    length names = length headers ∧ NoDup names ∧ Forall (λ name, identifier (chars name)) names ∧
    ∀ kinds, length kinds = length headers → Forall (λ c, is_ok (sqlType c) = true) (form_columns 0 headers names kinds) →
      validate_columns 0 ∅ (form_columns 0 headers names kinds) = Ok tt.
Proof.
  assert (Hblank : ∀ hs number used names, query_names reserved number used hs = Ok names → Forall (λ h, trim_space h ≠ "") hs).
  { intros hs. induction hs as [|h hs IH]; intros number used names; cbn [query_names]; [done|]. destruct (String.eqb_spec (trim_space h) "") as [|Hne]; [done|].
    destruct (unique_name _ _) as [name|]; [|done]. destruct (query_names _ _ _ hs) as [ns|] eqn:E; [|done]. intros _. constructor; [done|]. by eapply IH. }
  unfold QueryNames. destruct (Nat.eqb_spec (length headers) 0) as [Hz|Hz]; cbn [orb].
  { split; [|done]. split; [by intros [? ?]|lia]. }
  destruct (Nat.ltb_spec MaxColumns (length headers)) as [Hm|Hm].
  { split; [|done]. split; [by intros [? ?]|lia]. }
  split.
  - split; [intros [names Hok]; split; [lia|by eapply Hblank]|]. intros [_ Hne]. destruct (query_names_ok reserved headers 1 []) as (names & -> & _); [lia|done|done|eauto].
  - intros names Hok. pose proof (Hblank _ _ _ _ Hok) as Hne. destruct (query_names_ok reserved headers 1 []) as (names' & Heq & Hlen & Hnd & Hdis & Hid); [lia|done|done|].
    rewrite Heq in Hok. injection Hok as <-. split_and!; try done. intros kinds Hk Hty. by apply form_columns_valid.
Qed.
