(* ===== verification/DatasetPreview.v ===== *)
(** * Previews of custom dataset files (src/internal/customdataset/csv.go)

    The delimiter is guessed from the first records of a file, the types of
    its columns from the values of its first rows.  [range] over a Go map
    visits it in any order: the order is an argument. *)

From S2P Require Import Prelude Calendar Json Access AuditTrail Table Programs FixedPlans FixedCsv BrowserStore ReportParams DatasetStore Datasets DatasetCsv.
From stdpp Require Import gmap sorting.

Open Scope Z_scope.

(** ** The delimiter *)

Definition delimiterPrefixBytes : Z := Z.shiftl 256 10.
Fixpoint last_newline (s : string) : option string :=
  match s with
  | "" => None
  | String c s' => match last_newline s' with Some p => Some (String c p) | None => if (c =? newline)%char then Some (String c "") else None end
  end.
(** What is read of the file, and whether there is more. *)
Definition detection_prefix (source : string) : string * bool :=
  let truncated := delimiterPrefixBytes <? Z.of_nat (String.length source) in
  let prefix := stripBOM (if truncated then prefix_of (Z.to_nat delimiterPrefixBytes) source else source) in
  (if truncated then default "" (last_newline prefix) else prefix, truncated).
Definition record_widths (prefix : string) (truncated : bool) (comma : ascii) : list nat :=
  let '(records, stop) := read_all comma prefix in
  let widths := take 64 (length <$> records) in
  if Nat.leb 64 (length records) then widths else
  match stop with
  | None => widths
  | Some e => if truncated && (e =? parse_error_text ErrQuote)%string then widths else []
  end.
(** The counts so far, the most frequent width and how often it was seen;
    of two as frequent, the smaller. *)
Definition width_step (st : gmap nat Z * nat * Z) (width : nat) : gmap nat Z * nat * Z :=
  let '(counts, mode, support) := st in
  if Nat.ltb width 2 || Nat.ltb MaxColumns width then st else
  let n := default 0 (counts !! width) + 1 in
  let counts := <[width := n]> counts in
  if (support <? n) || ((n =? support) && Nat.ltb width mode) then (counts, width, n) else (counts, mode, support).
Record score := mkScore { sc_delimiter : option Delimiter; sc_support : Z; sc_inconsistency : Z; sc_eligible : bool }.
Definition no_score : score := mkScore None 0 0 false.
Definition score_of (prefix : string) (truncated : bool) (delimiter : Delimiter) : score :=
  let widths := match Rune delimiter with Ok comma => record_widths prefix truncated comma | Err _ => [] end in
  let '(_, mode, support) := foldl width_step (∅, 0%nat, 0) widths in
  let total := Z.of_nat (length widths) in
  mkScore (Some delimiter) support (Z.of_nat (length (filter (λ w, w ≠ mode) widths))) ((2 <=? support) && (0 <? total) && (total * 80 <=? support * 100)).
Definition better (a b : score) : bool :=
  (sc_support b <? sc_support a) || ((sc_support a =? sc_support b) && (sc_inconsistency a <? sc_inconsistency b)).
Definition rank_step (st : score * score) (candidate : score) : score * score :=
  let '(best, runner) := st in
  if negb (sc_eligible candidate) then st else
  if better candidate best then (candidate, best) else if better candidate runner then (best, candidate) else st.
Definition DetectDelimiter (source : string) : option Delimiter * bool :=
  let '(prefix, truncated) := detection_prefix source in
  let '(best, runner) := foldl rank_step (no_score, no_score) (score_of prefix truncated <$> [DelimiterComma; DelimiterSemicolon; DelimiterTab]) in
  (sc_delimiter best, sc_eligible best && (negb (sc_eligible runner) || (sc_support runner + 2 <=? sc_support best))).

(** ** Inference of types *)

Record inferer := mkInferer {
  in_seen : Z; in_boolean : Z; in_integer : Z; in_decimal : Z; in_dates : gmap string Z; in_datetimes : gmap string Z; in_leading : bool }.
Definition new_inferer : inferer := mkInferer 0 0 0 0 ∅ ∅ false.
Definition parsesExactly (value : string) (layout : option (date_order * bool)) : bool :=
  match layout with Some l => isSome (parse_exact l value) | None => false end.
Definition add_if (b : bool) (n : Z) : Z := if b then n + 1 else n.
Definition count_format (kind : LogicalType) (raw : string) (counts : gmap string Z) (format : string) : gmap string Z :=
  if parsesExactly raw (dateLayout kind format) then <[format := default 0 (counts !! format) + 1]> counts else counts.
Definition clock_format (format : string) : string := format +:+ " HH:mm:ss".
(** [len(unsigned) > 1 && unsigned[0] == '0'] *)
Definition leading_zero (raw : string) : bool :=
  match unsigned_text raw with String c (String _ _) => (c =? "0")%char | _ => false end.
Definition observe (v : inferer) (raw : string) : inferer :=
  if (raw =? "")%string then v else
  let integer := integerPattern raw in
  mkInferer (in_seen v + 1) (add_if (EqualFold raw "true" || EqualFold raw "false") (in_boolean v)) (add_if integer (in_integer v))
    (add_if (decimalPattern raw) (in_decimal v)) (foldl (count_format TypeDate raw) (in_dates v) dateFormats)
    (foldl (count_format TypeDateTime raw) (in_datetimes v) (clock_format <$> dateFormats)) (in_leading v || (integer && leading_zero raw)).
Definition unambiguousFormat (values : gmap string Z) (expected : Z) : bool :=
  Nat.eqb (length (filter (λ p, p.2 = expected) (map_to_list values))) 1.
(** The first format, in the order of the iteration, that fits every value
    and is the only one. *)
Fixpoint fitting (values : gmap string Z) (seen : Z) (entries : list (string * Z)) : option string :=
  match entries with
  | [] => None
  | (format, n) :: entries => if (n =? seen) && unambiguousFormat values n then Some format else fitting values seen entries
  end.
Definition suggestion (order : gmap string Z → list (string * Z)) (v : inferer) : LogicalType * option string :=
  if in_seen v =? 0 then (TypeText, None) else
  if in_boolean v =? in_seen v then (TypeBoolean, None) else
  if (in_integer v =? in_seen v) && negb (in_leading v) then (TypeInteger, None) else
  if in_decimal v =? in_seen v then (TypeDecimal, None) else
  match fitting (in_datetimes v) (in_seen v) (order (in_datetimes v)) with
  | Some format => (TypeDateTime, Some format)
  | None =>
      match fitting (in_dates v) (in_seen v) (order (in_dates v)) with
      | Some format => (TypeDate, Some format)
      | None => (TypeText, None)
      end
  end.

(** ** The preview *)

Record Preview := mkPreview {
  pv_header : option (list string); pv_names : list string; pv_suggestions : list (LogicalType * option string); pv_rows : list (list string);
  pv_scanned : Z }.
Section ParsePreview.
Context (reserved : string → bool) (order : gmap string Z → list (string * Z)) (headerRecord : Z).

Definition preview_record (p : Preview) (inferers : list inferer) (record : list string) : Preview * list inferer :=
  (mkPreview (pv_header p) (pv_names p) (pv_suggestions p)
     (if Nat.ltb (length (pv_rows p)) PreviewRows then pv_rows p ++ [(λ v, excerpt v 256) <$> record] else pv_rows p) (pv_scanned p + 1),
   zip_with observe inferers record).
Definition preview_done (p : Preview) (inferers : list inferer) : result Preview :=
  match pv_header p with
  | None => Err (ErrInvalid ("header record " +:+ FormatInt headerRecord +:+ " does not exist"))
  | Some _ => Ok (mkPreview (pv_header p) (pv_names p) (suggestion order <$> inferers) (pv_rows p) (pv_scanned p))
  end.
Fixpoint preview_loop (number : Z) (records : list (list string)) (stop : option string) (p : Preview) (inferers : list inferer) : result Preview :=
  match records with
  | [] =>
      match stop with
      | Some message => Err (ErrInvalid ("CSV record " +:+ FormatInt number +:+ ": " +:+ message))
      | None => preview_done p inferers
      end
  | record :: records =>
      if negb (validRecordUTF8 record) then Err (ErrInvalid ("CSV record " +:+ FormatInt number +:+ " contains invalid UTF-8")) else
      if number <? headerRecord then preview_loop (number + 1) records stop p inferers else
      if number =? headerRecord then
        let? header := normalizeHeader record in
        let? names := QueryNames reserved header in
        preview_loop (number + 1) records stop (mkPreview (Some header) names (pv_suggestions p) (pv_rows p) (pv_scanned p)) (replicate (length record) new_inferer)
      else if negb (Nat.eqb (length record) (length (default [] (pv_header p)))) then
        Err (ErrInvalid ("CSV record " +:+ FormatInt number +:+ " has another number of fields"))
      else if allEmpty record then preview_loop (number + 1) records stop p inferers
      else
        let '(p, inferers) := preview_record p inferers record in
        if InferenceRows <=? pv_scanned p then preview_done p inferers else preview_loop (number + 1) records stop p inferers
  end.
Definition ParsePreview (source : string) (delimiter : Delimiter) : result Preview :=
  if headerRecord =? 0 then Err (ErrInvalid "header record must be positive") else
  let? r := newReader source delimiter in
  preview_loop 1 r.1 r.2 (mkPreview None [] [] [] 0) [].
End ParsePreview.

(** ** Suggested types fit what was seen *)

Definition observed (values : list string) : inferer := foldl observe new_inferer values.
(** [n] values of [seen] satisfied [P]. *)
Definition tally (P : string → bool) (values : list string) (n seen : Z) : Prop :=
  n <= seen ∧ (n = seen → ∀ v, v ∈ values → v ≠ "" → P v = true).
Lemma tally_step (P : string → bool) values raw n seen : raw ≠ "" → tally P values n seen → tally P (values ++ [raw]) (add_if (P raw) n) (seen + 1).
Proof.
  intros Hr [Hle Hall]. unfold tally, add_if. destruct (P raw) eqn:E; (split; [lia|]); intros Hn; [|lia].
  intros v [Hv| ->%list_elem_of_singleton]%elem_of_app Hne; [|done]. apply Hall; [lia|done|done].
Qed.
Lemma count_format_lookup kind raw m g f :
  default 0 (count_format kind raw m g !! f) = add_if (bool_decide (f = g) && parsesExactly raw (dateLayout kind f)) (default 0 (m !! f)).
Proof.
  unfold count_format, add_if. case_bool_decide as Hf.
  - subst g. cbn [andb]. destruct (parsesExactly _ _); [by rewrite lookup_insert_eq|done].
  - cbn [andb]. destruct (parsesExactly _ _); [by rewrite lookup_insert_ne|done].
Qed.
Lemma count_formats_lookup kind raw formats : ∀ m f, NoDup formats →
  default 0 (foldl (count_format kind raw) m formats !! f) = add_if (bool_decide (f ∈ formats) && parsesExactly raw (dateLayout kind f)) (default 0 (m !! f)).
Proof.
  induction formats as [|g formats IH]; intros m f Hnd; cbn [foldl]; [done|]. inversion Hnd as [|? ? Hg Hnd']; subst. rewrite IH by done. rewrite count_format_lookup.
  destruct (decide (f = g)) as [->|Hne].
  - rewrite (bool_decide_false (g ∈ formats)), (bool_decide_true (g = g)), (bool_decide_true (g ∈ g :: formats)) by (done || by left). done.
  - rewrite (bool_decide_false (f = g)) by done. cbn [andb]. unfold add_if at 2. by rewrite (bool_decide_ext (f ∈ g :: formats) (f ∈ formats)) by set_solver.
Qed.
Lemma count_formats_dom kind raw formats : ∀ m (known : list string), (∀ f n, m !! f = Some n → f ∈ known) → (∀ f, f ∈ formats → f ∈ known) →
  ∀ f n, foldl (count_format kind raw) m formats !! f = Some n → f ∈ known.
Proof.
  induction formats as [|g formats IH]; intros m known Hm Hk f n; cbn [foldl]; [apply Hm|]. apply IH; [|intros; apply Hk; by right].
  intros f' n'. unfold count_format. destruct (parsesExactly _ _); [|apply Hm]. intros [[<- _]|[_ H]]%lookup_insert_Some; [apply Hk; by left|by eapply Hm].
Qed.

(** What the counters of the values seen say. *)
Record observed_ok (values : list string) (v : inferer) : Prop := {
  ob_seen : 0 <= in_seen v ∧ (in_seen v = 0 → ∀ x, x ∈ values → x = "");
  ob_boolean : tally (λ x, EqualFold x "true" || EqualFold x "false") values (in_boolean v) (in_seen v);
  ob_integer : tally integerPattern values (in_integer v) (in_seen v);
  ob_decimal : tally decimalPattern values (in_decimal v) (in_seen v);
  ob_dates : ∀ f, f ∈ dateFormats → tally (λ x, parsesExactly x (dateLayout TypeDate f)) values (default 0 (in_dates v !! f)) (in_seen v);
  ob_datetimes : ∀ f, f ∈ clock_format <$> dateFormats → tally (λ x, parsesExactly x (dateLayout TypeDateTime f)) values (default 0 (in_datetimes v !! f)) (in_seen v);
  ob_formats : (∀ f n, in_dates v !! f = Some n → f ∈ dateFormats) ∧ (∀ f n, in_datetimes v !! f = Some n → f ∈ clock_format <$> dateFormats) }.
Lemma tally_snoc_empty P values n seen : tally P values n seen → tally P (values ++ [""]) n seen.
Proof. intros [Hle H]. split; [done|]. intros Hn v [Hv| ->%list_elem_of_singleton]%elem_of_app Hne; [by apply H|done]. Qed.
Lemma formats_NoDup : NoDup dateFormats ∧ NoDup (clock_format <$> dateFormats).
Proof. split; apply (bool_decide_unpack _); vm_compute; exact I. Qed.
Lemma observe_ok values v raw : observed_ok values v → observed_ok (values ++ [raw]) (observe v raw).
Proof.
  intros [[Hs0 Hs] Hb Hi Hd Hda Hdt [Hf1 Hf2]]. unfold observe. destruct (String.eqb_spec raw "") as [->|Hne].
  - split; [|by apply tally_snoc_empty..|intros; apply tally_snoc_empty; auto|intros; apply tally_snoc_empty; auto|done].
    split; [done|]. intros H x [Hx| ->%list_elem_of_singleton]%elem_of_app; [by apply Hs|done].
  - destruct formats_NoDup as [N1 N2]. split; cbn [in_seen in_boolean in_integer in_decimal in_dates in_datetimes].
    + split; [lia|]. lia.
    + by apply tally_step.
    + by apply tally_step.
    + by apply tally_step.
    + intros f Hf. rewrite count_formats_lookup by done. rewrite bool_decide_true by done. by apply (tally_step (λ x, parsesExactly x (dateLayout TypeDate f))); [|apply Hda].
    + intros f Hf. rewrite count_formats_lookup by done. rewrite bool_decide_true by done. by apply (tally_step (λ x, parsesExactly x (dateLayout TypeDateTime f))); [|apply Hdt].
    + split; intros f n; apply count_formats_dom; done.
Qed.
Lemma observed_values values : observed_ok values (observed values).
Proof.
  unfold observed. assert (H : ∀ l seen v, observed_ok seen v → observed_ok (seen ++ l) (foldl observe v l)).
  { intros l. induction l as [|x l IH]; intros seen v Hv; cbn [foldl]; [by rewrite app_nil_r|].
    replace (seen ++ x :: l) with ((seen ++ [x]) ++ l) by (by rewrite <- app_assoc). by apply IH, observe_ok. }
  apply (H values [] new_inferer). split; cbn.
  - split; [lia|]. intros _ x Hx. by apply elem_of_nil in Hx.
  - split; [lia|]. intros _ x Hx. by apply elem_of_nil in Hx.
  - split; [lia|]. intros _ x Hx. by apply elem_of_nil in Hx.
  - split; [lia|]. intros _ x Hx. by apply elem_of_nil in Hx.
  - intros f _. split; [done|]. intros _ x Hx. by apply elem_of_nil in Hx.
  - intros f _. split; [done|]. intros _ x Hx. by apply elem_of_nil in Hx.
  - split; intros f n H0; done.
Qed.
Lemma fitting_eq values seen entries : fitting values seen entries =
  match filter (λ p, p.2 = seen) entries with (format, _) :: _ => if unambiguousFormat values seen then Some format else None | [] => None end.
Proof.
  induction entries as [|[format n] entries IH]; [done|]. cbn [fitting]. rewrite filter_cons. cbn [snd]. destruct (Z.eqb_spec n seen) as [->|Hn].
  - rewrite decide_True by done. cbn [andb]. destruct (unambiguousFormat values seen) eqn:E; [done|]. rewrite IH. destruct (filter _ entries) as [|[f m] l]; [done|]. done.
  - rewrite decide_False by done. cbn [andb]. apply IH.
Qed.
(** The order of the iteration does not matter. *)
Lemma fitting_order values seen entries : entries ≡ₚ map_to_list values → fitting values seen entries = fitting values seen (map_to_list values).
Proof.
  intros Hp. rewrite !fitting_eq. assert (Hf : filter (λ p, p.2 = seen) entries ≡ₚ filter (λ p, p.2 = seen) (map_to_list values)) by (by rewrite Hp).
  unfold unambiguousFormat. destruct (filter (λ p, p.2 = seen) (map_to_list values)) as [|[f n] [|p l]]; cbn [length Nat.eqb].
  - by apply Permutation_nil_r in Hf as ->.
  - apply Permutation_singleton_r in Hf as ->. done.
  - by destruct (filter (λ p, p.2 = seen) entries) as [|[? ?] ?].
Qed.
Lemma fitting_Some values seen entries f : fitting values seen entries = Some f → (f, seen) ∈ entries.
Proof.
  induction entries as [|[g n] entries IH]; [done|]. cbn [fitting]. destruct (Z.eqb_spec n seen) as [->|]; cbn [andb].
  - destruct (unambiguousFormat values seen); [intros [= ->]; by left|intros H; right; auto].
  - intros H. right. auto.
Qed.

Lemma suggestion_order order v : (∀ m, order m ≡ₚ map_to_list m) → suggestion order v = suggestion map_to_list v.
Proof. intros Ho. unfold suggestion. by rewrite !(fitting_order _ _ (order _)) by done. Qed.
(** The errors a value of the right form can still cause. *)
Definition out_of_range (t : LogicalType) (e : error) : Prop :=
  (t = TypeInteger ∧ e = Errorf "value is outside signed BIGINT range") ∨
  (t = TypeDecimal ∧ (e = Errorf "value exceeds DECIMAL(65,30)" ∨ e = Errorf "value is not a valid decimal")).
(** A value that satisfies what was counted. *)
Definition has_form (c : Column) (v : string) : Prop :=
  match co_type c with
  | TypeText => True
  | TypeBoolean => EqualFold v "true" || EqualFold v "false" = true
  | TypeInteger => integerPattern v = true
  | TypeDecimal => decimalPattern v = true
  | TypeDate | TypeDateTime => ∃ format, co_format c = Some format ∧ parsesExactly v (dateLayout (co_type c) format) = true
  | TypeOther _ => False
  end.
Lemma has_form_converts `{DecimalLibrary} c v : (v ≠ "" → has_form c v) → match convert v c with Ok _ => True | Err e => out_of_range (co_type c) e end.
Proof.
  intros Hf. unfold convert. destruct (String.eqb_spec v "") as [|Hne]; [done|]. specialize (Hf Hne). unfold has_form in Hf. unfold out_of_range.
  assert (Hdate : ∀ t, (∃ format, co_format c = Some format ∧ parsesExactly v (dateLayout t format) = true) →
    match match co_format c with
      | None => Err (Errorf "column date format is missing")
      | Some format => match dateLayout t format with
          | None => Err (Errorf "column date format is invalid")
          | Some layout => match parse_exact layout v with Some at_ => Ok (CTime at_) | None => Err (Errorf ("value does not match " +:+ format)) end end
      end with Ok _ => True | Err e => (t = TypeInteger ∧ e = Errorf "value is outside signed BIGINT range") ∨
        (t = TypeDecimal ∧ (e = Errorf "value exceeds DECIMAL(65,30)" ∨ e = Errorf "value is not a valid decimal")) end).
  { intros t (format & -> & Hp). unfold parsesExactly in Hp. destruct (dateLayout t format); [|done]. by destruct (parse_exact _ v). }
  destruct (co_type c); [done| | |by apply Hdate|by apply Hdate| |done].
  - rewrite Hf. cbn [negb]. destruct (ParseInt v); [done|]. by left.
  - rewrite Hf. cbn [negb]. destruct (span_digits _) as [whole rest]. destruct (_ || _ || _); [right; auto|]. destruct (decimal_text v); [done|]. right. auto.
  - destruct (EqualFold v "true"); [done|]. cbn [orb] in Hf. by rewrite Hf.
Qed.

(** C36: whatever order the formats are looked at in, the type suggested
    for a column is the same, it is one a column can have, and every value
    that was seen converts to it, unless a number has the form of the type
    and is out of the range of the database. *)
Theorem suggestion_fits (decimals : DecimalLibrary) (order : gmap string Z → list (string * Z)) (values : list string) (c : Column) :
  (∀ m, order m ≡ₚ map_to_list m) → (co_type c, co_format c) = suggestion order (observed values) →
  suggestion order (observed values) = suggestion map_to_list (observed values) ∧ is_ok (sqlType c) = true ∧
  ∀ v, v ∈ values → match convert v c with Ok _ => True | Err e => out_of_range (co_type c) e end.
Proof.
  intros Ho Hc. pose proof (suggestion_order order (observed values) Ho) as Heq. split; [done|]. rewrite Heq in Hc. clear Heq.
  destruct (observed_values values) as [[Hs0 Hs] [_ Hb] [_ Hi] [_ Hd] Hda Hdt [Hf1 Hf2]]. unfold suggestion in Hc.
  assert (Hgoal : is_ok (sqlType c) = true ∧ ∀ v, v ∈ values → v ≠ "" → has_form c v); [|destruct Hgoal as [H1 H2]; split; [done|intros v Hv; apply has_form_converts; auto]].
  unfold has_form, sqlType. destruct (Z.eqb_spec (in_seen (observed values)) 0) as [Hz|Hz].
  { injection Hc as -> ->. split; [done|]. done. }
  destruct (Z.eqb_spec (in_boolean (observed values)) (in_seen (observed values))) as [Hbb|_]; [injection Hc as -> ->; split; [done|auto]|].
  destruct ((_ =? _) && _) eqn:Ei; [apply andb_true_iff in Ei as [Ei%Z.eqb_eq _]; injection Hc as -> ->; split; [done|auto]|].
  destruct (Z.eqb_spec (in_decimal (observed values)) (in_seen (observed values))) as [Hdd|_]; [injection Hc as -> ->; split; [done|auto]|].
  destruct (fitting (in_datetimes _) _ _) as [f|] eqn:Ef.
  { injection Hc as -> ->. apply fitting_Some, elem_of_map_to_list in Ef. pose proof (Hf2 _ _ Ef) as Hin. split.
    - assert (Hv : validDateFormat (Some f) true = true); [|by rewrite Hv]. apply existsb_exists. apply list_elem_of_fmap in Hin as (g & -> & Hg). exists g.
      split; [by apply list_elem_of_In|]. apply String.eqb_refl.
    - intros v Hv Hne. exists f. split; [done|]. destruct (Hdt f Hin) as [_ H]. apply H; [by rewrite Ef|done|done]. }
  destruct (fitting (in_dates _) _ _) as [f|] eqn:Ed; [|injection Hc as -> ->; done].
  injection Hc as -> ->. apply fitting_Some, elem_of_map_to_list in Ed. pose proof (Hf1 _ _ Ed) as Hin. split.
  - assert (Hv : validDateFormat (Some f) false = true); [|by rewrite Hv]. apply existsb_exists. exists f. split; [by apply list_elem_of_In|]. apply String.eqb_refl.
  - intros v Hv Hne. exists f. split; [done|]. destruct (Hda f Hin) as [_ H]. apply H; [by rewrite Ed|done|done].
Qed.
