(* ===== verification/DatasetWorker.v ===== *)
(** * Custom dataset workers (src/internal/customdataset/worker.go)

    [execute] as a program that calls the repository, the storage and the
    context: it reads the dataset, makes its table, streams the file into
    batches, and publishes.  Any call may fail; an [INSERT] or a commit may
    also have happened when its answer is an error. *)

From S2P Require Import Prelude Calendar Json Access AuditTrail Table Programs FixedPlans FixedCsv BrowserStore ReportParams DatasetStore Datasets DatasetCsv.
From stdpp Require Import gmap sorting.
From Stdlib Require Import FunctionalExtensionality.

Open Scope Z_scope.

Definition batchRows : nat := 500.
Definition batchParameters : Z := 60000.
Definition batchSoftBytes : Z := Z.shiftl 4 20.
Definition packetReserve : Z := Z.shiftl 64 10.

(** ** The calls *)

(** The end of a transaction: committed with a result, refused, or an error
    of the commit itself, which leaves open whether it happened. *)
Inductive commit_answer (A : Type) := Committed (a : A) | CommitError (e : error) | Aborted (e : error).
Arguments Committed {A} a.
Arguments CommitError {A} e.
Arguments Aborted {A} e.
(** Why the context ended, when the heartbeat or a shutdown ended it. *)
Inductive cause := CauseClaimLost | CauseLeaseUnproven | CauseCanceled.
#[export] Instance cause_eq_dec : EqDecision cause. Proof. solve_decision. Defined.

Inductive call :=
  | CFind (dataset : Z)
  | CColumns (dataset : Z)
  | CFindUpload (id : Z)
  | CEnsure (da : Dataset) (columns : list Column) (import : Z)
  | CPacket
  | COpen (key : string)
  | CInsert (dataset : Z) (rows : list data_row)
  | CCount (dataset import attempt first last : Z)
  | CProgress (id : Z) (owner : string) (attempt : Z) (phase : string) (records staged : Z)
  | CPublish (job : Import) (owner : string) (rows : Z)
  | CInspectPublished (job : Import)
  | CCause
  | CFail (job : Import) (owner class message : string) (diagnostics : list Diagnostic) (truncated : bool)
  | CInspectFailed (job : Import).
(** [COpen] answers with the text of the file and where reading it breaks
    off: before which record, and with which error. *)
Definition answer (c : call) : Type :=
  match c with
  | CFind _ => result Dataset
  | CColumns _ => result (list Column)
  | CFindUpload _ => result Upload
  | CEnsure _ _ _ => result unit
  | CPacket => result Z
  | COpen _ => result (string * option (nat * string))
  | CInsert _ _ => result unit
  | CCount _ _ _ _ _ => result Z
  | CProgress _ _ _ _ _ _ => result bool
  | CPublish _ _ _ => commit_answer unit
  | CInspectPublished _ => result bool
  | CCause => option cause
  | CFail _ _ _ _ _ _ => commit_answer bool
  | CInspectFailed _ => result bool
  end.
Notation program := (prog answer).

(** ** Batches *)

Record staged := mkStaged { sg_source : Z; sg_values : list cell; sg_bytes : Z }.
Definition cell_bytes (c : cell) : Z :=
  match c with
  | CNull => 1
  | CText s | CDecimal s => Z.of_nat (String.length s) + 9
  | CInteger _ | CTime _ | CBool _ => 16
  end.
Definition estimateValues (values : list cell) : Z := foldl (λ n c, n + cell_bytes c) 0 values.
Fixpoint double_backticks (s : string) : string :=
  match s with
  | "" => ""
  | String c s => if (c =? "`")%char then String c (String c (double_backticks s)) else String c (double_backticks s)
  end.
Definition quoteIdentifier (value : string) : string := "`" +:+ double_backticks value +:+ "`".
Definition TableName (dataset : Z) : string := "custom_dataset_" +:+ FormatInt dataset.

(** The records waiting, their bytes, the rows inserted. *)
Record batch := mkBatch { bt_records : list staged; bt_bytes : Z; bt_rows : Z }.
Definition empty_batch : batch := mkBatch [] 0 0.
Definition recalculate (records : list staged) (rows : Z) : batch := mkBatch records (foldl (λ n r, n + sg_bytes r) 0 records) rows.

Section Inserter.
(** The fields of [inserter] that never change. *)
Context (dataset : Z) (columns : list Column) (job : Import) (owner : string) (packet : Z).
Local Open Scope prog_scope.

Definition column_names : list string := ["_import_id"; "_import_attempt"; "_source_record_number"] ++ (co_physical <$> columns).
Definition row_placeholder : string := "(" +:+ String.concat "," (replicate (length column_names) "?") +:+ ")".
Definition statement (count : nat) : string :=
  "INSERT INTO " +:+ quoteIdentifier (TableName dataset) +:+ " (" +:+ String.concat "," (quoteIdentifier <$> column_names) +:+ ") VALUES " +:+
  String.concat "," (replicate count row_placeholder).
Definition estimatePacket (b : batch) : Z :=
  Z.of_nat (String.length (statement (length (bt_records b)))) + bt_bytes b +
  Z.of_nat (length (bt_records b) * (length columns + 3) * 10) + packetReserve.
Definition row_of (r : staged) : data_row := mkDataRow (ip_id job) (ip_attempt job) (sg_source r) (sg_values r).

Definition too_large : failure := InfrastructureError "one legal CSV row cannot be proven below the server max_allowed_packet".
(** The rows were inserted: the progress of the attempt. *)
Definition flushed (last : Z) (b : batch) : program (batch * option failure) :=
  let rows := bt_rows b + Z.of_nat (length (bt_records b)) in
  Call (CProgress (ip_id job) owner (ip_attempt job) "staging" last rows) (λ r : result bool,
    match r with
    | Err e => Ret (mkBatch (bt_records b) (bt_bytes b) rows, Some (Fails e))
    | Ok false => Ret (mkBatch (bt_records b) (bt_bytes b) rows, Some (Fails ErrImportClaimLost))
    | Ok true => Ret (mkBatch [] 0 rows, None)
    end).
(** One [INSERT]; an error is followed by a count of the rows it was for. *)
Definition insert_batch (first : staged) (b : batch) : program (batch * option failure) :=
  let last := sg_source (default first (last (bt_records b))) in
  Call (CInsert dataset (row_of <$> bt_records b)) (λ r : result unit,
    match r with
    | Ok _ => flushed last b
    | Err e =>
        Call (CCount dataset (ip_id job) (ip_attempt job) (sg_source first) last) (λ n : result Z,
          match n with
          | Err _ => Ret (b, Some (Fails e))
          | Ok present =>
              if present =? 0 then Ret (b, Some (Fails e)) else
              if negb (present =? Z.of_nat (length (bt_records b)))
              then Ret (b, Some (InfrastructureError "custom dataset batch outcome was partial and could not be reconciled safely"))
              else flushed last b
          end)
    end).
(** [fuel]: the number of records is enough, each half has fewer. *)
Fixpoint flush (fuel : nat) (b : batch) : program (batch * option failure) :=
  match fuel with
  | O => Ret (b, Some too_large)
  | S fuel =>
      match bt_records b with
      | [] => Ret (b, None)
      | first :: rest =>
          if (packet <=? packetReserve) || (packet - packetReserve <? estimatePacket b) then
            match rest with
            | [] => Ret (b, Some too_large)
            | _ :: _ =>
                let mid := Nat.div2 (length (bt_records b)) in
                let! r := flush fuel (recalculate (take mid (bt_records b)) (bt_rows b)) in
                match r with
                | (l, Some e) => Ret (l, Some e)
                | (l, None) => flush fuel (recalculate (drop mid (bt_records b)) (bt_rows l))
                end
            end
          else insert_batch first b
      end
  end.
Definition Flush (b : batch) : program (batch * option failure) := flush (S (length (bt_records b))) b.
(** The batch has to go before the record. *)
Definition is_full (b : batch) (bytes : Z) : bool :=
  negb (Nat.eqb (length (bt_records b)) 0) &&
  (Nat.eqb (length (bt_records b)) batchRows || (batchParameters <? Z.of_nat ((length (bt_records b) + 1) * (length columns + 3))) ||
   (batchSoftBytes <? bt_bytes b + bytes)).
Definition append_record (b : batch) (record : staged) : batch * option failure :=
  let b := mkBatch (bt_records b ++ [record]) (bt_bytes b + sg_bytes record) (bt_rows b) in
  if Nat.eqb (length (bt_records b)) 1 && (packet <=? estimatePacket b)
  then (b, Some (InfrastructureError "one legal CSV row requires a larger MySQL packet than the server max_allowed_packet")) else (b, None).
Definition Add (b : batch) (source : Z) (values : list cell) : program (batch * option failure) :=
  let record := mkStaged source values (estimateValues values) in
  if is_full b (sg_bytes record) then
    let! r := Flush b in
    match r with
    | (b, Some e) => Ret (b, Some e)
    | (b, None) => Ret (append_record b record)
    end
  else Ret (append_record b record).
End Inserter.

(** ** An attempt *)

Definition is_ErrInvalid (e : failure) : bool := match e with Fails (Errorf m) => has_prefix m "invalid custom dataset: " | _ => false end.
Definition failure_text (e : failure) : string := match e with Fails e => error_text e | InfrastructureError reason => reason end.
Definition publicWorkerError (class : string) (e : failure) : string :=
  if (class =? "validation")%string || (class =? "configuration")%string then truncate (failure_text e) 500 else
  if bool_decide (e = Fails ErrImportLeaseUnproven) then "Import stopped because worker ownership could not be verified."
  else "The import could not be completed safely. Review infrastructure logs and retry.".
(** What [execute] knows when its work is over. *)
Record outcome := mkOutcome { oc_class : string; oc_diagnostics : list Diagnostic; oc_truncated : bool; oc_error : option failure }.
Inductive execution := Completed | ClaimLost | Failed (recorded : bool).

Section Execute.
Context {decimals : DecimalLibrary} (job : Import) (owner : string).
Local Open Scope prog_scope.

Definition failing (class : string) (e : failure) : outcome := mkOutcome class [] false (Some e).
Definition publish (rows : Z) : program (option failure) :=
  Call (CPublish job owner rows) (λ r : commit_answer unit,
    match r with
    | Committed _ => Ret None
    | Aborted e => Ret (Some (Fails e))
    | CommitError e =>
        Call (CInspectPublished job) (λ o : result bool,
          match o with
          | Ok true => Ret None
          | Ok false => Ret (Some (Fails e))
          | Err _ => Ret (Some (InfrastructureError "custom dataset publication outcome could not be determined after a commit error"))
          end)
    end).
Definition source_of (file : string * option (nat * string)) : result reader :=
  let? r := newReader file.1 (ip_delimiter job) in Ok (match file.2 with Some (n, message) => interrupted n message r | None => r end).
(** The callback of [Stream]. *)
Definition consume (da : Dataset) (columns : list Column) (packet : Z) (b : batch) (record : Z) (values : list cell) : program (batch * option failure) :=
  if (MaxDataRows <? da_rows da + bt_rows b + Z.of_nat (length (bt_records b)) + 1) && (ip_mode job =? ModeAppend)%string
  then Ret (b, Some (invalid "append would exceed 1000000 published rows"))
  else Add (da_id da) columns job owner packet b record values.
(** From the open file on. *)
Definition stage (da : Dataset) (columns : list Column) (packet : Z) (file : string * option (nat * string)) : program outcome :=
  let! r := Stream (consume da columns packet) (ip_header job) columns (source_of file) empty_batch in
  let '(b, st) := r in
  match st_error st with
  | Some e => Ret (mkOutcome "validation" (st_diagnostics st) (st_truncated st) (Some e))
  | None =>
      if negb (Nat.eqb (length (st_diagnostics st)) 0)
      then Ret (mkOutcome "validation" (st_diagnostics st) (st_truncated st) (Some (invalid "CSV validation failed"))) else
      let! f := Flush (da_id da) columns job owner packet b in
      match f.2 with
      | Some e => Ret (failing "infrastructure" e)
      | None =>
          Call (CProgress (ip_id job) owner (ip_attempt job) "publishing" (st_records st) (st_rows st)) (λ o : result bool,
            match o with
            | Err e => Ret (failing "infrastructure" (Fails e))
            | Ok false => Ret (failing "infrastructure" (Fails ErrImportClaimLost))
            | Ok true => let! e := publish (st_rows st) in Ret (mkOutcome "publication" [] (st_truncated st) e)
            end)
      end
  end.
Definition attempt_body : program outcome :=
  let failed e := Ret (failing "infrastructure" (Fails e)) in
  Call (CFind (ip_dataset job)) (λ r : result Dataset, match r with Err e => failed e | Ok da =>
    if bool_decide (da_status da = DatasetArchived) || negb (da_schema da =? ip_schema job) then failed ErrDatasetChanged else
    Call (CColumns (da_id da)) (λ r : result (list Column), match r with Err e => failed e | Ok columns =>
      if Nat.eqb (length columns) 0 then failed (Errorf "custom dataset has no columns") else
      Call (CFindUpload (ip_upload job)) (λ r : result Upload, match r with Err e => failed e | Ok up =>
        if negb (has_upload_status UploadRetained up) then failed (Errorf "custom dataset upload is unavailable") else
        Call (CEnsure da columns (ip_id job)) (λ r : result unit, match r with Err e => failed e | Ok _ =>
          Call CPacket (λ r : result Z, match r with Err e => failed e | Ok packet =>
            Call (COpen (up_key up)) (λ r : result (string * option (nat * string)), match r with Err e => failed e | Ok file =>
              stage da columns packet file
            end) end) end) end) end) end).
(** The failure recorded for an error, by the cause of the context's end. *)
Definition failure_class (class : string) (e : failure) (c : option cause) : string * failure :=
  let '(class, e) := if bool_decide (c = Some CauseLeaseUnproven) then ("lease_unproven", Fails ErrImportLeaseUnproven) else (class, e) in
  let class := if is_ErrInvalid e then "validation" else class in
  (match e with InfrastructureError _ => "configuration" | _ => class end, e).
Definition record_failure (class : string) (e : failure) (diagnostics : list Diagnostic) (truncated : bool) : program execution :=
  Call (CFail job owner class (publicWorkerError class e) diagnostics truncated) (λ r : commit_answer bool,
    match r with
    | Committed owned => Ret (Failed owned)
    | Aborted _ => Ret (Failed false)
    | CommitError _ => Call (CInspectFailed job) (λ o : result bool, match o with Ok owned => Ret (Failed owned) | Err _ => Ret (Failed false) end)
    end).
Definition conclude (o : outcome) : program execution :=
  match oc_error o with
  | None => Ret Completed
  | Some e =>
      Call CCause (λ c : option cause,
        if bool_decide (e = Fails ErrImportClaimLost) || bool_decide (c = Some CauseClaimLost) then Ret ClaimLost else
        let '(class, e) := failure_class (oc_class o) e c in record_failure class e (oc_diagnostics o) (oc_truncated o))
  end.
Definition execute : program execution := let! o := attempt_body in conclude o.
End Execute.

(** ** The batches end *)

Lemma pbind_ext {A B} (m : program A) (f g : A → program B) : (∀ a, f a = g a) → pbind m f = pbind m g.
Proof. intros H. f_equal. by extensionality a. Qed.
(** Any fuel above the number of records gives the same program. *)
Lemma flush_enough dataset columns job owner packet : ∀ fuel fuel' b, (length (bt_records b) < fuel)%nat → (length (bt_records b) < fuel')%nat →
  flush dataset columns job owner packet fuel b = flush dataset columns job owner packet fuel' b.
Proof.
  induction fuel as [|fuel IH]; intros [|fuel'] b H H'; try lia. cbn [flush]. destruct (bt_records b) as [|first rest] eqn:E; [done|].
  destruct (_ || _); [|done]. destruct rest as [|second rest]; [done|]. rewrite <- E in H, H' |- *.
  assert (Hlen : (2 <= length (bt_records b))%nat) by (rewrite E; cbn [length]; apply le_n_S, le_n_S, Nat.le_0_l).
  pose proof (Nat.lt_div2 (length (bt_records b))) as Hdecr. assert (Hpos : (0 < Nat.div2 (length (bt_records b)))%nat) by (rewrite E; apply Nat.lt_0_succ).
  rewrite (IH fuel') by (cbn [recalculate bt_records]; rewrite length_take; lia). apply pbind_ext. intros [l [e|]]; [done|]. apply IH; cbn [recalculate bt_records]; rewrite length_drop; lia.
Qed.
Lemma Flush_enough dataset columns job owner packet b fuel : (length (bt_records b) < fuel)%nat →
  Flush dataset columns job owner packet b = flush dataset columns job owner packet fuel b.
Proof. intros H. apply flush_enough; lia. Qed.
