(* ===== verification/DatasetAttempt.v ===== *)
(** * What an attempt does (src/internal/customdataset/worker.go)

    [execute] keeps its part whatever its calls answer: an attempt inserts
    rows of its own number only, increasing, into the table it ensured; it
    stops after an [INSERT] it cannot account for; and it asks for
    publication only once every row of its file is inserted. *)

From S2P Require Import Prelude Calendar Json Access AuditTrail Table Programs FixedPlans FixedCsv BrowserStore ReportParams DatasetStore Datasets DatasetCsv DatasetWorker.
From stdpp Require Import gmap sorting.

Open Scope Z_scope.

(** How an attempt stands with its import: the import is finished, another
    attempt has it or none yet, or the attempt owns it. *)
Inductive standing := Gone | Superseded | Current.
Definition rank (s : standing) : nat := match s with Gone => 0 | Superseded => 1 | Current => 2 end.
(** What the attempt has done: nothing to its table; rows inserted; an
    [INSERT] of more rows failed; it stopped; it asked for publication. *)
Inductive phase := Unstaged | Staging (rows : list (Z * list cell)) | Unsure (rows more : list (Z * list cell)) | Broken | Sent.
Record progress := mkProgress { pg_standing : standing; pg_phase : phase }.

Definition attempt_row (job : Import) (r : Z * list cell) : data_row := mkDataRow (ip_id job) (ip_attempt job) r.1 r.2.
Definition pairs (records : list staged) : list (Z * list cell) := (λ r, (sg_source r, sg_values r)) <$> records.
(** The data rows of a file, when it reads to its end. *)
Definition rows_of_file `{DecimalLibrary} (job : Import) (columns : list Column) (source : string) : option (list (Z * list cell)) :=
  match newReader source (ip_delimiter job) with
  | Ok (records, None) => Some (data_rows (ip_header job) columns 1 records)
  | _ => None
  end.

Section Attempt.
Context {decimals : DecimalLibrary} (job : Import) (owner : string).
(** The columns of the dataset while the import is active; the key and the
    content of the upload. *)
Context (frozen : list Column) (key source : string).

(** What the attempt may call. *)
Definition allowed (c : call) (s : progress) : Prop :=
  match c with
  | CFind dataset | CColumns dataset => dataset = ip_dataset job
  | CFindUpload id => id = ip_upload job
  | CEnsure da columns import => da_id da = ip_dataset job ∧ import = ip_id job ∧ pg_phase s = Unstaged ∧ (pg_standing s ≠ Gone → columns = frozen)
  | COpen k => k = key
  | CInsert dataset rows => dataset = ip_dataset job ∧ ∃ old more, pg_phase s = Staging old ∧ rows = attempt_row job <$> more ∧ more ≠ [] ∧
      increasing (old ++ more)
  | CCount dataset import attempt first last => dataset = ip_dataset job ∧ import = ip_id job ∧ attempt = ip_attempt job ∧
      ∃ old more r r', pg_phase s = Unsure old more ∧ head more = Some r ∧ first = r.1 ∧ list.last more = Some r' ∧ last = r'.1
  | CProgress id o attempt _ _ staged => id = ip_id job ∧ o = owner ∧ attempt = ip_attempt job ∧ 0 <= staged
  | CPublish j o rows => j = job ∧ o = owner ∧ rows <= MaxDataRows ∧ ∃ all, pg_phase s = Staging all ∧ rows = Z.of_nat (length all) ∧
      (pg_standing s ≠ Gone → rows_of_file job frozen source = Some all)
  | CFail j o _ _ _ _ => j = job ∧ o = owner
  | CInspectPublished j | CInspectFailed j => j = job
  | CPacket | CCause => True
  end.
(** What a call can answer, and what has been done after it.  Standing is
    lost at any time and never regained. *)
Definition steps (c : call) (s : progress) : answer c → progress → Prop :=
  let keeps (s' : progress) := pg_phase s' = pg_phase s in
  match c return answer c → progress → Prop with
  | CFind dataset => λ r s', keeps s' ∧ ∀ da, r = Ok da → da_id da = dataset
  | CColumns _ => λ r s', keeps s' ∧ ∀ columns, r = Ok columns → pg_standing s' ≠ Gone → columns = frozen
  | CFindUpload _ => λ r s', keeps s' ∧ ∀ up, r = Ok up → up_key up = key
  | CEnsure _ _ _ => λ r s', pg_phase s' = if is_ok r then Staging [] else Unstaged
  | COpen _ => λ r s', keeps s' ∧ ∀ file, r = Ok file → file.1 = source
  | CInsert _ rows => λ r s', ∃ old more, pg_phase s = Staging old ∧ rows = attempt_row job <$> more ∧
      pg_phase s' = if is_ok r then Staging (old ++ more) else Unsure old more
  | CCount _ _ _ _ _ => λ r s', ∃ old more, pg_phase s = Unsure old more ∧
      pg_phase s' = match r with Ok n => if n =? Z.of_nat (length more) then Staging (old ++ more) else Broken | Err _ => Broken end
  | CPublish _ _ _ => λ r s', pg_phase s' = Sent
  | _ => λ r s', keeps s'
  end.
Definition answers (c : call) (s : progress) (r : answer c) (s' : progress) : Prop :=
  (rank (pg_standing s') <= rank (pg_standing s))%nat ∧ steps c s r s'.
Notation ensures := (ensures allowed answers).

(** An attempt that lost its standing does no more than it would have. *)
Lemma ensures_drop {A} (m : program A) st st' ph (post : A → progress → Prop) :
  (rank st' <= rank st)%nat → (∀ a, post a (mkProgress st ph) → post a (mkProgress st' ph)) → ensures m (mkProgress st ph) post → ensures m (mkProgress st' ph) post.
Proof.
  intros Hr Hp. assert (Hgone : st' ≠ Gone → st ≠ Gone) by (intros Hs ->; apply Hs; destruct st'; [done|cbn in Hr; lia..]).
  destruct m as [a|c k]; cbn; [apply Hp|]. intros [Ha H]. split.
  - destruct c; cbn in *; naive_solver.
  - intros r s' [Hr' Hs]. apply H. split; [cbn in *; lia|]. destruct c; exact Hs.
Qed.

(** ** Batches *)

Section Inserts.
Context (columns : list Column) (packet : Z).

(** While the import is active the columns are the frozen ones. *)
Definition known (s : progress) : Prop := pg_standing s ≠ Gone → columns = frozen.
Lemma known_drop s s' : (rank (pg_standing s') <= rank (pg_standing s))%nat → known s → known s'.
Proof. intros Hr Hk Hs. apply Hk. intros E. rewrite E in Hr. apply Hs. destruct (pg_standing s'); [done|cbn in Hr; lia..]. Qed.
(** The batch took [rows]; some are inserted, the others wait. *)
Definition batched (rows : list (Z * list cell)) (b : batch) (s : progress) : Prop :=
  known s ∧ increasing rows ∧ ∃ old, pg_phase s = Staging old ∧ bt_rows b = Z.of_nat (length old) ∧ rows = old ++ pairs (bt_records b).
Definition emptied (rows : list (Z * list cell)) (r : batch * option failure) (s : progress) : Prop :=
  known s ∧ match r.2 with None => batched rows r.1 s ∧ bt_records r.1 = [] | Some _ => True end.

Lemma row_of_pairs records : row_of job <$> records = attempt_row job <$> pairs records.
Proof. unfold pairs. by rewrite <- list_fmap_compose. Qed.
Lemma attempt_row_inj (rows rows' : list (Z * list cell)) : attempt_row job <$> rows = attempt_row job <$> rows' → rows = rows'.
Proof. apply list_fmap_eq_inj. intros [n v] [n' v'] [= -> ->]. done. Qed.
Lemma last_pairs first rest : ∃ r', list.last (pairs (first :: rest)) = Some r' ∧ r'.1 = sg_source (default first (list.last (first :: rest))).
Proof.
  unfold pairs. rewrite fmap_last. destruct (last_is_Some (first :: rest)) as [_ H]. destruct (H ltac:(done)) as [x ->]. cbn. by eexists.
Qed.

Lemma flushed_ensures last b s old rows : known s → increasing rows → pg_phase s = Staging rows → bt_rows b = Z.of_nat (length old) →
  rows = old ++ pairs (bt_records b) → ensures (flushed job owner last b) s (emptied rows).
Proof.
  intros Hk Hinc Hph Hb Hrows. assert (Hlen : bt_rows b + Z.of_nat (length (bt_records b)) = Z.of_nat (length rows)).
  { rewrite Hrows, length_app. unfold pairs. rewrite length_fmap. lia. }
  cbn. split; [split_and!; [done|done|done|lia]|]. intros r s' [Hr Hs]. pose proof (known_drop _ _ Hr Hk) as Hk'. cbn in Hs. destruct r as [[|]|e]; cbn; [|done|done].
  split; [done|]. split; [|done]. split; [done|]. split; [done|]. exists rows. split; [by rewrite Hs|]. cbn. split; [done|]. by rewrite app_nil_r.
Qed.
Lemma insert_batch_ensures first rest b s rows : bt_records b = first :: rest → batched rows b s →
  ensures (insert_batch (ip_dataset job) job owner first b) s (emptied rows).
Proof.
  intros Hb (Hk & Hinc & old & Hph & Hn & Hrows). unfold insert_batch. cbn.
  assert (Hne : pairs (bt_records b) ≠ []) by (by rewrite Hb). split.
  - split; [done|]. exists old, (pairs (bt_records b)). split_and!; [done|apply row_of_pairs|done|by rewrite <- Hrows].
  - intros r s' [Hr Hs]. pose proof (known_drop _ _ Hr Hk) as Hk'. cbn in Hs. destruct Hs as (old' & more & Hph' & Hmore & Hph2).
    rewrite Hph in Hph'. injection Hph' as <-. rewrite row_of_pairs in Hmore. apply attempt_row_inj in Hmore as <-. destruct r as [[]|e]; cbn [is_ok] in Hph2.
    + eapply flushed_ensures; [done|done| |done|done]. by rewrite Hph2, <- Hrows.
    + cbn. split.
      * split_and!; [done..|]. destruct (last_pairs first rest) as (r' & Hl & Hr'). exists old, (pairs (bt_records b)), (sg_source first, sg_values first), r'.
        rewrite Hb. rewrite Hb in Hph2. by split_and!.
      * intros n s2 [Hr2 Hs2]. cbn in Hs2. pose proof (known_drop _ _ Hr2 Hk') as Hk2. destruct Hs2 as (old' & more & Hph' & Hph3). rewrite Hph2 in Hph'. injection Hph' as <- <-.
        destruct n as [present|e']; [|done]. destruct (present =? 0); [done|].
        assert (Hlen : length (pairs (bt_records b)) = length (bt_records b)) by apply length_fmap. rewrite Hlen in Hph3.
        destruct (present =? Z.of_nat (length (bt_records b))); cbn [negb]; [|done]. eapply flushed_ensures; [done|done| |done|done]. by rewrite Hph3, <- Hrows.
Qed.
Lemma pairs_app l k : pairs (l ++ k) = pairs l ++ pairs k.
Proof. apply fmap_app. Qed.
Lemma increasing_app_l l k : increasing (l ++ k) → increasing l.
Proof. unfold increasing. rewrite fmap_app. apply StronglySorted_app_1_l. Qed.
Lemma flush_ensures fuel : ∀ b s rows, batched rows b s → ensures (flush (ip_dataset job) columns job owner packet fuel b) s (emptied rows).
Proof.
  induction fuel as [|fuel IH]; intros b s rows Hb; cbn [flush]; [split; [apply Hb|done]|]. destruct (bt_records b) as [|first rest] eqn:Er; [by split; [apply Hb|]|].
  destruct (_ || _); [|by eapply insert_batch_ensures]. destruct rest as [|second rest]; [split; [apply Hb|done]|]. rewrite <- Er. clear first second rest Er.
  set (mid := Nat.div2 (length (bt_records b))). destruct Hb as (Hk & Hinc & old & Hph & Hn & Hrows). apply ensures_bind.
  rewrite <- (take_drop mid (bt_records b)), pairs_app, app_assoc in Hrows.
  eapply ensures_weaken; [|apply (IH _ s (old ++ pairs (take mid (bt_records b))))].
  - intros [l [e|]] s' (Hk' & H); cbn in H |- *; [done|]. destruct H as ((_ & _ & old' & Hph' & Hn' & Hrows') & Hl). rewrite Hl in Hrows'. cbn in Hrows'. rewrite app_nil_r in Hrows'.
    apply IH. split; [done|]. split; [done|]. exists old'. split; [done|]. split; [done|]. cbn. by rewrite <- Hrows'.
  - split; [done|]. split; [|by exists old]. rewrite Hrows in Hinc. by eapply increasing_app_l.
Qed.
Lemma Add_ensures b s rows n values : batched rows b s → Forall (λ r, r.1 < n) rows →
  ensures (DatasetWorker.Add (ip_dataset job) columns job owner packet b n values) s (λ r s', known s' ∧ match r.2 with None => batched (rows ++ [(n, values)]) r.1 s' | Some _ => True end).
Proof.
  intros Hb Hlt. assert (Happ : ∀ b s, batched rows b s → let r := append_record (ip_dataset job) columns packet b (mkStaged n values (estimateValues values)) in
    known s ∧ match r.2 with None => batched (rows ++ [(n, values)]) r.1 s | Some _ => True end).
  { intros b0 s0 (Hk & Hinc & old & Hph & Hn & ->). cbn zeta. split; [done|]. unfold append_record. destruct (_ && _); [done|]. cbn. split; [done|]. split.
    - unfold increasing. rewrite fmap_app. apply StronglySorted_app_2; [|exact Hinc|repeat constructor].
      intros x y Hx Hy. apply list_elem_of_fmap in Hx as (r & -> & Hr). apply list_elem_of_singleton in Hy as ->. rewrite Forall_forall in Hlt. by apply Hlt.
    - exists old. split; [done|]. split; [done|]. cbn. by rewrite pairs_app, app_assoc. }
  unfold DatasetWorker.Add. destruct (is_full _ _ _); [|cbn; by apply Happ]. apply ensures_bind.
  eapply ensures_weaken; [|unfold Flush; by apply (flush_ensures _ b s rows)]. intros [b' [e|]] s' (Hk & H); cbn in H |- *; [done|]. destruct H as [H _]. exact (Happ _ _ H).
Qed.
End Inserts.

(** ** The whole attempt *)

Lemma publish_ensures rows s all : pg_phase s = Staging all → rows = Z.of_nat (length all) → rows <= MaxDataRows →
  (pg_standing s ≠ Gone → rows_of_file job frozen source = Some all) → ensures (publish job owner rows) s (λ _ _, True).
Proof.
  intros Hph Hr Hm Hf. cbn. split; [split_and!; [done|done|done|by exists all]|]. intros r s' _. destruct r as [[]|e|e]; cbn; [done| |done].
  split; [done|]. intros [[]|] s2 _; done.
Qed.
Lemma source_of_complete file records : source_of job file = Ok (records, None) → newReader file.1 (ip_delimiter job) = Ok (records, None).
Proof.
  unfold source_of. destruct (newReader file.1 (ip_delimiter job)) as [r|e]; [|done]. cbn. destruct file.2 as [[n m]|]; [|by intros [= ->]].
  unfold interrupted. destruct (Nat.leb _ _); [by intros [= ->]|done].
Qed.
Lemma stage_ensures da columns packet file s : da_id da = ip_dataset job → file.1 = source → known columns s → pg_phase s = Staging [] →
  ensures (stage job owner da columns packet file) s (λ _ _, True).
Proof.
  intros Hda Hfile Hk Hph. unfold stage. apply ensures_bind.
  eapply ensures_weaken; [|apply (Stream_ensures allowed answers _ _ _ (batched columns) (λ _, known columns))].
  - intros [b st] s1 (Hk1 & H). cbn [fst snd] in H. cbn beta iota. destruct (st_error st) as [e|]; [done|]. destruct (Nat.eqb_spec (length (st_diagnostics st)) 0) as [Hd|Hd]; [|done].
    apply nil_length_inv in Hd. destruct (H eq_refl Hd) as (records & Hsrc & Hb & Hrows & Hmax). cbn [negb]. apply ensures_bind. rewrite Hda.
    eapply ensures_weaken;[|unfold Flush; apply (flush_ensures columns packet _ b s1 _ Hb)].
    intros [b2 [e|]] s2 (Hk2 & H2); cbn in H2; cbn [snd]; [done|]. destruct H2 as ((_ & _ & old & Hph2 & _ & Hold) & Hempty). rewrite Hempty in Hold. cbn in Hold. rewrite app_nil_r in Hold.
    cbn [Programs.ensures allowed]. split; [split_and!; [done|done|done|rewrite Hrows; lia]|]. intros r s3 [Hr3 Hs3]. cbn in Hs3. destruct r as [[]|e]; [|done|done]. apply ensures_bind.
    eapply ensures_weaken; [|apply (publish_ensures _ _ old)]; [done|congruence|by rewrite <- Hold|by rewrite Hrows|].
    intros Hs. pose proof (known_drop _ _ _ Hr3 Hk2 Hs) as <-. unfold rows_of_file. apply source_of_complete in Hsrc. rewrite Hfile in Hsrc. by rewrite Hsrc, <- Hold.
  - by intros rows b s' [? _].
  - intros rows b s' n values Hb Hlt _. unfold consume. destruct (_ && _); [cbn; apply Hb|]. rewrite Hda.
    eapply ensures_weaken; [|by apply Add_ensures]. intros [b' [e|]] s2 (? & ?); done.
  - split; [done|]. split; [constructor|]. by exists [].
Qed.
Lemma attempt_ensures st : ensures (attempt_body job owner) (mkProgress st Unstaged) (λ _ _, True).
Proof.
  unfold attempt_body. cbn [Programs.ensures allowed]. split; [done|]. intros r s1 [_ [Hp1 Hda]]. destruct r as [da|e]; [|done]. specialize (Hda da eq_refl).
  destruct (_ || _); [done|]. cbn [Programs.ensures allowed]. split; [done|]. intros r s2 [_ [Hp2 Hcol]]. destruct r as [columns|e]; [|done].
  assert (Hk2 : known columns s2) by (intros Hs; by apply Hcol). destruct (Nat.eqb _ _); [done|]. cbn [Programs.ensures allowed]. split; [done|].
  intros r s3 [Hr3 [Hp3 Hup]]. destruct r as [up|e]; [|done]. specialize (Hup up eq_refl). destruct (negb _); [done|]. cbn [Programs.ensures allowed].
  pose proof (known_drop _ _ _ Hr3 Hk2) as Hk3. assert (Hph3 : pg_phase s3 = Unstaged) by (rewrite Hp3, Hp2, Hp1; done). split; [done|]. intros r s4 [Hr4 Hp4].
  destruct r as [[]|e]; [|done]. cbn [is_ok steps] in Hp4. pose proof (known_drop _ _ _ Hr4 Hk3) as Hk4. cbn [Programs.ensures allowed]. split; [done|]. intros r s5 [Hr5 Hp5].
  destruct r as [packet|e]; [|done]. pose proof (known_drop _ _ _ Hr5 Hk4) as Hk5. cbn [Programs.ensures allowed]. split; [done|]. intros r s6 [Hr6 [Hp6 Hfile]].
  destruct r as [file|e]; [|done]. apply stage_ensures; [done|by apply Hfile|by eapply known_drop|]. rewrite Hp6, Hp5. exact Hp4.
Qed.
Lemma conclude_ensures o s : ensures (conclude job owner o) s (λ _ _, True).
Proof.
  unfold conclude. destruct (oc_error o) as [e|]; [|done]. cbn [Programs.ensures allowed]. split; [done|]. intros c s1 _. destruct (_ || _); [done|].
  destruct (failure_class _ _ _) as [class e']. unfold record_failure. cbn [Programs.ensures allowed]. split; [done|]. intros r s2 _. destruct r as [b|e2|e2]; [done| |done].
  cbn [Programs.ensures allowed]. split; [done|]. by intros [b|e3] s3 _.
Qed.
(** Every attempt keeps to what it is allowed. *)
Lemma execute_ensures st : ensures (execute job owner) (mkProgress st Unstaged) (λ _ _, True).
Proof. unfold execute. apply ensures_bind. eapply ensures_weaken; [|apply attempt_ensures]. intros o s _. apply conclude_ensures. Qed.
End Attempt.
