(* ===== verification/DatasetWorld.v ===== *)
(** * Custom datasets as a running system

    Users, any number of attempts of any workers, the recovery of lost
    attempts and the cleanup, interleaved call by call.  An attempt can stop
    between any two calls; its connection can break so that a statement or
    a commit has happened although its answer is an error, and an [INSERT]
    can still run after the attempt gave up on it ([pr_late]). *)

From S2P Require Import Prelude Calendar Json Access AuditTrail Table Programs FixedPlans FixedCsv BrowserStore ReportParams DatasetStore Datasets DatasetInv DatasetCsv DatasetWorker DatasetAttempt.
From stdpp Require Import gmap sorting.

Open Scope Z_scope.

(** An attempt: the import as claimed, the rest of its program, and the
    [INSERT]s without an answer that the server may still run. *)
Record process := mkProcess { pr_job : Import; pr_owner : string; pr_left : program execution; pr_late : list (Z * list data_row) }.
Record world := mkWorld { w_db : cdb; w_processes : list process; w_cleanup : list CleanupImport }.

(** Everything but what only an attempt does. *)
Definition background (op : dataset_op) : bool :=
  match op with OpFail _ _ _ _ _ _ | OpPublish _ _ _ | OpProgress _ _ _ _ _ _ => false | _ => true end.
Definition in_range (import attempt first last : Z) (r : data_row) : bool :=
  (dr_import r =? import) && (dr_attempt r =? attempt) && (first <=? dr_source r) && (dr_source r <=? last).

(** A transaction or statement and its answer. *)
Definition committed {A} (m : instant → Tx cdb A) (d : cdb) (r : commit_answer A) (d' : cdb) : Prop :=
  match r with
  | Committed a => ∃ now, m now d = Ok (a, d')
  | CommitError _ => d' = d ∨ ∃ now a, m now d = Ok (a, d')
  | Aborted _ => d' = d
  end.
Definition answered {A} (m : Tx cdb A) (d : cdb) (r : result A) (d' : cdb) : Prop :=
  match r with Ok a => m d = Ok (a, d') | Err _ => d' = d ∨ ∃ a, m d = Ok (a, d') end.
Definition reads {A} (value : A → Prop) (d : cdb) (r : result A) (d' : cdb) : Prop := d' = d ∧ ∀ a, r = Ok a → value a.

Section System.
Context {decimals : DecimalLibrary}.
(** The files of the storage: their keys are random and a file is written
    once, before its upload is recorded. *)
Context (content : string → string).

(** A call of an attempt on the database and the storage. *)
Definition serves_call (c : call) (d : cdb) (late : list (Z * list data_row)) : answer c → cdb → list (Z * list data_row) → Prop :=
  match c return answer c → cdb → list (Z * list data_row) → Prop with
  | CFind dataset => λ r d' late', late' = late ∧ reads (λ da, Find dataset d = Ok da) d r d'
  | CColumns dataset => λ r d' late', late' = late ∧ reads (λ columns, columns = Columns dataset d) d r d'
  | CFindUpload id => λ r d' late', late' = late ∧ reads (λ up, FindUpload id d = Ok up) d r d'
  | CEnsure da columns import => λ r d' late', late' = late ∧
      ((∃ n, run_ensure da columns import n d = (r, d')) ∨ (is_ok r = false ∧ d' = d))
  | CPacket => λ r d' late', late' = late ∧ reads (λ _, True) d r d'
  | COpen key => λ r d' late', late' = late ∧ reads (λ file, file.1 = content key) d r d'
  | CInsert dataset rows => λ r d' late',
      (late' = late ∧ answered (insert_rows dataset rows) d r d') ∨ (is_ok r = false ∧ d' = d ∧ late' = (dataset, rows) :: late)
  | CCount dataset import attempt first last => λ r d' late', late' = late ∧
      reads (λ n, n = Z.of_nat (length (filter (λ r, in_range import attempt first last r = true) (table_rows d dataset)))) d r d'
  | CProgress id owner attempt phase records staged => λ r d' late', late' = late ∧ answered (Progress id owner attempt phase records staged) d r d'
  | CPublish job owner rows => λ r d' late', late' = late ∧ committed (Publish job owner rows) d r d'
  | CInspectPublished job => λ r d' late', late' = late ∧ reads (λ b, inspect_published job d = Ok b) d r d'
  | CCause => λ r d' late', late' = late ∧ d' = d
  | CFail job owner class message diagnostics truncated => λ r d' late', late' = late ∧ committed (Fail_ job owner class message diagnostics truncated) d r d'
  | CInspectFailed job => λ r d' late', late' = late ∧ reads (λ b, inspect_failed job d = Ok b) d r d'
  end.

Inductive world_step : world → world → Prop :=
  | do_operation d d' ps cs op now : background op = true → dataset_tx op now d = Ok (tt, d') → world_step (mkWorld d ps cs) (mkWorld d' ps cs)
  | do_accounts d b ps cs : world_step (mkWorld d ps cs) (mkWorld (set_c_base b d) ps cs)
  | do_claim d d' ps cs owner locked now job : Claim owner locked now d = Ok (Some job, d') →
      world_step (mkWorld d ps cs) (mkWorld d' (ps ++ [mkProcess job owner (execute job owner) []]) cs)
  | do_call d d' ps1 ps2 cs job owner c k late late' r : serves_call c d late r d' late' →
      world_step (mkWorld d (ps1 ++ mkProcess job owner (Call c k) late :: ps2) cs) (mkWorld d' (ps1 ++ mkProcess job owner (k r) late' :: ps2) cs)
  | do_late d d' ps1 ps2 cs job owner left late1 late2 dataset rows : insert_rows dataset rows d = Ok (tt, d') →
      world_step (mkWorld d (ps1 ++ mkProcess job owner left (late1 ++ (dataset, rows) :: late2) :: ps2) cs)
        (mkWorld d' (ps1 ++ mkProcess job owner left (late1 ++ late2) :: ps2) cs)
  | do_candidates d ps cs grace now : world_step (mkWorld d ps cs) (mkWorld d ps (cs ++ CleanupCandidates grace now d))
  | do_cleanup d d' ps cs item n : item ∈ cs → CleanupRows item d = Ok (n, d') → world_step (mkWorld d ps cs) (mkWorld d' ps cs).
Inductive world_reachable : world → Prop :=
  | world_empty base : world_reachable (mkWorld (empty_cdb base) [] [])
  | world_next w w' : world_reachable w → world_step w w' → world_reachable w'.

(** The data rows of an import's file. *)
Definition file_rows (d : cdb) (i : Import) : option (list (Z * list cell)) :=
  match c_uploads d !! ip_upload i with Some up => rows_of_file i (Columns (ip_dataset i) d) (content (up_key up)) | None => None end.
End System.
