(* ===== verification/DatasetSystem.v ===== *)
(** * The custom dataset system keeps its promise

    The invariant of DatasetWorld.v: every attempt has done in its table
    what its phase says, and the view of a dataset shows exactly the rows of
    the files its current generation published. *)

From S2P Require Import Prelude Calendar Json Access AuditTrail Table Programs FixedPlans FixedCsv BrowserStore ReportParams DatasetStore Datasets DatasetInv DatasetCsv DatasetWorker DatasetAttempt DatasetWorld.
From stdpp Require Import gmap sorting.

Open Scope Z_scope.

(** ** How an attempt and its rows stand *)

Definition of_attempt (id attempt : Z) (rows : list data_row) : list data_row := filter (λ r, dr_import r = id ∧ dr_attempt r = attempt) rows.
Definition has_columns (d : cdb) (dataset : Z) (columns : list Column) : Prop :=
  ∃ t, c_tables d !! dataset = Some t ∧ dt_columns t = table_spec columns.
Definition standing_of (d : cdb) (job : Import) (owner : string) : standing :=
  match c_imports d !! ip_id job with
  | Some i => if active i then if owns owner (ip_attempt job) i then Current else Superseded else Gone
  | None => Gone
  end.

(** What the table has of the attempt that owns its import. *)
Definition phase_rows (d : cdb) (job : Import) (late : list (Z * list data_row)) (frozen : list Column) (ph : phase) : Prop :=
  let mine := of_attempt (ip_id job) (ip_attempt job) (table_rows d (ip_dataset job)) in
  match ph with
  | Unstaged => late = [] ∧ mine = []
  | Staging rows => late = [] ∧ has_columns d (ip_dataset job) frozen ∧ mine = attempt_row job <$> rows
  | Unsure rows more => has_columns d (ip_dataset job) frozen ∧ increasing (rows ++ more) ∧ more ≠ [] ∧
      ((late = [] ∧ mine = attempt_row job <$> (rows ++ more)) ∨
       ((late = [] ∨ late = [(ip_dataset job, attempt_row job <$> more)]) ∧ mine = attempt_row job <$> rows))
  | Broken | Sent => True
  end.
Record process_facts (d : cdb) (p : process) (ph : phase) (frozen : list Column) (key : string) : Prop := {
  pf_claim : ∃ i, c_imports d !! ip_id (pr_job p) = Some i ∧ same_import (pr_job p) i ∧ ip_attempt (pr_job p) <= ip_attempt i;
  pf_upload : ∃ up, c_uploads d !! ip_upload (pr_job p) = Some up ∧ up_key up = key;
  pf_frozen : standing_of d (pr_job p) (pr_owner p) ≠ Gone → frozen = Columns (ip_dataset (pr_job p)) d;
  pf_late : Forall (λ e : Z * list data_row, e.1 = ip_dataset (pr_job p) ∧
    Forall (λ r, dr_import r = ip_id (pr_job p) ∧ dr_attempt r = ip_attempt (pr_job p)) e.2) (pr_late p);
  pf_rows : standing_of d (pr_job p) (pr_owner p) = Current → phase_rows d (pr_job p) (pr_late p) frozen ph;
  pf_published : ∀ i, c_imports d !! ip_id (pr_job p) = Some i → ip_published i = Some (ip_attempt (pr_job p)) → ph = Sent ∧ pr_late p = [] }.
Definition item_ok (d : cdb) (item : CleanupImport) : Prop := ∃ i, c_imports d !! cl_id item = Some i ∧ active i = false ∧
  cl_dataset item = ip_dataset i ∧ cl_published item = ip_published i ∧
  (cl_retired item = true → ∀ da, c_datasets d !! ip_dataset i = Some da → da_generation da ≠ ip_generation i).

(** ** Standing *)

Lemma standing_current d job owner : standing_of d job owner = Current ↔
  ∃ i, c_imports d !! ip_id job = Some i ∧ ip_status i = ImportRunning ∧ ip_owner i = Some owner ∧ ip_attempt i = ip_attempt job.
Proof.
  unfold standing_of. destruct (c_imports d !! ip_id job) as [i|]; [|naive_solver]. destruct (active i) eqn:Ea.
  - destruct (owns owner (ip_attempt job) i) eqn:Eo; [apply owns_true in Eo; naive_solver|]. split; [done|]. intros (x & [= <-] & Hx). apply owns_true in Hx. congruence.
  - split; [done|]. intros (x & [= <-] & Hr & _). apply active_false in Ea. destruct Ea; congruence.
Qed.
Lemma standing_live d job owner : standing_of d job owner ≠ Gone ↔ ∃ i, c_imports d !! ip_id job = Some i ∧ active i = true.
Proof.
  unfold standing_of. destruct (c_imports d !! ip_id job) as [i|]; [|naive_solver]. destruct (active i) eqn:Ea.
  - destruct (owns _ _ _); naive_solver.
  - split; [done|]. intros (x & [= <-] & Hx). congruence.
Qed.
Lemma standing_kept d d' p ph frozen key : kept d d' → process_facts d p ph frozen key →
  (rank (standing_of d' (pr_job p) (pr_owner p)) <= rank (standing_of d (pr_job p) (pr_owner p)))%nat.
Proof.
  intros Hk [(i & Hi & _ & Hatt) _ _ _ _ _]. destruct (kp_imports _ _ Hk _ _ Hi) as (i' & Hi' & Hsame & Hle & Hfin & Hrun & _).
  unfold standing_of. rewrite Hi, Hi'. destruct (active i') eqn:Ea'; [|cbn; lia].
  assert (Ea : active i = true) by (destruct (active i) eqn:Ea; [done|]; rewrite (Hfin eq_refl) in Ea'; congruence). rewrite Ea.
  destruct (owns _ _ i') eqn:Eo'; [|destruct (owns _ _ i); cbn; lia]. apply owns_true in Eo' as (Hr' & Ho' & Ha').
  destruct (Hrun Hr') as [Hr Ho]; [lia|]. rewrite (proj2 (owns_true _ _ i)); [done|]. split_and!; [done|congruence|lia].
Qed.

(** ** Moves without publication *)

(** No import but [new] is published, and no finished import comes into its
    dataset's generation. *)
Record publishes_only (new : option Z) (d d' : cdb) : Prop := {
  un_imports : ∀ id i', c_imports d' !! id = Some i' → ip_status i' = ImportSucceeded → new ≠ Some id → c_imports d !! id = Some i';
  un_generation : ∀ x da' g, c_imports d !! ip_id x = Some x → active x = false → ip_generation x = Some g → c_datasets d' !! ip_dataset x = Some da' →
    da_generation da' = Some g → ∃ da, c_datasets d !! ip_dataset x = Some da ∧ da_generation da = Some g }.
Notation unpublished := (publishes_only None).
Lemma unpublished_same d d' : c_imports d' = c_imports d → c_datasets d' = c_datasets d → unpublished d d'.
Proof. intros Ei Ed. split; [by rewrite Ei|]. rewrite Ed. eauto. Qed.
Lemma unpublished_moves d d' : moves d d' → unpublished d d'.
Proof.
  intros (Hc & _ & Hm). split; [|rewrite (sc_datasets _ _ Hc); eauto]. intros id i' Hi' Hs _. specialize (Hm id). rewrite Hi' in Hm.
  destruct (c_imports d !! id) as [i|]; inversion Hm as [? ? Hmove|]; subst. f_equal.
  by destruct Hmove; cbn in *; try congruence.
Qed.
Lemma unpublished_dataset d b id da da' next : c_datasets d !! id = Some da → da_generation da' = da_generation da →
  unpublished d (set_c_base b (set_c_datasets (<[id := da']> (c_datasets d)) next d)).
Proof.
  intros Hda Hg. split; [done|]. cbn. intros k x g _ _ _ [[<- <-]|[_ Hx]]%lookup_insert_Some Hxg; [|by exists x]. exists da. by rewrite <- Hg.
Qed.
Lemma unpublished_submit requester input now d r d' : (∀ id da, c_datasets d !! id = Some da → da_id da = id) →
  Submit requester input now d = Ok (r, d') → unpublished d d'.
Proof.
  intros Hkey (da & up & g & s & [_ _ Ht _ _ _ _ _ (b & ->)] & _ & _)%Submit_effect; [|done]. split; cbn.
  - by intros id i' [[<- <-]|[_ Hi]]%lookup_insert_Some.
  - intros j x g' _ _ _. destruct Ht as [Hz da'|da name description Hz Hrow _ _ Hg _|da Hz Hrow]; cbn; [| |eauto].
    + intros [[<- <-]|[_ Hx]]%lookup_insert_Some Hg'; [done|eauto].
    + intros [[<- <-]|[_ Hx]]%lookup_insert_Some Hg'; [|eauto]. cbn in Hg'. congruence.
Qed.
Lemma background_effect op now d d' : datasets_ok d → background op = true → dataset_tx op now d = Ok (tt, d') →
  datasets_ok d' ∧ kept d d' ∧ unpublished d d' ∧ same_tables d d'.
Proof.
  intros Hok Hb H. assert (Hal : op_allowed d op) by (by destruct op). destruct (dataset_tx_effect _ _ _ _ Hok Hal H) as (Hok' & Hk & Ht). split_and!; try done.
  assert (Hkd : ∀ id da, c_datasets d !! id = Some da → da_id da = id) by (intros id x Hx; by destruct (ko_datasets _ Hok id x Hx) as [_ []]).
  assert (Hki : ∀ id i, c_imports d !! id = Some i → ip_id i = id) by (intros id x Hx; by destruct (ko_imports _ Hok id x Hx) as [_ []]).
  destruct op; try done; cbn [dataset_tx] in H; try (apply tx_bind_Ok in H as (x & s & H & [= ->])).
  - apply CreateUpload_effect in H as (b & _ & _ & _ & ->). by apply unpublished_same.
  - apply tx_bind_Ok in H as (n & s & [= _ <-] & [= _ <-]). by apply unpublished_same.
  - by eapply unpublished_submit.
  - apply UpdateMetadata_effect in H as (b & da & Hda & _ & _ & ->). by apply (unpublished_dataset _ _ _ da).
  - apply Archive_effect in H as (b & da & Hda & _ & _ & _ & ->). by apply (unpublished_dataset _ _ _ da).
  - by eapply unpublished_moves, Claim_moves.
  - by eapply unpublished_moves, Heartbeat_moves.
  - by eapply unpublished_moves, RequeueStale_moves.
Qed.

(** ** Rows *)

Lemma of_attempt_app id attempt rows more : of_attempt id attempt (rows ++ more) = of_attempt id attempt rows ++ of_attempt id attempt more.
Proof. apply filter_app. Qed.
Lemma of_attempt_none id attempt rows : (∀ r, r ∈ rows → ¬ (dr_import r = id ∧ dr_attempt r = attempt)) → of_attempt id attempt rows = [].
Proof.
  intros H. unfold of_attempt. induction rows as [|r rows IH]; [done|]. rewrite filter_cons_False by (apply H; by left).
  apply IH. intros x Hx. apply H. by right.
Qed.
Lemma of_attempt_all id attempt rows : Forall (λ r, dr_import r = id ∧ dr_attempt r = attempt) rows → of_attempt id attempt rows = rows.
Proof. unfold of_attempt. induction 1 as [|r rows Hr _ IH]; [done|]. rewrite filter_cons_True by done. by rewrite IH. Qed.
Lemma attempt_rows_keyed job rows : Forall (λ r, dr_import r = ip_id job ∧ dr_attempt r = ip_attempt job) (attempt_row job <$> rows).
Proof. apply Forall_fmap. by apply Forall_true. Qed.
(** What a cleanup does not match stays. *)
Lemma delete_limit_filter (P : data_row → Prop) `{∀ r, Decision (P r)} n cond rows : (∀ r, P r → cond r = false) →
  filter P (delete_limit n cond rows).1 = filter P rows.
Proof.
  intros Hc. revert n. induction rows as [|r rows IH]; intros n; [done|]. cbn [delete_limit]. destruct (cond r) eqn:E.
  - assert (Hr : ¬ P r) by (intros Hr; by rewrite (Hc r Hr) in E). destruct n as [|n]; [done|]. specialize (IH n). destruct (delete_limit n cond rows) as [kept deleted].
    cbn [fst] in IH |- *. by rewrite filter_cons_False.
  - specialize (IH n). destruct (delete_limit n cond rows) as [kept deleted]. cbn [fst] in IH |- *. rewrite !filter_cons. by rewrite IH.
Qed.
Lemma delete_limit_elem r n cond rows : r ∈ (delete_limit n cond rows).1 → r ∈ rows.
Proof.
  revert n. induction rows as [|x rows IH]; intros n; [done|]. cbn [delete_limit]. destruct (cond x).
  - destruct n as [|n]; [done|]. specialize (IH n). destruct (delete_limit n cond rows) as [kept deleted]. cbn in *. intros Hr. right. auto.
  - specialize (IH n). destruct (delete_limit n cond rows) as [kept deleted]. cbn in *. rewrite !elem_of_cons. intuition.
Qed.
Lemma insert_rows_effect dataset rows d d' : insert_rows dataset rows d = Ok (tt, d') → ∃ t, c_tables d !! dataset = Some t ∧
  d' = set_c_tables (<[dataset := mkDataTable (dt_columns t) (dt_rows t ++ rows)]> (c_tables d)) d.
Proof.
  unfold insert_rows. destruct (c_tables d !! dataset) as [t|]; [|done]. destruct (negb _); [done|]. destruct (negb _); [done|]. intros [= <-]. by exists t.
Qed.
Lemma table_rows_put d dataset t k : table_rows (set_c_tables (<[dataset := t]> (c_tables d)) d) k = if decide (k = dataset) then dt_rows t else table_rows d k.
Proof. unfold table_rows. cbn. case_decide as E; [by rewrite E, lookup_insert_eq|by rewrite lookup_insert_ne]. Qed.
Lemma table_rows_same d d' k : c_tables d' = c_tables d → table_rows d' k = table_rows d k.
Proof. unfold table_rows. by intros ->. Qed.

(** ** The table of a dataset *)

Definition ddl_table (o : option data_table) (s : ddl) : option data_table :=
  match s with DropTable => None | CreateTable columns => Some (mkDataTable columns []) | DropView | CreateView _ => o end.
Lemma run_ddl_frame dataset l : ∀ d, let d' := foldl (λ d s, run_ddl dataset s d) d l in ∃ views tables, d' = set_c_views views (set_c_tables tables d) ∧
  (∀ k, k ≠ dataset → tables !! k = c_tables d !! k) ∧ tables !! dataset = foldl ddl_table (c_tables d !! dataset) l.
Proof.
  induction l as [|s l IH]; intros d; cbn.
  - exists (c_views d), (c_tables d). by destruct d.
  - destruct (IH (run_ddl dataset s d)) as (v & t & Heq & Hk & Ht). cbn in Heq. rewrite Heq. exists v, t.
    assert (Hd : set_c_views v (set_c_tables t (run_ddl dataset s d)) = set_c_views v (set_c_tables t d)) by (by destruct s). split; [exact Hd|]. split.
    + intros k Hne. rewrite Hk by done. destruct s; cbn; rewrite ?lookup_delete_ne, ?lookup_insert_ne by done; done.
    + rewrite Ht. f_equal. destruct s; cbn; rewrite ?lookup_delete_eq, ?lookup_insert_eq; done.
Qed.
Definition exact_table (d : cdb) (dataset : Z) (columns : list Column) : bool :=
  match c_tables d !! dataset with Some t => bool_decide (dt_columns t = table_spec columns) | None => false end.
Lemma exact_table_spec d dataset columns : exact_table d dataset columns = true ↔ has_columns d dataset columns.
Proof. unfold exact_table, has_columns. destruct (c_tables d !! dataset) as [t|]; [|naive_solver]. rewrite bool_decide_eq_true. naive_solver. Qed.
(** [Ensure] leaves a table, makes one where there is none, or makes it
    anew when it may. *)
Inductive ensured (d : cdb) (dataset import : Z) (columns : list Column) : option data_table → Prop :=
  | ensured_same : ensured d dataset import columns (c_tables d !! dataset)
  | ensured_made : c_tables d !! dataset = None → ensured d dataset import columns (Some (mkDataTable (table_spec columns) []))
  | ensured_reset t : resetAllowed dataset import d = true → ¬ has_columns d dataset columns → match t with Some t => dt_rows t = [] ∧ dt_columns t = table_spec columns | None => True end →
      ensured d dataset import columns t.
Lemma Ensure_statements da columns import d statements outcome : Ensure da columns import d = (statements, outcome) →
  (∀ l k, statements = l ++ k → ensured d (da_id da) import columns (foldl ddl_table (c_tables d !! da_id da) l)) ∧
  (outcome = Ok tt → ∃ t, foldl ddl_table (c_tables d !! da_id da) statements = Some t ∧ dt_columns t = table_spec columns).
Proof.
  unfold Ensure. cbv zeta. fold (exact_table d (da_id da) columns). destruct (exact_table d (da_id da) columns) eqn:Ee.
  - (* the table is as it should be: only the view *)
    rewrite !andb_false_r. cbn [negb app]. pose proof Ee as Hx. apply exact_table_spec in Hx as (t & Ht & Hc). rewrite Ht. cbn [isSome andb].
    assert (Hview : ∀ l k, [DropView; CreateView (view_spec columns)] = l ++ k → foldl ddl_table (Some t) l = Some t).
    { intros [|a [|b [|c l]]] k E; cbn in E; try done; simplify_eq; done. }
    assert (Hres : ∀ l, foldl ddl_table (Some t) l = Some t → ensured d (da_id da) import columns (foldl ddl_table (Some t) l)) by (intros l ->; rewrite <- Ht; constructor).
    destruct (bool_decide (da_status da = DatasetProvisioning)); [destruct (resetAllowed _ _ _)|]; intros [= <- <-].
    + split; [|by exists t]. intros l k E. by eapply Hres, Hview.
    + split; [|done]. intros [|a l] k E; [|done]. by apply Hres.
    + split; [|by exists t]. intros [|a l] k E; [|done]. by apply Hres.
  - assert (Hne : ¬ has_columns d (da_id da) columns) by (rewrite <- exact_table_spec; congruence).
    cbn [negb]. rewrite !andb_true_r. destruct (c_tables d !! da_id da) as [t|] eqn:Et; cbn [isSome andb app].
    + destruct (bool_decide (da_status da = DatasetProvisioning)); cbn [negb]; [|intros [= <- <-]; split; [|done]; intros [|a l] k E; [rewrite <- Et; constructor|done]].
      destruct (resetAllowed (da_id da) import d) eqn:Er; cbn [negb]; [|intros [= <- <-]; split; [|done]; intros [|a l] k E; [rewrite <- Et; constructor|done]].
      intros [= <- <-]. split; [|by eexists]. intros l k E. destruct l as [|a [|b [|c [|e [|f [|g l]]]]]]; cbn in E; try done; simplify_eq; cbn.
      * rewrite <- Et. constructor.
      * rewrite <- Et. constructor.
      * by apply ensured_reset.
      * by apply ensured_reset.
      * by apply ensured_reset.
      * by apply ensured_reset.
    + assert (Hmade : ensured d (da_id da) import columns None) by (rewrite <- Et; constructor). assert (Hnew : ensured d (da_id da) import columns (Some (mkDataTable (table_spec columns) []))) by (by apply ensured_made).
      destruct (bool_decide (da_status da = DatasetProvisioning)); [destruct (resetAllowed _ _ _)|]; intros [= <- <-].
      * split; [|by eexists]. intros l k E. destruct l as [|a [|b [|c [|e l]]]]; cbn in E; try done; simplify_eq; done.
      * split; [|done]. intros l k E. destruct l as [|a [|b l]]; cbn in E; try done; simplify_eq; done.
      * split; [|by eexists]. intros l k E. destruct l as [|a [|b l]]; cbn in E; try done; simplify_eq; done.
Qed.
Lemma run_ensure_effect da columns import n d r d' : run_ensure da columns import n d = (r, d') → ∃ views tables, d' = set_c_views views (set_c_tables tables d) ∧
  (∀ k, k ≠ da_id da → tables !! k = c_tables d !! k) ∧ ensured d (da_id da) import columns (tables !! da_id da) ∧
  (is_ok r = true → has_columns d' (da_id da) columns).
Proof.
  unfold run_ensure. destruct (Ensure da columns import d) as [statements outcome] eqn:E. apply Ensure_statements in E as [Hpre Hok]. destruct n as [n|]; intros [= <- <-].
  - destruct (run_ddl_frame (da_id da) (take n statements) d) as (v & t & -> & Hk & Ht). exists v, t. split_and!; try done. rewrite Ht.
    apply (Hpre _ (drop n statements)). by rewrite take_drop.
  - destruct (run_ddl_frame (da_id da) statements d) as (v & t & -> & Hk & Ht). exists v, t. split_and!; try done.
    + rewrite Ht. apply (Hpre _ []). by rewrite app_nil_r.
    + destruct outcome as [[]|]; [|done]. intros _. destruct (Hok eq_refl) as (x & Hx & Hc). exists x. cbn. by rewrite Ht.
Qed.

(** ** Frames *)

(** What a step leaves of the rows of an attempt. *)
Definition rows_kept (d d' : cdb) (job : Import) : Prop :=
  let dataset := ip_dataset job in
  let mine d := of_attempt (ip_id job) (ip_attempt job) (table_rows d dataset) in
  (mine d' = mine d ∧ (has_columns d dataset (Columns dataset d) → has_columns d' dataset (Columns dataset d))) ∨
  (¬ has_columns d dataset (Columns dataset d) ∧ table_rows d' dataset = []).
Lemma rows_kept_same d d' job : same_tables d d' → rows_kept d d' job.
Proof. intros [Ht _]. left. unfold has_columns. rewrite (table_rows_same d d') by done. by rewrite Ht. Qed.

Lemma facts_frame new d d' p ph frozen key : kept d d' → publishes_only new d d' →
  (∀ i', new = Some (ip_id (pr_job p)) → c_imports d' !! ip_id (pr_job p) = Some i' → ip_published i' ≠ Some (ip_attempt (pr_job p))) →
  (standing_of d' (pr_job p) (pr_owner p) = Current → rows_kept d d' (pr_job p)) → datasets_ok d' → process_facts d p ph frozen key → process_facts d' p ph frozen key.
Proof.
  intros Hk Hu Hnew Hrows Hok' Hf. pose proof (standing_kept _ _ _ _ _ _ Hk Hf) as Hrank. destruct Hf as [(i & Hi & Hsame & Hatt) (up & Hup & Hkey) Hfr Hlate Hph Hpub].
  destruct (kp_imports _ _ Hk _ _ Hi) as (i' & Hi' & Hsame' & Hle & _). split.
  - exists i'. split_and!; [done|by eapply same_import_trans|lia].
  - destruct (kp_uploads _ _ Hk _ _ Hup) as (up' & Hup' & Hkey' & _). exists up'. split; [done|congruence].
  - intros Hs'. assert (Hs : standing_of d (pr_job p) (pr_owner p) ≠ Gone) by (intros E; rewrite E in Hrank; apply Hs'; by destruct (standing_of d' _ _); cbn in Hrank; try lia).
    rewrite (Hfr Hs). apply standing_live in Hs as (x & Hx & Ha), Hs' as (x' & Hx' & Ha'). unfold Columns.
    destruct Hsame as (_ & Hds & _). assert (x = i) as -> by congruence. assert (x' = i') as -> by congruence.
    by rewrite <- Hds, (kp_columns _ _ Hk _ _ Hi Ha _ Hi' Ha').
  - done.
  - intros Hs'. assert (Hs : standing_of d (pr_job p) (pr_owner p) = Current) by (rewrite Hs' in Hrank; by destruct (standing_of d _ _); cbn in Hrank; try lia).
    specialize (Hph Hs). assert (Hfr' : frozen = Columns (ip_dataset (pr_job p)) d) by (apply Hfr; by rewrite Hs). subst frozen.
    destruct (Hrows Hs') as [[Hm Hc]|[Hn He]].
    + destruct ph; cbn [phase_rows] in *; try done; rewrite ?Hm; intuition.
    + destruct ph; cbn [phase_rows] in *; try done; [|tauto..]. rewrite He. tauto.
  - intros x' Hx' Hp. assert (x' = i') as -> by congruence. destruct (ko_imports _ Hok' _ _ Hi') as [_ [_ _ (_ & _ & Hst) _ _]].
    assert (Hs : ip_status i' = ImportSucceeded). { destruct (ip_status i'); try done; exfalso; intuition congruence. }
    apply (Hpub i'); [|done]. apply (un_imports _ _ _ Hu); [done|done|]. intros E. by apply (Hnew i').
Qed.

Lemma item_frame new d d' item : datasets_ok d → kept d d' → publishes_only new d d' → item_ok d item → item_ok d' item.
Proof.
  intros Hok Hk Hu (i & Hi & Ha & Hds & Hp & Hr). destruct (kp_imports _ _ Hk _ _ Hi) as (i' & Hi' & _ & _ & Hfin & _). rewrite (Hfin Ha) in Hi'.
  exists i. split_and!; try done. intros Hret da' Hda' Hg. destruct (ko_imports _ Hok _ _ Hi) as [_ [_ _ _ Hgen _]].
  assert (Hsome : ∃ g, ip_generation i = Some g). { unfold generation_ok in Hgen. destruct (ip_mode i =? ModeReplace)%string; [by eexists|]. destruct Hgen as (_ & g & _ & -> & _). by eexists. }
  destruct Hsome as [g Hig]. assert (Hid : ip_id i = cl_id item) by (by destruct (ko_imports _ Hok _ _ Hi) as [_ []]).
  destruct (un_generation _ _ _ Hu i da' g) as (da0 & Hda0 & Hg0); [congruence|done|done|done|congruence|]. by apply (Hr Hret da0 Hda0); congruence.
Qed.
(** Rows of known imports. *)
Definition row_known (d : cdb) (dataset : Z) (r : data_row) : Prop :=
  ∃ i, c_imports d !! dr_import r = Some i ∧ ip_dataset i = dataset ∧ dr_attempt r <= ip_attempt i.
Lemma row_frame d d' dataset r : kept d d' → row_known d dataset r → row_known d' dataset r.
Proof.
  intros Hk (i & Hi & Hds & Ha). destruct (kp_imports _ _ Hk _ _ Hi) as (i' & Hi' & (_ & Hds' & _) & Hle & _). exists i'. split_and!; [done|congruence|lia].
Qed.

Section System.
Context {decimals : DecimalLibrary} (content : string → string).
Notation world_step := (world_step content).
Notation world_reachable := (world_reachable content).

(** ** What holds of every world *)

Definition process_ok (d : cdb) (p : process) : Prop := ∃ ph frozen key, process_facts d p ph frozen key ∧
  ensures (allowed (pr_job p) (pr_owner p) frozen key (content key)) (answers (pr_job p) frozen key (content key)) (pr_left p)
    (mkProgress (standing_of d (pr_job p) (pr_owner p)) ph) (λ _ _, True).

(** A published import of its dataset's generation has the rows of its file. *)
Definition file_published (d : cdb) (i : Import) : Prop :=
  ip_status i = ImportSucceeded → ∀ da, c_datasets d !! ip_dataset i = Some da → da_generation da = ip_generation i →
  ∃ rows, file_rows content d i = Some rows ∧ of_attempt (ip_id i) (ip_attempt i) (table_rows d (ip_dataset i)) = attempt_row i <$> rows ∧
    ip_staged i = Z.of_nat (length rows).
Record world_ok (w : world) : Prop := {
  wo_db : datasets_ok (w_db w);
  wo_processes : Forall (process_ok (w_db w)) (w_processes w);
  wo_keys : NoDup ((λ p, (ip_id (pr_job p), ip_attempt (pr_job p))) <$> w_processes w);
  wo_published : ∀ id i, c_imports (w_db w) !! id = Some i → file_published (w_db w) i;
  wo_rows : ∀ dataset r, r ∈ table_rows (w_db w) dataset → ∃ i, c_imports (w_db w) !! dr_import r = Some i ∧ ip_dataset i = dataset ∧ dr_attempt r <= ip_attempt i;
  wo_cleanup : Forall (item_ok (w_db w)) (w_cleanup w) }.

Lemma process_frame new d d' p : kept d d' → publishes_only new d d' → datasets_ok d' →
  (∀ i', new = Some (ip_id (pr_job p)) → c_imports d' !! ip_id (pr_job p) = Some i' → ip_published i' ≠ Some (ip_attempt (pr_job p))) →
  (standing_of d' (pr_job p) (pr_owner p) = Current → rows_kept d d' (pr_job p)) → process_ok d p → process_ok d' p.
Proof using.
  intros Hk Hu Hok' Hnew Hrows (ph & frozen & key & Hf & Hp). exists ph, frozen, key. split; [by eapply facts_frame|]. eapply ensures_drop; [by eapply standing_kept|done|exact Hp].
Qed.
Lemma published_frame new d d' i : datasets_ok d → kept d d' → publishes_only new d d' → c_imports d' !! ip_id i = Some i → new ≠ Some (ip_id i) →
  (ip_status i = ImportSucceeded → ∀ da, c_datasets d !! ip_dataset i = Some da → da_generation da = ip_generation i →
    of_attempt (ip_id i) (ip_attempt i) (table_rows d' (ip_dataset i)) = of_attempt (ip_id i) (ip_attempt i) (table_rows d (ip_dataset i))) →
  (c_imports d !! ip_id i = Some i → file_published d i) → file_published d' i.
Proof using.
  intros Hok Hk Hu Hi Hnew Hrows Hp Hs da' Hda' Hg. specialize (un_imports _ _ _ Hu _ _ Hi Hs Hnew) as Hi0. specialize (Hp Hi0 Hs).
  destruct (ko_imports _ Hok _ _ Hi0) as [_ [_ (up & Hup & _) _ Hgen (da & Hda & _)]].
  assert (Hsome : ∃ g, ip_generation i = Some g). { unfold generation_ok in Hgen. destruct (ip_mode i =? ModeReplace)%string; [by eexists|]. destruct Hgen as (_ & g & _ & -> & _). by eexists. }
  destruct Hsome as [g Hig]. destruct (un_generation _ _ _ Hu i da' g) as (da0 & Hda0 & Hg0); [done|apply active_false; auto|done|done|congruence|]. assert (da0 = da) as -> by congruence.
  destruct (Hp da Hda) as (rows & Hfile & Hmine & Hn); [congruence|]. exists rows. split_and!; [|by rewrite (Hrows Hs da Hda) by congruence|done].
  rewrite <- Hfile. unfold file_rows. destruct (kp_uploads _ _ Hk _ _ Hup) as (up' & -> & Hkey & _). rewrite Hup, Hkey. unfold Columns.
  destruct (kp_datasets _ _ Hk _ _ Hda) as (da2 & _ & _ & _ & _ & Hcols). destruct Hcols as [-> _]; [rewrite Hg0; by eexists|done].
Qed.
Lemma world_frame new d d' ps ps' cs : world_ok (mkWorld d ps cs) → datasets_ok d' → kept d d' → publishes_only new d d' → Forall (process_ok d') ps' →
  ((λ p, (ip_id (pr_job p), ip_attempt (pr_job p))) <$> ps' = (λ p, (ip_id (pr_job p), ip_attempt (pr_job p))) <$> ps) →
  (∀ i, c_imports d !! ip_id i = Some i → ip_status i = ImportSucceeded → ∀ da, c_datasets d !! ip_dataset i = Some da → da_generation da = ip_generation i →
    of_attempt (ip_id i) (ip_attempt i) (table_rows d' (ip_dataset i)) = of_attempt (ip_id i) (ip_attempt i) (table_rows d (ip_dataset i))) →
  (∀ dataset r, r ∈ table_rows d' dataset → r ∈ table_rows d dataset ∨ row_known d' dataset r) →
  (∀ i, c_imports d' !! ip_id i = Some i → new = Some (ip_id i) → file_published d' i) → world_ok (mkWorld d' ps' cs).
Proof using.
  intros [Hdb Hps Hkeys Hpub Hrows Hcs] Hok' Hk Hu Hps' Hkeys' Hmine Hnew Hpubs. cbn in *. split; cbn; [done|done|by rewrite Hkeys'| | |].
  - intros id i Hi. assert (ip_id i = id) as <- by (by destruct (ko_imports _ Hok' _ _ Hi) as [_ []]). destruct (decide (new = Some (ip_id i))) as [E|E]; [by apply Hpubs|].
    eapply published_frame; [exact Hdb|exact Hk|exact Hu|exact Hi|exact E| |].
    + intros Hs. apply Hmine; [|done]. by apply (un_imports _ _ _ Hu).
    + intros Hi0. by apply (Hpub (ip_id i)).
  - intros dataset r [Hr|Hr]%Hnew; [|done]. by eapply row_frame, Hrows.
  - eapply Forall_impl; [exact Hcs|]. intros item. by eapply item_frame.
Qed.

(** ** Calls on the tables *)

Definition key_of (p : process) : Z * Z := (ip_id (pr_job p), ip_attempt (pr_job p)).
Lemma other_keys ps1 p ps2 q : NoDup (key_of <$> ps1 ++ p :: ps2) → q ∈ ps1 ++ ps2 → key_of q ≠ key_of p.
Proof using.
  rewrite fmap_app, fmap_cons. intros Hnd Hq E. apply NoDup_app in Hnd as (_ & Hdis & Hnd). apply NoDup_cons in Hnd as [Hnin _].
  apply elem_of_app in Hq as [Hq|Hq]; apply (list_elem_of_fmap_2 key_of) in Hq.
  - apply (Hdis _ Hq). rewrite E. by left.
  - apply Hnin. by rewrite <- E.
Qed.
Lemma world_call d d' ps1 ps2 cs p p' : world_ok (mkWorld d (ps1 ++ p :: ps2) cs) → pr_job p' = pr_job p → datasets_ok d' → kept d d' → unpublished d d' →
  process_ok d' p' →
  (∀ q, process_ok d q → key_of q ≠ key_of p → standing_of d' (pr_job q) (pr_owner q) = Current → rows_kept d d' (pr_job q)) →
  (∀ i, c_imports d !! ip_id i = Some i → ip_status i = ImportSucceeded → ∀ da, c_datasets d !! ip_dataset i = Some da → da_generation da = ip_generation i →
    of_attempt (ip_id i) (ip_attempt i) (table_rows d' (ip_dataset i)) = of_attempt (ip_id i) (ip_attempt i) (table_rows d (ip_dataset i))) →
  (∀ dataset r, r ∈ table_rows d' dataset → r ∈ table_rows d dataset ∨ row_known d' dataset r) → world_ok (mkWorld d' (ps1 ++ p' :: ps2) cs).
Proof using.
  intros Hw Hjob Hok' Hk Hu Hp' Hq Hmine Hnew. eapply (world_frame None); [exact Hw|done|done|done| | |done|done|done].
  - pose proof (wo_processes _ Hw) as Hps. pose proof (wo_keys _ Hw) as Hnd. cbn in Hps, Hnd. apply Forall_app in Hps as [H1 [_ H2]%Forall_cons].
    assert (Hothers : ∀ q, q ∈ ps1 ++ ps2 → process_ok d q → process_ok d' q).
    { intros q Hin Hqok. apply (process_frame None d d'); [done|done|done|done| |done]. intros Hs. apply Hq; [done| |done]. by eapply other_keys. }
    apply Forall_app. split; [|apply Forall_cons; split; [done|]]; apply Forall_forall; intros q Hin; apply Hothers; rewrite ?elem_of_app; [by left|by eapply Forall_forall in H1|by right|by eapply Forall_forall in H2].
  - rewrite !fmap_app, !fmap_cons. by rewrite Hjob.
Qed.
(** A call that changes no table. *)
Lemma quiet_call d d' ps1 ps2 cs p p' : world_ok (mkWorld d (ps1 ++ p :: ps2) cs) → pr_job p' = pr_job p → datasets_ok d' → kept d d' → unpublished d d' →
  same_tables d d' → process_ok d' p' → world_ok (mkWorld d' (ps1 ++ p' :: ps2) cs).
Proof using.
  intros Hw Hj Hok' Hk Hu Ht Hp'. eapply world_call; try done.
  - intros q _ _ _. by apply rows_kept_same.
  - intros i _ _ da _ _. destruct Ht as [Ht _]. by rewrite (table_rows_same d d').
  - intros dataset r. destruct Ht as [Ht _]. rewrite (table_rows_same d d') by done. by left.
Qed.
Lemma attempt_published d i : datasets_ok d → c_imports d !! ip_id i = Some i → ip_status i = ImportSucceeded → ip_published i = Some (ip_attempt i).
Proof using. intros Hok Hi Hs. destruct (ko_imports _ Hok _ _ Hi) as [_ [_ _ (_ & _ & Hst) _ _]]. rewrite Hs in Hst. tauto. Qed.
Lemma set_tables_frame d views tables : datasets_ok d → let d' := set_c_views views (set_c_tables tables d) in datasets_ok d' ∧ kept d d' ∧ unpublished d d'.
Proof using. intros Hok d'. split_and!; [by apply (same_catalog_ok d)|by apply kept_same|by apply unpublished_same]. Qed.

Lemma insert_call d d' ps1 ps2 cs p p' rows ph frozen key : world_ok (mkWorld d (ps1 ++ p :: ps2) cs) → process_facts d p ph frozen key → (ph ≠ Sent ∨ pr_late p ≠ []) →
  insert_rows (ip_dataset (pr_job p)) rows d = Ok (tt, d') →
  Forall (λ r, dr_import r = ip_id (pr_job p) ∧ dr_attempt r = ip_attempt (pr_job p)) rows → pr_job p' = pr_job p → process_ok d' p' → world_ok (mkWorld d' (ps1 ++ p' :: ps2) cs).
Proof using.
  intros Hw Hf Hns (t & Ht & ->)%insert_rows_effect Hrows Hj Hp'. pose proof (wo_db _ Hw) as Hok. cbn in Hok.
  assert (Hd : ∀ tables, set_c_tables tables d = set_c_views (c_views d) (set_c_tables tables d)) by done.
  set (d' := set_c_tables _ d) in *. destruct (set_tables_frame d (c_views d) (<[ip_dataset (pr_job p) := mkDataTable (dt_columns t) (dt_rows t ++ rows)]> (c_tables d)) Hok) as (Hok' & Hk & Hu).
  assert (Htab : ∀ k, table_rows d' k = table_rows d k ++ if decide (k = ip_dataset (pr_job p)) then rows else []).
  { intros k. unfold d'. rewrite table_rows_put. case_decide as E; [|by rewrite app_nil_r]. unfold table_rows. rewrite E, Ht. done. }
  assert (Hother : ∀ id attempt k, (id, attempt) ≠ key_of p → of_attempt id attempt (table_rows d' k) = of_attempt id attempt (table_rows d k)).
  { intros id attempt k Hne. rewrite Htab, of_attempt_app, (of_attempt_none _ _ (if decide _ then _ else _)); [apply app_nil_r|]. intros r Hr [E1 E2].
    case_decide; [|by apply not_elem_of_nil in Hr]. rewrite Forall_forall in Hrows. destruct (Hrows _ Hr) as [E3 E4]. apply Hne. unfold key_of. congruence. }
  eapply world_call; [exact Hw|done|exact Hok'|exact Hk|exact Hu|done|..].
  - intros q _ Hne _. left. split; [by apply Hother|]. intros (t' & Ht' & Hc). unfold has_columns, d'. cbn. destruct (decide (ip_dataset (pr_job q) = ip_dataset (pr_job p))) as [E|E].
    + rewrite E, lookup_insert_eq. eexists. split; [done|]. cbn. rewrite <- E in *. congruence.
    + rewrite lookup_insert_ne by done. by exists t'.
  - intros i Hi Hs da _ _. apply Hother. intros E. injection E as E1 E2. pose proof (attempt_published _ _ Hok Hi Hs) as Hp. rewrite E1 in Hi. rewrite E2 in Hp.
    destruct (pf_published _ _ _ _ _ Hf i Hi Hp) as [? ?]. by destruct Hns.
  - intros k r. rewrite Htab, elem_of_app. intros [Hr|Hr]; [by left|right]. case_decide as E; [|by apply not_elem_of_nil in Hr].
    rewrite Forall_forall in Hrows. destruct (Hrows _ Hr) as [E1 E2]. destruct (pf_claim _ _ _ _ _ Hf) as (i & Hi & (_ & Hds & _) & Ha).
    exists i. rewrite E1, E2, E. split_and!; [exact Hi|done|done].
Qed.
Lemma reset_idle d dataset import : resetAllowed dataset import d = true → ∀ k i, c_imports d !! k = Some i → ip_dataset i = dataset →
  ip_status i ≠ ImportSucceeded ∧ (active i = true → ip_id i = import).
Proof using.
  unfold resetAllowed. destruct (c_datasets d !! dataset) as [da|]; [|done]. rewrite !andb_true_iff, !Z.eqb_eq. intros [[_ Hs] Ha] k i Hi Hd.
  pose proof (count_0 _ _ Hs k i Hi) as H1. pose proof (count_0 _ _ Ha k i Hi) as H2. unfold of_dataset in H1, H2. rewrite Hd, Z.eqb_refl in H1, H2. cbn [andb] in H1, H2.
  split; [by apply bool_decide_eq_false in H1|]. intros Hact. unfold active in Hact. unfold is_active in H2. rewrite Hact in H2. cbn in H2. apply negb_false_iff, Z.eqb_eq in H2. done.
Qed.
Lemma ensure_call d d' ps1 ps2 cs p p' da columns n r ph frozen key : world_ok (mkWorld d (ps1 ++ p :: ps2) cs) → process_facts d p ph frozen key →
  run_ensure da columns (ip_id (pr_job p)) n d = (r, d') → da_id da = ip_dataset (pr_job p) → (standing_of d (pr_job p) (pr_owner p) ≠ Gone → columns = frozen) →
  pr_job p' = pr_job p → process_ok d' p' → world_ok (mkWorld d' (ps1 ++ p' :: ps2) cs).
Proof using.
  intros Hw Hf (v & tabs & -> & Hk' & Hen & _)%run_ensure_effect Hda Hcol Hj Hp'. rewrite Hda in Hk', Hen. pose proof (wo_db _ Hw) as Hok. cbn in Hok.
  destruct (set_tables_frame d v tabs Hok) as (Hok' & Hk & Hu). set (d' := set_c_views _ _) in *. destruct (pf_claim _ _ _ _ _ Hf) as (i & Hi & (Hid & Hds & _) & _).
  assert (Hother : ∀ k, k ≠ ip_dataset (pr_job p) → table_rows d' k = table_rows d k ∧ ∀ columns, has_columns d k columns → has_columns d' k columns).
  { intros k Hne. unfold table_rows, has_columns, d'. cbn. by rewrite (Hk' k Hne). }
  assert (Hhere : (table_rows d' (ip_dataset (pr_job p)) = table_rows d (ip_dataset (pr_job p)) ∧ ∀ cs, has_columns d (ip_dataset (pr_job p)) cs → has_columns d' (ip_dataset (pr_job p)) cs) ∨
    (resetAllowed (ip_dataset (pr_job p)) (ip_id (pr_job p)) d = true ∧ ¬ has_columns d (ip_dataset (pr_job p)) columns ∧ table_rows d' (ip_dataset (pr_job p)) = [])).
  { unfold table_rows, has_columns, d'. cbn. destruct Hen as [|Hn|t Hra Hnc Ht].
    - by left.
    - left. rewrite Hn. split; [done|]. by intros cols (t & ? & _).
    - right. split_and!; [done|done|]. destruct t; [by destruct Ht|done]. }
  eapply world_call; [exact Hw|done|exact Hok'|exact Hk|exact Hu|done|..].
  - intros q (phq & fq & kq & Hfq & _) _ Hs. assert (Hsq : standing_of d (pr_job q) (pr_owner q) = Current) by exact Hs.
    destruct (decide (ip_dataset (pr_job q) = ip_dataset (pr_job p))) as [E|E]; cycle 1.
    { left. destruct (Hother _ E) as [-> Hc]. split; [done|apply Hc]. }
    unfold rows_kept. rewrite E. destruct Hhere as [[-> Hc]|(Hr & Hn & He)]; [left; split; [done|apply Hc]|right]. split; [|done].
    apply standing_current in Hsq as (x & Hx & Hrun & _). destruct (pf_claim _ _ _ _ _ Hfq) as (x' & Hx' & (Hidq & Hdsq & _) & _). assert (x' = x) as -> by congruence.
    assert (Hact : active x = true) by (apply active_spec; auto). destruct (reset_idle _ _ _ Hr _ _ Hx ltac:(congruence)) as [_ Hsame]. specialize (Hsame Hact).
    assert (Hlive : standing_of d (pr_job p) (pr_owner p) ≠ Gone). { apply standing_live. exists x. rewrite <- Hsame. split; [|done]. by rewrite Hidq. }
    rewrite <- (pf_frozen _ _ _ _ _ Hf Hlive), <- (Hcol Hlive). done.
  - intros x Hx Hs da' _ _. destruct (decide (ip_dataset x = ip_dataset (pr_job p))) as [E|E]; [|by destruct (Hother _ E) as [-> _]].
    rewrite E. destruct Hhere as [[-> _]|(Hr & _)]; [done|]. by destruct (reset_idle _ _ _ Hr _ _ Hx E).
  - intros k x Hx. left. destruct (decide (k = ip_dataset (pr_job p))) as [->|E]; [|by destruct (Hother _ E) as [<- _]].
    destruct Hhere as [[<- _]|(_ & _ & He)]; [done|]. rewrite He in Hx. by apply not_elem_of_nil in Hx.
Qed.
Lemma ensure_facts d d' p da columns n r frozen key : process_facts d p Unstaged frozen key → run_ensure da columns (ip_id (pr_job p)) n d = (r, d') →
  da_id da = ip_dataset (pr_job p) → (standing_of d (pr_job p) (pr_owner p) ≠ Gone → columns = frozen) →
  process_facts d' p (if is_ok r then Staging [] else Unstaged) frozen key.
Proof using.
  intros [Hcl Hup Hfr Hlate Hrows Hpub] (v & tabs & -> & _ & Hen & Hcols)%run_ensure_effect Hda Hcol. split; try done.
  - intros Hs. specialize (Hrows Hs) as [Hl Hm]. assert (Hm' : of_attempt (ip_id (pr_job p)) (ip_attempt (pr_job p)) (table_rows (set_c_views v (set_c_tables tabs d)) (ip_dataset (pr_job p))) = []).
    { unfold table_rows in *. cbn. rewrite <- Hda in *. destruct Hen as [|Hn|t _ _ Ht]; [done|done|]. destruct t; [destruct Ht as [-> _]|]; done. }
    destruct (is_ok r); [|by split]. split_and!; [done| |done]. rewrite <- Hcol by (intros E; change (standing_of d (pr_job p) (pr_owner p) = Current) in Hs; congruence).
    rewrite <- Hda. by apply Hcols.
  - intros i Hi Hp. by destruct (Hpub i Hi Hp).
Qed.
(** The cleanup removes no row an active attempt or a view has. *)
Lemma cleanup_world d d' ps cs item n : world_ok (mkWorld d ps cs) → item ∈ cs → CleanupRows item d = Ok (n, d') → world_ok (mkWorld d' ps cs).
Proof using.
  intros Hw Hin H. pose proof (wo_db _ Hw) as Hok. pose proof (wo_cleanup _ Hw) as Hcs. cbn in Hok, Hcs. rewrite Forall_forall in Hcs. destruct (Hcs _ Hin) as (i0 & Hi0 & Ha0 & Hds0 & Hp0 & Hret).
  unfold CleanupRows in H. destruct (c_datasets d !! cl_dataset item); [|done]. destruct (c_tables d !! cl_dataset item) as [t|] eqn:Et; [|done].
  pose proof (λ P, @delete_limit_filter P) as Hkeep. pose proof (λ r, delete_limit_elem r (Z.to_nat 5000) (cleanup_matches item) (dt_rows t)) as Helem.
  specialize (λ P D, Hkeep P D (Z.to_nat 5000) (cleanup_matches item) (dt_rows t)) as Hkeep.
  destruct (delete_limit (Z.to_nat 5000) (cleanup_matches item) (dt_rows t)) as [rest deleted]. cbn [fst] in Hkeep, Helem. injection H as _ <-.
  set (tabs := <[cl_dataset item := mkDataTable (dt_columns t) rest]> (c_tables d)). destruct (set_tables_frame d (c_views d) tabs Hok) as (Hok' & Hk & Hu).
  change (set_c_views (c_views d) (set_c_tables tabs d)) with (set_c_tables tabs d) in *. set (d' := set_c_tables tabs d) in *.
  assert (Hmine : ∀ id attempt k, (∀ r, dr_import r = id ∧ dr_attempt r = attempt → k = cl_dataset item → cleanup_matches item r = false) →
    of_attempt id attempt (table_rows d' k) = of_attempt id attempt (table_rows d k)).
  { intros id attempt k Hc. unfold d', tabs. rewrite table_rows_put. case_decide as E; [|done]. unfold table_rows. rewrite E, Et. cbn [dt_rows]. apply Hkeep. intros r Hr. by apply Hc. }
  eapply (world_frame None); [exact Hw|exact Hok'|exact Hk|exact Hu| |done| | |done].
  - pose proof (wo_processes _ Hw) as Hps. cbn in Hps. eapply Forall_impl; [exact Hps|]. intros q Hq. apply (process_frame None d d'); [done|done|done|done| |done].
    intros Hs. assert (Hsq : standing_of d (pr_job q) (pr_owner q) = Current) by exact Hs. apply standing_current in Hsq as (x & Hx & Hr & _). left. split.
    + apply Hmine. intros r [E _] _. unfold cleanup_matches. destruct (Z.eqb_spec (dr_import r) (cl_id item)) as [E'|]; [|done]. exfalso.
      assert (x = i0) as -> by congruence. apply active_false in Ha0. intuition congruence.
    + unfold has_columns, d', tabs. cbn. intros (t' & Ht' & Hc). destruct (decide (cl_dataset item = ip_dataset (pr_job q))) as [E|E].
      * rewrite E, lookup_insert_eq. eexists. split; [done|]. cbn. rewrite E in Et. congruence.
      * rewrite lookup_insert_ne by done. by exists t'.
  - intros i Hi Hs da Hda Hg. apply Hmine. intros r [E1 E2] _. unfold cleanup_matches. destruct (Z.eqb_spec (dr_import r) (cl_id item)) as [E'|]; [|done]. cbn [andb].
    assert (i = i0) as <- by congruence. rewrite Hp0, (attempt_published _ _ Hok Hi Hs), E2, Z.eqb_refl, orb_false_r.
    destruct (cl_retired item); [|done]. by destruct (Hret eq_refl da Hda).
  - intros k r. unfold d', tabs. rewrite table_rows_put. case_decide as E; [|by left]. cbn [dt_rows]. intros Hr. left. unfold table_rows. rewrite E, Et. by apply Helem.
Qed.
Lemma candidates_world d ps cs grace now : world_ok (mkWorld d ps cs) → world_ok (mkWorld d ps (cs ++ CleanupCandidates grace now d)).
Proof using.
  intros [Hok Hps Hkeys Hpub Hrows Hcs]. cbn in *. split; cbn; try done. apply Forall_app. split; [done|]. unfold CleanupCandidates. apply Forall_fmap, Forall_forall. intros i Hi.
  apply elem_of_select_by in Hi as [Hc (k & Hk)]. destruct (ko_imports _ Hok _ _ Hk) as [_ [Hid _ _ _ _]]. apply andb_true_iff in Hc as [Hst _].
  assert (Ha : active i = false). { apply active_false. apply orb_true_iff in Hst as [H%has_import_status_true|H%has_import_status_true]; auto. }
  exists i. cbn. rewrite Hid. split_and!; [done|done|done|done|]. unfold retired. intros [Hsucc%has_import_status_true Hret]%andb_true_iff da Hda Hg. rewrite Hda in Hret. cbn in Hret.
  destruct (da_generation da) as [g|] eqn:Eg; [rewrite <- Hg, Z.eqb_refl in Hret; done|].
  destruct (ko_datasets _ Hok _ _ Hda) as [_ [_ _ _ Hst']]. rewrite Eg in Hst'. destruct Hst' as (_ & _ & Hnone). by apply (Hnone k i).
Qed.

(** ** Publication *)

Lemma publish_only d d' job i da owner rows g now : datasets_ok d → of_claim d job → publication job owner rows now i da g d d' → publishes_only (Some (ip_id job)) d d'.
Proof using.
  intros Hok Hjob Hp. destruct (published_lookups _ _ _ _ _ _ _ _ _ Hok Hjob Hp) as (Ei & Ed & _). destruct (published_import _ _ _ _ _ _ _ _ _ Hok Hjob Hp) as (Hid & Hds & Hda & Hact).
  split.
  - intros id i'. rewrite Ei, Hid. intros [[<- <-]|[_ Hi]]%lookup_insert_Some _ Hne; [by destruct Hne|done].
  - intros x da' g' Hx Ha Hg. rewrite Ed. intros [[Hxd <-]|[_ Hd]]%lookup_insert_Some Hg'; [|eauto]. destruct (published_mode _ _ _ _ _ _ _ _ _ Hok Hp) as [[Hm Hgi]|(Hm & Hm' & _ & Hgen & _)].
    + exfalso. unfold published_dataset in Hg'. rewrite Hm in Hg'. cbn in Hg'. injection Hg' as <-. destruct (ko_imports _ Hok _ _ Hx) as [_ [_ _ _ Hgx _]]. unfold generation_ok in Hgx.
      pose proof (pb_import _ _ _ _ _ _ _ _ _ Hp) as Hrow. rewrite <- Hid in Hrow. destruct (pb_owned _ _ _ _ _ _ _ _ _ Hp) as (Hr & _).
      destruct (ip_mode x =? ModeReplace)%string; [|destruct Hgx as (_ & g2 & j & Hg2 & Hj & _ & _ & Hjs)]; [|congruence].
      assert (x = i) as -> by congruence. congruence.
    + exists da. unfold published_dataset in Hg'. rewrite Hm' in Hg'. cbn in Hg'. split; [|done]. rewrite <- Hxd, Hds. apply (pb_dataset _ _ _ _ _ _ _ _ _ Hp).
Qed.
Lemma rows_of_file_same i j columns source : same_import i j → rows_of_file i columns source = rows_of_file j columns source.
Proof using. intros (_ & _ & _ & Hd & Hh & _). unfold rows_of_file. by rewrite Hd, Hh. Qed.
Lemma publish_call d d' ps1 ps2 cs p p' rows now all frozen key : world_ok (mkWorld d (ps1 ++ p :: ps2) cs) → process_facts d p (Staging all) frozen key →
  rows <= MaxDataRows → rows = Z.of_nat (length all) → (standing_of d (pr_job p) (pr_owner p) ≠ Gone → rows_of_file (pr_job p) frozen (content key) = Some all) →
  Publish (pr_job p) (pr_owner p) rows now d = Ok (tt, d') → pr_job p' = pr_job p →
  (kept d d' → process_facts d' p Sent frozen key → process_ok d' p') → world_ok (mkWorld d' (ps1 ++ p' :: ps2) cs).
Proof using.
  intros Hw Hf Hmax Hlen Hfile H Hj Hp'. pose proof (wo_db _ Hw) as Hok. cbn in Hok.
  apply Publish_effect in H as (i & da & g & Hp); [|intros id x Hx; by destruct (ko_datasets _ Hok id x Hx) as [_ []]].
  destruct (pf_claim _ _ _ _ _ Hf) as (i0 & Hi0 & Hsame & Hatt). assert (Hjob : of_claim d (pr_job p)) by (by exists i0).
  assert (Hrows : 0 <= rows <= MaxDataRows) by lia.
  pose proof (DatasetInv.published_ok _ _ _ _ _ _ _ _ _ Hok Hjob Hrows Hp) as Hok'. pose proof (kept_published _ _ _ _ _ _ _ _ _ Hok Hjob Hp) as Hk. pose proof (publish_only _ _ _ _ _ _ _ _ _ Hok Hjob Hp) as Hu.
  destruct (published_lookups _ _ _ _ _ _ _ _ _ Hok Hjob Hp) as (Ei & Ed & Ec & Eu & _ & _ & _ & Ht). destruct (published_import _ _ _ _ _ _ _ _ _ Hok Hjob Hp) as (Hid & Hds & Hda & _).
  assert (Hi : c_imports d !! ip_id (pr_job p) = Some i) by apply (pb_import _ _ _ _ _ _ _ _ _ Hp). assert (i0 = i) as -> by congruence.
  destruct (pb_owned _ _ _ _ _ _ _ _ _ Hp) as (Hrun & Hown & Hia). set (i' := import_succeeded rows now i) in *.
  assert (Hi' : c_imports d' !! ip_id (pr_job p) = Some i') by (by rewrite Ei, Hid, lookup_insert_eq).
  assert (Hcur : standing_of d (pr_job p) (pr_owner p) = Current) by (apply standing_current; by exists i).
  destruct (pf_rows _ _ _ _ _ Hf Hcur) as (Hlate & _ & Hmine). assert (Hlive : standing_of d (pr_job p) (pr_owner p) ≠ Gone) by (by rewrite Hcur).
  assert (Hgone : standing_of d' (pr_job p) (pr_owner p) = Gone) by (unfold standing_of; by rewrite Hi').
  assert (Hfacts : process_facts d' p Sent frozen key).
  { split; [exists i'; split_and!; [done|exact Hsame|done]|rewrite Eu; apply Hf|by rewrite Hgone|apply Hf|by rewrite Hgone|done]. }
  specialize (Hp' Hk Hfacts). destruct Ht as [Htab Hview]. eapply (world_frame (Some (ip_id (pr_job p)))); [exact Hw|exact Hok'|exact Hk|exact Hu| | | | |].
  - pose proof (wo_processes _ Hw) as Hps. pose proof (wo_keys _ Hw) as Hnd. cbn in Hps, Hnd. apply Forall_app in Hps as [H1 [_ H2]%Forall_cons].
    assert (Hothers : ∀ q, q ∈ ps1 ++ ps2 → process_ok d q → process_ok d' q).
    { intros q Hin Hq. apply (process_frame (Some (ip_id (pr_job p))) d d'); [done|done|done| |by intros _; apply rows_kept_same|done]. intros x [= E] Hx Hpx.
      rewrite <- E, Hi' in Hx. injection Hx as <-. apply (other_keys _ _ _ _ Hnd Hin). unfold key_of. cbn in Hpx. congruence. }
    apply Forall_app. split; [|apply Forall_cons; split; [done|]]; apply Forall_forall; intros q Hin; apply Hothers; rewrite ?elem_of_app; [by left|by eapply Forall_forall in H1|by right|by eapply Forall_forall in H2].
  - rewrite !fmap_app, !fmap_cons. by rewrite Hj.
  - intros x _ _ dx _ _. by rewrite (table_rows_same d d').
  - intros k r. rewrite (table_rows_same d d') by done. by left.
  - intros x Hx [= E]. rewrite <- E, Hi' in Hx. injection Hx as <-. intros _ _ _ _. exists all. destruct (pf_upload _ _ _ _ _ Hf) as (up & Hup & Hkey).
    pose proof Hsame as (Hs1 & Hs2 & Hs3 & _). split_and!.
    + unfold file_rows. cbn [i' import_succeeded ip_upload ip_dataset]. rewrite Eu, Hs3, Hup, Hkey. rewrite <- (rows_of_file_same (pr_job p) i') by exact Hsame.
      rewrite <- Hfile by done. f_equal. unfold Columns. rewrite Ec, Hs2. symmetry. by apply (pf_frozen _ _ _ _ _ Hf).
    + rewrite (table_rows_same d d') by done. cbn [i' import_succeeded ip_id ip_attempt ip_dataset]. rewrite Hs1, Hs2, Hia, Hmine. unfold attempt_row. cbn. by rewrite Hs1, Hia.
    + exact Hlen.
Qed.

(** ** Every step *)

Lemma facts_left d p p' ph frozen key : process_facts d p ph frozen key → pr_job p' = pr_job p → pr_owner p' = pr_owner p → pr_late p' = pr_late p → process_facts d p' ph frozen key.
Proof using. intros [] Hj Ho Hl. split; rewrite ?Hj, ?Ho, ?Hl; done. Qed.
Lemma moves_frame d d' : datasets_ok d → moves d d' → datasets_ok d' ∧ kept d d' ∧ unpublished d d' ∧ same_tables d d'.
Proof using. intros Hok Hm. split_and!; [by eapply moves_ok, moves_quiet|by apply kept_moves|by apply unpublished_moves|by apply Hm]. Qed.
Lemma same_frame d : datasets_ok d → datasets_ok d ∧ kept d d ∧ unpublished d d ∧ same_tables d d.
Proof using. intros Hok. apply moves_frame; [done|apply moves_none]. Qed.
(** A call that leaves the tables: its answer and what it has done. *)
Lemma continue_call d d' ps1 ps2 cs job owner c k late r ph frozen key : world_ok (mkWorld d (ps1 ++ mkProcess job owner (Call c k) late :: ps2) cs) →
  process_facts d (mkProcess job owner (Call c k) late) ph frozen key →
  (∀ r s', answers job frozen key (content key) c (mkProgress (standing_of d job owner) ph) r s' → ensures (allowed job owner frozen key (content key)) (answers job frozen key (content key)) (k r) s' (λ _ _, True)) →
  datasets_ok d' ∧ kept d d' ∧ unpublished d d' ∧ same_tables d d' →
  steps job frozen key (content key) c (mkProgress (standing_of d job owner) ph) r (mkProgress (standing_of d' job owner) ph) →
  world_ok (mkWorld d' (ps1 ++ mkProcess job owner (k r) late :: ps2) cs).
Proof using.
  intros Hw Hf H (Hok' & Hk & Hu & Ht) Hs. eapply quiet_call; [exact Hw|done|exact Hok'|exact Hk|exact Hu|exact Ht|]. exists ph, frozen, key. split.
  - eapply facts_left; [eapply (facts_frame None d d'); [exact Hk|exact Hu|done| |exact Hok'|exact Hf]|done..]. intros _. by apply rows_kept_same.
  - apply H. split; [|done]. by apply (standing_kept _ _ _ _ _ _ Hk Hf).
Qed.
Lemma claim_step d d' ps cs owner locked now job : world_ok (mkWorld d ps cs) → Claim owner locked now d = Ok (Some job, d') →
  world_ok (mkWorld d' (ps ++ [mkProcess job owner (execute job owner) []]) cs).
Proof using.
  intros Hw H. pose proof (wo_db _ Hw) as Hok. cbn in Hok. assert (Hki : ∀ id i, c_imports d !! id = Some i → ip_id i = id) by (intros id x Hx; by destruct (ko_imports _ Hok id x Hx) as [_ []]).
  destruct (moves_frame _ _ Hok (Claim_moves _ _ _ _ _ _ Hki H)) as (Hok' & Hk & Hu & Ht). apply Claim_effect in H as (i & Hi & Hq & _ & _ & Hjob & -> & _); [|done].
  set (d' := set_c_imports _ _ d) in *. assert (Hi' : c_imports d' !! ip_id job = Some job) by (cbn; apply lookup_insert_eq).
  assert (Hold : world_ok (mkWorld d' ps cs)).
  { eapply (world_frame None); [exact Hw|exact Hok'|exact Hk|exact Hu| |done| | |done].
    - eapply Forall_impl; [apply (wo_processes _ Hw)|]. intros q. cbn. apply (process_frame None); [done|done|done|done|]. intros _. by apply rows_kept_same.
    - intros x _ _ dx _ _. by rewrite (table_rows_same d d') by apply Ht.
    - intros k r. rewrite (table_rows_same d d') by apply Ht. by left. }
  destruct (ko_imports _ Hok' _ _ Hi') as [_ [_ (up & Hup & _) _ _ _]].
  assert (Hcur : standing_of d' job owner = Current). { apply standing_current. exists job. rewrite Hjob in *. by split_and!. }
  destruct Hold as [Hok2 Hps Hkeys Hpub Hrows Hcs]. cbn in Hps, Hkeys. split; try done; cbn.
  - apply Forall_app. split; [done|]. apply Forall_singleton. exists Unstaged, (Columns (ip_dataset job) d'), (up_key up). split; [|apply execute_ensures]. split; cbn [pr_job pr_owner pr_late].
    + exists job. split_and!; [done|apply same_import_refl|done].
    + by exists up.
    + done.
    + done.
    + intros _. split; [done|]. apply of_attempt_none. intros r Hr [E1 E2]. rewrite (table_rows_same d d') in Hr by apply Ht. destruct (wo_rows _ Hw _ _ Hr) as (x & Hx & _ & Ha). cbn in Hx.
      rewrite E1, Hi in Hx. injection Hx as <-. rewrite E2, Hjob in Ha. cbn in Ha. lia.
    + intros x Hx Hp. rewrite Hi' in Hx. injection Hx as <-. exfalso. destruct (ko_imports _ Hok' _ _ Hi') as [_ [_ _ (_ & _ & Hst) _ _]]. rewrite Hjob in Hst, Hp. cbn in Hst, Hp. intuition congruence.
  - rewrite fmap_app. apply NoDup_app. split; [done|]. split; [|apply NoDup_singleton]. intros x Hx Hin. apply list_elem_of_singleton in Hin as ->.
    apply list_elem_of_fmap in Hx as (q & Hq' & Hin). cbn in Hq'. rewrite Forall_forall in Hps. pose proof (wo_processes _ Hw) as Hps0. cbn in Hps0. rewrite Forall_forall in Hps0.
    destruct (Hps0 _ Hin) as (ph & fr & ky & [(x & Hx & _ & Ha) _ _ _ _ _] & _). injection Hq' as E1 E2. rewrite <- E1, Hi in Hx. injection Hx as <-. rewrite Hjob in E2. cbn in E2. lia.
Qed.
Lemma answered_moves {A} d d' (m : Tx cdb A) (r : result A) : datasets_ok d → (∀ a e, m d = Ok (a, e) → moves d e) → answered m d r d' → moves d d'.
Proof using. intros _ Hm H. destruct r as [a|e]; [by eapply Hm|]. destruct H as [->|[a H]]; [apply moves_none|by eapply Hm]. Qed.
Lemma committed_moves {A} d d' (m : instant → Tx cdb A) (r : commit_answer A) : (∀ now a e, m now d = Ok (a, e) → moves d e) → committed m d r d' → moves d d'.
Proof using. intros Hm H. destruct r as [a|e|e]; [destruct H as [now H]; by eapply Hm|destruct H as [->|(now & a & H)]; [apply moves_none|by eapply Hm]|rewrite H; apply moves_none]. Qed.

Lemma inserted_rows d d' dataset rows : insert_rows dataset rows d = Ok (tt, d') →
  c_imports d' = c_imports d ∧ c_uploads d' = c_uploads d ∧ (∀ k, Columns k d' = Columns k d) ∧
  (∀ id attempt, Forall (λ r, dr_import r = id ∧ dr_attempt r = attempt) rows →
    of_attempt id attempt (table_rows d' dataset) = of_attempt id attempt (table_rows d dataset) ++ rows) ∧
  (∀ columns, has_columns d dataset columns → has_columns d' dataset columns).
Proof using.
  intros (t & Ht & ->)%insert_rows_effect. split_and!; try done.
  - intros id attempt Hr. rewrite table_rows_put, decide_True by done. cbn [dt_rows]. unfold table_rows. by rewrite Ht, of_attempt_app, (of_attempt_all _ _ rows).
  - intros columns (t' & Ht' & Hc). unfold has_columns. cbn. rewrite lookup_insert_eq. eexists. split; [done|]. cbn. congruence.
Qed.
Lemma inserted_facts d d' (p p' : process) rows ph ph' frozen key : insert_rows (ip_dataset (pr_job p)) rows d = Ok (tt, d') → process_facts d p ph frozen key →
  pr_job p' = pr_job p → pr_owner p' = pr_owner p → Forall (λ e, e ∈ pr_late p) (pr_late p') → (ph ≠ Sent ∨ pr_late p ≠ []) →
  (standing_of d (pr_job p) (pr_owner p) = Current → phase_rows d' (pr_job p) (pr_late p') frozen ph') → process_facts d' p' ph' frozen key.
Proof using.
  intros H [Hcl Hup Hfr Hlate Hrows Hpub] Hj Ho Hl Hns Hph. destruct (inserted_rows _ _ _ _ H) as (Ei & Eu & Ec & _).
  assert (Hst : standing_of d' (pr_job p) (pr_owner p) = standing_of d (pr_job p) (pr_owner p)) by (unfold standing_of; by rewrite Ei).
  split; rewrite ?Hj, ?Ho, ?Ei, ?Eu, ?Ec, ?Hst; try done.
  - eapply Forall_impl; [exact Hl|]. intros e He. rewrite Forall_forall in Hlate. by apply Hlate.
  - intros i Hi Hp. destruct (Hpub i Hi Hp) as [? ?]. by destruct Hns.
Qed.

Section Step.
Context (d d' : cdb) (ps1 ps2 : list process) (cs : list CleanupImport) (job : Import) (owner : string) (late late' : list (Z * list data_row)).

Lemma call_ensure da columns import k (r : result unit) : world_ok (mkWorld d (ps1 ++ mkProcess job owner (Call (CEnsure da columns import) k) late :: ps2) cs) →
  serves_call content (CEnsure da columns import) d late r d' late' → world_ok (mkWorld d' (ps1 ++ mkProcess job owner (k r) late' :: ps2) cs).
Proof using.
  intros Hw [-> Hs]. pose proof (wo_processes _ Hw) as Hps. cbn in Hps. apply Forall_app in Hps as [_ [(ph & frozen & key & Hf & (Hda & Himp & Hph & Hcol) & H) _]%Forall_cons].
  cbn in Hda, Himp, Hph, Hcol. subst import ph. destruct Hs as [[n Hrun]|[He ->]].
  - pose proof (ensure_facts _ _ _ _ _ _ _ _ _ Hf Hrun Hda Hcol) as Hf'. eapply ensure_call; [exact Hw|exact Hf|exact Hrun|exact Hda|exact Hcol|done|].
    eexists _, frozen, key. split; [eapply facts_left; [exact Hf'|done..]|]. apply H. split; [|done]. cbn. apply run_ensure_effect in Hrun as (v & tabs & -> & _). done.
  - eapply quiet_call; [exact Hw|done|apply same_frame, (wo_db _ Hw)..|]. exists Unstaged, frozen, key. split; [eapply facts_left; [exact Hf|done..]|]. apply H. split; [done|].
    cbn. by rewrite He.
Qed.
Lemma call_insert dataset rows k (r : result unit) : world_ok (mkWorld d (ps1 ++ mkProcess job owner (Call (CInsert dataset rows) k) late :: ps2) cs) →
  serves_call content (CInsert dataset rows) d late r d' late' → world_ok (mkWorld d' (ps1 ++ mkProcess job owner (k r) late' :: ps2) cs).
Proof using.
  intros Hw Hs. pose proof (wo_processes _ Hw) as Hps. cbn in Hps. apply Forall_app in Hps as [_ [(ph & frozen & key & Hf & (Hds & old & more & Hph & Hrows & Hne & Hinc) & H) _]%Forall_cons].
  cbn [pr_job pr_owner pr_late pr_left pg_phase] in Hds, Hph, Hrows, H. subst dataset ph rows. pose proof (attempt_rows_keyed job more) as Hkeyed.
  set (ph' := if is_ok r then Staging (old ++ more) else Unsure old more).
  assert (Hgo : ∀ d2 late2, standing_of d2 job owner = standing_of d job owner → process_facts d2 (mkProcess job owner (k r) late2) ph' frozen key → process_ok d2 (mkProcess job owner (k r) late2)).
  { intros d2 late2 Est Hf'. exists ph', frozen, key. split; [exact Hf'|]. apply H. split; [cbn; by rewrite Est|]. cbn. by exists old, more. }
  assert (Hdone : ∀ e, insert_rows (ip_dataset job) (attempt_row job <$> more) d = Ok (tt, e) → world_ok (mkWorld e (ps1 ++ mkProcess job owner (k r) late :: ps2) cs)).
  { intros e He. destruct (inserted_rows _ _ _ _ He) as (Ei & _ & _ & Hmine & Hcols). eapply insert_call; [exact Hw|exact Hf|by left|exact He|exact Hkeyed|done|].
    apply Hgo; [unfold standing_of; by rewrite Ei|]. eapply (inserted_facts d e (mkProcess job owner (Call (CInsert (ip_dataset job) (attempt_row job <$> more)) k) late)); [exact He|exact Hf|done..|by apply Forall_forall|by left|].
    intros Hcur. destruct (pf_rows _ _ _ _ _ Hf Hcur) as (Hlate & Hc & Hm). cbn [pr_job pr_late] in *.
    assert (Hm' : of_attempt (ip_id job) (ip_attempt job) (table_rows e (ip_dataset job)) = attempt_row job <$> (old ++ more)) by (by rewrite Hmine, Hm, fmap_app).
    unfold ph'. destruct (is_ok r); cbn [phase_rows]; split_and!; auto. }
  assert (Hwait : is_ok r = false → late' = late ∨ late' = (ip_dataset job, attempt_row job <$> more) :: late → world_ok (mkWorld d (ps1 ++ mkProcess job owner (k r) late' :: ps2) cs)).
  { intros Hr Hl. eapply quiet_call; [exact Hw|done|apply same_frame, (wo_db _ Hw)..|]. apply Hgo; [done|]. unfold ph'. rewrite Hr. destruct Hf as [Hcl Hup Hfr Hlate Hph Hpub]. split; try done; cbn [pr_job pr_owner pr_late] in *.
    - destruct Hl as [->| ->]; [done|]. apply Forall_cons. by split.
    - intros Hcur. destruct (Hph Hcur) as (El & Hc & Hm). rewrite El in Hl. cbn [phase_rows]. split_and!; [done|done|done|]. right. split; [by destruct Hl as [->| ->]; [left|right]|done].
    - intros i Hi Hp. by destruct (Hpub i Hi Hp). }
  destruct Hs as [[-> Ha]|(Hr & -> & Hl)]; [|by apply Hwait; [|right]]. destruct r as [[]|e]; [by apply Hdone|]. destruct Ha as [->|[[] Ha]]; [by apply Hwait; [|left]|by apply Hdone].
Qed.
Lemma in_range_below id attempt first last job' old rows : of_attempt id attempt rows = attempt_row job' <$> old → Forall (λ r : Z * list cell, r.1 < first) old →
  filter (λ r, in_range id attempt first last r = true) rows = [].
Proof using.
  intros Hm Hlt. apply elem_of_nil_inv. intros r Hr. apply list_elem_of_filter in Hr as [Hin Hr]. unfold in_range in Hin. rewrite !andb_true_iff, !Z.eqb_eq, !Z.leb_le in Hin.
  destruct Hin as [[[E1 E2] Hf] _]. assert (Hmine : r ∈ of_attempt id attempt rows) by (unfold of_attempt; by rewrite list_elem_of_filter). rewrite Hm in Hmine.
  apply list_elem_of_fmap in Hmine as (x & -> & Hx). rewrite Forall_forall in Hlt. specialize (Hlt x Hx). cbn in *. lia.
Qed.
Lemma increasing_head old more r : increasing (old ++ more) → head more = Some r → Forall (λ x : Z * list cell, x.1 < r.1) old.
Proof using.
  unfold increasing. rewrite fmap_app, StronglySorted_app. intros (Hlt & _ & _) Hh. apply Forall_forall. intros x Hx. apply Hlt.
  - by apply list_elem_of_fmap_2.
  - destruct more as [|y more]; [done|]. injection Hh as ->. by left.
Qed.
Lemma call_count dataset import attempt first last k (r : result Z) : world_ok (mkWorld d (ps1 ++ mkProcess job owner (Call (CCount dataset import attempt first last) k) late :: ps2) cs) →
  serves_call content (CCount dataset import attempt first last) d late r d' late' → world_ok (mkWorld d' (ps1 ++ mkProcess job owner (k r) late' :: ps2) cs).
Proof using.
  intros Hw (-> & -> & Hr). pose proof (wo_processes _ Hw) as Hps. cbn in Hps. apply Forall_app in Hps as [_ [(ph & frozen & key & Hf & Hal & H) _]%Forall_cons].
  cbn [pr_job pr_owner pr_late pr_left] in Hal, H. cbn in Hal. destruct Hal as (-> & -> & -> & old & more & x & y & -> & Hhead & -> & Hlast & ->).
  set (ph' := match r with Ok n => if n =? Z.of_nat (length more) then Staging (old ++ more) else Broken | Err _ => Broken end).
  eapply quiet_call; [exact Hw|done|apply same_frame, (wo_db _ Hw)..|]. exists ph', frozen, key. split; [|apply H; split; [done|cbn; by exists old, more]].
  destruct Hf as [Hcl Hup Hfr Hlate Hph Hpub]. cbn [pr_job pr_owner pr_late] in *. split; try done; cbn [pr_job pr_owner pr_late].
  - intros Hcur. destruct (Hph Hcur) as (Hc & Hinc & Hne & Hcase). unfold ph'. destruct r as [n|]; [|done]. destruct (Z.eqb_spec n (Z.of_nat (length more))) as [->|]; [|done].
    cbn [phase_rows]. destruct Hcase as [[Hl Hm]|[_ Hm]]; [done|]. exfalso. specialize (Hr _ eq_refl).
    rewrite (in_range_below _ _ _ _ _ _ _ Hm) in Hr by (by eapply increasing_head). destruct more; [done|]. cbn in Hr. lia.
  - intros i Hi Hp. by destruct (Hpub i Hi Hp).
Qed.
Lemma call_publish j o rows k (r : commit_answer unit) : world_ok (mkWorld d (ps1 ++ mkProcess job owner (Call (CPublish j o rows) k) late :: ps2) cs) →
  serves_call content (CPublish j o rows) d late r d' late' → world_ok (mkWorld d' (ps1 ++ mkProcess job owner (k r) late' :: ps2) cs).
Proof using.
  intros Hw (-> & Hr). pose proof (wo_processes _ Hw) as Hps. cbn in Hps. apply Forall_app in Hps as [_ [(ph & frozen & key & Hf & Hal & H) _]%Forall_cons].
  cbn [pr_job pr_owner pr_late pr_left] in Hal, H. cbn in Hal. destruct Hal as (-> & -> & Hmax & all & -> & -> & Hfile).
  assert (Hdone : ∀ now, Publish job owner (Z.of_nat (length all)) now d = Ok (tt, d') → world_ok (mkWorld d' (ps1 ++ mkProcess job owner (k r) late :: ps2) cs)).
  { intros now Hp. eapply publish_call; [exact Hw|exact Hf|exact Hmax|done|exact Hfile|exact Hp|done|]. intros Hk Hf'. exists Sent, frozen, key.
    split; [eapply facts_left; [exact Hf'|done..]|]. apply H. split; [|done]. by apply (standing_kept _ _ _ _ _ _ Hk Hf). }
  assert (Hnot : d' = d → world_ok (mkWorld d' (ps1 ++ mkProcess job owner (k r) late :: ps2) cs)).
  { intros ->. eapply quiet_call; [exact Hw|done|apply same_frame, (wo_db _ Hw)..|]. exists Sent, frozen, key. split; [|by apply H].
    destruct Hf as [Hcl Hup Hfr Hlate Hph Hpub]. split; try done. intros i Hi Hp. by destruct (Hpub i Hi Hp). }
  destruct r as [[]|e|e]; [destruct Hr as [now Hp]; by eapply Hdone| |by apply Hnot]. destruct Hr as [Hr|(now & [] & Hp)]; [by apply Hnot|by eapply Hdone].
Qed.
Lemma call_step c k (r : answer c) : world_ok (mkWorld d (ps1 ++ mkProcess job owner (Call c k) late :: ps2) cs) → serves_call content c d late r d' late' →
  world_ok (mkWorld d' (ps1 ++ mkProcess job owner (k r) late' :: ps2) cs).
Proof using.
  intros Hw Hs. destruct c; try (by eapply call_ensure); try (by eapply call_insert); try (by eapply call_count); try (by eapply call_publish);
    pose proof (wo_processes _ Hw) as Hps; cbn in Hps; apply Forall_app in Hps as [_ [(ph & frozen & ky & Hf & Hal & H) _]%Forall_cons]; pose proof (wo_db _ Hw) as Hok; cbn in Hok;
    cbn [pr_job pr_owner pr_late pr_left] in Hal, H; cbn in Hal, Hs; destruct Hs as [-> Hs];
    (eapply continue_call; [exact Hw|exact Hf|exact H| |]).
  all: try (destruct Hs as [-> Hr]; by apply same_frame). all: try (destruct Hs as [-> Hr]; cbn; split; [done|]).
  - intros da Hda. specialize (Hr _ Hda). unfold Find in Hr. destruct (c_datasets d !! dataset) as [x|] eqn:Ex; [|done]. injection Hr as ->. by destruct (ko_datasets _ Hok _ _ Ex) as [_ []].
  - intros cols Hc Hlive. rewrite (Hr _ Hc), Hal. symmetry. by apply (pf_frozen _ _ _ _ _ Hf).
  - intros up Hup. specialize (Hr _ Hup). unfold FindUpload in Hr. subst id. destruct (pf_upload _ _ _ _ _ Hf) as (x & Hx & Hky). cbn in Hx. rewrite Hx in Hr. by injection Hr as <-.
  - done.
  - intros f Hfl. rewrite (Hr _ Hfl). by rewrite Hal.
  - destruct Hal as (-> & -> & -> & Hst). apply moves_frame; [done|]. eapply answered_moves; [done| |exact Hs]. intros b e. by apply Progress_moves.
  - done.
  - done.
  - done.
  - apply moves_frame; [done|]. eapply committed_moves; [|exact Hs]. intros now b e He. by apply Fail_effect in He as [? _].
  - done.
  - done.
Qed.
End Step.
Lemma quiet_world d d' ps cs : world_ok (mkWorld d ps cs) → datasets_ok d' → kept d d' → unpublished d d' → same_tables d d' → world_ok (mkWorld d' ps cs).
Proof using.
  intros Hw Hok' Hk Hu [Ht Hv]. eapply (world_frame None); [exact Hw|exact Hok'|exact Hk|exact Hu| |done| | |done].
  - eapply Forall_impl; [apply (wo_processes _ Hw)|]. intros q. cbn. apply (process_frame None); [done|done|done|done|]. intros _. by apply rows_kept_same.
  - intros x _ _ dx _ _. by rewrite (table_rows_same d d').
  - intros k r. rewrite (table_rows_same d d') by done. by left.
Qed.
Lemma late_step d d' ps1 ps2 cs job owner left late1 late2 dataset rows : world_ok (mkWorld d (ps1 ++ mkProcess job owner left (late1 ++ (dataset, rows) :: late2) :: ps2) cs) →
  insert_rows dataset rows d = Ok (tt, d') → world_ok (mkWorld d' (ps1 ++ mkProcess job owner left (late1 ++ late2) :: ps2) cs).
Proof using.
  intros Hw Hi. pose proof (wo_processes _ Hw) as Hps. cbn in Hps. apply Forall_app in Hps as [_ [(ph & frozen & key & Hf & H) _]%Forall_cons]. cbn [pr_job pr_owner pr_late pr_left] in H.
  pose proof (pf_late _ _ _ _ _ Hf) as Hlate. cbn [pr_job pr_late] in Hlate. apply Forall_app in Hlate as [_ [[Hds Hkeyed] _]%Forall_cons]. cbn [fst snd] in Hds, Hkeyed. subst dataset.
  destruct (inserted_rows _ _ _ _ Hi) as (Ei & _ & _ & Hmine & Hcols). assert (Hne : late1 ++ (ip_dataset job, rows) :: late2 ≠ []) by (by destruct late1).
  eapply insert_call; [exact Hw|exact Hf|by right|exact Hi|exact Hkeyed|done|]. exists ph, frozen, key. split.
  - eapply (inserted_facts d d' (mkProcess job owner left (late1 ++ (ip_dataset job, rows) :: late2))); [exact Hi|exact Hf|done..| |by right|].
    + apply Forall_forall. cbn [pr_late]. intros e. rewrite !elem_of_app, elem_of_cons. tauto.
    + intros Hcur. pose proof (pf_rows _ _ _ _ _ Hf Hcur) as Hph. cbn [pr_job pr_owner pr_late] in *. destruct ph as [|old|old more| |]; cbn [phase_rows] in *; try done; try (by destruct Hph as [? _]).
      destruct Hph as (Hc & Hinc & Hnm & Hcase). split_and!; [by apply Hcols|done|done|]. destruct Hcase as [[? _]|[[?|Hl] Hm]]; [done|done|]. left.
      destruct late1 as [|x late1]; [|by destruct late1]. injection Hl as -> ->. split; [done|]. by rewrite (Hmine _ _ Hkeyed), Hm, fmap_app.
  - cbn [pr_job pr_owner pr_left]. unfold standing_of. rewrite Ei. exact H.
Qed.
Lemma world_step_ok w w' : world_ok w → world_step w w' → world_ok w'.
Proof using.
  intros Hw Hs. destruct Hs as [d d' ps cs op now Hb H|d b ps cs|d d' ps cs owner locked now job H|d d' ps1 ps2 cs job owner c k late late' r H
    |d d' ps1 ps2 cs job owner left late1 late2 dataset rows H|d ps cs grace now|d d' ps cs item n Hin H].
  - pose proof (wo_db _ Hw) as Hok. cbn in Hok. destruct (background_effect _ _ _ _ Hok Hb H) as (Hok' & Hk & Hu & Ht). by eapply quiet_world.
  - pose proof (wo_db _ Hw) as Hok. cbn in Hok. destruct (moves_frame _ _ Hok (moves_base b d)) as (Hok' & Hk & Hu & Ht). by eapply quiet_world.
  - by eapply claim_step.
  - by eapply call_step.
  - by eapply late_step.
  - by apply candidates_world.
  - by eapply cleanup_world.
Qed.
Lemma world_reachable_ok w : world_reachable w → world_ok w.
Proof using.
  induction 1 as [base|w w' _ IH Hs]; [|by eapply world_step_ok]. split; cbn; [apply empty_ok|done|constructor|done| |done].
  intros dataset r Hr. unfold table_rows in Hr. cbn in Hr. by apply not_elem_of_nil in Hr.
Qed.

(** ** What the view shows *)

Lemma total_ext_on (f f' : Import → Z) (t : gmap Z Import) : (∀ k i, t !! k = Some i → f i = f' i) → DatasetInv.total f t = DatasetInv.total f' t.
Proof using. intros H. unfold DatasetInv.total. f_equal. apply map_eq. intros k. rewrite !lookup_fmap. destruct (t !! k) as [i|] eqn:E; [|done]. cbn. f_equal. by eapply H. Qed.
(** The rows of a list that belong to imports of a table, counted import by
    import. *)
Lemma count_by_import (rows : list data_row) (t : gmap Z Import) : (∀ r, r ∈ rows → is_Some (t !! dr_import r)) →
  (∀ id i, t !! id = Some i → ip_id i = id) →
  Z.of_nat (length rows) = DatasetInv.total (λ i, Z.of_nat (length (filter (λ r, dr_import r = ip_id i) rows))) t.
Proof using.
  intros Hr Hid. induction rows as [|r rows IH].
  - symmetry. by apply total_zero.
  - destruct (Hr r) as [i Hi]; [by left|]. cbn [length]. rewrite Nat2Z.inj_succ, IH by (intros x Hx; apply Hr; by right).
    rewrite <- (insert_delete_id t _ _ Hi), !total_new by apply lookup_delete_eq.
    rewrite (total_ext_on (λ i, Z.of_nat (length (filter (λ x, dr_import x = ip_id i) (r :: rows)))) (λ i, Z.of_nat (length (filter (λ x, dr_import x = ip_id i) rows)))).
    + rewrite filter_cons_True by (symmetry; by apply Hid). cbn [length]. lia.
    + intros k x [Hne Hx]%lookup_delete_Some. rewrite filter_cons_False; [done|]. rewrite (Hid _ _ Hx). congruence.
Qed.
Lemma view_import d dataset da g id i : datasets_ok d → c_datasets d !! dataset = Some da → da_generation da = Some g → c_imports d !! id = Some i → ip_dataset i = dataset →
  filter (λ r, dr_import r = id) (view_rows d dataset) =
    if bool_decide (ip_status i = ImportSucceeded) && bool_decide (ip_generation i = Some g) then of_attempt id (ip_attempt i) (table_rows d dataset) else [].
Proof using.
  intros Hok Hda Hg Hi Hds. destruct (ko_imports _ Hok _ _ Hi) as [_ [Hid _ _ _ _]]. unfold view_rows, of_attempt. induction (table_rows d dataset) as [|r rows IH]; [by destruct (_ && _)|].
  destruct (decide (dr_import r = id)) as [E|E].
  - assert (Hs : shows d dataset r = bool_decide (ip_status i = ImportSucceeded) && bool_decide (ip_generation i = Some g) && bool_decide (dr_attempt r = ip_attempt i)).
    { unfold shows. rewrite Hda, E, Hi, Hds, Z.eqb_refl, Hg. cbn [andb]. case_bool_decide as Hst; [|done]. cbn [andb]. rewrite <- Hid in Hi. rewrite (attempt_published _ _ Hok Hi Hst).
      destruct (ip_generation i) as [g'|]; [|done]. f_equal; [|apply bool_decide_ext; split; [by intros [= ->]|by intros ->]].
      destruct (Z.eqb_spec g g') as [->|]; [by rewrite bool_decide_true|rewrite bool_decide_false; naive_solver]. }
    rewrite (filter_cons _ r rows). destruct (decide (shows d dataset r = true)) as [Ht|Ht]; rewrite Hs in Ht.
    + rewrite !andb_true_iff, !bool_decide_eq_true in Ht. destruct Ht as [[H1 H2] H3]. rewrite filter_cons_True by done. rewrite IH, !bool_decide_true by done. cbn [andb]. by rewrite filter_cons_True.
    + rewrite IH. destruct (bool_decide (ip_status i = ImportSucceeded)), (bool_decide (ip_generation i = Some g)); try done. cbn [andb] in *. rewrite bool_decide_eq_true in Ht.
      rewrite filter_cons_False; [done|]. tauto.
  - rewrite (filter_cons _ r rows). assert (Hf : filter (λ r, dr_import r = id ∧ dr_attempt r = ip_attempt i) (r :: rows) = filter (λ r, dr_import r = id ∧ dr_attempt r = ip_attempt i) rows) by (apply filter_cons_False; tauto).
    rewrite Hf. destruct (decide _); [|exact IH]. by rewrite filter_cons_False.
Qed.
End System.

(** C5: whatever workers, lost connections, requeued attempts and cleanups
    do, in every reachable state the view of a dataset that has a generation
    shows rows of the succeeded imports of that generation only; of each of
    them it shows exactly the data rows of its file, all of them, once, in
    the file's order; and the row count stored with the dataset is the number
    of rows the view shows, a million at most. *)
Theorem datasets_publish_files `{DecimalLibrary} (content : string → string) (w : world) (dataset : Z) (da : Dataset) (g : Z) :
  world_reachable content w → c_datasets (w_db w) !! dataset = Some da → da_generation da = Some g →
  (∀ r, r ∈ view_rows (w_db w) dataset → ∃ i, c_imports (w_db w) !! dr_import r = Some i ∧ ip_dataset i = dataset ∧
    ip_status i = ImportSucceeded ∧ ip_generation i = Some g) ∧
  (∀ id i, c_imports (w_db w) !! id = Some i → ip_dataset i = dataset → ip_status i = ImportSucceeded → ip_generation i = Some g →
    file_rows content (w_db w) i = Some ((λ r, (dr_source r, dr_values r)) <$> filter (λ r, dr_import r = id) (view_rows (w_db w) dataset))) ∧
  da_rows da = Z.of_nat (length (view_rows (w_db w) dataset)) ∧ da_rows da <= MaxDataRows.
Proof.
  intros Hw%world_reachable_ok Hda Hg. pose proof (wo_db _ _ Hw) as Hok. destruct (ko_datasets _ Hok _ _ Hda) as [_ [_ _ Hmax Hst]]. rewrite Hg in Hst. destruct Hst as (_ & Hrows & _).
  assert (Hview : ∀ r, r ∈ view_rows (w_db w) dataset → ∃ i, c_imports (w_db w) !! dr_import r = Some i ∧ ip_dataset i = dataset ∧ ip_status i = ImportSucceeded ∧ ip_generation i = Some g).
  { intros r [Hs _]%list_elem_of_filter. unfold shows in Hs. rewrite Hda, Hg in Hs. destruct (c_imports (w_db w) !! dr_import r) as [i|]; [|done].
    destruct (ip_generation i) as [g'|] eqn:Eg; [|by rewrite andb_false_r in Hs]. rewrite !andb_true_iff, !Z.eqb_eq, !bool_decide_eq_true in Hs.
    destruct Hs as [[[Hd Hs] ->] _]. by exists i. }
  assert (Hfile : ∀ id i, c_imports (w_db w) !! id = Some i → ip_dataset i = dataset → ip_status i = ImportSucceeded → ip_generation i = Some g →
    ∃ rows, file_rows content (w_db w) i = Some rows ∧ filter (λ r, dr_import r = id) (view_rows (w_db w) dataset) = attempt_row i <$> rows ∧ ip_staged i = Z.of_nat (length rows)).
  { intros id i Hi Hd Hs Hgi. rewrite (view_import _ _ _ _ _ _ Hok Hda Hg Hi Hd), !bool_decide_true by done. cbn [andb].
    destruct (ko_imports _ Hok _ _ Hi) as [_ [Hid _ _ _ _]]. destruct (wo_published _ _ Hw _ _ Hi Hs da) as (rows & Hf & Hm & Hn); [by rewrite Hd|congruence|].
    exists rows. rewrite <- Hid, <- Hd. by split_and!. }
  split_and!; [exact Hview| | |lia].
  - intros id i Hi Hd Hs Hgi. destruct (Hfile id i Hi Hd Hs Hgi) as (rows & -> & -> & _). f_equal. rewrite <- list_fmap_compose. symmetry. etrans; [|apply list_fmap_id].
    apply list_fmap_ext. by intros _ [] _.
  - rewrite Hrows, (count_by_import _ (c_imports (w_db w))).
    + apply total_ext_on. intros id i Hi. destruct (ko_imports _ Hok _ _ Hi) as [_ [Hid _ _ _ _]]. rewrite Hid.
      destruct (decide (ip_dataset i = dataset ∧ ip_status i = ImportSucceeded ∧ ip_generation i = Some g)) as [(Hd & Hs & Hgi)|Hn].
      * destruct (Hfile id i Hi Hd Hs Hgi) as (rows & _ & -> & Hn). by rewrite shown_staged, Hn, length_fmap.
      * rewrite (elem_of_nil_inv (filter _ _)).
        -- unfold shown. destruct (Z.eqb_spec (ip_dataset i) dataset); [|done]. cbn [andb]. case_bool_decide; [|done]. cbn [andb]. case_bool_decide; [|done]. tauto.
        -- intros r [E Hr]%list_elem_of_filter. apply Hview in Hr as (x & Hx & ?). rewrite E, Hi in Hx. injection Hx as <-. tauto.
    + intros r Hr. destruct (Hview r Hr) as (i & -> & _). by eexists.
    + intros id i Hi. by destruct (ko_imports _ Hok _ _ Hi) as [_ []].
Qed.

(** ** The table and the view of a published dataset *)

(** The columns of the table stay, and the view. *)
Definition objects_kept (dataset : Z) (d d' : cdb) : Prop :=
  c_views d' !! dataset = c_views d !! dataset ∧
  ∀ t, c_tables d !! dataset = Some t → ∃ t', c_tables d' !! dataset = Some t' ∧ dt_columns t' = dt_columns t.
Lemma objects_kept_same dataset d d' : same_tables d d' → objects_kept dataset d d'.
Proof. intros [Ht Hv]. split; [by rewrite Hv|]. rewrite Ht. eauto. Qed.
Lemma insert_rows_objects dataset k rows d d' : insert_rows k rows d = Ok (tt, d') → objects_kept dataset d d'.
Proof.
  intros (t & Ht & ->)%insert_rows_effect. split; [done|]. intros t' Ht'. cbn. destruct (decide (k = dataset)) as [->|E].
  - rewrite lookup_insert_eq. eexists. split; [done|]. cbn. congruence.
  - rewrite lookup_insert_ne by done. eauto.
Qed.
(** Nothing but a missing table is made when a reset is not allowed. *)
Lemma Ensure_idle da columns import d : resetAllowed (da_id da) import d = false →
  (Ensure da columns import d).1 = [] ∨ c_tables d !! da_id da = None ∧ (Ensure da columns import d).1 = [CreateTable (table_spec columns)].
Proof.
  intros Hr. unfold Ensure. cbv zeta. rewrite Hr. destruct (c_tables d !! da_id da) as [t|]; cbn [isSome andb negb].
  - left. destruct (bool_decide (dt_columns t = table_spec columns)); cbn [negb andb app]; destruct (bool_decide (da_status da = DatasetProvisioning)); done.
  - right. split; [done|]. destruct (bool_decide (da_status da = DatasetProvisioning)); done.
Qed.
Lemma run_ensure_objects dataset da columns import n d r d' g x : c_datasets d !! dataset = Some x → da_generation x = Some g →
  run_ensure da columns import n d = (r, d') → objects_kept dataset d d'.
Proof.
  intros Hx Hg H. destruct (decide (dataset = da_id da)) as [->|Hne]; cycle 1.
  - assert (Hrun : ∀ l e, objects_kept dataset d e → objects_kept dataset d (foldl (λ d s, run_ddl (da_id da) s d) e l)).
    { intros l. induction l as [|s l IH]; intros e [Hv Ht]; [done|]. cbn. apply IH. split.
      - destruct s; cbn; rewrite ?lookup_delete_ne, ?lookup_insert_ne by done; done.
      - destruct s; cbn; rewrite ?lookup_delete_ne, ?lookup_insert_ne by done; done. }
    assert (H0 : objects_kept dataset d d) by (by apply objects_kept_same).
    unfold run_ensure in H. destruct (Ensure da columns import d) as [l o]. destruct n as [n|]; injection H as _ <-; by apply Hrun.
  - assert (Hr : resetAllowed (da_id da) import d = false) by (unfold resetAllowed; rewrite Hx, Hg; cbn [isSome negb]; by rewrite andb_false_r).
    apply (Ensure_idle da columns) in Hr. unfold run_ensure in H. destruct (Ensure da columns import d) as [l o]. cbn [fst] in Hr.
    assert (Hl : ∀ k, (∃ rest, l = k ++ rest) → objects_kept (da_id da) d (foldl (λ d s, run_ddl (da_id da) s d) d k)).
    { intros k [rest E]. destruct Hr as [->|[Hn ->]].
      - destruct k; [|done]. by apply objects_kept_same.
      - destruct k as [|s k]; [by apply objects_kept_same|]. injection E as <- E. destruct k; [|done]. cbn. split; [done|]. by rewrite Hn. }
    destruct n as [n|]; injection H as _ <-; apply Hl; [exists (drop n l); by rewrite take_drop|exists []; by rewrite app_nil_r].
Qed.

