(* ===== verification/DatasetDemo.v ===== *)
(** * A concrete dataset

    A file is uploaded and imported, call by call, into a new dataset; the
    properties of the dataset files are applied to the execution.  In a
    second execution an earlier attempt of the import comes back between the
    preparation of the view and the publication.  The accounts are those of
    BrowserDemo.v. *)

From S2P Require Import Prelude Calendar Json Access AuditTrail Table Programs FixedPlans FixedCsv ReportParams BrowserStore BrowserDemo DatasetStore Datasets DatasetInv DatasetCsv DatasetPreview DatasetWorker DatasetAttempt DatasetWorld DatasetSystem.
From stdpp Require Import gmap.

Open Scope Z_scope.

#[local] Existing Instance plain_decimal.

(** ** Calls that succeed *)

Section Serve.
Context {decimals : DecimalLibrary} (content : string → string) (now : instant).

(** The answer of an undisturbed database. *)
Definition commits {A} (m : Tx cdb A) (d : cdb) : commit_answer A * cdb := match m d with Ok (a, d') => (Committed a, d') | Err e => (Aborted e, d) end.
Definition runs {A} (m : Tx cdb A) (d : cdb) : result A * cdb := match m d with Ok (a, d') => (Ok a, d') | Err e => (Err e, d) end.
Definition serve (c : call) (d : cdb) : answer c * cdb :=
  match c return answer c * cdb with
  | CFind dataset => (Find dataset d, d)
  | CColumns dataset => (Ok (Columns dataset d), d)
  | CFindUpload id => (FindUpload id d, d)
  | CEnsure da columns import => run_ensure da columns import None d
  | CPacket => (Ok 67108864, d)
  | COpen key => (Ok (content key, None), d)
  | CInsert dataset rows => runs (insert_rows dataset rows) d
  | CCount dataset import attempt first last => (Ok (Z.of_nat (length (filter (λ r, in_range import attempt first last r = true) (table_rows d dataset)))), d)
  | CProgress id owner attempt phase records staged => runs (Progress id owner attempt phase records staged) d
  | CPublish job owner rows => commits (Publish job owner rows now) d
  | CInspectPublished job => (inspect_published job d, d)
  | CCause => (None, d)
  | CFail job owner class message diagnostics truncated => commits (Fail_ job owner class message diagnostics truncated now) d
  | CInspectFailed job => (inspect_failed job d, d)
  end.
(** The next [n] calls of an attempt. *)
Fixpoint run_calls {A} (n : nat) (m : program A) (d : cdb) : program A * cdb :=
  match n, m with
  | S n, Call c k => run_calls n (k (serve c d).1) (serve c d).2
  | _, _ => (m, d)
  end.

Lemma serve_serves c d late : serves_call content c d late (serve c d).1 (serve c d).2 late.
Proof using.
  destruct c; cbn; try (split; [done|]); try (split; [done|]); try (by intros ? ?); try (by intros ? [= <-]); try done.
  - left. exists None. by destruct (run_ensure _ _ _ _ _).
  - left. split; [done|]. unfold runs, answered. destruct (insert_rows dataset rows d) as [[a d']|]; [done|by left].
  - unfold runs, answered. destruct (Progress _ _ _ _ _ _ d) as [[a d']|]; [done|by left].
  - unfold commits, committed. destruct (Publish _ _ _ _ d) as [[a d']|] eqn:E; [by exists now|done].
  - unfold commits, committed. destruct (Fail_ _ _ _ _ _ _ _ d) as [[a d']|] eqn:E; [by exists now|done].
Qed.
Lemma run_calls_reachable n : ∀ ps1 ps2 cs job owner late m d,
  world_reachable content (mkWorld d (ps1 ++ mkProcess job owner m late :: ps2) cs) →
  world_reachable content (mkWorld (run_calls n m d).2 (ps1 ++ mkProcess job owner (run_calls n m d).1 late :: ps2) cs).
Proof using.
  induction n as [|n IH]; intros ps1 ps2 cs job owner late m d Hw; [done|]. destruct m as [a|c k]; [done|]. cbn [run_calls]. apply IH.
  eapply world_next; [exact Hw|]. apply do_call, serve_serves.
Qed.
End Serve.

(** ** The file and the dataset *)

Definition demo_file : string := "id,amount" +:+ newline_text +:+ "1,2.5" +:+ newline_text +:+ "2," +:+ newline_text.
Definition demo_content (key : string) : string := demo_file.
Definition demo_requester : Requester := mkRequester (mkIdentity 1 "root") (mkIdentity 1 "root") 1 "admin" ∅.
Definition demo_columns : list Column := form_columns 0 ["id"; "amount"] ["id"; "amount"] [("integer", ""); ("decimal", "")].
Definition demo_submission : Submission := mkSubmission "Loans" "" 0 1 0 DelimiterComma 1 ModeReplace demo_columns.
Definition demo_owner : string := string_of_codes (repeat 97%N 64).
Definition demo_other : string := string_of_codes (repeat 98%N 64).
Definition after_dataset (op : dataset_op) (now : instant) (d : cdb) : cdb := (runTx (dataset_tx op now) d).2.
Definition claimed (owner : string) (now : instant) (d : cdb) : option Import * cdb := match Claim owner (λ _, false) now d with Ok r => r | Err _ => (None, d) end.

Definition stored_file : StoredFile := mkStoredFile "k1" "loans.csv" 24 "sha".
Definition data_1 : cdb := Eval vm_compute in after_dataset (OpCreateUpload demo_requester stored_file (demo_time + hour)) demo_time (empty_cdb demo_1).
Definition data_2 : cdb := Eval vm_compute in after_dataset (OpSubmit demo_requester demo_submission) demo_time data_1.
Definition data_3 : cdb := Eval vm_compute in (claimed demo_owner demo_time data_2).2.
Definition default_job (job : option Import) : Import := default (new_import 1 demo_submission (new_dataset 1 "" "" 1) demo_time 1) job.
Definition job_3 : Import := Eval vm_compute in default_job (claimed demo_owner demo_time data_2).1.
(** The whole attempt. *)
Definition data_4 : cdb := Eval vm_compute in (run_calls demo_content demo_time 20 (execute job_3 demo_owner) data_3).2.

Lemma data_2_reachable : world_reachable demo_content (mkWorld data_2 [] []).
Proof.
  eapply world_next; [|apply (do_operation demo_content data_1 data_2 [] [] (OpSubmit demo_requester demo_submission) demo_time); [done|vm_compute; reflexivity]].
  eapply world_next; [|apply (do_operation demo_content (empty_cdb demo_1) data_1 [] [] (OpCreateUpload demo_requester stored_file (demo_time + hour)) demo_time); [done|vm_compute; reflexivity]].
  apply world_empty.
Qed.
Lemma data_3_reachable : world_reachable demo_content (mkWorld data_3 [mkProcess job_3 demo_owner (execute job_3 demo_owner) []] []).
Proof.
  eapply world_next; [apply data_2_reachable|]. apply (do_claim demo_content data_2 data_3 [] [] demo_owner (λ _, false) demo_time job_3). vm_compute. reflexivity.
Qed.
Lemma data_4_reachable : world_reachable demo_content (mkWorld data_4 [mkProcess job_3 demo_owner (Ret Completed) []] []).
Proof.
  pose proof (run_calls_reachable demo_content demo_time 20 [] [] [] job_3 demo_owner [] (execute job_3 demo_owner) data_3 data_3_reachable) as H.
  assert (E1 : (run_calls demo_content demo_time 20 (execute job_3 demo_owner) data_3).2 = data_4) by (vm_compute; reflexivity).
  assert (E2 : (run_calls demo_content demo_time 20 (execute job_3 demo_owner) data_3).1 = Ret Completed) by (vm_compute; reflexivity).
  rewrite E1, E2 in H. exact H.
Qed.

(** ** The properties on the execution *)

Lemma datasets_publish_files_witness : ∃ da, c_datasets data_4 !! 1 = Some da ∧ da_status da = DatasetActive ∧ da_generation da = Some 1 ∧ da_rows da = 2 ∧
  view_rows data_4 1 = [mkDataRow 1 1 2 [CInteger 1; CDecimal "2.5"]; mkDataRow 1 1 3 [CInteger 2; CNull]] ∧
  da_rows da = Z.of_nat (length (view_rows data_4 1)).
Proof.
  destruct (c_datasets data_4 !! 1) as [da|] eqn:E; [|vm_compute in E; discriminate E]. exists da.
  assert (Hg : da_generation da = Some 1) by (vm_compute in E; injection E as <-; reflexivity).
  destruct (datasets_publish_files demo_content _ 1 da 1 data_4_reachable E Hg) as (_ & _ & Hrows & _).
  split; [reflexivity|]. split; [vm_compute in E; injection E as <-; reflexivity|]. split; [exact Hg|]. split; [vm_compute in E; injection E as <-; reflexivity|].
  split; [vm_compute; reflexivity|exact Hrows].
Defined.
Lemma QueryNames_identifiers_witness : QueryNames (λ s, (s =? "select")%string) ["Select"; "2nd"; "2nd"] = Ok ["select_column"; "column_2nd"; "column_2nd_2"] ∧
  NoDup ["select_column"; "column_2nd"; "column_2nd_2"].
Proof.
  destruct (QueryNames_identifiers (λ s, (s =? "select")%string) ["Select"; "2nd"; "2nd"]) as [_ H].
  assert (E : QueryNames (λ s, (s =? "select")%string) ["Select"; "2nd"; "2nd"] = Ok ["select_column"; "column_2nd"; "column_2nd_2"]) by (vm_compute; reflexivity).
  split; [exact E|]. apply (H _ E).
Defined.
Definition suggested_column : Column := mkColumn 1 "day" "day" "c001" TypeDate (Some "DD/MM/YYYY").
Lemma suggestion_fits_witness : is_ok (sqlType suggested_column) = true ∧ convert "31/01/2026" suggested_column = Ok (CTime (date_days (mkDate 2026 1 31) * day_length)).
Proof.
  destruct (suggestion_fits plain_decimal map_to_list ["31/01/2026"; ""] suggested_column) as (_ & Hty & Hconv).
  - intros m. reflexivity.
  - vm_compute. reflexivity.
  - split; [exact Hty|]. specialize (Hconv "31/01/2026"). vm_compute. reflexivity.
Defined.


(** ** An attempt that comes back *)

(** The first attempt stops before [Ensure]; its import is taken back and
    claimed by another worker, which gets as far as the publication. *)
Definition resumed : instant := demo_time + hour.
Definition left_3 : program execution := (run_calls demo_content demo_time 3 (execute job_3 demo_owner) data_3).1.
Definition back_1 : cdb := Eval vm_compute in after_dataset (OpRequeueStale minute) resumed data_3.
Definition back_2 : cdb := Eval vm_compute in (claimed demo_other resumed back_1).2.
Definition job_back : Import := Eval vm_compute in default_job (claimed demo_other resumed back_1).1.
Definition left_back : program execution := (run_calls demo_content resumed 9 (execute job_back demo_other) back_2).1.
Definition back_3 : cdb := Eval vm_compute in (run_calls demo_content resumed 9 (execute job_back demo_other) back_2).2.
(** Now the first attempt drops the view and its context ends before it
    creates it again. *)
Definition found_da : Dataset := Eval vm_compute in default (new_dataset 1 "" "" 1) (c_datasets data_3 !! 1).
Definition back_4 : cdb := Eval vm_compute in (run_ensure found_da (Columns 1 data_3) 1 (Some 1%nat) back_3).2.
Definition back_5 : cdb := Eval vm_compute in (run_calls demo_content resumed 5 left_back back_4).2.

Lemma calls_reachable n ps1 ps2 cs job owner late m d d' m' now : world_reachable demo_content (mkWorld d (ps1 ++ mkProcess job owner m late :: ps2) cs) →
  (run_calls demo_content now n m d).2 = d' → (run_calls demo_content now n m d).1 = m' → world_reachable demo_content (mkWorld d' (ps1 ++ mkProcess job owner m' late :: ps2) cs).
Proof. intros Hw <- <-. by apply run_calls_reachable. Qed.
Lemma back_1_reachable : world_reachable demo_content (mkWorld back_1 [mkProcess job_3 demo_owner left_3 []] []).
Proof.
  eapply world_next; [|apply (do_operation demo_content data_3 back_1 [mkProcess job_3 demo_owner left_3 []] [] (OpRequeueStale minute) resumed); [done|vm_compute; reflexivity]].
  apply (calls_reachable 3 [] [] [] job_3 demo_owner [] (execute job_3 demo_owner) data_3 data_3 left_3 demo_time data_3_reachable); [vm_compute; reflexivity|reflexivity].
Qed.
Lemma back_3_reachable : world_reachable demo_content (mkWorld back_3 [mkProcess job_3 demo_owner left_3 []; mkProcess job_back demo_other left_back []] []).
Proof.
  apply (calls_reachable 9 [mkProcess job_3 demo_owner left_3 []] [] [] job_back demo_other [] (execute job_back demo_other) back_2 back_3 left_back resumed); [|vm_compute; reflexivity|reflexivity].
  eapply world_next; [apply back_1_reachable|]. apply (do_claim demo_content back_1 back_2 [mkProcess job_3 demo_owner left_3 []] [] demo_other (λ _, false) resumed job_back). vm_compute. reflexivity.
Qed.
Definition next_call {A} (m : program A) : option call := match m with Call c _ => Some c | Ret _ => None end.
Lemma next_call_Some {A} (m : program A) c : next_call m = Some c → ∃ k, m = Call c k.
Proof. destruct m as [a|c' k]; [done|]. intros [= ->]. by exists k. Qed.
Lemma left_3_ensures : ∃ k, left_3 = Call (CEnsure found_da (Columns 1 data_3) 1) k.
Proof. apply next_call_Some. vm_compute. reflexivity. Qed.
Lemma back_5_reachable : ∃ ps, world_reachable demo_content (mkWorld back_5 ps []).
Proof.
  destruct left_3_ensures as [k Hk]. pose proof back_3_reachable as Hw. rewrite Hk in Hw. eexists.
  apply (calls_reachable 5 [mkProcess job_3 demo_owner (k (Err (Errorf "invalid connection"))) []] [] [] job_back demo_other [] left_back back_4 back_5 (run_calls demo_content resumed 5 left_back back_4).1 resumed);
    [|vm_compute; reflexivity|reflexivity].
  eapply world_next; [exact Hw|]. apply (do_call demo_content back_3 back_4 [] [mkProcess job_back demo_other left_back []] [] job_3 demo_owner (CEnsure found_da (Columns 1 data_3) 1) k [] [] (Err (Errorf "invalid connection"))).
  split; [reflexivity|]. left. exists (Some 1%nat). vm_compute. reflexivity.
Qed.

(** C38: a dataset can become active without its view: an earlier attempt
    of the same import, still allowed to prepare the objects, drops the view
    and ends before it creates it again, and the later attempt publishes.
    From then on no import of the dataset passes the check of its objects. *)
Theorem active_view_missing : ∃ w da, world_reachable (decimals := plain_decimal) demo_content w ∧ c_datasets (w_db w) !! 1 = Some da ∧ da_status da = DatasetActive ∧
  is_Some (da_generation da) ∧ view_rows (w_db w) 1 ≠ [] ∧ c_views (w_db w) !! 1 = None ∧
  ∀ columns import, is_ok (Ensure da columns import (w_db w)).2 = false.
Proof.
  destruct back_5_reachable as [ps Hw]. exists (mkWorld back_5 ps []). cbn [w_db]. destruct (c_datasets back_5 !! 1) as [da|] eqn:E; [|vm_compute in E; discriminate E]. exists da.
  assert (Hs : da_status da = DatasetActive ∧ da_id da = 1) by (vm_compute in E; injection E as <-; split; reflexivity). destruct Hs as [Hs Hid].
  split; [exact Hw|]. split; [reflexivity|]. split; [exact Hs|]. split; [vm_compute in E; injection E as <-; eexists; reflexivity|]. split; [vm_compute; discriminate|].
  assert (Hv : c_views back_5 !! 1 = None) by (vm_compute; reflexivity). split; [exact Hv|]. intros columns import. unfold Ensure. cbv zeta. rewrite Hs, Hid, Hv. cbn [bool_decide].
  rewrite (bool_decide_false (DatasetActive = DatasetProvisioning)) by done. destruct (isSome _ && _); done.
Qed.
